(* ===== verification/_CoqProject ===== *)
-Q . S2P
Prelude.v
Up.v
Address.v
FrameAllocator.v
PageTable.v
MemorySet.v
Ids.v
Scheduler.v
BlockCache.v
Bitmap.v
Layout.v
Tree.v
FileData.v
Codec.v
Efs.v
EfsProps.v
Vfs.v
VfsProps.v
Directory.v
Pipe.v
Processor.v
Sync.v
Process.v
ProcessTree.v
ProcessProps.v
Shell.v
LineEditor.v
Timer.v
Files.v
FileTree.v
PathProps.v
FileSystem.v
FsRefine.v
FsTree.v
Image.v
WorkingDirectory.v
Net.v
NetProps.v
ExecArgs.v
Tty.v
Syscalls.v
SyscallProps.v
Devices.v
UserSyscall.v
Abi.v
Trap.v
TrapProps.v
Descriptors.v
ShellJobs.v
ShellPipeline.v
ShellJobsProps.v
Threads.v
Eisenberg.v
Peterson.v
Coroutine.v
Executor.v
UserSync.v
Philosophers.v
ProducerConsumer.v
Barrier.v
Display.v
Snake.v
Http.v
