(* ===== verification/Prelude.v ===== *)
(** * A verification library for the TJU rCore tutorial kernel

    The program is a RISC-V kernel in Rust (os/), the easy-fs file system
    (easy-fs/), the tool that builds its disk image (easy-fs-fuse/) and the user
    programs that run on the kernel (user/).  This library translates the
    kernel's and the file system's own logic, the shell, and the user programs
    whose correctness is an argument of its own, into executable definitions and
    proves what they are for.  A definition keeps the name of the function it
    translates, with the type in front for a method ([PageTable_map] is
    [PageTable::map]); its arithmetic wraps at the width of the source's type
    where the release build wraps.  Paths below are relative to src/.

    ** How effects are modelled

    - A function that may panic is in the monad [M] of this file: a function
      from a state to a result and a state, or to a [fault].  [Panic] is a Rust
      panic, [Deadlock] a lock taken twice by its holder, and [NoFuel] a loop
      that has not ended within the fuel of the model.  [wp m Q s] says that
      [m] returns from [s] and its outcome satisfies [Q], so a [wp] excludes
      every fault.
    - File-system code is a [prog] over blocks (BlockCache.v): it names the
      blocks it locks and when it lets go of them.
    - Shared objects ([Arc], [Weak]) are numbers and the state has a table of
      what they stand for, so aliasing is visible; the count of an [Arc] is
      computed from the tables where the code reads or depends on it, with the
      local variables of calls that give up the processor ([w_stacks]).
    - A call that blocks is cut where the code gives up the processor or a
      lock: each piece is one atomic step, and the theorems about concurrent
      use quantify over all sequences of steps.
    - A user program of several threads is a step function per thread over the
      memory they share (Threads.v), and its theorems hold of every schedule.
    - Third-party code and hardware are parameters with their documented
      behaviour: the ELF reader, the linker's symbols, the shell's decoding of UTF-8,
      [BinaryHeap] and the network package lose-net-stack (classes, the first
      with laws), what a device has in its registers and queues, where the frame
      buffer is, the host's files when the disk image is built, and, for the
      snake, the generator oorandom and the rectangles of embedded-graphics (a
      class with its law).

    ** Files, from the bottom up

    Memory (os/src/mm) and cells (os/src/sync/up.rs).
    - Up.v: the interrupt-free cell; [interrupt_free_sessions] (between the borrow
      of a cell and its drop no interrupt is taken, however borrows nest, and the
      interrupt flag comes back as it was).
    - Address.v: address.rs, the four address types and ranges of pages.
    - FrameAllocator.v: frame_allocator.rs, frames and the counts of their
      trackers; [frame_tracker_accounting], [frame_conservation] and
      [alloc_more_contiguous].
    - PageTable.v: page_table.rs, the walk over tables in physical memory and
      the accessors of user memory; [page_table_refines_mapping] (a page table
      is a finite map), [page_table_op_exact], [translated_byte_buffer_exact].
    - MemorySet.v: memory_set.rs, areas, mmap, munmap, fork and copy-on-write;
      [mmap_correct], [munmap_correct], [mmap_first_fit], [cow_fault_private]
      (and the panics when frames run out, [mmap_out_of_frames_panics] and
      [run_cow_fault_no_frame]).
    - Ids.v: os/src/task/id.rs, recycled identifiers, kernel stacks and the
      user resources of a thread.

    Scheduling and synchronisation (os/src/task, os/src/sync).
    - Scheduler.v: scheduler/, manager.rs and the accounts of task.rs; the class
      [Scheduler] is the trait, [SchedulerLaws] what the task manager relies
      on, with the round-robin and the priority policy as instances;
      [task_manager_ready_set], [priority_dequeue_highest],
      [aging_no_starvation].
    - Processor.v: processor.rs, the running task and the moves between running,
      ready and blocked, for any [Scheduler].
    - Sync.v: mutex.rs, semaphore.rs, condvar.rs and syscall/sync.rs;
      [mutex_exclusion], [semaphore_accounting].
    - Timer.v: timer.rs and sys_sleep; [sleepers_wake_on_time].

    The file system (easy-fs/src, easy-fs-fuse/src).
    - BlockCache.v: block_cache.rs; [block_cache_refines] (the sixteen-entry
      write-back cache is indistinguishable from the device itself, faults
      included) is what lets the rest work over an array of blocks, and
      [synced_blocks_durable] what a sync leaves on the device.
    - Bitmap.v, Layout.v, Tree.v, FileData.v, Codec.v: bitmap.rs and layout.rs,
      with the block tree of a file ([file_growth_exact],
      [truncation_returns_all]), its contents ([file_write_then_read]) and the
      encodings.
    - Efs.v and EfsProps.v: efs.rs, creating and opening a file system.
    - Vfs.v, VfsProps.v and Directory.v: vfs.rs; [inode_write_then_read], and
      [directory_refines_map] (a directory is a finite map).
    - FileTree.v: the tree that the directories of a store form, and
      [lookup_path_walks] (resolving a path is walking it).
    - FileSystem.v, FsRefine.v and FsTree.v: all the inodes of a device at once.
      The abstract machine [fs_step] is a finite map of files and directories
      with a count of free blocks; [file_system_refines] (every sequence of calls
      it accepts runs on the disk and gives its answers), and
      [file_system_is_tree] (its directories stay a tree).
    - Image.v: easy-fs-fuse/src/main.rs; [image_holds_every_app].

    Processes, files and system calls (os/src/task, os/src/fs, os/src/syscall).
    - Pipe.v: fs/pipe.rs; [pipe_fifo], [pipe_transfer_terminates].
    - Process.v: task/process.rs, mod.rs, signal.rs, trap/context.rs and the
      calls on processes, threads, signals and descriptors, over the [World].
    - ProcessTree.v and ProcessProps.v: [process_tree] (parents, children,
      registrations and identifiers agree in every reachable world) and
      [reap_last_reference] (who still owns a child that is reaped: only threads
      caught inside a call, which the assertion of sys_waitpid does not expect).
    - Files.v, PathProps.v and WorkingDirectory.v: fs/inode.rs and the calls on
      paths; [chdir_path_agrees] (the working directory and its path),
      [move_below_itself_refused].
    - ExecArgs.v: the arguments [exec] writes and [_start] (user/src/lib.rs) reads
      back; [exec_arguments_arrive].
    - Tty.v: tty/mod.rs; [tty_delivers_edited_lines].
    - Syscalls.v and SyscallProps.v: the calls of syscall/process.rs and
      syscall/fs.rs that join the parts above into one [System];
      [user_range_writable_exact], [exec_searches_path].

    Devices, network and traps (os/src/drivers, os/src/net, os/src/trap).
    - Net.v and NetProps.v: the tables of ports and sockets, the handling of a
      frame, and the files of UDP and TCP; [socket_table_refines],
      [socket_read_next], [accept_connects].
    - Devices.v: the interrupt controller, the serial port, the input devices and
      the waiting of the block device; [plic_ops_exact].
    - UserSyscall.v and Abi.v: the system-call numbers and registers as the user
      library and the kernel write them; [abi_roundtrip] (they agree).
    - Trap.v and TrapProps.v: a trap from user mode to its end, with the dispatch
      of every system call, over the whole [Os]; [hart_step] is the machine.
      [ecall_reaches_handler] and [finish_trap_exact].

    The shell (user/src/bin/user_shell.rs).
    - Shell.v: [tokenize] and [parse_command]; [parse_command_well_formed],
      [parse_print_roundtrip].
    - LineEditor.v: the editing keys and [readline]; [line_editor_safe].
    - Descriptors.v: what a table of descriptors says to a process.
    - ShellJobs.v, ShellPipeline.v and ShellJobsProps.v: pipelines, jobs, built-in
      commands, the connectors of a line and the main loop, over the class
      [UserCalls] of the system calls the shell uses, with [UserCallsLaws] as
      their contract; [pipeline_plumbing] (every stage has the descriptors it
      should) and [line_loses_nothing] (no child or descriptor is lost, and the
      shell takes the terminal back).

    Programs of several threads (user/src/bin).
    - Threads.v: interleavings, their invariants, and sums over the threads.
    - Eisenberg.v and Peterson.v: locks from loads and stores;
      [eisenberg_excludes], [peterson_excludes], [adder_counts_exactly].
    - UserSync.v: the mutexes, semaphores and condition variables of Sync.v as
      the threads of a program see them, and who holds or waits for what.
    - Philosophers.v, ProducerConsumer.v and Barrier.v: phil_din_mutex.rs,
      mpsc_sem.rs and barrier_condvar.rs; [philosophers_all_eat] (with the main
      thread, which makes the mutexes while the first philosophers run),
      [producers_lose_nothing], [barrier_separates_phases].
    - Coroutine.v and Executor.v: stackful_coroutine.rs and
      stackless_coroutine.rs; [runtimes_run_in_rounds] (both run every task to
      its end, and print the same).

    Programs with a display or the network (user/src/io.rs, user/src/bin).
    - Display.v: the frame buffer as a program draws on it, and the word of an
      input event.
    - Snake.v: gui_snake.rs; [snake_frames_exact] (after every frame each cell of
      the screen shows what the state of the game says).
    - Http.v: tcp_simplehttp.rs; [http_server_answers] (the response to every
      request, and the inputs that end the server).

    How the parts fit: a page table owns frames of the allocator, an address
    space a page table, a process an address space; a thread is a task of the
    scheduler with resources in its process's address space; every blocking
    object moves tasks through the operations of Processor.v; the system calls
    reach user memory through PageTable.v, and files through Files.v, which
    calls Vfs.v; a trap enters all of them through Trap.v.  The laws of
    [Scheduler] are the interface between the policies and everything above
    them; [UserCallsLaws] is the one between the kernel and the shell.

    ** Bounds and fuel

    - Loops whose length the state bounds get that bound as fuel, and the
      theorems prove it is enough: the pages of a user buffer, the free pages
      [mmap] scans, the timers in the heap, the blocks of a file, the table of
      coroutines.
    - Loops the state does not bound take fuel as an argument: a string in user
      memory, reading a file whole, the strings [_start] reads (where
      [exec_arguments_arrive] asks for more than the longest), and the walk up of
      [rename_at], where [move_below_itself_refused] asks for more than the depth.
    - The shell polls its children: [wait_fuel] bounds the polls, and the theorems
      ask that it is above [max_polls], the number of times a child is found
      running.  [runtimes_run_in_rounds] asks for more fuel than there are lines
      to print and rounds, and [snake_frames_exact] that the generator offers,
      within the fuel, a cell the snake does not cover ([finds_free]).
    - Frames: the theorems about a page table and about [mmap] ask for the frames
      the operation may need, two for the tables and one for the page, and
      [cow_fault_private] says what happens without.  [sleepers_wake_on_time] is
      about deadlines below 2^63 ms, [semaphore_accounting] about counts below
      2^62, and [socket_read_next] about frames that can be answered; lemmas next
      to the one on timers and the one on the network show what the code does
      beyond.
    - [process_tree] is about worlds with fewer identifiers in use than a
      [usize] counts.  The theorems about files ask that the file stays within
      the block tree's limit of 16540 data blocks.

    ** What the model leaves out

    - Time and the clock registers: the time is an argument.  Interrupts are
      steps between the atomic pieces of calls; [interrupt_free_sessions] is why
      they need not be inside them.
    - [__switch] is the return to the idle loop; registers other than those of a
      trap context are not modelled, nor is the TLB.
    - The block layer runs one program at a time: a call that waits for the
      device is one step in Syscalls.v (in ProcessProps.v it may hold its process
      meanwhile), and two threads inside easy-fs at once are not modelled, so its spin locks only matter when one program
      takes a lock twice.  A device read out of range is a panic, and an inode
      whose type byte is neither file nor directory a fault.
    - Programs of several threads run on one processor, whose loads and stores
      take effect in order; the memory model of several is not considered.
    - The queues of the virtio devices and the graphics device, which belong to
      the virtio-drivers package; the boot sequence, logging and the console.
    - Of the user side, the wrappers of the library around its system calls, and
      the programs that are examples and tests of single calls. *)

From stdpp Require Export base option list numbers gmap fin_maps.
From stdpp Require Import strings.
From Stdlib Require Export ZArith Lia.
From Stdlib Require Import ZArith.Zdiv.

Open Scope Z_scope.

(** ** Faults and results *)

(** The ways a kernel function stops without returning: a Rust panic
    ([unwrap] on [None], a failed [assert!], an index out of range), waiting
    for a spin lock it already holds, or a loop that has not finished within
    the fuel of the model. *)
Inductive fault :=
  | Panic
  | Deadlock
  | NoFuel.

Inductive res (A : Type) :=
  | Ok (a : A)
  | Err (e : fault).
Arguments Ok {A} _.
Arguments Err {A} _.

#[export] Instance fault_eq_dec : EqDecision fault.
Proof. solve_decision. Defined.

(** Stateful code that may fault: the state is passed explicitly. *)
Definition M (S A : Type) : Type := S -> res (A * S).

#[export] Instance M_ret {S : Type} : MRet (M S) := fun A a s => Ok (a, s).
#[export] Instance M_bind {S : Type} : MBind (M S) := fun A B f m s =>
  match m s with
  | Ok (a, s') => f a s'
  | Err e => Err e
  end.

Section Operations.
Context {S : Type}.

Definition get : M S S := fun s => Ok (s, s).
Definition put (s : S) : M S unit := fun _ => Ok (tt, s).
Definition gets {A : Type} (f : S -> A) : M S A := fun s => Ok (f s, s).
Definition modify (f : S -> S) : M S unit := fun s => Ok (tt, f s).
Definition fail {A : Type} (e : fault) : M S A := fun _ => Err e.
Definition panic {A : Type} : M S A := fail Panic.

(** [assert!(b)]. *)
Definition massert (b : bool) : M S unit :=
  if b then mret tt else panic.

(** [o.unwrap()], [o.expect(..)] and an index expression on a slice. *)
Definition unwrap {A : Type} (o : option A) : M S A :=
  match o with
  | Some a => mret a
  | None => panic
  end.

(** [for x in l { f(x); }]. *)
Fixpoint mfor {A : Type} (l : list A) (f : A -> M S unit) : M S unit :=
  match l with
  | [] => mret tt
  | x :: l' => f x ;; mfor l' f
  end.

(** [for x in l { acc = f(acc, x); }]. *)
Fixpoint mfold {A B : Type} (f : B -> A -> M S B) (acc : B) (l : list A) : M S B :=
  match l with
  | [] => mret acc
  | x :: l' => acc' ← f acc x ; mfold f acc' l'
  end.

(** The weakest precondition of total correctness: the program returns (it
    neither panics nor runs out of fuel) and the result satisfies [Q]. *)
Definition wp {A : Type} (m : M S A) (Q : A -> S -> Prop) (s : S) : Prop :=
  match m s with
  | Ok (a, s') => Q a s'
  | Err _ => False
  end.

End Operations.

Section Wp.
Context {S : Type}.

Lemma wp_ret {A} (a : A) (Q : A -> S -> Prop) s : wp (mret a) Q s <-> Q a s.
Proof. done. Qed.

Lemma wp_bind {A B} (m : M S A) (k : A -> M S B) Q s :
  wp (m ≫= k) Q s <-> wp m (fun a s' => wp (k a) Q s') s.
Proof. unfold wp, mbind, M_bind. destruct (m s) as [[a s']|e]; done. Qed.

Lemma wp_mono {A} (m : M S A) (P Q : A -> S -> Prop) s :
  wp m P s -> (forall a s', P a s' -> Q a s') -> wp m Q s.
Proof. unfold wp. destruct (m s) as [[a s']|e]; auto. Qed.

Lemma wp_conj {A} (m : M S A) (P Q : A -> S -> Prop) s : wp m P s -> wp m Q s -> wp m (fun a s' => P a s' /\ Q a s') s.
Proof. unfold wp. by destruct (m s) as [[a s']|]. Qed.

Lemma wp_get (Q : S -> S -> Prop) s : wp get Q s <-> Q s s.
Proof. done. Qed.
Lemma wp_put (Q : unit -> S -> Prop) s s1 : wp (put s1) Q s <-> Q tt s1.
Proof. done. Qed.
Lemma wp_gets {A} (f : S -> A) (Q : A -> S -> Prop) s : wp (gets f) Q s <-> Q (f s) s.
Proof. done. Qed.
Lemma wp_modify (f : S -> S) (Q : unit -> S -> Prop) s :
  wp (modify f) Q s <-> Q tt (f s).
Proof. done. Qed.

Lemma wp_massert (b : bool) (Q : unit -> S -> Prop) s :
  wp (massert b) Q s <-> b = true /\ Q tt s.
Proof. destruct b; unfold wp; cbn; intuition congruence. Qed.

Lemma wp_unwrap {A} (o : option A) (Q : A -> S -> Prop) s :
  wp (unwrap o) Q s <-> exists a, o = Some a /\ Q a s.
Proof.
  destruct o; unfold wp; cbn; split; try done.
  - intros; eauto.
  - intros (? & [= <-] & ?); done.
  - intros (? & ? & ?); done.
Qed.

(** What a successful run tells, and how to build one. *)
Lemma wp_Ok {A} (m : M S A) Q s a s' : wp m Q s -> m s = Ok (a, s') -> Q a s'.
Proof. unfold wp. intros H E. rewrite E in H. exact H. Qed.

Lemma wp_run {A} (m : M S A) Q s : wp m Q s -> exists a s', m s = Ok (a, s') /\ Q a s'.
Proof. unfold wp. destruct (m s) as [[a s']|e]; [eauto|done]. Qed.

Lemma run_wp {A} (m : M S A) (Q : A -> S -> Prop) s a s' :
  m s = Ok (a, s') -> Q a s' -> wp m Q s.
Proof. unfold wp. intros E ?. rewrite E. done. Qed.

Lemma bind_Ok {A B} (m : M S A) (k : A -> M S B) s b s' :
  (m ≫= k) s = Ok (b, s') <-> exists a s1, m s = Ok (a, s1) /\ k a s1 = Ok (b, s').
Proof.
  unfold mbind, M_bind. destruct (m s) as [[a s1]|e]; split; [eauto| |done|].
  - intros (? & ? & [= -> ->] & ?). done.
  - intros (? & ? & ? & ?). done.
Qed.

Lemma wp_mfor {A} (l : list A) (f : A -> M S unit) (I : list A -> S -> Prop) s :
  I [] s ->
  (forall done x s, (done ++ [x]) `prefix_of` l -> I done s ->
     wp (f x) (fun _ s' => I (done ++ [x]) s') s) ->
  wp (mfor l f) (fun _ s' => I l s') s.
Proof.
  assert (forall rest done s, l = done ++ rest -> I done s ->
    (forall done x s, (done ++ [x]) `prefix_of` l -> I done s ->
     wp (f x) (fun _ s' => I (done ++ [x]) s') s) ->
    wp (mfor rest f) (fun _ s' => I l s') s) as H.
  { induction rest as [|x rest IH]; intros dn s0 Hl Hi Hf; cbn [mfor].
    - rewrite app_nil_r in Hl. subst. done.
    - apply wp_bind. eapply wp_mono.
      + apply Hf; [|exact Hi]. exists rest. rewrite <- app_assoc. exact Hl.
      + intros ? s1 H1. apply (IH (dn ++ [x])); [rewrite <- app_assoc; exact Hl|exact H1|exact Hf]. }
  intros H0 Hf. apply (H l []); auto.
Qed.

Lemma wp_mfold {A B} (f : B -> A -> M S B) (l : list A) (I : list A -> B -> S -> Prop) b s :
  I [] b s ->
  (forall done x b s, (done ++ [x]) `prefix_of` l -> I done b s ->
     wp (f b x) (fun b' s' => I (done ++ [x]) b' s') s) ->
  wp (mfold f b l) (fun b' s' => I l b' s') s.
Proof.
  assert (forall rest done b s, l = done ++ rest -> I done b s ->
    (forall done x b s, (done ++ [x]) `prefix_of` l -> I done b s ->
     wp (f b x) (fun b' s' => I (done ++ [x]) b' s') s) ->
    wp (mfold f b rest) (fun b' s' => I l b' s') s) as H.
  { induction rest as [|x rest IH]; intros dn b0 s0 Hl Hi Hf; cbn [mfold].
    - rewrite app_nil_r in Hl. subst. done.
    - apply wp_bind. eapply wp_mono.
      + apply Hf; [|exact Hi]. exists rest. rewrite <- app_assoc. exact Hl.
      + intros b1 s1 H1. apply (IH (dn ++ [x])); [rewrite <- app_assoc; exact Hl|exact H1|exact Hf]. }
  intros H0 Hf. apply (H l []); auto.
Qed.

End Wp.

(** Stepping tactics: [wp_step] consumes the head of a program in a [wp]
    goal. *)
Create Rewrite HintDb wp.
#[export] Hint Rewrite @wp_ret @wp_bind @wp_get @wp_put @wp_gets @wp_modify
  @wp_massert @wp_unwrap : wp.

Ltac wp_simpl := repeat (autorewrite with wp; cbn beta iota zeta).

(** ** Machine integers *)

Definition usize_bits : Z := 64.
Definition usize_max : Z := 2 ^ 64 - 1.
Definition u32_max : Z := 2 ^ 32 - 1.

(** Unsigned arithmetic of a release build: it wraps. *)
Definition usize_wrap (x : Z) : Z := x mod 2 ^ 64.
Definition u32_wrap (x : Z) : Z := x mod 2 ^ 32.

(** [x as isize] for a 64-bit word, and back ([as usize] is [usize_wrap]). *)
Definition as_isize (x : Z) : Z :=
  let y := x mod 2 ^ 64 in if y <? 2 ^ 63 then y else y - 2 ^ 64.

Definition checked_add (a b : Z) : option Z :=
  if a + b <? 2 ^ 64 then Some (a + b) else None.
Definition saturating_add (a b : Z) : Z := Z.min (a + b) usize_max.
Definition saturating_sub (a b : Z) : Z := Z.max (a - b) 0.

(** [!x] on a 64-bit word. *)
Definition usize_not (x : Z) : Z := usize_max - x.

Definition is_usize (x : Z) : Prop := 0 <= x < 2 ^ 64.
Definition is_u32 (x : Z) : Prop := 0 <= x < 2 ^ 32.
Definition is_byte (x : Z) : Prop := 0 <= x < 256.

#[export] Instance is_byte_dec x : Decision (is_byte x).
Proof. unfold is_byte. apply _. Defined.

(** Destructs the boolean comparisons of [Z] in the goal and the
    hypotheses. *)
Ltac case_zb :=
  repeat match goal with
  | |- context [Z.eqb ?a ?b] => destruct (Z.eqb_spec a b)
  | |- context [Z.ltb ?a ?b] => destruct (Z.ltb_spec a b)
  | |- context [Z.leb ?a ?b] => destruct (Z.leb_spec a b)
  | H : context [Z.eqb ?a ?b] |- _ => destruct (Z.eqb_spec a b)
  | H : context [Z.ltb ?a ?b] |- _ => destruct (Z.ltb_spec a b)
  | H : context [Z.leb ?a ?b] |- _ => destruct (Z.leb_spec a b)
  end.

(** [lia] with the equations of division and modulo by a constant. *)
Ltac zdiv_lia := Z.div_mod_to_equations; lia.

(** ** Bits *)

Lemma land_mask x n : 0 <= n -> Z.land x (Z.shiftl 1 n - 1) = x mod 2 ^ n.
Proof.
  intros. rewrite Z.shiftl_1_l, <- (Z.land_ones x n) by done.
  f_equal. rewrite Z.ones_equiv. lia.
Qed.

Lemma testbit_small x n i : 0 <= x < 2 ^ n -> n <= i -> Z.testbit x i = false.
Proof.
  intros [Hx0 Hx] Hi. destruct (Z.eq_dec x 0) as [->|].
  { apply Z.bits_0. }
  apply Z.bits_above_log2; [done|].
  apply Z.lt_le_trans with n; [|done]. apply Z.log2_lt_pow2; lia.
Qed.

(** Two bit fields that do not overlap combine by addition. *)
Lemma lor_shiftl_add a b n :
  0 <= n -> 0 <= b < 2 ^ n -> Z.lor (Z.shiftl a n) b = a * 2 ^ n + b.
Proof.
  intros Hn Hb. rewrite <- Z.shiftl_mul_pow2 by done.
  symmetry. apply Z.add_nocarry_lor. apply Z.bits_inj'. intros i Hi.
  rewrite Z.land_spec, Z.bits_0. destruct (Z.lt_ge_cases i n).
  - rewrite Z.shiftl_spec_low by done. done.
  - rewrite (testbit_small b n i) by done. apply andb_false_r.
Qed.

Lemma land_small_mod x n : 0 <= n -> Z.land x (2 ^ n - 1) = x mod 2 ^ n.
Proof. intros. rewrite <- land_mask, Z.shiftl_1_l by done. done. Qed.

(** ** Little-endian integers *)

Fixpoint le_bytes (n : nat) (z : Z) : list Z :=
  match n with
  | O => []
  | S n' => z mod 256 :: le_bytes n' (z / 256)
  end.

Fixpoint le_val (l : list Z) : Z :=
  match l with
  | [] => 0
  | b :: l' => b + 256 * le_val l'
  end.

Lemma length_le_bytes n z : length (le_bytes n z) = n.
Proof. revert z. induction n; intros; cbn; auto. Qed.

Lemma le_bytes_byte n z : Forall is_byte (le_bytes n z).
Proof.
  revert z. induction n; intros z; cbn; constructor; auto.
  unfold is_byte. apply Z.mod_pos_bound. lia.
Qed.

Lemma le_val_bytes n z : le_val (le_bytes n z) = z mod 2 ^ (8 * Z.of_nat n).
Proof.
  revert z. induction n as [|n IH]; intros z; cbn [le_bytes le_val].
  - rewrite Z.mul_0_r, Z.pow_0_r, Z.mod_1_r. done.
  - rewrite IH. replace (8 * Z.of_nat (S n)) with (8 + 8 * Z.of_nat n) by lia.
    rewrite Z.pow_add_r by lia. change (2 ^ 8) with 256.
    rewrite Z.rem_mul_r by lia. done.
Qed.

Lemma le_val_bytes_small n z :
  0 <= z < 2 ^ (8 * Z.of_nat n) -> le_val (le_bytes n z) = z.
Proof. intros. rewrite le_val_bytes. by apply Z.mod_small. Qed.

Lemma le_bytes_val l : Forall is_byte l -> le_bytes (length l) (le_val l) = l.
Proof.
  induction 1 as [|b l Hb Hl IH]; cbn; [done|]. unfold is_byte in Hb.
  f_equal.
  - rewrite Z.mul_comm, Z.mod_add by lia. apply Z.mod_small. done.
  - rewrite (Z.mul_comm 256), Z.div_add, Z.div_small, Z.add_0_l by lia. done.
Qed.

Lemma le_val_range l : Forall is_byte l -> 0 <= le_val l < 2 ^ (8 * Z.of_nat (length l)).
Proof.
  intros H. pose proof (le_val_bytes (length l) (le_val l)) as E.
  rewrite le_bytes_val in E by done. rewrite E.
  apply Z.mod_pos_bound. apply Z.pow_pos_nonneg; lia.
Qed.

(** ** Slices of lists *)

(** [&l[i..i + n]]. *)
Definition slice {A : Type} (i n : nat) (l : list A) : list A := take n (drop i l).

(** [l[i..i + src.len()].copy_from_slice(src)], for a slice that is in
    range. *)
Definition overwrite {A : Type} (i : nat) (src l : list A) : list A :=
  take i l ++ src ++ drop (i + length src) l.

Section Slices.
Context {A : Type}.
Implicit Types l src : list A.

Lemma length_slice i n l : (i + n <= length l)%nat -> length (slice i n l) = n.
Proof. intros. unfold slice. rewrite length_take, length_drop. lia. Qed.

Lemma length_overwrite i src l :
  (i + length src <= length l)%nat -> length (overwrite i src l) = length l.
Proof. intros. unfold overwrite. rewrite !length_app, length_take, length_drop. lia. Qed.

Lemma slice_overwrite_eq i src l :
  (i + length src <= length l)%nat -> slice i (length src) (overwrite i src l) = src.
Proof.
  intros. unfold slice, overwrite. rewrite drop_app_length' by (rewrite length_take; lia).
  by rewrite take_app_length.
Qed.

Lemma slice_lookup i n l j :
  (j < n)%nat -> slice i n l !! j = l !! (i + j)%nat.
Proof. intros. unfold slice. rewrite lookup_take_lt by done. apply lookup_drop. Qed.

Lemma overwrite_lookup_ne i src l j :
  (i + length src <= length l)%nat -> (j < i \/ i + length src <= j)%nat ->
  overwrite i src l !! j = l !! j.
Proof.
  intros Hl [Hj|Hj]; unfold overwrite.
  - rewrite lookup_app_l by (rewrite length_take; lia). by rewrite lookup_take_lt.
  - rewrite lookup_app_r by (rewrite length_take; lia).
    rewrite lookup_app_r by (rewrite length_take; lia).
    rewrite lookup_drop, length_take. f_equal. lia.
Qed.

Lemma overwrite_lookup_eq i src l j :
  (i + length src <= length l)%nat -> (j < length src)%nat ->
  overwrite i src l !! (i + j)%nat = src !! j.
Proof.
  intros Hl Hj. unfold overwrite.
  rewrite lookup_app_r by (rewrite length_take; lia).
  rewrite lookup_app_l by (rewrite length_take; lia).
  rewrite length_take. f_equal. lia.
Qed.

Lemma slice_overwrite_ne i n j src l :
  (j + length src <= length l)%nat ->
  (i + n <= j \/ j + length src <= i)%nat ->
  slice i n (overwrite j src l) = slice i n l.
Proof.
  intros Hl Hd. apply list_eq. intros k. destruct (decide (k < n)%nat).
  - rewrite !slice_lookup by done. apply overwrite_lookup_ne; [done|lia].
  - unfold slice. rewrite !lookup_take_ge by lia. done.
Qed.

Lemma overwrite_slice_id i n l :
  (i + n <= length l)%nat -> overwrite i (slice i n l) l = l.
Proof.
  intros. unfold overwrite. rewrite length_slice by done. unfold slice.
  rewrite <- drop_drop, take_drop, take_drop. done.
Qed.

Lemma overwrite_app i s1 s2 l :
  (i + length s1 + length s2 <= length l)%nat ->
  overwrite (i + length s1) s2 (overwrite i s1 l) = overwrite i (s1 ++ s2) l.
Proof.
  intros Hl. apply list_eq. intros j.
  assert (length (overwrite i s1 l) = length l) by (apply length_overwrite; lia).
  destruct (decide (j < i)%nat) as [|H1].
  { rewrite !overwrite_lookup_ne by (rewrite ?length_app; lia). done. }
  destruct (decide (j < i + length s1)%nat) as [|H2].
  { rewrite overwrite_lookup_ne by lia.
    replace j with (i + (j - i))%nat by lia.
    rewrite !overwrite_lookup_eq by (rewrite ?length_app; lia).
    rewrite lookup_app_l by lia. done. }
  destruct (decide (j < i + length s1 + length s2)%nat) as [|H3].
  { replace j with (i + length s1 + (j - i - length s1))%nat by lia.
    rewrite overwrite_lookup_eq by lia.
    rewrite <- Nat.add_assoc, overwrite_lookup_eq by (rewrite ?length_app; lia).
    rewrite lookup_app_r by lia. f_equal. lia. }
  rewrite !overwrite_lookup_ne by (rewrite ?length_app; lia). done.
Qed.

End Slices.

(** ** Searching lists *)

(** [l.iter().position(p)]: the index of the first element that satisfies
    [p]. *)
Fixpoint position {A : Type} (p : A -> bool) (l : list A) : option nat :=
  match l with
  | [] => None
  | x :: l' => if p x then Some O else S <$> position p l'
  end.

(** [l.iter().find(p)]. *)
Fixpoint find_first {A : Type} (p : A -> bool) (l : list A) : option A :=
  match l with
  | [] => None
  | x :: l' => if p x then Some x else find_first p l'
  end.

Section Searching.
Context {A : Type} (p : A -> bool).
Implicit Types l : list A.

Lemma position_Some l i :
  position p l = Some i <->
  exists x, l !! i = Some x /\ p x = true /\
    forall j y, (j < i)%nat -> l !! j = Some y -> p y = false.
Proof.
  revert i. induction l as [|a l IH]; intros i; cbn.
  { split; [done|]. intros (x & Hx & _). by rewrite lookup_nil in Hx. }
  destruct (p a) eqn:Ha.
  - split.
    + intros [= <-]. exists a. repeat split; auto. intros; lia.
    + intros (x & Hx & Hp & Hbefore). destruct i as [|i]; [done|].
      specialize (Hbefore O a ltac:(lia) eq_refl). congruence.
  - rewrite fmap_Some. split.
    + intros (j & Hj & ->). apply IH in Hj as (x & Hx & Hp & Hb).
      exists x. repeat split; auto. intros [|k] y Hk Hy; cbn in Hy.
      * congruence.
      * eapply Hb; [|done]. lia.
    + intros (x & Hx & Hp & Hb). destruct i as [|i]; cbn in Hx; [congruence|].
      exists i. split; [|done]. apply IH. exists x. repeat split; auto.
      intros j y Hj Hy. apply (Hb (S j)); [lia|done].
Qed.

Lemma position_None l : position p l = None <-> Forall (fun x => p x = false) l.
Proof.
  induction l as [|a l IH]; cbn; [split; [constructor|done]|].
  rewrite Forall_cons, <- IH. destruct (p a) eqn:Ha.
  - split; [done|]. intros [? _]; congruence.
  - rewrite fmap_None. split; [auto|]. by intros [_ ?].
Qed.

Lemma position_lt l i : position p l = Some i -> (i < length l)%nat.
Proof. intros (x & Hx & _)%position_Some. by eapply lookup_lt_Some. Qed.

Lemma find_first_Some l x : find_first p l = Some x -> x ∈ l /\ p x = true.
Proof.
  induction l as [|a l IH]; cbn; [done|]. destruct (p a) eqn:Ha.
  - intros [= <-]. split; [left|done].
  - intros [? ?]%IH. split; [by right|done].
Qed.

Lemma find_first_None l : find_first p l = None <-> Forall (fun x => p x = false) l.
Proof.
  induction l as [|a l IH]; cbn; [split; [constructor|done]|].
  rewrite Forall_cons, <- IH. destruct (p a) eqn:Ha; split; auto; try done.
  - intros [? _]; congruence.
  - by intros [_ ?].
Qed.

End Searching.

(** The search of [(0..n).rev().find(p)]: the greatest index that
    satisfies [p]. *)
Lemma find_first_rev_seq (p : nat -> bool) n i :
  find_first p (rev (seq 0 n)) = Some i <->
  (i < n)%nat /\ p i = true /\ forall j, (i < j < n)%nat -> p j = false.
Proof.
  induction n as [|n IH]; [cbn; split; [done|lia]|].
  rewrite seq_S, rev_app_distr. cbn. destruct (p n) eqn:Hp.
  - split.
    + intros [= <-]. split_and!; [lia|done|lia].
    + intros (Hi & Hpi & Hj). destruct (Nat.eq_dec i n) as [->|]; [done|].
      rewrite Hj in Hp by lia. done.
  - rewrite IH. split; intros (Hi & Hpi & Hj).
    + split_and!; [lia|done|]. intros j Hjr. destruct (Nat.eq_dec j n) as [->|]; [done|]. apply Hj. lia.
    + assert (i <> n) by congruence. split_and!; [lia|done|]. intros j Hjr. apply Hj. lia.
Qed.

Lemma find_first_rev_seq_None (p : nat -> bool) n :
  find_first p (rev (seq 0 n)) = None <-> forall j, (j < n)%nat -> p j = false.
Proof.
  rewrite find_first_None, Forall_forall. split; intros H j Hj.
  - apply H, list_elem_of_In. rewrite <- in_rev. apply in_seq. lia.
  - apply list_elem_of_In in Hj. rewrite <- in_rev, in_seq in Hj. apply H. lia.
Qed.

(** ** Tables of machine words in a byte array *)

(** The [i]-th [w]-byte little-endian word of [d], and its assignment. *)
Definition word_at (w : nat) (d : list Z) (i : nat) : Z := le_val (slice (w * i) w d).
Definition set_word (w : nat) (d : list Z) (i : nat) (x : Z) : list Z :=
  overwrite (w * i) (le_bytes w x) d.

Lemma Forall_overwrite (P : Z -> Prop) i src d :
  Forall P src -> Forall P d -> Forall P (overwrite i src d).
Proof.
  intros Hs Hd. unfold overwrite. repeat (apply Forall_app; split);
    auto using Forall_take, Forall_drop.
Qed.

Lemma Forall_slice (P : Z -> Prop) i n d : Forall P d -> Forall P (slice i n d).
Proof. intros. unfold slice. auto using Forall_take, Forall_drop. Qed.

Section Words.
Context (w : nat).

Lemma word_at_range d i : Forall is_byte d -> (w * i + w <= length d)%nat ->
  0 <= word_at w d i < 2 ^ (8 * Z.of_nat w).
Proof.
  intros Hd Hl. unfold word_at. pose proof (le_val_range (slice (w * i) w d)) as H.
  rewrite length_slice in H by done. apply H. by apply Forall_slice.
Qed.

Lemma length_set_word d i x : (w * i + w <= length d)%nat -> length (set_word w d i x) = length d.
Proof. intros. unfold set_word. apply length_overwrite. by rewrite length_le_bytes. Qed.

Lemma word_at_set_eq d i x : (w * i + w <= length d)%nat -> 0 <= x < 2 ^ (8 * Z.of_nat w) ->
  word_at w (set_word w d i x) i = x.
Proof.
  intros Hl Hx. unfold word_at, set_word.
  pose proof (slice_overwrite_eq (w * i) (le_bytes w x) d) as E. rewrite length_le_bytes in E.
  rewrite E by done. by apply le_val_bytes_small.
Qed.

Lemma word_at_set_ne d i j x : (w * i + w <= length d)%nat -> i <> j ->
  word_at w (set_word w d i x) j = word_at w d j.
Proof.
  intros Hl Hne. unfold word_at, set_word. f_equal. apply slice_overwrite_ne; rewrite length_le_bytes; [done|].
  destruct (decide (i < j)%nat); nia.
Qed.

Lemma Forall_set_word d i x : Forall is_byte d -> Forall is_byte (set_word w d i x).
Proof. intros. apply Forall_overwrite; [apply le_bytes_byte|done]. Qed.

Lemma set_word_id d i : Forall is_byte d -> (w * i + w <= length d)%nat ->
  set_word w d i (word_at w d i) = d.
Proof.
  intros Hd Hl. unfold set_word, word_at.
  pose proof (le_bytes_val (slice (w * i) w d) (Forall_slice _ _ _ _ Hd)) as E.
  rewrite length_slice in E by done. rewrite E. by apply overwrite_slice_id.
Qed.

End Words.

Lemma filter_all {A} (P : A -> Prop) `{forall x, Decision (P x)} (l : list A) : Forall P l -> filter P l = l.
Proof. induction 1 as [|x l Hx _ IH]; [done|]. rewrite filter_cons, decide_True by done. by rewrite IH. Qed.

Lemma filter_ne_free (id : Z) (l : list Z) : id ∉ l -> filter (fun i => i <> id) l = l.
Proof. intros H. apply filter_all, Forall_forall. intros x Hx ->. done. Qed.

(** [rposition]: the last position of a byte that satisfies [p]. *)
Fixpoint rposition (p : Z -> bool) (l : list Z) : option nat :=
  match l with
  | [] => None
  | x :: l' => match rposition p l' with Some i => Some (S i) | None => if p x then Some 0%nat else None end
  end.

Lemma rposition_lt p l i : rposition p l = Some i -> (i < length l)%nat.
Proof.
  revert i. induction l as [|x l IH]; intros i; cbn; [done|]. destruct (rposition p l) as [j|]; [|by destruct (p x); intros [= <-]; lia].
  intros [= <-]. specialize (IH j eq_refl). lia.
Qed.
