(* ===== verification/Up.v ===== *)
(** * Interrupt-free cells (os/src/sync/up.rs, os/src/trap/trap.S)

    Every shared object of the kernel is in a [UPIntrFreeCell]: a [RefCell]
    whose borrow masks interrupts.  Here a function is a [code]: a sequence of
    atomic instructions, between any two of which a pending interrupt is taken
    when the SIE bit of sstatus is set, and the handler is code of the same
    kind.  The theorem is what the rest of the library relies on to treat a
    session on a cell as one step. *)

From S2P Require Import Prelude.
From stdpp Require Import gmap fin_sets.
Open Scope Z_scope.

(** ** The machine and the cells *)

Record IntrMaskingInfo := mkMasking { nested_level : Z; sie_before_masking : bool }.
Definition IntrMaskingInfo_new : IntrMaskingInfo := mkMasking 0 false.

Section Up.
Context {V : Type}.

(** The SIE bit, [INTR_MASKING_INFO], which cells are borrowed, and what is in
    them. *)
Record Cpu := mkCpu { cp_sie : bool; cp_masking : IntrMaskingInfo; cp_borrowed : gset Z; cp_values : gmap Z V }.

Definition set_sie (b : bool) (s : Cpu) : Cpu := mkCpu b (cp_masking s) (cp_borrowed s) (cp_values s).
Definition set_masking (i : IntrMaskingInfo) (s : Cpu) : Cpu := mkCpu (cp_sie s) i (cp_borrowed s) (cp_values s).
Definition set_borrowed (b : gset Z) (s : Cpu) : Cpu := mkCpu (cp_sie s) (cp_masking s) b (cp_values s).
Definition set_values (v : gmap Z V) (s : Cpu) : Cpu := mkCpu (cp_sie s) (cp_masking s) (cp_borrowed s) v.

(** Instructions that nothing interrupts, in sequence; they hand on a bit. *)
Inductive code :=
  | Done
  | Atom (f : M Cpu bool) (k : bool -> code).

Fixpoint andthen (p q : code) : code :=
  match p with
  | Done => q
  | Atom f k => Atom f (fun b => andthen (k b) q)
  end.

Definition instr (f : Cpu -> Cpu) (q : code) : code := Atom (modify f;; mret false) (fun _ => q).

(** [IntrMaskingInfo::enter]; its second half runs with interrupts masked. *)
Definition enter_masked (sie : bool) : code :=
  Atom (gets (fun s => nested_level (cp_masking s) =? 0)) (fun outermost =>
  let count :=
    instr (fun s => set_masking (mkMasking (usize_wrap (nested_level (cp_masking s) + 1)) (sie_before_masking (cp_masking s))) s) Done in
  if outermost then instr (fun s => set_masking (mkMasking (nested_level (cp_masking s)) sie) s) count
  else count).

Definition IntrMaskingInfo_enter : code :=
  Atom (gets cp_sie) (fun sie => instr (set_sie false) (enter_masked sie)).

(** [IntrMaskingInfo::exit]. *)
Definition IntrMaskingInfo_exit : code :=
  instr (fun s => set_masking (mkMasking (usize_wrap (nested_level (cp_masking s) - 1)) (sie_before_masking (cp_masking s))) s) (
  Atom (gets (fun s => (nested_level (cp_masking s) =? 0) && sie_before_masking (cp_masking s))) (fun unmask =>
  if unmask then instr (set_sie true) Done else Done)).

(** [RefCell::borrow_mut] panics when the cell is borrowed. *)
Definition borrow_mut (c : Z) : M Cpu bool :=
  s ← get;
  massert (negb (bool_decide (c ∈ cp_borrowed s)));;
  put (set_borrowed ({[c]} ∪ cp_borrowed s) s);; mret false.

(** [UPIntrFreeCell::exclusive_access]. *)
Definition exclusive_access (c : Z) : code :=
  andthen IntrMaskingInfo_enter (Atom (borrow_mut c) (fun _ => Done)).

(** [UPIntrRefMut::drop]. *)
Definition UPIntrRefMut_drop (c : Z) : code :=
  instr (fun s => set_borrowed (cp_borrowed s ∖ {[c]}) s) IntrMaskingInfo_exit.

(** [UPIntrRefMut::deref_mut], and what is done through the reference. *)
Definition through (c : Z) (f : V -> V) : M Cpu bool :=
  s ← get;
  massert (bool_decide (c ∈ cp_borrowed s));;
  put (set_values (alter f c (cp_values s)) s);; mret false.

Definition deref_mut (c : Z) (f : V -> V) : code := Atom (through c f) (fun _ => Done).

(** What a function does with cells: guards are taken, used and dropped, not
    always the last one first. *)
Inductive event :=
  | Access (c : Z)
  | Use (c : Z) (f : V -> V)
  | Release (c : Z).

Definition code_of_event (e : event) : code :=
  match e with
  | Access c => exclusive_access c
  | Use c f => deref_mut c f
  | Release c => UPIntrRefMut_drop c
  end.

Fixpoint code_of (l : list event) : code :=
  match l with
  | [] => Done
  | e :: l' => andthen (code_of_event e) (code_of l')
  end.

(** [UPIntrFreeCell::exclusive_session]. *)
Definition exclusive_session (c : Z) (body : list event) : list event := Access c :: body ++ [Release c].

(** ** Interrupts

    The hart takes an interrupt by clearing SIE; [__alltraps_k] saves sstatus
    and [__restore_k] puts it back. *)

Definition alltraps_k (s : Cpu) : Cpu := set_sie false s.
Definition restore_k (s : Cpu) : Cpu := set_sie true s.

(** [exec irq p s r]: the code may do [r]; before each instruction and at the
    end, [irq] may happen. *)
Fixpoint exec (irq : Cpu -> res Cpu -> Prop) (p : code) (s : Cpu) (r : res Cpu) : Prop :=
  match p with
  | Done => irq s r
  | Atom f k =>
      (exists e, irq s (Err e) /\ r = Err e) \/
      (exists s1, irq s (Ok s1) /\
         match f s1 with
         | Ok (b, s2) => exec irq (k b) s2 r
         | Err e => r = Err e
         end)
  end.

Variable handlers : list event -> Prop.

(** Any number of interrupts, one after the other; [irq] is what may happen
    inside their handlers. *)
Inductive interrupts (irq : Cpu -> res Cpu -> Prop) : Cpu -> res Cpu -> Prop :=
  | irq_none s : interrupts irq s (Ok s)
  | irq_taken h s s1 r :
      cp_sie s = true -> handlers h ->
      exec irq (code_of h) (alltraps_k s) (Ok s1) ->
      interrupts irq (restore_k s1) r -> interrupts irq s r
  | irq_fault h s e :
      cp_sie s = true -> handlers h ->
      exec irq (code_of h) (alltraps_k s) (Err e) -> interrupts irq s (Err e).

(** Interrupts nested to any depth. *)
Fixpoint nested (depth : nat) : Cpu -> res Cpu -> Prop :=
  match depth with
  | O => fun s r => r = Ok s
  | S n => interrupts (nested n)
  end.

(** ** The discipline of guards

    What the borrow checker and the program's own order give: a cell is
    accessed when the function does not hold it, and used and dropped when it
    does. *)

Fixpoint disciplined (held : gset Z) (l : list event) : Prop :=
  match l with
  | [] => held = ∅
  | Access c :: l' => (c ∉ held) /\ disciplined ({[c]} ∪ held) l'
  | Use c _ :: l' => (c ∈ held) /\ disciplined held l'
  | Release c :: l' => (c ∈ held) /\ disciplined (held ∖ {[c]}) l'
  end.

(** The effect of a function on the cells, with no interrupt. *)
Fixpoint effect (l : list event) (v : gmap Z V) : gmap Z V :=
  match l with
  | [] => v
  | Use c f :: l' => effect l' (alter f c v)
  | _ :: l' => effect l' v
  end.

(** Handlers one after the other. *)
Inductive served : gmap Z V -> gmap Z V -> Prop :=
  | served_none v : served v v
  | served_one h v v' : handlers h -> served (effect h v) v' -> served v v'.

(** The coarse semantics: handlers run only while the function holds no cell,
    each from its beginning to its end. *)
Inductive coarse : gset Z -> list event -> gmap Z V -> gmap Z V -> Prop :=
  | coarse_end v : coarse ∅ [] v v
  | coarse_served l v v1 v2 : served v v1 -> coarse ∅ l v1 v2 -> coarse ∅ l v v2
  | coarse_access held c l v v1 : coarse ({[c]} ∪ held) l v v1 -> coarse held (Access c :: l) v v1
  | coarse_use held c f l v v1 : coarse held l (alter f c v) v1 -> coarse held (Use c f :: l) v v1
  | coarse_release held c l v v1 : coarse (held ∖ {[c]}) l v v1 -> coarse held (Release c :: l) v v1.

(** ** Execution of one event *)

(** The state of a function that holds [held], under [saved]. *)
Record masked (held : gset Z) (saved : bool) (s : Cpu) : Prop := {
  mk_sie : cp_sie s = false;
  mk_level : nested_level (cp_masking s) = Z.of_nat (size held);
  mk_borrowed : cp_borrowed s = held;
  mk_saved : held <> ∅ -> sie_before_masking (cp_masking s) = saved
}.

Record idle (b : bool) (s : Cpu) : Prop := {
  id_sie : cp_sie s = b;
  id_level : nested_level (cp_masking s) = 0;
  id_borrowed : cp_borrowed s = ∅
}.

Lemma idle_masked saved s : idle false s -> masked ∅ saved s.
Proof. intros [? ? ?]. split; try done. Qed.

Lemma masked_idle saved s : masked ∅ saved s -> idle false s.
Proof. intros [? ? ? ?]. split; try done. Qed.

(** Nothing happens while SIE is clear. *)
Definition quiet (irq : Cpu -> res Cpu -> Prop) : Prop := forall s r, cp_sie s = false -> irq s r -> r = Ok s.

Lemma nested_quiet n : quiet (nested n).
Proof. destruct n as [|n]; intros s r Hs H; [done|]. inversion H; subst; congruence. Qed.

Lemma nested_none n s : nested n s (Ok s).
Proof. destruct n; [done|constructor]. Qed.

Lemma exec_total n p s : exists r, exec (nested n) p s r.
Proof.
  revert s. induction p as [|f k IH]; intros s.
  - exists (Ok s). apply nested_none.
  - destruct (f s) as [[b s2]|e] eqn:E.
    + destruct (IH b s2) as [r Hr]. exists r. right. exists s. split; [apply nested_none|by rewrite E].
    + exists (Err e). right. exists s. split; [apply nested_none|by rewrite E].
Qed.

Section Quiet.
Context (irq : Cpu -> res Cpu -> Prop) (Hq : quiet irq).

Lemma exec_atom f k s r : cp_sie s = false -> exec irq (Atom f k) s r ->
  match f s with Ok (b, s2) => exec irq (k b) s2 r | Err e => r = Err e end.
Proof.
  intros Hs [(e & Hi & ->)|(s1 & Hi & H)].
  - apply Hq in Hi; [done|done].
  - apply Hq in Hi; [|done]. injection Hi as ->. done.
Qed.

Local Ltac step_in H :=
  apply exec_atom in H; [cbn beta iota delta [modify mret M_ret mbind M_bind gets] in H|done].

Lemma borrow_ok c s : c ∉ cp_borrowed s -> borrow_mut c s = Ok (false, set_borrowed ({[c]} ∪ cp_borrowed s) s).
Proof using. intros Hc. unfold borrow_mut, get, mbind, M_bind. by rewrite bool_decide_eq_false_2. Qed.

Lemma through_ok c f s : c ∈ cp_borrowed s -> through c f s = Ok (false, set_values (alter f c (cp_values s)) s).
Proof using. intros Hc. unfold through, get, mbind, M_bind. by rewrite bool_decide_eq_true_2. Qed.

Lemma access_eq c p : andthen (exclusive_access c) p =
  Atom (gets cp_sie) (fun sie => instr (set_sie false) (andthen (andthen (enter_masked sie) (Atom (borrow_mut c) (fun _ => Done))) p)).
Proof using. reflexivity. Qed.

(** From the instruction that clears SIE to the borrow. *)
Lemma access_rest held saved c p sie s r :
  masked held saved s -> c ∉ held -> Z.of_nat (size held) < 2 ^ 64 - 1 -> (held = ∅ -> sie = saved) ->
  exec irq (andthen (andthen (enter_masked sie) (Atom (borrow_mut c) (fun _ => Done))) p) s r ->
  exists s', masked ({[c]} ∪ held) saved s' /\ cp_values s' = cp_values s /\ exec irq p s' r.
Proof.
  intros [Hs Hl Hb Hsv] Hc Hlt Hsie H. cbn [andthen enter_masked] in H.
  apply exec_atom in H; [|done]. unfold gets in H. cbn iota beta in H.
  assert (usize_wrap (Z.of_nat (size held) + 1) = Z.of_nat (size ({[c]} ∪ held))) as Hw.
  { unfold usize_wrap. rewrite size_union, size_singleton, Z.mod_small by (set_solver || lia). lia. }
  destruct (Z.eqb_spec (nested_level (cp_masking s)) 0) as [E|E]; cbn [andthen instr] in H.
  - assert (held = ∅) as -> by (apply leibniz_equiv, size_empty_inv; lia).
    step_in H. step_in H.
    apply exec_atom in H; [|done]. rewrite borrow_ok in H by (cbn; by rewrite Hb). cbn in H.
    eexists. split; [|split; [|exact H]]; [|done]. split; cbn; try done; [by rewrite Hl, Hw|by rewrite Hb|by rewrite Hsie].
  - step_in H. apply exec_atom in H; [|done]. rewrite borrow_ok in H by (cbn; by rewrite Hb). cbn in H.
    eexists. split; [|split; [|exact H]]; [|done]. split; cbn; try done; [by rewrite Hl, Hw|by rewrite Hb|]. intros _. apply Hsv.
    intros ->. rewrite size_empty in Hl. done.
Qed.

Lemma access_masked held saved c p s r :
  masked held saved s -> c ∉ held -> Z.of_nat (size held) < 2 ^ 64 - 1 -> (held = ∅ -> saved = false) ->
  exec irq (andthen (exclusive_access c) p) s r ->
  exists s', masked ({[c]} ∪ held) saved s' /\ cp_values s' = cp_values s /\ exec irq p s' r.
Proof.
  intros Hm Hc Hlt Hsv H. pose proof (mk_sie _ _ _ Hm) as Hs. rewrite access_eq in H.
  apply exec_atom in H; [|done]. unfold gets in H. cbn iota beta in H. rewrite Hs in H.
  unfold instr in H. step_in H.
  edestruct access_rest as (s' & H1 & H2 & H3); [..|exact H|]; [|done|done| |by exists s'].
  - destruct Hm. by split.
  - intros E. by rewrite Hsv.
Qed.

Lemma use_masked held saved c f p s r :
  masked held saved s -> c ∈ held -> exec irq (andthen (deref_mut c f) p) s r ->
  exists s', masked held saved s' /\ cp_values s' = alter f c (cp_values s) /\ exec irq p s' r.
Proof.
  intros [Hs Hl Hb Hsv] Hc H. cbn [andthen deref_mut] in H. apply exec_atom in H; [|done].
  rewrite through_ok in H by (by rewrite Hb). eexists. split; [|split; [|exact H]]; done.
Qed.

(** The guard that is dropped last restores the bit. *)
Lemma release_masked held saved c p s r :
  masked held saved s -> c ∈ held -> Z.of_nat (size held) < 2 ^ 64 ->
  exec irq (andthen (UPIntrRefMut_drop c) p) s r ->
  exists s', (if bool_decide (held ∖ {[c]} = ∅) then idle saved s' else masked (held ∖ {[c]}) saved s') /\
    cp_values s' = cp_values s /\ exec irq p s' r.
Proof.
  intros [Hs Hl Hb Hsv] Hc Hlt H. cbn [andthen UPIntrRefMut_drop instr IntrMaskingInfo_exit] in H.
  step_in H. step_in H. apply exec_atom in H; [|done].
  unfold gets in H. cbn iota beta in H. cbn [set_masking set_borrowed cp_masking nested_level sie_before_masking cp_sie] in H.
  assert (Z.of_nat (size held) = Z.of_nat (size (held ∖ {[c]})) + 1) as Hsz.
  { rewrite size_difference by set_solver. rewrite size_singleton. assert (size held <> 0)%nat; [|lia].
    apply size_non_empty_iff. set_solver. }
  assert (usize_wrap (nested_level (cp_masking s) - 1) = Z.of_nat (size (held ∖ {[c]}))) as Hw.
  { unfold usize_wrap. rewrite Hl, Z.mod_small by lia. lia. }
  rewrite Hsv in H by set_solver. rewrite Hw in H. case_bool_decide as E.
  - rewrite E, size_empty in H, Hw. cbn in H. destruct saved.
    + step_in H. eexists. split; [|split; [|exact H]]; [|done].
      split; cbn; try done. by rewrite Hb.
    + eexists. split; [|split; [|exact H]]; [|done]. split; cbn; try done. by rewrite Hb.
  - assert (Z.of_nat (size (held ∖ {[c]})) <> 0) as Hne.
    { intros Hz. apply E, leibniz_equiv, size_empty_inv. lia. }
    apply Z.eqb_neq in Hne. rewrite Hne in H. cbn in H.
    eexists. split; [|split; [|exact H]]; [|done]. split; cbn; try done. by rewrite Hb.
Qed.

(** A function that starts with interrupts masked, such as a handler. *)
Lemma masked_run l : forall held s r,
  disciplined held l -> masked held false s -> Z.of_nat (length l + size held) < 2 ^ 64 ->
  exec irq (code_of l) s r ->
  exists s', r = Ok s' /\ idle false s' /\ cp_values s' = effect l (cp_values s).
Proof.
  induction l as [|[c|c f|c] l IH]; intros held s r Hd Hm Hlt H; cbn [disciplined length] in Hd, Hlt; cbn [code_of code_of_event] in H.
  - subst held. apply Hq in H; [|apply Hm]. exists s. split; [done|]. split; [by eapply masked_idle|done].
  - destruct Hd as [Hc Hd]. eapply access_masked in H as (s1 & Hm1 & Hv & H); [|done|done|lia|done].
    cbn [effect]. rewrite <- Hv. eapply IH; [exact Hd|exact Hm1| |exact H]. rewrite size_union, size_singleton by set_solver. lia.
  - destruct Hd as [Hc Hd]. eapply use_masked in H as (s1 & Hm1 & Hv & H); [|done|done].
    cbn [effect]. rewrite <- Hv. eapply IH; [exact Hd|exact Hm1|lia|exact H].
  - destruct Hd as [Hc Hd]. eapply release_masked in H as (s1 & Hm1 & Hv & H); [|done|done|lia].
    cbn [effect]. rewrite <- Hv. eapply IH; [exact Hd| | |exact H].
    + case_bool_decide as E; [|done]. rewrite E. by apply idle_masked.
    + rewrite size_difference by set_solver. lia.
Qed.

End Quiet.

(** ** Interrupts of a function that starts unmasked *)

Section Unmasked.
Context (Hhandlers : forall h, handlers h -> disciplined ∅ h /\ Z.of_nat (length h) < 2 ^ 64).

Lemma served_trans v1 v2 v3 : served v1 v2 -> served v2 v3 -> served v1 v3.
Proof. induction 1; [done|]. intros. econstructor; eauto. Qed.

Lemma interrupts_served n s r : interrupts (nested n) s r -> idle true s ->
  exists s', r = Ok s' /\ idle true s' /\ served (cp_values s) (cp_values s').
Proof using Hhandlers.
  assert (forall h s q, handlers h -> idle true s -> exec (nested n) (code_of h) (alltraps_k s) q ->
    exists s1, q = Ok s1 /\ idle true (restore_k s1) /\ cp_values s1 = effect h (cp_values s)) as Hrun.
  { intros h s0 q Hh [Hs Hl Hb] He. destruct (Hhandlers h Hh) as [Hd Hlen].
    destruct (masked_run _ (nested_quiet n) h ∅ (alltraps_k s0) q) as (s1 & -> & [? ? ?] & Hv); [done| | |done|].
    - by split.
    - rewrite size_empty. lia.
    - exists s1. split; [done|]. split; [by split|done]. }
  induction 1 as [s|h s s1 r Hs Hh He Hi IH|h s e Hs Hh He]; intros Hid.
  - exists s. split; [done|]. split; [done|constructor].
  - destruct (Hrun _ _ _ Hh Hid He) as (? & [= <-] & Hid1 & Hv).
    destruct (IH Hid1) as (s' & -> & Hid' & Hsv). exists s'. split; [done|]. split; [done|].
    econstructor; [exact Hh|]. rewrite <- Hv. exact Hsv.
  - by destruct (Hrun _ _ _ Hh Hid He) as (? & [=] & _).
Qed.

Lemma nested_served n s r : nested n s r -> idle true s ->
  exists s', r = Ok s' /\ idle true s' /\ served (cp_values s) (cp_values s').
Proof using Hhandlers.
  destruct n as [|n]; [|apply interrupts_served]. intros -> Hid. exists s. split; [done|]. split; [done|constructor].
Qed.

(** An instruction that runs with interrupts enabled. *)
Lemma exec_unmasked n f k s r : idle true s -> exec (nested n) (Atom f k) s r ->
  exists s1, idle true s1 /\ served (cp_values s) (cp_values s1) /\
    match f s1 with Ok (b, s2) => exec (nested n) (k b) s2 r | Err e => r = Err e end.
Proof using Hhandlers.
  intros Hid [(e & Hi & ->)|(s1 & Hi & H)]; apply nested_served in Hi as (s' & E & Hid' & Hsv); [done|done| |done].
  injection E as ->. by exists s'.
Qed.

Lemma access_unmasked n c p s r : idle true s -> exec (nested n) (andthen (exclusive_access c) p) s r ->
  exists s', masked {[c]} true s' /\ served (cp_values s) (cp_values s') /\ exec (nested n) p s' r.
Proof using Hhandlers.
  intros Hid H. rewrite access_eq in H.
  apply exec_unmasked in H as (s1 & Hid1 & Hv1 & H); [|done]. unfold gets in H. cbn iota beta in H.
  rewrite (id_sie _ _ Hid1) in H. unfold instr in H.
  apply exec_unmasked in H as (s2 & Hid2 & Hv2 & H); [|done]. cbn iota beta delta [modify mret M_ret mbind M_bind] in H.
  edestruct (access_rest _ (nested_quiet n) ∅ true) as (s' & H1 & H2 & H3); [..|exact H|].
  - destruct Hid2. by split.
  - set_solver.
  - rewrite size_empty. lia.
  - done.
  - exists s'. rewrite union_empty_r_L in H1. split; [done|]. split; [|done]. rewrite H2. by eapply served_trans.
Qed.

Lemma unmasked_run n l : forall held s r,
  disciplined held l -> (if bool_decide (held = ∅) then idle true s else masked held true s) ->
  Z.of_nat (length l + size held) < 2 ^ 64 -> exec (nested n) (code_of l) s r ->
  exists s', r = Ok s' /\ idle true s' /\ coarse held l (cp_values s) (cp_values s').
Proof using Hhandlers.
  pose proof (nested_quiet n) as Hq.
  induction l as [|[c|c f|c] l IH]; intros held s r Hd Hm Hlt H; cbn [disciplined length] in Hd, Hlt; cbn [code_of code_of_event] in H.
  - subst held. apply nested_served in H as (s' & -> & Hid & Hsv); [|done]. exists s'. split; [done|]. split; [done|].
    eapply coarse_served; [exact Hsv|constructor].
  - destruct Hd as [Hc Hd].
    assert (exists s1, masked ({[c]} ∪ held) true s1 /\ exec (nested n) (code_of l) s1 r /\
      (held = ∅ /\ served (cp_values s) (cp_values s1) \/ cp_values s1 = cp_values s)) as (s1 & Hm1 & H1 & Hv).
    { case_bool_decide as E.
      - subst held. apply access_unmasked in H as (s1 & Hm1 & Hsv & H); [|done]. exists s1.
        rewrite union_empty_r_L. auto.
      - eapply access_masked in H as (s1 & Hm1 & Hv & H); [|done|done|done|lia|done]. exists s1. auto. }
    eapply IH in H1 as (s' & -> & Hid & Hco); [|exact Hd| |].
    + exists s'. split; [done|]. split; [done|]. destruct Hv as [[-> Hsv]|<-]; [eapply coarse_served; [exact Hsv|]|]; by constructor.
    + rewrite bool_decide_eq_false_2 by set_solver. done.
    + rewrite size_union, size_singleton by set_solver. lia.
  - destruct Hd as [Hc Hd]. rewrite bool_decide_eq_false_2 in Hm by set_solver.
    eapply use_masked in H as (s1 & Hm1 & Hv & H); [|done|done|done].
    eapply IH in H as (s' & -> & Hid & Hco); [|exact Hd| |lia].
    + exists s'. split; [done|]. split; [done|]. constructor. by rewrite <- Hv.
    + rewrite bool_decide_eq_false_2 by set_solver. done.
  - destruct Hd as [Hc Hd]. rewrite bool_decide_eq_false_2 in Hm by set_solver.
    eapply release_masked in H as (s1 & Hm1 & Hv & H); [|done|done|done|lia].
    eapply IH in H as (s' & -> & Hid & Hco); [|exact Hd|exact Hm1|].
    + exists s'. split; [done|]. split; [done|]. constructor. by rewrite <- Hv.
    + rewrite size_difference by set_solver. lia.
Qed.

End Unmasked.

End Up.
Arguments Cpu : clear implicits.
Arguments event : clear implicits.

(** C22: a borrow of an interrupt-free cell is one step.  Take any function that
    accesses, uses and drops cells under the discipline of guards, run it with
    an interrupt possible before each instruction (also inside [enter] and
    [exit]), and let the handlers be functions of the same kind that may use
    the same cells.  Then no execution ends in a failed borrow; SIE is at the
    end what it was at the start; and what the execution did to the cells is
    what the function does when whole handlers run only at the points where it
    holds no cell, or not at all if SIE was clear.  Some execution exists. *)
Theorem interrupt_free_sessions {V} (handlers : list (event V) -> Prop) (depth : nat) (l : list (event V)) (s : Cpu V)
    (Hh : forall h, handlers h -> disciplined ∅ h /\ Z.of_nat (length h) < 2 ^ 64)
    (Hl : disciplined ∅ l) (Hlen : Z.of_nat (length l) < 2 ^ 64)
    (Hlevel : nested_level (cp_masking s) = 0) (Hb : cp_borrowed s = ∅) :
  (exists r, exec (nested handlers depth) (code_of l) s r) /\
  forall r, exec (nested handlers depth) (code_of l) s r ->
    exists s', r = Ok s' /\ nested_level (cp_masking s') = 0 /\ cp_borrowed s' = ∅ /\ cp_sie s' = cp_sie s /\
      if cp_sie s then coarse handlers ∅ l (cp_values s) (cp_values s')
      else cp_values s' = effect l (cp_values s).
Proof.
  split; [apply exec_total|]. intros r H. destruct (cp_sie s) eqn:Es.
  - eapply unmasked_run in H as (s' & -> & [Hs Hl' Hb'] & Hc); [|done|exact Hl| |by rewrite size_empty, Nat.add_0_r].
    + exists s'. by rewrite Hs.
    + rewrite bool_decide_eq_true_2 by done. by split.
  - eapply masked_run in H as (s' & -> & [Hs Hl' Hb'] & Hc); [|apply nested_quiet|exact Hl| |by rewrite size_empty, Nat.add_0_r].
    + exists s'. by rewrite Hs.
    + apply idle_masked. by split.
Qed.

(** Two cells, guards dropped in the order they were taken, and a handler that
    uses the first cell. *)
Definition demo_l : list (event Z) :=
  [Access 1; Use 1 (Z.add 10); Access 2; Use 2 (Z.mul 2); Release 1; Use 2 (Z.add 1); Release 2].
Definition demo_h : list (event Z) := exclusive_session 1 [Use 1 (Z.mul 3)].
Definition demo_cpu : Cpu Z := mkCpu true IntrMaskingInfo_new ∅ {[1 := 5; 2 := 7]}.

Lemma interrupt_free_sessions_witness :
  disciplined ∅ demo_l /\ disciplined ∅ demo_h /\
  forall r, exec (nested (fun h => h = demo_h) 2) (code_of demo_l) demo_cpu r ->
    exists s', r = Ok s' /\ nested_level (cp_masking s') = 0 /\ cp_borrowed s' = ∅ /\ cp_sie s' = true /\
      coarse (fun h => h = demo_h) ∅ demo_l (cp_values demo_cpu) (cp_values s').
Proof.
  assert (disciplined ∅ demo_l) as H1 by (cbn; set_solver).
  assert (disciplined ∅ demo_h) as H2 by (cbn; set_solver).
  split; [exact H1|]. split; [exact H2|].
  apply (interrupt_free_sessions (fun h => h = demo_h) 2 demo_l demo_cpu); [|exact H1|reflexivity|reflexivity|reflexivity].
  intros h ->. split; [exact H2|reflexivity].
Defined.
