(* ===== verification/Address.v ===== *)
(** * Sv39 addresses and page numbers ([os/src/mm/address.rs])

    The four newtypes [PhysAddr], [VirtAddr], [PhysPageNum] and [VirtPageNum]
    wrap a 64-bit word; a value is that word as an integer, and each
    conversion or method [T::f] of the source is a definition [T_f].  A
    conversion that asserts returns [None] where the assertion fails. *)

From stdpp Require Import list numbers.
From S2P Require Import Prelude.

Open Scope Z_scope.

(** ** Constants ([os/src/config.rs], [os/src/boards/qemu.rs]) *)

Definition USER_STACK_SIZE : Z := 4096 * 2.
Definition KERNEL_STACK_SIZE : Z := 4096 * 2.
Definition PAGE_SIZE : Z := 0x1000.
Definition PAGE_SIZE_BITS : Z := 0xc.
Definition TRAMPOLINE : Z := usize_max - PAGE_SIZE + 1.
Definition TRAP_CONTEXT_BASE : Z := TRAMPOLINE - PAGE_SIZE.
Definition MEMORY_END : Z := 0x88000000.
Definition MMIO : list (Z * Z) :=
  [ (0x00100000, 0x002000); (0x2000000, 0x10000);
    (0xc000000, 0x210000); (0x10000000, 0x9000) ].

Definition PA_WIDTH_SV39 : Z := 56.
Definition VA_WIDTH_SV39 : Z := 39.
Definition PPN_WIDTH_SV39 : Z := PA_WIDTH_SV39 - PAGE_SIZE_BITS.
Definition VPN_WIDTH_SV39 : Z := VA_WIDTH_SV39 - PAGE_SIZE_BITS.

Abbreviation PhysAddr := Z (only parsing).
Abbreviation VirtAddr := Z (only parsing).
Abbreviation PhysPageNum := Z (only parsing).
Abbreviation VirtPageNum := Z (only parsing).

(** ** Conversions from and to machine words *)

Definition PhysAddr_from_usize (v : Z) : PhysAddr :=
  Z.land v (Z.shiftl 1 PA_WIDTH_SV39 - 1).
Definition PhysPageNum_from_usize (v : Z) : PhysPageNum :=
  Z.land v (Z.shiftl 1 PPN_WIDTH_SV39 - 1).
Definition VirtAddr_from_usize (v : Z) : VirtAddr :=
  Z.land v (Z.shiftl 1 VA_WIDTH_SV39 - 1).
Definition VirtPageNum_from_usize (v : Z) : VirtPageNum :=
  Z.land v (Z.shiftl 1 VPN_WIDTH_SV39 - 1).

Definition PhysAddr_into_usize (v : PhysAddr) : Z := v.
Definition PhysPageNum_into_usize (v : PhysPageNum) : Z := v.
(** Bit 38 is replicated into the upper bits. *)
Definition VirtAddr_into_usize (v : VirtAddr) : Z :=
  if Z.shiftl 1 (VA_WIDTH_SV39 - 1) <=? v
  then Z.lor v (usize_not (Z.shiftl 1 VA_WIDTH_SV39 - 1))
  else v.
Definition VirtPageNum_into_usize (v : VirtPageNum) : Z := v.

(** ** Pages of an address *)

Definition VirtAddr_floor (va : VirtAddr) : VirtPageNum := va / PAGE_SIZE.
Definition VirtAddr_ceil (va : VirtAddr) : VirtPageNum :=
  if va =? 0 then 0 else usize_wrap (va - 1 + PAGE_SIZE) / PAGE_SIZE.
Definition VirtAddr_page_offset (va : VirtAddr) : Z := Z.land va (PAGE_SIZE - 1).
Definition VirtAddr_aligned (va : VirtAddr) : bool := VirtAddr_page_offset va =? 0.

(** [VirtPageNum::from(va)] asserts that [va] is page aligned. *)
Definition VirtPageNum_from_VirtAddr (va : VirtAddr) : option VirtPageNum :=
  if VirtAddr_page_offset va =? 0 then Some (VirtAddr_floor va) else None.
Definition VirtAddr_from_VirtPageNum (vpn : VirtPageNum) : VirtAddr :=
  usize_wrap (Z.shiftl vpn PAGE_SIZE_BITS).

Definition PhysAddr_floor (pa : PhysAddr) : PhysPageNum := pa / PAGE_SIZE.
Definition PhysAddr_ceil (pa : PhysAddr) : PhysPageNum :=
  if pa =? 0 then 0 else usize_wrap (pa - 1 + PAGE_SIZE) / PAGE_SIZE.
Definition PhysAddr_page_offset (pa : PhysAddr) : Z := Z.land pa (PAGE_SIZE - 1).
Definition PhysAddr_aligned (pa : PhysAddr) : bool := PhysAddr_page_offset pa =? 0.
Definition PhysPageNum_from_PhysAddr (pa : PhysAddr) : option PhysPageNum :=
  if PhysAddr_page_offset pa =? 0 then Some (PhysAddr_floor pa) else None.
Definition PhysAddr_from_PhysPageNum (ppn : PhysPageNum) : PhysAddr :=
  usize_wrap (Z.shiftl ppn PAGE_SIZE_BITS).

(** The loop [for i in (0..3).rev()] of [VirtPageNum::indexes]: nine bits are
    taken off the page number for each level, the last level first. *)
Fixpoint indexes_loop (n : nat) (vpn : Z) (idx : list Z) : list Z :=
  match n with
  | O => idx
  | S i => indexes_loop i (Z.shiftr vpn 9) (<[i := Z.land vpn 511]> idx)
  end.
Definition VirtPageNum_indexes (vpn : VirtPageNum) : list Z :=
  indexes_loop 3 vpn [0; 0; 0].

(** ** Ranges of page numbers *)

(** [StepByOne::step]. *)
Definition VirtPageNum_step (vpn : VirtPageNum) : VirtPageNum := usize_wrap (vpn + 1).
Definition PhysPageNum_step (ppn : PhysPageNum) : PhysPageNum := usize_wrap (ppn + 1).

(** [SimpleRange<VirtPageNum>], that is [VPNRange]. *)
Record SimpleRange := mkRange { range_l : VirtPageNum; range_r : VirtPageNum }.

#[export] Instance SimpleRange_eq_dec : EqDecision SimpleRange.
Proof. solve_decision. Defined.

Definition SimpleRange_new (start e : VirtPageNum) : option SimpleRange :=
  if start <=? e then Some (mkRange start e) else None.
Definition SimpleRange_get_start (r : SimpleRange) : VirtPageNum := range_l r.
Definition SimpleRange_get_end (r : SimpleRange) : VirtPageNum := range_r r.

Record SimpleRangeIterator := mkRangeIter { iter_current : VirtPageNum; iter_end : VirtPageNum }.

Definition SimpleRange_into_iter (r : SimpleRange) : SimpleRangeIterator :=
  mkRangeIter (range_l r) (range_r r).

(** [Iterator::next]: the item, if any, and the iterator afterwards. *)
Definition SimpleRangeIterator_next (it : SimpleRangeIterator)
  : option VirtPageNum * SimpleRangeIterator :=
  if iter_current it =? iter_end it then (None, it)
  else (Some (iter_current it),
        mkRangeIter (VirtPageNum_step (iter_current it)) (iter_end it)).

(** A [for] loop over the iterator: the items in order, [None] when the loop
    has not ended within the fuel. *)
Fixpoint iter_collect (fuel : nat) (it : SimpleRangeIterator) : option (list VirtPageNum) :=
  match fuel with
  | O => None
  | S fuel' =>
      match SimpleRangeIterator_next it with
      | (None, _) => Some []
      | (Some v, it') => (v ::.) <$> iter_collect fuel' it'
      end
  end.

(** ** Theorems *)

Lemma PAGE_SIZE_pow : PAGE_SIZE = 2 ^ 12.
Proof. done. Qed.

Lemma VirtAddr_from_usize_mod v : VirtAddr_from_usize v = v mod 2 ^ 39.
Proof. apply (land_mask v 39). done. Qed.

Lemma PhysAddr_from_usize_mod v : PhysAddr_from_usize v = v mod 2 ^ 56.
Proof. apply (land_mask v 56). done. Qed.

Lemma PhysPageNum_from_usize_mod v : PhysPageNum_from_usize v = v mod 2 ^ 44.
Proof. apply (land_mask v 44). done. Qed.

Lemma VirtPageNum_from_usize_mod v : VirtPageNum_from_usize v = v mod 2 ^ 27.
Proof. apply (land_mask v 27). done. Qed.

Lemma VirtAddr_page_offset_mod va : VirtAddr_page_offset va = va mod PAGE_SIZE.
Proof. apply (land_small_mod va 12). done. Qed.

Lemma PhysAddr_page_offset_mod pa : PhysAddr_page_offset pa = pa mod PAGE_SIZE.
Proof. apply (land_small_mod pa 12). done. Qed.

Create Rewrite HintDb addr.
#[export] Hint Rewrite VirtAddr_from_usize_mod PhysAddr_from_usize_mod
  PhysPageNum_from_usize_mod VirtPageNum_from_usize_mod VirtAddr_page_offset_mod
  PhysAddr_page_offset_mod : addr.

(** A 39-bit virtual address as a machine word: the low half of the address
    space stays where it is, the high half moves to the top of the 64-bit
    space. *)
Lemma VirtAddr_into_usize_spec va :
  0 <= va < 2 ^ 39 ->
  VirtAddr_into_usize va = if va <? 2 ^ 38 then va else va + (2 ^ 64 - 2 ^ 39).
Proof.
  intros Hva. unfold VirtAddr_into_usize, usize_not, usize_max, VA_WIDTH_SV39.
  change (Z.shiftl 1 (39 - 1)) with (2 ^ 38).
  change (2 ^ 64 - 1 - (Z.shiftl 1 39 - 1)) with (Z.shiftl (2 ^ 25 - 1) 39).
  rewrite Z.lor_comm, lor_shiftl_add by lia. case_zb; lia.
Qed.

(** The canonical 64-bit forms of Sv39 addresses. *)
Definition canonical (v : Z) : Prop := 0 <= v < 2 ^ 38 \/ 2 ^ 64 - 2 ^ 38 <= v < 2 ^ 64.

Lemma VirtAddr_into_usize_canonical va :
  0 <= va < 2 ^ 39 -> canonical (VirtAddr_into_usize va).
Proof. intros. rewrite VirtAddr_into_usize_spec by done. unfold canonical. case_zb; lia. Qed.

Lemma VirtAddr_usize_roundtrip v :
  canonical v -> VirtAddr_into_usize (VirtAddr_from_usize v) = v.
Proof.
  intros Hv. rewrite VirtAddr_from_usize_mod.
  rewrite VirtAddr_into_usize_spec by (apply Z.mod_pos_bound; lia).
  unfold canonical in Hv. case_zb; zdiv_lia.
Qed.

Lemma VirtAddr_roundtrip va :
  0 <= va < 2 ^ 39 -> VirtAddr_from_usize (VirtAddr_into_usize va) = va.
Proof.
  intros Hva. rewrite VirtAddr_from_usize_mod, VirtAddr_into_usize_spec by done.
  case_zb; zdiv_lia.
Qed.

Lemma VirtAddr_floor_offset va :
  0 <= va -> VirtAddr_floor va * PAGE_SIZE + VirtAddr_page_offset va = va.
Proof.
  intros. rewrite VirtAddr_page_offset_mod. unfold VirtAddr_floor.
  pose proof (Z.div_mod va PAGE_SIZE). unfold PAGE_SIZE in *. lia.
Qed.

Lemma VirtAddr_ceil_spec va :
  0 <= va < 2 ^ 39 ->
  VirtAddr_ceil va = (va + (PAGE_SIZE - 1)) / PAGE_SIZE.
Proof.
  intros. unfold VirtAddr_ceil, usize_wrap, PAGE_SIZE. case_zb; subst; [done|].
  rewrite Z.mod_small by lia. f_equal. lia.
Qed.

Lemma PhysAddr_ceil_spec pa :
  0 <= pa < 2 ^ 56 ->
  PhysAddr_ceil pa = (pa + (PAGE_SIZE - 1)) / PAGE_SIZE.
Proof.
  intros. unfold PhysAddr_ceil, usize_wrap, PAGE_SIZE. case_zb; subst; [done|].
  rewrite Z.mod_small by lia. f_equal. lia.
Qed.

Lemma VirtAddr_from_VirtPageNum_small vpn :
  0 <= vpn < 2 ^ 52 -> VirtAddr_from_VirtPageNum vpn = vpn * PAGE_SIZE.
Proof.
  intros. unfold VirtAddr_from_VirtPageNum, usize_wrap, PAGE_SIZE_BITS, PAGE_SIZE.
  rewrite Z.shiftl_mul_pow2 by done. change (2 ^ 0xc) with 4096. apply Z.mod_small. lia.
Qed.

Lemma PhysAddr_from_PhysPageNum_small ppn :
  0 <= ppn < 2 ^ 52 -> PhysAddr_from_PhysPageNum ppn = ppn * PAGE_SIZE.
Proof. apply VirtAddr_from_VirtPageNum_small. Qed.

(** The page number and the address of a page are inverse on aligned
    addresses. *)
Lemma VirtPageNum_VirtAddr_roundtrip vpn :
  0 <= vpn < 2 ^ 52 ->
  VirtPageNum_from_VirtAddr (VirtAddr_from_VirtPageNum vpn) = Some vpn.
Proof.
  intros. rewrite VirtAddr_from_VirtPageNum_small by done.
  unfold VirtPageNum_from_VirtAddr, VirtAddr_floor. rewrite VirtAddr_page_offset_mod.
  unfold PAGE_SIZE. rewrite Z.mod_mul, Z.div_mul by done. done.
Qed.

Lemma indexes_eq vpn :
  VirtPageNum_indexes vpn =
    [(vpn / 2 ^ 18) mod 512; (vpn / 2 ^ 9) mod 512; vpn mod 512].
Proof.
  unfold VirtPageNum_indexes. cbn [indexes_loop list_insert insert].
  rewrite !(land_small_mod _ 9) by done. rewrite Z.shiftr_shiftr, !Z.shiftr_div_pow2 by done.
  done.
Qed.

Lemma indexes_recompose vpn :
  0 <= vpn < 2 ^ 27 ->
  exists i0 i1 i2,
    VirtPageNum_indexes vpn = [i0; i1; i2] /\
    0 <= i0 < 512 /\ 0 <= i1 < 512 /\ 0 <= i2 < 512 /\
    vpn = i0 * 2 ^ 18 + i1 * 2 ^ 9 + i2.
Proof.
  intros. rewrite indexes_eq. do 3 eexists. split; [done|].
  repeat split; zdiv_lia.
Qed.

Lemma indexes_inj v1 v2 :
  0 <= v1 < 2 ^ 27 -> 0 <= v2 < 2 ^ 27 ->
  VirtPageNum_indexes v1 = VirtPageNum_indexes v2 -> v1 = v2.
Proof.
  intros (a & b & c & E1 & _ & _ & _ & ->)%indexes_recompose
         (a' & b' & c' & E2 & _ & _ & _ & ->)%indexes_recompose E.
  rewrite E1, E2 in E. congruence.
Qed.

(** A loop over a range visits its page numbers in order, each once, and
    ends: [r - l + 1] calls of [next] are enough. *)
Lemma iter_collect_range l r fuel :
  0 <= l <= r -> r < 2 ^ 64 -> (Z.to_nat (r - l) < fuel)%nat ->
  iter_collect fuel (SimpleRange_into_iter (mkRange l r)) = Some (seqZ l (r - l)).
Proof.
  intros Hl Hr Hf. remember (Z.to_nat (r - l)) as n eqn:En.
  revert l fuel Hl Hf En. induction n as [|n IH]; intros l fuel Hl Hf En.
  - assert (l = r) as -> by lia. destruct fuel; [lia|].
    cbn. unfold SimpleRangeIterator_next. cbn. rewrite Z.eqb_refl.
    rewrite seqZ_nil by lia. done.
  - destruct fuel as [|fuel]; [lia|].
    rewrite seqZ_cons by lia. cbn. unfold SimpleRangeIterator_next. cbn.
    destruct (Z.eqb_spec l r); [lia|].
    unfold VirtPageNum_step, usize_wrap. rewrite Z.mod_small by lia.
    specialize (IH (l + 1) fuel ltac:(lia) ltac:(lia) ltac:(lia)).
    unfold SimpleRange_into_iter in IH. cbn in IH. rewrite IH. cbn.
    do 3 f_equal; lia.
Qed.

(** The pages of a range, as a [for vpn in range] loop visits them. *)
Definition range_vpns (r : SimpleRange) : list VirtPageNum :=
  default [] (iter_collect (S (Z.to_nat (range_r r - range_l r))) (SimpleRange_into_iter r)).

Lemma range_vpns_seqZ l r :
  0 <= l <= r -> r < 2 ^ 64 -> range_vpns (mkRange l r) = seqZ l (r - l).
Proof. intros. unfold range_vpns. cbn [range_l range_r]. rewrite iter_collect_range by lia. done. Qed.
