(* ===== verification/FrameAllocator.v ===== *)
(** * Physical frames ([os/src/mm/frame_allocator.rs])

    [StackFrameAllocator] hands out page frames and counts the
    [FrameTracker]s of each one; a frame returns to the free list when its
    last tracker is dropped.  The state of the memory subsystem is the
    allocator together with the contents of physical memory, which the kernel
    reaches through its identity mapping. *)

From stdpp Require Import list numbers gmap.
From S2P Require Import Prelude Address.

Open Scope Z_scope.

(** ** The allocator *)

Record StackFrameAllocator := mkFA {
  fa_current : Z;
  fa_end : Z;
  (** a [Vec] used as a stack: the last element is its top *)
  fa_recycled : list Z;
  fa_ref_counts : gmap Z Z
}.

Definition StackFrameAllocator_new : StackFrameAllocator := mkFA 0 0 [] ∅.

Definition StackFrameAllocator_init (l r : PhysPageNum) : M StackFrameAllocator unit :=
  modify (fun a => mkFA l r (fa_recycled a) (fa_ref_counts a)).

Definition StackFrameAllocator_add_ref (ppn : PhysPageNum) : M StackFrameAllocator unit :=
  a ← get;
  count ← unwrap (fa_ref_counts a !! ppn);
  put (mkFA (fa_current a) (fa_end a) (fa_recycled a)
         (<[ppn := usize_wrap (count + 1)]> (fa_ref_counts a))).

Definition StackFrameAllocator_ref_count (a : StackFrameAllocator) (ppn : PhysPageNum) : Z :=
  default 0 (fa_ref_counts a !! ppn).

Definition StackFrameAllocator_allocated_count (a : StackFrameAllocator) : Z :=
  Z.of_nat (size (fa_ref_counts a)).

(** [Vec::pop]. *)
Definition vec_pop {A : Type} (l : list A) : option (A * list A) :=
  match last l with
  | Some x => Some (x, removelast l)
  | None => None
  end.

(** [assert!(self.ref_counts.insert(ppn, 1).is_none())]: a new frame has one
    owner. *)
Definition insert_ref_count (ppn : Z) : M StackFrameAllocator unit :=
  a ← get;
  put (mkFA (fa_current a) (fa_end a) (fa_recycled a) (<[ppn := 1]> (fa_ref_counts a)));;
  massert (bool_decide (fa_ref_counts a !! ppn = None)).

Definition StackFrameAllocator_alloc : M StackFrameAllocator (option PhysPageNum) :=
  a ← get;
  match vec_pop (fa_recycled a) with
  | Some (ppn, rest) =>
      put (mkFA (fa_current a) (fa_end a) rest (fa_ref_counts a));;
      insert_ref_count ppn;;
      mret (Some (PhysPageNum_from_usize ppn))
  | None =>
      if fa_current a =? fa_end a then mret None
      else
        let ppn := fa_current a in
        put (mkFA (usize_wrap (ppn + 1)) (fa_end a) (fa_recycled a) (fa_ref_counts a));;
        insert_ref_count ppn;;
        mret (Some (PhysPageNum_from_usize ppn))
  end.

Definition StackFrameAllocator_alloc_more (pages : Z)
  : M StackFrameAllocator (option (list PhysPageNum)) :=
  a ← get;
  if fa_end a <=? usize_wrap (fa_current a + pages) then mret None
  else
    let cur := usize_wrap (fa_current a + pages) in
    put (mkFA cur (fa_end a) (fa_recycled a) (fa_ref_counts a));;
    let frames := map (fun offset => usize_wrap (cur - offset)) (seqZ 1 pages) in
    mfor frames insert_ref_count;;
    mret (Some frames).

Definition StackFrameAllocator_dealloc (ppn : PhysPageNum) : M StackFrameAllocator unit :=
  a ← get;
  count ← unwrap (fa_ref_counts a !! ppn);
  massert (0 <? count);;
  let count' := count - 1 in
  if count' =? 0 then
    put (mkFA (fa_current a) (fa_end a) (fa_recycled a ++ [ppn]) (delete ppn (fa_ref_counts a)))
  else
    put (mkFA (fa_current a) (fa_end a) (fa_recycled a) (<[ppn := count']> (fa_ref_counts a))).

(** ** Physical memory and frame trackers *)

(** A page as its bytes; an offset that was never written reads zero. *)
Abbreviation Page := (gmap Z Z) (only parsing).
Definition page_zero : Page := ∅.
Definition page_byte (p : Page) (off : Z) : Z := default 0 (p !! off).

(** The machine as the memory subsystem sees it: [FRAME_ALLOCATOR] and the
    physical memory, by page number. *)
Record Machine := mkMachine {
  m_allocator : StackFrameAllocator;
  m_mem : gmap Z Page
}.

Definition mem_page (m : Machine) (ppn : PhysPageNum) : Page :=
  default page_zero (m_mem m !! ppn).

Definition set_page (ppn : PhysPageNum) (p : Page) (m : Machine) : Machine :=
  mkMachine (m_allocator m) (<[ppn := p]> (m_mem m)).

(** [FRAME_ALLOCATOR.exclusive_access().f()]. *)
Definition with_allocator {A : Type} (f : M StackFrameAllocator A) : M Machine A := fun m =>
  match f (m_allocator m) with
  | Ok (a, fa) => Ok (a, mkMachine fa (m_mem m))
  | Err e => Err e
  end.

Record FrameTracker := mkTracker { ft_ppn : PhysPageNum }.

(** [FrameTracker::new] clears the page. *)
Definition FrameTracker_new (ppn : PhysPageNum) : M Machine FrameTracker :=
  modify (set_page ppn page_zero);;
  mret (mkTracker ppn).

Definition frame_alloc : M Machine (option FrameTracker) :=
  o ← with_allocator StackFrameAllocator_alloc;
  match o with
  | None => mret None
  | Some ppn => t ← FrameTracker_new ppn; mret (Some t)
  end.

(** [pages.iter().map(FrameTracker::new).collect()]. *)
Fixpoint trackers_new (pages : list PhysPageNum) : M Machine (list FrameTracker) :=
  match pages with
  | [] => mret []
  | ppn :: rest => t ← FrameTracker_new ppn; ts ← trackers_new rest; mret (t :: ts)
  end.

Definition frame_alloc_more (num : Z) : M Machine (option (list FrameTracker)) :=
  o ← with_allocator (StackFrameAllocator_alloc_more num);
  match o with
  | None => mret None
  | Some pages => ts ← trackers_new pages; mret (Some ts)
  end.

Definition frame_dealloc (ppn : PhysPageNum) : M Machine unit :=
  with_allocator (StackFrameAllocator_dealloc ppn).
Definition frame_add_ref (ppn : PhysPageNum) : M Machine unit :=
  with_allocator (StackFrameAllocator_add_ref ppn).
Definition frame_ref_count (ppn : PhysPageNum) : M Machine Z :=
  gets (fun m => StackFrameAllocator_ref_count (m_allocator m) ppn).
Definition frame_allocated_count : M Machine Z :=
  gets (fun m => StackFrameAllocator_allocated_count (m_allocator m)).

(** [FrameTracker::clone] and the drop of a tracker. *)
Definition FrameTracker_clone (t : FrameTracker) : M Machine FrameTracker :=
  frame_add_ref (ft_ppn t);; mret (mkTracker (ft_ppn t)).
Definition FrameTracker_drop (t : FrameTracker) : M Machine unit :=
  frame_dealloc (ft_ppn t).

(** [init_frame_allocator]; [ekernel] is the linker symbol at the end of the
    kernel image. *)
Definition init_frame_allocator (ekernel : Z) : M Machine unit :=
  with_allocator (StackFrameAllocator_init
    (PhysAddr_ceil (PhysAddr_from_usize ekernel))
    (PhysAddr_floor (PhysAddr_from_usize MEMORY_END))).

(** ** The invariant *)

(** Frames of [[base, fa_current)] are either allocated, with a positive
    count, or in the free list, once; the others have never been handed
    out. *)
Record fa_inv (base : Z) (a : StackFrameAllocator) : Prop := {
  fa_bounds : 0 <= base <= fa_current a /\ fa_current a <= fa_end a <= 2 ^ 44;
  fa_recycled_nodup : NoDup (fa_recycled a);
  fa_recycled_free p : p ∈ fa_recycled a ->
    base <= p < fa_current a /\ fa_ref_counts a !! p = None;
  fa_counts p c : fa_ref_counts a !! p = Some c -> base <= p < fa_current a /\ 0 < c;
  fa_no_leak p : base <= p < fa_current a ->
    p ∈ fa_recycled a \/ is_Some (fa_ref_counts a !! p)
}.

(** Frames that can still be handed out. *)
Definition frames_free (a : StackFrameAllocator) : Z :=
  fa_end a - fa_current a + Z.of_nat (length (fa_recycled a)).

Section Allocator.
Context (base : Z).
Implicit Types a : StackFrameAllocator.

Lemma vec_pop_Some {A} (l : list A) x l' : vec_pop l = Some (x, l') <-> l = l' ++ [x].
Proof.
  unfold vec_pop. destruct l as [|y l0 _] using rev_ind.
  { cbn. split; [done|]. by destruct l'. }
  rewrite last_snoc, removelast_last. split.
  - by intros [= -> ->].
  - intros [-> [= ->]]%app_inj_tail. done.
Qed.

Lemma vec_pop_None {A} (l : list A) : vec_pop l = None <-> l = [].
Proof.
  unfold vec_pop. destruct l as [|y l0 _] using rev_ind; [done|].
  rewrite last_snoc. split; [done|]. by destruct l0.
Qed.

Lemma ref_count_pos a p :
  fa_inv base a -> 0 < StackFrameAllocator_ref_count a p <-> is_Some (fa_ref_counts a !! p).
Proof.
  intros Hi. unfold StackFrameAllocator_ref_count.
  destruct (fa_ref_counts a !! p) as [c|] eqn:E; cbn.
  - apply (fa_counts _ _ Hi) in E. split; [eauto|lia].
  - split; [lia|]. by intros [? ?].
Qed.

Lemma fa_inv_init l r :
  0 <= l <= r -> r <= 2 ^ 44 -> base = l ->
  wp (StackFrameAllocator_init l r) (fun _ a => fa_inv base a) StackFrameAllocator_new.
Proof.
  intros H1 H2 ->. unfold StackFrameAllocator_init. wp_simpl. split; cbn; try lia.
  - constructor.
  - intros p Hp. by apply not_elem_of_nil in Hp.
  - intros p c. by rewrite lookup_empty.
Qed.

(** What changes in the reference counts. *)
Definition counts_update a a' p n : Prop :=
  StackFrameAllocator_ref_count a' p = n /\
  forall q, q <> p -> StackFrameAllocator_ref_count a' q = StackFrameAllocator_ref_count a q.

Lemma counts_update_insert a cur e rec p n :
  counts_update a (mkFA cur e rec (<[p := n]> (fa_ref_counts a))) p n.
Proof.
  split; unfold StackFrameAllocator_ref_count; cbn; [by rewrite lookup_insert_eq|].
  intros. by rewrite lookup_insert_ne.
Qed.

Lemma counts_update_delete a cur e rec p :
  counts_update a (mkFA cur e rec (delete p (fa_ref_counts a))) p 0.
Proof.
  split; unfold StackFrameAllocator_ref_count; cbn; [by rewrite lookup_delete_eq|].
  intros. by rewrite lookup_delete_ne.
Qed.

(** The state after a frame of the free list is handed out. *)
Lemma fa_inv_pop a rest p :
  fa_inv base a -> fa_recycled a = rest ++ [p] ->
  fa_inv base (mkFA (fa_current a) (fa_end a) rest (<[p := 1]> (fa_ref_counts a))).
Proof.
  intros [Hb Hnd Hfree Hcnt Hleak] Hr. rewrite Hr in *.
  apply NoDup_app in Hnd as (Hnd & Hdisj & _).
  split; cbn; auto.
  - intros q Hq. assert (q <> p) by (intros ->; apply (Hdisj p Hq); set_solver).
    rewrite lookup_insert_ne by done. apply Hfree. set_solver.
  - intros q c. destruct (decide (q = p)) as [->|].
    + rewrite lookup_insert_eq. intros [= <-]. split; [|lia]. apply Hfree. set_solver.
    + rewrite lookup_insert_ne by done. apply Hcnt.
  - intros q Hq. destruct (decide (q = p)) as [->|].
    + right. rewrite lookup_insert_eq. eauto.
    + rewrite lookup_insert_ne by done. destruct (Hleak q Hq); [|auto]. set_solver.
Qed.

(** The state after the next fresh frame is handed out. *)
Lemma fa_inv_bump a rec :
  fa_inv base a -> rec = fa_recycled a -> fa_current a < fa_end a ->
  fa_inv base (mkFA (fa_current a + 1) (fa_end a) rec
                 (<[fa_current a := 1]> (fa_ref_counts a))).
Proof.
  intros [Hb Hnd Hfree Hcnt Hleak] -> Hlt.
  split; cbn; auto; [lia| | |].
  - intros q Hq. destruct (Hfree q Hq). rewrite lookup_insert_ne by lia. split; [lia|done].
  - intros q c. destruct (decide (q = fa_current a)) as [->|].
    + rewrite lookup_insert_eq. intros [= <-]. lia.
    + rewrite lookup_insert_ne by done. intros ?%Hcnt. lia.
  - intros q Hq. destruct (decide (q = fa_current a)) as [->|].
    + right. rewrite lookup_insert_eq. eauto.
    + rewrite lookup_insert_ne by done. apply Hleak. lia.
Qed.

(** [alloc] hands out a frame nobody owns, or reports that the pool is
    exhausted; it never panics. *)
Definition alloc_post a (o : option PhysPageNum) a' : Prop :=
  match o with
  | Some p =>
      fa_inv base a' /\ base <= p < fa_end a /\ fa_end a' = fa_end a /\
      StackFrameAllocator_ref_count a p = 0 /\ counts_update a a' p 1 /\
      frames_free a' = frames_free a - 1
  | None => a' = a /\ frames_free a = 0
  end.

Lemma wp_alloc a :
  fa_inv base a -> wp StackFrameAllocator_alloc (alloc_post a) a.
Proof.
  intros Hi. unfold StackFrameAllocator_alloc, insert_ref_count. wp_simpl.
  assert (forall p, 0 <= p < 2 ^ 44 -> PhysPageNum_from_usize p = p) as Hsmall.
  { intros. rewrite PhysPageNum_from_usize_mod. by apply Z.mod_small. }
  destruct (vec_pop (fa_recycled a)) as [[p rest]|] eqn:Ep.
  - apply vec_pop_Some in Ep. wp_simpl. cbn.
    destruct (fa_recycled_free _ _ Hi p) as [Hp HN]; [rewrite Ep; set_solver|].
    pose proof (fa_bounds _ _ Hi).
    split; [by apply bool_decide_eq_true|]. rewrite Hsmall by lia.
    split_and!; try lia; try done.
    + by apply fa_inv_pop.
    + unfold StackFrameAllocator_ref_count. by rewrite HN.
    + apply counts_update_insert.
    + unfold frames_free. cbn. rewrite Ep, length_app. cbn. lia.
  - apply vec_pop_None in Ep. pose proof (fa_bounds _ _ Hi).
    destruct (Z.eqb_spec (fa_current a) (fa_end a)) as [He|Hne]; wp_simpl.
    { split; [done|]. unfold frames_free. rewrite Ep. cbn. lia. }
    cbn.
    assert (fa_ref_counts a !! fa_current a = None) as HN.
    { destruct (fa_ref_counts a !! fa_current a) eqn:E; [|done].
      apply (fa_counts _ _ Hi) in E. lia. }
    split; [by apply bool_decide_eq_true|]. rewrite Hsmall by lia.
    unfold usize_wrap. rewrite Z.mod_small by lia.
    split_and!; try lia; try done.
    + apply fa_inv_bump; auto. lia.
    + unfold StackFrameAllocator_ref_count. by rewrite HN.
    + apply counts_update_insert.
    + unfold frames_free. cbn. lia.
Qed.

(** [dealloc] takes one reference away; the last one frees the frame. *)
Lemma fa_inv_dealloc_last a p :
  fa_inv base a -> fa_ref_counts a !! p = Some 1 ->
  fa_inv base (mkFA (fa_current a) (fa_end a) (fa_recycled a ++ [p])
                 (delete p (fa_ref_counts a))).
Proof.
  intros [Hb Hnd Hfree Hcnt Hleak] Hp. split; cbn; auto.
  - apply NoDup_app. split; [done|]. split.
    + intros q Hq Hqp. apply list_elem_of_singleton in Hqp as ->.
      apply Hfree in Hq as [_ ?]. congruence.
    + apply NoDup_singleton.
  - intros q [Hq| ->%list_elem_of_singleton]%elem_of_app.
    + destruct (Hfree q Hq). split; [done|]. rewrite lookup_delete. by case_decide.
    + split; [by eapply Hcnt|]. apply lookup_delete_eq.
  - intros q c. rewrite lookup_delete. case_decide; [done|]. apply Hcnt.
  - intros q Hq. destruct (decide (q = p)) as [->|]; [left; set_solver|].
    rewrite lookup_delete_ne by done. destruct (Hleak q Hq); [|auto]. left. set_solver.
Qed.

Lemma fa_inv_set_count a p c c' :
  fa_inv base a -> fa_ref_counts a !! p = Some c -> 0 < c' ->
  fa_inv base (mkFA (fa_current a) (fa_end a) (fa_recycled a) (<[p := c']> (fa_ref_counts a))).
Proof.
  intros [Hb Hnd Hfree Hcnt Hleak] Hp Hc. split; cbn; auto.
  - intros q Hq. destruct (Hfree q Hq). split; [done|].
    rewrite lookup_insert_ne by congruence. done.
  - intros q d. rewrite lookup_insert. case_decide; [|apply Hcnt].
    subst. intros [= <-]. split; [|done]. by eapply Hcnt.
  - intros q Hq. rewrite lookup_insert. case_decide; [eauto|]. by apply Hleak.
Qed.

Lemma wp_dealloc a p :
  fa_inv base a -> 0 < StackFrameAllocator_ref_count a p ->
  wp (StackFrameAllocator_dealloc p)
    (fun _ a' => fa_inv base a' /\ fa_end a' = fa_end a /\
       counts_update a a' p (StackFrameAllocator_ref_count a p - 1) /\
       frames_free a' = frames_free a +
         (if StackFrameAllocator_ref_count a p =? 1 then 1 else 0)) a.
Proof.
  intros Hi Hp. pose proof Hp as [c Hc]%ref_count_pos; [|done].
  unfold StackFrameAllocator_dealloc. wp_simpl. exists c. split; [done|]. wp_simpl.
  pose proof (fa_counts _ _ Hi _ _ Hc) as [_ Hpos].
  assert (StackFrameAllocator_ref_count a p = c) as ->.
  { unfold StackFrameAllocator_ref_count. by rewrite Hc. }
  split; [by apply Z.ltb_lt|]. destruct (Z.eqb_spec (c - 1) 0) as [E|E]; wp_simpl.
  - assert (c = 1) as -> by lia. split; [by apply fa_inv_dealloc_last|]. split; [done|].
    split; [apply counts_update_delete|].
    unfold frames_free. cbn. rewrite length_app. cbn. lia.
  - split; [eapply fa_inv_set_count; eauto; lia|]. split; [done|].
    split; [apply counts_update_insert|]. unfold frames_free. cbn. case_zb; lia.
Qed.

Lemma wp_add_ref a p :
  fa_inv base a -> 0 < StackFrameAllocator_ref_count a p < usize_max ->
  wp (StackFrameAllocator_add_ref p)
    (fun _ a' => fa_inv base a' /\ fa_end a' = fa_end a /\
       counts_update a a' p (StackFrameAllocator_ref_count a p + 1) /\
       frames_free a' = frames_free a) a.
Proof.
  intros Hi [Hp Hmax]. pose proof Hp as [c Hc]%ref_count_pos; [|done].
  unfold StackFrameAllocator_add_ref. wp_simpl. exists c. split; [done|]. wp_simpl.
  assert (StackFrameAllocator_ref_count a p = c) as E.
  { unfold StackFrameAllocator_ref_count. by rewrite Hc. }
  rewrite E in *. unfold usize_wrap. rewrite Z.mod_small by (unfold usize_max in *; lia).
  split; [eapply fa_inv_set_count; eauto; lia|]. split; [done|].
  split; [apply counts_update_insert|]. done.
Qed.

(** [alloc_more] hands out a contiguous run, the highest frame first, so the
    last element is the base of the run. *)
Definition run_of (cur pages : Z) : list Z := map (fun off => cur + pages - off) (seqZ 1 pages).

Lemma run_of_frames a pages :
  fa_inv base a -> 0 <= pages -> fa_current a + pages < fa_end a ->
  map (fun offset => usize_wrap (fa_current a + pages - offset)) (seqZ 1 pages)
  = run_of (fa_current a) pages.
Proof.
  intros Hi Hp Hlt. pose proof (fa_bounds _ _ Hi).
  apply map_ext_in. intros off Hoff%list_elem_of_In%elem_of_seqZ.
  unfold usize_wrap. apply Z.mod_small. lia.
Qed.

Lemma elem_of_run p cur pages : p ∈ run_of cur pages <-> cur <= p < cur + pages.
Proof.
  unfold run_of. rewrite list_elem_of_fmap. setoid_rewrite elem_of_seqZ. split.
  - intros (off & -> & ?). lia.
  - intros. exists (cur + pages - p). lia.
Qed.

Lemma NoDup_run cur pages : NoDup (run_of cur pages).
Proof.
  unfold run_of. apply NoDup_fmap_2_strong; [|apply NoDup_seqZ]. intros. lia.
Qed.

(** The loop that registers the new frames. *)
Lemma wp_insert_ref_counts (l : list Z) a :
  NoDup l -> (forall p, p ∈ l -> fa_ref_counts a !! p = None) ->
  wp (mfor l insert_ref_count)
    (fun _ a' => fa_current a' = fa_current a /\ fa_end a' = fa_end a /\
       fa_recycled a' = fa_recycled a /\
       forall q, fa_ref_counts a' !! q =
         if bool_decide (q ∈ l) then Some 1 else fa_ref_counts a !! q) a.
Proof.
  intros Hnd Hfresh.
  apply (wp_mfor l insert_ref_count (fun dn a' =>
    fa_current a' = fa_current a /\ fa_end a' = fa_end a /\ fa_recycled a' = fa_recycled a /\
    forall q, fa_ref_counts a' !! q =
      if bool_decide (q ∈ dn) then Some 1 else fa_ref_counts a !! q)).
  { done. }
  intros dn x a1 [rest Hpre] (H1 & H2 & H3 & H4). unfold insert_ref_count. wp_simpl.
  rewrite Hpre in Hnd, Hfresh. apply NoDup_app in Hnd as (Hnd & _ & _).
  apply NoDup_app in Hnd as (_ & Hx & _).
  assert (x ∉ dn) as Hxdn by (intros ?; by apply (Hx x); [|apply list_elem_of_singleton]).
  split.
  - apply bool_decide_eq_true. rewrite H4, bool_decide_eq_false_2 by done.
    apply Hfresh. set_solver.
  - cbn. split_and!; try done. intros q. rewrite lookup_insert, H4. case_decide as E.
    + rewrite bool_decide_eq_true_2; [done|]. set_solver.
    + rewrite (bool_decide_ext (q ∈ dn ++ [x]) (q ∈ dn)); [done|]. set_solver.
Qed.

Lemma wp_alloc_more a pages :
  fa_inv base a -> 0 <= pages < 2 ^ 63 ->
  wp (StackFrameAllocator_alloc_more pages)
    (fun o a' =>
       if fa_current a + pages <? fa_end a
       then o = Some (run_of (fa_current a) pages) /\ fa_inv base a' /\ fa_end a' = fa_end a /\
            forall q, StackFrameAllocator_ref_count a' q =
              if bool_decide (q ∈ run_of (fa_current a) pages) then 1
              else StackFrameAllocator_ref_count a q
       else o = None /\ a' = a) a.
Proof.
  intros Hi Hp. pose proof (fa_bounds _ _ Hi). unfold StackFrameAllocator_alloc_more.
  assert (usize_wrap (fa_current a + pages) = fa_current a + pages) as Hw.
  { unfold usize_wrap. apply Z.mod_small. lia. }
  wp_simpl. destruct (Z.leb_spec (fa_end a) (usize_wrap (fa_current a + pages)));
    rewrite Hw in *; destruct (Z.ltb_spec (fa_current a + pages) (fa_end a)); try lia; wp_simpl.
  { done. }
  rewrite ?Hw, run_of_frames by (done || lia).
  eapply wp_mono; [apply wp_insert_ref_counts; [apply NoDup_run|]|].
  { cbn. intros p Hrun%elem_of_run. destruct (fa_ref_counts a !! p) eqn:E; [|done].
    apply (fa_counts _ _ Hi) in E. lia. }
  cbn. intros _ a' (E1 & E2 & E3 & E4). wp_simpl. split_and!; try done.
  - destruct Hi as [Hb Hnd Hfree Hcnt Hleak]. split; rewrite ?E1, ?E2, ?E3; auto; [lia| | |].
    + intros q Hq. destruct (Hfree q Hq). rewrite E4. split; [lia|].
      rewrite bool_decide_eq_false_2; [done|]. rewrite elem_of_run. lia.
    + intros q c. rewrite E4. case_bool_decide as Hr.
      * apply elem_of_run in Hr. intros [= <-]. lia.
      * intros ?%Hcnt. lia.
    + intros q Hq. rewrite E4. case_bool_decide as Hr; [eauto|].
      rewrite elem_of_run in Hr. apply Hleak. lia.
  - intros q. unfold StackFrameAllocator_ref_count. rewrite E4. by case_bool_decide.
Qed.

End Allocator.

(** ** Trackers as owners *)

Lemma wp_with_allocator {A} (f : M StackFrameAllocator A) Q m :
  wp (with_allocator f) Q m <->
  wp f (fun a fa => Q a (mkMachine fa (m_mem m))) (m_allocator m).
Proof. unfold wp, with_allocator. by destruct (f (m_allocator m)) as [[? ?]|]. Qed.
#[export] Hint Rewrite @wp_with_allocator : wp.

(** The number of live trackers of a frame. *)
Definition owners (p : Z) (ts : list FrameTracker) : Z :=
  Z.of_nat (length (filter (fun t => ft_ppn t = p) ts)).

Lemma owners_cons p t ts :
  owners p (t :: ts) = owners p ts + (if decide (ft_ppn t = p) then 1 else 0).
Proof. unfold owners. rewrite filter_cons. case_decide; cbn; lia. Qed.

Lemma owners_perm p ts ts' : ts ≡ₚ ts' -> owners p ts = owners p ts'.
Proof. intros H. unfold owners. by rewrite H. Qed.

Lemma owners_pos p ts t : t ∈ ts -> ft_ppn t = p -> 0 < owners p ts.
Proof.
  intros [l1 [l2 ->]]%list_elem_of_split Ht.
  rewrite (owners_perm _ _ (t :: l1 ++ l2)) by (symmetry; apply Permutation_middle).
  rewrite owners_cons, decide_True by done. unfold owners. lia.
Qed.

(** The trackers alive in the kernel and the frames they own: the count of
    every frame is the number of its trackers. *)
Record tracked (base : Z) (m : Machine) (ts : list FrameTracker) : Prop := {
  tracked_inv : fa_inv base (m_allocator m);
  tracked_count p : StackFrameAllocator_ref_count (m_allocator m) p = owners p ts
}.

(** One operation of the tracker interface, in a kernel whose live trackers
    are the list: allocating, cloning, dropping a tracker, writing to a
    page. *)
Inductive tracker_step : Machine * list FrameTracker -> Machine * list FrameTracker -> Prop :=
  | step_alloc m ts t m' :
      frame_alloc m = Ok (Some t, m') -> tracker_step (m, ts) (m', t :: ts)
  | step_alloc_fail m ts m' :
      frame_alloc m = Ok (None, m') -> tracker_step (m, ts) (m', ts)
  | step_clone m ts t t' m' :
      t ∈ ts -> Z.of_nat (length ts) < usize_max ->
      FrameTracker_clone t m = Ok (t', m') -> tracker_step (m, ts) (m', t' :: ts)
  | step_drop m ts1 t ts2 m' :
      FrameTracker_drop t m = Ok (tt, m') ->
      tracker_step (m, ts1 ++ t :: ts2) (m', ts1 ++ ts2)
  | step_write m ts t p :
      t ∈ ts -> tracker_step (m, ts) (set_page (ft_ppn t) p m, ts).

Section Tracked.
Context (base : Z).
Implicit Types (m : Machine) (ts : list FrameTracker).

Lemma tracked_set_page m ts ppn p : tracked base m ts -> tracked base (set_page ppn p m) ts.
Proof. by intros [? ?]. Qed.

Lemma wp_frame_alloc m ts :
  tracked base m ts ->
  wp frame_alloc (fun o m' =>
    match o with
    | Some t =>
        tracked base m' (t :: ts) /\ owners (ft_ppn t) ts = 0 /\
        base <= ft_ppn t < fa_end (m_allocator m) /\
        frames_free (m_allocator m') = frames_free (m_allocator m) - 1 /\
        m_mem m' = <[ft_ppn t := page_zero]> (m_mem m)
    | None => m' = m /\ frames_free (m_allocator m) = 0
    end) m.
Proof.
  intros [Hi Hc]. unfold frame_alloc, FrameTracker_new. wp_simpl.
  eapply wp_mono; [by apply wp_alloc|]. intros [p|] fa; cbn.
  - intros (Hi' & Hp & He & H0 & [H1 H2] & Hfree). wp_simpl.
    unfold set_page. cbn. split_and!; try (done || lia); [|by rewrite <- Hc].
    split; [done|]. intros q. cbn. rewrite owners_cons. cbn. case_decide as E; subst.
    + rewrite H1, <- Hc. lia.
    + rewrite H2, Hc by done. lia.
  - intros (-> & Hfree). wp_simpl. split; [by destruct m|done].
Qed.

Lemma wp_FrameTracker_clone m ts t :
  tracked base m ts -> t ∈ ts -> Z.of_nat (length ts) < usize_max ->
  wp (FrameTracker_clone t) (fun t' m' =>
    t' = t /\ tracked base m' (t :: ts) /\ m_mem m' = m_mem m /\
    frames_free (m_allocator m') = frames_free (m_allocator m)) m.
Proof.
  intros [Hi Hc] Ht Hlen. unfold FrameTracker_clone, frame_add_ref. wp_simpl.
  pose proof (owners_pos _ _ _ Ht eq_refl).
  assert (owners (ft_ppn t) ts <= Z.of_nat (length ts)).
  { unfold owners. pose proof (length_filter (fun t' => ft_ppn t' = ft_ppn t) ts). lia. }
  eapply wp_mono; [apply (wp_add_ref base); [done|rewrite Hc; lia]|].
  cbn. intros _ fa (Hi' & He & [H1 H2] & Hfree). wp_simpl. split_and!; try done; [by destruct t|].
  split; [done|]. intros q. cbn. rewrite owners_cons. case_decide as E; subst.
  - rewrite H1, Hc. lia.
  - rewrite H2, Hc by done. lia.
Qed.

Lemma wp_FrameTracker_drop m ts ts' t :
  tracked base m ts -> ts ≡ₚ t :: ts' ->
  wp (FrameTracker_drop t) (fun _ m' =>
    tracked base m' ts' /\ m_mem m' = m_mem m /\
    frames_free (m_allocator m) <= frames_free (m_allocator m')) m.
Proof.
  intros [Hi Hc] Hp. unfold FrameTracker_drop, frame_dealloc. wp_simpl.
  eapply wp_mono; [apply (wp_dealloc base); [done|]|].
  { rewrite Hc, (owners_perm _ _ _ Hp). eapply owners_pos; [left|done]. }
  cbn. intros _ fa (Hi' & He & [H1 H2] & Hfree). split_and!; try done; [|case_zb; lia].
  split; [done|]. intros q. cbn. pose proof (Hc q) as Hq.
  rewrite (owners_perm _ _ _ Hp), owners_cons in Hq. case_decide as E; subst.
  - rewrite H1. lia.
  - rewrite H2 by done. lia.
Qed.

Lemma tracker_step_tracked m ts m' ts' :
  tracked base m ts -> tracker_step (m, ts) (m', ts') -> tracked base m' ts'.
Proof.
  intros Ht Hs. inversion Hs; subst; clear Hs.
  - by eapply wp_Ok in H0; [|by apply wp_frame_alloc]; cbn in H0; destruct_and?.
  - by eapply wp_Ok in H0; [|by apply wp_frame_alloc]; cbn in H0; destruct_and?; subst.
  - eapply wp_Ok in H5; [|by eapply wp_FrameTracker_clone]. cbn in H5. by destruct H5 as (-> & ? & _).
  - eapply wp_Ok in H0; [|eapply wp_FrameTracker_drop; [done|]]; [by destruct H0|].
    symmetry. apply Permutation_middle.
  - by apply tracked_set_page.
Qed.

End Tracked.

(** ** Properties *)

(** The allocated frames and the free list partition the frames handed out
    so far. *)
Lemma allocated_recycled base a :
  fa_inv base a ->
  Z.of_nat (size (fa_ref_counts a)) + Z.of_nat (length (fa_recycled a)) = fa_current a - base.
Proof.
  intros [Hb Hnd Hfree Hcnt Hleak].
  assert (dom (fa_ref_counts a) ## (list_to_set (fa_recycled a) : gset Z)) as Hdisj.
  { intros p Hp Hr. apply elem_of_list_to_set, Hfree in Hr as [_ Hr].
    apply elem_of_dom in Hp as [? ?]. congruence. }
  assert (dom (fa_ref_counts a) ∪ list_to_set (fa_recycled a)
          = (list_to_set (seqZ base (fa_current a - base)) : gset Z)) as E.
  { apply set_eq. intros p. rewrite elem_of_union, !elem_of_list_to_set, elem_of_seqZ, elem_of_dom.
    split.
    - intros [[c Hc]|Hr]; [apply Hcnt in Hc|apply Hfree in Hr]; lia.
    - intros Hp. destruct (Hleak p); [lia|auto|auto]. }
  apply (f_equal size) in E. rewrite size_union, size_dom in E by done.
  rewrite !size_list_to_set, length_seqZ in E by (done || apply NoDup_seqZ). lia.
Qed.

Lemma tracker_reachable base m0 m ts :
  tracked base m0 [] -> rtc tracker_step (m0, []) (m, ts) -> tracked base m ts.
Proof.
  assert (forall c c', rtc tracker_step c c' ->
    tracked base c.1 c.2 -> tracked base c'.1 c'.2) as H.
  { induction 1 as [|[m1 ts1] [m2 ts2] c H1 _ IH]; [done|].
    intros Ht. by eapply IH, tracker_step_tracked. }
  intros H0 Hs. by apply (H _ _ Hs).
Qed.

Lemma tracked_boot l r a :
  0 <= l <= r -> r <= 2 ^ 44 ->
  StackFrameAllocator_init l r StackFrameAllocator_new = Ok (tt, a) ->
  tracked l (mkMachine a ∅) [].
Proof.
  intros H1 H2 Hi. split; cbn.
  - eapply (wp_Ok (StackFrameAllocator_init l r) (fun _ a => fa_inv l a)); [|exact Hi].
    by apply fa_inv_init.
  - intros p. injection Hi as <-. done.
Qed.

(** In every state the kernel reaches by allocating, cloning, dropping
    and writing through frame trackers, the reference count of each frame is
    the number of its live trackers; dropping a live tracker never panics; and
    [frame_alloc] never panics, fails only when no frame is free, and
    otherwise returns a cleared frame of the pool that no live tracker
    owns. *)
Theorem frame_tracker_accounting l r a m ts :
  0 <= l <= r -> r <= 2 ^ 44 ->
  StackFrameAllocator_init l r StackFrameAllocator_new = Ok (tt, a) ->
  rtc tracker_step (mkMachine a ∅, []) (m, ts) ->
  (forall p, StackFrameAllocator_ref_count (m_allocator m) p = owners p ts) /\
  (forall t, t ∈ ts -> exists m', FrameTracker_drop t m = Ok (tt, m')) /\
  exists o m', frame_alloc m = Ok (o, m') /\
    match o with
    | Some t => l <= ft_ppn t < fa_end (m_allocator m) /\
                mem_page m' (ft_ppn t) = page_zero /\
                Forall (fun t' => ft_ppn t' <> ft_ppn t) ts
    | None => frames_free (m_allocator m) = 0
    end.
Proof.
  intros H1 H2 Hi Hs. pose proof (tracked_boot _ _ _ H1 H2 Hi) as H0.
  pose proof (tracker_reachable _ _ _ _ H0 Hs) as Ht. split_and!.
  - apply (tracked_count _ _ _ Ht).
  - intros t [ts1 [ts2 ->]]%list_elem_of_split.
    edestruct (wp_run (FrameTracker_drop t)) as ([] & m' & Hd & _); [|eauto].
    eapply wp_FrameTracker_drop; [done|]. symmetry. apply Permutation_middle.
  - destruct (wp_run _ _ _ (wp_frame_alloc _ _ _ Ht)) as (o & m' & Ha & Ho).
    exists o, m'. split; [done|]. destruct o as [t|]; [|by destruct Ho].
    destruct Ho as (_ & Hown & Hr & _ & Hm). split_and!; try lia.
    + unfold mem_page. by rewrite Hm, lookup_insert_eq.
    + apply Forall_forall. intros t' Ht' E. pose proof (owners_pos _ _ _ Ht' E). lia.
Qed.

(** A pool of three frames: one frame allocated, shared and partly
    released. *)
Definition demo_allocator : StackFrameAllocator := mkFA 10 13 [] ∅.
Definition demo_machine : Machine := mkMachine demo_allocator ∅.

Lemma frame_tracker_accounting_witness :
  exists m, rtc tracker_step (demo_machine, []) (m, [mkTracker 10; mkTracker 10]) /\
    StackFrameAllocator_ref_count (m_allocator m) 10 = 2.
Proof.
  exists (mkMachine (mkFA 11 13 [] {[10 := 2]}) {[10 := page_zero]}).
  assert (rtc tracker_step (demo_machine, [])
    (mkMachine (mkFA 11 13 [] {[10 := 2]}) {[10 := page_zero]}, [mkTracker 10; mkTracker 10])) as Hs.
  { eapply rtc_l; [by eapply (step_alloc _ _ (mkTracker 10))|].
    eapply rtc_l; [|apply rtc_refl].
    eapply (step_clone _ _ (mkTracker 10)); [left|done|done]. }
  split; [exact Hs|].
  destruct (frame_tracker_accounting 10 13 demo_allocator _ _ ltac:(lia) ltac:(lia) eq_refl Hs)
    as [H _]. exact (H 10).
Defined.

(** Frames are conserved: in every reachable state the frames in use and
    the frames still free add up to the pool, so nothing leaks and nothing is
    counted twice. *)
Theorem frame_conservation l r a m ts :
  0 <= l <= r -> r <= 2 ^ 44 ->
  StackFrameAllocator_init l r StackFrameAllocator_new = Ok (tt, a) ->
  rtc tracker_step (mkMachine a ∅, []) (m, ts) ->
  StackFrameAllocator_allocated_count (m_allocator m) + frames_free (m_allocator m)
  = fa_end (m_allocator m) - l.
Proof.
  intros H1 H2 Hi Hs. pose proof (tracked_boot _ _ _ H1 H2 Hi) as H0.
  destruct (tracker_reachable _ _ _ _ H0 Hs) as [Hinv _].
  pose proof (allocated_recycled _ _ Hinv).
  unfold StackFrameAllocator_allocated_count, frames_free. lia.
Qed.

Lemma frame_conservation_witness :
  StackFrameAllocator_allocated_count demo_allocator + frames_free demo_allocator = 3.
Proof.
  exact (frame_conservation 10 13 demo_allocator demo_machine []
    ltac:(lia) ltac:(lia) eq_refl (rtc_refl _ _)).
Defined.

(** [alloc_more] either refuses and changes nothing, or hands out a run
    of contiguous frames, none of them in use before and each with one owner
    after, ordered from the highest to the lowest, so that the last element
    is the base address a DMA buffer is given. *)
Theorem alloc_more_contiguous base a pages :
  fa_inv base a -> 0 < pages < 2 ^ 63 ->
  exists o a', StackFrameAllocator_alloc_more pages a = Ok (o, a') /\
    match o with
    | Some frames =>
        fa_inv base a' /\ Z.of_nat (length frames) = pages /\
        last frames = Some (fa_current a) /\
        forall i p, frames !! i = Some p ->
          p = fa_current a + pages - 1 - Z.of_nat i /\
          StackFrameAllocator_ref_count a p = 0 /\ StackFrameAllocator_ref_count a' p = 1
    | None => a' = a /\ fa_end a <= fa_current a + pages
    end.
Proof.
  intros Hi Hp. destruct (wp_run _ _ _ (wp_alloc_more base a pages Hi ltac:(lia)))
    as (o & a' & Ha & Ho).
  exists o, a'. split; [done|].
  destruct (Z.ltb_spec (fa_current a + pages) (fa_end a)).
  2:{ destruct Ho as [-> ->]. done. }
  destruct Ho as (-> & Hi' & _ & Hcount).
  assert (forall i p, run_of (fa_current a) pages !! i = Some p ->
    p = fa_current a + pages - 1 - Z.of_nat i /\ (Z.of_nat i < pages)) as Hrun.
  { intros i p. unfold run_of. rewrite list_lookup_fmap, fmap_Some.
    intros (off & [-> ?]%lookup_seqZ & ->). lia. }
  assert (length (run_of (fa_current a) pages) = Z.to_nat pages) as Hlen.
  { unfold run_of. by rewrite length_map, length_seqZ. }
  split_and!; [done|lia| |].
  - rewrite last_lookup, Hlen.
    destruct (run_of (fa_current a) pages !! pred (Z.to_nat pages)) as [p|] eqn:E.
    + f_equal. apply Hrun in E as [-> _]. lia.
    + apply lookup_ge_None in E. lia.
  - intros i p Hip. destruct (Hrun i p Hip) as [-> ?]. split_and!; [done| |].
    + unfold StackFrameAllocator_ref_count. destruct (fa_ref_counts a !! _) eqn:E; [|done].
      apply (fa_counts _ _ Hi) in E. lia.
    + rewrite Hcount, bool_decide_eq_true_2; [done|]. apply elem_of_run. lia.
Qed.

Lemma demo_allocator_inv : fa_inv 10 demo_allocator.
Proof. apply (tracked_inv _ demo_machine []). apply (tracked_boot 10 13); [lia|lia|done]. Qed.

Lemma alloc_more_contiguous_witness :
  exists a', StackFrameAllocator_alloc_more 2 demo_allocator = Ok (Some [11; 10], a') /\
    fa_inv 10 a'.
Proof.
  destruct (alloc_more_contiguous 10 demo_allocator 2 demo_allocator_inv ltac:(lia))
    as (o & a' & Ha & Ho).
  exists a'. injection Ha as <- <-. split; [reflexivity|]. exact (proj1 Ho).
Defined.
