(* ===== verification/PageTable.v ===== *)
(** * Sv39 page tables ([os/src/mm/page_table.rs])

    Page-table entries with their flags and the software copy-on-write bit,
    the three-level walk over tables stored in physical memory, and the
    accessors the system calls use to reach user memory through a page-table
    token.  A [&mut PageTableEntry] is the slot it points to: the frame of the
    table and the index in it. *)

From stdpp Require Import list numbers gmap.
From S2P Require Import Prelude Address FrameAllocator.

Open Scope Z_scope.

(** ** Entries and flags *)

Definition PTE_COW : Z := Z.shiftl 1 8.

(** [PTEFlags], a [bitflags] type over [u8]. *)
Definition PTE_V : Z := Z.shiftl 1 0.
Definition PTE_R : Z := Z.shiftl 1 1.
Definition PTE_W : Z := Z.shiftl 1 2.
Definition PTE_X : Z := Z.shiftl 1 3.
Definition PTE_U : Z := Z.shiftl 1 4.
Definition PTE_G : Z := Z.shiftl 1 5.
Definition PTE_A : Z := Z.shiftl 1 6.
Definition PTE_D : Z := Z.shiftl 1 7.

(** [a.contains(b)], [a.insert(b)] and [a.remove(b)] of [bitflags]. *)
Definition flags_contains (a b : Z) : bool := Z.land a b =? b.
Definition flags_insert (a b : Z) : Z := Z.lor a b.
Definition flags_remove (a b : Z) : Z := Z.ldiff a b.

Abbreviation PageTableEntry := Z (only parsing).

Definition PageTableEntry_new (ppn : PhysPageNum) (flags : Z) : PageTableEntry :=
  Z.lor (usize_wrap (Z.shiftl ppn 10)) flags.
Definition PageTableEntry_new_cow (ppn : PhysPageNum) (flags : Z) : PageTableEntry :=
  Z.lor (Z.lor (usize_wrap (Z.shiftl ppn 10)) flags) PTE_COW.
Definition PageTableEntry_empty : PageTableEntry := 0.
Definition PageTableEntry_ppn (pte : PageTableEntry) : PhysPageNum :=
  PhysPageNum_from_usize (Z.land (Z.shiftr pte 10) (Z.shiftl 1 44 - 1)).
(** [PTEFlags::from_bits(self.bits as u8).unwrap()]: every byte is a set of
    flags. *)
Definition PageTableEntry_flags (pte : PageTableEntry) : Z := pte mod 256.
Definition PageTableEntry_is_valid (pte : PageTableEntry) : bool :=
  flags_contains (PageTableEntry_flags pte) PTE_V.
Definition PageTableEntry_readable (pte : PageTableEntry) : bool :=
  flags_contains (PageTableEntry_flags pte) PTE_R.
Definition PageTableEntry_writable (pte : PageTableEntry) : bool :=
  flags_contains (PageTableEntry_flags pte) PTE_W.
Definition PageTableEntry_executable (pte : PageTableEntry) : bool :=
  flags_contains (PageTableEntry_flags pte) PTE_X.
Definition PageTableEntry_user_accessible (pte : PageTableEntry) : bool :=
  flags_contains (PageTableEntry_flags pte) PTE_U.
Definition PageTableEntry_is_cow (pte : PageTableEntry) : bool :=
  negb (Z.land pte PTE_COW =? 0).

(** ** Tables in physical memory *)

(** Writing bytes into a page from an offset on. *)
Fixpoint page_write (p : Page) (off : Z) (bs : list Z) : Page :=
  match bs with
  | [] => p
  | b :: bs' => page_write (<[off := b]> p) (off + 1) bs'
  end.
Definition page_read (p : Page) (off : Z) (n : nat) : list Z :=
  map (page_byte p) (seqZ off (Z.of_nat n)).

(** [ppn.get_pte_array()[idx]], read and assigned: entries are little-endian
    64-bit words. *)
Definition read_pte (m : Machine) (ppn : PhysPageNum) (idx : Z) : PageTableEntry :=
  le_val (page_read (mem_page m ppn) (8 * idx) 8).
Definition write_pte (ppn : PhysPageNum) (idx : Z) (pte : PageTableEntry) (m : Machine) : Machine :=
  set_page ppn (page_write (mem_page m ppn) (8 * idx) (le_bytes 8 pte)) m.

Record PageTable := mkPageTable {
  pt_root_ppn : PhysPageNum;
  pt_frames : list FrameTracker
}.

Definition PageTable_new : M Machine PageTable :=
  o ← frame_alloc;
  frame ← unwrap o;
  mret (mkPageTable (ft_ppn frame) [frame]).

Definition PageTable_from_token (satp : Z) : PageTable :=
  mkPageTable (PhysPageNum_from_usize (Z.land satp (Z.shiftl 1 44 - 1))) [].

(** The walk of [find_pte_create]: the loop over the indexes of the page
    number, [i] the level; a missing table is allocated and linked. *)
Fixpoint find_pte_create_loop (i : nat) (idxs : list Z) (ppn : PhysPageNum) (pt : PageTable)
  : M Machine (option (Z * Z) * PageTable) :=
  match idxs with
  | [] => mret (None, pt)
  | idx :: rest =>
      if (i =? 2)%nat then mret (Some (ppn, idx), pt)
      else
        pte ← gets (fun m => read_pte m ppn idx);
        pt' ← (if negb (PageTableEntry_is_valid pte) then
                 o ← frame_alloc;
                 frame ← unwrap o;
                 modify (write_pte ppn idx (PageTableEntry_new (ft_ppn frame) PTE_V));;
                 mret (mkPageTable (pt_root_ppn pt) (pt_frames pt ++ [frame]))
               else mret pt);
        pte' ← gets (fun m => read_pte m ppn idx);
        find_pte_create_loop (S i) rest (PageTableEntry_ppn pte') pt'
  end.
Definition PageTable_find_pte_create (pt : PageTable) (vpn : VirtPageNum)
  : M Machine (option (Z * Z) * PageTable) :=
  find_pte_create_loop 0 (VirtPageNum_indexes vpn) (pt_root_ppn pt) pt.

(** The walk of [find_pte]: it stops at a missing table. *)
Fixpoint find_pte_loop (m : Machine) (i : nat) (idxs : list Z) (ppn : PhysPageNum)
  : option (Z * Z) :=
  match idxs with
  | [] => None
  | idx :: rest =>
      if (i =? 2)%nat then Some (ppn, idx)
      else
        let pte := read_pte m ppn idx in
        if negb (PageTableEntry_is_valid pte) then None
        else find_pte_loop m (S i) rest (PageTableEntry_ppn pte)
  end.
Definition PageTable_find_pte (m : Machine) (pt : PageTable) (vpn : VirtPageNum)
  : option (Z * Z) :=
  find_pte_loop m 0 (VirtPageNum_indexes vpn) (pt_root_ppn pt).

Definition PageTable_map (pt : PageTable) (vpn : VirtPageNum) (ppn : PhysPageNum) (flags : Z)
  : M Machine PageTable :=
  r ← PageTable_find_pte_create pt vpn;
  slot ← unwrap (fst r);
  pte ← gets (fun m => read_pte m (fst slot) (snd slot));
  massert (negb (PageTableEntry_is_valid pte));;
  modify (write_pte (fst slot) (snd slot) (PageTableEntry_new ppn (flags_insert flags PTE_V)));;
  mret (snd r).

Definition PageTable_map_cow (pt : PageTable) (vpn : VirtPageNum) (ppn : PhysPageNum) (flags : Z)
  : M Machine PageTable :=
  r ← PageTable_find_pte_create pt vpn;
  slot ← unwrap (fst r);
  pte ← gets (fun m => read_pte m (fst slot) (snd slot));
  massert (negb (PageTableEntry_is_valid pte));;
  let flags' := flags_insert (flags_remove flags PTE_W) PTE_V in
  modify (write_pte (fst slot) (snd slot) (PageTableEntry_new_cow ppn flags'));;
  mret (snd r).

Definition PageTable_mark_cow (pt : PageTable) (vpn : VirtPageNum) : M Machine unit :=
  o ← gets (fun m => PageTable_find_pte m pt vpn);
  slot ← unwrap o;
  pte ← gets (fun m => read_pte m (fst slot) (snd slot));
  massert (PageTableEntry_is_valid pte);;
  let ppn := PageTableEntry_ppn pte in
  let flags := PageTableEntry_flags pte in
  if PageTableEntry_is_cow pte then massert (negb (flags_contains flags PTE_W))
  else
    massert (flags_contains flags PTE_W);;
    modify (write_pte (fst slot) (snd slot)
              (PageTableEntry_new_cow ppn (flags_remove flags PTE_W))).

Definition PageTable_resolve_cow (pt : PageTable) (vpn : VirtPageNum) (new_ppn : PhysPageNum)
  : M Machine unit :=
  o ← gets (fun m => PageTable_find_pte m pt vpn);
  slot ← unwrap o;
  pte ← gets (fun m => read_pte m (fst slot) (snd slot));
  massert (PageTableEntry_is_valid pte);;
  massert (PageTableEntry_is_cow pte);;
  let flags := flags_insert (flags_insert (PageTableEntry_flags pte) PTE_W) PTE_V in
  modify (write_pte (fst slot) (snd slot) (PageTableEntry_new new_ppn flags)).

Definition PageTable_unmap (pt : PageTable) (vpn : VirtPageNum) : M Machine unit :=
  o ← gets (fun m => PageTable_find_pte m pt vpn);
  slot ← unwrap o;
  pte ← gets (fun m => read_pte m (fst slot) (snd slot));
  massert (PageTableEntry_is_valid pte);;
  modify (write_pte (fst slot) (snd slot) PageTableEntry_empty).

Definition PageTable_translate (m : Machine) (pt : PageTable) (vpn : VirtPageNum)
  : option PageTableEntry :=
  (fun slot => read_pte m (fst slot) (snd slot)) <$> PageTable_find_pte m pt vpn.

Definition PageTable_translate_va (m : Machine) (pt : PageTable) (va : VirtAddr)
  : option PhysAddr :=
  (fun slot =>
     let pte := read_pte m (fst slot) (snd slot) in
     let aligned_pa := PhysAddr_from_PhysPageNum (PageTableEntry_ppn pte) in
     PhysAddr_from_usize (usize_wrap (PhysAddr_into_usize aligned_pa + VirtAddr_page_offset va)))
  <$> PageTable_find_pte m pt (VirtAddr_floor va).

Definition PageTable_token (pt : PageTable) : Z := Z.lor (Z.shiftl 8 60) (pt_root_ppn pt).

(** ** User memory through a token *)

(** A [&'static mut [u8]] inside one frame. *)
Record Slice := mkSlice { sl_ppn : PhysPageNum; sl_off : Z; sl_len : Z }.

(** [ppn.get_bytes_array()[from..to]]; the range panics when [from > to]. *)
Definition byte_slice (ppn : PhysPageNum) (from to : Z) : option Slice :=
  if (from <=? to) && (to <=? 4096) then Some (mkSlice ppn from (to - from)) else None.

Fixpoint translated_byte_buffer_loop (fuel : nat) (pt : PageTable) (start e : Z)
  (buffers : list Slice) : M Machine (list Slice) :=
  match fuel with
  | O => fail NoFuel
  | S fuel' =>
      if start <? e then
        let start_va := VirtAddr_from_usize start in
        let vpn := VirtAddr_floor start_va in
        o ← gets (fun m => PageTable_translate m pt vpn);
        pte ← unwrap o;
        let ppn := PageTableEntry_ppn pte in
        let vpn' := VirtPageNum_step vpn in
        let end_va := Z.min (VirtAddr_from_VirtPageNum vpn') (VirtAddr_from_usize e) in
        b ← unwrap
              (if VirtAddr_page_offset end_va =? 0
               then byte_slice ppn (VirtAddr_page_offset start_va) 4096
               else byte_slice ppn (VirtAddr_page_offset start_va) (VirtAddr_page_offset end_va));
        translated_byte_buffer_loop fuel' pt (VirtAddr_into_usize end_va) e (buffers ++ [b])
      else mret buffers
  end.

(** Every pass but the first and the last covers a whole page. *)
Definition buffer_fuel (len : Z) : nat := Z.to_nat (len / PAGE_SIZE) + 3.

Definition translated_byte_buffer (token ptr len : Z) : M Machine (list Slice) :=
  translated_byte_buffer_loop (buffer_fuel len) (PageTable_from_token token) ptr
    (usize_wrap (ptr + len)) [].

(** The byte at a physical address. *)
Definition read_phys (m : Machine) (pa : PhysAddr) : Z :=
  page_byte (mem_page m (pa / PAGE_SIZE)) (pa mod PAGE_SIZE).
Definition write_phys (pa : PhysAddr) (b : Z) (m : Machine) : Machine :=
  set_page (pa / PAGE_SIZE)
    (<[pa mod PAGE_SIZE := b]> (mem_page m (pa / PAGE_SIZE))) m.

(** [string.push(ch as char)]: a Latin-1 character in UTF-8. *)
Definition push_char (s : list Z) (ch : Z) : list Z :=
  if ch <? 128 then s ++ [ch]
  else s ++ [Z.lor 0xC0 (Z.shiftr ch 6); Z.lor 0x80 (Z.land ch 0x3f)].

(** [PhysAddr::get_ref] and [get_mut]: the reference to the object at an
    address, which stands for it; [as_ref] and [as_mut] of a null pointer are
    [None]. *)
Definition PhysAddr_get_ref (pa : PhysAddr) : M Machine PhysAddr := massert (negb (pa =? 0));; mret pa.
Definition PhysAddr_get_mut (pa : PhysAddr) : M Machine PhysAddr := massert (negb (pa =? 0));; mret pa.

(** [translated_str]: bytes up to the terminating NUL. *)
Fixpoint translated_str_loop (fuel : nat) (pt : PageTable) (va : Z) (s : list Z)
  : M Machine (list Z) :=
  match fuel with
  | O => fail NoFuel
  | S fuel' =>
      m ← get;
      pa ← unwrap (PageTable_translate_va m pt (VirtAddr_from_usize va));
      pa ← PhysAddr_get_ref pa;
      let ch := read_phys m pa in
      if ch =? 0 then mret s
      else translated_str_loop fuel' pt (usize_wrap (va + 1)) (push_char s ch)
  end.
Definition translated_str (fuel : nat) (token ptr : Z) : M Machine (list Z) :=
  translated_str_loop fuel (PageTable_from_token token) ptr [].

(** [translated_ref] and [translated_refmut] yield the physical address of
    the object. *)
Definition translated_ref (token ptr : Z) : M Machine PhysAddr :=
  m ← get;
  pa ← unwrap (PageTable_translate_va m (PageTable_from_token token) (VirtAddr_from_usize ptr));
  PhysAddr_get_ref pa.
Definition translated_refmut (token ptr : Z) : M Machine PhysAddr :=
  m ← get;
  pa ← unwrap (PageTable_translate_va m (PageTable_from_token token) (VirtAddr_from_usize ptr));
  PhysAddr_get_mut pa.

(** ** User buffers *)

Record UserBuffer := mkUserBuffer { ub_buffers : list Slice }.

Definition UserBuffer_len (b : UserBuffer) : Z :=
  fold_left (fun total sl => total + sl_len sl) (ub_buffers b) 0.

Record UserBufferIterator := mkUserIter {
  ui_buffers : list Slice;
  ui_current_buffer : nat;
  ui_current_idx : Z
}.

Definition UserBuffer_into_iter (b : UserBuffer) : UserBufferIterator :=
  mkUserIter (ub_buffers b) 0 0.

(** [Iterator::next]: the physical address of the next byte.  Indexing an
    empty slice panics. *)
Definition UserBufferIterator_next : M UserBufferIterator (option (Z * Z)) :=
  it ← get;
  match ui_buffers it !! ui_current_buffer it with
  | None => mret None
  | Some sl =>
      massert (ui_current_idx it <? sl_len sl);;
      let result := (sl_ppn sl, sl_off sl + ui_current_idx it) in
      (if ui_current_idx it + 1 =? sl_len sl
       then put (mkUserIter (ui_buffers it) (S (ui_current_buffer it)) 0)
       else put (mkUserIter (ui_buffers it) (ui_current_buffer it) (ui_current_idx it + 1)));;
      mret (Some result)
  end.

(** ** Entries: what the codecs keep *)

Lemma shiftl10 ppn : 0 <= ppn < 2 ^ 44 -> usize_wrap (Z.shiftl ppn 10) = Z.shiftl ppn 10.
Proof.
  intros. unfold usize_wrap. rewrite Z.shiftl_mul_pow2 by done. apply Z.mod_small. lia.
Qed.

(** An entry is its frame number above ten low bits. *)
Lemma PageTableEntry_new_eq ppn flags :
  0 <= ppn < 2 ^ 44 -> is_byte flags -> PageTableEntry_new ppn flags = ppn * 2 ^ 10 + flags.
Proof.
  intros. unfold PageTableEntry_new, is_byte in *. rewrite shiftl10 by done.
  apply lor_shiftl_add; lia.
Qed.

Lemma PageTableEntry_new_cow_eq ppn flags :
  0 <= ppn < 2 ^ 44 -> is_byte flags ->
  PageTableEntry_new_cow ppn flags = ppn * 2 ^ 10 + (2 ^ 8 + flags).
Proof.
  intros. unfold PageTableEntry_new_cow, is_byte in *. rewrite shiftl10 by done.
  rewrite <- Z.lor_assoc. change PTE_COW with (Z.shiftl 1 8).
  rewrite (Z.lor_comm flags), (lor_shiftl_add 1) by lia.
  rewrite lor_shiftl_add by lia. lia.
Qed.

Lemma PageTableEntry_ppn_eq pte : PageTableEntry_ppn pte = (pte / 2 ^ 10) mod 2 ^ 44.
Proof.
  unfold PageTableEntry_ppn. rewrite PhysPageNum_from_usize_mod, (land_mask _ 44) by done.
  rewrite Z.mod_mod, Z.shiftr_div_pow2 by done. done.
Qed.

Lemma PageTableEntry_ppn_range pte : 0 <= PageTableEntry_ppn pte < 2 ^ 44.
Proof. rewrite PageTableEntry_ppn_eq. apply Z.mod_pos_bound. done. Qed.

Lemma PageTableEntry_is_cow_eq pte : PageTableEntry_is_cow pte = Z.testbit pte 8.
Proof.
  unfold PageTableEntry_is_cow, PTE_COW. rewrite Z.shiftl_1_l.
  destruct (Z.eqb_spec (Z.land pte (2 ^ 8)) 0) as [E|E]; cbn.
  - symmetry. apply (f_equal (fun z => Z.testbit z 8)) in E.
    rewrite Z.land_spec, Z.pow2_bits_true, andb_true_r, Z.bits_0 in E by done. done.
  - destruct (Z.testbit pte 8) eqn:B; [done|]. destruct E. apply Z.bits_inj'. intros i Hi.
    rewrite Z.land_spec, Z.bits_0, Z.pow2_bits_eqb by done.
    destruct (Z.eqb_spec 8 i); subst; [by rewrite B|apply andb_false_r].
Qed.

(** What [new] and [new_cow] store can be read back. *)
Lemma PageTableEntry_new_ppn ppn flags :
  0 <= ppn < 2 ^ 44 -> is_byte flags ->
  PageTableEntry_ppn (PageTableEntry_new ppn flags) = ppn /\
  PageTableEntry_ppn (PageTableEntry_new_cow ppn flags) = ppn.
Proof.
  intros. rewrite !PageTableEntry_ppn_eq, PageTableEntry_new_eq, PageTableEntry_new_cow_eq by done.
  unfold is_byte in *. split; zdiv_lia.
Qed.

Lemma PageTableEntry_new_flags ppn flags :
  0 <= ppn < 2 ^ 44 -> is_byte flags ->
  PageTableEntry_flags (PageTableEntry_new ppn flags) = flags /\
  PageTableEntry_flags (PageTableEntry_new_cow ppn flags) = flags.
Proof.
  intros. unfold PageTableEntry_flags.
  rewrite PageTableEntry_new_eq, PageTableEntry_new_cow_eq by done.
  unfold is_byte in *. split; zdiv_lia.
Qed.

Lemma PageTableEntry_new_is_cow ppn flags :
  0 <= ppn < 2 ^ 44 -> is_byte flags ->
  PageTableEntry_is_cow (PageTableEntry_new ppn flags) = false /\
  PageTableEntry_is_cow (PageTableEntry_new_cow ppn flags) = true.
Proof.
  intros. rewrite !PageTableEntry_is_cow_eq.
  rewrite PageTableEntry_new_eq, PageTableEntry_new_cow_eq by done. unfold is_byte in *.
  rewrite !Z.testbit_eqb by done. split; [apply Z.eqb_neq|apply Z.eqb_eq]; zdiv_lia.
Qed.

Lemma PageTableEntry_new_range ppn flags :
  0 <= ppn < 2 ^ 44 -> is_byte flags ->
  0 <= PageTableEntry_new ppn flags < 2 ^ 64 /\ 0 <= PageTableEntry_new_cow ppn flags < 2 ^ 64.
Proof.
  intros. rewrite PageTableEntry_new_eq, PageTableEntry_new_cow_eq by done.
  unfold is_byte in *. lia.
Qed.

Lemma flags_contains_bit f i : 0 <= i -> flags_contains f (Z.shiftl 1 i) = Z.testbit f i.
Proof.
  intros Hi. unfold flags_contains. rewrite Z.shiftl_1_l. apply eq_bool_prop_intro.
  rewrite !Is_true_true, Z.eqb_eq. split.
  - intros E. apply (f_equal (fun z => Z.testbit z i)) in E.
    rewrite Z.land_spec, Z.pow2_bits_true, andb_true_r in E by done. done.
  - intros B. apply Z.bits_inj'. intros j Hj. rewrite Z.land_spec, Z.pow2_bits_eqb by done.
    destruct (Z.eqb_spec i j); subst; [by rewrite B|by rewrite andb_false_r].
Qed.

Lemma flags_insert_byte f b : is_byte f -> is_byte b -> is_byte (flags_insert f b).
Proof.
  unfold is_byte, flags_insert. intros [Hf0 Hf] [Hb0 Hb].
  assert (0 <= Z.lor f b) by by apply Z.lor_nonneg. split; [done|].
  destruct (Z.eq_dec (Z.lor f b) 0) as [->|]; [done|].
  change 256 with (2 ^ 8). apply Z.log2_lt_pow2; [lia|].
  rewrite Z.log2_lor by done.
  pose proof (Z.log2_le_mono f 255 ltac:(lia)). pose proof (Z.log2_le_mono b 255 ltac:(lia)).
  change (Z.log2 255) with 7 in *. lia.
Qed.

Lemma flags_remove_byte f b : is_byte f -> is_byte (flags_remove f b).
Proof.
  unfold is_byte, flags_remove. intros [Hf0 Hf].
  assert (0 <= Z.ldiff f b) by (apply Z.ldiff_nonneg; auto). split; [done|].
  apply Z.le_lt_trans with f; [|done].
  pose proof (Z.add_lor_land (Z.ldiff f b) (Z.land f b)) as E.
  rewrite Z.lor_ldiff_and in E. assert (Z.land (Z.ldiff f b) (Z.land f b) = 0) as E0.
  { apply Z.bits_inj'. intros i Hi. rewrite !Z.land_spec, Z.ldiff_spec, Z.bits_0.
    by destruct (Z.testbit f i), (Z.testbit b i). }
  rewrite E0 in E. assert (0 <= Z.land f b) by (apply Z.land_nonneg; auto). lia.
Qed.

Lemma PageTableEntry_flags_byte pte : is_byte (PageTableEntry_flags pte).
Proof. apply Z.mod_pos_bound. done. Qed.

#[export] Hint Resolve flags_insert_byte flags_remove_byte PageTableEntry_flags_byte
  PageTableEntry_ppn_range : core.

(** ** Slots of tables *)

Lemma page_byte_write p off bs i :
  page_byte (page_write p off bs) i =
    if bool_decide (off <= i < off + Z.of_nat (length bs))
    then default 0 (bs !! Z.to_nat (i - off)) else page_byte p i.
Proof.
  revert p off. induction bs as [|b bs IH]; intros p off; cbn [page_write length].
  { rewrite bool_decide_eq_false_2 by lia. done. }
  rewrite IH. destruct (decide (i = off)) as [->|Hne].
  - rewrite bool_decide_eq_false_2, bool_decide_eq_true_2 by lia.
    rewrite Z.sub_diag. unfold page_byte. by rewrite lookup_insert_eq.
  - case_bool_decide as E1; case_bool_decide as E2; try lia.
    + replace (Z.to_nat (i - off)) with (S (Z.to_nat (i - (off + 1)))) by lia. done.
    + unfold page_byte. by rewrite lookup_insert_ne.
Qed.

Lemma page_read_write_eq p off bs :
  page_read (page_write p off bs) off (length bs) = bs.
Proof.
  apply list_eq. intros i. unfold page_read. rewrite list_lookup_fmap.
  destruct (decide (i < length bs)%nat) as [Hi|Hi].
  - rewrite lookup_seqZ_lt by lia. cbn. rewrite page_byte_write, bool_decide_eq_true_2 by lia.
    replace (Z.to_nat (off + Z.of_nat i - off)) with i by lia.
    destruct (lookup_lt_is_Some_2 bs i Hi) as [x ->]. done.
  - rewrite lookup_seqZ_ge by lia. cbn. symmetry. apply lookup_ge_None. lia.
Qed.

Lemma page_read_write_ne p off bs off' n :
  off' + Z.of_nat n <= off \/ off + Z.of_nat (length bs) <= off' ->
  page_read (page_write p off bs) off' n = page_read p off' n.
Proof.
  intros Hd. unfold page_read. apply map_ext_in. intros i Hi%list_elem_of_In%elem_of_seqZ.
  rewrite page_byte_write, bool_decide_eq_false_2 by lia. done.
Qed.

Lemma mem_page_set ppn p m q :
  mem_page (set_page ppn p m) q = if decide (ppn = q) then p else mem_page m q.
Proof. unfold mem_page, set_page. cbn. rewrite lookup_insert. by case_decide. Qed.

Lemma read_write_pte m p i v q j :
  0 <= v < 2 ^ 64 ->
  read_pte (write_pte p i v m) q j = if decide (p = q /\ i = j) then v else read_pte m q j.
Proof.
  intros Hv. unfold read_pte, write_pte. rewrite mem_page_set.
  destruct (decide (p = q)) as [->|]; [|rewrite decide_False by tauto; done].
  destruct (decide (i = j)) as [->|].
  - rewrite decide_True by done. pose proof (page_read_write_eq (mem_page m q) (8 * j) (le_bytes 8 v)) as E.
    rewrite length_le_bytes in E. rewrite E. by apply le_val_bytes_small.
  - rewrite decide_False by tauto. rewrite page_read_write_ne; [done|].
    rewrite length_le_bytes. lia.
Qed.

(** Reads of a table depend on its page only. *)
Lemma read_pte_page m m' p i : mem_page m p = mem_page m' p -> read_pte m p i = read_pte m' p i.
Proof. unfold read_pte. by intros ->. Qed.

Lemma read_pte_zero m p i : mem_page m p = page_zero -> read_pte m p i = 0.
Proof. unfold read_pte. by intros ->. Qed.

Lemma mem_page_write_pte m p i v q : p <> q -> mem_page (write_pte p i v m) q = mem_page m q.
Proof. intros. unfold write_pte. by rewrite mem_page_set, decide_False. Qed.

Lemma m_allocator_write_pte m p i v : m_allocator (write_pte p i v m) = m_allocator m.
Proof. done. Qed.

(** ** The tree of tables *)

(** [lab] labels every table frame with the indexes that lead to it from the
    root; a valid entry of an inner table points to the table one index
    further.  The labels make the tables a tree: two page numbers meet in a
    table only while their indexes agree. *)
Record pt_wf (m : Machine) (root : Z) (lab : gmap Z (list Z)) : Prop := {
  wf_root : lab !! root = Some [];
  wf_child p path i : lab !! p = Some path -> (length path < 2)%nat -> 0 <= i < 512 ->
    PageTableEntry_is_valid (read_pte m p i) = true ->
    lab !! PageTableEntry_ppn (read_pte m p i) = Some (path ++ [i])
}.

Definition idx_ok (i : Z) : Prop := 0 <= i < 512.

(** The entry a walk ends at, when it is valid. *)
Definition walk_entry (m : Machine) (i : nat) (idxs : list Z) (p : Z) : option PageTableEntry :=
  slot ← find_pte_loop m i idxs p;
  let e := read_pte m (fst slot) (snd slot) in
  if PageTableEntry_is_valid e then Some e else None.

(** The mapping a page table stands for: the valid leaf entry of a page. *)
Definition mapped (m : Machine) (pt : PageTable) (vpn : VirtPageNum) : option PageTableEntry :=
  walk_entry m 0 (VirtPageNum_indexes vpn) (pt_root_ppn pt).

Lemma mapped_translate m pt vpn :
  mapped m pt vpn = (e ← PageTable_translate m pt vpn;
                     if PageTableEntry_is_valid e then Some e else None).
Proof.
  unfold mapped, walk_entry, PageTable_translate, PageTable_find_pte.
  by destruct (find_pte_loop _ _ _ _).
Qed.

Lemma indexes_ok vpn : Forall idx_ok (VirtPageNum_indexes vpn) /\ length (VirtPageNum_indexes vpn) = 3%nat.
Proof.
  rewrite indexes_eq. split; [|done].
  repeat (constructor; [unfold idx_ok; apply Z.mod_pos_bound; lia|]). constructor.
Qed.

Section Walk.
Context (lab : gmap Z (list Z)).

(** A walk that reaches a slot has followed the labels. *)
Lemma walk_label m root idxs path p q i :
  pt_wf m root lab -> lab !! p = Some path ->
  (length path + length idxs = 3)%nat -> Forall idx_ok idxs ->
  find_pte_loop m (length path) idxs p = Some (q, i) ->
  exists lq, lab !! q = Some lq /\ path ++ idxs = lq ++ [i] /\ length lq = 2%nat.
Proof.
  intros Hwf. revert path p. induction idxs as [|idx rest IH]; intros path p Hp Hlen Hok; [done|].
  cbn [find_pte_loop]. destruct (Nat.eqb_spec (length path) 2) as [E|E].
  - intros [= -> ->]. exists path. cbn in Hlen. assert (rest = []) as -> by (destruct rest; [done|cbn in *; lia]).
    done.
  - cbn in Hlen. destruct (PageTableEntry_is_valid (read_pte m p idx)) eqn:Hv; [|done]. cbn [negb].
    apply Forall_cons in Hok as [Hidx Hok].
    pose proof (wf_child _ _ _ Hwf p path idx Hp ltac:(lia) Hidx Hv) as Hc.
    intros Hf. replace (S (length path)) with (length (path ++ [idx])) in Hf
      by (rewrite length_app; cbn; lia).
    destruct (IH (path ++ [idx]) _ Hc) as (lq & Hq & Epath & Hl2); auto.
    { rewrite length_app. cbn. lia. }
    exists lq. split; [done|]. split; [|done]. rewrite <- Epath, <- app_assoc. done.
Qed.

(** The walk depends on the entries of the inner tables only. *)
Lemma find_pte_loop_agree m m' root idxs path p :
  pt_wf m root lab -> lab !! p = Some path ->
  (length path + length idxs = 3)%nat -> Forall idx_ok idxs ->
  (forall q lq j, lab !! q = Some lq -> (length lq < 2)%nat -> idx_ok j ->
     read_pte m' q j = read_pte m q j) ->
  find_pte_loop m' (length path) idxs p = find_pte_loop m (length path) idxs p.
Proof.
  intros Hwf Hp Hlen Hok Hag. revert path p Hp Hlen.
  induction idxs as [|idx rest IH]; intros path p Hp Hlen; [done|].
  cbn [find_pte_loop]. destruct (Nat.eqb_spec (length path) 2); [done|]. cbn in Hlen.
  apply Forall_cons in Hok as [Hidx Hok]. rewrite (Hag p path idx) by (done || lia).
  destruct (PageTableEntry_is_valid (read_pte m p idx)) eqn:Hv; [|done]. cbn [negb].
  pose proof (wf_child _ _ _ Hwf p path idx Hp ltac:(lia) Hidx Hv) as Hc.
  replace (S (length path)) with (length (path ++ [idx])) by (rewrite length_app; cbn; lia).
  apply IH; auto. rewrite length_app. cbn. lia.
Qed.

End Walk.

Lemma find_pte_label m pt lab vpn p i :
  pt_wf m (pt_root_ppn pt) lab -> PageTable_find_pte m pt vpn = Some (p, i) ->
  exists lq, lab !! p = Some lq /\ VirtPageNum_indexes vpn = lq ++ [i] /\ length lq = 2%nat.
Proof.
  intros Hwf Hf. destruct (indexes_ok vpn) as [Hok Hlen].
  apply (walk_label lab m (pt_root_ppn pt) (VirtPageNum_indexes vpn) [] (pt_root_ppn pt));
    [done|apply Hwf|by rewrite Hlen|done|done].
Qed.

(** Writing a leaf slot changes the entry of exactly one page. *)
Lemma leaf_write m pt lab vpn p i v :
  pt_wf m (pt_root_ppn pt) lab -> 0 <= vpn < 2 ^ 27 ->
  PageTable_find_pte m pt vpn = Some (p, i) -> 0 <= v < 2 ^ 64 ->
  pt_wf (write_pte p i v m) (pt_root_ppn pt) lab /\
  forall vpn', 0 <= vpn' < 2 ^ 27 ->
    PageTable_find_pte (write_pte p i v m) pt vpn' = PageTable_find_pte m pt vpn' /\
    PageTable_translate (write_pte p i v m) pt vpn' =
      if decide (vpn' = vpn) then Some v else PageTable_translate m pt vpn'.
Proof.
  intros Hwf Hvpn Hf Hv. destruct (find_pte_label _ _ _ _ _ _ Hwf Hf) as (lq & Hp & Eidx & Hl2).
  assert (forall q lq' j, lab !! q = Some lq' -> (length lq' < 2)%nat -> idx_ok j ->
    read_pte (write_pte p i v m) q j = read_pte m q j) as Hag.
  { intros q lq' j Hq Hl _. rewrite read_write_pte by done. rewrite decide_False; [done|].
    intros [-> _]. rewrite Hp in Hq. injection Hq as <-. lia. }
  split.
  - split; [apply Hwf|]. intros q path j Hq Hl Hj. rewrite (Hag q path) by done. by apply Hwf.
  - intros vpn' Hvpn'. destruct (indexes_ok vpn') as [Hok Hlen].
    assert (PageTable_find_pte (write_pte p i v m) pt vpn' = PageTable_find_pte m pt vpn') as E.
    { apply (find_pte_loop_agree lab m _ (pt_root_ppn pt) (VirtPageNum_indexes vpn') []);
        [done|apply Hwf|by rewrite Hlen|done|done]. }
    split; [done|]. unfold PageTable_translate. rewrite E.
    destruct (PageTable_find_pte m pt vpn') as [[q j]|] eqn:Hf'; cbn.
    2:{ rewrite decide_False; [done|]. intros ->. congruence. }
    destruct (find_pte_label _ _ _ _ _ _ Hwf Hf') as (lq' & Hq & Eidx' & Hl2').
    rewrite read_write_pte by done. case_decide as D1; case_decide as D2; try done.
    + destruct D1 as [-> ->]. destruct D2. apply indexes_inj; [done|done|]. congruence.
    + subst vpn'. destruct D1. rewrite Hf in Hf'. by injection Hf'.
Qed.

(** ** Growing the tree *)

Lemma PTE_V_byte : is_byte PTE_V.
Proof. done. Qed.
#[export] Hint Resolve PTE_V_byte : core.

Lemma new_V_valid ppn : 0 <= ppn < 2 ^ 44 ->
  PageTableEntry_is_valid (PageTableEntry_new ppn PTE_V) = true.
Proof.
  intros. unfold PageTableEntry_is_valid.
  by rewrite (proj1 (PageTableEntry_new_flags ppn PTE_V ltac:(done) ltac:(done))).
Qed.

(** Linking a fresh, cleared table into an empty slot of an inner table. *)
Section Link.
Context (m m1 : Machine) (root : Z) (lab : gmap Z (list Z)) (p : Z) (path : list Z) (i n : Z).
Context (Hwf : pt_wf m root lab) (Hp : lab !! p = Some path) (Hlen : (length path < 2)%nat)
  (Hi : idx_ok i) (Hinv : PageTableEntry_is_valid (read_pte m p i) = false)
  (Hn : lab !! n = None) (Hnr : 0 <= n < 2 ^ 44)
  (Hzero : mem_page m1 n = page_zero)
  (Hsame : forall q, q <> n -> mem_page m1 q = mem_page m q).

Definition linked : Machine := write_pte p i (PageTableEntry_new n PTE_V) m1.

Lemma link_read q j :
  q <> n -> read_pte linked q j =
    if decide (p = q /\ i = j) then PageTableEntry_new n PTE_V else read_pte m q j.
Proof.
  intros Hq. unfold linked. rewrite read_write_pte by (apply PageTableEntry_new_range; done).
  case_decide; [done|]. apply read_pte_page. by apply Hsame.
Qed.

Lemma link_read_new j : read_pte linked n j = 0.
Proof.
  unfold linked. rewrite read_write_pte by (apply PageTableEntry_new_range; done).
  rewrite decide_False; [by apply read_pte_zero|]. intros [-> _]. congruence.
Qed.

Lemma link_wf : pt_wf linked root (<[n := path ++ [i]]> lab).
Proof using All.
  split.
  - rewrite lookup_insert_ne; [apply Hwf|]. intros ->. pose proof (wf_root _ _ _ Hwf). congruence.
  - intros q lq j Hq Hl Hj. destruct (decide (q = n)) as [->|Hqn].
    { rewrite link_read_new. done. }
    rewrite lookup_insert_ne in Hq by done. rewrite link_read by done. case_decide as D.
    + destruct D as [<- <-]. rewrite (proj1 (PageTableEntry_new_ppn n PTE_V Hnr ltac:(done))).
      rewrite lookup_insert_eq. congruence.
    + intros Hv. pose proof (wf_child _ _ _ Hwf q lq j Hq Hl Hj Hv) as Hc.
      rewrite lookup_insert_ne; [done|]. congruence.
Qed.

Lemma link_walk idxs q lq :
  lab !! q = Some lq -> (length lq + length idxs = 3)%nat -> Forall idx_ok idxs ->
  walk_entry linked (length lq) idxs q = walk_entry m (length lq) idxs q.
Proof using All.
  revert q lq. induction idxs as [|idx rest IH]; intros q lq Hq Hl Hok; [done|].
  assert (q <> n) as Hqn by congruence. apply Forall_cons in Hok as [Hidx Hok].
  unfold walk_entry. cbn [find_pte_loop]. destruct (Nat.eqb_spec (length lq) 2) as [E|E].
  - cbn. rewrite link_read by done. rewrite decide_False; [done|]. intros [<- _].
    assert (lq = path) by congruence. subst lq. lia.
  - rewrite link_read by done. cbn in Hl. case_decide as D.
    + destruct D as [<- <-]. rewrite Hinv, new_V_valid by done. cbn [negb].
      rewrite (proj1 (PageTableEntry_new_ppn n PTE_V Hnr ltac:(done))). cbn [mbind option_bind].
      destruct rest as [|idx' rest]; [done|]. cbn [find_pte_loop].
      destruct (Nat.eqb_spec (S (length lq)) 2); cbn; rewrite link_read_new; done.
    + destruct (PageTableEntry_is_valid (read_pte m q idx)) eqn:Hv; [|done]. cbn [negb].
      pose proof (wf_child _ _ _ Hwf q lq idx Hq ltac:(lia) Hidx Hv) as Hc.
      specialize (IH _ _ Hc). rewrite length_app in IH. cbn in IH.
      replace (length lq + 1)%nat with (S (length lq)) in IH by lia. apply IH; auto. lia.
Qed.

End Link.

(** A page table of the running kernel: each of its table frames has exactly
    one live tracker, and they are the labelled frames. *)
Record pt_inv (base : Z) (m : Machine) (ts : list FrameTracker) (pt : PageTable)
  (lab : gmap Z (list Z)) : Prop := {
  pi_tracked : tracked base m ts;
  pi_wf : pt_wf m (pt_root_ppn pt) lab;
  pi_owned t : t ∈ pt_frames pt -> owners (ft_ppn t) ts = 1;
  pi_dom p : is_Some (lab !! p) <-> p ∈ ft_ppn <$> pt_frames pt
}.

Lemma owners_in t ts : 0 < owners (ft_ppn t) ts -> t ∈ ts.
Proof.
  induction ts as [|t' ts IH]; [done|]. rewrite owners_cons. case_decide as E.
  - destruct t, t'. cbn in E. subst. left.
  - right. apply IH. lia.
Qed.

(** What growing the tree leaves alone. *)
Record pt_grow (m : Machine) (pt : PageTable) (lab : gmap Z (list Z))
  (m' : Machine) (pt' : PageTable) (lab' : gmap Z (list Z)) (new : list FrameTracker) : Prop := {
  gr_root : pt_root_ppn pt' = pt_root_ppn pt;
  gr_frames : pt_frames pt' = pt_frames pt ++ new;
  gr_lab : lab ⊆ lab';
  gr_keep q j : is_Some (lab !! q) -> PageTableEntry_is_valid (read_pte m q j) = true ->
    read_pte m' q j = read_pte m q j;
  gr_mapped vpn : mapped m' pt' vpn = mapped m pt vpn;
  gr_mem q : q ∉ ft_ppn <$> pt_frames pt' -> mem_page m' q = mem_page m q;
  gr_free : frames_free (m_allocator m') = frames_free (m_allocator m) - Z.of_nat (length new)
}.

Lemma pt_grow_refl m pt lab : pt_grow m pt lab m pt lab [].
Proof. split; auto; [by rewrite app_nil_r|cbn; lia]. Qed.

Lemma pt_grow_trans m1 pt1 lab1 m2 pt2 lab2 m3 pt3 lab3 n1 n2 :
  pt_grow m1 pt1 lab1 m2 pt2 lab2 n1 -> pt_grow m2 pt2 lab2 m3 pt3 lab3 n2 ->
  pt_grow m1 pt1 lab1 m3 pt3 lab3 (n1 ++ n2).
Proof.
  intros [a1 b1 c1 d1 e1 f1 g1] [a2 b2 c2 d2 e2 f2 g2]. split.
  - congruence.
  - by rewrite b2, b1, app_assoc.
  - by trans lab2.
  - intros q j Hq Hv. rewrite d2, d1; auto; [eapply lookup_weaken_is_Some; eauto|].
    rewrite d1; auto.
  - intros vpn. by rewrite e2, e1.
  - intros q Hq. rewrite f2 by done. apply f1. intros H. apply Hq. rewrite b2, fmap_app.
    apply elem_of_app. by left.
  - rewrite length_app. lia.
Qed.

Lemma tracked_perm base m ts ts' : ts ≡ₚ ts' -> tracked base m ts -> tracked base m ts'.
Proof. intros Hp [Hi Hc]. split; [done|]. intros p. by rewrite Hc, (owners_perm _ _ _ Hp). Qed.

Lemma owners_zero_not_in t ts p : owners p ts = 0 -> t ∈ ts -> ft_ppn t <> p.
Proof. intros H0 Ht E. pose proof (owners_pos _ _ _ Ht E). lia. Qed.

(** One step of [find_pte_create]: a missing table is allocated, cleared and
    linked. *)
Lemma wp_link_table base m ts pt lab p path i :
  pt_inv base m ts pt lab -> lab !! p = Some path -> (length path < 2)%nat -> idx_ok i ->
  PageTableEntry_is_valid (read_pte m p i) = false ->
  0 < frames_free (m_allocator m) ->
  wp (o ← frame_alloc;
      frame ← unwrap o;
      modify (write_pte p i (PageTableEntry_new (ft_ppn frame) PTE_V));;
      mret (mkPageTable (pt_root_ppn pt) (pt_frames pt ++ [frame])))
    (fun pt' m' => exists frame lab',
       pt_inv base m' (frame :: ts) pt' lab' /\ pt_grow m pt lab m' pt' lab' [frame] /\
       PageTableEntry_is_valid (read_pte m' p i) = true /\
       lab' !! PageTableEntry_ppn (read_pte m' p i) = Some (path ++ [i])) m.
Proof.
  intros [Ht Hwf Hown Hdom] Hp Hlen Hi Hv Hfree. wp_simpl.
  eapply wp_mono; [by apply (wp_frame_alloc base)|]. cbn beta iota. intros [t|] m1; [|intros [-> ?]; lia].
  intros (Ht1 & H0 & Hr & Hfr & Hm). wp_simpl. exists t. split; [done|]. wp_simpl.
  pose proof (fa_bounds _ _ (tracked_inv _ _ _ Ht)) as Hb.
  set (n := ft_ppn t) in *.
  assert (lab !! n = None) as Hn.
  { destruct (lab !! n) eqn:E; [|done]. assert (n ∈ ft_ppn <$> pt_frames pt) as Hin
      by (apply Hdom; eauto). apply list_elem_of_fmap in Hin as (t' & En & Ht').
    pose proof (Hown _ Ht'). rewrite <- En in *. lia. }
  assert (0 <= n < 2 ^ 44) as Hnr by lia.
  assert (forall q, mem_page m1 q = if decide (n = q) then page_zero else mem_page m q) as Hmem.
  { intros q. unfold mem_page. rewrite Hm, lookup_insert. by case_decide. }
  assert (mem_page m1 n = page_zero) as Hz by (rewrite Hmem; by case_decide).
  assert (forall q, q <> n -> mem_page m1 q = mem_page m q) as Hsame.
  { intros q Hq. rewrite Hmem. case_decide; congruence. }
  pose proof (link_wf m m1 _ lab p path i n Hwf Hp Hlen Hi Hv Hn Hnr Hz Hsame) as Hwf'.
  assert (p <> n) as Hpn by congruence.
  pose proof (link_read m m1 p i n Hnr Hsame) as Hread.
  assert (read_pte (linked m1 p i n) p i = PageTableEntry_new n PTE_V) as Epi.
  { rewrite Hread by done. rewrite decide_True; done. }
  exists t, (<[n := path ++ [i]]> lab). fold (linked m1 p i n). split_and!.
  - split; cbn; [by apply tracked_set_page|done| |].
    + intros t' [Ht'| ->%list_elem_of_singleton]%elem_of_app; rewrite owners_cons.
      * pose proof (Hown _ Ht'). rewrite decide_False; [lia|]. intros E. fold n in E. rewrite <- E in *. fold n. lia.
      * rewrite decide_True by done. fold n. lia.
    + intros q. rewrite lookup_insert, fmap_app, elem_of_app, <- Hdom. cbn.
      rewrite list_elem_of_singleton. fold n. case_decide; subst; [|naive_solver].
      split; eauto.
  - split; cbn; try done.
    + by apply insert_subseteq.
    + intros q j [lq Hq] Hvq. rewrite Hread by congruence. case_decide as D; [|done].
      destruct D as [-> ->]. congruence.
    + intros vpn. destruct (indexes_ok vpn) as [Hok Hl].
      apply (link_walk m m1 (pt_root_ppn pt) lab p path i n Hwf Hp Hlen Hi Hv Hn Hnr Hz Hsame
               (VirtPageNum_indexes vpn) _ []); [apply Hwf|by rewrite Hl|done].
    + intros q Hq. unfold linked. rewrite mem_page_write_pte.
      * apply Hsame. intros ->. apply Hq. rewrite fmap_app, elem_of_app. right. left.
      * intros ->. apply Hq. rewrite fmap_app, elem_of_app. left. apply Hdom. eauto.
  - rewrite Epi. by apply new_V_valid.
  - rewrite Epi, (proj1 (PageTableEntry_new_ppn n PTE_V Hnr ltac:(done))). apply lookup_insert_eq.
Qed.

Lemma wp_find_pte_create_loop base idxs : forall m ts pt lab path p,
  pt_inv base m ts pt lab -> lab !! p = Some path ->
  (length path <= 2)%nat -> (length path + length idxs = 3)%nat -> Forall idx_ok idxs ->
  2 - Z.of_nat (length path) <= frames_free (m_allocator m) ->
  wp (find_pte_create_loop (length path) idxs p pt)
    (fun r m' => exists slot pt' lab' new,
       r = (Some slot, pt') /\ pt_inv base m' (new ++ ts) pt' lab' /\
       pt_grow m pt lab m' pt' lab' new /\
       Z.of_nat (length new) <= 2 - Z.of_nat (length path) /\
       find_pte_loop m' (length path) idxs p = Some slot) m.
Proof.
  induction idxs as [|idx rest IH]; intros m ts pt lab path p Hpt Hp Hle Hlen Hok Hfree.
  { cbn in Hlen. lia. }
  cbn [find_pte_create_loop find_pte_loop]. apply Forall_cons in Hok as [Hidx Hok].
  destruct (Nat.eqb_spec (length path) 2) as [E|E].
  { wp_simpl. exists (p, idx), pt, lab, []. split_and!; try done; [apply pt_grow_refl|cbn; lia]. }
  cbn in Hlen. wp_simpl. assert (length path < 2)%nat as Hl2 by lia.
  (* the table of the next level *)
  assert (wp (if negb (PageTableEntry_is_valid (read_pte m p idx)) then
      o ← frame_alloc; frame ← unwrap o;
      modify (write_pte p idx (PageTableEntry_new (ft_ppn frame) PTE_V));;
      mret (mkPageTable (pt_root_ppn pt) (pt_frames pt ++ [frame]))
    else mret pt)
    (fun pt1 m1 => exists new lab1, pt_inv base m1 (new ++ ts) pt1 lab1 /\
       pt_grow m pt lab m1 pt1 lab1 new /\ (length new <= 1)%nat /\
       PageTableEntry_is_valid (read_pte m1 p idx) = true /\
       lab1 !! PageTableEntry_ppn (read_pte m1 p idx) = Some (path ++ [idx])) m) as Hstep.
  { destruct (PageTableEntry_is_valid (read_pte m p idx)) eqn:Hv; cbn [negb].
    - wp_simpl. exists [], lab. split_and!; try done; [apply pt_grow_refl|cbn; lia|].
      eapply wf_child; eauto. apply Hpt.
    - eapply wp_mono; [eapply wp_link_table; eauto; lia|].
      intros pt1 m1 (t & lab1 & H1 & H2 & H3 & H4). exists [t], lab1. split_and!; auto. }
  eapply wp_mono; [exact Hstep|].
  cbn beta. intros pt1 m1 (new & lab1 & Hpt1 & Hg & Hnew & Hv1 & Hc1). wp_simpl.
  pose proof (gr_free _ _ _ _ _ _ _ Hg) as Hfr1.
  replace (S (length path)) with (length (path ++ [idx])) by (rewrite length_app; cbn; lia).
  eapply wp_mono; [apply (IH m1 (new ++ ts) pt1 lab1); auto|].
  { rewrite length_app. cbn. lia. }
  { rewrite length_app. cbn. lia. }
  { rewrite length_app. cbn. lia. }
  intros r m2 (slot & pt2 & lab2 & new2 & -> & Hpt2 & Hg2 & Hn2 & Hf2).
  rewrite length_app in Hn2. cbn in Hn2.
  exists slot, pt2, lab2, (new ++ new2). split_and!; [done| |by eapply pt_grow_trans| |].
  - destruct Hpt2 as [Ht2 Hw2 Ho2 Hd2]. split; [|done| |done].
    + eapply tracked_perm; [|done]. rewrite app_assoc. apply Permutation_app_tail, Permutation_app_comm.
    + intros t Ht. specialize (Ho2 t Ht). rewrite <- Ho2. apply owners_perm.
      rewrite (app_assoc new2). apply Permutation_app_tail, Permutation_app_comm.
  - rewrite length_app. lia.
  - pose proof (gr_lab _ _ _ _ _ _ _ Hg) as Hsub. rewrite (gr_keep _ _ _ _ _ _ _ Hg2).
    + rewrite Hv1. cbn [negb]. exact Hf2.
    + eapply lookup_weaken_is_Some; eauto.
    + done.
Qed.

Lemma wp_find_pte_create base m ts pt lab vpn :
  pt_inv base m ts pt lab -> 2 <= frames_free (m_allocator m) ->
  wp (PageTable_find_pte_create pt vpn)
    (fun r m' => exists slot pt' lab' new,
       r = (Some slot, pt') /\ pt_inv base m' (new ++ ts) pt' lab' /\
       pt_grow m pt lab m' pt' lab' new /\ Z.of_nat (length new) <= 2 /\
       PageTable_find_pte m' pt' vpn = Some slot) m.
Proof.
  intros Hpt Hfree. destruct (indexes_ok vpn) as [Hok Hlen].
  pose proof (wf_root _ _ _ (pi_wf _ _ _ _ _ Hpt)) as Hr.
  eapply wp_mono; [apply (wp_find_pte_create_loop base _ m ts pt lab [] (pt_root_ppn pt)); auto|].
  intros r m' (slot & pt' & lab' & new & -> & H1 & H2 & H3 & H4).
  exists slot, pt', lab', new. split_and!; auto.
  unfold PageTable_find_pte. by rewrite (gr_root _ _ _ _ _ _ _ H2).
Qed.

(** ** The operations on the mapping *)

(** The mapping after an entry is stored for one page. *)
Definition map_update (f : VirtPageNum -> option PageTableEntry) (vpn : VirtPageNum)
  (o : option PageTableEntry) : VirtPageNum -> option PageTableEntry :=
  fun vpn' => if decide (vpn' = vpn) then o else f vpn'.

Definition mapping_eq (f g : VirtPageNum -> option PageTableEntry) : Prop :=
  forall vpn, 0 <= vpn < 2 ^ 27 -> f vpn = g vpn.

#[export] Instance mapping_eq_equiv : Equivalence mapping_eq.
Proof.
  split.
  - intros f vpn _. done.
  - intros f g H vpn Hv. symmetry. by apply H.
  - intros f g h H1 H2 vpn Hv. rewrite H1; auto.
Qed.

#[export] Instance map_update_proper vpn o : Proper (mapping_eq ==> mapping_eq) (fun f => map_update f vpn o).
Proof. intros f g H vpn' Hv. unfold map_update. case_decide; auto. Qed.

Definition entry_of (e : PageTableEntry) : option PageTableEntry :=
  if PageTableEntry_is_valid e then Some e else None.

(** Storing an entry in the slot of a page. *)
Lemma store_entry base m ts pt lab vpn p i v :
  pt_inv base m ts pt lab -> 0 <= vpn < 2 ^ 27 ->
  PageTable_find_pte m pt vpn = Some (p, i) -> 0 <= v < 2 ^ 64 ->
  pt_inv base (write_pte p i v m) ts pt lab /\
  mapping_eq (mapped (write_pte p i v m) pt) (map_update (mapped m pt) vpn (entry_of v)) /\
  (forall q, q ∉ ft_ppn <$> pt_frames pt -> mem_page (write_pte p i v m) q = mem_page m q).
Proof.
  intros [Ht Hwf Hown Hdom] Hvpn Hf Hv.
  destruct (leaf_write _ _ _ _ _ _ _ Hwf Hvpn Hf Hv) as [Hwf' Htr].
  destruct (find_pte_label _ _ _ _ _ _ Hwf Hf) as (lq & Hp & _ & _). split_and!.
  - split; auto. by apply tracked_set_page.
  - intros vpn' Hvpn'. rewrite !mapped_translate. unfold map_update.
    rewrite (proj2 (Htr vpn' Hvpn')). case_decide; [done|by rewrite mapped_translate].
  - intros q Hq. apply mem_page_write_pte. intros ->. apply Hq, Hdom. eauto.
Qed.

(** Changing the leaf entry of a mapped page, the common part of [mark_cow],
    [resolve_cow] and [unmap]. *)
Lemma mapped_Some m pt vpn e :
  mapped m pt vpn = Some e <->
  exists slot, PageTable_find_pte m pt vpn = Some slot /\
    read_pte m (fst slot) (snd slot) = e /\ PageTableEntry_is_valid e = true.
Proof.
  rewrite mapped_translate. unfold PageTable_translate.
  destruct (PageTable_find_pte m pt vpn) as [[p i]|]; cbn.
  - split.
    + destruct (PageTableEntry_is_valid (read_pte m p i)) eqn:Hv; [|done].
      intros [= <-]. by exists (p, i).
    + intros (slot & [= <-] & <- & Hv). cbn in *. by rewrite Hv.
  - split; [done|]. by intros (? & ? & _).
Qed.

(** The effect every entry-storing operation has on a page table in the
    kernel: frames of the memory other than its tables keep their contents,
    and the mapping changes at one page. *)
Record pt_effect (base : Z) (m : Machine) (ts : list FrameTracker) (pt : PageTable)
  (vpn : VirtPageNum) (o : option PageTableEntry)
  (m' : Machine) (pt' : PageTable) (new : list FrameTracker) : Prop := {
  pe_inv : exists lab', pt_inv base m' (new ++ ts) pt' lab';
  pe_root : pt_root_ppn pt' = pt_root_ppn pt;
  pe_frames : pt_frames pt' = pt_frames pt ++ new;
  pe_mapping : mapping_eq (mapped m' pt') (map_update (mapped m pt) vpn o);
  pe_mem q : q ∉ ft_ppn <$> pt_frames pt' -> mem_page m' q = mem_page m q;
  pe_free : frames_free (m_allocator m') = frames_free (m_allocator m) - Z.of_nat (length new);
  pe_new : Z.of_nat (length new) <= 2
}.

Lemma entry_of_valid ppn flags :
  0 <= ppn < 2 ^ 44 -> is_byte flags -> Z.testbit flags 0 = true ->
  entry_of (PageTableEntry_new ppn flags) = Some (PageTableEntry_new ppn flags) /\
  entry_of (PageTableEntry_new_cow ppn flags) = Some (PageTableEntry_new_cow ppn flags).
Proof.
  intros Hp Hf Hb. unfold entry_of, PageTableEntry_is_valid.
  destruct (PageTableEntry_new_flags ppn flags Hp Hf) as [-> ->].
  unfold PTE_V. rewrite flags_contains_bit by done. by rewrite Hb.
Qed.

Lemma testbit_insert_V f : Z.testbit (flags_insert f PTE_V) 0 = true.
Proof. unfold flags_insert, PTE_V. rewrite Z.lor_spec. by rewrite orb_true_r. Qed.

(** The body shared by [map] and [map_cow]. *)
Lemma wp_map_with base m ts pt lab vpn v :
  pt_inv base m ts pt lab -> 0 <= vpn < 2 ^ 27 -> 2 <= frames_free (m_allocator m) ->
  mapped m pt vpn = None -> 0 <= v < 2 ^ 64 ->
  wp (r ← PageTable_find_pte_create pt vpn;
      slot ← unwrap (fst r);
      pte ← gets (fun m => read_pte m (fst slot) (snd slot));
      massert (negb (PageTableEntry_is_valid pte));;
      modify (write_pte (fst slot) (snd slot) v);;
      mret (snd r))
    (fun pt' m' => exists new, pt_effect base m ts pt vpn (entry_of v) m' pt' new) m.
Proof.
  intros Hpt Hvpn Hfree Hnone Hv. wp_simpl.
  eapply wp_mono; [by eapply wp_find_pte_create|].
  intros r m1 ([p i] & pt1 & lab1 & new & -> & Hpt1 & Hg & Hnew & Hf). wp_simpl.
  eexists. split; [done|]. wp_simpl. cbn.
  pose proof (gr_mapped _ _ _ _ _ _ _ Hg vpn) as Hm1. rewrite Hnone in Hm1.
  assert (PageTableEntry_is_valid (read_pte m1 p i) = false) as Hinv.
  { destruct (PageTableEntry_is_valid (read_pte m1 p i)) eqn:E; [|done].
    assert (mapped m1 pt1 vpn = Some (read_pte m1 p i)) by (apply mapped_Some; eauto). congruence. }
  split; [by rewrite Hinv|]. wp_simpl.
  destruct (store_entry _ _ _ _ _ _ _ _ _ Hpt1 Hvpn Hf Hv) as (Hpt' & Hmap & Hmem).
  exists new. split; try apply Hg; eauto.
  - etrans; [exact Hmap|]. apply (map_update_proper vpn (entry_of v)).
    intros vpn' _. apply (gr_mapped _ _ _ _ _ _ _ Hg).
  - intros q Hq. rewrite Hmem by done. by apply (gr_mem _ _ _ _ _ _ _ Hg).
Qed.

Section Operations.
Context (base : Z) (m : Machine) (ts : list FrameTracker) (pt : PageTable)
  (lab : gmap Z (list Z)) (vpn : VirtPageNum).
Context (Hpt : pt_inv base m ts pt lab) (Hvpn : 0 <= vpn < 2 ^ 27).

Lemma wp_map ppn flags :
  2 <= frames_free (m_allocator m) -> mapped m pt vpn = None ->
  0 <= ppn < 2 ^ 44 -> is_byte flags ->
  wp (PageTable_map pt vpn ppn flags)
    (fun pt' m' => exists new, pt_effect base m ts pt vpn
       (Some (PageTableEntry_new ppn (flags_insert flags PTE_V))) m' pt' new) m.
Proof using Hpt Hvpn.
  intros Hfree Hn Hppn Hfl.
  assert (is_byte (flags_insert flags PTE_V)) as Hb by auto.
  rewrite <- (proj1 (entry_of_valid _ _ Hppn Hb (testbit_insert_V flags))).
  apply (wp_map_with base m ts pt lab); auto. by apply PageTableEntry_new_range.
Qed.

Lemma wp_map_cow ppn flags :
  2 <= frames_free (m_allocator m) -> mapped m pt vpn = None ->
  0 <= ppn < 2 ^ 44 -> is_byte flags ->
  wp (PageTable_map_cow pt vpn ppn flags)
    (fun pt' m' => exists new, pt_effect base m ts pt vpn
       (Some (PageTableEntry_new_cow ppn (flags_insert (flags_remove flags PTE_W) PTE_V)))
       m' pt' new) m.
Proof using Hpt Hvpn.
  intros Hfree Hn Hppn Hfl.
  assert (is_byte (flags_insert (flags_remove flags PTE_W) PTE_V)) as Hb by auto.
  rewrite <- (proj2 (entry_of_valid _ _ Hppn Hb (testbit_insert_V _))).
  apply (wp_map_with base m ts pt lab); auto. by apply PageTableEntry_new_range.
Qed.

Lemma pt_effect_store p i v o :
  PageTable_find_pte m pt vpn = Some (p, i) -> 0 <= v < 2 ^ 64 -> entry_of v = o ->
  pt_effect base m ts pt vpn o (write_pte p i v m) pt [].
Proof using Hpt Hvpn.
  intros Hf Hv <-. destruct (store_entry _ _ _ _ _ _ _ _ _ Hpt Hvpn Hf Hv) as (Hpt' & Hmap & Hmem).
  split; eauto; cbn; [by rewrite app_nil_r|lia|lia].
Qed.

Lemma wp_unmap e :
  mapped m pt vpn = Some e ->
  wp (PageTable_unmap pt vpn) (fun _ m' => pt_effect base m ts pt vpn None m' pt []) m.
Proof using Hpt Hvpn.
  intros ([p i] & Hf & He & Hval)%mapped_Some. unfold PageTable_unmap. wp_simpl.
  exists (p, i). split; [done|]. wp_simpl. rewrite He. split; [done|].
  by apply pt_effect_store.
Qed.

Lemma wp_resolve_cow e new_ppn :
  mapped m pt vpn = Some e -> PageTableEntry_is_cow e = true -> 0 <= new_ppn < 2 ^ 44 ->
  wp (PageTable_resolve_cow pt vpn new_ppn)
    (fun _ m' => pt_effect base m ts pt vpn
       (Some (PageTableEntry_new new_ppn
                (flags_insert (flags_insert (PageTableEntry_flags e) PTE_W) PTE_V)))
       m' pt []) m.
Proof using Hpt Hvpn.
  intros ([p i] & Hf & He & Hval)%mapped_Some Hcow Hp. unfold PageTable_resolve_cow. wp_simpl.
  exists (p, i). split; [done|]. wp_simpl. rewrite He. split; [done|]. split; [done|].
  assert (is_byte (flags_insert (flags_insert (PageTableEntry_flags e) PTE_W) PTE_V)) as Hb by auto.
  apply pt_effect_store; [done|by apply PageTableEntry_new_range|].
  apply entry_of_valid; auto. apply testbit_insert_V.
Qed.

(** What [mark_cow] leaves in the entry of a writable or shared page. *)
Definition cow_entry (e : PageTableEntry) : PageTableEntry :=
  if PageTableEntry_is_cow e then e
  else PageTableEntry_new_cow (PageTableEntry_ppn e) (flags_remove (PageTableEntry_flags e) PTE_W).

Lemma testbit_0_remove_W f : Z.testbit (flags_remove f PTE_W) 0 = Z.testbit f 0.
Proof. unfold flags_remove, PTE_W. rewrite Z.ldiff_spec. apply andb_true_r. Qed.

Lemma wp_mark_cow e :
  mapped m pt vpn = Some e ->
  PageTableEntry_writable e = negb (PageTableEntry_is_cow e) ->
  wp (PageTable_mark_cow pt vpn)
    (fun _ m' => pt_effect base m ts pt vpn (Some (cow_entry e)) m' pt []) m.
Proof using Hpt Hvpn.
  intros Hm Hw. pose proof Hm as ([p i] & Hf & He & Hval)%mapped_Some.
  unfold PageTable_mark_cow. wp_simpl.
  exists (p, i). split; [done|]. wp_simpl. rewrite He. split; [done|].
  unfold PageTableEntry_writable in Hw. unfold cow_entry. rewrite Hw.
  destruct (PageTableEntry_is_cow e); cbn; wp_simpl.
  - split; eauto; cbn; [by rewrite app_nil_r| |lia|lia].
    intros vpn' _. unfold map_update. case_decide; [congruence|done].
  - apply pt_effect_store; [done|apply PageTableEntry_new_range; auto|].
    apply entry_of_valid; auto. rewrite testbit_0_remove_W.
    unfold PageTableEntry_is_valid, PTE_V in Hval. by rewrite flags_contains_bit in Hval.
Qed.

End Operations.

(** A fresh page table maps nothing. *)
Lemma wp_PageTable_new base m ts :
  tracked base m ts -> 0 < frames_free (m_allocator m) ->
  wp PageTable_new (fun pt m' => exists t lab,
    pt_inv base m' (t :: ts) pt lab /\ pt_frames pt = [t] /\
    owners (ft_ppn t) ts = 0 /\
    frames_free (m_allocator m') = frames_free (m_allocator m) - 1 /\
    (forall q, q <> ft_ppn t -> mem_page m' q = mem_page m q) /\
    forall vpn, mapped m' pt vpn = None) m.
Proof.
  intros Ht Hfree. unfold PageTable_new. wp_simpl.
  eapply wp_mono; [by apply (wp_frame_alloc base)|]. cbn beta iota. intros [t|] m1; [|intros [-> ?]; lia].
  intros (Ht1 & H0 & Hr & Hfr & Hm). wp_simpl. exists t. split; [done|]. wp_simpl.
  assert (mem_page m1 (ft_ppn t) = page_zero) as Hz.
  { unfold mem_page. by rewrite Hm, lookup_insert_eq. }
  exists t, {[ft_ppn t := []]}. split_and!; try done.
  - split; [done| | |].
    + split; cbn; [apply lookup_singleton_eq|]. intros p path i Hp _ _.
      apply lookup_singleton_Some in Hp as [<- _]. by rewrite (read_pte_zero _ _ _ Hz).
    + cbn. intros t' ->%list_elem_of_singleton. rewrite owners_cons, decide_True by done. lia.
    + intros p. cbn. rewrite list_elem_of_singleton, lookup_singleton. case_decide; subst.
      * split; eauto.
      * split; [by intros [? ?]|done].
  - intros q Hq. unfold mem_page. by rewrite Hm, lookup_insert_ne.
  - intros vpn. unfold mapped. rewrite indexes_eq. unfold walk_entry. cbn.
    by rewrite (read_pte_zero _ _ _ Hz).
Qed.

(** ** User buffers: the bytes they stand for *)

(** The physical bytes of a slice, as frame and offset. *)
Definition slice_addrs (sl : Slice) : list (Z * Z) :=
  map (fun k => (sl_ppn sl, sl_off sl + k)) (seqZ 0 (sl_len sl)).
Definition buffers_addrs (bs : list Slice) : list (Z * Z) := concat (map slice_addrs bs).

Definition slice_ok (sl : Slice) : Prop := 0 <= sl_off sl /\ 0 < sl_len sl /\ sl_off sl + sl_len sl <= 4096.

(** The frame and the offset a user address is backed by. *)
Definition user_addr (m : Machine) (pt : PageTable) (a : Z) : Z * Z :=
  (default 0 (PageTableEntry_ppn <$> PageTable_translate m pt (a / PAGE_SIZE)), a mod PAGE_SIZE).

Lemma seqZ_map_shift {A} (f : Z -> A) l n d :
  map f (seqZ (l + d) n) = map (fun k => f (k + d)) (seqZ l n).
Proof.
  rewrite Z.add_comm, <- fmap_add_seqZ.
  etrans; [symmetry; apply (list_fmap_compose (Z.add d) f)|].
  apply map_ext. intros. cbn. f_equal. lia.
Qed.

Section ByteBuffer.
Context (m : Machine) (pt : PageTable).

(** One pass of the loop, for a range in the lower half of the address
    space: the bytes up to the end of the page or of the buffer. *)
Definition chunk (start e : Z) : Z := Z.min (PAGE_SIZE - start mod PAGE_SIZE) (e - start).

Lemma chunk_slice start e ppn :
  0 <= start < e -> e <= 2 ^ 38 ->
  let end_va := Z.min (VirtAddr_from_VirtPageNum (VirtPageNum_step (VirtAddr_floor (VirtAddr_from_usize start))))
                      (VirtAddr_from_usize e) in
  VirtAddr_floor (VirtAddr_from_usize start) = start / PAGE_SIZE /\
  end_va = start + chunk start e /\
  (if VirtAddr_page_offset end_va =? 0
   then byte_slice ppn (VirtAddr_page_offset (VirtAddr_from_usize start)) 4096
   else byte_slice ppn (VirtAddr_page_offset (VirtAddr_from_usize start)) (VirtAddr_page_offset end_va))
  = Some (mkSlice ppn (start mod PAGE_SIZE) (chunk start e)).
Proof.
  intros Hs He. cbv zeta. autorewrite with addr. rewrite !Z.mod_small by lia.
  unfold VirtAddr_floor, VirtPageNum_step, usize_wrap.
  assert (0 <= start / PAGE_SIZE < 2 ^ 26) as Hd by (unfold PAGE_SIZE; zdiv_lia).
  rewrite Z.mod_small by lia. rewrite VirtAddr_from_VirtPageNum_small by lia.
  assert (Z.min ((start / PAGE_SIZE + 1) * PAGE_SIZE) e = start + chunk start e) as E.
  { unfold chunk, PAGE_SIZE. zdiv_lia. }
  split; [done|]. split; [done|]. rewrite E.
  unfold byte_slice, chunk, PAGE_SIZE in *.
  destruct (Z.eqb_spec ((start + Z.min (4096 - start mod 4096) (e - start)) mod 4096) 0) as [E0|E0].
  - assert (Z.min (4096 - start mod 4096) (e - start) = 4096 - start mod 4096) as Hc by zdiv_lia.
    rewrite Hc. pose proof (Z.mod_pos_bound start 4096 ltac:(lia)).
    destruct (Z.leb_spec (start mod 4096) 4096); [|lia]. done.
  - assert ((start + Z.min (4096 - start mod 4096) (e - start)) mod 4096
      = start mod 4096 + Z.min (4096 - start mod 4096) (e - start)) as Hc by zdiv_lia.
    rewrite Hc. pose proof (Z.mod_pos_bound start 4096 ltac:(lia)).
    destruct (Z.leb_spec (start mod 4096) (start mod 4096 + Z.min (4096 - start mod 4096) (e - start))); [|lia].
    destruct (Z.leb_spec (start mod 4096 + Z.min (4096 - start mod 4096) (e - start)) 4096); [|lia].
    cbn. do 2 f_equal. lia.
Qed.

Lemma chunk_ok start e ppn : 0 <= start < e ->
  slice_ok (mkSlice ppn (start mod PAGE_SIZE) (chunk start e)).
Proof. intros. unfold slice_ok, chunk, PAGE_SIZE. cbn. zdiv_lia. Qed.

Lemma chunk_addrs start e pte :
  0 <= start < e -> PageTable_translate m pt (start / PAGE_SIZE) = Some pte ->
  slice_addrs (mkSlice (PageTableEntry_ppn pte) (start mod PAGE_SIZE) (chunk start e))
  = map (user_addr m pt) (seqZ start (chunk start e)).
Proof.
  intros Hs Ht. unfold slice_addrs. cbn [sl_ppn sl_off sl_len].
  pose proof (seqZ_map_shift (user_addr m pt) 0 (chunk start e) start) as E.
  rewrite Z.add_0_l in E. rewrite E. clear E.
  apply map_ext_in. intros k Hk%list_elem_of_In%elem_of_seqZ. unfold user_addr.
  assert (0 <= k < PAGE_SIZE - start mod PAGE_SIZE) as Hk2 by (unfold chunk in Hk; lia).
  clear Hk. unfold PAGE_SIZE in *.
  replace ((k + start) / 4096) with (start / 4096) by zdiv_lia. rewrite Ht. cbn.
  f_equal. zdiv_lia.
Qed.

Lemma wp_byte_buffer_loop fuel : forall start e acc,
  0 <= start <= e -> e <= 2 ^ 38 ->
  (forall a, start <= a < e -> is_Some (PageTable_translate m pt (a / PAGE_SIZE))) ->
  (if start =? e then 1 else (e - start) / PAGE_SIZE + (if start mod PAGE_SIZE =? 0 then 2 else 3))
    <= Z.of_nat fuel ->
  Forall slice_ok acc ->
  wp (translated_byte_buffer_loop fuel pt start e acc)
    (fun bs m' => m' = m /\ Forall slice_ok bs /\
       buffers_addrs bs = buffers_addrs acc ++ map (user_addr m pt) (seqZ start (e - start))) m.
Proof.
  induction fuel as [|fuel IH]; intros start e acc Hs He Hmapped Hfuel Hok.
  { exfalso. unfold PAGE_SIZE in Hfuel. case_zb; zdiv_lia. }
  cbn [translated_byte_buffer_loop]. destruct (Z.ltb_spec start e) as [Hlt|Hge].
  2:{ wp_simpl. rewrite seqZ_nil by lia. by rewrite app_nil_r. }
  destruct (Hmapped start ltac:(lia)) as [pte Hpte].
  destruct (chunk_slice start e (PageTableEntry_ppn pte) ltac:(lia) He) as (Hfl & Hend & Hsl).
  wp_simpl. rewrite Hfl in *. exists pte. split; [done|]. wp_simpl.
  rewrite Hend in *. eexists. split; [exact Hsl|].
  pose proof (chunk_ok start e (PageTableEntry_ppn pte) ltac:(lia)) as Hck.
  assert (0 < chunk start e <= e - start) as Hcr.
  { unfold slice_ok in Hck. cbn in Hck. unfold chunk in *. lia. }
  destruct (Z.eq_dec (start + chunk start e) (2 ^ 38)) as [Etop|Htop].
  - (* the end of the lower half: the loop stops *)
    assert (chunk start e = e - start) as Ec by lia. rewrite Ec in *.
    replace (start + (e - start)) with (2 ^ 38) by lia. assert (exists f', fuel = S f') as [f' ->].
    { destruct fuel; [|eauto]. exfalso. unfold PAGE_SIZE in Hfuel. case_zb; zdiv_lia. }
    cbn [translated_byte_buffer_loop].
    rewrite VirtAddr_into_usize_spec, Z.ltb_irrefl by lia.
    destruct (Z.ltb_spec (2 ^ 38 + (2 ^ 64 - 2 ^ 39)) e); [lia|]. wp_simpl. split; [done|].
    split; [apply Forall_app; auto|]. unfold buffers_addrs. rewrite map_app, concat_app. f_equal.
    cbn [map concat]. rewrite app_nil_r, <- Ec. by apply chunk_addrs; [lia|].
  - rewrite VirtAddr_into_usize_spec by lia. destruct (Z.ltb_spec (start + chunk start e) (2 ^ 38)); [|lia].
    eapply wp_mono; [apply IH; try lia|].
    + intros a Ha. apply Hmapped. lia.
    + unfold chunk, PAGE_SIZE in *. clear -Hfuel Hs Hlt Hcr. case_zb; zdiv_lia.
    + apply Forall_app; auto.
    + cbn. intros bs m' (-> & Hbs & Ebs). split; [done|]. split; [done|]. rewrite Ebs.
      unfold buffers_addrs. rewrite map_app, concat_app, <- app_assoc. f_equal.
      cbn [map concat]. rewrite app_nil_r, (chunk_addrs start e pte ltac:(lia) Hpte), <- map_app. f_equal.
      rewrite <- (seqZ_app start (chunk start e)) by lia. f_equal. lia.
Qed.

End ByteBuffer.

(** Iterating a user buffer yields its bytes in order. *)
Definition iter_rest (it : UserBufferIterator) : list (Z * Z) :=
  drop (Z.to_nat (ui_current_idx it)) (buffers_addrs (drop (ui_current_buffer it) (ui_buffers it))).

Definition iter_ok (it : UserBufferIterator) : Prop :=
  Forall slice_ok (ui_buffers it) /\ 0 <= ui_current_idx it /\
  (ui_current_idx it = 0 \/
   exists sl, ui_buffers it !! ui_current_buffer it = Some sl /\ ui_current_idx it < sl_len sl).

Lemma length_slice_addrs sl : slice_ok sl -> Z.of_nat (length (slice_addrs sl)) = sl_len sl.
Proof. intros [? [? ?]]. unfold slice_addrs. rewrite length_map, length_seqZ. lia. Qed.

Lemma wp_UserBufferIterator_next it :
  iter_ok it ->
  wp UserBufferIterator_next (fun o it' => iter_ok it' /\ ui_buffers it' = ui_buffers it /\
    match o with
    | Some x => iter_rest it = x :: iter_rest it'
    | None => iter_rest it = [] /\ it' = it
    end) it.
Proof.
  intros Hit. destruct it as [bs cur idx]. pose proof Hit as (Hok & Hidx & Hcur).
  cbn in Hok, Hidx, Hcur.
  unfold UserBufferIterator_next. wp_simpl. cbn [ui_buffers ui_current_buffer ui_current_idx].
  destruct (bs !! cur) as [sl|] eqn:Hsl.
  2:{ wp_simpl. split; [done|]. split; [done|]. split; [|done]. unfold iter_rest. cbn.
      rewrite (drop_ge bs) by (by apply lookup_ge_None). apply drop_nil. }
  pose proof (Forall_lookup_1 _ _ _ _ Hok Hsl) as Hs. pose proof (length_slice_addrs sl Hs) as Hlen.
  assert (idx < sl_len sl) as Hi.
  { destruct Hcur as [->|(? & [= <-] & ?)]; [|done]. destruct Hs as (_ & ? & _). done. }
  assert (buffers_addrs (drop cur bs) = slice_addrs sl ++ buffers_addrs (drop (S cur) bs)) as Eb.
  { by rewrite (drop_S bs sl cur Hsl). }
  assert (drop (Z.to_nat idx) (slice_addrs sl) =
    (sl_ppn sl, sl_off sl + idx) :: drop (Z.to_nat (idx + 1)) (slice_addrs sl)) as Ed.
  { replace (Z.to_nat (idx + 1)) with (S (Z.to_nat idx)) by lia. apply drop_S. unfold slice_addrs.
    assert (seqZ 0 (sl_len sl) !! Z.to_nat idx = Some idx) as Eq
      by (rewrite lookup_seqZ_lt by lia; f_equal; lia).
    apply (f_equal (fmap (fun k => (sl_ppn sl, sl_off sl + k)))) in Eq.
    etrans; [|exact Eq]. apply list_lookup_fmap. }
  wp_simpl. split; [lia|]. unfold iter_rest, iter_ok.
  destruct (Z.eqb_spec (idx + 1) (sl_len sl)) as [E|E]; wp_simpl;
    cbn [ui_buffers ui_current_buffer ui_current_idx]; split_and!; eauto; try lia.
  - rewrite Eb, drop_app_le, Ed by lia. cbn. f_equal.
    rewrite (drop_ge (slice_addrs sl)) by lia. done.
  - right. exists sl. split; [done|lia].
  - rewrite Eb, !drop_app_le, Ed by lia. done.
Qed.

(** [n] calls of [next]. *)
Fixpoint next_n (n : nat) : M UserBufferIterator (list (option (Z * Z))) :=
  match n with
  | O => mret []
  | S n' => o ← UserBufferIterator_next; l ← next_n n'; mret (o :: l)
  end.

Lemma wp_next_n n : forall it, iter_ok it ->
  wp (next_n n) (fun l _ => l = map Some (take n (iter_rest it))
                                ++ replicate (n - length (iter_rest it)) None) it.
Proof.
  induction n as [|n IH]; intros it Hok; cbn [next_n]; wp_simpl; [done|].
  eapply wp_mono; [by apply wp_UserBufferIterator_next|]. cbn beta.
  intros o it' (Hok' & _ & Ho). wp_simpl.
  eapply wp_mono; [by apply IH|]. cbn beta. intros l ? ->. wp_simpl.
  destruct o as [x|].
  - rewrite Ho. done.
  - destruct Ho as [Hnil ->]. rewrite Hnil. cbn. rewrite take_nil, Nat.sub_0_r. done.
Qed.

Lemma UserBuffer_len_addrs bs :
  Forall slice_ok bs -> UserBuffer_len (mkUserBuffer bs) = Z.of_nat (length (buffers_addrs bs)).
Proof.
  unfold UserBuffer_len. cbn [ub_buffers]. intros H.
  assert (forall acc, fold_left (fun total sl => total + sl_len sl) bs acc
    = acc + Z.of_nat (length (buffers_addrs bs))) as E; [|by rewrite E].
  induction H as [|sl bs Hsl _ IH]; intros acc; cbn; [lia|].
  rewrite IH. unfold buffers_addrs. cbn. rewrite length_app.
  pose proof (length_slice_addrs sl Hsl). lia.
Qed.

(** ** Properties *)

#[global] Arguments mapped : simpl never.
#[global] Arguments PageTable_find_pte : simpl never.

(** The operations on a page table and what they promise: the new entry of
    the page, or [None] when the assertions of the code reject the call. *)
Inductive pt_op :=
  | OpMap (vpn ppn flags : Z)
  | OpMapCow (vpn ppn flags : Z)
  | OpMarkCow (vpn : Z)
  | OpResolveCow (vpn new_ppn : Z)
  | OpUnmap (vpn : Z).

Definition pt_op_vpn (op : pt_op) : VirtPageNum :=
  match op with
  | OpMap v _ _ | OpMapCow v _ _ | OpMarkCow v | OpResolveCow v _ | OpUnmap v => v
  end.

(** Page numbers, frames and flag bytes within their widths. *)
Definition pt_op_ok (op : pt_op) : Prop :=
  0 <= pt_op_vpn op < 2 ^ 27 /\
  match op with
  | OpMap _ ppn flags | OpMapCow _ ppn flags => 0 <= ppn < 2 ^ 44 /\ is_byte flags
  | OpResolveCow _ ppn => 0 <= ppn < 2 ^ 44
  | _ => True
  end.

Definition pt_run (op : pt_op) (pt : PageTable) : M Machine PageTable :=
  match op with
  | OpMap vpn ppn flags => PageTable_map pt vpn ppn flags
  | OpMapCow vpn ppn flags => PageTable_map_cow pt vpn ppn flags
  | OpMarkCow vpn => PageTable_mark_cow pt vpn;; mret pt
  | OpResolveCow vpn ppn => PageTable_resolve_cow pt vpn ppn;; mret pt
  | OpUnmap vpn => PageTable_unmap pt vpn;; mret pt
  end.

Definition pt_spec (op : pt_op) (old : option PageTableEntry) : option (option PageTableEntry) :=
  match op, old with
  | OpMap _ ppn flags, None =>
      Some (Some (PageTableEntry_new ppn (flags_insert flags PTE_V)))
  | OpMapCow _ ppn flags, None =>
      Some (Some (PageTableEntry_new_cow ppn (flags_insert (flags_remove flags PTE_W) PTE_V)))
  | OpMarkCow _, Some e =>
      if Bool.eqb (PageTableEntry_writable e) (negb (PageTableEntry_is_cow e))
      then Some (Some (cow_entry e)) else None
  | OpResolveCow _ ppn, Some e =>
      if PageTableEntry_is_cow e
      then Some (Some (PageTableEntry_new ppn
                  (flags_insert (flags_insert (PageTableEntry_flags e) PTE_W) PTE_V)))
      else None
  | OpUnmap _, Some _ => Some None
  | _, _ => None
  end.

Lemma wp_pt_run base m ts pt lab op o :
  pt_inv base m ts pt lab -> 2 <= frames_free (m_allocator m) -> pt_op_ok op ->
  pt_spec op (mapped m pt (pt_op_vpn op)) = Some o ->
  wp (pt_run op pt)
    (fun pt' m' => exists new, pt_effect base m ts pt (pt_op_vpn op) o m' pt' new) m.
Proof.
  intros Hpt Hfree [Hvpn Hok] Hs.
  destruct op as [v p f|v p f|v|v p|v]; cbn in *; destruct (mapped m pt v) as [e|] eqn:He;
    try done.
  - injection Hs as <-. destruct Hok. eapply wp_map; eauto.
  - injection Hs as <-. destruct Hok. eapply wp_map_cow; eauto.
  - destruct (Bool.eqb _ _) eqn:E; [|done]. apply Bool.eqb_prop in E. injection Hs as <-.
    apply wp_bind. eapply wp_mono; [eapply wp_mark_cow; eauto|]. cbn. eauto.
  - destruct (PageTableEntry_is_cow e) eqn:E; [|done]. injection Hs as <-.
    apply wp_bind. eapply wp_mono; [eapply wp_resolve_cow; eauto|]. cbn. eauto.
  - injection Hs as <-. apply wp_bind. eapply wp_mono; [by eapply wp_unmap|]. cbn. eauto.
Qed.

(** The assertions that reject a call. *)
Lemma map_body_panics base m ts pt lab vpn e (k : PageTable -> Z * Z -> M Machine PageTable) :
  pt_inv base m ts pt lab -> 0 <= vpn < 2 ^ 27 -> 2 <= frames_free (m_allocator m) ->
  mapped m pt vpn = Some e ->
  (r ← PageTable_find_pte_create pt vpn;
   slot ← unwrap (fst r);
   pte ← gets (fun m => read_pte m (fst slot) (snd slot));
   massert (negb (PageTableEntry_is_valid pte));;
   k (snd r) slot) m = Err Panic.
Proof.
  intros Hpt Hvpn Hfree He.
  destruct (wp_run _ _ _ (wp_find_pte_create base m ts pt lab vpn Hpt Hfree))
    as (r & m1 & Hr & slot & pt1 & lab1 & new & -> & Hpt1 & Hg & Hn & Hf).
  unfold mbind, M_bind. rewrite Hr. cbn.
  rewrite <- (gr_mapped _ _ _ _ _ _ _ Hg) in He. apply mapped_Some in He as (slot' & Hs & Hrd & Hv).
  rewrite Hf in Hs. injection Hs as <-. by rewrite Hrd, Hv.
Qed.

Lemma pt_run_panics base m ts pt lab op :
  pt_inv base m ts pt lab -> 2 <= frames_free (m_allocator m) -> pt_op_ok op ->
  pt_spec op (mapped m pt (pt_op_vpn op)) = None -> pt_run op pt m = Err Panic.
Proof.
  intros Hpt Hfree [Hvpn Hok] Hs.
  destruct op as [v p f|v p f|v|v p|v]; cbn [pt_op_vpn pt_spec pt_run] in *.
  - destruct (mapped m pt v) as [e|] eqn:He; [|done].
    exact (map_body_panics base m ts pt lab v e (fun pt' slot =>
      modify (write_pte (fst slot) (snd slot) (PageTableEntry_new p (flags_insert f PTE_V)));; mret pt')
      Hpt Hvpn Hfree He).
  - destruct (mapped m pt v) as [e|] eqn:He; [|done].
    exact (map_body_panics base m ts pt lab v e (fun pt' slot =>
      modify (write_pte (fst slot) (snd slot)
        (PageTableEntry_new_cow p (flags_insert (flags_remove f PTE_W) PTE_V)));; mret pt')
      Hpt Hvpn Hfree He).
  - rewrite mapped_translate in Hs. unfold PageTable_translate in Hs.
    unfold PageTable_mark_cow, mbind, M_bind. cbn [gets].
    destruct (PageTable_find_pte m pt v) as [[p i]|]; [|done]. cbn in *.
    destruct (PageTableEntry_is_valid (read_pte m p i)); [|done]. cbn.
    unfold PageTableEntry_writable in Hs.
    destruct (PageTableEntry_is_cow _), (flags_contains _ PTE_W); done.
  - rewrite mapped_translate in Hs. unfold PageTable_translate in Hs.
    unfold PageTable_resolve_cow, mbind, M_bind. cbn.
    destruct (PageTable_find_pte m pt v) as [[q i]|]; [|done]. cbn in *.
    destruct (PageTableEntry_is_valid (read_pte m q i)); [|done]. cbn.
    destruct (PageTableEntry_is_cow _); done.
  - rewrite mapped_translate in Hs. unfold PageTable_translate in Hs.
    unfold PageTable_unmap, mbind, M_bind. cbn.
    destruct (PageTable_find_pte m pt v) as [[q i]|]; [|done]. cbn in *.
    destruct (PageTableEntry_is_valid (read_pte m q i)); done.
Qed.

(** A sequence of operations, in the code and on the mapping. *)
Fixpoint pt_runs (ops : list pt_op) (pt : PageTable) : M Machine PageTable :=
  match ops with
  | [] => mret pt
  | op :: rest => pt' ← pt_run op pt; pt_runs rest pt'
  end.

Fixpoint pt_specs (ops : list pt_op) (f : VirtPageNum -> option PageTableEntry)
  : option (VirtPageNum -> option PageTableEntry) :=
  match ops with
  | [] => Some f
  | op :: rest =>
      o ← pt_spec op (f (pt_op_vpn op));
      pt_specs rest (map_update f (pt_op_vpn op) o)
  end.

Lemma pt_specs_proper ops : forall f g f',
  mapping_eq f g -> Forall pt_op_ok ops -> pt_specs ops f = Some f' ->
  exists g', pt_specs ops g = Some g' /\ mapping_eq f' g'.
Proof.
  induction ops as [|op ops IH]; intros f g f' Hfg Hok Hf; cbn in *.
  { injection Hf as <-. eauto. }
  apply Forall_cons in Hok as [[Hv _] Hok]. rewrite <- (Hfg _ Hv).
  destruct (pt_spec op (f (pt_op_vpn op))) as [o|]; [|done]. cbn in *.
  eapply IH; [|done|exact Hf]. by apply (map_update_proper _ o).
Qed.

Lemma wp_pt_runs base ops : forall m ts pt lab f',
  pt_inv base m ts pt lab -> 2 * Z.of_nat (length ops) <= frames_free (m_allocator m) ->
  Forall pt_op_ok ops -> pt_specs ops (mapped m pt) = Some f' ->
  wp (pt_runs ops pt) (fun pt' m' => exists new lab',
    pt_inv base m' (new ++ ts) pt' lab' /\ pt_frames pt' ≡ₚ pt_frames pt ++ new /\
    mapping_eq (mapped m' pt') f' /\
    forall q, q ∉ ft_ppn <$> pt_frames pt' -> mem_page m' q = mem_page m q) m.
Proof.
  induction ops as [|op ops IH]; intros m ts pt lab f' Hpt Hfree Hok Hs; cbn [pt_runs pt_specs] in *.
  { injection Hs as <-. wp_simpl. exists [], lab. rewrite app_nil_r. done. }
  apply Forall_cons in Hok as [Hop Hok]. cbn [length] in Hfree.
  destruct (pt_spec op _) as [o|] eqn:Ho; [|done]. cbn [mbind option_bind] in Hs.
  wp_simpl. eapply wp_mono; [by eapply wp_pt_run; eauto; lia|]. cbn beta.
  intros pt1 m1 (n1 & [[lab1 Hinv] _ Hfr Hmap Hmem Hfree1 Hn1]).
  destruct (pt_specs_proper ops _ _ _ (symmetry Hmap) Hok Hs) as (g' & Hg & Heq).
  eapply wp_mono; [eapply IH; eauto; lia|]. cbn beta.
  intros pt2 m2 (n2 & lab2 & Hinv2 & Hfr2 & Hmap2 & Hmem2).
  exists (n2 ++ n1), lab2. rewrite <- app_assoc. split_and!; [done| | |].
  - rewrite Hfr2, Hfr, <- app_assoc. f_equiv. apply Permutation_app_comm.
  - by rewrite Hmap2, Heq.
  - intros q Hq. rewrite Hmem2 by done. apply Hmem. intros Hq1. apply Hq.
    rewrite Hfr2, fmap_app. apply elem_of_app. by left.
Qed.

(** C9: a page table is a map from pages to entries.  From a fresh table, any
    sequence of [map], [map_cow], [mark_cow], [resolve_cow] and [unmap] that
    respects the assertions of the code and for which there are frames enough
    (two for each operation and one for the root) returns, and leaves exactly the
    mapping the sequence describes: an operation on one page changes no other
    page, in whatever order intermediate tables were created.  The only
    frames it writes are its own tables, every one of them a live frame of the
    allocator that nothing else owns. *)
Theorem page_table_refines_mapping base m ts ops f :
  tracked base m ts -> Forall pt_op_ok ops ->
  1 + 2 * Z.of_nat (length ops) <= frames_free (m_allocator m) ->
  pt_specs ops (fun _ => None) = Some f ->
  exists pt m', (pt0 ← PageTable_new; pt_runs ops pt0) m = Ok (pt, m') /\
    (forall vpn, 0 <= vpn < 2 ^ 27 -> mapped m' pt vpn = f vpn) /\
    (forall q, q ∉ ft_ppn <$> pt_frames pt -> mem_page m' q = mem_page m q) /\
    tracked base m' (pt_frames pt ++ ts).
Proof.
  intros Ht Hok Hfree Hs. apply wp_run, wp_bind.
  eapply wp_mono; [apply (wp_PageTable_new base m ts Ht); lia|]. cbn beta.
  intros pt0 m0 (t & lab & Hpt & Hfr & _ & Hfree0 & Hmem0 & Hnone).
  destruct (pt_specs_proper ops (fun _ => None) (mapped m0 pt0) f) as (f' & Hs' & Heq); [|done|done|].
  { intros vpn _. by rewrite Hnone. }
  eapply wp_mono; [eapply (wp_pt_runs base ops m0); eauto; lia|]. cbn beta.
  intros pt m' (new & lab' & Hinv & Hfr' & Hmap & Hmem). split_and!.
  - intros vpn Hv. by rewrite Hmap, Heq by done.
  - intros q Hq. rewrite Hmem by done. apply Hmem0. intros ->. apply Hq.
    rewrite Hfr', Hfr. left.
  - eapply tracked_perm; [|apply (pi_tracked _ _ _ _ _ Hinv)].
    rewrite Hfr', Hfr. cbn. rewrite Permutation_middle. done.
Qed.

Definition demo_pool : Machine := mkMachine (mkFA 100 132 [] ∅) ∅.

Lemma demo_pool_tracked : tracked 100 demo_pool [].
Proof. by apply (tracked_boot 100 132); [lia|lia|]. Qed.

Definition demo_ops : list pt_op := [OpMap 5 7 (Z.lor PTE_W PTE_U); OpMap 6 8 PTE_R; OpMarkCow 5; OpUnmap 6].

Lemma demo_ops_ok : Forall pt_op_ok demo_ops.
Proof. repeat (constructor; [vm_compute; intuition congruence|]). constructor. Qed.

Lemma page_table_refines_mapping_witness :
  exists pt m', (pt0 ← PageTable_new; pt_runs demo_ops pt0) demo_pool = Ok (pt, m') /\
    mapped m' pt 5 = Some (PageTableEntry_new_cow 7 (Z.lor PTE_U PTE_V)) /\ mapped m' pt 6 = None.
Proof.
  destruct (pt_specs demo_ops (fun _ => None)) as [f|] eqn:E; [|discriminate].
  destruct (page_table_refines_mapping 100 demo_pool [] demo_ops f demo_pool_tracked demo_ops_ok
    ltac:(vm_compute; discriminate) E) as (pt & m' & Hr & Hm & _).
  exists pt, m'. split; [exact Hr|]. rewrite !Hm by lia.
  injection E as <-. split; reflexivity.
Defined.

(** C40: each operation on a page table, with two frames free for the tables it
    may have to create, returns exactly when its assertions
    hold of the entry of its page, and panics otherwise: mapping a mapped
    page, unmapping or marking an unmapped one, marking a page that is
    neither writable nor shared, and resolving a page that is not
    copy-on-write are all caught. *)
Theorem page_table_op_exact base m ts pt lab op :
  pt_inv base m ts pt lab -> 2 <= frames_free (m_allocator m) -> pt_op_ok op ->
  match pt_spec op (mapped m pt (pt_op_vpn op)) with
  | Some o => exists pt' m', pt_run op pt m = Ok (pt', m') /\
      forall vpn, 0 <= vpn < 2 ^ 27 ->
        mapped m' pt' vpn = if decide (vpn = pt_op_vpn op) then o else mapped m pt vpn
  | None => pt_run op pt m = Err Panic
  end.
Proof.
  intros Hpt Hfree Hok. destruct (pt_spec _ _) as [o|] eqn:Hs.
  - apply wp_run. eapply wp_mono; [by eapply wp_pt_run|]. cbn beta.
    intros pt' m' (new & [_ _ _ Hmap _ _ _]) vpn Hv. by apply Hmap.
  - by eapply pt_run_panics.
Qed.

Lemma demo_pt_inv : exists pt m t lab, PageTable_new demo_pool = Ok (pt, m) /\
  pt_inv 100 m [t] pt lab /\ frames_free (m_allocator m) = 31 /\ mapped m pt 5 = None.
Proof.
  destruct (wp_run _ _ _ (wp_PageTable_new 100 demo_pool [] demo_pool_tracked ltac:(done)))
    as (pt & m & Hr & t & lab & Hpt & _ & _ & Hf & _ & Hn).
  exists pt, m, t, lab. split_and!; [done|done|by rewrite Hf|apply Hn].
Qed.

Lemma page_table_op_exact_witness : exists pt m,
  PageTable_new demo_pool = Ok (pt, m) /\ pt_run (OpUnmap 5) pt m = Err Panic.
Proof.
  destruct demo_pt_inv as (pt & m & t & lab & Hr & Hpt & Hf & Hn).
  exists pt, m. split; [exact Hr|].
  assert (pt_op_ok (OpUnmap 5)) as Hok by (split; [cbn; lia|done]).
  pose proof (page_table_op_exact 100 m [t] pt lab (OpUnmap 5) Hpt ltac:(lia) Hok) as H.
  cbn [pt_op_vpn] in H. rewrite Hn in H. exact H.
Defined.

(** The entry codec of [PageTableEntry] loses nothing: the frame number,
    the flag byte and the copy-on-write mark that [new] and [new_cow] pack
    into 64 bits are the ones the accessors read back. *)
Theorem pte_codec_roundtrip ppn flags cow :
  0 <= ppn < 2 ^ 44 -> is_byte flags ->
  let e := (if cow : bool then PageTableEntry_new_cow else PageTableEntry_new) ppn flags in
  0 <= e < 2 ^ 64 /\ PageTableEntry_ppn e = ppn /\ PageTableEntry_flags e = flags /\
  PageTableEntry_is_cow e = cow.
Proof.
  intros Hp Hf. cbv zeta.
  destruct (PageTableEntry_new_ppn ppn flags Hp Hf), (PageTableEntry_new_flags ppn flags Hp Hf),
    (PageTableEntry_new_is_cow ppn flags Hp Hf), (PageTableEntry_new_range ppn flags Hp Hf).
  by destruct cow.
Qed.

Lemma pte_codec_roundtrip_witness :
  PageTableEntry_ppn (PageTableEntry_new_cow 0x80200 0xd7) = 0x80200.
Proof. exact (proj1 (proj2 (pte_codec_roundtrip 0x80200 0xd7 true ltac:(lia) ltac:(unfold is_byte; lia)))). Defined.

Lemma PageTable_from_token_token pt :
  0 <= pt_root_ppn pt < 2 ^ 44 ->
  pt_root_ppn (PageTable_from_token (PageTable_token pt)) = pt_root_ppn pt.
Proof.
  intros Hr. unfold PageTable_from_token, PageTable_token. cbn [pt_root_ppn].
  rewrite PhysPageNum_from_usize_mod, land_mask, lor_shiftl_add by lia. zdiv_lia.
Qed.

Lemma find_pte_root m pt pt' vpn :
  pt_root_ppn pt = pt_root_ppn pt' -> PageTable_find_pte m pt vpn = PageTable_find_pte m pt' vpn.
Proof. unfold PageTable_find_pte. by intros ->. Qed.

Lemma mapped_is_translate m pt vpn e :
  mapped m pt vpn = Some e -> PageTable_translate m pt vpn = Some e.
Proof. intros (slot & Hf & Hr & _)%mapped_Some. unfold PageTable_translate. by rewrite Hf, <- Hr. Qed.

(** Where a mapped user address lives: its frame and its offset. *)
Definition backing (m : Machine) (pt : PageTable) (a : Z) : option (Z * Z) :=
  e ← mapped m pt (a / PAGE_SIZE); Some (PageTableEntry_ppn e, a mod PAGE_SIZE).

(** A user buffer in the lower half of the address space whose pages are
    mapped is translated, whatever its alignment and length, into slices that
    stay inside one frame each and that stand, in order, for exactly the
    bytes the page table backs the buffer with; the loop of
    [translated_byte_buffer] ends; and the byte iterator of the resulting
    [UserBuffer] yields each byte once, in order, and then [None] for
    ever. *)
Theorem translated_byte_buffer_exact m pt ptr len n :
  0 <= ptr -> 0 <= len -> ptr + len <= 2 ^ 38 -> 0 <= pt_root_ppn pt < 2 ^ 44 ->
  (forall a, ptr <= a < ptr + len -> is_Some (mapped m pt (a / PAGE_SIZE))) ->
  exists bs it, translated_byte_buffer (PageTable_token pt) ptr len m = Ok (bs, m) /\
    Forall slice_ok bs /\
    map Some (buffers_addrs bs) = map (backing m pt) (seqZ ptr len) /\
    UserBuffer_len (mkUserBuffer bs) = len /\
    next_n (Z.to_nat len + n) (UserBuffer_into_iter (mkUserBuffer bs))
    = Ok (map (backing m pt) (seqZ ptr len) ++ replicate n None, it).
Proof.
  intros Hp Hl He Hr Hmapped. unfold translated_byte_buffer, usize_wrap.
  set (pt' := PageTable_from_token (PageTable_token pt)).
  assert (forall vpn, PageTable_translate m pt' vpn = PageTable_translate m pt vpn) as Htr.
  { intros vpn. unfold PageTable_translate.
    by rewrite (find_pte_root m pt' pt) by (by apply PageTable_from_token_token). }
  rewrite Z.mod_small by lia.
  opose proof* (wp_byte_buffer_loop m pt' (buffer_fuel len) ptr (ptr + len) []) as Hw;
    [lia|done| | | |].
  - intros a Ha. rewrite Htr. destruct (Hmapped a Ha) as [e Hm].
    apply mapped_is_translate in Hm. eauto.
  - unfold buffer_fuel, PAGE_SIZE. replace (ptr + len - ptr) with len by lia.
    rewrite Nat2Z.inj_add, Z2Nat.id by (apply Z.div_pos; lia). case_zb; zdiv_lia.
  - constructor.
  - apply wp_run in Hw as (bs & m' & Hrun & -> & Hok & Haddrs).
    replace (ptr + len - ptr) with len in Haddrs by lia.
    change (buffers_addrs []) with (@nil (Z * Z)) in Haddrs. cbn [app] in Haddrs.
    assert (map Some (buffers_addrs bs) = map (backing m pt) (seqZ ptr len)) as Hback.
    { rewrite Haddrs, map_map. apply map_ext_in. intros a Ha%list_elem_of_In%elem_of_seqZ.
      unfold backing, user_addr. rewrite Htr. destruct (Hmapped a Ha) as [e Hm].
      rewrite Hm, (mapped_is_translate _ _ _ _ Hm). done. }
    assert (length (buffers_addrs bs) = Z.to_nat len) as Hlen.
    { rewrite Haddrs. cbn. by rewrite length_map, length_seqZ. }
    assert (iter_ok (UserBuffer_into_iter (mkUserBuffer bs))) as Hio
      by (split_and!; [exact Hok|cbn; lia|by left]).
    destruct (wp_run _ _ _ (wp_next_n (Z.to_nat len + n) _ Hio)) as (l & it & Hit & ->).
    exists bs, it. split_and!; auto.
    + rewrite UserBuffer_len_addrs by done. lia.
    + rewrite Hit. unfold iter_rest. cbn [UserBuffer_into_iter ui_current_idx ui_current_buffer ui_buffers ub_buffers].
      change (Z.to_nat 0) with O. rewrite !drop_0, take_ge by (rewrite Hlen; lia).
      rewrite Hback, Hlen.
      by replace (Z.to_nat len + n - Z.to_nat len)%nat with n by lia.
Qed.

(** The page table built by a run of [demo_ops]. *)
Definition demo_mapped : res (PageTable * Machine) :=
  (pt0 ← PageTable_new; pt_runs [OpMap 5 7 (Z.lor PTE_R PTE_U); OpMap 6 9 (Z.lor PTE_R PTE_U)] pt0) demo_pool.

Lemma demo_mapped_runs : exists pt m, demo_mapped = Ok (pt, m) /\ pt_root_ppn pt = 100 /\
  forall a, 5 * 4096 + 4000 <= a < 5 * 4096 + 4000 + 200 -> is_Some (mapped m pt (a / PAGE_SIZE)).
Proof.
  destruct demo_mapped as [[pt m]|] eqn:E; [|by vm_compute in E].
  exists pt, m. split; [reflexivity|]. vm_compute in E. injection E as <- <-. split; [done|].
  intros a Ha. unfold PAGE_SIZE.
  destruct (Z.eq_dec (a / 4096) 5) as [->|]; [vm_compute; eauto|].
  assert (a / 4096 = 6) as -> by zdiv_lia. vm_compute. eauto.
Qed.

Lemma translated_byte_buffer_exact_witness : exists pt m bs,
  demo_mapped = Ok (pt, m) /\
  translated_byte_buffer (PageTable_token pt) (5 * 4096 + 4000) 200 m = Ok (bs, m) /\
  UserBuffer_len (mkUserBuffer bs) = 200.
Proof.
  destruct demo_mapped_runs as (pt & m & Hr & Hroot & Hm). exists pt, m.
  destruct (translated_byte_buffer_exact m pt (5 * 4096 + 4000) 200 0 ltac:(lia) ltac:(lia)
    ltac:(lia) ltac:(lia) Hm) as (bs & it & Hb & _ & _ & Hl & _).
  exists bs. split_and!; done.
Defined.

(** [translate] does not look at the valid bit.  Once a page has been
    mapped and unmapped again its leaf table remains, so [translate] answers
    [Some] of an invalid entry, and [translate_va] (hence [translated_ref],
    [translated_str] and [translated_byte_buffer], which [unwrap] it) takes an
    address in the unmapped page to physical frame 0 instead of failing. *)
Theorem unmapped_page_translates_to_frame_zero base m ts pt lab vpn e off :
  pt_inv base m ts pt lab -> 0 <= vpn < 2 ^ 26 -> 0 <= off < PAGE_SIZE ->
  mapped m pt vpn = Some e ->
  exists m', PageTable_unmap pt vpn m = Ok (tt, m') /\ mapped m' pt vpn = None /\
    PageTable_translate m' pt vpn = Some 0 /\
    PageTable_translate_va m' pt (vpn * PAGE_SIZE + off) = Some off.
Proof.
  intros Hpt Hv Ho He.
  destruct (wp_run _ _ _ (wp_unmap base m ts pt lab vpn Hpt ltac:(lia) e He))
    as ([] & m' & Hr & [_ _ _ Hmap _ _ _]).
  exists m'. assert (mapped m' pt vpn = None) as Hnone.
  { rewrite (Hmap vpn ltac:(lia)). unfold map_update. by rewrite decide_True. }
  apply mapped_Some in He as ([p i] & Hf & Hrd & Hval).
  assert (m' = write_pte p i PageTableEntry_empty m) as Em.
  { unfold PageTable_unmap, mbind, M_bind in Hr. cbn in Hr. rewrite Hf in Hr. cbn in *.
    rewrite Hrd, Hval in Hr. by injection Hr as <-. }
  destruct (leaf_write m pt lab vpn p i PageTableEntry_empty (pi_wf _ _ _ _ _ Hpt) ltac:(lia) Hf ltac:(done)) as [_ Hl].
  destruct (Hl vpn ltac:(lia)) as [Hf' Htr]. rewrite <- Em in Hf', Htr. rewrite decide_True in Htr by done.
  split_and!; [done|done| |].
  - exact Htr.
  - unfold PageTable_translate in Htr. unfold PageTable_translate_va.
    replace (VirtAddr_floor (vpn * PAGE_SIZE + off)) with vpn by (unfold VirtAddr_floor, PAGE_SIZE in *; zdiv_lia).
    rewrite Hf' in *. rewrite Hf in *. cbn in Htr |- *. injection Htr as ->. f_equal.
    autorewrite with addr. rewrite (Z.add_comm _ off), Z.mod_add, (Z.mod_small off) by (unfold PAGE_SIZE in *; lia).
    unfold PAGE_SIZE, usize_wrap in *. change (PhysAddr_into_usize _) with 0.
    clear -Ho. zdiv_lia.
Qed.

Lemma unmapped_page_translates_to_frame_zero_witness : exists pt m m',
  demo_mapped = Ok (pt, m) /\ PageTable_unmap pt 5 m = Ok (tt, m') /\
  PageTable_translate_va m' pt (5 * 4096 + 1) = Some 1.
Proof.
  destruct (wp_run _ _ _ (wp_PageTable_new 100 demo_pool [] demo_pool_tracked ltac:(done)))
    as (pt0 & m0 & Hr & t & lab & Hpt & _ & _ & Hf & _ & Hn).
  set (ops := [OpMap 5 7 (Z.lor PTE_R PTE_U); OpMap 6 9 (Z.lor PTE_R PTE_U)]).
  assert (Forall pt_op_ok ops) as Hok.
  { repeat (constructor; [vm_compute; intuition congruence|]). constructor. }
  assert (frames_free (m_allocator m0) = 31) as Hf' by (rewrite Hf; reflexivity).
  destruct (pt_specs ops (fun _ => None)) as [f0|] eqn:H0; [|discriminate].
  destruct (pt_specs_proper ops (fun _ => None) (mapped m0 pt0) f0) as (f & Hs & Heq); [|done|done|].
  { intros vpn _. by rewrite Hn. }
  destruct (wp_run _ _ _ (wp_pt_runs 100 ops m0 [t] pt0 lab f Hpt ltac:(cbn; lia) Hok Hs))
    as (pt & m & Hrun & new & lab' & Hpt' & _ & Hmap & _).
  assert (mapped m pt 5 = Some (PageTableEntry_new 7 (flags_insert (Z.lor PTE_R PTE_U) PTE_V))) as He.
  { rewrite (Hmap 5 ltac:(lia)), <- (Heq 5 ltac:(lia)). injection H0 as <-. reflexivity. }
  destruct (unmapped_page_translates_to_frame_zero 100 m (new ++ [t]) pt lab' 5 _ 1 Hpt'
    ltac:(lia) ltac:(unfold PAGE_SIZE; lia) He) as (m' & Hu & _ & _ & Htr).
  exists pt, m, m'. split_and!; [|exact Hu|exact Htr].
  unfold demo_mapped, mbind, M_bind. rewrite Hr. exact Hrun.
Defined.
