(* ===== verification/MemorySet.v ===== *)
(** * Address spaces ([os/src/mm/memory_set.rs])

    A [MemorySet] is a page table and the areas mapped in it; an area owns the
    frames behind its pages.  The linker symbols and the ELF reader
    ([xmas_elf]) are parameters.  [sfence.vma] has no counterpart: the model
    translates through the tables in memory and has no TLB. *)

From stdpp Require Import list numbers gmap sorting.
From S2P Require Import Prelude Address FrameAllocator PageTable.

Open Scope Z_scope.

(** ** Areas *)

Inductive MapType :=
  | Identical
  | Framed
  | Linear (pn_offset : Z).

#[export] Instance MapType_eq_dec : EqDecision MapType.
Proof. solve_decision. Defined.

Definition MapPermission_R : Z := 2 ^ 1.
Definition MapPermission_W : Z := 2 ^ 2.
Definition MapPermission_X : Z := 2 ^ 3.
Definition MapPermission_U : Z := 2 ^ 4.

Definition perm_or (a b : Z) : Z := Z.lor a b.
Definition perm_contains (a b : Z) : bool := Z.land a b =? b.
Definition perm_intersects (a b : Z) : bool := negb (Z.land a b =? 0).

Record MapArea := mkArea {
  ma_vpn_range : SimpleRange;
  (** a [BTreeMap] *)
  ma_data_frames : gmap Z FrameTracker;
  ma_map_type : MapType;
  ma_map_perm : Z
}.

(** The order of a [BTreeMap]. *)
Definition key_le (a b : Z * FrameTracker) : Prop := fst a <= fst b.

#[export] Instance key_le_dec : RelDecision key_le.
Proof. intros a b. unfold key_le. apply _. Defined.

(** The trackers an area owns, in the order the [BTreeMap] drops them. *)
Definition area_trackers (area : MapArea) : list FrameTracker :=
  snd <$> merge_sort key_le (map_to_list (ma_data_frames area)).

Definition drop_trackers (ts : list FrameTracker) : M Machine unit := mfor ts FrameTracker_drop.

(** Dropping what [insert] or [remove] hands back. *)
Definition drop_option (o : option FrameTracker) : M Machine unit :=
  match o with
  | Some t => FrameTracker_drop t
  | None => mret tt
  end.

(** [MapArea::new]; [VPNRange::new] asserts that the range is not
    reversed. *)
Definition MapArea_new (start_va end_va : VirtAddr) (map_type : MapType) (map_perm : Z)
  : option MapArea :=
  let start_vpn := VirtAddr_floor start_va in
  let end_vpn := VirtAddr_ceil end_va in
  (fun r => mkArea r ∅ map_type map_perm) <$> SimpleRange_new start_vpn end_vpn.

Definition MapArea_from_another (another : MapArea) : option MapArea :=
  (fun r => mkArea r ∅ (ma_map_type another) (ma_map_perm another)) <$>
  SimpleRange_new (SimpleRange_get_start (ma_vpn_range another))
    (SimpleRange_get_end (ma_vpn_range another)).

Definition set_frames (area : MapArea) (f : gmap Z FrameTracker) : MapArea :=
  mkArea (ma_vpn_range area) f (ma_map_type area) (ma_map_perm area).

(** [PTEFlags::from_bits]: every bit of the byte is a flag, so the
    conversion never fails. *)
Definition PTEFlags_from_bits (bits : Z) : option Z :=
  if bool_decide (0 <= bits < 256) then Some bits else None.

Definition MapArea_map_one (area : MapArea) (pt : PageTable) (vpn : VirtPageNum)
  : M Machine (MapArea * PageTable) :=
  r ← match ma_map_type area with
      | Identical => mret (vpn, area)
      | Framed =>
          o ← frame_alloc;
          frame ← unwrap o;
          drop_option (ma_data_frames area !! vpn);;
          mret (ft_ppn frame, set_frames area (<[vpn := frame]> (ma_data_frames area)))
      | Linear pn_offset =>
          massert (vpn <? Z.shiftl 1 27);;
          mret (usize_wrap (as_isize vpn + pn_offset), area)
      end;
  let '(ppn, area') := r in
  pte_flags ← unwrap (PTEFlags_from_bits (ma_map_perm area'));
  pt' ← PageTable_map pt vpn ppn pte_flags;
  mret (area', pt').

Definition MapArea_unmap_one (area : MapArea) (pt : PageTable) (vpn : VirtPageNum)
  : M Machine MapArea :=
  area' ← (if bool_decide (ma_map_type area = Framed)
           then drop_option (ma_data_frames area !! vpn);;
                mret (set_frames area (delete vpn (ma_data_frames area)))
           else mret area);
  PageTable_unmap pt vpn;;
  mret area'.

Definition MapArea_map (area : MapArea) (pt : PageTable) : M Machine (MapArea * PageTable) :=
  mfold (fun '(a, p) vpn => MapArea_map_one a p vpn) (area, pt) (range_vpns (ma_vpn_range area)).

Definition MapArea_unmap (area : MapArea) (pt : PageTable) : M Machine MapArea :=
  mfold (fun a vpn => MapArea_unmap_one a pt vpn) area (range_vpns (ma_vpn_range area)).

(** [copy_data]: page after page; the loop body runs once even for empty
    data. *)
Fixpoint copy_data_loop (fuel : nat) (pt : PageTable) (current_vpn : VirtPageNum) (start : Z)
  (data : list Z) : M Machine unit :=
  match fuel with
  | O => fail NoFuel
  | S fuel' =>
      let len := Z.of_nat (length data) in
      let src := slice (Z.to_nat start) (Z.to_nat (Z.min len (start + PAGE_SIZE) - start)) data in
      o ← gets (fun m => PageTable_translate m pt current_vpn);
      pte ← unwrap o;
      let ppn := PageTableEntry_ppn pte in
      modify (fun m => set_page ppn (page_write (mem_page m ppn) 0 src) m);;
      if len <=? start + PAGE_SIZE then mret tt
      else copy_data_loop fuel' pt (VirtPageNum_step current_vpn) (start + PAGE_SIZE) data
  end.

Definition MapArea_copy_data (area : MapArea) (pt : PageTable) (data : list Z) : M Machine unit :=
  massert (bool_decide (ma_map_type area = Framed));;
  copy_data_loop (S (Z.to_nat (Z.of_nat (length data) / PAGE_SIZE))) pt
    (SimpleRange_get_start (ma_vpn_range area)) 0 data.

(** ** Address spaces *)

Record MemorySet := mkMemorySet {
  ms_page_table : PageTable;
  ms_areas : list MapArea
}.

Definition MMAP_BASE : Z := 0x20000000.
Definition MMAP_END : Z := 0x30000000.

Definition MemorySet_new_bare : M Machine MemorySet :=
  pt ← PageTable_new;
  mret (mkMemorySet pt []).

Definition MemorySet_token (ms : MemorySet) : Z := PageTable_token (ms_page_table ms).

(** [usize::from(VirtAddr::from(vpn))]. *)
Definition vpn_usize (vpn : VirtPageNum) : Z := VirtAddr_into_usize (VirtAddr_from_VirtPageNum vpn).

Definition MemorySet_area_conflicts (ms : MemorySet) (start e : Z) : bool :=
  existsb (fun area =>
    let area_start := vpn_usize (SimpleRange_get_start (ma_vpn_range area)) in
    let area_end := vpn_usize (SimpleRange_get_end (ma_vpn_range area)) in
    (start <? area_end) && (area_start <? e)) (ms_areas ms).

Definition MemorySet_push (ms : MemorySet) (map_area : MapArea) (data : option (list Z))
  : M Machine MemorySet :=
  r ← MapArea_map map_area (ms_page_table ms);
  let '(map_area', pt') := r in
  match data with
  | Some d => MapArea_copy_data map_area' pt' d
  | None => mret tt
  end;;
  mret (mkMemorySet pt' (ms_areas ms ++ [map_area'])).

Definition MemorySet_insert_framed_area (ms : MemorySet) (start_va end_va : VirtAddr)
  (permission : Z) : M Machine MemorySet :=
  area ← unwrap (MapArea_new start_va end_va Framed permission);
  MemorySet_push ms area None.

(** The search for a free range: [None] when the addresses run out. *)
Fixpoint mmap_search (fuel : nat) (ms : MemorySet) (len candidate : Z) : res (option Z) :=
  match fuel with
  | O => Err NoFuel
  | S fuel' =>
      match checked_add candidate len with
      | None => Ok None
      | Some e =>
          if MMAP_END <? e then Ok None
          else if negb (MemorySet_area_conflicts ms candidate e) then Ok (Some candidate)
          else
            match checked_add candidate PAGE_SIZE with
            | None => Ok None
            | Some candidate' => mmap_search fuel' ms len candidate'
            end
      end
  end.

(** One candidate for each page of the region, and the one past its end. *)
Definition mmap_fuel : nat := Z.to_nat ((MMAP_END - MMAP_BASE) / PAGE_SIZE) + 2.

(** The permission [mmap] derives from [prot]; [None] when the mapping could
    be neither read nor executed. *)
Definition mmap_permission (prot : Z) : option Z :=
  let p0 := MapPermission_U in
  let p1 := if negb (Z.land prot 1 =? 0) then perm_or p0 MapPermission_R else p0 in
  let p2 := if negb (Z.land prot 2 =? 0)
            then perm_or p1 (perm_or MapPermission_R MapPermission_W) else p1 in
  let p3 := if negb (Z.land prot 4 =? 0) then perm_or p2 MapPermission_X else p2 in
  if negb (perm_intersects p3 (perm_or MapPermission_R MapPermission_X)) then None else Some p3.

(** The address [mmap] settles on. *)
Definition mmap_choose (ms : MemorySet) (start len : Z) : res (option Z) :=
  if negb (start =? 0) then
    if negb (start mod PAGE_SIZE =? 0) then Ok None
    else
      match checked_add start len with
      | None => Ok None
      | Some e =>
          if (start <? MMAP_BASE) || (MMAP_END <? e) || MemorySet_area_conflicts ms start e
          then Ok None else Ok (Some start)
      end
  else mmap_search mmap_fuel ms len MMAP_BASE.

(** [len.checked_add(PAGE_SIZE - 1)? & !(PAGE_SIZE - 1)]. *)
Definition mmap_round (len : Z) : option Z :=
  (fun l => Z.land l (usize_not (PAGE_SIZE - 1))) <$> checked_add len (PAGE_SIZE - 1).

Definition MemorySet_mmap (ms : MemorySet) (start len prot : Z)
  : M Machine (option Z * MemorySet) :=
  if (len =? 0) || negb (Z.land prot (usize_not 7) =? 0) then mret (None, ms)
  else
    match mmap_round len with
    | None => mret (None, ms)
    | Some len' =>
        match mmap_permission prot with
        | None => mret (None, ms)
        | Some permission =>
            match mmap_choose ms start len' with
            | Err e => fail e
            | Ok None => mret (None, ms)
            | Ok (Some chosen) =>
                ms' ← MemorySet_insert_framed_area ms (VirtAddr_from_usize chosen)
                        (VirtAddr_from_usize (usize_wrap (chosen + len'))) permission;
                mret (Some chosen, ms')
            end
        end
    end.

(** [Vec::remove]. *)
Definition vec_remove {A : Type} (i : nat) (l : list A) : list A := take i l ++ drop (S i) l.

Definition MemorySet_munmap (ms : MemorySet) (start len : Z) : M Machine (bool * MemorySet) :=
  if negb (start mod PAGE_SIZE =? 0) || (len =? 0) || negb (len mod PAGE_SIZE =? 0)
  then mret (false, ms)
  else
    match checked_add start len with
    | None => mret (false, ms)
    | Some e =>
        let start_vpn := VirtAddr_floor (VirtAddr_from_usize start) in
        let end_vpn := VirtAddr_floor (VirtAddr_from_usize e) in
        match position (fun area =>
                 (SimpleRange_get_start (ma_vpn_range area) =? start_vpn) &&
                 (SimpleRange_get_end (ma_vpn_range area) =? end_vpn) &&
                 bool_decide (ma_map_type area = Framed) &&
                 perm_contains (ma_map_perm area) MapPermission_U) (ms_areas ms) with
        | Some index =>
            area ← unwrap (ms_areas ms !! index);
            let ms' := mkMemorySet (ms_page_table ms) (vec_remove index (ms_areas ms)) in
            area' ← MapArea_unmap area (ms_page_table ms');
            drop_trackers (area_trackers area');;
            mret (true, ms')
        | None => mret (false, ms)
        end
    end.

Definition MemorySet_remove_area_with_start_vpn (ms : MemorySet) (start_vpn : VirtPageNum)
  : M Machine MemorySet :=
  match position (fun area => SimpleRange_get_start (ma_vpn_range area) =? start_vpn)
          (ms_areas ms) with
  | Some idx =>
      area ← unwrap (ms_areas ms !! idx);
      area' ← MapArea_unmap area (ms_page_table ms);
      drop_trackers (area_trackers area');;
      mret (mkMemorySet (ms_page_table ms) (vec_remove idx (ms_areas ms)))
  | None => mret ms
  end.

(** ** Building address spaces *)

(** The linker symbols the kernel's own address space is cut along. *)
Record LinkerSymbols := mkSymbols {
  stext : Z; etext : Z; srodata : Z; erodata : Z; sdata : Z; edata : Z;
  sbss_with_stack : Z; ebss : Z; ekernel : Z; strampoline : Z
}.

Section Linked.
Context (sym : LinkerSymbols).

Definition MemorySet_map_trampoline (ms : MemorySet) : M Machine MemorySet :=
  vpn ← unwrap (VirtPageNum_from_VirtAddr (VirtAddr_from_usize TRAMPOLINE));
  ppn ← unwrap (PhysPageNum_from_PhysAddr (PhysAddr_from_usize (strampoline sym)));
  pt' ← PageTable_map (ms_page_table ms) vpn ppn (flags_insert PTE_R PTE_X);
  mret (mkMemorySet pt' (ms_areas ms)).

(** One [push(MapArea::new(a.into(), b.into(), MapType::Identical, perm), None)]. *)
Definition push_identical (ms : MemorySet) (a b perm : Z) : M Machine MemorySet :=
  area ← unwrap (MapArea_new (VirtAddr_from_usize a) (VirtAddr_from_usize b) Identical perm);
  MemorySet_push ms area None.

Definition MemorySet_new_kernel : M Machine MemorySet :=
  let RW := perm_or MapPermission_R MapPermission_W in
  ms ← MemorySet_new_bare;
  ms ← MemorySet_map_trampoline ms;
  ms ← push_identical ms (stext sym) (etext sym) (perm_or MapPermission_R MapPermission_X);
  ms ← push_identical ms (srodata sym) (erodata sym) MapPermission_R;
  ms ← push_identical ms (sdata sym) (edata sym) RW;
  ms ← push_identical ms (sbss_with_stack sym) (ebss sym) RW;
  ms ← push_identical ms (ekernel sym) MEMORY_END RW;
  mfold (fun ms pair => push_identical ms (fst pair) (usize_wrap (fst pair + snd pair)) RW) ms MMIO.

(** What the kernel uses of [xmas_elf]. *)
Record ProgramHeader := mkPh {
  (** [get_type()]: [None] for an error, [Some b] with [b] for [Load] *)
  ph_get_type : option bool;
  ph_virtual_addr : Z; ph_mem_size : Z; ph_offset : Z; ph_file_size : Z;
  ph_is_read : bool; ph_is_write : bool; ph_is_execute : bool
}.
Record ElfFile := mkElf {
  elf_magic : list Z;
  elf_ph_count : Z;
  elf_program_header : Z -> option ProgramHeader;
  elf_entry_point : Z
}.

Context (ElfFile_new : list Z -> option ElfFile).

(** [&input[from..to]]. *)
Definition checked_slice {A : Type} (from to : Z) (l : list A) : option (list A) :=
  if (from <=? to) && (to <=? Z.of_nat (length l))
  then Some (slice (Z.to_nat from) (Z.to_nat (to - from)) l) else None.

Definition elf_permission (ph : ProgramHeader) : Z :=
  let p0 := MapPermission_U in
  let p1 := if ph_is_read ph then perm_or p0 MapPermission_R else p0 in
  let p2 := if ph_is_write ph then perm_or p1 MapPermission_W else p1 in
  if ph_is_execute ph then perm_or p2 MapPermission_X else p2.

(** One program header; the state is the address space so far and
    [max_end_vpn]. *)
Definition load_segment (elf_data : list Z) (elf : ElfFile)
  (st : MemorySet * VirtPageNum) (i : Z) : M Machine (MemorySet * VirtPageNum) :=
  let '(ms, max_end_vpn) := st in
  ph ← unwrap (elf_program_header elf i);
  load ← unwrap (ph_get_type ph);
  if load : bool then
    let start_va := VirtAddr_from_usize (ph_virtual_addr ph) in
    let end_va := VirtAddr_from_usize (usize_wrap (ph_virtual_addr ph + ph_mem_size ph)) in
    map_area ← unwrap (MapArea_new start_va end_va Framed (elf_permission ph));
    let max_end_vpn' := SimpleRange_get_end (ma_vpn_range map_area) in
    data ← unwrap (checked_slice (ph_offset ph) (usize_wrap (ph_offset ph + ph_file_size ph)) elf_data);
    ms' ← MemorySet_push ms map_area (Some data);
    mret (ms', max_end_vpn')
  else mret (ms, max_end_vpn).

(** [from_elf]: the address space, the base of the user stacks and the entry
    point. *)
Definition MemorySet_from_elf (elf_data : list Z) : M Machine (MemorySet * Z * Z) :=
  ms ← MemorySet_new_bare;
  ms ← MemorySet_map_trampoline ms;
  elf ← unwrap (ElfFile_new elf_data);
  massert (bool_decide (elf_magic elf = [0x7f; 0x45; 0x4c; 0x46]));;
  r ← mfold (load_segment elf_data elf) (ms, 0) (seqZ 0 (elf_ph_count elf));
  let '(ms, max_end_vpn) := r in
  let user_stack_base := usize_wrap (vpn_usize max_end_vpn + PAGE_SIZE) in
  mret (ms, user_stack_base, elf_entry_point elf).

(** [copy_from_slice] between two pages. *)
Definition copy_page (dst src : PhysPageNum) : M Machine unit :=
  modify (fun m => set_page dst (mem_page m src) m).

Definition MemorySet_translate (m : Machine) (ms : MemorySet) (vpn : VirtPageNum)
  : option PageTableEntry := PageTable_translate m (ms_page_table ms) vpn.

(** The copying fork. *)
Definition copy_area (user_space ms : MemorySet) (area : MapArea) : M Machine MemorySet :=
  new_area ← unwrap (MapArea_from_another area);
  ms ← MemorySet_push ms new_area None;
  mfor (range_vpns (ma_vpn_range area)) (fun vpn =>
    o ← gets (fun m => MemorySet_translate m user_space vpn);
    src ← unwrap o;
    o ← gets (fun m => MemorySet_translate m ms vpn);
    dst ← unwrap o;
    copy_page (PageTableEntry_ppn dst) (PageTableEntry_ppn src));;
  mret ms.

Definition MemorySet_from_existed_user (user_space : MemorySet) : M Machine MemorySet :=
  ms ← MemorySet_new_bare;
  ms ← MemorySet_map_trampoline ms;
  mfold (copy_area user_space) ms (ms_areas user_space).

(** The copy-on-write fork: one page of an area.  The state is the area and
    the page table of the child; [mark_cow] changes the parent's entries in
    memory, not its [MemorySet]. *)
Definition cow_page (parent_page_table : PageTable) (area : MapArea)
  (st : MapArea * PageTable) (vpn : VirtPageNum) : M Machine (MapArea * PageTable) :=
  let '(new_area, pt) := st in
  o ← gets (fun m => PageTable_translate m parent_page_table vpn);
  parent_pte ← unwrap o;
  let ppn := PageTableEntry_ppn parent_pte in
  let flags := PageTableEntry_flags parent_pte in
  if PageTableEntry_user_accessible parent_pte then
    massert (bool_decide (ma_map_type area = Framed));;
    t ← unwrap (ma_data_frames area !! vpn);
    shared_frame ← FrameTracker_clone t;
    drop_option (ma_data_frames new_area !! vpn);;
    let new_area' := set_frames new_area (<[vpn := shared_frame]> (ma_data_frames new_area)) in
    pt' ← (if PageTableEntry_writable parent_pte || PageTableEntry_is_cow parent_pte
           then PageTable_mark_cow parent_page_table vpn;; PageTable_map_cow pt vpn ppn flags
           else PageTable_map pt vpn ppn flags);
    mret (new_area', pt')
  else
    r ← MapArea_map_one new_area pt vpn;
    let '(new_area', pt') := r in
    o ← gets (fun m => PageTable_translate m pt' vpn);
    dst ← unwrap o;
    copy_page (PageTableEntry_ppn dst) ppn;;
    mret (new_area', pt').

Definition cow_area (user_space ms : MemorySet) (area : MapArea) : M Machine MemorySet :=
  new_area ← unwrap (MapArea_from_another area);
  r ← mfold (cow_page (ms_page_table user_space) area) (new_area, ms_page_table ms)
        (range_vpns (ma_vpn_range area));
  let '(new_area', pt') := r in
  mret (mkMemorySet pt' (ms_areas ms ++ [new_area'])).

Definition MemorySet_from_existed_user_cow (user_space : MemorySet) : M Machine MemorySet :=
  ms ← MemorySet_new_bare;
  ms ← MemorySet_map_trampoline ms;
  mfold (cow_area user_space) ms (ms_areas user_space).

End Linked.

Definition area_contains (vpn : VirtPageNum) (area : MapArea) : bool :=
  (SimpleRange_get_start (ma_vpn_range area) <=? vpn) &&
  (vpn <? SimpleRange_get_end (ma_vpn_range area)).

Definition MemorySet_handle_cow_fault (ms : MemorySet) (fault_va : VirtAddr)
  : M Machine (bool * MemorySet) :=
  let vpn := VirtAddr_floor fault_va in
  o ← gets (fun m => PageTable_translate m (ms_page_table ms) vpn);
  match o with
  | None => mret (false, ms)
  | Some pte =>
      if PageTableEntry_is_valid pte && PageTableEntry_user_accessible pte && PageTableEntry_is_cow pte
      then
        let old_ppn := PageTableEntry_ppn pte in
        count ← frame_ref_count old_ppn;
        if count =? 1 then
          PageTable_resolve_cow (ms_page_table ms) vpn old_ppn;;
          mret (true, ms)
        else
          o ← frame_alloc;
          new_frame ← unwrap o;
          let new_ppn := ft_ppn new_frame in
          copy_page new_ppn old_ppn;;
          match position (area_contains vpn) (ms_areas ms) with
          | None => FrameTracker_drop new_frame;; mret (false, ms)
          | Some i =>
              area ← unwrap (ms_areas ms !! i);
              if bool_decide (ma_map_type area = Framed) then
                let area' := set_frames area (<[vpn := new_frame]> (ma_data_frames area)) in
                old_frame ← unwrap (ma_data_frames area !! vpn);
                PageTable_resolve_cow (ms_page_table ms) vpn new_ppn;;
                FrameTracker_drop old_frame;;
                mret (true, mkMemorySet (ms_page_table ms) (<[i := area']> (ms_areas ms)))
              else FrameTracker_drop new_frame;; mret (false, ms)
          end
      else mret (false, ms)
  end.

Fixpoint ensure_private_loop (fuel : nat) (ms : MemorySet) (vpn end_vpn : VirtPageNum)
  : M Machine (bool * MemorySet) :=
  match fuel with
  | O => fail NoFuel
  | S fuel' =>
      if vpn <? end_vpn then
        o ← gets (fun m => PageTable_translate m (ms_page_table ms) vpn);
        match o with
        | None => mret (false, ms)
        | Some pte =>
            if PageTableEntry_is_valid pte && PageTableEntry_user_accessible pte then
              if PageTableEntry_is_cow pte then
                r ← MemorySet_handle_cow_fault ms (VirtAddr_from_VirtPageNum vpn);
                let '(resolved, ms') := r in
                if resolved : bool then ensure_private_loop fuel' ms' (VirtPageNum_step vpn) end_vpn
                else mret (false, ms')
              else if negb (PageTableEntry_writable pte) then mret (false, ms)
              else ensure_private_loop fuel' ms (VirtPageNum_step vpn) end_vpn
            else mret (false, ms)
        end
      else mret (true, ms)
  end.

Definition MemorySet_ensure_private_range (ms : MemorySet) (start_va : VirtAddr) (len : Z)
  : M Machine (bool * MemorySet) :=
  if len =? 0 then mret (true, ms)
  else
    let start := VirtAddr_into_usize start_va in
    match checked_add start len with
    | None => mret (false, ms)
    | Some e =>
        let vpn := VirtAddr_floor start_va in
        let end_vpn := VirtAddr_ceil (VirtAddr_from_usize e) in
        ensure_private_loop (S (Z.to_nat (end_vpn - vpn))) ms vpn end_vpn
    end.

(** [recycle_data_pages] drops the areas and keeps the tables. *)
Definition MemorySet_recycle_data_pages (ms : MemorySet) : M Machine MemorySet :=
  mfor (ms_areas ms) (fun area : MapArea => drop_trackers (area_trackers area));;
  mret (mkMemorySet (ms_page_table ms) []).

(** The end of the life of an address space: its fields are dropped in
    order, the tables first. *)
Definition MemorySet_drop (ms : MemorySet) : M Machine unit :=
  drop_trackers (pt_frames (ms_page_table ms));;
  mfor (ms_areas ms) (fun area : MapArea => drop_trackers (area_trackers area)).

(** ** Ownership *)

(** A page table among the frames of the machine: its own tables, and the
    trackers [o] that everything else in the kernel holds. *)
Definition pt_owns (base : Z) (m : Machine) (pt : PageTable) (o : list FrameTracker) : Prop :=
  exists lab, pt_inv base m (pt_frames pt ++ o) pt lab.

(** The contents of the frames behind a list of trackers. *)
Definition same_pages (m m' : Machine) (o : list FrameTracker) : Prop :=
  forall t, t ∈ o -> mem_page m' (ft_ppn t) = mem_page m (ft_ppn t).

Section Ownership.
Context (base : Z).
Implicit Types (m : Machine) (pt : PageTable) (o ts : list FrameTracker).

Lemma owners_app p l1 l2 : owners p (l1 ++ l2) = owners p l1 + owners p l2.
Proof. unfold owners. rewrite filter_app, length_app. lia. Qed.

Lemma owners_nonneg p l : 0 <= owners p l.
Proof. unfold owners. lia. Qed.

Lemma pt_inv_perm m ts ts' pt lab :
  ts ≡ₚ ts' -> pt_inv base m ts pt lab -> pt_inv base m ts' pt lab.
Proof.
  intros Hp [Ht Hw Ho Hd]. split; [by eapply tracked_perm|done| |done].
  intros t Hin. rewrite <- (owners_perm _ _ _ Hp). auto.
Qed.

Lemma pt_owns_perm m pt o o' : o ≡ₚ o' -> pt_owns base m pt o -> pt_owns base m pt o'.
Proof. intros Hp [lab H]. exists lab. eapply pt_inv_perm; [|done]. by rewrite Hp. Qed.

#[local] Instance pt_owns_proper m pt : Proper ((≡ₚ) ==> iff) (pt_owns base m pt).
Proof. intros o o' Hp. split; apply pt_owns_perm; [done|by symmetry]. Qed.

Lemma pt_owns_tracked m pt o : pt_owns base m pt o -> tracked base m (pt_frames pt ++ o).
Proof. intros [lab H]. apply H. Qed.

(** A table frame has no tracker outside the table. *)
Lemma pt_owns_sep m pt o t : pt_owns base m pt o -> t ∈ o -> ft_ppn t ∉ ft_ppn <$> pt_frames pt.
Proof.
  intros [lab H] Ht (t' & E & Ht')%list_elem_of_fmap.
  pose proof (pi_owned _ _ _ _ _ H t' Ht') as Ho. rewrite owners_app, <- E in Ho.
  pose proof (owners_pos (ft_ppn t) (pt_frames pt) t' Ht' (eq_sym E)).
  pose proof (owners_pos (ft_ppn t) o t Ht eq_refl). lia.
Qed.

(** The mapping depends on the table frames only. *)
Lemma pt_inv_stable m m' ts ts' pt lab :
  pt_inv base m ts pt lab -> tracked base m' ts' ->
  (forall t, t ∈ pt_frames pt -> mem_page m' (ft_ppn t) = mem_page m (ft_ppn t) /\
                                 owners (ft_ppn t) ts' = 1) ->
  pt_inv base m' ts' pt lab /\ forall vpn, mapped m' pt vpn = mapped m pt vpn.
Proof.
  intros [Ht Hw Ho Hd] Ht' Hs.
  assert (forall q j, is_Some (lab !! q) -> read_pte m' q j = read_pte m q j) as Hr.
  { intros q j (t & -> & Hin)%Hd%list_elem_of_fmap. apply read_pte_page. by apply Hs. }
  split.
  - split; [done| |intros t Hin; by apply Hs|done]. split; [apply Hw|].
    intros p path i Hp Hl Hi. rewrite Hr by eauto. by apply Hw.
  - intros vpn. rewrite !mapped_translate. unfold PageTable_translate.
    destruct (indexes_ok vpn) as [Hok Hlen].
    assert (PageTable_find_pte m' pt vpn = PageTable_find_pte m pt vpn) as E.
    { apply (find_pte_loop_agree lab m _ (pt_root_ppn pt) (VirtPageNum_indexes vpn) []);
        [done|apply Hw|by rewrite Hlen|done|]. intros q lq j Hq _ _. apply Hr. eauto. }
    rewrite E. destruct (PageTable_find_pte m pt vpn) as [[q i]|] eqn:Hf; [|done]. cbn.
    destruct (find_pte_label _ _ _ _ _ _ Hw Hf) as (lq & Hq & _ & _). rewrite Hr by eauto. done.
Qed.

Lemma pt_owns_stable m m' pt o o' :
  pt_owns base m pt o -> tracked base m' (pt_frames pt ++ o') ->
  same_pages m m' (pt_frames pt) ->
  (forall t, t ∈ pt_frames pt -> owners (ft_ppn t) o' = 0) ->
  pt_owns base m' pt o' /\ forall vpn, mapped m' pt vpn = mapped m pt vpn.
Proof.
  intros [lab H] Ht Hs Ho.
  destruct (pt_inv_stable m m' _ (pt_frames pt ++ o') pt lab H Ht) as [H1 H2].
  - intros t Hin. split; [by apply Hs|]. rewrite owners_app, Ho by done.
    pose proof (pi_owned _ _ _ _ _ H t Hin) as H1. rewrite owners_app in H1.
    pose proof (owners_pos (ft_ppn t) (pt_frames pt) t Hin eq_refl).
    pose proof (owners_nonneg (ft_ppn t) o). lia.
  - split; [by exists lab|done].
Qed.

Lemma pt_owns_other m pt o t : pt_owns base m pt o -> t ∈ pt_frames pt -> owners (ft_ppn t) o = 0.
Proof.
  intros [lab H] Hin. pose proof (pi_owned _ _ _ _ _ H t Hin) as H1. rewrite owners_app in H1.
  pose proof (owners_pos (ft_ppn t) (pt_frames pt) t Hin eq_refl).
  pose proof (owners_nonneg (ft_ppn t) o). lia.
Qed.

(** Allocating, sharing and dropping frames next to a page table. *)
Lemma wp_alloc_beside m pt o :
  pt_owns base m pt o -> 0 < frames_free (m_allocator m) ->
  wp frame_alloc (fun r m' => exists t, r = Some t /\ pt_owns base m' pt (t :: o) /\
    owners (ft_ppn t) (pt_frames pt ++ o) = 0 /\ 0 <= ft_ppn t < 2 ^ 44 /\
    (forall vpn, mapped m' pt vpn = mapped m pt vpn) /\
    mem_page m' (ft_ppn t) = page_zero /\ same_pages m m' (pt_frames pt ++ o) /\
    frames_free (m_allocator m') = frames_free (m_allocator m) - 1) m.
Proof.
  intros Hpt Hfree. pose proof (pt_owns_tracked _ _ _ Hpt) as Htr.
  pose proof (fa_bounds _ _ (tracked_inv _ _ _ Htr)) as Hb.
  eapply wp_mono; [by apply wp_frame_alloc|]. cbn beta iota. intros [t|] m1; [|intros [-> ?]; lia].
  intros (Ht1 & H0 & Hr & Hfr & Hm). exists t.
  assert (same_pages m m1 (pt_frames pt ++ o)) as Hs.
  { intros t' Ht'. unfold mem_page. rewrite Hm, lookup_insert_ne; [done|].
    intros E. pose proof (owners_pos (ft_ppn t) _ t' Ht' (eq_sym E)). lia. }
  destruct (pt_owns_stable m m1 pt o (t :: o) Hpt) as [Hpt' Hmap].
  - eapply tracked_perm; [|done]. apply Permutation_middle.
  - intros t' Ht'. apply Hs, elem_of_app. by left.
  - intros t' Ht'. rewrite owners_cons, (pt_owns_other _ _ _ _ Hpt Ht'). case_decide as E; [|done].
    rewrite owners_app, E in H0. pose proof (owners_pos _ _ _ Ht' eq_refl).
    pose proof (owners_nonneg (ft_ppn t') o). lia.
  - split_and!; auto; try lia. unfold mem_page. by rewrite Hm, lookup_insert_eq.
Qed.

Lemma wp_drop_beside m pt t o :
  pt_owns base m pt (t :: o) ->
  wp (FrameTracker_drop t) (fun _ m' => pt_owns base m' pt o /\
    (forall vpn, mapped m' pt vpn = mapped m pt vpn) /\ m_mem m' = m_mem m /\
    frames_free (m_allocator m) <= frames_free (m_allocator m')) m.
Proof.
  intros Hpt. pose proof (pt_owns_tracked _ _ _ Hpt) as Htr.
  eapply wp_mono; [eapply (wp_FrameTracker_drop base m _ (pt_frames pt ++ o)); [done|]|].
  { symmetry. apply Permutation_middle. }
  cbn beta. intros _ m' (Ht' & Hm & Hf).
  destruct (pt_owns_stable m m' pt (t :: o) o Hpt Ht') as [Hpt' Hmap].
  - intros t' _. unfold mem_page. by rewrite Hm.
  - intros t' Hin. pose proof (pt_owns_other _ _ _ _ Hpt Hin) as H. rewrite owners_cons in H.
    pose proof (owners_nonneg (ft_ppn t') o). case_decide; lia.
  - done.
Qed.

Lemma wp_drop_trackers m pt ts : forall o, pt_owns base m pt (ts ++ o) ->
  wp (drop_trackers ts) (fun _ m' => pt_owns base m' pt o /\
    (forall vpn, mapped m' pt vpn = mapped m pt vpn) /\ m_mem m' = m_mem m /\
    frames_free (m_allocator m) <= frames_free (m_allocator m')) m.
Proof.
  revert m. induction ts as [|t ts IH]; intros m o Hpt; unfold drop_trackers; cbn [mfor]; wp_simpl.
  { split_and!; try done; lia. }
  eapply wp_mono; [by apply wp_drop_beside|]. cbn beta. intros _ m1 (H1 & H2 & H3 & H4).
  eapply wp_mono; [by apply IH|]. cbn beta. intros _ m2 (G1 & G2 & G3 & G4).
  split_and!; [done| |congruence|lia]. intros vpn. by rewrite G2, H2.
Qed.

(** An entry-storing operation, seen from outside the tables. *)
Lemma pt_effect_owns m pt o vpn e m' pt' new :
  pt_effect base m (pt_frames pt ++ o) pt vpn e m' pt' new ->
  pt_owns base m' pt' o /\ same_pages m m' o.
Proof.
  intros [[lab H] _ Hf _ Hmem _ _]. assert (pt_owns base m' pt' o) as Hpt.
  { exists lab. eapply pt_inv_perm; [|done]. rewrite Hf. rewrite !app_assoc.
    apply Permutation_app_tail, Permutation_app_comm. }
  split; [done|]. intros t Ht. apply Hmem. by eapply pt_owns_sep.
Qed.

End Ownership.

(** ** Mapping and unmapping an area *)

Lemma area_trackers_map area : area_trackers area ≡ₚ snd <$> map_to_list (ma_data_frames area).
Proof. unfold area_trackers. by rewrite merge_sort_Permutation. Qed.

Lemma area_trackers_insert area vpn t :
  ma_data_frames area !! vpn = None ->
  area_trackers (set_frames area (<[vpn := t]> (ma_data_frames area))) ≡ₚ t :: area_trackers area.
Proof. intros Hn. rewrite !area_trackers_map. cbn. by rewrite map_to_list_insert. Qed.

Lemma area_trackers_delete area vpn t :
  ma_data_frames area !! vpn = Some t ->
  area_trackers area ≡ₚ t :: area_trackers (set_frames area (delete vpn (ma_data_frames area))).
Proof.
  intros Hs. rewrite !area_trackers_map. cbn.
  rewrite <- (map_to_list_delete (ma_data_frames area) vpn t Hs). done.
Qed.

Lemma elem_of_area_trackers area t :
  t ∈ area_trackers area <-> exists vpn, ma_data_frames area !! vpn = Some t.
Proof.
  rewrite area_trackers_map, list_elem_of_fmap. split.
  - intros ([vpn t'] & -> & H%elem_of_map_to_list). eauto.
  - intros [vpn H]. exists (vpn, t). by rewrite elem_of_map_to_list.
Qed.

Definition in_range (r : SimpleRange) (vpn : VirtPageNum) : Prop := range_l r <= vpn < range_r r.

Definition range_ok (r : SimpleRange) : Prop := 0 <= range_l r <= range_r r /\ range_r r <= 2 ^ 27.

Section Areas.
Context (base : Z).

Lemma wp_map_one_framed m pt o area vpn :
  pt_owns base m pt (area_trackers area ++ o) -> ma_map_type area = Framed ->
  0 <= vpn < 2 ^ 27 -> mapped m pt vpn = None -> ma_data_frames area !! vpn = None ->
  is_byte (ma_map_perm area) -> 3 <= frames_free (m_allocator m) ->
  wp (MapArea_map_one area pt vpn) (fun r m' => exists t,
    fst r = set_frames area (<[vpn := t]> (ma_data_frames area)) /\
    pt_owns base m' (snd r) (area_trackers (fst r) ++ o) /\
    mapping_eq (mapped m' (snd r)) (map_update (mapped m pt) vpn
      (Some (PageTableEntry_new (ft_ppn t) (flags_insert (ma_map_perm area) PTE_V)))) /\
    mem_page m' (ft_ppn t) = page_zero /\
    same_pages m m' (area_trackers area ++ o) /\
    0 <= ft_ppn t < 2 ^ 44 /\ owners (ft_ppn t) (area_trackers area ++ o) = 0 /\
    frames_free (m_allocator m) - 3 <= frames_free (m_allocator m')) m.
Proof.
  intros Hpt Hty Hvpn Hnone Hdf Hperm Hfree. unfold MapArea_map_one. rewrite Hty. wp_simpl.
  eapply wp_mono; [apply (wp_alloc_beside base m pt _ Hpt); lia|]. cbn beta iota.
  intros r m1 (t & -> & Hpt1 & Hown & Hr & Hmap & Hz & Hs & Hfr). wp_simpl. exists t. split; [done|].
  rewrite Hdf. cbn [drop_option]. wp_simpl.
  unfold PTEFlags_from_bits. cbn [ma_map_perm set_frames].
  rewrite bool_decide_eq_true_2 by done. exists (ma_map_perm area). split; [done|].
  pose proof Hpt1 as [lab Hinv]. wp_simpl.
  eapply wp_mono; [eapply (wp_map base m1 _ pt lab vpn Hinv Hvpn (ft_ppn t)); auto; [lia|by rewrite Hmap]|].
  cbn beta. intros pt' m2 (new & He). wp_simpl. exists t. cbn [fst snd].
  destruct (pt_effect_owns base m1 pt _ _ _ _ _ _ He) as [Hpt2 Hs2].
  assert (area_trackers (set_frames area (<[vpn := t]> (ma_data_frames area))) ++ o
    ≡ₚ t :: area_trackers area ++ o) as Hperm' by (by rewrite area_trackers_insert).
  rewrite owners_app in Hown. pose proof (owners_nonneg (ft_ppn t) (pt_frames pt)).
  pose proof (owners_nonneg (ft_ppn t) (area_trackers area ++ o)).
  split_and!; auto; try lia.
  - eapply pt_owns_perm; [symmetry; exact Hperm'|done].
  - etrans; [apply He|]. apply (map_update_proper vpn). intros v _. apply Hmap.
  - rewrite (Hs2 t) by left. done.
  - intros t' Ht'. rewrite (Hs2 t') by (by right). apply Hs, elem_of_app. by right.
  - rewrite (pe_free _ _ _ _ _ _ _ _ _ He). pose proof (pe_new _ _ _ _ _ _ _ _ _ He). lia.
Qed.

(** The state of an area while its pages are mapped one after another. *)
Record map_progress (m : Machine) (pt : PageTable) (o : list FrameTracker) (area : MapArea)
  (done : list Z) (area' : MapArea) (pt' : PageTable) (m' : Machine) : Prop := {
  mp_area : area' = set_frames area (ma_data_frames area');
  mp_owns : pt_owns base m' pt' (area_trackers area' ++ o);
  mp_dom vpn : is_Some (ma_data_frames area' !! vpn) <-> vpn ∈ done;
  mp_page vpn t : ma_data_frames area' !! vpn = Some t ->
    mapped m' pt' vpn = Some (PageTableEntry_new (ft_ppn t) (flags_insert (ma_map_perm area) PTE_V)) /\
    mem_page m' (ft_ppn t) = page_zero /\ 0 <= ft_ppn t < 2 ^ 44 /\
    owners (ft_ppn t) (area_trackers area' ++ o) = 1;
  mp_other vpn : 0 <= vpn < 2 ^ 27 -> vpn ∉ done -> mapped m' pt' vpn = mapped m pt vpn;
  mp_same : same_pages m m' o;
  mp_free : frames_free (m_allocator m) - 3 * Z.of_nat (length done) <= frames_free (m_allocator m')
}.

Lemma wp_MapArea_map m pt o area :
  pt_owns base m pt o -> ma_map_type area = Framed -> ma_data_frames area = ∅ ->
  range_ok (ma_vpn_range area) -> is_byte (ma_map_perm area) ->
  (forall vpn, in_range (ma_vpn_range area) vpn -> mapped m pt vpn = None) ->
  3 * (range_r (ma_vpn_range area) - range_l (ma_vpn_range area)) <= frames_free (m_allocator m) ->
  wp (MapArea_map area pt) (fun r m' =>
    map_progress m pt o area (range_vpns (ma_vpn_range area)) (fst r) (snd r) m') m.
Proof.
  intros Hpt Hty Hempty [Hr1 Hr2] Hperm Hnone Hfree. unfold MapArea_map.
  destruct (ma_vpn_range area) as [l r] eqn:Er. cbn [range_l range_r] in *. rewrite range_vpns_seqZ by lia.
  apply (wp_mfold _ (seqZ l (r - l)) (fun d (st : MapArea * PageTable) m' =>
    map_progress m pt o area d (fst st) (snd st) m')).
  - assert (area_trackers area = []) as Hat.
    { apply Permutation_nil_r. rewrite area_trackers_map, Hempty. by rewrite map_to_list_empty. }
    split; cbn [fst snd]; rewrite ?Hat, ?Hempty; try done; [| |lia].
    + destruct area; cbn in *. by subst.
    + intros vpn. rewrite lookup_empty. split; [by intros []|by intros Hv%elem_of_nil].
  - intros d vpn [a p] m1 Hpre [Ha Ho Hd Hp Hoth Hs Hf]. cbn [fst snd] in *.
    assert (vpn ∈ seqZ l (r - l) /\ (vpn ∉ d) /\ (length d < Z.to_nat (r - l))%nat) as (Hin & Hnin & Hlen).
    { destruct Hpre as [k Hk]. pose proof (NoDup_seqZ l (r - l)) as Hnd. rewrite Hk in *.
      rewrite <- app_assoc, NoDup_app in Hnd. destruct Hnd as (_ & Hnd & _). split_and!.
      - rewrite !elem_of_app. left. right. left.
      - intros Hv. apply (Hnd _ Hv). left.
      - rewrite <- (length_seqZ l (r - l)), Hk, !length_app. cbn. lia. }
    apply elem_of_seqZ in Hin. specialize (Hnone vpn). unfold in_range in Hnone. cbn in Hnone.
    assert (ma_data_frames a !! vpn = None) as Hdf.
    { apply eq_None_not_Some. rewrite Hd. done. }
    assert (ma_map_type a = Framed /\ ma_map_perm a = ma_map_perm area) as [Hta Hpa] by (by rewrite Ha).
    eapply wp_mono; [apply (wp_map_one_framed m1 p o a vpn); auto; [lia| |by rewrite Hpa|lia]|].
    { rewrite Hoth by (done || lia). apply Hnone. lia. }
    cbn beta. intros [a' p'] m2 (t & -> & Ho2 & Hmap & Hz & Hs2 & Hrt & Hown & Hf2). cbn [fst snd] in *.
    assert (area_trackers (set_frames a (<[vpn:=t]> (ma_data_frames a))) ++ o
      ≡ₚ t :: area_trackers a ++ o) as Hperm' by (by rewrite area_trackers_insert).
    split; auto.
    + rewrite Ha. done.
    + intros v. cbn. rewrite elem_of_app, list_elem_of_singleton, <- Hd, lookup_insert.
      case_decide; subst; [split; eauto|]. split; [by left|]. intros [?|?]; [done|congruence].
    + intros v t'. cbn [ma_data_frames set_frames]. rewrite lookup_insert, (owners_perm _ _ _ Hperm').
      rewrite owners_cons. case_decide as E.
      * intros [= <-]. subst v. rewrite (Hmap vpn) by lia. unfold map_update.
        rewrite Hown, !decide_True by done. by rewrite Hpa.
      * intros Hv. destruct (Hp v t' Hv) as (H1 & H2 & H3 & H4).
        assert (t' ∈ area_trackers a) as Hin' by (apply elem_of_area_trackers; eauto).
        assert (ft_ppn t <> ft_ppn t') as Hne.
        { intros Eq. rewrite Eq, H4 in Hown. done. }
        rewrite (Hmap v). 2:{ assert (v ∈ d) as Hvd by (apply Hd; eauto).
          destruct Hpre as [k Hk]. assert (v ∈ seqZ l (r - l)) as ?%elem_of_seqZ; [|lia].
          rewrite Hk, !elem_of_app. auto. }
        unfold map_update. rewrite decide_False, decide_False by congruence.
        rewrite (Hs2 t') by (apply elem_of_app; by left). split_and!; auto; lia.
    + intros v Hv Hni. rewrite elem_of_app, list_elem_of_singleton in Hni.
      rewrite (Hmap v) by done. unfold map_update. rewrite decide_False by tauto. apply Hoth; tauto.
    + intros t' Ht'. rewrite (Hs2 t') by (apply elem_of_app; by right). by apply Hs.
    + rewrite length_app. cbn. lia.
Qed.

(** A framed area whose pages are mapped to its own frames. *)
Record area_inv (m : Machine) (pt : PageTable) (area : MapArea) : Prop := {
  ai_framed : ma_map_type area = Framed;
  ai_range : range_ok (ma_vpn_range area);
  ai_dom vpn : is_Some (ma_data_frames area !! vpn) <-> in_range (ma_vpn_range area) vpn;
  ai_page vpn t : ma_data_frames area !! vpn = Some t ->
    exists e, mapped m pt vpn = Some e /\ PageTableEntry_ppn e = ft_ppn t
}.

Record unmap_progress (m : Machine) (pt : PageTable) (o : list FrameTracker) (area : MapArea)
  (done : list Z) (area' : MapArea) (m' : Machine) : Prop := {
  up_area : area' = set_frames area (ma_data_frames area');
  up_owns : pt_owns base m' pt (area_trackers area' ++ o);
  up_frames vpn : ma_data_frames area' !! vpn =
    if decide (vpn ∈ done) then None else ma_data_frames area !! vpn;
  up_mapped vpn : 0 <= vpn < 2 ^ 27 -> mapped m' pt vpn =
    if decide (vpn ∈ done) then None else mapped m pt vpn;
  up_same : same_pages m m' o;
  up_free : frames_free (m_allocator m) <= frames_free (m_allocator m')
}.

(** The position of a loop over a range. *)
Lemma seqZ_prefix l n d x : (d ++ [x]) `prefix_of` seqZ l n -> x ∈ seqZ l n /\ (x ∉ d) /\ forall y, y ∈ d -> y ∈ seqZ l n.
Proof.
  intros [k Hk]. pose proof (NoDup_seqZ l n) as Hnd. rewrite Hk in *.
  rewrite <- app_assoc, NoDup_app in Hnd. destruct Hnd as (_ & Hnd & _). split_and!.
  - rewrite !elem_of_app. left. right. left.
  - intros Hv. apply (Hnd _ Hv). left.
  - intros y Hy. rewrite !elem_of_app. auto.
Qed.

Lemma wp_unmap_one m pt o area vpn t :
  pt_owns base m pt (area_trackers area ++ o) -> ma_map_type area = Framed ->
  0 <= vpn < 2 ^ 27 -> ma_data_frames area !! vpn = Some t -> is_Some (mapped m pt vpn) ->
  wp (MapArea_unmap_one area pt vpn) (fun area' m' =>
    area' = set_frames area (delete vpn (ma_data_frames area)) /\
    pt_owns base m' pt (area_trackers area' ++ o) /\
    mapping_eq (mapped m' pt) (map_update (mapped m pt) vpn None) /\
    same_pages m m' o /\
    frames_free (m_allocator m) <= frames_free (m_allocator m')) m.
Proof.
  intros Hpt Hty Hvpn Hdf [e He]. unfold MapArea_unmap_one.
  rewrite bool_decide_eq_true_2 by done. rewrite Hdf. cbn [drop_option]. wp_simpl.
  eapply wp_mono; [apply (wp_drop_beside base m pt t
    (area_trackers (set_frames area (delete vpn (ma_data_frames area))) ++ o))|].
  { eapply pt_owns_perm; [|exact Hpt]. by rewrite (area_trackers_delete area vpn t). }
  cbn beta. intros _ m1 (Hpt1 & Hmap & Hmem & Hfr). wp_simpl. pose proof Hpt1 as [lab Hinv].
  eapply wp_mono; [eapply (wp_unmap base m1 _ pt lab vpn Hinv Hvpn e); by rewrite Hmap|].
  cbn beta. intros _ m2 He2. wp_simpl.
  destruct (pt_effect_owns base m1 pt _ _ _ _ _ _ He2) as [Hpt2 Hs2]. split_and!; auto.
  - etrans; [apply He2|]. apply (map_update_proper vpn). intros v _. apply Hmap.
  - intros t' Ht'. rewrite (Hs2 t') by (apply elem_of_app; by right). unfold mem_page. by rewrite Hmem.
  - rewrite (pe_free _ _ _ _ _ _ _ _ _ He2). cbn. lia.
Qed.

Lemma wp_MapArea_unmap m pt o area :
  pt_owns base m pt (area_trackers area ++ o) -> area_inv m pt area ->
  wp (MapArea_unmap area pt) (fun area' m' =>
    unmap_progress m pt o area (range_vpns (ma_vpn_range area)) area' m') m.
Proof.
  intros Hpt [Hty Hrng Hdom Hpage]. unfold MapArea_unmap.
  destruct (ma_vpn_range area) as [l r] eqn:Er. destruct Hrng as [Hr1 Hr2].
  cbn [range_l range_r] in *. rewrite range_vpns_seqZ by lia.
  apply (wp_mfold _ (seqZ l (r - l)) (fun d (a : MapArea) m' => unmap_progress m pt o area d a m')).
  - split; try done. destruct area; cbn in *. by subst.
  - intros d vpn a m1 Hpre [Ha Ho Hf Hm Hs Hfr].
    destruct (seqZ_prefix _ _ _ _ Hpre) as (Hin%elem_of_seqZ & Hni & Hd).
    destruct (Hdom vpn) as [_ [t Ht]]; [unfold in_range; cbn; lia|].
    assert (ma_map_type a = Framed) as Hta by (by rewrite Ha).
    eapply wp_mono; [apply (wp_unmap_one m1 pt o a vpn t); auto; [lia| |]|].
    + by rewrite Hf, decide_False.
    + destruct (Hpage vpn t Ht) as (e & He & _). rewrite Hm, decide_False by (done || lia). eauto.
    + cbn beta. intros a' m2 (-> & Ho2 & Hm2 & Hs2 & Hfr2). split; auto; [by rewrite Ha| | | |lia].
      * intros v. cbn. rewrite lookup_delete, Hf. repeat case_decide; set_solver.
      * intros v Hv. rewrite (Hm2 v Hv). unfold map_update. rewrite Hm by done.
        repeat case_decide; set_solver.
      * intros t' Ht'. rewrite Hs2 by done. by apply Hs.
Qed.
End Areas.

(** ** The choice of an address *)

Lemma vpn_usize_spec vpn : 0 <= vpn <= 2 ^ 27 ->
  (vpn < 2 ^ 26 -> vpn_usize vpn = vpn * PAGE_SIZE) /\ (2 ^ 26 <= vpn -> 2 ^ 38 <= vpn_usize vpn).
Proof.
  intros Hv. destruct (Z.eq_dec vpn (2 ^ 27)) as [->|]; [split; [lia|by vm_compute]|].
  unfold vpn_usize. rewrite VirtAddr_from_VirtPageNum_small by lia.
  rewrite VirtAddr_into_usize_spec by (unfold PAGE_SIZE; lia). unfold PAGE_SIZE. case_zb; lia.
Qed.

Lemma conflicts_false ms start e area vpn :
  MemorySet_area_conflicts ms start e = false -> area ∈ ms_areas ms ->
  range_ok (ma_vpn_range area) -> in_range (ma_vpn_range area) vpn ->
  0 <= start -> e <= 2 ^ 38 -> start <= vpn * PAGE_SIZE -> (vpn + 1) * PAGE_SIZE <= e -> False.
Proof.
  intros Hc Hin [Hr1 Hr2] [Hv1 Hv2] Hs He H1 H2. apply not_true_iff_false in Hc. apply Hc.
  unfold MemorySet_area_conflicts. apply existsb_exists. exists area.
  split; [by apply list_elem_of_In|]. unfold SimpleRange_get_start, SimpleRange_get_end.
  destruct (ma_vpn_range area) as [l r]. cbn in *. unfold PAGE_SIZE in *.
  destruct (vpn_usize_spec l ltac:(lia)) as [Hl _], (vpn_usize_spec r ltac:(lia)) as [Hra Hrb].
  unfold PAGE_SIZE in *. rewrite Hl by lia. apply andb_true_iff. split; apply Z.ltb_lt; [|lia].
  destruct (Z.lt_ge_cases r (2 ^ 26)); [rewrite Hra by lia; lia|]. specialize (Hrb ltac:(lia)). lia.
Qed.

Lemma mmap_round_spec len : is_usize len ->
  mmap_round len = if len + 4095 <? 2 ^ 64 then Some ((len + 4095) / 4096 * 4096) else None.
Proof.
  intros Hl. unfold mmap_round, checked_add, PAGE_SIZE. change (0x1000 - 1) with 4095.
  destruct (Z.ltb_spec (len + 4095) (2 ^ 64)); [|done]. cbn. f_equal.
  change (usize_not 4095) with (Z.ldiff (Z.ones 64) (Z.ones 12)).
  unfold is_usize in *. set (x := len + 4095) in *.
  assert (Z.land x (Z.ldiff (Z.ones 64) (Z.ones 12)) = Z.ldiff x (Z.ones 12)) as ->.
  { apply Z.bits_inj'. intros i Hi. rewrite Z.land_spec, !Z.ldiff_spec.
    destruct (Z.lt_ge_cases i 64).
    - rewrite (Z.ones_spec_low 64) by lia. done.
    - rewrite (testbit_small x 64) by lia. done. }
  rewrite Z.ldiff_ones_r, Z.shiftl_mul_pow2, Z.shiftr_div_pow2 by done. done.
Qed.

(** [mmap] without a requested address: the first page-aligned address of
    the region at which the mapping fits. *)
Definition mmap_fits (ms : MemorySet) (len a : Z) : Prop :=
  a + len <= MMAP_END /\ MemorySet_area_conflicts ms a (a + len) = false.

Lemma mmap_search_spec ms len fuel : forall c,
  0 <= len < 2 ^ 64 -> MMAP_BASE <= c <= MMAP_END + PAGE_SIZE ->
  (MMAP_END - c) / PAGE_SIZE + 2 <= Z.of_nat fuel ->
  exists r, mmap_search fuel ms len c = Ok r /\
    match r with
    | Some a => exists k, 0 <= k /\ a = c + k * PAGE_SIZE /\ mmap_fits ms len a /\
        forall j, 0 <= j < k -> ~ mmap_fits ms len (c + j * PAGE_SIZE)
    | None => forall j, 0 <= j -> ~ mmap_fits ms len (c + j * PAGE_SIZE)
    end.
Proof.
  induction fuel as [|fuel IH]; intros c Hl Hc Hf.
  { unfold MMAP_BASE, MMAP_END, PAGE_SIZE in *. exfalso. zdiv_lia. }
  cbn [mmap_search]. unfold checked_add at 1.
  assert (forall P : Prop, MMAP_END < c + len -> (forall j, 0 <= j -> ~ mmap_fits ms len (c + j * PAGE_SIZE))) as Hnofit.
  { intros _ Hgt j Hj [Hfit _]. unfold PAGE_SIZE in *. lia. }
  destruct (Z.ltb_spec (c + len) (2 ^ 64)).
  2:{ exists None. split; [done|]. apply (Hnofit True). unfold MMAP_END. lia. }
  destruct (Z.ltb_spec MMAP_END (c + len)).
  { exists None. split; [done|]. by apply (Hnofit True). }
  destruct (MemorySet_area_conflicts ms c (c + len)) eqn:Hcf; cbn [negb].
  2:{ exists (Some c). split; [done|]. exists 0. split_and!; [lia|lia|done|intros; lia]. }
  unfold checked_add. unfold MMAP_BASE, MMAP_END, PAGE_SIZE in *.
  destruct (Z.ltb_spec (c + 4096) (2 ^ 64)); [|lia].
  destruct (IH (c + 4096) Hl ltac:(lia)) as (r & Hr & Hs); [zdiv_lia|].
  exists r. split; [done|]. 
  assert (~ mmap_fits ms len c) as Hnc by (intros [_ Hcf']; congruence).
  destruct r as [a|].
  - destruct Hs as (k & Hk & -> & Hfit & Hbefore). exists (k + 1).
    split_and!; [lia|lia|by replace (c + 4096 + k * 4096) with (c + (k + 1) * 4096) in * by lia|].
    intros j Hj. destruct (Z.eq_dec j 0) as [->|]; [by rewrite Z.add_0_r|].
    replace (c + j * 4096) with (c + 4096 + (j - 1) * 4096) by lia. apply Hbefore. lia.
  - intros j Hj. destruct (Z.eq_dec j 0) as [->|]; [by rewrite Z.add_0_r|].
    replace (c + j * 4096) with (c + 4096 + (j - 1) * 4096) by lia. apply Hs. lia.
Qed.

(** ** The invariant of a user address space *)

Definition TRAMPOLINE_VPN : Z := 2 ^ 27 - 1.

Definition ms_trackers (ms : MemorySet) : list FrameTracker := concat (area_trackers <$> ms_areas ms).

(** [rest] are the trackers the rest of the kernel holds: other address
    spaces, kernel stacks, buffers. *)
Record ms_inv (base : Z) (m : Machine) (ms : MemorySet) (rest : list FrameTracker) : Prop := {
  mi_owns : pt_owns base m (ms_page_table ms) (ms_trackers ms ++ rest);
  mi_areas area : area ∈ ms_areas ms -> area_inv m (ms_page_table ms) area;
  mi_disjoint i j a b vpn : ms_areas ms !! i = Some a -> ms_areas ms !! j = Some b ->
    in_range (ma_vpn_range a) vpn -> in_range (ma_vpn_range b) vpn -> i = j;
  mi_cover vpn : 0 <= vpn < 2 ^ 27 -> is_Some (mapped m (ms_page_table ms) vpn) ->
    vpn = TRAMPOLINE_VPN \/ exists a, a ∈ ms_areas ms /\ in_range (ma_vpn_range a) vpn
}.

(** The bits of an entry [mmap] installs. *)
Definition mmap_entry_ok (prot : Z) (e : PageTableEntry) : Prop :=
  PageTableEntry_user_accessible e = true /\ PageTableEntry_is_cow e = false /\
  PageTableEntry_writable e = Z.testbit prot 1 /\
  PageTableEntry_readable e = Z.testbit prot 0 || Z.testbit prot 1 /\
  PageTableEntry_executable e = Z.testbit prot 2.

Lemma prot_cases prot : is_usize prot -> Z.land prot (usize_not 7) = 0 -> 0 <= prot < 8.
Proof.
  intros Hp Hz. unfold is_usize in Hp. change (usize_not 7) with (Z.ldiff (Z.ones 64) (Z.ones 3)) in Hz.
  assert (Z.ldiff prot (Z.ones 3) = 0) as Hd.
  { rewrite <- Hz. apply Z.bits_inj'. intros i Hi. rewrite Z.land_spec, !Z.ldiff_spec.
    destruct (Z.lt_ge_cases i 64); [rewrite (Z.ones_spec_low 64) by lia; done|].
    by rewrite (testbit_small prot 64) by lia. }
  rewrite Z.ldiff_ones_r, Z.shiftl_mul_pow2, Z.shiftr_div_pow2 in Hd by done. zdiv_lia.
Qed.

Lemma mmap_permission_ok prot perm ppn :
  0 <= prot < 8 -> mmap_permission prot = Some perm -> 0 <= ppn < 2 ^ 44 ->
  is_byte perm /\ mmap_entry_ok prot (PageTableEntry_new ppn (flags_insert perm PTE_V)).
Proof.
  intros Hp Hperm Hppn.
  assert (is_byte perm /\ flags_contains (flags_insert perm PTE_V) PTE_U = true /\
    flags_contains (flags_insert perm PTE_V) PTE_W = Z.testbit prot 1 /\
    flags_contains (flags_insert perm PTE_V) PTE_R = Z.testbit prot 0 || Z.testbit prot 1 /\
    flags_contains (flags_insert perm PTE_V) PTE_X = Z.testbit prot 2 /\
    is_byte (flags_insert perm PTE_V)) as (Hb & H1 & H2 & H3 & H4 & Hb').
  { assert (prot = 0 \/ prot = 1 \/ prot = 2 \/ prot = 3 \/ prot = 4 \/ prot = 5 \/ prot = 6 \/ prot = 7)
      as Hin by lia. destruct_or! Hin; subst.
    all: vm_compute in Hperm; try discriminate; injection Hperm as <-; split_and!; by vm_compute. }
  split; [done|]. unfold mmap_entry_ok, PageTableEntry_user_accessible, PageTableEntry_writable,
    PageTableEntry_readable, PageTableEntry_executable.
  destruct (PageTableEntry_new_flags ppn _ Hppn Hb') as [-> _].
  destruct (PageTableEntry_new_is_cow ppn _ Hppn Hb') as [-> _]. done.
Qed.

Section Spaces.
Context (base : Z).

(** Adding a framed area to a space. *)
Lemma wp_insert_framed_area m ms rest start_va end_va perm :
  ms_inv base m ms rest -> 0 <= start_va <= end_va -> end_va <= TRAMPOLINE_VPN * PAGE_SIZE ->
  is_byte perm ->
  let l := VirtAddr_floor start_va in let r := VirtAddr_ceil end_va in
  (forall a vpn, a ∈ ms_areas ms -> in_range (ma_vpn_range a) vpn -> ~ (l <= vpn < r)) ->
  3 * (r - l) <= frames_free (m_allocator m) ->
  wp (MemorySet_insert_framed_area ms start_va end_va perm) (fun ms' m' =>
    ms_inv base m' ms' rest /\ same_pages m m' (ms_trackers ms ++ rest) /\
    (exists area, ms_areas ms' = ms_areas ms ++ [area] /\ ma_vpn_range area = mkRange l r /\
       ma_map_perm area = perm) /\
    (forall vpn, l <= vpn < r -> exists t, t ∈ ms_trackers ms' /\
       mapped m' (ms_page_table ms') vpn = Some (PageTableEntry_new (ft_ppn t) (flags_insert perm PTE_V)) /\
       0 <= ft_ppn t < 2 ^ 44 /\ mem_page m' (ft_ppn t) = page_zero /\
       owners (ft_ppn t) (ms_trackers ms' ++ rest) = 1) /\
    (forall vpn, 0 <= vpn < 2 ^ 27 -> ~ (l <= vpn < r) ->
       mapped m' (ms_page_table ms') vpn = mapped m (ms_page_table ms) vpn) /\
    frames_free (m_allocator m) - 3 * (r - l) <= frames_free (m_allocator m')) m.
Proof.
  intros [Ho Ha Hd Hc] Hv He Hb l r Hdis Hfree.
  assert (TRAMPOLINE_VPN = 2 ^ 27 - 1) as Etr by done.
  assert (0 <= l <= r /\ r <= TRAMPOLINE_VPN) as [Hl Hr].
  { clear Etr. subst l r. unfold TRAMPOLINE_VPN, PAGE_SIZE in *. rewrite VirtAddr_ceil_spec by lia.
    unfold VirtAddr_floor, PAGE_SIZE. split; zdiv_lia. }
  unfold MemorySet_insert_framed_area, MapArea_new. fold l r. unfold SimpleRange_new.
  destruct (Z.leb_spec l r); [|lia]. cbn [fmap option_fmap option_map]. wp_simpl.
  eexists. split; [reflexivity|]. unfold MemorySet_push. wp_simpl.
  set (area := mkArea (mkRange l r) ∅ Framed perm).
  eapply wp_mono; [apply (wp_MapArea_map base m (ms_page_table ms) (ms_trackers ms ++ rest) area); try done|].
  { unfold range_ok, TRAMPOLINE_VPN in *. cbn [area ma_vpn_range range_l range_r]. lia. }
  { intros vpn Hvpn. change (l <= vpn < r) in Hvpn. apply eq_None_not_Some. intros Hs.
    destruct (Hc vpn) as [->|(a & Hin & Hrg)]; [lia|done|lia|].
    by apply (Hdis a vpn Hin Hrg). }
  cbn beta. intros [area' pt'] m1 [Hae Hpt Hdom Hpg Hoth Hs Hfr]. cbn [fst snd] in *.
  cbn [ma_vpn_range area ma_map_perm] in *.
  assert (ma_vpn_range area' = mkRange l r /\ ma_map_type area' = Framed /\ ma_map_perm area' = perm)
    as (Er & Et & Ep) by (by rewrite Hae).
  rewrite range_vpns_seqZ in * by (unfold TRAMPOLINE_VPN in *; lia). wp_simpl.
  assert (forall vpn, vpn ∈ seqZ l (r - l) <-> l <= vpn < r) as Hseq by (intros; rewrite elem_of_seqZ; lia).
  assert (ms_trackers (mkMemorySet pt' (ms_areas ms ++ [area'])) ++ rest ≡ₚ
    area_trackers area' ++ ms_trackers ms ++ rest) as Hperm.
  { unfold ms_trackers. cbn [ms_areas]. rewrite fmap_app, concat_app. cbn. rewrite app_nil_r.
    rewrite app_assoc. apply Permutation_app_tail, Permutation_app_comm. }
  split_and!.
  - split; cbn [ms_areas ms_page_table].
    + eapply pt_owns_perm; [symmetry; exact Hperm|exact Hpt].
    + intros a [Hin| ->%list_elem_of_singleton]%elem_of_app.
      * destruct (Ha a Hin) as [H1 H2 H3 H4]. split; auto. intros vpn t Ht.
        destruct (H4 vpn t Ht) as (e & He1 & He2). exists e. split; [|done].
        assert (in_range (ma_vpn_range a) vpn) as Hir by (apply H3; eauto).
        rewrite Hoth; [done| |].
        { destruct H2. unfold in_range in Hir. lia. }
        { rewrite Hseq. intros ?. by apply (Hdis a vpn). }
      * split; [done|rewrite Er; unfold range_ok, TRAMPOLINE_VPN in *; cbn; lia| |].
        { intros vpn. rewrite Hdom, Hseq, Er. done. }
        { intros vpn t Ht. destruct (Hpg vpn t Ht) as (-> & _ & Hrt & _). eexists. split; [done|].
          assert (is_byte (flags_insert perm PTE_V)) as H0 by (apply flags_insert_byte; done).
          exact (proj1 (PageTableEntry_new_ppn (ft_ppn t) (flags_insert perm PTE_V) Hrt H0)). }
    + intros i j a b vpn Hi Hj Hia Hjb.
      apply lookup_app_Some in Hi as [Hi|[Hi1 Hi]]; apply lookup_app_Some in Hj as [Hj|[Hj1 Hj]].
      * by eapply Hd.
      * apply list_lookup_singleton_Some in Hj as [_ <-]. rewrite Er in Hjb.
        exfalso. apply (Hdis a vpn); [by eapply list_elem_of_lookup_2|done|exact Hjb].
      * apply list_lookup_singleton_Some in Hi as [_ <-]. rewrite Er in Hia.
        exfalso. apply (Hdis b vpn); [by eapply list_elem_of_lookup_2|done|exact Hia].
      * apply list_lookup_singleton_Some in Hi as [? _]. apply list_lookup_singleton_Some in Hj as [? _]. lia.
    + intros vpn Hvpn Hsm. destruct (decide (l <= vpn < r)) as [Hir|Hni].
      * right. exists area'. split; [apply elem_of_app; right; by left|]. by rewrite Er.
      * rewrite Hoth in Hsm by (rewrite ?Hseq; done). destruct (Hc vpn Hvpn Hsm) as [?|(a & ? & ?)]; [by left|].
        right. exists a. split; [|done]. apply elem_of_app. by left.
  - done.
  - exists area'. done.
  - intros vpn Hvpn. destruct (proj2 (Hdom vpn)) as [t Ht]; [by apply Hseq|].
    destruct (Hpg vpn t Ht) as (H1 & H2 & H3 & H4). exists t. cbn [ms_page_table].
    rewrite (owners_perm _ _ _ Hperm). split_and!; auto; try lia.
    unfold ms_trackers. cbn. rewrite fmap_app, concat_app. cbn. rewrite app_nil_r. apply elem_of_app. right.
    apply elem_of_area_trackers. eauto.
  - intros vpn Hvpn Hni. cbn. apply Hoth; [done|]. by rewrite Hseq.
  - rewrite length_seqZ in Hfr. lia.
Qed.

Lemma mmap_choose_spec ms start len : is_usize start -> 0 <= len < 2 ^ 64 ->
  exists r, mmap_choose ms start len = Ok r /\
    match r with
    | Some a => a mod PAGE_SIZE = 0 /\ MMAP_BASE <= a /\ mmap_fits ms len a /\
        (start <> 0 -> a = start)
    | None => forall a, a mod PAGE_SIZE = 0 -> MMAP_BASE <= a -> (start <> 0 -> a = start) ->
        ~ mmap_fits ms len a
    end.
Proof.
  intros Hs Hl. unfold mmap_choose, is_usize, mmap_fits in *.
  destruct (Z.eqb_spec start 0) as [->|Hne]; cbn [negb].
  - destruct (mmap_search_spec ms len mmap_fuel MMAP_BASE Hl) as (r & Hr & Hspec);
      [unfold MMAP_BASE, MMAP_END, PAGE_SIZE; lia|by vm_compute|].
    exists r. split; [done|]. destruct r as [a|].
    + destruct Hspec as (k & Hk & -> & Hfit & _). split_and!; try apply Hfit; [|unfold PAGE_SIZE; lia|lia].
      unfold MMAP_BASE, PAGE_SIZE. zdiv_lia.
    + intros a Ha Hb _ Hfit. apply (Hspec ((a - MMAP_BASE) / PAGE_SIZE)).
      { unfold PAGE_SIZE. zdiv_lia. }
      assert (MMAP_BASE + (a - MMAP_BASE) / PAGE_SIZE * PAGE_SIZE = a) as ->; [|done].
      unfold MMAP_BASE, PAGE_SIZE in *. zdiv_lia.
  - destruct (Z.eqb_spec (start mod PAGE_SIZE) 0) as [Hal|Hal]; cbn [negb].
    2:{ exists None. split; [done|]. intros a Ha _ Heq. rewrite Heq in Ha by done. done. }
    unfold checked_add. destruct (Z.ltb_spec (start + len) (2 ^ 64)) as [Hlt|Hge].
    2:{ exists None. split; [done|]. intros a _ _ Heq [Hend _]. rewrite Heq in Hend by done.
        unfold MMAP_END in Hend. lia. }
    destruct (Z.ltb_spec start MMAP_BASE) as [Hlo|Hlo]; cbn [orb].
    { exists None. split; [done|]. intros a _ Hb Heq _. rewrite Heq in Hb by done. lia. }
    destruct (Z.ltb_spec MMAP_END (start + len)) as [Hhi|Hhi]; cbn [orb].
    { exists None. split; [done|]. intros a _ _ Heq [Hend _]. rewrite Heq in Hend by done. lia. }
    destruct (MemorySet_area_conflicts ms start (start + len)) eqn:Hcf.
    + exists None. split; [done|]. intros a _ _ Heq [_ Hc]. rewrite Heq in Hc by done. congruence.
    + exists (Some start). split; [done|]. split_and!; auto.
Qed.

Lemma permission_byte prot perm : 0 <= prot < 8 -> mmap_permission prot = Some perm -> is_byte perm.
Proof. intros Hp Hm. by apply (mmap_permission_ok prot perm 0). Qed.

(** What a call of [mmap] that is not refused changes. *)
Record mmap_done (m : Machine) (ms : MemorySet) (rest : list FrameTracker) (start len prot a : Z)
  (ms' : MemorySet) (m' : Machine) : Prop := {
  md_place : a mod PAGE_SIZE = 0 /\ MMAP_BASE <= a /\ a + len <= MMAP_END /\ (start <> 0 -> a = start);
  md_new vpn : a / PAGE_SIZE <= vpn < (a + len) / PAGE_SIZE ->
    mapped m (ms_page_table ms) vpn = None /\
    exists e, mapped m' (ms_page_table ms') vpn = Some e /\ mmap_entry_ok prot e /\
      mem_page m' (PageTableEntry_ppn e) = page_zero /\
      owners (PageTableEntry_ppn e) (ms_trackers ms' ++ rest) = 1;
  md_old vpn : 0 <= vpn < 2 ^ 27 -> ~ (a / PAGE_SIZE <= vpn < (a + len) / PAGE_SIZE) ->
    mapped m' (ms_page_table ms') vpn = mapped m (ms_page_table ms) vpn;
  md_same : same_pages m m' (ms_trackers ms ++ rest)
}.

Lemma wp_mmap m ms rest start len prot :
  ms_inv base m ms rest -> is_usize start -> is_usize len -> is_usize prot ->
  3 * ((len + 4095) / 4096) <= frames_free (m_allocator m) ->
  let len' := (len + 4095) / 4096 * 4096 in
  wp (MemorySet_mmap ms start len prot) (fun r m' => ms_inv base m' (snd r) rest /\
    match fst r with
    | Some a => mmap_done m ms rest start len' prot a (snd r) m'
    | None => snd r = ms /\ m' = m /\
        (len = 0 \/ 8 <= prot \/ mmap_permission prot = None \/ 2 ^ 64 <= len + 4095 \/
         forall a, a mod PAGE_SIZE = 0 -> MMAP_BASE <= a -> (start <> 0 -> a = start) ->
           ~ mmap_fits ms len' a)
    end) m.
Proof.
  intros Hms Hs Hl Hp Hfree len'. unfold MemorySet_mmap.
  destruct (Z.eqb_spec len 0) as [->|Hl0]; cbn [orb]; [wp_simpl; cbn [fst snd]; auto|].
  destruct (Z.eqb_spec (Z.land prot (usize_not 7)) 0) as [Hprot|Hprot]; cbn [negb].
  2:{ wp_simpl. cbn [fst snd]. split_and!; auto. right; left. unfold is_usize in Hp.
      destruct (Z.lt_ge_cases prot 8); [|done]. destruct Hprot.
      assert (prot = 0 \/ prot = 1 \/ prot = 2 \/ prot = 3 \/ prot = 4 \/ prot = 5 \/ prot = 6 \/ prot = 7)
        as Hin by lia. destruct_or! Hin; subst; reflexivity. }
  apply prot_cases in Hprot; [|done]. rewrite mmap_round_spec by done. unfold is_usize in Hl.
  destruct (Z.ltb_spec (len + 4095) (2 ^ 64)); [|wp_simpl; cbn [fst snd]; split_and!; auto]. fold len'.
  destruct (mmap_permission prot) as [perm|] eqn:Hperm; [|wp_simpl; cbn [fst snd]; split_and!; auto].
  assert (0 < len' < 2 ^ 64 /\ len' / 4096 = (len + 4095) / 4096 /\ len' mod 4096 = 0) as (Hlr & Hld & Hlm).
  { subst len'. split_and!; zdiv_lia. }
  destruct (mmap_choose_spec ms start len' Hs ltac:(lia)) as (r & -> & Hspec).
  destruct r as [a|]; [|wp_simpl; cbn [fst snd]; split_and!; auto 7].
  destruct Hspec as (Ha1 & Ha2 & [Ha3 Hcf] & Ha4).
  pose proof (permission_byte _ _ Hprot Hperm) as Hb.
  assert (0 <= a /\ a + len' <= 2 ^ 30 /\ a mod 4096 = 0) as (Ha & Hae & Ham).
  { unfold MMAP_BASE, MMAP_END, PAGE_SIZE in *. lia. }
  unfold usize_wrap. rewrite Z.mod_small by lia. wp_simpl. rewrite !VirtAddr_from_usize_mod.
  rewrite !Z.mod_small by lia.
  assert (VirtAddr_floor a = a / PAGE_SIZE /\ VirtAddr_ceil (a + len') = (a + len') / PAGE_SIZE) as [Efl Ece].
  { split; [done|]. rewrite VirtAddr_ceil_spec by lia. unfold PAGE_SIZE. zdiv_lia. }
  eapply wp_mono; [apply (wp_insert_framed_area m ms rest a (a + len') perm Hms)|].
  - lia.
  - unfold TRAMPOLINE_VPN, PAGE_SIZE. lia.
  - done.
  - rewrite Efl, Ece. intros area vpn Hin Hir Hv.
    apply (conflicts_false ms a (a + len') area vpn Hcf Hin); auto; try lia.
    + by apply (mi_areas _ _ _ _ Hms).
    + unfold PAGE_SIZE in *. zdiv_lia.
    + unfold PAGE_SIZE in *. zdiv_lia.
  - rewrite Efl, Ece. unfold PAGE_SIZE. zdiv_lia.
  - rewrite Efl, Ece. cbn beta. intros ms' m' (Hms' & Hsame & _ & Hnew & Hold & _). wp_simpl.
    cbn [fst snd]. split; [done|]. split.
    + done.
    + intros vpn Hv. split.
      * apply eq_None_not_Some. intros Hsm.
        destruct (mi_cover _ _ _ _ Hms vpn) as [->|(area & Hin & Hir)]; [unfold PAGE_SIZE in *; zdiv_lia|done| |].
        { unfold TRAMPOLINE_VPN, PAGE_SIZE in *. zdiv_lia. }
        apply (conflicts_false ms a (a + len') area vpn Hcf Hin); auto; try lia.
        { by apply (mi_areas _ _ _ _ Hms). }
        { unfold PAGE_SIZE in *. zdiv_lia. }
        { unfold PAGE_SIZE in *. zdiv_lia. }
      * destruct (Hnew vpn Hv) as (t & _ & Hm & Hr & Hz & Ho). eexists. split; [exact Hm|].
        destruct (mmap_permission_ok prot perm (ft_ppn t) Hprot Hperm Hr) as [_ Hok].
        assert (is_byte (flags_insert perm PTE_V)) as Hb' by (apply flags_insert_byte; done).
        rewrite (proj1 (PageTableEntry_new_ppn (ft_ppn t) (flags_insert perm PTE_V) Hr Hb')). done.
    + exact Hold.
    + exact Hsame.
Qed.

Lemma vec_remove_delete {A} i (l : list A) : vec_remove i l = delete i l.
Proof. unfold vec_remove. by rewrite delete_take_drop. Qed.

Lemma ms_trackers_remove ms i area :
  ms_areas ms !! i = Some area ->
  ms_trackers ms ≡ₚ area_trackers area ++
    ms_trackers (mkMemorySet (ms_page_table ms) (vec_remove i (ms_areas ms))).
Proof.
  intros Hi. unfold ms_trackers. cbn [ms_areas]. rewrite vec_remove_delete.
  rewrite (delete_Permutation _ _ _ Hi) at 1. done.
Qed.

(** What removing an area from a space changes. *)
Record area_removed (m : Machine) (ms : MemorySet) (rest : list FrameTracker) (area : MapArea)
  (ms' : MemorySet) (m' : Machine) : Prop := {
  ar_inv : ms_inv base m' ms' rest;
  ar_areas : exists i, ms_areas ms !! i = Some area /\ ms_areas ms' = delete i (ms_areas ms);
  ar_gone vpn : 0 <= vpn < 2 ^ 27 -> in_range (ma_vpn_range area) vpn ->
    mapped m' (ms_page_table ms') vpn = None;
  ar_kept vpn : 0 <= vpn < 2 ^ 27 -> ~ in_range (ma_vpn_range area) vpn ->
    mapped m' (ms_page_table ms') vpn = mapped m (ms_page_table ms) vpn;
  ar_same : same_pages m m' (ms_trackers ms' ++ rest)
}.

Lemma wp_remove_area m ms rest i area :
  ms_inv base m ms rest -> ms_areas ms !! i = Some area ->
  let ms' := mkMemorySet (ms_page_table ms) (vec_remove i (ms_areas ms)) in
  wp (area' ← MapArea_unmap area (ms_page_table ms); drop_trackers (area_trackers area'))
    (fun _ m' => area_removed m ms rest area ms' m') m.
Proof.
  intros [Ho Ha Hd Hc] Hi ms'. wp_simpl.
  assert (area ∈ ms_areas ms) as Hin by (by eapply list_elem_of_lookup_2).
  pose proof (Ha area Hin) as Hai. destruct (ai_range _ _ _ Hai) as [Hr1 Hr2].
  eapply wp_mono; [apply (wp_MapArea_unmap base m (ms_page_table ms) (ms_trackers ms' ++ rest) area)|].
  { eapply pt_owns_perm; [|exact Ho]. rewrite (ms_trackers_remove ms i area Hi). by rewrite <- app_assoc. }
  { done. }
  cbn beta. intros area' m1 [Hae Hown Hf Hm Hs Hfr].
  eapply wp_mono; [by apply (wp_drop_trackers base m1 (ms_page_table ms))|].
  cbn beta. intros _ m2 (Hown2 & Hmap2 & Hmem2 & Hfr2).
  assert (forall vpn, vpn ∈ range_vpns (ma_vpn_range area) <-> in_range (ma_vpn_range area) vpn) as Hseq.
  { intros vpn. destruct (ma_vpn_range area) as [l r]. cbn in Hr1, Hr2. rewrite range_vpns_seqZ by lia.
    rewrite elem_of_seqZ. unfold in_range. cbn. lia. }
  assert (forall vpn, 0 <= vpn < 2 ^ 27 -> mapped m2 (ms_page_table ms) vpn =
    if decide (vpn ∈ range_vpns (ma_vpn_range area)) then None
    else mapped m (ms_page_table ms) vpn) as Hm'.
  { intros vpn Hv. by rewrite Hmap2, Hm. }
  assert (ms_areas ms' = delete i (ms_areas ms)) as Eareas by apply vec_remove_delete.
  assert (forall j b, ms_areas ms' !! j = Some b -> exists j', ms_areas ms !! j' = Some b /\ j' <> i /\
    j' = if decide (j < i)%nat then j else S j) as Hlook.
  { intros j b Hj. rewrite Eareas in Hj. destruct (decide (j < i)%nat) as [Hlt|Hge].
    - rewrite list_lookup_delete_lt in Hj by done. exists j. split_and!; [done|lia|done].
    - rewrite list_lookup_delete_ge in Hj by lia. exists (S j). split_and!; [done|lia|done]. }
  split.
  - split.
    + exact Hown2.
    + intros b [j Hj]%list_elem_of_lookup. destruct (Hlook j b Hj) as (j' & Hj' & Hne & _).
      destruct (Ha b ltac:(by eapply list_elem_of_lookup_2)) as [H1 H2 H3 H4]. split; auto.
      intros vpn t Ht. destruct (H4 vpn t Ht) as (e & He1 & He2). exists e. split; [|done].
      assert (in_range (ma_vpn_range b) vpn) as Hir by (apply H3; eauto).
      cbn [ms_page_table ms']. rewrite Hm', decide_False; [done| |unfold in_range in Hir; destruct H2; lia].
      rewrite Hseq. intros Hir'. apply Hne. by apply (Hd j' i b area vpn).
    + intros j k a b vpn Hj Hk Hja Hkb.
      destruct (Hlook j a Hj) as (j' & Hj' & _ & Ej), (Hlook k b Hk) as (k' & Hk' & _ & Ek).
      assert (j' = k') as E by (by apply (Hd j' k' a b vpn)). repeat case_decide; lia.
    + intros vpn Hv Hsm. cbn [ms_page_table ms'] in Hsm. rewrite Hm' in Hsm by done.
      case_decide as D; [by destruct Hsm|]. destruct (Hc vpn Hv Hsm) as [?|(b & Hb & Hir)]; [by left|].
      right. exists b. split; [|done]. rewrite Hseq in D.
      apply list_elem_of_lookup in Hb as [k Hk]. rewrite Eareas.
      assert (k <> i) as Hki by (intros ->; congruence).
      apply list_elem_of_lookup. destruct (decide (k < i)%nat).
      * exists k. by rewrite list_lookup_delete_lt.
      * exists (k - 1)%nat. rewrite list_lookup_delete_ge by lia. rewrite <- Hk. f_equal. lia.
  - by exists i.
  - intros vpn Hv Hir. cbn [ms_page_table ms']. rewrite Hm', decide_True; [done|by apply Hseq|done].
  - intros vpn Hv Hir. cbn [ms_page_table ms']. rewrite Hm', decide_False; [done|by rewrite Hseq|done].
  - intros t Ht. unfold mem_page. rewrite Hmem2. by apply Hs.
Qed.

(** The area [munmap] looks for. *)
Definition munmap_target (start len : Z) (area : MapArea) : Prop :=
  ma_vpn_range area = mkRange (start / PAGE_SIZE) ((start + len) / PAGE_SIZE) /\
  ma_map_type area = Framed /\ perm_contains (ma_map_perm area) MapPermission_U = true.

Lemma wp_munmap m ms rest start len :
  ms_inv base m ms rest -> 0 <= start -> 0 <= len -> start + len < 2 ^ 39 ->
  wp (MemorySet_munmap ms start len) (fun r m' =>
    if fst r then start mod PAGE_SIZE = 0 /\ len mod PAGE_SIZE = 0 /\ 0 < len /\
      exists area, munmap_target start len area /\ area_removed m ms rest area (snd r) m'
    else snd r = ms /\ m' = m /\
      ~ (start mod PAGE_SIZE = 0 /\ len mod PAGE_SIZE = 0 /\ 0 < len /\
         exists area, area ∈ ms_areas ms /\ munmap_target start len area)) m.
Proof.
  intros Hms Hs Hl He. unfold MemorySet_munmap.
  destruct (Z.eqb_spec (start mod PAGE_SIZE) 0) as [Hal|]; cbn [negb orb];
    [|wp_simpl; cbn [fst snd]; tauto].
  destruct (Z.eqb_spec len 0) as [|Hl0]; cbn [orb]; [wp_simpl; cbn [fst snd]; split_and!; auto; intros; lia|].
  destruct (Z.eqb_spec (len mod PAGE_SIZE) 0) as [Hlal|]; cbn [negb]; [|wp_simpl; cbn [fst snd]; tauto].
  unfold checked_add. destruct (Z.ltb_spec (start + len) (2 ^ 64)); [|lia].
  rewrite !VirtAddr_from_usize_mod, !Z.mod_small by lia.
  destruct (position _ (ms_areas ms)) as [i|] eqn:Hpos.
  - apply position_Some in Hpos as (area & Hi & Hp & _). rewrite Hi.
    rewrite !andb_true_iff, !Z.eqb_eq, bool_decide_eq_true in Hp. destruct Hp as [[[H1 H2] H3] H4].
    wp_simpl. exists area. split; [done|]. wp_simpl.
    pose proof (wp_remove_area m ms rest i area Hms Hi) as Hw. cbv zeta in Hw. rewrite wp_bind in Hw.
    eapply wp_mono; [exact Hw|]. cbn beta. intros area' m1 H'. wp_simpl.
    eapply wp_mono; [exact H'|]. cbn beta. intros _ m2 Hrm. wp_simpl. cbn [fst snd].
    split_and!; [done|done|lia|]. exists area. split; [|done]. split_and!; [|done|done].
    unfold SimpleRange_get_start, SimpleRange_get_end, VirtAddr_floor in *.
    destruct (ma_vpn_range area). cbn in *. by subst.
  - rewrite position_None in Hpos. wp_simpl. cbn [fst snd]. split_and!; auto.
    intros (_ & _ & _ & area & Hin & Er & Et & Ep).
    rewrite Forall_forall in Hpos. specialize (Hpos area Hin). rewrite Er, Ep in Hpos. cbn in Hpos.
    unfold VirtAddr_floor in Hpos.
    rewrite !Z.eqb_refl, bool_decide_eq_true_2 in Hpos by done. done.
Qed.

(** ** Copy-on-write faults *)

Lemma pt_owns_set_page m pt o t pg :
  pt_owns base m pt o -> t ∈ o ->
  pt_owns base (set_page (ft_ppn t) pg m) pt o /\
  (forall vpn, mapped (set_page (ft_ppn t) pg m) pt vpn = mapped m pt vpn).
Proof.
  intros Hpt Ht. apply (pt_owns_stable base m _ pt o o); auto.
  - apply tracked_set_page. by apply pt_owns_tracked.
  - intros t' Hin. rewrite mem_page_set, decide_False; [done|].
    intros E. apply (pt_owns_sep base m pt o t Hpt Ht). rewrite E. by apply list_elem_of_fmap_2.
  - intros t' Hin. by eapply pt_owns_other.
Qed.

Lemma ms_trackers_insert ms i area area' pt :
  ms_areas ms !! i = Some area ->
  ms_trackers (mkMemorySet pt (<[i := area']> (ms_areas ms))) ≡ₚ area_trackers area' ++
    ms_trackers (mkMemorySet (ms_page_table ms) (vec_remove i (ms_areas ms))).
Proof.
  intros Hi. unfold ms_trackers, vec_remove. cbn [ms_areas].
  rewrite (insert_take_drop _ i area') by (by eapply lookup_lt_Some).
  rewrite !fmap_app, !concat_app. cbn. rewrite !app_assoc. apply Permutation_app_tail, Permutation_app_comm.
Qed.

Lemma count_owners m pt o p :
  pt_owns base m pt o -> StackFrameAllocator_ref_count (m_allocator m) p = owners p (pt_frames pt ++ o).
Proof. intros H. apply (pt_owns_tracked _ _ _ _ H). Qed.

(** A space after the entry of one of its pages was replaced. *)
Lemma ms_inv_replace m ms rest i area vpn t m' e :
  ms_inv base m ms rest -> ms_areas ms !! i = Some area -> in_range (ma_vpn_range area) vpn ->
  let ms' := mkMemorySet (ms_page_table ms)
    (<[i := set_frames area (<[vpn := t]> (ma_data_frames area))]> (ms_areas ms)) in
  pt_owns base m' (ms_page_table ms) (ms_trackers ms' ++ rest) ->
  mapping_eq (mapped m' (ms_page_table ms)) (map_update (mapped m (ms_page_table ms)) vpn (Some e)) ->
  PageTableEntry_ppn e = ft_ppn t ->
  ms_inv base m' ms' rest.
Proof.
  intros [Ho Ha Hd Hc] Hi Hir ms' Ho' Hmap He.
  assert (area ∈ ms_areas ms) as Hin by (by eapply list_elem_of_lookup_2).
  set (area' := set_frames area (<[vpn := t]> (ma_data_frames area))) in *.
  assert (forall j b, ms_areas ms' !! j = Some b -> exists b0, ms_areas ms !! j = Some b0 /\
    ma_vpn_range b = ma_vpn_range b0 /\ ((j = i /\ b0 = area /\ b = area') \/ (j <> i /\ b = b0))) as Hlook.
  { intros j b Hj. cbn [ms_areas ms'] in Hj. destruct (decide (i = j)) as [->|Hne].
    - rewrite list_lookup_insert_eq in Hj by (by eapply lookup_lt_Some). injection Hj as <-. eauto 8.
    - rewrite list_lookup_insert_ne in Hj by done. eauto 8. }
  split; [done| | |].
  - intros b [j Hj]%list_elem_of_lookup. destruct (Hlook j b Hj) as (b0 & Hj0 & Er & [(-> & -> & ->)|[Hne ->]]).
    + destruct (Ha area Hin) as [H1 H2 H3 H4]. split; try done.
      * intros v. cbn. rewrite lookup_insert. case_decide as E; [|apply H3]. subst v. split; [done|eauto].
      * intros v t'. cbn. rewrite lookup_insert. case_decide as E.
        { intros [= <-]. subst v. exists e. split; [|done].
          rewrite (Hmap vpn) by (unfold in_range in Hir; destruct H2; lia).
          unfold map_update. by rewrite decide_True. }
        { intros Ht. destruct (H4 v t' Ht) as (e0 & He1 & He2). exists e0. split; [|done].
          assert (in_range (ma_vpn_range area) v) as Hv by (apply H3; eauto).
          rewrite (Hmap v) by (unfold in_range in Hv; destruct H2; lia).
          unfold map_update. rewrite decide_False; done. }
    + destruct (Ha b0 ltac:(by eapply list_elem_of_lookup_2)) as [H1 H2 H3 H4]. split; auto.
      intros v t' Ht. destruct (H4 v t' Ht) as (e0 & He1 & He2). exists e0. split; [|done].
      assert (in_range (ma_vpn_range b0) v) as Hv by (apply H3; eauto).
      cbn [ms_page_table ms']. rewrite (Hmap v) by (unfold in_range in Hv; destruct H2; lia).
      unfold map_update. rewrite decide_False; [done|]. intros ->. apply Hne.
      by apply (Hd j i b0 area vpn).
  - intros j k a b v Hj Hk Hja Hkb.
    destruct (Hlook j a Hj) as (a0 & Hj0 & Ea & _), (Hlook k b Hk) as (b0 & Hk0 & Eb & _).
    rewrite Ea in Hja. rewrite Eb in Hkb. by eapply Hd.
  - intros v Hv Hsm. assert (vpn = v \/ is_Some (mapped m (ms_page_table ms) v)) as Hcase.
    { cbn [ms_page_table ms'] in Hsm. rewrite (Hmap v Hv) in Hsm. unfold map_update in Hsm.
      case_decide; auto. }
    assert (forall a, a ∈ ms_areas ms -> exists a', a' ∈ ms_areas ms' /\ ma_vpn_range a' = ma_vpn_range a) as Hkeep.
    { intros a [k Hk]%list_elem_of_lookup. destruct (decide (i = k)) as [->|Hne].
      - exists area'. assert (a = area) as -> by congruence. split; [|done].
        apply list_elem_of_lookup. exists k. cbn. apply list_lookup_insert_eq. by eapply lookup_lt_Some.
      - exists a. split; [|done]. apply list_elem_of_lookup. exists k. cbn. by rewrite list_lookup_insert_ne. }
    destruct Hcase as [<-|Hold].
    + right. destruct (Hkeep area Hin) as (a' & ? & Er). exists a'. by rewrite Er.
    + destruct (Hc v Hv Hold) as [?|(a & Hina & Hira)]; [by left|]. right.
      destruct (Hkeep a Hina) as (a' & ? & Er). exists a'. by rewrite Er.
Qed.

(** The entry [resolve_cow] leaves. *)
Definition private_entry (e : PageTableEntry) (ppn : Z) : PageTableEntry :=
  PageTableEntry_new ppn (flags_insert (flags_insert (PageTableEntry_flags e) PTE_W) PTE_V).

(** What a resolved fault changes: the page has a frame of its own, with the
    contents it had; every other page and every frame in use keep theirs. *)
Record fault_resolved (m : Machine) (ms : MemorySet) (rest : list FrameTracker) (vpn : VirtPageNum)
  (e : PageTableEntry) (ms' : MemorySet) (m' : Machine) : Prop := {
  fr_inv : ms_inv base m' ms' rest;
  fr_table : ms_page_table ms' = ms_page_table ms;
  fr_page : exists ppn, mapped m' (ms_page_table ms) vpn = Some (private_entry e ppn) /\
    0 <= ppn < 2 ^ 44 /\
    owners ppn (pt_frames (ms_page_table ms) ++ ms_trackers ms' ++ rest) = 1 /\
    mem_page m' ppn = mem_page m (PageTableEntry_ppn e);
  fr_other vpn' : 0 <= vpn' < 2 ^ 27 -> vpn' <> vpn ->
    mapped m' (ms_page_table ms) vpn' = mapped m (ms_page_table ms) vpn';
  fr_same : same_pages m m' (ms_trackers ms ++ rest)
}.

Lemma page_frame m ms rest vpn e :
  ms_inv base m ms rest -> 0 <= vpn < 2 ^ 27 -> vpn <> TRAMPOLINE_VPN ->
  mapped m (ms_page_table ms) vpn = Some e ->
  exists i area t, ms_areas ms !! i = Some area /\ in_range (ma_vpn_range area) vpn /\
    ma_data_frames area !! vpn = Some t /\ ft_ppn t = PageTableEntry_ppn e /\
    position (area_contains vpn) (ms_areas ms) = Some i.
Proof.
  intros [Ho Ha Hd Hc] Hv Hnt Hm. destruct (Hc vpn Hv ltac:(eauto)) as [?|(area & Hin & Hir)]; [done|].
  pose proof Hin as [i Hi]%list_elem_of_lookup. destruct (Ha area Hin) as [H1 H2 H3 H4].
  destruct (proj2 (H3 vpn) Hir) as [t Ht]. destruct (H4 vpn t Ht) as (e' & He & Hp).
  assert (e' = e) as -> by congruence.
  assert (forall a, area_contains vpn a = true <-> in_range (ma_vpn_range a) vpn) as Hac.
  { intros a. unfold area_contains, in_range, SimpleRange_get_start, SimpleRange_get_end.
    rewrite andb_true_iff, Z.leb_le, Z.ltb_lt. done. }
  exists i, area, t. split_and!; auto. apply position_Some. exists area.
  split_and!; [done|by apply Hac|]. intros j b Hlt Hj. apply not_true_iff_false. rewrite Hac. intros Hb.
  pose proof (Hd i j area b vpn Hi Hj Hir Hb). lia.
Qed.

(** The owners of the frame of an entry in the whole machine: a table of the
    space, its areas, and everybody else. *)
Definition cow_owners (ms : MemorySet) (rest : list FrameTracker) (e : PageTableEntry) : Z :=
  owners (PageTableEntry_ppn e) (pt_frames (ms_page_table ms) ++ ms_trackers ms ++ rest).

Lemma wp_handle_cow_fault m ms rest fault_va e :
  ms_inv base m ms rest -> 0 <= fault_va < TRAMPOLINE_VPN * PAGE_SIZE ->
  mapped m (ms_page_table ms) (VirtAddr_floor fault_va) = Some e ->
  PageTableEntry_user_accessible e = true -> PageTableEntry_is_cow e = true ->
  1 <= frames_free (m_allocator m) \/ cow_owners ms rest e = 1 ->
  wp (MemorySet_handle_cow_fault ms fault_va) (fun r m' => fst r = true /\
    fault_resolved m ms rest (VirtAddr_floor fault_va) e (snd r) m') m.
Proof.
  intros Hms Hva Hm Hu Hcow Hfree. set (vpn := VirtAddr_floor fault_va) in *.
  assert (0 <= vpn < 2 ^ 27 /\ vpn <> TRAMPOLINE_VPN) as [Hv Hnt].
  { subst vpn. unfold VirtAddr_floor, TRAMPOLINE_VPN, PAGE_SIZE in *. split; [zdiv_lia|].
    apply Z.lt_neq. zdiv_lia. }
  destruct (page_frame _ _ _ _ _ Hms Hv Hnt Hm) as (i & area & t & Hi & Hir & Hdf & Hp & Hpos).
  pose proof (mi_owns _ _ _ _ Hms) as Ho. pose proof (ms_trackers_remove ms i area Hi) as Hperm.
  pose proof (area_trackers_delete area vpn t Hdf) as Hperm2.
  assert (t ∈ ms_trackers ms) as Hin.
  { rewrite Hperm. apply elem_of_app. left. apply elem_of_area_trackers. eauto. }
  assert (0 <= ft_ppn t < 2 ^ 44) as Hpr by (rewrite Hp; apply PageTableEntry_ppn_range).
  assert (is_byte (flags_insert (flags_insert (PageTableEntry_flags e) PTE_W) PTE_V)) as Hb
      by (apply flags_insert_byte; [apply flags_insert_byte|]; auto; done).
  unfold MemorySet_handle_cow_fault. fold vpn. wp_simpl.
  rewrite (mapped_is_translate _ _ _ _ Hm).
  assert (PageTableEntry_is_valid e = true) as -> by (by apply mapped_Some in Hm as (? & _ & _ & ?)).
  rewrite Hu, Hcow. cbn [andb]. unfold frame_ref_count. wp_simpl.
  unfold cow_owners in Hfree. rewrite (count_owners _ _ _ _ Ho), <- Hp. rewrite <- Hp in Hfree.
  destruct (Z.eqb_spec (owners (ft_ppn t) (pt_frames (ms_page_table ms) ++ ms_trackers ms ++ rest)) 1) as [H1|H1].
  - (* the last owner keeps the frame *)
    wp_simpl. pose proof Ho as [lab Hinv].
    eapply wp_mono; [eapply (wp_resolve_cow base m _ _ lab vpn Hinv Hv e); auto|].
    cbn beta. intros _ m' He. wp_simpl. cbn [fst snd]. split; [done|].
    destruct (pt_effect_owns base m _ _ _ _ _ _ _ He) as [Hpt' Hs].
    assert (set_frames area (<[vpn := t]> (ma_data_frames area)) = area) as Earea.
    { rewrite insert_id by done. by destruct area. }
    assert (mkMemorySet (ms_page_table ms) (<[i := area]> (ms_areas ms)) = ms) as Ems.
    { rewrite list_insert_id by done. by destruct ms. }
    split.
    + pose proof (ms_inv_replace m ms rest i area vpn t m' (private_entry e (ft_ppn t)) Hms Hi Hir) as Hr.
      rewrite Earea, Ems in Hr. apply Hr; [done|apply He|]. exact (proj1 (PageTableEntry_new_ppn (ft_ppn t) _ Hpr Hb)).
    + done.
    + exists (ft_ppn t). split; [|split; [done|split; [done|]]].
      * rewrite (pe_mapping _ _ _ _ _ _ _ _ _ He vpn Hv). unfold map_update. by rewrite decide_True.
      * rewrite <- Hp. apply (Hs t), elem_of_app. by left.
    + intros v Hv' Hne. rewrite (pe_mapping _ _ _ _ _ _ _ _ _ He v Hv'). unfold map_update. by rewrite decide_False.
    + exact Hs.
  - (* a frame of its own *)
    wp_simpl. eapply wp_mono; [apply (wp_alloc_beside base m (ms_page_table ms) _ Ho); lia|]. cbn beta.
    intros r m1 (nt & -> & Ho1 & Hfresh & Hnr & Hmap1 & _ & Hs1 & _). wp_simpl.
    exists nt. split; [done|]. unfold copy_page. wp_simpl. rewrite Hpos. wp_simpl.
    exists area. split; [done|].
    rewrite bool_decide_eq_true_2 by (apply (mi_areas _ _ _ _ Hms); by eapply list_elem_of_lookup_2).
    rewrite Hdf. wp_simpl. exists t. split; [done|].
    destruct (pt_owns_set_page m1 (ms_page_table ms) (nt :: ms_trackers ms ++ rest) nt
      (mem_page m1 (ft_ppn t)) Ho1 ltac:(left)) as [Ho2 Hmap2].
    set (m2 := set_page (ft_ppn nt) (mem_page m1 (ft_ppn t)) m1) in *.
    pose proof Ho2 as [lab Hinv]. wp_simpl.
    eapply wp_mono; [eapply (wp_resolve_cow base m2 _ _ lab vpn Hinv Hv e); auto; by rewrite Hmap2, Hmap1|].
    cbn beta. intros _ m3 He. wp_simpl.
    destruct (pt_effect_owns base m2 _ _ _ _ _ _ _ He) as [Ho3 Hs3].
    set (area' := set_frames area (<[vpn := nt]> (ma_data_frames area))) in *.
    set (ms' := mkMemorySet (ms_page_table ms) (<[i := area']> (ms_areas ms))).
    set (R := ms_trackers (mkMemorySet (ms_page_table ms) (vec_remove i (ms_areas ms)))) in *.
    set (A0 := area_trackers (set_frames area (delete vpn (ma_data_frames area)))) in *.
    assert (area_trackers area' ≡ₚ nt :: A0) as Hperm3.
    { rewrite (area_trackers_delete area' vpn nt) by (cbn; apply lookup_insert_eq).
      unfold A0, area'. cbn [ma_data_frames set_frames]. by rewrite delete_insert_eq. }
    assert (ms_trackers ms' ≡ₚ nt :: A0 ++ R) as Hms'.
    { unfold ms', R. rewrite (ms_trackers_insert ms i area area' _ Hi), Hperm3. done. }
    assert (ms_trackers ms ≡ₚ t :: A0 ++ R) as Hms0 by (by rewrite Hperm, Hperm2).
    eapply wp_mono; [apply (wp_drop_beside base m3 (ms_page_table ms) t (ms_trackers ms' ++ rest))|].
    { eapply pt_owns_perm; [|exact Ho3]. rewrite Hms0, Hms'. cbn. apply Permutation_swap. }
    cbn beta. intros _ m4 (Ho4 & Hmap4 & Hmem4 & _). cbn [fst snd]. split; [done|].
    assert (mapping_eq (mapped m4 (ms_page_table ms))
      (map_update (mapped m (ms_page_table ms)) vpn (Some (private_entry e (ft_ppn nt))))) as Hmap.
    { intros v Hv'. rewrite Hmap4, (pe_mapping _ _ _ _ _ _ _ _ _ He v Hv'). unfold map_update.
      case_decide; [done|]. by rewrite Hmap2, Hmap1. }
    assert (forall q, mem_page m4 q = mem_page m3 q) as Hm4 by (intros q; unfold mem_page; by rewrite Hmem4).
    assert (same_pages m m4 (ms_trackers ms ++ rest)) as Hsame.
    { intros t' Ht'. rewrite Hm4, (Hs3 t') by (by right). unfold m2. rewrite mem_page_set, decide_False.
      - apply Hs1, elem_of_app. by right.
      - intros E. rewrite owners_app, E in Hfresh. pose proof (owners_pos (ft_ppn t') _ t' Ht' eq_refl).
        pose proof (owners_nonneg (ft_ppn t') (pt_frames (ms_page_table ms))). lia. }
    split.
    + apply (ms_inv_replace m ms rest i area vpn nt m4 (private_entry e (ft_ppn nt))); auto.
      exact (proj1 (PageTableEntry_new_ppn (ft_ppn nt) _ Hnr Hb)).
    + done.
    + exists (ft_ppn nt). split; [|split; [done|split]].
      * rewrite (Hmap vpn Hv). unfold map_update. by rewrite decide_True.
      * rewrite owners_app in Hfresh |- *. rewrite owners_app in Hfresh |- *.
        rewrite (owners_perm _ _ _ Hms') . rewrite (owners_perm _ _ _ Hms0) in Hfresh.
        rewrite !owners_cons, !owners_app in *. rewrite decide_True by done.
        pose proof (owners_nonneg (ft_ppn nt) (pt_frames (ms_page_table ms))).
        pose proof (owners_nonneg (ft_ppn nt) A0). pose proof (owners_nonneg (ft_ppn nt) R).
        pose proof (owners_nonneg (ft_ppn nt) rest). case_decide; lia.
      * rewrite Hm4, (Hs3 nt) by left. unfold m2. rewrite mem_page_set, decide_True by done.
        rewrite <- Hp. apply Hs1. rewrite !elem_of_app. auto.
    + intros v Hv' Hne. rewrite (Hmap v Hv'). unfold map_update. by rewrite decide_False.
    + exact Hsame.
Qed.

(** A shared page and no free frame: the handler's [expect] fails. *)
Lemma run_cow_fault_no_frame m ms rest fault_va e :
  ms_inv base m ms rest ->
  mapped m (ms_page_table ms) (VirtAddr_floor fault_va) = Some e ->
  PageTableEntry_user_accessible e = true -> PageTableEntry_is_cow e = true ->
  frames_free (m_allocator m) <= 0 -> cow_owners ms rest e <> 1 ->
  MemorySet_handle_cow_fault ms fault_va m = Err Panic.
Proof.
  intros Hms Hm Hu Hcow Hfree Hown. pose proof (mi_owns _ _ _ _ Hms) as Ho.
  unfold MemorySet_handle_cow_fault, frame_ref_count, gets, mbind, M_bind. cbn beta iota.
  rewrite (mapped_is_translate _ _ _ _ Hm).
  assert (PageTableEntry_is_valid e = true) as -> by (by apply mapped_Some in Hm as (? & _ & _ & ?)).
  rewrite Hu, Hcow. cbn [andb]. unfold cow_owners in Hown. rewrite (count_owners _ _ _ _ Ho), (proj2 (Z.eqb_neq _ _) Hown).
  destruct (wp_run _ _ _ (wp_frame_alloc base m _ (pt_owns_tracked _ _ _ _ Ho))) as ([t|] & m' & -> & Hr); [|done].
  destruct Hr as ((Hi' & _) & _ & _ & Hfr & _). exfalso.
  pose proof (fa_bounds _ _ Hi'). unfold frames_free in *. lia.
Qed.
End Spaces.

(** ** Properties *)

(** C26: [mmap] on a user address space, with a frame free for each page of the
    mapping and two for the tables a page may need (three per page: an [mmap] of
    more memory than there is panics the kernel, [mmap_out_of_frames_panics]).
    Then the call neither panics nor diverges.
    When it succeeds, the pages it returns lie inside the mmap region, start
    where the caller asked if it asked, were unmapped before, and are now
    backed by zeroed frames of their own with exactly the user permissions
    [prot] asks for; every other page keeps its mapping and every frame in use
    its contents.  When it fails nothing has changed, and it fails only for an
    empty or overflowing length, bits outside [prot], a protection that cannot
    be read or executed, or when no admissible address fits. *)
Theorem mmap_correct base m ms rest start len prot :
  ms_inv base m ms rest -> is_usize start -> is_usize len -> is_usize prot ->
  3 * ((len + 4095) / 4096) <= frames_free (m_allocator m) ->
  let len' := (len + 4095) / 4096 * 4096 in
  exists r ms' m', MemorySet_mmap ms start len prot m = Ok ((r, ms'), m') /\
    ms_inv base m' ms' rest /\
    match r with
    | Some a => mmap_done m ms rest start len' prot a ms' m'
    | None => ms' = ms /\ m' = m /\
        (len = 0 \/ 8 <= prot \/ mmap_permission prot = None \/ 2 ^ 64 <= len + 4095 \/
         forall a, a mod PAGE_SIZE = 0 -> MMAP_BASE <= a -> (start <> 0 -> a = start) ->
           ~ mmap_fits ms len' a)
    end.
Proof.
  intros Hms Hs Hl Hp Hf len'.
  destruct (wp_run _ _ _ (wp_mmap base m ms rest start len prot Hms Hs Hl Hp Hf)) as ([r ms'] & m' & Hr & H).
  by exists r, ms', m'.
Qed.

(** An address space without areas. *)
Lemma demo_space : exists ms m, MemorySet_new_bare demo_pool = Ok (ms, m) /\
  ms_inv 100 m ms [] /\ ms_areas ms = [] /\ frames_free (m_allocator m) = 31.
Proof.
  destruct (wp_run _ _ _ (wp_PageTable_new 100 demo_pool [] demo_pool_tracked ltac:(done)))
    as (pt & m & Hr & t & lab & Hpt & Hfr & _ & Hf & _ & Hn).
  exists (mkMemorySet pt []), m. split_and!; [|split| |]; cbn.
  - unfold MemorySet_new_bare, mbind, M_bind. by rewrite Hr.
  - exists lab. unfold ms_trackers. cbn. rewrite Hfr. exact Hpt.
  - intros area Ha. by apply elem_of_nil in Ha.
  - intros i j a b vpn Hi. by rewrite lookup_nil in Hi.
  - intros vpn _ [e He]. by rewrite Hn in He.
  - done.
  - by rewrite Hf.
Qed.

Lemma is_usize_lit x : (0 <=? x) && (x <? 2 ^ 64) = true -> is_usize x.
Proof. unfold is_usize. rewrite andb_true_iff, Z.leb_le, Z.ltb_lt. done. Qed.

Lemma mmap_correct_witness : exists ms m ms' m',
  MemorySet_new_bare demo_pool = Ok (ms, m) /\
  MemorySet_mmap ms 0x20001000 5000 3 m = Ok ((Some 0x20001000, ms'), m') /\ ms_inv 100 m' ms' [].
Proof.
  destruct demo_space as (ms & m & Hr & Hms & Ha & Hf). exists ms, m.
  destruct (mmap_correct 100 m ms [] 0x20001000 5000 3 Hms ltac:(by apply is_usize_lit)
    ltac:(by apply is_usize_lit) ltac:(by apply is_usize_lit) ltac:(rewrite Hf; by vm_compute))
    as (r & ms' & m' & Hrun & Hms' & Hres).
  exists ms', m'. destruct r as [a|].
  - destruct Hres as [(_ & _ & _ & Hreq) _ _ _]. rewrite (Hreq ltac:(lia)) in Hrun. done.
  - exfalso. destruct Hres as (_ & _ & Hno). destruct_or! Hno; try lia; [by vm_compute in Hno|].
    apply (Hno 0x20001000); [reflexivity|unfold MMAP_BASE; lia|done|].
    split; [by vm_compute|]. unfold MemorySet_area_conflicts. by rewrite Ha.
Defined.

(** Forty pages of a machine that has 31 free frames: the [unwrap] of
    [frame_alloc] fails, inside the kernel. *)
Lemma mmap_out_of_frames_panics : exists ms m, MemorySet_new_bare demo_pool = Ok (ms, m) /\
  frames_free (m_allocator m) = 31 /\ MemorySet_mmap ms 0 (40 * 4096) 3 m = Err Panic.
Proof.
  destruct (MemorySet_new_bare demo_pool) as [[ms m]|] eqn:E; [|by vm_compute in E].
  exists ms, m. split; [done|]. vm_compute in E. injection E as <- <-. split; vm_compute; reflexivity.
Qed.

(** Without a requested address [mmap] is first fit: it settles on the
    lowest page-aligned address of the region at which the mapping overlaps no
    area, the search ends within one step per page of the region, and it
    gives up only when no address fits. *)
Theorem mmap_first_fit ms len :
  0 <= len < 2 ^ 64 ->
  exists r, mmap_choose ms 0 len = Ok r /\
    match r with
    | Some a => a mod PAGE_SIZE = 0 /\ MMAP_BASE <= a /\ mmap_fits ms len a /\
        forall b, b mod PAGE_SIZE = 0 -> MMAP_BASE <= b < a -> ~ mmap_fits ms len b
    | None => forall b, b mod PAGE_SIZE = 0 -> MMAP_BASE <= b -> ~ mmap_fits ms len b
    end.
Proof.
  intros Hl. destruct (mmap_search_spec ms len mmap_fuel MMAP_BASE Hl) as (r & Hr & Hspec);
    [unfold MMAP_BASE, MMAP_END, PAGE_SIZE; lia|by vm_compute|].
  assert (forall b, b mod PAGE_SIZE = 0 -> MMAP_BASE <= b ->
    exists j, 0 <= j /\ b = MMAP_BASE + j * PAGE_SIZE) as Hidx.
  { intros b Hb Hge. exists ((b - MMAP_BASE) / PAGE_SIZE). unfold MMAP_BASE, PAGE_SIZE in *. split; zdiv_lia. }
  exists r. split; [done|]. destruct r as [a|].
  - destruct Hspec as (k & Hk & -> & Hfit & Hbefore). split_and!; try apply Hfit.
    + unfold MMAP_BASE, PAGE_SIZE. zdiv_lia.
    + unfold PAGE_SIZE. lia.
    + intros b Hb [Hge Hlt]. destruct (Hidx b Hb Hge) as (j & Hj & ->). apply Hbefore.
      unfold PAGE_SIZE in *. lia.
  - intros b Hb Hge. destruct (Hidx b Hb Hge) as (j & Hj & ->). by apply Hspec.
Qed.

Definition demo_areas : MemorySet :=
  mkMemorySet (mkPageTable 0 []) [mkArea (mkRange 0x20000 0x20002) ∅ Framed MapPermission_U].

Lemma mmap_first_fit_witness : mmap_choose demo_areas 0 0x1000 = Ok (Some 0x20002000).
Proof.
  destruct (mmap_first_fit demo_areas 0x1000 ltac:(lia)) as (r & Hr & _). rewrite Hr.
  vm_compute in Hr. injection Hr as <-. reflexivity.
Defined.

(** [munmap] removes a mapping exactly when the range it is given is page
    aligned, not empty, and is the whole range of a framed user area; that
    area's pages become unmapped and its frames are released, every other page
    keeps its mapping and the frames of the other owners their contents.  In
    any other case nothing changes and the result is [false]. *)
Theorem munmap_correct base m ms rest start len :
  ms_inv base m ms rest -> 0 <= start -> 0 <= len -> start + len < 2 ^ 39 ->
  exists r ms' m', MemorySet_munmap ms start len m = Ok ((r, ms'), m') /\
    if r : bool then start mod PAGE_SIZE = 0 /\ len mod PAGE_SIZE = 0 /\ 0 < len /\
      exists area, munmap_target start len area /\ area_removed base m ms rest area ms' m'
    else ms' = ms /\ m' = m /\
      ~ (start mod PAGE_SIZE = 0 /\ len mod PAGE_SIZE = 0 /\ 0 < len /\
         exists area, area ∈ ms_areas ms /\ munmap_target start len area).
Proof.
  intros Hms Hs Hl He.
  destruct (wp_run _ _ _ (wp_munmap base m ms rest start len Hms Hs Hl He)) as ([r ms'] & m' & Hr & H).
  by exists r, ms', m'.
Qed.

Lemma munmap_correct_witness : exists ms m ms1 m1 ms2 m2,
  MemorySet_mmap ms 0x20001000 4096 3 m = Ok ((Some 0x20001000, ms1), m1) /\
  MemorySet_munmap ms1 0x20001000 4096 m1 = Ok ((true, ms2), m2) /\
  mapped m2 (ms_page_table ms2) 0x20001 = None.
Proof.
  destruct demo_space as (ms & m & _ & Hms & Ha & Hf). exists ms, m.
  destruct (wp_run _ _ _ (wp_insert_framed_area 100 m ms [] 0x20001000 0x20002000 22 Hms
    ltac:(lia) ltac:(by vm_compute) ltac:(by vm_compute)
    ltac:(intros a v Hin; rewrite Ha in Hin; by apply elem_of_nil in Hin)
    ltac:(rewrite Hf; by vm_compute))) as (ms1 & m1 & Hr & Hms1 & _ & (area & Hareas & Hrng & Hperm) & _).
  assert (MemorySet_mmap ms 0x20001000 4096 3 m = Ok ((Some 0x20001000, ms1), m1)) as Hmm.
  { unfold MemorySet_mmap.
    assert ((4096 =? 0) || negb (Z.land 3 (usize_not 7) =? 0) = false) as -> by reflexivity.
    assert (mmap_round 4096 = Some 4096) as -> by reflexivity.
    assert (mmap_permission 3 = Some 22) as -> by reflexivity.
    replace (mmap_choose ms 0x20001000 4096) with (Ok (Some 0x20001000)).
    2:{ unfold mmap_choose. cbn. unfold MemorySet_area_conflicts. by rewrite Ha. }
    unfold mbind, M_bind.
    assert (VirtAddr_from_usize 0x20001000 = 0x20001000) as -> by reflexivity.
    assert (VirtAddr_from_usize (usize_wrap (0x20001000 + 4096)) = 0x20002000) as -> by reflexivity.
    by rewrite Hr. }
  destruct (munmap_correct 100 m1 ms1 [] 0x20001000 4096 Hms1 ltac:(lia) ltac:(lia) ltac:(lia))
    as (r & ms2 & m2 & Hu & Hres).
  exists ms1, m1, ms2, m2. split; [exact Hmm|]. destruct r.
  - split; [exact Hu|]. destruct Hres as (_ & _ & _ & area' & (Er & _) & Hrm).
    apply (ar_gone _ _ _ _ _ _ _ Hrm 0x20001 ltac:(lia)). rewrite Er. by vm_compute.
  - exfalso. destruct Hres as (_ & _ & Hno). apply Hno. split_and!; try done; try lia.
    assert (area ∈ ms_areas ms1) as Hin by (rewrite Hareas; apply elem_of_app; right; left).
    exists area. split; [done|]. split_and!; [by rewrite Hrng| |by rewrite Hperm].
    apply (mi_areas _ _ _ _ Hms1 area Hin).
Defined.

(** C25: a copy-on-write fault gives the faulting page a frame of its own.
    On a user page marked copy-on-write, the handler resolves the fault when
    the page's frame has no other owner or a frame is free: the page becomes
    writable, its frame has exactly one owner in the whole machine and the
    contents the page had, and no other page and no frame anybody else holds
    changes, so a write that follows is invisible to every other address space.
    It reuses the frame when it is the last owner and copies it otherwise.  In
    the one case left, a shared frame and no free one, the kernel panics. *)
Theorem cow_fault_private base m ms rest fault_va e :
  ms_inv base m ms rest -> 0 <= fault_va < TRAMPOLINE_VPN * PAGE_SIZE ->
  mapped m (ms_page_table ms) (VirtAddr_floor fault_va) = Some e ->
  PageTableEntry_user_accessible e = true -> PageTableEntry_is_cow e = true ->
  if (frames_free (m_allocator m) <=? 0) && negb (cow_owners ms rest e =? 1)
  then MemorySet_handle_cow_fault ms fault_va m = Err Panic
  else exists ms' m', MemorySet_handle_cow_fault ms fault_va m = Ok ((true, ms'), m') /\
    fault_resolved base m ms rest (VirtAddr_floor fault_va) e ms' m' /\
    forall e', mapped m' (ms_page_table ms') (VirtAddr_floor fault_va) = Some e' ->
      PageTableEntry_writable e' = true /\ PageTableEntry_is_cow e' = false /\
      PageTableEntry_user_accessible e' = true.
Proof.
  intros Hms Hva Hm Hu Hc. destruct (_ && _) eqn:Ef.
  { apply andb_true_iff in Ef as [Hf%Z.leb_le Ho%negb_true_iff%Z.eqb_neq]. by eapply run_cow_fault_no_frame. }
  assert (1 <= frames_free (m_allocator m) \/ cow_owners ms rest e = 1) as Hf.
  { apply andb_false_iff in Ef as [Hf%Z.leb_gt|Ho%negb_false_iff%Z.eqb_eq]; [left; lia|by right]. }
  destruct (wp_run _ _ _ (wp_handle_cow_fault base m ms rest fault_va e Hms Hva Hm Hu Hc Hf))
    as ([b ms'] & m' & Hr & Hb & Hres). cbn [fst snd] in *. subst b.
  exists ms', m'. split; [done|]. split; [done|]. intros e' He'.
  destruct Hres as [_ Ht (ppn & Hm' & Hp & _) _ _]. rewrite Ht, Hm' in He'. injection He' as <-.
  unfold private_entry. set (f := flags_insert (flags_insert (PageTableEntry_flags e) PTE_W) PTE_V).
  assert (is_byte f) as Hb by (apply flags_insert_byte; [apply flags_insert_byte|]; auto; done).
  unfold PageTableEntry_writable, PageTableEntry_user_accessible in *.
  destruct (PageTableEntry_new_flags ppn f Hp Hb) as [-> _].
  destruct (PageTableEntry_new_is_cow ppn f Hp Hb) as [-> _].
  unfold PTE_W, PTE_U in *. rewrite !flags_contains_bit in * by done. subst f. unfold flags_insert.
  rewrite !Z.lor_spec. unfold PTE_W, PTE_V. rewrite Hu. cbn. rewrite orb_true_r. done.
Qed.

(** A space with one user page, marked copy-on-write. *)
Lemma demo_cow_space : exists ms m e, ms_inv 100 m ms [] /\
  mapped m (ms_page_table ms) 0x20001 = Some e /\ PageTableEntry_user_accessible e = true /\
  PageTableEntry_is_cow e = true /\ 1 <= frames_free (m_allocator m).
Proof.
  destruct demo_space as (ms & m & _ & Hms & Ha & Hf).
  destruct (wp_run _ _ _ (wp_insert_framed_area 100 m ms [] 0x20001000 0x20002000 22 Hms
    ltac:(lia) ltac:(by vm_compute) ltac:(by vm_compute)
    ltac:(intros a v Hin; rewrite Ha in Hin; by apply elem_of_nil in Hin)
    ltac:(rewrite Hf; by vm_compute))) as (ms1 & m1 & _ & Hms1 & _ & (area & Hareas & Hrng & _) & Hnew & _ & Hf1).
  assert (VirtAddr_floor 0x20001000 = 0x20001 /\ VirtAddr_ceil 0x20002000 = 0x20002) as [E1 E2] by done.
  rewrite E1, E2 in *. destruct (Hnew 0x20001 ltac:(lia)) as (t & Ht & Hm & Hr & _ & _).
  set (f := flags_insert 22 PTE_V) in *. set (e := PageTableEntry_new (ft_ppn t) f) in *.
  destruct (PageTableEntry_new_flags (ft_ppn t) f Hr ltac:(by vm_compute)) as [Hfl _].
  destruct (PageTableEntry_new_is_cow (ft_ppn t) f Hr ltac:(by vm_compute)) as [Hcw _].
  destruct (PageTableEntry_new_ppn (ft_ppn t) f Hr ltac:(by vm_compute)) as [Hpp _].
  fold e in Hfl, Hcw, Hpp. rewrite Ha in Hareas. cbn in Hareas.
  pose proof (mi_owns _ _ _ _ Hms1) as Ho. pose proof Ho as [lab Hinv].
  destruct (wp_run _ _ _ (wp_mark_cow 100 m1 _ _ lab 0x20001 Hinv ltac:(lia) e Hm
    ltac:(unfold PageTableEntry_writable; rewrite Hfl, Hcw; by vm_compute))) as (_ & m2 & _ & He).
  destruct (pt_effect_owns 100 m1 _ _ _ _ _ _ _ He) as [Ho2 _].
  unfold cow_entry in He. rewrite Hcw, Hpp, Hfl in He.
  set (f2 := flags_remove f PTE_W) in *. set (e2 := PageTableEntry_new_cow (ft_ppn t) f2) in *.
  destruct (page_frame 100 m1 ms1 [] 0x20001 e Hms1 ltac:(lia) ltac:(unfold TRAMPOLINE_VPN; lia) Hm)
    as (i & a & t' & Hi & Hir & Hd & Hp' & _).
  assert (t' = t) as -> by (destruct t', t; cbn in *; congruence).
  pose proof (ms_inv_replace 100 m1 ms1 [] i a 0x20001 t m2 e2 Hms1 Hi Hir) as Hrep.
  cbv zeta in Hrep. assert (set_frames a (<[0x20001 := t]> (ma_data_frames a)) = a) as Ea.
  { rewrite insert_id by done. by destruct a. }
  rewrite Ea, list_insert_id in Hrep by done.
  assert (mkMemorySet (ms_page_table ms1) (ms_areas ms1) = ms1) as Em by (by destruct ms1).
  rewrite Em in Hrep. exists ms1, m2, e2. split_and!.
  - apply Hrep; [done|apply He|]. exact (proj2 (PageTableEntry_new_ppn (ft_ppn t) f2 Hr ltac:(by vm_compute))).
  - rewrite (pe_mapping _ _ _ _ _ _ _ _ _ He 0x20001 ltac:(lia)). reflexivity.
  - unfold PageTableEntry_user_accessible, e2.
    rewrite (proj2 (PageTableEntry_new_flags (ft_ppn t) f2 Hr ltac:(by vm_compute))). by vm_compute.
  - exact (proj2 (PageTableEntry_new_is_cow (ft_ppn t) f2 Hr ltac:(by vm_compute))).
  - rewrite (pe_free _ _ _ _ _ _ _ _ _ He). cbn. lia.
Qed.

Lemma cow_fault_private_witness : exists ms m ms' m',
  MemorySet_handle_cow_fault ms 0x20001010 m = Ok ((true, ms'), m') /\ ms_inv 100 m' ms' [].
Proof.
  destruct demo_cow_space as (ms & m & e & Hms & Hm & Hu & Hc & Hf).
  pose proof (cow_fault_private 100 m ms [] 0x20001010 e Hms ltac:(by vm_compute) Hm Hu Hc) as Hx.
  rewrite (proj2 (Z.leb_gt _ 0)) in Hx by lia. cbn [andb] in Hx. destruct Hx as (ms' & m' & Hr & Hres & _).
  exists ms, m, ms', m'. split; [exact Hr|exact (fr_inv _ _ _ _ _ _ _ _ Hres)].
Defined.

(** [ensure_private_range] forgets the high bits of the end of the range:
    [VirtAddr::from] keeps 39 bits, so for a length that carries the end past
    the 39-bit address space and back below the start, the check visits no
    page at all and answers [true], whatever is mapped, for an arbitrary
    unmapped or read-only buffer. *)
Theorem ensure_private_range_wraps ms m va len :
  0 <= va < 2 ^ 38 -> 0 < len -> va + len < 2 ^ 64 ->
  (va + len) mod 2 ^ 39 <= va / PAGE_SIZE * PAGE_SIZE ->
  MemorySet_ensure_private_range ms va len m = Ok ((true, ms), m).
Proof.
  intros Hva Hl He Hwrap. unfold MemorySet_ensure_private_range.
  destruct (Z.eqb_spec len 0); [lia|]. rewrite VirtAddr_into_usize_spec by lia.
  destruct (Z.ltb_spec va (2 ^ 38)); [|lia]. unfold checked_add.
  destruct (Z.ltb_spec (va + len) (2 ^ 64)); [|lia]. cbn [ensure_private_loop].
  rewrite VirtAddr_from_usize_mod.
  assert (0 <= (va + len) mod 2 ^ 39 < 2 ^ 39) as Hm by (apply Z.mod_pos_bound; lia).
  rewrite VirtAddr_ceil_spec by done. unfold VirtAddr_floor.
  destruct (Z.ltb_spec (va / PAGE_SIZE) (((va + len) mod 2 ^ 39 + (PAGE_SIZE - 1)) / PAGE_SIZE)) as [Hlt|]; [|done].
  exfalso. set (x := (va + len) mod 2 ^ 39) in *. clearbody x. unfold PAGE_SIZE in *. zdiv_lia.
Qed.

Lemma ensure_private_range_wraps_witness :
  MemorySet_ensure_private_range demo_areas 0x1000 (2 ^ 39) demo_pool
  = Ok ((true, demo_areas), demo_pool).
Proof. apply ensure_private_range_wraps; [lia|lia|lia|by vm_compute]. Defined.
