(* ===== verification/Ids.v ===== *)
(** * Identifiers and per-task resources ([os/src/task/id.rs])

    The allocator behind process, kernel-stack and thread identifiers, the
    placement of kernel stacks, user stacks and trap contexts, and the user
    resources of a thread ([TaskUserRes]). *)

From stdpp Require Import list numbers gmap.
From S2P Require Import Prelude Address FrameAllocator PageTable MemorySet.

Open Scope Z_scope.

(** ** The allocator *)

Record RecycleAllocator := mkRA { ra_current : Z; ra_recycled : list Z }.

Definition RecycleAllocator_new_start (current : Z) : RecycleAllocator := mkRA current [].
Definition RecycleAllocator_new : RecycleAllocator := RecycleAllocator_new_start 0.

Definition RecycleAllocator_alloc : M RecycleAllocator Z :=
  a ← get;
  match vec_pop (ra_recycled a) with
  | Some (id, rest) => put (mkRA (ra_current a) rest);; mret id
  | None =>
      put (mkRA (usize_wrap (ra_current a + 1)) (ra_recycled a));;
      mret (ra_current a)
  end.

Definition RecycleAllocator_dealloc (id : Z) : M RecycleAllocator unit :=
  a ← get;
  massert (id <? ra_current a);;
  massert (negb (existsb (fun i => i =? id) (ra_recycled a)));;
  put (mkRA (ra_current a) (ra_recycled a ++ [id])).

Definition IDLE_PID : Z := 1.

(** ** Placement *)

Definition kernel_stack_position (kstack_id : Z) : Z * Z :=
  let top := usize_wrap (TRAMPOLINE - usize_wrap (kstack_id * (KERNEL_STACK_SIZE + PAGE_SIZE))) in
  let bottom := usize_wrap (top - KERNEL_STACK_SIZE) in
  (bottom, top).

Definition trap_cx_bottom_from_tid (tid : Z) : Z :=
  usize_wrap (TRAP_CONTEXT_BASE - usize_wrap (tid * PAGE_SIZE)).

Definition ustack_bottom_from_tid (ustack_base tid : Z) : Z :=
  usize_wrap (ustack_base + usize_wrap (tid * usize_wrap (PAGE_SIZE + USER_STACK_SIZE))).

(** ** Kernel stacks *)

Record KernelState := mkKernel {
  ks_machine : Machine;
  ks_kernel_space : MemorySet;
  ks_kstack_allocator : RecycleAllocator
}.

(** [KSTACK_ALLOCATOR.exclusive_access().f()]. *)
Definition with_kstack_allocator {A : Type} (f : M RecycleAllocator A) : M KernelState A := fun s =>
  match f (ks_kstack_allocator s) with
  | Ok (a, ra) => Ok (a, mkKernel (ks_machine s) (ks_kernel_space s) ra)
  | Err e => Err e
  end.

(** [KERNEL_SPACE.exclusive_access().f()]. *)
Definition with_kernel_space (f : MemorySet -> M Machine MemorySet) : M KernelState unit := fun s =>
  match f (ks_kernel_space s) (ks_machine s) with
  | Ok (ms, m) => Ok (tt, mkKernel m ms (ks_kstack_allocator s))
  | Err e => Err e
  end.

Record KernelStack := mkKStack { kstack_id : Z }.

Definition kstack_alloc : M KernelState KernelStack :=
  id ← with_kstack_allocator RecycleAllocator_alloc;
  let '(kstack_bottom, kstack_top) := kernel_stack_position id in
  with_kernel_space (fun ms =>
    MemorySet_insert_framed_area ms (VirtAddr_from_usize kstack_bottom) (VirtAddr_from_usize kstack_top)
      (perm_or MapPermission_R MapPermission_W));;
  mret (mkKStack id).

Definition KernelStack_drop (k : KernelStack) : M KernelState unit :=
  let '(kernel_stack_bottom, _) := kernel_stack_position (kstack_id k) in
  vpn ← unwrap (VirtPageNum_from_VirtAddr (VirtAddr_from_usize kernel_stack_bottom));
  with_kernel_space (fun ms => MemorySet_remove_area_with_start_vpn ms vpn);;
  with_kstack_allocator (RecycleAllocator_dealloc (kstack_id k)).

Definition KernelStack_get_top (k : KernelStack) : Z := snd (kernel_stack_position (kstack_id k)).

(** ** The user resources of a thread *)

(** The part of the process a [TaskUserRes] works on, with the machine. *)
Record ProcessRes := mkProcRes {
  pr_machine : Machine;
  pr_memory_set : MemorySet;
  pr_task_res_allocator : RecycleAllocator
}.

Record TaskUserRes := mkUserRes { ur_tid : Z; ur_ustack_base : Z }.

Definition with_tid_allocator {A : Type} (f : M RecycleAllocator A) : M ProcessRes A := fun s =>
  match f (pr_task_res_allocator s) with
  | Ok (a, ra) => Ok (a, mkProcRes (pr_machine s) (pr_memory_set s) ra)
  | Err e => Err e
  end.

Definition with_memory_set (f : MemorySet -> M Machine MemorySet) : M ProcessRes unit := fun s =>
  match f (pr_memory_set s) (pr_machine s) with
  | Ok (ms, m) => Ok (tt, mkProcRes m ms (pr_task_res_allocator s))
  | Err e => Err e
  end.

Definition TaskUserRes_alloc_user_res (r : TaskUserRes) : M ProcessRes unit :=
  let ustack_bottom := ustack_bottom_from_tid (ur_ustack_base r) (ur_tid r) in
  let ustack_top := usize_wrap (ustack_bottom + USER_STACK_SIZE) in
  with_memory_set (fun ms =>
    MemorySet_insert_framed_area ms (VirtAddr_from_usize ustack_bottom) (VirtAddr_from_usize ustack_top)
      (perm_or (perm_or MapPermission_R MapPermission_W) MapPermission_U));;
  let trap_cx_bottom := trap_cx_bottom_from_tid (ur_tid r) in
  let trap_cx_top := usize_wrap (trap_cx_bottom + PAGE_SIZE) in
  with_memory_set (fun ms =>
    MemorySet_insert_framed_area ms (VirtAddr_from_usize trap_cx_bottom) (VirtAddr_from_usize trap_cx_top)
      (perm_or MapPermission_R MapPermission_W)).

Definition TaskUserRes_new (ustack_base : Z) (alloc_user_res : bool) : M ProcessRes TaskUserRes :=
  tid ← with_tid_allocator RecycleAllocator_alloc;
  let r := mkUserRes tid ustack_base in
  (if alloc_user_res then TaskUserRes_alloc_user_res r else mret tt);;
  mret r.

(** [va.into()] of a [VirtAddr] where a page number is expected. *)
Definition vpn_of_usize (a : Z) : option VirtPageNum := VirtPageNum_from_VirtAddr (VirtAddr_from_usize a).

Definition TaskUserRes_dealloc_user_res (r : TaskUserRes) : M ProcessRes unit :=
  ustack_bottom ← unwrap (vpn_of_usize (ustack_bottom_from_tid (ur_ustack_base r) (ur_tid r)));
  with_memory_set (fun ms => MemorySet_remove_area_with_start_vpn ms ustack_bottom);;
  trap_cx_bottom ← unwrap (vpn_of_usize (trap_cx_bottom_from_tid (ur_tid r)));
  with_memory_set (fun ms => MemorySet_remove_area_with_start_vpn ms trap_cx_bottom).

Definition TaskUserRes_alloc_tid (r : TaskUserRes) : M ProcessRes TaskUserRes :=
  tid ← with_tid_allocator RecycleAllocator_alloc;
  mret (mkUserRes tid (ur_ustack_base r)).
Definition TaskUserRes_dealloc_tid (r : TaskUserRes) : M ProcessRes unit :=
  with_tid_allocator (RecycleAllocator_dealloc (ur_tid r)).

Definition TaskUserRes_trap_cx_user_va (r : TaskUserRes) : Z := trap_cx_bottom_from_tid (ur_tid r).

Definition TaskUserRes_trap_cx_ppn (r : TaskUserRes) : M ProcessRes PhysPageNum :=
  vpn ← unwrap (vpn_of_usize (trap_cx_bottom_from_tid (ur_tid r)));
  o ← gets (fun s => MemorySet_translate (pr_machine s) (pr_memory_set s) vpn);
  pte ← unwrap o;
  mret (PageTableEntry_ppn pte).

Definition TaskUserRes_ustack_top (r : TaskUserRes) : Z :=
  usize_wrap (ustack_bottom_from_tid (ur_ustack_base r) (ur_tid r) + USER_STACK_SIZE).

(** The drop of a [TaskUserRes]. *)
Definition TaskUserRes_drop (r : TaskUserRes) : M ProcessRes unit :=
  TaskUserRes_dealloc_tid r;;
  TaskUserRes_dealloc_user_res r.

(** ** Allocating identifiers *)

(** The identifiers in use: those below [ra_current] that are not in the free
    list. *)
Record ra_inv (start : Z) (a : RecycleAllocator) : Prop := {
  rai_bounds : 0 <= start <= ra_current a /\ ra_current a < 2 ^ 64;
  rai_nodup : NoDup (ra_recycled a);
  rai_recycled id : id ∈ ra_recycled a -> start <= id < ra_current a
}.

Definition ra_used (start : Z) (a : RecycleAllocator) (id : Z) : Prop :=
  start <= id < ra_current a /\ id ∉ ra_recycled a.

#[export] Instance ra_used_dec start a id : Decision (ra_used start a id).
Proof. unfold ra_used. apply _. Defined.

Lemma wp_ra_alloc start a :
  ra_inv start a -> ra_current a + 1 < 2 ^ 64 ->
  wp RecycleAllocator_alloc (fun id a' => ra_inv start a' /\ start <= id < ra_current a' /\
    ra_current a' <= ra_current a + 1 /\
    ~ ra_used start a id /\ forall i, ra_used start a' i <-> (i = id \/ ra_used start a i)) a.
Proof.
  intros [Hb Hn Hr] Hc. unfold RecycleAllocator_alloc. wp_simpl.
  destruct (vec_pop (ra_recycled a)) as [[id rest]|] eqn:Ev; wp_simpl.
  - apply vec_pop_Some in Ev. unfold ra_used. cbn. rewrite Ev in *. apply NoDup_app in Hn as (Hn & Hd & _).
    assert (id ∉ rest) as Hni by (intros Hin; apply (Hd _ Hin); left).
    assert (start <= id < ra_current a) as Hid by (apply Hr, elem_of_app; right; left).
    split_and!; try lia.
    + split; cbn; [done|done|]. intros i Hi. apply Hr, elem_of_app. by left.
    + rewrite elem_of_app, list_elem_of_singleton. tauto.
    + intros i. rewrite elem_of_app, list_elem_of_singleton. split.
      * intros [? ?]. destruct (decide (i = id)); [by left|]. right. tauto.
      * intros [->|[? ?]]; tauto.
  - apply vec_pop_None in Ev. unfold ra_used. cbn. rewrite Ev in *. unfold usize_wrap.
    rewrite Z.mod_small by lia. split_and!; try lia.
    + split; cbn; [lia|constructor|]. intros i Hi. by apply elem_of_nil in Hi.
    + intros i. split; [|intros [->|[? ?]]; split; try lia; apply not_elem_of_nil].
      intros [? _]. destruct (decide (i = ra_current a)); [by left|]. right. split; [lia|apply not_elem_of_nil].
Qed.

Lemma ra_dealloc_cases start a id :
  ra_inv start a -> 0 <= id ->
  if decide (ra_used start a id)
  then exists a', RecycleAllocator_dealloc id a = Ok (tt, a') /\ ra_inv start a' /\
    forall i, ra_used start a' i <-> (i <> id /\ ra_used start a i)
  else start <= id -> RecycleAllocator_dealloc id a = Err Panic.
Proof.
  intros [Hb Hn Hr] Hid. unfold RecycleAllocator_dealloc, mbind, M_bind. cbn.
  assert (existsb (fun i => i =? id) (ra_recycled a) = bool_decide (id ∈ ra_recycled a)) as E.
  { apply eq_true_iff_eq. rewrite existsb_exists, bool_decide_eq_true. split.
    - intros (x & Hx & ->%Z.eqb_eq). by apply list_elem_of_In.
    - intros Hx. exists id. by rewrite Z.eqb_refl, <- list_elem_of_In. }
  rewrite E. destruct (decide (ra_used start a id)) as [[D1 D2]|D].
  - destruct (Z.ltb_spec id (ra_current a)); [|lia]. cbn.
    rewrite bool_decide_eq_false_2 by done. cbn. eexists. split; [done|]. split.
    + split; cbn; [done| |].
      * apply NoDup_app. split_and!; [done| |apply NoDup_singleton].
        intros x Hx ->%list_elem_of_singleton. done.
      * intros i [Hi| ->%list_elem_of_singleton]%elem_of_app; auto.
    + intros i. unfold ra_used. cbn. rewrite elem_of_app, list_elem_of_singleton. split; [tauto|].
      intros (? & ? & ?). tauto.
  - intros Hs. destruct (Z.ltb_spec id (ra_current a)); [|done]. cbn.
    case_bool_decide as D2; [done|]. destruct D. split; [lia|done].
Qed.

(** A step of a client that allocates identifiers and returns the ones it
    holds. *)
Inductive ra_step : RecycleAllocator * list Z -> RecycleAllocator * list Z -> Prop :=
  | ra_step_alloc a held id a' :
      ra_current a + 1 < 2 ^ 64 -> RecycleAllocator_alloc a = Ok (id, a') ->
      ra_step (a, held) (a', id :: held)
  | ra_step_dealloc a h1 id h2 a' :
      RecycleAllocator_dealloc id a = Ok (tt, a') ->
      ra_step (a, h1 ++ id :: h2) (a', h1 ++ h2).

Definition ra_held (start : Z) (st : RecycleAllocator * list Z) : Prop :=
  ra_inv start (fst st) /\ NoDup (snd st) /\ forall id, id ∈ snd st <-> ra_used start (fst st) id.

Lemma ra_step_held start st st' : ra_held start st -> ra_step st st' -> ra_held start st'.
Proof.
  intros (Hi & Hn & Hh) Hs. destruct Hs as [a held id a' Hc Ha|a h1 id h2 a' Ha]; cbn in *.
  - eapply wp_Ok in Ha; [|by eapply wp_ra_alloc]. destruct Ha as (Hi' & _ & _ & Hnu & Hu).
    split_and!; cbn; [done| |].
    + constructor; [by rewrite Hh|done].
    + intros i. rewrite elem_of_cons, Hh, Hu. done.
  - assert (id ∈ h1 ++ id :: h2) as Hin by (rewrite elem_of_app; right; left).
    apply Hh in Hin as Hu. pose proof (ra_dealloc_cases start a id Hi) as Hd.
    pose proof (rai_bounds _ _ Hi). destruct Hu as [? ?].
    specialize (Hd ltac:(lia)). rewrite decide_True in Hd by done.
    destruct Hd as (a2 & Hr & Hi' & Hu'). assert (a2 = a') as -> by congruence.
    apply NoDup_app in Hn as (Hn1 & Hn2 & Hn3). apply NoDup_cons in Hn3 as [Hn3 Hn4].
    split_and!; cbn; [done| |].
    + apply NoDup_app. split_and!; [done| |done]. intros x Hx Hx2. apply (Hn2 x Hx). by right.
    + intros i. rewrite Hu', <- Hh, !elem_of_app, elem_of_cons. split.
      * intros Hi'1. split; [|tauto]. intros ->. destruct Hi'1 as [Hx|Hx]; [|done]. apply (Hn2 id Hx). left.
      * tauto.
Qed.

(** Identifiers are unique.  In every state reached from [new_start] by
    allocating and by returning held identifiers, no identifier is held twice,
    [alloc] hands out one that nobody holds, returning a held identifier
    succeeds, and returning one that is not held is caught by the assertions,
    whether it was never handed out or was returned before. *)
Theorem recycle_allocator_unique start a held :
  0 <= start < 2 ^ 64 ->
  rtc ra_step (RecycleAllocator_new_start start, []) (a, held) ->
  NoDup held /\
  (ra_current a + 1 < 2 ^ 64 -> exists id a', RecycleAllocator_alloc a = Ok (id, a') /\
     start <= id /\ id ∉ held) /\
  (forall id, id ∈ held -> exists a', RecycleAllocator_dealloc id a = Ok (tt, a')) /\
  (forall id, start <= id -> id ∉ held -> RecycleAllocator_dealloc id a = Err Panic).
Proof.
  intros Hs Hr.
  assert (ra_held start (a, held)) as (Hi & Hn & Hh).
  { assert (ra_held start (RecycleAllocator_new_start start, [])) as H0.
    { split_and!; [split; cbn; [lia|constructor|]|constructor|].
      - intros id Hid. by apply elem_of_nil in Hid.
      - intros id. unfold ra_used. cbn. split; [by intros ?%elem_of_nil|lia]. }
    remember (RecycleAllocator_new_start start, []) as st0 eqn:E0. clear E0.
    remember (a, held) as st eqn:E. revert H0. clear -Hr. 
    induction Hr as [|x y z Hxy _ IH]; [done|]. intros Hx. apply IH. by eapply ra_step_held. }
  cbn in *. split_and!; [done| | |].
  - intros Hc. destruct (wp_run _ _ _ (wp_ra_alloc start a Hi Hc)) as (id & a' & Ha & _ & Hid & _ & Hnu & _).
    exists id, a'. split_and!; [done|lia|by rewrite Hh].
  - intros id Hid%Hh. pose proof (rai_bounds _ _ Hi). destruct (Hid) as [? _].
    pose proof (ra_dealloc_cases start a id Hi ltac:(lia)) as Hd. rewrite decide_True in Hd by done.
    destruct Hd as (a' & ? & _). eauto.
  - intros id Hge Hni. pose proof (rai_bounds _ _ Hi).
    pose proof (ra_dealloc_cases start a id Hi ltac:(lia)) as Hd.
    rewrite decide_False in Hd by (by rewrite <- Hh). by apply Hd.
Qed.

Lemma recycle_allocator_unique_witness :
  RecycleAllocator_dealloc 1 (mkRA 3 [1]) = Err Panic /\
  rtc ra_step (RecycleAllocator_new_start 1, []) (mkRA 3 [1], [2]).
Proof.
  assert (rtc ra_step (RecycleAllocator_new_start 1, []) (mkRA 3 [1], [2])) as Hr.
  { eapply rtc_l; [by apply (ra_step_alloc _ _ 1 (mkRA 2 []))|].
    eapply rtc_l; [by apply (ra_step_alloc _ _ 2 (mkRA 3 []))|].
    eapply rtc_l; [|apply rtc_refl]. by apply (ra_step_dealloc _ [2] 1 []). }
  split; [|exact Hr].
  destruct (recycle_allocator_unique 1 (mkRA 3 [1]) [2] ltac:(lia) Hr) as (_ & _ & _ & H).
  apply (H 1); [lia|]. intros E%list_elem_of_singleton. discriminate.
Defined.

(** ** Placement of stacks *)

Lemma kernel_stack_position_eq id : 0 <= id < 2 ^ 20 ->
  kernel_stack_position id = (2 ^ 64 - 4096 - id * 12288 - 8192, 2 ^ 64 - 4096 - id * 12288).
Proof.
  intros Hid. unfold kernel_stack_position, TRAMPOLINE, KERNEL_STACK_SIZE, PAGE_SIZE, usize_max, usize_wrap.
  rewrite (Z.mod_small (id * _)) by lia. rewrite (Z.mod_small (_ - id * _)) by lia.
  rewrite Z.mod_small by lia. f_equal; lia.
Qed.

Lemma trap_cx_bottom_eq tid : 0 <= tid < 2 ^ 20 ->
  trap_cx_bottom_from_tid tid = 2 ^ 64 - 8192 - tid * 4096.
Proof.
  intros. unfold trap_cx_bottom_from_tid, TRAP_CONTEXT_BASE, TRAMPOLINE, PAGE_SIZE, usize_max, usize_wrap.
  rewrite (Z.mod_small (tid * _)) by lia. rewrite Z.mod_small by lia. lia.
Qed.

Lemma ustack_bottom_eq b tid : 0 <= tid < 2 ^ 20 -> 0 <= b < 2 ^ 40 ->
  ustack_bottom_from_tid b tid = b + tid * 12288.
Proof.
  intros. unfold ustack_bottom_from_tid, USER_STACK_SIZE, PAGE_SIZE, usize_wrap.
  rewrite (Z.mod_small (0x1000 + 4096 * 2)) by lia. rewrite (Z.mod_small (tid * _)) by lia.
  rewrite Z.mod_small by lia. lia.
Qed.

(** Stacks and trap contexts never collide.  Every kernel stack lies below
    the trampoline, in canonical addresses, with an unmapped guard page below
    it, and stacks of different identifiers are at least a page apart; the
    trap contexts of different threads of a process are different pages below
    the trampoline, and their user stacks are at least a page apart. *)
Theorem stacks_never_collide i j b :
  0 <= i < j -> j < 2 ^ 20 -> 0 <= b < 2 ^ 40 ->
  (let '(bottom_i, top_i) := kernel_stack_position i in
   let '(bottom_j, top_j) := kernel_stack_position j in
   top_i - bottom_i = KERNEL_STACK_SIZE /\ top_j + PAGE_SIZE <= bottom_i /\
   top_i <= TRAMPOLINE /\ canonical bottom_j /\ canonical (top_i - 1)) /\
  trap_cx_bottom_from_tid j + PAGE_SIZE <= trap_cx_bottom_from_tid i /\
  trap_cx_bottom_from_tid i + PAGE_SIZE <= TRAMPOLINE /\
  ustack_bottom_from_tid b i + USER_STACK_SIZE + PAGE_SIZE <= ustack_bottom_from_tid b j.
Proof.
  intros Hi Hj Hb. rewrite !kernel_stack_position_eq, !trap_cx_bottom_eq, !ustack_bottom_eq by lia.
  unfold KERNEL_STACK_SIZE, PAGE_SIZE, TRAMPOLINE, USER_STACK_SIZE, usize_max, canonical, PAGE_SIZE. lia.
Qed.

Lemma stacks_never_collide_witness :
  trap_cx_bottom_from_tid 1 + PAGE_SIZE <= trap_cx_bottom_from_tid 0.
Proof. exact (proj1 (proj2 (stacks_never_collide 0 1 0x10000 ltac:(lia) ltac:(lia) ltac:(lia)))). Defined.

(** ** The resources of a thread come and go *)

Lemma wp_with_memory_set f Q s :
  wp (with_memory_set f) Q s <->
  wp (f (pr_memory_set s)) (fun ms m => Q tt (mkProcRes m ms (pr_task_res_allocator s))) (pr_machine s).
Proof. unfold wp, with_memory_set. by destruct (f _ _) as [[ms m]|]. Qed.

Lemma wp_with_tid_allocator {A} (f : M RecycleAllocator A) Q s :
  wp (with_tid_allocator f) Q s <->
  wp f (fun a ra => Q a (mkProcRes (pr_machine s) (pr_memory_set s) ra)) (pr_task_res_allocator s).
Proof. unfold wp, with_tid_allocator. by destruct (f _) as [[a ra]|]. Qed.
#[export] Hint Rewrite wp_with_memory_set @wp_with_tid_allocator : wp.

(** Removing the area that starts at a page, when it is the only one. *)
Lemma wp_remove_start base m ms rest i area vpn :
  ms_inv base m ms rest -> ms_areas ms !! i = Some area -> range_l (ma_vpn_range area) = vpn ->
  (forall j b, ms_areas ms !! j = Some b -> range_l (ma_vpn_range b) = vpn -> j = i) ->
  wp (MemorySet_remove_area_with_start_vpn ms vpn)
    (fun ms' m' => area_removed base m ms rest area ms' m' /\ ms_areas ms' = delete i (ms_areas ms)) m.
Proof.
  intros Hms Hi Hl Huniq. unfold MemorySet_remove_area_with_start_vpn.
  assert (position (fun area => SimpleRange_get_start (ma_vpn_range area) =? vpn) (ms_areas ms) = Some i) as ->.
  { apply position_Some. exists area. unfold SimpleRange_get_start. split_and!; [done|by apply Z.eqb_eq|].
    intros j b Hj Hb. apply Z.eqb_neq. intros Hbl. specialize (Huniq j b Hb Hbl). lia. }
  rewrite Hi. wp_simpl. exists area. split; [done|].
  pose proof (wp_remove_area base m ms rest i area Hms Hi) as Hw. cbv zeta in Hw. rewrite wp_bind in Hw.
  wp_simpl. eapply wp_mono; [exact Hw|]. cbn beta. intros area' m1 H'. wp_simpl.
  eapply wp_mono; [exact H'|]. cbn beta. intros _ m2 Hrm. wp_simpl. split; [done|].
  cbn. by rewrite vec_remove_delete.
Qed.

(** The pages of the user stack and of the trap context of a thread. *)
Definition ustack_vpn (r : TaskUserRes) : Z := (ur_ustack_base r + ur_tid r * 12288) / PAGE_SIZE.
Definition trap_cx_vpn (r : TaskUserRes) : Z := 2 ^ 27 - 2 - ur_tid r.

(** A thread whose stack fits between the program and the trap contexts, in
    a space that has nothing there yet. *)
Record res_fits (ms : MemorySet) (r : TaskUserRes) : Prop := {
  rf_tid : 0 <= ur_tid r < 2 ^ 12;
  rf_base : 0 <= ur_ustack_base r < 2 ^ 37 /\ ur_ustack_base r mod PAGE_SIZE = 0;
  rf_free a vpn : a ∈ ms_areas ms -> in_range (ma_vpn_range a) vpn ->
    ~ (ustack_vpn r <= vpn < ustack_vpn r + 2) /\ vpn <> trap_cx_vpn r;
  rf_start a : a ∈ ms_areas ms -> range_l (ma_vpn_range a) <> ustack_vpn r /\
    range_l (ma_vpn_range a) <> trap_cx_vpn r
}.

Lemma res_addresses r : 0 <= ur_tid r < 2 ^ 12 -> 0 <= ur_ustack_base r < 2 ^ 37 ->
  ur_ustack_base r mod PAGE_SIZE = 0 ->
  let u := ustack_bottom_from_tid (ur_ustack_base r) (ur_tid r) in
  let t := trap_cx_bottom_from_tid (ur_tid r) in
  VirtAddr_from_usize u = ustack_vpn r * PAGE_SIZE /\
  VirtAddr_from_usize (usize_wrap (u + USER_STACK_SIZE)) = (ustack_vpn r + 2) * PAGE_SIZE /\
  VirtAddr_from_usize t = trap_cx_vpn r * PAGE_SIZE /\
  VirtAddr_from_usize (usize_wrap (t + PAGE_SIZE)) = (trap_cx_vpn r + 1) * PAGE_SIZE /\
  vpn_of_usize u = Some (ustack_vpn r) /\ vpn_of_usize t = Some (trap_cx_vpn r) /\
  0 <= ustack_vpn r /\ ustack_vpn r + 2 < trap_cx_vpn r /\ trap_cx_vpn r < TRAMPOLINE_VPN.
Proof.
  intros Ht Hb Hal u t. subst u t. rewrite ustack_bottom_eq, trap_cx_bottom_eq by lia.
  unfold vpn_of_usize, VirtPageNum_from_VirtAddr, VirtAddr_floor.
  rewrite VirtAddr_page_offset_mod, VirtAddr_page_offset_mod, !VirtAddr_from_usize_mod.
  unfold ustack_vpn, trap_cx_vpn, usize_wrap, USER_STACK_SIZE, PAGE_SIZE, TRAMPOLINE_VPN in *.
  assert ((ur_ustack_base r + ur_tid r * 12288) mod 2 ^ 39 = ur_ustack_base r + ur_tid r * 12288) as ->
    by (apply Z.mod_small; lia).
  assert ((2 ^ 64 - 8192 - ur_tid r * 4096) mod 2 ^ 39 = 2 ^ 39 - 8192 - ur_tid r * 4096) as ->.
  { replace (2 ^ 64 - 8192 - ur_tid r * 4096) with
      (2 ^ 39 - 8192 - ur_tid r * 4096 + (2 ^ 25 - 1) * 2 ^ 39) by lia.
    rewrite Z.mod_add by lia. apply Z.mod_small. lia. }
  rewrite (Z.mod_small (ur_ustack_base r + ur_tid r * 12288 + _)) by lia.
  rewrite (Z.mod_small (ur_ustack_base r + ur_tid r * 12288 + _)) by lia.
  assert ((ur_ustack_base r + ur_tid r * 12288) mod 4096 = 0) as -> by zdiv_lia.
  assert ((2 ^ 39 - 8192 - ur_tid r * 4096) mod 4096 = 0) as -> by zdiv_lia.
  assert (((2 ^ 64 - 8192 - ur_tid r * 4096 + 4096) mod 2 ^ 64) mod 2 ^ 39 = 2 ^ 39 - 4096 - ur_tid r * 4096) as ->.
  { rewrite (Z.mod_small _ (2 ^ 64)) by lia.
    replace (2 ^ 64 - 8192 - ur_tid r * 4096 + 4096) with
      (2 ^ 39 - 4096 - ur_tid r * 4096 + (2 ^ 25 - 1) * 2 ^ 39) by lia.
    rewrite Z.mod_add by lia. apply Z.mod_small. lia. }
  cbn [Z.eqb]. split_and!; try zdiv_lia; f_equal; zdiv_lia.
Qed.

Lemma VirtAddr_floor_page vpn : VirtAddr_floor (vpn * PAGE_SIZE) = vpn.
Proof. unfold VirtAddr_floor, PAGE_SIZE. by rewrite Z.div_mul. Qed.

Lemma VirtAddr_ceil_page vpn : 0 <= vpn < 2 ^ 27 -> VirtAddr_ceil (vpn * PAGE_SIZE) = vpn.
Proof. intros. rewrite VirtAddr_ceil_spec by (unfold PAGE_SIZE; lia). unfold PAGE_SIZE. zdiv_lia. Qed.

(** What [alloc_user_res] adds to a space. *)
Record res_added (base : Z) (rest : list FrameTracker) (m : Machine) (ms : MemorySet) (r : TaskUserRes)
  (m' : Machine) (ms' : MemorySet) : Prop := {
  ra_ms : ms_inv base m' ms' rest;
  ra_areas : exists a b, ms_areas ms' = (ms_areas ms ++ [a]) ++ [b] /\
    ma_vpn_range a = mkRange (ustack_vpn r) (ustack_vpn r + 2) /\
    ma_vpn_range b = mkRange (trap_cx_vpn r) (trap_cx_vpn r + 1);
  ra_stack vpn : ustack_vpn r <= vpn < ustack_vpn r + 2 -> exists e, mapped m' (ms_page_table ms') vpn = Some e /\
    PageTableEntry_user_accessible e = true /\ PageTableEntry_writable e = true;
  ra_trap : exists e, mapped m' (ms_page_table ms') (trap_cx_vpn r) = Some e /\
    PageTableEntry_user_accessible e = false /\ PageTableEntry_writable e = true;
  ra_old vpn : 0 <= vpn < 2 ^ 27 -> ~ (ustack_vpn r <= vpn < ustack_vpn r + 2) -> vpn <> trap_cx_vpn r ->
    mapped m' (ms_page_table ms') vpn = mapped m (ms_page_table ms) vpn;
  ra_same : same_pages m m' (ms_trackers ms ++ rest)
}.

Lemma entry_flags_of ppn perm : 0 <= ppn < 2 ^ 44 -> is_byte perm ->
  let e := PageTableEntry_new ppn (flags_insert perm PTE_V) in
  PageTableEntry_user_accessible e = Z.testbit perm 4 /\ PageTableEntry_writable e = Z.testbit perm 2.
Proof.
  intros Hp Hb. cbv zeta. unfold PageTableEntry_user_accessible, PageTableEntry_writable.
  assert (is_byte (flags_insert perm PTE_V)) as Hb' by (apply flags_insert_byte; done).
  rewrite (proj1 (PageTableEntry_new_flags ppn (flags_insert perm PTE_V) Hp Hb')).
  unfold PTE_U, PTE_W. rewrite !flags_contains_bit by done. unfold flags_insert, PTE_V.
  rewrite !Z.lor_spec, !orb_false_r. done.
Qed.

Lemma wp_alloc_user_res base rest s r :
  ms_inv base (pr_machine s) (pr_memory_set s) rest -> res_fits (pr_memory_set s) r ->
  9 <= frames_free (m_allocator (pr_machine s)) ->
  wp (TaskUserRes_alloc_user_res r) (fun _ s' =>
    pr_task_res_allocator s' = pr_task_res_allocator s /\
    res_added base rest (pr_machine s) (pr_memory_set s) r (pr_machine s') (pr_memory_set s')) s.
Proof.
  intros Hms [Htid [Hb Hal] Hfree Hstart] Hf. unfold TaskUserRes_alloc_user_res.
  destruct (res_addresses r Htid Hb Hal) as (E1 & E2 & E3 & E4 & _ & _ & P1 & P2 & P3).
  assert (TRAMPOLINE_VPN = 2 ^ 27 - 1) as Etr by done.
  wp_simpl. rewrite E1, E2, E3, E4.
  eapply wp_mono; [apply (wp_insert_framed_area base _ _ rest); [done| | |done| |]|].
  { unfold PAGE_SIZE. lia. } { unfold PAGE_SIZE. lia. }
  { rewrite VirtAddr_floor_page, VirtAddr_ceil_page by lia. intros a vpn Ha Hir. by apply (Hfree a vpn). }
  { rewrite VirtAddr_floor_page, VirtAddr_ceil_page by lia. lia. }
  rewrite VirtAddr_floor_page, VirtAddr_ceil_page by lia. cbn beta.
  intros ms1 m1 (Hms1 & Hs1 & (a & Ha & Hra & _) & Hnew1 & Hold1 & Hf1). wp_simpl. cbn [pr_machine pr_memory_set pr_task_res_allocator].
  eapply wp_mono; [apply (wp_insert_framed_area base _ _ rest); [done| | |done| |]|].
  { unfold PAGE_SIZE. lia. } { unfold PAGE_SIZE. lia. }
  { rewrite VirtAddr_floor_page, VirtAddr_ceil_page by lia. intros b vpn Hin Hir.
    rewrite Ha in Hin. apply elem_of_app in Hin as [Hin| ->%list_elem_of_singleton].
    - destruct (Hfree b vpn Hin Hir). lia.
    - rewrite Hra in Hir. unfold in_range in Hir. cbn in Hir. lia. }
  { rewrite VirtAddr_floor_page, VirtAddr_ceil_page by lia. lia. }
  rewrite VirtAddr_floor_page, VirtAddr_ceil_page by lia. cbn beta.
  intros ms2 m2 (Hms2 & Hs2 & (b & Hb2 & Hrb & _) & Hnew2 & Hold2 & _).
  cbn [pr_machine pr_memory_set pr_task_res_allocator]. split; [done|]. split; try done.
  - exists a, b. rewrite Hb2, Ha. done.
  - intros vpn Hv. destruct (Hnew1 vpn Hv) as (t & _ & Hm & Hr & _). eexists.
    rewrite Hold2 by lia. split; [exact Hm|]. by apply entry_flags_of.
  - destruct (Hnew2 (trap_cx_vpn r) ltac:(lia)) as (t & _ & Hm & Hr & _). eexists.
    split; [exact Hm|]. by apply entry_flags_of.
  - intros vpn Hv Hn1 Hn2. rewrite Hold2, Hold1 by lia. done.
  - intros t Ht. rewrite (Hs2 t); [by apply Hs1|].
    rewrite elem_of_app in *. destruct Ht as [Ht|?]; [left|by right].
    unfold ms_trackers in *. rewrite Ha, fmap_app, concat_app. apply elem_of_app. by left.
Qed.

(** Creating a thread's user resources and dropping them is an identity.
    [TaskUserRes::new] gives the thread a fresh identifier, a writable user
    stack and a trap context that user code cannot reach, in a space where the
    two ranges are free; dropping it afterwards makes the identifier available
    again and leaves the areas and the mapping of the space exactly as they
    were. *)
Theorem user_res_roundtrip base rest s ustack_base :
  ms_inv base (pr_machine s) (pr_memory_set s) rest ->
  ra_inv 0 (pr_task_res_allocator s) -> ra_current (pr_task_res_allocator s) < 2 ^ 12 - 1 ->
  (forall tid, 0 <= tid < 2 ^ 12 -> ~ ra_used 0 (pr_task_res_allocator s) tid ->
     res_fits (pr_memory_set s) (mkUserRes tid ustack_base)) ->
  9 <= frames_free (m_allocator (pr_machine s)) ->
  exists r s1 s2, TaskUserRes_new ustack_base true s = Ok (r, s1) /\
    ~ ra_used 0 (pr_task_res_allocator s) (ur_tid r) /\
    res_added base rest (pr_machine s) (pr_memory_set s) r (pr_machine s1) (pr_memory_set s1) /\
    TaskUserRes_drop r s1 = Ok (tt, s2) /\
    ms_inv base (pr_machine s2) (pr_memory_set s2) rest /\
    ms_areas (pr_memory_set s2) = ms_areas (pr_memory_set s) /\
    mapping_eq (mapped (pr_machine s2) (ms_page_table (pr_memory_set s2)))
      (mapped (pr_machine s) (ms_page_table (pr_memory_set s))) /\
    forall tid, ra_used 0 (pr_task_res_allocator s2) tid <-> ra_used 0 (pr_task_res_allocator s) tid.
Proof.
  intros Hms Hra Hcur Hfits Hfree.
  assert (wp (TaskUserRes_new ustack_base true) (fun r s1 =>
    ~ ra_used 0 (pr_task_res_allocator s) (ur_tid r) /\
    ra_inv 0 (pr_task_res_allocator s1) /\
    (forall i, ra_used 0 (pr_task_res_allocator s1) i <-> (i = ur_tid r \/ ra_used 0 (pr_task_res_allocator s) i)) /\
    res_fits (pr_memory_set s) r /\
    res_added base rest (pr_machine s) (pr_memory_set s) r (pr_machine s1) (pr_memory_set s1)) s) as Hnew.
  { unfold TaskUserRes_new. wp_simpl.
    eapply wp_mono; [apply (wp_ra_alloc 0); [done|lia]|]. cbn beta.
    intros tid ra (Hi & Hid & Hc & Hnu & Hu). wp_simpl.
    assert (res_fits (pr_memory_set s) (mkUserRes tid ustack_base)) as Hr by (apply Hfits; [lia|done]).
    eapply wp_mono; [by apply (wp_alloc_user_res base rest)|].
    cbn [pr_machine pr_memory_set pr_task_res_allocator]. intros [] s1 [Eq Hadd]. wp_simpl. by rewrite Eq. }
  apply wp_run in Hnew as (r & s1 & Hr & Hnu & Hi1 & Hu1 & [Htid [Hb Hal] Hfr Hst] & Hadd).
  exists r, s1. destruct (res_addresses r Htid Hb Hal) as (_ & _ & _ & _ & E5 & E6 & P1 & P2 & P3).
  assert (TRAMPOLINE_VPN = 2 ^ 27 - 1) as Etr by done.
  assert (wp (TaskUserRes_drop r) (fun _ s2 =>
    ms_inv base (pr_machine s2) (pr_memory_set s2) rest /\
    ms_areas (pr_memory_set s2) = ms_areas (pr_memory_set s) /\
    mapping_eq (mapped (pr_machine s2) (ms_page_table (pr_memory_set s2)))
      (mapped (pr_machine s) (ms_page_table (pr_memory_set s))) /\
    forall tid, ra_used 0 (pr_task_res_allocator s2) tid <-> ra_used 0 (pr_task_res_allocator s) tid) s1) as Hdrop.
  { destruct Hadd as [Hms1 (a & b & Ha & Era & Erb) Hstk [etr [Htr _]] Hold _].
    unfold TaskUserRes_drop, TaskUserRes_dealloc_tid, TaskUserRes_dealloc_user_res. wp_simpl.
    pose proof (ra_dealloc_cases 0 _ (ur_tid r) Hi1 ltac:(lia)) as Hd.
    rewrite decide_True in Hd by (apply Hu1; by left). destruct Hd as (ra2 & Hd & _ & Hu2).
    eapply run_wp; [exact Hd|]. wp_simpl. rewrite E5, E6. eexists. split; [reflexivity|]. wp_simpl.
    cbn [pr_machine pr_memory_set pr_task_res_allocator].
    assert (forall j c, ms_areas (pr_memory_set s1) !! j = Some c ->
      (j < length (ms_areas (pr_memory_set s)) /\ c ∈ ms_areas (pr_memory_set s))%nat \/
      (j = length (ms_areas (pr_memory_set s)) /\ c = a) \/
      (j = S (length (ms_areas (pr_memory_set s))) /\ c = b)) as Hlook.
    { intros j c. rewrite Ha. intros [Hj|[Hj1 Hj]]%lookup_app_Some.
      - apply lookup_app_Some in Hj as [Hj|[Hj1 Hj]].
        + left. split; [by eapply lookup_lt_Some|by eapply list_elem_of_lookup_2].
        + apply list_lookup_singleton_Some in Hj as [? <-]. right. left. split; [lia|done].
      - rewrite length_app in *. cbn in *. apply list_lookup_singleton_Some in Hj as [? <-].
        right. right. split; [lia|done]. }
    set (n := length (ms_areas (pr_memory_set s))) in *.
    assert (ms_areas (pr_memory_set s1) !! n = Some a) as Hia.
    { rewrite Ha, lookup_app_l by (rewrite length_app; cbn; lia). by rewrite lookup_app_r, Nat.sub_diag by lia. }
    eapply wp_mono; [apply (wp_remove_start base _ _ rest n a (ustack_vpn r) Hms1 Hia)|].
    { by rewrite Era. }
    { intros j c Hj Hl. destruct (Hlook j c Hj) as [[_ Hin]|[[-> _]|[_ ->]]]; [|done|].
      - by destruct (Hst c Hin).
      - rewrite Erb in Hl. cbn in Hl. lia. }
    cbn beta. intros ms2 m2 [[Hms2 _ Hgone2 Hkept2 _] Har2]. wp_simpl. eexists. split; [reflexivity|].
    wp_simpl. cbn [pr_machine pr_memory_set pr_task_res_allocator].
    assert (ms_areas ms2 = ms_areas (pr_memory_set s) ++ [b]) as Har2'.
    { rewrite Har2, Ha, <- app_assoc. unfold n. cbn [app]. by rewrite delete_middle. }
    assert (ms_areas ms2 !! n = Some b) as Hib by (by rewrite Har2', lookup_app_r, Nat.sub_diag by lia).
    eapply wp_mono; [apply (wp_remove_start base _ _ rest n b (trap_cx_vpn r) Hms2 Hib)|].
    { by rewrite Erb. }
    { intros j c Hj Hl. rewrite Har2' in Hj. apply lookup_app_Some in Hj as [Hj|[Hj1 Hj]].
      - destruct (Hst c ltac:(by eapply list_elem_of_lookup_2)). done.
      - apply list_lookup_singleton_Some in Hj as [? _]. lia. }
    cbn beta. intros ms3 m3 [[Hms3 _ Hgone3 Hkept3 _] Har3].
    cbn [pr_machine pr_memory_set pr_task_res_allocator]. split_and!; [done| | |].
    - rewrite Har3, Har2'. unfold n. rewrite delete_middle. apply app_nil_r.
    - intros vpn Hv. rewrite Era in Hgone2, Hkept2. rewrite Erb in Hgone3, Hkept3.
      unfold in_range in *. cbn [range_l range_r] in *.
      assert (forall v, 0 <= v < 2 ^ 27 -> (ustack_vpn r <= v < ustack_vpn r + 2 \/ v = trap_cx_vpn r) ->
        mapped (pr_machine s) (ms_page_table (pr_memory_set s)) v = None) as Hnone.
      { intros v Hvr Hcase. apply eq_None_not_Some. intros Hsm.
        destruct (mi_cover _ _ _ _ Hms v Hvr Hsm) as [->|(c & Hin & Hir)]; [lia|].
        destruct (Hfr c v Hin Hir). tauto. }
      destruct (decide (vpn = trap_cx_vpn r)) as [->|Hnt].
      + rewrite Hgone3 by lia. symmetry. apply Hnone; [lia|by right].
      + rewrite Hkept3 by lia. destruct (decide (ustack_vpn r <= vpn < ustack_vpn r + 2)) as [Hin|Hni].
        * rewrite Hgone2 by lia. symmetry. apply Hnone; [lia|by left].
        * rewrite Hkept2, Hold by lia. done.
    - intros tid. rewrite Hu2, Hu1. destruct (decide (tid = ur_tid r)) as [->|]; tauto. }
  apply wp_run in Hdrop as ([] & s2 & Hd & H1 & H2 & H3 & H4). exists s2. done.
Qed.

Lemma user_res_roundtrip_witness : exists s r s1 s2,
  TaskUserRes_new 0x10000 true s = Ok (r, s1) /\ TaskUserRes_drop r s1 = Ok (tt, s2).
Proof.
  destruct demo_space as (ms & m & _ & Hms & Ha & Hf).
  set (s := mkProcRes m ms RecycleAllocator_new).
  destruct (user_res_roundtrip 100 [] s 0x10000 Hms) as (r & s1 & s2 & H1 & _ & _ & H2 & _).
  - split; cbn; [lia|constructor|]. intros id Hid. by apply elem_of_nil in Hid.
  - by vm_compute.
  - intros tid Ht _. split; cbn; [lia|split; [lia|done]| |]; intros a *; rewrite Ha; by intros ?%elem_of_nil.
  - cbn. rewrite Hf. lia.
  - exists s, r, s1, s2. split; assumption.
Defined.
