(* ===== verification/Scheduler.v ===== *)
(** * Scheduling ([os/src/task/task.rs], [os/src/task/scheduler/], [os/src/task/manager.rs])

    The bookkeeping of a task ([SchedInfo]), the two scheduling policies
    behind the [Scheduler] trait, and the [TaskManager] that drives them.
    Tasks are shared ([Arc<TaskControlBlock>]), so a task is a name and the
    state is the table of what the names stand for; a queue holds names. *)

From stdpp Require Import list numbers gmap.
From S2P Require Import Prelude.

Open Scope Z_scope.

Definition DEFAULT_PRIORITY : Z := 4.
Definition MIN_PRIORITY : Z := 0.
Definition MAX_PRIORITY : Z := 7.
Definition PRIORITY_LEVELS : nat := 8.
Definition TIME_SLICE_TICKS : Z := 2.
Definition AGING_INTERVAL_TICKS : Z := 20.

(** ** The bookkeeping of one task *)

Record SchedInfo := mkSched {
  base_priority : Z;
  effective_priority : Z;
  ready_since : Z;
  runtime_ticks : Z;
  total_wait_ticks : Z;
  scheduled_count : Z;
  slice_ticks : Z;
  in_ready_queue : bool
}.

(** [SchedInfo::new] asserts that the priority is in range. *)
Definition SchedInfo_new (priority : Z) : option SchedInfo :=
  if (MIN_PRIORITY <=? priority) && (priority <=? MAX_PRIORITY)
  then Some (mkSched priority priority 0 0 0 0 0 false) else None.

Definition SchedInfo_on_enqueue (now : Z) : M SchedInfo bool :=
  s ← get;
  if in_ready_queue s then mret false
  else
    put (mkSched (base_priority s) (effective_priority s) now (runtime_ticks s)
           (total_wait_ticks s) (scheduled_count s) 0 true);;
    mret true.

Definition SchedInfo_on_dispatch (now : Z) : M SchedInfo unit :=
  modify (fun s => mkSched (base_priority s) (base_priority s) (ready_since s) (runtime_ticks s)
    (saturating_add (total_wait_ticks s) (saturating_sub now (ready_since s)))
    (saturating_add (scheduled_count s) 1) 0 false).

Definition SchedInfo_on_timer_tick : M SchedInfo unit :=
  modify (fun s => mkSched (base_priority s) (effective_priority s) (ready_since s)
    (saturating_add (runtime_ticks s) 1) (total_wait_ticks s) (scheduled_count s)
    (saturating_add (slice_ticks s) 1) (in_ready_queue s)).

Definition set_effective (p : Z) (s : SchedInfo) : SchedInfo :=
  mkSched (base_priority s) p (ready_since s) (runtime_ticks s) (total_wait_ticks s)
    (scheduled_count s) (slice_ticks s) (in_ready_queue s).

Definition SchedInfo_refresh_effective_priority (now : Z) : M SchedInfo Z :=
  s ← get;
  (if in_ready_queue s then
     let waited_ticks := saturating_sub now (ready_since s) in
     let aging_boost := waited_ticks / AGING_INTERVAL_TICKS in
     put (set_effective (Z.min (saturating_add (base_priority s) aging_boost) MAX_PRIORITY) s)
   else put (set_effective (base_priority s) s));;
  gets effective_priority.

Definition SchedInfo_on_block : M SchedInfo unit :=
  modify (fun s => mkSched (base_priority s) (base_priority s) (ready_since s) (runtime_ticks s)
    (total_wait_ticks s) (scheduled_count s) 0 false).

Definition SchedInfo_set_base_priority (priority now : Z) : M SchedInfo unit :=
  modify (fun s => mkSched priority (effective_priority s) (ready_since s) (runtime_ticks s)
    (total_wait_ticks s) (scheduled_count s) (slice_ticks s) (in_ready_queue s));;
  SchedInfo_refresh_effective_priority now;;
  mret tt.

(** ** Tasks *)

Inductive TaskStatus :=
  | Ready
  | Running
  | Blocked
  | Stopped.

#[export] Instance TaskStatus_eq_dec : EqDecision TaskStatus.
Proof. solve_decision. Defined.

(** The scheduler's view of a [TaskControlBlockInner]. *)
Record TaskInner := mkTask { task_status : TaskStatus; sched_info : SchedInfo }.

(** The tasks by name, and the time the timer shows in ticks. *)
Record Tasks := mkTasks { tk_now : Z; tk_table : gmap Z TaskInner }.

(** [task.inner.exclusive_session(|inner| f(inner))]. *)
Definition with_inner {A : Type} (t : Z) (f : M TaskInner A) : M Tasks A :=
  s ← get;
  inner ← unwrap (tk_table s !! t);
  match f inner with
  | Ok (a, inner') => put (mkTasks (tk_now s) (<[t := inner']> (tk_table s)));; mret a
  | Err e => fail e
  end.

Definition with_sched {A : Type} (f : M SchedInfo A) : M TaskInner A := fun inner =>
  match f (sched_info inner) with
  | Ok (a, si) => Ok (a, mkTask (task_status inner) si)
  | Err e => Err e
  end.

Definition set_status (st : TaskStatus) : M TaskInner unit :=
  modify (fun inner => mkTask st (sched_info inner)).

(** ** The [Scheduler] trait *)

Class Scheduler (T : Type) := {
  scheduler_new : T;
  enqueue : T -> Z -> M Tasks T;
  dequeue : T -> Z -> M Tasks (option Z * T);
  should_preempt : T -> Z -> Z -> M Tasks (bool * T)
}.

(** *** Round robin *)

Definition ROUND_ROBIN_TIME_SLICE : Z := 1.

Record RoundRobinScheduler := mkRR { rr_ready_queue : list Z }.

Definition RoundRobinScheduler_new : RoundRobinScheduler := mkRR [].

Definition RoundRobinScheduler_enqueue (s : RoundRobinScheduler) (task : Z)
  : M Tasks RoundRobinScheduler :=
  mret (mkRR (rr_ready_queue s ++ [task])).

Definition RoundRobinScheduler_dequeue (s : RoundRobinScheduler) (now : Z)
  : M Tasks (option Z * RoundRobinScheduler) :=
  match rr_ready_queue s with
  | [] => mret (None, s)
  | t :: rest => mret (Some t, mkRR rest)
  end.

Definition RoundRobinScheduler_should_preempt (s : RoundRobinScheduler) (current now : Z)
  : M Tasks (bool * RoundRobinScheduler) :=
  match rr_ready_queue s with
  | [] => mret (false, s)
  | _ =>
      slice ← with_inner current (gets (fun i => slice_ticks (sched_info i)));
      mret (ROUND_ROBIN_TIME_SLICE <=? slice, s)
  end.

#[export] Instance rr_scheduler : Scheduler RoundRobinScheduler := {
  scheduler_new := RoundRobinScheduler_new;
  enqueue := RoundRobinScheduler_enqueue;
  dequeue := RoundRobinScheduler_dequeue;
  should_preempt := RoundRobinScheduler_should_preempt
}.

(** *** Priorities with aging *)

Record PriorityScheduler := mkPS {
  (** one queue per level, [PRIORITY_LEVELS] of them *)
  ps_ready_queues : list (list Z);
  ps_ready_tasks : Z
}.

Definition PriorityScheduler_new : PriorityScheduler := mkPS (replicate PRIORITY_LEVELS []) 0.

Definition push_back (q : nat) (t : Z) (queues : list (list Z)) : list (list Z) :=
  alter (fun l => l ++ [t]) q queues.

(** [for _ in 0..tasks_at_level]: the front task of a level is refreshed and
    moved to the back of its new level. *)
Fixpoint aging_level (n : nat) (now : Z) (old_priority : nat) (queues : list (list Z))
  : M Tasks (list (list Z)) :=
  match n with
  | O => mret queues
  | S n' =>
      q ← unwrap (queues !! old_priority);
      task ← unwrap (head q);
      let queues1 := <[old_priority := tail q]> queues in
      new_priority ← with_inner task (with_sched (SchedInfo_refresh_effective_priority now));
      massert (new_priority <? Z.of_nat PRIORITY_LEVELS);;
      aging_level n' now old_priority (push_back (Z.to_nat new_priority) task queues1)
  end.

(** The levels from high to low. *)
Definition PriorityScheduler_refresh_aging (now : Z) (queues : list (list Z))
  : M Tasks (list (list Z)) :=
  mfold (fun queues old_priority =>
    q ← unwrap (queues !! old_priority);
    aging_level (length q) now old_priority queues) queues (rev (seq 0 PRIORITY_LEVELS)).

Definition highest_ready_priority (queues : list (list Z)) : option nat :=
  find_first (fun p => match queues !! p with Some (_ :: _) => true | _ => false end)
    (rev (seq 0 PRIORITY_LEVELS)).

Definition PriorityScheduler_enqueue (s : PriorityScheduler) (task : Z)
  : M Tasks PriorityScheduler :=
  e ← with_inner task (gets (fun i => effective_priority (sched_info i)));
  let priority := Z.min e MAX_PRIORITY in
  mret (mkPS (push_back (Z.to_nat priority) task (ps_ready_queues s))
          (usize_wrap (ps_ready_tasks s + 1))).

Definition PriorityScheduler_dequeue (s : PriorityScheduler) (now : Z)
  : M Tasks (option Z * PriorityScheduler) :=
  if ps_ready_tasks s =? 0 then mret (None, s)
  else
    queues ← PriorityScheduler_refresh_aging now (ps_ready_queues s);
    match highest_ready_priority queues with
    | None => mret (None, mkPS queues (ps_ready_tasks s))
    | Some priority =>
        q ← unwrap (queues !! priority);
        mret (head q, mkPS (<[priority := tail q]> queues) (usize_wrap (ps_ready_tasks s - 1)))
    end.

Definition PriorityScheduler_should_preempt (s : PriorityScheduler) (current now : Z)
  : M Tasks (bool * PriorityScheduler) :=
  if ps_ready_tasks s =? 0 then mret (false, s)
  else
    queues ← PriorityScheduler_refresh_aging now (ps_ready_queues s);
    highest_ready ← unwrap (highest_ready_priority queues);
    inner ← with_inner current get;
    mret ((TIME_SLICE_TICKS <=? slice_ticks (sched_info inner)) ||
          (effective_priority (sched_info inner) <? Z.of_nat highest_ready),
          mkPS queues (ps_ready_tasks s)).

#[export] Instance priority_scheduler : Scheduler PriorityScheduler := {
  scheduler_new := PriorityScheduler_new;
  enqueue := PriorityScheduler_enqueue;
  dequeue := PriorityScheduler_dequeue;
  should_preempt := PriorityScheduler_should_preempt
}.

(** ** The task manager *)

Section TaskManager.
Context {T : Type} `{Scheduler T}.

Definition TaskManager_add (s : T) (task : Z) : M Tasks T :=
  now ← gets tk_now;
  should_enqueue ← with_inner task (with_sched (SchedInfo_on_enqueue now));
  if should_enqueue : bool then enqueue s task else mret s.

Definition TaskManager_fetch (s : T) : M Tasks (option Z * T) :=
  now ← gets tk_now;
  r ← dequeue s now;
  match fst r with
  | None => mret (None, snd r)
  | Some task =>
      with_inner task (with_sched (SchedInfo_on_dispatch now));;
      mret (Some task, snd r)
  end.

Definition TaskManager_should_preempt (s : T) (current : Z) : M Tasks (bool * T) :=
  now ← gets tk_now;
  should_preempt s current now.

(** [wakeup_task]. *)
Definition wakeup_task (s : T) (task : Z) : M Tasks T :=
  with_inner task (set_status Ready);;
  TaskManager_add s task.

End TaskManager.

(** ** Lemmas on tasks *)

Lemma wp_with_inner {A} t (f : M TaskInner A) Q m inner :
  tk_table m !! t = Some inner ->
  wp (with_inner t f) Q m <->
  wp f (fun a i' => Q a (mkTasks (tk_now m) (<[t := i']> (tk_table m)))) inner.
Proof.
  intros Ht. unfold with_inner. rewrite wp_bind, wp_get, Ht, wp_bind, wp_unwrap. unfold wp. split.
  - intros (a & [= <-] & H). by destruct (f inner) as [[? ?]|].
  - intros H. exists inner. split; [done|]. by destruct (f inner) as [[? ?]|].
Qed.

Lemma wp_with_sched {A} (f : M SchedInfo A) Q i :
  wp (with_sched f) Q i <-> wp f (fun a si => Q a (mkTask (task_status i) si)) (sched_info i).
Proof. unfold wp, with_sched. by destruct (f (sched_info i)) as [[a si]|]. Qed.
#[export] Hint Rewrite @wp_with_sched : wp.

(** The priority a task has after aging, a function of its base priority and
    its time in the ready queue. *)
Definition aged (now : Z) (s : SchedInfo) : Z :=
  if in_ready_queue s
  then Z.min (saturating_add (base_priority s) (saturating_sub now (ready_since s) / AGING_INTERVAL_TICKS))
         MAX_PRIORITY
  else base_priority s.

Definition sched_ok (s : SchedInfo) : Prop :=
  MIN_PRIORITY <= base_priority s <= MAX_PRIORITY /\ 0 <= effective_priority s <= MAX_PRIORITY.

Lemma aged_range now s : sched_ok s -> 0 <= aged now s <= MAX_PRIORITY.
Proof.
  intros [Hb He]. unfold aged, sched_ok, MIN_PRIORITY, MAX_PRIORITY, AGING_INTERVAL_TICKS,
    saturating_add, saturating_sub, usize_max in *.
  destruct (in_ready_queue s); [|done].
  assert (0 <= Z.max (now - ready_since s) 0 / 20) by (apply Z.div_pos; lia). lia.
Qed.

Lemma aged_base now s : sched_ok s -> base_priority s <= aged now s.
Proof.
  intros [Hb He]. unfold aged, sched_ok, MIN_PRIORITY, MAX_PRIORITY, AGING_INTERVAL_TICKS,
    saturating_add, saturating_sub, usize_max in *.
  destruct (in_ready_queue s); [|lia].
  assert (0 <= Z.max (now - ready_since s) 0 / 20) by (apply Z.div_pos; lia). lia.
Qed.

(** A task that has waited seven aging intervals is at the top. *)
Lemma aged_top now s : sched_ok s -> in_ready_queue s = true ->
  ready_since s + 7 * AGING_INTERVAL_TICKS <= now -> aged now s = MAX_PRIORITY.
Proof.
  intros [Hb He] Hin Hw. unfold aged. rewrite Hin.
  unfold sched_ok, MIN_PRIORITY, MAX_PRIORITY, AGING_INTERVAL_TICKS, saturating_add, saturating_sub, usize_max in *.
  assert (7 <= Z.max (now - ready_since s) 0 / 20) by (apply Z.div_le_lower_bound; lia). lia.
Qed.

Lemma aged_mono now now' s : now <= now' -> aged now s <= aged now' s.
Proof.
  intros Hn. unfold aged, saturating_add, saturating_sub, AGING_INTERVAL_TICKS.
  destruct (in_ready_queue s); [|lia].
  assert (Z.max (now - ready_since s) 0 / 20 <= Z.max (now' - ready_since s) 0 / 20)
    by (apply Z.div_le_mono; lia). lia.
Qed.

(** What aging may change of a task: its effective priority. *)
Definition forget (i : TaskInner) : TaskInner := mkTask (task_status i) (set_effective 0 (sched_info i)).

Definition same_tasks (m m' : Tasks) : Prop :=
  tk_now m' = tk_now m /\
  (forall t, forget <$> tk_table m' !! t = forget <$> tk_table m !! t) /\
  ((forall t i, tk_table m !! t = Some i -> sched_ok (sched_info i)) ->
   forall t i, tk_table m' !! t = Some i -> sched_ok (sched_info i)).

#[export] Instance same_tasks_refl : Reflexive same_tasks.
Proof. intros m. done. Qed.
#[export] Instance same_tasks_trans : Transitive same_tasks.
Proof.
  intros m1 m2 m3 (E1 & T1 & O1) (E2 & T2 & O2). split; [congruence|]. split; [|intros Hall; apply O2, O1, Hall].
  intros t. by rewrite T2.
Qed.

Lemma same_tasks_lookup m m' t i : same_tasks m m' -> tk_table m !! t = Some i ->
  exists i', tk_table m' !! t = Some i' /\ forget i' = forget i.
Proof.
  intros (_ & H & _) Ht. specialize (H t). rewrite Ht in H.
  destruct (tk_table m' !! t) as [i'|]; [|done]. exists i'. split; [done|]. by apply (inj Some).
Qed.

Lemma aged_forget now i i' : forget i = forget i' -> aged now (sched_info i) = aged now (sched_info i').
Proof.
  unfold forget, set_effective, aged. destruct i as [? []], i' as [? []]. cbn. intros H.
  injection H. intros. by subst.
Qed.

Lemma forget_flag i i' : forget i = forget i' ->
  in_ready_queue (sched_info i) = in_ready_queue (sched_info i').
Proof. unfold forget, set_effective. destruct i as [? []], i' as [? []]. cbn. congruence. Qed.

(** The level of a task of the table. *)
Definition level (now : Z) (m : Tasks) (t : Z) : nat :=
  match tk_table m !! t with
  | Some i => Z.to_nat (aged now (sched_info i))
  | None => O
  end.

Lemma level_same now m m' t : same_tasks m m' -> level now m' t = level now m t.
Proof.
  intros (_ & H & _). specialize (H t). unfold level.
  destruct (tk_table m' !! t), (tk_table m !! t); try done. apply (inj Some) in H.
  f_equal. by apply aged_forget.
Qed.

Definition known (m : Tasks) (t : Z) : Prop :=
  exists i, tk_table m !! t = Some i /\ sched_ok (sched_info i).

Lemma known_same m m' t : (forall t i, tk_table m !! t = Some i -> sched_ok (sched_info i)) ->
  same_tasks m m' -> known m t -> known m' t.
Proof.
  intros Hok Hs (i & Hi & _). destruct (same_tasks_lookup _ _ _ _ Hs Hi) as (i' & Hi' & _).
  exists i'. split; [done|]. destruct Hs as (_ & _ & Hs). by eapply Hs.
Qed.

Lemma level_known now m t : known m t -> (level now m t < PRIORITY_LEVELS)%nat.
Proof.
  intros (i & Hi & Hok). unfold level. rewrite Hi. pose proof (aged_range now _ Hok).
  unfold MAX_PRIORITY, PRIORITY_LEVELS in *. lia.
Qed.

Lemma wp_refresh now m t i :
  tk_table m !! t = Some i -> sched_ok (sched_info i) ->
  wp (with_inner t (with_sched (SchedInfo_refresh_effective_priority now)))
    (fun p m' => p = Z.of_nat (level now m t) /\ same_tasks m m') m.
Proof.
  intros Hi Hok. rewrite wp_with_inner by done. wp_simpl.
  assert (Z.of_nat (level now m t) = aged now (sched_info i)) as El.
  { unfold level. rewrite Hi. pose proof (aged_range now _ Hok). lia. }
  assert (forall p, 0 <= p <= MAX_PRIORITY -> same_tasks m
    (mkTasks (tk_now m) (<[t := mkTask (task_status i) (set_effective p (sched_info i))]> (tk_table m)))) as Hset.
  { intros p Hp. split_and!; [done| |].
    - intros t'. cbn. rewrite lookup_insert. case_decide; [subst t'|done]. by rewrite Hi.
    - intros Hall t' i'. cbn. rewrite lookup_insert. case_decide; [|apply Hall].
      intros [= <-]. subst t'. destruct Hok. split; cbn; done. }
  rewrite El. pose proof (aged_range now _ Hok) as Hr. unfold SchedInfo_refresh_effective_priority. wp_simpl.
  unfold aged in *. destruct (in_ready_queue (sched_info i)); wp_simpl; split; try done; by apply Hset.
Qed.

(** ** The aging pass *)

(** Moving tasks to the back of the queues of their levels. *)
Definition place (lvl : Z -> nat) (xs : list Z) (queues : list (list Z)) : list (list Z) :=
  foldl (fun qs t => push_back (lvl t) t qs) queues xs.

(** The pass over a list of levels. *)
Definition age_pass (lvl : Z -> nat) (ps : list nat) (queues : list (list Z)) : list (list Z) :=
  foldl (fun qs p => place lvl (default [] (qs !! p)) (<[p := []]> qs)) queues ps.

Section Place.
Context (lvl : Z -> nat).

Lemma place_cons x xs queues : place lvl (x :: xs) queues = place lvl xs (push_back (lvl x) x queues).
Proof. done. Qed.

Lemma age_pass_cons p ps queues : age_pass lvl (p :: ps) queues =
  age_pass lvl ps (place lvl (default [] (queues !! p)) (<[p := []]> queues)).
Proof. done. Qed.

Lemma length_place xs : forall queues, length (place lvl xs queues) = length queues.
Proof. induction xs as [|x xs IH]; intros qs; [done|]. rewrite place_cons, IH. apply length_alter. Qed.

Lemma place_lookup xs : forall queues q,
  place lvl xs queues !! q = (fun l => l ++ filter (fun t => lvl t = q) xs) <$> queues !! q.
Proof.
  induction xs as [|x xs IH]; intros qs q.
  { cbn. destruct (qs !! q); cbn; [by rewrite app_nil_r|done]. }
  rewrite place_cons, IH, filter_cons. unfold push_back. destruct (decide (lvl x = q)) as [->|Hne].
  - rewrite list_lookup_alter_eq. destruct (qs !! q); cbn; [by rewrite <- app_assoc|done].
  - by rewrite list_lookup_alter_ne.
Qed.

Lemma concat_push_back x (qs : list (list Z)) : forall k l, qs !! k = Some l ->
  concat (push_back k x qs) ≡ₚ x :: concat qs.
Proof.
  unfold push_back. induction qs as [|q qs IH]; intros [|k] l Hl; try done; cbn in *.
  - rewrite <- app_assoc. cbn. symmetry. apply Permutation_middle.
  - rewrite (IH k l Hl). symmetry. apply Permutation_middle.
Qed.

Lemma place_perm xs : forall queues, Forall (fun t => (lvl t < length queues)%nat) xs ->
  concat (place lvl xs queues) ≡ₚ xs ++ concat queues.
Proof.
  induction xs as [|x xs IH]; intros qs Hx; [done|]. apply Forall_cons in Hx as [Hx Hxs].
  rewrite place_cons, IH by (eapply Forall_impl; [exact Hxs|]; intros; unfold push_back; by rewrite length_alter).
  destruct (lookup_lt_is_Some_2 qs _ Hx) as [l Hl].
  by rewrite (concat_push_back _ _ _ _ Hl), <- Permutation_middle.
Qed.

Lemma length_age_pass ps : forall queues, length (age_pass lvl ps queues) = length queues.
Proof.
  induction ps as [|p ps IH]; intros qs; [done|]. by rewrite age_pass_cons, IH, length_place, length_insert.
Qed.

Lemma concat_insert_nil p (qs : list (list Z)) : default [] (qs !! p) ++ concat (<[p := []]> qs) ≡ₚ concat qs.
Proof.
  revert p. induction qs as [|q qs IH]; intros [|p]; cbn; try done.
  specialize (IH p). rewrite <- IH. apply Permutation_app_swap_app.
Qed.

Lemma age_pass_perm ps : forall queues, Forall (fun t => (lvl t < length queues)%nat) (concat queues) ->
  concat (age_pass lvl ps queues) ≡ₚ concat queues.
Proof.
  induction ps as [|p ps IH]; intros qs Hl; [done|]. rewrite age_pass_cons.
  assert (concat (place lvl (default [] (qs !! p)) (<[p:=[]]> qs)) ≡ₚ concat qs) as E.
  { rewrite place_perm, concat_insert_nil; [done|].
    rewrite length_insert. rewrite <- (concat_insert_nil p) in Hl. by apply Forall_app in Hl as [Hl _]. }
  rewrite IH, E; [done|]. rewrite E, length_place, length_insert. done.
Qed.

(** After the pass a processed level holds tasks of that level only, and the
    tasks that were there and stay keep their order at its front. *)
Lemma age_pass_level ps : forall queues done0,
  (forall p l, p ∈ done0 -> queues !! p = Some l -> Forall (fun t => lvl t = p) l) ->
  forall p l, p ∈ done0 ++ ps -> age_pass lvl ps queues !! p = Some l -> Forall (fun t => lvl t = p) l.
Proof.
  induction ps as [|p0 ps IH]; intros qs d Hd p l Hp Hl.
  { cbn in Hl. rewrite app_nil_r in Hp. by eapply Hd. }
  rewrite age_pass_cons in Hl. apply (IH (place lvl (default [] (qs !! p0)) (<[p0:=[]]> qs)) (d ++ [p0])) with (p := p) (l := l); [|by rewrite <- app_assoc|exact Hl].
  intros q l' Hq. rewrite place_lookup. intros Hl'. apply fmap_Some in Hl' as (l0 & Hl0 & ->).
  apply Forall_app. split; [|apply Forall_forall; intros t Ht; by apply list_elem_of_filter in Ht as [? _]].
  destruct (decide (p0 = q)) as [->|Hne].
  - destruct (decide (q < length qs)%nat).
    + rewrite list_lookup_insert_eq in Hl0 by done. injection Hl0 as <-. constructor.
    + rewrite list_insert_ge in Hl0 by lia. rewrite lookup_ge_None_2 in Hl0 by lia. done.
  - rewrite list_lookup_insert_ne in Hl0 by done. apply (Hd q); [|done].
    apply elem_of_app in Hq as [?|?%list_elem_of_singleton]; [done|congruence].
Qed.

Lemma age_pass_prefix ps : forall queues p l, NoDup ps -> queues !! p = Some l -> 
  exists l', age_pass lvl ps queues !! p = Some l' /\
    (if decide (p ∈ ps) then filter (fun t => lvl t = p) l else l) `prefix_of` l'.
Proof.
  induction ps as [|p0 ps IH]; intros qs p l Hnd Hl; rewrite ?age_pass_cons.
  { exists l. split; [done|]. rewrite decide_False by apply not_elem_of_nil. done. }
  apply NoDup_cons in Hnd as [Hni Hnd].
  destruct (decide (p0 = p)) as [->|Hne].
  - rewrite Hl. cbn. edestruct (IH (place lvl l (<[p:=[]]> qs)) p) as (l' & Hl' & Hpre); [done| |].
    { rewrite place_lookup, list_lookup_insert_eq by (by eapply lookup_lt_Some). reflexivity. }
    exists l'. split; [done|]. rewrite decide_False in Hpre by done. rewrite decide_True by left. done.
  - edestruct (IH (place lvl (default [] (qs !! p0)) (<[p0:=[]]> qs)) p) as (l' & Hl' & Hpre); [done| |].
    { rewrite place_lookup, list_lookup_insert_ne, Hl by done. reflexivity. }
    exists l'. split; [done|]. rewrite filter_app in Hpre.
    destruct (decide (p ∈ ps)) as [Hin|Hnin].
    + rewrite decide_True by (by right). etrans; [|exact Hpre]. by eexists.
    + rewrite decide_False by (rewrite elem_of_cons; intros [?|?]; congruence).
      etrans; [|exact Hpre]. by eexists.
Qed.

End Place.

(** The loops of the code compute the pass. *)
Section Aging.
Context (now : Z).

Lemma wp_aging_level xs : forall m queues p ys,
  queues !! p = Some (xs ++ ys) -> Forall (known m) xs -> length queues = PRIORITY_LEVELS ->
  (forall t i, tk_table m !! t = Some i -> sched_ok (sched_info i)) ->
  wp (aging_level (length xs) now p queues)
    (fun r m' => r = place (level now m) xs (<[p := ys]> queues) /\ same_tasks m m') m.
Proof.
  induction xs as [|x xs IH]; intros m qs p ys Hp Hk Hlen Hall; cbn [length aging_level]; wp_simpl.
  { cbn. split; [|done]. by rewrite list_insert_id. }
  apply Forall_cons in Hk as [Hx Hxs]. exists (x :: xs ++ ys). split; [done|]. cbn [head tail]. wp_simpl.
  exists x. split; [done|]. wp_simpl. destruct Hx as (i & Hi & Hok).
  eapply wp_mono; [by apply (wp_refresh now m x i)|]. cbn beta. intros ? m1 [-> Hs1]. wp_simpl.
  assert (level now m x < PRIORITY_LEVELS)%nat as Hlt by (apply level_known; exists i; done).
  split; [apply Z.ltb_lt; lia|]. rewrite Nat2Z.id.
  set (lx := level now m x) in *.
  assert (exists ys', push_back lx x (<[p := xs ++ ys]> qs) !! p = Some (xs ++ ys') /\
    <[p := ys']> (push_back lx x (<[p := xs ++ ys]> qs)) = push_back lx x (<[p := ys]> qs)) as (ys' & Hq & Hins).
  { unfold push_back. assert (p < length qs)%nat by (by eapply lookup_lt_Some).
    destruct (decide (lx = p)) as [->|Hne].
    - exists (ys ++ [x]). rewrite list_lookup_alter_eq, list_lookup_insert_eq by done. cbn.
      split; [by rewrite app_assoc|]. apply list_eq. intros j. destruct (decide (p = j)) as [<-|Hj].
      + rewrite list_lookup_insert_eq by (rewrite length_alter, length_insert; done).
        by rewrite list_lookup_alter_eq, list_lookup_insert_eq by done.
      + by rewrite list_lookup_insert_ne, !list_lookup_alter_ne, !list_lookup_insert_ne by done.
    - exists ys. rewrite list_lookup_alter_ne, list_lookup_insert_eq by done. split; [done|].
      apply list_eq. intros j. destruct (decide (p = j)) as [<-|Hj].
      + rewrite list_lookup_insert_eq by (rewrite length_alter, length_insert; done).
        by rewrite list_lookup_alter_ne, list_lookup_insert_eq by done.
      + rewrite list_lookup_insert_ne by done. destruct (decide (lx = j)) as [->|].
        * by rewrite !list_lookup_alter_eq, !list_lookup_insert_ne by done.
        * by rewrite !list_lookup_alter_ne, !list_lookup_insert_ne by done. }
  eapply wp_mono; [apply (IH m1 _ p ys' Hq)|].
  - eapply Forall_impl; [exact Hxs|]. intros t Ht. by eapply known_same.
  - unfold push_back. by rewrite length_alter, length_insert.
  - apply Hs1, Hall.
  - cbn beta. intros r m2 [-> Hs2]. rewrite Hins. split; [|by etrans].
    cbn [place foldl]. fold (place (level now m)).
    assert (forall l qs, place (level now m1) l qs = place (level now m) l qs) as Hplace.
    { intros l. induction l as [|t l IHl]; intros qs0; [done|]. cbn. rewrite (level_same now m m1) by done.
      apply IHl. }
    rewrite Hplace. done.
Qed.

Lemma wp_refresh_aging m queues :
  Forall (known m) (concat queues) -> length queues = PRIORITY_LEVELS ->
  (forall t i, tk_table m !! t = Some i -> sched_ok (sched_info i)) ->
  wp (PriorityScheduler_refresh_aging now queues) (fun r m' =>
    r = age_pass (level now m) (rev (seq 0 PRIORITY_LEVELS)) queues /\ same_tasks m m') m.
Proof.
  intros Hk Hlen Hall. unfold PriorityScheduler_refresh_aging.
  eapply wp_mono; [apply (wp_mfold _ (rev (seq 0 PRIORITY_LEVELS)) (fun d r m' =>
    r = age_pass (level now m) d queues /\ same_tasks m m'))|]; [done| |done].
  intros d p qs m1 Hpre [-> Hs]. wp_simpl.
  assert (p < PRIORITY_LEVELS)%nat as Hp.
  { destruct Hpre as [k Hk']. assert (In p (rev (seq 0 PRIORITY_LEVELS))) as Hin.
    { rewrite Hk', !in_app_iff. cbn. auto. }
    rewrite <- in_rev, in_seq in Hin. lia. }
  set (qs := age_pass (level now m) d queues).
  assert (length qs = PRIORITY_LEVELS) as Hlq by (unfold qs; by rewrite length_age_pass).
  destruct (lookup_lt_is_Some_2 qs p) as [l Hl]; [by rewrite Hlq|].
  exists l. split; [done|]. 
  assert (Forall (known m1) (concat qs)) as Hkq.
  { eapply Forall_impl; [|intros t Ht; eapply known_same; [exact Hall|exact Hs|exact Ht]].
    unfold qs. rewrite age_pass_perm; [done|]. eapply Forall_impl; [exact Hk|].
    intros t Ht. rewrite Hlen. by apply level_known. }
  pose proof (wp_aging_level l m1 qs p []) as Hw. rewrite app_nil_r in Hw.
  eapply wp_mono; [apply Hw; auto|].
  - apply Forall_forall. intros t Ht. rewrite Forall_forall in Hkq. apply Hkq.
    apply list_elem_of_In, in_concat. exists l. split; apply list_elem_of_In; [by eapply list_elem_of_lookup_2|done].
  - apply Hs, Hall.
  - cbn beta. intros r m2 [-> Hs2]. split; [|by etrans]. unfold age_pass at 1. rewrite foldl_app. cbn.
    fold (age_pass (level now m) d queues). fold qs. rewrite Hl. cbn.
    assert (forall l qs, place (level now m1) l qs = place (level now m) l qs) as Hplace.
    { intros l0. induction l0 as [|t l0 IHl]; intros qs0; [done|]. cbn. rewrite (level_same now m m1) by done.
      apply IHl. }
    by rewrite Hplace.
Qed.

End Aging.

(** ** What a scheduler promises to the task manager *)

Definition all_ok (m : Tasks) : Prop :=
  forall t i, tk_table m !! t = Some i -> sched_ok (sched_info i).

Class SchedulerLaws (T : Type) `{Scheduler T} := {
  (** the tasks in the ready queues *)
  ready : T -> list Z;
  sched_wf : T -> Prop;
  scheduler_new_law : sched_wf scheduler_new /\ ready scheduler_new = [];
  enqueue_law s t m : sched_wf s -> all_ok m -> known m t ->
    Z.of_nat (length (ready s)) + 1 < 2 ^ 64 ->
    wp (enqueue s t) (fun s' m' => m' = m /\ sched_wf s' /\ ready s' ≡ₚ t :: ready s) m;
  dequeue_law s now m : sched_wf s -> all_ok m -> Forall (known m) (ready s) ->
    wp (dequeue s now) (fun r m' => sched_wf (snd r) /\ same_tasks m m' /\
      match fst r with
      | Some t => ready s ≡ₚ t :: ready (snd r)
      | None => ready s = [] /\ ready (snd r) = []
      end) m;
  should_preempt_law s cur now m : sched_wf s -> all_ok m -> Forall (known m) (ready s) -> known m cur ->
    wp (should_preempt s cur now) (fun r m' => sched_wf (snd r) /\ same_tasks m m' /\
      ready (snd r) ≡ₚ ready s /\ (ready s = [] -> fst r = false)) m
}.

Lemma wp_with_inner_get {A} m t i (f : TaskInner -> A) Q :
  tk_table m !! t = Some i ->
  wp (with_inner t (gets f)) Q m <-> Q (f i) m.
Proof.
  intros Hi. rewrite wp_with_inner by done. rewrite wp_gets, insert_id by done. by destruct m.
Qed.

#[export, refine] Instance rr_laws : SchedulerLaws RoundRobinScheduler := {
  ready := rr_ready_queue;
  sched_wf := fun _ => True
}.
Proof.
  - done.
  - intros [q] t m _ _ _ _. cbn. unfold RoundRobinScheduler_enqueue. wp_simpl. cbn.
    split_and!; [done|done|]. symmetry. apply Permutation_cons_append.
  - intros [q] now m _ _ _. cbn. unfold RoundRobinScheduler_dequeue. cbn.
    destruct q as [|t q]; wp_simpl; cbn; done.
  - intros [q] cur now m _ _ _ (i & Hi & _). cbn. unfold RoundRobinScheduler_should_preempt. cbn.
    destruct q as [|t q]; [by wp_simpl|]. wp_simpl. rewrite wp_with_inner_get by done. wp_simpl. done.
Defined.

(** The levels partition the ready tasks and [ready_tasks] counts them. *)
Record ps_wf (s : PriorityScheduler) : Prop := {
  psw_levels : length (ps_ready_queues s) = PRIORITY_LEVELS;
  psw_count : ps_ready_tasks s = Z.of_nat (length (concat (ps_ready_queues s)));
  psw_bound : ps_ready_tasks s < 2 ^ 64
}.

Lemma concat_nonempty (qs : list (list Z)) x : x ∈ concat qs ->
  exists p l, qs !! p = Some l /\ x ∈ l.
Proof.
  intros Hx%list_elem_of_In. apply in_concat in Hx as (l & Hl & Hx).
  apply list_elem_of_In, list_elem_of_lookup in Hl as [p Hp]. apply list_elem_of_In in Hx. eauto.
Qed.

(** The highest level that is not empty. *)
Lemma highest_ready_spec (qs : list (list Z)) :
  length qs = PRIORITY_LEVELS ->
  match highest_ready_priority qs with
  | Some p => exists x l, qs !! p = Some (x :: l) /\
      forall q l', (p < q)%nat -> qs !! q = Some l' -> l' = []
  | None => concat qs = []
  end.
Proof.
  intros Hlen. unfold highest_ready_priority. destruct (find_first _ _) as [p|] eqn:Hf.
  - apply find_first_rev_seq in Hf as (Hp & Hne & Hhi). destruct (qs !! p) as [[|x l]|]; try done.
    exists x, l. split; [done|]. intros q l' Hq Hl'.
    assert (q < PRIORITY_LEVELS)%nat by (rewrite <- Hlen; by eapply lookup_lt_Some).
    specialize (Hhi q ltac:(lia)). rewrite Hl' in Hhi. by destruct l'.
  - rewrite find_first_rev_seq_None in Hf. destruct (concat qs) as [|x l] eqn:E; [done|].
    destruct (concat_nonempty qs x) as (p & l' & Hp & Hx); [rewrite E; left|].
    assert (p < PRIORITY_LEVELS)%nat as Hlt by (rewrite <- Hlen; by eapply lookup_lt_Some).
    specialize (Hf p Hlt). rewrite Hp in Hf. destruct l'; [by apply elem_of_nil in Hx|done].
Qed.

Lemma concat_pop p x l (qs : list (list Z)) : qs !! p = Some (x :: l) ->
  concat qs ≡ₚ x :: concat (<[p := l]> qs).
Proof.
  revert p. induction qs as [|q qs IH]; intros [|p] Hp; try done; cbn in *.
  - by injection Hp as ->.
  - rewrite (IH p Hp). symmetry. apply Permutation_middle.
Qed.

(** [dequeue], with the result of the aging pass spelled out. *)
Lemma wp_ps_dequeue s now m :
  ps_wf s -> all_ok m -> Forall (known m) (concat (ps_ready_queues s)) ->
  wp (PriorityScheduler_dequeue s now) (fun r m' => ps_wf (snd r) /\ same_tasks m m' /\
    match fst r with
    | Some t => concat (ps_ready_queues s) ≡ₚ t :: concat (ps_ready_queues (snd r)) /\
        exists p l, let qs := age_pass (level now m) (rev (seq 0 PRIORITY_LEVELS)) (ps_ready_queues s) in
          qs !! p = Some (t :: l) /\ ps_ready_queues (snd r) = <[p := l]> qs /\
          forall q l', (p < q)%nat -> qs !! q = Some l' -> l' = []
    | None => concat (ps_ready_queues s) = [] /\ concat (ps_ready_queues (snd r)) = []
    end) m.
Proof.
  intros [Hl Hc Hb] Hok Hk. unfold PriorityScheduler_dequeue.
  destruct (Z.eqb_spec (ps_ready_tasks s) 0) as [E|E].
  { wp_simpl. cbn [fst snd]. split; [done|]. split; [done|].
    assert (concat (ps_ready_queues s) = []) as Hn by (apply nil_length_inv; lia). done. }
  wp_simpl. eapply wp_mono; [by apply (wp_refresh_aging now m)|]. cbn beta. intros r m' [-> Hs].
  set (qs := age_pass (level now m) (rev (seq 0 PRIORITY_LEVELS)) (ps_ready_queues s)) in *.
  assert (concat qs ≡ₚ concat (ps_ready_queues s)) as Hperm.
  { apply age_pass_perm. eapply Forall_impl; [exact Hk|]. intros t Ht. rewrite Hl. by apply level_known. }
  assert (length qs = PRIORITY_LEVELS) as Hlq by (unfold qs; by rewrite length_age_pass).
  pose proof (highest_ready_spec qs Hlq) as Hh. destruct (highest_ready_priority qs) as [p|].
  - destruct Hh as (x & l & Hp & Hhi). wp_simpl. exists (x :: l). split; [done|]. wp_simpl. cbn [fst snd head tail].
    pose proof (concat_pop p x l qs Hp) as Hpop. rewrite Hperm in Hpop.
    pose proof (Permutation_length Hpop) as Hlen. cbn in Hlen.
    split; [|split; [done|split; [done|]]].
    + split; cbn; [by rewrite length_insert| |]; unfold usize_wrap; rewrite Z.mod_small by lia; lia.
    + exists p, l. cbn. done.
  - exfalso. rewrite Hh in Hperm. apply Permutation_nil in Hperm. rewrite Hperm in Hc. cbn in Hc. lia.
Qed.

#[export, refine] Instance priority_laws : SchedulerLaws PriorityScheduler := {
  ready := fun s => concat (ps_ready_queues s);
  sched_wf := ps_wf
}.
Proof.
  - split; [split; cbn; [done|done|lia]|done].
  - intros s t m [Hl Hc Hb] Hok (i & Hi & Hs) Hlen. cbn. unfold PriorityScheduler_enqueue.
    wp_simpl. rewrite wp_with_inner_get by done. wp_simpl. cbn.
    destruct Hs as [_ He]. unfold MAX_PRIORITY in *.
    assert (exists l, ps_ready_queues s !! Z.to_nat (Z.min (effective_priority (sched_info i)) 7) = Some l) as [l Hq].
    { apply lookup_lt_is_Some_2. rewrite Hl. unfold PRIORITY_LEVELS. lia. }
    pose proof (concat_push_back t _ _ _ Hq) as Hp. pose proof (Permutation_length Hp) as Hpl. cbn in Hpl.
    split_and!; [done| |done]. split; cbn; unfold usize_wrap; rewrite ?Z.mod_small by lia; try lia.
    unfold push_back. by rewrite length_alter.
  - intros s now m Hwf Hok Hk. eapply wp_mono; [by apply wp_ps_dequeue|]. cbn beta.
    intros [[t|] s'] m' (H1 & H2 & H3); cbn [fst snd] in *; [|done]. by destruct H3.
  - intros s cur now m [Hl Hc Hb] Hok Hk (i & Hi & Hs). cbn. unfold PriorityScheduler_should_preempt.
    destruct (Z.eqb_spec (ps_ready_tasks s) 0) as [E|E]; [by wp_simpl|].
    wp_simpl. eapply wp_mono; [by apply (wp_refresh_aging now m)|]. cbn beta. intros r m' [-> Hsm].
    set (qs := age_pass (level now m) (rev (seq 0 PRIORITY_LEVELS)) (ps_ready_queues s)) in *.
    assert (concat qs ≡ₚ concat (ps_ready_queues s)) as Hperm.
    { apply age_pass_perm. eapply Forall_impl; [exact Hk|]. intros t Ht. rewrite Hl. by apply level_known. }
    assert (length qs = PRIORITY_LEVELS) as Hlq by (unfold qs; by rewrite length_age_pass).
    pose proof (highest_ready_spec qs Hlq) as Hh. destruct (highest_ready_priority qs) as [p|].
    2:{ exfalso. rewrite Hh in Hperm. apply Permutation_nil in Hperm. rewrite Hperm in Hc. cbn in Hc. lia. }
    wp_simpl. eexists. split; [reflexivity|]. wp_simpl.
    destruct (same_tasks_lookup _ _ _ _ Hsm Hi) as (i' & Hi' & _).
    rewrite (wp_with_inner_get m' cur i' (fun x => x)) by done. wp_simpl. cbn [fst snd].
    split_and!; [|done|done|].
    + split; cbn [ps_ready_queues ps_ready_tasks]; [done|by rewrite Hperm|done].
    + intros Hn. rewrite Hn in Hc. cbn in Hc. lia.
Defined.

(** ** The task manager, over any scheduler *)

Section Manager.
Context {T : Type} `{SchedulerLaws T}.

(** The tasks whose [in_ready_queue] flag is set are exactly the tasks in the
    ready queues, each of them once. *)
Record tm_inv (s : T) (m : Tasks) : Prop := {
  tmi_wf : sched_wf s;
  tmi_ok : all_ok m;
  tmi_nodup : NoDup (ready s);
  tmi_flag t : t ∈ ready s <->
    exists i, tk_table m !! t = Some i /\ in_ready_queue (sched_info i) = true;
  tmi_bound : Z.of_nat (size (tk_table m)) + 1 < 2 ^ 64
}.

Lemma tmi_known s m : tm_inv s m -> Forall (known m) (ready s).
Proof.
  intros Hi. apply Forall_forall. intros t Ht. apply (tmi_flag _ _ Hi) in Ht as (i & Hti & _).
  exists i. split; [done|]. by apply (tmi_ok _ _ Hi t).
Qed.

Lemma tmi_length s m : tm_inv s m -> Z.of_nat (length (ready s)) + 1 < 2 ^ 64.
Proof.
  intros Hi. pose proof (tmi_bound _ _ Hi).
  assert (length (ready s) <= size (tk_table m))%nat; [|lia].
  rewrite <- size_dom, <- (size_list_to_set (C := gset Z) (ready s)) by apply Hi.
  apply subseteq_size. intros t Ht%elem_of_list_to_set. apply elem_of_dom.
  apply (tmi_flag _ _ Hi) in Ht as (i & -> & _). eauto.
Qed.

Definition upd (m : Tasks) (t : Z) (i : TaskInner) : Tasks := mkTasks (tk_now m) (<[t := i]> (tk_table m)).

Lemma all_ok_upd m t i : all_ok m -> sched_ok (sched_info i) -> all_ok (upd m t i).
Proof.
  intros Ha Hi t' i'. cbn. rewrite lookup_insert. case_decide; [by intros [= <-]|apply Ha].
Qed.

Lemma size_upd m t i i' : tk_table m !! t = Some i -> size (tk_table (upd m t i')) = size (tk_table m).
Proof. intros Ht. cbn. by rewrite map_size_insert_Some by eauto. Qed.

(** A change of a task that keeps its flag keeps the invariant. *)
Lemma tm_inv_upd s m t i i' :
  tm_inv s m -> tk_table m !! t = Some i -> sched_ok (sched_info i') ->
  in_ready_queue (sched_info i') = in_ready_queue (sched_info i) -> tm_inv s (upd m t i').
Proof.
  intros [H1 H2 H3 H4 H5] Ht Hok Hfl. split; try done.
  - by apply all_ok_upd.
  - intros t'. rewrite H4. cbn. rewrite lookup_insert. case_decide as E; [subst t'|done].
    rewrite Ht. split; intros (j & [= <-] & Hj); eexists; (split; [done|]); congruence.
  - by rewrite (size_upd m t i).
Qed.

Lemma tm_inv_same s s' m m' : tm_inv s m -> sched_wf s' -> same_tasks m m' -> ready s' ≡ₚ ready s -> tm_inv s' m'.
Proof.
  intros [H1 H2 H3 H4 H5] Hwf Hs Hp. pose proof Hs as (_ & Hf & Hok). split; [done|exact (Hok H2)|by rewrite Hp| |].
  - intros t. rewrite Hp, H4. specialize (Hf t). split; intros (i & Hi & Hfl).
    + destruct (same_tasks_lookup _ _ _ _ Hs Hi) as (i' & Hi' & E). exists i'. split; [done|].
      by rewrite (forget_flag _ _ E).
    + rewrite Hi in Hf. destruct (tk_table m !! t) as [j|]; [|done]. apply (inj Some) in Hf.
      exists j. split; [done|]. by rewrite <- (forget_flag _ _ Hf).
  - rewrite <- size_dom. replace (dom (tk_table m')) with (dom (tk_table m)); [by rewrite size_dom|].
    apply set_eq. intros t. rewrite !elem_of_dom. specialize (Hf t).
    destruct (tk_table m !! t), (tk_table m' !! t); try done; split; intros []; eauto; done.
Qed.

Lemma wp_add s m t :
  tm_inv s m -> known m t ->
  wp (TaskManager_add s t) (fun s' m' => tm_inv s' m' /\ tk_now m' = tk_now m /\
    if decide (t ∈ ready s) then s' = s /\ m' = m
    else ready s' ≡ₚ t :: ready s /\
      exists i, tk_table m !! t = Some i /\ m' = upd m t (mkTask (task_status i)
        (mkSched (base_priority (sched_info i)) (effective_priority (sched_info i)) (tk_now m)
          (runtime_ticks (sched_info i)) (total_wait_ticks (sched_info i))
          (scheduled_count (sched_info i)) 0 true))) m.
Proof.
  intros Hi (i & Hti & Hok). unfold TaskManager_add. wp_simpl. rewrite wp_with_inner by done. wp_simpl.
  unfold SchedInfo_on_enqueue. wp_simpl. destruct (in_ready_queue (sched_info i)) eqn:Hf; wp_simpl.
  - assert (t ∈ ready s) as Hin by (apply (tmi_flag _ _ Hi); eauto).
    rewrite decide_True by done. rewrite insert_id by (destruct i; done). by destruct m.
  - assert (t ∉ ready s) as Hnin.
    { rewrite (tmi_flag _ _ Hi). intros (j & Hj & Hjf). congruence. }
    set (i' := mkTask (task_status i) _). fold (upd m t i').
    assert (sched_ok (sched_info i')) as Hok' by (destruct Hok; split; done).
    eapply wp_mono; [apply enqueue_law|].
    + apply Hi.
    + apply all_ok_upd; [apply Hi|done].
    + exists i'. split; [apply lookup_insert_eq|done].
    + by eapply tmi_length.
    + cbn beta. intros s' m' (-> & Hwf & Hp). rewrite decide_False by done.
      split; [|split; [done|split; [done|eauto]]].
      destruct Hi as [H1 H2 H3 H4 H5]. split; [done|by apply all_ok_upd| | |by rewrite (size_upd m t i)].
      * rewrite Hp. by constructor.
      * intros t'. rewrite Hp, elem_of_cons, H4. cbn. rewrite lookup_insert. case_decide as E.
        { subst t'. split; [eauto|by left]. }
        { split; [intros [?|?]; [congruence|done]|by right]. }
Qed.

Lemma wp_fetch s m :
  tm_inv s m ->
  wp (TaskManager_fetch s) (fun r m' => tm_inv (snd r) m' /\ tk_now m' = tk_now m /\
    match fst r with
    | Some t => ready s ≡ₚ t :: ready (snd r) /\ exists i, tk_table m' !! t = Some i /\
        slice_ticks (sched_info i) = 0 /\ effective_priority (sched_info i) = base_priority (sched_info i)
    | None => ready s = [] /\ ready (snd r) = []
    end) m.
Proof.
  intros Hi. unfold TaskManager_fetch. wp_simpl.
  eapply wp_mono; [apply dequeue_law; [apply Hi|apply Hi|by apply tmi_known]|]. cbn beta.
  intros [[t|] s'] m' (Hwf & Hs & Hr); cbn [fst snd] in *; wp_simpl; cbn [fst snd].
  - assert (t ∈ ready s) as Hin by (rewrite Hr; left).
    apply (tmi_flag _ _ Hi) in Hin as (i & Hti & Hfl). pose proof (tmi_ok _ _ Hi t i Hti) as Hok.
    destruct (same_tasks_lookup _ _ _ _ Hs Hti) as (i' & Hti' & E).
    rewrite wp_with_inner by done. wp_simpl. unfold SchedInfo_on_dispatch. wp_simpl.
    pose proof (tm_inv_same s s m m' Hi (tmi_wf _ _ Hi) Hs ltac:(done)) as Hi'.
    pose proof (tmi_ok _ _ Hi' t i' Hti') as Hok'. cbn [fst snd].
    destruct Hi' as [H1 H2 H3 H4 H5]. rewrite Hr in H3. apply NoDup_cons in H3 as [H3a H3b].
    split; [|split; [by destruct Hs|split; [done|]]].
    + split; [done| |done| |].
      * apply (all_ok_upd m' t); [done|]. destruct Hok' as [Hb He]. split; cbn; [done|].
        unfold MIN_PRIORITY, MAX_PRIORITY in *. lia.
      * intros t'. cbn. rewrite lookup_insert. specialize (H4 t'). rewrite Hr, elem_of_cons in H4.
        case_decide as Et.
        { subst t'. split; [done|]. intros (j & [= <-] & Hj). done. }
        { rewrite <- H4. split; [by right|]. intros [?|?]; [congruence|done]. }
      * pose proof (size_upd m' t i') as Hsz. cbn in Hsz. cbn. by rewrite Hsz.
    + eexists. split; [apply lookup_insert_eq|]. done.
  - destruct Hr as [Hr1 Hr2]. split; [|split; [by destruct Hs|done]].
    apply (tm_inv_same s s' m m'); auto. by rewrite Hr1, Hr2.
Qed.

Lemma wp_tm_should_preempt s m cur :
  tm_inv s m -> known m cur ->
  wp (TaskManager_should_preempt s cur) (fun r m' => tm_inv (snd r) m' /\ tk_now m' = tk_now m /\
    ready (snd r) ≡ₚ ready s /\ (ready s = [] -> fst r = false)) m.
Proof.
  intros Hi Hk. unfold TaskManager_should_preempt. wp_simpl.
  eapply wp_mono; [apply should_preempt_law; [apply Hi|apply Hi|by apply tmi_known|done]|]. cbn beta.
  intros [b s'] m' (Hwf & Hs & Hr & Hb). cbn [fst snd] in *.
  split; [by eapply tm_inv_same|]. split; [by destruct Hs|done].
Qed.

Definition set_base (p : Z) (s : SchedInfo) : SchedInfo :=
  mkSched p (effective_priority s) (ready_since s) (runtime_ticks s)
    (total_wait_ticks s) (scheduled_count s) (slice_ticks s) (in_ready_queue s).

Lemma set_base_priority_run p now s :
  SchedInfo_set_base_priority p now s =
  Ok (tt, set_effective (aged now (set_base p s)) (set_base p s)).
Proof.
  unfold SchedInfo_set_base_priority, SchedInfo_refresh_effective_priority, aged, mbind, M_bind. cbn.
  destruct (in_ready_queue s) eqn:E; unfold set_base; cbn; rewrite ?E; cbn; reflexivity.
Qed.

Lemma with_sched_run {A} m t i (f : M SchedInfo A) a si :
  tk_table m !! t = Some i -> f (sched_info i) = Ok (a, si) ->
  with_inner t (with_sched f) m = Ok (a, upd m t (mkTask (task_status i) si)).
Proof. intros Hi Hf. unfold with_inner, with_sched, mbind, M_bind. cbn. rewrite Hi. cbn. by rewrite Hf. Qed.

(** The kernel's uses of the manager and of the scheduling information of a
    task. *)
Inductive tm_step : T * Tasks -> T * Tasks -> Prop :=
  | tm_add s m t s' m' : known m t -> TaskManager_add s t m = Ok (s', m') -> tm_step (s, m) (s', m')
  | tm_wakeup s m t s' m' : known m t -> wakeup_task s t m = Ok (s', m') -> tm_step (s, m) (s', m')
  | tm_fetch s m o s' m' : TaskManager_fetch s m = Ok ((o, s'), m') -> tm_step (s, m) (s', m')
  | tm_preempt s m cur b s' m' : known m cur ->
      TaskManager_should_preempt s cur m = Ok ((b, s'), m') -> tm_step (s, m) (s', m')
  | tm_tick s m t m' : known m t ->
      with_inner t (with_sched SchedInfo_on_timer_tick) m = Ok (tt, m') -> tm_step (s, m) (s, m')
  | tm_block s m t m' : known m t -> t ∉ ready s ->
      with_inner t (with_sched SchedInfo_on_block) m = Ok (tt, m') -> tm_step (s, m) (s, m')
  | tm_priority s m t p m' : known m t -> MIN_PRIORITY <= p <= MAX_PRIORITY ->
      with_inner t (with_sched (SchedInfo_set_base_priority p (tk_now m))) m = Ok (tt, m') ->
      tm_step (s, m) (s, m')
  | tm_time s m now : tk_now m <= now -> tm_step (s, m) (s, mkTasks now (tk_table m)).

Lemma tm_step_inv st st' : tm_inv (fst st) (snd st) -> tm_step st st' -> tm_inv (fst st') (snd st').
Proof.
  intros Hi Hst. destruct Hst as [s m t s' m' Hk E|s m t s' m' Hk E|s m o s' m' E|s m cur b s' m' Hk E
    |s m t m' Hk E|s m t m' Hk Hn E|s m t p m' Hk Hp E|s m now Hnow]; cbn [fst snd] in *.
  - eapply wp_Ok in E; [|by apply wp_add]. by destruct E.
  - destruct Hk as (i & Hti & Hok). unfold wakeup_task in E. apply bind_Ok in E as ([] & m1 & E1 & E2).
    unfold with_inner, mbind, M_bind in E1. cbn in E1. rewrite Hti in E1. injection E1 as <-.
    eapply wp_Ok in E2; [|apply wp_add].
    + by destruct E2.
    + by apply (tm_inv_upd s m t i).
    + exists (mkTask Ready (sched_info i)). split; [apply lookup_insert_eq|done].
  - eapply wp_Ok in E; [|by apply wp_fetch]. by destruct E.
  - eapply wp_Ok in E; [|by apply wp_tm_should_preempt]. by destruct E.
  - destruct Hk as (i & Hti & Hok). unfold with_inner, mbind, M_bind in E. cbn in E. rewrite Hti in E.
    injection E as <-. apply (tm_inv_upd s m t i); auto.
  - destruct Hk as (i & Hti & Hok). unfold with_inner, mbind, M_bind in E. cbn in E. rewrite Hti in E.
    injection E as <-. apply (tm_inv_upd s m t i); auto.
    + destruct Hok. split; cbn; unfold MIN_PRIORITY, MAX_PRIORITY in *; lia.
    + cbn. destruct (in_ready_queue (sched_info i)) eqn:Hf; [|done]. destruct Hn. apply (tmi_flag _ _ Hi). eauto.
  - destruct Hk as (i & Hti & Hok).
    rewrite (with_sched_run m t i _ _ _ Hti (set_base_priority_run p (tk_now m) (sched_info i))) in E.
    injection E as <-. set (si := set_base p (sched_info i)).
    assert (sched_ok si) as Hsi by (destruct Hok; split; done).
    pose proof (aged_range (tk_now m) si Hsi) as Hr.
    apply (tm_inv_upd s m t i); [done|done| |done]. destruct Hsi. split; done.
  - destruct Hi as [H1 H2 H3 H4 H5]. by split.
Qed.

End Manager.

(** ** Properties *)

Lemma tm_reachable {T} `{SchedulerLaws T} (m0 : Tasks) st :
  all_ok m0 -> (forall t i, tk_table m0 !! t = Some i -> in_ready_queue (sched_info i) = false) ->
  Z.of_nat (size (tk_table m0)) + 1 < 2 ^ 64 ->
  rtc tm_step (scheduler_new, m0) st -> tm_inv (fst st) (snd st).
Proof.
  intros Hok Hf Hb Hr.
  assert (tm_inv scheduler_new m0) as Hi.
  { destruct scheduler_new_law as [Hw Hn]. split; auto; rewrite ?Hn; [constructor|].
    intros t. split; [by intros ?%elem_of_nil|]. intros (i & Hi & Hfl).
    rewrite (Hf t i Hi) in Hfl. done. }
  remember (scheduler_new, m0) as st0 eqn:E. assert (tm_inv (fst st0) (snd st0)) as Hi0 by (by subst).
  clear -Hr Hi0 H0. induction Hr as [|x y z Hxy _ IH]; [done|]. apply IH. by eapply tm_step_inv.
Qed.

(** No task is lost or queued twice, under either policy.  In every state
    the kernel reaches by adding, waking, fetching, ticking, blocking,
    reprioritising and preempting tasks, the ready queues hold each task whose
    [in_ready_queue] flag is set exactly once and no other task; adding a
    queued task again changes nothing; [fetch] returns [None] only when no task
    is ready, and otherwise removes the task it returns and gives it a fresh
    time slice at its base priority. *)
Theorem task_manager_ready_set {T} `{SchedulerLaws T} m0 s m :
  all_ok m0 -> (forall t i, tk_table m0 !! t = Some i -> in_ready_queue (sched_info i) = false) ->
  Z.of_nat (size (tk_table m0)) + 1 < 2 ^ 64 ->
  rtc tm_step (scheduler_new, m0) (s, m) ->
  NoDup (ready s) /\
  (forall t, t ∈ ready s <-> exists i, tk_table m !! t = Some i /\ in_ready_queue (sched_info i) = true) /\
  (forall t, known m t -> t ∈ ready s -> TaskManager_add s t m = Ok (s, m)) /\
  exists o s' m', TaskManager_fetch s m = Ok ((o, s'), m') /\
    match o with
    | Some t => ready s ≡ₚ t :: ready s' /\ exists i, tk_table m' !! t = Some i /\
        slice_ticks (sched_info i) = 0 /\ in_ready_queue (sched_info i) = false /\
        effective_priority (sched_info i) = base_priority (sched_info i)
    | None => ready s = []
    end.
Proof.
  intros Hok Hf Hb Hr. pose proof (tm_reachable m0 _ Hok Hf Hb Hr) as Hi. cbn [fst snd] in Hi.
  split_and!; [apply Hi|apply Hi| |].
  - intros t Hk Hin. destruct (wp_run _ _ _ (wp_add s m t Hi Hk)) as (s' & m' & Hrun & _ & _ & Hd).
    rewrite decide_True in Hd by done. destruct Hd as [-> ->]. done.
  - destruct (wp_run _ _ _ (wp_fetch s m Hi)) as ([o s'] & m' & Hrun & Hi' & _ & Hd).
    exists o, s', m'. split; [done|]. cbn [fst snd] in *. destruct o as [t|]; [|by destruct Hd].
    destruct Hd as (Hp & i & Hti & H1 & H2). split; [done|]. exists i. split_and!; auto.
    destruct (in_ready_queue (sched_info i)) eqn:E; [|done].
    assert (t ∈ ready s') as Hin by (apply (tmi_flag _ _ Hi'); eauto).
    pose proof (tmi_nodup _ _ Hi) as Hn. rewrite Hp in Hn. by apply NoDup_cons in Hn as [? _].
Qed.

Definition demo_info (p : Z) : SchedInfo := mkSched p p 0 0 0 0 0 false.
Definition demo_tasks : Tasks := mkTasks 10 {[1 := mkTask Ready (demo_info 4); 2 := mkTask Ready (demo_info 6)]}.

Lemma demo_tasks_ok : all_ok demo_tasks.
Proof.
  intros t i. unfold demo_tasks. cbn [tk_table].
  rewrite lookup_insert, lookup_singleton. repeat case_decide; intros [= <-]; by split.
Qed.

Lemma demo_tasks_idle t i : tk_table demo_tasks !! t = Some i -> in_ready_queue (sched_info i) = false.
Proof.
  unfold demo_tasks. cbn [tk_table].
  rewrite lookup_insert, lookup_singleton. repeat case_decide; intros [= <-]; done.
Qed.

Lemma task_manager_ready_set_witness : exists (s : PriorityScheduler) m,
  rtc tm_step (scheduler_new, demo_tasks) (s, m) /\ ready s = [1; 2] /\
  TaskManager_add s 2 m = Ok (s, m).
Proof.
  destruct (TaskManager_add (scheduler_new : PriorityScheduler) 1 demo_tasks) as [[s1 m1]|] eqn:E1;
    [|by vm_compute in E1].
  destruct (TaskManager_add s1 2 m1) as [[s2 m2]|] eqn:E2; [|vm_compute in E1; injection E1 as <- <-; by vm_compute in E2].
  assert (known demo_tasks 1) as K1 by (eexists; split; [reflexivity|by split]).
  assert (known m1 2) as K2.
  { vm_compute in E1. injection E1 as <- <-. eexists. split; [reflexivity|by split]. }
  assert (rtc tm_step (scheduler_new, demo_tasks) (s2, m2)) as Hr.
  { eapply rtc_l; [by apply (tm_add _ _ 1 s1 m1)|]. eapply rtc_l; [by apply (tm_add _ _ 2 s2 m2)|]. apply rtc_refl. }
  assert (ready s2 = [1; 2]) as Es.
  { vm_compute in E1. injection E1 as <- <-. vm_compute in E2. by injection E2 as <- <-. }
  exists s2, m2. split; [exact Hr|]. split; [exact Es|].
  destruct (task_manager_ready_set demo_tasks s2 m2 demo_tasks_ok demo_tasks_idle ltac:(by vm_compute) Hr)
    as (_ & _ & Hadd & _).
  apply Hadd; [|rewrite Es; right; left].
  vm_compute in E1. injection E1 as <- <-. vm_compute in E2. injection E2 as <- <-.
  eexists. split; [reflexivity|by split].
Defined.

(** What the aging pass and the pop do to the order of the queues. *)
Lemma ps_dequeue_order s now m :
  ps_wf s -> all_ok m -> Forall (known m) (concat (ps_ready_queues s)) -> concat (ps_ready_queues s) <> [] ->
  exists t s' m' p, PriorityScheduler_dequeue s now m = Ok ((Some t, s'), m') /\
    concat (ps_ready_queues s) ≡ₚ t :: concat (ps_ready_queues s') /\
    p = level now m t /\
    (forall u, u ∈ concat (ps_ready_queues s) -> (level now m u <= p)%nat) /\
    (forall q l u, ps_ready_queues s' !! q = Some l -> u ∈ l -> level now m u = q) /\
    (forall q l l', ps_ready_queues s !! q = Some l -> ps_ready_queues s' !! q = Some l' ->
       filter (fun u => level now m u = q) l `prefix_of` (if decide (q = p) then t :: l' else l')).
Proof.
  intros Hwf Hok Hk Hne.
  destruct (wp_run _ _ _ (wp_ps_dequeue s now m Hwf Hok Hk)) as ([o s'] & m' & Hr & Hwf' & _ & Hd).
  cbn [fst snd] in *. destruct o as [t|]; [|by destruct Hd].
  destruct Hd as (Hp & p & l & Hqp & Hqs & Hhi). cbv zeta in *.
  set (qs := age_pass (level now m) (rev (seq 0 PRIORITY_LEVELS)) (ps_ready_queues s)) in *.
  destruct Hwf as [Hlen _ _].
  assert (forall q, (q < PRIORITY_LEVELS)%nat -> q ∈ rev (seq 0 PRIORITY_LEVELS)) as Hin.
  { intros q Hq. apply list_elem_of_In. rewrite <- in_rev. apply in_seq. lia. }
  assert (length qs = PRIORITY_LEVELS) as Hlq by (unfold qs; by rewrite length_age_pass).
  assert (forall q l0, qs !! q = Some l0 -> Forall (fun u => level now m u = q) l0) as Hlev.
  { intros q l0 Hq. apply (age_pass_level (level now m) (rev (seq 0 PRIORITY_LEVELS)) (ps_ready_queues s) []) with (p := q) (l := l0).
    - intros ? ? Hn. by apply elem_of_nil in Hn.
    - apply Hin. rewrite <- Hlq. by eapply lookup_lt_Some.
    - exact Hq. }
  assert (p = level now m t) as Ep.
  { pose proof (Hlev p _ Hqp) as Hf. apply Forall_cons in Hf as [Hf _]. done. }
  assert (concat qs ≡ₚ concat (ps_ready_queues s)) as Hperm.
  { apply age_pass_perm. eapply Forall_impl; [exact Hk|]. intros u Hu. rewrite Hlen. by apply level_known. }
  assert (p < length qs)%nat as Hplt by (by eapply lookup_lt_Some).
  exists t, s', m', p. split_and!; [done|done|done| | |].
  - intros u Hu. rewrite <- Hperm in Hu. destruct (concat_nonempty qs u Hu) as (q & lq & Hq & Huq).
    pose proof (Hlev q lq Hq) as Hf. rewrite Forall_forall in Hf. rewrite (Hf u Huq).
    destruct (decide (p < q)%nat) as [Hlt|]; [|lia]. rewrite (Hhi q lq Hlt Hq) in Huq. by apply elem_of_nil in Huq.
  - intros q lq u Hq Hu. rewrite Hqs in Hq. destruct (decide (p = q)) as [<-|Hne'].
    + rewrite list_lookup_insert_eq in Hq by done. injection Hq as <-.
      pose proof (Hlev p _ Hqp) as Hf. rewrite Forall_forall in Hf. apply Hf. by right.
    + rewrite list_lookup_insert_ne in Hq by done. pose proof (Hlev q _ Hq) as Hf. rewrite Forall_forall in Hf. by apply Hf.
  - intros q lq lq' Hq Hq'.
    destruct (age_pass_prefix (level now m) (rev (seq 0 PRIORITY_LEVELS)) (ps_ready_queues s) q lq) as (lx & Hlx & Hpre); [|done|].
    { apply NoDup_ListNoDup. apply NoDup_rev. apply NoDup_ListNoDup, NoDup_seq. }
    fold qs in Hlx. rewrite decide_True in Hpre by (apply Hin; rewrite <- Hlq; by eapply lookup_lt_Some).
    rewrite Hqs in Hq'. case_decide as E.
    + subst q. rewrite list_lookup_insert_eq in Hq' by done. injection Hq' as <-. rewrite Hqp in Hlx. by injection Hlx as <-.
    + rewrite list_lookup_insert_ne, Hlx in Hq' by done. by injection Hq' as <-.
Qed.

(** The priority policy dispatches a task whose priority after aging is
    maximal among the ready tasks: after [refresh_aging] every level holds
    exactly the tasks of that level, tasks that stay in a level keep their
    order at its front, and [dequeue] pops the front of the highest level that
    is not empty. *)
Theorem priority_dequeue_highest s now m :
  ps_wf s -> all_ok m -> Forall (known m) (concat (ps_ready_queues s)) -> concat (ps_ready_queues s) <> [] ->
  exists t s' m' p, PriorityScheduler_dequeue s now m = Ok ((Some t, s'), m') /\
    concat (ps_ready_queues s) ≡ₚ t :: concat (ps_ready_queues s') /\
    p = level now m t /\
    (forall u, u ∈ concat (ps_ready_queues s) -> (level now m u <= p)%nat) /\
    (forall q l u, ps_ready_queues s' !! q = Some l -> u ∈ l -> level now m u = q) /\
    (forall q l l', ps_ready_queues s !! q = Some l -> ps_ready_queues s' !! q = Some l' ->
       filter (fun u => level now m u = q) l `prefix_of` (if decide (q = p) then t :: l' else l')).
Proof. apply ps_dequeue_order. Qed.

Definition demo_ps : PriorityScheduler := mkPS [[]; [1]; []; []; []; []; [2]; []] 2.
Definition demo_ready : Tasks := mkTasks 200 {[
  1 := mkTask Ready (mkSched 1 1 0 0 0 0 0 true);
  2 := mkTask Ready (mkSched 6 6 190 0 0 0 0 true)]}.

Lemma demo_ready_ok : all_ok demo_ready.
Proof.
  intros t i. unfold demo_ready. cbn [tk_table].
  rewrite lookup_insert, lookup_singleton. repeat case_decide; intros [= <-]; by split.
Qed.

(** The task of base priority 1 has waited 200 ticks and overtakes the one of
    priority 6. *)
Lemma priority_dequeue_highest_witness : exists s' m',
  PriorityScheduler_dequeue demo_ps 200 demo_ready = Ok ((Some 1, s'), m').
Proof.
  destruct (priority_dequeue_highest demo_ps 200 demo_ready) as (t & s' & m' & p & Hr & _).
  - split; [done|done|by vm_compute].
  - exact demo_ready_ok.
  - repeat (constructor; [eexists; split; [reflexivity|by split]|]). constructor.
  - done.
  - exists s', m'. vm_compute in Hr. injection Hr as <- <- <-. reflexivity.
Defined.

(** ** Aging prevents starvation *)

(** A ready task that has waited for seven aging intervals. *)
Definition waited (m : Tasks) (t : Z) : Prop :=
  exists i, tk_table m !! t = Some i /\ in_ready_queue (sched_info i) = true /\
    ready_since (sched_info i) + 7 * AGING_INTERVAL_TICKS <= tk_now m.

(** The position of a task in the queue of the highest level. *)
Definition top_index (s : PriorityScheduler) (t : Z) (i : nat) : Prop :=
  exists q, ps_ready_queues s !! 7%nat = Some q /\ q !! i = Some t.

Lemma filter_lookup_le {A} (P : A -> Prop) `{forall x, Decision (P x)} (l : list A) i x :
  l !! i = Some x -> P x -> exists j, (j <= i)%nat /\ filter P l !! j = Some x.
Proof.
  revert i. induction l as [|y l IH]; intros [|i] Hi Hp; try done; cbn in Hi; rewrite filter_cons.
  - injection Hi as ->. rewrite decide_True by done. exists O. split; [lia|done].
  - destruct (IH i Hi Hp) as (j & Hj & Hl). case_decide; [exists (S j)|exists j]; (split; [lia|done]).
Qed.

Lemma waited_level m t : all_ok m -> waited m t -> level (tk_now m) m t = 7%nat.
Proof.
  intros Hok (i & Hi & Hf & Hw). unfold level. rewrite Hi, (aged_top _ _ (Hok t i Hi) Hf Hw). done.
Qed.

Lemma waited_same m m' t : same_tasks m m' -> waited m t -> waited m' t.
Proof.
  intros Hs (i & Hi & Hf & Hw). destruct (same_tasks_lookup _ _ _ _ Hs Hi) as (i' & Hi' & E).
  destruct Hs as (Hnow & _). exists i'. rewrite Hnow. unfold forget, set_effective in E.
  destruct i as [? []], i' as [? []]. cbn in *. injection E. intros. subst. done.
Qed.

Lemma waited_upd m t u i' : u <> t -> waited m t -> waited (upd m u i') t.
Proof. intros Hne (i & Hi & Hw). exists i. cbn. by rewrite lookup_insert_ne. Qed.

Lemma waited_upd_same m t u i i' :
  tk_table m !! u = Some i -> in_ready_queue (sched_info i') = in_ready_queue (sched_info i) ->
  ready_since (sched_info i') = ready_since (sched_info i) ->
  waited m t -> waited (upd m u i') t.
Proof.
  intros Hu Hf Hr Hw. destruct (decide (u = t)) as [->|]; [|by apply waited_upd].
  destruct Hw as (j & Hj & Hw). assert (j = i) as -> by congruence.
  exists i'. cbn. rewrite lookup_insert_eq, Hf, Hr. done.
Qed.

(** The aging pass brings a task that has waited to the top and does not move
    it back. *)
Lemma age_pass_top s m t i :
  ps_wf s -> all_ok m -> top_index s t i -> waited m t ->
  exists j q, (j <= i)%nat /\
    age_pass (level (tk_now m) m) (rev (seq 0 PRIORITY_LEVELS)) (ps_ready_queues s) !! 7%nat = Some q /\
    q !! j = Some t.
Proof.
  intros Hwf Hok (q & Hq & Hi) Hw.
  destruct (age_pass_prefix (level (tk_now m) m) (rev (seq 0 PRIORITY_LEVELS)) (ps_ready_queues s) 7 q)
    as (q' & Hq' & Hpre); [|done|].
  { apply NoDup_ListNoDup, NoDup_rev, NoDup_ListNoDup, NoDup_seq. }
  rewrite decide_True in Hpre by (cbn; left).
  destruct (filter_lookup_le (fun u => level (tk_now m) m u = 7%nat) q i t Hi (waited_level m t Hok Hw))
    as (j & Hj & Hl).
  exists j, q'. split_and!; [done|done|]. by eapply prefix_lookup_Some.
Qed.

Lemma add_shape s m u s' m' :
  tm_inv s m -> known m u -> TaskManager_add s u m = Ok (s', m') ->
  (s' = s /\ m' = m) \/
  ((u ∉ ready s) /\ (exists i', m' = upd m u i') /\
   exists k, ps_ready_queues s' = push_back k u (ps_ready_queues s)).
Proof.
  intros Hi (i & Hti & Hok) E. unfold TaskManager_add in E. apply bind_Ok in E as (now & m1 & E1 & E).
  unfold gets in E1. injection E1 as <- <-. apply bind_Ok in E as (b & m2 & E1 & E).
  destruct (in_ready_queue (sched_info i)) eqn:Hf.
  - assert (SchedInfo_on_enqueue (tk_now m) (sched_info i) = Ok (false, sched_info i)) as Hrun.
    { unfold SchedInfo_on_enqueue, mbind, M_bind. cbn. by rewrite Hf. }
    rewrite (with_sched_run m u i _ _ _ Hti Hrun) in E1. injection E1 as <- <-. left.
    cbn in E. injection E as <- <-. split; [done|]. unfold upd. rewrite insert_id by (by destruct i).
    by destruct m.
  - right. split. { rewrite (tmi_flag _ _ Hi). intros (j & Hj & Hjf). congruence. }
    assert (exists si, SchedInfo_on_enqueue (tk_now m) (sched_info i) = Ok (true, si)) as [si Hrun].
    { eexists. unfold SchedInfo_on_enqueue, mbind, M_bind. cbn. rewrite Hf. reflexivity. }
    rewrite (with_sched_run m u i _ _ _ Hti Hrun) in E1. injection E1 as <- <-.
    cbn in E. unfold PriorityScheduler_enqueue in E. apply bind_Ok in E as (e & m3 & E1 & E).
    unfold with_inner, mbind, M_bind in E1. cbn in E1. rewrite lookup_insert_eq in E1. injection E1 as <- <-.
    cbn in E. injection E as <- <-. cbn. split; [|eauto]. eexists. unfold upd. cbn. by rewrite insert_insert_eq.
Qed.

Lemma top_index_push s s' k u t i :
  ps_ready_queues s' = push_back k u (ps_ready_queues s) -> top_index s t i -> top_index s' t i.
Proof.
  intros E (q & Hq & Hi). unfold top_index. rewrite E. unfold push_back.
  destruct (decide (k = 7%nat)) as [->|Hne].
  - exists (q ++ [u]). rewrite list_lookup_alter_eq, Hq. split; [done|].
    by rewrite lookup_app_l by (by eapply lookup_lt_Some).
  - exists q. by rewrite list_lookup_alter_ne.
Qed.

Lemma fetch_top s m t i o s' m' :
  tm_inv s m -> waited m t -> top_index s t i -> TaskManager_fetch s m = Ok ((o, s'), m') ->
  o = Some t \/ (waited m' t /\ exists j, (j < i)%nat /\ top_index s' t j).
Proof.
  intros Hi Hw Htop E. unfold TaskManager_fetch in E. apply bind_Ok in E as (now & m1 & E1 & E).
  unfold gets in E1. injection E1 as <- <-. apply bind_Ok in E as ([o1 s1] & m1 & E1 & E).
  pose proof (wp_ps_dequeue s (tk_now m) m (tmi_wf _ _ Hi) (tmi_ok _ _ Hi) (tmi_known _ _ Hi)) as Hwp.
  eapply wp_Ok in Hwp; [|exact E1]. cbn [fst snd] in *. destruct Hwp as (_ & Hs & Hd).
  destruct (age_pass_top s m t i (tmi_wf _ _ Hi) (tmi_ok _ _ Hi) Htop Hw) as (j & q & Hj & Hq & Hqt).
  destruct o1 as [u|].
  - apply bind_Ok in E as ([] & m2 & E2 & E). cbn in E. injection E as <- <- <-.
    destruct Hd as (_ & p & l & Hp & Hqs & Hhi). cbv zeta in *.
    assert (p = 7%nat) as ->.
    { destruct (decide (p < 7)%nat) as [Hlt|].
      - rewrite (Hhi 7%nat q Hlt Hq) in Hqt. done.
      - assert (p < PRIORITY_LEVELS)%nat; [|unfold PRIORITY_LEVELS in *; lia].
        rewrite <- (psw_levels _ (tmi_wf _ _ Hi)), <- (length_age_pass (level (tk_now m) m) (rev (seq 0 PRIORITY_LEVELS))).
        by eapply lookup_lt_Some. }
    rewrite Hq in Hp. injection Hp as ->. destruct j as [|j]; [left; cbn in Hqt; congruence|].
    destruct (decide (u = t)) as [->|Hne]; [by left|]. right. split.
    + apply (waited_same _ _ _ Hs) in Hw. clear -Hw E2 Hne. unfold with_inner, mbind, M_bind in E2. cbn in E2.
      destruct (tk_table m1 !! u) as [i|]; [|done]. cbn in E2. injection E2 as <-. by apply waited_upd.
    + exists j. split; [lia|]. exists l. split; [|done]. rewrite Hqs. apply list_lookup_insert_eq.
      by eapply lookup_lt_Some.
  - exfalso. destruct Hd as [Hn _]. destruct Htop as (q0 & Hq0 & Hi0).
    assert (t ∈ concat (ps_ready_queues s)) as Hin.
    { apply list_elem_of_In, in_concat. exists q0. split; apply list_elem_of_In; by eapply list_elem_of_lookup_2. }
    rewrite Hn in Hin. by apply elem_of_nil in Hin.
Qed.

Lemma preempt_top s m t i cur b s' m' :
  tm_inv s m -> waited m t -> top_index s t i -> TaskManager_should_preempt s cur m = Ok ((b, s'), m') ->
  waited m' t /\ exists j, (j <= i)%nat /\ top_index s' t j.
Proof.
  intros Hi Hw Htop E. unfold TaskManager_should_preempt in E. apply bind_Ok in E as (now & m1 & E1 & E).
  unfold gets in E1. injection E1 as <- <-. cbn in E. unfold PriorityScheduler_should_preempt in E.
  destruct (ps_ready_tasks s =? 0); [injection E as <- <- <-; eauto|].
  apply bind_Ok in E as (qs & m1 & E1 & E).
  pose proof (wp_refresh_aging (tk_now m) m (ps_ready_queues s) (tmi_known _ _ Hi)
    (psw_levels _ (tmi_wf _ _ Hi)) (tmi_ok _ _ Hi)) as Hwp.
  eapply wp_Ok in Hwp; [|exact E1]. destruct Hwp as [-> Hs].
  remember (age_pass (level (tk_now m) m) (rev (seq 0 PRIORITY_LEVELS)) (ps_ready_queues s)) as qs.
  apply bind_Ok in E as (h & m2 & E2 & E). destruct (highest_ready_priority qs) as [h'|]; [|done].
  unfold unwrap, mret, M_ret in E2. injection E2 as <- <-. apply bind_Ok in E as (inn & m3 & E3 & E).
  unfold mret, M_ret in E. injection E as <- <- <-.
  unfold with_inner, mbind, M_bind in E3. cbn in E3. destruct (tk_table m1 !! cur) as [ic|] eqn:Hc; [|done].
  cbn in E3. injection E3 as <- <-. rewrite insert_id by done.
  destruct (age_pass_top s m t i (tmi_wf _ _ Hi) (tmi_ok _ _ Hi) Htop Hw) as (j & q & Hj & Hq & Hqt).
  rewrite <- Heqqs in Hq. split; [destruct m1; by apply (waited_same m)|]. exists j. split; [done|]. by exists q.
Qed.

Lemma step_top st st' t i :
  tm_inv (fst st) (snd st) -> waited (snd st) t -> top_index (fst st) t i -> tm_step st st' ->
  t ∈ ready (fst st') -> waited (snd st') t /\ exists j, (j <= i)%nat /\ top_index (fst st') t j.
Proof.
  intros Hi Hw Htop Hst Hin.
  assert (t ∈ ready (fst st)) as Htin.
  { destruct Hw as (j & Hj & Hf & _). apply (tmi_flag _ _ Hi). eauto. }
  destruct Hst as [s m u s' m' Hk E|s m u s' m' Hk E|s m o s' m' E|s m cur b s' m' Hk E
    |s m u m' Hk E|s m u m' Hk Hn E|s m u p m' Hk Hp E|s m now Hnow]; cbn [fst snd] in *.
  - destruct (add_shape _ _ _ _ _ Hi Hk E) as [[-> ->]|(Hni & (i' & ->) & k & Hpk)]; [eauto|].
    split; [apply waited_upd; congruence|]. exists i. split; [lia|]. by eapply top_index_push.
  - destruct Hk as (i0 & Hti & Hok0). unfold wakeup_task in E. apply bind_Ok in E as ([] & m1 & E1 & E2).
    unfold with_inner, mbind, M_bind in E1. cbn in E1. rewrite Hti in E1. injection E1 as <-.
    set (i1 := mkTask Ready (sched_info i0)) in *. fold (upd m u i1) in E2.
    assert (tm_inv s (upd m u i1)) as Hi1 by (by apply (tm_inv_upd s m u i0)).
    assert (waited (upd m u i1) t) as Hw1 by (by apply (waited_upd_same m t u i0)).
    assert (known (upd m u i1) u) as Hk1 by (exists i1; split; [apply lookup_insert_eq|done]).
    destruct (add_shape _ _ _ _ _ Hi1 Hk1 E2) as [[-> ->]|(Hni & (i' & ->) & k & Hpk)]; [eauto|].
    split; [apply waited_upd; congruence|]. exists i. split; [lia|]. by eapply top_index_push.
  - destruct (fetch_top _ _ _ _ _ _ _ Hi Hw Htop E) as [->|(Hw' & j & Hj & Ht)].
    + exfalso. eapply wp_Ok in E; [|by apply wp_fetch]. cbn [fst snd] in E. destruct E as (Hi' & _ & Hp & _).
      pose proof (tmi_nodup _ _ Hi) as Hnd. rewrite Hp in Hnd. by apply NoDup_cons in Hnd as [? _].
    + split; [done|]. exists j. split; [lia|done].
  - by eapply preempt_top.
  - destruct Hk as (i0 & Hti & Hok0). unfold with_inner, mbind, M_bind in E. cbn in E. rewrite Hti in E.
    injection E as <-. split; [by apply (waited_upd_same m t u i0)|eauto].
  - assert (u <> t) by congruence. unfold with_inner, mbind, M_bind in E. cbn in E.
    destruct (tk_table m !! u) as [i0|] eqn:Hti; [|done]. injection E as <-.
    split; [by apply waited_upd|eauto].
  - destruct Hk as (i0 & Hti & Hok0).
    rewrite (with_sched_run m u i0 _ _ _ Hti (set_base_priority_run p (tk_now m) (sched_info i0))) in E.
    injection E as <-. split; [by apply (waited_upd_same m t u i0)|eauto].
  - split; [|eauto]. destruct Hw as (i0 & Hi0 & Hf & Hw). exists i0. cbn. split_and!; [done|done|lia].
Qed.

(** [n] calls of [fetch] that pass a task over, with any other steps that
    leave it ready in between. *)
Inductive passed_over (t : Z) : nat -> PriorityScheduler * Tasks -> PriorityScheduler * Tasks -> Prop :=
  | po_refl st : passed_over t 0 st st
  | po_fetch n s m o s1 m1 st : TaskManager_fetch s m = Ok ((o, s1), m1) -> o <> Some t ->
      passed_over t n (s1, m1) st -> passed_over t (S n) (s, m) st
  | po_step n st1 st2 st3 : tm_step st1 st2 -> t ∈ ready (fst st2) ->
      passed_over t n st2 st3 -> passed_over t n st1 st3.

Lemma passed_over_bound t n st st' : passed_over t n st st' -> forall i,
  tm_inv (fst st) (snd st) -> waited (snd st) t -> top_index (fst st) t i -> (n <= i)%nat.
Proof.
  induction 1 as [st|n s m o s1 m1 st Hf Hne _ IH|n [s1 m1] [s2 m2] st3 Hst Hin _ IH]; intros i Hi Hw Ht;
    cbn [fst snd] in *; [lia| |].
  - destruct (fetch_top _ _ _ _ _ _ _ Hi Hw Ht Hf) as [?|(Hw' & j & Hj & Ht')]; [done|].
    pose proof Hf as Hf'. eapply wp_Ok in Hf'; [|by apply wp_fetch]. destruct Hf' as [Hi' _]. cbn in Hi'.
    specialize (IH j Hi' Hw' Ht'). lia.
  - destruct (step_top (s1, m1) (s2, m2) _ _ Hi Hw Ht Hst Hin) as (Hw' & j & Hj & Ht').
    pose proof (tm_step_inv (s1, m1) (s2, m2) Hi Hst) as Hi'. cbn in Hi'. specialize (IH j Hi' Hw' Ht'). lia.
Qed.

(** C29: aging prevents starvation.  Once a task has been ready for seven
    aging intervals (140 ticks), whatever the priorities of the other tasks,
    the next [fetch] dispatches it or leaves it at some position [i] of the
    highest queue; from a position [i] there, at most [i] further [fetch]es can
    pass it over, no matter how many tasks of higher priority are added,
    woken, reprioritised or preempted in the meantime. *)
Theorem aging_no_starvation (s : PriorityScheduler) m t :
  tm_inv s m -> waited m t ->
  (forall o s' m', TaskManager_fetch s m = Ok ((o, s'), m') ->
     o = Some t \/ exists i, (i < length (ready s'))%nat /\ top_index s' t i) /\
  (forall i n st, top_index s t i -> passed_over t n (s, m) st -> (n <= i)%nat).
Proof.
  intros Hi Hw. split; [|intros i n st Ht Hp; by eapply (passed_over_bound t n (s, m) st)].
  intros o s' m' E. unfold TaskManager_fetch in E. apply bind_Ok in E as (now & m1 & E1 & E).
  unfold gets in E1. injection E1 as <- <-. apply bind_Ok in E as ([o1 s1] & m1 & E1 & E).
  assert (t ∈ ready s) as Htin.
  { destruct Hw as (j & Hj & Hf & _). apply (tmi_flag _ _ Hi). eauto. }
  destruct (ps_dequeue_order s (tk_now m) m (tmi_wf _ _ Hi) (tmi_ok _ _ Hi) (tmi_known _ _ Hi))
    as (u & s2 & m2 & p & Hd & Hperm & _ & _ & Hlev & _).
  { cbn in Htin. intros E'. rewrite E' in Htin. by apply elem_of_nil in Htin. }
  cbn in E1. rewrite Hd in E1. injection E1 as <- <- <-. cbn [fst snd] in E.
  apply bind_Ok in E as ([] & m3 & _ & E). cbn in E. injection E as <- <- <-.
  destruct (decide (u = t)) as [->|Hne]; [by left|]. right.
  cbn in Htin. rewrite Hperm, elem_of_cons in Htin. destruct Htin as [?|Htin]; [congruence|].
  destruct (concat_nonempty _ _ Htin) as (q & l & Hq & Htl).
  assert (q = 7%nat) as -> by (rewrite <- (Hlev q l t Hq Htl); by apply waited_level; [apply Hi|]).
  apply list_elem_of_lookup in Htl as [i Hti]. exists i. split; [|by exists l].
  cbn. apply lookup_lt_Some in Hti.
  clear -Hq Hti. revert Hq. generalize 7%nat as k. induction (ps_ready_queues s2) as [|q qs IH]; intros [|k] Hq;
    try done; cbn in *; rewrite length_app; [injection Hq as ->; lia|]. specialize (IH k Hq). lia.
Qed.

Lemma aging_no_starvation_witness : exists s' m' (s : PriorityScheduler),
  TaskManager_fetch s demo_ready = Ok ((Some 1, s'), m') /\
  (forall n st, passed_over 1 n (s, demo_ready) st -> (n <= 0)%nat).
Proof.
  set (s := mkPS [[]; []; []; []; []; []; [2]; [1]] 2).
  assert (tm_inv s demo_ready) as Hi.
  { split; [split; [done|done|by vm_compute]|exact demo_ready_ok| | |by vm_compute].
    - cbn. apply NoDup_cons. split; [intros E%list_elem_of_singleton; discriminate|]. apply NoDup_singleton.
    - intros t. cbn. unfold demo_ready. cbn [tk_table]. rewrite elem_of_cons, list_elem_of_singleton.
      rewrite lookup_insert, lookup_singleton. repeat case_decide; subst; split; intros; naive_solver. }
  assert (waited demo_ready 1) as Hw by (eexists; split_and!; [reflexivity|done|by vm_compute]).
  destruct (aging_no_starvation s demo_ready 1 Hi Hw) as [_ Hb].
  eexists _, _, s. split; [vm_compute; reflexivity|].
  intros n st Hp. apply (Hb 0%nat n st); [by exists [1]|exact Hp].
Defined.
