(* ===== verification/BlockCache.v ===== *)
(** * Block cache (easy-fs/src/block_cache.rs, block_dev.rs)

    File-system code is a program over blocks ([prog]): it locks the cached
    copy of a block, uses it, and drops the guard; it may hold several blocks
    at once.  The module gives such programs two meanings: over an array of
    blocks ([run], the specification the rest of easy-fs is proved against)
    and over the sixteen-entry cache in front of a device ([run_cache], the
    code of block_cache.rs), and proves them equal, faults included. *)

From S2P Require Import Prelude.

Definition BLOCK_SZ : nat := 512.
Definition BLOCK_CACHE_SIZE : nat := 16.

Abbreviation block := (list Z) (only parsing).

(** ** Programs over blocks *)

(** [Acquire id] is [get_block_cache(id, dev).lock()]; it gives the 512 bytes.
    [Release id w] is the end of the statement, where the guard is dropped: [w]
    is what a [modify] left in the block, [None] after a [read].  [FsLock] and
    [FsUnlock] take and drop the mutex of the [EasyFileSystem]. *)
Inductive prog (A : Type) : Type :=
  | Ret (a : A)
  | Stop (e : fault)
  | Acquire (id : Z) (k : block -> prog A)
  | Release (id : Z) (w : option block) (k : prog A)
  | FsLock (k : prog A)
  | FsUnlock (k : prog A)
  | SyncAll (k : prog A).
Arguments Ret {A} _.
Arguments Stop {A} _.
Arguments Acquire {A} _ _.
Arguments Release {A} _ _ _.
Arguments FsLock {A} _.
Arguments FsUnlock {A} _.
Arguments SyncAll {A} _.

Fixpoint prog_bind {A B : Type} (p : prog A) (f : A -> prog B) : prog B :=
  match p with
  | Ret a => f a
  | Stop e => Stop e
  | Acquire id k => Acquire id (fun b => prog_bind (k b) f)
  | Release id w k => Release id w (prog_bind k f)
  | FsLock k => FsLock (prog_bind k f)
  | FsUnlock k => FsUnlock (prog_bind k f)
  | SyncAll k => SyncAll (prog_bind k f)
  end.

#[export] Instance prog_ret : MRet prog := @Ret.
#[export] Instance prog_mbind : MBind prog := fun A B f p => prog_bind p f.

(** [assert!(b)] and [o.unwrap()] in a program. *)
Definition passert (b : bool) : prog unit := if b then Ret tt else Stop Panic.
Definition punwrap {A : Type} (o : option A) : prog A :=
  match o with Some a => Ret a | None => Stop Panic end.

(** [for x in l { acc = f(acc, x); }]. *)
Fixpoint pfold {A B : Type} (f : B -> A -> prog B) (acc : B) (l : list A) : prog B :=
  match l with
  | [] => Ret acc
  | x :: l' => acc' ← f acc x; pfold f acc' l'
  end.

(** [get_block_cache(id, dev).lock().read(offset, f)] for a [T] of [size]
    bytes: [f] sees the bytes of the [T]. *)
Definition block_read {V : Type} (id : Z) (offset size : nat) (f : list Z -> prog V) : prog V :=
  b ← Acquire id Ret;
  passert (offset + size <=? BLOCK_SZ)%nat;;
  v ← f (slice offset size b);
  Release id None (Ret v).

(** [get_block_cache(id, dev).lock().modify(offset, f)]. *)
Definition block_modify {V : Type} (id : Z) (offset size : nat) (f : list Z -> prog (list Z * V)) : prog V :=
  b ← Acquire id Ret;
  passert (offset + size <=? BLOCK_SZ)%nat;;
  r ← f (slice offset size b);
  Release id (Some (overwrite offset (fst r) b)) (Ret (snd r)).

Definition block_cache_sync_all : prog unit := SyncAll (Ret tt).

(** [let fs = self.fs.lock(); p], the guard dropped when [p] returns. *)
Definition with_fs {A : Type} (p : prog A) : prog A :=
  FsLock (a ← p; FsUnlock (Ret a)).

(** ** The specification: an array of blocks *)

Record Store := mkStore {
  st_blocks : gmap Z block;
  st_held : list Z;          (** the blocks locked, innermost first *)
  st_fs : bool               (** whether the file-system mutex is held *)
}.

Definition release (id : Z) (w : option block) (s : Store) : Store :=
  mkStore (match w with Some b => <[id := b]> (st_blocks s) | None => st_blocks s end)
    (filter (fun i => i <> id) (st_held s)) (st_fs s).

Fixpoint run {A : Type} (p : prog A) : M Store A := fun s =>
  match p with
  | Ret a => Ok (a, s)
  | Stop e => Err e
  | Acquire id k =>
      if decide (id ∈ st_held s) then Err Deadlock
      else if (BLOCK_CACHE_SIZE <=? length (st_held s))%nat then Err Panic
      else match st_blocks s !! id with
      | Some b => run (k b) (mkStore (st_blocks s) (id :: st_held s) (st_fs s))
      | None => Err Panic
      end
  | Release id w k =>
      if decide (id ∈ st_held s) then run k (release id w s) else Err Panic
  | FsLock k =>
      if st_fs s then Err Deadlock else run k (mkStore (st_blocks s) (st_held s) true)
  | FsUnlock k => run k (mkStore (st_blocks s) (st_held s) false)
  | SyncAll k => if decide (st_held s = []) then run k s else Err Deadlock
  end.

(** ** The cache *)

(** [BlockDevice]: reading or writing a block the device does not have is an
    error its implementations turn into a panic. *)
Abbreviation BlockDevice := (gmap Z block) (only parsing).

Definition read_block (block_id : Z) : M BlockDevice block :=
  dev ← get; unwrap (dev !! block_id).
Definition write_block (block_id : Z) (buf : block) : M BlockDevice unit :=
  dev ← get; _ ← unwrap (dev !! block_id); put (<[block_id := buf]> dev).

Record BlockCache := mkBC { bc_cache : block; bc_block_id : Z; bc_modified : bool }.

Definition BlockCache_new (block_id : Z) : M BlockDevice BlockCache :=
  cache ← read_block block_id;
  mret (mkBC cache block_id false).

Definition BlockCache_sync (c : BlockCache) : M BlockDevice BlockCache :=
  if bc_modified c then
    write_block (bc_block_id c) (bc_cache c);;
    mret (mkBC (bc_cache c) (bc_block_id c) false)
  else mret c.

(** An entry of the queue.  [sl_held] says that a caller holds the [Arc] (its
    strong count is 2) and the guard of its mutex. *)
Record Slot := mkSlot { sl_id : Z; sl_cache : BlockCache; sl_held : bool }.

Record BlockCacheManager := mkMgr {
  mg_queue : list Slot;
  mg_device : BlockDevice;
  mg_fs : bool
}.

Definition on_device {A : Type} (f : M BlockDevice A) : M BlockCacheManager A := fun s =>
  match f (mg_device s) with
  | Ok (a, dev) => Ok (a, mkMgr (mg_queue s) dev (mg_fs s))
  | Err e => Err e
  end.

Definition set_queue (q : list Slot) (s : BlockCacheManager) : BlockCacheManager :=
  mkMgr q (mg_device s) (mg_fs s).

(** The substitution of an entry nobody holds, from front to tail. *)
Definition substitute : M BlockCacheManager unit :=
  s ← get;
  if (length (mg_queue s) =? BLOCK_CACHE_SIZE)%nat then
    match position (fun sl => negb (sl_held sl)) (mg_queue s) with
    | Some idx =>
        sl ← unwrap (mg_queue s !! idx);
        modify (set_queue (delete idx (mg_queue s)));;
        _ ← on_device (BlockCache_sync (sl_cache sl));
        mret tt
    | None => panic
    end
  else mret tt.

(** The position of the entry in the queue stands for the [Arc] that is
    returned. *)
Definition BlockCacheManager_get_block_cache (block_id : Z) : M BlockCacheManager nat :=
  s ← get;
  match position (fun sl => sl_id sl =? block_id) (mg_queue s) with
  | Some i => mret i
  | None =>
      substitute;;
      block_cache ← on_device (BlockCache_new block_id);
      s ← get;
      put (set_queue (mg_queue s ++ [mkSlot block_id block_cache false]) s);;
      mret (length (mg_queue s))
  end.

Fixpoint sync_slots (q : list Slot) : M BlockDevice (list Slot) :=
  match q with
  | [] => mret []
  | sl :: q' =>
      if sl_held sl then fail Deadlock
      else
        c ← BlockCache_sync (sl_cache sl);
        r ← sync_slots q';
        mret (mkSlot (sl_id sl) c false :: r)
  end.

Definition release_slot (w : option block) (sl : Slot) : Slot :=
  mkSlot (sl_id sl)
    match w with
    | Some b => mkBC b (bc_block_id (sl_cache sl)) true
    | None => sl_cache sl
    end false.

Fixpoint run_cache {A : Type} (p : prog A) : M BlockCacheManager A :=
  match p with
  | Ret a => mret a
  | Stop e => fail e
  | Acquire id k =>
      i ← BlockCacheManager_get_block_cache id;
      s ← get;
      sl ← unwrap (mg_queue s !! i);
      if sl_held sl then fail Deadlock
      else
        put (set_queue (<[i := mkSlot (sl_id sl) (sl_cache sl) true]> (mg_queue s)) s);;
        run_cache (k (bc_cache (sl_cache sl)))
  | Release id w k =>
      s ← get;
      match position (fun sl => sl_id sl =? id) (mg_queue s) with
      | Some i =>
          sl ← unwrap (mg_queue s !! i);
          if sl_held sl then
            put (set_queue (<[i := release_slot w sl]> (mg_queue s)) s);;
            run_cache k
          else panic
      | None => panic
      end
  | FsLock k =>
      s ← get;
      if mg_fs s then fail Deadlock
      else put (mkMgr (mg_queue s) (mg_device s) true);; run_cache k
  | FsUnlock k =>
      s ← get;
      put (mkMgr (mg_queue s) (mg_device s) false);; run_cache k
  | SyncAll k =>
      s ← get;
      q ← on_device (sync_slots (mg_queue s));
      modify (set_queue q);;
      run_cache k
  end.

(** ** The cache implements the array *)

(** The contents the cache and the device stand for together. *)
Fixpoint view (q : list Slot) (dev : BlockDevice) : gmap Z block :=
  match q with
  | [] => dev
  | sl :: q' => <[sl_id sl := bc_cache (sl_cache sl)]> (view q' dev)
  end.

Definition held_ids (q : list Slot) : list Z := sl_id <$> filter (fun sl => sl_held sl = true) q.
#[global] Arguments held_ids : simpl never.

(** A slot is labelled with its block, which the device has, and agrees with
    the device unless it is marked modified. *)
Definition slot_ok (dev : BlockDevice) (sl : Slot) : Prop :=
  bc_block_id (sl_cache sl) = sl_id sl /\ is_Some (dev !! sl_id sl) /\
  (bc_modified (sl_cache sl) = false -> dev !! sl_id sl = Some (bc_cache (sl_cache sl))).

Record cache_rep (c : BlockCacheManager) (s : Store) : Prop := {
  cr_nodup : NoDup (sl_id <$> mg_queue c);
  cr_len : (length (mg_queue c) <= BLOCK_CACHE_SIZE)%nat;
  cr_slots : Forall (slot_ok (mg_device c)) (mg_queue c);
  cr_held : st_held s ≡ₚ held_ids (mg_queue c);
  cr_blocks : st_blocks s = view (mg_queue c) (mg_device c);
  cr_fs : st_fs s = mg_fs c
}.

Lemma view_ne q dev id : id ∉ (sl_id <$> q) -> view q dev !! id = dev !! id.
Proof.
  induction q as [|sl q IH]; [done|]. cbn. rewrite not_elem_of_cons. intros [Hne Hn].
  rewrite lookup_insert_ne by congruence. auto.
Qed.

Lemma view_eq q dev i sl : NoDup (sl_id <$> q) -> q !! i = Some sl ->
  view q dev !! sl_id sl = Some (bc_cache (sl_cache sl)).
Proof.
  revert i. induction q as [|sl' q IH]; intros i Hn Hi; [by rewrite lookup_nil in Hi|].
  rewrite fmap_cons in Hn. apply NoDup_cons in Hn as [Hni Hn]. destruct i as [|i]; cbn in Hi |- *.
  - injection Hi as ->. apply lookup_insert_eq.
  - rewrite lookup_insert_ne; [eauto|]. intros E. apply Hni. rewrite E.
    apply list_elem_of_fmap_2. by eapply list_elem_of_lookup_2.
Qed.

Lemma view_dom q dev id : Forall (slot_ok dev) q -> is_Some (view q dev !! id) <-> is_Some (dev !! id).
Proof.
  induction 1 as [|sl q (_ & Hd & _) _ IH]; [done|]. cbn. rewrite lookup_insert. case_decide as E; [|done].
  subst. split; eauto.
Qed.

Lemma view_app q sl dev : sl_id sl ∉ (sl_id <$> q) ->
  dev !! sl_id sl = Some (bc_cache (sl_cache sl)) -> view (q ++ [sl]) dev = view q dev.
Proof.
  intros Hn Hd. induction q as [|sl' q IH]; cbn; [by apply insert_id|].
  rewrite fmap_cons, not_elem_of_cons in Hn. rewrite IH; [done|tauto].
Qed.

Lemma view_device q id b dev : id ∉ (sl_id <$> q) -> view q (<[id := b]> dev) = <[id := b]> (view q dev).
Proof.
  induction q as [|sl q IH]; [done|]. rewrite fmap_cons, not_elem_of_cons. intros [Hne Hn]. cbn.
  rewrite IH by done. by rewrite insert_insert_ne by congruence.
Qed.

Lemma view_delete q i sl dev : NoDup (sl_id <$> q) -> q !! i = Some sl ->
  view (delete i q) (<[sl_id sl := bc_cache (sl_cache sl)]> dev) = view q dev.
Proof.
  revert i. induction q as [|sl' q IH]; intros i Hn Hi; [by rewrite lookup_nil in Hi|].
  rewrite fmap_cons in Hn. apply NoDup_cons in Hn as [Hni Hn]. destruct i as [|i]; cbn in Hi |- *.
  - injection Hi as ->. by apply view_device.
  - by rewrite IH.
Qed.

Lemma view_insert q i sl sl' dev : NoDup (sl_id <$> q) -> q !! i = Some sl -> sl_id sl' = sl_id sl ->
  view (<[i := sl']> q) dev = <[sl_id sl := bc_cache (sl_cache sl')]> (view q dev).
Proof.
  intros Hn Hi Hid. revert i Hn Hi. induction q as [|s0 q IH]; intros i Hn Hi; [by rewrite lookup_nil in Hi|].
  rewrite fmap_cons in Hn. apply NoDup_cons in Hn as [Hni Hn]. destruct i as [|i]; cbn in Hi |- *.
  - injection Hi as ->. by rewrite Hid, insert_insert_eq.
  - rewrite IH by done. rewrite insert_insert_ne; [done|]. intros E. apply Hni. rewrite E.
    apply list_elem_of_fmap_2. by eapply list_elem_of_lookup_2.
Qed.

Lemma ids_insert (q : list Slot) i (sl sl' : Slot) :
  q !! i = Some sl -> sl_id sl' = sl_id sl -> sl_id <$> <[i := sl']> q = sl_id <$> q.
Proof. intros Hi Hid. rewrite list_fmap_insert. apply list_insert_id. by rewrite list_lookup_fmap, Hi, Hid. Qed.

Lemma held_ids_mem q id :
  id ∈ held_ids q <-> exists i sl, q !! i = Some sl /\ sl_id sl = id /\ sl_held sl = true.
Proof.
  unfold held_ids. rewrite list_elem_of_fmap. split.
  - intros (sl & -> & [Hh Hin]%list_elem_of_filter). apply list_elem_of_lookup in Hin as [i Hi]. eauto.
  - intros (i & sl & Hi & <- & Hh). exists sl. split; [done|]. apply list_elem_of_filter.
    split; [done|]. by eapply list_elem_of_lookup_2.
Qed.

Lemma held_ids_cons sl q :
  held_ids (sl :: q) = if sl_held sl then sl_id sl :: held_ids q else held_ids q.
Proof. unfold held_ids. rewrite filter_cons. destruct (sl_held sl); by case_decide. Qed.

Lemma held_ids_app q sl : sl_held sl = false -> held_ids (q ++ [sl]) = held_ids q.
Proof.
  intros H. unfold held_ids. rewrite filter_app, filter_cons, H, decide_False, filter_nil, app_nil_r by done. done.
Qed.

Lemma held_ids_delete q i sl : q !! i = Some sl -> sl_held sl = false -> held_ids (delete i q) = held_ids q.
Proof.
  revert i. induction q as [|sl' q IH]; intros [|i] Hi Hh; cbn in Hi; try done.
  - injection Hi as ->. change (delete 0%nat (sl :: q)) with q. by rewrite held_ids_cons, Hh.
  - change (delete (S i) (sl' :: q)) with (sl' :: delete i q). rewrite !held_ids_cons. by rewrite (IH i).
Qed.

Lemma held_ids_take q i sl c : q !! i = Some sl -> sl_held sl = false ->
  held_ids (<[i := mkSlot (sl_id sl) c true]> q) ≡ₚ sl_id sl :: held_ids q.
Proof.
  revert i. induction q as [|sl' q IH]; intros [|i] Hi Hh; cbn in Hi; try done.
  - injection Hi as ->. change (<[0%nat := mkSlot (sl_id sl) c true]> (sl :: q)) with (mkSlot (sl_id sl) c true :: q). by rewrite !held_ids_cons, Hh.
  - change (<[S i := mkSlot (sl_id sl) c true]> (sl' :: q)) with (sl' :: <[i := mkSlot (sl_id sl) c true]> q). rewrite !held_ids_cons. specialize (IH i Hi Hh).
    destruct (sl_held sl'); [|done]. rewrite IH. apply Permutation_swap.
Qed.

Lemma held_ids_drop q i sl sl' : NoDup (sl_id <$> q) -> q !! i = Some sl -> sl_held sl = true ->
  sl_id sl' = sl_id sl -> sl_held sl' = false ->
  held_ids (<[i := sl']> q) = filter (fun j => j <> sl_id sl) (held_ids q).
Proof.
  intros Hn Hi Hh Hid Hh'. revert i Hn Hi. induction q as [|s0 q IH]; intros i Hn Hi; [by rewrite lookup_nil in Hi|].
  rewrite fmap_cons in Hn. apply NoDup_cons in Hn as [Hni Hn]. destruct i as [|i]; cbn in Hi;
    [change (<[0%nat := sl']> (s0 :: q)) with (sl' :: q)|change (<[S i := sl']> (s0 :: q)) with (s0 :: <[i := sl']> q)].
  - injection Hi as ->. rewrite !held_ids_cons, Hh, Hh', filter_cons, decide_False by naive_solver.
    symmetry. apply filter_all. apply Forall_forall. intros j (k & s1 & Hk & <- & _)%held_ids_mem E.
    apply Hni. rewrite <- E. apply list_elem_of_fmap_2. by eapply list_elem_of_lookup_2.
  - rewrite !held_ids_cons. rewrite (IH i Hn Hi). destruct (sl_held s0); [|done].
    rewrite filter_cons, decide_True; [done|]. intros E. apply Hni. rewrite E.
    apply list_elem_of_fmap_2. by eapply list_elem_of_lookup_2.
Qed.

Lemma held_ids_length q : (length (held_ids q) <= length q)%nat.
Proof. unfold held_ids. rewrite length_fmap. apply length_filter. Qed.

Lemma held_ids_full q : length (held_ids q) = length q <-> Forall (fun sl => sl_held sl = true) q.
Proof.
  induction q as [|sl q IH]; [split; constructor|]. rewrite held_ids_cons, Forall_cons.
  pose proof (held_ids_length q). destruct (sl_held sl); cbn; [rewrite <- IH; intuition lia|].
  split; [lia|naive_solver].
Qed.

Lemma position_id q id i : position (fun sl => sl_id sl =? id) q = Some i ->
  exists sl, q !! i = Some sl /\ sl_id sl = id.
Proof. intros (sl & Hi & E & _)%position_Some. exists sl. split; [done|]. by apply Z.eqb_eq. Qed.

Lemma position_id_None q id : position (fun sl => sl_id sl =? id) q = None <-> id ∉ (sl_id <$> q).
Proof.
  rewrite position_None. split.
  - intros H (sl & -> & Hin)%list_elem_of_fmap. rewrite Forall_forall in H. specialize (H _ Hin). lia.
  - intros H. apply Forall_forall. intros sl Hin. apply Z.eqb_neq. intros <-. apply H.
    by apply list_elem_of_fmap_2.
Qed.

Lemma position_id_Some q i sl : NoDup (sl_id <$> q) -> q !! i = Some sl ->
  position (fun sl' => sl_id sl' =? sl_id sl) q = Some i.
Proof.
  intros Hn Hi. apply position_Some. exists sl. split_and!; [done|lia|]. intros j sl' Hj Hj'.
  apply Z.eqb_neq. intros E. assert (j = i); [|lia].
  apply (NoDup_lookup (sl_id <$> q) j i (sl_id sl)); [done| |]; rewrite list_lookup_fmap.
  - by rewrite Hj', <- E.
  - by rewrite Hi.
Qed.

Lemma slot_ok_write dev id b sl : slot_ok dev sl -> is_Some (dev !! id) -> sl_id sl <> id ->
  slot_ok (<[id := b]> dev) sl.
Proof.
  unfold slot_ok. intros (Hb & Hd & Hc) Hid Hne. rewrite lookup_insert_ne by done. done.
Qed.

(** Writing an entry back does not change the contents. *)
Lemma sync_spec dev sl : slot_ok dev sl ->
  exists c', BlockCache_sync (sl_cache sl) dev = Ok (c', <[sl_id sl := bc_cache (sl_cache sl)]> dev) /\
    c' = mkBC (bc_cache (sl_cache sl)) (sl_id sl) false.
Proof.
  intros (Hb & [b Hd] & Hc). unfold BlockCache_sync, write_block. destruct (bc_modified (sl_cache sl)) eqn:Hm.
  - unfold mbind, M_bind. cbn. rewrite Hb, Hd. cbn. eauto.
  - exists (sl_cache sl). split; [cbn; rewrite insert_id; [done|auto]|]. rewrite <- Hb, <- Hm. by destruct (sl_cache sl).
Qed.

Lemma substitute_spec c s :
  cache_rep c s -> (length (st_held s) < BLOCK_CACHE_SIZE)%nat ->
  exists c', substitute c = Ok (tt, c') /\ cache_rep c' s /\
    (length (mg_queue c') < BLOCK_CACHE_SIZE)%nat /\
    (forall id, id ∉ (sl_id <$> mg_queue c) -> id ∉ (sl_id <$> mg_queue c')) /\
    (forall id, is_Some (mg_device c' !! id) <-> is_Some (mg_device c !! id)).
Proof.
  intros Hrep Hlen. pose proof Hrep as [Hn Hl Hs Hh Hb Hf]. unfold substitute.
  unfold mbind at 1, M_bind at 1. cbn [get].
  destruct (Nat.eqb_spec (length (mg_queue c)) BLOCK_CACHE_SIZE) as [Hfull|Hne].
  2: { exists c. split_and!; [done|done|lia|done|done]. }
  destruct (position _ _) as [idx|] eqn:Hpos.
  2: { exfalso. apply position_None in Hpos.
       assert (length (held_ids (mg_queue c)) = length (mg_queue c)) as E.
       { apply held_ids_full. eapply Forall_impl; [exact Hpos|]. intros sl E. by apply negb_false_iff in E. }
       rewrite Hh in Hlen. lia. }
  apply position_Some in Hpos as (sl & Hi & Hnh & _). apply negb_true_iff in Hnh.
  assert (slot_ok (mg_device c) sl) as Hok by (rewrite Forall_forall in Hs; eapply Hs, list_elem_of_lookup_2, Hi).
  destruct (sync_spec _ _ Hok) as (c' & Hsync & _).
  unfold mbind, M_bind. cbn. rewrite Hi. cbn. unfold on_device. cbn. rewrite Hsync. cbn.
  eexists. split; [reflexivity|]. cbn.
  pose proof (delete_Permutation (mg_queue c) idx sl Hi) as Hperm.
  assert ((sl_id sl ∉ (sl_id <$> delete idx (mg_queue c))) /\ NoDup (sl_id <$> delete idx (mg_queue c))) as [Hsl Hn'].
  { rewrite Hperm, fmap_cons in Hn. by apply NoDup_cons in Hn. }
  assert (Forall (slot_ok (mg_device c)) (delete idx (mg_queue c))) as Hs'.
  { rewrite Hperm in Hs. by apply Forall_cons in Hs as [_ ?]. }
  destruct Hok as (_ & Hd & _).
  split; [split; cbn|split_and!].
  - done.
  - rewrite length_delete by eauto. lia.
  - apply Forall_forall. intros sl' Hin. rewrite Forall_forall in Hs'. apply slot_ok_write; [auto|done|].
    intros E. apply Hsl. rewrite <- E. by apply list_elem_of_fmap_2.
  - by rewrite (held_ids_delete _ _ sl).
  - by rewrite view_delete.
  - done.
  - rewrite length_delete by eauto. lia.
  - intros id Hid. rewrite Hperm, fmap_cons, not_elem_of_cons in Hid. tauto.
  - intros id. rewrite lookup_insert. case_decide as E; [|done]. subst. split; [done|eauto].
Qed.

Lemma substitute_full c s :
  cache_rep c s -> (BLOCK_CACHE_SIZE <= length (st_held s))%nat -> substitute c = Err Panic.
Proof.
  intros [Hn Hl Hs Hh Hb Hf] Hlen. rewrite Hh in Hlen. pose proof (held_ids_length (mg_queue c)).
  unfold substitute, mbind, M_bind. cbn [get]. rewrite (proj2 (Nat.eqb_eq _ _)) by lia.
  assert (position (fun sl => negb (sl_held sl)) (mg_queue c) = None) as ->; [|done].
  apply position_None. eapply Forall_impl; [apply held_ids_full; lia|]. intros sl E. cbn in E. by rewrite E.
Qed.

(** [get_block_cache] keeps the contents and finds the block. *)
Lemma get_spec c s id b :
  cache_rep c s -> st_blocks s !! id = Some b -> id ∉ st_held s ->
  (length (st_held s) < BLOCK_CACHE_SIZE)%nat ->
  exists i c' sl, BlockCacheManager_get_block_cache id c = Ok (i, c') /\ cache_rep c' s /\
    mg_queue c' !! i = Some sl /\ sl_id sl = id /\ bc_cache (sl_cache sl) = b /\ sl_held sl = false.
Proof.
  intros Hrep Hb Hnh Hlen. pose proof Hrep as [Hn _ Hs Hh Hblk _]. unfold BlockCacheManager_get_block_cache.
  unfold mbind at 1, M_bind at 1. cbn [get]. destruct (position _ _) as [i|] eqn:Hpos.
  - apply position_id in Hpos as (sl & Hi & Hid). exists i, c, sl. split_and!; [done|done|done|done| |].
    + rewrite Hblk, <- Hid, (view_eq _ _ _ _ Hn Hi) in Hb. by injection Hb.
    + destruct (sl_held sl) eqn:E; [|done]. exfalso. apply Hnh. rewrite Hh. apply held_ids_mem. eauto.
  - apply position_id_None in Hpos.
    destruct (substitute_spec _ _ Hrep Hlen) as (c1 & Hsub & Hrep1 & Hl1 & Hids & Hdom).
    unfold mbind, M_bind. rewrite Hsub. unfold on_device, BlockCache_new, read_block, mbind, M_bind. cbn.
    pose proof Hrep1 as [Hn1 _ Hs1 Hh1 Hblk1 Hfs1]. apply Hids in Hpos.
    assert (mg_device c1 !! id = Some b) as Hd by (by rewrite Hblk1, view_ne in Hb).
    rewrite Hd. cbn. eexists _, _, _. split; [reflexivity|]. cbn. split_and!.
    + split; cbn.
      * rewrite fmap_app. apply NoDup_app. split_and!; [done| |apply NoDup_singleton].
        intros x Hx ->%list_elem_of_singleton. done.
      * rewrite length_app. cbn. lia.
      * apply Forall_app. split; [done|]. constructor; [|done]. split_and!; cbn; eauto.
      * by rewrite held_ids_app.
      * by rewrite view_app.
      * done.
    + rewrite lookup_app_r, Nat.sub_diag by done. reflexivity.
    + done.
    + done.
    + done.
Qed.

Lemma get_spec_fault c s id :
  cache_rep c s -> id ∉ st_held s ->
  (st_blocks s !! id = None \/ (BLOCK_CACHE_SIZE <= length (st_held s))%nat) ->
  BlockCacheManager_get_block_cache id c = Err Panic.
Proof.
  intros Hrep Hnh Hor. pose proof Hrep as [Hn Hl Hs Hh Hblk _]. unfold BlockCacheManager_get_block_cache.
  unfold mbind at 1, M_bind at 1. cbn [get]. destruct (position _ _) as [i|] eqn:Hpos.
  - exfalso. apply position_id in Hpos as (sl & Hi & Hid). destruct Hor as [Hnone|Hfull].
    + rewrite Hblk, <- Hid, (view_eq _ _ _ _ Hn Hi) in Hnone. done.
    + pose proof (held_ids_length (mg_queue c)). rewrite Hh in Hfull.
      assert (Forall (fun sl => sl_held sl = true) (mg_queue c)) as Hall by (apply held_ids_full; lia).
      rewrite Forall_forall in Hall. apply Hnh. rewrite Hh. apply held_ids_mem. exists i, sl.
      split_and!; [done|done|]. by eapply Hall, list_elem_of_lookup_2.
  - apply position_id_None in Hpos. unfold mbind, M_bind.
    destruct (decide (BLOCK_CACHE_SIZE <= length (st_held s))%nat) as [Hfull|Hlt].
    + by rewrite (substitute_full _ _ Hrep Hfull).
    + destruct Hor as [Hnone|]; [|done].
      destruct (substitute_spec _ _ Hrep ltac:(lia)) as (c1 & Hsub & Hrep1 & Hl1 & Hids & Hdom).
      rewrite Hsub. unfold on_device, BlockCache_new, read_block, mbind, M_bind. cbn.
      apply Hids in Hpos. rewrite (cr_blocks _ _ Hrep1), view_ne in Hnone by done. by rewrite Hnone.
Qed.

(** Taking and dropping the guard of an entry. *)
Lemma rep_take c s i sl :
  cache_rep c s -> mg_queue c !! i = Some sl -> sl_held sl = false ->
  cache_rep (set_queue (<[i := mkSlot (sl_id sl) (sl_cache sl) true]> (mg_queue c)) c)
    (mkStore (st_blocks s) (sl_id sl :: st_held s) (st_fs s)).
Proof.
  intros [Hn Hl Hs Hh Hb Hf] Hi Hnh. split; cbn.
  - by rewrite (ids_insert _ _ sl).
  - by rewrite length_insert.
  - apply Forall_insert; [done|]. rewrite Forall_forall in Hs. apply (Hs sl). by eapply list_elem_of_lookup_2.
  - rewrite Hh. symmetry. by apply held_ids_take.
  - rewrite (view_insert _ _ sl) by done. cbn. rewrite insert_id; [done|]. by eapply view_eq.
  - done.
Qed.

Lemma rep_drop c s i sl w :
  cache_rep c s -> mg_queue c !! i = Some sl -> sl_held sl = true ->
  cache_rep (set_queue (<[i := release_slot w sl]> (mg_queue c)) c) (release (sl_id sl) w s).
Proof.
  intros [Hn Hl Hs Hh Hb Hf] Hi Hnh.
  assert (slot_ok (mg_device c) sl) as (Hid & Hd & Hc).
  { rewrite Forall_forall in Hs. apply (Hs sl). by eapply list_elem_of_lookup_2. }
  split; cbn.
  - by rewrite (ids_insert _ _ sl).
  - by rewrite length_insert.
  - apply Forall_insert; [done|]. by destruct w.
  - rewrite Hh. by rewrite (held_ids_drop _ _ sl).
  - rewrite (view_insert _ _ sl) by done. rewrite Hb. destruct w; [done|]. cbn.
    rewrite insert_id; [done|]. by eapply view_eq.
  - done.
Qed.

Lemma held_slot c s id : cache_rep c s -> id ∈ st_held s ->
  exists i sl, mg_queue c !! i = Some sl /\ sl_id sl = id /\ sl_held sl = true /\
    position (fun sl => sl_id sl =? id) (mg_queue c) = Some i.
Proof.
  intros Hrep Hin. rewrite (cr_held _ _ Hrep) in Hin. apply held_ids_mem in Hin as (i & sl & Hi & <- & Hh).
  exists i, sl. split_and!; [done|done|done|]. apply position_id_Some; [apply Hrep|done].
Qed.

Lemma sync_slots_spec q dev :
  NoDup (sl_id <$> q) -> Forall (slot_ok dev) q -> held_ids q = [] ->
  exists q' dev', sync_slots q dev = Ok (q', dev') /\ sl_id <$> q' = sl_id <$> q /\
    Forall (slot_ok dev') q' /\ held_ids q' = [] /\ view q' dev' = view q dev /\ dev' = view q dev /\
    (forall id, id ∉ (sl_id <$> q) -> dev' !! id = dev !! id).
Proof.
  revert dev. induction q as [|sl q IH]; intros dev Hn Hs Hh.
  { exists [], dev. split_and!; done. }
  rewrite fmap_cons in Hn. apply NoDup_cons in Hn as [Hni Hn]. apply Forall_cons in Hs as [Hsl Hs].
  rewrite held_ids_cons in Hh. cbn [sync_slots]. destruct (sl_held sl) eqn:Hhsl; [done|].
  destruct (sync_spec _ _ Hsl) as (c' & Hsync & ->). unfold mbind, M_bind. rewrite Hsync.
  destruct Hsl as (_ & Hd & _).
  destruct (IH (<[sl_id sl := bc_cache (sl_cache sl)]> dev)) as (q' & dev' & Hrun & Hids & Hs' & Hh' & Hv & Hdev & Hout).
  { done. }
  { apply Forall_forall. intros sl' Hin. rewrite Forall_forall in Hs. apply slot_ok_write; [auto|done|].
    intros E. apply Hni. rewrite <- E. by apply list_elem_of_fmap_2. }
  { done. }
  rewrite Hrun. cbn.
  assert (dev' !! sl_id sl = Some (bc_cache (sl_cache sl))) as Hdsl.
  { rewrite Hout by done. apply lookup_insert_eq. }
  eexists _, dev'. split; [reflexivity|]. cbn. rewrite view_device in Hdev, Hv by done.
  split_and!.
  - by rewrite Hids.
  - constructor; [|done]. split_and!; cbn; [done|eauto|done].
  - by rewrite held_ids_cons.
  - rewrite Hv. by rewrite insert_insert_eq.
  - done.
  - intros id Hid. rewrite not_elem_of_cons in Hid. rewrite Hout by tauto. rewrite lookup_insert_ne; [done|]. naive_solver.
Qed.

Lemma sync_slots_held q dev : Forall (slot_ok dev) q -> held_ids q <> [] -> NoDup (sl_id <$> q) ->
  sync_slots q dev = Err Deadlock.
Proof.
  revert dev. induction q as [|sl q IH]; intros dev Hs Hh Hn; [done|].
  rewrite fmap_cons in Hn. apply NoDup_cons in Hn as [Hni Hn]. apply Forall_cons in Hs as [Hsl Hs].
  rewrite held_ids_cons in Hh. cbn [sync_slots]. destruct (sl_held sl); [done|].
  destruct (sync_spec _ _ Hsl) as (c' & Hsync & _). unfold mbind, M_bind. rewrite Hsync.
  rewrite IH; [done| |done|done]. apply Forall_forall. intros sl' Hin. rewrite Forall_forall in Hs.
  apply slot_ok_write; [auto|apply Hsl|]. intros E. apply Hni. rewrite <- E. by apply list_elem_of_fmap_2.
Qed.

Lemma rep_sync c s : cache_rep c s -> st_held s = [] ->
  exists q dev, on_device (sync_slots (mg_queue c)) c = Ok (q, mkMgr (mg_queue c) dev (mg_fs c)) /\
    cache_rep (mkMgr q dev (mg_fs c)) s /\ dev = st_blocks s.
Proof.
  intros [Hn Hl Hs Hh Hb Hf] Hheld. rewrite Hheld in Hh. symmetry in Hh. apply Permutation_nil_r in Hh.
  destruct (sync_slots_spec (mg_queue c) (mg_device c) Hn Hs Hh) as (q' & dev' & Hrun & Hids & Hs' & Hh' & Hv & Hdev & _).
  unfold on_device. rewrite Hrun. exists q', dev'. split; [done|]. split; [|by rewrite Hb].
  split; cbn.
  - by rewrite Hids.
  - apply (f_equal length) in Hids. rewrite !length_fmap in Hids. by rewrite Hids.
  - done.
  - by rewrite Hheld, Hh'.
  - by rewrite Hb, Hv.
  - done.
Qed.

Definition same_outcome {A} (r : res (A * Store)) (r' : res (A * BlockCacheManager)) : Prop :=
  match r, r' with
  | Ok (a, s'), Ok (b, c') => a = b /\ cache_rep c' s'
  | Err e, Err e' => e = e'
  | _, _ => False
  end.

Lemma run_cache_same {A} (p : prog A) c s : cache_rep c s -> same_outcome (run p s) (run_cache p c).
Proof.
  revert c s. induction p as [a|e|id k IH|id w k IH|k IH|k IH|k IH]; intros c s Hrep; cbn [run run_cache].
  - by split.
  - done.
  - destruct (decide (id ∈ st_held s)) as [Hin|Hnin].
    + destruct (held_slot _ _ _ Hrep Hin) as (i & sl & Hi & Hid & Hh & Hpos).
      unfold BlockCacheManager_get_block_cache, mbind, M_bind. cbn. rewrite Hpos. cbn. rewrite Hi. cbn.
      by rewrite Hh.
    + unfold mbind at 1, M_bind at 1. destruct (Nat.leb_spec BLOCK_CACHE_SIZE (length (st_held s))) as [Hfull|Hlt].
      { by rewrite (get_spec_fault _ _ _ Hrep Hnin (or_intror Hfull)). }
      destruct (st_blocks s !! id) as [b|] eqn:Hb.
      2: { by rewrite (get_spec_fault _ _ _ Hrep Hnin (or_introl Hb)). }
      destruct (get_spec _ _ _ _ Hrep Hb Hnin Hlt) as (i & c' & sl & Hget & Hrep' & Hi & Hid & Hcb & Hh).
      rewrite Hget. unfold mbind, M_bind. cbn. rewrite Hi. cbn. rewrite Hh, Hcb. cbn.
      rewrite <- Hid. apply IH. by apply rep_take.
  - destruct (decide (id ∈ st_held s)) as [Hin|Hnin].
    + destruct (held_slot _ _ _ Hrep Hin) as (i & sl & Hi & Hid & Hh & Hpos).
      unfold mbind, M_bind. cbn. rewrite Hpos, Hi. cbn. rewrite Hh. cbn. apply IH.
      rewrite <- Hid. by apply rep_drop.
    + unfold mbind, M_bind. cbn. destruct (position _ _) as [i|] eqn:Hpos; [|done].
      apply position_id in Hpos as (sl & Hi & Hid). rewrite Hi. cbn. destruct (sl_held sl) eqn:Hh; [|done].
      exfalso. apply Hnin. rewrite (cr_held _ _ Hrep). apply held_ids_mem. eauto.
  - unfold mbind, M_bind. cbn. rewrite (cr_fs _ _ Hrep). destruct (mg_fs c) eqn:Hfs; [done|]. cbn.
    apply IH. destruct Hrep. by split.
  - unfold mbind, M_bind. cbn. apply IH. destruct Hrep. by split.
  - unfold mbind, M_bind. cbn [get]. destruct (decide (st_held s = [])) as [Hh|Hh].
    + destruct (rep_sync _ _ Hrep Hh) as (q & dev & Hrun & Hrep' & _). rewrite Hrun. cbn. by apply IH.
    + unfold on_device. rewrite sync_slots_held; [done|apply Hrep| |apply Hrep].
      intros E. apply Hh. apply Permutation_nil_r. by rewrite <- E, <- (cr_held _ _ Hrep).
Qed.

Lemma run_bind {A B} (p : prog A) (f : A -> prog B) s : run (p ≫= f) s = (run p ≫= fun a => run (f a)) s.
Proof.
  change (run (prog_bind p f) s = match run p s with Ok (a, s') => run (f a) s' | Err e => Err e end).
  revert s. induction p as [a|e|id k IH|id w k IH|k IH|k IH|k IH]; intros s; cbn [prog_bind run]; try done.
  - destruct (decide (id ∈ st_held s)); [done|]. destruct (_ <=? _)%nat; [done|].
    destruct (st_blocks s !! id); [apply IH|done].
  - destruct (decide (id ∈ st_held s)); [apply IH|done].
  - destruct (st_fs s); [done|apply IH].
  - destruct (decide (st_held s = [])); [apply IH|done].
Qed.

Lemma run_cache_bind {A B} (p : prog A) (f : A -> prog B) c :
  run_cache (p ≫= f) c = match run_cache p c with Ok (a, c') => run_cache (f a) c' | Err e => Err e end.
Proof.
  change (p ≫= f) with (prog_bind p f).
  revert c. induction p as [a|e|id k IH|id w k IH|k IH|k IH|k IH]; intros c; cbn [prog_bind run_cache]; try done;
    unfold mbind, M_bind; cbn [get].
  - destruct (BlockCacheManager_get_block_cache id c) as [[i c2]|]; [|done].
    destruct (mg_queue c2 !! i) as [sl|]; [|done]. cbn. destruct (sl_held sl); [done|]. apply IH.
  - destruct (position _ _) as [i|]; [|done].
    destruct (mg_queue c !! i) as [sl|]; [|done]. cbn. destruct (sl_held sl); [|done]. apply IH.
  - destruct (mg_fs c); [done|]. apply IH.
  - apply IH.
  - destruct (on_device _ c) as [[q c2]|]; [|done]. apply IH.
Qed.

Lemma cache_rep_fresh dev : cache_rep (mkMgr [] dev false) (mkStore dev [] false).
Proof. split; cbn; try done; [constructor|lia]. Qed.

(** C1: the sixteen-entry block cache is invisible: every program over blocks
    has the same outcome (the same result, or the same panic or deadlock) over
    the cache as over an array of blocks, and the two states still correspond
    afterwards.  In particular no eviction loses a write or disturbs a block
    that is in use, and the cache runs out of entries only if sixteen blocks
    are held at once. *)
Theorem block_cache_refines {A} (p : prog A) c s :
  cache_rep c s -> same_outcome (run p s) (run_cache p c).
Proof. apply run_cache_same. Qed.

Definition demo_block (x : Z) : block := replicate BLOCK_SZ x.
Definition demo_device : BlockDevice := list_to_map ((fun i => (Z.of_nat i, demo_block 0)) <$> seq 0 40).

(** Writes its number to each of the given blocks, so that more blocks are
    touched than the cache has entries. *)
Definition demo_writer (ids : list Z) : prog unit :=
  pfold (fun _ id => block_modify id 0 1 (fun _ => Ret ([id + 1], tt))) tt ids.

Lemma block_cache_refines_witness :
  same_outcome (run (demo_writer (Z.of_nat <$> seq 0 40)) (mkStore demo_device [] false))
    (run_cache (demo_writer (Z.of_nat <$> seq 0 40)) (mkMgr [] demo_device false)) /\
  match run_cache (demo_writer (Z.of_nat <$> seq 0 40)) (mkMgr [] demo_device false) with
  | Ok (_, c) => length (mg_queue c) = 16%nat /\ take 1 <$> (mg_device c !! 5) = Some [6] /\
      take 1 <$> (mg_device c !! 39) = Some [0]
  | Err _ => False
  end.
Proof.
  split; [apply block_cache_refines, cache_rep_fresh|]. vm_compute. done.
Defined.

(** What has been written is on the device after [block_cache_sync_all]:
    if a program over blocks returns and is followed by the synchronisation,
    which needs no block to be held, the device holds exactly the contents that
    the array of blocks has. *)
Theorem synced_blocks_durable {A} (p : prog A) c s a s' :
  cache_rep c s -> run p s = Ok (a, s') -> st_held s' = [] ->
  exists c', run_cache (a ← p; block_cache_sync_all;; mret a) c = Ok (a, c') /\
    mg_device c' = st_blocks s' /\ cache_rep c' s'.
Proof.
  intros Hrep Hrun Hh.
  pose proof (run_cache_same p c s Hrep) as H1. rewrite Hrun in H1.
  destruct (run_cache p c) as [[b c1]|] eqn:Hrc; [|done]. destruct H1 as [<- Hrep1].
  pose proof (run_cache_bind p (fun a => block_cache_sync_all;; mret a) c) as Hb. rewrite Hrc in Hb. cbn beta iota in Hb.
  destruct (rep_sync _ _ Hrep1 Hh) as (q & dev & Hsync & Hrep2 & Hdev).
  exists (mkMgr q dev (mg_fs c1)). rewrite Hb. unfold block_cache_sync_all. cbn.
  unfold mbind, M_bind. cbn [get]. rewrite Hsync. cbn. done.
Qed.

Lemma synced_blocks_durable_witness : exists c',
  run_cache (a ← demo_writer [3; 4]; block_cache_sync_all;; mret a) (mkMgr [] demo_device false) = Ok (tt, c') /\
  mg_device c' !! 3 = Some (4 :: replicate 511 0).
Proof.
  destruct (synced_blocks_durable (demo_writer [3; 4]) (mkMgr [] demo_device false) (mkStore demo_device [] false) tt
    (mkStore (<[4 := 5 :: replicate 511 0]> (<[3 := 4 :: replicate 511 0]> demo_device)) [] false)) as (c' & Hrun & Hdev & _).
  - apply cache_rep_fresh.
  - vm_compute. reflexivity.
  - reflexivity.
  - exists c'. split; [exact Hrun|]. rewrite Hdev. vm_compute. reflexivity.
Defined.

(** ** Reasoning about programs over the array *)

(** [p] returns from [s] with a result and a store that satisfy [Q]. *)
Definition pwp {A} (p : prog A) (Q : A -> Store -> Prop) (s : Store) : Prop := wp (run p) Q s.

(** A block can be locked: it is there, nobody holds it and the cache has
    room. *)
Record lockable (s : Store) (id : Z) (b : block) : Prop := {
  lk_block : st_blocks s !! id = Some b;
  lk_free : id ∉ st_held s;
  lk_room : (length (st_held s) < BLOCK_CACHE_SIZE)%nat
}.

Definition hold (id : Z) (s : Store) : Store := mkStore (st_blocks s) (id :: st_held s) (st_fs s).
Definition set_block (id : Z) (b : block) (s : Store) : Store :=
  mkStore (<[id := b]> (st_blocks s)) (st_held s) (st_fs s).
Definition set_held (l : list Z) (s : Store) : Store := mkStore (st_blocks s) l (st_fs s).

Lemma pwp_ret {A} (a : A) Q s : pwp (Ret a) Q s <-> Q a s.
Proof. done. Qed.
Lemma pwp_mret {A} (a : A) Q s : pwp (mret a) Q s <-> Q a s.
Proof. done. Qed.

Lemma pwp_bind {A B} (p : prog A) (f : A -> prog B) Q s :
  pwp (p ≫= f) Q s <-> pwp p (fun a s' => pwp (f a) Q s') s.
Proof. unfold pwp, wp. rewrite run_bind. unfold mbind, M_bind. by destruct (run p s) as [[a s']|]. Qed.

Lemma pwp_mono {A} (p : prog A) (P Q : A -> Store -> Prop) s :
  pwp p P s -> (forall a s', P a s' -> Q a s') -> pwp p Q s.
Proof. apply wp_mono. Qed.

Lemma pwp_passert b Q s : pwp (passert b) Q s <-> b = true /\ Q tt s.
Proof. destruct b; unfold pwp, wp; cbn; intuition congruence. Qed.

Lemma pwp_punwrap {A} (o : option A) Q s : pwp (punwrap o) Q s <-> exists a, o = Some a /\ Q a s.
Proof.
  destruct o as [a|]; unfold pwp, wp; cbn; split; try done; [eauto|by intros (? & [= <-] & ?)|by intros (? & ? & _)].
Qed.

Lemma pwp_Ok {A} (p : prog A) Q s a s' : pwp p Q s -> run p s = Ok (a, s') -> Q a s'.
Proof. apply wp_Ok. Qed.
Lemma pwp_run {A} (p : prog A) Q s : pwp p Q s -> exists a s', run p s = Ok (a, s') /\ Q a s'.
Proof. apply wp_run. Qed.

Lemma pwp_sync_all Q s : st_held s = [] -> pwp block_cache_sync_all Q s <-> Q tt s.
Proof. intros H. unfold pwp, wp. cbn. by rewrite decide_True. Qed.

Lemma pwp_fs_lock {A} (p : prog A) Q s :
  st_fs s = false ->
  pwp p (fun a s' => Q a (mkStore (st_blocks s') (st_held s') false)) (mkStore (st_blocks s) (st_held s) true) ->
  pwp (with_fs p) Q s.
Proof.
  intros H Hp. unfold with_fs, pwp, wp. cbn. rewrite H. apply pwp_bind. eapply pwp_mono; [exact Hp|]. done.
Qed.

Lemma pwp_pfold {A B} (f : B -> A -> prog B) (l : list A) (I : list A -> B -> Store -> Prop) b s :
  I [] b s ->
  (forall done x b s, (done ++ [x]) `prefix_of` l -> I done b s ->
     pwp (f b x) (fun b' s' => I (done ++ [x]) b' s') s) ->
  pwp (pfold f b l) (fun b' s' => I l b' s') s.
Proof.
  assert (forall rest done b s, l = done ++ rest -> I done b s ->
    (forall done x b s, (done ++ [x]) `prefix_of` l -> I done b s ->
     pwp (f b x) (fun b' s' => I (done ++ [x]) b' s') s) ->
    pwp (pfold f b rest) (fun b' s' => I l b' s') s) as H.
  { induction rest as [|x rest IH]; intros dn b0 s0 Hl Hi Hf; cbn [pfold].
    - rewrite app_nil_r in Hl. subst. done.
    - apply pwp_bind. eapply pwp_mono.
      + apply Hf; [|exact Hi]. exists rest. by rewrite <- app_assoc.
      + intros b1 s1 H1. apply (IH (dn ++ [x])); [by rewrite <- app_assoc|exact H1|exact Hf]. }
  intros H0 Hf. apply (H l []); auto.
Qed.

Lemma release_hold id w s s' : id ∉ st_held s -> st_held s' = id :: st_held s ->
  release id w s' = set_held (st_held s) (match w with Some b => set_block id b s' | None => s' end).
Proof.
  intros Hn Hh. unfold release. rewrite Hh, filter_cons, decide_False, filter_ne_free by (done || tauto).
  by destruct w.
Qed.

(** A statement that locks a block: its closure runs with the block held. *)
Lemma pwp_block_read {V} id offset size (f : list Z -> prog V) Q s b :
  lockable s id b -> (offset + size <= BLOCK_SZ)%nat ->
  pwp (f (slice offset size b))
    (fun v s' => st_held s' = id :: st_held s /\ Q v (set_held (st_held s) s')) (hold id s) ->
  pwp (block_read id offset size f) Q s.
Proof.
  intros [Hb Hf Hr] Hsz Hw. unfold block_read. apply pwp_bind. unfold pwp at 1, wp. cbn [run].
  rewrite decide_False by done. rewrite (proj2 (Nat.leb_gt _ _)) by done. rewrite Hb.
  apply pwp_bind. apply pwp_passert. split; [by apply Nat.leb_le|]. apply pwp_bind.
  eapply pwp_mono; [exact Hw|]. cbn beta. intros v s' [Hh HQ]. unfold pwp, wp. cbn [run].
  rewrite decide_True by (rewrite Hh; left). by rewrite (release_hold id None s s').
Qed.

Lemma pwp_block_modify {V} id offset size (f : list Z -> prog (list Z * V)) Q s b :
  lockable s id b -> (offset + size <= BLOCK_SZ)%nat ->
  pwp (f (slice offset size b))
    (fun r s' => st_held s' = id :: st_held s /\
       Q (snd r) (set_held (st_held s) (set_block id (overwrite offset (fst r) b) s'))) (hold id s) ->
  pwp (block_modify id offset size f) Q s.
Proof.
  intros [Hb Hf Hr] Hsz Hw. unfold block_modify. apply pwp_bind. unfold pwp at 1, wp. cbn [run].
  rewrite decide_False by done. rewrite (proj2 (Nat.leb_gt _ _)) by done. rewrite Hb.
  apply pwp_bind. apply pwp_passert. split; [by apply Nat.leb_le|]. apply pwp_bind.
  eapply pwp_mono; [exact Hw|]. cbn beta. intros v s' [Hh HQ]. unfold pwp, wp. cbn [run].
  rewrite decide_True by (rewrite Hh; left). by rewrite (release_hold id _ s s').
Qed.

(** The common cases, where the closure uses no other block. *)
Lemma pwp_read_pure {V} id offset size (g : list Z -> V) Q s b :
  lockable s id b -> (offset + size <= BLOCK_SZ)%nat -> Q (g (slice offset size b)) s ->
  pwp (block_read id offset size (fun d => Ret (g d))) Q s.
Proof.
  intros Hl Hsz HQ. eapply pwp_block_read; [done|done|]. apply pwp_ret. split; [done|]. by destruct s.
Qed.

Lemma pwp_modify_pure {V} id offset size (g : list Z -> list Z * V) Q s b :
  lockable s id b -> (offset + size <= BLOCK_SZ)%nat ->
  Q (snd (g (slice offset size b))) (set_block id (overwrite offset (fst (g (slice offset size b))) b) s) ->
  pwp (block_modify id offset size (fun d => Ret (g d))) Q s.
Proof.
  intros Hl Hsz HQ. eapply pwp_block_modify; [done|done|]. apply pwp_ret. split; [done|]. by destruct s.
Qed.

Create Rewrite HintDb pwp.
#[export] Hint Rewrite @pwp_ret @pwp_mret @pwp_bind @pwp_passert @pwp_punwrap : pwp.
Ltac pwp_simpl := repeat (autorewrite with pwp; cbn beta iota zeta).
