(* ===== verification/Bitmap.v ===== *)
(** * Allocation bitmaps (easy-fs/src/bitmap.rs)

    A bitmap is a run of blocks, each read as sixty-four 64-bit words.  The
    theorems state what [alloc] and [dealloc] do to the bits. *)

From S2P Require Import Prelude BlockCache.

Definition BLOCK_BITS : Z := Z.of_nat BLOCK_SZ * 8.
Definition BITMAP_WORDS : nat := 64.

(** [u64::trailing_ones]. *)
Definition trailing_ones (x : Z) : nat :=
  default 64%nat (position (fun i => negb (Z.testbit x (Z.of_nat i))) (seq 0 64)).

Record Bitmap := mkBitmap { bm_start_block_id : Z; bm_blocks : Z }.

Definition Bitmap_new (start_block_id blocks : Z) : Bitmap := mkBitmap start_block_id blocks.

(** Return (block_pos, bits64_pos, inner_pos). *)
Definition decomposition (bit : Z) : Z * Z * Z :=
  let block_pos := bit / BLOCK_BITS in
  let bit := bit mod BLOCK_BITS in
  (block_pos, bit / 64, bit mod 64).

(** The closure of [alloc] on one block: the first word that is not full and
    its lowest clear bit. *)
Definition alloc_in_block (block_id : Z) (d : list Z) : list Z * option Z :=
  match position (fun i => negb (word_at 8 d i =? 2 ^ 64 - 1)) (seq 0 BITMAP_WORDS) with
  | Some bits64_pos =>
      let bits64 := word_at 8 d bits64_pos in
      let inner_pos := trailing_ones bits64 in
      (set_word 8 d bits64_pos (Z.lor bits64 (Z.shiftl 1 (Z.of_nat inner_pos))),
       Some (block_id * BLOCK_BITS + Z.of_nat bits64_pos * 64 + Z.of_nat inner_pos))
  | None => (d, None)
  end.

Fixpoint alloc_loop (start : Z) (ids : list Z) : prog (option Z) :=
  match ids with
  | [] => Ret None
  | block_id :: ids' =>
      pos ← block_modify (block_id + start) 0 BLOCK_SZ (fun d => Ret (alloc_in_block block_id d));
      match pos with
      | Some p => Ret (Some p)
      | None => alloc_loop start ids'
      end
  end.

Definition Bitmap_alloc (b : Bitmap) : prog (option Z) :=
  alloc_loop (bm_start_block_id b) (seqZ 0 (bm_blocks b)).

Definition Bitmap_dealloc (b : Bitmap) (bit : Z) : prog unit :=
  let '(block_pos, bits64_pos, inner_pos) := decomposition bit in
  block_modify (block_pos + bm_start_block_id b) 0 BLOCK_SZ (fun d =>
    let i := Z.to_nat bits64_pos in
    passert (0 <? Z.land (word_at 8 d i) (Z.shiftl 1 inner_pos));;
    Ret (set_word 8 d i (word_at 8 d i - Z.shiftl 1 inner_pos), tt)).

Definition Bitmap_maximum (b : Bitmap) : Z := bm_blocks b * BLOCK_BITS.

(** ** Bits *)

Definition block_ok (d : list Z) : Prop := length d = BLOCK_SZ /\ Forall is_byte d.

(** Bit [k] of a bitmap block. *)
Definition block_bit (d : list Z) (k : Z) : bool := Z.testbit (word_at 8 d (Z.to_nat (k / 64))) (k mod 64).

Lemma trailing_ones_spec x :
  0 <= x < 2 ^ 64 -> x <> 2 ^ 64 - 1 ->
  (trailing_ones x < 64)%nat /\ Z.testbit x (Z.of_nat (trailing_ones x)) = false /\
  forall j, 0 <= j < Z.of_nat (trailing_ones x) -> Z.testbit x j = true.
Proof.
  intros Hx Hne. unfold trailing_ones. destruct (position _ _) as [i|] eqn:Hp.
  - apply position_Some in Hp as (y & Hy & Hb & Hall). apply lookup_seq in Hy as [-> Hi]. cbn.
    split_and!; [lia|by apply negb_true_iff|].
    intros j Hj. specialize (Hall (Z.to_nat j) (Z.to_nat j) ltac:(lia)).
    rewrite lookup_seq in Hall. specialize (Hall ltac:(lia)). apply negb_false_iff in Hall.
    by rewrite Z2Nat.id in Hall by lia.
  - exfalso. apply Hne. apply position_None in Hp. apply Z.bits_inj'. intros j Hj.
    replace (2 ^ 64 - 1) with (Z.ones 64) by (rewrite Z.ones_equiv; lia).
    destruct (Z.lt_ge_cases j 64) as [Hlt|Hge].
    + rewrite Z.ones_spec_low by lia. rewrite Forall_forall in Hp.
      specialize (Hp (Z.to_nat j)). rewrite Z2Nat.id in Hp by lia. apply negb_false_iff, Hp.
      apply elem_of_seq. lia.
    + rewrite Z.ones_spec_high by lia. by apply testbit_small with 64.
Qed.

Lemma word_full x j : x = 2 ^ 64 - 1 -> 0 <= j < 64 -> Z.testbit x j = true.
Proof.
  intros -> Hj. replace (2 ^ 64 - 1) with (Z.ones 64) by (rewrite Z.ones_equiv; lia). apply Z.ones_spec_low. lia.
Qed.

Section Block.
Context (d : list Z) (Hd : block_ok d).

Lemma word_in i : (i < BITMAP_WORDS)%nat -> (8 * i + 8 <= length d)%nat.
Proof. unfold BITMAP_WORDS. destruct Hd as [-> _]. unfold BLOCK_SZ. lia. Qed.

Lemma word_range i : (i < BITMAP_WORDS)%nat -> 0 <= word_at 8 d i < 2 ^ 64.
Proof. intros Hi. apply (word_at_range 8); [apply Hd|by apply word_in]. Qed.

Lemma block_ok_set i x : (i < BITMAP_WORDS)%nat -> block_ok (set_word 8 d i x).
Proof.
  intros Hi. split; [rewrite length_set_word; [apply Hd|by apply word_in]|]. apply Forall_set_word, Hd.
Qed.

(** Replacing a word replaces its sixty-four bits. *)
Lemma block_bit_set i x k : (i < BITMAP_WORDS)%nat -> 0 <= x < 2 ^ 64 -> 0 <= k ->
  block_bit (set_word 8 d i x) k = if k / 64 =? Z.of_nat i then Z.testbit x (k mod 64) else block_bit d k.
Proof.
  intros Hi Hx Hk. pose proof (word_in i Hi). unfold block_bit.
  destruct (Z.eqb_spec (k / 64) (Z.of_nat i)) as [->|Hne].
  - rewrite Nat2Z.id. by rewrite word_at_set_eq by done.
  - rewrite word_at_set_ne; [done|done|]. pose proof (Z.div_pos k 64). lia.
Qed.

Lemma lor_bit_range x i : 0 <= x < 2 ^ 64 -> 0 <= i < 64 -> 0 <= Z.lor x (Z.shiftl 1 i) < 2 ^ 64.
Proof.
  intros Hx Hi. split; [apply Z.lor_nonneg; split; [lia|apply Z.shiftl_nonneg; lia]|].
  destruct (Z.eq_dec (Z.lor x (Z.shiftl 1 i)) 0) as [->|]; [lia|].
  apply Z.log2_lt_pow2; [|rewrite Z.log2_lor, Z.log2_shiftl, Z.log2_1; [|lia|lia|lia|apply Z.shiftl_nonneg; lia]].
  - assert (0 <= Z.lor x (Z.shiftl 1 i)); [|lia]. apply Z.lor_nonneg. split; [lia|apply Z.shiftl_nonneg; lia].
  - apply Z.max_lub_lt; [|lia]. destruct (Z.eq_dec x 0) as [->|]; [done|]. apply Z.log2_lt_pow2; lia.
Qed.

Lemma alloc_in_block_spec block_id :
  match alloc_in_block block_id d with
  | (d', Some p) => exists k, p = block_id * BLOCK_BITS + k /\ 0 <= k < BLOCK_BITS /\
      block_bit d k = false /\ (forall j, 0 <= j < k -> block_bit d j = true) /\
      (forall j, 0 <= j < BLOCK_BITS -> block_bit d' j = block_bit d j || (j =? k)) /\ block_ok d'
  | (d', None) => d' = d /\ forall j, 0 <= j < BLOCK_BITS -> block_bit d j = true
  end.
Proof.
  unfold alloc_in_block. destruct (position _ _) as [i|] eqn:Hp; cbn beta iota zeta.
  - apply position_Some in Hp as (y & Hy & Hb & Hall). apply lookup_seq in Hy as [-> Hi]. rewrite Nat.add_0_l in *.
    apply negb_true_iff, Z.eqb_neq in Hb. pose proof (word_range i Hi) as Hr.
    destruct (trailing_ones_spec _ Hr Hb) as (Ht & Hz & Hones).
    set (t := trailing_ones (word_at 8 d i)) in *. unfold BITMAP_WORDS in Hi.
    exists (Z.of_nat i * 64 + Z.of_nat t).
    assert ((Z.of_nat i * 64 + Z.of_nat t) / 64 = Z.of_nat i) as Ed by zdiv_lia.
    assert ((Z.of_nat i * 64 + Z.of_nat t) mod 64 = Z.of_nat t) as Em by zdiv_lia.
    split_and!; [lia|lia|unfold BLOCK_BITS, BLOCK_SZ; lia| | | |by apply block_ok_set].
    + unfold block_bit. by rewrite Ed, Em, Nat2Z.id.
    + intros j Hj. unfold block_bit. destruct (Z.eq_dec (j / 64) (Z.of_nat i)) as [E|E].
      * rewrite E, Nat2Z.id. apply Hones. zdiv_lia.
      * apply word_full; [|zdiv_lia]. assert (j / 64 < Z.of_nat i) by zdiv_lia. pose proof (Z.div_pos j 64).
        specialize (Hall (Z.to_nat (j / 64)) (Z.to_nat (j / 64)) ltac:(lia)). rewrite lookup_seq in Hall.
        specialize (Hall ltac:(unfold BITMAP_WORDS; lia)). apply negb_false_iff, Z.eqb_eq in Hall. done.
    + intros j Hj. rewrite block_bit_set; [|done|apply lor_bit_range; [done|lia]|lia].
      unfold block_bit. destruct (Z.eqb_spec (j / 64) (Z.of_nat i)) as [E|E].
      * rewrite E, Nat2Z.id, Z.lor_spec. f_equal. rewrite Z.shiftl_spec by zdiv_lia.
        destruct (Z.eqb_spec j (Z.of_nat i * 64 + Z.of_nat t)) as [->|Hne].
        -- by rewrite Em, Z.sub_diag.
        -- assert (j mod 64 - Z.of_nat t <> 0) as Hne' by zdiv_lia.
           destruct (Z.lt_ge_cases (j mod 64 - Z.of_nat t) 0); [by apply Z.testbit_neg_r|].
           apply testbit_small with 1; lia.
      * destruct (Z.eqb_spec j (Z.of_nat i * 64 + Z.of_nat t)); [exfalso; zdiv_lia|]. by rewrite orb_false_r.
  - split; [done|]. intros j Hj. unfold block_bit. apply position_None in Hp. rewrite Forall_forall in Hp.
    apply word_full; [|zdiv_lia]. specialize (Hp (Z.to_nat (j / 64))).
    apply Z.eqb_eq, negb_false_iff, Hp. apply elem_of_seq. unfold BLOCK_BITS, BLOCK_SZ, BITMAP_WORDS in *.
    assert (0 <= j / 64 < 64) by zdiv_lia. lia.
Qed.

(** Clearing a bit that is set. *)
Lemma clear_bit k : 0 <= k < BLOCK_BITS ->
  let i := Z.to_nat (k / 64) in
  let w := word_at 8 d i in
  (0 <? Z.land w (Z.shiftl 1 (k mod 64))) = block_bit d k /\
  (block_bit d k = true ->
   let d' := set_word 8 d i (w - Z.shiftl 1 (k mod 64)) in
   block_ok d' /\ forall j, 0 <= j < BLOCK_BITS -> block_bit d' j = block_bit d j && negb (j =? k)).
Proof.
  intros Hk i w. assert (i < BITMAP_WORDS)%nat as Hi.
  { unfold BLOCK_BITS, BLOCK_SZ, BITMAP_WORDS in *. assert (0 <= k / 64 < 64) by zdiv_lia. lia. }
  assert (0 <= k mod 64 < 64) as Hm by zdiv_lia. pose proof (word_range i Hi) as Hr. fold w in Hr.
  assert (forall n, Z.testbit (Z.shiftl 1 (k mod 64)) n = (n =? k mod 64)) as Hsh.
  { intros n. rewrite Z.shiftl_1_l, Z.pow2_bits_eqb by lia. apply Z.eqb_sym. }
  unfold block_bit. fold i w. split.
  - destruct (Z.testbit w (k mod 64)) eqn:E.
    + apply Z.ltb_lt. assert (0 <= Z.land w (Z.shiftl 1 (k mod 64))) by (apply Z.land_nonneg; lia).
      destruct (Z.eq_dec (Z.land w (Z.shiftl 1 (k mod 64))) 0) as [E0|]; [|lia].
      apply (f_equal (fun x => Z.testbit x (k mod 64))) in E0.
      rewrite Z.land_spec, Hsh, E, Z.eqb_refl, Z.bits_0 in E0. done.
    + apply Z.ltb_ge. assert (Z.land w (Z.shiftl 1 (k mod 64)) = 0) as ->; [|done]. apply Z.bits_inj'.
      intros n Hn. rewrite Z.land_spec, Hsh, Z.bits_0. destruct (Z.eqb_spec n (k mod 64)) as [->|]; [by rewrite E|].
      apply andb_false_r.
  - intros Hset. assert (w - Z.shiftl 1 (k mod 64) = Z.ldiff w (Z.shiftl 1 (k mod 64))) as Esub.
    { apply Z.sub_nocarry_ldiff. apply Z.bits_inj'. intros n Hn. rewrite Z.ldiff_spec, Hsh, Z.bits_0.
      destruct (Z.eqb_spec n (k mod 64)) as [->|]; [by rewrite Hset|done]. }
    assert (0 <= w - Z.shiftl 1 (k mod 64) < 2 ^ 64) as Hrange.
    { pose proof (Z.shiftl_nonneg 1 (k mod 64)). split; [|lia]. rewrite Esub. apply Z.ldiff_nonneg. lia. }
    split; [by apply block_ok_set|]. intros j Hj. change (block_bit (set_word 8 d i (w - Z.shiftl 1 (k mod 64))) j = block_bit d j && negb (j =? k)).
    rewrite block_bit_set by (done || lia). unfold block_bit.
    destruct (Z.eqb_spec (j / 64) (Z.of_nat i)) as [E|E].
    + assert (Z.to_nat (j / 64) = i) as -> by lia. fold w. rewrite Esub, Z.ldiff_spec, Hsh.
      destruct (Z.eqb_spec j k) as [->|Hne]; [by rewrite Z.eqb_refl|].
      destruct (Z.eqb_spec (j mod 64) (k mod 64)); [|done]. exfalso. apply Hne.
      assert (j / 64 = k / 64) by (unfold i in E; pose proof (Z.div_pos k 64); lia). zdiv_lia.
    + destruct (Z.eqb_spec j k) as [->|Hne]; [exfalso; apply E; unfold i; pose proof (Z.div_pos k 64); lia|].
      by rewrite andb_true_r.
Qed.

End Block.

(** ** Bitmaps *)

(** Bit [k] of the bitmap [b] in the store. *)
Definition bm_bit (s : Store) (b : Bitmap) (k : Z) : bool :=
  match st_blocks s !! (k / BLOCK_BITS + bm_start_block_id b) with
  | Some d => block_bit d (k mod BLOCK_BITS)
  | None => false
  end.

(** The blocks of the bitmap are there and can be locked. *)
Definition bm_ok (s : Store) (b : Bitmap) : Prop :=
  0 <= bm_blocks b /\
  forall i, 0 <= i < bm_blocks b -> exists d, lockable s (i + bm_start_block_id b) d /\ block_ok d.

(** [s'] differs from [s] at most in the blocks of the bitmap. *)
Definition bm_frame (b : Bitmap) (s s' : Store) : Prop :=
  st_held s' = st_held s /\ st_fs s' = st_fs s /\
  (forall id, ~ (bm_start_block_id b <= id < bm_start_block_id b + bm_blocks b) ->
     st_blocks s' !! id = st_blocks s !! id) /\
  (forall id, is_Some (st_blocks s' !! id) <-> is_Some (st_blocks s !! id)).

Lemma BLOCK_BITS_pos : 0 < BLOCK_BITS.
Proof. done. Qed.

Lemma slice_full (d : list Z) : length d = BLOCK_SZ -> slice 0 BLOCK_SZ d = d.
Proof. intros H. unfold slice. rewrite drop_0. apply take_ge. lia. Qed.

Lemma overwrite_full (d d' : list Z) : length d = BLOCK_SZ -> length d' = BLOCK_SZ -> overwrite 0 d' d = d'.
Proof. intros H H'. unfold overwrite. cbn [take]. rewrite drop_ge by lia. by rewrite app_nil_r. Qed.

(** The store after one block of the bitmap is replaced. *)
Lemma bm_set_block s b i d d' :
  bm_ok s b -> 0 <= i < bm_blocks b -> st_blocks s !! (i + bm_start_block_id b) = Some d -> block_ok d' ->
  let s' := set_block (i + bm_start_block_id b) d' s in
  bm_ok s' b /\ bm_frame b s s' /\
  forall k, 0 <= k -> bm_bit s' b k = if k / BLOCK_BITS =? i then block_bit d' (k mod BLOCK_BITS) else bm_bit s b k.
Proof.
  intros [Hnn Hok] Hi Hd Hd' s'. split; [|split].
  - split; [done|]. intros j Hj. destruct (Hok j Hj) as (dj & [Hb Hf Hr] & Hdj).
    destruct (decide (j = i)) as [->|Hne].
    + exists d'. split; [|done]. split; cbn; [apply lookup_insert_eq|done|done].
    + exists dj. split; [|done]. split; cbn; [rewrite lookup_insert_ne by lia; done|done|done].
  - split; [done|]. split; [done|]. split; cbn.
    + intros id Hid. rewrite lookup_insert_ne by lia. done.
    + intros id. rewrite lookup_insert. case_decide as E; [|done]. subst. rewrite Hd. split; eauto.
  - intros k Hk. unfold bm_bit. cbn. destruct (Z.eqb_spec (k / BLOCK_BITS) i) as [->|Hne].
    + by rewrite lookup_insert_eq.
    + by rewrite lookup_insert_ne by lia.
Qed.

Lemma bm_frame_refl b s : bm_frame b s s.
Proof. done. Qed.

Lemma alloc_loop_spec s b n m Q :
  bm_ok s b -> 0 <= m -> m + Z.of_nat n = bm_blocks b ->
  (forall k, 0 <= k < m * BLOCK_BITS -> bm_bit s b k = true) ->
  ((forall k, 0 <= k < Bitmap_maximum b -> bm_bit s b k = true) -> Q None s) ->
  (forall p s', 0 <= p < Bitmap_maximum b -> bm_bit s b p = false ->
     (forall k, 0 <= k < p -> bm_bit s b k = true) ->
     (forall k, 0 <= k < Bitmap_maximum b -> bm_bit s' b k = bm_bit s b k || (k =? p)) ->
     bm_ok s' b -> bm_frame b s s' -> Q (Some p) s') ->
  pwp (alloc_loop (bm_start_block_id b) (seqZ m (Z.of_nat n))) Q s.
Proof.
  intros Hok Hm0 Hmn Hbelow HNone HSome. unfold Bitmap_maximum in *. pose proof BLOCK_BITS_pos as HB.
  revert m Hm0 Hmn Hbelow. induction n as [|n IH]; intros m Hm0 Hmn Hbelow.
  { rewrite seqZ_nil by lia. apply pwp_ret, HNone. intros k Hk. apply Hbelow. lia. }
  rewrite seqZ_cons by lia. cbn [alloc_loop]. apply pwp_bind.
  destruct (proj2 Hok m ltac:(lia)) as (d & Hl & Hd).
  eapply pwp_modify_pure; [exact Hl|done|]. rewrite slice_full by apply Hd.
  pose proof (alloc_in_block_spec d Hd m) as Hspec.
  assert (forall k, k / BLOCK_BITS = m -> bm_bit s b k = block_bit d (k mod BLOCK_BITS)) as Hbit.
  { intros k <-. unfold bm_bit. by rewrite (lk_block _ _ _ Hl). }
  destruct (alloc_in_block m d) as [d' [p|]]; cbn [fst snd].
  - destruct Hspec as (k & -> & Hk & Hz & Hlow & Hnew & Hd').
    rewrite overwrite_full by (apply Hd || apply Hd'). apply pwp_ret.
    destruct (bm_set_block s b m d d' Hok ltac:(lia) (lk_block _ _ _ Hl) Hd') as (Hok' & Hfr & Hb').
    assert ((m * BLOCK_BITS + k) / BLOCK_BITS = m) as Ed by (rewrite Z.div_add_l, Z.div_small; lia).
    assert ((m * BLOCK_BITS + k) mod BLOCK_BITS = k) as Em by (rewrite Z.add_comm, Z.mod_add, Z.mod_small; lia).
    apply HSome; [nia| | | |done|done].
    + rewrite Hbit by done. by rewrite Em.
    + intros j Hj. destruct (Z.lt_ge_cases j (m * BLOCK_BITS)); [apply Hbelow; lia|].
      assert (j / BLOCK_BITS = m) as Ej by (symmetry; apply (Z.div_unique j BLOCK_BITS m (j - m * BLOCK_BITS)); lia).
      rewrite Hbit by done. apply Hlow. rewrite Z.mod_eq, Ej by lia. lia.
    + intros j Hj. rewrite Hb' by lia. destruct (Z.eqb_spec (j / BLOCK_BITS) m) as [Ej|Ej].
      * rewrite Hnew by (apply Z.mod_pos_bound; lia). rewrite Hbit by done. f_equal.
        apply eq_true_iff_eq. rewrite !Z.eqb_eq. rewrite Z.mod_eq, Ej by lia. lia.
      * destruct (Z.eqb_spec j (m * BLOCK_BITS + k)) as [->|]; [done|]. by rewrite orb_false_r.
  - destruct Hspec as [-> Hall].
    assert (set_block (m + bm_start_block_id b) (overwrite 0 d d) s = s) as ->.
    { rewrite overwrite_full by apply Hd. unfold set_block. rewrite insert_id by apply Hl. by destruct s. }
    replace (Z.pred (Z.of_nat (S n))) with (Z.of_nat n) by lia. apply IH; [lia|lia|].
    intros j Hj. destruct (Z.lt_ge_cases j (m * BLOCK_BITS)); [apply Hbelow; lia|].
    assert (j / BLOCK_BITS = m) as Ej by (symmetry; apply (Z.div_unique j BLOCK_BITS m (j - m * BLOCK_BITS)); lia).
    rewrite Hbit by done. apply Hall. rewrite Z.mod_eq, Ej by lia. lia.
Qed.

Lemma Bitmap_alloc_spec s b (Q : option Z -> Store -> Prop) :
  bm_ok s b ->
  ((forall k, 0 <= k < Bitmap_maximum b -> bm_bit s b k = true) -> Q None s) ->
  (forall p s', 0 <= p < Bitmap_maximum b -> bm_bit s b p = false ->
     (forall k, 0 <= k < p -> bm_bit s b k = true) ->
     (forall k, 0 <= k < Bitmap_maximum b -> bm_bit s' b k = bm_bit s b k || (k =? p)) ->
     bm_ok s' b -> bm_frame b s s' -> Q (Some p) s') ->
  pwp (Bitmap_alloc b) Q s.
Proof.
  intros Hok HN HS. unfold Bitmap_alloc. rewrite <- (Z2Nat.id (bm_blocks b)) by apply Hok.
  apply alloc_loop_spec; try done; [rewrite Z2Nat.id by apply Hok; lia|]. intros k Hk. lia.
Qed.

Lemma Bitmap_dealloc_spec s b p (Q : unit -> Store -> Prop) :
  bm_ok s b -> 0 <= p < Bitmap_maximum b -> bm_bit s b p = true ->
  (forall s', (forall k, 0 <= k < Bitmap_maximum b -> bm_bit s' b k = bm_bit s b k && negb (k =? p)) ->
     bm_ok s' b -> bm_frame b s s' -> Q tt s') ->
  pwp (Bitmap_dealloc b p) Q s.
Proof.
  intros Hok Hp Hset HQ. unfold Bitmap_maximum in *. pose proof BLOCK_BITS_pos as HB.
  assert (0 <= p / BLOCK_BITS < bm_blocks b) as Hi.
  { split; [apply Z.div_pos; lia|]. apply Z.div_lt_upper_bound; lia. }
  destruct (proj2 Hok _ Hi) as (d & Hl & Hd).
  assert (0 <= p mod BLOCK_BITS < BLOCK_BITS) as Hm by (apply Z.mod_pos_bound; lia).
  unfold bm_bit in Hset. rewrite (lk_block _ _ _ Hl) in Hset.
  destruct (clear_bit d Hd _ Hm) as [Htest Hclear]. destruct (Hclear Hset) as [Hd' Hbits].
  unfold Bitmap_dealloc, decomposition. eapply pwp_block_modify; [exact Hl|done|]. rewrite slice_full by apply Hd.
  apply pwp_bind. apply pwp_passert. split; [by rewrite Htest|]. apply pwp_ret. split; [done|]. cbn [fst snd].
  rewrite overwrite_full by (apply Hd || apply Hd').
  destruct (bm_set_block s b _ d _ Hok Hi (lk_block _ _ _ Hl) Hd') as (Hok' & Hfr & Hb').
  destruct s as [blk hd fs]. unfold hold, set_block, set_held in *. cbn in *.
  apply HQ; [|done|done]. intros k Hk. rewrite Hb' by lia.
  destruct (Z.eqb_spec (k / BLOCK_BITS) (p / BLOCK_BITS)) as [E|E].
  - rewrite Hbits by (apply Z.mod_pos_bound; lia). pose proof (lk_block _ _ _ Hl) as Hlb. cbn in Hlb.
    unfold bm_bit at 1. cbn. rewrite E, Hlb. f_equal. f_equal.
    apply eq_true_iff_eq. rewrite !Z.eqb_eq. rewrite !Z.mod_eq, E by lia. lia.
  - destruct (Z.eqb_spec k p) as [->|]; [done|]. by rewrite andb_true_r.
Qed.

Lemma Bitmap_dealloc_free s b p :
  bm_ok s b -> 0 <= p < Bitmap_maximum b -> bm_bit s b p = false -> run (Bitmap_dealloc b p) s = Err Panic.
Proof.
  intros Hok Hp Hset. unfold Bitmap_maximum in *. pose proof BLOCK_BITS_pos as HB.
  assert (0 <= p / BLOCK_BITS < bm_blocks b) as Hi.
  { split; [apply Z.div_pos; lia|]. apply Z.div_lt_upper_bound; lia. }
  destruct (proj2 Hok _ Hi) as (d & [Hlb Hlf Hlr] & Hd).
  assert (0 <= p mod BLOCK_BITS < BLOCK_BITS) as Hm by (apply Z.mod_pos_bound; lia).
  unfold bm_bit in Hset. rewrite Hlb in Hset. destruct (clear_bit d Hd _ Hm) as [Htest _].
  unfold Bitmap_dealloc, decomposition, block_modify. cbn [mbind prog_mbind prog_bind run].
  rewrite decide_False by done. rewrite (proj2 (Nat.leb_gt _ _)) by done. rewrite Hlb.
  cbn [prog_bind]. change (0 + BLOCK_SZ <=? BLOCK_SZ)%nat with true. cbn [passert prog_bind].
  rewrite slice_full by apply Hd. by rewrite Htest, Hset.
Qed.

(** The bitmap allocator is exact.  [alloc] returns the lowest clear bit
    and sets that bit only, in any of the bitmap's blocks, and returns [None],
    changing nothing, only when every bit is set; [dealloc] of a set bit clears
    that bit only and [dealloc] of a clear bit panics.  Blocks outside the
    bitmap never change. *)
Theorem bitmap_exact s b :
  bm_ok s b ->
  pwp (Bitmap_alloc b) (fun r s' => bm_ok s' b /\ bm_frame b s s' /\
    match r with
    | Some p => 0 <= p < Bitmap_maximum b /\ bm_bit s b p = false /\
        (forall k, 0 <= k < p -> bm_bit s b k = true) /\
        forall k, 0 <= k < Bitmap_maximum b -> bm_bit s' b k = bm_bit s b k || (k =? p)
    | None => s' = s /\ forall k, 0 <= k < Bitmap_maximum b -> bm_bit s b k = true
    end) s /\
  forall p, 0 <= p < Bitmap_maximum b ->
    if bm_bit s b p
    then pwp (Bitmap_dealloc b p) (fun _ s' => bm_ok s' b /\ bm_frame b s s' /\
      forall k, 0 <= k < Bitmap_maximum b -> bm_bit s' b k = bm_bit s b k && negb (k =? p)) s
    else run (Bitmap_dealloc b p) s = Err Panic.
Proof.
  intros Hok. split.
  - apply Bitmap_alloc_spec; [done| |]; intros; split_and!; try done; lia.
  - intros p Hp. destruct (bm_bit s b p) eqn:E.
    + apply Bitmap_dealloc_spec; auto.
    + by apply Bitmap_dealloc_free.
Qed.

Definition demo_store : Store := mkStore demo_device [] false.
Definition demo_bitmap : Bitmap := Bitmap_new 1 2.

Lemma demo_bitmap_ok : bm_ok demo_store demo_bitmap.
Proof.
  split; [done|]. intros i Hi. cbn in Hi. assert (block_ok (demo_block 0)) as Hd.
  { split; [done|]. by apply Forall_replicate. }
  assert (i = 0 \/ i = 1) as [-> | ->] by lia; exists (demo_block 0); (split; [|exact Hd]);
    split; cbn; [vm_compute; reflexivity|apply not_elem_of_nil|unfold BLOCK_CACHE_SIZE; lia
                |vm_compute; reflexivity|apply not_elem_of_nil|unfold BLOCK_CACHE_SIZE; lia].
Qed.

Lemma bitmap_exact_witness : exists s1,
  run (Bitmap_alloc demo_bitmap) demo_store = Ok (Some 0, s1) /\
  run (Bitmap_dealloc demo_bitmap 5) demo_store = Err Panic.
Proof.
  destruct (bitmap_exact demo_store demo_bitmap demo_bitmap_ok) as [Ha Hd].
  destruct (run (Bitmap_alloc demo_bitmap) demo_store) as [[r s1]|] eqn:E; [|vm_compute in E; discriminate].
  assert (r = Some 0) as -> by (vm_compute in E; congruence).
  exists s1. split; [done|]. exact (Hd 5 ltac:(vm_compute; split; congruence)).
Defined.
