(* ===== verification/Layout.v ===== *)
(** * On-disk structures (easy-fs/src/layout.rs)

    The super block, the disk inode with its direct, indirect and
    double-indirect blocks, and the directory entry: their bytes, the growth
    and the truncation of a file's block tree, and reading and writing through
    it. *)

From S2P Require Import Prelude BlockCache Bitmap.

Definition EFS_MAGIC : Z := 0x3b800001.
Definition INODE_DIRECT_COUNT : Z := 28.
Definition NAME_LENGTH_LIMIT : nat := 27.
Definition INODE_INDIRECT1_COUNT : Z := Z.of_nat BLOCK_SZ / 4.
Definition INODE_INDIRECT2_COUNT : Z := INODE_INDIRECT1_COUNT * INODE_INDIRECT1_COUNT.
Definition INDIRECT1_BOUND : Z := INODE_DIRECT_COUNT + INODE_INDIRECT1_COUNT.
Abbreviation BSZ := 512 (only parsing).

(** ** The super block *)

Record SuperBlock := mkSuper {
  sb_magic : Z;
  sb_total_blocks : Z;
  sb_inode_bitmap_blocks : Z;
  sb_inode_area_blocks : Z;
  sb_data_bitmap_blocks : Z;
  sb_data_area_blocks : Z
}.
Definition SUPER_SZ : nat := 24.

Definition SuperBlock_load (d : list Z) : SuperBlock :=
  mkSuper (word_at 4 d 0) (word_at 4 d 1) (word_at 4 d 2) (word_at 4 d 3) (word_at 4 d 4) (word_at 4 d 5).

Definition SuperBlock_store (s : SuperBlock) : list Z :=
  le_bytes 4 (sb_magic s) ++ le_bytes 4 (sb_total_blocks s) ++ le_bytes 4 (sb_inode_bitmap_blocks s) ++
  le_bytes 4 (sb_inode_area_blocks s) ++ le_bytes 4 (sb_data_bitmap_blocks s) ++
  le_bytes 4 (sb_data_area_blocks s).

Definition SuperBlock_initialize (total_blocks inode_bitmap_blocks inode_area_blocks data_bitmap_blocks
    data_area_blocks : Z) : SuperBlock :=
  mkSuper EFS_MAGIC total_blocks inode_bitmap_blocks inode_area_blocks data_bitmap_blocks data_area_blocks.

Definition SuperBlock_is_valid (s : SuperBlock) : bool := sb_magic s =? EFS_MAGIC.

(** ** The disk inode *)

Inductive DiskInodeType := File | Directory.

#[export] Instance DiskInodeType_eq_dec : EqDecision DiskInodeType.
Proof. solve_decision. Defined.

Record DiskInode := mkInode {
  di_size : Z;
  di_direct : list Z;
  di_indirect1 : Z;
  di_indirect2 : Z;
  di_type : DiskInodeType;
  di_parent_inode : Z
}.

(** [size_of::<DiskInode>()]: 31 words, the type byte and its padding, and the
    parent. *)
Definition INODE_SZ : nat := 132.
Definition TYPE_OFFSET : nat := 124.

Definition type_byte (t : DiskInodeType) : Z := match t with File => 0 | Directory => 1 end.
Definition type_of_byte (b : Z) : option DiskInodeType :=
  if b =? 0 then Some File else if b =? 1 then Some Directory else None.

(** The bytes of an inode as the code reads and writes them through a
    reference; the padding after the type is left alone.  A type byte that is
    neither variant is no inode. *)
Definition DiskInode_load (d : list Z) : option DiskInode :=
  t ← d !! TYPE_OFFSET ≫= type_of_byte;
  Some (mkInode (word_at 4 d 0) (word_at 4 d <$> seq 1 28) (word_at 4 d 29) (word_at 4 d 30) t (word_at 4 d 32)).

Definition DiskInode_store (i : DiskInode) (d : list Z) : list Z :=
  le_bytes 4 (di_size i) ++ (di_direct i ≫= le_bytes 4) ++ le_bytes 4 (di_indirect1 i) ++
  le_bytes 4 (di_indirect2 i) ++ [type_byte (di_type i)] ++ slice 125 3 d ++ le_bytes 4 (di_parent_inode i).

Definition DiskInode_initialize (type_ : DiskInodeType) (parent : Z) : DiskInode :=
  mkInode 0 (replicate 28 0) 0 0 type_ parent.

Definition DiskInode_is_dir (i : DiskInode) : bool := bool_decide (di_type i = Directory).
Definition DiskInode_is_file (i : DiskInode) : bool := bool_decide (di_type i = File).

Definition set_size (i : DiskInode) (size : Z) : DiskInode :=
  mkInode size (di_direct i) (di_indirect1 i) (di_indirect2 i) (di_type i) (di_parent_inode i).
Definition set_direct (i : DiskInode) (direct : list Z) : DiskInode :=
  mkInode (di_size i) direct (di_indirect1 i) (di_indirect2 i) (di_type i) (di_parent_inode i).
Definition set_indirect1 (i : DiskInode) (b : Z) : DiskInode :=
  mkInode (di_size i) (di_direct i) b (di_indirect2 i) (di_type i) (di_parent_inode i).
Definition set_indirect2 (i : DiskInode) (b : Z) : DiskInode :=
  mkInode (di_size i) (di_direct i) (di_indirect1 i) b (di_type i) (di_parent_inode i).
Definition set_parent (i : DiskInode) (p : Z) : DiskInode :=
  mkInode (di_size i) (di_direct i) (di_indirect1 i) (di_indirect2 i) (di_type i) p.

(** The invariant of an inode value: 28 direct entries, 32-bit fields. *)
Record inode_ok (i : DiskInode) : Prop := {
  io_direct : length (di_direct i) = 28%nat;
  io_words : Forall is_u32 (di_size i :: di_direct i ++ [di_indirect1 i; di_indirect2 i]);
  io_parent : is_u32 (di_parent_inode i)
}.

(** *** Sizes in blocks *)

Definition DiskInode__data_blocks (size : Z) : Z := u32_wrap (size + BSZ - 1) / BSZ.
Definition DiskInode_data_blocks (i : DiskInode) : Z := DiskInode__data_blocks (di_size i).

Definition DiskInode_total_blocks (size : Z) : Z :=
  let data_blocks := DiskInode__data_blocks size in
  let total := data_blocks in
  let total := if INODE_DIRECT_COUNT <? data_blocks then total + 1 else total in
  let total :=
    if INDIRECT1_BOUND <? data_blocks then
      total + 1 + (data_blocks - INDIRECT1_BOUND + INODE_INDIRECT1_COUNT - 1) / INODE_INDIRECT1_COUNT
    else total in
  u32_wrap total.

Definition DiskInode_blocks_num_needed (i : DiskInode) (new_size : Z) : prog Z :=
  passert (di_size i <=? new_size);;
  Ret (u32_wrap (DiskInode_total_blocks new_size - DiskInode_total_blocks (di_size i))).

(** *** The block tree *)

(** An entry of an indirect block, read as 128 words. *)
Definition table_get (d : list Z) (i : Z) : prog Z :=
  passert ((0 <=? i) && (i <? INODE_INDIRECT1_COUNT));; Ret (word_at 4 d (Z.to_nat i)).
Definition table_set (d : list Z) (i x : Z) : prog (list Z) :=
  passert ((0 <=? i) && (i <? INODE_INDIRECT1_COUNT));; Ret (set_word 4 d (Z.to_nat i) x).

Definition DiskInode_get_block_id (i : DiskInode) (inner_id : Z) : prog Z :=
  if inner_id <? INODE_DIRECT_COUNT then punwrap (di_direct i !! Z.to_nat inner_id)
  else if inner_id <? INDIRECT1_BOUND then
    block_read (di_indirect1 i) 0 BLOCK_SZ (fun d => table_get d (inner_id - INODE_DIRECT_COUNT))
  else
    let last := inner_id - INDIRECT1_BOUND in
    indirect1 ← block_read (di_indirect2 i) 0 BLOCK_SZ (fun d => table_get d (last / INODE_INDIRECT1_COUNT));
    block_read indirect1 0 BLOCK_SZ (fun d => table_get d (last mod INODE_INDIRECT1_COUNT)).

(** [while current < limit { direct[current] = new_blocks.next().unwrap(); .. }] *)
Fixpoint fill_direct (fuel : nat) (current limit : Z) (direct new_blocks : list Z)
  : prog (Z * list Z * list Z) :=
  if current <? limit then
    match fuel with
    | O => Stop NoFuel
    | S fuel' =>
        x ← punwrap (head new_blocks);
        _ ← punwrap (direct !! Z.to_nat current);
        fill_direct fuel' (current + 1) limit (<[Z.to_nat current := x]> direct) (tail new_blocks)
    end
  else Ret (current, direct, new_blocks).

Fixpoint fill_indirect1 (fuel : nat) (current limit : Z) (d new_blocks : list Z)
  : prog (Z * list Z * list Z) :=
  if current <? limit then
    match fuel with
    | O => Stop NoFuel
    | S fuel' =>
        x ← punwrap (head new_blocks);
        d' ← table_set d current x;
        fill_indirect1 fuel' (current + 1) limit d' (tail new_blocks)
    end
  else Ret (current, d, new_blocks).

(** The loop from (a0, b0) to (a1, b1) over the double-indirect block [d2]. *)
Fixpoint fill_indirect2 (fuel : nat) (a0 b0 a1 b1 : Z) (d2 new_blocks : list Z) : prog (list Z * list Z) :=
  if (a0 <? a1) || ((a0 =? a1) && (b0 <? b1)) then
    match fuel with
    | O => Stop NoFuel
    | S fuel' =>
        r ← (if b0 =? 0 then
               x ← punwrap (head new_blocks);
               d2' ← table_set d2 a0 x;
               Ret (d2', tail new_blocks)
             else Ret (d2, new_blocks));
        let '(d2, new_blocks) := r in
        id ← table_get d2 a0;
        block_modify id 0 BLOCK_SZ (fun d1 =>
          x ← punwrap (head new_blocks);
          d1' ← table_set d1 b0 x;
          Ret (d1', tt));;
        let b0 := b0 + 1 in
        if b0 =? INODE_INDIRECT1_COUNT then fill_indirect2 fuel' (a0 + 1) 0 a1 b1 d2 (tail new_blocks)
        else fill_indirect2 fuel' a0 b0 a1 b1 d2 (tail new_blocks)
    end
  else Ret (d2, new_blocks).

Definition DiskInode_increase_size (i : DiskInode) (new_size : Z) (new_blocks : list Z) : prog DiskInode :=
  let current_blocks := DiskInode_data_blocks i in
  let i := set_size i new_size in
  let total_blocks := DiskInode_data_blocks i in
  (* fill direct *)
  let limit := Z.min total_blocks INODE_DIRECT_COUNT in
  r ← fill_direct (Z.to_nat (limit - current_blocks)) current_blocks limit (di_direct i) new_blocks;
  let '(current_blocks, direct, new_blocks) := r in
  let i := set_direct i direct in
  (* alloc indirect1 *)
  if INODE_DIRECT_COUNT <? total_blocks then
    r ← (if current_blocks =? INODE_DIRECT_COUNT then
           x ← punwrap (head new_blocks); Ret (set_indirect1 i x, tail new_blocks)
         else Ret (i, new_blocks));
    let '(i, new_blocks) := r in
    let current_blocks := u32_wrap (current_blocks - INODE_DIRECT_COUNT) in
    let total_blocks := total_blocks - INODE_DIRECT_COUNT in
    (* fill indirect1 *)
    let limit := Z.min total_blocks INODE_INDIRECT1_COUNT in
    r ← block_modify (di_indirect1 i) 0 BLOCK_SZ (fun d =>
      r ← fill_indirect1 (Z.to_nat (limit - current_blocks)) current_blocks limit d new_blocks;
      let '(current_blocks, d', new_blocks) := r in
      Ret (d', (current_blocks, new_blocks)));
    let '(current_blocks, new_blocks) := r in
    (* alloc indirect2 *)
    if INODE_INDIRECT1_COUNT <? total_blocks then
      r ← (if current_blocks =? INODE_INDIRECT1_COUNT then
             x ← punwrap (head new_blocks); Ret (set_indirect2 i x, tail new_blocks)
           else Ret (i, new_blocks));
      let '(i, new_blocks) := r in
      let current_blocks := u32_wrap (current_blocks - INODE_INDIRECT1_COUNT) in
      let total_blocks := total_blocks - INODE_INDIRECT1_COUNT in
      (* fill indirect2 from (a0, b0) -> (a1, b1) *)
      let a0 := current_blocks / INODE_INDIRECT1_COUNT in
      let b0 := current_blocks mod INODE_INDIRECT1_COUNT in
      let a1 := total_blocks / INODE_INDIRECT1_COUNT in
      let b1 := total_blocks mod INODE_INDIRECT1_COUNT in
      block_modify (di_indirect2 i) 0 BLOCK_SZ (fun d2 =>
        r ← fill_indirect2 (Z.to_nat (total_blocks - current_blocks)) a0 b0 a1 b1 d2 new_blocks;
        Ret (fst r, tt));;
      Ret i
    else Ret i
  else Ret i.

(** [while current < limit { v.push(direct[current]); direct[current] = 0; .. }] *)
Fixpoint clear_direct (fuel : nat) (current limit : Z) (direct v : list Z) : prog (list Z * list Z) :=
  if current <? limit then
    match fuel with
    | O => Stop NoFuel
    | S fuel' =>
        x ← punwrap (direct !! Z.to_nat current);
        clear_direct fuel' (current + 1) limit (<[Z.to_nat current := 0]> direct) (v ++ [x])
    end
  else Ret (direct, v).

Fixpoint take_indirect1 (fuel : nat) (current limit : Z) (d v : list Z) : prog (list Z) :=
  if current <? limit then
    match fuel with
    | O => Stop NoFuel
    | S fuel' => x ← table_get d current; take_indirect1 fuel' (current + 1) limit d (v ++ [x])
    end
  else Ret v.

(** The first [n] entries of an indirect block, in order. *)
Definition entries (d : list Z) (n : Z) : list Z := word_at 4 d <$> seq 0 (Z.to_nat (Z.min n INODE_INDIRECT1_COUNT)).

(** A low-level indirect block: its number, then its first [n] entries. *)
Definition take_sub (n : Z) (v : list Z) (entry : Z) : prog (list Z) :=
  block_modify entry 0 BLOCK_SZ (fun d1 => Ret (d1, v ++ [entry] ++ entries d1 n)).

Definition DiskInode_clear_size (i : DiskInode) : prog (DiskInode * list Z) :=
  let data_blocks := DiskInode_data_blocks i in
  let i := set_size i 0 in
  (* direct *)
  let limit := Z.min data_blocks INODE_DIRECT_COUNT in
  r ← clear_direct (Z.to_nat limit) 0 limit (di_direct i) [];
  let '(direct, v) := r in
  let i := set_direct i direct in
  (* indirect1 block *)
  if INODE_DIRECT_COUNT <? data_blocks then
    let v := v ++ [di_indirect1 i] in
    let data_blocks := data_blocks - INODE_DIRECT_COUNT in
    let limit := Z.min data_blocks INODE_INDIRECT1_COUNT in
    v ← block_modify (di_indirect1 i) 0 BLOCK_SZ (fun d =>
      v ← take_indirect1 (Z.to_nat limit) 0 limit d v; Ret (d, v));
    let i := set_indirect1 i 0 in
    (* indirect2 block *)
    if INODE_INDIRECT1_COUNT <? data_blocks then
      let v := v ++ [di_indirect2 i] in
      let data_blocks := data_blocks - INODE_INDIRECT1_COUNT in
      passert (data_blocks <=? INODE_INDIRECT2_COUNT);;
      let a1 := data_blocks / INODE_INDIRECT1_COUNT in
      let b1 := data_blocks mod INODE_INDIRECT1_COUNT in
      v ← block_modify (di_indirect2 i) 0 BLOCK_SZ (fun d2 =>
        v ← pfold (take_sub INODE_INDIRECT1_COUNT) v (entries d2 a1);
        v ← (if 0 <? b1 then entry ← table_get d2 a1; take_sub b1 v entry else Ret v);
        Ret (d2, v));
      Ret (set_indirect2 i 0, v)
    else Ret (i, v)
  else Ret (i, v).

(** *** Reading and writing *)

(** The [loop] of [read_at]; [fuel] bounds its iterations. *)
Fixpoint read_loop (fuel : nat) (i : DiskInode) (start end_ start_block read_size : Z) (buf : list Z)
  : prog (Z * list Z) :=
  match fuel with
  | O => Stop NoFuel
  | S fuel' =>
      let end_current_block := Z.min ((start / BSZ + 1) * BSZ) end_ in
      let block_read_size := end_current_block - start in
      passert (read_size + block_read_size <=? Z.of_nat (length buf));;
      id ← DiskInode_get_block_id i (u32_wrap start_block);
      src ← block_read id 0 BLOCK_SZ (fun d =>
        passert (start mod BSZ + block_read_size <=? BSZ);;
        Ret (slice (Z.to_nat (start mod BSZ)) (Z.to_nat block_read_size) d));
      let buf := overwrite (Z.to_nat read_size) src buf in
      let read_size := read_size + block_read_size in
      if end_current_block =? end_ then Ret (read_size, buf)
      else read_loop fuel' i end_current_block end_ (start_block + 1) read_size buf
  end.

(** Returns the count and the buffer after the read. *)
Definition DiskInode_read_at (i : DiskInode) (offset : Z) (buf : list Z) : prog (Z * list Z) :=
  let start := offset in
  let end_ := Z.min (usize_wrap (offset + Z.of_nat (length buf))) (di_size i) in
  if end_ <=? start then Ret (0, buf)
  else read_loop (Z.to_nat ((end_ - start) / BSZ + 2)) i start end_ (start / BSZ) 0 buf.

Fixpoint write_loop (fuel : nat) (i : DiskInode) (start end_ start_block write_size : Z) (buf : list Z)
  : prog Z :=
  match fuel with
  | O => Stop NoFuel
  | S fuel' =>
      let end_current_block := Z.min ((start / BSZ + 1) * BSZ) end_ in
      let block_write_size := end_current_block - start in
      id ← DiskInode_get_block_id i (u32_wrap start_block);
      block_modify id 0 BLOCK_SZ (fun d =>
        passert (write_size + block_write_size <=? Z.of_nat (length buf));;
        passert (start mod BSZ + block_write_size <=? BSZ);;
        Ret (overwrite (Z.to_nat (start mod BSZ))
               (slice (Z.to_nat write_size) (Z.to_nat block_write_size) buf) d, tt));;
      let write_size := write_size + block_write_size in
      if end_current_block =? end_ then Ret write_size
      else write_loop fuel' i end_current_block end_ (start_block + 1) write_size buf
  end.

Definition DiskInode_write_at (i : DiskInode) (offset : Z) (buf : list Z) : prog Z :=
  let start := offset in
  let end_ := Z.min (usize_wrap (offset + Z.of_nat (length buf))) (di_size i) in
  passert (start <=? end_);;
  write_loop (Z.to_nat ((end_ - start) / BSZ + 2)) i start end_ (start / BSZ) 0 buf.

(** ** Directory entries *)

(** [core::str::from_utf8] accepts exactly well-formed UTF-8. *)
Definition utf8_cont (b : Z) : bool := (128 <=? b) && (b <=? 191).
Fixpoint utf8_valid (l : list Z) : bool :=
  match l with
  | [] => true
  | b0 :: l1 =>
      if b0 <=? 127 then utf8_valid l1
      else match l1 with
      | [] => false
      | b1 :: l2 =>
          if (194 <=? b0) && (b0 <=? 223) then utf8_cont b1 && utf8_valid l2
          else match l2 with
          | [] => false
          | b2 :: l3 =>
              if (224 <=? b0) && (b0 <=? 239) then
                utf8_cont b1 && utf8_cont b2 &&
                negb ((b0 =? 224) && (b1 <=? 159)) && negb ((b0 =? 237) && (160 <=? b1)) && utf8_valid l3
              else match l3 with
              | [] => false
              | b3 :: l4 =>
                  (240 <=? b0) && (b0 <=? 244) && utf8_cont b1 && utf8_cont b2 && utf8_cont b3 &&
                  negb ((b0 =? 240) && (b1 <=? 143)) && negb ((b0 =? 244) && (144 <=? b1)) && utf8_valid l4
              end
          end
      end
  end.

Record DirEntry := mkDirent { de_name : list Z; de_inode_number : Z }.
Definition DIRENT_SZ : Z := 32.

Definition DirEntry_empty : DirEntry := mkDirent (replicate (NAME_LENGTH_LIMIT + 1) 0) 0.

(** Slicing the 28 name bytes panics when [name] is longer. *)
Definition DirEntry_new (name : list Z) (inode_number : Z) : prog DirEntry :=
  passert (length name <=? NAME_LENGTH_LIMIT + 1)%nat;;
  Ret (mkDirent (overwrite 0 name (replicate (NAME_LENGTH_LIMIT + 1) 0)) inode_number).

Definition DirEntry_as_bytes (e : DirEntry) : list Z := de_name e ++ le_bytes 4 (de_inode_number e).

(** What a [DirEntry] holds after its bytes have been overwritten through
    [as_bytes_mut]. *)
Definition DirEntry_of_bytes (d : list Z) : DirEntry := mkDirent (take 28 d) (word_at 4 d 7).

(** The search for the terminating zero runs off the array, and panics, when
    all 28 bytes are used. *)
Definition DirEntry_name (e : DirEntry) : prog (list Z) :=
  len ← punwrap (position (fun b => b =? 0) (de_name e));
  let name := take len (de_name e) in
  passert (utf8_valid name);;
  Ret name.
