(* ===== verification/Tree.v ===== *)
(** * The block tree of a file (DiskInode::increase_size and clear_size)

    The blocks of a file, in the order in which they are allocated, form one
    list: the direct blocks, the indirect block and its entries, the
    double-indirect block, then each low-level block followed by its entries.
    Growing a file appends the new blocks to that list and truncating it
    returns the list. *)

From S2P Require Import Prelude BlockCache Bitmap Layout.

(** ** Total lookup with an integer index *)

Definition zth (l : list Z) (k : Z) : Z := default 0 (l !! Z.to_nat k).

Lemma zth_lookup l k : 0 <= k < Z.of_nat (length l) -> l !! Z.to_nat k = Some (zth l k).
Proof.
  intros Hk. unfold zth. destruct (l !! Z.to_nat k) eqn:E; [done|].
  apply lookup_ge_None in E. lia.
Qed.

Lemma zth_drop l p k : 0 <= p -> 0 <= k -> zth (drop (Z.to_nat p) l) k = zth l (p + k).
Proof. intros. unfold zth. rewrite lookup_drop. do 2 f_equal. lia. Qed.

Lemma head_zth l : (0 < length l)%nat -> head l = Some (zth l 0).
Proof. by destruct l; cbn; [lia|]. Qed.

Lemma tail_drop {A} (l : list A) : tail l = drop 1 l.
Proof. by destruct l. Qed.

Lemma zth_tail l k : 0 <= k -> zth (tail l) k = zth l (k + 1).
Proof. intros. rewrite tail_drop. change 1%nat with (Z.to_nat 1). rewrite zth_drop by lia. f_equal. lia. Qed.

Lemma zth_insert l k j x : 0 <= j < Z.of_nat (length l) -> 0 <= k ->
  zth (<[Z.to_nat j := x]> l) k = if k =? j then x else zth l k.
Proof.
  intros Hj Hk. unfold zth. destruct (Z.eqb_spec k j) as [->|Hne].
  - by rewrite list_lookup_insert_eq by lia.
  - by rewrite list_lookup_insert_ne by lia.
Qed.

Lemma zth_inj l j k : NoDup l -> 0 <= j < Z.of_nat (length l) -> 0 <= k < Z.of_nat (length l) ->
  zth l j = zth l k -> j = k.
Proof.
  intros Hn Hj Hk E. apply zth_lookup in Hj as H1. apply zth_lookup in Hk as H2. rewrite E in H1.
  pose proof (NoDup_lookup _ _ _ _ Hn H1 H2). lia.
Qed.

Lemma zth_elem l k : 0 <= k < Z.of_nat (length l) -> zth l k ∈ l.
Proof. intros H. apply zth_lookup in H. by eapply list_elem_of_lookup_2. Qed.

Lemma zth_app_l l l' k : 0 <= k < Z.of_nat (length l) -> zth (l ++ l') k = zth l k.
Proof. intros H. unfold zth. by rewrite lookup_app_l by lia. Qed.

Lemma seqZ_zth l : zth l <$> seqZ 0 (Z.of_nat (length l)) = l.
Proof.
  apply list_eq. intros i. rewrite list_lookup_fmap. destruct (decide (i < length l)%nat).
  - rewrite lookup_seqZ_lt by lia. cbn. rewrite <- (Nat2Z.id i) at 2. rewrite zth_lookup by lia.
    by rewrite Z.add_0_l.
  - rewrite lookup_seqZ_ge by lia. cbn. symmetry. apply lookup_ge_None. lia.
Qed.

(** ** The tree *)

(** Block [id] is an indirect block whose first [m] entries are [f]. *)
Definition table (bs : gmap Z block) (id m : Z) (f : Z -> Z) : Prop :=
  exists d, bs !! id = Some d /\ block_ok d /\ forall k, 0 <= k < m -> word_at 4 d (Z.to_nat k) = f k.

(** The low-level indirect blocks of a file of [n] data blocks, and the
    number of its blocks of all kinds. *)
Definition subs (n : Z) : Z := (n - 156 + 127) / 128.
Definition tree_len (n : Z) : Z :=
  n + (if 28 <? n then 1 else 0) + (if 156 <? n then 1 + subs n else 0).

(** The blocks of the inode [i], whose file has [n] data blocks, are [T]. *)
Record tree (bs : gmap Z block) (i : DiskInode) (T : list Z) (n : Z) : Prop := {
  tr_len : length (di_direct i) = 28%nat;
  tr_direct : forall k, 0 <= k < Z.min n 28 -> zth (di_direct i) k = zth T k;
  tr_ind1 : 28 < n -> di_indirect1 i = zth T 28 /\
    table bs (zth T 28) (Z.min (n - 28) 128) (fun k => zth T (29 + k));
  tr_ind2 : 156 < n -> di_indirect2 i = zth T 157 /\
    table bs (zth T 157) (subs n) (fun k => zth T (158 + 129 * k));
  tr_subs : 156 < n -> forall k, 0 <= k < subs n ->
    table bs (zth T (158 + 129 * k)) (Z.min (n - 156 - 128 * k) 128) (fun r => zth T (159 + 129 * k + r))
}.

(** Blocks that can be locked, at any depth the tree needs. *)
Definition usable (s : Store) (T : list Z) : Prop :=
  (length (st_held s) <= 13)%nat /\
  forall id, id ∈ T -> (id ∉ st_held s) /\ exists d, st_blocks s !! id = Some d /\ block_ok d.

Lemma usable_lockable s T id : usable s T -> id ∈ T -> exists d, lockable s id d /\ block_ok d.
Proof.
  intros [Hl Hu] Hid. destruct (Hu id Hid) as (Hf & d & Hd & Hok). exists d. split; [|done].
  split; [done|done|]. unfold BLOCK_CACHE_SIZE. lia.
Qed.

Lemma table_mono bs id m m' f : m' <= m -> table bs id m f -> table bs id m' f.
Proof. intros H (d & Hd & Hok & Hk). exists d. split; [done|]. split; [done|]. intros. apply Hk. lia. Qed.

Lemma table_ne bs id id' d m f : id <> id' -> table bs id m f -> table (<[id' := d]> bs) id m f.
Proof. intros H (d' & Hd & Hok). exists d'. split; [by rewrite lookup_insert_ne|done]. Qed.

Lemma table_eq bs id d m f : block_ok d -> (forall k, 0 <= k < m -> word_at 4 d (Z.to_nat k) = f k) ->
  table (<[id := d]> bs) id m f.
Proof. intros Hok Hk. exists d. split; [apply lookup_insert_eq|done]. Qed.

(** *** The numbers of blocks *)

Lemma data_blocks_spec size : 0 <= size <= 16540 * 512 ->
  DiskInode__data_blocks size = (size + 511) / 512 /\ 0 <= DiskInode__data_blocks size <= 16540.
Proof.
  intros H. unfold DiskInode__data_blocks, u32_wrap. rewrite Z.mod_small by lia.
  replace (size + 512 - 1) with (size + 511) by lia. split; [done|]. zdiv_lia.
Qed.

Lemma total_blocks_spec size : 0 <= size <= 16540 * 512 ->
  DiskInode_total_blocks size = tree_len (DiskInode__data_blocks size).
Proof.
  intros H. destruct (data_blocks_spec size H) as [_ Hn]. unfold DiskInode_total_blocks, tree_len, subs.
  set (n := DiskInode__data_blocks size) in *. clearbody n.
  change INODE_DIRECT_COUNT with 28. change INDIRECT1_BOUND with 156. change INODE_INDIRECT1_COUNT with 128.
  unfold u32_wrap. replace (n - 156 + 128 - 1) with (n - 156 + 127) by lia.
  assert (0 <= n - 156 -> 0 <= (n - 156 + 127) / 128 <= 16540) as Hs by (intros; zdiv_lia).
  destruct (Z.ltb_spec 28 n), (Z.ltb_spec 156 n); rewrite Z.mod_small; lia.
Qed.

Lemma subs_bounds n : 156 < n -> (subs n - 1) * 128 < n - 156 <= subs n * 128.
Proof. intros. unfold subs. zdiv_lia. Qed.

Lemma tree_len_mono n m : 0 <= n <= m -> 0 <= tree_len n <= tree_len m.
Proof.
  intros H. unfold tree_len. assert (156 < n -> 0 <= subs n <= subs m) by (intros; unfold subs; zdiv_lia).
  assert (156 < m -> 0 <= subs m) by (intros; unfold subs; zdiv_lia).
  destruct (Z.ltb_spec 28 n), (Z.ltb_spec 156 n), (Z.ltb_spec 28 m), (Z.ltb_spec 156 m); lia.
Qed.

(** ** The filling loops *)

Lemma table_get_in d k Q s : 0 <= k < 128 -> Q (word_at 4 d (Z.to_nat k)) s -> pwp (table_get d k) Q s.
Proof.
  intros Hk HQ. unfold table_get. apply pwp_bind, pwp_passert. split; [|done].
  change INODE_INDIRECT1_COUNT with 128. lia.
Qed.

Lemma table_set_in d k x Q s : 0 <= k < 128 -> Q (set_word 4 d (Z.to_nat k) x) s -> pwp (table_set d k x) Q s.
Proof.
  intros Hk HQ. unfold table_set. apply pwp_bind, pwp_passert. split; [|done].
  change INODE_INDIRECT1_COUNT with 128. lia.
Qed.

Lemma table_word_in d k : block_ok d -> 0 <= k < 128 -> (4 * Z.to_nat k + 4 <= length d)%nat.
Proof. intros [-> _] Hk. unfold BLOCK_SZ. lia. Qed.

Lemma block_ok_set4 d k x : block_ok d -> 0 <= k < 128 -> block_ok (set_word 4 d (Z.to_nat k) x).
Proof.
  intros Hd Hk. split; [|apply Forall_set_word, Hd]. rewrite length_set_word; [apply Hd|by apply table_word_in].
Qed.

Lemma word_set4 d k j x : block_ok d -> 0 <= k < 128 -> 0 <= j -> is_u32 x ->
  word_at 4 (set_word 4 d (Z.to_nat k) x) (Z.to_nat j) = if j =? k then x else word_at 4 d (Z.to_nat j).
Proof.
  intros Hd Hk Hj Hx. pose proof (table_word_in d k Hd Hk). destruct (Z.eqb_spec j k) as [->|Hne].
  - by apply word_at_set_eq.
  - apply word_at_set_ne; [done|lia].
Qed.

Lemma fill_direct_spec fuel current limit direct blocks Q s :
  0 <= current -> limit <= 28 -> length direct = 28%nat ->
  (Z.to_nat (limit - current) <= fuel)%nat -> limit - current <= Z.of_nat (length blocks) ->
  (forall direct', length direct' = 28%nat ->
     (forall k, 0 <= k -> zth direct' k =
        if (current <=? k) && (k <? limit) then zth blocks (k - current) else zth direct k) ->
     Q (Z.max current limit, direct', drop (Z.to_nat (limit - current)) blocks) s) ->
  pwp (fill_direct fuel current limit direct blocks) Q s.
Proof.
  revert current direct blocks Q. induction fuel as [|fuel IH]; intros current direct blocks Q H0 Hl Hd Hf Hb HQ;
    cbn [fill_direct]; destruct (Z.ltb_spec current limit) as [Hlt|Hge]; [lia| | |].
  1,3: apply pwp_ret; replace (Z.to_nat (limit - current)) with 0%nat in HQ by lia; rewrite Z.max_l in HQ by lia;
    rewrite drop_0 in HQ; apply HQ; [done|]; intros k Hk; destruct (Z.leb_spec current k), (Z.ltb_spec k limit); (done || lia).
  pwp_simpl. exists (zth blocks 0). split; [apply head_zth; lia|].
  apply pwp_bind, pwp_punwrap. exists (zth direct current). split; [apply zth_lookup; lia|].
  apply IH; [lia|done|by rewrite length_insert|lia|rewrite tail_drop, length_drop; lia|].
  intros direct' Hd' Hk. specialize (HQ direct' Hd').
  replace (Z.max (current + 1) limit) with (Z.max current limit) by lia.
  rewrite tail_drop, drop_drop. replace (1 + Z.to_nat (limit - (current + 1)))%nat with (Z.to_nat (limit - current)) by lia.
  apply HQ. intros k H. rewrite Hk by done. rewrite zth_insert by lia.
  destruct (Z.leb_spec (current + 1) k), (Z.ltb_spec k limit), (Z.leb_spec current k), (Z.eqb_spec k current); cbn;
    try done; try lia; [|by replace (k - current) with 0 by lia].
  rewrite zth_tail by lia. f_equal. lia.
Qed.

Lemma fill_indirect1_spec fuel current limit d blocks Q s :
  0 <= current -> limit <= 128 -> block_ok d -> Forall is_u32 blocks ->
  (Z.to_nat (limit - current) <= fuel)%nat -> limit - current <= Z.of_nat (length blocks) ->
  (forall d', block_ok d' ->
     (forall k, 0 <= k -> word_at 4 d' (Z.to_nat k) =
        if (current <=? k) && (k <? limit) then zth blocks (k - current) else word_at 4 d (Z.to_nat k)) ->
     Q (Z.max current limit, d', drop (Z.to_nat (limit - current)) blocks) s) ->
  pwp (fill_indirect1 fuel current limit d blocks) Q s.
Proof.
  revert current d blocks Q. induction fuel as [|fuel IH]; intros current d blocks Q H0 Hl Hd Hu Hf Hb HQ;
    cbn [fill_indirect1]; destruct (Z.ltb_spec current limit) as [Hlt|Hge]; [lia| | |].
  1,3: apply pwp_ret; replace (Z.to_nat (limit - current)) with 0%nat in HQ by lia; rewrite Z.max_l in HQ by lia;
    rewrite drop_0 in HQ; apply HQ; [done|]; intros k Hk; destruct (Z.leb_spec current k), (Z.ltb_spec k limit); (done || lia).
  pwp_simpl. exists (zth blocks 0). split; [apply head_zth; lia|].
  apply pwp_bind, table_set_in; [lia|].
  assert (is_u32 (zth blocks 0)) as Hx by (rewrite Forall_forall in Hu; apply Hu, zth_elem; lia).
  apply IH; [lia|done|apply block_ok_set4; [done|lia]| |lia|rewrite tail_drop, length_drop; lia|].
  { rewrite tail_drop. by apply Forall_drop. }
  intros d' Hd' Hk. specialize (HQ d' Hd').
  replace (Z.max (current + 1) limit) with (Z.max current limit) by lia.
  rewrite tail_drop, drop_drop. replace (1 + Z.to_nat (limit - (current + 1)))%nat with (Z.to_nat (limit - current)) by lia.
  apply HQ. intros k H. rewrite Hk by done. rewrite word_set4 by (done || lia).
  destruct (Z.leb_spec (current + 1) k), (Z.ltb_spec k limit), (Z.leb_spec current k), (Z.eqb_spec k current); cbn;
    try done; try lia; [|by replace (k - current) with 0 by lia].
  rewrite zth_tail by lia. f_equal. lia.
Qed.

(** The numbers of the low-level blocks: entry [k] of the double-indirect
    block, and the position in [T] of what comes after [m] data blocks under
    it. *)
Definition sub_pos (k : Z) : Z := 158 + 129 * k.
Definition nsubs (m : Z) : Z := (m + 127) / 128.
Definition after (m : Z) : Z := 158 + m + nsubs m.

Lemma nsubs_div m : 0 <= m -> nsubs m = m / 128 + (if m mod 128 =? 0 then 0 else 1).
Proof. intros. unfold nsubs. destruct (Z.eqb_spec (m mod 128) 0); zdiv_lia. Qed.

Lemma nsubs_succ m : 0 <= m -> nsubs (m + 1) = m / 128 + 1.
Proof. intros. unfold nsubs. zdiv_lia. Qed.

(** Two blocks of [T] at different positions are different. *)
Lemma zth_ne T j k : NoDup T -> 0 <= j < Z.of_nat (length T) -> 0 <= k < Z.of_nat (length T) -> j <> k ->
  zth T j <> zth T k.
Proof. intros Hn Hj Hk Hne E. apply Hne. by apply (zth_inj T). Qed.

Section FillIndirect2.
Context (T : list Z) (Hnd : NoDup T) (Hu32 : Forall is_u32 T) (M : Z).
Hypothesis HM : 0 <= M <= 16384.
Hypothesis HT : after M <= Z.of_nat (length T).

(** The low-level blocks of [m] data blocks are in place. *)
Definition subs_done (bs : gmap Z block) (m : Z) : Prop :=
  forall k, 0 <= k < nsubs m ->
    table bs (zth T (sub_pos k)) (Z.min (m - 128 * k) 128) (fun r => zth T (159 + 129 * k + r)).

Definition subs_lockable (s : Store) : Prop :=
  forall k, 0 <= k < nsubs M -> exists d, lockable s (zth T (sub_pos k)) d /\ block_ok d.

(** [s'] differs from [s] in low-level blocks only. *)
Definition subs_frame (s s' : Store) : Prop :=
  st_held s' = st_held s /\ st_fs s' = st_fs s /\
  forall id, (forall k, 0 <= k < nsubs M -> zth T (sub_pos k) <> id) -> st_blocks s' !! id = st_blocks s !! id.

Lemma sub_in k : 0 <= k < nsubs M -> sub_pos k < Z.of_nat (length T).
Proof. intros Hk. unfold after in HT. unfold sub_pos. unfold nsubs in *. zdiv_lia. Qed.

Lemma u32_zth k : is_u32 (zth T k).
Proof.
  unfold zth. destruct (T !! Z.to_nat k) as [x|] eqn:E; [|by unfold is_u32; cbn].
  cbn. rewrite Forall_forall in Hu32. apply Hu32. by eapply list_elem_of_lookup_2.
Qed.

(** One entry of a low-level block is filled. *)
Lemma subs_step s m d d' :
  0 <= m < M -> subs_done (st_blocks s) m -> st_blocks s !! zth T (sub_pos (m / 128)) = Some d -> block_ok d ->
  d' = set_word 4 d (Z.to_nat (m mod 128)) (zth T (159 + 129 * (m / 128) + m mod 128)) ->
  subs_done (<[zth T (sub_pos (m / 128)) := d']> (st_blocks s)) (m + 1).
Proof.
  intros Hm Hdone Hd Hok -> k Hk. rewrite nsubs_succ in Hk by lia.
  assert (0 <= m / 128) as Ha by (apply Z.div_pos; lia). assert (0 <= m mod 128 < 128) as Hb by (apply Z.mod_pos_bound; lia).
  assert (m / 128 < nsubs M) as HaM by (unfold nsubs; zdiv_lia).
  destruct (decide (k = m / 128)) as [->|Hne].
  - apply table_eq; [by apply block_ok_set4|]. intros r Hr. rewrite word_set4 by (done || lia || apply u32_zth).
    destruct (Z.eqb_spec r (m mod 128)) as [->|Hrne]; [done|].
    destruct (Hdone (m / 128)) as (d0 & Hd0 & _ & Hw).
    { rewrite nsubs_div by lia. destruct (Z.eqb_spec (m mod 128) 0); [zdiv_lia|lia]. }
    rewrite Hd in Hd0. injection Hd0 as <-. apply Hw. zdiv_lia.
  - apply table_ne.
    + apply zth_ne; [done| | |unfold sub_pos; lia].
      * split; [unfold sub_pos; lia|apply sub_in; lia].
      * split; [unfold sub_pos; lia|apply sub_in; lia].
    + eapply table_mono; [|apply Hdone; rewrite nsubs_div by lia; destruct (Z.eqb_spec (m mod 128) 0); lia].
      assert (k < m / 128) by lia. assert (128 * (m / 128) <= m) by (apply Z.mul_div_le; lia). lia.
Qed.

Lemma subs_lockable_set s id d : subs_lockable s -> block_ok d -> subs_lockable (set_block id d s).
Proof.
  intros Hl Hd k Hk. destruct (Hl k Hk) as (d0 & [Hb Hf Hr] & Hok).
  destruct (decide (id = zth T (sub_pos k))) as [->|Hne].
  - exists d. split; [|done]. split; cbn; [apply lookup_insert_eq|done|done].
  - exists d0. split; [|done]. split; cbn; [by rewrite lookup_insert_ne|done|done].
Qed.

Lemma fill_indirect2_spec fuel m d2 s Q :
  0 <= m <= M -> (Z.to_nat (M - m) <= fuel)%nat -> block_ok d2 ->
  (forall k, 0 <= k < nsubs m -> word_at 4 d2 (Z.to_nat k) = zth T (sub_pos k)) ->
  subs_done (st_blocks s) m -> subs_lockable s ->
  (forall d2' s', block_ok d2' -> (forall k, 0 <= k < nsubs M -> word_at 4 d2' (Z.to_nat k) = zth T (sub_pos k)) ->
     subs_done (st_blocks s') M -> subs_frame s s' -> subs_lockable s' -> Q (d2', drop (Z.to_nat (after M)) T) s') ->
  pwp (fill_indirect2 fuel (m / 128) (m mod 128) (M / 128) (M mod 128) d2 (drop (Z.to_nat (after m)) T)) Q s.
Proof.
  revert m d2 s Q. induction fuel as [|fuel IH]; intros m d2 s Q Hm Hf Hd2 Hw Hdone Hlk HQ; cbn [fill_indirect2].
  - assert (m = M) as -> by lia. rewrite Z.ltb_irrefl, Z.eqb_refl, Z.ltb_irrefl. apply pwp_ret. apply HQ; try done.
  - assert (((m / 128 <? M / 128) || ((m / 128 =? M / 128) && (m mod 128 <? M mod 128))) = (m <? M)) as ->.
    { apply eq_true_iff_eq. rewrite orb_true_iff, andb_true_iff, !Z.ltb_lt, Z.eqb_eq. zdiv_lia. }
    destruct (Z.ltb_spec m M) as [Hlt|Hge]; [|assert (m = M) as -> by lia; apply pwp_ret; apply HQ; done].
    set (a := m / 128) in *. set (b := m mod 128) in *.
    assert (0 <= a < 128 /\ 0 <= b < 128 /\ m = 128 * a + b) as (Ha & Hb & Em) by (unfold a, b; zdiv_lia).
    assert (a < nsubs M) as HaM by (unfold a, nsubs; zdiv_lia).
    assert (nsubs m = a + (if b =? 0 then 0 else 1)) as Hns by (apply nsubs_div; lia).
    assert (after (m + 1) <= Z.of_nat (length T)) as Hlen.
    { unfold after in HT |- *. unfold nsubs in *. zdiv_lia. }
    assert (after (m + 1) = 160 + 129 * a + b) as Hafter by (unfold after; rewrite nsubs_succ by lia; fold a; lia).
    apply pwp_bind. apply (pwp_mono _ (fun r s' => s' = s /\ exists d2', r = (d2', drop (Z.to_nat (159 + 129 * a + b)) T) /\
      block_ok d2' /\ (forall k, 0 <= k < a + 1 -> word_at 4 d2' (Z.to_nat k) = zth T (sub_pos k)))).
    { destruct (Z.eqb_spec b 0) as [Hb0|Hb0].
      - pwp_simpl. exists (zth T (sub_pos a)). split.
        { rewrite head_zth by (rewrite length_drop; unfold after; lia). rewrite zth_drop by (unfold after; lia). f_equal. f_equal. unfold sub_pos, after. lia. }
        apply pwp_bind, table_set_in; [lia|]. apply pwp_ret. split; [done|]. eexists. split; [|split].
        + f_equal. rewrite tail_drop, drop_drop. f_equal. unfold after. lia.
        + apply block_ok_set4; [done|lia].
        + intros k Hk. rewrite word_set4 by (done || lia || apply u32_zth). destruct (Z.eqb_spec k a) as [->|]; [done|]. apply Hw. lia.
      - apply pwp_ret. split; [done|]. exists d2. split; [|split; [done|]].
        + f_equal. f_equal. unfold after. lia.
        + intros k Hk. apply Hw. lia. }
    intros r s' (-> & d2' & -> & Hd2' & Hw'). cbn beta iota zeta. apply pwp_bind, table_get_in; [lia|].
    rewrite Hw' by lia. destruct (Hlk a ltac:(lia)) as (d & Hl & Hok).
    apply pwp_bind. eapply pwp_block_modify; [exact Hl|done|]. rewrite slice_full by apply Hok.
    pwp_simpl. exists (zth T (159 + 129 * a + b)). split.
    { rewrite head_zth by (rewrite length_drop; lia). rewrite zth_drop by lia. by rewrite Z.add_0_r. }
    apply pwp_bind, table_set_in; [lia|]. apply pwp_ret. split; [done|]. cbn [fst snd].
    assert (block_ok (set_word 4 d (Z.to_nat b) (zth T (159 + 129 * a + b)))) as Hokd by (by apply block_ok_set4).
    rewrite overwrite_full by (apply Hok || apply Hokd).
    set (s1 := set_held _ _). assert (s1 = set_block (zth T (sub_pos a)) (set_word 4 d (Z.to_nat b) (zth T (159 + 129 * a + b))) s) as -> by (by destruct s).
    rewrite tail_drop, drop_drop. replace (Z.to_nat (159 + 129 * a + b) + 1)%nat with (Z.to_nat (after (m + 1))) by lia.
    set (s1 := set_block _ _ _).
    assert (pwp (fill_indirect2 fuel ((m + 1) / 128) ((m + 1) mod 128) (M / 128) (M mod 128) d2'
      (drop (Z.to_nat (after (m + 1))) T)) Q s1) as Hnext.
    { apply IH; [lia|lia|done| | |by apply subs_lockable_set|].
      - intros k Hk. rewrite nsubs_succ in Hk by lia. apply Hw'. unfold a. lia.
      - eapply subs_step; [lia|done|apply Hl|done|done].
      - intros d3 s3 Hd3 Hw3 Hdone3 (Hh & Hfs & Hfr) Hlk3. apply HQ; [done|done|done| |done].
        split; [done|]. split; [done|]. intros id Hid. rewrite Hfr by done. cbn. rewrite lookup_insert_ne; [done|]. apply Hid. lia. }
    change INODE_INDIRECT1_COUNT with 128. destruct (Z.eqb_spec (b + 1) 128) as [Eb|Eb].
    + replace ((m + 1) / 128) with (a + 1) in Hnext by (unfold a; zdiv_lia).
      replace ((m + 1) mod 128) with 0 in Hnext by (unfold b in *; zdiv_lia). exact Hnext.
    + replace ((m + 1) / 128) with a in Hnext by (unfold a, b in *; zdiv_lia).
      replace ((m + 1) mod 128) with (b + 1) in Hnext by (unfold b in *; zdiv_lia). exact Hnext.
Qed.

End FillIndirect2.

(** ** Growing a file *)

(** The indirect blocks among the blocks [T] of a file of [n] data blocks. *)
Definition indirect (T : list Z) (n id : Z) : Prop :=
  (28 < n /\ id = zth T 28) \/
  (156 < n /\ (id = zth T 157 \/ exists k, 0 <= k < subs n /\ id = zth T (158 + 129 * k))).

(** Only the indirect blocks change. *)
Definition tree_frame (T : list Z) (n : Z) (s s' : Store) : Prop :=
  st_held s' = st_held s /\ st_fs s' = st_fs s /\
  (forall id, ~ indirect T n id -> st_blocks s' !! id = st_blocks s !! id) /\
  (forall L, usable s L -> usable s' L).

Lemma tree_frame_refl T n s : tree_frame T n s s.
Proof. done. Qed.

Lemma tree_frame_trans T n s1 s2 s3 : tree_frame T n s1 s2 -> tree_frame T n s2 s3 -> tree_frame T n s1 s3.
Proof.
  intros (H1 & F1 & B1 & U1) (H2 & F2 & B2 & U2). split_and!; [congruence|congruence| |auto].
  intros id Hid. rewrite B2, B1 by done. done.
Qed.

Lemma usable_set s L id d : usable s L -> block_ok d -> usable (set_block id d s) L.
Proof.
  intros [Hl Hu] Hd. split; [done|]. intros id' Hid. destruct (Hu id' Hid) as (Hf & d0 & Hd0 & Hok0).
  split; [done|]. cbn. destruct (decide (id = id')) as [->|Hne].
  - exists d. by rewrite lookup_insert_eq.
  - exists d0. by rewrite lookup_insert_ne.
Qed.

Lemma tree_frame_set T n s id d : indirect T n id -> block_ok d -> tree_frame T n s (set_block id d s).
Proof.
  intros Hid Hd. split; [done|]. split; [done|]. split.
  - intros id' Hn. cbn. rewrite lookup_insert_ne; [done|]. by intros ->.
  - intros L HL. by apply usable_set.
Qed.

Lemma table_ext bs id m f g : (forall k, 0 <= k < m -> f k = g k) -> table bs id m f -> table bs id m g.
Proof. intros H (d & Hd & Hok & Hk). exists d. split; [done|]. split; [done|]. intros k Hkm. rewrite Hk, H by done. done. Qed.

(** The tree depends on the prefix of the list that it covers. *)
Lemma tree_ext bs i l T n : 0 <= n -> (forall k, 0 <= k < tree_len n -> zth l k = zth T k) ->
  tree bs i l n -> tree bs i T n.
Proof.
  intros Hn He [H1 H2 H3 H4 H5].
  assert (28 < n -> 29 + Z.min (n - 28) 128 <= tree_len n) as B1.
  { intros. unfold tree_len. pose proof (subs_bounds n). destruct (Z.ltb_spec 28 n), (Z.ltb_spec 156 n); lia. }
  assert (156 < n -> 158 + (n - 156) + subs n = tree_len n) as B2.
  { intros. unfold tree_len. destruct (Z.ltb_spec 28 n), (Z.ltb_spec 156 n); lia. }
  assert (Z.min n 28 <= tree_len n) as B0.
  { unfold tree_len. pose proof (subs_bounds n). destruct (Z.ltb_spec 28 n), (Z.ltb_spec 156 n); lia. }
  split; [done| | | |].
  - intros k Hk. rewrite H2 by done. apply He. lia.
  - intros H. destruct (H3 H) as [-> Ht]. specialize (B1 H). rewrite <- (He 28) by lia. split; [done|].
    eapply table_ext; [|exact Ht]. intros k Hk. apply He. lia.
  - intros H. destruct (H4 H) as [-> Ht]. specialize (B2 H). pose proof (subs_bounds n H). rewrite <- (He 157) by lia. split; [done|].
    eapply table_ext; [|exact Ht]. intros k Hk. apply He. lia.
  - intros H k Hk. specialize (H5 H k Hk). specialize (B2 H). pose proof (subs_bounds n H). rewrite He in H5 by lia.
    eapply table_ext; [|exact H5]. intros r Hr. apply He. lia.
Qed.

Lemma tree_size bs i size T n : tree bs i T n -> tree bs (set_size i size) T n.
Proof. intros []. by split. Qed.

Lemma tree_len_big n1 : 156 < n1 -> tree_len n1 = after (n1 - 156).
Proof.
  intros H. unfold tree_len, after, subs, nsubs. destruct (Z.ltb_spec 28 n1), (Z.ltb_spec 156 n1); lia.
Qed.

Lemma tree_len_mid n1 : 28 < n1 -> 29 + Z.min (n1 - 28) 128 <= tree_len n1.
Proof. intros. unfold tree_len. pose proof (subs_bounds n1). destruct (Z.ltb_spec 28 n1), (Z.ltb_spec 156 n1); lia. Qed.

Section Grow.
Context (T : list Z) (n0 n1 : Z).
Hypothesis Hn : 0 <= n0 <= n1.
Hypothesis Hmax : n1 <= 16540.
Hypothesis Hlen : Z.of_nat (length T) = tree_len n1.
Hypothesis Hnd : NoDup T.
Hypothesis Hu32 : Forall is_u32 T.

Lemma grow_indirect1 s p cur d :
  usable s T -> 28 < n1 -> cur = Z.max n0 28 - 28 -> (n0 <= 156 -> p = 29 + cur) ->
  st_blocks s !! zth T 28 = Some d ->
  (forall k, 0 <= k < Z.min cur 128 -> word_at 4 d (Z.to_nat k) = zth T (29 + k)) ->
  let limit := Z.min (n1 - 28) 128 in
  pwp (block_modify (zth T 28) 0 BLOCK_SZ (fun d =>
      r ← fill_indirect1 (Z.to_nat (limit - cur)) cur limit d (drop (Z.to_nat p) T);
      let '(current_blocks, d', new_blocks) := r in
      Ret (d', (current_blocks, new_blocks))))
    (fun r s' => r = (Z.max cur limit, drop (Z.to_nat (limit - cur)) (drop (Z.to_nat p) T)) /\
      exists d', s' = set_block (zth T 28) d' s /\ block_ok d' /\
        forall k, 0 <= k < limit -> word_at 4 d' (Z.to_nat k) = zth T (29 + k)) s.
Proof.
  intros Hu H28 Hcur Hp Hd Hold limit. pose proof (tree_len_mid n1 H28) as Hmid.
  assert (zth T 28 ∈ T) as Hin by (apply zth_elem; lia).
  destruct (usable_lockable s T _ Hu Hin) as (d0 & Hl & Hok).
  assert (d0 = d) as -> by (pose proof (lk_block _ _ _ Hl); congruence).
  eapply pwp_block_modify; [exact Hl|done|]. rewrite slice_full by apply Hok. apply pwp_bind.
  apply fill_indirect1_spec; [lia|lia|done|by apply Forall_drop|done| |].
  { rewrite length_drop. unfold limit. lia. }
  intros d' Hok' Hw. apply pwp_ret. split; [done|]. cbn [fst snd]. split; [done|]. exists d'.
  rewrite overwrite_full by (apply Hok || apply Hok'). split; [by destruct s|]. split; [done|].
  intros k Hk. rewrite Hw by lia. destruct (Z.leb_spec cur k), (Z.ltb_spec k limit); cbn; try lia.
  - rewrite zth_drop by lia. f_equal. lia.
  - apply Hold. lia.
Qed.

Lemma grow_indirect2 s m0 d2 :
  usable s T -> 156 < n1 -> m0 = Z.max n0 156 - 156 ->
  st_blocks s !! zth T 157 = Some d2 ->
  (forall k, 0 <= k < nsubs m0 -> word_at 4 d2 (Z.to_nat k) = zth T (sub_pos k)) ->
  subs_done T (st_blocks s) m0 ->
  pwp (block_modify (zth T 157) 0 BLOCK_SZ (fun d2 =>
        r ← fill_indirect2 (Z.to_nat (n1 - 156 - m0)) (m0 / 128) (m0 mod 128) ((n1 - 156) / 128)
              ((n1 - 156) mod 128) d2 (drop (Z.to_nat (after m0)) T);
        Ret (fst r, tt)))
    (fun _ s' => tree_frame T n1 s s' /\ table (st_blocks s') (zth T 157) (subs n1) (fun k => zth T (158 + 129 * k)) /\
       subs_done T (st_blocks s') (n1 - 156) /\ st_blocks s' !! zth T 28 = st_blocks s !! zth T 28) s.
Proof.
  intros Hu H156 Hm0 Hd2 Hold Hdone. pose proof (tree_len_big n1 H156) as Hbig.
  assert (forall k, 0 <= k < nsubs (n1 - 156) -> 158 <= sub_pos k < Z.of_nat (length T)) as Hsub.
  { intros k Hk. pose proof (sub_in T (n1 - 156) ltac:(lia) k Hk). unfold sub_pos in *. lia. }
  assert (158 <= Z.of_nat (length T)) as H158.
  { rewrite Hlen, Hbig. unfold after, nsubs. pose proof (Z.div_pos (n1 - 156 + 127) 128). lia. }
  assert (zth T 157 ∈ T) as Hin by (apply zth_elem; lia).
  destruct (usable_lockable s T _ Hu Hin) as (d0 & Hl & Hok).
  assert (d0 = d2) as -> by (pose proof (lk_block _ _ _ Hl); congruence).
  eapply pwp_block_modify; [exact Hl|done|]. rewrite slice_full by apply Hok. apply pwp_bind.
  apply fill_indirect2_spec; [done|done|lia|lia|lia|lia|done|done|exact Hdone| |].
  { intros k Hk. pose proof (Hsub k Hk). destruct (usable_lockable s T (zth T (sub_pos k)) Hu) as (d & [Hb Hf Hr] & Hokd).
    { apply zth_elem. lia. }
    exists d. split; [|done]. split; cbn; [done| |destruct Hu; unfold BLOCK_CACHE_SIZE; lia].
    rewrite not_elem_of_cons. split; [|done]. apply zth_ne; [done|lia|lia|lia]. }
  intros d2' s' Hok2 Hw2 Hdone2 (Hh & Hfs & Hfr) Hlk2. apply pwp_ret. split; [done|]. cbn [fst snd].
  rewrite overwrite_full by (apply Hok || apply Hok2).
  assert (subs n1 = nsubs (n1 - 156)) as Hns by done.
  split_and!.
  - split; [done|]. split; [done|]. split.
    + intros id Hid. cbn. rewrite lookup_insert_ne by (intros <-; apply Hid; right; auto). rewrite Hfr; [done|].
      intros k Hk <-. apply Hid. right. split; [done|]. right. exists k. done.
    + intros L [HlL HuL]. split; [done|]. intros id Hid. destruct (HuL id Hid) as [Hf (d & Hd & Hokd)]. split; [done|].
      cbn. destruct (decide (zth T 157 = id)) as [<-|Hne]; [rewrite lookup_insert_eq; eauto|].
      rewrite lookup_insert_ne by done.
      destruct (decide (Exists (fun k => zth T (sub_pos k) = id) (seqZ 0 (nsubs (n1 - 156))))) as [Hex|Hno].
      * apply Exists_exists in Hex as (k & Hk%elem_of_seqZ & <-).
        destruct (Hlk2 k ltac:(lia)) as (d3 & [Hb3 _ _] & Hok3). eauto.
      * rewrite Hfr; [cbn; eauto|]. intros k Hk E. apply Hno, Exists_exists. exists k. split; [apply elem_of_seqZ; lia|done].
  - cbn. apply table_eq; [done|]. rewrite Hns. exact Hw2.
  - intros k Hk. cbn. apply table_ne; [|by apply Hdone2]. apply zth_ne; [done| |lia|]; pose proof (Hsub k Hk); lia.
  - cbn. rewrite lookup_insert_ne by (apply zth_ne; [done|lia|lia|lia]). rewrite Hfr; [done|].
    intros k Hk. pose proof (Hsub k Hk). apply zth_ne; [done|lia|lia|lia].
Qed.

End Grow.

Lemma subs_done_tree T bs n : 156 < n ->
  subs_done T bs (n - 156) <->
  (forall k, 0 <= k < subs n ->
    table bs (zth T (158 + 129 * k)) (Z.min (n - 156 - 128 * k) 128) (fun r => zth T (159 + 129 * k + r))).
Proof. intros H. unfold subs_done, sub_pos. by replace (nsubs (n - 156)) with (subs n) by done. Qed.

Definition same_kind (i i' : DiskInode) : Prop := di_type i' = di_type i /\ di_parent_inode i' = di_parent_inode i.

Lemma inode_ok_build i i' : inode_ok i -> length (di_direct i') = 28%nat -> is_u32 (di_size i') ->
  Forall is_u32 (di_direct i') -> is_u32 (di_indirect1 i') -> is_u32 (di_indirect2 i') -> same_kind i i' -> inode_ok i'.
Proof.
  intros [_ _ Hp] Hl Hs Hd H1 H2 [_ Ep]. split; [done| |by rewrite Ep].
  constructor; [done|]. apply Forall_app. split; [done|]. repeat (apply Forall_cons_2; [done|]). apply Forall_nil_2.
Qed.

Lemma inode_ok_fields i : inode_ok i -> Forall is_u32 (di_direct i) /\ is_u32 (di_indirect1 i) /\ is_u32 (di_indirect2 i).
Proof.
  intros [_ Hw _]. apply Forall_cons in Hw as [_ Hw]. apply Forall_app in Hw as [Hd Hi].
  apply Forall_cons in Hi as [H1 Hi]. apply Forall_cons in Hi as [H2 _]. done.
Qed.

Lemma Forall_zth (P : Z -> Prop) l : (forall k, 0 <= k < Z.of_nat (length l) -> P (zth l k)) -> Forall P l.
Proof.
  intros H. apply Forall_forall. intros x Hx. apply list_elem_of_lookup in Hx as [k Hk].
  pose proof (lookup_lt_Some _ _ _ Hk). specialize (H (Z.of_nat k) ltac:(lia)). unfold zth in H.
  rewrite Nat2Z.id, Hk in H. exact H.
Qed.

Lemma increase_size_spec s i l new_blocks new_size Q :
  let n0 := DiskInode_data_blocks i in
  let n1 := DiskInode__data_blocks new_size in
  let T := l ++ new_blocks in
  0 <= di_size i <= new_size -> new_size <= 16540 * 512 ->
  tree (st_blocks s) i l n0 -> Z.of_nat (length l) = tree_len n0 -> Z.of_nat (length T) = tree_len n1 ->
  NoDup T -> Forall is_u32 T -> usable s T ->
  (forall i' s', tree (st_blocks s') i' T n1 -> di_size i' = new_size -> same_kind i i' ->
     tree_frame T n1 s s' -> (inode_ok i -> inode_ok i') -> Q i' s') ->
  pwp (DiskInode_increase_size i new_size new_blocks) Q s.
Proof.
  intros n0 n1 T Hsz Hmax Htree Hl HT Hnd Hu32 Hu HQ.
  assert (0 <= n0 <= n1 /\ n1 <= 16540) as [Hn Hn1].
  { unfold n0, n1, DiskInode_data_blocks. destruct (data_blocks_spec (di_size i)) as [-> ?]; [lia|].
    destruct (data_blocks_spec new_size) as [-> ?]; [lia|]. zdiv_lia. }
  assert (tree (st_blocks s) i T n0) as [Tl Td T1 T2 T3].
  { apply (tree_ext _ _ l); [lia| |done]. intros k Hk. unfold T. symmetry. apply zth_app_l. lia. }
  assert (new_blocks = drop (Z.to_nat (tree_len n0)) T) as Enew.
  { unfold T. rewrite drop_app_length' by lia. done. }
  clearbody T. subst new_blocks. clear Htree. unfold DiskInode_increase_size. fold n0. cbn [di_direct set_size DiskInode_data_blocks di_size]. fold n1.
  change INODE_DIRECT_COUNT with 28. change INODE_INDIRECT1_COUNT with 128.
  change (DiskInode_data_blocks (set_size i new_size)) with n1.
  pose proof (tree_len_mono n0 n1 Hn) as Hmono.
  assert (n0 <= 28 -> tree_len n0 = n0) as L0 by (intros; unfold tree_len; destruct (Z.ltb_spec 28 n0), (Z.ltb_spec 156 n0); lia).
  assert (n1 <= 28 -> tree_len n1 = n1) as L1 by (intros; unfold tree_len; destruct (Z.ltb_spec 28 n1), (Z.ltb_spec 156 n1); lia).
  assert (28 < n0 <= 156 -> tree_len n0 = n0 + 1) as L2 by (intros; unfold tree_len; destruct (Z.ltb_spec 28 n0), (Z.ltb_spec 156 n0); lia).
  pose proof (tree_len_mid n1) as Hmid.
  apply pwp_bind. apply fill_direct_spec; [lia|lia|done|lia| |].
  { rewrite length_drop. destruct (decide (28 < n1)); [|lia]. lia. }
  intros direct' Hd' Hdir. cbn beta iota zeta.
  assert (forall k, 0 <= k < Z.min n1 28 -> zth direct' k = zth T k) as Hdirect.
  { intros k Hk. rewrite Hdir by lia. destruct (Z.leb_spec n0 k), (Z.ltb_spec k (Z.min n1 28)); cbn; try lia.
    - rewrite zth_drop by lia. f_equal. lia.
    - apply Td. lia. }
  assert (inode_ok i -> Forall is_u32 direct') as Hdu.
  { intros (Hdi & _ & _)%inode_ok_fields. apply Forall_zth. intros k Hk. rewrite Hdir by lia.
    destruct (_ && _); [unfold zth; destruct (drop _ T !! _) as [x|] eqn:E; [|by unfold is_u32; cbn]
      |rewrite Forall_forall in Hdi; apply Hdi, zth_elem; lia].
    rewrite Forall_forall in Hu32. apply Hu32. rewrite lookup_drop in E. by eapply list_elem_of_lookup_2. }
  assert (is_u32 new_size) as Hns32 by (unfold is_u32; lia).
  clear Hdir. destruct (Z.ltb_spec 28 n1) as [H28|H28].
  2: { apply pwp_ret. apply HQ; [|done|done|apply tree_frame_refl|].
       - split; cbn; [done|done|lia|lia|lia].
       - intros Hio. pose proof (inode_ok_fields i Hio) as (_ & ? & ?). apply (inode_ok_build i); cbn; auto. done. }
  set (cur := Z.max n0 28 - 28). set (p := if decide (n0 <= 28) then 29 else tree_len n0).
  apply pwp_bind. apply (pwp_mono _ (fun r s' => s' = s /\ exists i1, r = (i1, drop (Z.to_nat p) T) /\
    di_direct i1 = direct' /\ di_indirect1 i1 = zth T 28 /\ di_indirect2 i1 = di_indirect2 i /\ di_size i1 = new_size /\ same_kind i i1)).
  { destruct (Z.eqb_spec (Z.max n0 (Z.min n1 28)) 28) as [E|E].
    - rewrite drop_drop. pwp_simpl. exists (zth T 28). split.
      + rewrite head_zth by (rewrite length_drop; lia). rewrite <- (Z2Nat.id (Z.of_nat _)), Nat2Z.id in * by lia.
        replace (Z.to_nat (tree_len n0) + Z.to_nat (Z.min n1 28 - n0))%nat with (Z.to_nat 28) by lia.
        by rewrite zth_drop by lia.
      + split; [done|]. exists (set_indirect1 (set_direct (set_size i new_size) direct') (zth T 28)).
        split; [|by repeat split]. f_equal. rewrite tail_drop, drop_drop. f_equal. unfold p. case_decide; lia.
    - apply pwp_ret. split; [done|]. exists (set_direct (set_size i new_size) direct'). split.
      + f_equal. rewrite drop_drop. f_equal. unfold p. case_decide; lia.
      + split; [done|]. split; [apply T1; lia|by repeat split]. }
  intros r s0 (-> & i1 & -> & Hi1 & Hi2 & Hi3 & Hi4 & Hi5). cbn beta iota zeta.
  assert (u32_wrap (Z.max n0 (Z.min n1 28) - 28) = cur) as -> by (unfold u32_wrap, cur; rewrite Z.mod_small; lia).
  assert (exists d, st_blocks s !! zth T 28 = Some d /\ forall k, 0 <= k < Z.min cur 128 -> word_at 4 d (Z.to_nat k) = zth T (29 + k)) as (d & Hd & Hold).
  { destruct (decide (28 < n0)) as [H|H].
    - destruct (T1 H) as (_ & d & Hd & _ & Hk). exists d. split; [done|]. intros k Hkk. apply Hk. unfold cur in Hkk. lia.
    - destruct (usable_lockable s T (zth T 28) Hu) as (d & [Hd _ _] & _); [apply zth_elem; lia|]. exists d. split; [done|]. unfold cur. lia. }
  rewrite Hi2. apply pwp_bind. eapply pwp_mono; [apply (grow_indirect1 T n0 n1 Hn HT Hu32 s p cur d Hu H28); [done| |done|done]|].
  { intros H. unfold p, cur. case_decide; lia. }
  cbn beta. intros r s1 (-> & d1 & -> & Hd1 & Hw1).
  cbn beta iota zeta. set (s1 := set_block (zth T 28) d1 s).
  assert (tree_frame T n1 s s1) as Hf1 by (apply tree_frame_set; [by left|done]).
  assert (table (st_blocks s1) (zth T 28) (Z.min (n1 - 28) 128) (fun k => zth T (29 + k))) as Ht1 by (by apply table_eq).
  destruct (Z.ltb_spec 128 (n1 - 28)) as [H156|H156].
  2: { apply pwp_ret. apply HQ; [|done|done|done|].
       - split; [by rewrite Hi1|by rewrite Hi1|done|lia|lia].
       - intros Hio. pose proof (inode_ok_fields i Hio) as (_ & ? & ?).
         apply (inode_ok_build i); rewrite ?Hi1, ?Hi2, ?Hi3, ?Hi4; auto. by apply u32_zth. }
  set (m0 := Z.max n0 156 - 156). assert (Z.min (n1 - 28) 128 = 128) as -> by lia.
  assert (156 < n0 -> tree_len n0 = after m0) as L3.
  { intros H. replace m0 with (n0 - 156) by (unfold m0; lia). by apply tree_len_big. }
  pose proof (tree_len_big n1 ltac:(lia)) as Hbig.
  assert (157 < tree_len n1) as H157.
  { rewrite Hbig. unfold after, nsubs. pose proof (Z.div_pos (n1 - 156 + 127) 128). lia. }
  apply pwp_bind. apply (pwp_mono _ (fun r s' => s' = s1 /\ exists i2, r = (i2, drop (Z.to_nat (after m0)) T) /\
    di_direct i2 = direct' /\ di_indirect1 i2 = zth T 28 /\ di_indirect2 i2 = zth T 157 /\ di_size i2 = new_size /\ same_kind i i2)).
  { destruct (Z.eqb_spec (Z.max cur 128) 128) as [E|E].
    - rewrite drop_drop. replace (Z.to_nat p + Z.to_nat (128 - cur))%nat with (Z.to_nat 157) by (unfold p, cur in *; case_decide; lia).
      pwp_simpl. exists (zth T 157). split; [rewrite head_zth by (rewrite length_drop; lia); by rewrite zth_drop by lia|].
      split; [done|]. exists (set_indirect2 i1 (zth T 157)). split; [|destruct Hi5; by repeat split].
      f_equal. rewrite tail_drop, drop_drop. f_equal. replace m0 with 0 by (unfold m0, cur in *; lia). done.
    - apply pwp_ret. split; [done|]. exists i1. split.
      + f_equal. rewrite drop_drop. f_equal. rewrite <- L3 by (unfold cur in *; lia). unfold p, cur in *. case_decide; lia.
      + repeat split; try done; try apply Hi5. rewrite Hi3. apply T2. unfold cur in *. lia. }
  intros r s2 (-> & i2 & -> & Hj1 & Hj2 & Hj3 & Hj4 & Hj5). cbn beta iota zeta.
  assert (u32_wrap (Z.max cur 128 - 128) = m0) as -> by (unfold u32_wrap, cur, m0; rewrite Z.mod_small; lia).
  replace (n1 - 28 - 128) with (n1 - 156) by lia. rewrite Hj3.
  assert (usable s1 T) as Hu1 by (by apply Hf1).
  assert (zth T 157 <> zth T 28) as Hne by (apply zth_ne; [done|lia|lia|lia]).
  assert (forall k, 0 <= k < nsubs m0 -> 156 < n0 /\ nsubs m0 = subs n0 /\ zth T (sub_pos k) <> zth T 28) as Hk0.
  { intros k Hk. unfold m0 in *. assert (156 < n0) as H0.
    { destruct (decide (156 < n0)); [done|]. replace (Z.max n0 156 - 156) with 0 in Hk by lia. change (nsubs 0) with 0 in Hk. lia. }
    split; [done|]. replace (Z.max n0 156) with n0 in * by lia. split; [done|].
    assert (sub_pos k < Z.of_nat (length T)).
    { apply (sub_in T (n1 - 156)); [lia|]. split; [lia|]. apply Z.lt_le_trans with (nsubs (n0 - 156)); [lia|].
      unfold nsubs. apply Z.div_le_mono; lia. }
    apply zth_ne; [done|unfold sub_pos in *; lia|lia|unfold sub_pos; lia]. }
  assert (exists d2, st_blocks s1 !! zth T 157 = Some d2 /\
    forall k, 0 <= k < nsubs m0 -> word_at 4 d2 (Z.to_nat k) = zth T (sub_pos k)) as (d2 & Hd2 & Hold2).
  { unfold s1. cbn. rewrite lookup_insert_ne by done. destruct (decide (156 < n0)) as [H|H].
    - destruct (T2 H) as (_ & d2 & Hd2 & _ & Hk). exists d2. split; [done|]. intros k Hkk.
      destruct (Hk0 k Hkk) as (_ & Ens & _). apply Hk. lia.
    - destruct (usable_lockable s T (zth T 157) Hu) as (d2 & [Hd2 _ _] & _); [apply zth_elem; lia|].
      exists d2. split; [done|]. intros k Hkk. destruct (Hk0 k Hkk). done. }
  apply pwp_bind. eapply pwp_mono; [apply (grow_indirect2 T n0 n1 Hn Hn1 HT Hnd Hu32 s1 m0 d2 Hu1); [lia|done|done|done|]|].
  { intros k Hk. destruct (Hk0 k Hk) as (H0 & Ens & Hnek). unfold s1. cbn. apply table_ne; [done|].
    specialize (T3 H0 k ltac:(lia)). replace m0 with (n0 - 156) by (unfold m0; lia). exact T3. }
  cbn beta. intros [] s3 (Hf3 & Ht2 & Hs2 & H28eq). apply pwp_ret. apply HQ; [|done|done|by apply tree_frame_trans with s1|].
  2: { intros Hio. apply (inode_ok_build i); rewrite ?Hj1, ?Hj2, ?Hj3, ?Hj4; auto; by apply u32_zth. }
  split; rewrite ?Hj1, ?Hj2, ?Hj3; [done|done| |done|intros ?; by apply subs_done_tree].
  intros _. split; [done|]. destruct Ht1 as (d' & Hd1' & Hrest). exists d'. by rewrite H28eq.
Qed.

(** ** Truncating a file *)

Lemma zths_app T a m k : 0 <= m -> 0 <= k ->
  (zth T <$> seqZ a m) ++ (zth T <$> seqZ (a + m) k) = zth T <$> seqZ a (m + k).
Proof. intros. rewrite <- fmap_app, seqZ_app by lia. done. Qed.

Lemma zths_one T a : [zth T a] = zth T <$> seqZ a 1.
Proof. done. Qed.

Lemma zths_join T a b m : 0 <= a -> 0 <= m -> b = a + 1 ->
  ((zth T <$> seqZ 0 a) ++ [zth T a]) ++ (zth T <$> seqZ b m) = zth T <$> seqZ 0 (b + m).
Proof. intros Ha Hm ->. 
  pose proof (zths_app T 0 a 1 Ha ltac:(lia)) as E1. pose proof (zths_app T 0 (a + 1) m ltac:(lia) Hm) as E2.
  rewrite Z.add_0_l in E1, E2. by rewrite zths_one, E1, E2.
Qed.

Lemma clear_direct_spec fuel current limit direct v Q s :
  0 <= current -> limit <= 28 -> length direct = 28%nat -> (Z.to_nat (limit - current) <= fuel)%nat ->
  (forall direct', length direct' = 28%nat -> (Forall is_u32 direct -> Forall is_u32 direct') ->
     Q (direct', v ++ (zth direct <$> seqZ current (limit - current))) s) ->
  pwp (clear_direct fuel current limit direct v) Q s.
Proof.
  revert current direct v. induction fuel as [|fuel IH]; intros current direct v H0 Hl Hd Hf HQ; cbn [clear_direct];
    destruct (Z.ltb_spec current limit) as [Hlt|Hge]; [lia| | |].
  1,3: apply pwp_ret; specialize (HQ direct Hd ltac:(done)); rewrite seqZ_nil in HQ by lia; by rewrite fmap_nil, app_nil_r in HQ.
  apply pwp_bind, pwp_punwrap. exists (zth direct current). split; [apply zth_lookup; lia|].
  apply IH; [lia|done|by rewrite length_insert|lia|]. intros direct' Hd' Hu'.
  specialize (HQ direct' Hd' ltac:(intros Hu; by apply Hu', Forall_insert)).
  rewrite seqZ_cons in HQ by lia. rewrite fmap_cons in HQ. rewrite <- app_assoc.
  replace (Z.pred (limit - current)) with (limit - (current + 1)) in HQ by lia. rewrite <- Z.add_1_r in HQ.
  assert (zth (<[Z.to_nat current := 0]> direct) <$> seqZ (current + 1) (limit - (current + 1)) =
    zth direct <$> seqZ (current + 1) (limit - (current + 1))) as ->; [|exact HQ].
  apply list_fmap_ext. intros j x Hx. apply lookup_seqZ in Hx as [-> Hj]. rewrite zth_insert by lia.
  destruct (Z.eqb_spec (current + 1 + Z.of_nat j) current); [lia|done].
Qed.

Lemma take_indirect1_spec fuel current limit d v Q s :
  0 <= current -> limit <= 128 -> (Z.to_nat (limit - current) <= fuel)%nat ->
  Q (v ++ ((fun k => word_at 4 d (Z.to_nat k)) <$> seqZ current (limit - current))) s ->
  pwp (take_indirect1 fuel current limit d v) Q s.
Proof.
  revert current v. induction fuel as [|fuel IH]; intros current v H0 Hl Hf HQ; cbn [take_indirect1];
    destruct (Z.ltb_spec current limit) as [Hlt|Hge]; [lia| | |].
  1,3: apply pwp_ret; rewrite seqZ_nil in HQ by lia; by rewrite fmap_nil, app_nil_r in HQ.
  apply pwp_bind, table_get_in; [lia|]. apply IH; [lia|done|lia|].
  rewrite seqZ_cons in HQ by lia. rewrite fmap_cons in HQ. rewrite <- app_assoc.
  replace (Z.pred (limit - current)) with (limit - (current + 1)) in HQ by lia. by rewrite <- Z.add_1_r in HQ.
Qed.

(** The first entries of a table are a segment of [T]. *)
Lemma table_words T a bs id m d : table bs id m (fun k => zth T (a + k)) -> bs !! id = Some d ->
  (fun k => word_at 4 d (Z.to_nat k)) <$> seqZ 0 m = zth T <$> seqZ a m.
Proof.
  intros (d' & Hd' & _ & Hk) Hd. assert (d' = d) as -> by congruence.
  apply list_eq. intros j. rewrite !list_lookup_fmap. destruct (decide (Z.of_nat j < m)).
  - rewrite !lookup_seqZ_lt by lia. cbn [fmap option_fmap option_map]. f_equal. rewrite Hk by lia. done.
  - rewrite !lookup_seqZ_ge by lia. done.
Qed.

Lemma entries_seqZ d n : 0 <= n <= 128 -> entries d n = (fun k => word_at 4 d (Z.to_nat k)) <$> seqZ 0 n.
Proof.
  intros H. unfold entries. change INODE_INDIRECT1_COUNT with 128. rewrite Z.min_l by lia.
  apply list_eq. intros j. rewrite !list_lookup_fmap. destruct (decide (Z.of_nat j < n)).
  - rewrite lookup_seq_lt, lookup_seqZ_lt by lia. cbn [fmap option_fmap option_map]. do 2 f_equal. lia.
  - rewrite lookup_seq_ge, lookup_seqZ_ge by lia. done.
Qed.

Lemma take_sub_spec s T k m v (Q : list Z -> Store -> Prop) d :
  lockable s (zth T (sub_pos k)) d -> block_ok d -> 0 <= m <= 128 ->
  table (st_blocks s) (zth T (sub_pos k)) m (fun r => zth T (159 + 129 * k + r)) ->
  Q (v ++ (zth T <$> seqZ (sub_pos k) (1 + m))) s ->
  pwp (take_sub m v (zth T (sub_pos k))) Q s.
Proof.
  intros Hl Hok Hm Ht HQ. unfold take_sub.
  eapply (pwp_modify_pure _ _ _ (fun d1 => (d1, v ++ [zth T (sub_pos k)] ++ entries d1 m))); [exact Hl|done|].
  rewrite slice_full by apply Hok. cbn [fst snd]. rewrite overwrite_full by apply Hok.
  assert (set_block (zth T (sub_pos k)) d s = s) as ->.
  { unfold set_block. rewrite insert_id by apply Hl. by destruct s. }
  rewrite entries_seqZ by done. rewrite (table_words _ _ _ _ _ _ Ht) by apply Hl.
  rewrite <- (zths_app T (sub_pos k) 1 m) in HQ by lia. replace (sub_pos k + 1) with (159 + 129 * k) in HQ by (unfold sub_pos; lia).
  exact HQ.
Qed.

Section Clear.
Context (T : list Z) (n : Z).
Hypothesis Hn : 0 <= n <= 16540.
Hypothesis Hlen : Z.of_nat (length T) = tree_len n.
Hypothesis Hnd : NoDup T.

(** The closure over the double-indirect block. *)
Lemma take_indirect2_spec s d2 v (Q : list Z * list Z -> Store -> Prop) :
  156 < n -> subs_done T (st_blocks s) (n - 156) ->
  (forall k, 0 <= k < nsubs (n - 156) -> exists d, lockable s (zth T (sub_pos k)) d /\ block_ok d) ->
  (forall k, 0 <= k < nsubs (n - 156) -> word_at 4 d2 (Z.to_nat k) = zth T (sub_pos k)) ->
  Q (d2, v ++ (zth T <$> seqZ 158 (tree_len n - 158))) s ->
  pwp (v ← pfold (take_sub INODE_INDIRECT1_COUNT) v (entries d2 ((n - 156) / 128));
       v ← (if 0 <? (n - 156) mod 128
            then entry ← table_get d2 ((n - 156) / 128); take_sub ((n - 156) mod 128) v entry else Ret v);
       Ret (d2, v)) Q s.
Proof.
  intros H156 Hdone Hlk Hw HQ. set (a := (n - 156) / 128) in *. set (b := (n - 156) mod 128) in *.
  assert (n - 156 = 128 * a + b /\ 0 <= a <= 128 /\ 0 <= b < 128) as (En & Ha & Hb) by (unfold a, b; zdiv_lia).
  assert (nsubs (n - 156) = a + (if b =? 0 then 0 else 1)) as Hns by (apply nsubs_div; lia).
  assert (tree_len n - 158 = 129 * a + (if b =? 0 then 0 else 1 + b)) as Hlast.
  { rewrite tree_len_big by done. unfold after. rewrite Hns. destruct (Z.eqb_spec b 0); lia. }
  change INODE_INDIRECT1_COUNT with 128. apply pwp_bind.
  assert (entries d2 a = (fun k => zth T (sub_pos k)) <$> seqZ 0 a) as ->.
  { rewrite entries_seqZ by done. apply list_fmap_ext. intros j x Hx. apply lookup_seqZ in Hx as [-> Hj].
    apply Hw. rewrite Hns. destruct (Z.eqb_spec b 0); lia. }
  eapply pwp_mono; [apply (pwp_pfold (take_sub 128) ((fun k => zth T (sub_pos k)) <$> seqZ 0 a) (fun pre v' s' => s' = s /\
    v' = v ++ (zth T <$> seqZ 158 (129 * Z.of_nat (length pre))))  v s)|].
  - split; [done|]. cbn. by rewrite app_nil_r.
  - intros pre x v' s' Hpre [-> ->]. set (k := Z.of_nat (length pre)).
    assert (x = zth T (sub_pos k) /\ 0 <= k < a) as [-> Hk].
    { apply prefix_lookup_Some with (i := length pre) (x := x) in Hpre; [|by rewrite lookup_app_r, Nat.sub_diag by done].
      rewrite list_lookup_fmap in Hpre. apply fmap_Some in Hpre as (y & Hy & ->). apply lookup_seqZ in Hy as [-> Hy].
      unfold k. split; [do 2 f_equal; lia|lia]. }
    assert (k < nsubs (n - 156)) as HkN by (rewrite Hns; destruct (Z.eqb_spec b 0); lia).
    destruct (Hlk k ltac:(lia)) as (d & Hl & Hok). eapply (take_sub_spec s T k 128); [exact Hl|done|lia| |].
    + eapply table_mono; [|apply (Hdone k); lia]. lia.
    + split; [done|]. rewrite <- app_assoc. unfold sub_pos. rewrite length_app. cbn [length].
      replace (158 + 129 * k) with (158 + 129 * Z.of_nat (length pre)) by (unfold k; lia). rewrite zths_app by lia.
      do 3 f_equal. lia.
  - intros v' s' [-> ->]. rewrite length_fmap, length_seqZ. replace (Z.of_nat (Z.to_nat a)) with a by lia.
    destruct (Z.ltb_spec 0 b) as [Hb0|Hb0].
    + destruct (Z.eqb_spec b 0); [lia|]. apply pwp_bind, pwp_bind, table_get_in; [lia|]. rewrite Hw by lia.
      destruct (Hlk a ltac:(lia)) as (d & Hl & Hok). eapply (take_sub_spec s T a b); [exact Hl|done|lia| |].
      * eapply table_mono; [|apply (Hdone a); lia]. lia.
      * apply pwp_ret. rewrite <- app_assoc. unfold sub_pos. rewrite zths_app by lia. by rewrite Hlast in HQ.
    + destruct (Z.eqb_spec b 0); [|lia]. apply pwp_bind, pwp_ret, pwp_ret. by rewrite Hlast, Z.add_0_r in HQ.
Qed.

Lemma untouched id d s : st_blocks s !! id = Some d ->
  set_held (st_held s) (set_block id d (hold id s)) = s.
Proof. intros H. unfold set_held, set_block. cbn. rewrite insert_id by done. by destruct s. Qed.

Lemma whole_list : zth T <$> seqZ 0 (tree_len n) = T.
Proof. rewrite <- Hlen. apply seqZ_zth. Qed.

Lemma clear_size_spec s i (Q : DiskInode * list Z -> Store -> Prop) :
  DiskInode_data_blocks i = n -> tree (st_blocks s) i T n -> usable s T ->
  (forall i', length (di_direct i') = 28%nat -> di_size i' = 0 -> same_kind i i' -> (inode_ok i -> inode_ok i') -> Q (i', T) s) ->
  pwp (DiskInode_clear_size i) Q s.
Proof.
  intros Hni [Tl Td T1 T2 T3] Hu HQ. unfold DiskInode_clear_size. rewrite Hni. cbn [di_direct set_size].
  change INODE_DIRECT_COUNT with 28. change INODE_INDIRECT1_COUNT with 128. change INODE_INDIRECT2_COUNT with 16384.
  pose proof whole_list as Hwhole. pose proof (tree_len_mid n) as Hmid. pose proof (tree_len_big n) as Hbig.
  apply pwp_bind. apply clear_direct_spec; [done|lia|done|lia|]. intros direct' Hd' Hu'. cbn beta iota zeta.
  assert (forall x1 x2, inode_ok i -> (x1 = 0 \/ x1 = di_indirect1 i) -> (x2 = 0 \/ x2 = di_indirect2 i) ->
    inode_ok (mkInode 0 direct' x1 x2 (di_type i) (di_parent_inode i))) as Hio.
  { intros x1 x2 Hio H1 H2. destruct (inode_ok_fields i Hio) as (Hf1 & Hf2 & Hf3).
    assert (is_u32 0) as H0u by (unfold is_u32; lia).
    eapply (inode_ok_build i); [done|done|done|by apply Hu'|destruct H1 as [->| ->]; done|destruct H2 as [->| ->]; done|done]. }
  assert (zth (di_direct i) <$> seqZ 0 (Z.min n 28 - 0) = zth T <$> seqZ 0 (Z.min n 28)) as ->.
  { rewrite Z.sub_0_r. apply list_fmap_ext. intros j x Hx. apply lookup_seqZ in Hx as [-> Hj]. apply Td. lia. }
  cbn [app]. destruct (Z.ltb_spec 28 n) as [H28|H28].
  2: { apply pwp_ret. replace (Z.min n 28) with (tree_len n); [rewrite Hwhole; apply HQ; [done..|intros Hi; apply Hio; auto]|].
       unfold tree_len. destruct (Z.ltb_spec 28 n), (Z.ltb_spec 156 n); lia. }
  rewrite (Z.min_r n 28) by lia. cbn [di_indirect1 set_direct set_size]. destruct (T1 H28) as [-> Ht1].
  assert (forall k, 0 <= k < tree_len n -> zth T k ∈ T) as Hin by (intros k Hk; apply zth_elem; lia).
  specialize (Hmid H28).
  destruct (usable_lockable s T (zth T 28) Hu) as (d1 & Hl1 & Hok1); [apply Hin; lia|].
  apply pwp_bind. eapply pwp_block_modify; [exact Hl1|done|]. rewrite slice_full by apply Hok1.
  apply pwp_bind. apply take_indirect1_spec; [done|lia|lia|]. rewrite Z.sub_0_r.
  rewrite (table_words T 29 _ _ _ _ Ht1) by apply Hl1. apply pwp_ret. split; [done|]. cbn [fst snd].
  rewrite overwrite_full by apply Hok1.
  assert (set_held (st_held s) (set_block (zth T 28) d1 (hold (zth T 28) s)) = s) as ->.
  { by apply untouched, Hl1. }
  rewrite zths_join by lia. cbn beta iota zeta.
  destruct (Z.ltb_spec 128 (n - 28)) as [H156|H156].
  2: { apply pwp_ret. replace (29 + Z.min (n - 28) 128) with (tree_len n); [rewrite Hwhole; apply HQ; [done..|intros Hi; apply Hio; auto]|].
       unfold tree_len. destruct (Z.ltb_spec 28 n), (Z.ltb_spec 156 n); lia. }
  rewrite (Z.min_r (n - 28) 128) by lia. replace (n - 28 - 128) with (n - 156) by lia. cbn [di_indirect2 set_indirect1 set_direct set_size].
  destruct (T2 ltac:(lia)) as [-> Ht2]. specialize (Hbig ltac:(lia)).
  assert (157 < tree_len n) as H157.
  { rewrite Hbig. unfold after, nsubs. pose proof (Z.div_pos (n - 156 + 127) 128). lia. }
  apply pwp_bind, pwp_passert. split; [apply Z.leb_le; lia|].
  destruct (usable_lockable s T (zth T 157) Hu) as (d2 & Hl2 & Hok2); [apply Hin; lia|].
  apply pwp_bind. eapply pwp_block_modify; [exact Hl2|done|]. rewrite slice_full by apply Hok2.
  assert (forall k, 0 <= k < nsubs (n - 156) -> 158 <= sub_pos k < tree_len n) as Hsub.
  { intros k Hk. pose proof (sub_in T (n - 156) ltac:(lia) k Hk). unfold sub_pos in *. lia. }
  apply take_indirect2_spec; [lia|by apply subs_done_tree; [lia|apply T3; lia]| | |].
  { intros k Hk. specialize (Hsub k Hk). destruct (usable_lockable s T (zth T (sub_pos k)) Hu) as (d & [Hb Hf Hr] & Hokd); [apply Hin; lia|].
    exists d. split; [|done]. split; cbn; [done| |destruct Hu; unfold BLOCK_CACHE_SIZE; lia].
    rewrite not_elem_of_cons. split; [|done]. apply zth_ne; [done|lia|lia|lia]. }
  { intros k Hk. destruct Ht2 as (d' & Hd2' & _ & Hk2). assert (d' = d2) as -> by (pose proof (lk_block _ _ _ Hl2); congruence). by apply Hk2. }
  split; [done|]. cbn [fst snd]. rewrite overwrite_full by apply Hok2.
  assert (set_held (st_held s) (set_block (zth T 157) d2 (hold (zth T 157) s)) = s) as ->.
  { by apply untouched, Hl2. }
  change (29 + 128) with 157. rewrite zths_join by lia.
  replace (158 + (tree_len n - 158)) with (tree_len n) by lia. rewrite Hwhole. apply pwp_ret. apply HQ; [done..|intros Hi; apply Hio; auto].
Qed.

End Clear.

(** ** The properties *)

(** C23: growing a file is exact.  From an inode whose blocks of all kinds are
    [l], [increase_size] with as many fresh blocks as [blocks_num_needed] asks
    for ends with an inode of the new size whose blocks are [l] followed by the
    new ones, in order: data blocks hang from the direct entries, from the
    indirect block and from the low-level blocks of the double-indirect one,
    every new block is used once, and no block but the indirect ones is
    written. *)
Theorem file_growth_exact s i l new_blocks new_size :
  let n1 := DiskInode__data_blocks new_size in
  0 <= di_size i <= new_size -> new_size <= 16540 * 512 ->
  tree (st_blocks s) i l (DiskInode_data_blocks i) ->
  Z.of_nat (length l) = DiskInode_total_blocks (di_size i) ->
  NoDup (l ++ new_blocks) -> Forall is_u32 (l ++ new_blocks) -> usable s (l ++ new_blocks) ->
  pwp (DiskInode_blocks_num_needed i new_size)
    (fun k s' => s' = s /\ k = tree_len n1 - tree_len (DiskInode_data_blocks i)) s /\
  (Z.of_nat (length new_blocks) = tree_len n1 - tree_len (DiskInode_data_blocks i) ->
   pwp (DiskInode_increase_size i new_size new_blocks)
     (fun i' s' => tree (st_blocks s') i' (l ++ new_blocks) n1 /\ di_size i' = new_size /\ same_kind i i' /\
        tree_frame (l ++ new_blocks) n1 s s') s).
Proof.
  intros n1 Hsz Hmax Ht Hl Hnd Hu32 Hu.
  destruct (data_blocks_spec (di_size i)) as [E0 B0]; [lia|]. destruct (data_blocks_spec new_size) as [E1 B1]; [lia|].
  assert (DiskInode__data_blocks (di_size i) <= n1) as Hle by (unfold n1; rewrite E0, E1; apply Z.div_le_mono; lia).
  rewrite total_blocks_spec in Hl by lia. pose proof (tree_len_mono (DiskInode__data_blocks (di_size i)) n1 ltac:(lia)).
  assert (tree_len n1 < 2 ^ 32) as Hs.
  { unfold n1 in *. unfold tree_len. pose proof (subs_bounds (DiskInode__data_blocks new_size)).
    destruct (Z.ltb_spec 28 (DiskInode__data_blocks new_size)), (Z.ltb_spec 156 (DiskInode__data_blocks new_size)); lia. }
  unfold DiskInode_data_blocks in *. split.
  - unfold DiskInode_blocks_num_needed. apply pwp_bind, pwp_passert. split; [apply Z.leb_le; lia|]. apply pwp_ret.
    split; [done|]. rewrite !total_blocks_spec by lia. unfold u32_wrap. apply Z.mod_small. fold n1. lia.
  - intros Hlen. apply (increase_size_spec s i l); [done|done|done|done| |done|done|done|by intros].
    rewrite length_app. fold n1. unfold DiskInode_data_blocks in *. lia.
Qed.

(** A decision procedure for [usable], for concrete stores. *)
Definition block_okb (d : list Z) : bool := (length d =? BLOCK_SZ)%nat && forallb (fun b => (0 <=? b) && (b <? 256)) d.
Definition usableb (s : Store) (T : list Z) : bool :=
  (length (st_held s) <=? 13)%nat &&
  forallb (fun id => negb (existsb (Z.eqb id) (st_held s)) &&
    match st_blocks s !! id with Some d => block_okb d | None => false end) T.

Lemma block_okb_sound d : block_okb d = true -> block_ok d.
Proof.
  intros [Hl Hb]%andb_true_iff. split; [by apply Nat.eqb_eq|]. apply Forall_forall. intros b Hin.
  rewrite forallb_forall in Hb. apply list_elem_of_In in Hin. specialize (Hb b Hin). unfold is_byte. lia.
Qed.

Lemma usableb_sound s T : usableb s T = true -> usable s T.
Proof.
  intros [Hl Hb]%andb_true_iff. split; [by apply Nat.leb_le|]. intros id Hin. rewrite forallb_forall in Hb.
  apply list_elem_of_In in Hin. specialize (Hb id Hin). apply andb_true_iff in Hb as [Hh Hd]. split.
  - intros Hheld. apply negb_true_iff in Hh. apply not_false_iff_true in Hh; [done|]. apply existsb_exists.
    exists id. split; [by apply list_elem_of_In|apply Z.eqb_refl].
  - destruct (st_blocks s !! id) as [d|]; [|done]. exists d. split; [done|]. by apply block_okb_sound.
Qed.

Lemma tree_empty bs t p : tree bs (DiskInode_initialize t p) [] 0.
Proof. split; [done|lia|lia|lia|lia]. Qed.

Definition demo_new : list Z := Z.of_nat <$> seq 5 31.

Lemma demo_new_ok : NoDup demo_new /\ Forall is_u32 demo_new /\ usable demo_store demo_new.
Proof.
  split; [apply NoDup_fmap_2; [intros ? ?; lia|apply NoDup_seq]|]. split.
  - apply Forall_forall. intros x (k & -> & Hk%elem_of_seq)%list_elem_of_fmap. unfold is_u32. lia.
  - apply usableb_sound. vm_compute. reflexivity.
Qed.

(** A new file grown to thirty blocks: one of the thirty-one blocks becomes
    the indirect block. *)
Lemma file_growth_exact_witness : exists i' s',
  run (DiskInode_increase_size (DiskInode_initialize File 0) (30 * 512) demo_new) demo_store = Ok (i', s') /\
  tree (st_blocks s') i' demo_new 30 /\ di_indirect1 i' = 33.
Proof.
  destruct demo_new_ok as (Hn & Hu & Hus).
  destruct (file_growth_exact demo_store (DiskInode_initialize File 0) [] demo_new (30 * 512)) as [_ H];
    [done|done|apply tree_empty|done|done|done|done|].
  destruct (pwp_run _ _ _ (H eq_refl)) as (i' & s' & Hrun & Ht & _). exists i', s'. split; [done|]. split; [done|].
  vm_compute in Hrun. injection Hrun as <- <-. reflexivity.
Defined.

(** Truncation gives back every block.  [clear_size] returns exactly the
    blocks of the inode, of all kinds and in the order in which growth took
    them, as many as [total_blocks] counts for its size; it leaves the inode
    empty and changes no block. *)
Theorem truncation_returns_all s i T :
  di_size i <= 16540 * 512 -> 0 <= di_size i ->
  tree (st_blocks s) i T (DiskInode_data_blocks i) -> NoDup T -> usable s T ->
  Z.of_nat (length T) = DiskInode_total_blocks (di_size i) ->
  pwp (DiskInode_clear_size i) (fun r s' => s' = s /\ snd r = T /\ di_size (fst r) = 0 /\ same_kind i (fst r) /\
    tree (st_blocks s') (fst r) [] (DiskInode_data_blocks (fst r))) s.
Proof.
  intros Hmax H0 Ht Hnd Hu Hlen. rewrite total_blocks_spec in Hlen by lia.
  destruct (data_blocks_spec (di_size i)) as [_ Hb]; [lia|].
  eapply (clear_size_spec T (DiskInode_data_blocks i)); [done|done|done|done|done|done|].
  intros i' Hd Hs Hk _. split_and!; try done; try apply Hk. cbn [fst].
  assert (DiskInode_data_blocks i' = 0) as -> by (unfold DiskInode_data_blocks; by rewrite Hs).
  split; [done|lia|lia|lia|lia].
Qed.

Lemma truncation_returns_all_witness :
  match run (DiskInode_increase_size (DiskInode_initialize File 0) (30 * 512) demo_new) demo_store with
  | Ok (i', s') => exists i'', run (DiskInode_clear_size i') s' = Ok ((i'', demo_new), s')
  | Err _ => False
  end.
Proof.
  destruct demo_new_ok as (Hn & Hu & Hus).
  assert (pwp (DiskInode_increase_size (DiskInode_initialize File 0) (30 * 512) demo_new)
    (fun i' s' => tree (st_blocks s') i' demo_new 30 /\ di_size i' = 30 * 512 /\ usable s' demo_new) demo_store) as H.
  { apply (increase_size_spec demo_store _ [] _ _); try done; [apply tree_empty|].
    intros i' s' Ht Hs _ (_ & _ & _ & Hfr) _. split; [done|]. split; [done|]. by apply Hfr. }
  unfold pwp, wp in H. destruct (run _ _) as [[i' s']|]; [|done]. destruct H as (Ht & Hs & Hus').
  pose proof (truncation_returns_all s' i' demo_new) as Hc. unfold DiskInode_data_blocks in Hc. rewrite Hs in Hc.
  destruct (pwp_run _ _ _ (Hc ltac:(lia) ltac:(lia) Ht Hn Hus' eq_refl)) as ([i'' v] & s'' & Hrun & -> & Hv & _).
  cbn in Hv. rewrite Hv in Hrun. by exists i''.
Defined.
