(* ===== verification/FileData.v ===== *)
(** * File contents (DiskInode::get_block_id, read_at, write_at)

    A file is the bytes of its data blocks in order; [read_at] returns a
    segment of it and [write_at] replaces one, whatever the alignment to
    blocks and whichever of the three levels of the tree the blocks hang
    from. *)

From S2P Require Import Prelude BlockCache Bitmap Layout Tree.

(** The position in the block list of the [k]-th data block. *)
Definition data_pos (k : Z) : Z :=
  if k <? 28 then k else if k <? 156 then k + 1
  else 159 + 129 * ((k - 156) / 128) + (k - 156) mod 128.

Lemma data_pos_inj j k : 0 <= j -> 0 <= k -> data_pos j = data_pos k -> j = k.
Proof.
  intros Hj Hk. unfold data_pos. pose proof (Z.mod_pos_bound (j - 156) 128). pose proof (Z.mod_pos_bound (k - 156) 128).
  destruct (Z.ltb_spec j 28), (Z.ltb_spec j 156), (Z.ltb_spec k 28), (Z.ltb_spec k 156); zdiv_lia.
Qed.

Lemma data_pos_range k n : 0 <= k < n -> 0 <= data_pos k < tree_len n.
Proof.
  intros Hk. unfold data_pos, tree_len. pose proof (subs_bounds n).
  assert (156 <= k -> (k - 156) / 128 < subs n) by (intros; unfold subs; zdiv_lia).
  destruct (Z.ltb_spec k 28), (Z.ltb_spec k 156), (Z.ltb_spec 28 n), (Z.ltb_spec 156 n); zdiv_lia.
Qed.

(** No data block is an indirect block. *)
Lemma data_pos_direct T n m k : NoDup T -> Z.of_nat (length T) = tree_len n -> m <= n -> 0 <= k < n ->
  ~ indirect T m (zth T (data_pos k)).
Proof.
  intros Hn Hl Hmn Hk [[H28 E]|[H156 [E|(j & Hj & E)]]]; pose proof (data_pos_range k n Hk);
    pose proof (tree_len_mid n); pose proof (tree_len_big n); unfold after, nsubs in *.
  - apply zth_inj in E; [|done|lia|lia]. unfold data_pos in E.
    destruct (Z.ltb_spec k 28), (Z.ltb_spec k 156); zdiv_lia.
  - assert (0 <= (n - 156 + 127) / 128) by (apply Z.div_pos; lia).
    apply zth_inj in E; [|done|lia|lia]. unfold data_pos in E.
    destruct (Z.ltb_spec k 28), (Z.ltb_spec k 156); zdiv_lia.
  - assert (subs m <= subs n) by (unfold subs; apply Z.div_le_mono; lia). unfold subs in *.
    pose proof (subs_bounds n). unfold subs in *.
    apply zth_inj in E; [|done|lia|lia]. unfold data_pos in E.
    destruct (Z.ltb_spec k 28), (Z.ltb_spec k 156); zdiv_lia.
Qed.

Lemma get_block_id_spec s i T n k Q :
  tree (st_blocks s) i T n -> usable s T -> Z.of_nat (length T) = tree_len n -> n <= 16540 -> 0 <= k < n ->
  Q (zth T (data_pos k)) s -> pwp (DiskInode_get_block_id i k) Q s.
Proof.
  intros [Tl Td T1 T2 T3] Hu Hlen Hmax Hk HQ. unfold DiskInode_get_block_id, data_pos in *.
  change INODE_DIRECT_COUNT with 28. change INDIRECT1_BOUND with 156. change INODE_INDIRECT1_COUNT with 128.
  pose proof (tree_len_mid n) as Hmid. pose proof (tree_len_big n) as Hbig.
  destruct (Z.ltb_spec k 28) as [H28|H28].
  { apply pwp_punwrap. exists (zth (di_direct i) k). split; [apply zth_lookup; lia|]. by rewrite Td by lia. }
  destruct (Z.ltb_spec k 156) as [H156|H156].
  - destruct (T1 ltac:(lia)) as (-> & d & Hd & Hok & Hw).
    destruct (usable_lockable s T (zth T 28) Hu) as (d' & Hl & _); [apply zth_elem; lia|].
    assert (d' = d) as -> by (pose proof (lk_block _ _ _ Hl); congruence).
    eapply pwp_block_read; [exact Hl|done|]. rewrite slice_full by apply Hok. apply table_get_in; [lia|].
    split; [done|]. rewrite Hw by lia. replace (29 + (k - 28)) with (k + 1) by lia. by destruct s.
  - destruct (T2 ltac:(lia)) as (-> & d & Hd & Hok & Hw). set (a := (k - 156) / 128) in *. set (b := (k - 156) mod 128) in *.
    assert (0 <= a < subs n /\ 0 <= b < 128 /\ 128 * a + b = k - 156) as (Ha & Hb & Eab) by (unfold a, b, subs; zdiv_lia).
    specialize (Hbig ltac:(lia)). unfold after in Hbig. assert (nsubs (n - 156) = subs n) as Ens by done.
    assert (subs n <= 128) by (unfold subs; zdiv_lia).
    destruct (usable_lockable s T (zth T 157) Hu) as (d' & Hl & _); [apply zth_elem; lia|].
    assert (d' = d) as -> by (pose proof (lk_block _ _ _ Hl); congruence).
    apply pwp_bind. eapply pwp_block_read; [exact Hl|done|]. rewrite slice_full by apply Hok. apply table_get_in; [lia|].
    split; [done|]. rewrite Hw by lia. destruct (T3 ltac:(lia) a Ha) as (d1 & Hd1 & Hok1 & Hw1).
    pose proof (subs_bounds n ltac:(lia)).
    destruct (usable_lockable s T (zth T (158 + 129 * a)) Hu) as (d1' & Hl1 & _); [apply zth_elem; lia|].
    assert (d1' = d1) as -> by (pose proof (lk_block _ _ _ Hl1); congruence).
    assert (set_held (st_held s) (hold (zth T 157) s) = s) as -> by (by destruct s).
    eapply pwp_block_read; [exact Hl1|done|]. rewrite slice_full by apply Hok1. apply table_get_in; [lia|].
    split; [done|]. rewrite Hw1 by lia. by destruct s.
Qed.

(** ** The bytes of a file *)

(** Byte [x] of the file with the blocks [T]. *)
Definition file_byte (bs : gmap Z block) (T : list Z) (x : Z) : Z :=
  match bs !! zth T (data_pos (x / 512)) with
  | Some d => zth d (x mod 512)
  | None => 0
  end.

Definition file_bytes (bs : gmap Z block) (T : list Z) (from len : Z) : list Z :=
  file_byte bs T <$> seqZ from len.

Lemma length_file_bytes bs T a m : 0 <= m -> Z.of_nat (length (file_bytes bs T a m)) = m.
Proof. intros. unfold file_bytes. rewrite length_fmap, length_seqZ. lia. Qed.

Lemma file_bytes_app bs T a m k : 0 <= m -> 0 <= k ->
  file_bytes bs T a m ++ file_bytes bs T (a + m) k = file_bytes bs T a (m + k).
Proof. intros. unfold file_bytes. rewrite <- fmap_app, seqZ_app by lia. done. Qed.

(** A segment inside one block. *)
Lemma file_bytes_block bs T a m d : 0 <= a -> 0 <= m -> a mod 512 + m <= 512 ->
  bs !! zth T (data_pos (a / 512)) = Some d -> length d = BLOCK_SZ ->
  slice (Z.to_nat (a mod 512)) (Z.to_nat m) d = file_bytes bs T a m.
Proof.
  intros Ha Hm Hfit Hd Hl. apply list_eq. intros j. unfold file_bytes. rewrite list_lookup_fmap.
  pose proof (Z.mod_pos_bound a 512). unfold BLOCK_SZ in Hl.
  destruct (decide (Z.of_nat j < m)) as [Hj|Hj].
  - rewrite slice_lookup by lia. rewrite lookup_seqZ_lt by lia. cbn [fmap option_fmap option_map].
    unfold file_byte.
    assert ((a + Z.of_nat j) / 512 = a / 512 /\ (a + Z.of_nat j) mod 512 = a mod 512 + Z.of_nat j) as [-> ->] by zdiv_lia.
    rewrite Hd. rewrite <- zth_lookup by lia. f_equal. lia.
  - rewrite lookup_seqZ_ge by lia. cbn. unfold slice. apply lookup_take_ge. lia.
Qed.

(** A file whose [n] data blocks hang from the inode [i]. *)
Record file (s : Store) (i : DiskInode) (T : list Z) (n : Z) : Prop := {
  fl_tree : tree (st_blocks s) i T n;
  fl_usable : usable s T;
  fl_len : Z.of_nat (length T) = tree_len n;
  fl_max : n <= 16540;
  fl_nodup : NoDup T;
  fl_size : 0 <= di_size i <= 512 * n
}.

Lemma file_block s i T n k : file s i T n -> 0 <= k < n ->
  exists d, lockable s (zth T (data_pos k)) d /\ block_ok d.
Proof.
  intros Hf Hk. apply (usable_lockable s T); [apply Hf|]. apply zth_elem.
  pose proof (data_pos_range k n Hk). rewrite (fl_len _ _ _ _ Hf). lia.
Qed.

Lemma u32_small k n : n <= 16540 -> 0 <= k < n -> u32_wrap k = k.
Proof. intros. unfold u32_wrap. apply Z.mod_small. lia. Qed.

(** Where the loops stop in the block of [start]. *)
Lemma block_end start end_ : 0 <= start < end_ ->
  let e := Z.min ((start / 512 + 1) * 512) end_ in
  start < e <= end_ /\ start mod 512 + (e - start) <= 512 /\
  (e < end_ -> e = (start / 512 + 1) * 512 /\ e / 512 = start / 512 + 1).
Proof.
  intros H e. unfold e. assert (start mod 512 = start - 512 * (start / 512)) as Em by (rewrite Z.mod_eq; lia).
  assert (512 * (start / 512) <= start < 512 * (start / 512) + 512) as B by zdiv_lia.
  split; [lia|]. split; [lia|]. intros Hlt. rewrite Z.min_l by lia.
  split; [done|]. by rewrite Z.div_mul.
Qed.

Lemma overwrite_next (buf : list Z) a b : (length a + length b <= length buf)%nat ->
  overwrite (length a) b (overwrite 0 a buf) = overwrite 0 (a ++ b) buf.
Proof. intros. apply (overwrite_app 0 a b buf). lia. Qed.

Lemma read_loop_spec s i T n fuel off start end_ buf Q :
  file s i T n -> 0 <= off <= start -> start < end_ -> end_ <= 512 * n ->
  end_ - off <= Z.of_nat (length buf) -> (end_ - 1) / 512 - start / 512 < Z.of_nat fuel ->
  Q (end_ - off, overwrite 0 (file_bytes (st_blocks s) T off (end_ - off)) buf) s ->
  pwp (read_loop fuel i start end_ (start / 512) (start - off)
        (overwrite 0 (file_bytes (st_blocks s) T off (start - off)) buf)) Q s.
Proof.
  intros Hf Hoff Hse Hen Hbuf Hfuel HQ. revert start Hoff Hse Hfuel.
  induction fuel as [|fuel IH]; intros start Hoff Hse Hfuel; [zdiv_lia|].
  cbn [read_loop]. destruct (block_end start end_ ltac:(lia)) as (He & Hfit & Hnext). cbv zeta in *.
  set (e := Z.min ((start / 512 + 1) * 512) end_) in *.
  pose proof (length_file_bytes (st_blocks s) T off (start - off) ltac:(lia)) as Hlfb.
  apply pwp_bind, pwp_passert. split; [rewrite length_overwrite by lia; lia|].
  assert (0 <= start / 512 < n) as Hk by zdiv_lia.
  rewrite (u32_small (start / 512) n) by (done || apply Hf). apply pwp_bind.
  eapply get_block_id_spec; [apply Hf|apply Hf|apply Hf|apply Hf|done|].
  destruct (file_block _ _ _ _ _ Hf Hk) as (d & Hl & Hok).
  apply pwp_bind. eapply pwp_block_read; [exact Hl|done|]. rewrite slice_full by apply Hok.
  apply pwp_bind, pwp_passert. split; [by apply Z.leb_le|]. apply pwp_ret. split; [done|].
  assert (set_held (st_held s) (hold (zth T (data_pos (start / 512))) s) = s) as -> by (by destruct s).
  rewrite (file_bytes_block (st_blocks s) T start (e - start) d); [|lia|lia|lia|apply Hl|apply Hok].
  pose proof (length_file_bytes (st_blocks s) T start (e - start) ltac:(lia)) as Hlsrc.
  replace (Z.to_nat (start - off)) with (length (file_bytes (st_blocks s) T off (start - off))) by lia.
  rewrite overwrite_next by lia.
  replace (file_bytes (st_blocks s) T start (e - start)) with (file_bytes (st_blocks s) T (off + (start - off)) (e - start)) by (f_equal; lia).
  rewrite file_bytes_app by lia. replace (start - off + (e - start)) with (e - off) by lia.
  destruct (Z.eqb_spec e end_) as [->|Hne]; [by apply pwp_ret|].
  destruct (Hnext ltac:(lia)) as (Ee & Ed). rewrite <- Ed. apply IH; [lia|lia|lia].
Qed.

Lemma read_at_spec s i T n off buf Q :
  file s i T n -> 0 <= off -> off + Z.of_nat (length buf) < 2 ^ 64 ->
  let m := Z.max 0 (Z.min (off + Z.of_nat (length buf)) (di_size i) - off) in
  Q (m, overwrite 0 (file_bytes (st_blocks s) T off m) buf) s ->
  pwp (DiskInode_read_at i off buf) Q s.
Proof.
  intros Hf Hoff Hlen m HQ. unfold DiskInode_read_at, usize_wrap. rewrite Z.mod_small by lia.
  destruct (Z.leb_spec (Z.min (off + Z.of_nat (length buf)) (di_size i)) off) as [Hle|Hlt].
  - assert (m = 0) as E by lia. rewrite E in HQ. apply pwp_ret. unfold file_bytes in HQ. rewrite seqZ_nil in HQ by lia. exact HQ.
  - assert (m = Z.min (off + Z.of_nat (length buf)) (di_size i) - off) as E by lia. rewrite E in HQ.
    pose proof (fl_size _ _ _ _ Hf).
    pose proof (read_loop_spec s i T n (Z.to_nat ((Z.min (off + Z.of_nat (length buf)) (di_size i) - off) / 512 + 2)) off off
      (Z.min (off + Z.of_nat (length buf)) (di_size i)) buf Q Hf) as Hr.
    rewrite Z.sub_diag in Hr. unfold file_bytes in Hr at 2. rewrite seqZ_nil in Hr by lia.
    apply Hr; [lia|lia|lia|lia|zdiv_lia|exact HQ].
Qed.

(** ** Writing *)

(** Only data blocks change. *)
Definition data_frame (T : list Z) (n : Z) (s s' : Store) : Prop :=
  st_held s' = st_held s /\ st_fs s' = st_fs s /\
  (forall id, (forall k, 0 <= k < n -> zth T (data_pos k) <> id) -> st_blocks s' !! id = st_blocks s !! id) /\
  (forall L, usable s L -> usable s' L).

Lemma data_frame_trans T n s1 s2 s3 : data_frame T n s1 s2 -> data_frame T n s2 s3 -> data_frame T n s1 s3.
Proof.
  intros (H1 & F1 & B1 & U1) (H2 & F2 & B2 & U2). split_and!; [congruence|congruence| |auto].
  intros id Hid. by rewrite B2, B1 by done.
Qed.

Lemma table_frame bs bs' id m f : bs' !! id = bs !! id -> table bs id m f -> table bs' id m f.
Proof. intros E (d & Hd & H). exists d. by rewrite E. Qed.

(** The tree only reads indirect blocks. *)
Lemma tree_indirect bs bs' i T n : (forall id, indirect T n id -> bs' !! id = bs !! id) -> tree bs i T n -> tree bs' i T n.
Proof.
  intros He [Tl Td T1 T2 T3]. split; [done|done| | |].
  - intros H. destruct (T1 H) as [-> Ht]. split; [done|]. eapply table_frame; [|exact Ht]. apply He. by left.
  - intros H. destruct (T2 H) as [-> Ht]. split; [done|]. eapply table_frame; [|exact Ht]. apply He. right. auto.
  - intros H k Hk. eapply table_frame; [|by apply T3]. apply He. right. eauto.
Qed.

Lemma tree_len_pos n : 0 <= n -> 0 <= tree_len n.
Proof. intros H. pose proof (tree_len_mono n n). lia. Qed.

Lemma file_data_frame s s' i T n : file s i T n -> data_frame T n s s' -> file s' i T n.
Proof.
  intros [H1 H2 H3 H4 H5 H6] (Hh & Hfs & Hb & Hu). split; [|by apply Hu|done|done|done|done].
  eapply tree_indirect; [|exact H1]. intros id Hid. apply Hb. intros k Hk <-.
  by apply (data_pos_direct T n n k H5 H3) in Hid.
Qed.

(** One data block is replaced. *)
Lemma file_set s i T n k d' : file s i T n -> 0 <= k < n -> block_ok d' ->
  let s' := set_block (zth T (data_pos k)) d' s in
  data_frame T n s s' /\
  forall x, 0 <= x < 512 * n ->
    file_byte (st_blocks s') T x = if x / 512 =? k then zth d' (x mod 512) else file_byte (st_blocks s) T x.
Proof.
  intros Hf Hk Hd' s'. split.
  - split; [done|]. split; [done|]. split.
    + intros id Hid. cbn. rewrite lookup_insert_ne by auto. done.
    + intros L HL. by apply usable_set.
  - intros x Hx. unfold file_byte. cbn. destruct (Z.eqb_spec (x / 512) k) as [->|Hne].
    + by rewrite lookup_insert_eq.
    + rewrite lookup_insert_ne; [done|]. assert (0 <= x / 512 < n) as Hxn by zdiv_lia.
      pose proof (data_pos_range k n Hk). pose proof (data_pos_range _ _ Hxn).
      apply zth_ne; [apply Hf|rewrite (fl_len _ _ _ _ Hf); lia|rewrite (fl_len _ _ _ _ Hf); lia|].
      intros E. apply data_pos_inj in E; lia.
Qed.

Lemma zth_overwrite (d src : list Z) i x : 0 <= i -> 0 <= x -> (Z.to_nat i + length src <= length d)%nat ->
  zth (overwrite (Z.to_nat i) src d) x =
  if (i <=? x) && (x <? i + Z.of_nat (length src)) then zth src (x - i) else zth d x.
Proof.
  intros Hi Hx Hl. unfold zth. destruct (Z.leb_spec i x), (Z.ltb_spec x (i + Z.of_nat (length src))); cbn.
  - replace (Z.to_nat x) with (Z.to_nat i + Z.to_nat (x - i))%nat by lia.
    by rewrite overwrite_lookup_eq by lia.
  - by rewrite overwrite_lookup_ne by lia.
  - by rewrite overwrite_lookup_ne by lia.
  - by rewrite overwrite_lookup_ne by lia.
Qed.

Lemma zth_slice (d : list Z) i m x : 0 <= i -> 0 <= x < m -> zth (slice (Z.to_nat i) (Z.to_nat m) d) x = zth d (i + x).
Proof. intros Hi Hx. unfold zth. rewrite slice_lookup by lia. do 2 f_equal. lia. Qed.

(** The bytes after a write of [buf] at [off] up to [e]. *)
Definition written (s s' : Store) (T : list Z) (n off e : Z) (buf : list Z) : Prop :=
  forall x, 0 <= x < 512 * n -> file_byte (st_blocks s') T x =
    if (off <=? x) && (x <? e) then zth buf (x - off) else file_byte (st_blocks s) T x.

(** The write inside one block. *)
Lemma write_block_spec s i T n off start e buf Q :
  file s i T n -> 0 <= off <= start -> start <= e -> start / 512 < n -> e - off <= Z.of_nat (length buf) ->
  start mod 512 + (e - start) <= 512 -> Forall is_byte buf ->
  (forall s', data_frame T n s s' ->
     (forall x, 0 <= x < 512 * n -> file_byte (st_blocks s') T x =
        if (start <=? x) && (x <? e) then zth buf (x - off) else file_byte (st_blocks s) T x) -> Q tt s') ->
  pwp (block_modify (zth T (data_pos (start / 512))) 0 BLOCK_SZ (fun d =>
        passert (start - off + (e - start) <=? Z.of_nat (length buf));;
        passert (start mod 512 + (e - start) <=? 512);;
        Ret (overwrite (Z.to_nat (start mod 512))
               (slice (Z.to_nat (start - off)) (Z.to_nat (e - start)) buf) d, tt))) Q s.
Proof.
  intros Hf Hoff Hse Hn Hbuf Hfit Hbytes HQ. assert (0 <= start / 512 < n) as Hk by zdiv_lia.
  pose proof (Z.mod_pos_bound start 512 ltac:(lia)) as Hm.
  destruct (file_block _ _ _ _ _ Hf Hk) as (d & Hl & Hok).
  eapply pwp_block_modify; [exact Hl|done|]. rewrite slice_full by apply Hok.
  apply pwp_bind, pwp_passert. split; [apply Z.leb_le; lia|]. apply pwp_bind, pwp_passert. split; [by apply Z.leb_le|].
  apply pwp_ret. split; [done|]. cbn [fst snd]. set (src := slice _ _ buf).
  assert (length src = Z.to_nat (e - start)) as Hsrc by (unfold src; rewrite length_slice; lia).
  destruct Hok as [Hdl Hdb]. unfold BLOCK_SZ in Hdl.
  assert (block_ok (overwrite (Z.to_nat (start mod 512)) src d)) as Hok'.
  { split; [unfold BLOCK_SZ; rewrite length_overwrite; lia|]. apply Forall_overwrite; [by apply Forall_slice|done]. }
  rewrite overwrite_full by (done || apply Hok').
  destruct (file_set _ _ _ _ _ _ Hf Hk Hok') as [Hfr Hbyte].
  set (s' := set_held _ _). assert (s' = set_block (zth T (data_pos (start / 512))) (overwrite (Z.to_nat (start mod 512)) src d) s) as -> by (by destruct s).
  apply HQ; [done|]. intros x Hx. rewrite Hbyte by done.
  destruct (Z.eqb_spec (x / 512) (start / 512)) as [E|E].
  - assert (x = 512 * (start / 512) + x mod 512 /\ start = 512 * (start / 512) + start mod 512 /\ 0 <= x mod 512 < 512) as (Ex & Es & Hxm) by zdiv_lia.
    rewrite zth_overwrite by lia. rewrite Hsrc.
    assert (((start mod 512 <=? x mod 512) && (x mod 512 <? start mod 512 + Z.of_nat (Z.to_nat (e - start)))) =
      ((start <=? x) && (x <? e))) as ->.
    { clear -Ex Es Hxm Hm Hse. destruct (Z.leb_spec (start mod 512) (x mod 512)), (Z.ltb_spec (x mod 512) (start mod 512 + Z.of_nat (Z.to_nat (e - start)))),
        (Z.leb_spec start x), (Z.ltb_spec x e); cbn; try done; lia. }
    destruct ((start <=? x) && (x <? e)) eqn:Ec; [|unfold file_byte; by rewrite E, (lk_block _ _ _ Hl)].
    apply andb_true_iff in Ec as [Ec1%Z.leb_le Ec2%Z.ltb_lt]. unfold src. rewrite zth_slice by lia. f_equal. lia.
  - assert (((start <=? x) && (x <? e)) = false) as ->; [|done]. apply not_true_iff_false. intros Hc. apply E.
    assert (512 * (start / 512) <= start < 512 * (start / 512) + 512) by zdiv_lia.
    assert (start mod 512 = start - 512 * (start / 512)) by (rewrite Z.mod_eq; lia).
    symmetry. apply (Z.div_unique x 512 (start / 512) (x - 512 * (start / 512))); lia.
Qed.

Lemma write_loop_spec fuel s i T n off start end_ buf Q :
  file s i T n -> 0 <= off <= start -> start <= end_ -> end_ <= 512 * n -> start / 512 < n ->
  end_ - off <= Z.of_nat (length buf) -> Forall is_byte buf ->
  (end_ - 1) / 512 - start / 512 < Z.of_nat fuel ->
  (0 < Z.of_nat fuel) ->
  (forall s', data_frame T n s s' ->
     (forall x, 0 <= x < 512 * n -> file_byte (st_blocks s') T x =
        if (start <=? x) && (x <? end_) then zth buf (x - off) else file_byte (st_blocks s) T x) -> Q (end_ - off) s') ->
  pwp (write_loop fuel i start end_ (start / 512) (start - off) buf) Q s.
Proof.
  revert s start. induction fuel as [|fuel IH]; intros s start Hf Hoff Hse Hen Hk Hbuf Hbytes Hfuel Hpos HQ; [lia|].
  cbn [write_loop]. set (e := Z.min ((start / 512 + 1) * 512) end_).
  assert (start <= e <= end_ /\ start mod 512 + (e - start) <= 512) as [He Hfit].
  { destruct (decide (start < end_)) as [H|H]; [destruct (block_end start end_ ltac:(lia)) as (? & ? & _); unfold e; lia|].
    unfold e. assert (start = end_) as -> by lia. zdiv_lia. }
  rewrite (u32_small (start / 512) n) by (apply Hf || zdiv_lia). apply pwp_bind.
  eapply get_block_id_spec; [apply Hf|apply Hf|apply Hf|apply Hf|zdiv_lia|].
  apply pwp_bind. apply (write_block_spec s i T n off start e); [done|done|lia|done|lia|done|done|]. intros s1 Hfr Hb1.
  replace (start - off + (e - start)) with (e - off) by lia.
  destruct (Z.eqb_spec e end_) as [Ee|Hne]; [rewrite Ee in *; apply pwp_ret; by apply HQ|].
  destruct (block_end start end_ ltac:(lia)) as (Hs & _ & Hnext). cbv zeta in *. fold e in Hnext, Hs.
  destruct (Hnext ltac:(lia)) as (E1 & E2). rewrite <- E2.
  apply IH; [by eapply file_data_frame|lia|lia|lia|zdiv_lia|lia|done|lia|zdiv_lia|].
  intros s2 Hfr2 Hb2. apply HQ; [by eapply data_frame_trans|]. intros x Hx. rewrite Hb2, Hb1 by done.
  destruct (Z.leb_spec e x), (Z.ltb_spec x end_), (Z.leb_spec start x), (Z.ltb_spec x e); cbn; try done; lia.
Qed.

Lemma write_at_spec s i T n off buf Q :
  file s i T n -> 0 <= off -> off + Z.of_nat (length buf) <= di_size i -> off / 512 < n -> Forall is_byte buf ->
  (forall s', data_frame T n s s' -> written s s' T n off (off + Z.of_nat (length buf)) buf ->
     Q (Z.of_nat (length buf)) s') ->
  pwp (DiskInode_write_at i off buf) Q s.
Proof.
  intros Hf Hoff Hlen Hk Hbytes HQ. pose proof (fl_size _ _ _ _ Hf). pose proof (fl_max _ _ _ _ Hf).
  unfold DiskInode_write_at, usize_wrap. rewrite Z.mod_small by lia. rewrite Z.min_l by lia.
  apply pwp_bind, pwp_passert. split; [apply Z.leb_le; lia|].
  pose proof (write_loop_spec (Z.to_nat ((off + Z.of_nat (length buf) - off) / 512 + 2)) s i T n off off (off + Z.of_nat (length buf)) buf Q Hf) as Hw.
  rewrite Z.sub_diag in Hw. apply Hw; [lia|lia|lia|done|lia|done|zdiv_lia|zdiv_lia|].
  replace (off + Z.of_nat (length buf) - off) with (Z.of_nat (length buf)) by lia. exact HQ.
Qed.

(** A file is a byte array.  Writing [buf] at [off] inside a file and then
    reading any buffer at any offset returns, up to the end of the file, the
    bytes of [buf] where they were written and the old bytes elsewhere; the
    counts are the bytes transferred, the rest of the reader's buffer is
    untouched, and no block outside the file's data changes. *)
Theorem file_write_then_read s i T n off buf off2 buf2 :
  file s i T n -> 0 <= off -> off + Z.of_nat (length buf) <= di_size i -> off / 512 < n -> Forall is_byte buf ->
  0 <= off2 -> off2 + Z.of_nat (length buf2) < 2 ^ 64 ->
  let m := Z.max 0 (Z.min (off2 + Z.of_nat (length buf2)) (di_size i) - off2) in
  pwp (w ← DiskInode_write_at i off buf; r ← DiskInode_read_at i off2 buf2; mret (w, r))
    (fun r s' => fst r = Z.of_nat (length buf) /\ fst (snd r) = m /\ data_frame T n s s' /\
       exists bytes, snd (snd r) = overwrite 0 bytes buf2 /\ Z.of_nat (length bytes) = m /\
         forall x, 0 <= x < m -> zth bytes x =
           if (off <=? off2 + x) && (off2 + x <? off + Z.of_nat (length buf)) then zth buf (off2 + x - off)
           else file_byte (st_blocks s) T (off2 + x)) s.
Proof.
  intros Hf Hoff Hlen Hk Hb Hoff2 Hlen2 m. pose proof (fl_size _ _ _ _ Hf) as Hsz.
  apply pwp_bind. eapply write_at_spec; [exact Hf|done|done|done|done|]. intros s1 Hfr Hw.
  apply pwp_bind. eapply read_at_spec; [by eapply file_data_frame|done|done|]. apply pwp_mret. cbn [fst snd].
  split; [done|]. split; [done|]. split; [done|]. eexists. split; [reflexivity|]. fold m.
  split; [apply length_file_bytes; lia|]. intros x Hx. rewrite <- Hw by lia.
  unfold zth, file_bytes. rewrite list_lookup_fmap, lookup_seqZ_lt by lia. cbn [fmap option_fmap option_map default].
  rewrite Z2Nat.id by lia. done.
Qed.

Definition demo_file : DiskInode := mkInode 1024 ([5; 6] ++ replicate 26 0) 0 0 File 0.

Lemma demo_file_ok : file demo_store demo_file [5; 6] 2.
Proof.
  split; [|by apply usableb_sound; vm_compute|done|done| |by cbn].
  - split; [done| |lia|lia|lia]. intros k Hk. assert (k = 0 \/ k = 1) as [-> | ->] by (cbn in Hk; lia); done.
  - apply NoDup_cons. split; [|apply NoDup_singleton]. intros E%list_elem_of_singleton. discriminate.
Qed.

(** A write of 20 bytes across the boundary of two blocks. *)
Lemma file_write_then_read_witness : exists s',
  run (w ← DiskInode_write_at demo_file 505 (replicate 20 7); r ← DiskInode_read_at demo_file 500 (replicate 10 1); mret (w, r))
    demo_store = Ok ((20, (10, [0; 0; 0; 0; 0; 7; 7; 7; 7; 7])), s').
Proof.
  destruct (pwp_run _ _ _ (file_write_then_read demo_store demo_file [5; 6] 2 505 (replicate 20 7) 500 (replicate 10 1)
    demo_file_ok ltac:(done) ltac:(done) ltac:(done) ltac:(by apply Forall_replicate) ltac:(done) ltac:(done)))
    as (r & s' & Hrun & _).
  exists s'. rewrite Hrun. vm_compute in Hrun. injection Hrun as <- <-. reflexivity.
Defined.
