(* ===== verification/Codec.v ===== *)
(** * Encodings of the on-disk structures (easy-fs/src/layout.rs)

    Round trips of the disk inode and of the directory entry through their
    bytes, and the length limit of names. *)

From S2P Require Import Prelude BlockCache Bitmap Layout.

(** ** Words of a concatenation *)

Lemma length_words (l : list Z) : length (l ≫= le_bytes 4) = (4 * length l)%nat.
Proof. induction l as [|x l IH]; [done|]. rewrite bind_cons, length_app, length_le_bytes, IH. cbn. lia. Qed.

Lemma slice_app_r {A} (l l' : list A) i n : (length l <= i)%nat -> slice i n (l ++ l') = slice (i - length l) n l'.
Proof. intros H. unfold slice. by rewrite drop_app_ge by lia. Qed.

Lemma slice_app_l {A} (l l' : list A) i n : (i + n <= length l)%nat -> slice i n (l ++ l') = slice i n l.
Proof.
  intros H. unfold slice. rewrite drop_app_le by lia. rewrite take_app_le; [done|]. rewrite length_drop. lia.
Qed.

Lemma word_at_words l rest k x : l !! k = Some x -> is_u32 x -> word_at 4 ((l ≫= le_bytes 4) ++ rest) k = x.
Proof.
  intros Hk Hx. unfold word_at. revert k Hk. induction l as [|y l IH]; intros k Hk; [by rewrite lookup_nil in Hk|].
  rewrite bind_cons, <- app_assoc. destruct k as [|k]; cbn in Hk.
  - injection Hk as ->. rewrite slice_app_l by (rewrite length_le_bytes; lia). unfold slice. rewrite Nat.mul_0_r, drop_0.
    rewrite take_ge by (rewrite length_le_bytes; lia). apply le_val_bytes_small. exact Hx.
  - rewrite slice_app_r by (rewrite length_le_bytes; lia). rewrite length_le_bytes.
    replace (4 * S k - 4)%nat with (4 * k)%nat by lia. by apply IH.
Qed.

Lemma word_at_tail (pre : list Z) x k : length pre = (4 * k)%nat -> is_u32 x -> word_at 4 (pre ++ le_bytes 4 x) k = x.
Proof.
  intros Hl Hx. unfold word_at. rewrite slice_app_r by lia. rewrite Hl, Nat.sub_diag. unfold slice.
  rewrite drop_0, take_ge by (rewrite length_le_bytes; lia). by apply le_val_bytes_small.
Qed.

(** ** The disk inode *)

Lemma DiskInode_store_words i d : DiskInode_store i d =
  ((di_size i :: di_direct i ++ [di_indirect1 i; di_indirect2 i]) ≫= le_bytes 4) ++
  ([type_byte (di_type i)] ++ slice 125 3 d ++ le_bytes 4 (di_parent_inode i)).
Proof.
  unfold DiskInode_store. rewrite bind_cons, bind_app, !bind_cons. change ([] ≫= le_bytes 4) with (@nil Z).
  rewrite app_nil_r. by rewrite <- !app_assoc.
Qed.

Lemma DiskInode_store_length i d : inode_ok i -> length d = INODE_SZ -> length (DiskInode_store i d) = INODE_SZ.
Proof.
  intros [Hd _ _] Hl. unfold INODE_SZ in *. rewrite DiskInode_store_words, !length_app, length_words, length_le_bytes.
  rewrite length_slice by lia. cbn. rewrite length_app, Hd. done.
Qed.

Lemma DiskInode_load_store i d : inode_ok i -> length d = INODE_SZ -> DiskInode_load (DiskInode_store i d) = Some i.
Proof.
  intros [Hd Hw Hp] Hl. unfold INODE_SZ in Hl. unfold DiskInode_load. rewrite DiskInode_store_words.
  set (ws := di_size i :: di_direct i ++ [di_indirect1 i; di_indirect2 i]) in *.
  assert (length ws = 31%nat) as Hws by (unfold ws; cbn; rewrite length_app, Hd; done).
  assert (forall k x, ws !! k = Some x -> forall rest, word_at 4 ((ws ≫= le_bytes 4) ++ rest) k = x) as Hword.
  { intros k x Hk rest. apply word_at_words; [done|]. rewrite Forall_forall in Hw. by eapply Hw, list_elem_of_lookup_2. }
  rewrite lookup_app_r by (rewrite length_words, Hws; unfold TYPE_OFFSET; lia). rewrite length_words, Hws.
  cbn [Nat.sub TYPE_OFFSET Nat.mul Nat.add lookup list_lookup app].
  assert (type_of_byte (type_byte (di_type i)) = Some (di_type i)) as Ht by (by destruct (di_type i)).
  cbn [mbind option_bind]. rewrite Ht. cbn [mbind option_bind].
  rewrite (Hword 0%nat (di_size i)) by done.
  rewrite (Hword 29%nat (di_indirect1 i)) by (change ((di_direct i ++ [di_indirect1 i; di_indirect2 i]) !! 28%nat = Some (di_indirect1 i)); rewrite lookup_app_r by lia; by rewrite Hd).
  rewrite (Hword 30%nat (di_indirect2 i)) by (change ((di_direct i ++ [di_indirect1 i; di_indirect2 i]) !! 29%nat = Some (di_indirect2 i)); rewrite lookup_app_r by lia; by rewrite Hd).
  assert (forall rest, word_at 4 ((ws ≫= le_bytes 4) ++ rest) <$> seq 1 28 = di_direct i) as ->.
  { intros rest. apply list_eq. intros k. rewrite list_lookup_fmap. destruct (decide (k < 28)%nat) as [Hk|Hk].
    - rewrite lookup_seq_lt by done. cbn [fmap option_fmap option_map].
      destruct (lookup_lt_is_Some_2 (di_direct i) k ltac:(lia)) as [x Hx]. rewrite Hx. f_equal. apply Hword.
      change ((di_direct i ++ [di_indirect1 i; di_indirect2 i]) !! k = Some x). by rewrite lookup_app_l by lia.
    - rewrite lookup_seq_ge by lia. cbn. symmetry. apply lookup_ge_None. lia. }
  change (type_byte (di_type i) :: slice 125 3 d ++ le_bytes 4 (di_parent_inode i)) with
    ((type_byte (di_type i) :: slice 125 3 d) ++ le_bytes 4 (di_parent_inode i)).
  rewrite app_assoc. rewrite word_at_tail; [by destruct i| |done].
  rewrite length_app, length_words, Hws. cbn [length]. rewrite length_slice by lia. done.
Qed.

(** An inode survives its bytes: storing a well-formed inode over the 132
    bytes of its slot and loading it gives the same inode, the slot keeps its
    size, and the padding bytes keep their contents; three slots fit in a block
    without overlapping. *)
Theorem inode_codec_roundtrip i d :
  inode_ok i -> length d = INODE_SZ ->
  DiskInode_load (DiskInode_store i d) = Some i /\ length (DiskInode_store i d) = INODE_SZ /\
  slice 125 3 (DiskInode_store i d) = slice 125 3 d /\
  (forall j k : nat, (j < k < BLOCK_SZ / INODE_SZ)%nat -> (j * INODE_SZ + INODE_SZ <= k * INODE_SZ)%nat) /\
  (BLOCK_SZ / INODE_SZ * INODE_SZ <= BLOCK_SZ)%nat.
Proof.
  intros Hi Hl. split; [by apply DiskInode_load_store|]. split; [by apply DiskInode_store_length|].
  split; [|split; [unfold INODE_SZ; lia|vm_compute; lia]].
  destruct Hi as [Hd _ _]. unfold INODE_SZ in Hl. rewrite DiskInode_store_words.
  rewrite slice_app_r by (rewrite length_words; cbn; rewrite length_app, Hd; cbn; lia). rewrite length_words.
  cbn [length]. rewrite length_app, Hd. change (125 - 4 * S (28 + length [di_indirect1 i; di_indirect2 i]))%nat with 1%nat.
  rewrite slice_app_r by done. rewrite slice_app_l by (rewrite length_slice; cbn; lia).
  unfold slice at 1. cbn [length Nat.sub]. rewrite drop_0. apply take_ge. rewrite length_slice; lia.
Qed.

Lemma inode_codec_roundtrip_witness :
  DiskInode_load (DiskInode_store (mkInode 700 ([9; 12] ++ replicate 26 0) 0 0 Directory 3) (replicate INODE_SZ 255)) =
  Some (mkInode 700 ([9; 12] ++ replicate 26 0) 0 0 Directory 3).
Proof.
  apply (inode_codec_roundtrip (mkInode 700 ([9; 12] ++ replicate 26 0) 0 0 Directory 3) (replicate INODE_SZ 255)); [|done].
  split; [done| |by unfold is_u32; cbn]. cbn. repeat apply Forall_cons_2; try apply Forall_nil_2; unfold is_u32; lia.
Defined.

(** ** The directory entry *)

Definition name_ok (name : list Z) : Prop :=
  Forall (fun b => b <> 0 /\ is_byte b) name /\ utf8_valid name = true.

Lemma position_zero name n : Forall (fun b => b <> 0 /\ is_byte b) name -> (0 < n)%nat ->
  position (fun b => b =? 0) (name ++ replicate n 0) = Some (length name).
Proof.
  intros Hf Hn. induction Hf as [|b name [Hb _] _ IH]; cbn; [by destruct n; [lia|]|].
  rewrite (proj2 (Z.eqb_neq b 0)) by done. by rewrite IH.
Qed.

Lemma dirent_name_bytes name : (length name <= NAME_LENGTH_LIMIT + 1)%nat ->
  overwrite 0 name (replicate (NAME_LENGTH_LIMIT + 1) 0) = name ++ replicate (28 - length name) 0.
Proof. intros H. unfold overwrite. rewrite take_0, app_nil_l, drop_replicate. done. Qed.

Lemma DirEntry_name_new name inum : name_ok name -> (length name <= NAME_LENGTH_LIMIT)%nat ->
  DirEntry_name (mkDirent (name ++ replicate (28 - length name) 0) inum) = Ret name.
Proof.
  intros [Hf Hu] Hl. unfold DirEntry_name, NAME_LENGTH_LIMIT in *. cbn [de_name].
  rewrite position_zero by (done || lia). cbn. rewrite take_app_length, Hu. done.
Qed.

Lemma DirEntry_of_as_bytes e : length (de_name e) = 28%nat -> is_u32 (de_inode_number e) ->
  DirEntry_of_bytes (DirEntry_as_bytes e) = e.
Proof.
  intros Hl Hi. unfold DirEntry_of_bytes, DirEntry_as_bytes. rewrite take_app_length' by done.
  rewrite word_at_tail by (done || lia). by destruct e.
Qed.

(** Names and directory entries.  A name of at most 27 bytes survives the
    32 bytes of its directory entry; a name of exactly 28 bytes is accepted by
    [DirEntry::new] but leaves an entry on which [name] panics; a longer one
    makes [DirEntry::new] panic. *)
Theorem dirent_roundtrip name inum s :
  name_ok name -> is_u32 inum ->
  ((length name <= NAME_LENGTH_LIMIT)%nat ->
     exists e, DirEntry_new name inum = Ret e /\ Z.of_nat (length (DirEntry_as_bytes e)) = DIRENT_SZ /\
       DirEntry_name (DirEntry_of_bytes (DirEntry_as_bytes e)) = Ret name /\
       de_inode_number (DirEntry_of_bytes (DirEntry_as_bytes e)) = inum) /\
  (length name = (NAME_LENGTH_LIMIT + 1)%nat ->
     exists e, DirEntry_new name inum = Ret e /\ run (DirEntry_name (DirEntry_of_bytes (DirEntry_as_bytes e))) s = Err Panic) /\
  ((NAME_LENGTH_LIMIT + 1 < length name)%nat -> run (DirEntry_new name inum) s = Err Panic).
Proof.
  intros Hn Hi. unfold DirEntry_new. split; [|split].
  - intros Hl. rewrite (proj2 (Nat.leb_le _ _)) by lia. cbn [passert mbind prog_mbind prog_bind].
    rewrite dirent_name_bytes by lia. eexists. split; [reflexivity|].
    rewrite DirEntry_of_as_bytes; cbn [de_name de_inode_number]; [|rewrite length_app, length_replicate; unfold NAME_LENGTH_LIMIT in *; lia|done].
    split; [|split; [by apply DirEntry_name_new|done]].
    unfold DirEntry_as_bytes. cbn [de_name de_inode_number]. rewrite !length_app, length_replicate, length_le_bytes.
    unfold DIRENT_SZ, NAME_LENGTH_LIMIT in *. lia.
  - intros Hl. rewrite (proj2 (Nat.leb_le _ _)) by lia. cbn [passert mbind prog_mbind prog_bind].
    rewrite dirent_name_bytes by lia. eexists. split; [reflexivity|]. unfold NAME_LENGTH_LIMIT in Hl.
    rewrite Hl, app_nil_r. rewrite DirEntry_of_as_bytes by (done || (cbn; lia)).
    unfold DirEntry_name. cbn [de_name]. assert (position (fun b => b =? 0) name = None) as ->; [|done].
    apply position_None. destruct Hn as [Hf _]. eapply Forall_impl; [exact Hf|]. intros b [Hb _]. by apply Z.eqb_neq.
  - intros Hl. rewrite (proj2 (Nat.leb_gt _ _)) by lia. done.
Qed.

Lemma dirent_roundtrip_witness :
  (exists e, DirEntry_new [104; 105] 4 = Ret e /\ DirEntry_name (DirEntry_of_bytes (DirEntry_as_bytes e)) = Ret [104; 105]) /\
  run (DirEntry_new (replicate 29 97) 4) demo_store = Err Panic.
Proof.
  split.
  - destruct (dirent_roundtrip [104; 105] 4 demo_store) as [H _].
    + split; [|done]. repeat (constructor; [unfold is_byte; lia|]). constructor.
    + unfold is_u32. lia.
    + destruct (H ltac:(cbn; unfold NAME_LENGTH_LIMIT; lia)) as (e & He & _ & Hname & _). by exists e.
  - destruct (dirent_roundtrip (replicate 29 97) 4 demo_store) as (_ & _ & H).
    + split; [|done]. apply Forall_replicate. unfold is_byte. lia.
    + unfold is_u32. lia.
    + apply H. cbn. unfold NAME_LENGTH_LIMIT. lia.
Defined.
