(* ===== verification/Efs.v ===== *)
(** * The file system's layout on disk (easy-fs/src/efs.rs)

    Block 0 is the super block; then come the inode bitmap, the inode area, the
    data bitmap and the data area.  The mutex around the [EasyFileSystem]
    protects no field that changes after creation, so the record is a value and
    the mutex is the [FsLock] of the programs. *)

From S2P Require Import Prelude BlockCache Bitmap Layout.

Record EasyFileSystem := mkEfs {
  inode_bitmap : Bitmap;
  data_bitmap : Bitmap;
  inode_area_start_block : Z;
  data_area_start_block : Z
}.

Definition inodes_per_block : Z := BSZ / Z.of_nat INODE_SZ.

Definition EasyFileSystem_get_disk_inode_pos (efs : EasyFileSystem) (inode_id : Z) : Z * Z :=
  let block_id := u32_wrap (inode_area_start_block efs + inode_id / inodes_per_block) in
  (block_id, inode_id mod inodes_per_block * Z.of_nat INODE_SZ).

Definition EasyFileSystem_get_data_block_id (efs : EasyFileSystem) (data_block_id : Z) : Z :=
  u32_wrap (data_area_start_block efs + data_block_id).

Definition EasyFileSystem_alloc_inode (efs : EasyFileSystem) : prog Z :=
  r ← Bitmap_alloc (inode_bitmap efs); id ← punwrap r; Ret (u32_wrap id).

(** Return a block ID not ID in the data area. *)
Definition EasyFileSystem_alloc_data (efs : EasyFileSystem) : prog Z :=
  r ← Bitmap_alloc (data_bitmap efs); id ← punwrap r;
  Ret (u32_wrap (u32_wrap id + data_area_start_block efs)).

Definition EasyFileSystem_dealloc_inode (efs : EasyFileSystem) (inode_id : Z) : prog unit :=
  Bitmap_dealloc (inode_bitmap efs) inode_id.

Definition clear_block (block_id : Z) : prog unit :=
  block_modify block_id 0 BLOCK_SZ (fun _ => Ret (replicate BLOCK_SZ 0, tt)).

Definition EasyFileSystem_dealloc_data (efs : EasyFileSystem) (block_id : Z) : prog unit :=
  clear_block block_id;;
  Bitmap_dealloc (data_bitmap efs) (u32_wrap (block_id - data_area_start_block efs)).

(** [new_inode.initialize(type_); new_inode.parent_inode = parent] on a slot
    of the inode area. *)
Definition initialize_inode (pos : Z * Z) (type_ : DiskInodeType) (parent : Z) : prog unit :=
  block_modify (fst pos) (Z.to_nat (snd pos)) INODE_SZ (fun d =>
    Ret (DiskInode_store (DiskInode_initialize type_ parent) d, tt)).

(** The sizes of the areas, computed by [create]. *)
Definition create_areas (total_blocks inode_bitmap_blocks : Z) : SuperBlock :=
  let inode_num := Bitmap_maximum (Bitmap_new 1 inode_bitmap_blocks) in
  let inode_area_blocks := u32_wrap ((inode_num * Z.of_nat INODE_SZ + BSZ - 1) / BSZ) in
  let inode_total_blocks := u32_wrap (inode_bitmap_blocks + inode_area_blocks) in
  let data_total_blocks := u32_wrap (total_blocks - 1 - inode_total_blocks) in
  let data_bitmap_blocks := u32_wrap (data_total_blocks + 4096) / 4097 in
  let data_area_blocks := u32_wrap (data_total_blocks - data_bitmap_blocks) in
  SuperBlock_initialize total_blocks inode_bitmap_blocks inode_area_blocks data_bitmap_blocks data_area_blocks.

(** The file system that a super block describes. *)
Definition efs_of_super (sb : SuperBlock) : EasyFileSystem :=
  let inode_total_blocks := u32_wrap (sb_inode_bitmap_blocks sb + sb_inode_area_blocks sb) in
  mkEfs (Bitmap_new 1 (sb_inode_bitmap_blocks sb))
    (Bitmap_new (u32_wrap (1 + inode_total_blocks)) (sb_data_bitmap_blocks sb))
    (u32_wrap (1 + sb_inode_bitmap_blocks sb))
    (u32_wrap (1 + inode_total_blocks + sb_data_bitmap_blocks sb)).

Definition EasyFileSystem_create (total_blocks inode_bitmap_blocks : Z) : prog EasyFileSystem :=
  let sb := create_areas total_blocks inode_bitmap_blocks in
  let efs := efs_of_super sb in
  (* clear all blocks *)
  pfold (fun _ i => clear_block i) tt (seqZ 0 total_blocks);;
  (* initialize SuperBlock *)
  block_modify 0 0 SUPER_SZ (fun _ => Ret (SuperBlock_store sb, tt));;
  (* create a inode for root node / *)
  id ← EasyFileSystem_alloc_inode efs;
  passert (id =? 0);;
  initialize_inode (EasyFileSystem_get_disk_inode_pos efs 0) Directory 0;;
  block_cache_sync_all;;
  Ret efs.

Definition EasyFileSystem_open : prog EasyFileSystem :=
  block_read 0 0 SUPER_SZ (fun d =>
    let sb := SuperBlock_load d in
    passert (SuperBlock_is_valid sb);;
    Ret (efs_of_super sb)).

(** Where the root inode lives. *)
Definition EasyFileSystem_root_inode (efs : EasyFileSystem) : prog (Z * Z) :=
  with_fs (Ret tt);;
  with_fs (Ret (EasyFileSystem_get_disk_inode_pos efs 0)).
