(* ===== verification/EfsProps.v ===== *)
(** * Creating and opening a file system (easy-fs/src/efs.rs): properties

    What [create] leaves on a device, that [open] reads it back, and when the
    areas it computes are too small. *)

From S2P Require Import Prelude BlockCache Bitmap Layout Codec Efs.

(** ** The super block *)

Definition super_ok (sb : SuperBlock) : Prop :=
  Forall is_u32 [sb_magic sb; sb_total_blocks sb; sb_inode_bitmap_blocks sb; sb_inode_area_blocks sb;
    sb_data_bitmap_blocks sb; sb_data_area_blocks sb].

Lemma SuperBlock_store_words sb : SuperBlock_store sb =
  [sb_magic sb; sb_total_blocks sb; sb_inode_bitmap_blocks sb; sb_inode_area_blocks sb;
   sb_data_bitmap_blocks sb; sb_data_area_blocks sb] ≫= le_bytes 4.
Proof.
  unfold SuperBlock_store. rewrite !bind_cons. change ([] ≫= le_bytes 4) with (@nil Z). by rewrite app_nil_r.
Qed.

Lemma SuperBlock_load_store sb : super_ok sb -> SuperBlock_load (SuperBlock_store sb) = sb.
Proof.
  intros Hok. unfold SuperBlock_load. rewrite SuperBlock_store_words. rewrite <- (app_nil_r (_ ≫= _)).
  unfold super_ok in Hok. rewrite Forall_forall in Hok.
  assert (forall k x, [sb_magic sb; sb_total_blocks sb; sb_inode_bitmap_blocks sb; sb_inode_area_blocks sb;
    sb_data_bitmap_blocks sb; sb_data_area_blocks sb] !! k = Some x ->
    word_at 4 (([sb_magic sb; sb_total_blocks sb; sb_inode_bitmap_blocks sb; sb_inode_area_blocks sb;
    sb_data_bitmap_blocks sb; sb_data_area_blocks sb] ≫= le_bytes 4) ++ []) k = x) as H.
  { intros k x Hk. apply word_at_words; [done|]. by eapply Hok, list_elem_of_lookup_2. }
  rewrite (H 0%nat _ eq_refl), (H 1%nat _ eq_refl), (H 2%nat _ eq_refl), (H 3%nat _ eq_refl), (H 4%nat _ eq_refl), (H 5%nat _ eq_refl).
  by destruct sb.
Qed.

Lemma SuperBlock_store_length sb : length (SuperBlock_store sb) = SUPER_SZ.
Proof. rewrite SuperBlock_store_words, length_words. done. Qed.

(** ** The areas *)

Lemma Bitmap_maximum_eq s b : Bitmap_maximum (Bitmap_new s b) = 4096 * b.
Proof. unfold Bitmap_maximum. cbn [bm_blocks Bitmap_new]. change BLOCK_BITS with 4096. lia. Qed.

(** The numbers [create] computes, when they do not overflow. *)
Record areas_ok (total b : Z) : Prop := {
  ar_b : 1 <= b < 2 ^ 20;
  ar_total : 1 + b + 1056 * b < total < 2 ^ 31
}.

Lemma create_areas_eq total b : areas_ok total b ->
  let dt := total - 1 - 1057 * b in
  create_areas total b = mkSuper EFS_MAGIC total b (1056 * b) ((dt + 4096) / 4097) (dt - (dt + 4096) / 4097) /\
  0 < (dt + 4096) / 4097 <= dt.
Proof.
  intros [Hb Ht] dt. unfold create_areas, SuperBlock_initialize. rewrite Bitmap_maximum_eq.
  unfold u32_wrap. change (Z.of_nat INODE_SZ) with 132.
  assert ((4096 * b * 132 + 512 - 1) / 512 = 1056 * b) as -> by zdiv_lia.
  rewrite (Z.mod_small (1056 * b)), (Z.mod_small (b + 1056 * b)) by lia.
  replace (total - 1 - (b + 1056 * b)) with dt by (unfold dt; lia).
  assert (0 < dt < 2 ^ 31) as Hdt by (unfold dt; lia). clearbody dt.
  rewrite (Z.mod_small dt), (Z.mod_small (dt + 4096)) by lia.
  assert (0 < (dt + 4096) / 4097 <= dt) as Hq by zdiv_lia.
  rewrite (Z.mod_small (dt - _)) by lia. done.
Qed.

Lemma efs_of_create total b : areas_ok total b ->
  let sb := create_areas total b in
  efs_of_super sb = mkEfs (Bitmap_new 1 b) (Bitmap_new (1 + 1057 * b) (sb_data_bitmap_blocks sb)) (1 + b)
    (1 + 1057 * b + sb_data_bitmap_blocks sb).
Proof.
  intros Ha sb. destruct (create_areas_eq total b Ha) as [E Hq]. unfold sb. rewrite E. destruct Ha as [Hb Ht].
  unfold efs_of_super. cbn [sb_inode_bitmap_blocks sb_inode_area_blocks sb_data_bitmap_blocks].
  set (q := (total - 1 - 1057 * b + 4096) / 4097) in *. clearbody q. unfold u32_wrap.
  rewrite (Z.mod_small (b + 1056 * b)), (Z.mod_small (1 + (b + 1056 * b))), (Z.mod_small (1 + b)),
    (Z.mod_small (1 + (b + 1056 * b) + q)) by lia.
  f_equal; [f_equal|]; lia.
Qed.

(** Where inodes are put.  [create] reserves 1056 blocks of inode area for
    each block of the inode bitmap, three inodes to a block: the inodes below
    3168 per bitmap block have distinct slots inside the inode area, but the
    bitmap hands out 4096 per block, and inode number 3168 times the number of
    bitmap blocks already gets the first block of the data bitmap as its
    slot. *)
Theorem inode_area_too_small total b :
  areas_ok total b ->
  let efs := efs_of_super (create_areas total b) in
  (forall i, 0 <= i < 3168 * b ->
     inode_area_start_block efs <= fst (EasyFileSystem_get_disk_inode_pos efs i) < bm_start_block_id (data_bitmap efs)) /\
  (forall i j, 0 <= i < 3168 * b -> 0 <= j < 3168 * b ->
     EasyFileSystem_get_disk_inode_pos efs i = EasyFileSystem_get_disk_inode_pos efs j -> i = j) /\
  3168 * b < Bitmap_maximum (inode_bitmap efs) /\
  EasyFileSystem_get_disk_inode_pos efs (3168 * b) = (bm_start_block_id (data_bitmap efs), 0).
Proof.
  intros Ha efs. unfold efs. rewrite efs_of_create by done. destruct Ha as [Hb Ht].
  unfold EasyFileSystem_get_disk_inode_pos. cbn [inode_area_start_block data_bitmap inode_bitmap bm_start_block_id Bitmap_new].
  change inodes_per_block with 3. change (Z.of_nat INODE_SZ) with 132. unfold u32_wrap.
  assert (forall i, 0 <= i <= 3168 * b -> (1 + b + i / 3) mod 2 ^ 32 = 1 + b + i / 3) as Hm.
  { intros i Hi. apply Z.mod_small. zdiv_lia. }
  split; [|split; [|split]].
  - intros i Hi. cbn [fst]. rewrite Hm by lia. zdiv_lia.
  - intros i j Hi Hj E. rewrite !Hm in E by lia. injection E as E1 E2. zdiv_lia.
  - change (mkBitmap 1 b) with (Bitmap_new 1 b). rewrite Bitmap_maximum_eq. lia.
  - rewrite Hm by lia. replace (3168 * b) with (1056 * b * 3) by lia. rewrite Z.div_mul, Z.mod_mul by lia. f_equal. lia.
Qed.

Lemma inode_area_too_small_witness :
  EasyFileSystem_get_disk_inode_pos (efs_of_super (create_areas 32768 1)) (3168 * 1) = (1058, 0).
Proof. apply (inode_area_too_small 32768 1). split; lia. Defined.

(** ** Creating and opening *)

(** The device has the blocks below [total]. *)
Definition device_ok (s : Store) (total : Z) : Prop :=
  st_held s = [] /\ forall i, 0 <= i < total -> exists d, st_blocks s !! i = Some d /\ block_ok d.

Lemma device_lockable s total i : device_ok s total -> 0 <= i < total -> exists d, lockable s i d /\ block_ok d.
Proof.
  intros [Hh Hd] Hi. destruct (Hd i Hi) as (d & Hb & Hok). exists d. split; [|done].
  split; [done|rewrite Hh; apply not_elem_of_nil|rewrite Hh; unfold BLOCK_CACHE_SIZE; cbn; lia].
Qed.

Lemma device_set s total i d : device_ok s total -> block_ok d -> device_ok (set_block i d s) total.
Proof.
  intros [Hh Hd] Hok. split; [done|]. intros j Hj. cbn. destruct (decide (i = j)) as [->|Hne].
  - exists d. by rewrite lookup_insert_eq.
  - rewrite lookup_insert_ne by done. auto.
Qed.

Lemma zero_block_ok : block_ok (replicate BLOCK_SZ 0).
Proof. split; [by rewrite length_replicate|]. by apply Forall_replicate. Qed.

Lemma clear_block_spec s i d Q : lockable s i d -> block_ok d ->
  Q tt (set_block i (replicate BLOCK_SZ 0) s) -> pwp (clear_block i) Q s.
Proof.
  intros Hl Hok HQ. apply (pwp_modify_pure i 0 BLOCK_SZ (fun _ => (replicate BLOCK_SZ 0, tt)) Q s d); [done|done|].
  cbn [fst snd]. rewrite overwrite_full by (apply Hok || by rewrite length_replicate). exact HQ.
Qed.

Lemma clear_all_spec s total (Q : unit -> Store -> Prop) :
  0 <= total -> device_ok s total ->
  (forall s', device_ok s' total -> st_fs s' = st_fs s ->
     (forall i, 0 <= i < total -> st_blocks s' !! i = Some (replicate BLOCK_SZ 0)) -> Q tt s') ->
  pwp (pfold (fun _ i => clear_block i) tt (seqZ 0 total)) Q s.
Proof.
  intros Ht Hd HQ.
  eapply pwp_mono; [apply (pwp_pfold (fun _ i => clear_block i) (seqZ 0 total) (fun pre _ s' =>
    device_ok s' total /\ st_fs s' = st_fs s /\
    forall i, 0 <= i < Z.of_nat (length pre) -> st_blocks s' !! i = Some (replicate BLOCK_SZ 0)) tt s)|].
  - split; [done|]. split; [done|]. cbn. lia.
  - intros pre x [] s' Hpre (Hd' & Hfs & Hz).
    assert (x = Z.of_nat (length pre) /\ x < total) as [-> Hx].
    { apply prefix_lookup_Some with (i := length pre) (x := x) in Hpre; [|by rewrite lookup_app_r, Nat.sub_diag by done].
      apply lookup_seqZ in Hpre as [-> ?]. lia. }
    destruct (device_lockable s' total (Z.of_nat (length pre)) Hd' ltac:(lia)) as (d & Hl & Hok).
    eapply clear_block_spec; [exact Hl|done|]. split; [by apply device_set, zero_block_ok|]. split; [done|].
    intros i Hi. rewrite length_app in Hi. cbn in Hi |- *. destruct (decide (i = Z.of_nat (length pre))) as [->|Hne].
    + apply lookup_insert_eq.
    + rewrite lookup_insert_ne by done. apply Hz. lia.
  - intros [] s' (Hd' & Hfs & Hz). apply HQ; [done|done|]. intros i Hi. apply Hz. rewrite length_seqZ. lia.
Qed.

Lemma zero_word i : (8 * i + 8 <= BLOCK_SZ)%nat -> word_at 8 (replicate BLOCK_SZ 0) i = 0.
Proof.
  intros Hi. unfold word_at, slice. rewrite drop_replicate, take_replicate.
  replace (8 `min` (BLOCK_SZ - 8 * i))%nat with 8%nat by lia. done.
Qed.

Lemma zero_bit k : 0 <= k < BLOCK_BITS -> block_bit (replicate BLOCK_SZ 0) k = false.
Proof.
  intros Hk. unfold block_bit. rewrite zero_word; [by rewrite Z.bits_0|].
  unfold BLOCK_BITS, BLOCK_SZ in *. assert (0 <= k / 64 < 64) by zdiv_lia. lia.
Qed.

(** A bitmap of zero blocks has no bit set. *)
Lemma zero_bits s bm k : 0 <= k < Bitmap_maximum bm ->
  (forall i, bm_start_block_id bm <= i < bm_start_block_id bm + bm_blocks bm -> st_blocks s !! i = Some (replicate BLOCK_SZ 0)) ->
  bm_bit s bm k = false.
Proof.
  intros Hk Hz. unfold Bitmap_maximum in Hk. pose proof BLOCK_BITS_pos as HB. unfold bm_bit.
  assert (0 <= k / BLOCK_BITS < bm_blocks bm) as Hq by (split; [apply Z.div_pos; lia|apply Z.div_lt_upper_bound; lia]).
  rewrite Hz by lia. apply zero_bit. apply Z.mod_pos_bound. lia.
Qed.

(** What [create] leaves on the device. *)
Record created (total b : Z) (efs : EasyFileSystem) (s : Store) : Prop := {
  cd_device : device_ok s total;
  cd_super : exists d, st_blocks s !! 0 = Some d /\ slice 0 SUPER_SZ d = SuperBlock_store (create_areas total b);
  cd_inodes : forall k, 0 <= k < Bitmap_maximum (inode_bitmap efs) -> bm_bit s (inode_bitmap efs) k = (k =? 0);
  cd_data : forall k, 0 <= k < Bitmap_maximum (data_bitmap efs) -> bm_bit s (data_bitmap efs) k = false;
  cd_root : exists d, st_blocks s !! inode_area_start_block efs = Some d /\
    DiskInode_load (slice 0 INODE_SZ d) = Some (DiskInode_initialize Directory 0)
}.

Lemma device_bm_ok s total bm : device_ok s total -> 0 <= bm_blocks bm -> 0 <= bm_start_block_id bm ->
  bm_start_block_id bm + bm_blocks bm <= total -> bm_ok s bm.
Proof.
  intros Hd H0 H1 H2. split; [done|]. intros i Hi. apply (device_lockable s total); [done|lia].
Qed.

Lemma bm_frame_device s s' bm total : device_ok s total -> bm_ok s' bm -> bm_frame bm s s' -> device_ok s' total.
Proof.
  intros [Hh Hd] Hok (Hh' & _ & Hb & _). split; [congruence|]. intros i Hi.
  destruct (decide (bm_start_block_id bm <= i < bm_start_block_id bm + bm_blocks bm)) as [Hin|Hout].
  - destruct (proj2 Hok (i - bm_start_block_id bm) ltac:(lia)) as (d & Hl & Hokd). exists d. split; [|done].
    pose proof (lk_block _ _ _ Hl) as E. by replace (i - bm_start_block_id bm + bm_start_block_id bm) with i in E by lia.
  - rewrite Hb by done. auto.
Qed.

Lemma initialize_inode_spec s pos t p d Q :
  lockable s (fst pos) d -> block_ok d -> 0 <= snd pos -> snd pos + 132 <= 512 -> is_u32 p ->
  (forall d', block_ok d' -> DiskInode_load (slice (Z.to_nat (snd pos)) INODE_SZ d') = Some (DiskInode_initialize t p) ->
     (forall j n, (j + n <= Z.to_nat (snd pos) \/ Z.to_nat (snd pos) + INODE_SZ <= j)%nat -> slice j n d' = slice j n d) ->
     Q tt (set_block (fst pos) d' s)) ->
  pwp (initialize_inode pos t p) Q s.
Proof.
  intros Hl [Hdl Hdb] H0 H1 Hp HQ. unfold BLOCK_SZ in Hdl.
  assert (inode_ok (DiskInode_initialize t p)) as Hi.
  { split; [done| |done]. cbn. repeat apply Forall_cons_2; try apply Forall_nil_2; unfold is_u32; lia. }
  assert (Z.to_nat (snd pos) + INODE_SZ <= length d)%nat as Hfit by (unfold INODE_SZ; lia).
  pose proof (length_slice (Z.to_nat (snd pos)) INODE_SZ d Hfit) as Hls.
  pose proof (DiskInode_store_length _ (slice (Z.to_nat (snd pos)) INODE_SZ d) Hi Hls) as Hst.
  apply (pwp_modify_pure (fst pos) (Z.to_nat (snd pos)) INODE_SZ (fun d => (DiskInode_store (DiskInode_initialize t p) d, tt)) Q s d);
    [done|unfold BLOCK_SZ, INODE_SZ in *; lia|]. cbn [fst snd]. apply HQ.
  - split; [unfold BLOCK_SZ; rewrite length_overwrite; lia|]. apply Forall_overwrite; [|done].
    rewrite DiskInode_store_words. apply Forall_app. split.
    + apply Forall_bind. apply Forall_forall. intros x _. apply le_bytes_byte.
    + constructor; [destruct t; cbn; unfold is_byte; lia|]. apply Forall_app. split; [by repeat apply Forall_slice|apply le_bytes_byte].
  - pose proof (slice_overwrite_eq (Z.to_nat (snd pos)) (DiskInode_store (DiskInode_initialize t p) (slice (Z.to_nat (snd pos)) INODE_SZ d)) d) as E.
    rewrite Hst in E. rewrite E by lia. by apply DiskInode_load_store.
  - intros j n Hj. apply slice_overwrite_ne; rewrite Hst; lia.
Qed.

Lemma create_spec total b s Q :
  areas_ok total b -> device_ok s total ->
  (forall s', created total b (efs_of_super (create_areas total b)) s' -> st_fs s' = st_fs s ->
     Q (efs_of_super (create_areas total b)) s') ->
  pwp (EasyFileSystem_create total b) Q s.
Proof.
  intros Ha Hd HQ. pose proof Ha as [Hb Ht]. destruct (create_areas_eq total b Ha) as [Esb Hq].
  pose proof (efs_of_create total b Ha) as Eefs. cbv zeta in Eefs. unfold EasyFileSystem_create.
  set (sb := create_areas total b) in *. set (efs := efs_of_super sb) in *.
  assert (sb_data_bitmap_blocks sb = (total - 1 - 1057 * b + 4096) / 4097) as Edb by (by rewrite Esb).
  apply pwp_bind. apply (clear_all_spec s total); [lia|done|]. intros s1 Hd1 Hfs1 Hz.
  (* the super block *)
  destruct (device_lockable s1 total 0 Hd1 ltac:(lia)) as (d0 & Hl0 & Hok0).
  assert (d0 = replicate BLOCK_SZ 0) as -> by (pose proof (lk_block _ _ _ Hl0) as E; rewrite Hz in E by lia; congruence).
  apply pwp_bind. apply (pwp_modify_pure 0 0 SUPER_SZ (fun _ => (SuperBlock_store sb, tt)) _ s1 (replicate BLOCK_SZ 0)); [done|unfold SUPER_SZ, BLOCK_SZ; lia|].
  cbn [fst snd]. pose proof (SuperBlock_store_length sb) as Hlsb. unfold SUPER_SZ in Hlsb.
  set (d0 := overwrite 0 (SuperBlock_store sb) (replicate BLOCK_SZ 0)).
  assert (slice 0 SUPER_SZ d0 = SuperBlock_store sb) as Hslice.
  { unfold SUPER_SZ. rewrite <- Hlsb. apply slice_overwrite_eq. rewrite length_replicate. unfold BLOCK_SZ. lia. }
  assert (block_ok d0) as Hokd0.
  { split; [unfold d0; rewrite length_overwrite; rewrite length_replicate; unfold BLOCK_SZ; lia|].
    apply Forall_overwrite; [|by apply Forall_replicate]. rewrite SuperBlock_store_words. apply Forall_bind, Forall_forall.
    intros x _. apply le_bytes_byte. }
  set (s2 := set_block 0 d0 s1). assert (device_ok s2 total) as Hd2 by (by apply device_set).
  assert (forall i, 1 <= i < total -> st_blocks s2 !! i = Some (replicate BLOCK_SZ 0)) as Hz2.
  { intros i Hi. unfold s2. cbn. rewrite lookup_insert_ne by lia. apply Hz. lia. }
  assert (inode_bitmap efs = Bitmap_new 1 b) as Eib by (by rewrite Eefs).
  assert (inode_area_start_block efs = 1 + b) as Eia by (by rewrite Eefs).
  assert (data_bitmap efs = Bitmap_new (1 + 1057 * b) (sb_data_bitmap_blocks sb)) as Edbm by (by rewrite Eefs).
  (* the root inode *)
  assert (forall k, 0 <= k < Bitmap_maximum (inode_bitmap efs) -> bm_bit s2 (inode_bitmap efs) k = false) as Hib0.
  { intros k Hk. apply zero_bits; [done|]. rewrite Eib. cbn. intros i Hi. apply Hz2. lia. }
  apply pwp_bind. unfold EasyFileSystem_alloc_inode. apply pwp_bind. apply Bitmap_alloc_spec.
  { rewrite Eib. apply (device_bm_ok s2 total); cbn; [done|lia|lia|lia]. }
  { intros Hall. exfalso. specialize (Hall 0). rewrite Hib0 in Hall; [by specialize (Hall ltac:(rewrite Eib, Bitmap_maximum_eq; lia))|].
    rewrite Eib, Bitmap_maximum_eq. lia. }
  intros p s3 Hp _ Hlow Hnew Hbok3 Hfr3.
  assert (p = 0) as ->.
  { destruct (decide (p = 0)); [done|]. specialize (Hlow 0 ltac:(lia)). by rewrite Hib0 in Hlow by lia. }
  pwp_simpl. exists 0. split; [done|]. apply pwp_ret. pwp_simpl. split; [done|].
  pose proof (bm_frame_device _ _ _ _ Hd2 Hbok3 Hfr3) as Hd3.
  assert (EasyFileSystem_get_disk_inode_pos efs 0 = (1 + b, 0)) as Epos.
  { unfold EasyFileSystem_get_disk_inode_pos. rewrite Eia. unfold u32_wrap. f_equal.
    change (0 / inodes_per_block) with 0. rewrite Z.mod_small by lia. lia. }
  rewrite Epos. destruct (device_lockable s3 total (1 + b) Hd3 ltac:(lia)) as (dr & Hlr & Hokr).
  eapply initialize_inode_spec; [exact Hlr|done|done|done|unfold is_u32; lia|]. cbn [fst snd].
  intros dr' Hokr' Hload _. apply pwp_bind, pwp_sync_all; [apply Hd3|]. apply pwp_ret. destruct Hfr3 as (_ & Hfs3 & Hout3 & _).
  assert (forall i, ~ (1 <= i < 1 + b) -> i <> 1 + b -> st_blocks (set_block (1 + b) dr' s3) !! i = st_blocks s2 !! i) as Hout.
  { intros i H1 H2. cbn. rewrite lookup_insert_ne by lia. apply Hout3. rewrite Eib. exact H1. }
  apply HQ; [|by rewrite <- Hfs1]. split.
  - by apply device_set.
  - exists d0. rewrite Hout by lia. split; [apply lookup_insert_eq|done].
  - intros k Hk. assert (bm_bit (set_block (1 + b) dr' s3) (inode_bitmap efs) k = bm_bit s3 (inode_bitmap efs) k) as ->.
    { unfold bm_bit. cbn. rewrite lookup_insert_ne; [done|]. rewrite Eib, Bitmap_maximum_eq in *. cbn.
      change BLOCK_BITS with 4096. zdiv_lia. }
    rewrite Hnew, Hib0 by done. done.
  - intros k Hk. apply zero_bits; [done|]. rewrite Edbm. cbn [bm_start_block_id bm_blocks Bitmap_new]. intros i Hi. rewrite Hout by lia. apply Hz2. lia.
  - exists dr'. rewrite Eia. split; [apply lookup_insert_eq|done].
Qed.

(** [create] makes a file system that [open] finds again.  From any device
    with enough blocks, [create] returns; the super block on the device then
    describes exactly the file system it returned, so that [open] returns the
    same one; inode 0 is an empty directory and the only inode in use, every
    data block is free, and the data bitmap begins right after the inode
    area. *)
Theorem create_then_open total b s :
  areas_ok total b -> device_ok s total ->
  pwp (efs ← EasyFileSystem_create total b; efs' ← EasyFileSystem_open; mret (efs, efs'))
    (fun r s' => fst r = efs_of_super (create_areas total b) /\ snd r = fst r /\ created total b (fst r) s' /\
       bm_start_block_id (data_bitmap (fst r)) = inode_area_start_block (fst r) + 1056 * b /\
       data_area_start_block (fst r) = bm_start_block_id (data_bitmap (fst r)) + bm_blocks (data_bitmap (fst r)) /\
       data_area_start_block (fst r) <= total) s.
Proof.
  intros Ha Hd. apply pwp_bind. apply create_spec; [done|done|]. intros s' Hc Hfs.
  pose proof Ha as [Hb Ht]. destruct (create_areas_eq total b Ha) as [Esb Hq]. pose proof (efs_of_create total b Ha) as Eefs.
  apply pwp_bind. unfold EasyFileSystem_open. destruct (cd_super _ _ _ _ Hc) as (d0 & Hd0 & Hs0).
  destruct (device_lockable s' total 0 (cd_device _ _ _ _ Hc) ltac:(lia)) as (d & Hl & _).
  assert (d = d0) as -> by (pose proof (lk_block _ _ _ Hl); congruence).
  eapply pwp_block_read; [exact Hl|unfold SUPER_SZ, BLOCK_SZ; lia|]. rewrite Hs0.
  rewrite SuperBlock_load_store.
  2: { rewrite Esb. unfold super_ok. cbn [sb_magic sb_total_blocks sb_inode_bitmap_blocks sb_inode_area_blocks sb_data_bitmap_blocks sb_data_area_blocks].
       repeat apply Forall_cons_2; try apply Forall_nil_2; unfold is_u32, EFS_MAGIC; lia. }
  apply pwp_bind, pwp_passert. split; [by rewrite Esb|]. apply pwp_ret. split; [done|]. apply pwp_mret. cbn [fst snd].
  assert (set_held (st_held s') (hold 0 s') = s') as -> by (by destruct s').
  split; [done|]. split; [done|]. split; [done|]. rewrite Eefs, Esb. cbn [data_bitmap bm_start_block_id bm_blocks Bitmap_new inode_area_start_block data_area_start_block sb_data_bitmap_blocks]. split; [lia|]. split; [done|]. lia.
Qed.

Definition small_device : gmap Z (list Z) := list_to_map ((fun i => (Z.of_nat i, demo_block 3)) <$> seq 0 1200).

Lemma create_then_open_witness : exists efs s',
  run (efs ← EasyFileSystem_create 1200 1; efs' ← EasyFileSystem_open; mret (efs, efs')) (mkStore small_device [] false) =
    Ok ((efs, efs), s') /\ data_area_start_block efs = 1059.
Proof.
  destruct (pwp_run _ _ _ (create_then_open 1200 1 (mkStore small_device [] false)
    ltac:(split; lia)
    ltac:(split; [done|intros i Hi; exists (demo_block 3); split; [|split; [done|by apply Forall_replicate]]; cbn [st_blocks];
      unfold small_device; apply elem_of_list_to_map_1;
      [rewrite <- list_fmap_compose; apply NoDup_fmap_2; [intros ? ?; cbn; lia|apply NoDup_seq]
      |apply list_elem_of_fmap; exists (Z.to_nat i); split; [rewrite Z2Nat.id by lia; done|apply elem_of_seq; lia]]])))
    as ([efs efs'] & s' & Hrun & He & Heq & _).
  cbn in He, Heq. subst efs'. exists efs, s'. split; [done|]. rewrite He. vm_compute. reflexivity.
Defined.
