(* ===== verification/Vfs.v ===== *)
(** * Files and directories (easy-fs/src/vfs.rs)

    An [Inode] is a handle on a slot of the inode area.  Its operations lock
    the file system's mutex and the blocks they use exactly where the code
    does, so a program that would lock either twice faults. *)

From S2P Require Import Prelude BlockCache Bitmap Layout Efs.

Record Inode := mkInodeRef { in_block_id : Z; in_block_offset : Z }.

Definition Inode_new (pos : Z * Z) : Inode := mkInodeRef (fst pos) (snd pos).

(** Names and paths are byte strings; 47 is the slash, 46 the dot. *)
Abbreviation bytes := (list Z) (only parsing).
Definition SLASH : Z := 47.
Definition DOT : bytes := [46].
Definition DOTDOT : bytes := [46; 46].
Definition beq (a b : bytes) : bool := bool_decide (a = b).

Definition is_nil {A : Type} (l : list A) : bool := match l with [] => true | _ => false end.

Definition reserved_name (name : bytes) : bool := is_nil name || beq name DOT || beq name DOTDOT.

Section Vfs.
Context (fs : EasyFileSystem).

Definition read_disk_inode {V : Type} (self : Inode) (f : DiskInode -> prog V) : prog V :=
  block_read (in_block_id self) (Z.to_nat (in_block_offset self)) INODE_SZ (fun d =>
    i ← punwrap (DiskInode_load d); f i).

Definition modify_disk_inode {V : Type} (self : Inode) (f : DiskInode -> prog (DiskInode * V)) : prog V :=
  block_modify (in_block_id self) (Z.to_nat (in_block_offset self)) INODE_SZ (fun d =>
    i ← punwrap (DiskInode_load d);
    r ← f i;
    Ret (DiskInode_store (fst r) d, snd r)).

(** Reading the [i]-th entry of a directory, with its [assert_eq!]. *)
Definition read_dirent (disk_inode : DiskInode) (i : Z) : prog DirEntry :=
  r ← DiskInode_read_at disk_inode (DIRENT_SZ * i) (DirEntry_as_bytes DirEntry_empty);
  passert (fst r =? DIRENT_SZ);;
  Ret (DirEntry_of_bytes (snd r)).

Definition file_count (disk_inode : DiskInode) : Z := di_size disk_inode / DIRENT_SZ.

(** The search loop of [find_inode_id] and of [remove_directory_entry]: the
    position and the inode of the first entry named [name]. *)
Fixpoint find_loop (disk_inode : DiskInode) (name : bytes) (ids : list Z) : prog (option (Z * Z)) :=
  match ids with
  | [] => Ret None
  | i :: ids' =>
      dirent ← read_dirent disk_inode i;
      n ← DirEntry_name dirent;
      if beq n name then Ret (Some (i, de_inode_number dirent))
      else find_loop disk_inode name ids'
  end.

Definition Inode_find_inode_id (name : bytes) (disk_inode : DiskInode) : prog (option Z) :=
  if negb (DiskInode_is_dir disk_inode) then Ret None
  else
    r ← find_loop disk_inode name (seqZ 0 (file_count disk_inode));
    Ret (match r with Some (_, id) => Some id | None => None end).

Definition Inode_find (self : Inode) (name : bytes) : prog (option Inode) :=
  with_fs (read_disk_inode self (fun disk_inode =>
    r ← Inode_find_inode_id name disk_inode;
    Ret (match r with Some id => Some (Inode_new (EasyFileSystem_get_disk_inode_pos fs id)) | None => None end))).

Definition Inode_increase_size (new_size : Z) (disk_inode : DiskInode) : prog DiskInode :=
  if new_size <? di_size disk_inode then Ret disk_inode
  else
    blocks_needed ← DiskInode_blocks_num_needed disk_inode new_size;
    v ← pfold (fun v _ => b ← EasyFileSystem_alloc_data fs; Ret (v ++ [b])) [] (seqZ 0 blocks_needed);
    DiskInode_increase_size disk_inode new_size v.

(** Get the inode number by computing its position from the layout. *)
Definition Inode_inode_number (self : Inode) : prog Z :=
  with_fs (
    let block_offset_in_area := u32_wrap (u32_wrap (in_block_id self) - inode_area_start_block fs) in
    let inode_index_in_block := u32_wrap (in_block_offset self) / Z.of_nat INODE_SZ in
    Ret (u32_wrap (block_offset_in_area * inodes_per_block + inode_index_in_block))).

(** Appending an entry: the closure shared by [create_as], [link] and
    [rename]. *)
Definition append_dirent (name : bytes) (inode_id : Z) (disk_inode : DiskInode) : prog (DiskInode * unit) :=
  let file_count := file_count disk_inode in
  let new_size := (file_count + 1) * DIRENT_SZ in
  disk_inode ← Inode_increase_size (u32_wrap new_size) disk_inode;
  dirent ← DirEntry_new name inode_id;
  _ ← DiskInode_write_at disk_inode (file_count * DIRENT_SZ) (DirEntry_as_bytes dirent);
  Ret (disk_inode, tt).

Definition Inode_create_as (self : Inode) (name : bytes) (inode_type : DiskInodeType) : prog (option Inode) :=
  if reserved_name name then Ret None
  else
    parent_inode_number ← Inode_inode_number self;
    with_fs (
      found ← modify_disk_inode self (fun root_inode =>
        passert (DiskInode_is_dir root_inode);;
        r ← Inode_find_inode_id name root_inode;
        Ret (root_inode, r));
      match found with
      | Some _ => Ret None
      | None =>
          new_inode_id ← EasyFileSystem_alloc_inode fs;
          initialize_inode (EasyFileSystem_get_disk_inode_pos fs new_inode_id) inode_type parent_inode_number;;
          _ ← modify_disk_inode self (append_dirent name new_inode_id);
          block_cache_sync_all;;
          Ret (Some (Inode_new (EasyFileSystem_get_disk_inode_pos fs new_inode_id)))
      end).

Definition Inode_create (self : Inode) (name : bytes) : prog (option Inode) := Inode_create_as self name File.

Definition Inode_is_root (self : Inode) : prog bool :=
  n ← Inode_inode_number self; Ret (n =? 0).

(** Resolve a single path component. *)
Definition Inode_resolve_component (self : Inode) (component : bytes) : prog (option Inode) :=
  if beq component DOT then Ret (Some self)
  else if beq component DOTDOT then
    parent_id ← read_disk_inode self (fun disk_inode => Ret (di_parent_inode disk_inode));
    root ← (if parent_id =? 0 then Inode_is_root self else Ret false);
    if root : bool then Ret (Some self)
    else with_fs (Ret (Some (Inode_new (EasyFileSystem_get_disk_inode_pos fs parent_id))))
  else Inode_find self component.

Definition Inode_is_dir (self : Inode) : prog bool :=
  read_disk_inode self (fun disk_inode => Ret (DiskInode_is_dir disk_inode)).

(** [path.split('/').filter(|s| !s.is_empty())]. *)
Fixpoint split_slash (cur path : bytes) : list bytes :=
  match path with
  | [] => if is_nil cur then [] else [cur]
  | c :: path' =>
      if c =? SLASH then (if is_nil cur then [] else [cur]) ++ split_slash [] path'
      else split_slash (cur ++ [c]) path'
  end.

Fixpoint trim_start (path : bytes) : bytes :=
  match path with
  | c :: path' => if c =? SLASH then trim_start path' else path
  | [] => []
  end.

Definition ends_with_slash (path : bytes) : bool :=
  match last path with Some c => c =? SLASH | None => false end.

Fixpoint lookup_rest (current : Inode) (components : list bytes) : prog (option Inode) :=
  match components with
  | [] => Ret (Some current)
  | component :: rest =>
      is_dir ← Inode_is_dir current;
      if negb is_dir then Ret None
      else
        r ← Inode_resolve_component current component;
        match r with
        | Some next => lookup_rest next rest
        | None => Ret None
        end
  end.

Definition Inode_lookup_path (self : Inode) (path : bytes) : prog (option Inode) :=
  if is_nil path || beq path [SLASH] then Ret (Some self)
  else if beq path DOT then Ret (Some self)
  else
    let path := trim_start path in
    match split_slash [] path with
    | [] => if is_nil path then Ret (Some self) else Stop Panic
    | first :: rest =>
        r ← Inode_resolve_component self first;
        match r with
        | None => Ret None
        | Some current =>
            r ← lookup_rest current rest;
            match r with
            | None => Ret None
            | Some current =>
                if ends_with_slash path then
                  is_dir ← Inode_is_dir current;
                  if negb is_dir then Ret None else Ret (Some current)
                else Ret (Some current)
            end
        end
    end.

(** Set the parent inode number (used when moving directories). *)
Definition Inode_set_parent_inode (self : Inode) (parent_id : Z) : prog unit :=
  modify_disk_inode self (fun disk_inode => Ret (set_parent disk_inode parent_id, tt)).

Definition Inode_parent (self : Inode) : prog (option Inode) :=
  parent_id ← read_disk_inode self (fun disk_inode => Ret (di_parent_inode disk_inode));
  root ← (if parent_id =? 0 then Inode_is_root self else Ret false);
  if root : bool then Ret None
  else with_fs (Ret (Some (Inode_new (EasyFileSystem_get_disk_inode_pos fs parent_id)))).

Definition Inode_is_empty_directory (self : Inode) : prog bool :=
  with_fs (read_disk_inode self (fun disk_inode =>
    Ret (DiskInode_is_dir disk_inode && (file_count disk_inode =? 0)))).

Definition Inode_ls (self : Inode) : prog (list bytes) :=
  with_fs (read_disk_inode self (fun disk_inode =>
    pfold (fun v i => dirent ← read_dirent disk_inode i; n ← DirEntry_name dirent; Ret (v ++ [n])) []
      (seqZ 0 (file_count disk_inode)))).

Definition Inode_read_at (self : Inode) (offset : Z) (buf : list Z) : prog (Z * list Z) :=
  with_fs (read_disk_inode self (fun disk_inode => DiskInode_read_at disk_inode offset buf)).

Definition Inode_size (self : Inode) : prog Z :=
  read_disk_inode self (fun disk_inode => Ret (di_size disk_inode)).

Definition Inode_write_at (self : Inode) (offset : Z) (buf : list Z) : prog Z :=
  with_fs (
    size ← modify_disk_inode self (fun disk_inode =>
      disk_inode ← Inode_increase_size (u32_wrap (offset + Z.of_nat (length buf))) disk_inode;
      w ← DiskInode_write_at disk_inode offset buf;
      Ret (disk_inode, w));
    block_cache_sync_all;;
    Ret size).

(** Clearing an inode and giving its blocks back: the closure of [clear] and
    of [unlink]. *)
Definition clear_and_dealloc (disk_inode : DiskInode) : prog (DiskInode * unit) :=
  let size := di_size disk_inode in
  r ← DiskInode_clear_size disk_inode;
  let '(disk_inode, data_blocks_dealloc) := r in
  passert (Z.of_nat (length data_blocks_dealloc) =? DiskInode_total_blocks size);;
  pfold (fun _ data_block => EasyFileSystem_dealloc_data fs data_block) tt data_blocks_dealloc;;
  Ret (disk_inode, tt).

Definition Inode_clear (self : Inode) : prog unit :=
  with_fs (
    _ ← modify_disk_inode self clear_and_dealloc;
    block_cache_sync_all).

(** Remove a directory entry by name; the entries after it move down. *)
Definition Inode_remove_directory_entry (name : bytes) (disk_inode : DiskInode) : prog (DiskInode * bool) :=
  passert (DiskInode_is_dir disk_inode);;
  let file_count := file_count disk_inode in
  target ← find_loop disk_inode name (seqZ 0 file_count);
  match target with
  | None => Ret (disk_inode, false)
  | Some (idx, _) =>
      pfold (fun _ i =>
        next_dirent ← read_dirent disk_inode (i + 1);
        _ ← DiskInode_write_at disk_inode (DIRENT_SZ * i) (DirEntry_as_bytes next_dirent);
        Ret tt) tt (seqZ idx (file_count - 1 - idx));;
      _ ← DiskInode_write_at disk_inode (DIRENT_SZ * (file_count - 1)) (DirEntry_as_bytes DirEntry_empty);
      Ret (set_size disk_inode (u32_wrap ((file_count - 1) * DIRENT_SZ)), true)
  end.

Definition Inode_link (self : Inode) (name : bytes) (target_inode_id : Z) : prog bool :=
  if reserved_name name then Ret false
  else with_fs (
    found ← read_disk_inode self (Inode_find_inode_id name);
    match found with
    | Some _ => Ret false
    | None =>
        _ ← modify_disk_inode self (append_dirent name target_inode_id);
        block_cache_sync_all;;
        Ret true
    end).

Definition Inode_rename (self : Inode) (old_name new_name : bytes) : prog bool :=
  if reserved_name old_name || reserved_name new_name then Ret false
  else with_fs (
    found ← read_disk_inode self (Inode_find_inode_id old_name);
    match found with
    | None => Ret false
    | Some old_inode_id =>
        new_found ← read_disk_inode self (Inode_find_inode_id new_name);
        match new_found with
        | Some _ => Ret false
        | None =>
            _ ← modify_disk_inode self (append_dirent new_name old_inode_id);
            _ ← modify_disk_inode self (Inode_remove_directory_entry old_name);
            block_cache_sync_all;;
            Ret true
        end
    end).

Definition Inode_detach (self : Inode) (name : bytes) : prog bool :=
  if reserved_name name then Ret false
  else
    result ← modify_disk_inode self (Inode_remove_directory_entry name);
    block_cache_sync_all;;
    Ret result.

Definition Inode_unlink (self : Inode) (name : bytes) : prog (option Z) :=
  if reserved_name name then Ret None
  else
    found ← Inode_find self name;
    match found with
    | None => Ret None
    | Some target_inode =>
        r ← with_fs (read_disk_inode target_inode (fun disk_inode =>
          Ret (DiskInode_is_dir disk_inode, file_count disk_inode =? 0)));
        target_inode_id ← Inode_inode_number target_inode;
        if fst r && negb (snd r) then Ret None
        else with_fs (
          _ ← modify_disk_inode target_inode clear_and_dealloc;
          EasyFileSystem_dealloc_inode fs target_inode_id;;
          _ ← modify_disk_inode self (Inode_remove_directory_entry name);
          block_cache_sync_all;;
          Ret (Some target_inode_id))
    end.

End Vfs.
