(* ===== verification/VfsProps.v ===== *)
(** * Directories and files (easy-fs/src/vfs.rs): properties

    Specifications of the operations on an inode handle: directory entries, the
    growth of a file with blocks from the bitmap, writing and reading. *)

From S2P Require Import Prelude BlockCache Bitmap Layout Tree FileData Codec Efs Vfs.

(** ** Directories *)

(** A directory entry is a name and an inode number. *)
Abbreviation dentry := (list Z * Z)%type (only parsing).

Definition entry_ok (e : dentry) : Prop :=
  name_ok (fst e) /\ (length (fst e) <= NAME_LENGTH_LIMIT)%nat /\ is_u32 (snd e).

Definition entry_of (e : dentry) : DirEntry :=
  mkDirent (fst e ++ replicate (28 - length (fst e)) 0) (snd e).
Definition entry_bytes (e : dentry) : list Z := DirEntry_as_bytes (entry_of e).

(** The inode [di], with the blocks [T], is a directory whose entries are
    [es]. *)
Record directory (s : Store) (di : DiskInode) (T : list Z) (n : Z) (es : list dentry) : Prop := {
  dr_file : file s di T n;
  dr_type : di_type di = Directory;
  dr_size : di_size di = 32 * Z.of_nat (length es);
  dr_entries : Forall entry_ok es;
  dr_bytes : forall k e, es !! k = Some e -> file_bytes (st_blocks s) T (32 * Z.of_nat k) 32 = entry_bytes e
}.

Lemma entry_bytes_length e : entry_ok e -> length (entry_bytes e) = 32%nat.
Proof.
  intros (_ & Hl & _). unfold entry_bytes, DirEntry_as_bytes, entry_of. cbn [de_name de_inode_number].
  rewrite !length_app, length_replicate, length_le_bytes. unfold NAME_LENGTH_LIMIT in Hl. lia.
Qed.

Lemma entry_bytes_byte e : entry_ok e -> Forall is_byte (entry_bytes e).
Proof.
  intros ((Hf & _) & _ & _). unfold entry_bytes, DirEntry_as_bytes, entry_of. cbn [de_name de_inode_number].
  apply Forall_app. split; [|apply le_bytes_byte]. apply Forall_app. split.
  - eapply Forall_impl; [exact Hf|]. by intros b [_ Hb].
  - by apply Forall_replicate.
Qed.

Lemma entry_of_bytes e : entry_ok e -> DirEntry_of_bytes (entry_bytes e) = entry_of e.
Proof.
  intros (_ & Hl & Hi). apply DirEntry_of_as_bytes; [|done]. cbn.
  rewrite length_app, length_replicate. unfold NAME_LENGTH_LIMIT in Hl. lia.
Qed.

Lemma entry_name e : entry_ok e -> DirEntry_name (entry_of e) = Ret (fst e).
Proof. intros (Hn & Hl & _). by apply DirEntry_name_new. Qed.

Lemma new_entry e : entry_ok e -> DirEntry_new (fst e) (snd e) = Ret (entry_of e).
Proof.
  intros (_ & Hl & _). unfold DirEntry_new. rewrite (proj2 (Nat.leb_le _ _)) by lia. cbn [passert mbind prog_mbind prog_bind].
  rewrite dirent_name_bytes by lia. done.
Qed.

Lemma overwrite_whole (d d' : list Z) : length d' = length d -> overwrite 0 d' d = d'.
Proof. intros H. unfold overwrite. rewrite take_0, app_nil_l, drop_ge by lia. by rewrite app_nil_r. Qed.

Lemma read_dirent_spec s di T n es k e Q :
  directory s di T n es -> es !! Z.to_nat k = Some e -> 0 <= k -> Q (entry_of e) s -> pwp (read_dirent di k) Q s.
Proof.
  intros Hd He Hk HQ. pose proof (dr_file _ _ _ _ _ Hd) as Hf. pose proof (dr_size _ _ _ _ _ Hd) as Hsz.
  assert (entry_ok e) as Hok by (pose proof (dr_entries _ _ _ _ _ Hd) as HF; rewrite Forall_forall in HF; by eapply HF, list_elem_of_lookup_2).
  pose proof (lookup_lt_Some _ _ _ He) as Hlt.
  assert (length (DirEntry_as_bytes DirEntry_empty) = 32%nat) as Hle by done.
  unfold read_dirent. change DIRENT_SZ with 32. apply pwp_bind.
  pose proof (fl_size _ _ _ _ Hf) as Hfs. pose proof (fl_max _ _ _ _ Hf) as Hfm.
  eapply read_at_spec; [exact Hf|lia|rewrite Hle; lia|]. rewrite Hle.
  replace (Z.max 0 (Z.min (32 * k + Z.of_nat 32) (di_size di) - 32 * k)) with 32 by lia.
  apply pwp_bind, pwp_passert. split; [done|]. apply pwp_ret. cbn [snd].
  pose proof (dr_bytes _ _ _ _ _ Hd _ _ He) as Hb. rewrite Z2Nat.id in Hb by lia. rewrite Hb.
  rewrite overwrite_whole by (rewrite entry_bytes_length by done; done). by rewrite entry_of_bytes.
Qed.

Lemma beq_true a b : beq a b = true <-> a = b.
Proof. unfold beq. apply bool_decide_eq_true. Qed.

(** The position of the first entry with a name. *)
Definition find_entry (name : list Z) (es : list dentry) : option nat := position (fun e => beq (fst e) name) es.

Lemma find_loop_spec s di T n es name m k Q :
  directory s di T n es -> Z.of_nat (m + k) = Z.of_nat (length es) ->
  (forall j e, (j < k)%nat -> es !! j = Some e -> fst e <> name) ->
  Q (match find_entry name es with
     | Some j => (fun e => (Z.of_nat j, snd e)) <$> es !! j
     | None => None end) s ->
  pwp (find_loop di name (seqZ (Z.of_nat k) (Z.of_nat m))) Q s.
Proof.
  intros Hd. revert k. induction m as [|m IH]; intros k Hlen Hbefore HQ.
  - rewrite seqZ_nil by lia. apply pwp_ret.
    assert (find_entry name es = None) as E; [|by rewrite E in HQ].
    apply position_None, Forall_forall. intros e Hin. apply list_elem_of_lookup in Hin as [j Hj].
    apply not_true_iff_false. rewrite beq_true. apply (Hbefore j); [apply lookup_lt_Some in Hj; lia|done].
  - rewrite seqZ_cons by lia. cbn [find_loop].
    destruct (lookup_lt_is_Some_2 es k ltac:(lia)) as [e He].
    assert (entry_ok e) as Hok by (pose proof (dr_entries _ _ _ _ _ Hd) as HF; rewrite Forall_forall in HF; by eapply HF, list_elem_of_lookup_2).
    apply pwp_bind. eapply read_dirent_spec; [exact Hd|rewrite Nat2Z.id; exact He|lia|].
    apply pwp_bind. rewrite entry_name by done. apply pwp_ret. destruct (beq (fst e) name) eqn:E.
    + apply pwp_ret. assert (find_entry name es = Some k) as Efe.
      { apply position_Some. exists e. split_and!; [done|done|]. intros j e' Hj Hj'. apply not_true_iff_false. rewrite beq_true. by apply (Hbefore j). }
      rewrite Efe, He in HQ. exact HQ.
    + replace (Z.pred (Z.of_nat (S m))) with (Z.of_nat m) by lia. replace (Z.succ (Z.of_nat k)) with (Z.of_nat (S k)) by lia.
      apply IH; [lia| |done]. intros j e' Hj Hj'. destruct (decide (j = k)) as [->|Hne]; [|apply (Hbefore j); [lia|done]].
      assert (e' = e) as -> by congruence. apply not_true_iff_false in E. by rewrite beq_true in E.
Qed.

Lemma file_count_dir s di T n es : directory s di T n es -> file_count di = Z.of_nat (length es).
Proof. intros Hd. unfold file_count. rewrite (dr_size _ _ _ _ _ Hd). change DIRENT_SZ with 32. rewrite Z.mul_comm. apply Z.div_mul. lia. Qed.

Lemma find_inode_id_spec s di T n es name Q :
  directory s di T n es ->
  Q (match find_entry name es with Some j => snd <$> es !! j | None => None end) s ->
  pwp (Inode_find_inode_id name di) Q s.
Proof.
  intros Hd HQ. unfold Inode_find_inode_id, DiskInode_is_dir. rewrite bool_decide_true by apply Hd. cbn [negb].
  apply pwp_bind. rewrite (file_count_dir _ _ _ _ _ Hd).
  apply (find_loop_spec s di T n es name (length es) 0); [done|lia|lia|].
  apply pwp_ret. destruct (find_entry name es) as [j|]; [|done]. by destruct (es !! j).
Qed.

(** *** Writing entries *)

Lemma file_bytes_ext bs bs' T T' a m : (forall x, a <= x < a + m -> file_byte bs' T' x = file_byte bs T x) ->
  file_bytes bs' T' a m = file_bytes bs T a m.
Proof.
  intros H. unfold file_bytes. apply list_fmap_ext. intros j x Hx. apply lookup_seqZ in Hx as [-> Hj]. apply H. lia.
Qed.

Lemma file_bytes_written bs T a (buf : list Z) :
  (forall x, a <= x < a + Z.of_nat (length buf) -> file_byte bs T x = zth buf (x - a)) ->
  file_bytes bs T a (Z.of_nat (length buf)) = buf.
Proof.
  intros H. unfold file_bytes. apply list_eq. intros j. rewrite list_lookup_fmap. destruct (decide (j < length buf)%nat).
  - rewrite lookup_seqZ_lt by lia. cbn [fmap option_fmap option_map]. rewrite H by lia.
    replace (a + Z.of_nat j - a) with (Z.of_nat j) by lia. rewrite <- zth_lookup by lia. by rewrite Nat2Z.id.
  - rewrite lookup_seqZ_ge by lia. cbn. symmetry. apply lookup_ge_None. lia.
Qed.

Lemma write_entry_spec s di T n es k e Q :
  directory s di T n es -> (k < length es)%nat -> entry_ok e ->
  (forall s', directory s' di T n (<[k := e]> es) -> data_frame T n s s' -> Q 32 s') ->
  pwp (DiskInode_write_at di (DIRENT_SZ * Z.of_nat k) (entry_bytes e)) Q s.
Proof.
  intros Hd Hk He HQ. pose proof (dr_file _ _ _ _ _ Hd) as Hf. pose proof (dr_size _ _ _ _ _ Hd) as Hsz.
  pose proof (fl_size _ _ _ _ Hf) as Hfs. pose proof (entry_bytes_length e He) as Hle.
  change DIRENT_SZ with 32. eapply write_at_spec; [exact Hf|lia|lia|zdiv_lia|by apply entry_bytes_byte|].
  rewrite Hle. intros s' Hfr Hw. apply HQ; [|done]. split.
  - by eapply file_data_frame.
  - apply Hd.
  - by rewrite length_insert.
  - apply Forall_insert; [apply Hd|done].
  - intros j e' Hj. destruct (decide (j = k)) as [->|Hne].
    + rewrite list_lookup_insert_eq in Hj by done. injection Hj as <-.
      change 32 with (Z.of_nat 32) at 2. rewrite <- Hle. apply file_bytes_written. rewrite Hle. intros x Hx.
      rewrite Hw by lia. destruct (Z.leb_spec (32 * Z.of_nat k) x), (Z.ltb_spec x (32 * Z.of_nat k + Z.of_nat 32)); cbn; (done || lia).
    + rewrite list_lookup_insert_ne in Hj by done. pose proof (lookup_lt_Some _ _ _ Hj).
      rewrite <- (dr_bytes _ _ _ _ _ Hd _ _ Hj). apply file_bytes_ext. intros x Hx. rewrite Hw by lia.
      destruct (Z.leb_spec (32 * Z.of_nat k) x), (Z.ltb_spec x (32 * Z.of_nat k + Z.of_nat 32)); cbn; try done. lia.
Qed.

Lemma entry_ok_empty : entry_ok ([], 0).
Proof. split; [split; [constructor|done]|]. split; [unfold NAME_LENGTH_LIMIT; cbn; lia|unfold is_u32; cbn; lia]. Qed.

(** The list after [j] steps of the shifting loop. *)
Definition shifted (es es' : list dentry) (idx j : nat) : Prop :=
  length es' = length es /\
  forall k, es' !! k = if decide (idx <= k < idx + j)%nat then es !! S k else es !! k.

Lemma shift_loop_spec s di T n es idx Q :
  directory s di T n es -> (idx < length es)%nat ->
  (forall s' es', directory s' di T n es' -> shifted es es' idx (length es - 1 - idx) -> data_frame T n s s' -> Q tt s') ->
  pwp (pfold (fun _ i =>
        next_dirent ← read_dirent di (i + 1);
        _ ← DiskInode_write_at di (DIRENT_SZ * i) (DirEntry_as_bytes next_dirent);
        Ret tt) tt (seqZ (Z.of_nat idx) (Z.of_nat (length es) - 1 - Z.of_nat idx))) Q s.
Proof.
  intros Hd Hidx HQ.
  eapply pwp_mono; [apply (pwp_pfold _ _ (fun pre _ s' => exists es', directory s' di T n es' /\
    shifted es es' idx (length pre) /\ data_frame T n s s'))|].
  - exists es. split; [done|]. split; [|done]. split; [done|]. intros k. cbn. rewrite decide_False by lia. done.
  - intros pre x [] s1 Hpre (es1 & Hd1 & [Hl1 Hs1] & Hf1).
    assert (x = Z.of_nat (idx + length pre) /\ (idx + length pre < length es - 1)%nat) as [-> Hx].
    { apply prefix_lookup_Some with (i := length pre) (x := x) in Hpre; [|by rewrite lookup_app_r, Nat.sub_diag by done].
      apply lookup_seqZ in Hpre as [-> ?]. lia. }
    set (k := (idx + length pre)%nat) in *. destruct (lookup_lt_is_Some_2 es (S k) ltac:(lia)) as [e He].
    assert (es1 !! S k = Some e) as He1 by (rewrite Hs1, decide_False by lia; done).
    assert (entry_ok e) as Hok by (pose proof (dr_entries _ _ _ _ _ Hd) as HF; rewrite Forall_forall in HF; by eapply HF, list_elem_of_lookup_2).
    apply pwp_bind. eapply (read_dirent_spec s1 di T n es1); [exact Hd1| |lia|].
    { replace (Z.to_nat (Z.of_nat k + 1)) with (S k) by lia. exact He1. }
    apply pwp_bind. apply (write_entry_spec s1 di T n es1 k e); [done|lia|done|]. intros s2 Hd2 Hf2.
    apply pwp_ret. exists (<[k := e]> es1). split; [done|]. split; [|by eapply data_frame_trans]. split; [by rewrite length_insert|].
    intros j. rewrite length_app. cbn [length]. destruct (decide (j = k)) as [->|Hne].
    + rewrite list_lookup_insert_eq by lia. rewrite decide_True by lia. done.
    + rewrite list_lookup_insert_ne by done. rewrite Hs1. unfold k in Hne. repeat case_decide; (done || lia).
  - intros [] s' (es' & Hd' & Hs' & Hf'). apply (HQ s' es'); [done| |done]. rewrite length_seqZ in Hs'.
    by replace (Z.to_nat (Z.of_nat (length es) - 1 - Z.of_nat idx)) with (length es - 1 - idx)%nat in Hs' by lia.
Qed.

Lemma directory_shrink s di T n es m :
  directory s di T n es -> (m <= length es)%nat -> directory s (set_size di (32 * Z.of_nat m)) T n (take m es).
Proof.
  intros [Hf Ht Hs He Hb] Hm. split; cbn.
  - destruct Hf as [H1 H2 H3 H4 H5 H6]. split; try done; [by apply tree_size|]. cbn. lia.
  - done.
  - rewrite length_take. lia.
  - by apply Forall_take.
  - intros k e Hk. apply lookup_take_Some in Hk as [Hk _]. by apply Hb.
Qed.

Lemma remove_directory_entry_spec s di T n es name Q :
  directory s di T n es ->
  match find_entry name es with
  | Some idx => forall s', directory s' (set_size di (32 * Z.of_nat (length es - 1))) T n (delete idx es) ->
      data_frame T n s s' -> Q (set_size di (32 * Z.of_nat (length es - 1)), true) s'
  | None => Q (di, false) s
  end ->
  pwp (Inode_remove_directory_entry name di) Q s.
Proof.
  intros Hd HQ. unfold Inode_remove_directory_entry, DiskInode_is_dir. apply pwp_bind, pwp_passert.
  split; [apply bool_decide_true, Hd|]. rewrite (file_count_dir _ _ _ _ _ Hd). apply pwp_bind.
  apply (find_loop_spec s di T n es name (length es) 0); [done|lia|lia|].
  destruct (find_entry name es) as [idx|] eqn:Hfe; [|by apply pwp_ret].
  assert (idx < length es)%nat as Hidx by (by eapply position_lt).
  destruct (lookup_lt_is_Some_2 es idx Hidx) as [e He]. rewrite He. cbn [fmap option_fmap option_map].
  apply pwp_bind. apply (shift_loop_spec s di T n es idx); [done|done|]. intros s1 es1 Hd1 [Hl1 Hs1] Hf1.
  apply pwp_bind. change (DirEntry_as_bytes DirEntry_empty) with (entry_bytes ([], 0)).
  replace (Z.of_nat (length es) - 1) with (Z.of_nat (length es - 1)) by lia.
  apply (write_entry_spec s1 di T n es1 (length es - 1)); [done|lia|apply entry_ok_empty|]. intros s2 Hd2 Hf2.
  apply pwp_ret. change DIRENT_SZ with 32. rewrite (Z.mul_comm _ 32).
  pose proof (dr_size _ _ _ _ _ Hd). pose proof (fl_size _ _ _ _ (dr_file _ _ _ _ _ Hd)). pose proof (fl_max _ _ _ _ (dr_file _ _ _ _ _ Hd)).
  assert (u32_wrap (32 * Z.of_nat (length es - 1)) = 32 * Z.of_nat (length es - 1)) as -> by (apply Z.mod_small; lia).
  apply HQ; [|by eapply data_frame_trans].
  assert (delete idx es = take (length es - 1) (<[(length es - 1)%nat := ([], 0)]> es1)) as ->.
  { apply list_eq. intros k. destruct (decide (k < length es - 1)%nat) as [Hk|Hk].
    - rewrite lookup_take_lt by done. rewrite list_lookup_insert_ne by lia. rewrite Hs1.
      destruct (decide (k < idx)%nat) as [Hlt|Hge].
      + rewrite list_lookup_delete_lt by done. rewrite decide_False by lia. done.
      + rewrite list_lookup_delete_ge by lia. rewrite decide_True by lia. done.
    - rewrite lookup_take_ge by lia. apply lookup_ge_None. rewrite length_delete by eauto. lia. }
  apply directory_shrink; [done|rewrite length_insert; lia].
Qed.

(** ** Allocating data blocks *)

(** Whether the device has the block [k] of the data area: the bitmap may have
    more bits than that. *)
Definition present (s : Store) (efs : EasyFileSystem) (k : Z) : bool :=
  bool_decide (is_Some (st_blocks s !! (data_area_start_block efs + k))).

(** The data bitmap and the blocks it calls free can be used, up to the end of
    the device. *)
Record pool (s : Store) (efs : EasyFileSystem) : Prop := {
  po_bm : bm_ok s (data_bitmap efs);
  po_start : 0 < bm_start_block_id (data_bitmap efs) /\
    bm_start_block_id (data_bitmap efs) + bm_blocks (data_bitmap efs) <= data_area_start_block efs;
  po_u32 : data_area_start_block efs + Bitmap_maximum (data_bitmap efs) <= 2 ^ 32;
  po_room : (length (st_held s) <= 13)%nat;
  po_free : forall k, 0 <= k < Bitmap_maximum (data_bitmap efs) -> bm_bit s (data_bitmap efs) k = false ->
    present s efs k = true -> usable s [data_area_start_block efs + k];
  po_prefix : forall j k, 0 <= j <= k -> k < Bitmap_maximum (data_bitmap efs) -> bm_bit s (data_bitmap efs) j = false ->
    present s efs k = true -> present s efs j = true
}.

Definition taken (s : Store) (efs : EasyFileSystem) (k : Z) : bool := bm_bit s (data_bitmap efs) k || negb (present s efs k).

(** The blocks that can still be allocated. *)
Definition free_bits (s : Store) (efs : EasyFileSystem) : list Z :=
  filter (fun k => taken s efs k = false) (seqZ 0 (Bitmap_maximum (data_bitmap efs))).

(** Block [id] belongs to the data area and is marked as used. *)
Definition allocated (s : Store) (efs : EasyFileSystem) (id : Z) : Prop :=
  exists k, id = data_area_start_block efs + k /\ 0 <= k < Bitmap_maximum (data_bitmap efs) /\
    bm_bit s (data_bitmap efs) k = true.

Lemma usable_one s L : (length (st_held s) <= 13)%nat -> (forall id, id ∈ L -> usable s [id]) -> usable s L.
Proof. intros Hr H. split; [done|]. intros id Hid. apply (H id Hid). by left. Qed.

Lemma usable_elem s L id : usable s L -> id ∈ L -> usable s [id].
Proof. intros [Hr H] Hid. split; [done|]. intros id' ->%list_elem_of_singleton. auto. Qed.

Lemma usable_same s s' L : st_held s' = st_held s -> (forall id, id ∈ L -> st_blocks s' !! id = st_blocks s !! id) ->
  usable s L -> usable s' L.
Proof.
  intros Hh Hb [Hr H]. split; [by rewrite Hh|]. intros id Hid. rewrite Hh, Hb by done. auto.
Qed.

Lemma in_data_area efs k : bm_start_block_id (data_bitmap efs) + bm_blocks (data_bitmap efs) <= data_area_start_block efs ->
  0 <= k -> ~ (bm_start_block_id (data_bitmap efs) <= data_area_start_block efs + k <
    bm_start_block_id (data_bitmap efs) + bm_blocks (data_bitmap efs)).
Proof. lia. Qed.

(** Setting one bit: the rest of the pool stays usable. *)
Lemma present_ext s s' efs k : (is_Some (st_blocks s' !! (data_area_start_block efs + k)) <-> is_Some (st_blocks s !! (data_area_start_block efs + k))) ->
  present s' efs k = present s efs k.
Proof. intros H. unfold present. by apply bool_decide_ext. Qed.

Lemma taken_false s efs k : taken s efs k = false <-> bm_bit s (data_bitmap efs) k = false /\ present s efs k = true.
Proof. unfold taken. rewrite orb_false_iff, negb_false_iff. done. Qed.

Lemma pool_alloc s s' efs p : pool s efs -> bm_ok s' (data_bitmap efs) -> bm_frame (data_bitmap efs) s s' ->
  (forall k, 0 <= k < Bitmap_maximum (data_bitmap efs) ->
     bm_bit s' (data_bitmap efs) k = bm_bit s (data_bitmap efs) k || (k =? p)) -> pool s' efs.
Proof.
  intros [H1 H2 H3 H4 H5 H6] Hok (Hh & _ & Hb & Hd) Hbits. split; [done|done|done|by rewrite Hh| |].
  - intros k Hk Hc Hpr. rewrite Hbits in Hc by done. apply orb_false_iff in Hc as [Hc _]. rewrite (present_ext s s') in Hpr by done.
    eapply usable_same; [done| |by apply H5]. intros id ->%list_elem_of_singleton. apply Hb. apply in_data_area; [apply H2|lia].
  - intros j k Hj Hk Hc. rewrite Hbits in Hc by lia. apply orb_false_iff in Hc as [Hc _]. rewrite !(present_ext s s') by done. by apply (H6 j k).
Qed.

Lemma filter_remove_one (f g : Z -> bool) p l : NoDup l -> p ∈ l -> f p = false ->
  (forall k, k ∈ l -> g k = f k || (k =? p)) ->
  length (filter (fun k => f k = false) l) = S (length (filter (fun k => g k = false) l)).
Proof.
  intros Hn Hin Hp Hg. induction l as [|x l IH]; [by apply elem_of_nil in Hin|].
  apply NoDup_cons in Hn as [Hni Hn]. rewrite !filter_cons, Hg by left. destruct (decide (x = p)) as [->|Hne].
  - rewrite Hp, Z.eqb_refl. cbn. rewrite decide_True, decide_False by done. cbn. f_equal. f_equal. clear IH Hin.
    assert (forall k, k ∈ l -> g k = f k) as Hg'.
    { intros k Hk. rewrite Hg by (by right). destruct (Z.eqb_spec k p) as [->|]; [done|]. apply orb_false_r. }
    clear -Hg'. induction l as [|y l IH]; [done|]. rewrite !filter_cons, Hg' by left.
    rewrite IH by (intros k Hk; apply Hg'; by right). done.
  - rewrite (proj2 (Z.eqb_neq x p)) by done. rewrite orb_false_r.
    apply elem_of_cons in Hin as [?|Hin]; [congruence|].
    specialize (IH Hn Hin ltac:(intros k Hk; apply Hg; by right)). destruct (f x); repeat case_decide; try done.
    cbn. by rewrite IH.
Qed.

Lemma alloc_data_spec s efs Q :
  pool s efs -> (0 < length (free_bits s efs))%nat ->
  (forall p s', 0 <= p < Bitmap_maximum (data_bitmap efs) -> bm_bit s (data_bitmap efs) p = false ->
     usable s [data_area_start_block efs + p] ->
     (forall k, 0 <= k < Bitmap_maximum (data_bitmap efs) ->
        bm_bit s' (data_bitmap efs) k = bm_bit s (data_bitmap efs) k || (k =? p)) ->
     pool s' efs -> bm_frame (data_bitmap efs) s s' ->
     length (free_bits s efs) = S (length (free_bits s' efs)) -> Q (data_area_start_block efs + p) s') ->
  pwp (EasyFileSystem_alloc_data efs) Q s.
Proof.
  intros Hp Hfree HQ. unfold EasyFileSystem_alloc_data.
  assert (exists k, 0 <= k < Bitmap_maximum (data_bitmap efs) /\ taken s efs k = false) as (k & Hk & [Hkf Hkp]%taken_false).
  { unfold free_bits in Hfree. destruct (filter _ _) as [|k l] eqn:E; [cbn in Hfree; lia|].
    assert (k ∈ k :: l) as Hin by left. rewrite <- E in Hin. apply list_elem_of_filter in Hin as [Hk Hin%elem_of_seqZ]. exists k. split; [lia|done]. }
  apply pwp_bind. apply Bitmap_alloc_spec; [apply Hp|intros Hall; by rewrite Hall in Hkf|].
  intros p s' Hpr Hpf Hlow Hbits Hok Hfr. pwp_simpl. exists p. split; [done|]. apply pwp_ret.
  pose proof (po_start _ _ Hp). pose proof (po_u32 _ _ Hp). pose proof (proj1 (po_bm _ _ Hp)).
  assert (p <= k) as Hle.
  { destruct (Z.lt_ge_cases k p) as [Hlt|]; [|done]. by rewrite Hlow in Hkf by lia. }
  pose proof (po_prefix _ _ Hp p k ltac:(lia) ltac:(lia) Hpf Hkp) as Hpp.
  unfold u32_wrap. rewrite (Z.mod_small p), Z.mod_small, Z.add_comm by lia.
  apply HQ; [done|done|by apply (po_free _ _ Hp)|done|by eapply pool_alloc|done|].
  apply (filter_remove_one _ _ p); [apply NoDup_seqZ|apply elem_of_seqZ; lia|by apply taken_false|].
  intros i Hi%elem_of_seqZ. unfold taken. rewrite Hbits, (present_ext s s') by (apply Hfr || lia). destruct (bm_bit _ _ i), (i =? p), (present _ _ i); done.
Qed.

(** What [m] allocations leave: the blocks [v] are new and now marked, the
    other bits keep their value. *)
Record allocs (s : Store) (efs : EasyFileSystem) (v : list Z) (s' : Store) : Prop := {
  al_pool : pool s' efs;
  al_frame : bm_frame (data_bitmap efs) s s';
  al_nodup : NoDup v;
  al_new : forall id, id ∈ v -> allocated s' efs id /\ ~ allocated s efs id;
  al_old : forall id, allocated s efs id -> allocated s' efs id;
  al_usable : usable s' v;
  al_free : length (free_bits s efs) = (length v + length (free_bits s' efs))%nat
}.

Lemma bm_frame_trans b s1 s2 s3 : bm_frame b s1 s2 -> bm_frame b s2 s3 -> bm_frame b s1 s3.
Proof.
  intros (H1 & F1 & B1 & D1) (H2 & F2 & B2 & D2). split; [congruence|]. split; [congruence|]. split.
  - intros id Hid. by rewrite B2, B1.
  - intros id. by rewrite D2, D1.
Qed.

Lemma alloc_loop_many efs n s Q :
  pool s efs -> (n <= length (free_bits s efs))%nat ->
  (forall v s', length v = n -> allocs s efs v s' -> Q v s') ->
  pwp (pfold (fun v _ => b ← EasyFileSystem_alloc_data efs; Ret (v ++ [b])) [] (seqZ 0 (Z.of_nat n))) Q s.
Proof.
  intros Hp Hn HQ.
  eapply pwp_mono; [apply (pwp_pfold _ _ (fun pre v s' => length v = length pre /\ allocs s efs v s'))|].
  - split; [done|]. split; [done|done|constructor|intros id Hid; by apply elem_of_nil in Hid|done| |done].
    apply usable_one; [apply Hp|]. intros id Hid. by apply elem_of_nil in Hid.
  - intros pre x v s1 Hpre (Hlen & Hal).
    assert (length pre < n)%nat as Hlt.
    { apply prefix_length in Hpre. rewrite length_app, length_seqZ in Hpre. cbn in Hpre. lia. }
    pose proof (al_free _ _ _ _ Hal) as Hfree.
    apply pwp_bind. apply alloc_data_spec; [apply Hal|lia|]. intros p s2 Hpr Hpf Hup Hbits Hp2 Hfr2 Hcnt. apply pwp_ret.
    split; [rewrite !length_app; cbn; lia|]. pose proof (po_start _ _ Hp) as Hst.
    assert (forall id, allocated s1 efs id -> allocated s2 efs id) as Hmono.
    { intros id (k & -> & Hk & Hb). exists k. split_and!; [done|lia|lia|]. rewrite Hbits, Hb by done. done. }
    assert (~ allocated s1 efs (data_area_start_block efs + p)) as Hnew.
    { intros (k & E & Hk & Hb). assert (k = p) as -> by lia. congruence. }
    split; [done|by eapply bm_frame_trans, Hfr2; apply Hal| | | | |].
    + apply NoDup_app. split; [apply Hal|]. split; [|apply NoDup_singleton].
      intros id Hid ->%list_elem_of_singleton. apply (al_new _ _ _ _ Hal) in Hid as [Hid _]. by apply Hnew.
    + intros id [Hid| ->%list_elem_of_singleton]%elem_of_app.
      * apply (al_new _ _ _ _ Hal) in Hid as [Hid Hn2]. auto.
      * split; [|intros Ha; apply Hnew; by apply (al_old _ _ _ _ Hal)]. exists p. split_and!; [done|lia|lia|].
        rewrite Hbits by done. rewrite Z.eqb_refl. apply orb_true_r.
    + intros id Ha. apply Hmono. by apply (al_old _ _ _ _ Hal).
    + pose proof Hfr2 as (Hh2 & _ & Hb2 & _). apply usable_one; [rewrite Hh2; apply Hal|].
      intros id [Hid| ->%list_elem_of_singleton]%elem_of_app.
      * eapply usable_same; [done| |eapply usable_elem; [apply (al_usable _ _ _ _ Hal)|exact Hid]].
        intros id' ->%list_elem_of_singleton. apply Hb2.
        apply (al_new _ _ _ _ Hal) in Hid as [(k & -> & Hk & _) _]. apply in_data_area; [apply Hst|lia].
      * eapply usable_same; [done| |exact Hup].
        intros id' ->%list_elem_of_singleton. apply Hb2. apply in_data_area; [apply Hst|lia].
    + rewrite length_app. cbn. lia.
  - intros v s' [Hlen Hal]. apply HQ; [|done]. rewrite length_seqZ in Hlen. lia.
Qed.

Lemma list_filter_iff' (f g : Z -> bool) (l : list Z) : (forall k, k ∈ l -> f k = g k) ->
  filter (fun k => f k = false) l = filter (fun k => g k = false) l.
Proof.
  induction l as [|x l IH]; intros H; [done|]. rewrite !filter_cons, H by left.
  rewrite IH by (intros k Hk; apply H; by right). done.
Qed.

(** ** A file of a mounted file system *)

(** The file [di] with the blocks [T], in a file system whose bitmap knows
    them. *)
Record mounted (s : Store) (efs : EasyFileSystem) (di : DiskInode) (T : list Z) : Prop := {
  mt_file : file s di T (DiskInode_data_blocks di);
  mt_pool : pool s efs;
  mt_alloc : forall id, id ∈ T -> allocated s efs id
}.

(** What an operation on the file [T] leaves alone: the blocks before the
    data bitmap (the inodes) and those of the other files. *)
Definition fs_frame (efs : EasyFileSystem) (T : list Z) (s s' : Store) : Prop :=
  st_held s' = st_held s /\ st_fs s' = st_fs s /\
  (forall id, id < bm_start_block_id (data_bitmap efs) -> st_blocks s' !! id = st_blocks s !! id) /\
  (forall id, allocated s efs id -> id ∉ T -> allocated s' efs id /\ st_blocks s' !! id = st_blocks s !! id).

Lemma indirect_in T n id : Z.of_nat (length T) = tree_len n -> indirect T n id -> id ∈ T.
Proof.
  intros Hl [[H28 ->]|[H156 [->|(k & Hk & ->)]]]; apply zth_elem; rewrite Hl;
    pose proof (tree_len_mid n); pose proof (tree_len_big n); unfold after, nsubs, subs in *; zdiv_lia.
Qed.

Lemma allocated_range s efs id : pool s efs -> allocated s efs id ->
  data_area_start_block efs <= id /\ is_u32 id /\
  ~ (bm_start_block_id (data_bitmap efs) <= id < bm_start_block_id (data_bitmap efs) + bm_blocks (data_bitmap efs)) /\
  bm_start_block_id (data_bitmap efs) <= id.
Proof.
  intros Hp (k & -> & Hk & _). pose proof (po_start _ _ Hp). pose proof (po_u32 _ _ Hp).
  pose proof (proj1 (po_bm _ _ Hp)). unfold is_u32. lia.
Qed.

(** Changes to allocated blocks do not disturb the pool. *)
Lemma pool_same s s' efs :
  pool s efs -> st_held s' = st_held s -> (forall L, usable s L -> usable s' L) ->
  (forall id, bm_start_block_id (data_bitmap efs) <= id ->
     st_blocks s' !! id = st_blocks s !! id \/ allocated s efs id /\ is_Some (st_blocks s !! id) /\ is_Some (st_blocks s' !! id)) ->
  pool s' efs /\ (forall id, allocated s' efs id <-> allocated s efs id) /\ free_bits s' efs = free_bits s efs.
Proof.
  intros Hp Hh Hu Hb. pose proof Hp as [[H0 H1] H2 H3 H4 H5 H6]. pose proof BLOCK_BITS_pos as HB.
  assert (forall i, 0 <= i < bm_blocks (data_bitmap efs) -> st_blocks s' !! (i + bm_start_block_id (data_bitmap efs)) = st_blocks s !! (i + bm_start_block_id (data_bitmap efs))) as Hbm.
  { intros i Hi. destruct (Hb (i + bm_start_block_id (data_bitmap efs)) ltac:(lia)) as [E|(Ha & _)]; [done|].
    apply (allocated_range s efs _ Hp) in Ha as (_ & _ & Hno & _). lia. }
  assert (forall k, 0 <= k < Bitmap_maximum (data_bitmap efs) -> bm_bit s' (data_bitmap efs) k = bm_bit s (data_bitmap efs) k) as Hbit.
  { intros k Hk. unfold bm_bit. rewrite Hbm; [done|]. unfold Bitmap_maximum in Hk.
    split; [apply Z.div_pos; lia|apply Z.div_lt_upper_bound; lia]. }
  assert (forall k, 0 <= k -> present s' efs k = present s efs k) as Hpr.
  { intros k Hk. apply present_ext. destruct (Hb (data_area_start_block efs + k)) as [->|(_ & ? & ?)]; [lia|done|done]. }
  split; [|split].
  - split; [|done|done|by rewrite Hh| |].
    + split; [done|]. intros i Hi. destruct (H1 i Hi) as (d & [Hd Hf Hr] & Hok). exists d. split; [|done].
      split; [by rewrite Hbm|by rewrite Hh|by rewrite Hh].
    + intros k Hk Hc Hp'. rewrite Hpr in Hp' by lia. apply Hu, H5; [done| |done]. by rewrite <- Hbit.
    + intros j k Hj Hk Hc. rewrite !Hpr by lia. apply (H6 j k); [done|done|]. by rewrite <- Hbit by lia.
  - intros id. split; intros (k & -> & Hk & Hc); exists k; (split; [done|split; [done|]]); [by rewrite <- Hbit|by rewrite Hbit].
  - unfold free_bits. apply (list_filter_iff' (taken s' efs) (taken s efs)). intros k Hk%elem_of_seqZ. unfold taken. by rewrite Hbit, Hpr by lia.
Qed.

(** Changes to the blocks of files. *)
Lemma pool_frame s s' efs T :
  pool s efs -> (forall id, id ∈ T -> allocated s efs id) -> usable s T -> st_held s' = st_held s -> (forall L, usable s L -> usable s' L) ->
  (forall id, id ∉ T -> st_blocks s' !! id = st_blocks s !! id) ->
  pool s' efs /\ (forall id, allocated s' efs id <-> allocated s efs id) /\ free_bits s' efs = free_bits s efs.
Proof.
  intros Hp Ha Hu Hh Hext Hout. apply pool_same; [done|done|done|]. intros id _. destruct (decide (id ∈ T)) as [Hin|Hni]; [right|left; auto].
  split; [auto|]. destruct (proj2 Hu id Hin) as (_ & d & -> & _), (proj2 (Hext T Hu) id Hin) as (_ & d' & -> & _). eauto.
Qed.

Section IncreaseSize.
Context (efs : EasyFileSystem).

Lemma increase_size_file s di T new_size Q :
  mounted s efs di T -> di_size di <= new_size <= 16540 * 512 ->
  let n0 := DiskInode_data_blocks di in
  let n1 := DiskInode__data_blocks new_size in
  tree_len n1 - tree_len n0 <= Z.of_nat (length (free_bits s efs)) ->
  (forall di' v s', mounted s' efs di' (T ++ v) -> di_size di' = new_size -> same_kind di di' ->
     (inode_ok di -> inode_ok di') -> (forall x, 0 <= x < 512 * n0 -> file_byte (st_blocks s') (T ++ v) x = file_byte (st_blocks s) T x) ->
     fs_frame efs T s s' -> Z.of_nat (length v) = tree_len n1 - tree_len n0 ->
     length (free_bits s efs) = (length v + length (free_bits s' efs))%nat ->
     (forall id, id ∈ v -> ~ allocated s efs id) -> Q di' s') ->
  pwp (Inode_increase_size efs new_size di) Q s.
Proof.
  intros [Hf Hp Ha] Hns n0 n1 Hfree HQ.
  pose proof Hf as [Ht Hu Hl Hm Hn Hsz]. fold n0 in Ht, Hl, Hm, Hsz.
  assert (n0 <= n1 /\ 0 <= n0 /\ n1 <= 16540 /\ new_size <= 512 * n1) as (Hn01 & Hn0 & Hn1 & Hn1s).
  { unfold n0, n1, DiskInode_data_blocks. destruct (data_blocks_spec (di_size di)) as [-> ?]; [lia|].
    destruct (data_blocks_spec new_size) as [-> ?]; [lia|]. zdiv_lia. }
  pose proof (tree_len_mono n0 n1 ltac:(lia)) as Hmono.
  unfold Inode_increase_size. rewrite (proj2 (Z.ltb_ge _ _)) by lia.
  unfold DiskInode_blocks_num_needed. apply pwp_bind, pwp_bind, pwp_passert. split; [apply Z.leb_le; lia|]. apply pwp_ret.
  rewrite !total_blocks_spec by lia. change (DiskInode__data_blocks (di_size di)) with n0. fold n1.
  pose proof (po_u32 _ _ Hp). pose proof (po_start _ _ Hp). pose proof (proj1 (po_bm _ _ Hp)).
  assert (Z.of_nat (length (free_bits s efs)) <= Bitmap_maximum (data_bitmap efs)) as Hfl.
  { unfold free_bits. pose proof (length_filter (fun k => taken s efs k = false) (seqZ 0 (Bitmap_maximum (data_bitmap efs)))) as E.
    rewrite length_seqZ in E. unfold Bitmap_maximum, BLOCK_BITS in *. lia. }
  assert (u32_wrap (tree_len n1 - tree_len n0) = Z.of_nat (Z.to_nat (tree_len n1 - tree_len n0))) as ->.
  { unfold u32_wrap. rewrite Z.mod_small by lia. lia. }
  apply pwp_bind. apply alloc_loop_many; [done|lia|]. intros v s1 Hlv Hal.
  pose proof (al_frame _ _ _ _ Hal) as (Hh1 & Hfs1 & Hb1 & _).
  assert (forall id, allocated s efs id -> st_blocks s1 !! id = st_blocks s !! id) as Hold.
  { intros id Hid. apply Hb1. by apply (allocated_range s efs id Hp). }
  assert (usable s1 (T ++ v)) as Hu1.
  { apply usable_one; [rewrite Hh1; apply Hp|]. intros id [Hid|Hid]%elem_of_app.
    - eapply usable_same; [done| |by eapply usable_elem]. intros id' ->%list_elem_of_singleton. auto.
    - eapply usable_elem; [apply (al_usable _ _ _ _ Hal)|done]. }
  assert (NoDup (T ++ v)) as Hn1v.
  { apply NoDup_app. split; [done|]. split; [|apply Hal]. intros id Hi1 Hi2. apply (al_new _ _ _ _ Hal) in Hi2 as [_ Hi2]. auto. }
  assert (forall id, id ∈ T ++ v -> allocated s1 efs id) as Ha1.
  { intros id [Hid|Hid]%elem_of_app; [apply (al_old _ _ _ _ Hal); auto|by apply (al_new _ _ _ _ Hal)]. }
  assert (Z.of_nat (length (T ++ v)) = tree_len n1) as Hl1 by (rewrite length_app; lia).
  apply (increase_size_spec s1 di T v new_size); fold n1; [lia|lia| |done|done|done| |done|].
  - eapply tree_indirect; [|exact Ht]. intros id Hid. apply Hold, Ha. by eapply indirect_in.
  - apply Forall_forall. intros id Hid. by apply (allocated_range s1 efs id); [apply Hal|auto].
  - intros di' s2 Ht2 Hs2 Hk2 (Hh2 & Hfs2 & Hb2 & Hu2) Hio.
    assert (DiskInode_data_blocks di' = n1) as En1 by (unfold DiskInode_data_blocks; by rewrite Hs2).
    assert (forall id, id ∉ T ++ v -> st_blocks s2 !! id = st_blocks s1 !! id) as Hout.
    { intros id Hid. apply Hb2. intros Hi. apply Hid. by eapply indirect_in. }
    destruct (pool_frame s1 s2 efs (T ++ v) (al_pool _ _ _ _ Hal) Ha1 Hu1 Hh2 Hu2 Hout) as (Hp2 & Ha2 & Hfb).
    apply (HQ di' v s2); [|done|done|done| | |lia| |by intros id Hid; apply (al_new _ _ _ _ Hal)].
    + split; [|done|intros id Hid; apply Ha2; auto]. rewrite En1. split; [done|by apply Hu2|done|done|done|lia].
    + intros x Hx. assert (0 <= x / 512 < n0) as Hxn by zdiv_lia. pose proof (data_pos_range _ _ Hxn) as Hpos.
      unfold file_byte. rewrite zth_app_l by lia.
      assert (st_blocks s2 !! zth T (data_pos (x / 512)) = st_blocks s !! zth T (data_pos (x / 512))) as ->; [|done].
      rewrite Hb2; [apply Hold, Ha, zth_elem; lia|]. rewrite <- (zth_app_l T v) by lia.
      by apply (data_pos_direct (T ++ v) n1 n1); [done|done|done|lia].
    + split; [congruence|]. split; [congruence|]. split.
      * intros id Hid. rewrite Hout; [apply Hb1; lia|]. intros Hin. apply Ha1 in Hin.
        apply (allocated_range s1 efs id (al_pool _ _ _ _ Hal)) in Hin. lia.
      * intros id Hid Hn2. split; [by apply Ha2, (al_old _ _ _ _ Hal)|]. rewrite Hout; [by apply Hold|].
        intros [?|Hv]%elem_of_app; [done|]. by apply (al_new _ _ _ _ Hal) in Hv as [_ Hv].
    + rewrite Hfb. apply (al_free _ _ _ _ Hal).
Qed.

End IncreaseSize.

(** ** Operations on a handle *)

(** The inode of the handle [self] is [di], in a block of the inode area. *)
Record slot (s : Store) (efs : EasyFileSystem) (self : Inode) (di : DiskInode) (d : list Z) : Prop := {
  sl_block : st_blocks s !! in_block_id self = Some d;
  sl_ok : block_ok d;
  sl_offset : 0 <= in_block_offset self /\ in_block_offset self + 132 <= 512;
  sl_load : DiskInode_load (slice (Z.to_nat (in_block_offset self)) INODE_SZ d) = Some di;
  sl_area : in_block_id self < bm_start_block_id (data_bitmap efs)
}.

Lemma usable_ext s s' (L : list Z) :
  (length (st_held s') <= 13)%nat -> (forall id, id ∈ L -> (id ∉ st_held s') /\ st_blocks s' !! id = st_blocks s !! id) ->
  usable s L -> usable s' L.
Proof.
  intros Hr H [_ Hu]. split; [done|]. intros id Hid. destruct (H id Hid) as [Hn ->]. split; [done|]. by apply Hu.
Qed.

Lemma allocated_ext s s' efs id : (forall i, bm_start_block_id (data_bitmap efs) <= i -> st_blocks s' !! i = st_blocks s !! i) ->
  allocated s efs id -> allocated s' efs id.
Proof.
  intros Hb (k & -> & Hk & Hbit). exists k. split; [done|]. split; [done|]. unfold bm_bit in *.
  rewrite Hb; [done|]. pose proof BLOCK_BITS_pos. pose proof (Z.div_pos k BLOCK_BITS). lia.
Qed.

(** Locks on, and writes to, blocks before the data bitmap do not matter to a
    mounted file. *)
Lemma mounted_ext s s' efs di T :
  mounted s efs di T -> (length (st_held s') <= 13)%nat ->
  (forall id, id ∈ st_held s' -> id < bm_start_block_id (data_bitmap efs)) ->
  (forall id, bm_start_block_id (data_bitmap efs) <= id -> st_blocks s' !! id = st_blocks s !! id) ->
  mounted s' efs di T /\ free_bits s' efs = free_bits s efs /\
  (forall x, 0 <= x < 512 * DiskInode_data_blocks di -> file_byte (st_blocks s') T x = file_byte (st_blocks s) T x).
Proof.
  intros [Hf Hp Ha] Hr Hheld Hb. pose proof (po_start _ _ Hp) as Hst. pose proof (proj1 (po_bm _ _ Hp)) as Hnn.
  pose proof BLOCK_BITS_pos as HB.
  assert (forall k, 0 <= k -> bm_bit s' (data_bitmap efs) k = bm_bit s (data_bitmap efs) k) as Hbit.
  { intros k Hk. unfold bm_bit. rewrite Hb; [done|]. pose proof (Z.div_pos k BLOCK_BITS). lia. }
  assert (forall k, 0 <= k -> present s' efs k = present s efs k) as Hpr by (intros k Hk; apply present_ext; by rewrite Hb by lia).
  assert (forall L, (forall id, id ∈ L -> bm_start_block_id (data_bitmap efs) <= id) -> usable s L -> usable s' L) as Hu.
  { intros L HL. apply usable_ext; [done|]. intros id Hid. specialize (HL id Hid). split; [|by apply Hb].
    intros Hin. specialize (Hheld id Hin). lia. }
  assert (forall id, id ∈ T -> bm_start_block_id (data_bitmap efs) <= id) as HT.
  { intros id Hid. by apply (allocated_range s efs id Hp), Ha. }
  split; [|split].
  - split.
    + destruct Hf as [H1 H2 H3 H4 H5 H6]. split; [|by apply Hu|done|done|done|done].
      eapply tree_indirect; [|exact H1]. intros id Hid. apply Hb, HT. by eapply indirect_in.
    + destruct Hp as [[G0 G1] G2 G3 G4 G5 G6]. split; [|done|done|done| |].
      * split; [done|]. intros i Hi. destruct (G1 i Hi) as (d & [Hd _ _] & Hok). exists d. split; [|done].
        split; [rewrite Hb by lia; done| |unfold BLOCK_CACHE_SIZE; lia]. intros Hin. specialize (Hheld _ Hin). lia.
      * intros k Hk Hc Hp'. rewrite Hpr in Hp' by lia. apply Hu; [intros id ->%list_elem_of_singleton; lia|]. apply G5; [done| |done]. by rewrite <- Hbit by lia.
      * intros j k Hj Hk Hc. rewrite !Hpr by lia. apply (G6 j k); [done|done|]. by rewrite <- Hbit by lia.
    + intros id Hid. by apply (allocated_ext s), Ha.
  - unfold free_bits. apply (list_filter_iff' (taken s' efs) (taken s efs)). intros k Hk%elem_of_seqZ. unfold taken. by rewrite Hbit, Hpr by lia.
  - intros x Hx. unfold file_byte. rewrite Hb; [done|]. apply HT, zth_elem. rewrite (fl_len _ _ _ _ Hf).
    apply data_pos_range. zdiv_lia.
Qed.

Lemma modify_disk_inode_spec {V} s efs self di d (f : DiskInode -> prog (DiskInode * V)) Q :
  slot s efs self di d -> st_held s = [] -> 
  pwp (f di) (fun r s' => st_held s' = [in_block_id self] /\ inode_ok (fst r) /\
     (forall d', d' = overwrite (Z.to_nat (in_block_offset self))
          (DiskInode_store (fst r) (slice (Z.to_nat (in_block_offset self)) INODE_SZ d)) d -> block_ok d' ->
        DiskInode_load (slice (Z.to_nat (in_block_offset self)) INODE_SZ d') = Some (fst r) ->
        Q (snd r) (mkStore (<[in_block_id self := d']> (st_blocks s')) [] (st_fs s')))) (hold (in_block_id self) s) ->
  pwp (modify_disk_inode self f) Q s.
Proof.
  intros [Hb Hok [Ho1 Ho2] Hload _] Hh Hf. unfold modify_disk_inode.
  destruct Hok as [Hdl Hdb]. unfold BLOCK_SZ in Hdl.
  assert (Z.to_nat (in_block_offset self) + INODE_SZ <= length d)%nat as Hfit by (unfold INODE_SZ; lia).
  eapply pwp_block_modify; [split; [exact Hb|rewrite Hh; apply not_elem_of_nil|rewrite Hh; unfold BLOCK_CACHE_SIZE; cbn; lia]|unfold BLOCK_SZ, INODE_SZ in *; lia|].
  apply pwp_bind, pwp_punwrap. exists di. split; [done|]. apply pwp_bind. eapply pwp_mono; [exact Hf|]. cbn beta.
  intros [di' v] s' (Hh' & Hio & HQ). cbn [fst snd] in *. apply pwp_ret. rewrite Hh. split; [done|]. cbn [fst snd].
  pose proof (length_slice (Z.to_nat (in_block_offset self)) INODE_SZ d Hfit) as Hls.
  pose proof (DiskInode_store_length _ _ Hio Hls) as Hst. apply HQ; [done| |].
  - split; [unfold BLOCK_SZ; rewrite length_overwrite; lia|]. apply Forall_overwrite; [|done].
    rewrite DiskInode_store_words. apply Forall_app. split; [apply Forall_bind, Forall_forall; intros x _; apply le_bytes_byte|].
    constructor; [destruct (di_type di'); cbn; unfold is_byte; lia|]. apply Forall_app.
    split; [by repeat apply Forall_slice|apply le_bytes_byte].
  - pose proof (slice_overwrite_eq (Z.to_nat (in_block_offset self))
      (DiskInode_store di' (slice (Z.to_nat (in_block_offset self)) INODE_SZ d)) d) as E.
    rewrite Hst in E. rewrite E by lia. by apply DiskInode_load_store.
Qed.

Lemma read_disk_inode_spec {V} s efs self di d (f : DiskInode -> prog V) Q :
  slot s efs self di d -> st_held s = [] ->
  pwp (f di) (fun v s' => st_held s' = [in_block_id self] /\ Q v (set_held [] s')) (hold (in_block_id self) s) ->
  pwp (read_disk_inode self f) Q s.
Proof.
  intros [Hb Hok [Ho1 Ho2] Hload _] Hh Hf. unfold read_disk_inode. destruct Hok as [Hdl Hdb]. unfold BLOCK_SZ in Hdl.
  eapply pwp_block_read; [split; [exact Hb|rewrite Hh; apply not_elem_of_nil|rewrite Hh; unfold BLOCK_CACHE_SIZE; cbn; lia]|unfold BLOCK_SZ, INODE_SZ in *; lia|].
  apply pwp_bind, pwp_punwrap. exists di. split; [done|]. rewrite Hh. exact Hf.
Qed.

(** The words of an inode that was loaded are 32-bit. *)
Lemma slot_inode_ok s efs self di d : slot s efs self di d -> inode_ok di.
Proof.
  intros [_ [Hdl Hdb] [Ho1 Ho2] Hload _]. unfold BLOCK_SZ in Hdl. unfold DiskInode_load in Hload.
  set (e := slice (Z.to_nat (in_block_offset self)) INODE_SZ d) in *.
  assert (Forall is_byte e) as Hb by (by apply Forall_slice).
  assert (length e = 132%nat) as Hl by (unfold e; rewrite length_slice; unfold INODE_SZ; lia).
  assert (forall k, (k < 33)%nat -> is_u32 (word_at 4 e k)) as Hw.
  { intros k Hk. apply (word_at_range 4); [done|lia]. }
  destruct (e !! TYPE_OFFSET) as [b|]; [|done]. cbn [mbind option_bind] in Hload.
  destruct (type_of_byte b) as [t|]; [|done]. cbn [mbind option_bind] in Hload. apply (inj Some) in Hload. subst di.
  split; cbn [di_size di_direct di_indirect1 di_indirect2 di_parent_inode]; [by rewrite length_fmap| |apply Hw; lia].
  constructor; [apply Hw; lia|]. apply Forall_app. split.
  - apply Forall_fmap, Forall_forall. intros k Hk%elem_of_seq. apply Hw. lia.
  - repeat (apply Forall_cons_2; [apply Hw; lia|]). apply Forall_nil_2.
Qed.

(** The new blocks a file needs to reach [size] bytes. *)
Definition blocks_needed (di : DiskInode) (size : Z) : Z :=
  Z.max 0 (tree_len (DiskInode__data_blocks size) - tree_len (DiskInode_data_blocks di)).

(** The outcome of growing [di] to at least [size] bytes: [T'] starts with
    [T]. *)
Record grown (s s' : Store) (efs : EasyFileSystem) (di di' : DiskInode) (T T' : list Z) (size : Z) : Prop := {
  gr_mounted : mounted s' efs di' T';
  gr_size : di_size di' = Z.max (di_size di) size;
  gr_kind : same_kind di di';
  gr_ok : inode_ok di -> inode_ok di';
  gr_bytes : forall x, 0 <= x < 512 * DiskInode_data_blocks di -> file_byte (st_blocks s') T' x = file_byte (st_blocks s) T x;
  gr_frame : fs_frame efs T s s';
  gr_new : forall id, id ∈ T' -> id ∈ T \/ ~ allocated s efs id;
  gr_free : Z.of_nat (length (free_bits s efs)) = blocks_needed di size + Z.of_nat (length (free_bits s' efs))
}.

Lemma data_blocks_mono a b : 0 <= a <= b -> b <= 16540 * 512 ->
  0 <= DiskInode__data_blocks a <= DiskInode__data_blocks b /\ DiskInode__data_blocks b <= 16540.
Proof. intros H1 H2. destruct (data_blocks_spec a) as [-> ?]; [lia|]. destruct (data_blocks_spec b) as [-> ?]; [lia|]. zdiv_lia. Qed.

Lemma grow_spec efs s di T size Q :
  mounted s efs di T -> 0 <= size <= 16540 * 512 -> blocks_needed di size <= Z.of_nat (length (free_bits s efs)) ->
  (forall di' T' s', grown s s' efs di di' T T' size -> Q di' s') ->
  pwp (Inode_increase_size efs (u32_wrap size) di) Q s.
Proof.
  intros Hm Hs Hfree HQ. unfold u32_wrap. rewrite Z.mod_small by lia.
  pose proof (fl_size _ _ _ _ (mt_file _ _ _ _ Hm)) as Hsz. pose proof (fl_max _ _ _ _ (mt_file _ _ _ _ Hm)) as Hmax.
  unfold blocks_needed in *. destruct (decide (size < di_size di)) as [Hlt|Hge].
  - unfold Inode_increase_size. rewrite (proj2 (Z.ltb_lt _ _)) by done. apply pwp_ret. apply (HQ di T s).
    destruct (data_blocks_mono size (di_size di)) as [Hd1 Hd2]; [lia|lia|].
    pose proof (tree_len_mono _ _ Hd1). unfold DiskInode_data_blocks in *.
    split; try done; [lia|by left|]. unfold blocks_needed, DiskInode_data_blocks. lia.
  - destruct (data_blocks_mono (di_size di) size) as [Hd1 Hd2]; [lia|lia|]. pose proof (tree_len_mono _ _ Hd1).
    unfold DiskInode_data_blocks in *.
    apply (increase_size_file efs s di T); [done|lia|unfold DiskInode_data_blocks; lia|].
    unfold DiskInode_data_blocks. intros di' v s' H1 H2 H3 H4 H5 H6 H7 H8 H9. apply (HQ di' (T ++ v) s').
    split; try done; [lia| |unfold blocks_needed, DiskInode_data_blocks; lia].
    intros id [Hid|Hid]%elem_of_app; [by left|]. right. auto.
Qed.

Lemma pwp_with_fs {A} (p : prog A) Q s : st_fs s = false ->
  pwp p (fun a s' => Q a (mkStore (st_blocks s') (st_held s') false)) (mkStore (st_blocks s) (st_held s) true) ->
  pwp (with_fs p) Q s.
Proof. apply pwp_fs_lock. Qed.

Lemma fs_frame_data efs di T s s' : mounted s efs di T -> data_frame T (DiskInode_data_blocks di) s s' ->
  mounted s' efs di T /\ fs_frame efs T s s' /\ free_bits s' efs = free_bits s efs /\
  (forall id, allocated s' efs id <-> allocated s efs id).
Proof.
  intros [Hf Hp Ha] Hfr. pose proof Hfr as (Hh & Hfs & Hb & Hu).
  assert (forall id, id ∉ T -> st_blocks s' !! id = st_blocks s !! id) as Hout.
  { intros id Hid. apply Hb. intros k Hk <-. apply Hid, zth_elem. rewrite (fl_len _ _ _ _ Hf). by apply data_pos_range. }
  destruct (pool_frame s s' efs T Hp Ha (fl_usable _ _ _ _ Hf) Hh Hu Hout) as (Hp' & Ha' & Hfb).
  split; [|split; [|done]].
  - split; [by eapply file_data_frame|done|]. intros id Hid. apply Ha'. auto.
  - split; [done|]. split; [done|]. split.
    + intros id Hid. apply Hout. intros Hin. apply Ha in Hin. apply (allocated_range s efs id Hp) in Hin. lia.
    + intros id Hid Hn. split; [by apply Ha'|by apply Hout].
Qed.

(** The state of a handle's file between two operations: nothing is locked. *)
Record handle (s : Store) (efs : EasyFileSystem) (self : Inode) (di : DiskInode) (T : list Z) : Prop := {
  hd_slot : exists d, slot s efs self di d;
  hd_mounted : mounted s efs di T;
  hd_held : st_held s = [];
  hd_fs : st_fs s = false
}.

Lemma handle_inside s efs self di T : handle s efs self di T ->
  let s1 := hold (in_block_id self) (mkStore (st_blocks s) [] true) in
  mounted s1 efs di T /\ free_bits s1 efs = free_bits s efs.
Proof.
  intros [(d & Hsl) Hm Hh Hfs] s1. destruct (mounted_ext s s1 efs di T Hm) as (H1 & H2 & _).
  - cbn. lia.
  - cbn. intros id ->%list_elem_of_singleton. apply Hsl.
  - done.
  - done.
Qed.

(** What a write leaves: the inode has grown, the file's bytes are the old ones
    with [buf] at [off], and the other files and the other inodes are as they
    were. *)
Record wrote (s s' : Store) (efs : EasyFileSystem) (self : Inode) (di di' : DiskInode) (T T' : list Z) (off : Z) (buf : list Z)
  : Prop := {
  wr_handle : handle s' efs self di' T';
  wr_size : di_size di' = Z.max (di_size di) (off + Z.of_nat (length buf));
  wr_kind : same_kind di di';
  wr_bytes : forall x, 0 <= x < 512 * DiskInode_data_blocks di' ->
    if (off <=? x) && (x <? off + Z.of_nat (length buf)) then file_byte (st_blocks s') T' x = zth buf (x - off)
    else x < 512 * DiskInode_data_blocks di -> file_byte (st_blocks s') T' x = file_byte (st_blocks s) T x;
  wr_inodes : forall id, id < bm_start_block_id (data_bitmap efs) -> id <> in_block_id self ->
    st_blocks s' !! id = st_blocks s !! id;
  wr_slots : forall j n, (j + n <= Z.to_nat (in_block_offset self) \/ Z.to_nat (in_block_offset self) + INODE_SZ <= j)%nat ->
    (slice j n <$> st_blocks s' !! in_block_id self) = (slice j n <$> st_blocks s !! in_block_id self);
  wr_files : forall id, allocated s efs id -> id ∉ T -> allocated s' efs id /\ st_blocks s' !! id = st_blocks s !! id;
  wr_new : forall id, id ∈ T' -> id ∈ T \/ ~ allocated s efs id;
  wr_free : Z.of_nat (length (free_bits s efs)) = blocks_needed di (off + Z.of_nat (length buf)) + Z.of_nat (length (free_bits s' efs))
}.

Lemma Inode_write_at_spec efs self s di T off buf Q :
  handle s efs self di T -> 0 <= off -> buf <> [] -> Forall is_byte buf ->
  off + Z.of_nat (length buf) <= 16540 * 512 ->
  blocks_needed di (off + Z.of_nat (length buf)) <= Z.of_nat (length (free_bits s efs)) ->
  (forall s' di' T', wrote s s' efs self di di' T T' off buf -> Q (Z.of_nat (length buf)) s') ->
  pwp (Inode_write_at efs self off buf) Q s.
Proof.
  intros Hhd Hoff Hne Hbytes Hmax Hfree HQ. destruct (handle_inside _ _ _ _ _ Hhd) as [Hm1 Hf1].
  destruct Hhd as [(d & Hsl) Hm Hh Hfs].
  assert (0 < Z.of_nat (length buf)) as Hpos by (destruct buf; [done|cbn; lia]).
  unfold Inode_write_at. apply pwp_with_fs; [done|]. rewrite Hh. apply pwp_bind.
  assert (slot (mkStore (st_blocks s) [] true) efs self di d) as Hsl' by (destruct Hsl; by split).
  eapply modify_disk_inode_spec; [exact Hsl'|done|]. apply pwp_bind.
  apply (grow_spec efs _ di T); [done|lia|by rewrite Hf1|]. intros di' T' s2 [G1 G2 G3 G4 G5 G6 G7 G8].
  pose proof G6 as (Gh & Gfs & Gin & Gold). pose proof (mt_file _ _ _ _ G1) as Hfile.
  apply pwp_bind. apply (write_at_spec s2 di' T' (DiskInode_data_blocks di') off buf);
    [done|done|lia|pose proof (fl_size _ _ _ _ Hfile); zdiv_lia|done|].
  intros s3 Hfr3 Hw3. destruct (fs_frame_data efs di' T' s2 s3 G1 Hfr3) as (Hm3 & (Fh & Ffs & Fin & Fold) & Hfb3 & Ha3).
  apply pwp_ret. cbn [fst snd]. split; [by rewrite Fh, Gh|]. split; [apply G4; by eapply slot_inode_ok|].
  intros d' -> Hok' Hload'. apply pwp_bind, pwp_sync_all; [done|]. apply pwp_ret.
  apply (HQ _ di' T'). destruct Hsl as [Sb Sok So Sl Sa]. cbn [st_blocks st_held st_fs].
  set (s4 := mkStore _ [] false).
  assert (forall id, bm_start_block_id (data_bitmap efs) <= id -> st_blocks s4 !! id = st_blocks s3 !! id) as H43.
  { intros id Hid. unfold s4. cbn. rewrite lookup_insert_ne; [done|lia]. }
  destruct (mounted_ext s3 s4 efs di' T' Hm3) as (Hm4 & Hf4 & Hb4); [cbn; lia|intros id Hid; by apply elem_of_nil in Hid|done|].
  split.
  - split; [|done|done|done]. eexists. split; [apply lookup_insert_eq|done|done|done|done].
  - done.
  - done.
  - intros x Hx. rewrite Hb4 by lia. rewrite Hw3 by lia.
    destruct ((off <=? x) && (x <? off + Z.of_nat (length buf))); [done|]. intros Hx0. apply G5. lia.
  - intros id Hid Hid'. unfold s4. cbn. rewrite lookup_insert_ne by done. rewrite Fin, Gin by done. done.
  - intros j n Hj. unfold s4. cbn [st_blocks]. rewrite lookup_insert_eq, Sb.
    cbn [fmap option_fmap option_map fst]. f_equal.
    destruct Sok as [Sdl _]. unfold BLOCK_SZ in Sdl.
    assert (Z.to_nat (in_block_offset self) + INODE_SZ <= length d)%nat as Hfit by (unfold INODE_SZ; lia).
    assert (inode_ok di') as Hio by (apply G4; by eapply slot_inode_ok).
    pose proof (DiskInode_store_length _ _ Hio (length_slice _ _ _ Hfit)) as Hst.
    apply slice_overwrite_ne; rewrite Hst; [lia|lia].
  - intros id Hid Hn.
    assert (allocated (hold (in_block_id self) (mkStore (st_blocks s) [] true)) efs id) as Hid1 by (by apply (allocated_ext s)).
    destruct (Gold id Hid1 Hn) as [Ha2 E2].
    pose proof (allocated_range _ _ _ (mt_pool _ _ _ _ Hm) Hid) as (_ & _ & _ & Hge).
    destruct (decide (id ∈ T')) as [Hin|Hout]; [by destruct (G7 id Hin)|].
    destruct (Fold id Ha2 Hout) as [Ha3' E3]. split; [by apply (allocated_ext s3)|]. rewrite H43 by done. rewrite E3. exact E2.
  - intros id Hid. destruct (G7 id Hid) as [?|Hn]; [by left|right]. intros Ha. apply Hn. by apply (allocated_ext s).
  - rewrite Hf4, Hfb3. rewrite <- G8, Hf1. done.
Qed.

(** C7: writing through a handle.  On a file system at rest, [Inode::write_at]
    of a non-empty buffer returns its length, whatever new blocks of whatever
    level it needs, if the bitmap has that many free; afterwards the inode's
    size is the larger of the old one and the end of the write, the bytes
    written read back through [Inode::read_at], the other bytes of the file, the
    other inodes (those of the same block included) and the blocks of every
    other file are unchanged, and the file system is at rest again. *)
Theorem inode_write_then_read efs self s di T off buf off2 buf2 :
  handle s efs self di T -> 0 <= off -> buf <> [] -> Forall is_byte buf ->
  off + Z.of_nat (length buf) <= 16540 * 512 ->
  blocks_needed di (off + Z.of_nat (length buf)) <= Z.of_nat (length (free_bits s efs)) ->
  0 <= off2 -> off2 + Z.of_nat (length buf2) < 2 ^ 64 ->
  pwp (w ← Inode_write_at efs self off buf; r ← Inode_read_at self off2 buf2; mret (w, r))
    (fun r s' => fst r = Z.of_nat (length buf) /\
       exists di' T', wrote s s' efs self di di' T T' off buf /\
         let m := Z.max 0 (Z.min (off2 + Z.of_nat (length buf2)) (di_size di') - off2) in
         snd r = (m, overwrite 0 (file_bytes (st_blocks s') T' off2 m) buf2)) s.
Proof.
  intros Hhd Hoff Hne Hbytes Hmax Hfree Hoff2 Hlen2. apply pwp_bind.
  eapply Inode_write_at_spec; try done. intros s' di' T' Hw. destruct (wr_handle _ _ _ _ _ _ _ _ _ _ Hw) as [(d & Hsl) Hm Hh Hfs].
  destruct (handle_inside _ _ _ _ _ (wr_handle _ _ _ _ _ _ _ _ _ _ Hw)) as [Hm1 _].
  apply pwp_bind. unfold Inode_read_at. apply pwp_with_fs; [done|]. rewrite Hh.
  eapply read_disk_inode_spec; [destruct Hsl; by split|done|].
  eapply read_at_spec; [apply Hm1|done|done|]. cbn [st_held hold]. split; [done|].
  apply pwp_mret. cbn [fst snd]. split; [done|].
  assert (mkStore (st_blocks (set_held [] (hold (in_block_id self) (mkStore (st_blocks s') [] true)))) 
    (st_held (set_held [] (hold (in_block_id self) (mkStore (st_blocks s') [] true)))) false = s') as ->.
  { destruct s'. cbn in *. congruence. }
  exists di', T'. split; [done|]. done.
Qed.

(** *** A concrete file system *)

(** Block 2 holds an empty file and an empty directory; the data bitmap in
    block 3 has its first eight bits clear, for blocks 4 to 11. *)
Definition tiny_efs : EasyFileSystem := mkEfs (Bitmap_new 1 1) (Bitmap_new 3 1) 2 4.
Definition tiny_inodes : list Z :=
  overwrite 132 (DiskInode_store (DiskInode_initialize Directory 0) (replicate 132 0))
    (overwrite 0 (DiskInode_store (DiskInode_initialize File 0) (replicate 132 0)) (demo_block 0)).
Definition tiny_store : Store :=
  mkStore (<[2 := tiny_inodes]> (<[3 := 0 :: replicate 511 255]> demo_device)) [] false.
Definition tiny_file : Inode := mkInodeRef 2 0.
Definition tiny_dir : Inode := mkInodeRef 2 132.

Lemma pool_check s efs :
  bm_ok s (data_bitmap efs) ->
  0 < bm_start_block_id (data_bitmap efs) /\
    bm_start_block_id (data_bitmap efs) + bm_blocks (data_bitmap efs) <= data_area_start_block efs ->
  data_area_start_block efs + Bitmap_maximum (data_bitmap efs) <= 2 ^ 32 -> (length (st_held s) <= 13)%nat ->
  forallb (fun k => bm_bit s (data_bitmap efs) k || usableb s [data_area_start_block efs + k])
    (seqZ 0 (Bitmap_maximum (data_bitmap efs))) = true -> pool s efs.
Proof.
  intros H1 H2 H3 H4 H5.
  assert (forall k, 0 <= k < Bitmap_maximum (data_bitmap efs) -> bm_bit s (data_bitmap efs) k = false -> usable s [data_area_start_block efs + k]) as Hu.
  { intros k Hk Hc. apply usableb_sound. rewrite forallb_forall in H5. specialize (H5 k). rewrite Hc in H5. apply H5. apply list_elem_of_In, elem_of_seqZ. lia. }
  split; try done; [auto|]. intros j k Hj Hk Hc _. destruct (Hu j ltac:(lia) Hc) as [_ Hj']. destruct (Hj' _ ltac:(by left)) as (_ & d & E & _).
  apply bool_decide_eq_true. by rewrite E.
Qed.

Lemma tiny_pool : pool tiny_store tiny_efs.
Proof.
  apply pool_check; [|cbn; lia|by vm_compute|cbn; lia|vm_compute; reflexivity].
  split; [done|]. intros i Hi. cbn in Hi. assert (i = 0) as -> by lia. exists (0 :: replicate 511 255).
  split; [|by apply block_okb_sound].
  split; [vm_compute; reflexivity|apply not_elem_of_nil|by apply Nat.ltb_lt].
Qed.

Lemma tiny_handle self di : (self = tiny_file /\ di = DiskInode_initialize File 0) \/
  (self = tiny_dir /\ di = DiskInode_initialize Directory 0) -> handle tiny_store tiny_efs self di [].
Proof.
  intros Hor. split; [|split|done|done].
  - exists tiny_inodes. split; [by destruct Hor as [[-> _]|[-> _]]|by apply block_okb_sound; vm_compute| | |];
      destruct Hor as [[-> ->]|[-> ->]]; try (vm_compute; reflexivity); vm_compute; split; congruence.
  - assert (DiskInode_data_blocks di = 0) as -> by (by destruct Hor as [[_ ->]|[_ ->]]).
    split; [destruct Hor as [[_ ->]|[_ ->]]; apply tree_empty|by apply usableb_sound|done|done|constructor|].
    by destruct Hor as [[_ ->]|[_ ->]].
  - apply tiny_pool.
  - intros id Hid. by apply elem_of_nil in Hid.
Qed.

(** Writing two bytes at offset 600 of the empty file allocates two blocks. *)
Lemma inode_write_then_read_witness : exists s',
  run (w ← Inode_write_at tiny_efs tiny_file 600 [7; 8]; r ← Inode_read_at tiny_file 599 (replicate 4 1); mret (w, r)) tiny_store =
    Ok ((2, (3, [0; 7; 8; 1])), s').
Proof.
  destruct (pwp_run _ _ _ (inode_write_then_read tiny_efs tiny_file tiny_store (DiskInode_initialize File 0) [] 600 [7; 8] 599
    (replicate 4 1) (tiny_handle _ _ (or_introl (conj eq_refl eq_refl))) ltac:(lia) ltac:(done)
    ltac:(repeat (apply Forall_cons_2; [unfold is_byte; lia|]); apply Forall_nil_2) ltac:(cbn; lia)
    ltac:(vm_compute; congruence) ltac:(lia) ltac:(cbn; lia))) as (r & s' & Hrun & _).
  exists s'. rewrite Hrun. vm_compute in Hrun. injection Hrun as <- <-. reflexivity.
Defined.

(** ** Names in a directory *)

Lemma find_entry_app name e es : find_entry name es = None ->
  find_entry name (es ++ [e]) = if beq (fst e) name then Some (length es) else None.
Proof.
  unfold find_entry. induction es as [|e' es IH]; cbn; [by destruct (beq (fst e) name)|].
  destruct (beq (fst e') name); [done|]. destruct (position _ es) eqn:E; [done|]. intros _. rewrite IH by done.
  by destruct (beq (fst e) name).
Qed.

Lemma find_entry_app_Some name e es j : find_entry name es = Some j -> find_entry name (es ++ [e]) = Some j.
Proof.
  unfold find_entry. revert j. induction es as [|e' es IH]; cbn; [done|]. intros j.
  destruct (beq (fst e') name); [done|]. destruct (position _ es) as [j'|] eqn:E; [|done]. rewrite (IH j') by done. done.
Qed.

(** The inode number a directory gives for a name. *)
Definition dir_lookup (name : list Z) (es : list dentry) : option Z :=
  match find_entry name es with Some j => snd <$> es !! j | None => None end.

Lemma dir_lookup_app name e es :
  dir_lookup name (es ++ [e]) = match dir_lookup name es with
    | Some i => Some i | None => if beq (fst e) name then Some (snd e) else None end.
Proof.
  unfold dir_lookup. destruct (find_entry name es) as [j|] eqn:E.
  - rewrite (find_entry_app_Some _ _ _ _ E). pose proof (position_lt _ _ _ E) as Hlt. rewrite lookup_app_l by done.
    by destruct (lookup_lt_is_Some_2 es j Hlt) as [x ->].
  - rewrite (find_entry_app _ _ _ E). destruct (beq (fst e) name); [|done]. by rewrite lookup_app_r, Nat.sub_diag by done.
Qed.

Lemma dir_lookup_None name es : dir_lookup name es = None <-> find_entry name es = None.
Proof.
  unfold dir_lookup. destruct (find_entry name es) as [j|] eqn:E; [|done].
  destruct (lookup_lt_is_Some_2 es j (position_lt _ _ _ E)) as [x ->]. done.
Qed.

Lemma append_dirent_spec efs s di T es e Q :
  mounted s efs di T -> directory s di T (DiskInode_data_blocks di) es -> entry_ok e ->
  32 * (Z.of_nat (length es) + 1) <= 16540 * 512 ->
  blocks_needed di (32 * (Z.of_nat (length es) + 1)) <= Z.of_nat (length (free_bits s efs)) ->
  (forall di' T' s', mounted s' efs di' T' -> directory s' di' T' (DiskInode_data_blocks di') (es ++ [e]) ->
     (inode_ok di -> inode_ok di') -> same_kind di di' -> fs_frame efs T s s' ->
     Z.of_nat (length (free_bits s efs)) = blocks_needed di (32 * (Z.of_nat (length es) + 1)) + Z.of_nat (length (free_bits s' efs)) ->
     (forall id, id ∈ T' -> id ∈ T \/ ~ allocated s efs id) -> Q (di', tt) s') ->
  pwp (append_dirent efs (fst e) (snd e) di) Q s.
Proof.
  intros Hm Hd He Hmax Hfree HQ. unfold append_dirent. rewrite (file_count_dir _ _ _ _ _ Hd). change DIRENT_SZ with 32.
  rewrite (Z.mul_comm (Z.of_nat (length es) + 1) 32). apply pwp_bind.
  pose proof (dr_size _ _ _ _ _ Hd) as Hsz. pose proof (fl_size _ _ _ _ (dr_file _ _ _ _ _ Hd)) as Hfs.
  apply (grow_spec efs s di T); [done|lia|done|]. intros di' T' s1 [G1 G2 G3 G4 G5 G6 G7 G8].
  rewrite new_entry by done. apply pwp_bind, pwp_ret, pwp_bind.
  change (DirEntry_as_bytes (entry_of e)) with (entry_bytes e).
  pose proof (mt_file _ _ _ _ G1) as Hf1. pose proof (fl_size _ _ _ _ Hf1) as Hfs1. pose proof (entry_bytes_length e He) as Hle.
  rewrite (Z.mul_comm _ 32). eapply write_at_spec; [exact Hf1|lia|lia|zdiv_lia|by apply entry_bytes_byte|].
  rewrite Hle. intros s2 Hfr Hw. destruct (fs_frame_data efs di' T' s1 s2 G1 Hfr) as (Hm2 & (Fh & Ffs & Fin & Fold) & Hfb2 & _).
  apply pwp_ret. destruct G6 as (Gh & Gfs & Gin & Gold). apply (HQ di' T'); [done| |done|done| | |done].
  - split.
    + apply Hm2.
    + destruct G3 as [-> _]. apply Hd.
    + rewrite G2, length_app. cbn. lia.
    + apply Forall_app. split; [apply Hd|]. by apply Forall_cons_2; [|apply Forall_nil_2].
    + intros k e' Hk. destruct (decide (k < length es)%nat) as [Hlt|Hge].
      * rewrite lookup_app_l in Hk by done. rewrite <- (dr_bytes _ _ _ _ _ Hd _ _ Hk).
        unfold file_bytes. apply list_fmap_ext. intros j x Hx. apply lookup_seqZ in Hx as [-> Hj].
        rewrite Hw by lia. rewrite (proj2 (Z.leb_gt _ _)) by lia. cbn [andb]. apply G5. lia.
      * rewrite lookup_app_r in Hk by lia. destruct (k - length es)%nat as [|j] eqn:Ek; [|by destruct j]. cbn in Hk. injection Hk as <-.
        change 32 with (Z.of_nat 32) at 2. rewrite <- Hle. apply file_bytes_written. rewrite Hle. intros x Hx.
        rewrite Hw by lia. replace (Z.of_nat k) with (Z.of_nat (length es)) in * by lia.
        rewrite (proj2 (Z.leb_le _ _)), (proj2 (Z.ltb_lt _ _)) by lia. done.
  - split; [congruence|]. split; [congruence|]. split.
    + intros id Hid. rewrite Fin, Gin by done. done.
    + intros id Hid Hn. destruct (Gold id Hid Hn) as [Ha2 E2]. destruct (decide (id ∈ T')) as [Hin|Hout]; [by destruct (G7 id Hin)|].
      destruct (Fold id Ha2 Hout) as [Ha3 E3]. split; [done|]. by rewrite E3.
  - by rewrite Hfb2, G8.
Qed.
