(* ===== verification/Directory.v ===== *)
(** * Directories as maps from names to inodes (easy-fs/src/vfs.rs)

    The operations on a directory handle ([find], [link], [rename] and
    [detach]) implement operations on a finite map from names to inode
    numbers: the refinement is stated for whole sequences of calls, with the
    representation invariant [dir_state] between two of them. *)

From S2P Require Import Prelude BlockCache Bitmap Layout Tree FileData Efs Vfs VfsProps.

(** ** The abstract directory *)

Abbreviation dir_map := (gmap (list Z) Z) (only parsing).

Inductive dir_op :=
  | OpFind (name : list Z)
  | OpLink (name : list Z) (id : Z)
  | OpRename (old new : list Z)
  | OpDetach (name : list Z).

Inductive dir_result := RInode (r : option Inode) | RBool (b : bool).

(** What an operation answers, and the directory it leaves. *)
Definition dir_step (efs : EasyFileSystem) (op : dir_op) (M : dir_map) : dir_result * dir_map :=
  match op with
  | OpFind name => (RInode ((fun id => Inode_new (EasyFileSystem_get_disk_inode_pos efs id)) <$> M !! name), M)
  | OpLink name id =>
      if reserved_name name then (RBool false, M)
      else match M !! name with
           | Some _ => (RBool false, M)
           | None => (RBool true, <[name := id]> M)
           end
  | OpRename old new =>
      if reserved_name old || reserved_name new then (RBool false, M)
      else match M !! old, M !! new with
           | Some id, None => (RBool true, <[new := id]> (delete old M))
           | _, _ => (RBool false, M)
           end
  | OpDetach name =>
      if reserved_name name then (RBool false, M)
      else (RBool (bool_decide (is_Some (M !! name))), delete name M)
  end.

(** The same operation of the code. *)
Definition dir_exec (efs : EasyFileSystem) (self : Inode) (op : dir_op) : prog dir_result :=
  match op with
  | OpFind name => r ← Inode_find efs self name; Ret (RInode r)
  | OpLink name id => b ← Inode_link efs self name id; Ret (RBool b)
  | OpRename old new => b ← Inode_rename efs self old new; Ret (RBool b)
  | OpDetach name => b ← Inode_detach self name; Ret (RBool b)
  end.

Fixpoint dir_spec (efs : EasyFileSystem) (ops : list dir_op) (M : dir_map) : list dir_result * dir_map :=
  match ops with
  | [] => ([], M)
  | op :: ops' =>
      let r := dir_step efs op M in
      let rs := dir_spec efs ops' (snd r) in
      (fst r :: fst rs, snd rs)
  end.

Fixpoint dir_run (efs : EasyFileSystem) (self : Inode) (ops : list dir_op) : prog (list dir_result) :=
  match ops with
  | [] => Ret []
  | op :: ops' => r ← dir_exec efs self op; rs ← dir_run efs self ops'; Ret (r :: rs)
  end.

(** Names a directory entry can hold: short enough, and without a zero byte
    ([DirEntry::new] does not check it). *)
Definition op_ok (op : dir_op) : Prop :=
  match op with
  | OpLink name id => entry_ok (name, id)
  | OpRename _ new => entry_ok (new, 0)
  | _ => True
  end.

(** The number of operations that may add an entry. *)
Definition op_cost (op : dir_op) : nat :=
  match op with OpLink _ _ | OpRename _ _ => 1 | _ => 0 end.
Definition appends (ops : list dir_op) : nat := sum_list_with op_cost ops.

(** ** The entries of a directory as a map *)

Definition entries_map (es : list dentry) : dir_map := list_to_map es.
Definition names (es : list dentry) : list (list Z) := fst <$> es.

Lemma entries_map_cons n i es : entries_map ((n, i) :: es) = <[n := i]> (entries_map es).
Proof. done. Qed.

Lemma dir_lookup_map es name : dir_lookup name es = entries_map es !! name.
Proof.
  unfold dir_lookup, find_entry. induction es as [|[n i] es IH]; [done|]. rewrite entries_map_cons. cbn [position fst].
  destruct (beq n name) eqn:E.
  - apply beq_true in E as ->. by rewrite lookup_insert_eq.
  - assert (n <> name) as Hne by (intros ->; by rewrite (proj2 (beq_true _ _) eq_refl) in E).
    rewrite lookup_insert_ne, <- IH by done. by destruct (position _ es).
Qed.

Lemma find_entry_lookup es name j : find_entry name es = Some j -> exists id, es !! j = Some (name, id).
Proof.
  intros H. apply position_Some in H as ([n i] & Hj & E & _). apply beq_true in E. cbn in E. subst. eauto.
Qed.

Lemma entries_map_absent es n : n ∉ names es -> entries_map es !! n = None.
Proof. apply not_elem_of_list_to_map_1. Qed.

Lemma entries_map_app es e : fst e ∉ names es -> entries_map (es ++ [e]) = <[fst e := snd e]> (entries_map es).
Proof.
  intros Hn. destruct e as [n i]. induction es as [|[n' i'] es IH]; [done|]. cbn [app]. rewrite !entries_map_cons.
  apply not_elem_of_cons in Hn as [H1 H2]. rewrite IH by done. cbn [fst snd] in *. by rewrite insert_insert_ne.
Qed.

Lemma entries_map_delete es j name id : NoDup (names es) -> es !! j = Some (name, id) ->
  entries_map (delete j es) = delete name (entries_map es).
Proof.
  revert j. induction es as [|[n i] es IH]; intros j Hnd Hj; [done|]. apply NoDup_cons in Hnd as [Hn Hnd].
  destruct j as [|j].
  - injection Hj as -> ->. rewrite entries_map_cons. change (delete 0%nat ((name, id) :: es)) with es.
    rewrite delete_insert_id; [done|by apply entries_map_absent].
  - change (delete (S j) ((n, i) :: es)) with ((n, i) :: delete j es). rewrite !entries_map_cons.
    rewrite (IH j Hnd Hj). assert (n <> name) by (intros ->; apply Hn; apply list_elem_of_fmap; exists (name, id); split; [done|by eapply list_elem_of_lookup_2]).
    by rewrite delete_insert_ne.
Qed.

Lemma names_delete es j : NoDup (names es) -> NoDup (names (delete j es)).
Proof.
  unfold names. rewrite list_fmap_delete. intros H. eapply sublist_NoDup; [exact H|apply sublist_delete].
Qed.

Lemma dir_lookup_absent es name : dir_lookup name es = None -> name ∉ names es.
Proof. rewrite dir_lookup_map. apply not_elem_of_list_to_map_2. Qed.

(** ** The representation *)

(** The handle [self] is a directory with the entries [es]; [fl] is the state
    of the file-system mutex. *)
Record dir_at (s : Store) (efs : EasyFileSystem) (self : Inode) (es : list dentry) (fl : bool) (di : DiskInode) (T : list Z)
  : Prop := {
  da_slot : exists d, slot s efs self di d;
  da_mounted : mounted s efs di T;
  da_dir : directory s di T (DiskInode_data_blocks di) es;
  da_held : st_held s = [];
  da_fs : st_fs s = fl
}.

(** There is room for [k] more entries, in the directory and on the disk: an
    entry takes at most a data block and two index blocks. *)
Definition room (s : Store) (efs : EasyFileSystem) (es : list dentry) (k : nat) : Prop :=
  Z.of_nat (length es + k) <= 264640 /\ 3 * Z.of_nat k <= Z.of_nat (length (free_bits s efs)).

Definition dir_state (s : Store) (efs : EasyFileSystem) (self : Inode) (es : list dentry) (k : nat) (fl : bool) : Prop :=
  NoDup (names es) /\ room s efs es k /\ exists di T, dir_at s efs self es fl di T.

(** A directory only depends on the bytes of its file. *)
Lemma directory_ext s s' di T n es : directory s di T n es -> file s' di T n ->
  (forall x, 0 <= x < 512 * n -> file_byte (st_blocks s') T x = file_byte (st_blocks s) T x) -> directory s' di T n es.
Proof.
  intros Hd Hf Hb. pose proof (dr_size _ _ _ _ _ Hd) as Hs. pose proof (fl_size _ _ _ _ (dr_file _ _ _ _ _ Hd)) as Hfs.
  split; [done|apply Hd|done|apply Hd|]. intros k e Hk. rewrite <- (dr_bytes _ _ _ _ _ Hd k e Hk).
  apply file_bytes_ext. intros x Hx. apply lookup_lt_Some in Hk. apply Hb. lia.
Qed.

Lemma tree_mono bs i T n m : 0 <= m <= n -> tree bs i T n -> tree bs i T m.
Proof.
  intros Hm [H1 H2 H3 H4 H5]. split; [done| | | |].
  - intros k Hk. apply H2. lia.
  - intros H. destruct H3 as [? Ht]; [lia|]. split; [done|]. eapply table_mono; [|exact Ht]. lia.
  - intros H. destruct H4 as [? Ht]; [lia|]. split; [done|]. eapply table_mono; [|exact Ht]. unfold subs. zdiv_lia.
  - intros H k Hk. eapply table_mono; [|apply H5; [lia|]]; [lia|]. unfold subs in *. zdiv_lia.
Qed.

(** Truncation by [remove_directory_entry] leaves the tree with a prefix of
    its blocks. *)
Lemma directory_prefix s efs di T n es : directory s di T n es -> pool s efs ->
  (forall id, id ∈ T -> allocated s efs id) ->
  let n' := DiskInode_data_blocks di in
  exists T', mounted s efs di T' /\ directory s di T' n' es /\ (forall id, id ∈ T' -> id ∈ T).
Proof.
  intros Hd Hp Ha n'. pose proof (dr_file _ _ _ _ _ Hd) as Hf. pose proof (fl_size _ _ _ _ Hf) as Hsz. pose proof (fl_max _ _ _ _ Hf) as Hmax.
  destruct (data_blocks_spec (di_size di)) as [En Hn]; [lia|]. change (n' = (di_size di + 511) / 512) in En.
  assert (0 <= n' <= n) as Hn' by (rewrite En; zdiv_lia). pose proof (tree_len_mono n' n Hn') as Hmono.
  pose proof (fl_len _ _ _ _ Hf) as Hlen. set (T' := take (Z.to_nat (tree_len n')) T).
  assert (forall k, 0 <= k < tree_len n' -> zth T k = zth T' k) as HT.
  { intros k Hk. unfold zth, T'. by rewrite lookup_take_lt by lia. }
  assert (forall x, 0 <= x < 512 * n' -> file_byte (st_blocks s) T' x = file_byte (st_blocks s) T x) as HB.
  { intros x Hx. unfold file_byte. rewrite HT; [done|]. apply data_pos_range. zdiv_lia. }
  assert (forall id, id ∈ T' -> id ∈ T) as Hin by (intros id Hid; apply elem_of_take in Hid as (j & Hj & _); by eapply list_elem_of_lookup_2).
  assert (file s di T' n') as Hf'.
  { split.
    - eapply tree_ext; [lia|exact HT|]. eapply tree_mono; [exact Hn'|apply Hf].
    - destruct (fl_usable _ _ _ _ Hf) as [U1 U2]. split; [done|]. intros id Hid. apply U2, Hin, Hid.
    - unfold T'. rewrite length_take. lia.
    - lia.
    - apply sublist_NoDup with T; [apply Hf|apply sublist_take].
    - rewrite En. zdiv_lia. }
  exists T'. split; [split; [exact Hf'|done|]|].
  - intros id Hid. apply Ha, Hin, Hid.
  - split; [|exact Hin]. split; [done|apply Hd|apply Hd|apply Hd|]. intros k e Hk. rewrite <- (dr_bytes _ _ _ _ _ Hd k e Hk).
    apply file_bytes_ext. intros x Hx. apply lookup_lt_Some in Hk. pose proof (dr_size _ _ _ _ _ Hd).
    apply HB. rewrite En. zdiv_lia.
Qed.

(** Locking and releasing the handle's own block, or changing the inode in it,
    keeps the rest. *)
Lemma dir_at_inside s efs self es fl di T : dir_at s efs self es fl di T ->
  let s1 := hold (in_block_id self) s in
  mounted s1 efs di T /\ directory s1 di T (DiskInode_data_blocks di) es /\ free_bits s1 efs = free_bits s efs.
Proof.
  intros [(d & Hsl) Hm Hd Hh Hfs] s1. destruct (mounted_ext s s1 efs di T Hm) as (H1 & H2 & H3).
  - cbn. rewrite Hh. cbn. lia.
  - cbn. rewrite Hh. intros id ->%list_elem_of_singleton. apply Hsl.
  - done.
  - split; [done|]. split; [|done]. eapply directory_ext; [exact Hd|apply H1|done].
Qed.

Lemma set_held_hold id s : st_held s = [] -> set_held [] (hold id s) = s.
Proof. destruct s. cbn. intros ->. done. Qed.

Lemma dir_find_inside s efs self es fl di T name Q :
  dir_at s efs self es fl di T -> Q (dir_lookup name es) s ->
  pwp (read_disk_inode self (Inode_find_inode_id name)) Q s.
Proof.
  intros Hda HQ. destruct (dir_at_inside _ _ _ _ _ _ _ Hda) as (Hm1 & Hd1 & _). destruct Hda as [(d & Hsl) Hm Hd Hh Hfs].
  eapply read_disk_inode_spec; [exact Hsl|done|]. eapply find_inode_id_spec; [exact Hd1|].
  cbn [st_held hold]. rewrite Hh. split; [done|]. destruct s. cbn in *. subst. exact HQ.
Qed.

(** The state after a change of the handle's inode and file. *)
Lemma dir_at_settle s3 efs self es fl di0 di T d d' :
  mounted s3 efs di T -> directory s3 di T (DiskInode_data_blocks di) es ->
  block_ok d' -> DiskInode_load (slice (Z.to_nat (in_block_offset self)) INODE_SZ d') = Some di ->
  (exists s, slot s efs self di0 d) -> st_fs s3 = fl ->
  let s4 := mkStore (<[in_block_id self := d']> (st_blocks s3)) [] (st_fs s3) in
  dir_at s4 efs self es fl di T /\ free_bits s4 efs = free_bits s3 efs.
Proof.
  intros Hm Hd Hok Hload (s & [_ _ So _ Sa]) Hfs s4.
  destruct (mounted_ext s3 s4 efs di T Hm) as (H1 & H2 & H3).
  - cbn. lia.
  - cbn. intros id Hid. by apply elem_of_nil in Hid.
  - intros id Hid. unfold s4. cbn [st_blocks]. rewrite lookup_insert_ne by lia. done.
  - split; [|done]. split; [|done| |done|done].
    + exists d'. split; [apply lookup_insert_eq|done|done|done|done].
    + eapply directory_ext; [exact Hd|apply H1|done].
Qed.

Lemma blocks_needed_one di n : di_size di = 32 * n -> 0 <= n -> n + 1 <= 264640 ->
  blocks_needed di (32 * (n + 1)) <= 3.
Proof.
  intros Hs Hn Hm. unfold blocks_needed, DiskInode_data_blocks. rewrite Hs.
  destruct (data_blocks_spec (32 * n)) as [-> _]; [lia|]. destruct (data_blocks_spec (32 * (n + 1))) as [-> _]; [lia|].
  set (a := (32 * n + 511) / 512). assert (a <= (32 * (n + 1) + 511) / 512 <= a + 1) as Ha by (unfold a; zdiv_lia).
  set (b := (32 * (n + 1) + 511) / 512) in *. clearbody a b. unfold tree_len, subs.
  destruct (Z.ltb_spec 28 a), (Z.ltb_spec 28 b), (Z.ltb_spec 156 a), (Z.ltb_spec 156 b); zdiv_lia.
Qed.

Lemma dir_append_inside s efs self es fl k e Q :
  dir_state s efs self es (S k) fl -> entry_ok e -> fst e ∉ names es ->
  (forall s', dir_state s' efs self (es ++ [e]) k fl -> Q tt s') ->
  pwp (modify_disk_inode self (append_dirent efs (fst e) (snd e))) Q s.
Proof.
  intros (Hnd & [Hr1 Hr2] & di & T & Hda) He Hn HQ. destruct (dir_at_inside _ _ _ _ _ _ _ Hda) as (Hm1 & Hd1 & Hf1).
  destruct Hda as [(d & Hsl) Hm Hd Hh Hfs]. pose proof (dr_size _ _ _ _ _ Hd) as Hsz.
  pose proof (blocks_needed_one di (Z.of_nat (length es)) Hsz ltac:(lia) ltac:(lia)) as Hbn.
  eapply modify_disk_inode_spec; [exact Hsl|done|].
  eapply append_dirent_spec; [exact Hm1|exact Hd1|done|lia|rewrite Hf1; lia|].
  intros di' T' s3 Hm3 Hd3 Hio _ (Fh & Ffs & _) Hfree _. cbn [fst snd]. split; [rewrite Fh; cbn; by rewrite Hh|].
  split; [apply Hio; by eapply slot_inode_ok|]. intros d' _ Hok' Hload'. apply HQ.
  destruct (dir_at_settle s3 efs self _ fl di di' T' d d' Hm3 Hd3 Hok' Hload' (ex_intro _ _ Hsl)) as [H4 Hf4]; [rewrite Ffs; done|].
  split; [|split; [|by exists di', T']].
  - unfold names. rewrite fmap_app. apply NoDup_app. split; [done|]. split; [|apply NoDup_singleton].
    intros x Hx ->%list_elem_of_singleton. done.
  - unfold room. rewrite Hf4, length_app. rewrite Hf1 in Hfree. cbn. lia.
Qed.

Lemma dir_remove_inside s efs self es fl k name Q :
  dir_state s efs self es k fl ->
  match find_entry name es with
  | Some j => forall s', dir_state s' efs self (delete j es) k fl -> Q true s'
  | None => forall s', dir_state s' efs self es k fl -> Q false s'
  end ->
  pwp (modify_disk_inode self (Inode_remove_directory_entry name)) Q s.
Proof.
  intros (Hnd & [Hr1 Hr2] & di & T & Hda) HQ. destruct (dir_at_inside _ _ _ _ _ _ _ Hda) as (Hm1 & Hd1 & Hf1).
  destruct Hda as [(d & Hsl) Hm Hd Hh Hfs]. pose proof (slot_inode_ok _ _ _ _ _ Hsl) as Hio.
  eapply modify_disk_inode_spec; [exact Hsl|done|].
  eapply remove_directory_entry_spec; [exact Hd1|]. destruct (find_entry name es) as [j|] eqn:E.
  - intros s3 Hd3 Hfr. pose proof Hfr as (Fh & Ffs & _). destruct (fs_frame_data efs di T _ s3 Hm1 Hfr) as (Hm3 & _ & Hfb & _).
    cbn [fst snd]. split; [rewrite Fh; cbn; by rewrite Hh|]. pose proof (position_lt _ _ _ E) as Hj.
    split.
    { destruct Hio as [Hi1 Hi2 Hi3]. apply Forall_cons in Hi2 as [_ Hi2]. split; [done| |done].
      cbn [di_size set_size di_direct di_indirect1 di_indirect2]. apply Forall_cons. split; [unfold is_u32; lia|done]. }
    intros d' _ Hok' Hload'.
    destruct (directory_prefix s3 efs _ T _ _ Hd3 (mt_pool _ _ _ _ Hm3) (mt_alloc _ _ _ _ Hm3)) as (T' & Hm3' & Hd3' & _).
    destruct (dir_at_settle s3 efs self _ fl di _ T' d d' Hm3' Hd3' Hok' Hload' (ex_intro _ _ Hsl)) as [H4 Hf4]; [rewrite Ffs; done|].
    apply HQ. split; [by apply names_delete|]. split; [|by eexists _, T'].
    unfold room. rewrite Hf4, Hfb, Hf1. rewrite length_delete by (apply lookup_lt_is_Some_2; exact Hj). lia.
  - cbn [fst snd]. split; [cbn; by rewrite Hh|]. split; [done|]. intros d' _ Hok' Hload'.
    destruct (dir_at_settle (hold (in_block_id self) s) efs self es fl di di T d d' Hm1 Hd1 Hok' Hload' (ex_intro _ _ Hsl) Hfs) as [H4 Hf4].
    apply HQ. split; [done|]. split; [|by eexists di, T]. unfold room. rewrite Hf4, Hf1. done.
Qed.

(** ** The operations on a handle *)

(** A directory at rest that stands for the map [M], with room for [k] more
    entries. *)
Definition dir_repr (efs : EasyFileSystem) (self : Inode) (M : dir_map) (k : nat) (s : Store) : Prop :=
  exists es, M = entries_map es /\ dir_state s efs self es k false.

Lemma dir_at_fs s efs self es fl di T fl' : dir_at s efs self es fl di T ->
  dir_at (mkStore (st_blocks s) (st_held s) fl') efs self es fl' di T /\
  free_bits (mkStore (st_blocks s) (st_held s) fl') efs = free_bits s efs.
Proof.
  intros [(d & Hsl) Hm Hd Hh Hfs]. set (s' := mkStore _ _ _).
  destruct (mounted_ext s s' efs di T Hm) as (H1 & H2 & H3).
  - cbn. rewrite Hh. cbn. lia.
  - cbn. rewrite Hh. intros id Hid. by apply elem_of_nil in Hid.
  - done.
  - split; [|done]. split; [|done| |done|done].
    + exists d. by destruct Hsl.
    + eapply directory_ext; [exact Hd|apply H1|done].
Qed.

Lemma dir_state_fs s efs self es k fl fl' : dir_state s efs self es k fl ->
  dir_state (mkStore (st_blocks s) (st_held s) fl') efs self es k fl'.
Proof.
  intros (Hnd & [Hr1 Hr2] & di & T & Hda). destruct (dir_at_fs _ _ _ _ _ _ _ fl' Hda) as [Hda' Hfree].
  split; [done|]. split; [unfold room; by rewrite Hfree|]. by exists di, T.
Qed.

Lemma dir_state_weaken s efs self es k k' fl : (k' <= k)%nat -> dir_state s efs self es k fl -> dir_state s efs self es k' fl.
Proof. intros H (Hnd & [Hr1 Hr2] & Hx). split; [done|]. split; [|done]. split; lia. Qed.

Lemma dir_with_fs {A} (p : prog A) efs self es k s Q :
  dir_state s efs self es k false ->
  (forall s1, dir_state s1 efs self es k true ->
     pwp p (fun a s' => Q a (mkStore (st_blocks s') (st_held s') false)) s1) ->
  pwp (with_fs p) Q s.
Proof.
  intros Hs Hp. apply pwp_with_fs; [by destruct Hs as (_ & _ & di & T & [])|]. by apply Hp, (dir_state_fs _ _ _ _ _ false).
Qed.

Lemma dir_find_state s efs self es k fl name Q : dir_state s efs self es k fl -> Q (dir_lookup name es) s ->
  pwp (read_disk_inode self (Inode_find_inode_id name)) Q s.
Proof. intros (_ & _ & di & T & Hda). by eapply dir_find_inside. Qed.

Lemma dir_sync s efs self es k fl Q : dir_state s efs self es k fl -> Q tt s -> pwp block_cache_sync_all Q s.
Proof. intros (_ & _ & di & T & Hda) HQ. apply pwp_sync_all; [apply Hda|done]. Qed.

Lemma find_repr efs self M k name s : dir_repr efs self M k s ->
  pwp (Inode_find efs self name) (fun r s' =>
    r = (fun id => Inode_new (EasyFileSystem_get_disk_inode_pos efs id)) <$> M !! name /\ dir_repr efs self M k s') s.
Proof.
  intros (es & -> & Hs). eapply dir_with_fs; [exact Hs|]. intros s1 (Hnd & Hr & di & T & Hda).
  destruct (dir_at_inside _ _ _ _ _ _ _ Hda) as (Hm1 & Hd1 & _). pose proof Hda as [(d & Hsl) Hm Hd Hh Hfs].
  eapply read_disk_inode_spec; [exact Hsl|done|]. apply pwp_bind. eapply find_inode_id_spec; [exact Hd1|].
  apply pwp_ret. cbn [st_held hold]. rewrite Hh. split; [done|]. split.
  - rewrite <- dir_lookup_map. unfold dir_lookup. destruct (find_entry name es) as [j|]; [|done]. by destruct (es !! j).
  - exists es. split; [done|]. eapply (dir_state_fs (set_held [] (hold _ s1)) _ _ _ _ true).
    rewrite (set_held_hold _ _ Hh).
    split; [done|]. split; [done|]. by exists di, T.
Qed.

Lemma link_repr efs self M k name id s : dir_repr efs self M (S k) s -> entry_ok (name, id) ->
  pwp (Inode_link efs self name id) (fun b s' =>
    (RBool b, snd (dir_step efs (OpLink name id) M)) = dir_step efs (OpLink name id) M /\
    dir_repr efs self (snd (dir_step efs (OpLink name id) M)) k s') s.
Proof.
  intros (es & -> & Hs) He. unfold Inode_link. cbn [dir_step]. destruct (reserved_name name).
  - apply pwp_ret. cbn [snd]. split; [done|]. exists es. split; [done|]. eapply dir_state_weaken; [|exact Hs]. lia.
  - eapply dir_with_fs; [exact Hs|]. intros s1 Hs1. apply pwp_bind. eapply dir_find_state; [exact Hs1|].
    rewrite <- dir_lookup_map. destruct (dir_lookup name es) eqn:E.
    + apply pwp_ret. cbn [snd]. split; [done|]. exists es. split; [done|]. eapply dir_state_fs, dir_state_weaken; [|exact Hs1]. lia.
    + apply pwp_bind. eapply (dir_append_inside _ _ _ _ _ _ (name, id)); [exact Hs1|done|by apply dir_lookup_absent|].
      intros s2 Hs2. apply pwp_bind. eapply dir_sync; [exact Hs2|]. apply pwp_ret. cbn [snd]. split; [done|].
      exists (es ++ [(name, id)]). split; [by rewrite entries_map_app by (by apply dir_lookup_absent)|]. by eapply dir_state_fs.
Qed.

Lemma detach_repr efs self M k name s : dir_repr efs self M k s ->
  pwp (Inode_detach self name) (fun b s' =>
    (RBool b, snd (dir_step efs (OpDetach name) M)) = dir_step efs (OpDetach name) M /\
    dir_repr efs self (snd (dir_step efs (OpDetach name) M)) k s') s.
Proof.
  intros (es & -> & Hs). unfold Inode_detach. cbn [dir_step]. destruct (reserved_name name).
  { apply pwp_ret. cbn [snd]. split; [done|]. by exists es. }
  apply pwp_bind. eapply dir_remove_inside; [exact Hs|]. pose proof (dir_lookup_map es name) as Hm. pose proof (proj1 Hs) as Hnd.
  destruct (find_entry name es) as [j|] eqn:E; intros s1 Hs1; (apply pwp_bind; eapply dir_sync; [exact Hs1|]); apply pwp_ret; cbn [snd].
  - destruct (find_entry_lookup _ _ _ E) as [id Hj]. unfold dir_lookup in Hm. rewrite E, Hj in Hm. cbn in Hm. rewrite <- Hm.
    split; [done|]. exists (delete j es). split; [by rewrite (entries_map_delete es j name id)|done].
  - unfold dir_lookup in Hm. rewrite E in Hm. rewrite <- Hm. split; [done|]. exists es. split; [|done].
    by rewrite delete_id.
Qed.

Lemma dir_entry_ok s efs self es k fl e : dir_state s efs self es k fl -> e ∈ es -> entry_ok e.
Proof.
  intros (_ & _ & di & T & Hda) He. pose proof (dr_entries _ _ _ _ _ (da_dir _ _ _ _ _ _ _ Hda)) as HF.
  rewrite Forall_forall in HF. by apply HF.
Qed.

Lemma rename_repr efs self M k old new s : dir_repr efs self M (S k) s -> entry_ok (new, 0) ->
  pwp (Inode_rename efs self old new) (fun b s' =>
    (RBool b, snd (dir_step efs (OpRename old new) M)) = dir_step efs (OpRename old new) M /\
    dir_repr efs self (snd (dir_step efs (OpRename old new) M)) k s') s.
Proof.
  intros (es & -> & Hs) [Hne [Hnl _]]. unfold Inode_rename. cbn [dir_step].
  assert (forall s1, dir_state s1 efs self es (S k) true -> dir_repr efs self (entries_map es) k (mkStore (st_blocks s1) (st_held s1) false)) as Hsame.
  { intros s1 Hs1. exists es. split; [done|]. eapply dir_state_fs, dir_state_weaken; [|exact Hs1]. lia. }
  destruct (reserved_name old || reserved_name new).
  { apply pwp_ret. cbn [snd]. split; [done|]. exists es. split; [done|]. eapply dir_state_weaken; [|exact Hs]. lia. }
  eapply dir_with_fs; [exact Hs|]. intros s1 Hs1. apply pwp_bind. eapply dir_find_state; [exact Hs1|].
  rewrite <- !dir_lookup_map. destruct (dir_lookup old es) as [id|] eqn:Eo; [|by apply pwp_ret; cbn [snd]; auto].
  apply pwp_bind. eapply dir_find_state; [exact Hs1|]. destruct (dir_lookup new es) eqn:En; [by apply pwp_ret; cbn [snd]; auto|].
  destruct (find_entry old es) as [j|] eqn:Ej; [|by unfold dir_lookup in Eo; rewrite Ej in Eo].
  destruct (find_entry_lookup _ _ _ Ej) as [id' Hj]. assert (id' = id) as ->.
  { unfold dir_lookup in Eo. rewrite Ej, Hj in Eo. by injection Eo. }
  pose proof (dir_entry_ok _ _ _ _ _ _ _ Hs1 (list_elem_of_lookup_2 _ _ _ Hj)) as (_ & _ & Hu).
  pose proof (dir_lookup_absent _ _ En) as Hnew. pose proof (position_lt _ _ _ Ej) as Hlt.
  apply pwp_bind. eapply (dir_append_inside _ _ _ _ _ _ (new, id)); [exact Hs1|done|done|]. intros s2 Hs2.
  apply pwp_bind. eapply dir_remove_inside; [exact Hs2|]. rewrite (find_entry_app_Some _ _ _ _ Ej). intros s3 Hs3.
  apply pwp_bind. eapply dir_sync; [exact Hs3|]. apply pwp_ret. cbn [snd]. split; [done|].
  exists (delete j (es ++ [(new, id)])). split; [|by eapply dir_state_fs].
  rewrite (entries_map_delete _ j old id); [|apply Hs2|by rewrite lookup_app_l by done].
  rewrite entries_map_app by done. cbn [fst snd]. rewrite delete_insert_ne; [done|].
  intros E. apply Hnew. rewrite <- E. apply list_elem_of_fmap. exists (old, id). split; [done|by eapply list_elem_of_lookup_2].
Qed.

Lemma dir_exec_spec efs self op M k s : dir_repr efs self M (op_cost op + k) s -> op_ok op ->
  pwp (dir_exec efs self op) (fun r s' => r = fst (dir_step efs op M) /\
    dir_repr efs self (snd (dir_step efs op M)) k s') s.
Proof.
  intros Hs Hop.
  assert (forall b s', (RBool b, snd (dir_step efs op M)) = dir_step efs op M /\ dir_repr efs self (snd (dir_step efs op M)) k s' ->
    pwp (Ret (RBool b)) (fun r s'' => r = fst (dir_step efs op M) /\ dir_repr efs self (snd (dir_step efs op M)) k s'') s') as Hb.
  { intros b s' [E Hr]. apply pwp_ret. split; [by rewrite <- E|done]. }
  destruct op as [name|name id|old new|name]; cbn [dir_exec]; apply pwp_bind.
  - eapply pwp_mono; [by apply find_repr|]. intros r s' [-> Hr]. by apply pwp_ret.
  - eapply pwp_mono; [by apply link_repr|]. exact Hb.
  - eapply pwp_mono; [by apply rename_repr|]. exact Hb.
  - eapply pwp_mono; [by apply detach_repr|]. exact Hb.
Qed.

(** A directory is a finite map.  On a directory handle at rest that
    stands for the map [M] and has room for the entries the [link] and [rename]
    calls may add, any sequence of [find], [link], [rename] and [detach] calls
    runs to its end (no panic, no lock taken twice), gives exactly the answers
    the map gives, and leaves the directory standing for the resulting map; a
    rename to a name in use, a link of a name in use and the reserved names fail
    and change nothing. *)
Theorem directory_refines_map efs self ops M s k :
  dir_repr efs self M (appends ops + k) s -> Forall op_ok ops ->
  pwp (dir_run efs self ops) (fun rs s' =>
    rs = fst (dir_spec efs ops M) /\ dir_repr efs self (snd (dir_spec efs ops M)) k s') s.
Proof.
  revert M s. induction ops as [|op ops IH]; intros M s Hs Hops; cbn [dir_run dir_spec].
  - by apply pwp_ret.
  - apply Forall_cons in Hops as [Hop Hops]. apply pwp_bind.
    eapply pwp_mono; [apply dir_exec_spec; [|exact Hop]; unfold appends in Hs; cbn [sum_list_with] in Hs; by rewrite <- Nat.add_assoc in Hs|].
    intros r s1 [-> Hs1]. apply pwp_bind. eapply pwp_mono; [by apply IH|].
    intros rs s2 [-> Hs2]. by apply pwp_ret.
Qed.

Lemma tiny_dir_repr : dir_repr tiny_efs tiny_dir ∅ 2 tiny_store.
Proof.
  destruct (tiny_handle tiny_dir (DiskInode_initialize Directory 0) (or_intror (conj eq_refl eq_refl))) as [Hsl Hm Hh Hfs].
  exists []. split; [done|]. split; [constructor|]. split; [split; [cbn; lia|vm_compute; congruence]|].
  exists (DiskInode_initialize Directory 0), []. split; [done|done| |done|done].
  split; [apply Hm|done|done|constructor|]. intros k e Hk. by rewrite lookup_nil in Hk.
Qed.

(** Linking, renaming, looking up and removing in an empty directory. *)
Definition tiny_ops : list dir_op :=
  [OpLink [97] 3; OpRename [97] [98]; OpFind [98]; OpFind [97]; OpDetach [98]; OpFind [98]].

Lemma directory_refines_map_witness : exists s',
  run (dir_run tiny_efs tiny_dir tiny_ops) tiny_store =
    Ok ([RBool true; RBool true; RInode (Some (mkInodeRef 3 0)); RInode None; RBool true; RInode None], s') /\
  dir_repr tiny_efs tiny_dir ∅ 0 s'.
Proof.
  assert (Forall op_ok tiny_ops) as Hops.
  { repeat constructor; unfold is_byte, is_u32, NAME_LENGTH_LIMIT; cbn; lia. }
  destruct (pwp_run _ _ _ (directory_refines_map tiny_efs tiny_dir tiny_ops ∅ tiny_store 0 tiny_dir_repr Hops))
    as (r & s' & Hrun & -> & Hr).
  exists s'. split; [exact Hrun|exact Hr].
Defined.
