(* ===== verification/Pipe.v ===== *)
(** * Pipes (os/src/fs/pipe.rs)

    The ring buffer is a record with the code's fields; an access out of the
    array is a panic.  A call of [read] or [write] is cut where the code lets
    go of the buffer's lock: one iteration of its loop is one atomic step, and
    the calls of several threads interleave between iterations. *)

From S2P Require Import Prelude.

(** ** The ring buffer *)

Definition RING_BUFFER_SIZE : Z := 32.

Inductive RingBufferStatus := Full | Empty | Normal.

(** [write_end] is the weak pointer to the write end: the number of the
    [Pipe] it points to. *)
Record PipeRingBuffer := mkRing {
  rb_arr : list Z;
  rb_head : Z;
  rb_tail : Z;
  rb_status : RingBufferStatus;
  rb_write_end : option Z
}.

Definition PipeRingBuffer_new : PipeRingBuffer :=
  mkRing (replicate (Z.to_nat RING_BUFFER_SIZE) 0) 0 0 Empty None.

Definition PipeRingBuffer_set_write_end (write_end : Z) (s : PipeRingBuffer) : PipeRingBuffer :=
  mkRing (rb_arr s) (rb_head s) (rb_tail s) (rb_status s) (Some write_end).

Definition PipeRingBuffer_write_byte (byte : Z) : M PipeRingBuffer unit := fun s =>
  if decide (Z.to_nat (rb_tail s) < length (rb_arr s))%nat then
    let arr := <[Z.to_nat (rb_tail s) := byte]> (rb_arr s) in
    let tail := (rb_tail s + 1) mod RING_BUFFER_SIZE in
    let status := if tail =? rb_head s then Full else Normal in
    Ok (tt, mkRing arr (rb_head s) tail status (rb_write_end s))
  else Err Panic.

Definition PipeRingBuffer_read_byte : M PipeRingBuffer Z := fun s =>
  match rb_arr s !! Z.to_nat (rb_head s) with
  | Some c =>
      let head := (rb_head s + 1) mod RING_BUFFER_SIZE in
      let status := if head =? rb_tail s then Empty else Normal in
      Ok (c, mkRing (rb_arr s) head (rb_tail s) status (rb_write_end s))
  | None => Err Panic
  end.

Definition PipeRingBuffer_available_read (s : PipeRingBuffer) : Z :=
  match rb_status s with
  | Empty => 0
  | _ => if rb_head s <? rb_tail s then rb_tail s - rb_head s
         else rb_tail s + RING_BUFFER_SIZE - rb_head s
  end.

Definition PipeRingBuffer_available_write (s : PipeRingBuffer) : Z :=
  match rb_status s with
  | Full => 0
  | _ => RING_BUFFER_SIZE - PipeRingBuffer_available_read s
  end.

(** The strong counts of the [Pipe] objects: a weak pointer upgrades while
    its count is positive. *)
Abbreviation strong_counts := (gmap Z nat) (only parsing).
Definition upgrade (strong : strong_counts) (p : Z) : bool := bool_decide (default O (strong !! p) <> O).

Definition PipeRingBuffer_all_write_ends_closed (strong : strong_counts) : M PipeRingBuffer bool :=
  s ← get; w ← unwrap (rb_write_end s); mret (negb (upgrade strong w)).

(** ** Pipes *)

Record Pipe := mkPipe { pi_readable : bool; pi_writable : bool; pi_buffer : Z }.

Definition Pipe_read_end_with_buffer (buffer : Z) : Pipe := mkPipe true false buffer.
Definition Pipe_write_end_with_buffer (buffer : Z) : Pipe := mkPipe false true buffer.

(** The shared objects: ring buffers and pipe ends by number, and the counts
    of the pipe ends. *)
Record PipeHeap := mkHeap {
  ph_rings : gmap Z PipeRingBuffer;
  ph_pipes : gmap Z Pipe;
  ph_strong : strong_counts
}.

(** [make_pipe] with the numbers of the new objects. *)
Definition make_pipe (buffer r w : Z) : M PipeHeap (Z * Z) := fun h =>
  let ring := PipeRingBuffer_set_write_end w PipeRingBuffer_new in
  Ok ((r, w), mkHeap (<[buffer := ring]> (ph_rings h))
    (<[w := Pipe_write_end_with_buffer buffer]> (<[r := Pipe_read_end_with_buffer buffer]> (ph_pipes h)))
    (<[w := 1%nat]> (<[r := 1%nat]> (ph_strong h)))).

(** ** The loops of [read] and [write]

    How an iteration of the loop ends: the call returns, the thread yields, or
    the loop goes on at once. *)
Inductive iteration := Return (n : Z) | Yield | Again.

(** The inner [for] of [read]: [got] are the bytes put in the user's buffer,
    [want] is its length. *)
Fixpoint read_bytes (want : Z) (n : nat) (got : list Z) : M PipeRingBuffer (list Z * iteration) :=
  match n with
  | O => mret (got, Again)
  | S n' =>
      if Z.of_nat (length got) <? want then
        c ← PipeRingBuffer_read_byte;
        let got' := got ++ [c] in
        if Z.of_nat (length got') =? want then mret (got', Return want)
        else read_bytes want n' got'
      else mret (got, Return (Z.of_nat (length got)))
  end.

Definition ring_read (strong : strong_counts) (want : Z) (got : list Z) : M PipeRingBuffer (list Z * iteration) :=
  loop_read ← gets PipeRingBuffer_available_read;
  if loop_read =? 0 then
    closed ← PipeRingBuffer_all_write_ends_closed strong;
    if closed : bool then mret (got, Return (Z.of_nat (length got))) else mret (got, Yield)
  else read_bytes want (Z.to_nat loop_read) got.

(** The inner [for] of [write]: [todo] are the bytes of the user's buffer that
    are left, [want] is its length. *)
Fixpoint write_bytes (want : Z) (n : nat) (todo : list Z) : M PipeRingBuffer (list Z * iteration) :=
  match n with
  | O => mret (todo, Again)
  | S n' =>
      match todo with
      | byte :: todo' =>
          PipeRingBuffer_write_byte byte;;
          match todo' with
          | [] => mret ([], Return want)
          | _ => write_bytes want n' todo'
          end
      | [] => mret ([], Return want)
      end
  end.

Definition ring_write (want : Z) (todo : list Z) : M PipeRingBuffer (list Z * iteration) :=
  loop_write ← gets PipeRingBuffer_available_write;
  if loop_write =? 0 then mret (todo, Yield)
  else write_bytes want (Z.to_nat loop_write) todo.

(** Work on the ring buffer of the pipe end [p], with its lock held. *)
Definition with_ring {A : Type} (p : Z) (f : Pipe -> M PipeRingBuffer A) : M PipeHeap A := fun h =>
  match ph_pipes h !! p with
  | Some pipe =>
      match ph_rings h !! pi_buffer pipe with
      | Some rb =>
          match f pipe rb with
          | Ok (a, rb') => Ok (a, mkHeap (<[pi_buffer pipe := rb']> (ph_rings h)) (ph_pipes h) (ph_strong h))
          | Err e => Err e
          end
      | None => Err Panic
      end
  | None => Err Panic
  end.

(** One iteration of [File::read] and of [File::write] of a pipe end. *)
Definition Pipe_read (p : Z) (want : Z) (got : list Z) : M PipeHeap (list Z * iteration) :=
  strong ← gets ph_strong;
  with_ring p (fun pipe => massert (pi_readable pipe);; ring_read strong want got).

Definition Pipe_write (p : Z) (want : Z) (todo : list Z) : M PipeHeap (list Z * iteration) :=
  with_ring p (fun pipe => massert (pi_writable pipe);; ring_write want todo).

(** Cloning and dropping the [Arc] of a pipe end ([dup], [fork], [close]). *)
Definition clone_end (p : Z) : M PipeHeap unit :=
  modify (fun h => mkHeap (ph_rings h) (ph_pipes h) (alter S p (ph_strong h))).
Definition drop_end (p : Z) : M PipeHeap unit :=
  modify (fun h => mkHeap (ph_rings h) (ph_pipes h) (alter Nat.pred p (ph_strong h))).

(** ** The buffer as a queue *)

Record ring_ok (s : PipeRingBuffer) : Prop := {
  ro_len : length (rb_arr s) = 32%nat;
  ro_head : 0 <= rb_head s < 32;
  ro_tail : 0 <= rb_tail s < 32;
  ro_status : match rb_status s with Normal => rb_head s <> rb_tail s | _ => rb_head s = rb_tail s end;
  ro_end : is_Some (rb_write_end s)
}.

Definition queue (s : PipeRingBuffer) : list Z :=
  (fun i => default 0 (rb_arr s !! Z.to_nat ((rb_head s + i) mod 32))) <$> seqZ 0 (PipeRingBuffer_available_read s).

Lemma available_range s : ring_ok s -> 0 <= PipeRingBuffer_available_read s <= 32 /\
  PipeRingBuffer_available_write s = 32 - PipeRingBuffer_available_read s /\
  rb_tail s = (rb_head s + PipeRingBuffer_available_read s) mod 32 /\
  (PipeRingBuffer_available_read s = 32 <-> rb_status s = Full) /\ (PipeRingBuffer_available_read s = 0 <-> rb_status s = Empty).
Proof.
  intros [Hl Hh Ht Hs _]. unfold PipeRingBuffer_available_write, PipeRingBuffer_available_read, RING_BUFFER_SIZE.
  destruct (rb_status s) eqn:E; cbn; destruct (Z.ltb_spec (rb_head s) (rb_tail s)); repeat split; intros;
    solve [done|lia|zdiv_lia|exfalso; zdiv_lia].
Qed.

Lemma length_queue s : ring_ok s -> Z.of_nat (length (queue s)) = PipeRingBuffer_available_read s.
Proof. intros H. apply available_range in H. unfold queue. rewrite length_fmap, length_seqZ. lia. Qed.

Lemma write_byte_spec s b : ring_ok s -> (length (queue s) < 32)%nat ->
  wp (PipeRingBuffer_write_byte b) (fun _ s' => ring_ok s' /\ queue s' = queue s ++ [b] /\ rb_write_end s' = rb_write_end s) s.
Proof.
  intros Hs Hq. pose proof (length_queue s Hs) as Hlq. destruct (available_range s Hs) as (Ha & _ & Htl & _ & _).
  set (a := PipeRingBuffer_available_read s) in *. destruct Hs as [Hl Hh Ht Hst He].
  unfold wp, PipeRingBuffer_write_byte, RING_BUFFER_SIZE. rewrite decide_True by lia.
  set (s' := mkRing _ _ _ _ _). assert (ring_ok s') as Hs'.
  { unfold s'. split; cbn; [by rewrite length_insert|done|apply Z.mod_pos_bound; lia| |done].
    destruct (Z.eqb_spec ((rb_tail s + 1) mod 32) (rb_head s)); cbn; congruence. }
  assert (PipeRingBuffer_available_read s' = a + 1) as Ha'.
  { unfold s', PipeRingBuffer_available_read, RING_BUFFER_SIZE. cbn [rb_arr rb_head rb_tail rb_status].
    destruct (Z.eqb_spec ((rb_tail s + 1) mod 32) (rb_head s)) as [E|E]; cbn;
      destruct (Z.ltb_spec (rb_head s) ((rb_tail s + 1) mod 32)); zdiv_lia. }
  split; [done|]. split; [|done]. unfold queue. rewrite Ha'. fold a.
  rewrite seqZ_app, fmap_app by lia. f_equal.
  - apply list_fmap_ext. intros i x Hx. apply lookup_seqZ in Hx as [-> Hi]. unfold s'. cbn [rb_arr rb_head].
    rewrite list_lookup_insert_ne; [done|]. rewrite Htl. intros Heq%Z2Nat.inj; [|apply Z.mod_pos_bound; lia|apply Z.mod_pos_bound; lia].
    clear - Hh Hi Ha Hlq Hq Heq. zdiv_lia.
  - unfold s'. cbn [rb_arr rb_head]. rewrite seqZ_cons, seqZ_nil by lia. cbn [fmap list_fmap]. rewrite Z.add_0_l, <- Htl.
    by rewrite list_lookup_insert_eq by lia.
Qed.

Lemma read_byte_spec s c q : ring_ok s -> queue s = c :: q ->
  wp PipeRingBuffer_read_byte (fun c' s' => c' = c /\ ring_ok s' /\ queue s' = q /\ rb_write_end s' = rb_write_end s) s.
Proof.
  intros Hs Hq. pose proof (length_queue s Hs) as Hlq. rewrite Hq in Hlq. cbn in Hlq. destruct (available_range s Hs) as (Ha & _ & Htl & _ & _).
  unfold queue in Hq. set (a := PipeRingBuffer_available_read s) in *. destruct Hs as [Hl Hh Ht Hst He].
  rewrite seqZ_cons in Hq by lia. cbn [fmap list_fmap] in Hq. injection Hq as Hc Hq.
  rewrite Z.add_0_r, Z.mod_small in Hc by lia.
  unfold wp, PipeRingBuffer_read_byte, RING_BUFFER_SIZE. destruct (lookup_lt_is_Some_2 (rb_arr s) (Z.to_nat (rb_head s))) as [c' Hc']; [lia|].
  rewrite Hc' in Hc |- *. cbn in Hc. subst c'. set (s' := mkRing _ _ _ _ _). assert (ring_ok s') as Hs'.
  { unfold s'. split; cbn; [done|apply Z.mod_pos_bound; lia|done| |done].
    destruct (Z.eqb_spec ((rb_head s + 1) mod 32) (rb_tail s)); cbn; congruence. }
  assert (PipeRingBuffer_available_read s' = a - 1) as Ha'.
  { unfold s', PipeRingBuffer_available_read, RING_BUFFER_SIZE. cbn [rb_arr rb_head rb_tail rb_status].
    destruct (Z.eqb_spec ((rb_head s + 1) mod 32) (rb_tail s)) as [E|E]; cbn;
      destruct (Z.ltb_spec ((rb_head s + 1) mod 32) (rb_tail s)); zdiv_lia. }
  split; [done|]. split; [done|]. split; [|done]. rewrite <- Hq. unfold queue. rewrite Ha'.
  apply list_eq. intros i. rewrite !list_lookup_fmap. destruct (decide (Z.of_nat i < a - 1)).
  - rewrite !lookup_seqZ_lt by lia. unfold s'. cbn -[Z.modulo]. do 3 f_equal. zdiv_lia.
  - by rewrite !lookup_seqZ_ge by lia.
Qed.

(** What one iteration does: the number of bytes moved and how it ends. *)
Definition moved (n left : nat) : nat := Nat.min n left.
Definition ended (n left : nat) (want : Z) : iteration :=
  if decide (left <= n)%nat then Return want else Again.

Lemma read_bytes_spec want n : forall s got, ring_ok s -> (n <= length (queue s))%nat -> (0 < n)%nat ->
  Z.of_nat (length got) <= want ->
  let left := (Z.to_nat want - length got)%nat in
  wp (read_bytes want n got) (fun r s' => ring_ok s' /\ rb_write_end s' = rb_write_end s /\
    fst r = got ++ take (moved n left) (queue s) /\ queue s' = drop (moved n left) (queue s) /\ snd r = ended n left want) s.
Proof.
  induction n as [|n IH]; intros s got Hs Hn Hpos Hgot left; [lia|]. cbn [read_bytes].
  destruct (Z.ltb_spec (Z.of_nat (length got)) want) as [Hlt|Hge].
  2: { apply wp_ret. assert (left = 0%nat) as -> by (unfold left; lia). unfold moved, ended. rewrite Nat.min_0_r, decide_True by lia.
       cbn. rewrite app_nil_r. split_and!; try done. f_equal. lia. }
  destruct (queue s) as [|c q] eqn:Hq; [cbn in Hn; lia|]. apply wp_bind. eapply wp_mono; [by eapply read_byte_spec|].
  intros c' s1 (-> & Hs1 & Hq1 & He1). cbn beta.
  assert (moved (S n) left = S (moved n (left - 1))) as Hmv by (unfold moved, left; lia). rewrite Hmv.
  destruct (Z.eqb_spec (Z.of_nat (length (got ++ [c]))) want) as [E|E]; rewrite length_app in E; cbn in E.
  - apply wp_ret. assert (left = 1%nat) as Hl by (unfold left; lia). rewrite Hl in *. unfold moved, ended. rewrite Nat.min_0_r.
    rewrite decide_True by lia. by split_and!.
  - assert (0 < n \/ n = 0)%nat as [Hn0| ->] by lia.
    + eapply wp_mono; [apply IH; [done|rewrite Hq1; cbn in Hn; lia|done|rewrite length_app; cbn; lia]|].
      intros r s' (H1 & H2 & H3 & H4 & H5). rewrite length_app in *. cbn [length] in *.
      replace (Z.to_nat want - (length got + 1))%nat with (left - 1)%nat in * by (unfold left; lia).
      split; [done|]. split; [congruence|]. split; [rewrite H3, Hq1, <- app_assoc; done|]. split; [by rewrite H4, Hq1|].
      rewrite H5. unfold ended. repeat case_decide; (done || lia).
    + apply wp_ret. unfold moved, ended. cbn [Nat.min take]. rewrite decide_False by (unfold left; lia). by split_and!.
Qed.

Lemma write_bytes_spec want n : forall s todo, ring_ok s -> (n <= 32 - length (queue s))%nat -> (0 < n)%nat ->
  wp (write_bytes want n todo) (fun r s' => ring_ok s' /\ rb_write_end s' = rb_write_end s /\
    fst r = drop (moved n (length todo)) todo /\ queue s' = queue s ++ take (moved n (length todo)) todo /\
    snd r = ended n (length todo) want) s.
Proof.
  induction n as [|n IH]; intros s todo Hs Hn Hpos; [lia|]. cbn [write_bytes]. unfold moved in *.
  destruct todo as [|b todo].
  { apply wp_ret. unfold ended. rewrite decide_True by (cbn; lia). cbn. rewrite app_nil_r. by split_and!. }
  apply wp_bind. eapply wp_mono; [apply write_byte_spec; [done|lia]|]. intros _ s1 (Hs1 & Hq1 & He1). cbn beta.
  change (length (b :: todo)) with (S (length todo)). rewrite <- Nat.succ_min_distr. destruct todo as [|b' todo].
  - apply wp_ret. unfold ended. rewrite decide_True by (cbn; lia). cbn [length]. rewrite Nat.min_0_r. by split_and!.
  - assert (0 < n \/ n = 0)%nat as [Hn0| ->] by lia.
    + eapply wp_mono; [apply IH; [done|rewrite Hq1, length_app; cbn; lia|done]|].
      intros r s' (H1 & H2 & H3 & H4 & H5). split; [done|]. split; [congruence|]. split; [done|].
      split; [by rewrite H4, Hq1, <- app_assoc|]. rewrite H5. unfold ended. cbn [length]. repeat case_decide; (done || lia).
    + apply wp_ret. unfold ended. rewrite decide_False by (cbn; lia). by split_and!.
Qed.

(** One iteration of [read]: nothing to read and a write end open, yield;
    nothing to read and every write end closed, return; bytes to read, take as
    many as there are and as fit. *)
Lemma ring_read_spec strong want s got w : ring_ok s -> Z.of_nat (length got) <= want -> rb_write_end s = Some w ->
  let left := (Z.to_nat want - length got)%nat in
  let k := moved (length (queue s)) left in
  wp (ring_read strong want got) (fun r s' => ring_ok s' /\ rb_write_end s' = Some w /\
    fst r = got ++ take k (queue s) /\ queue s' = drop k (queue s) /\
    snd r = match queue s with
            | [] => if upgrade strong w then Yield else Return (Z.of_nat (length got))
            | _ => ended (length (queue s)) left want
            end /\ (queue s = [] -> s' = s)) s.
Proof.
  intros Hs Hgot Hw left k. pose proof (length_queue s Hs) as Hlq. unfold ring_read. apply wp_bind, wp_gets.
  destruct (Z.eqb_spec (PipeRingBuffer_available_read s) 0) as [E|E].
  - assert (queue s = []) as Hq by (apply nil_length_inv; lia). unfold PipeRingBuffer_all_write_ends_closed.
    wp_simpl. exists w. split; [done|]. unfold k, moved. rewrite Hq. cbn [length Nat.min take drop].
    destruct (upgrade strong w); cbn [negb]; apply wp_ret; rewrite app_nil_r; by split_and!.
  - replace (Z.to_nat (PipeRingBuffer_available_read s)) with (length (queue s)) by lia.
    eapply wp_mono; [apply read_bytes_spec; [done|done|lia|done]|]. intros r s' (H1 & H2 & H3 & H4 & H5).
    split; [done|]. split; [congruence|]. split; [done|]. split; [done|]. destruct (queue s); [cbn in Hlq; lia|done].
Qed.

Lemma ring_write_spec want s todo : ring_ok s ->
  let room := (32 - length (queue s))%nat in
  let k := moved room (length todo) in
  wp (ring_write want todo) (fun r s' => ring_ok s' /\ rb_write_end s' = rb_write_end s /\
    fst r = drop k todo /\ queue s' = queue s ++ take k todo /\
    snd r = (if decide (room = 0%nat) then Yield else ended room (length todo) want) /\ (room = 0%nat -> s' = s)) s.
Proof.
  intros Hs room k. pose proof (length_queue s Hs) as Hlq. destruct (available_range s Hs) as (Ha & Haw & _).
  unfold ring_write. apply wp_bind, wp_gets. rewrite Haw.
  destruct (Z.eqb_spec (32 - PipeRingBuffer_available_read s) 0) as [E|E].
  - assert (room = 0%nat) as Hr by (unfold room; lia). apply wp_ret. unfold k, moved. rewrite Hr, decide_True by done. cbn.
    rewrite app_nil_r. by split_and!.
  - replace (Z.to_nat (32 - PipeRingBuffer_available_read s)) with room by (unfold room; lia).
    eapply wp_mono; [apply write_bytes_spec; [done|unfold room; lia|unfold room; lia]|]. intros r s' (H1 & H2 & H3 & H4 & H5).
    rewrite decide_False by (unfold room; lia). split_and!; try done. unfold room; lia.
Qed.

(** ** The pipe as a bounded queue *)

(** The objects that [make_pipe] creates, at any later time. *)
Record pipe_ok (b r w : Z) (h : PipeHeap) (rb : PipeRingBuffer) : Prop := {
  po_ring : ph_rings h !! b = Some rb;
  po_ok : ring_ok rb;
  po_end : rb_write_end rb = Some w;
  po_read : ph_pipes h !! r = Some (Pipe_read_end_with_buffer b);
  po_write : ph_pipes h !! w = Some (Pipe_write_end_with_buffer b)
}.

Definition put_ring (b : Z) (rb : PipeRingBuffer) (h : PipeHeap) : PipeHeap :=
  mkHeap (<[b := rb]> (ph_rings h)) (ph_pipes h) (ph_strong h).

Lemma put_ring_ok b r w h rb rb' : pipe_ok b r w h rb -> ring_ok rb' -> rb_write_end rb' = Some w ->
  pipe_ok b r w (put_ring b rb' h) rb'.
Proof. intros [] H1 H2. split; try done. apply lookup_insert_eq. Qed.

Lemma put_ring_id b r w h rb : pipe_ok b r w h rb -> put_ring b rb h = h.
Proof. intros []. destruct h. unfold put_ring. cbn in *. by rewrite insert_id. Qed.

Lemma wp_with_ring {A} p pipe rb (f : Pipe -> M PipeRingBuffer A) Q h :
  ph_pipes h !! p = Some pipe -> ph_rings h !! pi_buffer pipe = Some rb ->
  wp (f pipe) (fun a rb' => Q a (put_ring (pi_buffer pipe) rb' h)) rb -> wp (with_ring p f) Q h.
Proof. intros Hp Hr. unfold wp, with_ring. rewrite Hp, Hr. by destruct (f pipe rb) as [[a rb']|]. Qed.

Lemma Pipe_read_spec b r w h rb want got Q : pipe_ok b r w h rb -> Z.of_nat (length got) <= want ->
  let left := (Z.to_nat want - length got)%nat in
  let k := moved (length (queue rb)) left in
  (forall rb', ring_ok rb' -> rb_write_end rb' = Some w -> queue rb' = drop k (queue rb) -> (queue rb = [] -> rb' = rb) ->
     Q (got ++ take k (queue rb), match queue rb with
            | [] => if upgrade (ph_strong h) w then Yield else Return (Z.of_nat (length got))
            | _ => ended (length (queue rb)) left want
            end) (put_ring b rb' h)) ->
  wp (Pipe_read r want got) Q h.
Proof.
  intros [H1 H2 H3 H4 H5] Hgot left k HQ. unfold Pipe_read. wp_simpl. eapply wp_with_ring; [exact H4|exact H1|].
  wp_simpl. split; [done|]. eapply wp_mono; [by apply ring_read_spec|]. intros [x y] rb' (G1 & G2 & G3 & G4 & G5 & G6).
  cbn [fst snd] in *. subst x y. by apply HQ.
Qed.

Lemma Pipe_write_spec b r w h rb want todo Q : pipe_ok b r w h rb ->
  let room := (32 - length (queue rb))%nat in
  let k := moved room (length todo) in
  (forall rb', ring_ok rb' -> rb_write_end rb' = Some w -> queue rb' = queue rb ++ take k todo -> (room = 0%nat -> rb' = rb) ->
     Q (drop k todo, if decide (room = 0%nat) then Yield else ended room (length todo) want) (put_ring b rb' h)) ->
  wp (Pipe_write w want todo) Q h.
Proof.
  intros [H1 H2 H3 H4 H5] room k HQ. unfold Pipe_write. eapply wp_with_ring; [exact H5|exact H1|].
  wp_simpl. split; [done|]. eapply wp_mono; [by apply ring_write_spec|]. intros [x y] rb' (G1 & G2 & G3 & G4 & G5 & G6).
  cbn [fst snd] in *. subst x y. apply HQ; congruence || done.
Qed.

Lemma make_pipe_ok b r w Q h : r <> w ->
  (forall h' rb, pipe_ok b r w h' rb -> queue rb = [] -> ph_strong h' !! w = Some 1%nat -> Q (r, w) h') ->
  wp (make_pipe b r w) Q h.
Proof.
  intros Hne HQ. unfold wp, make_pipe. eapply HQ; [split; cbn| |].
  - apply lookup_insert_eq.
  - by split.
  - done.
  - rewrite lookup_insert_ne by done. apply lookup_insert_eq.
  - apply lookup_insert_eq.
  - done.
  - apply lookup_insert_eq.
Qed.

(** Anything the threads of any processes do with a pipe: an iteration of a
    [read] or a [write] at any point of the call, a clone or a drop of an end. *)
Inductive pipe_event :=
  | EvRead (want : Z) (got : list Z)
  | EvWrite (want : Z) (todo : list Z)
  | EvClone (p : Z)
  | EvDrop (p : Z).

Definition event_ok (e : pipe_event) : Prop :=
  match e with EvRead want got => Z.of_nat (length got) <= want | _ => True end.

(** The bytes an event takes from the pipe and those it puts in it. *)
Definition pipe_event_run (r w : Z) (e : pipe_event) : M PipeHeap (list Z * list Z) :=
  match e with
  | EvRead want got => x ← Pipe_read r want got; mret (drop (length got) (fst x), [])
  | EvWrite want todo => x ← Pipe_write w want todo; mret ([], take (length todo - length (fst x)) todo)
  | EvClone p => clone_end p;; mret ([], [])
  | EvDrop p => drop_end p;; mret ([], [])
  end.

Definition pipe_run (r w : Z) (es : list pipe_event) : M PipeHeap (list Z * list Z) :=
  mfold (fun logs e => x ← pipe_event_run r w e; mret (fst logs ++ fst x, snd logs ++ snd x)) ([], []) es.

Lemma pipe_event_spec b r w h rb e : pipe_ok b r w h rb -> event_ok e ->
  wp (pipe_event_run r w e) (fun x h' => exists rb', pipe_ok b r w h' rb' /\ queue rb ++ snd x = fst x ++ queue rb') h.
Proof.
  intros Hok He. destruct e as [want got|want todo|p|p]; cbn [pipe_event_run]; apply wp_bind.
  - eapply Pipe_read_spec; [exact Hok|exact He|]. intros rb' H1 H2 H3 _. apply wp_ret. exists rb'. split; [by eapply put_ring_ok|].
    cbn [fst snd]. rewrite drop_app_length, H3, take_drop, app_nil_r. done.
  - eapply Pipe_write_spec; [exact Hok|]. intros rb' H1 H2 H3 _. apply wp_ret. exists rb'. split; [by eapply put_ring_ok|].
    cbn [fst snd]. rewrite H3. cbn. f_equal. f_equal. rewrite length_drop. unfold moved. lia.
  - apply wp_modify. apply wp_ret. exists rb. split; [by destruct Hok|]. cbn. by rewrite app_nil_r.
  - apply wp_modify. apply wp_ret. exists rb. split; [by destruct Hok|]. cbn. by rewrite app_nil_r.
Qed.

(** C10: a pipe is a first-in first-out queue of at most 32 bytes.  After
    any interleaving of the iterations of [read] and [write] calls of any threads
    (and of clones and drops of the ends), the bytes put in the pipe are the bytes
    taken from it, in order, followed by those still in the buffer; no access is
    out of range, and [available_read] and [available_write] are the sizes of the
    content and of the free space. *)
Theorem pipe_fifo b r w es h : r <> w -> Forall event_ok es ->
  wp (make_pipe b r w;; pipe_run r w es) (fun logs h' => exists rb, ph_rings h' !! b = Some rb /\
    snd logs = fst logs ++ queue rb /\
    PipeRingBuffer_available_read rb = Z.of_nat (length (queue rb)) /\
    PipeRingBuffer_available_write rb = 32 - Z.of_nat (length (queue rb)) /\ (length (queue rb) <= 32)%nat) h.
Proof.
  intros Hne Hes. apply wp_bind. apply make_pipe_ok; [done|]. intros h0 rb0 Hok0 Hq0 _.
  eapply wp_mono; [apply (wp_mfold _ es (fun _ logs h' => exists rb, pipe_ok b r w h' rb /\ snd logs = fst logs ++ queue rb))|].
  - exists rb0. split; [done|]. by rewrite Hq0.
  - intros pre e logs h1 Hpre (rb1 & Hok1 & Hl1). apply wp_bind.
    rewrite Forall_forall in Hes. eapply wp_mono; [apply (pipe_event_spec b); [exact Hok1|]|].
    { apply Hes. destruct Hpre as [k ->]. apply elem_of_app. left. apply elem_of_app. right. by apply list_elem_of_singleton. }
    intros x h2 (rb2 & Hok2 & Hx). apply wp_ret. exists rb2. split; [done|]. cbn [fst snd].
    by rewrite Hl1, <- !app_assoc, Hx.
  - intros logs h' (rb & Hok & Hl). pose proof (po_ok _ _ _ _ _ Hok) as Hro. exists rb.
    pose proof (length_queue rb Hro). destruct (available_range rb Hro) as (Ha & Haw & _). split; [apply Hok|]. split; [done|]. lia.
Qed.

Definition demo_heap : PipeHeap := mkHeap ∅ ∅ ∅.

Lemma pipe_fifo_witness : exists h',
  (make_pipe 1 2 3;; pipe_run 2 3 [EvWrite 40 (seqZ 0 40); EvRead 10 []; EvWrite 40 (seqZ 32 8); EvRead 10 [5; 6]; EvDrop 3]) demo_heap =
    Ok ((seqZ 0 18, seqZ 0 40), h').
Proof.
  destruct (wp_run _ _ _ (pipe_fifo 1 2 3 [EvWrite 40 (seqZ 0 40); EvRead 10 []; EvWrite 40 (seqZ 32 8); EvRead 10 [5; 6]; EvDrop 3] demo_heap
    ltac:(lia) ltac:(repeat (apply Forall_cons_2; [cbn; lia || done|]); apply Forall_nil_2))) as (logs & h' & Hrun & _).
  exists h'. rewrite Hrun. vm_compute in Hrun. injection Hrun as <- <-. reflexivity.
Defined.

(** ** A transfer: one writer, one reader *)

(** The writer makes the [write] calls [tr_calls] (the length and the rest of
    the buffer of each), then drops its end; the reader makes one [read] call
    for [tr_want] bytes. *)
Record transfer := mkTransfer {
  tr_heap : PipeHeap;
  tr_calls : list (Z * list Z);
  tr_open : bool;
  tr_got : list Z;
  tr_done : option Z
}.

Inductive turn := Writer | Reader.

Section Transfer.
Context (r w want : Z).

Definition on_heap {A : Type} (f : M PipeHeap A) : M transfer A := fun t =>
  match f (tr_heap t) with
  | Ok (a, h) => Ok (a, mkTransfer h (tr_calls t) (tr_open t) (tr_got t) (tr_done t))
  | Err e => Err e
  end.

(** One iteration of the thread whose turn it is. *)
Definition transfer_turn (x : turn) : M transfer unit :=
  t ← get;
  match x with
  | Writer =>
      match tr_calls t with
      | (n, todo) :: calls =>
          y ← on_heap (Pipe_write w n todo);
          modify (fun t => mkTransfer (tr_heap t)
            (match snd y with Return _ => calls | _ => (n, fst y) :: calls end) (tr_open t) (tr_got t) (tr_done t))
      | [] =>
          if tr_open t then
            on_heap (drop_end w);;
            modify (fun t => mkTransfer (tr_heap t) [] false (tr_got t) (tr_done t))
          else mret tt
      end
  | Reader =>
      match tr_done t with
      | Some _ => mret tt
      | None =>
          y ← on_heap (Pipe_read r want (tr_got t));
          modify (fun t => mkTransfer (tr_heap t) (tr_calls t) (tr_open t) (fst y)
            (match snd y with Return n => Some n | _ => None end))
      end
  end.

Definition transfer_start (h : PipeHeap) (chunks : list (list Z)) : transfer :=
  mkTransfer h ((fun c => (Z.of_nat (length c), c)) <$> chunks) true [] None.

Definition pending (calls : list (Z * list Z)) : list Z := mjoin (snd <$> calls).

Lemma pending_cons n todo calls : pending ((n, todo) :: calls) = todo ++ pending calls.
Proof. done. Qed.

(** What the transfer keeps: the data is what was read, what is in the buffer
    and what is still to be written. *)
Record tr_inv (b : Z) (data : list Z) (t : transfer) (rb : PipeRingBuffer) : Prop := {
  ti_ok : pipe_ok b r w (tr_heap t) rb;
  ti_data : data = tr_got t ++ queue rb ++ pending (tr_calls t);
  ti_want : Z.of_nat (length (tr_got t)) <= want;
  ti_open : upgrade (ph_strong (tr_heap t)) w = tr_open t;
  ti_count : tr_open t = true -> ph_strong (tr_heap t) !! w = Some 1%nat;
  ti_closed : tr_open t = false -> tr_calls t = [];
  ti_done : forall n, tr_done t = Some n -> tr_got t = take (Z.to_nat want) data /\ n = Z.of_nat (length (tr_got t))
}.

(** The work left. *)
Definition work (rb : PipeRingBuffer) (t : transfer) : nat :=
  2 * length (pending (tr_calls t)) + length (queue rb) + length (tr_calls t)
  + (if tr_open t then 1 else 0) + (match tr_done t with Some _ => 0 | None => 1 end).

(** The thread whose turn it is can do something. *)
Definition enabled (x : turn) (rb : PipeRingBuffer) (t : transfer) : Prop :=
  match x with
  | Writer => tr_open t = true /\ (tr_calls t = [] \/ length (queue rb) < 32)%nat
  | Reader => tr_done t = None /\ (queue rb <> [] \/ tr_open t = false)
  end.

Lemma enabled_one rb t : tr_done t = None -> exists x, enabled x rb t.
Proof.
  intros Hd. destruct (queue rb) as [|c q] eqn:E.
  - destruct (tr_open t) eqn:Eo.
    + exists Writer. split; [done|]. right. rewrite E. cbn. lia.
    + exists Reader. split; [done|]. by right.
  - exists Reader. split; [done|]. left. by rewrite E.
Qed.

Lemma wp_on_heap {A} (f : M PipeHeap A) Q t :
  wp f (fun a h => Q a (mkTransfer h (tr_calls t) (tr_open t) (tr_got t) (tr_done t))) (tr_heap t) -> wp (on_heap f) Q t.
Proof. unfold wp, on_heap. by destruct (f (tr_heap t)) as [[a h]|]. Qed.

(** A turn either makes progress or finds its thread blocked and changes
    nothing. *)
Definition turn_spec (b : Z) (data : list Z) (x : turn) : Prop := forall t rb, tr_inv b data t rb ->
  wp (transfer_turn x) (fun _ t' => (is_Some (tr_done t) -> is_Some (tr_done t')) /\ exists rb', tr_inv b data t' rb' /\
    ((t' = t /\ rb' = rb /\ ~ enabled x rb t) \/ (work rb' t' < work rb t)%nat)) t.

Lemma writer_turn b data : turn_spec b data Writer.
Proof.
  intros t rb Hinv. pose proof Hinv as [H1 H2 H3 H4 H5 H6 H7]. unfold transfer_turn. apply wp_bind, wp_get.
  destruct (tr_calls t) as [|[n todo] calls] eqn:Ec.
  + destruct (tr_open t) eqn:Eo.
    * wp_simpl. apply wp_on_heap. wp_simpl. split; [done|]. exists rb. cbn [tr_heap tr_calls tr_open tr_got tr_done]. split.
      -- split; cbn [tr_heap tr_calls tr_open tr_got tr_done ph_strong]; [by destruct H1|done|done| |done|done|done].
         unfold upgrade. rewrite lookup_alter_eq, H5 by done. done.
      -- right. unfold work. rewrite Ec, Eo. cbn. lia.
    * apply wp_ret. split; [done|]. exists rb. split; [exact Hinv|]. left. split; [done|]. split; [done|]. intros [E _]. congruence.
  + wp_simpl. apply wp_on_heap. eapply Pipe_write_spec; [exact H1|]. intros rb' G1 G2 G3 G4.
    set (room := (32 - length (queue rb))%nat) in *. set (k := moved room (length todo)) in *. wp_simpl. split; [done|]. exists rb'.
    cbn [tr_heap tr_calls tr_open tr_got tr_done fst snd].
    assert (tr_open t = true) as Eo by (destruct (tr_open t); [done|by specialize (H6 eq_refl)]).
    pose proof (length_queue rb (po_ok _ _ _ _ _ H1)) as Hlq. destruct (available_range rb (po_ok _ _ _ _ _ H1)) as (Ha & _).
    destruct (decide (room = 0%nat)) as [Hr|Hr].
    * rewrite (G4 Hr) in *. rewrite (put_ring_id _ _ _ _ _ H1).
      assert (k = 0%nat) as Hk by (unfold k, moved; lia). rewrite Hk. rewrite drop_0, <- Ec.
      assert (mkTransfer (tr_heap t) (tr_calls t) (tr_open t) (tr_got t) (tr_done t) = t) as -> by (by destruct t).
      split; [exact Hinv|]. left. split; [done|]. split; [done|]. intros [_ [E|E]]; [congruence|]. unfold room in Hr. lia.
    * assert (queue rb' ++ drop k todo = queue rb ++ todo) as Hmv by (by rewrite G3, <- app_assoc, take_drop).
      assert (length (queue rb') = length (queue rb) + k)%nat as Hql by (rewrite G3, length_app, length_take; unfold k, moved; lia).
      unfold ended. destruct (decide (length todo <= room)%nat) as [Hle|Hgt].
      -- assert (drop k todo = []) as Hdr by (apply drop_ge; unfold k, moved; lia). rewrite Hdr, app_nil_r in Hmv. split.
         ++ split; cbn [tr_heap tr_calls tr_open tr_got tr_done]; try done; [by eapply put_ring_ok| |by rewrite Eo].
            rewrite H2, Hmv, pending_cons. by rewrite <- !app_assoc.
         ++ right. unfold work. cbn [tr_heap tr_calls tr_open tr_got tr_done]. rewrite Ec, pending_cons, length_app. cbn [length].
            unfold k, moved in Hql. lia.
      -- split.
         ++ split; cbn [tr_heap tr_calls tr_open tr_got tr_done]; try done; [by eapply put_ring_ok| |by rewrite Eo].
            rewrite H2, !pending_cons, (app_assoc (queue rb)), (app_assoc (queue rb')), Hmv. done.
         ++ right. unfold work. cbn [tr_heap tr_calls tr_open tr_got tr_done]. rewrite Ec, !pending_cons, !length_app, length_drop. cbn [length].
            unfold k, moved in *. lia.
Qed.

Lemma reader_turn b data : turn_spec b data Reader.
Proof.
  intros t rb Hinv. pose proof Hinv as [H1 H2 H3 H4 H5 H6 H7]. unfold transfer_turn. apply wp_bind, wp_get.
  destruct (tr_done t) as [n|] eqn:Ed.
  { apply wp_ret. split; [done|]. exists rb. split; [exact Hinv|]. left. split; [done|]. split; [done|]. intros [E _]. congruence. }
  wp_simpl. apply wp_on_heap. eapply Pipe_read_spec; [exact H1|exact H3|]. intros rb' G1 G2 G3 G4.
  set (left := (Z.to_nat want - length (tr_got t))%nat) in *. set (k := moved (length (queue rb)) left) in *. wp_simpl. split; [by intros []|]. exists rb'.
  cbn [tr_heap tr_calls tr_open tr_got tr_done fst snd]. destruct (queue rb) as [|c q] eqn:Eq.
  + rewrite (G4 eq_refl) in *. rewrite (put_ring_id _ _ _ _ _ H1), H4. unfold k, moved. cbn [length Nat.min take]. rewrite app_nil_r.
    destruct (tr_open t) eqn:Eo.
    * assert (mkTransfer (tr_heap t) (tr_calls t) true (tr_got t) None = t) as -> by (destruct t; cbn in *; congruence).
      split; [exact Hinv|]. left. split; [done|].
      split; [done|]. intros [_ [E|E]]; congruence.
    * split; [|right; unfold work; cbn [tr_heap tr_calls tr_open tr_got tr_done]; rewrite Ed, Eo; lia].
      split; cbn [tr_heap tr_calls tr_open tr_got tr_done]; rewrite ?Eq; try done. intros n [= <-]. split; [|done].
      rewrite H2, H6 by done. cbn. rewrite app_nil_r, take_ge by lia. done.
  + assert (c :: q = take k (c :: q) ++ queue rb') as Hmv by (by rewrite G3, take_drop).
    assert (length (take k (c :: q)) = k) as Hkl by (rewrite length_take; unfold k, moved; lia).
    assert (data = (tr_got t ++ take k (c :: q)) ++ queue rb' ++ pending (tr_calls t)) as Hdata by (rewrite H2; rewrite Hmv at 1; by rewrite <- !app_assoc).
    assert (length (queue rb') = length (c :: q) - k)%nat as Hql by (by rewrite G3, length_drop).
    split.
    * split; cbn [tr_heap tr_calls tr_open tr_got tr_done]; try done; [by eapply put_ring_ok|rewrite length_app, Hkl; unfold k, moved, left; lia|].
      intros n. unfold ended. destruct (decide (left <= length (c :: q))%nat) as [Hle|]; [|done]. intros [= <-].
      assert (length (tr_got t ++ take k (c :: q)) = Z.to_nat want) as Hlen by (rewrite length_app, Hkl; unfold k, moved, left in *; lia).
      split; [|rewrite Hlen; lia]. rewrite Hdata at 1. by rewrite <- Hlen, take_app_length.
    * right. unfold work. cbn [tr_heap tr_calls tr_open tr_got tr_done]. rewrite Ed, Eq, Hql. unfold ended.
      destruct (decide (left <= length (c :: q))%nat) as [Hle|Hgt]; [lia|]. unfold k, moved, left in *. cbn [length] in *. lia.
Qed.

Lemma transfer_turn_spec b data x : turn_spec b data x.
Proof. destruct x; [apply writer_turn|apply reader_turn]. Qed.

(** Turns of any threads: the work left does not grow and a read that is over
    stays so. *)
Lemma turns_spec b data l : forall t rb, tr_inv b data t rb ->
  wp (mfor l transfer_turn) (fun _ t' => (is_Some (tr_done t) -> is_Some (tr_done t')) /\
    exists rb', tr_inv b data t' rb' /\ (work rb' t' <= work rb t)%nat) t.
Proof.
  induction l as [|y l IH]; intros t rb Hinv; cbn [mfor]; [apply wp_ret; split; [done|by exists rb]|]. apply wp_bind.
  eapply wp_mono; [by apply transfer_turn_spec|]. intros _ t1 (Hd1 & rb1 & Hinv1 & Hw1).
  eapply wp_mono; [by apply IH|]. intros _ t2 (Hd2 & rb2 & Hinv2 & Hw2). split; [auto|]. exists rb2. split; [done|].
  destruct Hw1 as [(-> & -> & _)|Hw1]; lia.
Qed.

(** When a thread that can go on gets its turn, there is progress. *)
Lemma round_spec b data x l : forall t rb, tr_inv b data t rb -> enabled x rb t -> x ∈ l ->
  wp (mfor l transfer_turn) (fun _ t' => exists rb', tr_inv b data t' rb' /\ (work rb' t' < work rb t)%nat) t.
Proof.
  induction l as [|y l IH]; intros t rb Hinv Hen Hin; [by apply elem_of_nil in Hin|]. cbn [mfor]. apply wp_bind.
  eapply wp_mono; [by apply (transfer_turn_spec b data y)|]. intros _ t1 (_ & rb1 & Hinv1 & [(-> & -> & Hne)|Hw1]).
  - apply IH; [done|done|]. apply elem_of_cons in Hin as [->|Hin]; [done|done].
  - eapply wp_mono; [by apply turns_spec|]. intros _ t2 (_ & rb2 & Hinv2 & Hw2). exists rb2. split; [done|]. lia.
Qed.

(** A round gives each of the two threads at least one turn. *)
Definition fair_round (l : list turn) : Prop := Writer ∈ l /\ Reader ∈ l.

Lemma rounds_spec b data rounds : forall t rb, tr_inv b data t rb -> Forall fair_round rounds ->
  wp (mfor rounds (fun l => mfor l transfer_turn)) (fun _ t' => (is_Some (tr_done t) -> is_Some (tr_done t')) /\
    exists rb', tr_inv b data t' rb' /\ (is_Some (tr_done t') \/ (work rb' t' + length rounds <= work rb t)%nat)) t.
Proof.
  induction rounds as [|l rounds IH]; intros t rb Hinv HF; cbn [mfor].
  { apply wp_ret. split; [done|]. exists rb. split; [done|right; cbn [length]; lia]. }
  apply Forall_cons in HF as [[Hw Hr] HF]. apply wp_bind. destruct (tr_done t) as [n|] eqn:Ed.
  - eapply wp_mono; [by apply turns_spec|]. intros _ t1 (Hd1 & rb1 & Hinv1 & _). rewrite Ed in Hd1.
    eapply wp_mono; [by apply IH|]. intros _ t2 (Hd2 & rb2 & Hinv2 & _). split; [eauto|]. exists rb2. eauto.
  - destruct (enabled_one rb t Ed) as [x Hx]. eapply wp_mono; [apply (round_spec b data x); [done|done|by destruct x]|].
    intros _ t1 (rb1 & Hinv1 & Hw1). eapply wp_mono; [by apply IH|]. intros _ t2 (Hd2 & rb2 & Hinv2 & Hor).
    split; [by intros []|]. exists rb2. split; [done|]. destruct Hor as [Hs|Hs]; [by left|]. right. cbn [length]. lia.
Qed.

End Transfer.

(** A transfer through a pipe ends.  A writer makes any sequence of
    [write] calls on a new pipe and closes its end, a reader asks for [want]
    bytes; under any schedule of rounds in which each thread gets at least one
    turn, after at most two rounds per byte, one per call and two more the read
    has returned, with the first [want] bytes written, or all of them when there
    are fewer, and with their number. *)
Theorem pipe_transfer_terminates b r w want chunks rounds h :
  r <> w -> 0 <= want -> Forall fair_round rounds ->
  (2 * length (mjoin chunks) + length chunks + 2 <= length rounds)%nat ->
  wp (make_pipe b r w) (fun _ h' =>
    wp (mfor rounds (fun l => mfor l (transfer_turn r w want))) (fun _ t =>
      tr_got t = take (Z.to_nat want) (mjoin chunks) /\ tr_done t = Some (Z.of_nat (length (tr_got t))))
      (transfer_start h' chunks)) h.
Proof.
  intros Hne Hwant Hfair Hlen. apply make_pipe_ok; [done|]. intros h0 rb Hok Hq Hst.
  assert (pending ((fun c => (Z.of_nat (length c), c)) <$> chunks) = mjoin chunks) as Hp.
  { unfold pending. rewrite <- list_fmap_compose. f_equal. by apply list_fmap_id. }
  eapply wp_mono; [apply (rounds_spec r w want b (mjoin chunks) rounds _ rb); [|done]|].
  - split; cbn [transfer_start tr_heap tr_calls tr_open tr_got tr_done]; try done; [by rewrite Hp, Hq|].
    unfold upgrade. by rewrite Hst.
  - intros _ t (_ & rb' & Hinv & Hor).
    assert (is_Some (tr_done t)) as [n Hn].
    { destruct Hor as [Hd|Hw]; [done|]. unfold work at 2 in Hw. cbn [transfer_start tr_calls tr_open tr_done] in Hw.
      rewrite Hp, Hq, length_fmap in Hw. cbn [length] in Hw. unfold work in Hw. destruct (tr_done t); [done|]. lia. }
    destruct (ti_done _ _ _ _ _ _ _ Hinv n Hn) as [Hg ->]. done.
Qed.

Lemma pipe_transfer_terminates_witness :
  Forall fair_round (replicate 206 [Reader; Writer]) /\
  wp (make_pipe 1 2 3) (fun _ h' =>
    wp (mfor (replicate 206 [Reader; Writer]) (fun l => mfor l (transfer_turn 2 3 70))) (fun _ t =>
      tr_got t = seqZ 0 70 /\ tr_done t = Some 70) (transfer_start h' [seqZ 0 50; seqZ 50 50])) demo_heap.
Proof.
  assert (Forall fair_round (replicate 206 [Reader; Writer])) as HF.
  { apply Forall_replicate. split; [right; left|left]. }
  split; [done|].
  refine (wp_mono _ _ _ _ (pipe_transfer_terminates 1 2 3 70 [seqZ 0 50; seqZ 50 50] (replicate 206 [Reader; Writer]) demo_heap
    ltac:(lia) ltac:(lia) HF ltac:(vm_compute; lia)) _).
  intros _ h' H. refine (wp_mono _ _ _ _ H _). intros _ t [Hg Hd]. rewrite Hd, Hg. split; vm_compute; reflexivity.
Defined.
