(* ===== verification/Processor.v ===== *)
(** * The processor (os/src/task/processor.rs, manager.rs, mod.rs)

    The task that runs, the ready tasks and the operations that move a task
    between running, ready and blocked.  [schedule] switches to the idle
    loop, which makes one iteration of [run_tasks] after another: control goes
    back to the idle loop when an operation leaves no current task. *)

From S2P Require Import Prelude Scheduler.

Section Processor.
Context {T : Type} `{Scheduler T}.

(** [PROCESSOR.current], [TASK_MANAGER] and the tasks. *)
Record Kernel := mkKern { kn_sched : T; kn_tasks : Tasks; kn_current : option Z }.

Definition with_manager {A : Type} (f : T -> M Tasks (A * T)) : M Kernel A := fun k =>
  match f (kn_sched k) (kn_tasks k) with
  | Ok ((a, s), m) => Ok (a, mkKern s m (kn_current k))
  | Err e => Err e
  end.

Definition with_tasks {A : Type} (f : M Tasks A) : M Kernel A :=
  with_manager (fun s => a ← f; mret (a, s)).

Definition set_current (c : option Z) : M Kernel unit := modify (fun k => mkKern (kn_sched k) (kn_tasks k) c).

Definition take_current_task : M Kernel (option Z) :=
  c ← gets kn_current; set_current None;; mret c.

Definition current_task : M Kernel (option Z) := gets kn_current.

Definition add_task (task : Z) : M Kernel unit :=
  with_manager (fun s => s' ← TaskManager_add s task; mret (tt, s')).

Definition kernel_wakeup (task : Z) : M Kernel unit :=
  with_manager (fun s => s' ← wakeup_task s task; mret (tt, s')).

Definition fetch_task : M Kernel (option Z) := with_manager TaskManager_fetch.

(** One iteration of the idle loop: the task it switches to. *)
Definition run_tasks : M Kernel (option Z) :=
  t ← fetch_task;
  match t with
  | Some task =>
      with_tasks (with_inner task (set_status Running));;
      set_current (Some task);;
      mret (Some task)
  | None => mret None
  end.

Definition suspend_current_and_run_next : M Kernel unit :=
  c ← take_current_task;
  task ← unwrap c;
  with_tasks (with_inner task (set_status Ready));;
  add_task task.

Definition block_current_task : M Kernel unit :=
  c ← take_current_task;
  task ← unwrap c;
  with_tasks (with_inner task (set_status Blocked));;
  with_tasks (with_inner task (with_sched SchedInfo_on_block)).

Definition block_current_and_run_next : M Kernel unit := block_current_task.

Definition on_current_task_timer_tick : M Kernel bool :=
  c ← current_task;
  match c with
  | None => mret false
  | Some task =>
      with_tasks (with_inner task (with_sched SchedInfo_on_timer_tick));;
      with_manager (fun s => TaskManager_should_preempt s task)
  end.

Definition should_preempt_current_task : M Kernel bool :=
  c ← current_task;
  match c with
  | None => mret false
  | Some task => with_manager (fun s => TaskManager_should_preempt s task)
  end.

End Processor.
Arguments Kernel : clear implicits.

(** ** Where a task is *)

Section Invariant.
Context {T : Type} `{SchedulerLaws T}.

Definition status_of (k : Kernel T) (t : Z) : option TaskStatus := task_status <$> tk_table (kn_tasks k) !! t.

(** The ready queues hold the tasks whose status is [Ready], and no other; the
    current task is the one whose status is [Running]. *)
Record kernel_inv (k : Kernel T) : Prop := {
  ki_tm : tm_inv (kn_sched k) (kn_tasks k);
  ki_ready : forall t, t ∈ ready (kn_sched k) <-> status_of k t = Some Ready;
  ki_running : forall t, kn_current k = Some t <-> status_of k t = Some Running
}.

Lemma ki_known k t st : kernel_inv k -> status_of k t = Some st -> known (kn_tasks k) t.
Proof.
  intros Hi Hs. unfold status_of in Hs. apply fmap_Some in Hs as (i & Hti & _). exists i. split; [done|].
  by apply (tmi_ok _ _ (ki_tm _ Hi) t).
Qed.

Lemma ki_current_not_ready k t : kernel_inv k -> kn_current k = Some t -> t ∉ ready (kn_sched k).
Proof. intros Hi Hc Hin. apply (ki_running _ Hi) in Hc. apply (ki_ready _ Hi) in Hin. congruence. Qed.

(** *** Each operation changes the status of one task *)

Lemma wp_with_manager {A} (f : T -> M Tasks (A * T)) Q (k : Kernel T) :
  wp (with_manager f) Q k <-> wp (f (kn_sched k)) (fun r m => Q (fst r) (mkKern (snd r) m (kn_current k))) (kn_tasks k).
Proof. unfold wp, with_manager. by destruct (f (kn_sched k) (kn_tasks k)) as [[[a s] m]|]. Qed.

Lemma wp_with_tasks {A} (f : M Tasks A) Q (k : Kernel T) :
  wp (with_tasks f) Q k <-> wp f (fun a m => Q a (mkKern (kn_sched k) m (kn_current k))) (kn_tasks k).
Proof. unfold with_tasks. rewrite wp_with_manager, wp_bind. done. Qed.

(** The kernel after the status of [t] has become [st]: the others keep
    theirs. *)
Definition status_set (k k' : Kernel T) (t : Z) (st : TaskStatus) : Prop :=
  status_of k' t = Some st /\ (forall t', t' <> t -> status_of k' t' = status_of k t') /\
  tk_now (kn_tasks k') = tk_now (kn_tasks k).

Lemma status_upd (s : T) m c t i t' : status_of (mkKern s (upd m t i) c) t' =
  if decide (t' = t) then Some (task_status i) else status_of (mkKern s m c) t'.
Proof.
  unfold status_of, upd. cbn. case_decide as E; [subst; by rewrite lookup_insert_eq|by rewrite lookup_insert_ne].
Qed.

Lemma same_status (s s' : T) m m' c c' t : same_tasks m m' -> status_of (mkKern s' m' c') t = status_of (mkKern s m c) t.
Proof.
  intros Hs. unfold status_of. cbn. destruct (tk_table m !! t) as [i|] eqn:E.
  - destruct (same_tasks_lookup _ _ _ _ Hs E) as (i' & -> & Hf). cbn. f_equal. unfold forget in Hf. by injection Hf.
  - destruct Hs as (_ & Hf & _). specialize (Hf t). rewrite E in Hf. by destruct (tk_table m' !! t).
Qed.

(** Queueing a task that is neither ready nor running. *)
Lemma wp_queue (s : T) m c t i :
  tm_inv s m -> tk_table m !! t = Some i -> t ∉ ready s ->
  wp (TaskManager_add s t) (fun s' m' => tm_inv s' m' /\ ready s' ≡ₚ t :: ready s /\
    (forall t' c', status_of (mkKern s' m' c') t' = status_of (mkKern s m c) t') /\ tk_now m' = tk_now m) m.
Proof.
  intros Hi Hti Hn. eapply wp_mono; [apply wp_add; [done|]|].
  - exists i. split; [done|]. by apply (tmi_ok _ _ Hi t).
  - cbn beta. intros s' m' (Hi' & Hnow & Hr). rewrite decide_False in Hr by done. destruct Hr as (Hp & j & Hj & ->).
    split; [done|]. split; [done|]. split; [|done]. intros t' c'. rewrite Hti in Hj. apply (inj Some) in Hj. subst j.
    rewrite status_upd. case_decide as E; [subst; unfold status_of; cbn; by rewrite Hti|done].
Qed.

(** A task that was not ready and is now: in the queues and marked. *)
Lemma wp_ready_again (s : T) m c t i :
  tm_inv s m -> tk_table m !! t = Some i -> t ∉ ready s ->
  wp (with_inner t (set_status Ready);; TaskManager_add s t) (fun s' m' => tm_inv s' m' /\ ready s' ≡ₚ t :: ready s /\
    tk_now m' = tk_now m /\
    forall t' c', status_of (mkKern s' m' c') t' = if decide (t' = t) then Some Ready else status_of (mkKern s m c) t') m.
Proof.
  intros Hi Hti Hn. apply wp_bind. rewrite wp_with_inner by done. unfold set_status. apply wp_modify.
  set (i' := mkTask Ready (sched_info i)). fold (upd m t i').
  assert (tm_inv s (upd m t i')) as Hi' by (apply (tm_inv_upd s m t i); [done|done|exact (tmi_ok _ _ Hi t i Hti)|done]).
  eapply wp_mono; [apply (wp_queue s (upd m t i') c t i'); [done|apply lookup_insert_eq|done]|].
  intros s' m' (H1 & H2 & H3 & H4). split; [done|]. split; [done|]. split; [done|]. intros t' c'. by rewrite H3, status_upd.
Qed.

Lemma kernel_inv_change k k' t st :
  kernel_inv k -> tm_inv (kn_sched k') (kn_tasks k') -> status_set k k' t st ->
  (forall t', t' ∈ ready (kn_sched k') <-> if decide (t' = t) then st = Ready else t' ∈ ready (kn_sched k)) ->
  (forall t', kn_current k' = Some t' <-> if decide (t' = t) then st = Running else kn_current k = Some t') ->
  kernel_inv k'.
Proof.
  intros Hi Htm (Hs1 & Hs2 & _) Hr Hc. split; [done| |]; intros t'; [rewrite Hr|rewrite Hc]; case_decide as E.
  - subst. rewrite Hs1. split; congruence.
  - rewrite Hs2 by done. apply Hi.
  - subst. rewrite Hs1. split; congruence.
  - rewrite Hs2 by done. apply Hi.
Qed.

Lemma status_lookup (s : T) m c t st : status_of (mkKern s m c) t = Some st -> exists i, tk_table m !! t = Some i /\ task_status i = st.
Proof. intros E. apply fmap_Some in E as (i & ? & ?). by exists i. Qed.

Lemma wakeup_spec k t : kernel_inv k -> status_of k t = Some Blocked ->
  wp (kernel_wakeup t) (fun _ k' => kernel_inv k' /\ kn_current k' = kn_current k /\ status_set k k' t Ready) k.
Proof.
  intros Hi Hs. destruct k as [s m c]. destruct (status_lookup s m c t Blocked Hs) as (i & Hti & _). pose proof (ki_tm _ Hi) as Htm. cbn [kn_sched kn_tasks] in Htm.
  assert (t ∉ ready s) as Hn by (intros Hin; apply (ki_ready _ Hi) in Hin; congruence).
  unfold kernel_wakeup, wakeup_task. rewrite wp_with_manager, wp_bind. cbn [kn_sched kn_tasks kn_current].
  eapply wp_mono; [apply (wp_ready_again s m c t i); done|]. intros s' m' (H1 & H2 & H3 & H4). apply wp_ret. cbn [fst snd].
  set (k' := mkKern s' m' c). assert (status_set (mkKern s m c) k' t Ready) as Hst.
  { unfold k'. split; [by rewrite H4, decide_True by done|]. split; [|done]. intros t' Hne. by rewrite H4, decide_False by done. }
  split; [|done]. eapply kernel_inv_change; [exact Hi|done|exact Hst| |]; intros t'; unfold k'; cbn [kn_sched kn_current].
  - rewrite H2, elem_of_cons. case_decide; [naive_solver|naive_solver].
  - case_decide as E; [|done]. subst. split; [|done]. intros Hc. apply (ki_running _ Hi) in Hc. congruence.
Qed.

Lemma suspend_spec k c : kernel_inv k -> kn_current k = Some c ->
  wp suspend_current_and_run_next (fun _ k' => kernel_inv k' /\ kn_current k' = None /\ status_set k k' c Ready) k.
Proof.
  intros Hi Hc. pose proof (ki_current_not_ready _ _ Hi Hc) as Hn. pose proof (proj1 (ki_running _ Hi c) Hc) as Hs.
  destruct k as [s m c0]. cbn [kn_current] in Hc. subst c0. destruct (status_lookup _ _ _ _ _ Hs) as (i & Hti & _).
  pose proof (ki_tm _ Hi) as Htm. cbn [kn_sched kn_tasks] in *.
  unfold suspend_current_and_run_next, take_current_task, set_current, add_task. wp_simpl. exists c. split; [done|].
  apply wp_bind. rewrite wp_with_tasks. cbn [kn_sched kn_tasks kn_current].
  pose proof (wp_ready_again s m None c i Htm Hti Hn) as Hw. apply wp_bind in Hw. eapply wp_mono; [exact Hw|].
  intros [] m1 Hadd. rewrite wp_with_manager, wp_bind. cbn [kn_sched kn_tasks kn_current].
  eapply wp_mono; [exact Hadd|]. intros s' m' (H1 & H2 & H3 & H4). apply wp_ret. cbn [fst snd].
  set (k' := mkKern s' m' None). assert (status_set (mkKern s m (Some c)) k' c Ready) as Hst.
  { unfold k'. split; [by rewrite H4, decide_True by done|]. split; [|done]. intros t' Hne. by rewrite H4, decide_False by done. }
  split; [|done]. eapply kernel_inv_change; [exact Hi|done|exact Hst| |]; intros t'; unfold k'; cbn [kn_sched kn_current].
  - rewrite H2, elem_of_cons. case_decide; [naive_solver|naive_solver].
  - case_decide as E; [done|]. split; congruence.
Qed.

Lemma block_spec k c : kernel_inv k -> kn_current k = Some c ->
  wp block_current_and_run_next (fun _ k' => kernel_inv k' /\ kn_current k' = None /\ status_set k k' c Blocked) k.
Proof.
  intros Hi Hc. pose proof (ki_current_not_ready _ _ Hi Hc) as Hn. pose proof (proj1 (ki_running _ Hi c) Hc) as Hs.
  destruct k as [s m c0]. cbn [kn_current] in Hc. subst c0. destruct (status_lookup _ _ _ _ _ Hs) as (i & Hti & _).
  pose proof (ki_tm _ Hi) as Htm. cbn [kn_sched kn_tasks] in *.
  assert (in_ready_queue (sched_info i) = false) as Hfl.
  { destruct (in_ready_queue (sched_info i)) eqn:E; [|done]. destruct Hn. apply (tmi_flag _ _ Htm). eauto. }
  unfold block_current_and_run_next, block_current_task, take_current_task, set_current. wp_simpl. exists c. split; [done|].
  apply wp_bind. rewrite wp_with_tasks. cbn [kn_sched kn_tasks kn_current]. rewrite wp_with_inner by done. unfold set_status. apply wp_modify.
  rewrite wp_with_tasks. cbn [kn_sched kn_tasks kn_current]. rewrite wp_with_inner by apply lookup_insert_eq. wp_simpl.
  unfold SchedInfo_on_block. apply wp_modify. cbn [tk_now tk_table task_status sched_info]. rewrite insert_insert_eq.
  set (i' := mkTask Blocked _). fold (upd m c i'). set (k' := mkKern s (upd m c i') None).
  assert (status_set (mkKern s m (Some c)) k' c Blocked) as Hst.
  { split; [unfold k'; by rewrite status_upd, decide_True by done|]. split; [|done]. intros t' Hne. unfold k'. by rewrite status_upd, decide_False by done. }
  split; [|done]. eapply kernel_inv_change; [exact Hi| |exact Hst| |]; unfold k'; cbn [kn_sched kn_current kn_tasks].
  - apply (tm_inv_upd s m c i); [done|done| |done]. destruct (tmi_ok _ _ Htm c i Hti). split; cbn; unfold MIN_PRIORITY, MAX_PRIORITY in *; lia.
  - intros t'. case_decide; [subst; naive_solver|done].
  - intros t'. case_decide as E; [done|]. split; congruence.
Qed.

Lemma wp_fetch_status (s : T) m : tm_inv s m ->
  wp (TaskManager_fetch s) (fun r m' => forall s' c c' t, status_of (mkKern s' m' c') t = status_of (mkKern s m c) t) m.
Proof.
  intros Htm. unfold TaskManager_fetch. wp_simpl.
  eapply wp_mono; [apply dequeue_law; [apply Htm|apply Htm|by apply tmi_known]|]. cbn beta.
  intros [[t|] s1] m1 (Hwf & Hs & Hr); cbn [fst snd] in *; wp_simpl.
  - assert (t ∈ ready s) as Hin by (rewrite Hr; left). apply (tmi_flag _ _ Htm) in Hin as (i & Hti & _).
    destruct (same_tasks_lookup _ _ _ _ Hs Hti) as (i1 & Hti1 & _). rewrite wp_with_inner by done. wp_simpl.
    unfold SchedInfo_on_dispatch. wp_simpl. intros s' c c' t'. fold (upd m1 t (mkTask (task_status i1)
      (mkSched (base_priority (sched_info i1)) (base_priority (sched_info i1)) (ready_since (sched_info i1)) (runtime_ticks (sched_info i1))
       (saturating_add (total_wait_ticks (sched_info i1)) (saturating_sub (tk_now m) (ready_since (sched_info i1))))
       (saturating_add (scheduled_count (sched_info i1)) 1) 0 false))).
    rewrite <- (same_status s s' m m1 c c' t' Hs). unfold status_of, upd. cbn. destruct (decide (t' = t)) as [->|Hne].
    + by rewrite lookup_insert_eq, Hti1.
    + by rewrite lookup_insert_ne.
  - intros s' c c' t'. by apply same_status.
Qed.

Lemma run_tasks_spec k : kernel_inv k -> kn_current k = None ->
  wp run_tasks (fun r k' => kernel_inv k' /\ kn_current k' = r /\
    match r with
    | Some t => status_of k t = Some Ready /\ status_set k k' t Running
    | None => (forall t, status_of k t <> Some Ready) /\ (forall t, status_of k' t = status_of k t)
    end) k.
Proof.
  intros Hi Hc. destruct k as [s m c0]. cbn [kn_current] in Hc. subst c0. pose proof (ki_tm _ Hi) as Htm. cbn [kn_sched kn_tasks] in *.
  unfold run_tasks, fetch_task. apply wp_bind. rewrite wp_with_manager. cbn [kn_sched kn_tasks kn_current].
  eapply wp_mono; [exact (wp_conj _ _ _ _ (wp_fetch s m Htm) (wp_fetch_status s m Htm))|].
  intros [[t|] s1] m1 [(Htm1 & Hnow & Hr) Hst]; cbn [fst snd] in *.
  - destruct Hr as (Hp & i & Hti & _). wp_simpl. rewrite wp_with_tasks. cbn [kn_sched kn_tasks kn_current].
    rewrite wp_with_inner by done. unfold set_status. apply wp_modify. unfold set_current. wp_simpl.
    set (i' := mkTask Running (sched_info i)). fold (upd m1 t i'). cbn [kn_sched kn_tasks kn_current]. set (k' := mkKern s1 (upd m1 t i') (Some t)).
    assert (t ∈ ready s) as Hin by (rewrite Hp; left). pose proof (proj1 (ki_ready _ Hi t) Hin) as Hsr.
    assert (status_set (mkKern s m None) k' t Running) as Hset.
    { split; [unfold k'; by rewrite status_upd, decide_True by done|]. split; [|done]. intros t' Hne. unfold k'.
      rewrite status_upd, decide_False by done. apply Hst. }
    pose proof (tmi_nodup _ _ Htm) as Hnd. rewrite Hp in Hnd. apply NoDup_cons in Hnd as [Hnt _].
    split; [|done]. eapply kernel_inv_change; [exact Hi| |exact Hset| |]; unfold k'; cbn [kn_sched kn_current kn_tasks].
    + apply (tm_inv_upd s1 m1 t i); [done|done|exact (tmi_ok _ _ Htm1 t i Hti)|done].
    + intros t'. case_decide as E; [subst; naive_solver|]. rewrite Hp, elem_of_cons. naive_solver.
    + intros t'. case_decide as E; [by subst|]. split; [congruence|done].
  - destruct Hr as [Hr1 Hr2]. apply wp_ret. set (k' := mkKern s1 m1 None).
    assert (forall t, status_of k' t = status_of (mkKern s m None) t) as Hsame by (intros t; apply Hst).
    split; [|split; [done|split; [|done]]].
    + split; [done| |]; intros t; rewrite Hsame; unfold k'; cbn [kn_sched kn_current].
      * rewrite Hr2, <- Hr1. apply (ki_ready _ Hi).
      * apply (ki_running _ Hi).
    + intros t Ht. apply (ki_ready _ Hi) in Ht. cbn in Ht. rewrite Hr1 in Ht. by apply elem_of_nil in Ht.
Qed.

(** A timer tick charges the current task and may refresh priorities; nobody
    moves. *)
Lemma tick_spec k : kernel_inv k ->
  wp on_current_task_timer_tick (fun _ k' => kernel_inv k' /\ kn_current k' = kn_current k /\
    forall t, status_of k' t = status_of k t) k.
Proof.
  intros Hi. unfold on_current_task_timer_tick, current_task. apply wp_bind, wp_gets.
  destruct (kn_current k) as [c|] eqn:Hc; [|by apply wp_ret]. pose proof (proj1 (ki_running _ Hi c) Hc) as Hs.
  destruct k as [s m c0]. cbn [kn_current] in Hc. subst c0. destruct (status_lookup _ _ _ _ _ Hs) as (i & Hti & _).
  pose proof (ki_tm _ Hi) as Htm. cbn [kn_sched kn_tasks] in *. apply wp_bind. rewrite wp_with_tasks. cbn [kn_sched kn_tasks kn_current].
  rewrite wp_with_inner by done. wp_simpl. unfold SchedInfo_on_timer_tick. apply wp_modify.
  set (i' := mkTask (task_status i) _). fold (upd m c i').
  assert (tm_inv s (upd m c i')) as Htm1 by (apply (tm_inv_upd s m c i); [done|done|exact (tmi_ok _ _ Htm c i Hti)|done]).
  assert (known (upd m c i') c) as Hk by (exists i'; split; [apply lookup_insert_eq|exact (tmi_ok _ _ Htm c i Hti)]).
  rewrite wp_with_manager. unfold TaskManager_should_preempt. wp_simpl. cbn [kn_sched kn_tasks kn_current].
  eapply wp_mono; [apply should_preempt_law; [apply Htm1|apply Htm1|by apply tmi_known|done]|].
  intros [b s'] m' (Hwf & Hsame & Hr & _). cbn [fst snd] in *.
  assert (forall t, status_of (mkKern s' m' (Some c)) t = status_of (mkKern s m (Some c)) t) as Hst.
  { intros t. rewrite (same_status s s' _ m' (Some c) (Some c) t Hsame), status_upd. case_decide as E; [|done].
    subst. unfold status_of. cbn. by rewrite Hti. }
  split; [|done]. split; cbn [kn_sched kn_current kn_tasks]; [by eapply tm_inv_same| |]; intros t; rewrite Hst.
  - rewrite Hr. apply (ki_ready _ Hi).
  - apply (ki_running _ Hi).
Qed.

End Invariant.
