(* ===== verification/Sync.v ===== *)
(** * Mutexes, semaphores and condition variables (os/src/sync, os/src/syscall/sync.rs)

    Each call is one atomic step on the object and the kernel: it returns to
    its caller, or it leaves the processor without a current task ([Spin]: the
    caller is ready and tries again when it runs; [Sleep]: it is blocked, and
    the call is over when it runs again). *)

From S2P Require Import Prelude Scheduler Processor.

Inductive outcome := Go | Spin | Sleep.

Record MutexBlockingInner := mkMutex { mb_locked : bool; mb_wait_queue : list Z }.
Record SemaphoreInner := mkSem { se_count : Z; se_wait_queue : list Z }.
Record CondvarInner := mkCondvar { cv_wait_queue : list Z }.

(** [Arc<dyn Mutex>]: a spinning or a blocking mutex. *)
Inductive Mutex :=
  | MutexSpin (locked : bool)
  | MutexBlocking (inner : MutexBlockingInner).

Definition MutexSpin_new : Mutex := MutexSpin false.
Definition MutexBlocking_new : Mutex := MutexBlocking (mkMutex false []).
Definition Semaphore_new (res_count : Z) : SemaphoreInner := mkSem (as_isize res_count) [].
Definition Condvar_new : CondvarInner := mkCondvar [].

(** [isize] arithmetic wraps. *)
Definition isize_wrap (x : Z) : Z := as_isize x.

Section Sync.
Context {T : Type} `{Scheduler T}.

Definition MutexSpin_lock (locked : bool) : M (Kernel T) (bool * outcome) :=
  if locked then suspend_current_and_run_next;; mret (locked, Spin) else mret (true, Go).

Definition MutexSpin_unlock (locked : bool) : M (Kernel T) bool := mret false.

Definition MutexBlocking_lock (i : MutexBlockingInner) : M (Kernel T) (MutexBlockingInner * outcome) :=
  if mb_locked i then
    c ← current_task;
    task ← unwrap c;
    let i' := mkMutex true (mb_wait_queue i ++ [task]) in
    block_current_and_run_next;;
    mret (i', Sleep)
  else mret (mkMutex true (mb_wait_queue i), Go).

Definition MutexBlocking_unlock (i : MutexBlockingInner) : M (Kernel T) MutexBlockingInner :=
  massert (mb_locked i);;
  match mb_wait_queue i with
  | waking_task :: q => kernel_wakeup waking_task;; mret (mkMutex (mb_locked i) q)
  | [] => mret (mkMutex false [])
  end.

(** The [Mutex] trait. *)
Definition Mutex_lock (m : Mutex) : M (Kernel T) (Mutex * outcome) :=
  match m with
  | MutexSpin l => r ← MutexSpin_lock l; mret (MutexSpin (fst r), snd r)
  | MutexBlocking i => r ← MutexBlocking_lock i; mret (MutexBlocking (fst r), snd r)
  end.

Definition Mutex_unlock (m : Mutex) : M (Kernel T) Mutex :=
  match m with
  | MutexSpin l => r ← MutexSpin_unlock l; mret (MutexSpin r)
  | MutexBlocking i => r ← MutexBlocking_unlock i; mret (MutexBlocking r)
  end.

Definition Semaphore_up (i : SemaphoreInner) : M (Kernel T) SemaphoreInner :=
  let count := isize_wrap (se_count i + 1) in
  if count <=? 0 then
    match se_wait_queue i with
    | task :: q => kernel_wakeup task;; mret (mkSem count q)
    | [] => mret (mkSem count [])
    end
  else mret (mkSem count (se_wait_queue i)).

Definition Semaphore_down (i : SemaphoreInner) : M (Kernel T) (SemaphoreInner * outcome) :=
  let count := isize_wrap (se_count i - 1) in
  if count <? 0 then
    c ← current_task;
    task ← unwrap c;
    block_current_and_run_next;;
    mret (mkSem count (se_wait_queue i ++ [task]), Sleep)
  else mret (mkSem count (se_wait_queue i), Go).

Definition Condvar_signal (i : CondvarInner) : M (Kernel T) CondvarInner :=
  match cv_wait_queue i with
  | task :: q => kernel_wakeup task;; mret (mkCondvar q)
  | [] => mret (mkCondvar [])
  end.

(** The caller switches with [schedule] itself. *)
Definition Condvar_wait_no_sched (i : CondvarInner) : M (Kernel T) CondvarInner :=
  c ← current_task;
  task ← unwrap c;
  block_current_task;;
  mret (mkCondvar (cv_wait_queue i ++ [task])).

(** The part of [wait_with_mutex] before the task sleeps; when it runs again
    it calls [Mutex_lock]. *)
Definition Condvar_wait_with_mutex (i : CondvarInner) (mutex : Mutex) : M (Kernel T) (CondvarInner * Mutex) :=
  mutex' ← Mutex_unlock mutex;
  c ← current_task;
  task ← unwrap c;
  block_current_and_run_next;;
  mret (mkCondvar (cv_wait_queue i ++ [task]), mutex').

(** ** The system calls

    The objects of a process, by number. *)
Record SyncState := mkSync {
  ss_kernel : Kernel T;
  ss_mutexes : list (option Mutex);
  ss_semaphores : list (option SemaphoreInner);
  ss_condvars : list (option CondvarInner)
}.

Definition on_kernel {A : Type} (f : M (Kernel T) A) : M SyncState A := fun s =>
  match f (ss_kernel s) with
  | Ok (a, k) => Ok (a, mkSync k (ss_mutexes s) (ss_semaphores s) (ss_condvars s))
  | Err e => Err e
  end.

(** [list[id].as_ref().unwrap()]. *)
Definition slot_get {A : Type} (l : list (option A)) (id : Z) : M SyncState A :=
  o ← unwrap (l !! Z.to_nat id); unwrap o.

(** The first free slot of a list takes the new object, or the list grows. *)
Definition slot_put {A : Type} (x : A) (l : list (option A)) : list (option A) * Z :=
  match position (fun o => match o with None => true | Some _ => false end) l with
  | Some id => (<[id := Some x]> l, Z.of_nat id)
  | None => (l ++ [Some x], Z.of_nat (length l))
  end.

Definition set_mutexes (l : list (option Mutex)) : M SyncState unit :=
  modify (fun s => mkSync (ss_kernel s) l (ss_semaphores s) (ss_condvars s)).
Definition set_semaphores (l : list (option SemaphoreInner)) : M SyncState unit :=
  modify (fun s => mkSync (ss_kernel s) (ss_mutexes s) l (ss_condvars s)).
Definition set_condvars (l : list (option CondvarInner)) : M SyncState unit :=
  modify (fun s => mkSync (ss_kernel s) (ss_mutexes s) (ss_semaphores s) l).

Definition sys_mutex_create (blocking : bool) : M SyncState Z :=
  let mutex := if blocking then MutexBlocking_new else MutexSpin_new in
  l ← gets ss_mutexes;
  let '(l', id) := slot_put mutex l in
  set_mutexes l';;
  mret id.

Definition sys_mutex_lock (mutex_id : Z) : M SyncState (Z * outcome) :=
  l ← gets ss_mutexes;
  mutex ← slot_get l mutex_id;
  r ← on_kernel (Mutex_lock mutex);
  set_mutexes (<[Z.to_nat mutex_id := Some (fst r)]> l);;
  mret (0, snd r).

Definition sys_mutex_unlock (mutex_id : Z) : M SyncState Z :=
  l ← gets ss_mutexes;
  mutex ← slot_get l mutex_id;
  mutex' ← on_kernel (Mutex_unlock mutex);
  set_mutexes (<[Z.to_nat mutex_id := Some mutex']> l);;
  mret 0.

Definition sys_semaphore_create (res_count : Z) : M SyncState Z :=
  l ← gets ss_semaphores;
  let '(l', id) := slot_put (Semaphore_new res_count) l in
  set_semaphores l';;
  mret id.

Definition sys_semaphore_up (sem_id : Z) : M SyncState Z :=
  l ← gets ss_semaphores;
  sem ← slot_get l sem_id;
  sem' ← on_kernel (Semaphore_up sem);
  set_semaphores (<[Z.to_nat sem_id := Some sem']> l);;
  mret 0.

Definition sys_semaphore_down (sem_id : Z) : M SyncState (Z * outcome) :=
  l ← gets ss_semaphores;
  sem ← slot_get l sem_id;
  r ← on_kernel (Semaphore_down sem);
  set_semaphores (<[Z.to_nat sem_id := Some (fst r)]> l);;
  mret (0, snd r).

Definition sys_condvar_create : M SyncState Z :=
  l ← gets ss_condvars;
  let '(l', id) := slot_put Condvar_new l in
  set_condvars l';;
  mret id.

Definition sys_condvar_signal (condvar_id : Z) : M SyncState Z :=
  l ← gets ss_condvars;
  condvar ← slot_get l condvar_id;
  condvar' ← on_kernel (Condvar_signal condvar);
  set_condvars (<[Z.to_nat condvar_id := Some condvar']> l);;
  mret 0.

(** Up to the sleep: the call ends with [sys_mutex_lock] of the same mutex. *)
Definition sys_condvar_wait (condvar_id mutex_id : Z) : M SyncState outcome :=
  lc ← gets ss_condvars;
  condvar ← slot_get lc condvar_id;
  lm ← gets ss_mutexes;
  mutex ← slot_get lm mutex_id;
  r ← on_kernel (Condvar_wait_with_mutex condvar mutex);
  set_condvars (<[Z.to_nat condvar_id := Some (fst r)]> lc);;
  set_mutexes (<[Z.to_nat mutex_id := Some (snd r)]> lm);;
  mret Sleep.

End Sync.
Arguments SyncState : clear implicits.

(** ** Mutual exclusion

    A blocking mutex, with what each task has done with it. *)

Inductive phase := Outside | Waiting | Inside.

#[export] Instance phase_eq_dec : EqDecision phase.
Proof. solve_decision. Defined.

Section Exclusion.
Context {T : Type} `{SchedulerLaws T}.

Record Exclusion := mkExcl { mx_inner : MutexBlockingInner; mx_kernel : Kernel T; mx_phases : gmap Z phase }.

Definition phase_of (x : Exclusion) (t : Z) : phase := default Outside (mx_phases x !! t).

Definition enter (o : outcome) : phase := match o with Go => Inside | _ => Waiting end.

(** A task whose [lock] slept is inside when it runs again. *)
Definition resume (r : option Z) (g : gmap Z phase) : gmap Z phase :=
  match r with
  | Some t => if decide (g !! t = Some Waiting) then <[t := Inside]> g else g
  | None => g
  end.

(** What the kernel does: the current task locks (from outside), unlocks
    (from inside), yields, or blocks for another reason; the idle loop picks
    the next task; a tick; a task that waits for something else is woken. *)
Inductive mx_step : Exclusion -> Exclusion -> Prop :=
  | mx_lock i k g c i' o k' :
      kn_current k = Some c -> default Outside (g !! c) = Outside ->
      MutexBlocking_lock i k = Ok ((i', o), k') ->
      mx_step (mkExcl i k g) (mkExcl i' k' (<[c := enter o]> g))
  | mx_unlock i k g c i' k' :
      kn_current k = Some c -> default Outside (g !! c) = Inside ->
      MutexBlocking_unlock i k = Ok (i', k') ->
      mx_step (mkExcl i k g) (mkExcl i' k' (<[c := Outside]> g))
  | mx_run i k g r k' :
      kn_current k = None -> run_tasks k = Ok (r, k') ->
      mx_step (mkExcl i k g) (mkExcl i k' (resume r g))
  | mx_yield i k g k' :
      suspend_current_and_run_next k = Ok (tt, k') -> mx_step (mkExcl i k g) (mkExcl i k' g)
  | mx_block i k g k' :
      block_current_and_run_next k = Ok (tt, k') -> mx_step (mkExcl i k g) (mkExcl i k' g)
  | mx_tick i k g b k' :
      on_current_task_timer_tick k = Ok (b, k') -> mx_step (mkExcl i k g) (mkExcl i k' g)
  | mx_wake i k g t k' :
      t ∉ mb_wait_queue i -> status_of k t = Some Blocked ->
      kernel_wakeup t k = Ok (tt, k') -> mx_step (mkExcl i k g) (mkExcl i k' g).

(** The owner is the task inside, or the one [unlock] handed the mutex to and
    that has not run yet. *)
Record mx_inv (x : Exclusion) (owner : option Z) : Prop := {
  xi_kernel : kernel_inv (mx_kernel x);
  xi_nodup : NoDup (mb_wait_queue (mx_inner x));
  xi_queue : forall t, t ∈ mb_wait_queue (mx_inner x) ->
    status_of (mx_kernel x) t = Some Blocked /\ phase_of x t = Waiting /\ owner <> Some t;
  xi_locked : mb_locked (mx_inner x) = true <-> owner <> None;
  xi_free : owner = None -> mb_wait_queue (mx_inner x) = [];
  xi_inside : forall t, phase_of x t = Inside -> owner = Some t;
  xi_waiting : forall t, phase_of x t = Waiting ->
    t ∈ mb_wait_queue (mx_inner x) \/ owner = Some t /\ status_of (mx_kernel x) t = Some Ready;
  xi_owner : forall t, owner = Some t -> phase_of x t <> Outside
}.

Lemma phase_insert i k g t p t' : phase_of (mkExcl i k (<[t := p]> g)) t' = if decide (t' = t) then p else phase_of (mkExcl i k g) t'.
Proof. unfold phase_of. cbn. case_decide; [subst; by rewrite lookup_insert_eq|by rewrite lookup_insert_ne]. Qed.

(** A change of the status of a task that does not wait. *)
Lemma mx_inv_status i k g k' owner t st :
  mx_inv (mkExcl i k g) owner -> kernel_inv k' -> status_set k k' t st ->
  phase_of (mkExcl i k g) t <> Waiting -> mx_inv (mkExcl i k' g) owner.
Proof.
  intros [H1 H2 H3 H4 H5 H6 H7 H8] Hk (Hs1 & Hs2 & _) Hp. cbn [mx_inner mx_kernel mx_phases] in *.
  split; cbn [mx_inner mx_kernel mx_phases]; try done.
  - intros t' Hin. destruct (H3 t' Hin) as (E1 & E2 & E3). split; [|done]. rewrite Hs2; [done|]. intros ->. by rewrite E2 in Hp.
  - intros t' Hw. destruct (H7 t' Hw) as [?|[E1 E2]]; [by left|right]. split; [done|]. rewrite Hs2; [done|].
    intros ->. by apply Hp.
Qed.

(** The current task does not wait. *)
Lemma mx_current x owner c : mx_inv x owner -> kn_current (mx_kernel x) = Some c -> phase_of x c <> Waiting.
Proof.
  intros Hi Hc Hw. apply (ki_running _ (xi_kernel _ _ Hi)) in Hc. destruct (xi_waiting _ _ Hi c Hw) as [Hin|[_ Hr]].
  - destruct (xi_queue _ _ Hi c Hin) as [E _]. congruence.
  - congruence.
Qed.

Lemma mx_lock_inv i k g c owner : mx_inv (mkExcl i k g) owner -> kn_current k = Some c -> default Outside (g !! c) = Outside ->
  wp (MutexBlocking_lock i) (fun r k' => exists owner', mx_inv (mkExcl (fst r) k' (<[c := enter (snd r)]> g)) owner') k.
Proof.
  intros Hi Hc Hp. pose proof Hi as [H1 H2 H3 H4 H5 H6 H7 H8]. cbn [mx_inner mx_kernel mx_phases] in *. unfold MutexBlocking_lock.
  assert (phase_of (mkExcl i k g) c = Outside) as Hpc by done.
  destruct (mb_locked i) eqn:El.
  - unfold current_task. wp_simpl. exists c. split; [done|]. apply wp_bind. eapply wp_mono; [by apply block_spec|].
    intros _ k' (Hk' & Hc' & Hs1 & Hs2 & _). apply wp_ret. cbn [fst snd enter]. exists owner.
    assert (owner <> Some c) as Hoc by (intros E; by apply (H8 c E)).
    split; cbn [mx_inner mx_kernel mx_phases mb_locked mb_wait_queue]; [done| | |done| | | |].
    + apply NoDup_app. split; [done|]. split; [|apply NoDup_singleton]. intros t Ht ->%list_elem_of_singleton.
      destruct (H3 c Ht) as (_ & E & _). congruence.
    + intros t [Ht|Ht%list_elem_of_singleton]%elem_of_app; [|subst t]; rewrite phase_insert.
      * destruct (H3 t Ht) as (E1 & E2 & E3). assert (t <> c) as Hne by (intros ->; congruence).
        rewrite decide_False by done. rewrite Hs2 by done. done.
      * by rewrite decide_True by done.
    + intros Ho. by destruct (proj1 H4 eq_refl).
    + intros t. rewrite phase_insert. case_decide; [done|apply H6].
    + intros t. rewrite phase_insert. case_decide as E; [subst; intros _; left; apply elem_of_app; right; by apply list_elem_of_singleton|].
      intros Hw. destruct (H7 t Hw) as [?|[E1 E2]]; [left; apply elem_of_app; by left|right]. split; [done|]. by rewrite Hs2.
    + intros t Ht. rewrite phase_insert. case_decide; [done|by apply H8].
  - assert (owner = None) as -> by (destruct owner; [by discriminate (proj2 H4 ltac:(done))|done]). rewrite (H5 eq_refl) in *.
    apply wp_ret. cbn [fst snd enter]. exists (Some c).
    split; cbn [mx_inner mx_kernel mx_phases mb_locked mb_wait_queue]; rewrite ?(H5 eq_refl); try done; [intros t Ht; by apply elem_of_nil in Ht| | |].
    + intros t. rewrite phase_insert. case_decide; [by subst|]. intros Hin. by specialize (H6 t Hin).
    + intros t. rewrite phase_insert. case_decide; [done|]. intros Hw. destruct (H7 t Hw) as [Hin|[E _]]; [by apply elem_of_nil in Hin|done].
    + intros t [= <-]. by rewrite phase_insert, decide_True by done.
Qed.

Lemma mx_unlock_inv i k g c owner : mx_inv (mkExcl i k g) owner -> kn_current k = Some c -> default Outside (g !! c) = Inside ->
  wp (MutexBlocking_unlock i) (fun i' k' => exists owner', mx_inv (mkExcl i' k' (<[c := Outside]> g)) owner') k.
Proof.
  intros Hi Hc Hp. pose proof Hi as [H1 H2 H3 H4 H5 H6 H7 H8]. cbn [mx_inner mx_kernel mx_phases] in *. unfold MutexBlocking_unlock.
  assert (phase_of (mkExcl i k g) c = Inside) as Hpc by done. pose proof (H6 c Hpc) as ->. assert (mb_locked i = true) as El by (by apply H4).
  apply wp_bind, wp_massert. split; [done|]. destruct (mb_wait_queue i) as [|t q] eqn:Eq.
  - apply wp_ret. exists None. split; cbn [mx_inner mx_kernel mx_phases mb_locked mb_wait_queue]; try done.
    + intros t Ht. by apply elem_of_nil in Ht.
    + intros t. rewrite phase_insert. case_decide as E; [done|]. intros Hin. apply H6 in Hin. congruence.
    + intros t. rewrite phase_insert. case_decide as E; [done|]. intros Hw. destruct (H7 t Hw) as [Hin|[E' _]]; [by apply elem_of_nil in Hin|congruence].
  - destruct (H3 t ltac:(left)) as (Hb & Hw & Hne). apply NoDup_cons in H2 as [Hnt Hnd].
    assert (t <> c) as Htc by congruence.
    apply wp_bind. eapply wp_mono; [by apply wakeup_spec|]. intros _ k' (Hk' & Hc' & Hs1 & Hs2 & _). apply wp_ret.
    exists (Some t). split; cbn [mx_inner mx_kernel mx_phases mb_locked mb_wait_queue]; try done.
    + intros t' Hin. destruct (H3 t' ltac:(by right)) as (E1 & E2 & E3). assert (t' <> t) by (by intros ->).
      rewrite phase_insert. rewrite decide_False by congruence. rewrite Hs2 by done. split; [done|]. split; [done|congruence].
    + intros t'. rewrite phase_insert. case_decide as E; [done|]. intros Hin. apply H6 in Hin. congruence.
    + intros t'. rewrite phase_insert. case_decide as E; [done|]. intros Hw'. destruct (H7 t' Hw') as [[->|Hin]%elem_of_cons|[E' _]]; [by right|by left|congruence].
    + intros t' [= <-]. rewrite phase_insert, decide_False by done. unfold phase_of in *. cbn in *. congruence.
Qed.

Lemma mx_run_inv i k g owner : mx_inv (mkExcl i k g) owner -> kn_current k = None ->
  wp run_tasks (fun r k' => mx_inv (mkExcl i k' (resume r g)) owner) k.
Proof.
  intros Hi Hc. eapply wp_mono; [by apply run_tasks_spec; [apply Hi|]|]. intros r k' (Hk' & _ & Hr).
  destruct r as [t|]; cbn [resume].
  - destruct Hr as (Hrd & Hset). destruct (decide (g !! t = Some Waiting)) as [Hw|Hnw].
    + assert (phase_of (mkExcl i k g) t = Waiting) as Hpt by (unfold phase_of; cbn; by rewrite Hw).
      destruct Hset as (Hs1 & Hs2 & _). pose proof Hi as [H1 H2 H3 H4 H5 H6 H7 H8]. cbn [mx_inner mx_kernel mx_phases] in *.
      destruct (H7 t Hpt) as [Hin|[-> _]]; [destruct (H3 t Hin); congruence|].
      split; cbn [mx_inner mx_kernel mx_phases]; try done.
      * intros t' Hin. destruct (H3 t' Hin) as (E1 & E2 & E3). assert (t' <> t) as Hne by congruence.
        rewrite phase_insert, decide_False by done. by rewrite Hs2.
      * intros t'. rewrite phase_insert. case_decide; [by subst|]. apply H6.
      * intros t'. rewrite phase_insert. case_decide; [done|]. intros Hw'. destruct (H7 t' Hw') as [?|[E _]]; [by left|congruence].
      * intros t' [= <-]. by rewrite phase_insert, decide_True by done.
    + eapply mx_inv_status; [exact Hi|done|exact Hset|]. unfold phase_of. cbn. destruct (g !! t) as [[]|]; done.
  - destruct Hr as [_ Hs]. destruct Hi as [H1 H2 H3 H4 H5 H6 H7 H8]. cbn [mx_inner mx_kernel mx_phases] in *.
    split; cbn [mx_inner mx_kernel mx_phases]; try done.
    + intros t Ht. rewrite Hs. by apply H3.
    + intros t Ht. rewrite Hs. by apply H7.
Qed.

Lemma mx_step_inv x x' owner : mx_inv x owner -> mx_step x x' -> exists owner', mx_inv x' owner'.
Proof.
  intros Hi Hst. pose proof (xi_kernel _ _ Hi) as Hk.
  destruct Hst as [i k g c i' o k' Hc Hp E|i k g c i' k' Hc Hp E|i k g r k' Hc E|i k g k' E|i k g k' E|i k g b k' E|i k g t k' Hn Hs E].
  - exact (wp_Ok _ _ _ _ _ (mx_lock_inv _ _ _ _ _ Hi Hc Hp) E).
  - exact (wp_Ok _ _ _ _ _ (mx_unlock_inv _ _ _ _ _ Hi Hc Hp) E).
  - exists owner. exact (wp_Ok _ _ _ _ _ (mx_run_inv _ _ _ _ Hi Hc) E).
  - destruct (kn_current k) as [c|] eqn:Hc.
    + destruct (wp_Ok _ _ _ _ _ (suspend_spec _ _ Hk Hc) E) as (Hk' & _ & Hset). exists owner.
      eapply mx_inv_status; [exact Hi|done|exact Hset|]. by eapply mx_current.
    + unfold suspend_current_and_run_next, take_current_task, mbind, M_bind in E. cbn in E. by rewrite Hc in E.
  - destruct (kn_current k) as [c|] eqn:Hc.
    + destruct (wp_Ok _ _ _ _ _ (block_spec _ _ Hk Hc) E) as (Hk' & _ & Hset). exists owner.
      eapply mx_inv_status; [exact Hi|done|exact Hset|]. by eapply mx_current.
    + unfold block_current_and_run_next, block_current_task, take_current_task, mbind, M_bind in E. cbn in E. by rewrite Hc in E.
  - destruct (wp_Ok _ _ _ _ _ (tick_spec _ Hk) E) as (Hk' & _ & Hs). exists owner.
    destruct Hi as [H1 H2 H3 H4 H5 H6 H7 H8]. cbn [mx_inner mx_kernel mx_phases] in *.
    split; cbn [mx_inner mx_kernel mx_phases]; try done; intros t Ht; rewrite Hs; [by apply H3|by apply H7].
  - destruct (wp_Ok _ _ _ _ _ (wakeup_spec _ _ Hk Hs) E) as (Hk' & _ & Hset). exists owner.
    eapply mx_inv_status; [exact Hi|done|exact Hset|]. intros Hw.
    destruct (xi_waiting _ _ Hi t Hw) as [Hin|[_ Hr]]; [done|]. cbn in Hr. congruence.
Qed.

Lemma mx_start k : kernel_inv k -> mx_inv (mkExcl (mkMutex false []) k ∅) None.
Proof.
  intros Hk. split; cbn [mx_inner mx_kernel mx_phases mb_locked mb_wait_queue]; try done; [constructor|].
  intros t Ht. by apply elem_of_nil in Ht.
Qed.

End Exclusion.

(** C14: a blocking mutex excludes, loses no one and never fails a correct
    caller.  In every state reached from an unlocked mutex by tasks that lock and
    unlock it in turn, yield, block, are preempted and are scheduled (with either
    scheduler), at most one task is between [lock] and [unlock], none when the
    mutex is unlocked; every task waiting in [lock] is in the wait queue, blocked,
    or is the one the mutex was handed to and is ready to run; if tasks wait in
    the queue, a task owns the mutex, so an [unlock] will wake the first of them;
    and the [lock] or [unlock] of the current task does not panic. *)
Theorem mutex_exclusion {T} `{SchedulerLaws T} (k0 : Kernel T) x :
  kernel_inv k0 -> rtc mx_step (mkExcl (mkMutex false []) k0 ∅) x ->
  (forall t1 t2, phase_of x t1 = Inside -> phase_of x t2 = Inside -> t1 = t2) /\
  (mb_locked (mx_inner x) = false -> mb_wait_queue (mx_inner x) = [] /\ (forall t, phase_of x t = Outside)) /\
  (forall t, t ∈ mb_wait_queue (mx_inner x) -> status_of (mx_kernel x) t = Some Blocked) /\
  (mb_wait_queue (mx_inner x) <> [] -> exists t, (t ∉ mb_wait_queue (mx_inner x)) /\
     (phase_of x t = Inside \/ phase_of x t = Waiting /\ status_of (mx_kernel x) t = Some Ready)) /\
  (forall t, phase_of x t = Waiting -> t ∉ mb_wait_queue (mx_inner x) -> status_of (mx_kernel x) t = Some Ready) /\
  (forall c, kn_current (mx_kernel x) = Some c ->
     match phase_of x c with
     | Outside => exists r k', (MutexBlocking_lock (mx_inner x)) (mx_kernel x) = Ok (r, k')
     | Inside => exists i k', (MutexBlocking_unlock (mx_inner x)) (mx_kernel x) = Ok (i, k')
     | Waiting => False
     end).
Proof.
  intros Hk Hr. assert (exists owner, mx_inv x owner) as [owner Hi].
  { assert (exists owner, mx_inv (mkExcl (mkMutex false []) k0 ∅) owner) as H0' by (exists None; by apply mx_start).
    clear -Hr H0'. induction Hr as [|a b c Hab _ IH]; [done|]. apply IH. destruct H0' as [o Ho]. by eapply mx_step_inv. }
  pose proof Hi as [H1 H2 H3 H4 H5 H6 H7 H8]. split; [|split; [|split; [|split; [|split]]]].
  - intros t1 t2 E1%H6 E2%H6. congruence.
  - intros El. assert (owner = None) as -> by (destruct owner; [by rewrite (proj2 H4) in El|done]).
    split; [by apply H5|].
    intros t. destruct (phase_of x t) eqn:E; [done| |by apply H6 in E]. destruct (H7 t E) as [Hin|[? _]]; [|done].
    rewrite H5 in Hin by done. by apply elem_of_nil in Hin.
  - intros t Ht. by apply H3.
  - intros Hne. destruct owner as [t|]; [|by rewrite H5 in Hne]. exists t.
    assert (t ∉ mb_wait_queue (mx_inner x)) as Hn by (intros Hin; by destruct (H3 t Hin) as (_ & _ & ?)). split; [done|].
    destruct (phase_of x t) eqn:E; [by destruct (H8 t)| |by left]. right. split; [done|]. by destruct (H7 t E) as [?|[_ ?]].
  - intros t Hw Hn. by destruct (H7 t Hw) as [?|[_ ?]].
  - intros c Hc. pose proof (mx_current _ _ _ Hi Hc) as Hnw. destruct x as [i k g]. cbn [mx_inner mx_kernel] in *.
    destruct (phase_of (mkExcl i k g) c) eqn:E; [| done |].
    + destruct (wp_run _ _ _ (mx_lock_inv _ _ _ _ _ Hi Hc E)) as (r & k' & Hrun & _). eauto.
    + destruct (wp_run _ _ _ (mx_unlock_inv _ _ _ _ _ Hi Hc E)) as (r & k' & Hrun & _). eauto.
Qed.

(** Task 1 runs, task 2 is ready: both ask for the mutex. *)
Definition demo_sched (b : bool) : SchedInfo := mkSched 4 4 0 0 0 0 0 b.
Definition demo_kernel : Kernel RoundRobinScheduler :=
  mkKern (mkRR [2]) (mkTasks 0 {[1 := mkTask Running (demo_sched false); 2 := mkTask Ready (demo_sched true)]}) (Some 1).

Lemma demo_status t : status_of demo_kernel t = if decide (t = 1) then Some Running else if decide (t = 2) then Some Ready else None.
Proof.
  unfold status_of. cbn. repeat case_decide; subst; [by rewrite lookup_insert_eq|by rewrite lookup_insert_ne, lookup_singleton_eq|].
  by rewrite lookup_insert_ne, lookup_singleton_ne by done.
Qed.

Lemma demo_kernel_inv : kernel_inv demo_kernel.
Proof.
  split.
  - split; cbn [kn_sched kn_tasks demo_kernel].
    + done.
    + intros t i. cbn. intros [[_ <-]|[_ [_ <-]%lookup_singleton_Some]]%lookup_insert_Some; split; cbn; unfold MIN_PRIORITY, MAX_PRIORITY; lia.
    + apply NoDup_singleton.
    + intros t. cbn. rewrite list_elem_of_singleton. split.
      * intros ->. exists (mkTask Ready (demo_sched true)). by rewrite lookup_insert_ne, lookup_singleton_eq.
      * intros (i & [[_ <-]|[_ [-> <-]%lookup_singleton_Some]]%lookup_insert_Some & Hf); done.
    + vm_compute. reflexivity.
  - intros t. rewrite demo_status. cbn. rewrite list_elem_of_singleton. repeat case_decide; subst; split; congruence.
  - intros t. rewrite demo_status. cbn. repeat case_decide; subst; split; congruence.
Qed.

Lemma mutex_exclusion_witness : exists x : Exclusion,
  rtc mx_step (mkExcl (mkMutex false []) demo_kernel ∅) x /\
  phase_of x 1 = Inside /\ phase_of x 2 = Waiting /\ status_of (mx_kernel x) 2 = Some Blocked /\
  (forall t, phase_of x t = Inside -> t = 1).
Proof.
  assert (exists x, rtc mx_step (mkExcl (mkMutex false []) demo_kernel ∅) x /\
    phase_of x 1 = Inside /\ phase_of x 2 = Waiting /\ mb_wait_queue (mx_inner x) = [2]) as (x & Hx & H1 & H2 & Hq).
  { eexists. split.
    - eapply rtc_l; [eapply (mx_lock _ _ _ 1); vm_compute; reflexivity|].
      eapply rtc_l; [eapply mx_yield; vm_compute; reflexivity|].
      eapply rtc_l; [eapply mx_run; vm_compute; reflexivity|].
      eapply rtc_l; [eapply (mx_lock _ _ _ 2); vm_compute; reflexivity|]. apply rtc_refl.
    - vm_compute. done. }
  destruct (mutex_exclusion demo_kernel x demo_kernel_inv Hx) as (E1 & _ & E3 & _).
  exists x. split; [exact Hx|]. split; [exact H1|]. split; [exact H2|]. split.
  - apply E3. rewrite Hq. left.
  - intros t Ht. exact (E1 _ _ Ht H1).
Defined.

(** ** Semaphores *)

Section Counting.
Context {T : Type} `{SchedulerLaws T}.

(** A semaphore with its history: the number of [up] and [down] calls, the
    tasks that went to sleep in [down] and those that were woken, in order. *)
Record Counting := mkCount {
  sm_inner : SemaphoreInner; sm_kernel : Kernel T;
  sm_ups : Z; sm_downs : Z; sm_slept : list Z; sm_woken : list Z
}.

Definition slept (o : outcome) (c : Z) : list Z := match o with Go => [] | _ => [c] end.

Inductive sm_step : Counting -> Counting -> Prop :=
  | sm_up i k u d sl wk c i' k' :
      kn_current k = Some c -> Semaphore_up i k = Ok (i', k') ->
      sm_step (mkCount i k u d sl wk)
        (mkCount i' k' (u + 1) d sl (wk ++ take (length (se_wait_queue i) - length (se_wait_queue i')) (se_wait_queue i)))
  | sm_down i k u d sl wk c i' o k' :
      kn_current k = Some c -> Semaphore_down i k = Ok ((i', o), k') ->
      sm_step (mkCount i k u d sl wk) (mkCount i' k' u (d + 1) (sl ++ slept o c) wk)
  | sm_run i k u d sl wk r k' :
      kn_current k = None -> run_tasks k = Ok (r, k') ->
      sm_step (mkCount i k u d sl wk) (mkCount i k' u d sl wk)
  | sm_yield i k u d sl wk c k' :
      kn_current k = Some c -> suspend_current_and_run_next k = Ok (tt, k') ->
      sm_step (mkCount i k u d sl wk) (mkCount i k' u d sl wk)
  | sm_block i k u d sl wk c k' :
      kn_current k = Some c -> block_current_and_run_next k = Ok (tt, k') ->
      sm_step (mkCount i k u d sl wk) (mkCount i k' u d sl wk)
  | sm_tick i k u d sl wk b k' :
      on_current_task_timer_tick k = Ok (b, k') ->
      sm_step (mkCount i k u d sl wk) (mkCount i k' u d sl wk)
  | sm_wake i k u d sl wk t k' :
      t ∉ se_wait_queue i -> status_of k t = Some Blocked -> kernel_wakeup t k = Ok (tt, k') ->
      sm_step (mkCount i k u d sl wk) (mkCount i k' u d sl wk).

Record sm_inv (n : Z) (x : Counting) : Prop := {
  si_kernel : kernel_inv (sm_kernel x);
  si_nonneg : 0 <= sm_ups x /\ 0 <= sm_downs x;
  si_count : sm_ups x + sm_downs x < 2 ^ 62 -> se_count (sm_inner x) = n + sm_ups x - sm_downs x;
  si_length : sm_ups x + sm_downs x < 2 ^ 62 -> Z.of_nat (length (se_wait_queue (sm_inner x))) = Z.max 0 (- se_count (sm_inner x));
  si_nodup : NoDup (se_wait_queue (sm_inner x));
  si_blocked : forall t, t ∈ se_wait_queue (sm_inner x) -> status_of (sm_kernel x) t = Some Blocked;
  si_fifo : sm_slept x = sm_woken x ++ se_wait_queue (sm_inner x)
}.

Lemma isize_wrap_small x : - 2 ^ 63 <= x < 2 ^ 63 -> isize_wrap x = x.
Proof.
  intros Hx. unfold isize_wrap, as_isize. destruct (decide (0 <= x)).
  - rewrite Z.mod_small by lia. rewrite (proj2 (Z.ltb_lt _ _)) by lia. done.
  - rewrite <- (Z_mod_plus_full x 1), Z.mod_small by lia. rewrite (proj2 (Z.ltb_ge _ _)) by lia. lia.
Qed.

Lemma sm_up_inv n i k u d sl wk c : 0 <= n < 2 ^ 62 -> sm_inv n (mkCount i k u d sl wk) -> kn_current k = Some c ->
  wp (Semaphore_up i) (fun i' k' => sm_inv n (mkCount i' k' (u + 1) d sl
    (wk ++ take (length (se_wait_queue i) - length (se_wait_queue i')) (se_wait_queue i)))) k.
Proof.
  intros Hn [H1 H2 H3 H4 H5 H6 H7] Hc. cbn [sm_inner sm_kernel sm_ups sm_downs sm_slept sm_woken] in *.
  assert (forall q, u + 1 + d < 2 ^ 62 -> se_count (mkSem (isize_wrap (se_count i + 1)) q) = n + (u + 1) - d) as Hcnt.
  { intros q Hb. cbn. rewrite H3 by lia. rewrite isize_wrap_small by lia. lia. }
  unfold Semaphore_up. destruct (Z.leb_spec (isize_wrap (se_count i + 1)) 0) as [Hle|Hgt].
  - destruct (se_wait_queue i) as [|t q] eqn:Eq.
    + apply wp_ret. split; cbn [sm_inner sm_kernel sm_ups sm_downs sm_slept sm_woken se_wait_queue]; try done; [lia|by apply Hcnt| |by rewrite app_nil_r].
      intros Hb. rewrite Hcnt by done. specialize (H4 ltac:(lia)). rewrite H3 in H4 by lia. cbn in *. lia.
    + apply NoDup_cons in H5 as [Hnt Hnd].
      apply wp_bind. eapply wp_mono; [apply wakeup_spec; [done|apply H6; left]|]. intros _ k' (Hk' & _ & Hs1 & Hs2 & _). apply wp_ret.
      split; cbn [sm_inner sm_kernel sm_ups sm_downs sm_slept sm_woken se_wait_queue]; try done; [lia|by apply Hcnt| | |].
      * intros Hb. rewrite Hcnt by done. specialize (H4 ltac:(lia)). rewrite H3 in H4 by lia. cbn in *. lia.
      * intros t' Hin. rewrite Hs2 by (intros ->; done). apply H6. by right.
      * rewrite H7. cbn [length]. replace (S (length q) - length q)%nat with 1%nat by lia. cbn [take]. by rewrite <- app_assoc.
  - apply wp_ret. split; cbn [sm_inner sm_kernel sm_ups sm_downs sm_slept sm_woken se_wait_queue]; try done; [lia|by apply Hcnt| |].
    + intros Hb. rewrite Hcnt by done. specialize (H4 ltac:(lia)). rewrite H3 in H4 by lia.
      rewrite H3, isize_wrap_small in Hgt by lia. lia.
    + rewrite Nat.sub_diag. cbn [take]. by rewrite app_nil_r.
Qed.

Lemma sm_down_inv n i k u d sl wk c : 0 <= n < 2 ^ 62 -> sm_inv n (mkCount i k u d sl wk) -> kn_current k = Some c ->
  wp (Semaphore_down i) (fun r k' => sm_inv n (mkCount (fst r) k' u (d + 1) (sl ++ slept (snd r) c) wk)) k.
Proof.
  intros Hn [H1 H2 H3 H4 H5 H6 H7] Hc. cbn [sm_inner sm_kernel sm_ups sm_downs sm_slept sm_woken] in *.
  assert (forall q, u + (d + 1) < 2 ^ 62 -> se_count (mkSem (isize_wrap (se_count i - 1)) q) = n + u - (d + 1)) as Hcnt.
  { intros q Hb. cbn. rewrite H3 by lia. rewrite isize_wrap_small by lia. lia. }
  unfold Semaphore_down. destruct (Z.ltb_spec (isize_wrap (se_count i - 1)) 0) as [Hlt|Hge].
  - unfold current_task. wp_simpl. exists c. split; [done|]. apply wp_bind. eapply wp_mono; [by apply block_spec|].
    intros _ k' (Hk' & _ & Hs1 & Hs2 & _). apply wp_ret. cbn [fst snd slept].
    assert (c ∉ se_wait_queue i) as Hnc.
    { intros Hin. apply H6 in Hin. apply (ki_running _ H1) in Hc. congruence. }
    split; cbn [sm_inner sm_kernel sm_ups sm_downs sm_slept sm_woken se_wait_queue]; [done|lia|by apply Hcnt| | | |].
    + intros Hb. rewrite Hcnt by done. specialize (H4 ltac:(lia)). rewrite H3 in H4 by lia.
      rewrite H3, isize_wrap_small in Hlt by lia. rewrite length_app. cbn [length]. lia.
    + apply NoDup_app. split; [done|]. split; [|apply NoDup_singleton]. by intros t Ht ->%list_elem_of_singleton.
    + intros t [Ht|Ht%list_elem_of_singleton]%elem_of_app; [|by subst t]. rewrite Hs2 by (intros ->; done). by apply H6.
    + by rewrite H7, app_assoc.
  - apply wp_ret. cbn [fst snd slept].
    split; cbn [sm_inner sm_kernel sm_ups sm_downs sm_slept sm_woken se_wait_queue]; try done; [lia|by apply Hcnt| |by rewrite app_nil_r].
    intros Hb. rewrite Hcnt by done. specialize (H4 ltac:(lia)). rewrite H3 in H4 by lia.
    rewrite H3, isize_wrap_small in Hge by lia. lia.
Qed.

(** The statuses of the waiting tasks are all that the other steps must keep. *)
Lemma sm_inv_kernel n i k u d sl wk k' : sm_inv n (mkCount i k u d sl wk) -> kernel_inv k' ->
  (forall t, t ∈ se_wait_queue i -> status_of k' t = status_of k t) -> sm_inv n (mkCount i k' u d sl wk).
Proof.
  intros [H1 H2 H3 H4 H5 H6 H7] Hk Hs. split; try done. intros t Ht. cbn. rewrite Hs by done. by apply H6.
Qed.

Lemma sm_step_inv n x x' : 0 <= n < 2 ^ 62 -> sm_inv n x -> sm_step x x' -> sm_inv n x'.
Proof.
  intros Hn Hi Hst. pose proof (si_kernel _ _ Hi) as Hk. pose proof (si_blocked _ _ Hi) as Hb.
  destruct Hst as [i k u d sl wk c i' k' Hc E|i k u d sl wk c i' o k' Hc E|i k u d sl wk r k' Hc E|i k u d sl wk c k' Hc E
    |i k u d sl wk c k' Hc E|i k u d sl wk b k' E|i k u d sl wk t k' Hnt Hs E]; cbn [sm_inner sm_kernel] in *.
  - exact (wp_Ok _ _ _ _ _ (sm_up_inv _ _ _ _ _ _ _ _ Hn Hi Hc) E).
  - exact (wp_Ok _ _ _ _ _ (sm_down_inv _ _ _ _ _ _ _ _ Hn Hi Hc) E).
  - destruct (wp_Ok _ _ _ _ _ (run_tasks_spec _ Hk Hc) E) as (Hk' & _ & Hr). eapply sm_inv_kernel; [exact Hi|done|].
    intros t Ht. destruct r as [t0|]; [|apply Hr]. destruct Hr as (Hrd & _ & Hs2 & _). apply Hs2. intros ->. apply Hb in Ht. congruence.
  - destruct (wp_Ok _ _ _ _ _ (suspend_spec _ _ Hk Hc) E) as (Hk' & _ & _ & Hs2 & _). eapply sm_inv_kernel; [exact Hi|done|].
    intros t Ht. apply Hs2. intros ->. apply Hb in Ht. apply (ki_running _ Hk) in Hc. congruence.
  - destruct (wp_Ok _ _ _ _ _ (block_spec _ _ Hk Hc) E) as (Hk' & _ & _ & Hs2 & _). eapply sm_inv_kernel; [exact Hi|done|].
    intros t Ht. apply Hs2. intros ->. apply Hb in Ht. apply (ki_running _ Hk) in Hc. congruence.
  - destruct (wp_Ok _ _ _ _ _ (tick_spec _ Hk) E) as (Hk' & _ & Hs). eapply sm_inv_kernel; [exact Hi|done|]. auto.
  - destruct (wp_Ok _ _ _ _ _ (wakeup_spec _ _ Hk Hs) E) as (Hk' & _ & _ & Hs2 & _). eapply sm_inv_kernel; [exact Hi|done|].
    intros t' Ht. apply Hs2. by intros ->.
Qed.

End Counting.

(** C30: the accounting of a semaphore.  From [Semaphore::new(n)], with [n] below
    2^62, after any
    sequence of [up] and [down] calls of running tasks and of scheduling events
    (fewer than 2^62 calls), the count is [n] plus the [up]s minus the [down]s; as
    many tasks sleep as the count is below zero, so exactly
    [min(downs, n + ups)] [down] calls have gone through; the sleepers are blocked
    and distinct, and are woken in the order in which they went to sleep. *)
Theorem semaphore_accounting {T} `{SchedulerLaws T} (k0 : Kernel T) n x :
  0 <= n < 2 ^ 62 -> kernel_inv k0 ->
  rtc sm_step (mkCount (Semaphore_new n) k0 0 0 [] []) x -> sm_ups x + sm_downs x < 2 ^ 62 ->
  let q := se_wait_queue (sm_inner x) in
  se_count (sm_inner x) = n + sm_ups x - sm_downs x /\
  Z.of_nat (length q) = Z.max 0 (- se_count (sm_inner x)) /\
  sm_downs x - Z.of_nat (length q) = Z.min (sm_downs x) (n + sm_ups x) /\
  NoDup q /\ (forall t, t ∈ q -> status_of (sm_kernel x) t = Some Blocked) /\
  sm_slept x = sm_woken x ++ q.
Proof.
  intros Hn Hk Hr Hb q. assert (sm_inv n x) as [H1 H2 H3 H4 H5 H6 H7].
  { assert (sm_inv n (mkCount (Semaphore_new n) k0 0 0 [] [])) as Hi.
    { pose proof (isize_wrap_small n ltac:(lia)) as Hns. unfold isize_wrap in Hns.
      split; cbn [sm_inner sm_kernel sm_ups sm_downs sm_slept sm_woken Semaphore_new se_wait_queue se_count]; try done.
      - intros _. rewrite Hns. lia.
      - intros _. rewrite Hns. cbn. lia.
      - constructor.
      - intros t Ht. by apply elem_of_nil in Ht. }
    clear -Hr Hi Hn. induction Hr as [|a b c Hab _ IH]; [done|]. apply IH. by eapply sm_step_inv. }
  specialize (H3 Hb). specialize (H4 Hb). fold q in H4, H5, H6, H7. split; [done|]. split; [done|]. split; [lia|]. done.
Qed.

Lemma semaphore_accounting_witness : exists x : Counting,
  rtc sm_step (mkCount (Semaphore_new 1) demo_kernel 0 0 [] []) x /\
  se_count (sm_inner x) = -1 /\ se_wait_queue (sm_inner x) = [1] /\ status_of (sm_kernel x) 1 = Some Blocked /\
  sm_downs x - Z.of_nat (length (se_wait_queue (sm_inner x))) = 1.
Proof.
  assert (exists x, rtc sm_step (mkCount (Semaphore_new 1) demo_kernel 0 0 [] []) x /\
    sm_ups x = 0 /\ sm_downs x = 2 /\ se_wait_queue (sm_inner x) = [1]) as (x & Hx & H1 & H2 & Hq).
  { eexists. split.
    - eapply rtc_l; [eapply (sm_down _ _ _ _ _ _ 1); vm_compute; reflexivity|].
      eapply rtc_l; [eapply (sm_down _ _ _ _ _ _ 1); vm_compute; reflexivity|]. apply rtc_refl.
    - vm_compute. done. }
  destruct (semaphore_accounting demo_kernel 1 x ltac:(lia) demo_kernel_inv Hx ltac:(lia)) as (E1 & E2 & E3 & _ & E5 & _).
  exists x. split; [exact Hx|]. split; [lia|]. split; [exact Hq|]. split; [apply E5; rewrite Hq; left|]. rewrite E3. lia.
Defined.
