(* ===== verification/Process.v ===== *)
(** * Processes and threads (os/src/task/process.rs, mod.rs, task.rs, signal.rs,
      os/src/syscall/process.rs, thread.rs and the descriptors of fs.rs)

    The kernel's objects are kept in tables: processes by their pid (a pid is
    in use exactly as long as its process control block exists), threads by a
    number that stands for their [Arc].  An operation is a program over the
    whole [World]: the processor, the tables, the memory and the pipes.
    [w_stacks] has the processes that threads inside a call keep alive. *)

From stdpp Require Import sorting.
From S2P Require Import Prelude Address FrameAllocator PageTable MemorySet Ids Scheduler Processor Pipe.
From S2P Require Vfs.

(** ** Signals *)

Definition SIGINT : Z := Z.shiftl 1 2.
Definition SIGILL : Z := Z.shiftl 1 4.
Definition SIGABRT : Z := Z.shiftl 1 6.
Definition SIGFPE : Z := Z.shiftl 1 8.
Definition SIGSEGV : Z := Z.shiftl 1 11.
Definition SIGTSTP : Z := Z.shiftl 1 20.
Definition SIGCONT : Z := Z.shiftl 1 21.
Definition SignalFlags_all : Z :=
  Z.lor SIGINT (Z.lor SIGILL (Z.lor SIGABRT (Z.lor SIGFPE (Z.lor SIGSEGV (Z.lor SIGTSTP SIGCONT))))).

(** [bitflags]: [from_bits], [contains], [insert], [remove]. *)
Definition SignalFlags_from_bits (bits : Z) : option Z :=
  if Z.ldiff bits SignalFlags_all =? 0 then Some bits else None.

Definition SignalFlags_check_error (s : Z) : option Z :=
  if flags_contains s SIGINT then Some (-2)
  else if flags_contains s SIGILL then Some (-4)
  else if flags_contains s SIGABRT then Some (-6)
  else if flags_contains s SIGFPE then Some (-8)
  else if flags_contains s SIGSEGV then Some (-11)
  else None.

(** ** Process control blocks *)

(** The files of net/: their fields never change, and [socket_index] tells two
    of them apart while they live. *)
Record SocketFile := mkSocketFile { sk_target : Z; sk_sport : Z; sk_dport : Z; sk_socket_index : nat }.
Inductive NetFile :=
  | UDP (f : SocketFile)
  | TCP (f : SocketFile)
  | PortFd (index : nat).

#[export] Instance SocketFile_eq_dec : EqDecision SocketFile.
Proof. solve_decision. Defined.
#[export] Instance NetFile_eq_dec : EqDecision NetFile.
Proof. solve_decision. Defined.

(** What a descriptor refers to: an [Arc<dyn File>] of the kinds in fs/ and
    net/; an inode by the number of its [OSInode]. *)
Inductive FileRef :=
  | FStdin
  | FStdout
  | FInode (n : Z)
  | FPipe (p : Z)
  | FNet (f : NetFile).

Record ProcessControlBlockInner := mkPcb {
  pcb_is_zombie : bool;
  pcb_memory_set : MemorySet;
  pcb_parent : option Z;
  pcb_children : list Z;
  pcb_exit_code : Z;
  pcb_pgid : Z;
  pcb_stopped : bool;
  pcb_fd_table : list (option FileRef);
  pcb_working_directory : Vfs.Inode;
  pcb_working_directory_path : list Z;
  pcb_path_variable : list Z;
  pcb_signals : Z;
  pcb_sig_ignored : Z;
  pcb_tasks : list (option Z);
  pcb_task_res_allocator : RecycleAllocator
}.

Definition set_zombie (code : Z) (p : ProcessControlBlockInner) : ProcessControlBlockInner :=
  mkPcb true (pcb_memory_set p) (pcb_parent p) (pcb_children p) code (pcb_pgid p) (pcb_stopped p) (pcb_fd_table p)
    (pcb_working_directory p) (pcb_working_directory_path p) (pcb_path_variable p) (pcb_signals p) (pcb_sig_ignored p)
    (pcb_tasks p) (pcb_task_res_allocator p).
Definition set_memory (ms : MemorySet) (ra : RecycleAllocator) (p : ProcessControlBlockInner) : ProcessControlBlockInner :=
  mkPcb (pcb_is_zombie p) ms (pcb_parent p) (pcb_children p) (pcb_exit_code p) (pcb_pgid p) (pcb_stopped p) (pcb_fd_table p)
    (pcb_working_directory p) (pcb_working_directory_path p) (pcb_path_variable p) (pcb_signals p) (pcb_sig_ignored p)
    (pcb_tasks p) ra.
Definition set_family (parent : option Z) (children : list Z) (p : ProcessControlBlockInner) : ProcessControlBlockInner :=
  mkPcb (pcb_is_zombie p) (pcb_memory_set p) parent children (pcb_exit_code p) (pcb_pgid p) (pcb_stopped p) (pcb_fd_table p)
    (pcb_working_directory p) (pcb_working_directory_path p) (pcb_path_variable p) (pcb_signals p) (pcb_sig_ignored p)
    (pcb_tasks p) (pcb_task_res_allocator p).
Definition set_job (pgid : Z) (stopped : bool) (signals sig_ignored : Z) (p : ProcessControlBlockInner) : ProcessControlBlockInner :=
  mkPcb (pcb_is_zombie p) (pcb_memory_set p) (pcb_parent p) (pcb_children p) (pcb_exit_code p) pgid stopped (pcb_fd_table p)
    (pcb_working_directory p) (pcb_working_directory_path p) (pcb_path_variable p) signals sig_ignored
    (pcb_tasks p) (pcb_task_res_allocator p).
Definition set_fds (fds : list (option FileRef)) (p : ProcessControlBlockInner) : ProcessControlBlockInner :=
  mkPcb (pcb_is_zombie p) (pcb_memory_set p) (pcb_parent p) (pcb_children p) (pcb_exit_code p) (pcb_pgid p) (pcb_stopped p) fds
    (pcb_working_directory p) (pcb_working_directory_path p) (pcb_path_variable p) (pcb_signals p) (pcb_sig_ignored p)
    (pcb_tasks p) (pcb_task_res_allocator p).
Definition set_paths (cwd : Vfs.Inode) (cwd_path path_variable : list Z) (p : ProcessControlBlockInner) : ProcessControlBlockInner :=
  mkPcb (pcb_is_zombie p) (pcb_memory_set p) (pcb_parent p) (pcb_children p) (pcb_exit_code p) (pcb_pgid p) (pcb_stopped p) (pcb_fd_table p)
    cwd cwd_path path_variable (pcb_signals p) (pcb_sig_ignored p) (pcb_tasks p) (pcb_task_res_allocator p).
Definition set_tasks (tasks : list (option Z)) (p : ProcessControlBlockInner) : ProcessControlBlockInner :=
  mkPcb (pcb_is_zombie p) (pcb_memory_set p) (pcb_parent p) (pcb_children p) (pcb_exit_code p) (pcb_pgid p) (pcb_stopped p) (pcb_fd_table p)
    (pcb_working_directory p) (pcb_working_directory_path p) (pcb_path_variable p) (pcb_signals p) (pcb_sig_ignored p)
    tasks (pcb_task_res_allocator p).

Definition set_signals (signals : Z) (p : ProcessControlBlockInner) : ProcessControlBlockInner :=
  set_job (pcb_pgid p) (pcb_stopped p) signals (pcb_sig_ignored p) p.
Definition set_working_directory (cwd : Vfs.Inode) (p : ProcessControlBlockInner) : ProcessControlBlockInner :=
  set_paths cwd (pcb_working_directory_path p) (pcb_path_variable p) p.
Definition set_working_directory_path (path : list Z) (p : ProcessControlBlockInner) : ProcessControlBlockInner :=
  set_paths (pcb_working_directory p) path (pcb_path_variable p) p.
Definition set_path_variable (path : list Z) (p : ProcessControlBlockInner) : ProcessControlBlockInner :=
  set_paths (pcb_working_directory p) (pcb_working_directory_path p) path p.

(** [alloc_fd]: the table afterwards and the descriptor. *)
Definition free_fd (o : option FileRef) : bool := match o with None => true | Some _ => false end.
Definition alloc_fd (fds : list (option FileRef)) : list (option FileRef) * nat :=
  match position free_fd fds with
  | Some fd => (fds, fd)
  | None => (fds ++ [None], length fds)
  end.

(** ** Threads *)

(** The part of a [TaskControlBlock] outside the scheduler. *)
Record Thread := mkThread {
  th_process : Z;
  th_kstack : KernelStack;
  th_res : option TaskUserRes;
  th_trap_cx_ppn : PhysPageNum;
  th_exit_code : option Z
}.

Definition set_res (res : option TaskUserRes) (t : Thread) : Thread :=
  mkThread (th_process t) (th_kstack t) res (th_trap_cx_ppn t) (th_exit_code t).

(** A [TrapContext] as the 37 words of its [repr(C)] layout. *)
Record TrapContext := mkTrapContext {
  tc_x : list Z; tc_sstatus : Z; tc_sepc : Z; tc_kernel_satp : Z; tc_kernel_sp : Z; tc_trap_handler : Z
}.

Definition TrapContext_set_sp (sp : Z) (cx : TrapContext) : TrapContext :=
  mkTrapContext (<[2%nat := sp]> (tc_x cx)) (tc_sstatus cx) (tc_sepc cx) (tc_kernel_satp cx) (tc_kernel_sp cx) (tc_trap_handler cx).

(** [sstatus] is the register as read, with SPP set to User. *)
Definition TrapContext_app_init_context (sstatus entry sp kernel_satp kernel_sp trap_handler : Z) : TrapContext :=
  TrapContext_set_sp sp (mkTrapContext (replicate 32 0) sstatus entry kernel_satp kernel_sp trap_handler).

Definition TrapContext_words (cx : TrapContext) : list Z :=
  tc_x cx ++ [tc_sstatus cx; tc_sepc cx; tc_kernel_satp cx; tc_kernel_sp cx; tc_trap_handler cx].

(** Words in physical memory. *)
Definition write_bytes_at (pa : Z) (bs : list Z) : M Machine unit :=
  mfor (zip (seqZ pa (Z.of_nat (length bs))) bs) (fun x => modify (write_phys (fst x) (snd x))).
Definition write_usize (pa v : Z) : M Machine unit := write_bytes_at pa (le_bytes 8 v).
Definition read_usize (pa : Z) : M Machine Z := m ← get; mret (le_val (map (fun i => read_phys m (pa + i)) (seqZ 0 8))).
Definition trap_cx_word (ppn : PhysPageNum) (k : Z) : Z := ppn * PAGE_SIZE + 8 * k.
Definition KERNEL_SP_WORD : Z := 35.
(** [PhysPageNum::get_mut] refuses only the page at physical address 0, which is
    no frame of the allocator. *)
Definition store_trap_cx (ppn : PhysPageNum) (cx : TrapContext) : M Machine unit :=
  mfor (zip (seqZ 0 37) (TrapContext_words cx)) (fun x => write_usize (trap_cx_word ppn (fst x)) (snd x)).

(** ** The world *)

Section World.
Context {T : Type} `{Scheduler T}.

(** [w_stacks] has, for a thread inside a call that keeps the [Arc] of its
    process in a local variable while others run, that process. *)
Record World := mkWorld {
  w_kernel : Kernel T;
  w_threads : gmap Z Thread;
  w_next_thread : Z;
  w_procs : gmap Z ProcessControlBlockInner;
  w_pid2pcb : gset Z;
  w_pid_allocator : RecycleAllocator;
  w_memory : KernelState;
  w_pipes : PipeHeap;
  w_next_object : Z;
  w_stacks : gmap Z Z
}.

Definition put_kernel (k : Kernel T) (w : World) : World :=
  mkWorld k (w_threads w) (w_next_thread w) (w_procs w) (w_pid2pcb w) (w_pid_allocator w) (w_memory w) (w_pipes w) (w_next_object w) (w_stacks w).
Definition put_threads (t : gmap Z Thread) (n : Z) (w : World) : World :=
  mkWorld (w_kernel w) t n (w_procs w) (w_pid2pcb w) (w_pid_allocator w) (w_memory w) (w_pipes w) (w_next_object w) (w_stacks w).
Definition put_procs (p : gmap Z ProcessControlBlockInner) (w : World) : World :=
  mkWorld (w_kernel w) (w_threads w) (w_next_thread w) p (w_pid2pcb w) (w_pid_allocator w) (w_memory w) (w_pipes w) (w_next_object w) (w_stacks w).
Definition put_pids (reg : gset Z) (ra : RecycleAllocator) (w : World) : World :=
  mkWorld (w_kernel w) (w_threads w) (w_next_thread w) (w_procs w) reg ra (w_memory w) (w_pipes w) (w_next_object w) (w_stacks w).
Definition put_memory (m : KernelState) (w : World) : World :=
  mkWorld (w_kernel w) (w_threads w) (w_next_thread w) (w_procs w) (w_pid2pcb w) (w_pid_allocator w) m (w_pipes w) (w_next_object w) (w_stacks w).
Definition put_pipes (h : PipeHeap) (n : Z) (w : World) : World :=
  mkWorld (w_kernel w) (w_threads w) (w_next_thread w) (w_procs w) (w_pid2pcb w) (w_pid_allocator w) (w_memory w) h n (w_stacks w).
Definition put_stacks (st : gmap Z Z) (w : World) : World :=
  mkWorld (w_kernel w) (w_threads w) (w_next_thread w) (w_procs w) (w_pid2pcb w) (w_pid_allocator w) (w_memory w) (w_pipes w) (w_next_object w) st.

(** Programs over one part. *)
Definition on_kern {A : Type} (f : M (Kernel T) A) : M World A := fun w =>
  match f (w_kernel w) with Ok (a, k) => Ok (a, put_kernel k w) | Err e => Err e end.
Definition on_memory {A : Type} (f : M KernelState A) : M World A := fun w =>
  match f (w_memory w) with Ok (a, m) => Ok (a, put_memory m w) | Err e => Err e end.
Definition on_machine {A : Type} (f : M Machine A) : M World A := on_memory (fun ks =>
  match f (ks_machine ks) with
  | Ok (a, m) => Ok (a, mkKernel m (ks_kernel_space ks) (ks_kstack_allocator ks))
  | Err e => Err e
  end).
Definition on_pipes {A : Type} (f : M PipeHeap A) : M World A := fun w =>
  match f (w_pipes w) with Ok (a, h) => Ok (a, put_pipes h (w_next_object w) w) | Err e => Err e end.
Definition on_pids {A : Type} (f : M RecycleAllocator A) : M World A := fun w =>
  match f (w_pid_allocator w) with Ok (a, ra) => Ok (a, put_pids (w_pid2pcb w) ra w) | Err e => Err e end.

Definition get_pcb (pid : Z) : M World ProcessControlBlockInner := o ← gets (fun w => w_procs w !! pid); unwrap o.
Definition put_pcb (pid : Z) (p : ProcessControlBlockInner) : M World unit :=
  modify (fun w => put_procs (<[pid := p]> (w_procs w)) w).
(** [process.inner_exclusive_access().f()]. *)
Definition with_pcb (pid : Z) (f : ProcessControlBlockInner -> ProcessControlBlockInner) : M World unit :=
  p ← get_pcb pid; put_pcb pid (f p).
Definition get_thread (t : Z) : M World Thread := o ← gets (fun w => w_threads w !! t); unwrap o.
Definition put_thread (t : Z) (th : Thread) : M World unit :=
  modify (fun w => put_threads (<[t := th]> (w_threads w)) (w_next_thread w) w).

(** The memory set and the thread identifiers of a process, with the machine. *)
Definition on_process_res {A : Type} (pid : Z) (f : M ProcessRes A) : M World A :=
  p ← get_pcb pid;
  r ← on_machine (fun m =>
    match f (mkProcRes m (pcb_memory_set p) (pcb_task_res_allocator p)) with
    | Ok (a, s) => Ok ((a, s), pr_machine s)
    | Err e => Err e
    end);
  put_pcb pid (set_memory (pr_memory_set (snd r)) (pr_task_res_allocator (snd r)) p);;
  mret (fst r).

(** *** PID2PCB and pids *)

Definition pid2process (pid : Z) : M World (option Z) :=
  reg ← gets w_pid2pcb; mret (if decide (pid ∈ reg) then Some pid else None).
Definition insert_into_pid2process (pid : Z) : M World unit :=
  modify (fun w => put_pids ({[pid]} ∪ w_pid2pcb w) (w_pid_allocator w) w).
Definition remove_from_pid2process (pid : Z) : M World unit :=
  reg ← gets w_pid2pcb;
  massert (bool_decide (pid ∈ reg));;
  modify (fun w => put_pids (w_pid2pcb w ∖ {[pid]}) (w_pid_allocator w) w).

Definition pid_alloc : M World Z := on_pids RecycleAllocator_alloc.
Definition PidHandle_drop (pid : Z) : M World unit := on_pids (RecycleAllocator_dealloc pid).

(** *** Files *)

(** Cloning and dropping an [Arc<dyn File>]: only the ends of pipes are
    counted. *)
Definition clone_file (f : FileRef) : M World unit :=
  match f with FPipe p => on_pipes (clone_end p) | _ => mret tt end.
Definition drop_file (f : FileRef) : M World unit :=
  match f with FPipe p => on_pipes (drop_end p) | _ => mret tt end.
Definition clone_fd (o : option FileRef) : M World unit :=
  match o with Some f => clone_file f | None => mret tt end.
Definition drop_fd (o : option FileRef) : M World unit :=
  match o with Some f => drop_file f | None => mret tt end.

(** *** The current thread and process *)

Definition current_thread : M World Z := c ← on_kern current_task; unwrap c.
(** [current_process()]: the [Weak] pointer of the thread must upgrade. *)
Definition current_process : M World Z :=
  t ← current_thread;
  th ← get_thread t;
  get_pcb (th_process th);;
  mret (th_process th).

(** [let process = current_process()] in a call that has not dropped it when
    it gives up the processor, and the end of the call. *)
Definition hold_process : M World unit :=
  t ← current_thread; pid ← current_process; modify (fun w => put_stacks (<[t := pid]> (w_stacks w)) w).
Definition release_process : M World unit :=
  t ← current_thread; modify (fun w => put_stacks (delete t (w_stacks w)) w).

(** The tasks of a process that are there. *)
Definition live_tasks (p : ProcessControlBlockInner) : list Z := omap id (pcb_tasks p).
Definition get_task (p : ProcessControlBlockInner) (tid : nat) : M World Z :=
  o ← unwrap (pcb_tasks p !! tid); unwrap o.
Definition sched_info_of (t : Z) : M World SchedInfo :=
  on_kern (with_tasks (with_inner t (gets sched_info))).

(** A list of tasks lets go of the [Arc] of a thread.  A thread that has
    exited or is stopped is nowhere else, and its kernel stack is released; any
    other is kept by the ready queue or the queue it waits in. *)
Definition drop_task (t : Z) : M World unit :=
  th ← get_thread t;
  st ← on_kern (with_tasks (with_inner t (gets task_status)));
  if bool_decide (th_exit_code th <> None) || bool_decide (st = Stopped) then
    on_memory (KernelStack_drop (th_kstack th));;
    modify (fun w => put_threads (delete t (w_threads w)) (w_next_thread w) w)
  else mret tt.

(** ** Creation *)

(** [TaskControlBlock::new_with_priority], with a new number. *)
Definition TaskControlBlock_new_with_priority (pid ustack_base : Z) (alloc_user_res : bool) (priority : Z) : M World Z :=
  res ← on_process_res pid (TaskUserRes_new ustack_base alloc_user_res);
  trap_cx_ppn ← on_process_res pid (TaskUserRes_trap_cx_ppn res);
  kstack ← on_memory kstack_alloc;
  si ← unwrap (SchedInfo_new priority);
  t ← gets w_next_thread;
  modify (fun w => put_threads (<[t := mkThread pid kstack (Some res) trap_cx_ppn None]> (w_threads w)) (t + 1) w);;
  on_kern (with_tasks (modify (fun m => mkTasks (tk_now m) (<[t := mkTask Ready si]> (tk_table m)))));;
  mret t.

Definition TaskControlBlock_new (pid ustack_base : Z) (alloc_user_res : bool) : M World Z :=
  TaskControlBlock_new_with_priority pid ustack_base alloc_user_res DEFAULT_PRIORITY.

Section Linked.
Context (sym : LinkerSymbols) (ElfFile_new : list Z -> option ElfFile).
(** The value of [sstatus] for a user context and the address of
    [trap_handler]. *)
Context (user_sstatus trap_handler : Z).
(** [INITPROC], and the root directory of the file system. *)
Context (INITPROC : Z) (root_inode : Vfs.Inode).

Definition kernel_token : M World Z := gets (fun w => MemorySet_token (ks_kernel_space (w_memory w))).

Definition ProcessControlBlock_new (elf_data : list Z) : M World Z :=
  r ← on_machine (MemorySet_from_elf sym ElfFile_new elf_data);
  let '(memory_set, ustack_base, entry_point) := r in
  pid ← pid_alloc;
  put_pcb pid (mkPcb false memory_set None [] 0 pid false [Some FStdin; Some FStdout; Some FStdout]
    root_inode [47] [47; 98; 105; 110] 0 0 [] RecycleAllocator_new);;
  task ← TaskControlBlock_new pid ustack_base true;
  th ← get_thread task;
  res ← unwrap (th_res th);
  token ← kernel_token;
  on_machine (store_trap_cx (th_trap_cx_ppn th)
    (TrapContext_app_init_context user_sstatus entry_point (TaskUserRes_ustack_top res) token
       (KernelStack_get_top (th_kstack th)) trap_handler));;
  with_pcb pid (fun p => set_tasks (pcb_tasks p ++ [Some task]) p);;
  insert_into_pid2process pid;;
  on_kern (add_task task);;
  mret pid.

(** ** fork *)

Definition ProcessControlBlock_fork (self : Z) : M World Z :=
  parent ← get_pcb self;
  massert (Nat.eqb (length (pcb_tasks parent)) 1);;
  task0 ← get_task parent 0;
  si ← sched_info_of task0;
  memory_set ← on_machine (MemorySet_from_existed_user_cow sym (pcb_memory_set parent));
  pid ← pid_alloc;
  mfor (pcb_fd_table parent) clone_fd;;
  put_pcb pid (mkPcb false memory_set (Some self) [] 0 (pcb_pgid parent) false (pcb_fd_table parent)
    (pcb_working_directory parent) (pcb_working_directory_path parent) (pcb_path_variable parent)
    0 (pcb_sig_ignored parent) [] RecycleAllocator_new);;
  with_pcb self (fun p => set_family (pcb_parent p) (pcb_children p ++ [pid]) p);;
  th0 ← get_thread task0;
  res0 ← unwrap (th_res th0);
  task ← TaskControlBlock_new_with_priority pid (ur_ustack_base res0) false (base_priority si);
  with_pcb pid (fun p => set_tasks (pcb_tasks p ++ [Some task]) p);;
  th ← get_thread task;
  on_machine (write_usize (trap_cx_word (th_trap_cx_ppn th) KERNEL_SP_WORD) (KernelStack_get_top (th_kstack th)));;
  insert_into_pid2process pid;;
  on_kern (add_task task);;
  mret pid.

Definition sys_fork : M World Z :=
  current ← current_process;
  new_pid ← ProcessControlBlock_fork current;
  p ← get_pcb new_pid;
  task ← get_task p 0;
  th ← get_thread task;
  on_machine (write_usize (trap_cx_word (th_trap_cx_ppn th) 10) 0);;
  mret new_pid.

(** ** exec *)

(** The strings on the user stack: each is written below the last one, and
    its address goes to [argv[i]], of which the list holds the translations. *)
Fixpoint push_args (token : Z) (argv : list PhysAddr) (i : nat) (args : list (list Z)) (user_sp : Z) : M Machine Z :=
  match args with
  | [] => mret user_sp
  | arg :: args' =>
      let user_sp := usize_wrap (user_sp - (Z.of_nat (length arg) + 1)) in
      slot ← unwrap (argv !! i);
      write_usize slot user_sp;;
      mfor (zip (seqZ user_sp (Z.of_nat (length arg))) arg) (fun pc =>
        pa ← translated_refmut token (usize_wrap (fst pc)); modify (write_phys pa (snd pc)));;
      pa ← translated_refmut token (usize_wrap (user_sp + Z.of_nat (length arg)));
      modify (write_phys pa 0);;
      push_args token argv (S i) args' user_sp
  end.

(** [exec] from the top of the user stack on: the vector of the arguments with
    its terminator, and the strings; [argv_base] and the stack pointer. *)
Definition exec_args (new_token ustack_top : Z) (args : list (list Z)) : M Machine (Z * Z) :=
  let argv_base := usize_wrap (ustack_top - (Z.of_nat (length args) + 1) * 8) in
  argv ← mfold (fun argv arg => pa ← translated_refmut new_token (usize_wrap (argv_base + arg * 8)); mret (argv ++ [pa]))
    [] (seqZ 0 (Z.of_nat (length args) + 1));
  last ← unwrap (argv !! length args);
  write_usize last 0;;
  user_sp ← push_args new_token argv 0 args argv_base;
  mret (argv_base, user_sp - user_sp mod 8).

Definition ProcessControlBlock_exec (self : Z) (elf_data : list Z) (args : list (list Z)) : M World unit :=
  p ← get_pcb self;
  massert (Nat.eqb (length (pcb_tasks p)) 1);;
  r ← on_machine (MemorySet_from_elf sym ElfFile_new elf_data);
  let '(memory_set, ustack_base, entry_point) := r in
  let new_token := MemorySet_token memory_set in
  on_machine (MemorySet_drop (pcb_memory_set p));;
  with_pcb self (fun p => set_job (pcb_pgid p) false 0 0 (set_memory memory_set (pcb_task_res_allocator p) p));;
  p ← get_pcb self;
  task ← get_task p 0;
  th ← get_thread task;
  res ← unwrap (th_res th);
  let res := mkUserRes (ur_tid res) ustack_base in
  on_process_res self (TaskUserRes_alloc_user_res res);;
  trap_cx_ppn ← on_process_res self (TaskUserRes_trap_cx_ppn res);
  put_thread task (mkThread (th_process th) (th_kstack th) (Some res) trap_cx_ppn (th_exit_code th));;
  r ← on_machine (exec_args new_token (TaskUserRes_ustack_top res) args);
  let '(argv_base, user_sp) := r in
  token ← kernel_token;
  let trap_cx := TrapContext_app_init_context user_sstatus entry_point user_sp token (KernelStack_get_top (th_kstack th)) trap_handler in
  on_machine (store_trap_cx trap_cx_ppn
    (mkTrapContext (<[11%nat := argv_base]> (<[10%nat := Z.of_nat (length args)]> (tc_x trap_cx))) (tc_sstatus trap_cx) (tc_sepc trap_cx)
       (tc_kernel_satp trap_cx) (tc_kernel_sp trap_cx) (tc_trap_handler trap_cx))).

(** ** Threads *)

(** [while tasks.len() < n { tasks.push(None) }]. *)
Definition grow_tasks (n : nat) (tasks : list (option Z)) : list (option Z) := tasks ++ replicate (n - length tasks) None.

Definition sys_thread_create (entry arg : Z) : M World Z :=
  t ← current_thread;
  th ← get_thread t;
  get_pcb (th_process th);;
  si ← sched_info_of t;
  res ← unwrap (th_res th);
  new_task ← TaskControlBlock_new_with_priority (th_process th) (ur_ustack_base res) true (base_priority si);
  on_kern (add_task new_task);;
  new_th ← get_thread new_task;
  new_res ← unwrap (th_res new_th);
  let tid := Z.to_nat (ur_tid new_res) in
  p ← get_pcb (th_process th);
  put_pcb (th_process th) (set_tasks (<[tid := Some new_task]> (grow_tasks (S tid) (pcb_tasks p))) p);;
  mfor (option_list (mjoin (pcb_tasks p !! tid))) drop_task;;
  token ← kernel_token;
  let cx := TrapContext_app_init_context user_sstatus entry (TaskUserRes_ustack_top new_res) token
              (KernelStack_get_top (th_kstack new_th)) trap_handler in
  on_machine (store_trap_cx (th_trap_cx_ppn new_th)
    (mkTrapContext (<[10%nat := arg]> (tc_x cx)) (tc_sstatus cx) (tc_sepc cx) (tc_kernel_satp cx) (tc_kernel_sp cx) (tc_trap_handler cx)));;
  mret (ur_tid new_res).

Definition sys_gettid : M World Z :=
  t ← current_thread; th ← get_thread t; res ← unwrap (th_res th); mret (ur_tid res).

Definition sys_waittid (tid : Z) : M World Z :=
  t ← current_thread;
  th ← get_thread t;
  let pid := th_process th in
  p ← get_pcb pid;
  res ← unwrap (th_res th);
  if ur_tid res =? tid then mret (-1)
  else
    o ← unwrap (pcb_tasks p !! Z.to_nat tid);
    match o with
    | None => mret (-1)
    | Some waited =>
        wth ← get_thread waited;
        match th_exit_code wth with
        | Some code =>
            put_pcb pid (set_tasks (<[Z.to_nat tid := None]> (pcb_tasks p)) p);;
            drop_task waited;;
            mret code
        | None => mret (-2)
        end
    end.

(** ** exit *)

Inductive exit_result :=
  | Exited
  | Shutdown (failure : bool).

(** Moving the children under the init process. *)
Definition reparent (child : Z) : M World unit :=
  with_pcb child (fun c => set_family (Some INITPROC) (pcb_children c) c);;
  with_pcb INITPROC (fun i => set_family (pcb_parent i) (pcb_children i ++ [child]) i).

(** [task_inner.res.take()]. *)
Definition take_res (t : Z) : M World (list TaskUserRes) :=
  th ← get_thread t;
  put_thread t (set_res None th);;
  mret (match th_res th with Some res => [res] | None => [] end).

(** The end of the main thread: the process becomes a zombie. *)
Definition exit_process (pid exit_code : Z) : M World unit :=
  remove_from_pid2process pid;;
  with_pcb pid (set_zombie exit_code);;
  p ← get_pcb pid;
  mfor (pcb_children p) reparent;;
  p ← get_pcb pid;
  recycle_res ← mfold (fun acc t => rs ← take_res t; mret (acc ++ rs)) [] (live_tasks p);
  mfor recycle_res (fun res => on_process_res pid (TaskUserRes_drop res));;
  with_pcb pid (fun p => set_family (pcb_parent p) [] p);;
  p ← get_pcb pid;
  ms ← on_machine (MemorySet_recycle_data_pages (pcb_memory_set p));
  mfor (pcb_fd_table p) drop_fd;;
  put_pcb pid (set_fds [] (set_tasks (take 1 (pcb_tasks p)) (set_memory ms (pcb_task_res_allocator p) p)));;
  mfor (omap id (drop 1 (pcb_tasks p))) drop_task.

Definition exit_current_and_run_next (exit_code : Z) : M World exit_result :=
  c ← on_kern take_current_task;
  task ← unwrap c;
  th ← get_thread task;
  let pid := th_process th in
  get_pcb pid;;
  res ← unwrap (th_res th);
  put_thread task (mkThread pid (th_kstack th) None (th_trap_cx_ppn th) (Some exit_code));;
  on_process_res pid (TaskUserRes_drop res);;
  on_kern (with_tasks (with_inner task (with_sched SchedInfo_on_block)));;
  if ur_tid res =? 0 then
    if pid =? IDLE_PID then mret (Shutdown (negb (exit_code =? 0)))
    else exit_process pid exit_code;; mret Exited
  else mret Exited.

(** ** wait *)

Definition WUNTRACED : Z := 1.

(** The kernel stacks that keep a process alive.  A thread that never runs
    again never leaves its call, so what it holds is never let go of. *)
Definition stack_refs (w : World) (pid : Z) : nat := length (filter (fun x => snd x = pid) (map_to_list (w_stacks w))).

(** The [Arc]s to a process other than the one in hand: the children lists it
    is in, [PID2PCB], [INITPROC] and the kernel stacks of threads inside a call.
    Threads and their resources hold [Weak] pointers. *)
Definition strong_refs (w : World) (pid : Z) : nat :=
  length (filter (fun x => pid ∈ pcb_children (snd x)) (map_to_list (w_procs w)))
  + (if decide (pid ∈ w_pid2pcb w) then 1 else 0)
  + (if decide (pid = INITPROC) then 1 else 0)
  + stack_refs w pid.

(** The last [Arc] of a process goes: its pid, its memory and its main thread
    are released, and the [Weak] pointers to it dangle (-1 is no pid). *)
Definition dangle (pid : Z) (th : Thread) : Thread :=
  if th_process th =? pid then mkThread (-1) (th_kstack th) (th_res th) (th_trap_cx_ppn th) (th_exit_code th) else th.

Definition drop_pcb (pid : Z) : M World unit :=
  p ← get_pcb pid;
  PidHandle_drop pid;;
  on_machine (MemorySet_drop (pcb_memory_set p));;
  mfor (live_tasks p) drop_task;;
  modify (fun w => put_threads (dangle pid <$> w_threads w) (w_next_thread w) (put_procs (delete pid (w_procs w)) w)).

(** Whether [waitpid(pid)] is about the child [c]. *)
Definition wait_for (pid c : Z) : bool := (pid =? -1) || (usize_wrap pid =? c).

Definition sys_waitpid (pid exit_code_ptr options : Z) : M World Z :=
  self ← current_process;
  inner ← get_pcb self;
  if negb (existsb (wait_for pid) (pcb_children inner)) then mret (-1)
  else
    cs ← mfold (fun acc c => p ← get_pcb c; mret (acc ++ [(c, p)])) [] (pcb_children inner);
    if negb (Z.land options WUNTRACED =? 0) && existsb (fun x => pcb_stopped (snd x) && wait_for pid (fst x)) cs then mret (-3)
    else
      match position (fun x => pcb_is_zombie (snd x) && wait_for pid (fst x)) cs with
      | None => mret (-2)
      | Some idx =>
          r ← on_machine (MemorySet_ensure_private_range (pcb_memory_set inner) (VirtAddr_from_usize exit_code_ptr) 4);
          put_pcb self (set_memory (snd r) (pcb_task_res_allocator inner) inner);;
          if negb (fst r) then mret (-1)
          else
            child ← unwrap (pcb_children inner !! idx);
            with_pcb self (fun p => set_family (pcb_parent p) (vec_remove idx (pcb_children p)) p);;
            refs ← gets (fun w => strong_refs w child);
            massert (Nat.eqb refs 0);;
            c ← get_pcb child;
            on_machine (pa ← translated_refmut (MemorySet_token (snd r)) exit_code_ptr;
                        write_bytes_at pa (le_bytes 4 (u32_wrap (pcb_exit_code c))));;
            drop_pcb child;;
            mret child
      end.

(** ** Signals and jobs *)

Definition check_signals_of_current : M World (option Z) :=
  pid ← current_process; p ← get_pcb pid; mret (SignalFlags_check_error (pcb_signals p)).

Definition current_add_signal (signal : Z) : M World unit :=
  pid ← current_process; with_pcb pid (fun p => set_signals (Z.lor (pcb_signals p) signal) p).

Definition current_pgrp : M World Z := pid ← current_process; p ← get_pcb pid; mret (pcb_pgid p).

Definition check_stop_signal_of_current : M World bool :=
  pid ← current_process;
  p ← get_pcb pid;
  if flags_contains (pcb_sig_ignored p) SIGTSTP then
    put_pcb pid (set_signals (Z.ldiff (pcb_signals p) SIGTSTP) p);; mret false
  else if flags_contains (pcb_signals p) SIGTSTP then
    put_pcb pid (set_job (pcb_pgid p) true (Z.ldiff (pcb_signals p) SIGTSTP) (pcb_sig_ignored p) p);; mret true
  else mret false.

Definition clear_cont_signal_of_current : M World unit :=
  pid ← current_process; with_pcb pid (fun p => set_signals (Z.ldiff (pcb_signals p) SIGCONT) p).

Definition stop_current_and_run_next : M World unit :=
  c ← on_kern take_current_task;
  task ← unwrap c;
  th ← get_thread task;
  get_pcb (th_process th);;
  on_kern (with_tasks (with_inner task (set_status Stopped)));;
  with_pcb (th_process th) (fun p => set_job (pcb_pgid p) true (pcb_signals p) (pcb_sig_ignored p) p).

Definition continue_process (pid : Z) : M World unit :=
  p ← get_pcb pid;
  if negb (pcb_stopped p) then mret tt
  else
    put_pcb pid (set_job (pcb_pgid p) false (Z.ldiff (pcb_signals p) SIGCONT) (pcb_sig_ignored p) p);;
    mfor (live_tasks p) (fun t =>
      st ← on_kern (with_tasks (with_inner t (gets task_status)));
      if decide (st = Stopped) then
        on_kern (with_tasks (with_inner t (set_status Ready)));;
        on_kern (add_task t)
      else mret tt).

(** The registered processes of a group, in the order of the map. *)
Definition group_members (pgrp : Z) : M World (list Z) :=
  w ← get;
  mret (filter (fun pid => pcb_pgid <$> w_procs w !! pid = Some pgrp) (merge_sort Z.le (elements (w_pid2pcb w)))).

Definition continue_process_group (pgrp : Z) : M World unit :=
  targets ← group_members pgrp; mfor targets continue_process.

Definition add_signal_to_process (pid signal : Z) : M World unit :=
  with_pcb pid (fun p =>
    if negb (flags_contains (pcb_sig_ignored p) signal) then set_signals (Z.lor (pcb_signals p) signal) p else p).

Definition signal_process_group (pgrp signal : Z) : M World unit :=
  targets ← group_members pgrp; mfor targets (fun pid => add_signal_to_process pid signal).

Definition sys_kill (pid signal : Z) : M World Z :=
  match SignalFlags_from_bits signal with
  | None => mret (-1)
  | Some flag =>
      if flag =? SIGCONT then
        if 0 <? pid then
          o ← pid2process pid;
          match o with Some process => continue_process process;; mret 0 | None => mret (-1) end
        else if pid <? 0 then continue_process_group (usize_wrap (- pid));; mret 0
        else pgrp ← current_pgrp; continue_process_group pgrp;; mret 0
      else if 0 <? pid then
        o ← pid2process pid;
        match o with Some process => add_signal_to_process process flag;; mret 0 | None => mret (-1) end
      else if pid <? 0 then signal_process_group (usize_wrap (- pid)) flag;; mret 0
      else pgrp ← current_pgrp; signal_process_group pgrp flag;; mret 0
  end.

Definition sys_setpgid (pid pgid : Z) : M World Z :=
  current ← current_process;
  let target_pid := if pid =? 0 then current else pid in
  o ← pid2process target_pid;
  match o with
  | Some process =>
      p ← get_pcb process;
      let is_self := target_pid =? current in
      let is_child := bool_decide (pcb_parent p = Some current) in
      if negb is_self && negb is_child then mret (-1)
      else
        put_pcb process (set_job (if pgid =? 0 then target_pid else pgid) (pcb_stopped p) (pcb_signals p) (pcb_sig_ignored p) p);;
        mret 0
  | None => mret (-1)
  end.

Definition sys_sigaction (signal act : Z) : M World Z :=
  pid ← current_process;
  p ← get_pcb pid;
  match SignalFlags_from_bits signal with
  | None => mret (-1)
  | Some flag =>
      if act =? 0 then
        put_pcb pid (set_job (pcb_pgid p) (pcb_stopped p) (pcb_signals p) (Z.ldiff (pcb_sig_ignored p) flag) p);; mret 0
      else if act =? 1 then
        put_pcb pid (set_job (pcb_pgid p) (pcb_stopped p) (pcb_signals p) (Z.lor (pcb_sig_ignored p) flag) p);; mret 0
      else mret (-1)
  end.

(** ** Priorities *)

Definition resolve_process (pid : Z) : M World (option Z) :=
  if pid =? 0 then p ← current_process; mret (Some p) else pid2process pid.

Definition ProcessControlBlock_set_priority (pid priority : Z) : M World unit :=
  p ← get_pcb pid;
  now ← gets (fun w => tk_now (kn_tasks (w_kernel w)));
  mfor (live_tasks p) (fun t =>
    on_kern (with_tasks (with_inner t (with_sched (SchedInfo_set_base_priority priority now))))).

Definition sys_set_priority (pid priority : Z) : M World Z :=
  if negb ((MIN_PRIORITY <=? priority) && (priority <=? MAX_PRIORITY)) then mret (-2)
  else
    o ← resolve_process pid;
    match o with
    | Some process => ProcessControlBlock_set_priority process priority;; mret 0
    | None => mret (-1)
    end.

Definition ProcessControlBlock_priority (pid : Z) : M World (option Z) :=
  p ← get_pcb pid;
  match live_tasks p with
  | t :: _ => si ← sched_info_of t; mret (Some (base_priority si))
  | [] => mret None
  end.

Definition sys_get_priority (pid : Z) : M World Z :=
  o ← resolve_process pid;
  match o with
  | None => mret (-1)
  | Some process => r ← ProcessControlBlock_priority process; mret (match r with Some p => p | None => -1 end)
  end.

(** ** Descriptors *)

Definition sys_close (fd : Z) : M World Z :=
  pid ← current_process;
  p ← get_pcb pid;
  match pcb_fd_table p !! Z.to_nat fd with
  | Some (Some f) =>
      put_pcb pid (set_fds (<[Z.to_nat fd := None]> (pcb_fd_table p)) p);;
      drop_file f;;
      mret 0
  | _ => mret (-1)
  end.

Definition sys_dup (fd : Z) : M World Z :=
  pid ← current_process;
  p ← get_pcb pid;
  match pcb_fd_table p !! Z.to_nat fd with
  | Some (Some f) =>
      let '(fds, new_fd) := alloc_fd (pcb_fd_table p) in
      clone_file f;;
      put_pcb pid (set_fds (<[new_fd := Some f]> fds) p);;
      mret (Z.of_nat new_fd)
  | _ => mret (-1)
  end.

(** [sys_open] once the path has been opened: the new descriptor. *)
Definition install_file (f : FileRef) : M World Z :=
  pid ← current_process;
  p ← get_pcb pid;
  let '(fds, fd) := alloc_fd (pcb_fd_table p) in
  put_pcb pid (set_fds (<[fd := Some f]> fds) p);;
  mret (Z.of_nat fd).

Definition sys_pipe (pipe : Z) : M World Z :=
  pid ← current_process;
  p ← get_pcb pid;
  r ← on_machine (MemorySet_ensure_private_range (pcb_memory_set p) (VirtAddr_from_usize pipe) 16);
  put_pcb pid (set_memory (snd r) (pcb_task_res_allocator p) p);;
  if negb (fst r) then mret (-1)
  else
    let token := MemorySet_token (snd r) in
    n ← gets w_next_object;
    modify (fun w => put_pipes (w_pipes w) (n + 3) w);;
    on_pipes (make_pipe n (n + 1) (n + 2));;
    read_fd ← install_file (FPipe (n + 1));
    write_fd ← install_file (FPipe (n + 2));
    on_machine (pa ← translated_refmut token pipe; write_usize pa read_fd);;
    on_machine (pa ← translated_refmut token (usize_wrap (pipe + 8)); write_usize pa write_fd);;
    mret 0.

End Linked.
End World.
Arguments World : clear implicits.
