(* ===== verification/ProcessTree.v ===== *)
(** * The process tree: its invariant

    The part of the world the tree of processes depends on is its [view]: the
    family of each process, the registered pids, the pids in use and, of each
    thread, its process and its identifier.  Each operation of Process.v that
    changes the tree is a function on views; the lemmas say that it keeps
    [tree_ok]. *)

From S2P Require Import Prelude Ids Process.

Record family := mkFam {
  fa_zombie : bool; fa_parent : option Z; fa_children : list Z; fa_tasks : list (option Z); fa_tids : RecycleAllocator
}.
Record kin := mkKin { ki_process : Z; ki_tid : option Z; ki_exited : bool }.
Record view := mkView {
  v_fam : gmap Z family; v_reg : gset Z; v_ids : RecycleAllocator; v_threads : gmap Z kin; v_next : Z
}.

Definition fam_with_parent (parent : option Z) (f : family) : family :=
  mkFam (fa_zombie f) parent (fa_children f) (fa_tasks f) (fa_tids f).
Definition fam_with_children (children : list Z) (f : family) : family :=
  mkFam (fa_zombie f) (fa_parent f) children (fa_tasks f) (fa_tids f).
Definition fam_with_tasks (tasks : list (option Z)) (f : family) : family :=
  mkFam (fa_zombie f) (fa_parent f) (fa_children f) tasks (fa_tids f).
Definition fam_with_tids (tids : RecycleAllocator) (f : family) : family :=
  mkFam (fa_zombie f) (fa_parent f) (fa_children f) (fa_tasks f) tids.

Definition kin_no_tid (k : kin) : kin := mkKin (ki_process k) None (ki_exited k).

Definition v_with_fam (F : gmap Z family) (v : view) : view := mkView F (v_reg v) (v_ids v) (v_threads v) (v_next v).
Definition v_with_threads (th : gmap Z kin) (v : view) : view := mkView (v_fam v) (v_reg v) (v_ids v) th (v_next v).
Definition v_alter (g : family -> family) (p : Z) (v : view) : view := v_with_fam (alter g p (v_fam v)) v.

(** A process and its parent. *)
Definition parent_rel (F : gmap Z family) (c p : Z) : Prop := exists f, F !! c = Some f /\ fa_parent f = Some p.

Section Tree.
Context (init : Z).

(** The family relation and the pids. *)
Record shape_ok (v : view) : Prop := {
  (** children point back, and are not listed twice *)
  to_children : forall p f c, v_fam v !! p = Some f -> c ∈ fa_children f -> parent_rel (v_fam v) c p;
  to_nodup : forall p f, v_fam v !! p = Some f -> NoDup (fa_children f);
  (** every process but the first is in the list of its parent *)
  to_parent : forall c g, v_fam v !! c = Some g -> c <> init ->
    exists p f, fa_parent g = Some p /\ v_fam v !! p = Some f /\ c ∈ fa_children f;
  to_init : exists f, v_fam v !! init = Some f /\ fa_zombie f = false /\ fa_parent f = None;
  (** the parents lead to the first process *)
  to_root : forall c g, v_fam v !! c = Some g -> rtc (parent_rel (v_fam v)) c init;
  (** a zombie has no children; the others are registered *)
  to_zombie : forall p f, v_fam v !! p = Some f -> fa_zombie f = true -> fa_children f = [];
  to_registered : forall p, p ∈ v_reg v <-> exists f, v_fam v !! p = Some f /\ fa_zombie f = false;
  (** the pids in use are those of the processes *)
  to_ids : ra_inv 1 (v_ids v);
  to_used : forall p f, v_fam v !! p = Some f -> ra_used 1 (v_ids v) p
}.

(** A thread with resources has not exited, its process is alive and lists it
    under its identifier. *)
Definition thread_ok (F : gmap Z family) (t : Z) (k : kin) : Prop := forall tid, ki_tid k = Some tid ->
  ki_exited k = false /\ 0 <= tid /\ exists f, F !! ki_process k = Some f /\ fa_zombie f = false /\
    fa_tasks f !! Z.to_nat tid = Some (Some t) /\ ra_used 0 (fa_tids f) tid.

Record threads_ok (v : view) : Prop := {
  to_threads : forall t k, v_threads v !! t = Some k -> thread_ok (v_fam v) t k;
  to_tids : forall p f, v_fam v !! p = Some f -> fa_zombie f = false -> ra_inv 0 (fa_tids f);
  to_fresh : forall t k, v_threads v !! t = Some k -> t < v_next v
}.

Definition tree_ok (v : view) : Prop := shape_ok v /\ threads_ok v.

Section Facts.
Context (v : view) (Hv : shape_ok v).

Lemma tree_no_self_child p f : v_fam v !! p = Some f -> p ∉ fa_children f.
Proof.
  intros Hp Hin. pose proof (to_children _ Hv p f p Hp Hin) as (g & Hg & Hpar). assert (g = f) as -> by congruence.
  destruct (to_init _ Hv) as (i & Hi & _ & Hni).
  pose proof (to_root _ Hv p f Hp) as Hr. enough (forall a, rtc (parent_rel (v_fam v)) p a -> a = p) as Hall.
  - apply Hall in Hr. subst. congruence.
  - intros a Ha. induction Ha as [|x y z (g & Hg' & Hy) _ IH]; [done|]. assert (g = f) by congruence. subst.
    assert (y = x) by congruence. subst. by apply IH.
Qed.

Lemma tree_one_parent p1 p2 f1 f2 c : v_fam v !! p1 = Some f1 -> v_fam v !! p2 = Some f2 ->
  c ∈ fa_children f1 -> c ∈ fa_children f2 -> p1 = p2.
Proof.
  intros H1 H2 C1 C2. destruct (to_children _ Hv _ _ _ H1 C1) as (g1 & E1 & P1).
  destruct (to_children _ Hv _ _ _ H2 C2) as (g2 & E2 & P2). congruence.
Qed.

Lemma tree_init_no_child p f : v_fam v !! p = Some f -> init ∉ fa_children f.
Proof.
  intros Hp Hin. destruct (to_children _ Hv _ _ _ Hp Hin) as (g & Hg & Hpar).
  destruct (to_init _ Hv) as (i & Hi & _ & Hni). congruence.
Qed.

Lemma tree_child_there p f c : v_fam v !! p = Some f -> c ∈ fa_children f ->
  exists g, v_fam v !! c = Some g /\ fa_parent g = Some p /\ c <> init /\ c <> p.
Proof.
  intros Hp Hin. destruct (to_children _ Hv _ _ _ Hp Hin) as (g & Hg & Hpar). exists g. split_and!; [done|done| |].
  - intros ->. by apply (tree_init_no_child p f).
  - intros ->. by apply (tree_no_self_child p f).
Qed.

Lemma tree_parent_there c g p : v_fam v !! c = Some g -> fa_parent g = Some p ->
  exists f, v_fam v !! p = Some f /\ c ∈ fa_children f /\ c <> p /\ c <> init.
Proof.
  intros Hc Hp. assert (c <> init) as Hni by (intros ->; destruct (to_init _ Hv) as (i & Hi & _ & ?); congruence).
  destruct (to_parent _ Hv c g Hc Hni) as (q & f & E & Hf & Hin). assert (q = p) as -> by congruence.
  exists f. split_and!; try done. intros ->. by apply (tree_no_self_child p f).
Qed.

Lemma tree_registered p f : v_fam v !! p = Some f -> p ∈ v_reg v <-> fa_zombie f = false.
Proof. intros Hp. rewrite (to_registered _ Hv). split; [intros (g & ? & ?); congruence|eauto]. Qed.

End Facts.

(** Reaching the root survives a change that keeps the parent of a process or
    makes it [init]. *)
Lemma root_change (F F' : gmap Z family) c :
  (forall x f y, F !! x = Some f -> fa_parent f = Some y -> is_Some (F' !! x) ->
     exists f', F' !! x = Some f' /\ (fa_parent f' = Some init \/ fa_parent f' = Some y /\ is_Some (F' !! y))) ->
  rtc (parent_rel F) c init -> is_Some (F' !! c) -> rtc (parent_rel F') c init.
Proof.
  intros Hstep Hr. remember init as r eqn:E. induction Hr as [|x y z (f & Hf & Hy) _ IH]; intros Hc; [by apply rtc_refl|].
  destruct (Hstep x f y Hf Hy Hc) as (f' & Hf' & [Hi|[Hi Hs]]).
  - subst z. eapply rtc_l; [exists f'; split; [done|exact Hi]|]. apply rtc_refl.
  - eapply rtc_l; [exists f'; split; [done|exact Hi]|]. by apply IH.
Qed.

(** *** Changes that keep the shape *)

Definition erase (f : family) : bool * option Z * list Z := (fa_zombie f, fa_parent f, fa_children f).

Lemma shape_same v v' : shape_ok v -> (forall x, erase <$> v_fam v' !! x = erase <$> v_fam v !! x) ->
  v_reg v' = v_reg v -> v_ids v' = v_ids v -> shape_ok v'.
Proof.
  intros Hv HE Er Ei.
  assert (forall x f', v_fam v' !! x = Some f' -> exists f, v_fam v !! x = Some f /\ erase f = erase f') as Hback.
  { intros x f' Hx. specialize (HE x). rewrite Hx in HE. cbn in HE. destruct (v_fam v !! x); [|done]. injection HE. unfold erase. eauto with congruence. }
  assert (forall x f, v_fam v !! x = Some f -> exists f', v_fam v' !! x = Some f' /\ erase f = erase f') as Hfwd.
  { intros x f Hx. specialize (HE x). rewrite Hx in HE. cbn in HE. destruct (v_fam v' !! x); [|done]. injection HE. unfold erase. eauto with congruence. }
  assert (forall x y, parent_rel (v_fam v) x y -> parent_rel (v_fam v') x y) as Hpar.
  { intros x y (f & Hf & Hy). destruct (Hfwd _ _ Hf) as (f' & Hf' & [= _ E _]). exists f'. split; [done|congruence]. }
  split; rewrite ?Er, ?Ei.
  - intros p f c (g & Hg & [= _ _ E])%Hback. rewrite <- E. eauto using to_children.
  - intros p f (g & Hg & [= _ _ E])%Hback. rewrite <- E. eauto using to_nodup.
  - intros c f (g & Hg & [= _ E _])%Hback Hc. destruct (to_parent _ Hv c g Hg Hc) as (p & h & Ep & (h' & Hh & [= _ _ Eh])%Hfwd & Hin).
    exists p, h'. split_and!; congruence.
  - destruct (to_init _ Hv) as (f & (f' & Hf & [= E1 E2 _])%Hfwd & Hz & Hp). exists f'. split_and!; congruence.
  - intros c f (g & Hg & _)%Hback. eapply rtc_subrel; [exact Hpar|]. eauto using to_root.
  - intros p f (g & Hg & [= Ez _ E])%Hback. rewrite <- E, <- Ez. eauto using to_zombie.
  - intros p. rewrite (to_registered _ Hv). split.
    + intros (f & (f' & Hf & [= Ez _ _])%Hfwd & Hz). exists f'. split; congruence.
    + intros (f & (f' & Hf & [= Ez _ _])%Hback & Hz). exists f'. split; congruence.
  - by apply to_ids.
  - intros p f (g & Hg & _)%Hback. eauto using to_used.
Qed.

Lemma erase_alter g p (F : gmap Z family) x : (forall f, erase (g f) = erase f) ->
  erase <$> alter g p F !! x = erase <$> F !! x.
Proof.
  intros Hg. destruct (decide (x = p)) as [->|]; [|by rewrite lookup_alter_ne by done].
  rewrite lookup_alter_eq. destruct (F !! p); cbn; [by rewrite Hg|done].
Qed.

(** Fewer threads. *)
Lemma tree_submap v th : tree_ok v -> th ⊆ v_threads v -> tree_ok (v_with_threads th v).
Proof.
  intros [Hs Ht] Hsub. split; [by apply (shape_same v)|]. split.
  - intros t k Hk. apply (to_threads _ Ht). by apply (lookup_weaken th).
  - apply (to_tids _ Ht).
  - intros t k Hk. apply (to_fresh _ Ht t k). by apply (lookup_weaken th).
Qed.

(** *** Threads *)

Lemma ra_alloc_ok start a id a' : ra_inv start a -> ra_current a + 1 < 2 ^ 64 -> RecycleAllocator_alloc a = Ok (id, a') ->
  ra_inv start a' /\ start <= id /\ ~ ra_used start a id /\ forall i, ra_used start a' i <-> (i = id \/ ra_used start a i).
Proof.
  intros Ha Hc E. pose proof (wp_ra_alloc start a Ha Hc) as (id' & a'' & E' & ? & ? & ? & ? & ?)%wp_run.
  rewrite E in E'. injection E' as <- <-. split_and!; try done; lia.
Qed.

Lemma ra_dealloc_ok start a id a' : ra_inv start a -> ra_used start a id -> RecycleAllocator_dealloc id a = Ok (tt, a') ->
  ra_inv start a' /\ forall i, ra_used start a' i <-> (i <> id /\ ra_used start a i).
Proof.
  intros Ha Hu E. destruct Hu as [Hb Hn]. pose proof (rai_bounds _ _ Ha).
  pose proof (ra_dealloc_cases start a id Ha ltac:(lia)) as Hc. rewrite decide_True in Hc by done.
  destruct Hc as (a'' & E' & H1 & H2). rewrite E in E'. by injection E' as <-.
Qed.

(** Two threads of a process with resources are listed under different
    identifiers. *)
Lemma thread_slots F t1 t2 k1 k2 tid1 tid2 : thread_ok F t1 k1 -> thread_ok F t2 k2 -> ki_tid k1 = Some tid1 ->
  ki_tid k2 = Some tid2 -> ki_process k1 = ki_process k2 -> t1 <> t2 -> tid1 <> tid2.
Proof.
  intros H1 H2 E1 E2 Ep Hne ->. destruct (H1 _ E1) as (_ & _ & f1 & F1 & _ & S1 & _).
  destruct (H2 _ E2) as (_ & _ & f2 & F2 & _ & S2 & _). congruence.
Qed.

(** [thread_create]: a new thread in the slot of its fresh identifier. *)
Definition view_thread (p tid : Z) (tids : RecycleAllocator) (v : view) : view :=
  mkView (alter (fun f => mkFam (fa_zombie f) (fa_parent f) (fa_children f)
                            (<[Z.to_nat tid := Some (v_next v)]> (grow_tasks (S (Z.to_nat tid)) (fa_tasks f))) tids) p (v_fam v))
    (v_reg v) (v_ids v) (<[v_next v := mkKin p (Some tid) false]> (v_threads v)) (v_next v + 1).

Lemma grow_tasks_lookup n l i x : l !! i = Some x -> grow_tasks n l !! i = Some x.
Proof. intros Hi. unfold grow_tasks. by apply lookup_app_l_Some. Qed.

Lemma tree_thread v p f tid tids : tree_ok v -> v_fam v !! p = Some f -> fa_zombie f = false ->
  ra_current (fa_tids f) + 1 < 2 ^ 64 -> RecycleAllocator_alloc (fa_tids f) = Ok (tid, tids) ->
  tree_ok (view_thread p tid tids v).
Proof.
  intros [Hs Ht] Hp Hz Hc Ea. destruct (ra_alloc_ok 0 _ _ _ (to_tids _ Ht _ _ Hp Hz) Hc Ea) as (Hra & H0 & Hnew & Hused).
  split; [apply (shape_same v); try done; intros x; by apply erase_alter|].
  unfold view_thread. split; cbn [v_fam v_threads v_next].
  - intros t k. rewrite lookup_insert_Some. intros [[<- <-]|[Hne Hk]] tid' E.
    + injection E as <-. cbn. rewrite lookup_alter_eq, Hp. split_and!; [done|done|]. eexists. split_and!; [done|done| |apply Hused; by left].
      cbn. apply list_lookup_insert_eq. unfold grow_tasks. rewrite length_app, length_replicate. lia.
    + destruct (to_threads _ Ht t k Hk tid' E) as (H1 & H2 & g & Hg & H3 & H4 & H5). split_and!; [done|done|].
      destruct (decide (ki_process k = p)) as [Ep|Hnp]; [|rewrite lookup_alter_ne by done; eauto].
      rewrite Ep in *. rewrite lookup_alter_eq, Hp. assert (g = f) as -> by congruence. eexists. split_and!; [done|done| |apply Hused; by right].
      cbn. rewrite list_lookup_insert_ne; [by apply grow_tasks_lookup|]. intros En. apply Hnew. assert (tid = tid') as -> by lia. done.
  - intros q g. rewrite lookup_alter_Some. intros [[<- (g0 & Hg0 & ->)]|[_ Hg]] Hzg; [done|]. by apply (to_tids _ Ht q).
  - intros t k. rewrite lookup_insert_Some. intros [[<- _]|[_ Hk]]; [lia|]. pose proof (to_fresh _ Ht t k Hk). lia.
Qed.

(** The end of a thread: it gives back its identifier. *)
Definition view_thread_exit (t p : Z) (tids : RecycleAllocator) (v : view) : view :=
  v_alter (fam_with_tids tids) p (v_with_threads (<[t := mkKin p None true]> (v_threads v)) v).

Lemma tree_thread_exit v t k tid p f tids : tree_ok v -> v_threads v !! t = Some k -> ki_tid k = Some tid -> ki_process k = p ->
  v_fam v !! p = Some f -> RecycleAllocator_dealloc tid (fa_tids f) = Ok (tt, tids) ->
  tree_ok (view_thread_exit t p tids v).
Proof.
  intros [Hs Ht] Hk Htid <- Hp Ed. pose proof (to_threads _ Ht t k Hk) as Hok. destruct (Hok tid Htid) as (_ & H0 & f' & Hf' & Hz & _ & Hu).
  assert (f' = f) as -> by congruence. destruct (ra_dealloc_ok 0 _ _ _ (to_tids _ Ht _ _ Hp Hz) Hu Ed) as (Hra & Hused).
  split; [apply (shape_same v); try done; intros x; by apply erase_alter|].
  unfold view_thread_exit. split; cbn [v_fam v_threads v_next v_alter v_with_fam v_with_threads].
  - intros t' k'. rewrite lookup_insert_Some. intros [[<- <-]|[Hne Hk']] tid' E; [done|].
    pose proof (to_threads _ Ht t' k' Hk') as Hok'. destruct (Hok' tid' E) as (H1 & H2 & g & Hg & H3 & H4 & H5). split_and!; [done|done|].
    destruct (decide (ki_process k' = ki_process k)) as [Ep|Hnp]; [|rewrite lookup_alter_ne by done; eauto].
    pose proof (thread_slots _ _ _ _ _ _ _ Hok' Hok E Htid Ep (not_eq_sym Hne)). rewrite Ep in Hg |- *. rewrite lookup_alter_eq, Hp.
    assert (g = f) as -> by congruence. eexists. split_and!; [done|done|done|]. by apply Hused.
  - intros q g. rewrite lookup_alter_Some. intros [[<- (g0 & Hg0 & ->)]|[_ Hg]] Hzg; [done|]. by apply (to_tids _ Ht q).
  - intros t' k'. rewrite lookup_insert_Some. intros [[<- _]|[_ Hk']]; eauto using to_fresh.
Qed.

(** [waittid]: the slot of an exited thread is emptied. *)
Lemma tree_slot v p f i t k : tree_ok v -> v_fam v !! p = Some f -> fa_tasks f !! i = Some (Some t) ->
  v_threads v !! t = Some k -> ki_exited k = true ->
  tree_ok (v_alter (fun f => fam_with_tasks (<[i := None]> (fa_tasks f)) f) p v).
Proof.
  intros [Hs Ht] Hp Hi Hk Hx. split; [apply (shape_same v); try done; intros x; by apply erase_alter|].
  split; cbn [v_fam v_threads v_next v_alter v_with_fam].
  - intros t' k' Hk' tid E. destruct (to_threads _ Ht t' k' Hk' tid E) as (H1 & H2 & g & Hg & H3 & H4 & H5). split_and!; [done|done|].
    destruct (decide (ki_process k' = p)) as [Ep|Hnp]; [|rewrite lookup_alter_ne by done; eauto].
    rewrite Ep in *. rewrite lookup_alter_eq, Hp. assert (g = f) as -> by congruence. eexists. split_and!; [done|done| |done].
    cbn. rewrite list_lookup_insert_ne; [done|]. intros ->. assert (t' = t) as -> by congruence. congruence.
  - intros q g. rewrite lookup_alter_Some. intros [[<- (g0 & Hg0 & ->)]|[_ Hg]] Hzg; [|by apply (to_tids _ Ht q)].
    cbn in *. eauto using to_tids.
  - apply (to_fresh _ Ht).
Qed.

(** *** fork *)

Definition view_fork (self pid : Z) (ids : RecycleAllocator) (v : view) : view :=
  mkView (<[pid := mkFam false (Some self) [] [Some (v_next v)] (mkRA 1 [])]>
            (alter (fun f => fam_with_children (fa_children f ++ [pid]) f) self (v_fam v)))
    ({[pid]} ∪ v_reg v) ids (<[v_next v := mkKin pid (Some 0) false]> (v_threads v)) (v_next v + 1).

Lemma shape_fork v self f pid ids : shape_ok v -> v_fam v !! self = Some f -> fa_zombie f = false -> v_fam v !! pid = None ->
  ra_inv 1 ids -> (forall i, ra_used 1 ids i <-> i = pid \/ ra_used 1 (v_ids v) i) -> shape_ok (view_fork self pid ids v).
Proof.
  intros Hv Hs Hz Hfree Hra Hused. assert (pid <> self) as Hps by congruence.
  pose proof (to_init _ Hv) as (fi & Hi & Hzi & Hpi). assert (init <> pid) as Hip by congruence.
  assert (forall x, v_fam (view_fork self pid ids v) !! x = if decide (x = pid) then Some (mkFam false (Some self) [] [Some (v_next v)] (mkRA 1 []))
      else if decide (x = self) then Some (fam_with_children (fa_children f ++ [pid]) f) else v_fam v !! x) as HL.
  { intros x. unfold view_fork. cbn [v_fam]. repeat case_decide; subst; [by rewrite lookup_insert_eq| |].
    - by rewrite lookup_insert_ne, lookup_alter_eq, Hs by done.
    - by rewrite lookup_insert_ne, lookup_alter_ne by done. }
  assert (forall x g, v_fam v !! x = Some g -> exists g', v_fam (view_fork self pid ids v) !! x = Some g' /\ fa_zombie g' = fa_zombie g /\
    fa_parent g' = fa_parent g /\ fa_children g' = if decide (x = self) then fa_children g ++ [pid] else fa_children g) as Hold.
  { intros x g Hx. rewrite HL, decide_False by congruence. case_decide; [subst; assert (g = f) as -> by congruence|]; eauto. }
  assert (forall x, is_Some (v_fam v !! x) -> is_Some (v_fam (view_fork self pid ids v) !! x)) as Hsome.
  { intros x [g Hx]. destruct (Hold x g Hx) as (g' & E & _). eauto. }
  assert (parent_rel (v_fam (view_fork self pid ids v)) pid self) as Hpid.
  { eexists. split; [rewrite HL, decide_True by done; done|done]. }
  assert (forall x g, v_fam v !! x = Some g -> rtc (parent_rel (v_fam (view_fork self pid ids v))) x init) as Hroot.
  { intros x g Hx. eapply (root_change (v_fam v)); [|by apply (to_root _ Hv x g)|eauto].
    intros y h z Hy Hyz _. destruct (Hold y h Hy) as (h' & E & _ & Ep & _). exists h'. split; [done|]. right. split; [congruence|].
    destruct (tree_parent_there v Hv y h z Hy Hyz) as (k & Hk & _). eauto. }
  split; cbn [v_reg v_ids view_fork].
  - intros p g c Hg Hc. rewrite HL in Hg. repeat case_decide; subst.
    + injection Hg as <-. by apply elem_of_nil in Hc.
    + injection Hg as <-. apply elem_of_app in Hc as [Hc|Hc%list_elem_of_singleton]; [|by subst].
      destruct (to_children _ Hv _ _ _ Hs Hc) as (h & Hh & Hph). destruct (Hold c h Hh) as (h' & E & _ & Ep & _). exists h'. split; [done|congruence].
    + destruct (to_children _ Hv _ _ _ Hg Hc) as (h & Hh & Hph). destruct (Hold c h Hh) as (h' & E & _ & Ep & _). exists h'. split; [done|congruence].
  - intros p g Hg. rewrite HL in Hg. repeat case_decide; subst.
    + injection Hg as <-. constructor.
    + injection Hg as <-. apply NoDup_app. split_and!; [eauto using to_nodup| |apply NoDup_singleton].
      intros x Hx ->%list_elem_of_singleton. destruct (to_children _ Hv _ _ _ Hs Hx) as (h & Hh & _). congruence.
    + eauto using to_nodup.
  - intros c g Hc Hci. destruct (decide (c = pid)) as [->|Hne].
    + rewrite HL, decide_True in Hc by done. injection Hc as <-. eexists self, _. split; [done|]. split; [rewrite HL, decide_False, decide_True by done; done|].
      apply elem_of_app. right. by left.
    + assert (exists g0, v_fam v !! c = Some g0) as (g0 & Hc0).
      { rewrite HL, decide_False in Hc by done. case_decide; [subst|]; eauto. }
      destruct (Hold c g0 Hc0) as (g' & E & _ & Ep & _). assert (g' = g) as -> by congruence.
      destruct (to_parent _ Hv c g0 Hc0 Hci) as (p & h & E1 & E2 & E3). destruct (Hold p h E2) as (h' & E' & _ & _ & Ech).
      exists p, h'. split_and!; [congruence|done|]. rewrite Ech. case_decide; [apply elem_of_app; by left|done].
  - destruct (Hold init fi Hi) as (g & Hg & Ez & Ep & _). exists g. split_and!; congruence.
  - intros c g Hc. destruct (decide (c = pid)) as [->|Hne]; [eapply rtc_l; [exact Hpid|eauto]|].
    rewrite HL, decide_False in Hc by done. case_decide; [subst|]; eauto.
  - intros p g Hg Hzg. rewrite HL in Hg. repeat case_decide; subst; [by injection Hg as <-|injection Hg as <-; cbn in *; congruence|eauto using to_zombie].
  - intros p. rewrite elem_of_union, elem_of_singleton, HL. destruct (decide (p = pid)) as [->|Hne]; [split; [eauto|by left]|].
    rewrite (to_registered _ Hv). split.
    + intros [|(g & Hg & Hzg)]; [done|]. case_decide; [subst; eauto|eauto].
    + intros (g & Hg & Hzg). right. case_decide; [subst; eauto|eauto].
  - done.
  - intros p g Hg. apply Hused. rewrite HL in Hg. case_decide; [by left|right]. case_decide; [subst|]; eauto using to_used.
Qed.

Lemma tree_fork v self f pid ids : tree_ok v -> v_fam v !! self = Some f -> fa_zombie f = false ->
  ra_current (v_ids v) + 1 < 2 ^ 64 -> RecycleAllocator_alloc (v_ids v) = Ok (pid, ids) -> tree_ok (view_fork self pid ids v).
Proof.
  intros [Hs Ht] Hf Hz Hc Ea. destruct (ra_alloc_ok 1 _ _ _ (to_ids _ Hs) Hc Ea) as (Hra & H0 & Hnew & Hused).
  assert (v_fam v !! pid = None) as Hfree.
  { destruct (v_fam v !! pid) as [g|] eqn:E; [|done]. destruct Hnew. by apply (to_used _ Hs pid g). }
  split; [by apply (shape_fork v self f)|]. unfold view_fork. split; cbn [v_fam v_threads v_next].
  - intros t k. rewrite lookup_insert_Some. intros [[<- <-]|[Hne Hk]] tid E.
    + injection E as <-. split_and!; [done|done|]. eexists. rewrite lookup_insert_eq. split_and!; try done. split; [cbn; lia|apply not_elem_of_nil].
    + destruct (to_threads _ Ht t k Hk tid E) as (H1 & H2 & g & Hg & H3 & H4 & H5). split_and!; [done|done|].
      rewrite lookup_insert_ne by congruence. destruct (decide (ki_process k = self)) as [Ep|]; [|rewrite lookup_alter_ne by done; eauto].
      rewrite Ep in Hg |- *. rewrite lookup_alter_eq, Hg. eexists. split_and!; done.
  - intros q g. rewrite lookup_insert_Some, lookup_alter_Some. intros [[<- <-]|[_ [[<- (g0 & Hg0 & ->)]|[_ Hg]]]] Hzg; [|by apply (to_tids _ Ht self g0)|by apply (to_tids _ Ht q)].
    split; cbn; [lia|constructor|by intros ? ?%elem_of_nil].
  - intros t k. rewrite lookup_insert_Some. intros [[<- _]|[_ Hk]]; [lia|]. pose proof (to_fresh _ Ht t k Hk). lia.
Qed.

(** *** exit *)

(** One child moved under [init], as the loop of exit does it. *)
Definition fam_reparent (F : gmap Z family) (c : Z) : gmap Z family :=
  alter (fun i => fam_with_children (fa_children i ++ [c]) i) init (alter (fam_with_parent (Some init)) c F).

Definition reparented (cs : list Z) (x : Z) (g : family) : family :=
  mkFam (fa_zombie g) (if decide (x ∈ cs) then Some init else fa_parent g)
    (if decide (x = init) then fa_children g ++ cs else fa_children g) (fa_tasks g) (fa_tids g).

Lemma fam_reparent_lookup cs F x : foldl fam_reparent F cs !! x = reparented cs x <$> F !! x.
Proof.
  induction cs as [|c cs IH] using rev_ind.
  - cbn. destruct (F !! x) as [g|]; [|done]. cbn. unfold reparented. rewrite decide_False by apply not_elem_of_nil. rewrite app_nil_r.
    case_decide; by destruct g.
  - rewrite foldl_app. cbn [foldl]. unfold fam_reparent at 1.
    assert (forall G : gmap Z family, alter (fam_with_parent (Some init)) c G !! x = (fun g => if decide (x = c) then fam_with_parent (Some init) g else g) <$> G !! x) as E1.
    { intros G. case_decide; [subst; by rewrite lookup_alter_eq|]. rewrite lookup_alter_ne by done. by destruct (G !! x). }
    assert (forall G : gmap Z family, alter (fun i => fam_with_children (fa_children i ++ [c]) i) init G !! x =
      (fun g => if decide (x = init) then fam_with_children (fa_children g ++ [c]) g else g) <$> G !! x) as E2.
    { intros G. destruct (decide (x = init)) as [->|]; [by rewrite lookup_alter_eq|]. rewrite lookup_alter_ne by done. by destruct (G !! x). }
    rewrite E2, E1, IH. destruct (F !! x) as [g|]; [|done]. cbn. f_equal. unfold reparented, fam_with_parent, fam_with_children.
    assert (x ∈ cs ++ [c] <-> x ∈ cs \/ x = c) as Hin by (rewrite elem_of_app, list_elem_of_singleton; done).
    repeat case_decide; cbn; rewrite <- ?app_assoc; try done; exfalso; tauto.
Qed.

(** A view in which the process [pid], which had the family [f], is a zombie
    whose children belong to [init]. *)
Record exited (pid : Z) (f : family) (v v' : view) : Prop := {
  ex_self : exists z, v_fam v' !! pid = Some z /\ fa_zombie z = true /\ fa_parent z = fa_parent f /\ fa_children z = [];
  ex_others x : x <> pid -> v_fam v' !! x = reparented (fa_children f) x <$> v_fam v !! x;
  ex_reg : v_reg v' = v_reg v ∖ {[pid]};
  ex_ids : v_ids v' = v_ids v;
  ex_threads t k' : v_threads v' !! t = Some k' -> exists k, v_threads v !! t = Some k /\
    (ki_tid k' = None \/ k' = k /\ ki_process k <> pid);
  ex_next : v_next v' = v_next v
}.

Lemma shape_exit pid f v v' : shape_ok v -> v_fam v !! pid = Some f -> fa_zombie f = false -> pid <> init -> exited pid f v v' -> shape_ok v'.
Proof.
  intros Hv Hf Hz Hni [(z & Hz' & Ezz & Ezp & Ezc) Hoth Hreg Hids _ _].
  pose proof (to_init _ Hv) as (fi & Hi & Hzi & Hpi).
  assert (forall x g', v_fam v' !! x = Some g' -> exists g, v_fam v !! x = Some g /\
    fa_parent g' = (if decide (x ∈ fa_children f) then Some init else fa_parent g) /\
    fa_zombie g' = (if decide (x = pid) then true else fa_zombie g) /\
    fa_children g' = (if decide (x = pid) then [] else if decide (x = init) then fa_children g ++ fa_children f else fa_children g)) as Hback.
  { intros x g' Hx. destruct (decide (x = pid)) as [->|Hne].
    - exists f. assert (z = g') as <- by congruence. rewrite decide_False by (by apply (tree_no_self_child v Hv pid)). done.
    - rewrite Hoth in Hx by done. destruct (v_fam v !! x) as [g|]; [|done]. injection Hx as <-. exists g. done. }
  assert (forall x g, v_fam v !! x = Some g -> exists g', v_fam v' !! x = Some g') as Hfwd.
  { intros x g Hx. destruct (decide (x = pid)) as [->|Hne]; [eauto|]. rewrite Hoth, Hx by done. eauto. }
  split.
  - intros p g' c Hp Hc. destruct (Hback p g' Hp) as (g & Hg & _ & _ & Ec). rewrite Ec in Hc.
    destruct (decide (p = pid)) as [|Hpp]; [by apply elem_of_nil in Hc|].
    assert (c ∈ fa_children g \/ c ∈ fa_children f /\ p = init) as Hcase.
    { case_decide; [|by left]. apply elem_of_app in Hc as [|]; eauto. }
    assert (exists h, v_fam v !! c = Some h) as (h & Hh).
    { destruct Hcase as [Hin|[Hin _]]; [destruct (to_children _ Hv _ _ _ Hg Hin) as (h & ? & _)|destruct (to_children _ Hv _ _ _ Hf Hin) as (h & ? & _)]; eauto. }
    destruct (Hfwd c h Hh) as (h' & Hh'). destruct (Hback c h' Hh') as (h1 & Hh1 & Ep & _). exists h'. split; [done|]. rewrite Ep.
    destruct Hcase as [Hin|[Hin ->]]; [|by rewrite decide_True].
    rewrite decide_False; [|intros Hin'; apply Hpp; by apply (tree_one_parent v Hv p pid g f c)].
    destruct (to_children _ Hv _ _ _ Hg Hin) as (h2 & ? & ?). congruence.
  - intros p g' Hp. destruct (Hback p g' Hp) as (g & Hg & _ & _ & Ec). rewrite Ec. repeat case_decide; [constructor| |eauto using to_nodup].
    subst p. apply NoDup_app. split_and!; [eauto using to_nodup| |eauto using to_nodup].
    intros c H1 H2. apply Hni. symmetry. by apply (tree_one_parent v Hv init pid g f c).
  - intros c g' Hc Hci. destruct (Hback c g' Hc) as (g & Hg & Ep & _). rewrite Ep. case_decide as Hin.
    + destruct (Hfwd init fi Hi) as (i' & Hi'). destruct (Hback init i' Hi') as (i & Hi2 & _ & _ & Ec). exists init, i'. split_and!; [done|done|].
      rewrite Ec, decide_False, decide_True by done. apply elem_of_app. by right.
    + destruct (to_parent _ Hv c g Hg Hci) as (p & h & E1 & E2 & E3). destruct (Hfwd p h E2) as (h' & Hh'). destruct (Hback p h' Hh') as (h1 & Hh1 & _ & _ & Ec).
      assert (h1 = h) as -> by congruence. exists p, h'. split_and!; [done|done|]. rewrite Ec.
      rewrite (decide_False (P := p = pid)) by (intros ->; apply Hin; assert (h = f) as -> by congruence; done). clear Ec. case_decide; [apply elem_of_app; by left|done].
  - destruct (Hfwd init fi Hi) as (i' & Hi'). destruct (Hback init i' Hi') as (i & Hi2 & Ep & Ez & _). exists i'. split; [done|].
    rewrite Ez, Ep, !decide_False by (done || by apply (tree_init_no_child v Hv pid)). split; congruence.
  - intros c g' Hc. destruct (Hback c g' Hc) as (g & Hg & _). eapply (root_change (v_fam v)); [|by apply (to_root _ Hv c g)|by exists g'].
    intros x h y Hx Hy [h' Hh']. exists h'. split; [done|]. destruct (Hback x h' Hh') as (h1 & Hh1 & Ep & _). rewrite Ep.
    case_decide; [by left|right]. split; [congruence|]. destruct (tree_parent_there v Hv x h y Hx Hy) as (k & Hk & _). exact (Hfwd y k Hk).
  - intros p g' Hp Hzp. destruct (Hback p g' Hp) as (g & Hg & _ & Ez & Ec). rewrite Ez in Hzp. rewrite Ec. case_decide; [done|].
    pose proof (to_zombie _ Hv p g Hg Hzp) as E. case_decide; [|done]. subst. congruence.
  - intros p. rewrite Hreg, elem_of_difference, elem_of_singleton, (to_registered _ Hv). split.
    + intros ((g & Hg & Hzg) & Hne). destruct (Hfwd p g Hg) as (g' & Hg'). destruct (Hback p g' Hg') as (g1 & Hg1 & _ & Ez & _).
      exists g'. split; [done|]. rewrite Ez, decide_False by done. congruence.
    + intros (g' & Hg' & Hzg). destruct (Hback p g' Hg') as (g & Hg & _ & Ez & _). rewrite Ez in Hzg. case_decide; [done|]. eauto.
  - rewrite Hids. by apply to_ids.
  - intros p g' Hp. rewrite Hids. destruct (Hback p g' Hp) as (g & Hg & _). eauto using to_used.
Qed.

Lemma tree_exit pid f v v' : tree_ok v -> v_fam v !! pid = Some f -> fa_zombie f = false -> pid <> init -> exited pid f v v' -> tree_ok v'.
Proof.
  intros [Hs Ht] Hf Hz Hni He. split; [by eapply shape_exit|]. destruct He as [(z & Hz' & Ezz & _) Hoth _ _ Hth Hnext]. split.
  - intros t k' Hk' tid E. destruct (Hth t k' Hk') as (k & Hk & [En|[-> Hne]]); [congruence|].
    destruct (to_threads _ Ht t k Hk tid E) as (H1 & H2 & g & Hg & H3 & H4 & H5). split_and!; [done|done|]. rewrite Hoth, Hg by done.
    eexists. split_and!; done.
  - intros p g Hp Hzg. destruct (decide (p = pid)) as [->|Hne]; [congruence|]. rewrite Hoth in Hp by done.
    destruct (v_fam v !! p) as [g0|] eqn:E; [|done]. injection Hp as <-. by apply (to_tids _ Ht p g0).
  - intros t k' Hk'. destruct (Hth t k' Hk') as (k & Hk & _). rewrite Hnext. eauto using to_fresh.
Qed.

(** *** waitpid *)

(** A view in which the zombie [c], a child of [self], is gone. *)
Record reaped (self c : Z) (f : family) (v v' : view) : Prop := {
  re_gone : v_fam v' !! c = None;
  re_self : exists cs, v_fam v' !! self = Some (fam_with_children cs f) /\ NoDup cs /\ forall x, x ∈ cs <-> x ∈ fa_children f /\ x <> c;
  re_others x : x <> c -> x <> self -> v_fam v' !! x = v_fam v !! x;
  re_reg : v_reg v' = v_reg v;
  re_ids : RecycleAllocator_dealloc c (v_ids v) = Ok (tt, v_ids v');
  re_threads t k' : v_threads v' !! t = Some k' -> exists k, v_threads v !! t = Some k /\ (ki_process k = c \/ k' = k) /\ ki_tid k' = ki_tid k;
  re_next : v_next v' = v_next v
}.

Lemma shape_reap self c f z v v' : shape_ok v -> v_fam v !! self = Some f -> c ∈ fa_children f ->
  v_fam v !! c = Some z -> fa_zombie z = true -> reaped self c f v v' -> shape_ok v'.
Proof.
  intros Hv Hf Hc Hz Hzz [Hgone (cs & Hself & Hnd & Hcs) Hoth Hreg Hids _ _].
  destruct (tree_child_there v Hv self f c Hf Hc) as (z' & Hz' & Hpz & Hci & Hne). assert (z' = z) as -> by congruence. clear Hz'.
  assert (forall x g', v_fam v' !! x = Some g' -> x <> c /\ exists g, v_fam v !! x = Some g /\ fa_parent g' = fa_parent g /\ fa_zombie g' = fa_zombie g /\
    NoDup (fa_children g') /\ forall y, y ∈ fa_children g' <-> y ∈ fa_children g /\ y <> c) as Hback.
  { intros x g' Hx. assert (x <> c) by congruence. split; [done|]. destruct (decide (x = self)) as [->|Hxs].
    - assert (g' = fam_with_children cs f) as -> by congruence. exists f. done.
    - rewrite Hoth in Hx by done. exists g'. split_and!; try done; [eauto using to_nodup|]. intros y. split; [|tauto]. intros Hy. split; [done|].
      intros ->. apply Hxs. by apply (tree_one_parent v Hv x self g' f c). }
  assert (forall x g, v_fam v !! x = Some g -> x <> c -> exists g', v_fam v' !! x = Some g') as Hfwd.
  { intros x g Hx Hxc. destruct (decide (x = self)) as [->|Hxs]; [eauto|]. rewrite Hoth by done. eauto. }
  assert (forall x h y, v_fam v !! x = Some h -> fa_parent h = Some y -> y <> c) as Hnp.
  { intros x h y Hx Hy ->. destruct (tree_parent_there v Hv x h c Hx Hy) as (z' & Hz' & Hin & _). assert (z' = z) as -> by congruence.
    rewrite (to_zombie _ Hv c z Hz Hzz) in Hin. by apply elem_of_nil in Hin. }
  destruct (ra_dealloc_ok 1 _ c _ (to_ids _ Hv) (to_used _ Hv c z Hz) Hids) as (Hra & Hused).
  split.
  - intros p g' x Hp Hx. destruct (Hback p g' Hp) as (_ & g & Hg & _ & _ & _ & Hch). destruct (proj1 (Hch x) Hx) as [Hx' Hxc].
    destruct (to_children _ Hv p g x Hg Hx') as (h & Hh & Hph). destruct (Hfwd x h Hh Hxc) as (h' & Hh').
    destruct (Hback x h' Hh') as (_ & h1 & Hh1 & Ep & _). exists h'. split; congruence.
  - intros p g' Hp. by destruct (Hback p g' Hp) as (_ & g & _ & _ & _ & ? & _).
  - intros x g' Hx Hxi. destruct (Hback x g' Hx) as (Hxc & g & Hg & Ep & _). destruct (to_parent _ Hv x g Hg Hxi) as (p & h & E1 & E2 & E3).
    destruct (Hfwd p h E2 (Hnp x g p Hg E1)) as (h' & Hh'). destruct (Hback p h' Hh') as (_ & h1 & Hh1 & _ & _ & _ & Hch).
    assert (h1 = h) as -> by congruence. exists p, h'. split_and!; [congruence|done|]. by apply Hch.
  - destruct (to_init _ Hv) as (fi & Hi & Hzi & Hpi). destruct (Hfwd init fi Hi (not_eq_sym Hci)) as (i' & Hi').
    destruct (Hback init i' Hi') as (_ & i & Hi2 & Ep & Ez & _). exists i'. split_and!; congruence.
  - intros x g' Hx. destruct (Hback x g' Hx) as (Hxc & g & Hg & _). eapply (root_change (v_fam v)); [|by apply (to_root _ Hv x g)|by exists g'].
    intros y h w Hy Hw [h' Hh']. exists h'. split; [done|]. right. destruct (Hback y h' Hh') as (_ & h1 & Hh1 & Ep & _). split; [congruence|].
    destruct (tree_parent_there v Hv y h w Hy Hw) as (k & Hk & _). exact (Hfwd w k Hk (Hnp y h w Hy Hw)).
  - intros p g' Hp Hzp. destruct (Hback p g' Hp) as (_ & g & Hg & _ & Ez & _ & Hch). rewrite Ez in Hzp.
    pose proof (to_zombie _ Hv p g Hg Hzp) as E. destruct (fa_children g') as [|y l]; [done|]. destruct (proj1 (Hch y)) as [Hy _]; [by left|].
    rewrite E in Hy. by apply elem_of_nil in Hy.
  - intros p. rewrite Hreg, (to_registered _ Hv). split.
    + intros (g & Hg & Hzg). destruct (Hfwd p g Hg) as (g' & Hg'); [congruence|]. destruct (Hback p g' Hg') as (_ & g1 & Hg1 & _ & Ez & _). exists g'. split; congruence.
    + intros (g' & Hg' & Hzg). destruct (Hback p g' Hg') as (_ & g & Hg & _ & Ez & _). exists g. split; congruence.
  - done.
  - intros p g' Hp. destruct (Hback p g' Hp) as (Hpc & g & Hg & _). apply Hused. eauto using to_used.
Qed.

Lemma tree_reap self c f z v v' : tree_ok v -> v_fam v !! self = Some f -> c ∈ fa_children f ->
  v_fam v !! c = Some z -> fa_zombie z = true -> reaped self c f v v' -> tree_ok v'.
Proof.
  intros [Hs Ht] Hf Hc Hz Hzz Hr. split; [by apply (shape_reap self c f z v)|]. destruct Hr as [Hgone (cs & Hself & _) Hoth _ _ Hth Hnext].
  assert (forall x g, v_fam v !! x = Some g -> x <> c -> exists cs', v_fam v' !! x = Some (fam_with_children cs' g)) as Hfwd.
  { intros x g Hx Hxc. destruct (decide (x = self)) as [->|Hxs]; [assert (g = f) as -> by congruence; eauto|]. rewrite Hoth, Hx by done. exists (fa_children g). by destruct g. }
  split.
  - intros t k' Hk' tid E. destruct (Hth t k' Hk') as (k & Hk & Hor & Et). rewrite E in Et. symmetry in Et.
    destruct (to_threads _ Ht t k Hk tid Et) as (H1 & H2 & g & Hg & H3 & H4 & H5).
    assert (ki_process k <> c) as Hkc by (intros Ec; rewrite Ec in Hg; congruence). destruct Hor as [|Ek]; [done|subst k'].
    destruct (Hfwd _ g Hg Hkc) as (cs' & E'). split_and!; [done|done|]. eexists. split_and!; done.
  - intros p g' Hp Hzg. destruct (decide (p = self)) as [->|Hps].
    + assert (g' = fam_with_children cs f) as -> by congruence. by apply (to_tids _ Ht self f).
    + rewrite Hoth in Hp by congruence. by apply (to_tids _ Ht p).
  - intros t k' Hk'. destruct (Hth t k' Hk') as (k & Hk & _). rewrite Hnext. eauto using to_fresh.
Qed.

(** *** The first process *)

Definition view_boot : view :=
  mkView {[1 := mkFam false None [] [Some 0] (mkRA 1 [])]} {[1]} (mkRA 2 []) {[0 := mkKin 1 (Some 0) false]} 1.

End Tree.

Lemma tree_boot : tree_ok 1 view_boot.
Proof.
  assert (ra_inv 0 (mkRA 1 [])) as H0 by (split; cbn; [lia|constructor|by intros ? ?%elem_of_nil]).
  split; split; unfold view_boot; cbn [v_fam v_reg v_ids v_threads v_next].
  - intros p f c [<- <-]%lookup_singleton_Some Hc. by apply elem_of_nil in Hc.
  - intros p f [<- <-]%lookup_singleton_Some. constructor.
  - intros c g [<- <-]%lookup_singleton_Some Hc. done.
  - eexists. by rewrite lookup_singleton_eq.
  - intros c g [<- <-]%lookup_singleton_Some. apply rtc_refl.
  - intros p f [<- <-]%lookup_singleton_Some. done.
  - intros p. rewrite elem_of_singleton. split; [intros ->; eexists; by rewrite lookup_singleton_eq|]. by intros (f & [<- <-]%lookup_singleton_Some & _).
  - split; cbn; [lia|constructor|by intros ? ?%elem_of_nil].
  - intros p f [<- <-]%lookup_singleton_Some. split; [cbn; lia|apply not_elem_of_nil].
  - intros t k [<- <-]%lookup_singleton_Some tid E. injection E as <-. split_and!; [done|done|]. eexists. rewrite lookup_singleton_eq.
    split_and!; try done. split; [cbn; lia|apply not_elem_of_nil].
  - by intros p f [<- <-]%lookup_singleton_Some _.
  - intros t k [<- <-]%lookup_singleton_Some. lia.
Qed.
