(* ===== verification/ProcessProps.v ===== *)
(** * The process tree: the operations keep it

    Partial correctness is enough here: an operation that panics stops the
    kernel.  [vlp] is a rule calculus for it in terms of the [view] only; a
    program that leaves the view alone is [neutral]. *)

From S2P Require Import Prelude Address FrameAllocator PageTable MemorySet Ids Scheduler Processor Pipe Process ProcessTree.

Section View.
Context {T : Type} `{Scheduler T}.
Abbreviation World := (World T).

Definition fam (p : ProcessControlBlockInner) : family :=
  mkFam (pcb_is_zombie p) (pcb_parent p) (pcb_children p) (pcb_tasks p) (pcb_task_res_allocator p).
Definition kin_of (th : Thread) : kin :=
  mkKin (th_process th) (ur_tid <$> th_res th) (match th_exit_code th with Some _ => true | None => false end).
Definition view_of (w : World) : view :=
  mkView (fam <$> w_procs w) (w_pid2pcb w) (w_pid_allocator w) (kin_of <$> w_threads w) (w_next_thread w).

(** What a program makes of the view, when it returns. *)
Definition vlp {A : Type} (m : M World A) (Q : A -> view -> Prop) (v : view) : Prop :=
  forall w a w', view_of w = v -> m w = Ok (a, w') -> Q a (view_of w').

Definition neutral {A : Type} (m : M World A) : Prop := forall w a w', m w = Ok (a, w') -> view_of w' = view_of w.

(** ** The rules *)

Lemma vlp_ret {A} (a : A) (Q : A -> view -> Prop) v : Q a v -> vlp (mret a) Q v.
Proof. intros HQ w b w' <- [= <- <-]. done. Qed.
Lemma vlp_bind {A B} (m : M World A) (k : A -> M World B) Q v : vlp m (fun a => vlp (k a) Q) v -> vlp (m ≫= k) Q v.
Proof. intros Hm w b w' Hw (a & w1 & E1 & E2)%bind_Ok. exact (Hm w a w1 Hw E1 w1 b w' eq_refl E2). Qed.
Lemma vlp_mono {A} (m : M World A) (P Q : A -> view -> Prop) v : vlp m P v -> (forall a v', P a v' -> Q a v') -> vlp m Q v.
Proof. intros Hm HQ w a w' Hw E. eauto. Qed.
Lemma vlp_neutral {A} (m : M World A) (Q : A -> view -> Prop) v : neutral m -> (forall a, Q a v) -> vlp m Q v.
Proof. intros Hm HQ w a w' <- E. rewrite (Hm w a w' E). auto. Qed.
Lemma vlp_unwrap {A} (o : option A) (Q : A -> view -> Prop) v : (forall a, o = Some a -> Q a v) -> vlp (unwrap o) Q v.
Proof. intros HQ w b w' <- E. destruct o; [|done]. injection E as <- <-. auto. Qed.
Lemma vlp_massert (b : bool) (Q : unit -> view -> Prop) v : (b = true -> Q tt v) -> vlp (massert b) Q v.
Proof. intros HQ w a w' <- E. destruct b; [|done]. injection E as <- <-. auto. Qed.

Lemma vlp_mfor {A} (l : list A) (f : A -> M World unit) (I : list A -> view -> Prop) v :
  I [] v -> (forall pre x v, I pre v -> (pre ++ [x]) `prefix_of` l -> vlp (f x) (fun _ => I (pre ++ [x])) v) ->
  vlp (mfor l f) (fun _ => I l) v.
Proof.
  intros H0 Hf. enough (forall l' dn, l = dn ++ l' -> forall v, I dn v -> vlp (mfor l' f) (fun _ => I l) v) as Hx by exact (Hx l [] eq_refl v H0).
  induction l' as [|x l' IH]; intros dn El v0 Hv0; cbn [mfor].
  - apply vlp_ret. by rewrite El, app_nil_r.
  - apply vlp_bind. eapply vlp_mono; [apply (Hf dn x v0 Hv0); exists l'; by rewrite El, <- app_assoc|].
    intros [] v1 H1. apply (IH (dn ++ [x])); [by rewrite El, <- app_assoc|done].
Qed.

Lemma vlp_mfold {A B} (f : B -> A -> M World B) (l : list A) b (I : list A -> B -> view -> Prop) v :
  I [] b v -> (forall pre x b v, I pre b v -> (pre ++ [x]) `prefix_of` l -> vlp (f b x) (I (pre ++ [x])) v) ->
  vlp (mfold f b l) (I l) v.
Proof.
  intros H0 Hf. enough (forall l' dn, l = dn ++ l' -> forall b v, I dn b v -> vlp (mfold f b l') (I l) v) as Hx by exact (Hx l [] eq_refl b v H0).
  induction l' as [|x l' IH]; intros dn El b0 v0 Hv0; cbn [mfold].
  - apply vlp_ret. by rewrite El, app_nil_r.
  - apply vlp_bind. eapply vlp_mono; [apply (Hf dn x b0 v0 Hv0); exists l'; by rewrite El, <- app_assoc|].
    intros b1 v1 H1. apply (IH (dn ++ [x])); [by rewrite El, <- app_assoc|done].
Qed.

(** ** Neutral programs *)

Lemma neutral_ret {A} (a : A) : neutral (mret a).
Proof. by intros w b w' [= <- <-]. Qed.
Lemma neutral_bind {A B} (m : M World A) (k : A -> M World B) : neutral m -> (forall a, neutral (k a)) -> neutral (m ≫= k).
Proof. intros Hm Hk w b w' (a & w1 & E1 & E2)%bind_Ok. rewrite (Hk a w1 b w' E2). by apply (Hm w a). Qed.
Lemma neutral_gets {A} (f : World -> A) : neutral (gets f).
Proof. by intros w b w' [= <- <-]. Qed.
Lemma neutral_get : neutral get.
Proof. by intros w b w' [= <- <-]. Qed.
Lemma neutral_massert b : neutral (massert b).
Proof. intros w a w' E. destruct b; [by injection E as <- <-|done]. Qed.
Lemma neutral_unwrap {A} (o : option A) : neutral (unwrap o).
Proof. intros w a w' E. destruct o; [by injection E as <- <-|done]. Qed.
Lemma neutral_on_kern {A} (f : M (Kernel T) A) : neutral (on_kern f).
Proof. intros w a w' E. unfold on_kern in E. destruct (f (w_kernel w)) as [[b k]|]; [by injection E as <- <-|done]. Qed.
Lemma neutral_on_memory {A} (f : M KernelState A) : neutral (on_memory f).
Proof. intros w a w' E. unfold on_memory in E. destruct (f (w_memory w)) as [[b k]|]; [by injection E as <- <-|done]. Qed.
Lemma neutral_on_machine {A} (f : M Machine A) : neutral (on_machine f).
Proof. apply neutral_on_memory. Qed.
Lemma neutral_on_pipes {A} (f : M PipeHeap A) : neutral (on_pipes f).
Proof. intros w a w' E. unfold on_pipes in E. destruct (f (w_pipes w)) as [[b k]|]; [by injection E as <- <-|done]. Qed.
Lemma neutral_mfor {A} (l : list A) (f : A -> M World unit) : (forall x, neutral (f x)) -> neutral (mfor l f).
Proof. intros Hf. induction l as [|x l IH]; cbn [mfor]; [apply neutral_ret|]. by apply neutral_bind. Qed.
Lemma neutral_modify (f : World -> World) : (forall w, view_of (f w) = view_of w) -> neutral (modify f).
Proof. intros Hf w a w' [= <- <-]. apply Hf. Qed.
Lemma neutral_get_pcb pid : neutral (get_pcb pid).
Proof. apply neutral_bind; [apply neutral_gets|]. intros o. apply neutral_unwrap. Qed.
Lemma neutral_get_thread t : neutral (get_thread t).
Proof. apply neutral_bind; [apply neutral_gets|]. intros o. apply neutral_unwrap. Qed.

(** ** Processes and threads *)

Lemma vlp_get_pcb pid (Q : ProcessControlBlockInner -> view -> Prop) v :
  (forall p, v_fam v !! pid = Some (fam p) -> Q p v) -> vlp (get_pcb pid) Q v.
Proof.
  intros HQ w p w' <- (o & w1 & [= <- <-] & E)%bind_Ok. destruct (w_procs w !! pid) as [p'|] eqn:Ep; [|done]. injection E as <- <-.
  apply HQ. cbn. by rewrite lookup_fmap, Ep.
Qed.

Lemma vlp_put_pcb pid p (Q : unit -> view -> Prop) v : Q tt (v_with_fam (<[pid := fam p]> (v_fam v)) v) -> vlp (put_pcb pid p) Q v.
Proof. intros HQ w a w' <- [= <- <-]. unfold view_of in *. cbn in *. by rewrite fmap_insert. Qed.

Lemma vlp_with_pcb pid f (Q : unit -> view -> Prop) v :
  (forall p, v_fam v !! pid = Some (fam p) -> Q tt (v_with_fam (<[pid := fam (f p)]> (v_fam v)) v)) -> vlp (with_pcb pid f) Q v.
Proof. intros HQ. apply vlp_bind, vlp_get_pcb. intros p Hp. by apply vlp_put_pcb, HQ. Qed.

Lemma v_with_fam_id v : v_with_fam (v_fam v) v = v.
Proof. by destruct v. Qed.

Lemma vlp_put_pcb_same pid p (Q : unit -> view -> Prop) v : v_fam v !! pid = Some (fam p) -> Q tt v -> vlp (put_pcb pid p) Q v.
Proof. intros E HQ. apply vlp_put_pcb. by rewrite insert_id, v_with_fam_id. Qed.

Lemma neutral_with_pcb pid f : (forall p, fam (f p) = fam p) -> neutral (with_pcb pid f).
Proof.
  intros Hf w a w' E. eapply (vlp_with_pcb pid f (fun _ v => v = view_of w)); [|done|exact E].
  intros p Hp. by rewrite Hf, insert_id, v_with_fam_id.
Qed.

Lemma vlp_get_thread t (Q : Thread -> view -> Prop) v :
  (forall th, v_threads v !! t = Some (kin_of th) -> Q th v) -> vlp (get_thread t) Q v.
Proof.
  intros HQ w p w' <- (o & w1 & [= <- <-] & E)%bind_Ok. destruct (w_threads w !! t) as [p'|] eqn:Ep; [|done]. injection E as <- <-.
  apply HQ. cbn. by rewrite lookup_fmap, Ep.
Qed.

Lemma vlp_put_thread t th (Q : unit -> view -> Prop) v : Q tt (v_with_threads (<[t := kin_of th]> (v_threads v)) v) -> vlp (put_thread t th) Q v.
Proof. intros HQ w a w' <- [= <- <-]. unfold view_of in *. cbn in *. by rewrite fmap_insert. Qed.

Lemma vlp_put_thread_same t th (Q : unit -> view -> Prop) v : v_threads v !! t = Some (kin_of th) -> Q tt v -> vlp (put_thread t th) Q v.
Proof. intros E HQ. apply vlp_put_thread. rewrite insert_id by done. by destruct v. Qed.

(** Programs over the resources of a process change its identifiers only. *)
Lemma vlp_process_res {A} pid (f : M ProcessRes A) (P : RecycleAllocator -> A -> RecycleAllocator -> Prop) (Q : A -> view -> Prop) v :
  (forall s a s', f s = Ok (a, s') -> P (pr_task_res_allocator s) a (pr_task_res_allocator s')) ->
  (forall g a tids, v_fam v !! pid = Some g -> P (fa_tids g) a tids -> Q a (v_with_fam (<[pid := fam_with_tids tids g]> (v_fam v)) v)) ->
  vlp (on_process_res pid f) Q v.
Proof.
  intros HP HQ. apply vlp_bind, vlp_get_pcb. intros p Hp. apply vlp_bind. intros w [a s] w' Hw E.
  unfold on_machine, on_memory in E. destruct (f _) as [[a' s']|] eqn:Ef; [|done]. injection E as <- <- <-.
  apply HP in Ef. cbn in Ef.
  enough (vlp (put_pcb pid (set_memory (pr_memory_set s') (pr_task_res_allocator s') p);; mret a') Q v) as Hx.
  { intros w1 b w2 E1 E2. eapply (Hx w1 b w2); [|exact E2]. rewrite E1, <- Hw. done. }
  apply vlp_bind, vlp_put_pcb, vlp_ret. by apply (HQ (fam p)).
Qed.

Lemma neutral_process_res {A} pid (f : M ProcessRes A) :
  (forall s a s', f s = Ok (a, s') -> pr_task_res_allocator s' = pr_task_res_allocator s) -> neutral (on_process_res pid f).
Proof.
  intros Hf w a w' E. eapply (vlp_process_res pid f (fun r _ r' => r' = r) (fun _ v => v = view_of w) (view_of w)); [exact Hf| |done|exact E].
  intros g _ tids Hg ->. replace (fam_with_tids (fa_tids g) g) with g by by destruct g. by rewrite insert_id, v_with_fam_id.
Qed.

Lemma with_memory_set_tids f s u s' : with_memory_set f s = Ok (u, s') -> pr_task_res_allocator s' = pr_task_res_allocator s.
Proof. unfold with_memory_set. destruct (f _ _) as [[ms m]|]; [by intros [= <- <-]|done]. Qed.

Lemma with_tid_allocator_tids {A} (f : M RecycleAllocator A) s a s' : with_tid_allocator f s = Ok (a, s') ->
  f (pr_task_res_allocator s) = Ok (a, pr_task_res_allocator s').
Proof. unfold with_tid_allocator. destruct (f _) as [[b ra]|]; [by intros [= <- <-]|done]. Qed.

Lemma alloc_user_res_tids r s u s' : TaskUserRes_alloc_user_res r s = Ok (u, s') -> pr_task_res_allocator s' = pr_task_res_allocator s.
Proof. intros (? & s1 & E1%with_memory_set_tids & E2%with_memory_set_tids)%bind_Ok. congruence. Qed.

Lemma unwrap_Ok {A S} (o : option A) (s : S) a s' : unwrap o s = Ok (a, s') -> o = Some a /\ s' = s.
Proof. destruct o; [by intros [= <- <-]|done]. Qed.

Lemma dealloc_user_res_tids r s u s' : TaskUserRes_dealloc_user_res r s = Ok (u, s') -> pr_task_res_allocator s' = pr_task_res_allocator s.
Proof.
  intros (? & s0 & [_ ->]%unwrap_Ok & (? & s1 & E1%with_memory_set_tids & (? & s2 & [_ ->]%unwrap_Ok & E%with_memory_set_tids)%bind_Ok)%bind_Ok)%bind_Ok.
  congruence.
Qed.

Lemma TaskUserRes_new_tids b alloc s r s' : TaskUserRes_new b alloc s = Ok (r, s') ->
  RecycleAllocator_alloc (pr_task_res_allocator s) = Ok (ur_tid r, pr_task_res_allocator s').
Proof.
  intros (tid & s1 & E1%with_tid_allocator_tids & E)%bind_Ok. cbn zeta in E. apply bind_Ok in E as (? & s2 & E2 & [= <- <-]). cbn. rewrite E1. do 2 f_equal.
  destruct alloc; [by apply alloc_user_res_tids in E2|by injection E2 as <- <-].
Qed.

Lemma TaskUserRes_drop_tids r s u s' : TaskUserRes_drop r s = Ok (u, s') ->
  RecycleAllocator_dealloc (ur_tid r) (pr_task_res_allocator s) = Ok (tt, pr_task_res_allocator s').
Proof.
  intros ([] & s1 & E1%with_tid_allocator_tids & E2%dealloc_user_res_tids)%bind_Ok. by rewrite E1, E2.
Qed.

Lemma neutral_trap_cx_ppn pid r : neutral (on_process_res pid (TaskUserRes_trap_cx_ppn r)).
Proof.
  apply neutral_process_res. intros s a s' (? & s0 & [_ ->]%unwrap_Ok & (o & s1 & [= <- <-] & (? & s2 & [_ ->]%unwrap_Ok & [= <- <-])%bind_Ok)%bind_Ok)%bind_Ok. done.
Qed.
Lemma neutral_alloc_user_res pid r : neutral (on_process_res pid (TaskUserRes_alloc_user_res r)).
Proof. apply neutral_process_res. apply alloc_user_res_tids. Qed.

End View.

Create HintDb neutral.
#[export] Hint Resolve neutral_ret neutral_bind neutral_gets neutral_get neutral_massert neutral_unwrap neutral_on_kern
  neutral_on_memory neutral_on_machine neutral_on_pipes neutral_mfor neutral_get_pcb neutral_get_thread
  neutral_with_pcb neutral_trap_cx_ppn neutral_alloc_user_res : neutral.
#[export] Hint Extern 1 (neutral (if ?b then _ else _)) => destruct b : neutral.
#[export] Hint Extern 1 (neutral (modify _)) => apply neutral_modify; intros ?; reflexivity : neutral.
#[export] Hint Extern 1 (neutral (match ?x with _ => _ end)) => destruct x : neutral.

(** One neutral step of a program. *)
Ltac vskip := apply vlp_bind, vlp_neutral; [solve [eauto 10 with neutral]|intros ?].

Section Operations.
Context {T : Type} `{Scheduler T}.
Abbreviation World := (World T).

Lemma neutral_clone_fd o : neutral (T := T) (clone_fd o).
Proof. unfold clone_fd, clone_file. auto with neutral. Qed.
Lemma neutral_drop_fd o : neutral (T := T) (drop_fd o).
Proof. unfold drop_fd, drop_file. auto with neutral. Qed.
Lemma neutral_get_task p tid : neutral (T := T) (get_task p tid).
Proof. unfold get_task. auto with neutral. Qed.
Lemma neutral_sched_info_of t : neutral (T := T) (sched_info_of t).
Proof. unfold sched_info_of. auto with neutral. Qed.
Lemma neutral_kernel_token : neutral (T := T) kernel_token.
Proof. unfold kernel_token. auto with neutral. Qed.
Lemma neutral_current_thread : neutral (T := T) current_thread.
Proof. unfold current_thread. auto with neutral. Qed.
Lemma neutral_current_process : neutral (T := T) current_process.
Proof. unfold current_process. auto using neutral_current_thread with neutral. Qed.
Lemma neutral_hold_process : neutral (T := T) hold_process.
Proof. unfold hold_process. auto using neutral_current_thread, neutral_current_process with neutral. Qed.
Lemma neutral_release_process : neutral (T := T) release_process.
Proof. unfold release_process. auto using neutral_current_thread with neutral. Qed.
Hint Resolve neutral_clone_fd neutral_drop_fd neutral_get_task neutral_sched_info_of neutral_kernel_token neutral_current_thread neutral_current_process : neutral.

(** *** Threads *)

Lemma vlp_drop_task t (Q : unit -> view -> Prop) v :
  (forall th, th ⊆ v_threads v -> Q tt (v_with_threads th v)) -> vlp (T := T) (drop_task t) Q v.
Proof.
  intros HQ. unfold drop_task. vskip. vskip. case_match.
  - vskip. intros w u w' <- [= <- <-]. unfold view_of in *. cbn in *. rewrite fmap_delete. apply (HQ (delete t _)), delete_subseteq.
  - apply vlp_ret. replace v with (v_with_threads (v_threads v) v) by by destruct v. by apply HQ.
Qed.

Lemma vlp_drop_tasks l (Q : unit -> view -> Prop) v :
  (forall th, th ⊆ v_threads v -> Q tt (v_with_threads th v)) -> vlp (T := T) (mfor l drop_task) Q v.
Proof.
  intros HQ. eapply vlp_mono; [apply (vlp_mfor l drop_task (fun _ v' => exists th, th ⊆ v_threads v /\ v' = v_with_threads th v))|].
  - exists (v_threads v). split; [done|]. by destruct v.
  - intros pre t v1 (th & Hth & ->) _. apply vlp_drop_task. intros th' Hth'. exists th'. split; [|done]. by etrans.
  - intros [] v' (th & Hth & ->). by apply HQ.
Qed.

Lemma vlp_new_task pid g base alloc prio (Q : Z -> view -> Prop) v : v_fam v !! pid = Some g ->
  (forall tid tids, RecycleAllocator_alloc (fa_tids g) = Ok (tid, tids) ->
     Q (v_next v) (mkView (<[pid := fam_with_tids tids g]> (v_fam v)) (v_reg v) (v_ids v)
       (<[v_next v := mkKin pid (Some tid) false]> (v_threads v)) (v_next v + 1))) ->
  vlp (T := T) (TaskControlBlock_new_with_priority pid base alloc prio) Q v.
Proof.
  intros Hg HQ. unfold TaskControlBlock_new_with_priority. apply vlp_bind.
  eapply (vlp_process_res pid _ (fun r res r' => RecycleAllocator_alloc r = Ok (ur_tid res, r'))); [apply TaskUserRes_new_tids|].
  intros g' res tids Hg' Ea. assert (g' = g) as -> by congruence. vskip. vskip. vskip. apply vlp_bind.
  intros w n w0 Hw [= <- <-]. apply vlp_bind. intros w1 u w2 Hw1 [= <- <-].
  apply vlp_bind, vlp_neutral; [auto with neutral|]. intros _. apply vlp_ret.
  specialize (HQ _ _ Ea). rewrite Hw in Hw1. assert (w_next_thread w = v_next v) as -> by exact (f_equal v_next Hw).
  unfold view_of in *. cbn. rewrite fmap_insert. injection Hw1 as E1 E2 E3 E4 _. rewrite E1, E2, E3, E4. exact HQ.
Qed.

Lemma vlp_pid_alloc (Q : Z -> view -> Prop) v :
  (forall pid ids, RecycleAllocator_alloc (v_ids v) = Ok (pid, ids) -> Q pid (mkView (v_fam v) (v_reg v) ids (v_threads v) (v_next v))) ->
  vlp (T := T) pid_alloc Q v.
Proof.
  intros HQ w pid w' <- E. unfold pid_alloc, on_pids in E. destruct (RecycleAllocator_alloc _) as [[i ids]|] eqn:Ea; [|done]. injection E as <- <-. by apply HQ.
Qed.

Lemma vlp_register pid (Q : unit -> view -> Prop) v :
  Q tt (mkView (v_fam v) ({[pid]} ∪ v_reg v) (v_ids v) (v_threads v) (v_next v)) -> vlp (T := T) (insert_into_pid2process pid) Q v.
Proof. by intros HQ w a w' <- [= <- <-]. Qed.

(** *** The operations on the tree *)

Context (sym : LinkerSymbols) (ElfFile_new : list Z -> option ElfFile) (user_sstatus trap_handler : Z) (root_inode : Vfs.Inode).
Abbreviation tree_ok := (tree_ok IDLE_PID).

(** Identifiers are 64-bit: fewer than 2^64 are in use at once. *)
Definition ids_fit (v : view) : Prop :=
  ra_current (v_ids v) + 1 < 2 ^ 64 /\ forall p f, v_fam v !! p = Some f -> ra_current (fa_tids f) + 1 < 2 ^ 64.

Definition live (v : view) (pid : Z) : Prop := exists f, v_fam v !! pid = Some f /\ fa_zombie f = false.

Lemma vlp_fork self v : tree_ok v -> ids_fit v -> live v self ->
  vlp (T := T) (ProcessControlBlock_fork sym self) (fun _ => tree_ok) v.
Proof.
  intros Hv [Hfit _] (f & Hf & Hz). unfold ProcessControlBlock_fork. apply vlp_bind, vlp_get_pcb. intros parent Hp.
  assert (fam parent = f) as Ef by congruence. vskip. vskip. vskip. vskip. apply vlp_bind, vlp_pid_alloc. intros pid ids Ea.
  pose proof (tree_fork IDLE_PID v self f pid ids Hv Hf Hz Hfit Ea) as Hok.
  assert (v_fam v !! pid = None) as Hfree.
  { destruct (v_fam v !! pid) as [g|] eqn:E; [|done]. destruct (ra_alloc_ok 1 _ _ _ (to_ids _ _ (proj1 Hv)) Hfit Ea) as (_ & _ & Hn & _).
    destruct Hn. by apply (to_used _ _ (proj1 Hv) pid g). }
  assert (pid <> self) as Hne by congruence.
  vskip. apply vlp_bind, vlp_put_pcb. apply vlp_bind, vlp_with_pcb. intros p Hp'. cbn [v_fam v_with_fam] in Hp'. rewrite lookup_insert_ne in Hp' by done.
  assert (fam p = f) as Ef' by congruence. vskip. vskip. apply vlp_bind.
  eapply vlp_new_task; [cbn [v_fam v_with_fam]; by rewrite lookup_insert_ne, lookup_insert_eq by done|].
  intros tid tids [= <- <-]. apply vlp_bind, vlp_with_pcb. intros q Hq. cbn [v_fam] in Hq. rewrite lookup_insert_eq in Hq. injection Hq as E1 E2 E3 E4 E5.
  vskip. vskip. apply vlp_bind, vlp_register. vskip. apply vlp_ret. eapply eq_ind; [exact Hok|]. unfold view_fork. cbn. f_equal.
  unfold fam at 1. cbn. rewrite <- E1, <- E2, <- E3, <- E4, <- E5. cbn.
  apply map_eq. intros x. destruct (decide (x = pid)) as [->|]; [by rewrite !lookup_insert_eq|]. rewrite !(lookup_insert_ne _ pid) by done.
  destruct (decide (x = self)) as [->|]; [|by rewrite lookup_insert_ne, lookup_alter_ne, lookup_insert_ne by done].
  rewrite lookup_insert_eq, lookup_alter_eq, Hf, <- Ef'. done.
Qed.

Lemma vlp_exec self elf args v : tree_ok v ->
  vlp (T := T) (ProcessControlBlock_exec sym ElfFile_new user_sstatus trap_handler self elf args) (fun _ => tree_ok) v.
Proof.
  intros Hv. unfold ProcessControlBlock_exec. vskip. vskip. apply vlp_bind, vlp_neutral; [auto with neutral|]. intros [[ms ub] ep].
  vskip. vskip. vskip. vskip. apply vlp_bind, vlp_get_thread. intros th Hth. apply vlp_bind, vlp_unwrap. intros res Eres.
  vskip. vskip. apply vlp_bind, vlp_put_thread_same; [by rewrite Hth; unfold kin_of; rewrite Eres|]. apply vlp_bind, vlp_neutral; [auto with neutral|]. intros [argv_base user_sp]. vskip.
  apply vlp_neutral; [auto with neutral|done].
Qed.

(** The thread that has its resources belongs to a live process. *)
Lemma thread_live v t th res : tree_ok v -> v_threads v !! t = Some (kin_of th) -> th_res th = Some res ->
  th_exit_code th = None /\ 0 <= ur_tid res /\ exists f, v_fam v !! th_process th = Some f /\ fa_zombie f = false /\
    fa_tasks f !! Z.to_nat (ur_tid res) = Some (Some t) /\ ra_used 0 (fa_tids f) (ur_tid res).
Proof.
  intros [_ Ht] Hth Eres. destruct (to_threads _ Ht t _ Hth (ur_tid res)) as (Hx & H0 & Hf); [cbn; by rewrite Eres|].
  split_and!; [|done|done]. unfold kin_of in Hx. cbn in Hx. by destruct (th_exit_code th).
Qed.

Lemma vlp_thread_create entry arg v : tree_ok v -> ids_fit v ->
  vlp (T := T) (sys_thread_create user_sstatus trap_handler entry arg) (fun _ => tree_ok) v.
Proof.
  intros Hv [_ Hfit]. unfold sys_thread_create. vskip. apply vlp_bind, vlp_get_thread. intros th Hth. vskip. vskip.
  apply vlp_bind, vlp_unwrap. intros res Eres. destruct (thread_live v _ th res Hv Hth Eres) as (_ & _ & f & Hf & Hz & _).
  apply vlp_bind. eapply vlp_new_task; [exact Hf|]. intros tid tids Ea.
  pose proof (tree_thread IDLE_PID v (th_process th) f tid tids Hv Hf Hz (Hfit _ _ Hf) Ea) as Hok.
  vskip. apply vlp_bind, vlp_get_thread. intros nth Hn. cbn [v_threads] in Hn. rewrite lookup_insert_eq in Hn. injection Hn as Ep Etid _.
  apply vlp_bind, vlp_unwrap. intros nres Enres. rewrite Enres in Etid. cbn in Etid. injection Etid as Etid.
  apply vlp_bind, vlp_get_pcb. intros p Hp. cbn [v_fam] in Hp. rewrite lookup_insert_eq in Hp. injection Hp as E1 E2 E3 E4 E5.
  apply vlp_bind, vlp_put_pcb. apply vlp_bind, vlp_drop_tasks. intros ths Hths. vskip. vskip. apply vlp_ret.
  eapply eq_ind; [apply (tree_submap IDLE_PID _ ths Hok); exact Hths|]. unfold view_thread, v_with_threads, v_with_fam. cbn. f_equal.
  apply map_eq. intros x. destruct (decide (x = th_process th)) as [->|]; [|by rewrite lookup_alter_ne, !lookup_insert_ne by done].
  rewrite lookup_alter_eq, Hf, lookup_insert_eq. unfold fam. cbn. by rewrite <- E1, <- E2, <- E3, <- E4, <- E5, <- Etid.
Qed.

Lemma vlp_waittid tid v : tree_ok v -> vlp (T := T) (sys_waittid tid) (fun _ => tree_ok) v.
Proof.
  intros Hv. unfold sys_waittid. vskip. apply vlp_bind, vlp_get_thread. intros th Hth. apply vlp_bind, vlp_get_pcb. intros p Hp. vskip.
  case_match; [by apply vlp_ret|]. apply vlp_bind, vlp_unwrap. intros [waited|] Ew; [|by apply vlp_ret].
  apply vlp_bind, vlp_get_thread. intros wth Hw. destruct (th_exit_code wth) as [code|] eqn:Ec; [|by apply vlp_ret].
  apply vlp_bind, vlp_put_pcb. apply vlp_bind, vlp_drop_task. intros ths Hths. apply vlp_ret. apply tree_submap; [|exact Hths].
  eapply eq_ind; [apply (tree_slot IDLE_PID v (th_process th) (fam p) (Z.to_nat tid) waited (kin_of wth) Hv Hp Ew Hw)|].
  - unfold kin_of. cbn. by rewrite Ec.
  - unfold v_alter. f_equal. apply map_eq. intros x. destruct (decide (x = th_process th)) as [->|]; [|by rewrite lookup_alter_ne, lookup_insert_ne by done].
    by rewrite lookup_alter_eq, Hp, lookup_insert_eq.
Qed.

(** *** exit *)

Lemma alter_some (g : family -> family) k a (F : gmap Z family) : F !! k = Some a -> <[k := g a]> F = alter g k F.
Proof.
  intros Hk. apply map_eq. intros x. destruct (decide (x = k)) as [->|]; [by rewrite lookup_insert_eq, lookup_alter_eq, Hk|].
  by rewrite lookup_insert_ne, lookup_alter_ne by done.
Qed.

Lemma vlp_reparent c (Q : unit -> view -> Prop) v : Q tt (v_with_fam (fam_reparent IDLE_PID (v_fam v) c) v) ->
  vlp (T := T) (reparent IDLE_PID c) Q v.
Proof.
  intros HQ. apply vlp_bind, vlp_with_pcb. intros p Hp. apply vlp_with_pcb. intros i Hi. cbn [v_fam v_with_fam] in *.
  refine (eq_ind _ (Q tt) HQ _ _). unfold v_with_fam. cbn. f_equal. unfold fam_reparent.
  rewrite <- (alter_some (fam_with_parent (Some IDLE_PID)) c (fam p)) by exact Hp.
  symmetry. exact (alter_some (fun g => fam_with_children (fa_children g ++ [c]) g) IDLE_PID (fam i) _ Hi).
Qed.

(** While a process exits: its family and the others. *)
Record exiting (pid : Z) (f : family) (v v' : view) : Prop := {
  eg_self : exists z, v_fam v' !! pid = Some z /\ fa_zombie z = true /\ fa_parent z = fa_parent f;
  eg_others x : x <> pid -> v_fam v' !! x = reparented IDLE_PID (fa_children f) x <$> v_fam v !! x;
  eg_reg : v_reg v' = v_reg v ∖ {[pid]};
  eg_ids : v_ids v' = v_ids v;
  eg_next : v_next v' = v_next v
}.

Lemma exiting_insert pid f v v' g : exiting pid f v v' -> fa_zombie g = true -> fa_parent g = fa_parent f ->
  exiting pid f v (v_with_fam (<[pid := g]> (v_fam v')) v').
Proof.
  intros [Hself Hoth Hreg Hids Hnext] Hz Hp. split; cbn; try done.
  - exists g. by rewrite lookup_insert_eq.
  - intros x Hx. rewrite lookup_insert_ne by done. by apply Hoth.
Qed.

Lemma exiting_threads pid f v v' th : exiting pid f v v' -> exiting pid f v (v_with_threads th v').
Proof. by intros []. Qed.

(** The resources of the listed threads are taken. *)
Definition taken (ts : list Z) (v v' : view) : Prop := forall t k', v_threads v' !! t = Some k' -> exists k, v_threads v !! t = Some k /\
  (t ∈ ts /\ ki_tid k' = None \/ (t ∉ ts) /\ k' = k).

Lemma vlp_take_all ts (Q : list TaskUserRes -> view -> Prop) v :
  (forall rs th, taken ts v (v_with_threads th v) -> Q rs (v_with_threads th v)) ->
  vlp (T := T) (mfold (fun acc t => rs ← take_res t; mret (acc ++ rs)) [] ts) Q v.
Proof.
  intros HQ. eapply vlp_mono; [apply (vlp_mfold _ ts [] (fun pre rs v' => exists th, v' = v_with_threads th v /\ taken pre v v'))|].
  - exists (v_threads v). split; [by destruct v|]. intros t k Hk. exists k. split; [done|]. right. split; [apply not_elem_of_nil|done].
  - intros pre t rs v1 (th & -> & Htk) _. apply vlp_bind. unfold take_res. apply vlp_bind, vlp_get_thread. intros x Hx.
    apply vlp_bind, vlp_put_thread, vlp_ret, vlp_ret. eexists. split; [done|]. intros t' k'. cbn. rewrite lookup_insert_Some.
    intros [[<- <-]|[Hne Hk']].
    + destruct (Htk t _ Hx) as (k & Hk & _). exists k. split; [done|]. left. split; [|done]. apply elem_of_app. right. by left.
    + destruct (Htk t' k' Hk') as (k & Hk & [[Hin Hn]|[Hni ->]]); exists k; (split; [done|]); [left|right]; rewrite elem_of_app, ?list_elem_of_singleton; (split; [|done]); [by left|].
      intros [?| ->]; done.
  - intros rs v' (th & -> & Htk). by apply HQ.
Qed.

Lemma vlp_unregister pid (Q : unit -> view -> Prop) v :
  (pid ∈ v_reg v -> Q tt (mkView (v_fam v) (v_reg v ∖ {[pid]}) (v_ids v) (v_threads v) (v_next v))) ->
  vlp (T := T) (remove_from_pid2process pid) Q v.
Proof.
  intros HQ w a w' <- (reg & w1 & [= <- <-] & (u & w2 & E & [= <- <-])%bind_Ok)%bind_Ok.
  case_bool_decide as Hin; [|done]. injection E as <- <-. by apply HQ.
Qed.

Lemma vlp_exit_process pid code v : tree_ok v -> pid <> IDLE_PID -> vlp (T := T) (exit_process IDLE_PID pid code) (fun _ => tree_ok) v.
Proof.
  intros Hv Hni. unfold exit_process. apply vlp_bind, vlp_unregister. intros Hin.
  apply (to_registered _ _ (proj1 Hv)) in Hin as (f & Hf & Hz). apply vlp_bind, vlp_with_pcb. cbn [v_fam]. intros p Hp.
  assert (fam p = f) as Ef by congruence. apply vlp_bind, vlp_get_pcb. cbn [v_fam v_with_fam]. intros p1 Hp1. rewrite lookup_insert_eq in Hp1. injection Hp1 as Ez1 Ep1 Ec1 Et1 Er1.
  assert (pcb_children p1 = fa_children f) as Ech by (rewrite <- Ec1, <- Ef; done). rewrite Ech.
  set (F1 := <[pid := _]> (v_fam v)). set (reg1 := v_reg v ∖ _). unfold v_with_fam at 1. cbn [v_reg v_ids v_threads v_next].
  apply vlp_bind. eapply vlp_mono.
  { apply (vlp_mfor _ _ (fun pre v' => v' = mkView (foldl (fam_reparent IDLE_PID) F1 pre) reg1 (v_ids v) (v_threads v) (v_next v))); [done|].
    intros pre c v1 -> _. apply vlp_reparent. unfold v_with_fam. cbn. by rewrite foldl_app. }
  intros [] v1 Ev1. cbn beta in Ev1.
  assert (exiting pid f v v1) as He1.
  { subst v1. split; cbn; try done.
    - rewrite fam_reparent_lookup. unfold F1. rewrite lookup_insert_eq. eexists. split; [done|]. cbn.
      rewrite decide_False by (by apply (tree_no_self_child IDLE_PID v (proj1 Hv) pid)). split; [done|]. by rewrite <- Ef.
    - intros x Hx. rewrite fam_reparent_lookup. unfold F1. by rewrite lookup_insert_ne by done. }
  assert (exists p2, v_fam v1 !! pid = Some p2 /\ fa_tasks p2 = fa_tasks f) as (z & Hz1 & Etz).
  { subst v1. cbn. rewrite fam_reparent_lookup. unfold F1. rewrite lookup_insert_eq. eexists. split; [done|]. cbn. by rewrite <- Ef. }
  assert (v_threads v1 = v_threads v) as Eth by by subst v1. clearbody F1. clear Ev1 Ez1 Ep1 Ec1 Et1 Er1 Ech p1 Hp Ef p reg1.
  apply vlp_bind, vlp_get_pcb. intros p2 Hp2. assert (z = fam p2) as -> by congruence.
  apply vlp_bind, vlp_take_all. intros rs th Htk.
  assert (forall t k', th !! t = Some k' -> exists k, v_threads v !! t = Some k /\ (ki_tid k' = None \/ k' = k /\ ki_process k <> pid)) as Hth.
  { intros t k' Hk'. destruct (Htk t k' Hk') as (k & Hk & Hor). rewrite Eth in Hk. exists k. split; [done|]. destruct Hor as [[_ ?]|[Hnt ->]]; [by left|].
    destruct (decide (ki_process k = pid)) as [Ek|]; [|by right]. left. destruct (ki_tid k) as [tid|] eqn:Etid; [|done]. destruct Hnt.
    destruct (to_threads _ (proj2 Hv) t k Hk tid Etid) as (_ & _ & f' & Hf' & _ & Hs & _). rewrite Ek in Hf'. assert (f' = f) as -> by congruence.
    unfold live_tasks. apply list_elem_of_omap. exists (Some t). split; [|done]. apply list_elem_of_lookup_2 with (Z.to_nat tid). by rewrite <- Etz in Hs. }
  set (Inv := fun v' => exists v0, exiting pid f v v0 /\ v' = v_with_threads th v0).
  apply vlp_bind. eapply vlp_mono.
  { apply (vlp_mfor rs _ (fun _ => Inv)); [by exists v1|]. intros _ res v2 (v0 & He & ->) _.
    eapply (vlp_process_res pid _ (fun _ _ _ => True)); [done|]. intros g [] tids Hg _. destruct (eg_self _ _ _ _ He) as (g' & Hg' & Hzg & Hpg).
    assert (g' = g) as -> by (cbn in Hg; congruence). eexists. split; [apply (exiting_insert pid f v v0 (fam_with_tids tids g) He); done|done]. }
  intros [] v2 (v0 & He & ->). cbn beta. apply vlp_bind, vlp_with_pcb. intros p3 Hp3. apply vlp_bind, vlp_get_pcb. intros p4 Hp4.
  cbn [v_fam v_with_fam] in Hp4. rewrite lookup_insert_eq in Hp4. injection Hp4 as Ez Ep Ec Et Er. vskip. vskip.
  apply vlp_bind, vlp_put_pcb. apply vlp_drop_tasks. intros ths Hths. cbn [v_threads v_with_fam v_with_threads] in Hths.
  destruct (eg_self _ _ _ _ He) as (g & Hg & Hzg & Hpg). assert (g = fam p3) as -> by (cbn in Hp3; congruence).
  apply (tree_exit IDLE_PID pid f v); [done|done|done|done|]. destruct He as [_ Hoth Hreg Hids Hnext]. split; cbn; try done.
  - eexists. rewrite lookup_insert_eq. split; [done|]. unfold fam. cbn. rewrite <- Ez, <- Ep, <- Ec. split_and!; [done|done|done].
  - intros x Hx. rewrite !lookup_insert_ne by done. by apply Hoth.
  - intros t k' Hk'. apply Hth. by apply (lookup_weaken ths).
Qed.

Lemma vlp_exit code v : tree_ok v -> vlp (T := T) (exit_current_and_run_next IDLE_PID code) (fun _ => tree_ok) v.
Proof.
  intros Hv. unfold exit_current_and_run_next. vskip. apply vlp_bind, vlp_unwrap. intros task _. apply vlp_bind, vlp_get_thread. intros th Hth.
  vskip. apply vlp_bind, vlp_unwrap. intros res Eres. destruct (thread_live v task th res Hv Hth Eres) as (_ & _ & f & Hf & Hz & _).
  apply vlp_bind, vlp_put_thread. apply vlp_bind.
  eapply (vlp_process_res _ _ (fun r _ r' => RecycleAllocator_dealloc (ur_tid res) r = Ok (tt, r'))); [by intros s [] s' E%TaskUserRes_drop_tids|].
  intros g [] tids Hg Ed. cbn in Hg. assert (g = f) as -> by congruence. vskip.
  assert (tree_ok (v_with_fam (<[th_process th := fam_with_tids tids f]> (v_fam v)) (v_with_threads (<[task := mkKin (th_process th) None true]> (v_threads v)) v))) as Hok.
  { eapply eq_ind; [apply (tree_thread_exit IDLE_PID v task (kin_of th) (ur_tid res) (th_process th) f tids); try done; cbn; by rewrite Eres|].
    unfold view_thread_exit, v_alter. cbn. f_equal. symmetry. by apply alter_some. }
  case_match; [|by apply vlp_ret]. case_match eqn:E; [by apply vlp_ret|]. apply vlp_bind. eapply vlp_mono; [apply vlp_exit_process|].
  - exact Hok.
  - by apply Z.eqb_neq.
  - intros [] v' Hv'. by apply vlp_ret.
Qed.

(** *** waitpid *)

Lemma vlp_drop_pcb pid self f z v0 v : tree_ok v0 -> v_fam v0 !! self = Some f -> pid ∈ fa_children f ->
  v_fam v0 !! pid = Some z -> fa_zombie z = true ->
  (exists cs, NoDup cs /\ (forall x, x ∈ cs <-> x ∈ fa_children f /\ x <> pid) /\
     v = v_with_fam (<[self := fam_with_children cs f]> (v_fam v0)) v0) ->
  vlp (T := T) (drop_pcb pid) (fun _ => tree_ok) v.
Proof.
  intros Hv Hf Hin Hz Hzz (cs & Hnd & Hcs & ->). unfold drop_pcb.
  destruct (tree_child_there _ _ (proj1 Hv) self f pid Hf Hin) as (_ & _ & _ & _ & Hne).
  apply vlp_bind, vlp_get_pcb. intros p Hp. apply vlp_bind. intros w u w1 Hw E. unfold PidHandle_drop, on_pids in E.
  destruct (RecycleAllocator_dealloc pid _) as [[[] ids]|] eqn:Ed; [|done]. injection E as <- <-. revert Ed. rewrite (f_equal v_ids Hw : w_pid_allocator w = _).
  intros Ed. assert (view_of (put_pids (w_pid2pcb w) ids w) = mkView (<[self := fam_with_children cs f]> (v_fam v0)) (v_reg v0) ids (v_threads v0) (v_next v0)) as ->.
  { unfold view_of in *. cbn in *. by injection Hw as -> -> _ -> ->. }
  vskip. apply vlp_bind, vlp_drop_tasks. intros th Hth. intros w2 u w3 Hw2 [= <- <-].
  apply (tree_reap IDLE_PID self pid f z v0); [done|done|done|done|done|].
  injection Hw2 as E1 E2 E3 E4 E5. cbn [v_threads] in Hth. split; cbn.
  - rewrite fmap_delete. apply lookup_delete_eq.
  - exists cs. rewrite fmap_delete, E1. split; [|done]. cbn. rewrite lookup_delete_ne by done. by rewrite lookup_insert_eq.
  - intros x H1 H2. rewrite fmap_delete, E1. cbn. by rewrite lookup_delete_ne, lookup_insert_ne by done.
  - done.
  - by rewrite E3.
  - intros t k'. rewrite !lookup_fmap. destruct (w_threads w2 !! t) as [x|] eqn:Ex; [|done]. intros [= <-]. exists (kin_of x). split.
    + apply (lookup_weaken th); [|done]. rewrite <- E4. by rewrite lookup_fmap, Ex.
    + unfold dangle. destruct (Z.eqb_spec (th_process x) pid) as [Ep|]; [|by split; [right|]]. split; [by left|done].
  - done.
Qed.

Lemma vec_remove_In idx (l : list Z) c : NoDup l -> l !! idx = Some c ->
  NoDup (vec_remove idx l) /\ forall x, x ∈ vec_remove idx l <-> x ∈ l /\ x <> c.
Proof.
  intros Hnd Hi. rewrite vec_remove_delete. pose proof (delete_Permutation _ _ _ Hi) as Hp.
  assert (NoDup (c :: delete idx l)) as [Hc Hd]%NoDup_cons by (by rewrite <- Hp). split; [done|]. intros x. rewrite Hp at 2. rewrite elem_of_cons. split.
  - intros Hx. split; [by right|]. by intros ->.
  - by intros [[->|] ?].
Qed.

Lemma vlp_read_children cs (Q : list (Z * ProcessControlBlockInner) -> view -> Prop) v :
  (forall l, Forall2 (fun c x => fst x = c /\ v_fam v !! c = Some (fam (snd x))) cs l -> Q l v) ->
  vlp (T := T) (mfold (fun acc c => p ← get_pcb c; mret (acc ++ [(c, p)])) [] cs) Q v.
Proof.
  intros HQ. eapply vlp_mono; [apply (vlp_mfold _ cs [] (fun pre l v' => v' = v /\ Forall2 (fun c x => fst x = c /\ v_fam v !! c = Some (fam (snd x))) pre l))|].
  - by split.
  - intros pre c l v1 (-> & Hl) _. apply vlp_bind, vlp_get_pcb. intros p Hp. apply vlp_ret. split; [done|]. apply Forall2_app; [done|]. by repeat constructor.
  - intros l v' (-> & Hl). by apply HQ.
Qed.

(** The current thread has its resources: a thread that enters the kernel from
    user mode came through [trap_return], which needs them. *)
Definition user_mode (w : World) : Prop :=
  exists t th, kn_current (w_kernel w) = Some t /\ w_threads w !! t = Some th /\ th_res th <> None.

Lemma current_process_live w self w1 : tree_ok (view_of w) -> user_mode w -> current_process w = Ok (self, w1) ->
  live (view_of w) self /\ view_of w1 = view_of w.
Proof.
  intros Hv (t & th & Hc & Hth & Hres) E. split; [|by apply (neutral_current_process w self w1)]. destruct (th_res th) as [res|] eqn:Eres; [|done].
  assert (v_threads (view_of w) !! t = Some (kin_of th)) as Hk by (cbn; by rewrite lookup_fmap, Hth).
  destruct (thread_live _ t th res Hv Hk Eres) as (_ & _ & f & Hf & Hz & _).
  apply bind_Ok in E as (t' & w2 & E2 & E). assert (t' = t /\ w2 = w) as [-> ->].
  { apply bind_Ok in E2 as (c & w3 & Ec & E3). cbn in Ec. injection Ec as <- <-. rewrite Hc in E3. injection E3 as <- <-. split; [done|]. by destruct w as [[]]. }
  apply bind_Ok in E as (th' & w3 & E3 & E). apply bind_Ok in E3 as (o & w4 & [= <- <-] & E3). rewrite Hth in E3. injection E3 as <- <-.
  apply bind_Ok in E as (? & w4 & _ & [= <- <-]). by exists f.
Qed.

(** The program after [current_process()]. *)
Lemma user_call {A} (k : Z -> M World A) w a w' : tree_ok (view_of w) -> user_mode w -> (self ← current_process; k self) w = Ok (a, w') ->
  (forall self, live (view_of w) self -> vlp (k self) (fun _ => tree_ok) (view_of w)) -> tree_ok (view_of w').
Proof.
  intros Hv Hu (self & w1 & E1 & E2)%bind_Ok Hk. destruct (current_process_live w self w1 Hv Hu E1) as [Hl Ew].
  exact (Hk self Hl w1 a w' Ew E2).
Qed.

Lemma sys_fork_tree w r w' : tree_ok (view_of w) -> ids_fit (view_of w) -> user_mode w -> sys_fork sym w = Ok (r, w') -> tree_ok (view_of w').
Proof.
  intros Hv Hfit Hu E. apply (user_call _ _ _ _ Hv Hu E). intros self Hl. apply vlp_bind. eapply vlp_mono; [by apply vlp_fork|].
  intros pid v Hok. vskip. vskip. vskip. vskip. by apply vlp_ret.
Qed.

Lemma sys_waitpid_tree pid ptr options w r w' : tree_ok (view_of w) -> user_mode w ->
  sys_waitpid IDLE_PID pid ptr options w = Ok (r, w') -> tree_ok (view_of w').
Proof.
  intros Hv Hu E. apply (user_call _ _ _ _ Hv Hu E). clear E. intros self (f & Hf & Hz). set (v := view_of w) in *. clearbody v. clear w Hu.
  apply vlp_bind, vlp_get_pcb. intros inner Hi. assert (fam inner = f) as Ef by congruence. case_match; [by apply vlp_ret|].
  apply vlp_bind, vlp_read_children. intros cs Hcs. case_match; [by apply vlp_ret|].
  destruct (position _ cs) as [idx|] eqn:Epos; [|by apply vlp_ret]. apply position_Some in Epos as ([c pc] & Hidx & [Hzc _]%andb_true_iff & _).
  destruct (Forall2_lookup_r _ _ _ _ _ Hcs Hidx) as (c' & Hch & Ec & Hc). cbn [fst snd] in *. subst c'.
  assert (c ∈ fa_children f) as Hin by (rewrite <- Ef; by apply list_elem_of_lookup_2 with idx).
  vskip. apply vlp_bind, vlp_put_pcb_same; [done|]. case_match; [by apply vlp_ret|].
  apply vlp_bind, vlp_unwrap. intros child Echild. assert (child = c) as -> by congruence.
  apply vlp_bind, vlp_with_pcb. intros p Hp. vskip. vskip. vskip. vskip. apply vlp_bind. eapply (vlp_mono _ (fun _ => tree_ok)); [|intros [] v' Hv'; by apply vlp_ret].
  apply (vlp_drop_pcb c self f (fam pc) v); try done. exists (vec_remove idx (pcb_children p)).
  assert (pcb_children p = fa_children f) as -> by (change (fa_children (fam p) = fa_children f); congruence).
  destruct (vec_remove_In idx (fa_children f) c) as [Hnd Hrm]; [by apply (to_nodup _ _ (proj1 Hv) self)|by rewrite <- Ef|]. split_and!; [done|done|].
  f_equal. f_equal. assert (fam p = f) as E by congruence. rewrite <- E. done.
Qed.

(** *** Operations that leave the tree alone *)

Lemma neutral_vlp {A} (m : M World A) : (forall v, vlp m (fun _ v' => v' = v) v) -> neutral m.
Proof. intros Hm w a w' E. by apply (Hm (view_of w) w a w'). Qed.

(** One step of a program that reads a process and writes it back with the
    same family. *)
Ltac keep_step :=
  match goal with
  | |- vlp (mret _) _ _ => apply vlp_ret; reflexivity
  | |- vlp (get_pcb _ ≫= _) _ _ => apply vlp_bind, vlp_get_pcb; intros ? ?
  | |- vlp (put_pcb _ _ ≫= _) _ _ => apply vlp_bind, vlp_put_pcb_same; [assumption|]
  | |- vlp (_ ≫= _) _ _ => vskip
  | |- vlp (if ?b then _ else _) _ _ => destruct b
  | |- vlp (match ?x with _ => _ end) _ _ => destruct x
  | |- vlp _ _ _ => apply vlp_neutral; [solve [eauto 10 with neutral]|reflexivity]
  end.
Ltac keep := apply neutral_vlp; intros v; repeat keep_step.

Lemma neutral_pid2process pid : neutral (T := T) (pid2process pid).
Proof. unfold pid2process. auto with neutral. Qed.
Lemma neutral_add_signal pid s : neutral (T := T) (add_signal_to_process pid s).
Proof. apply neutral_with_pcb. intros p. by case_match. Qed.
Lemma neutral_continue pid : neutral (T := T) (continue_process pid).
Proof. unfold continue_process. keep. Qed.
Lemma neutral_group_members g : neutral (T := T) (group_members g).
Proof. unfold group_members. auto with neutral. Qed.
Hint Resolve neutral_pid2process neutral_add_signal neutral_continue neutral_group_members : neutral.

Lemma neutral_kill pid s : neutral (T := T) (sys_kill pid s).
Proof. unfold sys_kill, continue_process_group, signal_process_group, current_pgrp. auto 20 with neutral. Qed.
Lemma neutral_setpgid pid pgid : neutral (T := T) (sys_setpgid pid pgid).
Proof. unfold sys_setpgid. keep. Qed.
Lemma neutral_sigaction s act : neutral (T := T) (sys_sigaction s act).
Proof. unfold sys_sigaction. keep. Qed.
Lemma neutral_check_stop : neutral (T := T) check_stop_signal_of_current.
Proof. unfold check_stop_signal_of_current. keep. Qed.
Lemma neutral_stop : neutral (T := T) stop_current_and_run_next.
Proof. unfold stop_current_and_run_next. auto 20 with neutral. Qed.
Lemma neutral_set_priority pid prio : neutral (T := T) (sys_set_priority pid prio).
Proof. unfold sys_set_priority, resolve_process, ProcessControlBlock_set_priority. auto 20 with neutral. Qed.
Lemma neutral_close fd : neutral (T := T) (sys_close fd).
Proof. unfold sys_close, drop_file. keep. Qed.
Lemma neutral_dup fd : neutral (T := T) (sys_dup fd).
Proof. unfold sys_dup, clone_file. keep. Qed.
Lemma neutral_install f : neutral (T := T) (install_file f).
Proof. unfold install_file. keep. Qed.
Hint Resolve neutral_install : neutral.
Lemma neutral_sys_pipe p : neutral (T := T) (sys_pipe p).
Proof. unfold sys_pipe. keep. Qed.

(** ** Runs of the kernel *)

(** Before the first process. *)
Definition boot_world (w : World) : Prop :=
  w_procs w = ∅ /\ w_threads w = ∅ /\ w_next_thread w = 0 /\ w_pid2pcb w = ∅ /\ w_pid_allocator w = RecycleAllocator_new_start 1.

(** One system call or one action of the kernel that returns.  [ps_kern] is
    anything the scheduler and the tasks do (a timer tick, a switch, a wakeup),
    [ps_hold] and [ps_release] the beginning and the end of a call that keeps
    its process on the kernel stack while others run (a read or a write, the
    wait for a semaphore, a condition variable or the block device), [ps_memory] a change of the kernel's memory and [ps_space] of the address
    space of a process (a page fault, [mmap], [munmap]). *)
Inductive proc_step : World -> World -> Prop :=
  | ps_fork w r w' : user_mode w -> ids_fit (view_of w) -> sys_fork sym w = Ok (r, w') -> proc_step w w'
  | ps_exec w pid elf args r w' :
      ProcessControlBlock_exec sym ElfFile_new user_sstatus trap_handler pid elf args w = Ok (r, w') -> proc_step w w'
  | ps_thread_create w entry arg r w' : ids_fit (view_of w) ->
      sys_thread_create user_sstatus trap_handler entry arg w = Ok (r, w') -> proc_step w w'
  | ps_waittid w tid r w' : sys_waittid tid w = Ok (r, w') -> proc_step w w'
  | ps_exit w code r w' : exit_current_and_run_next IDLE_PID code w = Ok (r, w') -> proc_step w w'
  | ps_waitpid w pid ptr options r w' : user_mode w -> sys_waitpid IDLE_PID pid ptr options w = Ok (r, w') -> proc_step w w'
  | ps_kill w pid s r w' : sys_kill pid s w = Ok (r, w') -> proc_step w w'
  | ps_setpgid w pid pgid r w' : sys_setpgid pid pgid w = Ok (r, w') -> proc_step w w'
  | ps_sigaction w s act r w' : sys_sigaction s act w = Ok (r, w') -> proc_step w w'
  | ps_check_stop w r w' : check_stop_signal_of_current w = Ok (r, w') -> proc_step w w'
  | ps_stop w r w' : stop_current_and_run_next w = Ok (r, w') -> proc_step w w'
  | ps_priority w pid prio r w' : sys_set_priority pid prio w = Ok (r, w') -> proc_step w w'
  | ps_close w fd r w' : sys_close fd w = Ok (r, w') -> proc_step w w'
  | ps_dup w fd r w' : sys_dup fd w = Ok (r, w') -> proc_step w w'
  | ps_open w f r w' : install_file f w = Ok (r, w') -> proc_step w w'
  | ps_pipe w p r w' : sys_pipe p w = Ok (r, w') -> proc_step w w'
  | ps_hold w r w' : hold_process w = Ok (r, w') -> proc_step w w'
  | ps_release w r w' : release_process w = Ok (r, w') -> proc_step w w'
  | ps_kern {A} (f : M (Kernel T) A) w r w' : on_kern f w = Ok (r, w') -> proc_step w w'
  | ps_memory {A} (f : M KernelState A) w r w' : on_memory f w = Ok (r, w') -> proc_step w w'
  | ps_space f w pid r w' : on_process_res pid (with_memory_set f) w = Ok (r, w') -> proc_step w w'
  | ps_pipes {A} (f : M PipeHeap A) w r w' : on_pipes f w = Ok (r, w') -> proc_step w w'.

Hint Resolve neutral_kill neutral_setpgid neutral_sigaction neutral_check_stop neutral_stop neutral_set_priority neutral_close neutral_dup
  neutral_sys_pipe neutral_hold_process neutral_release_process : neutral.

Lemma step_tree w w' : tree_ok (view_of w) -> proc_step w w' -> tree_ok (view_of w').
Proof.
  intros Hv Hstep. assert (forall A (m : M World A) r w1 w2, neutral m -> tree_ok (view_of w1) -> m w1 = Ok (r, w2) -> tree_ok (view_of w2)) as Hn.
  { intros A m r w1 w2 Hm Hok E. by rewrite (Hm w1 r w2 E). }
  destruct Hstep; try (eapply Hn; [|exact Hv|eassumption]; solve [auto with neutral]).
  - by eapply sys_fork_tree.
  - by eapply (vlp_exec pid elf args (view_of w)).
  - by eapply (vlp_thread_create entry arg (view_of w)).
  - by eapply (vlp_waittid tid (view_of w)).
  - by eapply (vlp_exit code (view_of w)).
  - by eapply sys_waitpid_tree.
  - eapply Hn; [|exact Hv|eassumption]. apply neutral_process_res. apply with_memory_set_tids.
Qed.

Lemma boot_tree w0 elf pid w : boot_world w0 ->
  ProcessControlBlock_new sym ElfFile_new user_sstatus trap_handler root_inode elf w0 = Ok (pid, w) ->
  pid = IDLE_PID /\ tree_ok (view_of w).
Proof.
  intros (B1 & B2 & B3 & B4 & B5) E. revert E. 
  assert (view_of w0 = mkView ∅ ∅ (RecycleAllocator_new_start 1) ∅ 0) as Ev by (unfold view_of; rewrite B1, B2, B3, B4, B5; by rewrite !fmap_empty).
  intros E. eapply (_ : vlp _ (fun pid v => pid = IDLE_PID /\ tree_ok v) _); [exact Ev|exact E].
  Unshelve. unfold ProcessControlBlock_new. apply vlp_bind, vlp_neutral; [auto with neutral|]. intros [[ms ub] ep].
  apply vlp_bind, vlp_pid_alloc. intros p ids [= <- <-]. apply vlp_bind, vlp_put_pcb. apply vlp_bind.
  eapply vlp_new_task; [cbn [v_fam v_with_fam]; by rewrite lookup_insert_eq|]. intros tid tids [= <- <-]. vskip. vskip. vskip. vskip.
  apply vlp_bind, vlp_with_pcb. intros q Hq. cbn [v_fam v_with_fam] in Hq. rewrite lookup_insert_eq in Hq. injection Hq as E1 E2 E3 E4 E5.
  apply vlp_bind, vlp_register. vskip. apply vlp_ret. split; [done|]. eapply eq_ind; [exact tree_boot|]. unfold view_boot. cbn.
  unfold fam at 1. cbn. rewrite <- E1, <- E2, <- E3, <- E4, <- E5. cbn. rewrite !insert_insert_eq. reflexivity.
Qed.


(** C4: the process tree.  In every state the kernel reaches after creating the
    first process, by any sequence of forks, execs, exits, waits, thread
    operations, signals, descriptor operations and scheduling, the families of
    the processes form a tree rooted at the first process: children and parents
    point at each other and no child is listed twice, zombies have no children
    and exactly the other processes are registered, each process has a pid in
    use, and a thread that has its resources is listed under its identifier by
    a live process. *)
Theorem process_tree w0 elf pid w1 w : boot_world w0 ->
  ProcessControlBlock_new sym ElfFile_new user_sstatus trap_handler root_inode elf w0 = Ok (pid, w1) ->
  rtc proc_step w1 w -> tree_ok (view_of w).
Proof.
  intros Hb E Hr. destruct (boot_tree w0 elf pid w1 Hb E) as [_ Hok]. clear E. induction Hr; eauto using step_tree.
Qed.



End Operations.

(** ** A run *)

(** A machine with 200 frames, an ELF file without segments and the priority
    scheduler: the first process forks, the child runs and exits, the parent
    waits for it. *)
Definition demo_symbols : LinkerSymbols := mkSymbols 0 0 0 0 0 0 0 0 0 0x80201000.
Definition demo_elf (_ : list Z) : option ElfFile := Some (mkElf [0x7f; 0x45; 0x4c; 0x46] 0 (fun _ => None) 0).
Definition demo_machine : Machine := mkMachine (mkFA 100 300 [] ∅) ∅.
Definition demo_world : World PriorityScheduler :=
  mkWorld (mkKern scheduler_new (mkTasks 0 ∅) None) ∅ 0 ∅ ∅ (RecycleAllocator_new_start 1)
    (match MemorySet_new_bare demo_machine with
     | Ok (ms, m) => mkKernel m ms RecycleAllocator_new
     | Err _ => mkKernel demo_machine (mkMemorySet (mkPageTable 0 []) []) RecycleAllocator_new
     end) (mkHeap ∅ ∅ ∅) 0 ∅.

Definition result_of {A S} (m : M S A) (s : S) : option A := match m s with Ok (a, _) => Some a | Err _ => None end.
Definition after {A S} (m : M S A) (s : S) : S := match m s with Ok (_, s') => s' | Err _ => s end.
Lemma run_after {A S} (m : M S A) (s : S) a : result_of m s = Some a -> m s = Ok (a, after m s).
Proof. unfold result_of, after. destruct (m s) as [[b s']|]; [by intros [= ->]|done]. Qed.

Definition demo_new : M (World PriorityScheduler) Z := ProcessControlBlock_new demo_symbols demo_elf 0 0 (Vfs.mkInodeRef 0 0) [].
Definition demo_1 := after demo_new demo_world.
Definition demo_2 := after (on_kern run_tasks) demo_1.
Definition demo_3 := after (sys_fork demo_symbols) demo_2.
Definition demo_3' := after (on_kern suspend_current_and_run_next) demo_3.
Definition demo_4 := after (on_kern run_tasks) demo_3'.
Definition demo_5 := after (exit_current_and_run_next IDLE_PID 7) demo_4.
Definition demo_6 := after (on_kern run_tasks) demo_5.
Definition demo_7 := after (sys_waitpid IDLE_PID (-1) 0x1000 0) demo_6.

Lemma demo_ids_fit : ids_fit (view_of demo_2).
Proof.
  split; [by vm_compute|].
  assert (map_Forall (fun _ f => ra_current (fa_tids f) + 1 < 2 ^ 64) (v_fam (view_of demo_2))) as Hm by (apply (bool_decide_eq_true_1 _); by vm_compute).
  exact Hm.
Qed.

Abbreviation demo_step := (proc_step demo_symbols demo_elf 0 0).

Lemma kern_step {A} (f : M (Kernel PriorityScheduler) A) w r : result_of (on_kern f) w = Some r -> demo_step w (after (on_kern f) w).
Proof. intros E. exact (ps_kern _ _ _ _ f w r _ (run_after _ _ _ E)). Qed.

Definition user_modeb (w : World PriorityScheduler) : bool :=
  match kn_current (w_kernel w) with
  | Some t => match w_threads w !! t with Some th => bool_decide (is_Some (th_res th)) | None => false end
  | None => false
  end.
Lemma user_modeb_ok w : user_modeb w = true -> user_mode w.
Proof.
  unfold user_modeb. destruct (kn_current _) as [t|] eqn:E1; [|done]. destruct (w_threads w !! t) as [th|] eqn:E2; [|done].
  intros [res E3]%bool_decide_eq_true. exists t, th. split_and!; congruence.
Qed.

Lemma demo_boot : demo_new demo_world = Ok (1, demo_1).
Proof. refine (run_after demo_new demo_world 1 _). by vm_compute. Qed.
Lemma demo_fork : demo_step demo_2 demo_3.
Proof. apply (ps_fork _ _ _ _ _ 2); [apply user_modeb_ok; by vm_compute|exact demo_ids_fit|refine (run_after (sys_fork demo_symbols) demo_2 2 _); by vm_compute]. Qed.
Lemma demo_exit : demo_step demo_4 demo_5.
Proof. refine (ps_exit _ _ _ _ _ 7 Exited _ (run_after (exit_current_and_run_next IDLE_PID 7) demo_4 Exited _)). by vm_compute. Qed.
Lemma demo_wait : demo_step demo_6 demo_7.
Proof. apply (ps_waitpid _ _ _ _ _ (-1) 0x1000 0 2); [apply user_modeb_ok; by vm_compute|refine (run_after (sys_waitpid IDLE_PID (-1) 0x1000 0) demo_6 2 _); by vm_compute]. Qed.

Lemma demo_switch_1 : demo_step demo_1 demo_2.
Proof. unfold demo_2. refine (kern_step run_tasks demo_1 (Some 0) _). by vm_compute. Qed.
Lemma demo_yield : demo_step demo_3 demo_3'.
Proof. unfold demo_3'. refine (kern_step suspend_current_and_run_next demo_3 tt _). by vm_compute. Qed.
Lemma demo_switch_2 : demo_step demo_3' demo_4.
Proof. unfold demo_4. refine (kern_step run_tasks demo_3' (Some 1) _). by vm_compute. Qed.
Lemma demo_switch_3 : demo_step demo_5 demo_6.
Proof. unfold demo_6. refine (kern_step run_tasks demo_5 (Some 0) _). by vm_compute. Qed.

Lemma demo_run : rtc demo_step demo_1 demo_6.
Proof.
  exact (rtc_l _ _ _ _ demo_switch_1 (rtc_l _ _ _ _ demo_fork (rtc_l _ _ _ _ demo_yield (rtc_l _ _ _ _ demo_switch_2
    (rtc_l _ _ _ _ demo_exit (rtc_once _ _ demo_switch_3)))))).
Qed.

(** The parent has the child while it is a zombie, and nothing afterwards. *)
Lemma process_tree_witness : ProcessTree.tree_ok IDLE_PID (view_of demo_6) /\ ProcessTree.tree_ok IDLE_PID (view_of demo_7) /\
  (pcb_children <$> w_procs demo_6 !! 1) = Some [2] /\ (pcb_is_zombie <$> w_procs demo_6 !! 2) = Some true /\
  (pcb_children <$> w_procs demo_7 !! 1) = Some [] /\ w_procs demo_7 !! 2 = None.
Proof.
  assert (boot_world demo_world) as Hb by done. pose proof demo_boot as E. unfold demo_new in E. pose proof demo_run as Hr.
  split_and!; [| |vm_compute; reflexivity..].
  - exact (process_tree demo_symbols demo_elf 0 0 (Vfs.mkInodeRef 0 0) demo_world [] 1 demo_1 demo_6 Hb E Hr).
  - exact (process_tree demo_symbols demo_elf 0 0 (Vfs.mkInodeRef 0 0) demo_world [] 1 demo_1 demo_7 Hb E (rtc_r _ _ _ Hr demo_wait)).
Defined.

(** The child makes a second thread, which is given the processor and waits in a
    call, and its main thread exits. *)
Definition demo_two_threads := after (sys_thread_create 0 0 0x1000 0) demo_4.
Definition demo_turn (w : World PriorityScheduler) : World PriorityScheduler :=
  after (on_kern run_tasks) (after (on_kern suspend_current_and_run_next) w).
Definition demo_inside := after hold_process (demo_turn (demo_turn demo_two_threads)).
Definition demo_blocked := after (on_kern run_tasks) (after (exit_current_and_run_next IDLE_PID 7) (demo_turn demo_inside)).

Lemma demo_turn_run w : result_of (on_kern suspend_current_and_run_next) w = Some tt ->
  is_Some (result_of (on_kern run_tasks) (after (on_kern suspend_current_and_run_next) w)) -> rtc demo_step w (demo_turn w).
Proof. intros E1 [r E2]. exact (rtc_l _ _ _ _ (kern_step _ w tt E1) (rtc_once _ _ (kern_step _ _ r E2))). Qed.

Lemma demo_thread_step : demo_step demo_4 demo_two_threads.
Proof.
  refine (ps_thread_create _ _ _ _ demo_4 0x1000 0 1 demo_two_threads _ (run_after (sys_thread_create 0 0 0x1000 0) demo_4 1 _)); [|by vm_compute].
  split; [by vm_compute|].
  assert (map_Forall (fun _ f => ra_current (fa_tids f) + 1 < 2 ^ 64) (v_fam (view_of demo_4))) as Hm by (apply (bool_decide_eq_true_1 _); by vm_compute).
  exact Hm.
Qed.

Lemma demo_turn_1 : rtc demo_step demo_two_threads (demo_turn demo_two_threads).
Proof. apply demo_turn_run; [by vm_compute|by eexists; vm_compute]. Qed.
Lemma demo_turn_2 : rtc demo_step (demo_turn demo_two_threads) (demo_turn (demo_turn demo_two_threads)).
Proof. apply demo_turn_run; [by vm_compute|by eexists; vm_compute]. Qed.
Lemma demo_hold : demo_step (demo_turn (demo_turn demo_two_threads)) demo_inside.
Proof. refine (ps_hold _ _ _ _ _ tt _ (run_after hold_process _ tt _)). by vm_compute. Qed.
Lemma demo_turn_3 : rtc demo_step demo_inside (demo_turn demo_inside).
Proof. apply demo_turn_run; [by vm_compute|by eexists; vm_compute]. Qed.
Lemma demo_exit_2 : demo_step (demo_turn demo_inside) (after (exit_current_and_run_next IDLE_PID 7) (demo_turn demo_inside)).
Proof. refine (ps_exit _ _ _ _ _ 7 Exited _ (run_after (exit_current_and_run_next IDLE_PID 7) _ Exited _)). by vm_compute. Qed.
Lemma demo_switch_4 : demo_step (after (exit_current_and_run_next IDLE_PID 7) (demo_turn demo_inside)) demo_blocked.
Proof. refine (kern_step run_tasks _ (Some 0) _). by vm_compute. Qed.

Lemma demo_trans {w w' w''} : rtc demo_step w w' -> rtc demo_step w' w'' -> rtc demo_step w w''.
Proof. intros H1 H2. by etrans. Qed.

Lemma demo_blocked_run : rtc demo_step demo_1 demo_blocked.
Proof.
  exact (rtc_l _ _ _ _ demo_switch_1 (rtc_l _ _ _ _ demo_fork (rtc_l _ _ _ _ demo_yield (rtc_l _ _ _ _ demo_switch_2
    (rtc_l _ _ _ _ demo_thread_step (demo_trans demo_turn_1 (demo_trans demo_turn_2 (rtc_l _ _ _ _ demo_hold
    (demo_trans demo_turn_3 (rtc_l _ _ _ _ demo_exit_2 (rtc_once _ _ demo_switch_4))))))))))).
Qed.

(** A thread waiting in a call when the main thread of its process exits makes
    the parent's [waitpid] panic; had the stack held nothing it would have
    returned the child. *)
Lemma blocked_thread_breaks_waitpid : rtc demo_step demo_1 demo_blocked /\
  (pcb_is_zombie <$> w_procs demo_blocked !! 2) = Some true /\ map_to_list (w_stacks demo_blocked) = [(2, 2)] /\
  sys_waitpid IDLE_PID (-1) 0x1000 0 demo_blocked = Err Panic /\
  result_of (sys_waitpid IDLE_PID (-1) 0x1000 0) (put_stacks ∅ demo_blocked) = Some 2.
Proof. split; [exact demo_blocked_run|]. split_and!; vm_compute; reflexivity. Qed.

