(* ===== verification/Shell.v ===== *)
(** * Command lines of the user shell (user/src/bin/user_shell.rs)

    The tokenizer, the parser and the text of a command.  A character is its code
    point, a string the list of its characters. *)

From Stdlib Require Import String Ascii.
From S2P Require Import Prelude.

(** An ASCII literal. *)
Fixpoint chars (s : string) : list Z :=
  match s with
  | EmptyString => []
  | String a s' => Z.of_nat (nat_of_ascii a) :: chars s'
  end.

(** [char::is_whitespace]: the code points with the property White_Space. *)
Definition is_whitespace (c : Z) : bool :=
  ((9 <=? c) && (c <=? 13)) || (c =? 32) || (c =? 0x85) || (c =? 0xa0) || (c =? 0x1680)
  || ((0x2000 <=? c) && (c <=? 0x200a)) || (c =? 0x2028) || (c =? 0x2029) || (c =? 0x202f) || (c =? 0x205f) || (c =? 0x3000).

(** [String::is_empty]. *)
Definition is_empty {A : Type} (l : list A) : bool := match l with [] => true | _ => false end.

Definition BACKSLASH : Z := 92.
Definition SINGLE_QUOTE : Z := 39.
Definition DOUBLE_QUOTE : Z := 34.

Inductive shell_error :=
  | Unbalanced
  | EmptyCommand
  | MissingFile.

(** ** Tokens *)

(** The local variables of [tokenize]. *)
Record Lexer := mkLexer { lx_tokens : list (list Z); lx_cur : list Z; lx_quote : option Z; lx_escaped : bool }.

(** [if !cur.is_empty() { tokens.push(mem::take(&mut cur)) }]. *)
Definition flush (s : Lexer) : Lexer :=
  if is_empty (lx_cur s) then s else mkLexer (lx_tokens s ++ [lx_cur s]) [] (lx_quote s) (lx_escaped s).
Definition push_char (c : Z) (s : Lexer) : Lexer := mkLexer (lx_tokens s) (lx_cur s ++ [c]) (lx_quote s) (lx_escaped s).
Definition push_token (t : list Z) (s : Lexer) : Lexer := mkLexer (lx_tokens s ++ [t]) (lx_cur s) (lx_quote s) (lx_escaped s).
Definition set_quote (q : option Z) (s : Lexer) : Lexer := mkLexer (lx_tokens s) (lx_cur s) q (lx_escaped s).
Definition set_escaped (b : bool) (s : Lexer) : Lexer := mkLexer (lx_tokens s) (lx_cur s) (lx_quote s) b.

(** The operators of two characters: [c] and the next one. *)
Definition two_char_op (c next : Z) : option (list Z) :=
  if decide ([c; next] = chars "&&") then Some (chars "&&")
  else if decide ([c; next] = chars "||") then Some (chars "||")
  else if decide ([c; next] = chars ">>") then Some (chars ">>")
  else if decide ([c; next] = chars "2>") then Some (chars "2>")
  else None.

Definition is_operator_char (c : Z) : bool := bool_decide (c ∈ chars ";|&<>").

(** A character outside quotes that begins no operator of two characters. *)
Definition lex_plain (c : Z) (s : Lexer) : Lexer :=
  if (c =? SINGLE_QUOTE) || (c =? DOUBLE_QUOTE) then set_quote (Some c) s
  else if is_operator_char c then push_token [c] (flush s)
  else if is_whitespace c then flush s
  else push_char c s.

(** The loop over the characters; an operator of two consumes the next one. *)
Fixpoint tokenize_loop (input : list Z) (s : Lexer) : Lexer :=
  match input with
  | [] => s
  | c :: rest =>
      if lx_escaped s then tokenize_loop rest (set_escaped false (push_char c s))
      else if c =? BACKSLASH then tokenize_loop rest (set_escaped true s)
      else match lx_quote s with
      | Some q => tokenize_loop rest (if c =? q then set_quote None s else push_char c s)
      | None =>
          match rest with
          | next :: rest' =>
              match two_char_op c next with
              | Some op => tokenize_loop rest' (push_token op (flush s))
              | None => tokenize_loop rest (lex_plain c s)
              end
          | [] => lex_plain c s
          end
      end
  end.

Definition tokenize (input : list Z) : list (list Z) + shell_error :=
  let s := tokenize_loop input (mkLexer [] [] None false) in
  if lx_escaped s || bool_decide (lx_quote s <> None) then inr Unbalanced
  else inl (lx_tokens (flush s)).

(** ** Commands *)

Record Stage := mkStage {
  st_prog : list Z; st_args : list (list Z);
  st_input : option (list Z); st_output : option (list Z); st_stderr : option (list Z); st_append : bool
}.
Definition Stage_default : Stage := mkStage [] [] None None None false.

Inductive Connector := CNone | CAnd | COr.
#[export] Instance Connector_eq_dec : EqDecision Connector.
Proof. solve_decision. Defined.

Record Command := mkCommand { cm_stages : list Stage; cm_background : bool; cm_connector : Connector }.

(** The local variables of [parse_command]. *)
Record Parser := mkParser {
  ps_commands : list Command; ps_stages : list Stage; ps_stage : Stage; ps_background : bool; ps_pending : Connector
}.

Definition finish_stage (p : Parser) : Parser + shell_error :=
  if is_empty (st_prog (ps_stage p)) then inr EmptyCommand
  else inl (mkParser (ps_commands p) (ps_stages p ++ [ps_stage p]) Stage_default (ps_background p) (ps_pending p)).

(** [;], [&], [&&] and [||] end a command. *)
Definition finish_command (tok : list Z) (p : Parser) : Parser + shell_error :=
  match finish_stage p with
  | inr e => inr e
  | inl p =>
      let background := bool_decide (tok = chars "&") || ps_background p in
      inl (mkParser (ps_commands p ++ [mkCommand (ps_stages p) background (ps_pending p)]) [] Stage_default false
             (if decide (tok = chars "&&") then CAnd else if decide (tok = chars "||") then COr else CNone))
  end.

Definition with_stage (f : Stage -> Stage) (p : Parser) : Parser :=
  mkParser (ps_commands p) (ps_stages p) (f (ps_stage p)) (ps_background p) (ps_pending p).

Definition redirect (tok file : list Z) (s : Stage) : Stage :=
  if decide (tok = chars "<") then mkStage (st_prog s) (st_args s) (Some file) (st_output s) (st_stderr s) (st_append s)
  else if decide (tok = chars ">") then mkStage (st_prog s) (st_args s) (st_input s) (Some file) (st_stderr s) false
  else if decide (tok = chars ">>") then mkStage (st_prog s) (st_args s) (st_input s) (Some file) (st_stderr s) true
  else mkStage (st_prog s) (st_args s) (st_input s) (st_output s) (Some file) (st_append s).

Definition add_word (w : list Z) (s : Stage) : Stage :=
  if is_empty (st_prog s) then mkStage w (st_args s) (st_input s) (st_output s) (st_stderr s) (st_append s)
  else mkStage (st_prog s) (st_args s ++ [w]) (st_input s) (st_output s) (st_stderr s) (st_append s).

Definition is_separator (tok : list Z) : bool := bool_decide (tok ∈ [chars ";"; chars "&"; chars "&&"; chars "||"]).
Definition is_redirection (tok : list Z) : bool := bool_decide (tok ∈ [chars "<"; chars ">"; chars ">>"; chars "2>"]).

Fixpoint parse_loop (tokens : list (list Z)) (p : Parser) : Parser + shell_error :=
  match tokens with
  | [] => inl p
  | tok :: rest =>
      if is_separator tok then match finish_command tok p with inl p' => parse_loop rest p' | inr e => inr e end
      else if decide (tok = chars "|") then match finish_stage p with inl p' => parse_loop rest p' | inr e => inr e end
      else if is_redirection tok then
        match rest with
        | [] => inr MissingFile
        | file :: rest' => parse_loop rest' (with_stage (redirect tok file) p)
        end
      else parse_loop rest (with_stage (add_word tok) p)
  end.

(** The end of the line. *)
Definition parse_end (p : Parser) : list Command + shell_error :=
  let last := if negb (is_empty (st_prog (ps_stage p))) || negb (is_empty (ps_stages p)) then finish_stage p else inl p in
  match last with
  | inr e => inr e
  | inl p => inl (if is_empty (ps_stages p) then ps_commands p
                  else ps_commands p ++ [mkCommand (ps_stages p) (ps_background p) (ps_pending p)])
  end.

Definition parse_tokens (tokens : list (list Z)) : list Command + shell_error :=
  match parse_loop tokens (mkParser [] [] Stage_default false CNone) with
  | inl p => parse_end p
  | inr e => inr e
  end.

Definition parse_command (input : list Z) : list Command + shell_error :=
  match tokenize input with
  | inl tokens => parse_tokens tokens
  | inr e => inr e
  end.

(** The text shown for a job. *)
Definition stage_string (s : Stage) : list Z :=
  st_prog s ++ concat (map (fun a => 32 :: a) (st_args s))
  ++ match st_input s with Some f => chars " < " ++ f | None => [] end
  ++ match st_output s with Some f => chars " > " ++ f | None => [] end.
Fixpoint join_stages (l : list Stage) : list Z :=
  match l with
  | [] => []
  | [s] => stage_string s
  | s :: l' => stage_string s ++ chars " | " ++ join_stages l'
  end.
Definition command_string (c : Command) : list Z :=
  join_stages (cm_stages c) ++ (if cm_background c then chars " &" else []).

Example parse_example : parse_command (chars "cat <in | wc >>out && ls -l & pwd") =
  inl [mkCommand [mkStage (chars "cat") [] (Some (chars "in")) None None false;
                  mkStage (chars "wc") [] None (Some (chars "out")) None true] false CNone;
       mkCommand [mkStage (chars "ls") [chars "-l"] None None None false] true CAnd;
       mkCommand [mkStage (chars "pwd") [] None None None false] false CNone].
Proof. vm_compute. reflexivity. Qed.

(** ** What the parser yields *)

(** Words other than the operators. *)
Definition is_word (w : list Z) : bool :=
  negb (is_empty w) && negb (is_separator w) && negb (bool_decide (w = chars "|")) && negb (is_redirection w).
Definition is_file (o : option (list Z)) : bool := match o with Some f => negb (is_empty f) | None => true end.

Record stage_ok (s : Stage) : Prop := {
  so_prog : is_word (st_prog s) = true;
  so_args : Forall (fun w => is_word w = true) (st_args s);
  so_files : is_file (st_input s) = true /\ is_file (st_output s) = true /\ is_file (st_stderr s) = true;
  so_append : st_append s = true -> st_output s <> None
}.
Definition command_ok (c : Command) : Prop := cm_stages c <> [] /\ Forall stage_ok (cm_stages c).

(** A command that follows one in the background is not conditional. *)
Definition may_follow (prev : option Command) (k : Connector) : Prop :=
  match prev with None => k = CNone | Some c => cm_background c = true -> k = CNone end.
Fixpoint linked (prev : option Command) (l : list Command) : Prop :=
  match l with [] => True | c :: l' => may_follow prev (cm_connector c) /\ linked (Some c) l' end.
Definition commands_ok (l : list Command) : Prop := Forall command_ok l /\ linked None l.

Lemma linked_snoc prev l c :
  linked prev (l ++ [c]) <-> linked prev l /\ may_follow (match last l with Some x => Some x | None => prev end) (cm_connector c).
Proof.
  revert prev. induction l as [|x l IH]; intros prev; [cbn; tauto|]. cbn [app linked]. rewrite IH.
  rewrite last_cons. destruct (last l); tauto.
Qed.

(** *** The tokens *)

Definition lexer_ok (s : Lexer) : Prop := Forall (fun t => t <> []) (lx_tokens s).

Lemma flush_ok s : lexer_ok s -> lexer_ok (flush s).
Proof.
  unfold lexer_ok, flush. intros Hs. destruct (lx_cur s) as [|c l]; [done|]. cbn. apply Forall_app. split; [done|]. by constructor.
Qed.
Lemma push_token_ok t s : t <> [] -> lexer_ok s -> lexer_ok (push_token t s).
Proof. intros Ht Hs. apply Forall_app. split; [done|]. by constructor. Qed.
Lemma two_char_op_not_nil c n op : two_char_op c n = Some op -> op <> [].
Proof. unfold two_char_op. repeat case_decide; congruence. Qed.

Lemma tokenize_loop_ok n input s : (length input <= n)%nat -> lexer_ok s -> lexer_ok (tokenize_loop input s).
Proof.
  revert input s. induction n as [|n IH]; intros [|c rest] s Hn Hs; cbn in Hn; try lia; [done..|]. cbn [tokenize_loop].
  assert (forall s, lexer_ok s -> lexer_ok (tokenize_loop rest s)) as Hrest by (intros; apply IH; [lia|done]).
  destruct (lx_escaped s); [by apply Hrest|]. destruct (c =? BACKSLASH); [by apply Hrest|].
  destruct (lx_quote s) as [q|]; [apply Hrest; by destruct (c =? q)|].
  assert (lexer_ok (lex_plain c s)) as Hplain.
  { unfold lex_plain. repeat case_match; [done|by apply push_token_ok, flush_ok|by apply flush_ok|done]. }
  destruct rest as [|next rest']; [done|]. destruct (two_char_op c next) as [op|] eqn:E; [|by apply Hrest].
  apply IH; [cbn in *; lia|]. apply push_token_ok; [by eapply two_char_op_not_nil|by apply flush_ok].
Qed.

Lemma tokenize_ok input tokens : tokenize input = inl tokens -> Forall (fun t => t <> []) tokens.
Proof.
  unfold tokenize. destruct (_ || _); [done|]. intros [= <-]. apply flush_ok. apply (tokenize_loop_ok (length input)); [done|constructor].
Qed.

(** *** The commands *)

Definition pending_ok (prev : option Command) (k : Connector) : Prop := may_follow prev k.

(** A stage that is being read: without a program, it has no arguments. *)
Record partial_ok (s : Stage) : Prop := {
  pa_prog : st_prog s = [] /\ st_args s = [] \/ is_word (st_prog s) = true;
  pa_args : Forall (fun w => is_word w = true) (st_args s);
  pa_files : is_file (st_input s) = true /\ is_file (st_output s) = true /\ is_file (st_stderr s) = true;
  pa_append : st_append s = true -> st_output s <> None
}.

Record parser_ok (p : Parser) : Prop := {
  po_commands : commands_ok (ps_commands p);
  po_stages : Forall stage_ok (ps_stages p);
  po_stage : partial_ok (ps_stage p);
  po_background : ps_background p = false;
  po_pending : may_follow (last (ps_commands p)) (ps_pending p)
}.

Lemma partial_default : partial_ok Stage_default.
Proof. split; cbn; [by left|constructor|done|done]. Qed.

Lemma finish_stage_ok p p' : parser_ok p -> finish_stage p = inl p' -> parser_ok p' /\ ps_stages p' <> [].
Proof.
  intros [H1 H2 [Hp Ha Hf Hpp] H4 H5]. unfold finish_stage. destruct (is_empty _) eqn:E; [done|]. intros [= <-]. split; [|by destruct (ps_stages p)].
  split; cbn; [done| |apply partial_default|done|done]. apply Forall_app. split; [done|]. constructor; [|constructor].
  split; [|done..]. destruct Hp as [[Hp _]|]; [by rewrite Hp in E|done].
Qed.

Lemma add_command_ok l stages bg pend : commands_ok l -> Forall stage_ok stages -> stages <> [] -> may_follow (last l) pend ->
  commands_ok (l ++ [mkCommand stages bg pend]).
Proof.
  intros [H1 H2] Hst Hne Hp. split; [apply Forall_app; split; [done|]; by repeat constructor|]. apply linked_snoc. split; [done|]. cbn. by destruct (last l).
Qed.

Lemma finish_command_ok tok p p' : parser_ok p -> finish_command tok p = inl p' -> parser_ok p'.
Proof.
  intros Hp. unfold finish_command. destruct (finish_stage p) as [p1|] eqn:E; [|done]. intros [= <-].
  destruct (finish_stage_ok p p1 Hp E) as [[H1 H2 H3 H4 H5] Hne]. split; cbn; [by apply add_command_ok|constructor|apply partial_default|done|].
  rewrite last_snoc. cbn. rewrite H4, orb_false_r. intros ->%bool_decide_eq_true. done.
Qed.

Lemma redirect_ok tok file s : file <> [] -> partial_ok s -> partial_ok (redirect tok file s).
Proof.
  intros Hf [Hp Ha (F1 & F2 & F3) Hpp]. assert (is_file (Some file) = true) as HF by by destruct file.
  unfold redirect. repeat case_decide; split; cbn; auto.
Qed.

Lemma add_word_ok w s : is_word w = true -> partial_ok s -> partial_ok (add_word w s).
Proof.
  intros Hw [Hp Ha Hf Hpp]. unfold add_word. destruct (is_empty (st_prog s)) eqn:E; split; cbn; auto.
  - destruct Hp as [[Hp _]|]; [by rewrite Hp in E|by right].
  - apply Forall_app. split; [done|]. by constructor.
Qed.

Lemma with_stage_ok f p : parser_ok p -> (partial_ok (ps_stage p) -> partial_ok (f (ps_stage p))) -> parser_ok (with_stage f p).
Proof. intros [] Hf. split; cbn; auto. Qed.

Lemma parse_loop_ok n tokens p p' : (length tokens <= n)%nat -> Forall (fun t => t <> []) tokens -> parser_ok p ->
  parse_loop tokens p = inl p' -> parser_ok p'.
Proof.
  revert tokens p. induction n as [|n IH]; intros [|tok rest] p Hn Ht Hp; cbn in Hn; try lia; try (by intros [= <-]). cbn [parse_loop].
  apply Forall_cons in Ht as [Htok Ht].
  destruct (is_separator tok) eqn:E1.
  { destruct (finish_command tok p) as [p1|] eqn:E; [|done]. apply IH; [lia|done|by eapply finish_command_ok]. }
  case_decide as E2.
  { destruct (finish_stage p) as [p1|] eqn:E; [|done]. apply IH; [lia|done|]. by eapply finish_stage_ok. }
  destruct (is_redirection tok) eqn:E3.
  { destruct rest as [|file rest']; [done|]. apply Forall_cons in Ht as [Hfile Ht]. apply IH; [cbn in *; lia|done|]. apply with_stage_ok; [done|]. by apply redirect_ok. }
  apply IH; [lia|done|]. apply with_stage_ok; [done|]. apply add_word_ok. unfold is_word. rewrite E1, E3, bool_decide_eq_false_2 by done. by destruct tok.
Qed.

(** C35: the commands of a line are well formed.  Whatever the user types, a
    line that parses yields commands that each have at least one stage, whose
    programs and arguments are words and never operators, whose files are not
    empty, and where [&&] and [||] never follow a command in the background or
    begin the line. *)
Theorem parse_command_well_formed input cmds : parse_command input = inl cmds -> commands_ok cmds.
Proof.
  unfold parse_command. destruct (tokenize input) as [tokens|] eqn:Et; [|done]. apply tokenize_ok in Et. unfold parse_tokens.
  destruct (parse_loop _ _) as [p|] eqn:Ep; [|done].
  assert (parser_ok p) as Hp.
  { eapply (parse_loop_ok (length tokens) tokens _ p); [done|done| |exact Ep]. split; cbn; [by split|constructor|apply partial_default|done|done]. }
  unfold parse_end. cbv zeta. match goal with |- match ?x with inl _ => _ | inr _ => _ end = _ -> _ => set (fin := x) end.
  destruct fin as [p1|] eqn:El; [|done]. intros [= <-].
  assert (parser_ok p1) as [H1 H2 _ _ H5].
  { unfold fin in El. destruct (_ || _); [by eapply finish_stage_ok|by injection El as <-]. }
  destruct (ps_stages p1) as [|x l] eqn:E; [done|]. cbn. by apply add_command_ok.
Qed.

Lemma parse_command_well_formed_witness : exists cmds, parse_command (chars "cat <in | wc >>out && ls -l & pwd") = inl cmds /\ commands_ok cmds.
Proof. eexists. split; [vm_compute; reflexivity|]. apply (parse_command_well_formed (chars "cat <in | wc >>out && ls -l & pwd")). vm_compute. reflexivity. Defined.

(** ** Writing commands so that they parse back *)

(** A lexeme: an operator, or a word every character of which is escaped. *)
Inductive lexeme := Op (t : list Z) | Word (w : list Z).
Definition lexeme_token (x : lexeme) : list Z := match x with Op t => t | Word w => w end.
Definition render_lexeme (x : lexeme) : list Z :=
  match x with Op t => t ++ [32] | Word w => concat (map (fun c => [BACKSLASH; c]) w) ++ [32] end.
Definition render (l : list lexeme) : list Z := concat (map render_lexeme l).

Definition print_file (op : list Z) (o : option (list Z)) : list lexeme := match o with Some f => [Op op; Word f] | None => [] end.
Definition print_stage (s : Stage) : list lexeme :=
  Word (st_prog s) :: map Word (st_args s) ++ print_file (chars "<") (st_input s)
  ++ print_file (if st_append s then chars ">>" else chars ">") (st_output s) ++ print_file (chars "2>") (st_stderr s).
Fixpoint print_stages (l : list Stage) : list lexeme :=
  match l with
  | [] => []
  | [s] => print_stage s
  | s :: l' => print_stage s ++ Op (chars "|") :: print_stages l'
  end.
(** What stands between a command and the next one. *)
Definition separator (c next : Command) : list Z :=
  if cm_background c then chars "&"
  else match cm_connector next with CNone => chars ";" | CAnd => chars "&&" | COr => chars "||" end.
Fixpoint print_commands (l : list Command) : list lexeme :=
  match l with
  | [] => []
  | c :: l' => print_stages (cm_stages c)
      ++ match l' with [] => if cm_background c then [Op (chars "&")] else [] | c' :: _ => [Op (separator c c')] end
      ++ print_commands l'
  end.

(** *** Tokens *)

Definition operators : list (list Z) :=
  [chars ";"; chars "|"; chars "&"; chars "<"; chars ">"; chars "&&"; chars "||"; chars ">>"; chars "2>"].
Definition lexeme_ok (x : lexeme) : Prop := match x with Op t => t ∈ operators | Word w => w <> [] end.

Lemma tokenize_escaped w toks cur rest :
  tokenize_loop (concat (map (fun c => [BACKSLASH; c]) w) ++ rest) (mkLexer toks cur None false) =
  tokenize_loop rest (mkLexer toks (cur ++ w) None false).
Proof.
  revert cur. induction w as [|c w IH]; intros cur; [by rewrite app_nil_r|]. cbn [map concat app]. cbn [tokenize_loop].
  cbn [lx_escaped lx_tokens lx_cur lx_quote]. replace (BACKSLASH =? BACKSLASH) with true by done.
  unfold set_escaped, push_char. cbn [lx_escaped lx_tokens lx_cur lx_quote]. rewrite IH. by rewrite <- app_assoc.
Qed.

Lemma tokenize_lexeme x toks rest : lexeme_ok x ->
  tokenize_loop (render_lexeme x ++ rest) (mkLexer toks [] None false) = tokenize_loop rest (mkLexer (toks ++ [lexeme_token x]) [] None false).
Proof.
  destruct x as [t|w]; cbn [lexeme_ok render_lexeme lexeme_token].
  - unfold operators. rewrite !elem_of_cons. intros Ht. assert (forall c, two_char_op 32 c = None) as Hsp.
    { intros c. unfold two_char_op. by repeat case_decide. }
    destruct_or! Ht; [subst t..|by apply elem_of_nil in Ht]; cbn -[two_char_op]; destruct rest as [|c rest]; rewrite ?Hsp; reflexivity.
  - intros Hw. rewrite <- app_assoc, tokenize_escaped. cbn [app]. destruct w as [|c w]; [done|]. cbn [tokenize_loop lx_escaped lx_quote].
    assert (forall d, two_char_op 32 d = None) as Hsp by (intros d; unfold two_char_op; by repeat case_decide).
    replace (32 =? BACKSLASH) with false by done. destruct rest as [|d rest]; [done|]. by rewrite Hsp.
Qed.

Lemma tokenize_render l : Forall lexeme_ok l -> tokenize (render l) = inl (map lexeme_token l).
Proof.
  intros Hl. unfold tokenize. enough (forall toks, tokenize_loop (render l) (mkLexer toks [] None false) = mkLexer (toks ++ map lexeme_token l) [] None false) as ->; [done|].
  induction Hl as [|x l Hx _ IH]; intros toks; [by rewrite app_nil_r|]. unfold render. cbn [map concat]. rewrite tokenize_lexeme by done. fold (render l).
  rewrite IH. by rewrite <- app_assoc.
Qed.

(** *** Commands *)

Definition tokens_of (l : list lexeme) : list (list Z) := map lexeme_token l.

Lemma parse_word w rest p : is_word w = true -> parse_loop (w :: rest) p = parse_loop rest (with_stage (add_word w) p).
Proof.
  unfold is_word. rewrite !andb_true_iff, !negb_true_iff, bool_decide_eq_false. intros [[[_ E1] E2] E3]. cbn [parse_loop].
  by rewrite E1, E3, decide_False by done.
Qed.

Lemma parse_args args rest cmds stages s bg pend : Forall (fun w => is_word w = true) args -> is_empty (st_prog s) = false ->
  parse_loop (args ++ rest) (mkParser cmds stages s bg pend) =
  parse_loop rest (mkParser cmds stages (mkStage (st_prog s) (st_args s ++ args) (st_input s) (st_output s) (st_stderr s) (st_append s)) bg pend).
Proof.
  intros Ha. revert s. induction Ha as [|w args Hw _ IH]; intros s Hs; cbn [app]; [rewrite app_nil_r; by destruct s|].
  rewrite parse_word by done. unfold with_stage, add_word. cbn [ps_commands ps_stages ps_stage ps_background ps_pending]. rewrite Hs.
  rewrite IH by done. cbn. by rewrite <- app_assoc.
Qed.

Lemma parse_redirect op f rest p : is_redirection op = true ->
  parse_loop (op :: f :: rest) p = parse_loop rest (with_stage (redirect op f) p).
Proof.
  intros Hr. cbn [parse_loop]. rewrite Hr. unfold is_redirection in Hr. apply bool_decide_eq_true in Hr. rewrite !elem_of_cons in Hr.
  destruct_or! Hr; try (by apply elem_of_nil in Hr); by subst op.
Qed.

Lemma parse_stage s rest cmds stages bg pend : stage_ok s ->
  parse_loop (tokens_of (print_stage s) ++ rest) (mkParser cmds stages Stage_default bg pend) = parse_loop rest (mkParser cmds stages s bg pend).
Proof.
  destruct s as [prog args i o e ap]. intros [Hp Ha _ Happ]. cbn [st_prog st_args st_append st_output] in *. assert (is_empty prog = false) as Hne by by destruct prog.
  unfold tokens_of, print_stage. cbn [map lexeme_token st_prog st_args st_input st_output st_stderr st_append]. rewrite !map_app, map_map. cbn [lexeme_token]. rewrite map_id.
  cbn [app]. rewrite parse_word by done. unfold with_stage, add_word. cbn [ps_commands ps_stages ps_stage ps_background ps_pending Stage_default st_prog st_args st_input st_output st_stderr st_append is_empty].
  rewrite <- !app_assoc, parse_args by done. cbn [st_prog st_args st_input st_output st_stderr st_append app].
  destruct i as [i|], o as [o|], e as [e|], ap; cbn [print_file map lexeme_token app]; rewrite ?parse_redirect by done; unfold with_stage, redirect; cbn;
    try done; by destruct Happ.
Qed.

Lemma parse_stages l rest cmds stages bg pend : Forall stage_ok l -> l <> [] -> exists pre s, l = pre ++ [s] /\ stage_ok s /\
  parse_loop (tokens_of (print_stages l) ++ rest) (mkParser cmds stages Stage_default bg pend) =
  parse_loop rest (mkParser cmds (stages ++ pre) s bg pend).
Proof.
  intros Hl. revert stages. induction Hl as [|s l Hs Hl IH]; intros stages Hne; [done|]. destruct l as [|s' l'].
  - exists [], s. split; [done|]. split; [done|]. cbn [print_stages]. rewrite parse_stage by done. by rewrite app_nil_r.
  - destruct (IH (stages ++ [s]) ltac:(done)) as (pre & x & E & Hx & Ep). exists (s :: pre), x. rewrite E. split; [done|]. split; [done|]. rewrite <- E.
    change (print_stages (s :: s' :: l')) with (print_stage s ++ Op (chars "|") :: print_stages (s' :: l')).
    unfold tokens_of. rewrite map_app. cbn [map lexeme_token]. rewrite <- app_assoc. fold (tokens_of (print_stage s)) (tokens_of (print_stages (s' :: l'))).
    rewrite parse_stage by done. change ((chars "|" :: ?a) ++ rest) with (chars "|" :: (a ++ rest)).
    change (parse_loop (chars "|" :: ?a) ?p) with (match finish_stage p with inl p' => parse_loop a p' | inr e => inr e end).
    unfold finish_stage. cbn [ps_commands ps_stages ps_stage ps_background ps_pending].
    assert (is_empty (st_prog s) = false) as -> by (pose proof (so_prog _ Hs); by destruct (st_prog s)). rewrite Ep. by rewrite <- app_assoc.
Qed.

Lemma finish_last cmds stages s bg pend : stage_ok s ->
  finish_stage (mkParser cmds stages s bg pend) = inl (mkParser cmds (stages ++ [s]) Stage_default bg pend).
Proof.
  intros Hs. unfold finish_stage. cbn [ps_commands ps_stages ps_stage ps_background ps_pending].
  by assert (is_empty (st_prog s) = false) as -> by (pose proof (so_prog _ Hs); by destruct (st_prog s)).
Qed.

Lemma separator_parse c next rest p : (cm_background c = true -> cm_connector next = CNone) ->
  parse_loop (separator c next :: rest) p = match finish_command (separator c next) p with inl p' => parse_loop rest p' | inr e => inr e end /\
  bool_decide (separator c next = chars "&") = cm_background c /\
  (if decide (separator c next = chars "&&") then CAnd else if decide (separator c next = chars "||") then COr else CNone) = cm_connector next.
Proof.
  intros Hb. unfold separator. destruct (cm_background c); [by rewrite Hb|]. by destruct (cm_connector next).
Qed.

Definition finish (r : Parser + shell_error) : list Command + shell_error := match r with inl p => parse_end p | inr e => inr e end.

Lemma parse_print cmds done pend : Forall command_ok cmds ->
  match cmds with [] => True | c :: l => cm_connector c = pend /\ linked (Some c) l end ->
  finish (parse_loop (tokens_of (print_commands cmds)) (mkParser done [] Stage_default false pend)) = inl (done ++ cmds).
Proof.
  intros Hc. revert done pend. induction Hc as [|c l [Hne Hst] Hc IH]; intros done pend Hl; [by rewrite app_nil_r|]. destruct Hl as [Hpend Hl].
  cbn [print_commands]. unfold tokens_of. rewrite map_app. fold (tokens_of (print_stages (cm_stages c))).
  destruct (parse_stages (cm_stages c) (map lexeme_token (match l with [] => if cm_background c then [Op (chars "&")] else [] | c' :: _ => [Op (separator c c')] end
    ++ print_commands l)) done [] false pend Hst Hne) as (pre & s & E & Hs & ->). rewrite app_nil_l.
  destruct l as [|c' l'].
  - destruct c as [st [] k]; cbn [cm_background cm_stages cm_connector] in *; subst pend; rewrite E.
    + change (parse_loop (map lexeme_token ([Op (chars "&")] ++ print_commands [])) ?p) with (match finish_command (chars "&") p with inl p' => inl p' | inr e => inr e end).
      unfold finish_command. rewrite finish_last by done. reflexivity.
    + cbn [map app print_commands parse_loop finish]. unfold parse_end. cbn [ps_stage ps_stages].
      assert (is_empty (st_prog s) = false) as -> by (pose proof (so_prog _ Hs); by destruct (st_prog s)). cbn [negb orb].
      rewrite finish_last by done. cbn [ps_stages ps_commands ps_background ps_pending]. by destruct pre.
  - destruct Hl as [Hf Hl]. cbn [app map lexeme_token]. destruct (separator_parse c c' (map lexeme_token (print_commands (c' :: l'))) (mkParser done pre s false pend) Hf) as (-> & Eb & Ek).
    unfold finish_command. rewrite finish_last by done. cbn [ps_stages ps_commands ps_background ps_pending]. rewrite orb_false_r, Eb, Ek.
    fold (tokens_of (print_commands (c' :: l'))). rewrite (IH _ (cm_connector c')) by (by split). rewrite <- app_assoc. cbn [app].
    by rewrite <- Hpend, <- E; destruct c.
Qed.

Ltac op_in := apply (bool_decide_eq_true_1 _); vm_compute; reflexivity.

Lemma print_stage_ok s : stage_ok s -> Forall lexeme_ok (print_stage s).
Proof.
  intros [Hp Ha (F1 & F2 & F3) _]. assert (forall w, is_word w = true -> w <> []) as Hw by (by intros [|c w]).
  assert (forall op o, op ∈ operators -> is_file o = true -> Forall lexeme_ok (print_file op o)) as Hfile.
  { intros op [f|] Hop Hf; cbn; [|constructor]. constructor; [exact Hop|]. constructor; [by destruct f|constructor]. }
  unfold print_stage. constructor; [by apply Hw|]. rewrite !Forall_app. split_and!.
  - apply Forall_map. eapply Forall_impl; [exact Ha|]. auto.
  - apply Hfile; [|done]. op_in.
  - apply Hfile; [|done]. destruct (st_append s); op_in.
  - apply Hfile; [|done]. op_in.
Qed.

Lemma print_commands_ok l : Forall command_ok l -> Forall lexeme_ok (print_commands l).
Proof.
  assert (forall l, Forall stage_ok l -> Forall lexeme_ok (print_stages l)) as Hst.
  { intros st Hl. induction Hl as [|s st' Hs Hl IH]; [constructor|]. destruct st' as [|s' st']; [by apply print_stage_ok|].
    apply Forall_app. split; [by apply print_stage_ok|]. constructor; [|exact IH]. op_in. }
  intros Hl. induction Hl as [|c l [_ Hc] Hl IH]; [constructor|]. cbn [print_commands]. rewrite !Forall_app. split_and!; [by apply Hst| |done].
  destruct l as [|c' l]; [destruct (cm_background c); [|constructor]|]; (constructor; [|constructor]); cbn [lexeme_ok].
  - op_in.
  - unfold separator. destruct (cm_background c), (cm_connector c'); op_in.
Qed.

(** C34: a command line can express every list of commands.  Any list of
    commands that is well formed in the sense of the parser is the result of
    parsing the line that writes its operators bare and escapes every
    character of its words. *)
Theorem parse_print_roundtrip cmds : commands_ok cmds -> parse_command (render (print_commands cmds)) = inl cmds.
Proof.
  intros [Hc Hl]. unfold parse_command. rewrite tokenize_render by by apply print_commands_ok. apply (parse_print cmds [] CNone Hc). destruct cmds; [done|exact Hl].
Qed.

Definition demo_commands : list Command :=
  [mkCommand [mkStage (chars "cat") [chars "a b"] (Some (chars "in")) None None false;
              mkStage (chars "wc") [] None (Some (chars ">")) None true] false CNone;
   mkCommand [mkStage (chars "ls") [] None None (Some (chars "err")) false] true COr].

Lemma parse_print_roundtrip_witness : commands_ok demo_commands /\
  parse_command (render (print_commands demo_commands)) = inl demo_commands /\
  parse_command (chars "cat a\ b <in | wc >>\> || ls 2>err&") = inl demo_commands.
Proof.
  assert (commands_ok demo_commands) as Hok.
  { split; [|by cbn]. unfold demo_commands. repeat constructor; cbn; try done. }
  split; [exact Hok|]. split; [exact (parse_print_roundtrip demo_commands Hok)|]. vm_compute. reflexivity.
Defined.

(** Quoting does not stop a token from being read as an operator, and an empty
    argument is lost. *)
Lemma quoted_operator_is_operator :
  parse_command (chars "echo '|'") = inr EmptyCommand /\
  parse_command (chars "echo '' x") = parse_command (chars "echo x") /\
  parse_command (chars "echo 12>f") = parse_command (chars "echo 1 2> f").
Proof. by vm_compute. Qed.
