(* ===== verification/LineEditor.v ===== *)
(** * The line editor of the shell (user/src/bin/user_shell.rs)

    The buffer, the cursor and the history, one definition per editing
    command, and [readline] over the bytes that come from the terminal.  What
    the editor prints is left out; an index out of range panics as in the
    source. *)

From Stdlib Require Import String.
From S2P Require Import Prelude Shell.

Record LineEditor := mkEditor {
  ed_buf : list Z; ed_cursor : nat; ed_history : list (list Z); ed_hist_idx : option nat; ed_app_names : list (list Z)
}.

Definition LineEditor_new (app_names : list (list Z)) : LineEditor := mkEditor [] 0 [] None app_names.
Definition MAX_HISTORY : nat := 100.

(** [Vec::insert] and [Vec::remove] panic out of range. *)
Definition vec_insert {A : Type} (i : nat) (x : A) (l : list A) : option (list A) :=
  if decide (i <= length l)%nat then Some (take i l ++ x :: drop i l) else None.
Definition vec_remove_checked {A : Type} (i : nat) (l : list A) : option (list A) :=
  if decide (i < length l)%nat then Some (take i l ++ drop (S i) l) else None.

Definition edit (buf : list Z) (cursor : nat) (e : LineEditor) : LineEditor :=
  mkEditor buf cursor (ed_history e) (ed_hist_idx e) (ed_app_names e).
Definition set_hist_idx (i : option nat) (e : LineEditor) : LineEditor :=
  mkEditor (ed_buf e) (ed_cursor e) (ed_history e) i (ed_app_names e).
Definition set_history (h : list (list Z)) (e : LineEditor) : LineEditor :=
  mkEditor (ed_buf e) (ed_cursor e) h (ed_hist_idx e) (ed_app_names e).

Definition editor_insert (c : Z) : M LineEditor unit :=
  e ← get;
  buf ← unwrap (vec_insert (ed_cursor e) c (ed_buf e));
  put (edit buf (S (ed_cursor e)) e).

(** [self.buf.remove(self.cursor - 1); self.cursor -= 1]. *)
Definition remove_before : M LineEditor unit :=
  e ← get;
  buf ← unwrap (vec_remove_checked (ed_cursor e - 1) (ed_buf e));
  put (edit buf (ed_cursor e - 1) e).

Definition editor_backspace : M LineEditor unit :=
  e ← get; if decide (0 < ed_cursor e)%nat then remove_before else mret tt.

Definition editor_move_left : M LineEditor unit :=
  modify (fun e => if decide (0 < ed_cursor e)%nat then edit (ed_buf e) (ed_cursor e - 1) e else e).
Definition editor_move_right : M LineEditor unit :=
  modify (fun e => if decide (ed_cursor e < length (ed_buf e))%nat then edit (ed_buf e) (S (ed_cursor e)) e else e).
Definition editor_home : M LineEditor unit := modify (fun e => edit (ed_buf e) 0 e).
Definition editor_end : M LineEditor unit := modify (fun e => edit (ed_buf e) (length (ed_buf e)) e).
Definition editor_kill_line : M LineEditor unit := modify (fun e => edit [] 0 e).
Definition editor_kill_to_end : M LineEditor unit := modify (fun e => edit (take (ed_cursor e) (ed_buf e)) (ed_cursor e) e).

Definition editor_delete_char : M LineEditor unit :=
  e ← get;
  if decide (ed_cursor e < length (ed_buf e))%nat then
    buf ← unwrap (vec_remove_checked (ed_cursor e) (ed_buf e));
    put (edit buf (ed_cursor e) e)
  else mret tt.

(** [u8::is_ascii_whitespace]: space, tab, line feed, form feed, return. *)
Definition is_ascii_whitespace (c : Z) : bool := bool_decide (c ∈ [32; 9; 10; 12; 13]).

(** [while self.cursor > 0 && p(self.buf[self.cursor - 1])], with the cursor as
    the bound of the iterations. *)
Definition no_fuel : M LineEditor unit := fun _ => Err NoFuel.
Fixpoint delete_while (p : Z -> bool) (fuel : nat) : M LineEditor unit :=
  get ≫= fun e =>
  if decide (0 < ed_cursor e)%nat then
    c ← unwrap (ed_buf e !! (ed_cursor e - 1)%nat);
    if p c then
      match fuel with
      | O => no_fuel
      | S fuel => remove_before;; delete_while p fuel
      end
    else mret tt
  else mret tt.

Definition editor_delete_word : M LineEditor unit :=
  e ← get; delete_while is_ascii_whitespace (ed_cursor e);;
  e ← get; delete_while (fun c => negb (is_ascii_whitespace c)) (ed_cursor e).

Section Complete.
(** [String::from_utf8_lossy], on the bytes of the string. *)
Context (from_utf8_lossy : list Z -> list Z).

Definition builtins : list (list Z) :=
  map chars ["cd"; "pwd"; "echo"; "exit"; "history"; "jobs"; "fg"; "bg"; "kill"; "help"; "clear"]%string.

Definition starts_with (prefix l : list Z) : bool := bool_decide (take (length prefix) l = prefix).

Definition word_start (buf : list Z) : nat :=
  match rposition (fun b => bool_decide (b ∈ chars " |<")) buf with Some i => S i | None => 0%nat end.

Definition completions (app_names : list (list Z)) (prefix : list Z) : list (list Z) :=
  foldl (fun matches b => if starts_with prefix b && negb (bool_decide (b ∈ matches)) then matches ++ [b] else matches)
    (List.filter (starts_with prefix) app_names) builtins.

Definition editor_complete : M LineEditor unit :=
  e ← get;
  massert (bool_decide (ed_cursor e <= length (ed_buf e))%nat);;
  let start := word_start (take (ed_cursor e) (ed_buf e)) in
  let prefix := from_utf8_lossy (slice start (ed_cursor e - start) (ed_buf e)) in
  match completions (ed_app_names e) prefix with
  | [name] =>
      (* [splice(start..cursor, name)] panics unless [start <= cursor <= len] *)
      massert (bool_decide (start <= ed_cursor e)%nat);;
      let buf := take start (ed_buf e) ++ name ++ drop (ed_cursor e) (ed_buf e) in
      put (edit buf (start + length name) e);;
      editor_insert 32
  | _ => mret tt
  end.

(** ** History *)

Definition editor_history_prev : M LineEditor unit :=
  e ← get;
  if is_empty (ed_history e) then mret tt
  else
    let idx := match ed_hist_idx e with None => (length (ed_history e) - 1)%nat | Some 0%nat => 0%nat | Some (S i) => i end in
    line ← unwrap (ed_history e !! idx);
    put (edit line (length line) (set_hist_idx (Some idx) e)).

Definition editor_history_next : M LineEditor unit :=
  e ← get;
  match ed_hist_idx e with
  | None => mret tt
  | Some i =>
      if decide (i + 1 < length (ed_history e))%nat then
        line ← unwrap (ed_history e !! (i + 1)%nat);
        put (edit line (length line) (set_hist_idx (Some (i + 1)%nat) e))
      else put (edit [] 0 (set_hist_idx None e))
  end.

Definition editor_add_history (line : list Z) : M LineEditor unit :=
  e ← get;
  if is_empty line then mret tt
  else if decide (last (ed_history e) = Some line) then mret tt
  else
    let history := ed_history e ++ [line] in
    let history := if decide (MAX_HISTORY < length history)%nat then drop 1 history else history in
    put (set_hist_idx None (set_history history e)).

(** ** Reading a line *)

Definition CR : Z := 0x0d.
Definition LF : Z := 0x0a.
Definition BS : Z := 0x08.
Definition DEL : Z := 0x7f.
Definition ESC : Z := 0x1b.

(** [readline] over the bytes still to come; a [read] that finds none returns
    at most 0.  The line, if any, and the bytes that are left. *)
Fixpoint editor_readline (input : list Z) : M LineEditor (option (list Z) * list Z) :=
  match input with
  | [] => mret (None, [])
  | c :: input =>
      if (c =? LF) || (c =? CR) then
        e ← get; put (set_hist_idx None (edit [] 0 e));; mret (Some (ed_buf e), input)
      else if (c =? BS) || (c =? DEL) then editor_backspace;; editor_readline input
      else if c =? 0x01 then editor_home;; editor_readline input
      else if c =? 0x05 then editor_end;; editor_readline input
      else if c =? 0x15 then editor_kill_line;; editor_readline input
      else if c =? 0x0b then editor_kill_to_end;; editor_readline input
      else if c =? 0x17 then editor_delete_word;; editor_readline input
      else if c =? 9 then editor_complete;; editor_readline input
      else if c =? 0x04 then
        e ← get; if is_empty (ed_buf e) then mret (None, input) else editor_readline input
      else if c =? ESC then
        match input with
        | [] => mret (None, [])
        | c0 :: input =>
            if negb (c0 =? 91) then editor_readline input
            else match input with
            | [] => mret (None, [])
            | c1 :: input =>
                if c1 =? 65 then editor_history_prev;; editor_readline input
                else if c1 =? 66 then editor_history_next;; editor_readline input
                else if c1 =? 67 then editor_move_right;; editor_readline input
                else if c1 =? 68 then editor_move_left;; editor_readline input
                else if c1 =? 72 then editor_home;; editor_readline input
                else if c1 =? 70 then editor_end;; editor_readline input
                else if c1 =? 51 then
                  match input with
                  | [] => mret (None, [])
                  | tilde :: input => if negb (tilde =? 126) then editor_readline input else editor_delete_char;; editor_readline input
                  end
                else editor_readline input
            end
        end
      else if 0x20 <=? c then editor_insert c;; editor_readline input
      else editor_readline input
  end.

End Complete.

(** The main loop forgets the history after [history -c]. *)
Definition editor_clear_history : M LineEditor unit := modify (set_history []).

(** ** No keystroke makes the editor panic *)

Definition printable (c : Z) : Prop := 0x20 <= c /\ c <> DEL.

Record editor_ok (e : LineEditor) : Prop := {
  eo_cursor : (ed_cursor e <= length (ed_buf e))%nat;
  eo_hist_idx : forall i, ed_hist_idx e = Some i -> (i < length (ed_history e))%nat;
  eo_history : (length (ed_history e) <= MAX_HISTORY)%nat;
  eo_printable : Forall printable (ed_buf e) /\ Forall (Forall printable) (ed_history e) /\ Forall (Forall printable) (ed_app_names e)
}.

Lemma edit_ok buf cursor e : editor_ok e -> (cursor <= length buf)%nat -> Forall printable buf -> editor_ok (edit buf cursor e).
Proof. intros [H1 H2 H3 (H4 & H5 & H6)] Hc Hb. by split. Qed.

(** An operation that keeps the editor well formed. *)
Definition safe (m : M LineEditor unit) : Prop := forall e, editor_ok e -> wp m (fun _ => editor_ok) e.

Lemma safe_modify f : (forall e, editor_ok e -> editor_ok (f e)) -> safe (modify f).
Proof. intros Hf e He. apply wp_modify. auto. Qed.

Lemma vec_insert_ok i x (l : list Z) : (i <= length l)%nat -> vec_insert i x l = Some (take i l ++ x :: drop i l).
Proof. intros Hi. unfold vec_insert. by rewrite decide_True. Qed.

Lemma safe_insert c : printable c -> safe (editor_insert c).
Proof.
  intros Hc e He. pose proof (eo_cursor _ He). destruct (eo_printable _ He) as [Hp _]. unfold editor_insert. wp_simpl. rewrite vec_insert_ok by done.
  eexists. split; [done|]. wp_simpl. apply edit_ok; [done| |].
  - rewrite length_app, length_take. cbn. rewrite length_drop. lia.
  - apply Forall_app. split; [by apply Forall_take|]. constructor; [done|by apply Forall_drop].
Qed.

Lemma remove_before_spec e : editor_ok e -> (0 < ed_cursor e)%nat ->
  wp remove_before (fun _ e' => editor_ok e' /\ ed_cursor e' = (ed_cursor e - 1)%nat) e.
Proof.
  intros He Hc. pose proof (eo_cursor _ He). destruct (eo_printable _ He) as [Hp _]. unfold remove_before, vec_remove_checked. wp_simpl.
  rewrite decide_True by lia. eexists. split; [done|]. wp_simpl. split; [|done]. apply edit_ok; [done| |].
  - rewrite length_app, length_take, length_drop. lia.
  - apply Forall_app. split; [by apply Forall_take|by apply Forall_drop].
Qed.

Lemma safe_backspace : safe editor_backspace.
Proof.
  intros e He. unfold editor_backspace. wp_simpl. case_decide; [|by wp_simpl]. eapply wp_mono; [by apply remove_before_spec|]. by intros _ e' [? _].
Qed.
Lemma safe_move_left : safe editor_move_left.
Proof. apply safe_modify. intros e He. destruct (eo_printable _ He) as [Hp _]. pose proof (eo_cursor _ He). case_decide; [|done]. apply edit_ok; [done|lia|done]. Qed.
Lemma safe_move_right : safe editor_move_right.
Proof. apply safe_modify. intros e He. destruct (eo_printable _ He) as [Hp _]. case_decide; [|done]. apply edit_ok; [done|lia|done]. Qed.
Lemma safe_home : safe editor_home.
Proof. apply safe_modify. intros e He. destruct (eo_printable _ He) as [Hp _]. apply edit_ok; [done|lia|done]. Qed.
Lemma safe_end : safe editor_end.
Proof. apply safe_modify. intros e He. destruct (eo_printable _ He) as [Hp _]. by apply edit_ok. Qed.
Lemma safe_kill_line : safe editor_kill_line.
Proof. apply safe_modify. intros e He. by apply edit_ok. Qed.
Lemma safe_kill_to_end : safe editor_kill_to_end.
Proof.
  apply safe_modify. intros e He. destruct (eo_printable _ He) as [Hp _]. pose proof (eo_cursor _ He). apply edit_ok; [done| |by apply Forall_take].
  rewrite length_take. lia.
Qed.

Lemma safe_delete_char : safe editor_delete_char.
Proof.
  intros e He. destruct (eo_printable _ He) as [Hp _]. unfold editor_delete_char, vec_remove_checked. wp_simpl. case_decide as Hc; [|by wp_simpl]. wp_simpl.
  eexists. split; [done|]. wp_simpl. apply edit_ok; [done| |].
  - rewrite length_app, length_take, length_drop. lia.
  - apply Forall_app. split; [by apply Forall_take|by apply Forall_drop].
Qed.

Lemma delete_while_safe p fuel e : editor_ok e -> (ed_cursor e <= fuel)%nat -> wp (delete_while p fuel) (fun _ => editor_ok) e.
Proof.
  revert e. induction fuel as [|fuel IH]; intros e He Hf; cbn [delete_while]; wp_simpl.
  - rewrite decide_False by lia. by wp_simpl.
  - case_decide as Hc; [|by wp_simpl]. wp_simpl. pose proof (eo_cursor _ He).
    destruct (lookup_lt_is_Some_2 (ed_buf e) (ed_cursor e - 1)) as [c Hx]; [lia|]. exists c. split; [done|]. destruct (p c); [|by wp_simpl].
    wp_simpl. eapply wp_mono; [by apply remove_before_spec|]. cbn beta. intros _ e' [He' Hc']. apply IH; [done|lia].
Qed.

Lemma safe_delete_word : safe editor_delete_word.
Proof.
  intros e He. unfold editor_delete_word. wp_simpl. eapply wp_mono; [by apply delete_while_safe|]. cbn beta. intros _ e' He'. wp_simpl. by apply delete_while_safe.
Qed.

(** *** Completion *)

Lemma word_start_le buf : (word_start buf <= length buf)%nat.
Proof. unfold word_start. destruct (rposition _ _) as [i|] eqn:E; [|lia]. apply rposition_lt in E. lia. Qed.

Lemma completions_printable names prefix : Forall (Forall printable) names -> Forall (Forall printable) (completions names prefix).
Proof.
  intros Hn. unfold completions. assert (Forall (Forall printable) builtins) as Hb.
  { apply (bool_decide_eq_true_1 _). vm_compute. reflexivity. }
  assert (Forall (Forall printable) (List.filter (starts_with prefix) names)) as Hm.
  { apply Forall_forall. intros x Hx%list_elem_of_In%filter_In. rewrite Forall_forall in Hn. apply Hn. apply list_elem_of_In. exact (proj1 Hx). }
  revert Hm. generalize (List.filter (starts_with prefix) names). induction Hb as [|b l Hb _ IH]; intros m Hm; [done|]. cbn [foldl]. apply IH.
  destruct (_ && _); [|done]. apply Forall_app. split; [done|]. by constructor.
Qed.

Lemma safe_complete lossy : safe (editor_complete lossy).
Proof.
  intros e He. destruct (eo_printable _ He) as (Hp & _ & Hn). pose proof (eo_cursor _ He) as Hc. unfold editor_complete. wp_simpl.
  split; [by apply bool_decide_eq_true|]. wp_simpl. set (start := word_start _). pose proof (word_start_le (take (ed_cursor e) (ed_buf e))) as Hs. fold start in Hs.
  rewrite length_take in Hs. pose proof (completions_printable _ (lossy (slice start (ed_cursor e - start) (ed_buf e))) Hn) as Hcp.
  destruct (completions _ _) as [|name [|? ?]]; [by wp_simpl| |by wp_simpl]. apply Forall_cons in Hcp as [Hname _]. wp_simpl.
  split; [apply bool_decide_eq_true; lia|]. wp_simpl. apply safe_insert; [done|]. apply edit_ok; [done| |].
  - rewrite !length_app, length_take, length_drop. lia.
  - rewrite !Forall_app. split_and!; [by apply Forall_take|done|by apply Forall_drop].
Qed.

(** *** History *)

Lemma safe_history_line e i line : editor_ok e -> ed_history e !! i = Some line -> editor_ok (edit line (length line) (set_hist_idx (Some i) e)).
Proof.
  intros [H1 H2 H3 (H4 & H5 & H6)] Hi. split; cbn; [done| |done|].
  - intros j [= <-]. by eapply lookup_lt_Some.
  - split_and!; [|done|done]. exact (Forall_lookup_1 _ _ _ _ H5 Hi).
Qed.

Lemma safe_history_prev : safe editor_history_prev.
Proof.
  intros e He. unfold editor_history_prev. wp_simpl. destruct (is_empty (ed_history e)) eqn:E; [by wp_simpl|]. wp_simpl.
  match goal with |- context [ed_history e !! ?x] => set (idx := x) end.
  destruct (lookup_lt_is_Some_2 (ed_history e) idx) as [line Hl].
  { assert (0 < length (ed_history e))%nat by (destruct (ed_history e); [done|cbn; lia]). pose proof (eo_hist_idx _ He) as Hi. subst idx.
    destruct (ed_hist_idx e) as [[|i]|]; [lia| |lia]. specialize (Hi _ eq_refl). lia. }
  exists line. split; [done|]. wp_simpl. by apply safe_history_line.
Qed.

Lemma safe_history_next : safe editor_history_next.
Proof.
  intros e He. unfold editor_history_next. wp_simpl. destruct (ed_hist_idx e) as [i|] eqn:Ei; [|by wp_simpl]. case_decide as Hi.
  - wp_simpl. destruct (lookup_lt_is_Some_2 _ _ Hi) as [line Hl]. exists line. split; [done|]. wp_simpl. by apply safe_history_line.
  - wp_simpl. destruct He as [H1 H2 H3 (H4 & H5 & H6)]. by split.
Qed.

Lemma safe_add_history line : Forall printable line -> safe (editor_add_history line).
Proof.
  intros Hl e [H1 H2 H3 (H4 & H5 & H6)]. unfold editor_add_history. wp_simpl. destruct (is_empty line); [by wp_simpl|]. case_decide; [by wp_simpl|]. wp_simpl.
  assert (Forall (Forall printable) (ed_history e ++ [line])) as Hh by (apply Forall_app; split; [done|by constructor]).
  split; cbn [ed_buf ed_cursor ed_history ed_hist_idx ed_app_names set_hist_idx set_history]; [done|done| |].
  - case_decide; [|lia]. rewrite length_drop, length_app in *. cbn in *. lia.
  - split_and!; [done| |done]. case_decide; [by apply Forall_drop|done].
Qed.

(** *** Reading *)

Definition readline_post (input : list Z) (r : option (list Z) * list Z) (e : LineEditor) : Prop :=
  editor_ok e /\ r.2 `suffix_of` input /\
  forall line, r.1 = Some line -> Forall printable line /\ ed_buf e = [] /\ ed_hist_idx e = None.

Lemma readline_step lossy m input input' e : safe m -> editor_ok e -> input' `suffix_of` input ->
  (forall e, editor_ok e -> wp (editor_readline lossy input') (readline_post input') e) ->
  wp (m;; editor_readline lossy input') (readline_post input) e.
Proof.
  intros Hm He Hs IH. apply wp_bind. eapply wp_mono; [by apply Hm|]. cbn beta. intros _ e1 He1. eapply wp_mono; [by apply IH|].
  intros r e2 (H1 & H2 & H3). split_and!; [done|by etrans|done].
Qed.

Create HintDb editor.
#[export] Hint Resolve safe_backspace safe_home safe_end safe_kill_line safe_kill_to_end safe_delete_word safe_complete safe_history_prev
  safe_history_next safe_move_left safe_move_right safe_delete_char safe_insert : editor.

Lemma readline_weaken input input' r e : input' `suffix_of` input -> readline_post input' r e -> readline_post input r e.
Proof. intros Hs (H1 & H2 & H3). split_and!; [done|by etrans|done]. Qed.

Lemma readline_safe lossy n input e : (length input <= n)%nat -> editor_ok e -> wp (editor_readline lossy input) (readline_post input) e.
Proof.
  revert input e. induction n as [|n IH]; intros [|c input] e Hn He; cbn in Hn; try lia; try (apply wp_ret; by split_and!).
  assert (forall input', input' `suffix_of` input -> forall e, editor_ok e -> wp (editor_readline lossy input') (readline_post input') e) as Hsub.
  { intros input' Hs e' He'. apply IH; [apply suffix_length in Hs; lia|done]. }
  assert (forall input', input' `suffix_of` input -> forall m, safe m -> forall e, editor_ok e -> wp (m;; editor_readline lossy input') (readline_post (c :: input)) e) as Hstep.
  { intros input' Hs m Hm e' He'. apply (readline_step _ _ _ input'); [done|done|by apply suffix_cons_r|by apply Hsub]. }
  assert (forall input', input' `suffix_of` input -> forall e, editor_ok e -> wp (editor_readline lossy input') (readline_post (c :: input)) e) as Hskip.
  { intros input' Hs e' He'. eapply wp_mono; [by apply Hsub|]. intros r e2. apply readline_weaken. by apply suffix_cons_r. }
  assert (forall e, editor_ok e -> readline_post (c :: input) (None, []) e) as Hend.
  { intros e' He'. split_and!; [done|apply suffix_nil|done]. }
  cbn [editor_readline]. repeat (lazymatch goal with |- wp (if ?b then _ else _) _ _ => destruct b eqn:? end); try (apply Hstep; by auto with editor).
  - wp_simpl. destruct (eo_printable _ He) as [Hp _]. split_and!; [|by apply suffix_cons_r|by intros line [= <-]].
    destruct He as [H1 H2 H3 (H4 & H5 & H6)]. by split.
  - wp_simpl. destruct (is_empty (ed_buf e)); [wp_simpl; split_and!; [done|by apply suffix_cons_r|done]|by apply Hskip].
  - destruct input as [|c0 input]; [apply wp_ret; by apply Hend|]. case_match; [apply Hskip; [by apply suffix_cons_r|done]|].
    destruct input as [|c1 input]; [apply wp_ret; by apply Hend|].
    assert (input `suffix_of` c0 :: c1 :: input) as Hs by (by do 2 apply suffix_cons_r).
    repeat (lazymatch goal with |- wp (if ?b then _ else _) _ _ => destruct b eqn:? end); try (apply Hstep; by auto with editor); [|by apply Hskip].
    destruct input as [|tilde input]; [apply wp_ret; by apply Hend|].
    assert (input `suffix_of` c0 :: c1 :: tilde :: input) as Hs' by (by do 3 apply suffix_cons_r).
    case_match; [by apply Hskip|apply Hstep; by auto with editor].
  - apply Hstep; [done| |done]. apply safe_insert. unfold printable, BS, DEL in *. lia.
  - by apply Hskip.
Qed.

(** C36: no sequence of keys makes the line editor panic.  From a well-formed
    editor, reading any input ends without an index out of range and leaves a
    well-formed editor (the cursor inside the buffer, the position inside the
    history, at most a hundred lines of history, and no control character in the
    buffer, the history and the names it completes); a line that is returned has
    no control characters, leaves the buffer empty and the history position
    unset, and the bytes that are left are the end of the input.  Remembering
    the line and clearing the history keep the editor well formed. *)
Theorem line_editor_safe lossy input e : editor_ok e -> exists line rest e',
  editor_readline lossy input e = Ok ((line, rest), e') /\ editor_ok e' /\ rest `suffix_of` input /\
  (forall l, line = Some l -> Forall printable l /\ ed_buf e' = [] /\ ed_hist_idx e' = None /\
     (exists e2, editor_add_history l e' = Ok (tt, e2) /\ editor_ok e2) /\
     (exists e2, editor_clear_history e' = Ok (tt, e2) /\ editor_ok e2)).
Proof.
  intros He. destruct (wp_run _ _ _ (readline_safe lossy (length input) input e (le_n _) He)) as ([line rest] & e' & E & He' & Hs & Hl).
  exists line, rest, e'. split_and!; [done|done|done|]. intros l El. destruct (Hl l El) as (Hp & Hb & Hi). split_and!; [done|done|done| |].
  - destruct (wp_run _ _ _ (safe_add_history l Hp e' He')) as ([] & e2 & E2 & He2). eauto.
  - eexists. split; [done|]. destruct He' as [H1 _ H3 (H4 & _ & H6)]. split; cbn; [done|by rewrite Hi|lia|split_and!; [done|constructor|done]].
Qed.

(** Typing [lx], moving left, deleting [l] and typing [rm ] in front of it. *)
Lemma line_editor_safe_witness :
  editor_ok (LineEditor_new [chars "ls"; chars "lx"]) /\
  exists e', editor_readline id (chars "lx" ++ [ESC; 91; 68; BS] ++ chars "rm " ++ [LF; 1]) (LineEditor_new [chars "ls"; chars "lx"]) =
    Ok ((Some (chars "rm x"), [1]), e') /\ editor_ok e'.
Proof.
  assert (editor_ok (LineEditor_new [chars "ls"; chars "lx"])) as Hok.
  { split; cbn; [lia|done|unfold MAX_HISTORY; lia|]. split_and!; [constructor|constructor|]. apply (bool_decide_eq_true_1 _). vm_compute. reflexivity. }
  split; [exact Hok|].
  destruct (line_editor_safe id (chars "lx" ++ [ESC; 91; 68; BS] ++ chars "rm " ++ [LF; 1]) _ Hok) as (line & rest & e' & E & He' & _).
  exists e'. split; [|exact He']. rewrite E. vm_compute in E. by injection E as <- <- _.
Defined.
