(* ===== verification/Timer.v ===== *)
(** * Timers (os/src/timer.rs and sys_sleep of os/src/syscall/sync.rs)

    The timers are in a heap that hands out a greatest entry first.  What the
    source uses of [BinaryHeap] is a class; entries that compare equal may
    come out in any order. *)

From S2P Require Import Prelude Scheduler Processor Sync.

Definition TICKS_PER_SEC : Z := 100.
Definition MSEC_PER_SEC : Z := 1000.

(** The time register and the clock frequency of the device tree. *)
Definition get_time_ms (time clock_freq : Z) : Z := time / (clock_freq / MSEC_PER_SEC).
Definition get_time_ticks (time clock_freq : Z) : Z := time / (clock_freq / TICKS_PER_SEC).

Record TimerCondVar := mkTimer { expire_ms : Z; tm_task : Z }.

(** [x as isize], and the negation of the release build. *)
Definition isize_of (x : Z) : Z := if x <? 2 ^ 63 then x else x - 2 ^ 64.
Definition isize_neg (x : Z) : Z := if x =? - 2 ^ 63 then x else - x.

Definition TimerCondVar_cmp (a b : TimerCondVar) : comparison :=
  Z.compare (isize_neg (isize_of (expire_ms a))) (isize_neg (isize_of (expire_ms b))).

(** [BinaryHeap<TimerCondVar>]. *)
Class BinaryHeap (H : Type) := {
  heap_new : H;
  heap_push : TimerCondVar -> H -> H;
  heap_peek : H -> option TimerCondVar;
  heap_pop : H -> H;
  heap_len : H -> nat
}.

Class BinaryHeapLaws (H : Type) `{BinaryHeap H} := {
  heap_elems : H -> list TimerCondVar;
  heap_new_elems : heap_elems heap_new = [];
  heap_push_elems t h : heap_elems (heap_push t h) ≡ₚ t :: heap_elems h;
  heap_len_elems h : heap_len h = length (heap_elems h);
  heap_peek_None h : heap_peek h = None -> heap_elems h = [];
  heap_peek_pop h t : heap_peek h = Some t -> heap_elems h ≡ₚ t :: heap_elems (heap_pop h);
  heap_peek_max h t x : heap_peek h = Some t -> x ∈ heap_elems h -> TimerCondVar_cmp x t <> Gt
}.

Section Timers.
Context {T H : Type} `{Scheduler T} `{BinaryHeap H}.

(** The kernel and [TIMERS]. *)
Record Timed := mkTimed { td_kernel : Kernel T; td_timers : H }.

Definition on_kernel {A : Type} (f : M (Kernel T) A) : M Timed A := fun s =>
  match f (td_kernel s) with Ok (a, k) => Ok (a, mkTimed k (td_timers s)) | Err e => Err e end.

Definition add_timer (expire : Z) (task : Z) : M Timed unit :=
  modify (fun s => mkTimed (td_kernel s) (heap_push (mkTimer expire task) (td_timers s))).

(** The loop of [check_timer]; a round takes a timer from the heap. *)
Definition timer_no_fuel : M Timed unit := fun _ => Err NoFuel.
Fixpoint check_timer_loop (fuel : nat) (current_ms : Z) : M Timed unit :=
  gets (fun s => heap_peek (td_timers s)) ≫= fun o =>
  match o with
  | Some timer =>
      if expire_ms timer <=? current_ms then
        match fuel with
        | O => timer_no_fuel
        | S fuel =>
            on_kernel (kernel_wakeup (tm_task timer));;
            modify (fun s => mkTimed (td_kernel s) (heap_pop (td_timers s)));;
            check_timer_loop fuel current_ms
        end
      else mret tt
  | None => mret tt
  end.

Definition check_timer (current_ms : Z) : M Timed unit :=
  n ← gets (fun s => heap_len (td_timers s)); check_timer_loop n current_ms.

Definition sys_sleep (current_ms ms : Z) : M Timed Z :=
  let expire := usize_wrap (current_ms + ms) in
  c ← on_kernel current_task;
  task ← unwrap c;
  add_timer expire task;;
  on_kernel block_current_and_run_next;;
  mret 0.

End Timers.
Arguments Timed : clear implicits.

(** ** A list is such a heap *)

#[export] Instance TimerCondVar_eq_dec : EqDecision TimerCondVar.
Proof. solve_decision. Defined.

Fixpoint greatest (l : list TimerCondVar) : option TimerCondVar :=
  match l with
  | [] => None
  | x :: l' =>
      match greatest l' with
      | Some y => match TimerCondVar_cmp y x with Gt => Some y | _ => Some x end
      | None => Some x
      end
  end.
Fixpoint remove_first (t : TimerCondVar) (l : list TimerCondVar) : list TimerCondVar :=
  match l with [] => [] | x :: l' => if decide (x = t) then l' else x :: remove_first t l' end.

#[export] Instance list_heap : BinaryHeap (list TimerCondVar) := {
  heap_new := []; heap_push t l := t :: l; heap_peek := greatest;
  heap_pop l := match greatest l with Some t => remove_first t l | None => [] end; heap_len := length
}.

Lemma remove_first_perm t l : t ∈ l -> l ≡ₚ t :: remove_first t l.
Proof.
  induction l as [|x l IH]; intros Hin; [by apply elem_of_nil in Hin|]. cbn. case_decide as E; [by subst|].
  apply elem_of_cons in Hin as [->|Hin]; [done|]. rewrite (IH Hin) at 1. apply Permutation_swap.
Qed.

Lemma greatest_elem l t : greatest l = Some t -> t ∈ l.
Proof.
  revert t. induction l as [|x l IH]; intros t; [done|]. cbn. destruct (greatest l) as [y|]; [|intros [= <-]; left].
  destruct (TimerCondVar_cmp y x); intros [= <-]; try left. right. by apply IH.
Qed.

Lemma cmp_key a b : TimerCondVar_cmp a b <> Gt <-> isize_neg (isize_of (expire_ms a)) <= isize_neg (isize_of (expire_ms b)).
Proof. reflexivity. Qed.

Lemma greatest_max l t x : greatest l = Some t -> x ∈ l -> TimerCondVar_cmp x t <> Gt.
Proof.
  revert t x. induction l as [|y l IH]; intros t x; [done|]. cbn. rewrite elem_of_cons, cmp_key.
  destruct (greatest l) as [z|] eqn:E.
  - assert (forall w, w ∈ l -> isize_neg (isize_of (expire_ms w)) <= isize_neg (isize_of (expire_ms z))) as Hl by (intros w Hw; by apply cmp_key, IH).
    assert (TimerCondVar_cmp z y = Gt /\ isize_neg (isize_of (expire_ms y)) < isize_neg (isize_of (expire_ms z)) \/
      TimerCondVar_cmp z y <> Gt /\ isize_neg (isize_of (expire_ms z)) <= isize_neg (isize_of (expire_ms y))) as [[Ec Hlt]|[Ec Hle]].
    { unfold TimerCondVar_cmp. destruct (Z.compare_spec (isize_neg (isize_of (expire_ms z))) (isize_neg (isize_of (expire_ms y)))); [right; split; [done|lia]..|left; split; [done|lia]]. }
    + rewrite Ec. intros [= <-] [->|Hx]; [lia|by apply Hl].
    + intros Et. assert (t = y) as -> by (destruct (TimerCondVar_cmp z y); congruence). intros [->|Hx]; [lia|]. specialize (Hl x Hx). lia.
  - intros [= <-] [->|Hx]; [lia|]. destruct l as [|w l]; [by apply elem_of_nil in Hx|]. cbn in E. destruct (greatest l); [|done]. by destruct (TimerCondVar_cmp _ _).
Qed.

#[export, refine] Instance list_heap_laws : BinaryHeapLaws (list TimerCondVar) := { heap_elems := id }.
Proof.
  - done.
  - done.
  - done.
  - intros [|x l]; [done|]. cbn. destruct (greatest l); [|done]. by destruct (TimerCondVar_cmp _ _).
  - intros l t E. cbn in *. rewrite E. by apply remove_first_perm, greatest_elem.
  - intros l t x. apply greatest_max.
Defined.

(** ** What the timer interrupt wakes *)

Section Spec.
Context {T H : Type} `{SchedulerLaws T} `{BinaryHeapLaws H}.
Abbreviation Timed := (Timed T H).

(** The tasks with a timer sleep, and have one timer each; the deadlines are
    ones the comparison orders. *)
Record timers_inv (s : Timed) : Prop := {
  ti_kernel : kernel_inv (td_kernel s);
  ti_nodup : NoDup (tm_task <$> heap_elems (td_timers s));
  ti_blocked : forall x, x ∈ heap_elems (td_timers s) -> status_of (td_kernel s) (tm_task x) = Some Blocked /\ 0 <= expire_ms x < 2 ^ 63
}.

Lemma wp_on_kernel {A} (f : M (Kernel T) A) Q (s : Timed) :
  wp (on_kernel f) Q s <-> wp f (fun a k => Q a (mkTimed k (td_timers s))) (td_kernel s).
Proof. unfold wp, on_kernel. by destruct (f (td_kernel s)) as [[a k]|]. Qed.

Definition expired (now : Z) (h : H) : list Z := tm_task <$> filter (fun x => expire_ms x <= now) (heap_elems h).

(** The tasks whose deadline has passed become ready; the rest wait. *)
Record checked (now : Z) (s s' : Timed) : Prop := {
  ch_inv : timers_inv s';
  ch_left : heap_elems (td_timers s') ≡ₚ filter (fun x => now < expire_ms x) (heap_elems (td_timers s));
  ch_status t : status_of (td_kernel s') t = if decide (t ∈ expired now (td_timers s)) then Some Ready else status_of (td_kernel s) t;
  ch_current : kn_current (td_kernel s') = kn_current (td_kernel s)
}.

Lemma cmp_deadline x t : 0 <= expire_ms x < 2 ^ 63 -> 0 <= expire_ms t < 2 ^ 63 -> TimerCondVar_cmp x t <> Gt <-> expire_ms t <= expire_ms x.
Proof.
  intros Hx Ht. rewrite cmp_key. unfold isize_neg, isize_of. destruct (Z.ltb_spec (expire_ms x) (2 ^ 63)); [|lia]. destruct (Z.ltb_spec (expire_ms t) (2 ^ 63)); [|lia].
  destruct (Z.eqb_spec (expire_ms x) (- 2 ^ 63)); [lia|]. destruct (Z.eqb_spec (expire_ms t) (- 2 ^ 63)); [lia|]. lia.
Qed.

Lemma check_nothing now s : timers_inv s -> (forall x, x ∈ heap_elems (td_timers s) -> now < expire_ms x) -> checked now s s.
Proof.
  intros Hi Hl. split; [done| | |done].
  - by rewrite filter_all by (by apply Forall_forall).
  - intros t. rewrite decide_False; [done|]. unfold expired. intros (x & -> & [Hx Hin]%list_elem_of_filter)%list_elem_of_fmap. specialize (Hl x Hin). lia.
Qed.

Lemma check_loop_ok fuel now s : (length (heap_elems (td_timers s)) <= fuel)%nat -> timers_inv s ->
  wp (check_timer_loop fuel now) (fun _ => checked now s) s.
Proof.
  revert s. induction fuel as [|fuel IH]; intros s Hf Hi.
  - assert (heap_elems (td_timers s) = []) as En by (apply nil_length_inv; lia).
    assert (checked now s s) as Hc by (apply check_nothing; [done|]; intros x; by rewrite En; intros ?%elem_of_nil).
    cbn [check_timer_loop]. apply wp_bind, wp_gets. destruct (heap_peek (td_timers s)) as [t|] eqn:Ep; [|by apply wp_ret].
    apply heap_peek_pop in Ep. rewrite En in Ep. by apply Permutation_nil_cons in Ep.
  - cbn [check_timer_loop]. apply wp_bind, wp_gets. destruct (heap_peek (td_timers s)) as [t|] eqn:Ep.
    2: { apply wp_ret, check_nothing; [done|]. intros x. apply heap_peek_None in Ep. rewrite Ep. by intros ?%elem_of_nil. }
    pose proof (heap_peek_pop _ _ Ep) as Hp. assert (t ∈ heap_elems (td_timers s)) as Hin by (rewrite Hp; left).
    destruct (ti_blocked _ Hi t Hin) as [Hb He]. destruct (Z.leb_spec (expire_ms t) now) as [Hle|Hgt].
    2: { apply wp_ret, check_nothing; [done|]. intros x Hx. pose proof (heap_peek_max _ _ _ Ep Hx) as Hm. destruct (ti_blocked _ Hi x Hx) as [_ Hex].
         apply cmp_deadline in Hm; [lia|done|done]. }
    apply wp_bind. rewrite wp_on_kernel. eapply wp_mono; [apply (wakeup_spec _ _ (ti_kernel _ Hi) Hb)|]. intros [] k1 (Hk1 & Hc1 & Hs1 & Hs2 & _).
    apply wp_bind, wp_modify. cbn [td_kernel td_timers]. set (s1 := mkTimed k1 (heap_pop (td_timers s))).
    pose proof (ti_nodup _ Hi) as Hnd. rewrite Hp in Hnd. cbn in Hnd. apply NoDup_cons in Hnd as [Hnt Hnd].
    assert (forall x, x ∈ heap_elems (heap_pop (td_timers s)) -> tm_task x <> tm_task t) as Hne.
    { intros x Hx E. apply Hnt. rewrite <- E. by apply list_elem_of_fmap_2. }
    assert (timers_inv s1) as Hi1.
    { split; cbn; [done|done|]. intros x Hx. rewrite Hs2 by by apply Hne. apply (ti_blocked _ Hi). rewrite Hp. by right. }
    eapply wp_mono; [apply (IH s1); [|done]|].
    { apply Permutation_length in Hp. cbn in *. lia. }
    intros [] s2 [C1 C2 C3 C4]. split; [done| | |by rewrite C4].
    + rewrite C2. unfold s1. cbn. rewrite Hp. rewrite filter_cons_False by lia. done.
    + intros t'. rewrite C3. unfold s1. cbn.
      assert (t' ∈ expired now (td_timers s) <-> t' = tm_task t \/ t' ∈ expired now (heap_pop (td_timers s))) as Hex.
      { unfold expired. rewrite Hp, filter_cons_True by lia. cbn. by rewrite elem_of_cons. }
      destruct (decide (t' ∈ expired now (heap_pop (td_timers s)))) as [Hin'|Hn'].
      * rewrite decide_True by (apply Hex; by right). done.
      * destruct (decide (t' = tm_task t)) as [->|Hne']; [rewrite decide_True by (apply Hex; by left); done|].
        rewrite decide_False by (rewrite Hex; tauto). by apply Hs2.
Qed.

(** Going to sleep adds one timer for the current task. *)
Lemma sleep_ok current_ms ms s c : timers_inv s -> kn_current (td_kernel s) = Some c -> 0 <= current_ms -> 0 <= ms -> current_ms + ms < 2 ^ 63 ->
  wp (sys_sleep current_ms ms) (fun r s' => r = 0 /\ timers_inv s' /\ kn_current (td_kernel s') = None /\
    heap_elems (td_timers s') ≡ₚ mkTimer (current_ms + ms) c :: heap_elems (td_timers s)) s.
Proof.
  intros Hi Hc Hpos Hm Hb. unfold sys_sleep, current_task. apply wp_bind. rewrite wp_on_kernel. apply wp_gets. apply wp_bind, wp_unwrap. exists c. split; [done|].
  destruct s as [k h]. cbn [td_kernel td_timers] in *. apply wp_bind, wp_modify, wp_bind. rewrite wp_on_kernel. cbn [td_kernel td_timers].
  eapply wp_mono; [apply (block_spec k c); [apply (ti_kernel _ Hi)|done]|]. intros [] k' (Hk & Hc' & Hs1 & Hs2 & _). apply wp_ret.
  assert (usize_wrap (current_ms + ms) = current_ms + ms) as -> by (unfold usize_wrap; apply Z.mod_small; lia). split; [done|].
  assert (status_of k c = Some Running) as Hrun by by apply (ki_running _ (ti_kernel _ Hi) c).
  assert (forall x, x ∈ heap_elems h -> tm_task x <> c) as Hne.
  { intros x Hx E. destruct (ti_blocked _ Hi x Hx) as [Hbl _]. cbn in Hbl. rewrite E in Hbl. congruence. }
  split; [|split; [done|apply heap_push_elems]]. split; cbn [td_kernel td_timers].
  - done.
  - rewrite heap_push_elems. cbn. apply NoDup_cons. split; [|apply (ti_nodup _ Hi)]. intros (x & E & Hx)%list_elem_of_fmap. by apply (Hne x Hx).
  - intros x. rewrite heap_push_elems, elem_of_cons. intros [->|Hx]; cbn; [split; [done|lia]|]. rewrite Hs2 by by apply Hne. by apply (ti_blocked _ Hi).
Qed.

(** The kernel with its timers: tasks sleep, are switched, yield, block for
    other reasons and are woken again, and the timer interrupt comes. *)
Inductive timed_step : Timed -> Timed -> Prop :=
  | ts_sleep s now ms r s' : 0 <= now -> 0 <= ms -> now + ms < 2 ^ 63 -> sys_sleep now ms s = Ok (r, s') -> timed_step s s'
  | ts_check s now s' : check_timer now s = Ok (tt, s') -> timed_step s s'
  | ts_run s r s' : kn_current (td_kernel s) = None -> on_kernel run_tasks s = Ok (r, s') -> timed_step s s'
  | ts_yield s s' : on_kernel suspend_current_and_run_next s = Ok (tt, s') -> timed_step s s'
  | ts_block s s' : on_kernel block_current_and_run_next s = Ok (tt, s') -> timed_step s s'
  | ts_tick s r s' : on_kernel on_current_task_timer_tick s = Ok (r, s') -> timed_step s s'
  | ts_wakeup s t s' : status_of (td_kernel s) t = Some Blocked -> t ∉ tm_task <$> heap_elems (td_timers s) ->
      on_kernel (kernel_wakeup t) s = Ok (tt, s') -> timed_step s s'.

(** Statuses of the sleepers are kept when another task's status changes. *)
Lemma timers_change s k t st : timers_inv s -> kernel_inv k -> status_set (td_kernel s) k t st ->
  status_of (td_kernel s) t <> Some Blocked \/ t ∉ tm_task <$> heap_elems (td_timers s) -> timers_inv (mkTimed k (td_timers s)).
Proof.
  intros Hi Hk (_ & Hs & _) Hor. split; cbn; [done|apply (ti_nodup _ Hi)|]. intros x Hx. destruct (ti_blocked _ Hi x Hx) as [Hb He]. split; [|done].
  rewrite Hs; [done|]. intros E. destruct Hor as [Hn|Hn]; [congruence|]. apply Hn. rewrite <- E. by apply list_elem_of_fmap_2.
Qed.

Lemma current_needed {A} (f : Z -> M (Kernel T) A) k r : kn_current k = None -> (c ← take_current_task; task ← unwrap c; f task) k = Ok r -> False.
Proof. intros Hc E. unfold take_current_task, mbind, M_bind in E. cbn in E. by rewrite Hc in E. Qed.

Lemma timed_step_inv s s' : timers_inv s -> timed_step s s' -> timers_inv s'.
Proof.
  intros Hi Hst. pose proof (ti_kernel _ Hi) as Hk.
  destruct Hst as [s now ms r s' Hnow Hms Hb E|s now s' E|s r s' Hc E|s s' E|s s' E|s r s' E|s t s' Ht Hnt E].
  - destruct (kn_current (td_kernel s)) as [c|] eqn:Hc.
    + by destruct (wp_Ok _ _ _ _ _ (sleep_ok now ms s c Hi Hc Hnow Hms Hb) E) as (_ & ? & _).
    + apply bind_Ok in E as (o & s1 & E1 & E). cbn in E1. injection E1 as <- <-. rewrite Hc in E. done.
  - unfold check_timer in E. apply (wp_Ok _ (fun _ => checked now s) s) in E; [apply E|]. apply wp_bind, wp_gets. apply check_loop_ok; [|done]. by rewrite heap_len_elems.
  - assert (wp (on_kernel run_tasks) (fun _ => timers_inv) s) as Hw; [|exact (wp_Ok _ _ _ _ _ Hw E)].
    rewrite wp_on_kernel. eapply wp_mono; [by apply run_tasks_spec|]. intros [t|] k (Hk' & _ & Hset).
    + destruct Hset as [Hr Hset]. eapply timers_change; [done|done|exact Hset|left; congruence].
    + destruct Hset as [_ Hs]. split; cbn; [done|apply (ti_nodup _ Hi)|]. intros x Hx. rewrite Hs. by apply (ti_blocked _ Hi).
  - destruct (kn_current (td_kernel s)) as [c|] eqn:Hc.
    2: { unfold on_kernel in E. destruct (suspend_current_and_run_next (td_kernel s)) as [r|] eqn:E'; [|done]. by destruct (current_needed _ _ _ Hc E'). }
    assert (wp (on_kernel suspend_current_and_run_next) (fun _ => timers_inv) s) as Hw; [|exact (wp_Ok _ _ _ _ _ Hw E)].
    rewrite wp_on_kernel. eapply wp_mono; [by apply suspend_spec|]. intros [] k (Hk' & _ & Hset). eapply timers_change; [done|done|exact Hset|left].
    apply (ki_running _ Hk) in Hc. congruence.
  - destruct (kn_current (td_kernel s)) as [c|] eqn:Hc.
    2: { unfold on_kernel in E. destruct (block_current_and_run_next (td_kernel s)) as [r|] eqn:E'; [|done]. by destruct (current_needed _ _ _ Hc E'). }
    assert (wp (on_kernel block_current_and_run_next) (fun _ => timers_inv) s) as Hw; [|exact (wp_Ok _ _ _ _ _ Hw E)].
    rewrite wp_on_kernel. eapply wp_mono; [by apply block_spec|]. intros [] k (Hk' & _ & Hset). eapply timers_change; [done|done|exact Hset|left].
    apply (ki_running _ Hk) in Hc. congruence.
  - assert (wp (on_kernel on_current_task_timer_tick) (fun _ => timers_inv) s) as Hw; [|exact (wp_Ok _ _ _ _ _ Hw E)].
    rewrite wp_on_kernel. eapply wp_mono; [by apply tick_spec|]. intros b k (Hk' & _ & Hs). split; cbn; [done|apply (ti_nodup _ Hi)|]. intros x Hx. rewrite Hs. by apply (ti_blocked _ Hi).
  - assert (wp (on_kernel (kernel_wakeup t)) (fun _ => timers_inv) s) as Hw; [|exact (wp_Ok _ _ _ _ _ Hw E)].
    rewrite wp_on_kernel. eapply wp_mono; [by apply wakeup_spec|]. intros [] k (Hk' & _ & Hset). eapply timers_change; [done|done|exact Hset|by right].
Qed.

(** C31: the timer interrupt wakes exactly the sleepers whose time has come.
    In every state that tasks reach from a kernel without timers by sleeping
    (until a deadline below 2^63 ms: a later one stops every sleeper from
    waking, [far_timer_blocks_others]), being switched, yielding, blocking,
    being woken when they do not sleep, and timer interrupts, [check_timer]
    ends; afterwards every task whose deadline has
    passed is ready, no other task has changed its status, the current task is
    the same, and the timers that are left are those whose deadline is still to
    come, each of a task that sleeps. *)
Theorem sleepers_wake_on_time k s now : kernel_inv k -> rtc timed_step (mkTimed k heap_new) s ->
  exists s', check_timer now s = Ok (tt, s') /\ checked now s s'.
Proof.
  intros Hk Hr. assert (timers_inv s) as Hi.
  { assert (timers_inv (mkTimed k (heap_new : H))) as Hstart by (split; cbn; [done|rewrite heap_new_elems; constructor|intros x; rewrite heap_new_elems; by intros ?%elem_of_nil]).
    induction Hr; eauto using timed_step_inv. }
  destruct (wp_run (check_timer now) (fun _ => checked now s) s) as ([] & s' & E & Hc); [|eauto].
  unfold check_timer. apply wp_bind, wp_gets. apply check_loop_ok; [|done]. by rewrite heap_len_elems.
Qed.

(** A deadline past the range of [isize] compares as the most urgent one: while
    such a timer exists, no sleeper wakes. *)
Lemma far_timer_blocks_others now s x : x ∈ heap_elems (td_timers s) -> 2 ^ 63 < expire_ms x < 2 ^ 64 -> now < 2 ^ 63 ->
  (forall y, y ∈ heap_elems (td_timers s) -> 0 <= expire_ms y < 2 ^ 64) -> check_timer now s = Ok (tt, s).
Proof.
  intros Hx Hfar Hnow Hall. unfold check_timer, gets, mbind, M_bind. cbn -[check_timer_loop]. rewrite heap_len_elems.
  assert (0 < length (heap_elems (td_timers s)))%nat as Hlen by (destruct (heap_elems (td_timers s)); [by apply elem_of_nil in Hx|cbn; lia]).
  destruct (length _) as [|n]; [lia|]. cbn [check_timer_loop]. unfold gets, mbind, M_bind. cbn -[check_timer_loop].
  destruct (heap_peek (td_timers s)) as [t|] eqn:Ep; [|done]. pose proof (proj1 (cmp_key _ _) (heap_peek_max _ _ _ Ep Hx)) as Hm.
  assert (t ∈ heap_elems (td_timers s)) as Ht by (rewrite (heap_peek_pop _ _ Ep); left). specialize (Hall t Ht).
  assert (2 ^ 63 <= expire_ms t) as Hge.
  { unfold isize_neg, isize_of in Hm. destruct (Z.ltb_spec (expire_ms x) (2 ^ 63)); [lia|]. destruct (Z.ltb_spec (expire_ms t) (2 ^ 63)); [|lia].
    destruct (Z.eqb_spec (expire_ms x - 2 ^ 64) (- 2 ^ 63)); [lia|]. destruct (Z.eqb_spec (expire_ms t) (- 2 ^ 63)); lia. }
  destruct (Z.leb_spec (expire_ms t) now); [lia|done].
Qed.

End Spec.

(** Task 1 sleeps for 30 ms at 5 ms, task 2 runs and sleeps for 10 ms at 7 ms:
    at 20 ms task 2 is woken and task 1 still sleeps. *)
Lemma sleepers_wake_on_time_witness : exists s s' : Timed RoundRobinScheduler (list TimerCondVar),
  rtc timed_step (mkTimed demo_kernel heap_new) s /\ td_timers s = [mkTimer 17 2; mkTimer 35 1] /\
  check_timer 20 s = Ok (tt, s') /\ td_timers s' ≡ₚ [mkTimer 35 1] /\
  status_of (td_kernel s') 2 = Some Ready /\ status_of (td_kernel s') 1 = Some Blocked.
Proof.
  assert (exists s : Timed RoundRobinScheduler (list TimerCondVar), rtc timed_step (mkTimed demo_kernel heap_new) s /\
    td_timers s = [mkTimer 17 2; mkTimer 35 1] /\ status_of (td_kernel s) 1 = Some Blocked) as (s & Hr & Ht & H1).
  { eexists. split.
    - eapply rtc_l; [eapply (ts_sleep _ 5 30); [lia|lia|lia|vm_compute; reflexivity]|].
      eapply rtc_l; [eapply ts_run; vm_compute; reflexivity|].
      eapply rtc_l; [eapply (ts_sleep _ 7 10); [lia|lia|lia|vm_compute; reflexivity]|]. apply rtc_refl.
    - vm_compute. done. }
  destruct (sleepers_wake_on_time demo_kernel s 20 demo_kernel_inv Hr) as (s' & E & [_ Hl Hs _]). exists s, s'.
  split; [exact Hr|]. split; [exact Ht|]. split; [exact E|]. rewrite Ht in Hl. split; [exact Hl|]. unfold expired in Hs. rewrite Ht in Hs.
  split; [rewrite Hs; reflexivity|]. rewrite Hs. exact H1.
Defined.
