(* ===== verification/Files.v ===== *)
(** * Paths and open files (os/src/fs/inode.rs, os/src/syscall/fs.rs)

    The kernel's layer over easy-fs: splitting and normalising paths, opening,
    making, removing and moving files, the open file with its offset, and the
    system calls that resolve a path against the working directory.  Paths are
    the bytes of the [str]; the slash and the dots are ASCII, so cutting at
    them is cutting between characters.  A user buffer is the list of the
    slices it is made of.  [fs] is the mounted file system, and the root inode
    ([ROOT_INODE]) the handle of its inode 0. *)

From S2P Require Import Prelude BlockCache Bitmap Layout Efs Vfs PageTable Process.

(** ** Open flags *)

Definition RDONLY : Z := 0.
Definition WRONLY : Z := 1.
Definition RDWR : Z := 2.
Definition CREATE : Z := 2 ^ 9.
Definition TRUNC : Z := 2 ^ 10.
Definition APPEND : Z := 2 ^ 14.
Definition OpenFlags_all : Z := Z.lor WRONLY (Z.lor RDWR (Z.lor CREATE (Z.lor TRUNC APPEND))).

(** [OpenFlags::from_bits]. *)
Definition OpenFlags_from_bits (bits : Z) : option Z :=
  if Z.ldiff bits OpenFlags_all =? 0 then Some bits else None.

Definition OpenFlags_read_write (flags : Z) : bool * bool :=
  if flags =? 0 then (true, false)
  else if flags_contains flags WRONLY then (false, true)
  else (true, true).

(** ** Paths *)

(** Split a path into (parent_directory_path, file_name). *)
Definition split_path (path : bytes) : bytes * bytes :=
  let stripped := trim_start path in
  let slash_count := (length path - length stripped)%nat in
  match rposition (Z.eqb SLASH) stripped with
  | Some idx => (take (slash_count + idx) path, drop (slash_count + idx + 1) path)
  | None => if (0 <? slash_count)%nat then ([SLASH], stripped) else ([], path)
  end.

(** [path.split('/')], empty pieces included; [cur] is the piece begun. *)
Fixpoint split_all (cur path : bytes) : list bytes :=
  match path with
  | [] => [cur]
  | c :: path' => if c =? SLASH then cur :: split_all [] path' else split_all (cur ++ [c]) path'
  end.

Definition starts_with_slash (path : bytes) : bool :=
  match path with c :: _ => c =? SLASH | [] => false end.

(** One turn of the loop of [normalize_path]. *)
Definition push_component (components : list bytes) (component : bytes) : list bytes :=
  if is_nil component || beq component DOT then components
  else if beq component DOTDOT then removelast components
  else components ++ [component].

(** The components with slashes between them. *)
Fixpoint join_slash (components : list bytes) : bytes :=
  match components with
  | [] => []
  | [c] => c
  | c :: components' => c ++ SLASH :: join_slash components'
  end.

Definition normalize_path (path : bytes) : bytes :=
  let result := join_slash (foldl push_component [] (split_all [] path)) in
  if is_nil result then [SLASH]
  else if starts_with_slash path then [SLASH] ++ result
  else result.

(** [path.trim_matches('/')]. *)
Definition trim_slashes (path : bytes) : bytes := rev (trim_start (rev (trim_start path))).

(** ** Open files *)

Record OSInode := mkOSInode { os_readable : bool; os_writable : bool; os_offset : Z; os_inode : Inode }.

Definition set_offset (offset : Z) (f : OSInode) : OSInode := mkOSInode (os_readable f) (os_writable f) offset (os_inode f).

Definition OSInode_new (readable writable : bool) (inode : Inode) (append : bool) : prog OSInode :=
  offset ← (if append then Inode_size inode else Ret 0);
  Ret (mkOSInode readable writable offset inode).

(** The loop of [read_all], in pieces of 512 bytes; a round that reads nothing
    is the last one. *)
Fixpoint read_all_loop (fuel : nat) (self : OSInode) (v : list Z) : prog (OSInode * list Z) :=
  match fuel with
  | O => Stop NoFuel
  | S fuel =>
      r ← Inode_read_at (os_inode self) (os_offset self) (replicate 512 0);
      if fst r =? 0 then Ret (self, v)
      else read_all_loop fuel (set_offset (usize_wrap (os_offset self + fst r)) self) (v ++ take (Z.to_nat (fst r)) (snd r))
  end.

Definition OSInode_read_all (fuel : nat) (self : OSInode) : prog (OSInode * list Z) := read_all_loop fuel self [].

(** [File::read]: the slices are filled in order until one reads nothing. *)
Fixpoint OSInode_read (self : OSInode) (buffers : list (list Z)) : prog (OSInode * (Z * list (list Z))) :=
  match buffers with
  | [] => Ret (self, (0, []))
  | slice :: buffers' =>
      r ← Inode_read_at (os_inode self) (os_offset self) slice;
      if fst r =? 0 then Ret (self, (0, snd r :: buffers'))
      else
        rest ← OSInode_read (set_offset (usize_wrap (os_offset self + fst r)) self) buffers';
        Ret (fst rest, (fst r + fst (snd rest), snd r :: snd (snd rest)))
  end.

Section Fs.
Context (fs : EasyFileSystem).

(** [File::write]. *)
Fixpoint OSInode_write (self : OSInode) (buffers : list (list Z)) : prog (OSInode * Z) :=
  match buffers with
  | [] => Ret (self, 0)
  | slice :: buffers' =>
      write_size ← Inode_write_at fs (os_inode self) (os_offset self) slice;
      passert (write_size =? Z.of_nat (length slice));;
      rest ← OSInode_write (set_offset (usize_wrap (os_offset self + write_size)) self) buffers';
      Ret (fst rest, write_size + snd rest)
  end.

(** The handle of inode [id]; [ROOT_INODE] is that of inode 0. *)
Definition inode_handle (id : Z) : Inode := Inode_new (EasyFileSystem_get_disk_inode_pos fs id).
Definition get_root_inode : Inode := inode_handle 0.

(** ** Operations on paths *)

Definition lookup_path_from (root : Inode) (path : bytes) : prog (option Inode) := Inode_lookup_path fs root path.

(** The directory a new or removed name is in. *)
Definition parent_directory (root : Inode) (parent_path : bytes) : prog (option Inode) :=
  if is_nil parent_path || beq parent_path [SLASH] then Ret (Some root) else lookup_path_from root parent_path.

Definition open_file_at (root : Inode) (path : bytes) (flags : Z) : prog (option OSInode) :=
  let '(readable, writable) := OpenFlags_read_write flags in
  let append := flags_contains flags APPEND in
  if flags_contains flags CREATE then
    let '(parent_path, file_name) := split_path path in
    parent ← parent_directory root parent_path;
    match parent with
    | None => Ret None
    | Some parent =>
        found ← Inode_find fs parent file_name;
        match found with
        | Some inode =>
            is_dir ← Inode_is_dir inode;
            if is_dir : bool then Ret None
            else
              (if flags_contains flags TRUNC then Inode_clear fs inode else Ret tt);;
              f ← OSInode_new readable writable inode append; Ret (Some f)
        | None =>
            created ← Inode_create fs parent file_name;
            match created with
            | Some inode => f ← OSInode_new readable writable inode append; Ret (Some f)
            | None => Ret None
            end
        end
    end
  else
    found ← lookup_path_from root path;
    match found with
    | Some inode =>
        (if flags_contains flags TRUNC then Inode_clear fs inode else Ret tt);;
        f ← OSInode_new readable writable inode append; Ret (Some f)
    | None => Ret None
    end.

Definition open_file (name : bytes) (flags : Z) : prog (option OSInode) := open_file_at get_root_inode name flags.

Definition make_directory_at (root : Inode) (path : bytes) : prog Z :=
  let '(parent_path, dir_name) := split_path path in
  parent ← parent_directory root parent_path;
  match parent with
  | None => Ret (-1)
  | Some parent =>
      r ← Inode_create_as fs parent dir_name Directory;
      Ret (match r with Some _ => 0 | None => -1 end)
  end.

Definition unlink_at (root : Inode) (path : bytes) : prog Z :=
  let '(parent_path, name) := split_path path in
  parent ← parent_directory root parent_path;
  match parent with
  | None => Ret (-1)
  | Some parent =>
      r ← Inode_unlink fs parent name;
      Ret (match r with Some _ => 0 | None => -1 end)
  end.

(** The closure [resolve_parent] of [rename_at]: absolute paths start at the
    root, relative ones at [root], the working directory. *)
Definition resolve_parent (root : Inode) (parent_path : bytes) : prog (option Inode) :=
  if is_nil parent_path || beq parent_path [SLASH] then
    Ret (Some (if beq parent_path [SLASH] then get_root_inode else root))
  else
    let base := if starts_with_slash parent_path then get_root_inode else root in
    lookup_path_from base parent_path.

(** The loop of [rename_at] over the directories above the new parent: whether
    [source_id] is one of them. *)
Fixpoint is_ancestor (fuel : nat) (source_id : Z) (ancestor : Inode) : prog bool :=
  match fuel with
  | O => Stop NoFuel
  | S fuel =>
      n ← Inode_inode_number fs ancestor;
      if n =? source_id then Ret true
      else
        p ← Inode_parent fs ancestor;
        match p with
        | Some p => is_ancestor fuel source_id p
        | None => Ret false
        end
  end.

(** The move to another directory, once the source is known not to be above
    the new parent. *)
Definition move_entry (source_inode old_parent new_parent : Inode) (source_id : Z) (old_name new_name : bytes) : prog Z :=
  linked ← Inode_link fs new_parent new_name source_id;
  if negb linked then Ret (-1)
  else
    is_dir ← Inode_is_dir source_inode;
    (if is_dir : bool then
       new_parent_id ← Inode_inode_number fs new_parent;
       Inode_set_parent_inode source_inode new_parent_id
     else Ret tt);;
    _ ← Inode_detach old_parent old_name;
    Ret 0.

Definition rename_at (fuel : nat) (root : Inode) (old_path new_path : bytes) : prog Z :=
  let '(old_parent_path, old_name) := split_path old_path in
  let '(new_parent_path, new_name) := split_path new_path in
  let new_name := if is_nil new_name && negb (is_nil old_name) then old_name else new_name in
  if is_nil old_name || is_nil new_name then Ret (-1)
  else
    old_parent ← resolve_parent root old_parent_path;
    match old_parent with
    | None => Ret (-1)
    | Some old_parent =>
        new_parent ← resolve_parent root new_parent_path;
        match new_parent with
        | None => Ret (-1)
        | Some new_parent =>
            old_number ← Inode_inode_number fs old_parent;
            new_number ← Inode_inode_number fs new_parent;
            if old_number =? new_number then
              b ← Inode_rename fs old_parent old_name new_name;
              Ret (if b : bool then 0 else -1)
            else
              source ← Inode_find fs old_parent old_name;
              match source with
              | None => Ret (-1)
              | Some source_inode =>
                  source_id ← Inode_inode_number fs source_inode;
                  is_dir ← Inode_is_dir source_inode;
                  cycle ← (if is_dir : bool then is_ancestor fuel source_id new_parent else Ret false);
                  if cycle : bool then Ret (-1)
                  else move_entry source_inode old_parent new_parent source_id old_name new_name
              end
        end
    end.

(** The names under [/bin]. *)
Definition BIN : bytes := [98; 105; 110].
Definition list_app_names : prog (list bytes) :=
  r ← Inode_find fs get_root_inode BIN;
  match r with Some bin_dir => Inode_ls bin_dir | None => Ret [] end.

(** ** The system calls on paths, for the process [p] *)

Definition resolve_root (p : ProcessControlBlockInner) (path : bytes) : Inode :=
  if starts_with_slash path then get_root_inode else pcb_working_directory p.

(** [sys_open] up to the new descriptor. *)
Definition sys_open_file (p : ProcessControlBlockInner) (path : bytes) (flags : Z) : prog (option OSInode) :=
  flags ← punwrap (OpenFlags_from_bits flags);
  open_file_at (resolve_root p path) path flags.

Definition sys_mkdir (p : ProcessControlBlockInner) (path : bytes) : prog Z := make_directory_at (resolve_root p path) path.
Definition sys_unlink (p : ProcessControlBlockInner) (path : bytes) : prog Z := unlink_at (resolve_root p path) path.
Definition sys_rename (fuel : nat) (p : ProcessControlBlockInner) (old_path new_path : bytes) : prog Z :=
  rename_at fuel (pcb_working_directory p) old_path new_path.

(** The path [sys_chdir] gives to [normalize_path]. *)
Definition chdir_path (old_path path : bytes) : bytes :=
  if starts_with_slash path then
    let trimmed := trim_slashes path in
    if is_nil trimmed then [SLASH] else [SLASH] ++ trimmed
  else if beq path DOT then old_path
  else if beq path DOTDOT then
    if beq old_path [SLASH] then [SLASH]
    else match rposition (Z.eqb SLASH) old_path with
         | Some 0%nat => [SLASH]
         | Some pos => take pos old_path
         | None => [SLASH]
         end
  else if beq old_path [SLASH] then [SLASH] ++ path
  else old_path ++ [SLASH] ++ path.

Definition sys_chdir (p : ProcessControlBlockInner) (path : bytes) : prog (Z * ProcessControlBlockInner) :=
  let old_path := pcb_working_directory_path p in
  found ← lookup_path_from (resolve_root p path) path;
  match found with
  | Some new_inode =>
      is_dir ← Inode_is_dir new_inode;
      if negb is_dir then Ret (-1, p)
      else
        let new_path := normalize_path (chdir_path old_path path) in
        Ret (0, set_working_directory_path new_path (set_working_directory new_inode p))
  | None => Ret (-1, p)
  end.

(** The decimal digits of a [usize]; [fuel] digits at most. *)
Fixpoint decimal_loop (fuel : nat) (n : Z) : bytes :=
  match fuel with
  | O => []
  | S fuel => (if n <? 10 then [] else decimal_loop fuel (n / 10)) ++ [48 + n mod 10]
  end.
Definition to_string (n : Z) : bytes := decimal_loop 20 n.

(** The text [sys_getdents] gives for a directory. *)
Definition TOTAL : bytes := [116; 111; 116; 97; 108; 32].
Definition NEWLINE : Z := 10.
Definition dirent_line (dir : Inode) (listing : bytes) (name : bytes) : prog bytes :=
  r ← Inode_find fs dir name;
  entry_type ← match r with
               | Some inode => is_dir ← Inode_is_dir inode; Ret (if is_dir : bool then [100; 32] else [102; 32])
               | None => Ret [63; 32]
               end;
  Ret (listing ++ entry_type ++ name ++ [NEWLINE]).

Definition sys_getdents_listing (p : ProcessControlBlockInner) (path : bytes) : prog (option bytes) :=
  let root := resolve_root p path in
  dir ← (if is_nil path || beq path [SLASH] then Ret (Some root) else lookup_path_from root path);
  match dir with
  | None => Ret None
  | Some dir =>
      is_dir ← Inode_is_dir dir;
      if negb is_dir then Ret None
      else
        entries ← Inode_ls dir;
        listing ← pfold (dirent_line dir) (TOTAL ++ to_string (Z.of_nat (length entries)) ++ [NEWLINE]) entries;
        Ret (Some listing)
  end.

End Fs.
