(* ===== verification/FileTree.v ===== *)
(** * The tree of directories (easy-fs/src/vfs.rs)

    What path resolution means: a [tree_view] says that the inodes of a store
    form a tree of directories, and resolving a path from one of them walks
    the tree and changes nothing. *)

From S2P Require Import Prelude BlockCache Bitmap Layout Tree FileData Codec Efs Vfs VfsProps Directory PageTable Process Files.

(** ** The tree *)

(** A directory has a parent and entries; the root is its own parent. *)
Inductive node := NDir (parent : Z) (entries : list dentry) | NFile.

Section FileTree.
Context (efs : EasyFileSystem).
Abbreviation at_ := (inode_handle efs).

(** The inodes [ft] of the store [s], at rest. *)
Record tree_view (ft : gmap Z node) (s : Store) : Prop := {
  tv_held : st_held s = [];
  tv_fs : st_fs s = false;
  tv_area : 0 <= inode_area_start_block efs;
  tv_number : forall id n, ft !! id = Some n -> is_u32 id /\ inode_area_start_block efs + id / 3 < 2 ^ 32;
  tv_dir : forall id p es, ft !! id = Some (NDir p es) ->
    exists di T, dir_at s efs (at_ id) es false di T /\ di_parent_inode di = p;
  tv_file : forall id, ft !! id = Some NFile -> exists di d, slot s efs (at_ id) di d /\ di_type di = File;
  tv_root : exists es, ft !! 0 = Some (NDir 0 es);
  tv_parent : forall id p es, ft !! id = Some (NDir p es) -> exists q es', ft !! p = Some (NDir q es');
  tv_entry : forall id p es name j, ft !! id = Some (NDir p es) -> dir_lookup name es = Some j -> is_Some (ft !! j);
  tv_up : forall id p es name j q es', ft !! id = Some (NDir p es) -> dir_lookup name es = Some j ->
    ft !! j = Some (NDir q es') -> q = id
}.

(** Where a component leads from [id]. *)
Definition tree_step (ft : gmap Z node) (id : Z) (c : bytes) : option Z :=
  match ft !! id with
  | Some (NDir p es) => if beq c DOT then Some id else if beq c DOTDOT then Some p else dir_lookup c es
  | _ => None
  end.

Fixpoint tree_walk (ft : gmap Z node) (id : Z) (cs : list bytes) : option Z :=
  match cs with
  | [] => Some id
  | c :: cs' => match tree_step ft id c with Some j => tree_walk ft j cs' | None => None end
  end.

Definition is_dir_node (ft : gmap Z node) (id : Z) : bool :=
  match ft !! id with Some (NDir _ _) => true | _ => false end.

(** Where a path leads: a path that ends in a slash must lead to a directory. *)
Definition tree_lookup (ft : gmap Z node) (id : Z) (path : bytes) : option Z :=
  let path := trim_start path in
  match tree_walk ft id (split_slash [] path) with
  | Some j => if ends_with_slash path && negb (is_dir_node ft j) then None else Some j
  | None => None
  end.

(** ** Programs that only read *)

Definition reads {A : Type} (p : prog A) (a : A) (s : Store) : Prop := run p s = Ok (a, s).

Lemma reads_ret {A} (a : A) s : reads (Ret a) a s.
Proof. done. Qed.

Lemma reads_bind {A B} (p : prog A) (f : A -> prog B) a b s : reads p a s -> reads (f a) b s -> reads (p ≫= f) b s.
Proof. unfold reads. intros Hp Hf. rewrite run_bind. unfold mbind, M_bind. by rewrite Hp. Qed.

Lemma reads_pwp {A} (p : prog A) a s : pwp p (fun r s' => r = a /\ s' = s) s -> reads p a s.
Proof. intros H. destruct (pwp_run _ _ _ H) as (r & s' & E & -> & ->). exact E. Qed.

Lemma reads_with_fs {A} (p : prog A) a s : st_fs s = false ->
  reads p a (mkStore (st_blocks s) (st_held s) true) -> reads (with_fs p) a s.
Proof.
  intros Hf Hp. apply reads_pwp, pwp_with_fs; [done|]. unfold pwp, wp. rewrite Hp. split; [done|]. destruct s. cbn in *. by subst.
Qed.

Lemma reads_disk_inode {V} s self di d (f : DiskInode -> prog V) v :
  slot s efs self di d -> st_held s = [] -> reads (f di) v (hold (in_block_id self) s) -> reads (read_disk_inode self f) v s.
Proof.
  intros Hsl Hh Hf. apply reads_pwp. eapply read_disk_inode_spec; [exact Hsl|done|]. unfold pwp, wp. rewrite Hf.
  split; [cbn; by rewrite Hh|]. split; [done|by apply set_held_hold].
Qed.

(** ** The operations of vfs.rs on the tree *)

Context (ft : gmap Z node) (s : Store) (Htv : tree_view ft s).

Lemma node_slot id n : ft !! id = Some n -> exists di d, slot s efs (at_ id) di d /\
  match n with NDir p es => di_type di = Directory /\ di_parent_inode di = p | NFile => di_type di = File end.
Proof using Htv.
  destruct n as [p es|]; intros H; [|by apply (tv_file _ _ Htv)].
  destruct (tv_dir _ _ Htv _ _ _ H) as (di & T & [(d & Hsl) _ Hd _ _] & Hp). exists di, d. split; [done|]. split; [apply Hd|done].
Qed.

Lemma reads_number id n : ft !! id = Some n -> reads (Inode_inode_number efs (at_ id)) id s.
Proof using Htv.
  intros Hid. destruct (tv_number _ _ Htv _ _ Hid) as [Hu Ha]. pose proof (tv_area _ _ Htv) as H0. unfold is_u32 in Hu.
  apply reads_with_fs; [apply Htv|]. unfold reads. cbn [run]. do 2 f_equal.
  unfold inode_handle, Inode_new, EasyFileSystem_get_disk_inode_pos. cbn [in_block_id in_block_offset fst snd].
  change inodes_per_block with 3. change (Z.of_nat INODE_SZ) with 132.
  assert (0 <= id / 3 /\ 0 <= id mod 3 < 3 /\ id = 3 * (id / 3) + id mod 3) as (Hq & Hr & E) by (split; [apply Z.div_pos; lia|split; [apply Z.mod_pos_bound; lia|apply Z.div_mod; lia]]).
  unfold u32_wrap. rewrite !(Z.mod_small (inode_area_start_block efs + id / 3)) by lia.
  rewrite (Z.mod_small (id mod 3 * 132)) by lia. rewrite Z.div_mul by lia.
  replace (inode_area_start_block efs + id / 3 - inode_area_start_block efs) with (id / 3) by lia.
  rewrite (Z.mod_small (id / 3)) by lia. rewrite Z.mod_small by lia. lia.
Qed.

Lemma reads_is_dir id n : ft !! id = Some n -> reads (Inode_is_dir (at_ id)) (is_dir_node ft id) s.
Proof using Htv.
  intros Hid. destruct (node_slot _ _ Hid) as (di & d & Hsl & Hn). eapply reads_disk_inode; [exact Hsl|apply Htv|].
  unfold reads. cbn [run]. do 2 f_equal. unfold DiskInode_is_dir, is_dir_node. rewrite Hid.
  destruct n as [p es|]; [destruct Hn as [-> _]|rewrite Hn]; done.
Qed.

Lemma reads_parent_id id p es : ft !! id = Some (NDir p es) ->
  reads (read_disk_inode (at_ id) (fun disk_inode => Ret (di_parent_inode disk_inode))) p s.
Proof using Htv.
  intros Hid. destruct (node_slot _ _ Hid) as (di & d & Hsl & _ & <-). by eapply reads_disk_inode; [exact Hsl|apply Htv|].
Qed.

Lemma reads_is_root id n : ft !! id = Some n -> reads (Inode_is_root efs (at_ id)) (id =? 0) s.
Proof using Htv. intros Hid. eapply reads_bind; [by eapply reads_number|done]. Qed.

Lemma reads_find id p es name : ft !! id = Some (NDir p es) ->
  reads (Inode_find efs (at_ id) name) (at_ <$> dir_lookup name es) s.
Proof using Htv.
  intros Hid. destruct (tv_dir _ _ Htv _ _ _ Hid) as (di & T & Hda & _).
  apply reads_with_fs; [apply Htv|]. destruct (dir_at_fs _ _ _ _ _ _ _ true Hda) as [Hda' _].
  set (s1 := mkStore _ _ _) in *. destruct (dir_at_inside _ _ _ _ _ _ _ Hda') as (_ & Hd1 & _).
  destruct Hda' as [(d & Hsl) _ _ Hh _]. eapply reads_disk_inode; [exact Hsl|done|].
  apply (reads_bind _ _ (dir_lookup name es)); [|by destruct (dir_lookup name es)]. apply reads_pwp. eapply find_inode_id_spec; [exact Hd1|done].
Qed.

Lemma reads_component id p es c : ft !! id = Some (NDir p es) ->
  reads (Inode_resolve_component efs (at_ id) c) (at_ <$> tree_step ft id c) s.
Proof using Htv.
  intros Hid. unfold Inode_resolve_component, tree_step. rewrite Hid. destruct (beq c DOT); [done|].
  destruct (beq c DOTDOT); [|by eapply reads_find]. eapply reads_bind; [by eapply reads_parent_id|].
  assert (reads (with_fs (Ret (Some (Inode_new (EasyFileSystem_get_disk_inode_pos efs p))))) (Some (at_ p)) s) as Hup
    by (by apply reads_with_fs; [apply Htv|]).
  destruct (Z.eqb_spec p 0) as [->|Hp]; [|exact Hup]. eapply reads_bind; [by eapply reads_is_root|].
  by destruct (Z.eqb_spec id 0) as [->|Hi].
Qed.

Lemma step_node id c j : tree_step ft id c = Some j -> is_Some (ft !! j).
Proof using Htv.
  unfold tree_step. destruct (ft !! id) as [[p es|]|] eqn:Hid; [|done|done]. destruct (beq c DOT); [intros [= <-]; by rewrite Hid|].
  destruct (beq c DOTDOT); [|by eapply tv_entry]. intros [= <-]. destruct (tv_parent _ _ Htv _ _ _ Hid) as (q & es' & ->). done.
Qed.

Lemma walk_node id cs j : is_Some (ft !! id) -> tree_walk ft id cs = Some j -> is_Some (ft !! j).
Proof using Htv.
  revert id. induction cs as [|c cs IH]; intros id Hid; cbn; [by intros [= <-]|].
  destruct (tree_step ft id c) as [k|] eqn:E; [|done]. apply IH. by eapply step_node.
Qed.

Lemma reads_rest id n cs : ft !! id = Some n -> reads (lookup_rest efs (at_ id) cs) (at_ <$> tree_walk ft id cs) s.
Proof using Htv.
  revert id n. induction cs as [|c cs IH]; intros id n Hid; [done|]. cbn [lookup_rest tree_walk].
  eapply reads_bind; [by eapply reads_is_dir|]. unfold is_dir_node, tree_step. rewrite Hid. destruct n as [p es|]; [|done]. cbn [negb].
  eapply reads_bind; [by eapply reads_component|]. unfold tree_step. rewrite Hid.
  destruct (if beq c DOT then _ else _) as [j|] eqn:E; [|done].
  destruct (step_node id c j) as [n Hj]; [unfold tree_step; by rewrite Hid|]. by eapply IH.
Qed.

Lemma reads_lookup id p es path : ft !! id = Some (NDir p es) ->
  reads (Inode_lookup_path efs (at_ id) path) (at_ <$> tree_lookup ft id path) s.
Proof using Htv.
  intros Hid. unfold Inode_lookup_path, tree_lookup. destruct (is_nil path || beq path [SLASH]) eqn:E1.
  { apply orb_true_iff in E1 as [E|E%beq_true]; [by destruct path|by subst]. }
  destruct (beq path DOT) eqn:E2.
  { apply beq_true in E2 as ->. cbn. unfold tree_step. by rewrite Hid. }
  set (path' := trim_start path). destruct (split_slash [] path') as [|c cs] eqn:Es.
  { assert (is_nil path' = true) as Hn; [|rewrite Hn; cbn; by destruct path']. unfold path' in *. clear -Es.
    induction path as [|c path IH]; [done|]. cbn [trim_start] in *. destruct (c =? SLASH) eqn:Ec; [by apply IH|].
    exfalso. cbn [split_slash] in Es. rewrite Ec in Es. cbn [app] in Es. clear -Es. assert ([c] <> []) as Hne by done. revert Es Hne.
    generalize [c]. induction path as [|x path IH]; intros cur; cbn [split_slash]; [by destruct cur|].
    destruct (x =? SLASH); [by destruct cur|]. intros E _. eapply IH; [exact E|by destruct cur]. }
  cbn [tree_walk]. eapply reads_bind; [by eapply reads_component|]. destruct (tree_step ft id c) as [k|] eqn:Ek; [|done]. cbn [fmap option_fmap option_map].
  destruct (step_node _ _ _ Ek) as [n Hk]. eapply reads_bind; [by eapply reads_rest|].
  destruct (tree_walk ft k cs) as [j|] eqn:Ej; [|done]. cbn [fmap option_fmap option_map].
  destruct (walk_node k cs j) as [nj Hj]; [done|done|]. destruct (ends_with_slash path'); [|done]. cbn [andb].
  eapply reads_bind; [by eapply reads_is_dir|]. by destruct (is_dir_node ft j).
Qed.

End FileTree.

(** C5: resolving a path is walking the tree of directories.  In a store whose
    inodes form the tree [ft], [lookup_path] on the handle of a directory never
    panics and never waits for a lock, changes nothing, and gives the handle of
    the inode that the components of the path lead to: [.] stays, [..] goes to
    the parent (the root's is the root), a name goes to its entry, slashes in
    excess do not count; it fails when a component is missing, when one before
    the last is not a directory, and when the path ends in a slash and does not
    lead to a directory. *)
Theorem lookup_path_walks efs ft s id p es path : tree_view efs ft s -> ft !! id = Some (NDir p es) ->
  run (Inode_lookup_path efs (inode_handle efs id) path) s = Ok (inode_handle efs <$> tree_lookup ft id path, s).
Proof. intros Htv Hid. by eapply reads_lookup. Qed.

(** ** A tree of three directories *)

(** The root holds [a], which holds [b]: inodes 0 to 2 in block 2, the entries
    of the first two directories in blocks 4 and 5, which the bitmap in block 3
    has marked. *)
Definition dir_inode (n block parent : Z) : DiskInode := mkInode (32 * n) (block :: replicate 27 0) 0 0 Directory parent.
Definition tree_efs : EasyFileSystem := mkEfs (Bitmap_new 1 1) (Bitmap_new 3 1) 2 4.
Definition put_inode (k : nat) (di : DiskInode) (d : list Z) : list Z := overwrite (132 * k) (DiskInode_store di (replicate 132 0)) d.
Definition tree_inodes : list Z :=
  put_inode 2 (dir_inode 0 0 1) (put_inode 1 (dir_inode 1 5 0) (put_inode 0 (dir_inode 1 4 0) (demo_block 0))).
Definition tree_store : Store :=
  mkStore (<[2 := tree_inodes]> (<[3 := 3 :: replicate 511 255]> (<[4 := overwrite 0 (entry_bytes ([97], 1)) (demo_block 0)]>
    (<[5 := overwrite 0 (entry_bytes ([98], 2)) (demo_block 0)]> demo_device)))) [] false.
Definition tree_nodes : gmap Z node := {[ 0 := NDir 0 [([97], 1)]; 1 := NDir 0 [([98], 2)]; 2 := NDir 1 [] ]}.

Lemma tree_pool : pool tree_store tree_efs.
Proof.
  apply pool_check; [|cbn; lia|by vm_compute|cbn; lia|vm_compute; reflexivity].
  split; [done|]. intros i Hi. cbn in Hi. assert (i = 0) as -> by lia. exists (3 :: replicate 511 255).
  split; [|by apply block_okb_sound].
  split; [vm_compute; reflexivity|apply not_elem_of_nil|by apply Nat.ltb_lt].
Qed.

Lemma demo_slot id di : (id, di) ∈ [(0, dir_inode 1 4 0); (1, dir_inode 1 5 0); (2, dir_inode 0 0 1)] ->
  slot tree_store tree_efs (inode_handle tree_efs id) di tree_inodes.
Proof.
  intros Hin. repeat (apply elem_of_cons in Hin as [[= -> ->]|Hin]); [..|by apply elem_of_nil in Hin];
    (split; [vm_compute; reflexivity|by apply block_okb_sound; vm_compute|vm_compute; split; congruence|vm_compute; reflexivity|vm_compute; reflexivity]).
Qed.

(** A directory with one entry, in block [b]. *)
Lemma tree_dir_one id b parent e : (id, dir_inode 1 b parent) ∈ [(0, dir_inode 1 4 0); (1, dir_inode 1 5 0); (2, dir_inode 0 0 1)] ->
  b ∈ [4; 5] -> entry_ok e -> file_bytes (st_blocks tree_store) [b] 0 32 = entry_bytes e ->
  dir_at tree_store tree_efs (inode_handle tree_efs id) [e] false (dir_inode 1 b parent) [b].
Proof.
  intros Hin Hb He Hbytes.
  assert (file tree_store (dir_inode 1 b parent) [b] 1) as Hf.
  { split; [|apply usableb_sound; repeat (apply elem_of_cons in Hb as [-> |Hb]; [by vm_compute|]); by apply elem_of_nil in Hb|done|done|apply NoDup_singleton|by cbn].
    split; [done| |lia|lia|lia]. intros k Hk. assert (k = 0) as -> by (cbn in Hk; lia). done. }
  split; [by exists tree_inodes; apply demo_slot| | |done|done].
  - split; [exact Hf|apply tree_pool|]. intros id' ->%list_elem_of_singleton.
    repeat (apply elem_of_cons in Hb as [-> |Hb]); [exists 0|exists 1|by apply elem_of_nil in Hb]; (split; [done|]; split; [vm_compute; split; congruence|vm_compute; reflexivity]).
  - split; [exact Hf|done|done|by apply Forall_singleton|]. intros [|k] e' Hk; [injection Hk as <-; exact Hbytes|]. by destruct k.
Qed.

Lemma tree_dir_empty : dir_at tree_store tree_efs (inode_handle tree_efs 2) [] false (dir_inode 0 0 1) [].
Proof.
  assert (file tree_store (dir_inode 0 0 1) [] 0) as Hf.
  { split; [split; [done|lia|lia|lia|lia]|by apply usableb_sound|done|done|apply NoDup_nil_2|by cbn]. }
  split; [by exists tree_inodes; apply demo_slot; do 2 right; left| | |done|done].
  - split; [exact Hf|apply tree_pool|]. intros id Hid. by apply elem_of_nil in Hid.
  - split; [exact Hf|done|done|by apply Forall_nil_2|]. intros k e Hk. by rewrite lookup_nil in Hk.
Qed.

Lemma tree_nodes_lookup id n : tree_nodes !! id = Some n ->
  (id = 0 /\ n = NDir 0 [([97], 1)]) \/ (id = 1 /\ n = NDir 0 [([98], 2)]) \/ (id = 2 /\ n = NDir 1 []).
Proof.
  unfold tree_nodes. intros [[<- <-]|[_ H]]%lookup_insert_Some; [by left|].
  apply lookup_insert_Some in H as [[<- <-]|[_ H]]; [by right; left|]. apply lookup_singleton_Some in H as [<- <-]. by right; right.
Qed.

Lemma tree_lookup_one name e j : dir_lookup name [e] = Some j -> j = snd e.
Proof. unfold dir_lookup, find_entry. cbn. destruct (beq _ _); cbn; [by intros [= <-]|done]. Qed.

Lemma tree_tree_view : tree_view tree_efs tree_nodes tree_store.
Proof.
  assert (entry_ok ([97], 1) /\ entry_ok ([98], 2)) as [Ha Hb].
  { unfold entry_ok, name_ok, is_byte, is_u32, NAME_LENGTH_LIMIT. cbn. split; (split; [repeat constructor; lia|lia]). }
  split; [done|done|done| | | | | | |].
  - intros id n H. apply tree_nodes_lookup in H as [[-> _]|[[-> _]|[-> _]]]; vm_compute; split; (congruence || split; congruence).
  - intros id p es H. apply tree_nodes_lookup in H as [[-> [= -> ->]]|[[-> [= -> ->]]|[-> [= -> ->]]]].
    + exists (dir_inode 1 4 0), [4]. split; [|done]. apply tree_dir_one; [left|left|done|vm_compute; reflexivity].
    + exists (dir_inode 1 5 0), [5]. split; [|done]. apply tree_dir_one; [right; left|right; left|done|vm_compute; reflexivity].
    + exists (dir_inode 0 0 1), []. split; [apply tree_dir_empty|done].
  - intros id H. by apply tree_nodes_lookup in H as [[_ H]|[[_ H]|[_ H]]].
  - by exists [([97], 1)].
  - intros id p es H. apply tree_nodes_lookup in H as [[-> [= -> ->]]|[[-> [= -> ->]]|[-> [= -> ->]]]]; by eexists _, _.
  - intros id p es name j H Hl. apply tree_nodes_lookup in H as [[-> [= -> ->]]|[[-> [= -> ->]]|[-> [= -> ->]]]];
      [apply tree_lookup_one in Hl as ->; done|apply tree_lookup_one in Hl as ->; done|done].
  - intros id p es name j q es' H Hl Hj. apply tree_nodes_lookup in H as [[-> [= -> ->]]|[[-> [= -> ->]]|[-> [= -> ->]]]];
      [apply tree_lookup_one in Hl as ->; by injection Hj as <- _|apply tree_lookup_one in Hl as ->; by injection Hj as <- _|done].
Qed.

(** [/a/./b/../b/] is inode 2. *)
Lemma lookup_path_walks_witness :
  run (Inode_lookup_path tree_efs (inode_handle tree_efs 0) [47; 97; 47; 46; 47; 98; 47; 46; 46; 47; 98; 47]) tree_store =
  Ok (Some (inode_handle tree_efs 2), tree_store).
Proof. exact (lookup_path_walks tree_efs tree_nodes tree_store 0 0 [([97], 1)] _ tree_tree_view eq_refl). Defined.
