(* ===== verification/PathProps.v ===== *)
(** * Cutting and joining paths (os/src/fs/inode.rs): properties

    [normalize_path] as a walk over the components of a path, and the path
    [sys_chdir] stores as the walk from the old one. *)

From S2P Require Import Prelude Vfs VfsProps PageTable Process Files.

(** The components a stored path is made of. *)
Definition no_slash (c : bytes) : Prop := Forall (fun x => x <> SLASH) c.
Record proper (c : bytes) : Prop := {
  pr_not_nil : c <> [];
  pr_not_dot : c <> DOT;
  pr_not_dotdot : c <> DOTDOT;
  pr_no_slash : no_slash c
}.

(** An absolute path without superfluous pieces. *)
Definition render (cs : list bytes) : bytes := SLASH :: join_slash cs.

(** ** Cutting *)

Lemma split_slash_app cur p q : split_slash cur (p ++ SLASH :: q) = split_slash cur p ++ split_slash [] q.
Proof.
  revert cur. induction p as [|c p IH]; intros cur; cbn [app split_slash].
  - change (SLASH =? SLASH) with true. cbn. by destruct (is_nil cur).
  - destruct (c =? SLASH); [|apply IH]. by rewrite IH, app_assoc.
Qed.

Lemma split_slash_word cur c : no_slash c -> split_slash cur c = if is_nil (cur ++ c) then [] else [cur ++ c].
Proof.
  revert cur. induction c as [|x c IH]; intros cur Hc; cbn [split_slash]; [by rewrite app_nil_r|].
  apply Forall_cons in Hc as [Hx Hc]. rewrite (proj2 (Z.eqb_neq _ _)) by done. rewrite IH, <- app_assoc by done. done.
Qed.

Lemma split_slash_components p cur : no_slash cur -> Forall (fun c => c <> [] /\ no_slash c) (split_slash cur p).
Proof.
  revert cur. induction p as [|c p IH]; intros cur Hcur; cbn [split_slash].
  - destruct cur; cbn; [done|]. by apply Forall_singleton.
  - destruct (Z.eqb_spec c SLASH) as [->|Hc].
    + apply Forall_app. split; [|by apply IH; apply Forall_nil]. destruct cur; cbn; [done|]. by apply Forall_singleton.
    + apply IH. apply Forall_app. split; [done|by apply Forall_singleton].
Qed.

Lemma split_slash_trim p : split_slash [] (trim_start p) = split_slash [] p.
Proof. induction p as [|c p IH]; [done|]. cbn [trim_start]. destruct (c =? SLASH) eqn:E; [|done]. cbn [split_slash]. by rewrite E. Qed.

Lemma split_slash_join cs : Forall proper cs -> split_slash [] (join_slash cs) = cs.
Proof.
  induction cs as [|c cs IH]; intros H; [done|]. apply Forall_cons in H as [[Hn _ _ Hs] H].
  assert (split_slash [] c = [c]) as E by (rewrite split_slash_word by done; by destruct c).
  destruct cs as [|c' cs]; [exact E|]. change (join_slash (c :: c' :: cs)) with (c ++ SLASH :: join_slash (c' :: cs)).
  by rewrite split_slash_app, E, IH.
Qed.

Lemma split_slash_render cs : Forall proper cs -> split_slash [] (render cs) = cs.
Proof. intros H. unfold render. change (SLASH :: join_slash cs) with ([] ++ SLASH :: join_slash cs). by rewrite split_slash_app, split_slash_join. Qed.

Lemma trim_start_split p : exists n, p = replicate n SLASH ++ trim_start p.
Proof.
  induction p as [|c p [n IH]]; [by exists 0%nat|]. cbn [trim_start]. destruct (Z.eqb_spec c SLASH) as [->|]; [|by exists 0%nat].
  exists (S n). cbn. by rewrite <- IH.
Qed.

Lemma split_slash_slashes p n : split_slash [] (p ++ replicate n SLASH) = split_slash [] p.
Proof.
  induction n as [|n IH]; [by rewrite app_nil_r|]. rewrite replicate_S_end, app_assoc.
  change [SLASH] with (SLASH :: []). by rewrite split_slash_app, IH, app_nil_r.
Qed.

Lemma split_slash_trim_slashes p : split_slash [] (trim_slashes p) = split_slash [] p.
Proof.
  unfold trim_slashes. rewrite <- (split_slash_trim p). destruct (trim_start_split (rev (trim_start p))) as [n E].
  apply (f_equal (@rev Z)) in E. rewrite rev_involutive, rev_app_distr in E. rewrite E at 2.
  assert (rev (replicate n SLASH) = replicate n SLASH) as ->; [|by rewrite split_slash_slashes].
  clear. induction n as [|n IH]; [done|]. cbn [replicate rev]. by rewrite IH, <- replicate_S_end.
Qed.

(** ** Normalising *)

Lemma push_split_all p cur acc : foldl push_component acc (split_all cur p) = foldl push_component acc (split_slash cur p).
Proof.
  assert (forall acc c, foldl push_component acc (if is_nil c then [] else [c]) = push_component acc c) as H by (by intros ? []).
  revert cur acc. induction p as [|c p IH]; intros cur acc; cbn [split_all split_slash]; [by rewrite H|].
  destruct (c =? SLASH); [|apply IH]. cbn [foldl]. by rewrite foldl_app, H, IH.
Qed.

Lemma removelast_snoc {A} (l : list A) x : removelast (l ++ [x]) = l.
Proof. apply removelast_last. Qed.

Lemma push_proper acc c : Forall proper acc -> c <> [] /\ no_slash c -> Forall proper (push_component acc c).
Proof.
  intros H [Hn Hs]. unfold push_component. destruct c as [|x c]; [done|]. cbn [is_nil orb].
  destruct (beq (x :: c) DOT) eqn:E1; [done|]. destruct (beq (x :: c) DOTDOT) eqn:E2.
  - destruct acc as [|y acc' _] using rev_ind; [done|]. rewrite removelast_snoc. by apply Forall_app in H as [H _].
  - apply Forall_app. split; [done|]. apply Forall_singleton. split; [done| | |done].
    + intros E. by rewrite (proj2 (beq_true _ _) E) in E1.
    + intros E. by rewrite (proj2 (beq_true _ _) E) in E2.
Qed.

Lemma push_all_proper acc cs : Forall proper acc -> Forall (fun c => c <> [] /\ no_slash c) cs -> Forall proper (foldl push_component acc cs).
Proof.
  revert acc. induction cs as [|c cs IH]; intros acc H Hcs; [done|]. apply Forall_cons in Hcs as [Hc Hcs]. cbn.
  apply IH; [by apply push_proper|done].
Qed.

Lemma push_self acc cs : Forall proper cs -> foldl push_component acc cs = acc ++ cs.
Proof.
  revert acc. induction cs as [|c cs IH]; intros acc H; cbn; [by rewrite app_nil_r|]. apply Forall_cons in H as [[Hn Hd Hdd _] H].
  rewrite IH by done. unfold push_component. destruct c as [|x c]; [done|]. cbn [is_nil orb].
  destruct (beq (x :: c) DOT) eqn:E1; [by apply beq_true in E1|]. destruct (beq (x :: c) DOTDOT) eqn:E2; [by apply beq_true in E2|].
  by rewrite <- app_assoc.
Qed.

Lemma join_nil cs : Forall proper cs -> join_slash cs = [] -> cs = [].
Proof. destruct cs as [|c [|c' cs]]; intros H; [done| |]; apply Forall_cons in H as [[Hn _ _ _] _]; cbn; [done|]. by destruct c. Qed.

(** An absolute path is normalised to the walk over its components. *)
Lemma normalize_absolute p : starts_with_slash p = true ->
  normalize_path p = render (foldl push_component [] (split_slash [] p)).
Proof.
  intros Hp. unfold normalize_path. rewrite push_split_all, Hp. set (cs := foldl _ _ _).
  assert (Forall proper cs) as Hcs by (apply push_all_proper; [done|by apply split_slash_components, Forall_nil]).
  destruct (is_nil (join_slash cs)) eqn:E; [|done]. destruct (join_slash cs) eqn:Ej; [|done].
  by rewrite (join_nil cs Hcs Ej).
Qed.

(** ** The path sys_chdir stores *)

Lemma render_snoc cs c : cs <> [] -> render (cs ++ [c]) = render cs ++ SLASH :: c.
Proof.
  unfold render. intros Hne. cbn [app]. f_equal. induction cs as [|c1 cs IH]; [done|]. destruct cs as [|c2 cs]; [done|].
  change (join_slash ((c1 :: c2 :: cs) ++ [c])) with (c1 ++ SLASH :: join_slash ((c2 :: cs) ++ [c])).
  change (join_slash (c1 :: c2 :: cs)) with (c1 ++ SLASH :: join_slash (c2 :: cs)). by rewrite IH, <- app_assoc by done.
Qed.

Lemma rposition_last (p c : list Z) : no_slash c -> rposition (Z.eqb SLASH) (p ++ SLASH :: c) = Some (length p).
Proof.
  intros Hc. assert (rposition (Z.eqb SLASH) c = None) as E.
  { induction Hc as [|x c Hx _ IH]; [done|]. cbn [rposition]. rewrite IH. by rewrite (proj2 (Z.eqb_neq _ _)) by done. }
  induction p as [|x p IH]; cbn [app rposition length]; [by rewrite E|]. by rewrite IH.
Qed.

(** [chdir_path] is absolute, and its components are those of the old path
    followed by those of the argument, up to the ones normalising drops. *)
Lemma chdir_path_components cs path : Forall proper cs ->
  starts_with_slash (chdir_path (render cs) path) = true /\
  foldl push_component [] (split_slash [] (chdir_path (render cs) path)) =
  foldl push_component (if starts_with_slash path then [] else cs) (split_slash [] path).
Proof.
  intros Hcs. unfold chdir_path. pose proof (split_slash_render cs Hcs) as Er. pose proof (push_self [] cs Hcs) as Ep. cbn [app] in Ep.
  destruct (starts_with_slash path) eqn:Eabs.
  { pose proof (split_slash_trim_slashes path) as Et. destruct (trim_slashes path) as [|x t] eqn:E; cbn [is_nil]; (split; [done|]); [by rewrite <- Et|].
    change ([SLASH] ++ x :: t) with ([] ++ SLASH :: x :: t). by rewrite split_slash_app, Et. }
  destruct (beq path DOT) eqn:Edot.
  { apply beq_true in Edot as ->. split; [done|]. by rewrite Er, Ep. }
  destruct (beq path DOTDOT) eqn:Edd.
  - apply beq_true in Edd as ->. change (split_slash [] DOTDOT) with [DOTDOT]. cbn [foldl]. change (push_component cs DOTDOT) with (removelast cs).
    destruct cs as [|c cs' _] using rev_ind; [done|]. rewrite removelast_snoc. apply Forall_app in Hcs as [Hcs' Hc]. apply Forall_cons in Hc as [Hc _].
    destruct (decide (cs' = [])) as [->|Hne].
    + pose proof (rposition_last [] c (pr_no_slash _ Hc)) as Hr. cbn [app length] in Hr.
      unfold render. cbn [app join_slash]. rewrite Hr.
      destruct (beq (SLASH :: c) [SLASH]); done.
    + rewrite render_snoc by done. rewrite rposition_last by apply Hc.
      destruct (beq (render cs' ++ SLASH :: c) [SLASH]) eqn:E; [apply beq_true in E; unfold render in E; cbn [app] in E; injection E as E; by destruct (join_slash cs')|].
      destruct (length (render cs')) eqn:El; [done|]. rewrite <- El, take_app_length. split; [done|].
      rewrite split_slash_render by done. by rewrite (push_self [] cs').
  - destruct (beq (render cs) [SLASH]) eqn:Eroot.
    + assert (cs = []) as -> by (apply beq_true in Eroot; injection Eroot as E; by apply join_nil).
      split; [done|]. change ([SLASH] ++ path) with ([] ++ SLASH :: path). by rewrite split_slash_app.
    + split; [done|]. change (render cs ++ [SLASH] ++ path) with (render cs ++ SLASH :: path). by rewrite split_slash_app, foldl_app, Er, Ep.
Qed.

Lemma chdir_path_walks cs path : Forall proper cs ->
  normalize_path (chdir_path (render cs) path) =
  render (foldl push_component (if starts_with_slash path then [] else cs) (split_slash [] path)).
Proof. intros Hcs. destruct (chdir_path_components cs path Hcs) as [Hs E]. by rewrite normalize_absolute, E. Qed.
