(* ===== verification/FileSystem.v ===== *)
(** * The file system as a whole (easy-fs/src/vfs.rs, efs.rs)

    The inodes of a file system on one device: every inode in use is a file
    with its bytes or a directory with its entries, no two share a block, and
    the two bitmaps account for all of them.  The operations on any inode keep
    this and leave every other inode as it was, so a sequence of operations acts
    as it does on a finite map of files and directories. *)

From S2P Require Import Prelude BlockCache Bitmap Layout Tree FileData Codec Efs EfsProps Vfs VfsProps Directory PageTable Process Files.

Inductive fnode := FDir (parent : Z) (entries : list dentry) | FFile (content : list Z).

(** The inode [di] with the blocks [T] is what [n] says. *)
Definition content_is (s : Store) (di : DiskInode) (T : list Z) (n : fnode) : Prop :=
  match n with
  | FDir p es => directory s di T (DiskInode_data_blocks di) es /\ NoDup (names es) /\ di_parent_inode di = p
  | FFile c => di_type di = File /\ di_size di = Z.of_nat (length c) /\ file_bytes (st_blocks s) T 0 (Z.of_nat (length c)) = c
  end.

(** The first number no inode has. *)
Definition fresh (ft : gmap Z fnode) : Z :=
  default 0 (find_first (fun k => bool_decide (ft !! k = None)) (seqZ 0 (Z.of_nat (size ft) + 1))).

Lemma find_first_app {A} (f : A -> bool) l1 x l2 : Forall (fun y => f y = false) l1 -> f x = true -> find_first f (l1 ++ x :: l2) = Some x.
Proof. intros H1 Hx. induction H1 as [|y l Hy _ IH]; cbn; [by rewrite Hx|by rewrite Hy]. Qed.

Lemma fresh_first (ft : gmap Z fnode) p : 0 <= p -> ft !! p = None -> (forall k, 0 <= k < p -> is_Some (ft !! k)) -> fresh ft = p.
Proof.
  intros Hp Hn Hlow. unfold fresh.
  assert (p <= Z.of_nat (size ft)) as Hsz.
  { assert (list_to_set (seqZ 0 p) ⊆ dom ft) as Hsub%subseteq_size.
    { intros k Hk. apply elem_of_list_to_set, elem_of_seqZ in Hk. apply elem_of_dom, Hlow. lia. }
    rewrite size_list_to_set, length_seqZ, size_dom in Hsub by apply NoDup_seqZ. lia. }
  replace (Z.of_nat (size ft) + 1) with (p + (1 + (Z.of_nat (size ft) - p))) by lia. rewrite seqZ_app by lia.
  rewrite (seqZ_cons (0 + p)) by lia. rewrite (find_first_app _ _ (0 + p)); [done| |by apply bool_decide_eq_true].
  apply Forall_forall. intros k Hk%elem_of_seqZ. apply bool_decide_eq_false. destruct (Hlow k) as [x ->]; [lia|done].
Qed.

Lemma fresh_None (ft : gmap Z fnode) : 0 <= fresh ft /\ ft !! fresh ft = None.
Proof.
  unfold fresh. destruct (find_first _ _) as [k|] eqn:E.
  - apply find_first_Some in E as [Hk%elem_of_seqZ Hn]. apply bool_decide_eq_true in Hn. cbn. split; [lia|done].
  - exfalso. apply find_first_None in E. rewrite Forall_forall in E.
    assert (list_to_set (seqZ 0 (Z.of_nat (size ft) + 1)) ⊆ dom ft) as Hsub%subseteq_size.
    { intros k Hk. apply elem_of_list_to_set in Hk. specialize (E k Hk). apply bool_decide_eq_false in E. apply elem_of_dom. by destruct (ft !! k). }
    rewrite size_list_to_set, length_seqZ, size_dom in Hsub by apply NoDup_seqZ. lia.
Qed.

(** What [create_as] makes. *)
Definition new_node (t : DiskInodeType) (parent : Z) : fnode := match t with Directory => FDir parent [] | File => FFile [] end.

Section FileSystem.
Context (efs : EasyFileSystem).
Abbreviation at_ := (inode_handle efs).
Abbreviation blk id := (in_block_id (at_ id)) (only parsing).
Abbreviation off id := (Z.to_nat (in_block_offset (at_ id))) (only parsing).

(** The inodes that fit before the data bitmap. *)
Definition capacity : Z := 3 * (bm_start_block_id (data_bitmap efs) - inode_area_start_block efs).

(** The areas follow one another. *)
Record areas_in_order : Prop := {
  ao_ibitmap : 0 < bm_start_block_id (inode_bitmap efs) /\ 0 <= bm_blocks (inode_bitmap efs);
  ao_iarea : bm_start_block_id (inode_bitmap efs) + bm_blocks (inode_bitmap efs) <= inode_area_start_block efs;
  ao_data : inode_area_start_block efs <= bm_start_block_id (data_bitmap efs);
  ao_u32 : bm_start_block_id (data_bitmap efs) <= 2 ^ 32;
  ao_inodes : Bitmap_maximum (inode_bitmap efs) <= 2 ^ 32
}.

Record node_at (s : Store) (id : Z) (n : fnode) (di : DiskInode) (T : list Z) : Prop := {
  na_slot : exists d, slot s efs (at_ id) di d;
  na_mounted : mounted s efs di T;
  na_content : content_is s di T n
}.

(** The device holds the inodes [ft]; [own] are the blocks of each. *)
Record fs_at (ft : gmap Z fnode) (own : gmap Z (list Z)) (s : Store) : Prop := {
  fa_areas : areas_in_order;
  fa_held : st_held s = [];
  fa_imap : bm_ok s (inode_bitmap efs);
  fa_bits : forall k, 0 <= k < Bitmap_maximum (inode_bitmap efs) -> bm_bit s (inode_bitmap efs) k = bool_decide (is_Some (ft !! k));
  fa_ids : forall id, is_Some (ft !! id) -> 0 <= id < Bitmap_maximum (inode_bitmap efs) /\ id < capacity;
  fa_area : forall b, inode_area_start_block efs <= b < bm_start_block_id (data_bitmap efs) -> exists d, st_blocks s !! b = Some d /\ block_ok d;
  fa_pool : pool s efs;
  fa_node : forall id n, ft !! id = Some n -> exists di T, own !! id = Some T /\ node_at s id n di T;
  fa_sep : forall i j Ti Tj b, i <> j -> is_Some (ft !! i) -> is_Some (ft !! j) -> own !! i = Some Ti -> own !! j = Some Tj -> b ∈ Ti -> b ∈ Tj -> False
}.

(** Where the inode [id] is. *)
Lemma pos_of id : areas_in_order -> 0 <= id < capacity ->
  blk id = inode_area_start_block efs + id / 3 /\ in_block_offset (at_ id) = id mod 3 * 132 /\
  inode_area_start_block efs <= blk id < bm_start_block_id (data_bitmap efs).
Proof.
  intros [H1 H2 H3 H4 H5] Hid. unfold capacity in Hid. unfold inode_handle, Inode_new, EasyFileSystem_get_disk_inode_pos.
  cbn [in_block_id in_block_offset fst snd]. change inodes_per_block with 3. change (Z.of_nat INODE_SZ) with 132.
  unfold u32_wrap. pose proof (Z.div_pos id 3). assert (id / 3 < bm_start_block_id (data_bitmap efs) - inode_area_start_block efs) by zdiv_lia.
  rewrite Z.mod_small; [lia|]. split; [|lia]. lia.
Qed.

(** Two inodes are in different blocks, or in disjoint slots of one. *)
Lemma pos_apart i j : areas_in_order -> 0 <= i < capacity -> 0 <= j < capacity -> i <> j ->
  blk i <> blk j \/ (off j + INODE_SZ <= off i \/ off i + INODE_SZ <= off j)%nat.
Proof.
  intros Ha Hi Hj Hne. destruct (pos_of i Ha Hi) as (-> & -> & _), (pos_of j Ha Hj) as (-> & -> & _). unfold INODE_SZ.
  destruct (decide (i / 3 = j / 3)) as [E|E]; [right|left; lia].
  pose proof (Z.mod_pos_bound i 3). pose proof (Z.mod_pos_bound j 3). assert (i mod 3 <> j mod 3) by zdiv_lia. lia.
Qed.

(** ** What a change of one inode leaves alone *)

(** A file whose blocks are as they were. *)
Lemma mounted_other s s' di T : mounted s efs di T -> pool s' efs -> st_held s' = [] ->
  (forall b, b ∈ T -> allocated s' efs b /\ st_blocks s' !! b = st_blocks s !! b) ->
  mounted s' efs di T /\ (forall x, 0 <= x < 512 * DiskInode_data_blocks di -> file_byte (st_blocks s') T x = file_byte (st_blocks s) T x).
Proof.
  intros [[H1 H2 H3 H4 H5 H6] Hp Ha] Hp' Hh Hb. split.
  - split; [|done|intros b Hin; by apply Hb]. split; [|..|done|done|done|done].
    + eapply tree_indirect; [|exact H1]. intros b Hi. apply Hb. by eapply indirect_in.
    + eapply usable_ext; [|intros b Hin; rewrite Hh; split; [apply not_elem_of_nil|by apply Hb]|exact H2]. rewrite Hh. cbn. lia.
  - intros x Hx. unfold file_byte. destruct (Hb (zth T (data_pos (x / 512)))) as [_ ->]; [|done].
    apply zth_elem. rewrite H3. apply data_pos_range. zdiv_lia.
Qed.

Lemma content_ext s s' di T n : content_is s di T n -> file s di T (DiskInode_data_blocks di) -> file s' di T (DiskInode_data_blocks di) ->
  (forall x, 0 <= x < 512 * DiskInode_data_blocks di -> file_byte (st_blocks s') T x = file_byte (st_blocks s) T x) -> content_is s' di T n.
Proof.
  intros Hc Hf Hf' Hb. destruct n as [p es|c]; cbn in *.
  - destruct Hc as (Hd & Hn & Hp). split; [|done]. by eapply directory_ext.
  - destruct Hc as (Ht & Hs & Hc). split_and!; [done|done|]. rewrite <- Hc at 2. apply file_bytes_ext.
    pose proof (fl_size _ _ _ _ Hf). intros x Hx. apply Hb. lia.
Qed.

(** The slot of an inode, in a block whose other slots have changed. *)
Definition same_slot (s s' : Store) (id : Z) : Prop := exists d d', st_blocks s !! blk id = Some d /\ st_blocks s' !! blk id = Some d' /\
  block_ok d' /\ slice (off id) INODE_SZ d' = slice (off id) INODE_SZ d.

Lemma node_other s s' id n di T : node_at s id n di T -> same_slot s s' id -> pool s' efs -> st_held s' = [] ->
  (forall b, b ∈ T -> allocated s' efs b /\ st_blocks s' !! b = st_blocks s !! b) -> node_at s' id n di T.
Proof.
  intros [(d0 & [E0 _ So Sl Sa]) Hm Hc] (d & d' & E & E' & Hok & Hsl) Hp Hh Hb. rewrite E in E0. injection E0 as <-.
  destruct (mounted_other s s' di T Hm Hp Hh Hb) as [Hm' Hbytes]. split; [|done|].
  - exists d'. split; [done|done|done|by rewrite Hsl|done].
  - eapply content_ext; [exact Hc|apply Hm|apply Hm'|exact Hbytes].
Qed.

(** The blocks of an inode; a new one has none. *)
Definition blocks_of (ft : gmap Z fnode) (own : gmap Z (list Z)) (id : Z) (T : list Z) : Prop :=
  match ft !! id with Some _ => own !! id = Some T | None => T = [] end.

(** What an operation on the inode [id] with the blocks [T] may change, [T']
    being its blocks afterwards. *)
Record changed (id : Z) (T T' : list Z) (s s' : Store) : Prop := {
  ch_held : st_held s' = [];
  ch_pool : pool s' efs;
  ch_imap : bm_ok s' (inode_bitmap efs);
  ch_bits : forall k, 0 <= k < Bitmap_maximum (inode_bitmap efs) -> bm_bit s' (inode_bitmap efs) k = bm_bit s (inode_bitmap efs) k || (k =? id);
  ch_inodes : forall b, inode_area_start_block efs <= b < bm_start_block_id (data_bitmap efs) -> b <> blk id -> st_blocks s' !! b = st_blocks s !! b;
  ch_slots : forall j n, (j + n <= off id \/ off id + INODE_SZ <= j)%nat -> slice j n <$> st_blocks s' !! blk id = slice j n <$> st_blocks s !! blk id;
  ch_files : forall b, allocated s efs b -> b ∉ T -> allocated s' efs b /\ st_blocks s' !! b = st_blocks s !! b;
  ch_new : forall b, b ∈ T' -> b ∈ T \/ ~ allocated s efs b
}.

Lemma bm_ok_same s s' b : bm_ok s b -> st_held s = [] -> st_held s' = [] ->
  (forall i, bm_start_block_id b <= i < bm_start_block_id b + bm_blocks b -> st_blocks s' !! i = st_blocks s !! i) ->
  bm_ok s' b /\ (forall k, 0 <= k < Bitmap_maximum b -> bm_bit s' b k = bm_bit s b k).
Proof.
  intros [H0 H] Hh Hh' Hb. split; [split; [done|]|].
  - intros i Hi. destruct (H i Hi) as (d & [Hd _ _] & Hok). exists d. split; [|done]. split; [by rewrite Hb by lia| |]; rewrite Hh'; [apply not_elem_of_nil|unfold BLOCK_CACHE_SIZE; cbn; lia].
  - intros k Hk. unfold bm_bit. rewrite Hb; [done|]. unfold Bitmap_maximum in Hk. pose proof BLOCK_BITS_pos.
    assert (0 <= k / BLOCK_BITS < bm_blocks b); [|lia]. split; [apply Z.div_pos; lia|apply Z.div_lt_upper_bound; lia].
Qed.

Lemma fs_change ft own s s' id n di T T' : fs_at ft own s -> 0 <= id < Bitmap_maximum (inode_bitmap efs) -> id < capacity ->
  blocks_of ft own id T -> changed id T T' s s' -> node_at s' id n di T' -> fs_at (<[id := n]> ft) (<[id := T']> own) s'.
Proof.
  intros Hfs Hr Hcap Hown Hch Hn. destruct Hfs as [Fa Fh Fi Fb Fd Far Fp Fn Fs]. destruct Hch as [Ch Cp Cim Cb Ci Cs Cf Cn].
  destruct (pos_of id Fa ltac:(lia)) as (_ & _ & Hblk).
  assert (forall j nj, j <> id -> ft !! j = Some nj -> exists Tj dj, own !! j = Some Tj /\ node_at s' j nj dj Tj /\
    (forall b, b ∈ Tj -> allocated s efs b /\ b ∉ T)) as Hothers.
  { intros j nj Hne Hj. destruct (Fn j nj Hj) as (dj & Tj & Hoj & Hnj). destruct (Fd j) as [Hrj Hcj]; [eauto|].
    assert (forall b, b ∈ Tj -> allocated s efs b /\ b ∉ T) as Hb.
    { intros b Hin. split; [by apply (mt_alloc _ _ _ _ (na_mounted _ _ _ _ _ Hnj))|]. intros Hin2. unfold blocks_of in Hown.
      destruct (ft !! id) eqn:Eid; [by eapply (Fs j id Tj T b); eauto|]. subst T. by apply elem_of_nil in Hin2. }
    exists Tj, dj. split; [done|]. split; [|done]. destruct (na_slot _ _ _ _ _ Hnj) as (d & [Sb Sok _ _ Sa]).
    eapply node_other; [exact Hnj| |done|done|intros b Hin; destruct (Hb b Hin); by apply Cf].
    destruct (decide (blk j = blk id)) as [E|E].
    - destruct (na_slot _ _ _ _ _ Hn) as (d' & [Sb' Sok' _ _ _]). exists d, d'. rewrite E in *. split_and!; [done|done|done|].
      destruct (pos_apart j id Fa ltac:(lia) ltac:(lia) Hne) as [?|Hap]; [done|]. specialize (Cs (off j) INODE_SZ). rewrite Sb, Sb' in Cs. cbn in Cs.
      assert (Some (slice (off j) INODE_SZ d') = Some (slice (off j) INODE_SZ d)) as [= ?] by (apply Cs; destruct Hap; [by right|by left]). done.
    - exists d, d. destruct (pos_of j Fa ltac:(lia)) as (_ & _ & Hbj). split_and!; [done|by rewrite Ci|done|done]. }
  split; [done|done|done| | | |done| |].
  - intros k Hk. rewrite Cb, Fb by done. destruct (Z.eqb_spec k id) as [->|Hne].
    + rewrite lookup_insert_eq, orb_true_r. symmetry. by apply bool_decide_eq_true.
    + by rewrite lookup_insert_ne, orb_false_r by done.
  - intros j Hj. rewrite lookup_insert_is_Some in Hj. destruct Hj as [<-|[_ Hj]]; [done|]. by apply Fd.
  - intros b Hb. destruct (decide (b = blk id)) as [->|Hne].
    + destruct (na_slot _ _ _ _ _ Hn) as (d' & [Sb' Sok' _ _ _]). eauto.
    + rewrite Ci by (done || lia). by apply Far.
  - intros j nj. destruct (decide (j = id)) as [->|Hne]; [rewrite !lookup_insert_eq; intros [= <-]; eauto|]. rewrite !lookup_insert_ne by done.
    intros Hj. destruct (Hothers j nj Hne Hj) as (Tj & dj & ? & ? & _). eauto.
  - intros i j Ti Tj b Hij Hi Hj Hoi Hoj Hbi Hbj.
    assert (forall k Tk, k <> id -> is_Some (<[id := n]> ft !! k) -> <[id := T']> own !! k = Some Tk -> b ∈ Tk -> b ∈ T' -> False) as Hx.
    { intros k Tk Hk Hfk Hok Hin Hin'. rewrite lookup_insert_ne in Hok by done. rewrite lookup_insert_ne in Hfk by done. destruct Hfk as [nk Hfk].
      destruct (Hothers k nk Hk Hfk) as (Tk' & dk & Hok' & _ & Hbk). rewrite Hok in Hok'. injection Hok' as <-. destruct (Hbk b Hin) as [Hal Hnt].
      by destruct (Cn b Hin'). }
    destruct (decide (i = id)) as [->|Hi1]; [rewrite lookup_insert_eq in Hoi; injection Hoi as <-; by eapply (Hx j Tj)|].
    destruct (decide (j = id)) as [->|Hj1]; [rewrite lookup_insert_eq in Hoj; injection Hoj as <-; by eapply (Hx i Ti)|].
    rewrite lookup_insert_ne in Hi by done. rewrite lookup_insert_ne in Hj by done. rewrite lookup_insert_ne in Hoi by done. rewrite lookup_insert_ne in Hoj by done. by eapply (Fs i j Ti Tj b).
Qed.

(** Changing the state of the file-system mutex. *)
Definition set_fs (fl : bool) (s : Store) : Store := mkStore (st_blocks s) (st_held s) fl.

Lemma fs_at_set_fs ft own s fl : fs_at ft own s -> fs_at ft own (set_fs fl s) /\ free_bits (set_fs fl s) efs = free_bits s efs.
Proof.
  intros [Fa Fh Fi Fb Fd Far Fp Fn Fs]. split; [|done]. split; try done.
  - destruct Fi as [H0 H1]. split; [done|]. intros i Hi. destruct (H1 i Hi) as (d & [? ? ?] & ?). by exists d.
  - destruct Fp as [[H0 H1] ? ? ? G]. split; try done. split; [done|]. intros i Hi. destruct (H1 i Hi) as (d & [? ? ?] & ?). by exists d.
  - intros id n Hid. destruct (Fn id n Hid) as (di & T & Ho & Hn). exists di, T. split; [done|].
    eapply node_other; [exact Hn| | |done|].
    + destruct (na_slot _ _ _ _ _ Hn) as (d & [? ? ? ? ?]). by exists d, d.
    + destruct Fp as [[H0 H1] ? ? ? G]. split; try done. split; [done|]. intros i Hi. destruct (H1 i Hi) as (d & [? ? ?] & ?). by exists d.
    + intros b Hb. split; [|done]. by apply (mt_alloc _ _ _ _ (na_mounted _ _ _ _ _ Hn)).
Qed.

(** With the inode's own block locked. *)
Lemma node_inside ft own s id n di T : fs_at ft own s -> node_at s id n di T ->
  let s1 := hold (blk id) s in
  mounted s1 efs di T /\ content_is s1 di T n /\ free_bits s1 efs = free_bits s efs.
Proof.
  intros Hfs [(d & Hsl) Hm Hc] s1. pose proof (fa_held _ _ _ Hfs) as Hh. destruct (mounted_ext s s1 efs di T Hm) as (H1 & H2 & H3).
  - cbn. rewrite Hh. cbn. lia.
  - cbn. rewrite Hh. intros b ->%list_elem_of_singleton. apply Hsl.
  - done.
  - split; [done|]. split; [|done]. eapply content_ext; [exact Hc|apply Hm|apply H1|exact H3].
Qed.

(** An operation on one inode, with its block locked, becomes an operation on
    the file system. *)
Lemma fs_modify {V} ft own s id n0 (f : DiskInode -> prog (DiskInode * V)) Q : fs_at ft own s -> ft !! id = Some n0 ->
  (forall di T, own !! id = Some T -> node_at s id n0 di T -> inode_ok di ->
     let s1 := hold (blk id) s in
     mounted s1 efs di T -> content_is s1 di T n0 -> free_bits s1 efs = free_bits s efs ->
     pwp (f di) (fun r s3 => exists T' n', st_held s3 = [blk id] /\ inode_ok (fst r) /\ mounted s3 efs (fst r) T' /\
       content_is s3 (fst r) T' n' /\ fs_frame efs T s1 s3 /\ (forall b, b ∈ T' -> b ∈ T \/ ~ allocated s1 efs b) /\
       (forall s4, fs_at (<[id := n']> ft) (<[id := T']> own) s4 -> st_fs s4 = st_fs s3 -> free_bits s4 efs = free_bits s3 efs ->
          Q (snd r) s4)) s1) ->
  pwp (modify_disk_inode (at_ id) f) Q s.
Proof.
  intros Hfs Hid Hf. pose proof (fa_held _ _ _ Hfs) as Hh. destruct (fa_node _ _ _ Hfs id n0 Hid) as (di & T & Hown & Hn).
  destruct (node_inside ft own s id n0 di T Hfs Hn) as (Hm1 & Hc1 & Hf1). destruct (na_slot _ _ _ _ _ Hn) as (d & Hsl).
  eapply modify_disk_inode_spec; [exact Hsl|done|]. eapply pwp_mono; [by apply (Hf di T); [done|done|by eapply slot_inode_ok|..]|]. cbn beta.
  intros [di' v] s3 (T' & n' & Hh3 & Hio & Hm3 & Hc3 & (Fh & Ffs & Fin & Fold) & Hnew & HQ). cbn [fst snd] in *.
  split; [done|]. split; [done|]. intros d' Ed' Hok' Hload'. set (s4 := mkStore _ [] _).
  pose proof Hsl as [Sb Sok So _ Sa]. pose proof (po_start _ _ (mt_pool _ _ _ _ Hm3)) as Hst.
  destruct (mounted_ext s3 s4 efs di' T' Hm3) as (Hm4 & Hf4 & Hb4); [cbn; lia|intros b Hb; by apply elem_of_nil in Hb|intros b Hb; unfold s4; cbn [st_blocks]; rewrite lookup_insert_ne; [done|lia]|].
  apply HQ; [|done|done]. destruct (fa_ids _ _ _ Hfs id) as [Hr Hcap]; [eauto|]. pose proof (fa_areas _ _ _ Hfs) as [A1 A2 A3 A4 A5].
  destruct (pos_of id (fa_areas _ _ _ Hfs) ltac:(lia)) as (_ & _ & Hblk).
  destruct (bm_ok_same s s4 (inode_bitmap efs) (fa_imap _ _ _ Hfs) Hh eq_refl) as [Him Hbits].
  { intros i Hi. unfold s4. cbn [st_blocks]. rewrite lookup_insert_ne by lia. apply Fin. lia. }
  eapply (fs_change ft own s s4 id n' di' T T'); [exact Hfs|done|done|unfold blocks_of; by rewrite Hid| |].
  - split; [done|apply Hm4|done| | | | |].
    + intros k Hk. rewrite Hbits by done. destruct (Z.eqb_spec k id) as [->|]; [|by rewrite orb_false_r].
      rewrite (fa_bits _ _ _ Hfs) by done. rewrite bool_decide_eq_true_2 by eauto. done.
    + intros b Hb Hne. unfold s4. cbn [st_blocks]. rewrite lookup_insert_ne by done. by rewrite Fin by lia.
    + intros j m Hj. unfold s4. cbn [st_blocks]. rewrite lookup_insert_eq, Sb. cbn [fmap option_fmap option_map]. f_equal. subst d'. destruct Sok as [Sdl _]. unfold BLOCK_SZ in Sdl.
      assert (off id + INODE_SZ <= length d)%nat as Hfit by (unfold INODE_SZ; lia).
      pose proof (DiskInode_store_length _ _ Hio (length_slice _ _ _ Hfit)) as Hstl. apply slice_overwrite_ne; rewrite Hstl; [exact Hfit|].
      destruct Hj; [by left|by right].
    + intros b Hal Hnt. assert (allocated (hold (blk id) s) efs b) as Hal1 by (by apply (allocated_ext s)).
      destruct (Fold b Hal1 Hnt) as [Ha3 E3]. pose proof (allocated_range _ _ _ (fa_pool _ _ _ Hfs) Hal) as (_ & _ & _ & Hge).
      assert (st_blocks s4 !! b = st_blocks s3 !! b) as E4 by (unfold s4; cbn [st_blocks]; rewrite lookup_insert_ne by lia; done).
      split; [|by rewrite E4, E3]. apply (allocated_ext s3); [|done]. intros i Hi. unfold s4. cbn [st_blocks]. rewrite lookup_insert_ne by lia. done.
    + intros b Hb. destruct (Hnew b Hb) as [?|Hn']; [by left|right]. intros Ha. apply Hn'. by apply (allocated_ext s).
  - split; [|done|].
    + exists d'. split; [apply lookup_insert_eq|done|done|done|done].
    + eapply content_ext; [exact Hc3|apply Hm3|apply Hm4|exact Hb4].
Qed.

(** ** The operations *)

Lemma fs_number ft own s id Q : fs_at ft own s -> st_fs s = false -> is_Some (ft !! id) -> Q id s ->
  pwp (Inode_inode_number efs (at_ id)) Q s.
Proof.
  intros Hfs Hl Hid HQ. destruct (fa_ids _ _ _ Hfs id Hid) as [Hr Hcap]. pose proof (fa_areas _ _ _ Hfs) as Ha.
  destruct (pos_of id Ha ltac:(lia)) as (E1 & E2 & Hb). pose proof Ha as [A1 A2 A3 A4 A5]. unfold Inode_inode_number. apply pwp_with_fs; [done|]. apply pwp_ret.
  rewrite E1, E2 in *. change inodes_per_block with 3. change (Z.of_nat INODE_SZ) with 132. unfold u32_wrap.
  pose proof (Z.div_pos id 3). pose proof (Z.mod_pos_bound id 3). pose proof (Z.div_mod id 3).
  rewrite !(Z.mod_small (inode_area_start_block efs + id / 3)), (Z.mod_small (id mod 3 * 132)), Z.div_mul by lia.
  replace (inode_area_start_block efs + id / 3 - inode_area_start_block efs) with (id / 3) by lia.
  rewrite (Z.mod_small (id / 3)), Z.mod_small by lia. destruct s. cbn in *. subst. by replace (id / 3 * 3 + id mod 3) with id by lia.
Qed.

(** The inode of a new file or directory, before any entry names it. *)
Lemma fs_new ft own s s1 t parent d d' : let p := fresh ft in fs_at ft own s -> ft !! p = None -> 0 <= p < Bitmap_maximum (inode_bitmap efs) -> p < capacity ->
  bm_ok s1 (inode_bitmap efs) -> bm_frame (inode_bitmap efs) s s1 ->
  (forall k, 0 <= k < Bitmap_maximum (inode_bitmap efs) -> bm_bit s1 (inode_bitmap efs) k = bm_bit s (inode_bitmap efs) k || (k =? p)) ->
  st_blocks s1 !! blk p = Some d -> block_ok d' ->
  DiskInode_load (slice (off p) INODE_SZ d') = Some (DiskInode_initialize t parent) ->
  (forall j n, (j + n <= off p \/ off p + INODE_SZ <= j)%nat -> slice j n d' = slice j n d) ->
  let s2 := set_block (blk p) d' s1 in
  fs_at (<[p := new_node t parent]> ft) (<[p := []]> own) s2 /\ st_fs s2 = st_fs s /\ free_bits s2 efs = free_bits s efs.
Proof.
  intros p Hfs Hp Hr Hcap Hok1 (Bh & Bf & Bb & _) Hbits Hd Hok' Hload Hsl s2.
  pose proof (fa_areas _ _ _ Hfs) as Ha. pose proof Ha as [A1 A2 A3 A4 A5]. destruct (pos_of p Ha ltac:(lia)) as (_ & Eoff & Hblk).
  pose proof (fa_held _ _ _ Hfs) as Hh. pose proof (po_start _ _ (fa_pool _ _ _ Hfs)) as Hst.
  assert (forall b, ~ (bm_start_block_id (inode_bitmap efs) <= b < bm_start_block_id (inode_bitmap efs) + bm_blocks (inode_bitmap efs)) ->
    b <> blk p -> st_blocks s2 !! b = st_blocks s !! b) as Hsame.
  { intros b Hb Hne. unfold s2, set_block. cbn [st_blocks]. rewrite lookup_insert_ne by done. by apply Bb. }
  assert (forall b, bm_start_block_id (data_bitmap efs) <= b -> st_blocks s2 !! b = st_blocks s !! b) as Hdata by (intros b Hb; apply Hsame; lia).
  assert (st_held s2 = []) as Hh2 by (cbn; congruence).
  destruct (pool_same s s2 efs (fa_pool _ _ _ Hfs)) as (Hp2 & Ha2 & Hf2); [congruence| |intros b Hb; left; apply Hdata; lia|].
  { intros L [Hl HL]. split; [rewrite Hh2; cbn; lia|]. intros b Hb. rewrite Hh2. split; [apply not_elem_of_nil|].
    destruct (HL b Hb) as (_ & db & Edb & Hokb). destruct (decide (b = blk p)) as [->|Hne]; [exists d'; split; [apply lookup_insert_eq|done]|].
    destruct (decide (bm_start_block_id (inode_bitmap efs) <= b < bm_start_block_id (inode_bitmap efs) + bm_blocks (inode_bitmap efs))) as [Hin|Hout]; [|exists db; by rewrite Hsame].
    destruct (proj2 Hok1 (b - bm_start_block_id (inode_bitmap efs)) ltac:(lia)) as (d1 & [E1 _ _] & Hok). exists d1. split; [|done].
    unfold s2, set_block. cbn [st_blocks]. rewrite lookup_insert_ne by done. by replace b with (b - bm_start_block_id (inode_bitmap efs) + bm_start_block_id (inode_bitmap efs)) by lia. }
  destruct (bm_ok_same s1 s2 (inode_bitmap efs) Hok1) as [Him Hb2]; [congruence|done|intros i Hi; unfold s2, set_block; cbn [st_blocks]; by rewrite lookup_insert_ne by lia|].
  split; [|split; [exact Bf|exact Hf2]]. eapply (fs_change ft own s s2 p _ (DiskInode_initialize t parent) [] []); [done|lia|done|by unfold blocks_of; rewrite Hp| |].
  - split; [done|done|done| | | | |intros b Hb; by apply elem_of_nil in Hb].
    + intros k Hk. by rewrite Hb2, Hbits.
    + intros b Hb Hne. apply Hsame; [lia|done].
    + intros j n Hj. unfold s2, set_block. cbn [st_blocks]. rewrite lookup_insert_eq. rewrite <- (Bb (blk p)) by lia. rewrite Hd. cbn [fmap option_fmap option_map]. f_equal. by apply Hsl.
    + intros b Hal _. split; [by apply Ha2|]. apply Hdata. by apply (allocated_range s efs b (fa_pool _ _ _ Hfs)).
  - assert (file s2 (DiskInode_initialize t parent) [] 0) as Hfile.
    { split; [apply tree_empty| |done|done|constructor|done]. split; [rewrite Hh2; cbn; lia|]. intros b Hb. by apply elem_of_nil in Hb. }
    split.
    + exists d'. split; [apply lookup_insert_eq|done| |done|lia]. rewrite Eoff. pose proof (Z.mod_pos_bound p 3). lia.
    + split; [exact Hfile|done|]. intros b Hb. by apply elem_of_nil in Hb.
    + destruct t; cbn; [done|]. split; [|split; [constructor|done]]. split; [exact Hfile|done|done|constructor|by intros ? ? ?].
Qed.

(** The blocks a file of [size] bytes needs to reach [new_size]. *)
Definition needed (size new_size : Z) : Z := Z.max 0 (tree_len (DiskInode__data_blocks new_size) - tree_len (DiskInode__data_blocks size)).

Definition free (s : Store) : Z := Z.of_nat (length (free_bits s efs)).

(** There is room for the new entry [name] of a directory with the entries
    [es], and for its inode [p]. *)
Definition entry_fits (s : Store) (name : bytes) (p : Z) (es : list dentry) : Prop :=
  p < Bitmap_maximum (inode_bitmap efs) /\ p < capacity /\ entry_ok (name, p) /\ Z.of_nat (length es) + 1 <= 264640 /\
  needed (32 * Z.of_nat (length es)) (32 * (Z.of_nat (length es) + 1)) <= free s.

(** Looking a name up in a directory, the directory's block being locked. *)
Lemma find_inside s di T p es name Q : content_is s di T (FDir p es) -> Q (dir_lookup name es) s -> pwp (Inode_find_inode_id name di) Q s.
Proof. intros (Hd & _) HQ. eapply find_inode_id_spec; [exact Hd|exact HQ]. Qed.

(** A new entry. *)
Lemma fs_append ft own s id par es name p Q : fs_at ft own s -> ft !! id = Some (FDir par es) -> dir_lookup name es = None -> entry_fits s name p es ->
  (forall s4 T', fs_at (<[id := FDir par (es ++ [(name, p)])]> ft) (<[id := T']> own) s4 -> st_fs s4 = st_fs s ->
     free s = needed (32 * Z.of_nat (length es)) (32 * (Z.of_nat (length es) + 1)) + free s4 -> Q tt s4) ->
  pwp (modify_disk_inode (at_ id) (append_dirent efs name p)) Q s.
Proof.
  intros Hfs Hid Hl (_ & _ & He & Hmax & Hfree) HQ. eapply fs_modify; [exact Hfs|exact Hid|]. intros di T Hown Hn Hio s1 Hm1 (Hd1 & Hnd & Hpar) Hf1.
  pose proof (dr_size _ _ _ _ _ Hd1) as Hsz. assert (forall x, blocks_needed di x = needed (32 * Z.of_nat (length es)) x) as Hbn by (intros x; unfold needed; by rewrite <- Hsz).
  apply (append_dirent_spec efs s1 di T es (name, p)); [done|done|done|lia|rewrite Hbn, Hf1; exact Hfree|].
  intros di' T' s3 Hm3 Hd3 Hio3 Hk3 Hfr3 Hcnt Hnew. exists T', (FDir par (es ++ [(name, p)])). pose proof Hfr3 as (Fh & Ffs & _). cbn [fst snd].
  split_and!; [rewrite Fh; cbn; by rewrite (fa_held _ _ _ Hfs)|by apply Hio3|done| |done|done|].
  - split; [exact Hd3|]. split; [|destruct Hk3 as [_ ->]; done]. unfold names. rewrite fmap_app. apply NoDup_app. split; [done|].
    split; [|apply NoDup_singleton]. intros x Hx ->%list_elem_of_singleton. by apply (dir_lookup_absent es name).
  - intros s4 Hfs4 E4 F4. eapply HQ; [exact Hfs4|by rewrite E4, Ffs|]. unfold free. rewrite F4, <- Hf1, Hcnt, Hbn. done.
Qed.

(** [create_as]. *)
Lemma fs_create ft own s id par es name t Q : fs_at ft own s -> st_fs s = false -> ft !! id = Some (FDir par es) ->
  let p := fresh ft in
  (reserved_name name = false -> dir_lookup name es = None -> entry_fits s name p es) ->
  (reserved_name name = true \/ is_Some (dir_lookup name es) -> forall s', fs_at ft own s' -> st_fs s' = false -> free s' = free s -> Q None s') ->
  (reserved_name name = false -> dir_lookup name es = None -> forall s' own',
     fs_at (<[id := FDir par (es ++ [(name, p)])]> (<[p := new_node t id]> ft)) own' s' -> st_fs s' = false ->
     free s = needed (32 * Z.of_nat (length es)) (32 * (Z.of_nat (length es) + 1)) + free s' -> Q (Some (at_ p)) s') ->
  pwp (Inode_create_as efs (at_ id) name t) Q s.
Proof.
  intros Hfs Hl Hid p Hfits HN HS. unfold Inode_create_as. destruct (reserved_name name) eqn:Er.
  { apply pwp_ret. by apply HN; [left| | |]. }
  apply pwp_bind. eapply fs_number; [exact Hfs|done|eauto|]. apply pwp_with_fs; [done|].
  destruct (fs_at_set_fs _ _ _ true Hfs) as [Hfs1 Hfree1]. fold (set_fs true s). set (s1 := set_fs true s) in *.
  apply pwp_bind. eapply fs_modify; [exact Hfs1|exact Hid|]. intros di T Hown Hn Hio s1' Hm1 Hc1 Hf1.
  pose proof Hc1 as (Hd1 & Hnd & _). apply pwp_bind, pwp_passert. split; [unfold DiskInode_is_dir; apply bool_decide_eq_true, Hd1|].
  apply pwp_bind. eapply find_inside; [exact Hc1|]. apply pwp_ret. exists T, (FDir par es). cbn [fst snd].
  split_and!; [cbn; by rewrite (fa_held _ _ _ Hfs)|done|done|done| |by left|].
  { split; [done|]. split; [done|]. split; [done|]. done. }
  rewrite !insert_id by done. intros s2 Hfs2 El2 Ef2.
  assert (fs_at ft own (set_fs false s2) /\ free (set_fs false s2) = free s) as [Hback Hbf].
  { destruct (fs_at_set_fs _ _ _ false Hfs2) as [? E]. split; [done|]. unfold free. by rewrite E, Ef2, Hf1, Hfree1. }
  destruct (dir_lookup name es) as [j|] eqn:Elk; [apply pwp_ret; by apply HN; [right; eauto| | |]|].
  destruct (Hfits eq_refl eq_refl) as (Hp1 & Hp2 & He & Hmax & Hroom). destruct (fresh_None ft) as [Hp0 Hpn]. fold p in Hp0, Hpn.
  pose proof (fa_areas _ _ _ Hfs) as Ha. pose proof Ha as [A1 A2 A3 A4 A5]. destruct (pos_of p Ha ltac:(lia)) as (Eblk & Eoff & Hblk).
  destruct (fa_ids _ _ _ Hfs id ltac:(eauto)) as [Hidr _].
  apply pwp_bind. unfold EasyFileSystem_alloc_inode. apply pwp_bind, Bitmap_alloc_spec; [apply Hfs2| |].
  { intros Hall. specialize (Hall p ltac:(lia)). rewrite (fa_bits _ _ _ Hfs2), Hpn in Hall by lia. by apply bool_decide_eq_true in Hall as [? ?]. }
  intros q s3 Hq Hqf Hqlow Hbits Hok3 Hfr3.
  assert (q = p) as ->.
  { symmetry. apply fresh_first; [lia| |].
    - rewrite (fa_bits _ _ _ Hfs2) in Hqf by lia. apply bool_decide_eq_false in Hqf. by apply eq_None_not_Some.
    - intros k Hk. specialize (Hqlow k Hk). rewrite (fa_bits _ _ _ Hfs2) in Hqlow by lia. by apply bool_decide_eq_true in Hqlow. }
  apply pwp_bind, pwp_punwrap. exists p. split; [done|]. apply pwp_ret. assert (u32_wrap p = p) as -> by (apply Z.mod_small; lia).
  apply pwp_bind. pose proof Hfr3 as (Bh & Bf & Bb & _).
  destruct (fa_area _ _ _ Hfs2 (blk p) Hblk) as (d & Ed & Hokd).
  assert (st_blocks s3 !! blk p = Some d) as Ed3 by (rewrite Bb by lia; done).
  eapply (initialize_inode_spec s3 (EasyFileSystem_get_disk_inode_pos efs p) t id d); [|done|change (0 <= in_block_offset (at_ p)); pose proof (Z.mod_pos_bound p 3); lia|change (in_block_offset (at_ p) + 132 <= 512); pose proof (Z.mod_pos_bound p 3); lia|unfold is_u32; lia|].
  { split; [exact Ed3| |]; rewrite Bh, (fa_held _ _ _ Hfs2); [apply not_elem_of_nil|unfold BLOCK_CACHE_SIZE; cbn; lia]. }
  intros d' Hok' Hload' Hsl'.
  destruct (fs_new ft own s2 s3 t id d d' Hfs2 Hpn ltac:(lia) Hp2 Hok3 Hfr3 Hbits Ed3 Hok' Hload' Hsl') as (Hfs4 & El4 & Ef4). fold p in Hfs4, El4, Ef4.
  change (fst (EasyFileSystem_get_disk_inode_pos efs p)) with (blk p). set (s4 := set_block (blk p) d' s3) in *.
  apply pwp_bind. eapply (fs_append _ _ s4 id par es name p); [exact Hfs4|rewrite lookup_insert_ne by congruence; done|done| |].
  { split_and!; [done|done|done|done|]. unfold free in *. rewrite Ef4, Ef2, Hf1, Hfree1. exact Hroom. }
  intros s5 T5 Hfs5 El5 Hcnt5. apply pwp_bind, pwp_sync_all; [apply Hfs5|]. apply pwp_ret.
  destruct (fs_at_set_fs _ _ _ false Hfs5) as [Hfs6 Ef6]. eapply (HS eq_refl eq_refl); [exact Hfs6|done|].
  unfold free in *. fold (set_fs false s5). rewrite Ef6, <- Hcnt5, Ef4, Ef2, Hf1, Hfree1. done.
Qed.

(** [write_at], at an offset inside the file or at its end. *)
Lemma fs_write ft own s id c o buf Q : fs_at ft own s -> st_fs s = false -> ft !! id = Some (FFile c) ->
  0 <= o <= Z.of_nat (length c) -> buf <> [] -> Forall is_byte buf -> o + Z.of_nat (length buf) <= 16540 * 512 ->
  needed (Z.of_nat (length c)) (o + Z.of_nat (length buf)) <= free s ->
  (forall s' own', fs_at (<[id := FFile (overwrite (Z.to_nat o) buf c)]> ft) own' s' -> st_fs s' = false ->
     free s = needed (Z.of_nat (length c)) (o + Z.of_nat (length buf)) + free s' -> Q (Z.of_nat (length buf)) s') ->
  pwp (Inode_write_at efs (at_ id) o buf) Q s.
Proof.
  intros Hfs Hl Hid Ho Hne Hbytes Hmax Hroom HQ. destruct (fa_node _ _ _ Hfs id _ Hid) as (di & T & Hown & [Hsl Hm (Ht & Hsz & Hc)]).
  assert (forall x, blocks_needed di x = needed (Z.of_nat (length c)) x) as Hbn by (intros x; unfold needed; by rewrite <- Hsz).
  apply (Inode_write_at_spec efs (at_ id) s di T o buf); [|lia|done|done|done|rewrite Hbn; exact Hroom|].
  { split; [exact Hsl|done|apply Hfs|done]. }
  intros s' di' T' [[Hsl' Hm' Hh' Hl'] W2 [W3 _] W4 W5 W6 W7 W8 W9]. pose proof (fa_areas _ _ _ Hfs) as [A1 A2 A3 A4 A5].
  destruct (fa_ids _ _ _ Hfs id ltac:(eauto)) as [Hr Hcap]. destruct (pos_of id (fa_areas _ _ _ Hfs) ltac:(lia)) as (_ & _ & Hblk).
  destruct (bm_ok_same s s' (inode_bitmap efs) (fa_imap _ _ _ Hfs) (fa_held _ _ _ Hfs) Hh') as [Him Hbits]; [intros i Hi; apply W5; lia|].
  eapply (HQ s' (<[id := T']> own)); [|done|unfold free; rewrite W9, Hbn; done].
  eapply (fs_change ft own s s' id _ di' T T'); [exact Hfs|done|done|by unfold blocks_of; rewrite Hid| |].
  - split; [done|apply Hm'|done| | |exact W6|exact W7|exact W8].
    + intros k Hk. rewrite Hbits by done. destruct (Z.eqb_spec k id) as [->|]; [|by rewrite orb_false_r].
      rewrite (fa_bits _ _ _ Hfs) by done. by rewrite bool_decide_eq_true_2 by eauto.
    + intros b Hb Hne'. apply W5; [lia|done].
  - pose proof (fl_size _ _ _ _ (mt_file _ _ _ _ Hm')) as Hfs'. pose proof (fl_size _ _ _ _ (mt_file _ _ _ _ Hm)) as Hfs0.
    split; [exact Hsl'|exact Hm'|]. split; [by rewrite W3|].
    assert (Z.of_nat (length (overwrite (Z.to_nat o) buf c)) = Z.max (Z.of_nat (length c)) (o + Z.of_nat (length buf))) as Hlen.
    { unfold overwrite. rewrite !length_app, length_take, length_drop. lia. }
    split; [rewrite W2, Hlen, Hsz; done|]. rewrite Hlen. apply list_eq. intros i. unfold file_bytes. rewrite list_lookup_fmap.
    destruct (decide (Z.of_nat i < Z.max (Z.of_nat (length c)) (o + Z.of_nat (length buf)))) as [Hi|Hi].
    2:{ rewrite lookup_seqZ_ge by lia. cbn. symmetry. apply lookup_ge_None. lia. }
    rewrite lookup_seqZ_lt by lia. cbn [fmap option_fmap option_map]. specialize (W4 (0 + Z.of_nat i) ltac:(lia)).
    unfold overwrite. destruct ((o <=? 0 + Z.of_nat i) && (0 + Z.of_nat i <? o + Z.of_nat (length buf))) eqn:E.
    + apply andb_true_iff in E as [E1%Z.leb_le E2%Z.ltb_lt]. rewrite W4.
      rewrite lookup_app_r, lookup_app_l by (rewrite ?length_take; lia). rewrite length_take, Nat.min_l by lia.
      unfold zth. replace (Z.to_nat (0 + Z.of_nat i - o)) with (i - Z.to_nat o)%nat by lia.
      destruct (lookup_lt_is_Some_2 buf (i - Z.to_nat o)) as [b ->]; [lia|done].
    + rewrite W4 by (apply andb_false_iff in E as [E%Z.leb_gt|E%Z.ltb_ge]; lia).
      assert (file_byte (st_blocks s) T (0 + Z.of_nat i) = default 0 (c !! i)) as ->.
      { rewrite <- Hc. unfold file_bytes. rewrite list_lookup_fmap, lookup_seqZ_lt; [done|]. apply andb_false_iff in E as [E%Z.leb_gt|E%Z.ltb_ge]; lia. }
      destruct (lookup_lt_is_Some_2 c i) as [b Hb]; [apply andb_false_iff in E as [E%Z.leb_gt|E%Z.ltb_ge]; lia|]. rewrite Hb. change (default 0 (Some b)) with b.
      apply andb_false_iff in E as [E%Z.leb_gt|E%Z.ltb_ge].
      * rewrite lookup_app_l by (rewrite length_take; lia). by rewrite lookup_take_lt by lia.
      * rewrite lookup_app_r, lookup_app_r by (rewrite length_take; lia). rewrite length_take, lookup_drop, Nat.min_l by lia. rewrite <- Hb. f_equal. lia.
Qed.

(** [read_at]. *)
Lemma fs_read ft own s id c o buf Q : fs_at ft own s -> st_fs s = false -> ft !! id = Some (FFile c) -> 0 <= o -> o + Z.of_nat (length buf) < 2 ^ 64 ->
  let m := Z.max 0 (Z.min (o + Z.of_nat (length buf)) (Z.of_nat (length c)) - o) in
  Q (m, overwrite 0 (slice (Z.to_nat o) (Z.to_nat m) c) buf) s -> pwp (Inode_read_at (at_ id) o buf) Q s.
Proof.
  intros Hfs Hl Hid Ho Hlen m HQ. destruct (fs_at_set_fs _ _ _ true Hfs) as [Hfs1 _]. unfold Inode_read_at. apply pwp_with_fs; [done|].
  fold (set_fs true s). set (s1 := set_fs true s) in *. destruct (fa_node _ _ _ Hfs1 id _ Hid) as (di & T & Hown & Hn).
  destruct (node_inside ft own s1 id _ di T Hfs1 Hn) as (Hm1 & (Ht & Hsz & Hc) & _). destruct (na_slot _ _ _ _ _ Hn) as (d & Hsl).
  eapply read_disk_inode_spec; [exact Hsl|apply Hfs1|]. eapply read_at_spec; [apply Hm1|done|done|]. rewrite Hsz. fold m.
  split; [cbn; by rewrite (fa_held _ _ _ Hfs)|]. unfold set_held, hold, s1, set_fs. cbn [st_blocks st_held st_fs].
  pose proof (fa_held _ _ _ Hfs) as Hh. destruct s as [bs hd fl]. cbn [st_blocks st_held st_fs] in *. subst.
  match goal with |- Q (_, overwrite 0 ?x buf) _ => assert (x = slice (Z.to_nat o) (Z.to_nat m) c) as -> end; [|exact HQ].
  destruct (decide (m = 0)) as [Em|Em]; [by rewrite Em|].
  rewrite <- Hc at 1. unfold file_bytes, slice. cbn [st_blocks hold s1 set_fs]. rewrite <- fmap_drop, <- fmap_take. f_equal.
  replace (Z.of_nat (length c)) with (o + (m + (Z.of_nat (length c) - o - m))) by lia. rewrite !seqZ_app by lia.
  rewrite drop_app_length' by (rewrite length_seqZ; lia). rewrite take_app_length' by (rewrite length_seqZ; lia). done.
Qed.

(** [find]. *)
Lemma fs_find ft own s id p es name Q : fs_at ft own s -> st_fs s = false -> ft !! id = Some (FDir p es) ->
  Q (at_ <$> dir_lookup name es) s -> pwp (Inode_find efs (at_ id) name) Q s.
Proof.
  intros Hfs Hl Hid HQ. destruct (fs_at_set_fs _ _ _ true Hfs) as [Hfs1 _]. unfold Inode_find. apply pwp_with_fs; [done|].
  fold (set_fs true s). set (s1 := set_fs true s) in *. destruct (fa_node _ _ _ Hfs1 id _ Hid) as (di & T & Hown & Hn).
  destruct (node_inside ft own s1 id _ di T Hfs1 Hn) as (Hm1 & Hc1 & _). destruct (na_slot _ _ _ _ _ Hn) as (d & Hsl).
  eapply read_disk_inode_spec; [exact Hsl|apply Hfs1|]. apply pwp_bind. eapply find_inside; [exact Hc1|]. apply pwp_ret.
  split; [cbn; by rewrite (fa_held _ _ _ Hfs)|]. unfold set_held, hold, s1, set_fs. cbn [st_blocks st_held st_fs].
  pose proof (fa_held _ _ _ Hfs) as Hh. destruct s as [bs hd fl]. cbn [st_blocks st_held st_fs] in *. subst. by destruct (dir_lookup name es).
Qed.

(** *** Giving blocks back *)

Lemma usable_cons_tail s b L : usable s (b :: L) -> usable s L.
Proof. intros [H1 H2]. split; [done|]. intros x Hx. apply H2. by right. Qed.

Lemma free_bits_clear s s' p : 0 <= p < Bitmap_maximum (data_bitmap efs) -> bm_bit s (data_bitmap efs) p = true ->
  present s efs p = true -> (forall k, present s' efs k = present s efs k) ->
  (forall k, 0 <= k < Bitmap_maximum (data_bitmap efs) -> bm_bit s' (data_bitmap efs) k = bm_bit s (data_bitmap efs) k && negb (k =? p)) ->
  length (free_bits s' efs) = S (length (free_bits s efs)).
Proof.
  intros Hp Hset Hpp Hpr Hbits. unfold free_bits. apply (filter_remove_one (taken s' efs) (taken s efs) p).
  - apply NoDup_seqZ.
  - apply elem_of_seqZ. lia.
  - apply taken_false. rewrite Hpr, Hbits, Z.eqb_refl by done. split; [apply andb_false_r|done].
  - intros k Hk%elem_of_seqZ. unfold taken. rewrite Hbits, Hpr by lia. destruct (Z.eqb_spec k p) as [->|]; [by rewrite Hset, Hpp|]. by rewrite andb_true_r, orb_false_r.
Qed.

Lemma dealloc_data_spec s b Q : pool s efs -> allocated s efs b -> usable s [b] ->
  (forall s', pool s' efs -> st_held s' = st_held s -> st_fs s' = st_fs s ->
     (forall x, allocated s' efs x <-> allocated s efs x /\ x <> b) ->
     (forall x, ~ (bm_start_block_id (data_bitmap efs) <= x < bm_start_block_id (data_bitmap efs) + bm_blocks (data_bitmap efs)) -> x <> b ->
        st_blocks s' !! x = st_blocks s !! x) ->
     (forall L, usable s L -> usable s' L) -> free s' = free s + 1 -> Q tt s') ->
  pwp (EasyFileSystem_dealloc_data efs b) Q s.
Proof.
  intros Hp Hal Hu HQ. pose proof Hal as (k & -> & Hk & Hbit). pose proof (po_start _ _ Hp) as [Hs1 Hs2]. pose proof (po_u32 _ _ Hp) as H32.
  pose proof (proj1 (po_bm _ _ Hp)) as Hnn. set (b := data_area_start_block efs + k) in *.
  destruct (usable_lockable s [b] b Hu ltac:(by left)) as (d & Hlk & Hok). unfold EasyFileSystem_dealloc_data.
  apply pwp_bind. apply (clear_block_spec s b d); [exact Hlk|exact Hok|]. set (s1 := set_block b _ s).
  assert (forall x, x <> b -> st_blocks s1 !! x = st_blocks s !! x) as H1 by (intros x Hx; unfold s1, set_block; cbn [st_blocks]; by rewrite lookup_insert_ne).
  assert (forall L, usable s L -> usable s1 L) as Hu1.
  { intros L [Hr HL]. split; [done|]. intros x Hx. destruct (HL x Hx) as (Hn & dx & Ex & Hokx). split; [done|].
    destruct (decide (x = b)) as [->|Hne]; [exists (replicate BLOCK_SZ 0); split; [apply lookup_insert_eq|apply zero_block_ok]|exists dx; by rewrite H1]. }
  destruct (pool_same s s1 efs Hp eq_refl Hu1) as (Hp1 & Ha1 & Hf1).
  { intros x _. destruct (decide (x = b)) as [->|Hne]; [right|left; by apply H1]. split; [done|]. destruct (Hu1 _ Hu) as [_ Hb1]. destruct (Hb1 b ltac:(by left)) as (_ & d1 & -> & _).
    rewrite (lk_block _ _ _ Hlk). eauto. }
  assert (bm_bit s1 (data_bitmap efs) k = true) as Hbit1.
  { assert (allocated s1 efs b) as (k' & E & _ & Hb') by (by apply Ha1). assert (k' = k) as -> by lia. done. }
  replace (u32_wrap (b - data_area_start_block efs)) with k by (unfold u32_wrap, b; rewrite Z.mod_small by lia; lia).
  apply Bitmap_dealloc_spec; [apply Hp1|done|done|]. intros s2 Hbits Hok2 (Bh & Bf & Bb & Bd).
  assert (forall x, ~ (bm_start_block_id (data_bitmap efs) <= x < bm_start_block_id (data_bitmap efs) + bm_blocks (data_bitmap efs)) -> x <> b ->
        st_blocks s2 !! x = st_blocks s !! x) as H2 by (intros x Hx Hne; rewrite Bb, H1 by done; done).
  assert (forall L, usable s1 L -> usable s2 L) as Hu2.
  { intros L [Hr HL]. split; [by rewrite Bh|]. intros x Hx. destruct (HL x Hx) as (Hn & dx & Ex & Hokx). split; [by rewrite Bh|].
    destruct (decide (bm_start_block_id (data_bitmap efs) <= x < bm_start_block_id (data_bitmap efs) + bm_blocks (data_bitmap efs))) as [Hin|Hout]; [|exists dx; by rewrite Bb].
    destruct (proj2 Hok2 (x - bm_start_block_id (data_bitmap efs)) ltac:(lia)) as (d2 & [E2 _ _] & Hokd). exists d2. split; [|done].
    by replace (x - bm_start_block_id (data_bitmap efs) + bm_start_block_id (data_bitmap efs)) with x in E2 by lia. }
  assert (forall j, present s2 efs j = present s1 efs j) as Hpr2 by (intros j; apply present_ext, Bd).
  assert (present s1 efs k = true) as Hkp.
  { destruct (Hu1 _ Hu) as [_ Hb1]. destruct (Hb1 b ltac:(by left)) as (_ & d1 & E & _). apply bool_decide_eq_true. change (is_Some (st_blocks s1 !! b)). by rewrite E. }
  apply HQ.
  - split; [done|done|done|rewrite Bh; apply Hp| |].
    + intros j Hj Hc Hj'. rewrite Hbits in Hc by done. rewrite Hpr2 in Hj'. destruct (Z.eqb_spec j k) as [->|Hne]; [apply Hu2, Hu1, Hu|].
      rewrite andb_true_r in Hc. by apply Hu2, (po_free _ _ Hp1).
    + intros i j Hi Hj Hc. rewrite Hbits in Hc by lia. rewrite !Hpr2. destruct (Z.eqb_spec i k) as [->|Hne]; [done|].
      rewrite andb_true_r in Hc. by apply (po_prefix _ _ Hp1 i j).
  - by rewrite Bh.
  - by rewrite Bf.
  - intros x. rewrite <- Ha1. split.
    + intros (j & -> & Hj & Hbj). rewrite Hbits in Hbj by done. apply andb_true_iff in Hbj as [Hbj Hne%negb_true_iff%Z.eqb_neq]. split; [by exists j|]. unfold b. lia.
    + intros [(j & -> & Hj & Hbj) Hne]. exists j. split_and!; [done|lia|lia|]. rewrite Hbits, Hbj by done. apply negb_true_iff, Z.eqb_neq. unfold b in Hne. lia.
  - exact H2.
  - auto.
  - unfold free. rewrite (free_bits_clear s1 s2 k), Hf1 by done. lia.
Qed.

(** All the blocks of a file. *)
Lemma dealloc_loop_spec L : forall s Q, pool s efs -> NoDup L -> (forall b, b ∈ L -> allocated s efs b) -> usable s L ->
  (forall s', pool s' efs -> st_held s' = st_held s -> st_fs s' = st_fs s ->
     (forall x, allocated s' efs x <-> allocated s efs x /\ x ∉ L) ->
     (forall x, ~ (bm_start_block_id (data_bitmap efs) <= x < bm_start_block_id (data_bitmap efs) + bm_blocks (data_bitmap efs)) -> x ∉ L ->
        st_blocks s' !! x = st_blocks s !! x) ->
     free s' = free s + Z.of_nat (length L) -> Q tt s') ->
  pwp (pfold (fun _ data_block => EasyFileSystem_dealloc_data efs data_block) tt L) Q s.
Proof.
  induction L as [|b L IH]; intros s Q Hp Hnd Hal Hu HQ.
  - apply pwp_ret. apply HQ; try done; [|cbn; lia]. intros x. split; [|tauto]. intros Hx. split; [done|apply not_elem_of_nil].
  - cbn [pfold]. apply NoDup_cons in Hnd as [Hni Hnd]. apply pwp_bind.
    apply dealloc_data_spec; [done|apply Hal; by left|eapply usable_elem; [exact Hu|by left]|]. intros s1 Hp1 Hh1 Hf1 Ha1 Hb1 Hu1 Hfree1.
    apply IH; [done|done| |by apply Hu1, (usable_cons_tail s b)|].
    + intros x Hx. apply Ha1. split; [apply Hal; by right|]. by intros ->.
    + intros s2 Hp2 Hh2 Hf2 Ha2 Hb2 Hfree2. apply HQ; [done|congruence|congruence| | |cbn [length]; lia].
      * intros x. rewrite Ha2, Ha1, not_elem_of_cons. tauto.
      * intros x Hx [Hne Hn]%not_elem_of_cons. by rewrite Hb2, Hb1.
Qed.

Definition cleared (n : fnode) : fnode := match n with FDir p _ => FDir p [] | FFile _ => FFile [] end.
Definition node_size (n : fnode) : Z := match n with FDir _ es => 32 * Z.of_nat (length es) | FFile c => Z.of_nat (length c) end.

Lemma content_size s di T n : content_is s di T n -> di_size di = node_size n.
Proof. destruct n; cbn; [intros (Hd & _); apply Hd|by intros (_ & ? & _)]. Qed.

(** The closure of [clear] and [unlink] on an inode. *)
Lemma fs_clear_inside ft own s id n Q : fs_at ft own s -> ft !! id = Some n ->
  (forall s4, fs_at (<[id := cleared n]> ft) (<[id := []]> own) s4 -> st_fs s4 = st_fs s ->
     free s4 = free s + tree_len (DiskInode__data_blocks (node_size n)) -> Q tt s4) ->
  pwp (modify_disk_inode (at_ id) (clear_and_dealloc efs)) Q s.
Proof.
  intros Hfs Hid HQ. eapply fs_modify; [exact Hfs|exact Hid|]. intros di T Hown Hn Hio s1 Hm1 Hc1 Hf1. pose proof (content_size _ _ _ _ Hc1) as Hsz.
  pose proof (mt_file _ _ _ _ Hm1) as [Ft Fu Fl Fm Fn Fs]. destruct (data_blocks_spec (di_size di)) as [Edb Hdb]; [lia|].
  unfold clear_and_dealloc. apply pwp_bind. eapply (clear_size_spec T (DiskInode_data_blocks di)); [first [done|exact Fu]..|].
  intros di' Hl' Hs' Hk' Hio'. cbn beta iota. apply pwp_bind, pwp_passert. split; [apply Z.eqb_eq; rewrite Fl, total_blocks_spec by lia; done|].
  apply pwp_bind, dealloc_loop_spec; [apply Hm1|done|apply Hm1|done|]. intros s3 Hp3 Hh3 Hfs3 Ha3 Hb3 Hfree3. apply pwp_ret.
  exists [], (cleared n). cbn [fst snd].
  assert (DiskInode_data_blocks di' = 0) as E0 by (unfold DiskInode_data_blocks; by rewrite Hs').
  assert (file s3 di' [] 0) as Hfile.
  { split; [split; [done|lia|lia|lia|lia]| |done|done|constructor|lia]. split; [rewrite Hh3; cbn; rewrite (fa_held _ _ _ Hfs); cbn; lia|]. intros b Hb. by apply elem_of_nil in Hb. }
  pose proof (po_start _ _ Hp3) as Hst. split_and!.
  - rewrite Hh3. cbn. by rewrite (fa_held _ _ _ Hfs).
  - by apply Hio'.
  - split; [by rewrite E0|done|]. intros b Hb. by apply elem_of_nil in Hb.
  - destruct Hk' as [K1 K2]. destruct n as [p es|c]; cbn [content_is cleared] in *.
    + destruct Hc1 as (Hd1 & _ & Hpar). split; [|split; [constructor|by rewrite K2]]. rewrite E0. split; [exact Hfile|rewrite K1; apply Hd1|by rewrite Hs'|constructor|by intros ? ? ?].
    + destruct Hc1 as (Ht & _ & _). split; [by rewrite K1|]. by rewrite Hs'.
  - split; [done|]. split; [done|]. split.
    + intros b Hb. apply Hb3; [lia|]. intros Hin. apply (mt_alloc _ _ _ _ Hm1), (allocated_range s1 efs b (mt_pool _ _ _ _ Hm1)) in Hin. lia.
    + intros b Hal Hnt. split; [by apply Ha3|]. apply Hb3; [|done]. by apply (allocated_range s1 efs b (mt_pool _ _ _ _ Hm1)) in Hal as (_ & _ & ? & _).
  - intros b Hb. by apply elem_of_nil in Hb.
  - intros s4 Hfs4 E4 F4. apply HQ; [done|by rewrite E4, Hfs3|]. unfold free in *. rewrite F4, Hfree3, Hf1, Fl. unfold DiskInode_data_blocks. by rewrite Hsz.
Qed.

(** [clear]. *)
Lemma fs_clear ft own s id n Q : fs_at ft own s -> st_fs s = false -> ft !! id = Some n ->
  (forall s4, fs_at (<[id := cleared n]> ft) (<[id := []]> own) s4 -> st_fs s4 = false ->
     free s4 = free s + tree_len (DiskInode__data_blocks (node_size n)) -> Q tt s4) ->
  pwp (Inode_clear efs (at_ id)) Q s.
Proof.
  intros Hfs Hl Hid HQ. unfold Inode_clear. apply pwp_with_fs; [done|]. destruct (fs_at_set_fs _ _ _ true Hfs) as [Hfs1 Hfree1].
  fold (set_fs true s). apply pwp_bind. eapply fs_clear_inside; [exact Hfs1|exact Hid|]. intros s4 Hfs4 E4 F4. apply pwp_sync_all; [apply Hfs4|].
  destruct (fs_at_set_fs _ _ _ false Hfs4) as [Hfs5 Hfree5]. apply HQ; [exact Hfs5|done|].
  unfold free in *. fold (set_fs false s4). by rewrite Hfree5, F4, Hfree1.
Qed.

(** *** Removing an entry *)

(** An empty inode that is given back. *)
Lemma fs_delete ft own s s1 id : fs_at ft own s -> own !! id = Some [] -> is_Some (ft !! id) ->
  bm_ok s1 (inode_bitmap efs) -> bm_frame (inode_bitmap efs) s s1 ->
  (forall k, 0 <= k < Bitmap_maximum (inode_bitmap efs) -> bm_bit s1 (inode_bitmap efs) k = bm_bit s (inode_bitmap efs) k && negb (k =? id)) ->
  fs_at (delete id ft) own s1 /\ free s1 = free s.
Proof.
  intros Hfs Hown Hid Hok1 (Bh & Bf & Bb & _) Hbits. pose proof (fa_areas _ _ _ Hfs) as Ha. pose proof Ha as [A1 A2 A3 A4 A5].
  pose proof (fa_held _ _ _ Hfs) as Hh. pose proof (po_start _ _ (fa_pool _ _ _ Hfs)) as Hst.
  assert (forall b, inode_area_start_block efs <= b -> st_blocks s1 !! b = st_blocks s !! b) as Hsame by (intros b Hb; apply Bb; lia).
  destruct (pool_same s s1 efs (fa_pool _ _ _ Hfs)) as (Hp1 & Ha1 & Hf1); [done| |intros b Hb; left; apply Hsame; lia|].
  { intros L [Hl HL]. split; [by rewrite Bh|]. intros b Hb. rewrite Bh. destruct (HL b Hb) as (Hn & db & Edb & Hokb). split; [done|].
    destruct (decide (bm_start_block_id (inode_bitmap efs) <= b < bm_start_block_id (inode_bitmap efs) + bm_blocks (inode_bitmap efs))) as [Hin|Hout]; [|exists db; by rewrite Bb].
    destruct (proj2 Hok1 (b - bm_start_block_id (inode_bitmap efs)) ltac:(lia)) as (d1 & [E1 _ _] & Hok). exists d1. split; [|done].
    by replace b with (b - bm_start_block_id (inode_bitmap efs) + bm_start_block_id (inode_bitmap efs)) by lia. }
  split; [|unfold free; by rewrite Hf1]. split.
  - done.
  - congruence.
  - done.
  - intros k Hk. rewrite Hbits, (fa_bits _ _ _ Hfs) by done. destruct (Z.eqb_spec k id) as [->|Hne].
    + rewrite lookup_delete_eq, andb_false_r. symmetry. apply bool_decide_eq_false. by intros [? ?].
    + by rewrite lookup_delete_ne, andb_true_r by done.
  - intros j Hj. apply (fa_ids _ _ _ Hfs). by apply lookup_delete_is_Some in Hj as [_ ?].
  - intros b Hb. rewrite Hsame by lia. by apply (fa_area _ _ _ Hfs).
  - done.
  - intros j n Hj. apply lookup_delete_Some in Hj as [Hne Hj]. destruct (fa_node _ _ _ Hfs j n Hj) as (di & T & Ho & Hn). exists di, T. split; [done|].
    destruct (na_slot _ _ _ _ _ Hn) as (d & [Sb Sok So Sl Sa]). destruct (fa_ids _ _ _ Hfs j ltac:(eauto)) as [Hjr Hjc].
    destruct (pos_of j Ha ltac:(lia)) as (_ & _ & Hblk). eapply node_other; [exact Hn| |done|congruence|].
    + exists d, d. split_and!; [done|by rewrite Hsame by lia|done|done].
    + intros b Hb. pose proof (mt_alloc _ _ _ _ (na_mounted _ _ _ _ _ Hn) b Hb) as Hal. split; [by apply Ha1|]. apply Hsame.
      apply (allocated_range s efs b (fa_pool _ _ _ Hfs)) in Hal. lia.
  - intros i j Ti Tj b Hij Hi Hj. apply lookup_delete_is_Some in Hi as [_ Hi]. apply lookup_delete_is_Some in Hj as [_ Hj]. by eapply (fa_sep _ _ _ Hfs i j).
Qed.

(** The closure that removes the entry [name]. *)
Lemma fs_remove ft own s id par es name j Q : fs_at ft own s -> ft !! id = Some (FDir par es) -> find_entry name es = Some j ->
  (forall s4 T', fs_at (<[id := FDir par (delete j es)]> ft) (<[id := T']> own) s4 -> st_fs s4 = st_fs s -> free s4 = free s -> Q true s4) ->
  pwp (modify_disk_inode (at_ id) (Inode_remove_directory_entry name)) Q s.
Proof.
  intros Hfs Hid Hj HQ. eapply fs_modify; [exact Hfs|exact Hid|]. intros di T Hown Hn Hio s1 Hm1 (Hd1 & Hnd & Hpar) Hf1.
  eapply remove_directory_entry_spec; [exact Hd1|]. rewrite Hj. intros s3 Hd3 Hfr. pose proof Hfr as (Fh & Ffs & _).
  destruct (fs_frame_data efs di T _ s3 Hm1 Hfr) as (Hm3 & Hff & Hfb & _).
  destruct (directory_prefix s3 efs _ T _ _ Hd3 (mt_pool _ _ _ _ Hm3) (mt_alloc _ _ _ _ Hm3)) as (T' & Hm3' & Hd3' & Hin).
  pose proof (position_lt _ _ _ Hj) as Hlt. pose proof (dr_size _ _ _ _ _ Hd1) as Hsz. pose proof (fl_size _ _ _ _ (dr_file _ _ _ _ _ Hd1)) as Hfs1.
  pose proof (fl_max _ _ _ _ (dr_file _ _ _ _ _ Hd1)) as Hmx.
  exists T', (FDir par (delete j es)). cbn [fst snd]. split_and!; [rewrite Fh; cbn; by rewrite (fa_held _ _ _ Hfs)| |done| |exact Hff|intros b Hb; left; auto|].
  - destruct Hio as [Hi1 Hi2 Hi3]. apply Forall_cons in Hi2 as [_ Hi2]. split; [done| |done].
    cbn [di_size set_size di_direct di_indirect1 di_indirect2]. apply Forall_cons. split; [unfold is_u32; lia|done].
  - split; [exact Hd3'|]. split; [by apply names_delete|done].
  - intros s4 Hfs4 E4 F4. eapply HQ; [exact Hfs4|by rewrite E4, Ffs|]. unfold free. by rewrite F4, Hfb, Hf1.
Qed.

(** [unlink]: of a name that is not there, of a directory that is not empty,
    and of anything else. *)
Lemma fs_unlink ft own s id par es name Q : fs_at ft own s -> st_fs s = false -> ft !! id = Some (FDir par es) ->
  (forall t, reserved_name name = false -> dir_lookup name es = Some t -> is_Some (ft !! t)) ->
  (forall s', (reserved_name name = true \/ dir_lookup name es = None \/
      exists t p e es', dir_lookup name es = Some t /\ ft !! t = Some (FDir p (e :: es'))) -> fs_at ft own s' -> st_fs s' = false -> free s' = free s -> Q None s') ->
  (forall t n j s' own', reserved_name name = false -> dir_lookup name es = Some t -> ft !! t = Some n -> (forall p e es', n <> FDir p (e :: es')) -> find_entry name es = Some j ->
     fs_at (<[id := FDir par (delete j es)]> (delete t ft)) own' s' -> st_fs s' = false ->
     free s' = free s + tree_len (DiskInode__data_blocks (node_size n)) -> Q (Some t) s') ->
  pwp (Inode_unlink efs (at_ id) name) Q s.
Proof.
  intros Hfs Hl Hid Hent HN HS. unfold Inode_unlink. destruct (reserved_name name); [apply pwp_ret; apply HN; [by left|done..]|].
  apply pwp_bind. eapply fs_find; [exact Hfs|done|exact Hid|]. destruct (dir_lookup name es) as [t|] eqn:Elk; [|apply pwp_ret; apply HN; [right; by left|done..]].
  cbn [fmap option_fmap option_map]. destruct (Hent t eq_refl eq_refl) as [n Ht]. destruct (find_entry name es) as [j|] eqn:Ej; [|by unfold dir_lookup in Elk; rewrite Ej in Elk].
  (* what the target is *)
  apply pwp_bind. apply pwp_with_fs; [done|]. destruct (fs_at_set_fs _ _ _ true Hfs) as [Hfs1 Hfree1]. fold (set_fs true s). set (s1 := set_fs true s) in *.
  destruct (fa_node _ _ _ Hfs1 t _ Ht) as (di & T & Hown & Hn). destruct (node_inside ft own s1 t _ di T Hfs1 Hn) as (Hm1 & Hc1 & _).
  destruct (na_slot _ _ _ _ _ Hn) as (d & Hsl). pose proof (content_size _ _ _ _ Hc1) as Hsz. eapply read_disk_inode_spec; [exact Hsl|apply Hfs1|]. apply pwp_ret.
  split; [cbn; by rewrite (fa_held _ _ _ Hfs)|]. match goal with |- pwp _ _ ?x => assert (x = s) as -> end.
  { pose proof (fa_held _ _ _ Hfs) as Hh. unfold s1, set_fs, set_held, hold. destruct s. cbn in *. congruence. }
  apply pwp_bind. eapply fs_number; [exact Hfs|done|eauto|]. cbn [fst snd].
  destruct (DiskInode_is_dir di && negb (file_count di =? 0)) eqn:Eref.
  { apply pwp_ret. apply HN; [|done..]. right; right. apply andb_true_iff in Eref as [Edir Ecnt%negb_true_iff%Z.eqb_neq]. apply bool_decide_eq_true in Edir.
    destruct n as [p [|e es']|c]; [|by exists t, p, e, es'|destruct Hc1; congruence]. unfold file_count in Ecnt. rewrite Hsz in Ecnt. by cbn in Ecnt. }
  assert (forall p e es', n <> FDir p (e :: es')) as Hempty.
  { intros p e es' ->. destruct Hc1 as (Hd1 & _). apply andb_false_iff in Eref as [Ed|Ec%negb_false_iff%Z.eqb_eq].
    - unfold DiskInode_is_dir in Ed. apply bool_decide_eq_false in Ed. by destruct Ed; apply Hd1.
    - rewrite (file_count_dir _ _ _ _ _ Hd1) in Ec. cbn in Ec. lia. }
  assert (t <> id) as Hne.
  { intros ->. rewrite Hid in Ht. injection Ht as <-. destruct es as [|e es']; [done|]. by eapply Hempty. }
  apply pwp_with_fs; [done|]. fold (set_fs true s). fold s1. apply pwp_bind. eapply fs_clear_inside; [exact Hfs1|exact Ht|].
  intros s2 Hfs2 El2 Ef2. destruct (fa_ids _ _ _ Hfs t ltac:(eauto)) as [Htr _]. apply pwp_bind. unfold EasyFileSystem_dealloc_inode.
  apply Bitmap_dealloc_spec; [apply Hfs2|done|rewrite (fa_bits _ _ _ Hfs2) by done; apply bool_decide_eq_true; rewrite lookup_insert_eq; eauto|].
  intros s3 Hbits Hok3 Hfr3. destruct (fs_delete _ _ s2 s3 t Hfs2 ltac:(apply lookup_insert_eq) ltac:(rewrite lookup_insert_eq; eauto) Hok3 Hfr3 Hbits) as [Hfs3 Hf3].
  rewrite delete_insert_eq in Hfs3. apply pwp_bind. eapply fs_remove; [exact Hfs3|rewrite lookup_delete_ne by done; exact Hid|exact Ej|].
  intros s4 T4 Hfs4 El4 Ef4. apply pwp_bind, pwp_sync_all; [apply Hfs4|]. apply pwp_ret. destruct (fs_at_set_fs _ _ _ false Hfs4) as [Hfs5 Hfree5].
  eapply (HS t n j); [done|done|done|done|done|exact Hfs5|done|]. fold (set_fs false s4). unfold free in *. rewrite Hfree5, Ef4, Hf3, Ef2, Hfree1. done.
Qed.

End FileSystem.
