(* ===== verification/FsRefine.v ===== *)
(** * The file system as an abstract machine (easy-fs/src/vfs.rs)

    The specification of easy-fs: a finite map from inode numbers to files and
    directories and a count of free blocks, with one step per operation.  A step
    that is not defined is a call the code does not survive or whose result the
    specification does not fix: a disk that is full, a name that does not fit in
    an entry, a write beyond the end of a file.  Any sequence of calls that the
    machine accepts runs on the disk and gives the machine's answers. *)

From S2P Require Import Prelude BlockCache Bitmap Layout Tree FileData Codec Efs EfsProps Vfs VfsProps Directory PageTable Process Files FileSystem.

Record FsState := mkFs { nodes : gmap Z fnode; room : Z }.

Inductive fs_op :=
  | FsCreate (dir : Z) (name : list Z) (t : DiskInodeType)
  | FsFind (dir : Z) (name : list Z)
  | FsLs (dir : Z)
  | FsRead (id offset : Z) (buf : list Z)
  | FsWrite (id offset : Z) (buf : list Z)
  | FsSize (id : Z)
  | FsClear (id : Z)
  | FsLink (dir : Z) (name : list Z) (target : Z)
  | FsRename (dir : Z) (old_name new_name : list Z)
  | FsDetach (dir : Z) (name : list Z)
  | FsUnlink (dir : Z) (name : list Z)
  | FsSetParent (id parent : Z).

Inductive fs_answer :=
  | ANode (i : option Inode)
  | ANames (l : list (list Z))
  | ARead (r : Z * list Z)
  | ANumber (n : Z)
  | AUnit
  | ABool (b : bool)
  | AUnlinked (i : option Z).

(** The calls: the handle of inode [id] is the one [get_disk_inode_pos] gives. *)
Definition fs_call (efs : EasyFileSystem) (op : fs_op) : prog fs_answer :=
  let at_ := inode_handle efs in
  match op with
  | FsCreate dir name t => i ← Inode_create_as efs (at_ dir) name t; Ret (ANode i)
  | FsFind dir name => i ← Inode_find efs (at_ dir) name; Ret (ANode i)
  | FsLs dir => l ← Inode_ls (at_ dir); Ret (ANames l)
  | FsRead id offset buf => r ← Inode_read_at (at_ id) offset buf; Ret (ARead r)
  | FsWrite id offset buf => n ← Inode_write_at efs (at_ id) offset buf; Ret (ANumber n)
  | FsSize id => n ← Inode_size (at_ id); Ret (ANumber n)
  | FsClear id => Inode_clear efs (at_ id);; Ret AUnit
  | FsLink dir name target => b ← Inode_link efs (at_ dir) name target; Ret (ABool b)
  | FsRename dir old_name new_name => b ← Inode_rename efs (at_ dir) old_name new_name; Ret (ABool b)
  | FsDetach dir name => b ← Inode_detach (at_ dir) name; Ret (ABool b)
  | FsUnlink dir name => i ← Inode_unlink efs (at_ dir) name; Ret (AUnlinked i)
  | FsSetParent id parent => Inode_set_parent_inode (at_ id) parent;; Ret AUnit
  end.

Fixpoint fs_calls (efs : EasyFileSystem) (ops : list fs_op) : prog (list fs_answer) :=
  match ops with
  | [] => Ret []
  | op :: ops' => a ← fs_call efs op; rest ← fs_calls efs ops'; Ret (a :: rest)
  end.

(** ** The specification *)

#[export] Instance entry_ok_dec e : Decision (entry_ok e).
Proof. unfold entry_ok, name_ok, is_byte, is_u32. apply _. Defined.

(** The blocks a directory needs for one more entry. *)
Definition entry_cost (es : list (list Z * Z)) : Z := needed (32 * Z.of_nat (length es)) (32 * (Z.of_nat (length es) + 1)).

(** There is room for the entry, and the inode [p] is in the inode area. *)
Definition fits (efs : EasyFileSystem) (room : Z) (name : list Z) (p : Z) (es : list (list Z * Z)) : Prop :=
  p < Bitmap_maximum (inode_bitmap efs) /\ p < capacity efs /\ entry_ok (name, p) /\ Z.of_nat (length es) + 1 <= 264640 /\ entry_cost es <= room.

#[export] Instance fits_dec efs room name p es : Decision (fits efs room name p es).
Proof. unfold fits. apply _. Defined.

Definition reparented (parent : Z) (n : fnode) : fnode := match n with FDir _ es => FDir parent es | FFile c => FFile c end.

(** The directory [dir] with one more entry. *)
Definition with_entry (dir par : Z) (es : list (list Z * Z)) (name : list Z) (p : Z) (st : FsState) : FsState :=
  mkFs (<[dir := FDir par (es ++ [(name, p)])]> (nodes st)) (room st - entry_cost es).

Definition fs_step (efs : EasyFileSystem) (op : fs_op) (st : FsState) : option (fs_answer * FsState) :=
  let at_ := inode_handle efs in
  match op with
  | FsCreate dir name t =>
      match nodes st !! dir with
      | Some (FDir par es) =>
          if reserved_name name then Some (ANode None, st)
          else match dir_lookup name es with
          | Some _ => Some (ANode None, st)
          | None =>
              let p := fresh (nodes st) in
              if decide (fits efs (room st) name p es) then
                Some (ANode (Some (at_ p)), with_entry dir par es name p (mkFs (<[p := new_node t dir]> (nodes st)) (room st)))
              else None
          end
      | _ => None
      end
  | FsFind dir name =>
      match nodes st !! dir with
      | Some (FDir _ es) => Some (ANode (at_ <$> dir_lookup name es), st)
      | Some (FFile _) => Some (ANode None, st)
      | None => None
      end
  | FsLs dir => match nodes st !! dir with Some (FDir _ es) => Some (ANames (names es), st) | _ => None end
  | FsRead id offset buf =>
      match nodes st !! id with
      | Some (FFile c) =>
          if decide (0 <= offset /\ offset + Z.of_nat (length buf) < 2 ^ 64) then
            let m := Z.max 0 (Z.min (offset + Z.of_nat (length buf)) (Z.of_nat (length c)) - offset) in
            Some (ARead (m, overwrite 0 (slice (Z.to_nat offset) (Z.to_nat m) c) buf), st)
          else None
      | _ => None
      end
  | FsWrite id offset buf =>
      match nodes st !! id with
      | Some (FFile c) =>
          let cost := needed (Z.of_nat (length c)) (offset + Z.of_nat (length buf)) in
          if decide (0 <= offset <= Z.of_nat (length c) /\ buf <> [] /\ Forall is_byte buf /\
              offset + Z.of_nat (length buf) <= 16540 * 512 /\ cost <= room st) then
            Some (ANumber (Z.of_nat (length buf)), mkFs (<[id := FFile (overwrite (Z.to_nat offset) buf c)]> (nodes st)) (room st - cost))
          else None
      | _ => None
      end
  | FsSize id => match nodes st !! id with Some n => Some (ANumber (node_size n), st) | None => None end
  | FsClear id =>
      match nodes st !! id with
      | Some n => Some (AUnit, mkFs (<[id := cleared n]> (nodes st)) (room st + tree_len (DiskInode__data_blocks (node_size n))))
      | None => None
      end
  | FsLink dir name target =>
      match nodes st !! dir with
      | Some (FDir par es) =>
          if reserved_name name then Some (ABool false, st)
          else match dir_lookup name es with
          | Some _ => Some (ABool false, st)
          | None => if decide (fits efs (room st) name target es) then Some (ABool true, with_entry dir par es name target st) else None
          end
      | _ => None
      end
  | FsRename dir old_name new_name =>
      match nodes st !! dir with
      | Some (FDir par es) =>
          if reserved_name old_name || reserved_name new_name then Some (ABool false, st)
          else match dir_lookup old_name es, find_entry old_name es, dir_lookup new_name es with
          | Some id, Some j, None =>
              if decide (fits efs (room st) new_name id es) then
                let st1 := with_entry dir par es new_name id st in
                Some (ABool true, mkFs (<[dir := FDir par (delete j (es ++ [(new_name, id)]))]> (nodes st)) (room st1))
              else None
          | _, _, _ => Some (ABool false, st)
          end
      | _ => None
      end
  | FsDetach dir name =>
      match nodes st !! dir with
      | Some (FDir par es) =>
          if reserved_name name then Some (ABool false, st)
          else match find_entry name es with
          | Some j => Some (ABool true, mkFs (<[dir := FDir par (delete j es)]> (nodes st)) (room st))
          | None => Some (ABool false, st)
          end
      | _ => None
      end
  | FsUnlink dir name =>
      match nodes st !! dir with
      | Some (FDir par es) =>
          if reserved_name name then Some (AUnlinked None, st)
          else match dir_lookup name es, find_entry name es with
          | Some t, Some j =>
              match nodes st !! t with
              | None => None
              | Some (FDir _ (_ :: _)) => Some (AUnlinked None, st)
              | Some n => Some (AUnlinked (Some t), mkFs (<[dir := FDir par (delete j es)]> (delete t (nodes st)))
                            (room st + tree_len (DiskInode__data_blocks (node_size n))))
              end
          | _, _ => Some (AUnlinked None, st)
          end
      | _ => None
      end
  | FsSetParent id parent =>
      match nodes st !! id with
      | Some n => if decide (is_u32 parent) then Some (AUnit, mkFs (<[id := reparented parent n]> (nodes st)) (room st)) else None
      | None => None
      end
  end.

Fixpoint fs_steps (efs : EasyFileSystem) (ops : list fs_op) (st : FsState) : option (list fs_answer * FsState) :=
  match ops with
  | [] => Some ([], st)
  | op :: ops' =>
      r ← fs_step efs op st;
      rs ← fs_steps efs ops' (snd r);
      Some (fst r :: fst rs, snd rs)
  end.

(** The device holds the state [st], at rest. *)
Definition represents (efs : EasyFileSystem) (st : FsState) (s : Store) : Prop :=
  exists own, fs_at efs (nodes st) own s /\ st_fs s = false /\ free efs s = room st.

Section Refinement.
Context (efs : EasyFileSystem).
Abbreviation at_ := (inode_handle efs).
Abbreviation blk id := (in_block_id (at_ id)) (only parsing).

(** ** The calls that change nothing *)

(** Reading an inode. *)
Lemma fs_peek {V} ft own s id n (f : DiskInode -> prog V) (v : V) Q : fs_at efs ft own s -> ft !! id = Some n ->
  (forall di T, let s1 := hold (blk id) s in mounted s1 efs di T -> content_is s1 di T n -> pwp (f di) (fun r s' => r = v /\ s' = s1) s1) ->
  Q v s -> pwp (read_disk_inode (at_ id) f) Q s.
Proof.
  intros Hfs Hid Hf HQ. destruct (fa_node _ _ _ _ Hfs id _ Hid) as (di & T & Hown & Hn).
  destruct (node_inside efs ft own s id _ di T Hfs Hn) as (Hm1 & Hc1 & _). destruct (na_slot _ _ _ _ _ _ Hn) as (d & Hsl).
  pose proof (fa_held _ _ _ _ Hfs) as Hh. eapply read_disk_inode_spec; [exact Hsl|done|]. eapply pwp_mono; [by apply (Hf di T)|].
  intros r s' [-> ->]. split; [cbn; by rewrite Hh|]. unfold set_held, hold. cbn. destruct s. cbn in *. by subst.
Qed.

(** Taking the file-system lock around a read. *)
Lemma fs_locked {V} ft own s (p : prog V) Q : fs_at efs ft own s -> st_fs s = false ->
  (fs_at efs ft own (set_fs true s) -> pwp p (fun v s' => Q v (set_fs false s')) (set_fs true s)) -> pwp (with_fs p) Q s.
Proof. intros Hfs Hl Hp. apply pwp_with_fs; [done|]. apply Hp. by apply fs_at_set_fs. Qed.

Lemma set_fs_back s : st_fs s = false -> set_fs false (set_fs true s) = s.
Proof. destruct s. cbn. by intros ->. Qed.

(** Opening an inode for change and leaving it as it is. *)
Lemma fs_look {V} ft own s id n (f : DiskInode -> prog (DiskInode * V)) (v : V) Q : fs_at efs ft own s -> ft !! id = Some n ->
  (forall di T, let s1 := hold (blk id) s in mounted s1 efs di T -> content_is s1 di T n -> pwp (f di) (fun r s' => r = (di, v) /\ s' = s1) s1) ->
  (forall s4, fs_at efs ft own s4 -> st_fs s4 = st_fs s -> free efs s4 = free efs s -> Q v s4) -> pwp (modify_disk_inode (at_ id) f) Q s.
Proof.
  intros Hfs Hid Hf HQ. eapply (fs_modify efs); [exact Hfs|exact Hid|]. intros di T Hown Hn Hio s1 Hm1 Hc1 Hf1.
  eapply pwp_mono; [by apply (Hf di T)|]. intros r s' [-> ->]. exists T, n. cbn [fst snd].
  split_and!; [cbn; by rewrite (fa_held _ _ _ _ Hfs)|done|done|done| |by left|].
  { split; [done|]. split; [done|]. split; done. }
  rewrite !insert_id by done. intros s4 Hfs4 El4 Ef4. apply HQ; [done|done|]. exact (f_equal (fun l => Z.of_nat (length l)) (eq_trans Ef4 Hf1)).
Qed.

Lemma find_absent s di T c name Q : content_is s di T (FFile c) -> Q None s -> pwp (Inode_find_inode_id name di) Q s.
Proof.
  intros (Ht & _) HQ. unfold Inode_find_inode_id, DiskInode_is_dir. rewrite bool_decide_eq_false_2 by (rewrite Ht; done). by apply pwp_ret.
Qed.

Lemma fs_find_file ft own s id c name Q : fs_at efs ft own s -> st_fs s = false -> ft !! id = Some (FFile c) ->
  Q None s -> pwp (Inode_find efs (at_ id) name) Q s.
Proof.
  intros Hfs Hl Hid HQ. unfold Inode_find. eapply fs_locked; [exact Hfs|done|]. intros Hfs1. rewrite <- (set_fs_back s Hl) in HQ.
  eapply fs_peek; [exact Hfs1|exact Hid| |exact HQ]. intros di T s1 _ Hc1. apply pwp_bind. eapply find_absent; [exact Hc1|]. by apply pwp_ret.
Qed.

(** [ls] lists the names in their order. *)
Lemma names_loop s di T n es : directory s di T n es ->
  pwp (pfold (fun v i => dirent ← read_dirent di i; n ← DirEntry_name dirent; Ret (v ++ [n])) [] (seqZ 0 (file_count di)))
    (fun r s' => r = names es /\ s' = s) s.
Proof.
  intros Hd. rewrite (file_count_dir _ _ _ _ _ Hd).
  eapply pwp_mono; [apply (pwp_pfold _ _ (fun pre v s' => v = take (length pre) (names es) /\ s' = s))|].
  - done.
  - intros pre x v s1 Hpre [-> ->].
    assert (x = Z.of_nat (length pre) /\ (length pre < length es)%nat) as [-> Hlt].
    { destruct Hpre as [post E]. rewrite <- app_assoc in E. cbn [app] in E.
      pose proof (f_equal length E) as El. rewrite length_app, length_seqZ in El. cbn in El. split; [|lia].
      assert (seqZ 0 (Z.of_nat (length es)) !! length pre = Some x) as Hx by (by rewrite E, lookup_app_r, Nat.sub_diag).
      apply lookup_seqZ in Hx. lia. }
    destruct (lookup_lt_is_Some_2 es (length pre) Hlt) as [e He].
    apply pwp_bind. eapply read_dirent_spec; [exact Hd|rewrite Nat2Z.id; exact He|lia|]. apply pwp_bind.
    pose proof (dr_entries _ _ _ _ _ Hd) as HF. rewrite Forall_forall in HF. rewrite entry_name by (by eapply HF, list_elem_of_lookup_2).
    apply pwp_ret, pwp_ret. split; [|done]. rewrite length_app, Nat.add_1_r. rewrite (take_S_r _ _ (fst e)); [done|].
    unfold names. by rewrite list_lookup_fmap, He.
  - intros v s' [-> ->]. split; [|done]. rewrite take_ge; [done|]. unfold names. rewrite length_fmap, length_seqZ. lia.
Qed.

Lemma fs_ls ft own s id p es Q : fs_at efs ft own s -> st_fs s = false -> ft !! id = Some (FDir p es) ->
  Q (names es) s -> pwp (Inode_ls (at_ id)) Q s.
Proof.
  intros Hfs Hl Hid HQ. unfold Inode_ls. eapply fs_locked; [exact Hfs|done|]. intros Hfs1. rewrite <- (set_fs_back s Hl) in HQ.
  eapply fs_peek; [exact Hfs1|exact Hid| |exact HQ]. intros di T s1 _ (Hd1 & _). eapply names_loop. exact Hd1.
Qed.

Lemma fs_size ft own s id n Q : fs_at efs ft own s -> ft !! id = Some n -> Q (node_size n) s -> pwp (Inode_size (at_ id)) Q s.
Proof.
  intros Hfs Hid HQ. unfold Inode_size. eapply fs_peek; [exact Hfs|exact Hid| |exact HQ]. intros di T s1 _ Hc1.
  apply pwp_ret. split; [exact (content_size _ _ _ _ Hc1)|done].
Qed.

(** ** The calls on the entries of a directory *)

Lemma insert_insert_same {A} (m : gmap Z A) k x y : <[k := x]> (<[k := y]> m) = <[k := x]> m.
Proof. apply insert_insert_eq. Qed.

Lemma fs_link ft own s id par es name t Q : fs_at efs ft own s -> st_fs s = false -> ft !! id = Some (FDir par es) ->
  (reserved_name name = false -> dir_lookup name es = None -> fits efs (free efs s) name t es) ->
  (reserved_name name = true \/ is_Some (dir_lookup name es) -> Q false s) ->
  (reserved_name name = false -> dir_lookup name es = None -> forall s' own',
     fs_at efs (<[id := FDir par (es ++ [(name, t)])]> ft) own' s' -> st_fs s' = false -> free efs s = entry_cost es + free efs s' -> Q true s') ->
  pwp (Inode_link efs (at_ id) name t) Q s.
Proof.
  intros Hfs Hl Hid Hfit HN HS. unfold Inode_link. destruct (reserved_name name) eqn:Er; [apply pwp_ret, HN; by left|].
  eapply fs_locked; [exact Hfs|done|]. intros Hfs1. apply pwp_bind.
  eapply (fs_peek ft own _ id _ _ (dir_lookup name es)); [exact Hfs1|exact Hid| |].
  { intros di T s1 _ Hc1. by eapply find_inside; [exact Hc1|]. }
  destruct (dir_lookup name es) as [i|] eqn:Elk; [apply pwp_ret; rewrite set_fs_back by done; apply HN; eauto|].
  apply pwp_bind. eapply (fs_append efs ft own _ id par es name t); [exact Hfs1|exact Hid|done|exact (Hfit eq_refl eq_refl)|].
  intros s4 T' Hfs4 El4 Ef4. apply pwp_bind, pwp_sync_all; [apply Hfs4|]. apply pwp_ret.
  destruct (fs_at_set_fs efs _ _ _ false Hfs4) as [Hfs5 Ef5]. eapply HS; [done|done|exact Hfs5|done|]. unfold free in *. rewrite Ef5. exact Ef4.
Qed.

(** A name that is not there cannot be removed. *)
Lemma fs_remove_absent ft own s id par es name Q : fs_at efs ft own s -> ft !! id = Some (FDir par es) -> find_entry name es = None ->
  (forall s4, fs_at efs ft own s4 -> st_fs s4 = st_fs s -> free efs s4 = free efs s -> Q false s4) ->
  pwp (modify_disk_inode (at_ id) (Inode_remove_directory_entry name)) Q s.
Proof.
  intros Hfs Hid Hj HQ. eapply fs_look; [exact Hfs|exact Hid| |exact HQ]. intros di T s1 _ (Hd1 & _).
  eapply remove_directory_entry_spec; [exact Hd1|]. by rewrite Hj.
Qed.

Lemma fs_detach ft own s id par es name Q : fs_at efs ft own s -> st_fs s = false -> ft !! id = Some (FDir par es) ->
  (reserved_name name = true -> Q false s) ->
  (reserved_name name = false -> forall j s' own', find_entry name es = Some j ->
     fs_at efs (<[id := FDir par (delete j es)]> ft) own' s' -> st_fs s' = false -> free efs s' = free efs s -> Q true s') ->
  (reserved_name name = false -> find_entry name es = None -> forall s', fs_at efs ft own s' -> st_fs s' = false -> free efs s' = free efs s -> Q false s') ->
  pwp (Inode_detach (at_ id) name) Q s.
Proof.
  intros Hfs Hl Hid HR HS HN. unfold Inode_detach. destruct (reserved_name name) eqn:Er; [by apply pwp_ret, HR|]. apply pwp_bind.
  destruct (find_entry name es) as [j|] eqn:Ej.
  - eapply fs_remove; [exact Hfs|exact Hid|exact Ej|]. intros s4 T' Hfs4 El4 Ef4. apply pwp_bind, pwp_sync_all; [apply Hfs4|]. apply pwp_ret.
    eapply HS; [done|done|exact Hfs4|congruence|exact Ef4].
  - eapply fs_remove_absent; [exact Hfs|exact Hid|exact Ej|]. intros s4 Hfs4 El4 Ef4. apply pwp_bind, pwp_sync_all; [apply Hfs4|]. apply pwp_ret.
    apply HN; [done|done|exact Hfs4|congruence|exact Ef4].
Qed.

Lemma fs_rename ft own s id par es old new Q : fs_at efs ft own s -> st_fs s = false -> ft !! id = Some (FDir par es) ->
  (forall i, reserved_name old || reserved_name new = false -> dir_lookup old es = Some i -> dir_lookup new es = None -> fits efs (free efs s) new i es) ->
  (reserved_name old || reserved_name new = true \/ dir_lookup old es = None \/ is_Some (dir_lookup new es) -> Q false s) ->
  (forall i j s' own', reserved_name old || reserved_name new = false -> dir_lookup old es = Some i -> find_entry old es = Some j -> dir_lookup new es = None ->
     fs_at efs (<[id := FDir par (delete j (es ++ [(new, i)]))]> ft) own' s' -> st_fs s' = false -> free efs s = entry_cost es + free efs s' -> Q true s') ->
  pwp (Inode_rename efs (at_ id) old new) Q s.
Proof.
  intros Hfs Hl Hid Hfit HN HS. unfold Inode_rename. destruct (reserved_name old || reserved_name new) eqn:Er; [apply pwp_ret, HN; by left|].
  eapply fs_locked; [exact Hfs|done|]. intros Hfs1. apply pwp_bind.
  eapply (fs_peek ft own _ id _ _ (dir_lookup old es)); [exact Hfs1|exact Hid| |].
  { intros di T s1 _ Hc1. by eapply find_inside; [exact Hc1|]. }
  destruct (dir_lookup old es) as [i|] eqn:Eold; [|apply pwp_ret; rewrite set_fs_back by done; apply HN; auto].
  apply pwp_bind. eapply (fs_peek ft own _ id _ _ (dir_lookup new es)); [exact Hfs1|exact Hid| |].
  { intros di T s1 _ Hc1. by eapply find_inside; [exact Hc1|]. }
  destruct (dir_lookup new es) as [i'|] eqn:Enew; [apply pwp_ret; rewrite set_fs_back by done; apply HN; eauto|].
  apply pwp_bind. eapply (fs_append efs ft own _ id par es new i); [exact Hfs1|exact Hid|done|exact (Hfit i eq_refl eq_refl eq_refl)|].
  intros s4 T' Hfs4 El4 Ef4. apply pwp_bind.
  destruct (find_entry old es) as [j|] eqn:Ej; [|unfold dir_lookup in Eold; by rewrite Ej in Eold].
  eapply (fs_remove efs _ _ s4 id par (es ++ [(new, i)]) old j); [exact Hfs4|by rewrite lookup_insert_eq|by apply find_entry_app_Some|].
  intros s5 T5 Hfs5 El5 Ef5. rewrite insert_insert_same in Hfs5. apply pwp_bind, pwp_sync_all; [apply Hfs5|]. apply pwp_ret.
  destruct (fs_at_set_fs efs _ _ _ false Hfs5) as [Hfs6 Ef6]. eapply HS; [done|done|done|done|exact Hfs6|done|]. unfold free in *. fold (set_fs false s5).
  rewrite Ef6, Ef5. exact Ef4.
Qed.

(** [set_parent_inode] changes one word of the inode. *)
Lemma fs_set_parent ft own s id n parent Q : fs_at efs ft own s -> st_fs s = false -> ft !! id = Some n -> is_u32 parent ->
  (forall s' own', fs_at efs (<[id := reparented parent n]> ft) own' s' -> st_fs s' = false -> free efs s' = free efs s -> Q tt s') ->
  pwp (Inode_set_parent_inode (at_ id) parent) Q s.
Proof.
  intros Hfs Hl Hid Hp HQ. unfold Inode_set_parent_inode. eapply (fs_modify efs); [exact Hfs|exact Hid|]. intros di T Hown Hn Hio s1 Hm1 Hc1 Hf1.
  apply pwp_ret. exists T, (reparented parent n). cbn [fst snd].
  assert (file s1 (set_parent di parent) T (DiskInode_data_blocks di)) as Hfile.
  { destruct Hm1 as [[[] F2 F3 F4 F5 F6] _ _]. split; [by split|done..]. }
  split_and!.
  - cbn. by rewrite (fa_held _ _ _ _ Hfs).
  - destruct Hio as [I1 I2 I3]. by split.
  - split; [exact Hfile|apply Hm1|apply Hm1].
  - destruct n as [p es|c]; cbn [reparented content_is] in *; [|done]. destruct Hc1 as ([D1 D2 D3 D4 D5] & Hnd & _). split; [by split|done].
  - split; [done|]. split; [done|]. split; done.
  - by left.
  - intros s4 Hfs4 El4 Ef4. eapply HQ; [exact Hfs4|rewrite El4; exact Hl|]. exact (f_equal (fun l => Z.of_nat (length l)) (eq_trans Ef4 Hf1)).
Qed.

(** ** Every step of the machine is a call *)

Ltac answer := apply pwp_ret; split; [done|].

Lemma represents_intro st own s : fs_at efs (nodes st) own s -> st_fs s = false -> free efs s = room st -> represents efs st s.
Proof. intros. by exists own. Qed.

Lemma create_refines st s dir name t a st' : represents efs st s -> fs_step efs (FsCreate dir name t) st = Some (a, st') ->
  pwp (fs_call efs (FsCreate dir name t)) (fun r s' => r = a /\ represents efs st' s') s.
Proof.
  intros (own & Hfs & Hl & Hfree) Hst. cbn [fs_step fs_call] in *. destruct (nodes st !! dir) as [[par es|]|] eqn:Ed; [|done..]. apply pwp_bind.
  eapply (fs_create efs _ _ s dir par es name t); [exact Hfs|done|exact Ed|..].
  - intros Hr Hk. rewrite Hr, Hk in Hst. case_decide as Hf; [|done]. unfold entry_fits. rewrite Hfree. exact Hf.
  - intros Hor s' Hfs' Hl' Hfree'. assert (a = ANode None /\ st' = st) as [-> ->].
    { destruct (reserved_name name); [by simplify_eq|]. destruct Hor as [|[i Hi]]; [done|]. rewrite Hi in Hst. by simplify_eq. }
    answer. eapply represents_intro; [exact Hfs'|done|congruence].
  - intros Hr Hk s' own' Hfs' Hl' Hfree'. rewrite Hr, Hk in Hst. case_decide; [|done]. simplify_eq. answer.
    eapply represents_intro; [exact Hfs'|done|]. cbn [room with_entry]. unfold entry_cost. lia.
Qed.

Lemma write_refines st s id off buf a st' : represents efs st s -> fs_step efs (FsWrite id off buf) st = Some (a, st') ->
  pwp (fs_call efs (FsWrite id off buf)) (fun r s' => r = a /\ represents efs st' s') s.
Proof.
  intros (own & Hfs & Hl & Hfree) Hst. cbn [fs_step fs_call] in *. destruct (nodes st !! id) as [[|c]|] eqn:Ed; [done| |done].
  cbv zeta in Hst. case_decide as Hc; [|done]. destruct Hc as (H1 & H2 & H3 & H4 & H5). simplify_eq. apply pwp_bind.
  eapply (fs_write efs _ _ s id c off buf); [exact Hfs|done|exact Ed|done..|by rewrite Hfree|]. intros s' own' Hfs' Hl' Hfree'. answer.
  eapply represents_intro; [exact Hfs'|done|]. cbn [room]. lia.
Qed.

Lemma read_refines st s id off buf a st' : represents efs st s -> fs_step efs (FsRead id off buf) st = Some (a, st') ->
  pwp (fs_call efs (FsRead id off buf)) (fun r s' => r = a /\ represents efs st' s') s.
Proof.
  intros Hrep Hst. pose proof Hrep as (own & Hfs & Hl & _). cbn [fs_step fs_call] in *. destruct (nodes st !! id) as [[|c]|] eqn:Ed; [done| |done].
  case_decide as Hc; [|done]. cbv zeta in Hst. simplify_eq. apply pwp_bind. eapply fs_read; [exact Hfs|done|exact Ed|lia|lia|]. by answer.
Qed.

Lemma find_refines st s dir name a st' : represents efs st s -> fs_step efs (FsFind dir name) st = Some (a, st') ->
  pwp (fs_call efs (FsFind dir name)) (fun r s' => r = a /\ represents efs st' s') s.
Proof.
  intros Hrep Hst. pose proof Hrep as (own & Hfs & Hl & _). cbn [fs_step fs_call] in *.
  destruct (nodes st !! dir) as [[par es|c]|] eqn:Ed; simplify_eq; apply pwp_bind.
  - eapply fs_find; [exact Hfs|done|exact Ed|]. by answer.
  - eapply fs_find_file; [exact Hfs|done|exact Ed|]. by answer.
Qed.

Lemma link_refines st s dir name t a st' : represents efs st s -> fs_step efs (FsLink dir name t) st = Some (a, st') ->
  pwp (fs_call efs (FsLink dir name t)) (fun r s' => r = a /\ represents efs st' s') s.
Proof.
  intros Hrep Hst. pose proof Hrep as (own & Hfs & Hl & Hfree). cbn [fs_step fs_call] in *.
  destruct (nodes st !! dir) as [[par es|]|] eqn:Ed; [|done..]. apply pwp_bind. eapply (fs_link _ _ s dir par es name t); [exact Hfs|done|exact Ed|..].
  - intros Hr Hk. rewrite Hr, Hk in Hst. case_decide as Hf; [|done]. by rewrite Hfree.
  - intros Hor. assert (a = ABool false /\ st' = st) as [-> ->]; [|by answer].
    destruct (reserved_name name); [by simplify_eq|]. destruct Hor as [|[i Hi]]; [done|]. rewrite Hi in Hst. by simplify_eq.
  - intros Hr Hk s' own' Hfs' Hl' Hfree'. rewrite Hr, Hk in Hst. case_decide; [|done]. simplify_eq. answer.
    eapply represents_intro; [exact Hfs'|done|]. cbn [room with_entry]. lia.
Qed.

Lemma rename_refines st s dir old new a st' : represents efs st s -> fs_step efs (FsRename dir old new) st = Some (a, st') ->
  pwp (fs_call efs (FsRename dir old new)) (fun r s' => r = a /\ represents efs st' s') s.
Proof.
  intros Hrep Hst. pose proof Hrep as (own & Hfs & Hl & Hfree). cbn [fs_step fs_call] in *.
  destruct (nodes st !! dir) as [[par es|]|] eqn:Ed; [|done..]. apply pwp_bind. eapply (fs_rename _ _ s dir par es old new); [exact Hfs|done|exact Ed|..].
  - intros i Hr Hk Hn. rewrite Hr, Hk, Hn in Hst. destruct (find_entry old es) as [j|] eqn:Ej; [|unfold dir_lookup in Hk; by rewrite Ej in Hk].
    case_decide as Hf; [|done]. by rewrite Hfree.
  - intros Hor. assert (a = ABool false /\ st' = st) as [-> ->]; [|by answer]. destruct (reserved_name old || reserved_name new); [by simplify_eq|].
    destruct Hor as [|[E|[i E]]]; [done|rewrite E in Hst; by simplify_eq|rewrite E in Hst; repeat case_match; by simplify_eq].
  - intros i j s' own' Hr Hk Hj Hn Hfs' Hl' Hfree'. rewrite Hr, Hk, Hj, Hn in Hst. case_decide; [|done]. simplify_eq. answer.
    eapply represents_intro; [exact Hfs'|done|]. cbn [room with_entry]. lia.
Qed.

Lemma detach_refines st s dir name a st' : represents efs st s -> fs_step efs (FsDetach dir name) st = Some (a, st') ->
  pwp (fs_call efs (FsDetach dir name)) (fun r s' => r = a /\ represents efs st' s') s.
Proof.
  intros Hrep Hst. pose proof Hrep as (own & Hfs & Hl & Hfree). cbn [fs_step fs_call] in *.
  destruct (nodes st !! dir) as [[par es|]|] eqn:Ed; [|done..]. apply pwp_bind. eapply (fs_detach _ _ s dir par es name); [exact Hfs|done|exact Ed|..].
  - intros Hr. rewrite Hr in Hst. simplify_eq. by answer.
  - intros Hr j s' own' Hj Hfs' Hl' Hfree'. rewrite Hr, Hj in Hst. simplify_eq. answer. eapply represents_intro; [exact Hfs'|done|]. cbn [room]. lia.
  - intros Hr Hj s' Hfs' Hl' Hfree'. rewrite Hr, Hj in Hst. simplify_eq. answer. eapply represents_intro; [exact Hfs'|done|]. lia.
Qed.

Lemma unlink_refines st s dir name a st' : represents efs st s -> fs_step efs (FsUnlink dir name) st = Some (a, st') ->
  pwp (fs_call efs (FsUnlink dir name)) (fun r s' => r = a /\ represents efs st' s') s.
Proof.
  intros Hrep Hst. pose proof Hrep as (own & Hfs & Hl & Hfree). cbn [fs_step fs_call] in *.
  destruct (nodes st !! dir) as [[par es|]|] eqn:Ed; [|done..]. apply pwp_bind.
  assert (forall t, dir_lookup name es = Some t -> exists j, find_entry name es = Some j) as Hfind.
  { intros t Hk. destruct (find_entry name es) as [j|] eqn:Ej; [eauto|]. unfold dir_lookup in Hk. by rewrite Ej in Hk. }
  eapply (fs_unlink efs _ _ s dir par es name); [exact Hfs|done|exact Ed|..].
  - intros t Hr Hk. destruct (Hfind t Hk) as [j Hj]. rewrite Hr, Hk, Hj in Hst. by destruct (nodes st !! t).
  - intros s' Hor Hfs' Hl' Hfree'. assert (a = AUnlinked None /\ st' = st) as [-> ->].
    { destruct (reserved_name name) eqn:Hr; [by simplify_eq|]. destruct Hor as [|[Hk|(t & p & e & es' & Hk & Ht)]]; [done|rewrite Hk in Hst; by simplify_eq|].
      destruct (Hfind t Hk) as [j Hj]. rewrite Hk, Hj, Ht in Hst. by simplify_eq. }
    answer. eapply represents_intro; [exact Hfs'|done|]. lia.
  - intros t n j s' own' Hr Hk Hn Hne Hj Hfs' Hl' Hfree'. rewrite Hr, Hk, Hj, Hn in Hst.
    assert (a = AUnlinked (Some t) /\ st' = mkFs (<[dir := FDir par (delete j es)]> (delete t (nodes st))) (room st + tree_len (DiskInode__data_blocks (node_size n)))) as [-> ->].
    { destruct n as [p [|e es']|c]; [by simplify_eq|by destruct (Hne p e es')|by simplify_eq]. }
    answer. eapply represents_intro; [exact Hfs'|done|]. cbn [room]. lia.
Qed.

Lemma fs_step_refines st s op a st' : represents efs st s -> fs_step efs op st = Some (a, st') ->
  pwp (fs_call efs op) (fun r s' => r = a /\ represents efs st' s') s.
Proof.
  intros Hrep Hst. destruct op as [dir name t|dir name|dir|id off buf|id off buf|id|id|dir name t|dir old new|dir name|dir name|id parent].
  - by eapply create_refines.
  - by eapply find_refines.
  - pose proof Hrep as (own & Hfs & Hl & _). cbn [fs_step fs_call] in *. destruct (nodes st !! dir) as [[par es|]|] eqn:Ed; [|done..]. simplify_eq.
    apply pwp_bind. eapply fs_ls; [exact Hfs|done|exact Ed|]. by answer.
  - by eapply read_refines.
  - by eapply write_refines.
  - pose proof Hrep as (own & Hfs & Hl & _). cbn [fs_step fs_call] in *. destruct (nodes st !! id) as [n|] eqn:Ed; [|done]. simplify_eq.
    apply pwp_bind. eapply fs_size; [exact Hfs|exact Ed|]. by answer.
  - pose proof Hrep as (own & Hfs & Hl & Hfree). cbn [fs_step fs_call] in *. destruct (nodes st !! id) as [n|] eqn:Ed; [|done]. simplify_eq.
    apply pwp_bind. eapply fs_clear; [exact Hfs|done|exact Ed|]. intros s4 Hfs4 Hl4 Hfree4. answer. eapply represents_intro; [exact Hfs4|done|]. cbn [room]. lia.
  - by eapply link_refines.
  - by eapply rename_refines.
  - by eapply detach_refines.
  - by eapply unlink_refines.
  - pose proof Hrep as (own & Hfs & Hl & Hfree). cbn [fs_step fs_call] in *. destruct (nodes st !! id) as [n|] eqn:Ed; [|done].
    case_decide; [|done]. simplify_eq. apply pwp_bind. eapply fs_set_parent; [exact Hfs|done|exact Ed|done|]. intros s' own' Hfs' Hl' Hfree'.
    answer. eapply represents_intro; [exact Hfs'|done|]. cbn [room]. lia.
Qed.

Lemma fs_steps_refine ops : forall st s answers st', represents efs st s -> fs_steps efs ops st = Some (answers, st') ->
  pwp (fs_calls efs ops) (fun rs s' => rs = answers /\ represents efs st' s') s.
Proof.
  induction ops as [|op ops IH]; intros st s answers st' Hrep Hst; cbn [fs_steps fs_calls] in *; [simplify_eq; by answer|].
  destruct (fs_step efs op st) as [[a st1]|] eqn:E1; [|done]. cbn [mbind option_bind fst snd] in Hst.
  destruct (fs_steps efs ops st1) as [[rest st2]|] eqn:E2; [|done]. cbn in Hst. simplify_eq.
  apply pwp_bind. eapply pwp_mono; [by eapply fs_step_refines|]. intros r s1 [-> Hrep1]. apply pwp_bind.
  eapply pwp_mono; [by eapply IH|]. intros rs s2 [-> Hrep2]. by answer.
Qed.

End Refinement.

(** ** A new file system *)

(** A program neither adds blocks to the device nor removes any. *)
Lemma run_dom {A} (p : prog A) : forall s a s', (forall id, id ∈ st_held s -> is_Some (st_blocks s !! id)) -> run p s = Ok (a, s') ->
  forall id, is_Some (st_blocks s' !! id) <-> is_Some (st_blocks s !! id).
Proof.
  induction p as [a0|e|i k IH|i w k IH|k IH|k IH|k IH]; intros s a s' Hh Hr id; cbn [run] in Hr.
  - by simplify_eq.
  - done.
  - case_decide; [done|]. destruct (_ <=? _)%nat; [done|]. destruct (st_blocks s !! i) as [b|] eqn:Eb; [|done].
    apply (IH b _ _ _) with (id := id) in Hr; [exact Hr|]. cbn [st_held st_blocks]. intros j [->|Hj]%elem_of_cons; [eauto|auto].
  - case_decide as Hi; [|done]. apply (IH _ _ _) with (id := id) in Hr.
    + rewrite Hr. unfold release. cbn [st_blocks]. destruct w as [d|]; [|done]. destruct (decide (id = i)) as [->|Hne]; [|by rewrite lookup_insert_ne].
      rewrite lookup_insert_eq. specialize (Hh i Hi). split; [done|eauto].
    + intros j Hj. unfold release in *. cbn [st_held st_blocks] in *. apply list_elem_of_filter in Hj as [_ Hj].
      destruct w as [d|]; [|auto]. destruct (decide (j = i)) as [->|]; [rewrite lookup_insert_eq; eauto|rewrite lookup_insert_ne by done; auto].
  - destruct (st_fs s); [done|]. by eapply IH in Hr.
  - by eapply IH in Hr.
  - case_decide; [|done]. by eapply IH in Hr.
Qed.

Lemma pwp_dom {A} (p : prog A) Q s : st_held s = [] -> pwp p Q s ->
  pwp p (fun a s' => Q a s' /\ forall id, is_Some (st_blocks s' !! id) <-> is_Some (st_blocks s !! id)) s.
Proof.
  intros Hh Hp. destruct (pwp_run _ _ _ Hp) as (a & s' & Hr & HQ). unfold pwp, wp. rewrite Hr. split; [done|].
  eapply run_dom; [|exact Hr]. rewrite Hh. intros id Hid. by apply elem_of_nil in Hid.
Qed.

Lemma filter_const (f : Z -> bool) c l : (forall k, k ∈ l -> f k = c) -> length (filter (fun k => f k = false) l) = if c then 0%nat else length l.
Proof.
  induction l as [|x l IH]; intros Hf; [by destruct c|]. rewrite filter_cons, Hf by left.
  specialize (IH ltac:(intros k Hk; apply Hf; by right)). destruct c; case_decide; try done. cbn [length]. by rewrite IH.
Qed.

Lemma filter_prefix (f : Z -> bool) n m : 0 <= n <= m -> (forall k, 0 <= k < m -> f k = false <-> k < n) ->
  Z.of_nat (length (filter (fun k => f k = false) (seqZ 0 m))) = n.
Proof.
  intros Hn Hf. replace m with (n + (m - n)) by lia. rewrite seqZ_app by lia. rewrite filter_app, length_app.
  rewrite (filter_const f false), (filter_const f true), length_seqZ; [lia|..]; intros k Hk%elem_of_seqZ.
  - destruct (f k) eqn:E; [done|]. apply Hf in E; lia.
  - apply Hf; lia.
Qed.

(** The state [create] leaves: an empty root. *)
Definition fs_empty (efs : EasyFileSystem) (total : Z) : FsState := mkFs {[0 := FDir 0 []]} (total - data_area_start_block efs).

(** The device has exactly the blocks [create] was told about. *)
Definition device_is (s : Store) (total : Z) : Prop := device_ok s total /\ forall id, is_Some (st_blocks s !! id) -> 0 <= id < total.

Lemma created_represents total b s : let efs := efs_of_super (create_areas total b) in
  areas_ok total b -> created total b efs s -> st_fs s = false -> (forall id, is_Some (st_blocks s !! id) -> 0 <= id < total) ->
  represents efs (fs_empty efs total) s.
Proof.
  intros efs Ha [[Hh Hdev] Hsb Hib Hdb Hroot] Hl Hdom. pose proof Ha as [Hb Ht]. destruct (create_areas_eq total b Ha) as [Esb Hq].
  assert (forall id, is_Some (st_blocks s !! id) <-> 0 <= id < total) as Hpres.
  { intros id. split; [apply Hdom|]. intros Hid. destruct (Hdev id Hid) as (d & -> & _). eauto. }
  assert (exists q, efs = mkEfs (Bitmap_new 1 b) (Bitmap_new (1 + 1057 * b) q) (1 + b) (1 + 1057 * b + q) /\ 0 < q <= total - 1 - 1057 * b /\
    total - 1 - 1057 * b <= 4097 * q <= total - 1 - 1057 * b + 4096) as (q & Eefs & Hqr & Hqb).
  { exists ((total - 1 - 1057 * b + 4096) / 4097). unfold efs. rewrite (efs_of_create total b Ha), Esb. cbn [sb_data_bitmap_blocks]. split; [done|].
    split; [done|]. zdiv_lia. }
  clearbody efs. subst efs. set (efs := mkEfs _ _ _ _) in *.
  assert (Bitmap_maximum (data_bitmap efs) = 4096 * q) as Emax by apply Bitmap_maximum_eq.
  assert (Bitmap_maximum (inode_bitmap efs) = 4096 * b) as Eimax by apply Bitmap_maximum_eq.
  assert (forall k, 0 <= k -> present s efs k = true <-> k < total - data_area_start_block efs) as Hk.
  { intros k Hk. unfold present. rewrite bool_decide_eq_true, Hpres. cbn [efs data_area_start_block]. lia. }
  assert (areas_in_order efs) as Hareas by (split; rewrite ?Eimax; cbn; lia).
  assert (pool s efs) as Hpool.
  { split.
    - apply (device_bm_ok s total); [done|cbn; lia..].
    - cbn. lia.
    - rewrite Emax. cbn. lia.
    - rewrite Hh. cbn. lia.
    - intros k Hkr _ Hp%Hk; [|lia]. split; [rewrite Hh; cbn; lia|]. intros id ->%list_elem_of_singleton. rewrite Hh. split; [apply not_elem_of_nil|].
      apply Hdev. cbn [efs data_area_start_block] in *. lia.
    - intros j k Hj Hkr _ Hp%Hk; [|lia]. apply Hk; lia. }
  assert (forall id n, nodes (fs_empty efs total) !! id = Some n -> id = 0 /\ n = FDir 0 []) as Hnodes.
  { intros id n Hn. cbn [nodes fs_empty] in Hn. by apply lookup_singleton_Some in Hn as [<- <-]. }
  exists {[0 := []]}. split; [|split; [done|]].
  - split.
    + done.
    + done.
    + apply (device_bm_ok s total); [done|cbn; lia..].
    + intros k Hkr. rewrite Hib by done. cbn [nodes fs_empty]. destruct (Z.eqb_spec k 0) as [->|Hne].
      * rewrite lookup_singleton_eq. symmetry. apply bool_decide_eq_true. eauto.
      * rewrite lookup_singleton_ne by done. symmetry. apply bool_decide_eq_false. by intros [? ?].
    + intros id [n [-> _]%Hnodes]. rewrite Eimax. unfold capacity. cbn. lia.
    + intros i Hi. apply Hdev. cbn in Hi. lia.
    + done.
    + intros id n [-> ->]%Hnodes. exists (DiskInode_initialize Directory 0), [].
      split; [apply lookup_singleton_eq|]. destruct (pos_of efs 0 Hareas) as (E1 & E2 & E3); [unfold capacity; cbn; lia|].
      assert (file s (DiskInode_initialize Directory 0) [] 0) as Hfile.
      { split; [apply tree_empty| |done|done|constructor|done]. split; [rewrite Hh; cbn; lia|]. intros i Hi. by apply elem_of_nil in Hi. }
      split.
      * destruct Hroot as (d & Ed & Eload). exists d. rewrite Z.div_0_l, Z.add_0_r in E1 by lia. destruct (Hdev (inode_area_start_block efs)) as (d' & Ed' & Hok); [cbn; lia|].
        rewrite Ed in Ed'. injection Ed' as <-. split; [by rewrite E1|done|rewrite E2, Z.mod_0_l by lia; lia|rewrite E2; exact Eload|apply E3].
      * split; [exact Hfile|done|]. intros i Hi. by apply elem_of_nil in Hi.
      * split; [|split; [constructor|done]]. split; [exact Hfile|done|done|constructor|by intros ? ? ?].
    + by intros i j Ti Tj x Hij [? [-> _]%Hnodes] [? [-> _]%Hnodes].
  - cbn [room fs_empty]. unfold free, free_bits. rewrite Emax. apply filter_prefix; [cbn; lia|].
    intros k Hkr. rewrite taken_false, Hk by lia. rewrite Hdb by (rewrite Emax; done). tauto.
Qed.

(** [create] on a device makes an empty file system. *)
Lemma create_represents total b s Q : areas_ok total b -> device_is s total -> st_fs s = false ->
  (forall efs s', efs = efs_of_super (create_areas total b) -> represents efs (fs_empty efs total) s' -> Q efs s') ->
  pwp (EasyFileSystem_create total b) Q s.
Proof.
  intros Ha [Hd Hdom] Hl HQ. pose proof Hd as [Hh _].
  eapply pwp_mono; [apply pwp_dom; [done|]; eapply (create_spec total b s (fun efs s' => efs = efs_of_super (create_areas total b) /\ created total b efs s' /\ st_fs s' = false)); [done|done|]|].
  - intros s' Hc Hl'. split_and!; [done|done|congruence].
  - intros efs s' [(-> & Hc & Hl') Hdom']. apply HQ; [done|]. apply (created_represents total b s'); [done..|].
    intros id Hid. by apply Hdom, Hdom'.
Qed.

(** C2: easy-fs implements its specification.  [create] on a device of [total]
    blocks followed by any sequence of calls on any inodes that the abstract
    machine accepts ([create_as], [find], [ls], [read_at], [write_at], [size],
    [clear], [link], [rename], [detach], [unlink], [set_parent_inode]) runs to its
    end - no panic, no lock taken twice, no block the device does not have - and
    every call gives the machine's answer; the device then represents the
    machine's state: each inode's bytes or entries are those of the map, no block
    belongs to two inodes, the bitmaps agree with the map and exactly the blocks
    the machine counts are free. *)
Theorem file_system_refines total b s ops answers st : let efs := efs_of_super (create_areas total b) in
  areas_ok total b -> device_is s total -> st_fs s = false ->
  fs_steps efs ops (fs_empty efs total) = Some (answers, st) ->
  pwp (efs' ← EasyFileSystem_create total b; rs ← fs_calls efs' ops; mret rs)
    (fun rs s' => rs = answers /\ represents efs st s') s.
Proof.
  intros efs Ha Hd Hl Hst. apply pwp_bind. apply (create_represents total b s); [done..|]. intros efs' s1 -> Hrep.
  apply pwp_bind. eapply pwp_mono; [by eapply fs_steps_refine|]. intros rs s2 Hrs. by apply pwp_mret.
Qed.

(** A directory and a file in it are made, the file is written, grown, read,
    renamed and removed. *)
Definition demo_ops : list fs_op :=
  [FsCreate 0 [100] Directory; FsCreate 1 [97] File; FsCreate 1 [97] File; FsWrite 2 0 (replicate 600 7); FsWrite 2 600 [8; 9];
   FsRead 2 598 (replicate 5 0); FsUnlink 0 [100]; FsRename 1 [97] [98]; FsLs 1; FsFind 1 [98]; FsUnlink 1 [98]; FsUnlink 0 [100]; FsLs 0].

(** A device of [n] blocks. *)
Definition device_of (n : nat) : gmap Z (list Z) := list_to_map ((fun i => (Z.of_nat i, demo_block 3)) <$> seq 0 n).

Lemma device_of_is n : device_is (mkStore (device_of n) [] false) (Z.of_nat n).
Proof.
  split; [split; [done|]|].
  - intros i Hi. exists (demo_block 3). split; [|split; [done|by apply Forall_replicate]]. cbn [st_blocks]. unfold device_of. apply elem_of_list_to_map_1.
    + rewrite <- list_fmap_compose. apply NoDup_fmap_2; [intros ? ?; cbn; lia|apply NoDup_seq].
    + apply list_elem_of_fmap. exists (Z.to_nat i). split; [rewrite Z2Nat.id by lia; done|apply elem_of_seq; lia].
  - intros i [d Hi]. cbn [st_blocks] in Hi. unfold device_of in Hi. apply elem_of_list_to_map_2, list_elem_of_fmap in Hi as (j & [= -> ->] & Hj%elem_of_seq). lia.
Qed.

Lemma small_device_is : device_is (mkStore small_device [] false) 1200.
Proof. exact (device_of_is 1200). Qed.

Lemma file_system_refines_witness : exists s',
  run (efs' ← EasyFileSystem_create 1200 1; rs ← fs_calls efs' demo_ops; mret rs) (mkStore small_device [] false) =
    Ok ([ANode (Some (mkInodeRef 2 132)); ANode (Some (mkInodeRef 2 264)); ANode None; ANumber 600; ANumber 2;
         ARead (4, [7; 7; 8; 9; 0]); AUnlinked None; ABool true; ANames [[98]]; ANode (Some (mkInodeRef 2 264)); AUnlinked (Some 2); AUnlinked (Some 1);
         ANames []], s').
Proof.
  destruct (pwp_run _ _ _ (file_system_refines 1200 1 (mkStore small_device [] false) demo_ops _ _ ltac:(split; lia) small_device_is eq_refl ltac:(vm_compute; reflexivity)))
    as (r & s' & Hrun & -> & _).
  exists s'. exact Hrun.
Defined.
