(* ===== verification/FsTree.v ===== *)
(** * The directories of the abstract machine form a tree

    A file system that is only changed by making, writing, emptying, renaming
    and removing files and directories keeps the shape of a tree: every entry
    names an inode in use, no inode has two names, and a directory's parent is
    the directory that names it.  So the paths of its inodes mean what
    [lookup_path_walks] says. *)

From S2P Require Import Prelude BlockCache Bitmap Layout Tree FileData Codec Efs EfsProps Vfs VfsProps Directory PageTable Process Files FileTree FileSystem FsRefine.

Definition child (ft : gmap Z fnode) (id : Z) (name : list Z) : option Z :=
  match ft !! id with Some (FDir _ es) => dir_lookup name es | _ => None end.

(** The parent of a directory. *)
Definition parent_of (ft : gmap Z fnode) (id : Z) : option Z := match ft !! id with Some (FDir p _) => Some p | _ => None end.

Record tree_ok (ft : gmap Z fnode) : Prop := {
  ok_root : parent_of ft 0 = Some 0;
  ok_names id p es : ft !! id = Some (FDir p es) -> NoDup (names es);
  ok_entry a n j : child ft a n = Some j -> is_Some (ft !! j) /\ j <> 0;
  ok_once a n b m j : child ft a n = Some j -> child ft b m = Some j -> a = b /\ n = m;
  ok_up a n j q : child ft a n = Some j -> parent_of ft j = Some q -> q = a;
  ok_linked j q : parent_of ft j = Some q -> j <> 0 -> exists n, child ft q n = Some j
}.

(** ** How the operations change the tree *)

Lemma dir_lookup_add name es e n : dir_lookup name es = None -> dir_lookup n (es ++ [(name, e)]) = if decide (n = name) then Some e else dir_lookup n es.
Proof.
  intros Hk. rewrite dir_lookup_app. cbn [fst snd]. case_decide as E.
  - subst. rewrite Hk. by rewrite (proj2 (beq_true name name)).
  - destruct (dir_lookup n es); [done|]. destruct (beq name n) eqn:Eb; [|done]. apply beq_true in Eb. congruence.
Qed.

Lemma dir_lookup_delete name es j n : NoDup (names es) -> find_entry name es = Some j ->
  dir_lookup n (delete j es) = if decide (n = name) then None else dir_lookup n es.
Proof.
  intros Hnd Hj. destruct (find_entry_lookup _ _ _ Hj) as [id Hid]. rewrite !dir_lookup_map, (entries_map_delete es j name id) by done.
  case_decide as E; [subst; apply lookup_delete_eq|by rewrite lookup_delete_ne].
Qed.

Lemma names_add name es e : NoDup (names es) -> dir_lookup name es = None -> NoDup (names (es ++ [(name, e)])).
Proof.
  intros Hnd Hk. unfold names. rewrite fmap_app. apply NoDup_app. split; [done|]. split; [|apply NoDup_singleton].
  intros x Hx ->%list_elem_of_singleton. by apply (dir_lookup_absent es name).
Qed.

(** The tree does not depend on what the files hold. *)
Lemma tree_ok_ext ft ft' : tree_ok ft -> (forall id, is_Some (ft' !! id) <-> is_Some (ft !! id)) -> (forall id, parent_of ft' id = parent_of ft id) ->
  (forall id n, child ft' id n = child ft id n) -> (forall id p es, ft' !! id = Some (FDir p es) -> NoDup (names es)) -> tree_ok ft'.
Proof.
  intros [H1 H2 H3 H4 H5 H6] Hs Hp Hc Hn. split.
  - by rewrite Hp.
  - done.
  - intros a n j. rewrite Hc, Hs. apply H3.
  - intros a n b m j. rewrite !Hc. apply H4.
  - intros a n j q. rewrite Hc, Hp. apply H5.
  - intros j q. rewrite Hp. intros Hj Hj0. destruct (H6 j q Hj Hj0) as [n Hx]. exists n. by rewrite Hc.
Qed.

Lemma tree_ok_file ft id c c' : tree_ok ft -> ft !! id = Some (FFile c) -> tree_ok (<[id := FFile c']> ft).
Proof.
  intros Hok Hid. assert (forall k, k <> id -> <[id := FFile c']> ft !! k = ft !! k) as Hne by (intros; by apply lookup_insert_ne).
  apply (tree_ok_ext ft); [done|..]; intros k; (destruct (decide (k = id)) as [->|Hk]; [|unfold parent_of, child; rewrite Hne by done; eauto using ok_names]).
  - rewrite lookup_insert_eq, Hid. split; eauto.
  - unfold parent_of. by rewrite lookup_insert_eq, Hid.
  - intros n. unfold child. by rewrite lookup_insert_eq, Hid.
  - intros p es. by rewrite lookup_insert_eq.
Qed.

Section Entries.
Context (ft : gmap Z fnode) (Hok : tree_ok ft) (d par : Z) (es : list (list Z * Z)) (Hd : ft !! d = Some (FDir par es)).

Lemma child_self n : child ft d n = dir_lookup n es.
Proof using Hd. unfold child. by rewrite Hd. Qed.

Lemma tree_ok_create p name t : ft !! p = None -> dir_lookup name es = None ->
  tree_ok (<[d := FDir par (es ++ [(name, p)])]> (<[p := new_node t d]> ft)).
Proof using Hok Hd.
  intros Hp Hk. set (ft' := <[d := _]> _). assert (d <> p) as Hdp by congruence.
  assert (forall a, a <> d -> a <> p -> ft' !! a = ft !! a) as Hother by (intros; unfold ft'; by rewrite !lookup_insert_ne).
  assert (ft' !! d = Some (FDir par (es ++ [(name, p)]))) as Ed by apply lookup_insert_eq.
  assert (ft' !! p = Some (new_node t d)) as Ep by (unfold ft'; by rewrite lookup_insert_ne, lookup_insert_eq).
  assert (forall a n, child ft' a n = if decide (a = d /\ n = name) then Some p else child ft a n) as Hc.
  { intros a n. unfold child. destruct (decide (a = d)) as [->|Ha].
    - rewrite Ed, Hd, dir_lookup_add by done. repeat case_decide; naive_solver.
    - rewrite decide_False by naive_solver. destruct (decide (a = p)) as [->|Hap]; [|by rewrite Hother]. rewrite Ep, Hp. by destruct t. }
  assert (forall a, a <> p -> parent_of ft' a = parent_of ft a) as Hpar.
  { intros a Ha. unfold parent_of. destruct (decide (a = d)) as [->|Hne]; [by rewrite Ed, Hd|by rewrite Hother]. }
  assert (forall a n, child ft a n = Some p -> False) as Hnew.
  { intros a n Ha. destruct (ok_entry ft Hok a n p Ha) as [[x Hx] _]. congruence. }
  assert (p <> 0) as Hp0.
  { intros ->. pose proof (ok_root ft Hok) as Hr. unfold parent_of in Hr. by rewrite Hp in Hr. }
  split.
  - rewrite Hpar by done. apply (ok_root ft Hok).
  - intros a q l. destruct (decide (a = d)) as [->|Ha]; [rewrite Ed; intros [= <- <-]; apply names_add; [by eapply ok_names|done]|].
    destruct (decide (a = p)) as [->|Hap]; [rewrite Ep; destruct t; cbn; intros [= <- <-]; constructor|]. rewrite Hother by done. by apply ok_names.
  - intros a n j. rewrite Hc. case_decide; [intros [= <-]; by rewrite Ep|]. intros Ha. destruct (ok_entry ft Hok a n j Ha) as [[x Hx] Hj0]. split; [|done].
    destruct (decide (j = d)) as [->|Hjd]; [rewrite Ed; eauto|]. rewrite Hother; [eauto|done|congruence].
  - intros a n b m j. rewrite !Hc. repeat case_decide; intros E1 E2; simplify_eq; [naive_solver|by destruct (Hnew b m)|by destruct (Hnew a n)|by eapply ok_once].
  - intros a n j q. rewrite Hc. case_decide as Ha.
    + intros [= <-]. unfold parent_of. rewrite Ep. destruct t; cbn; [done|]. intros [= <-]. naive_solver.
    + intros Hj. rewrite Hpar by (intros ->; by eapply Hnew). by eapply ok_up.
  - intros j q. destruct (decide (j = p)) as [->|Hjp].
    + unfold parent_of. rewrite Ep. destruct t; cbn; [done|]. intros [= <-] _. exists name. rewrite Hc. by rewrite decide_True.
    + rewrite Hpar by done. intros Hq Hj0. destruct (ok_linked ft Hok j q Hq Hj0) as [n Hn]. exists n. rewrite Hc. case_decide as Ha; [|done].
      destruct Ha as [-> ->]. by rewrite child_self, Hk in Hn.
Qed.

Lemma tree_ok_unlink t name j n : dir_lookup name es = Some t -> find_entry name es = Some j -> ft !! t = Some n ->
  (forall p e l, n <> FDir p (e :: l)) -> tree_ok (<[d := FDir par (delete j es)]> (delete t ft)).
Proof using Hok Hd.
  intros Hk Hj Hn Hempty. set (ft' := <[d := _]> _). assert (child ft d name = Some t) as Hct by (by rewrite child_self).
  assert (t <> d) as Htd. { intros ->. rewrite Hd in Hn. injection Hn as <-. destruct es as [|e l]; [done|]. by eapply Hempty. }
  assert (forall a, a <> d -> a <> t -> ft' !! a = ft !! a) as Hother by (intros; unfold ft'; by rewrite lookup_insert_ne, lookup_delete_ne).
  assert (ft' !! d = Some (FDir par (delete j es))) as Ed by apply lookup_insert_eq.
  assert (ft' !! t = None) as Et by (unfold ft'; by rewrite lookup_insert_ne, lookup_delete_eq).
  assert (forall m, child ft t m = None) as Hct0.
  { intros m. unfold child. rewrite Hn. destruct n as [p [|e l]|]; [done|by destruct (Hempty p e l)|done]. }
  assert (forall a m, child ft' a m = if decide (a = d /\ m = name) then None else child ft a m) as Hc.
  { intros a m. destruct (decide (a = d)) as [->|Ha].
    - rewrite child_self. unfold child. rewrite Ed, (dir_lookup_delete name) by (done || by eapply ok_names). repeat case_decide; naive_solver.
    - rewrite decide_False by naive_solver. destruct (decide (a = t)) as [->|Hat]; [rewrite Hct0; unfold child; by rewrite Et|unfold child; by rewrite Hother]. }
  assert (forall a, a <> t -> parent_of ft' a = parent_of ft a) as Hpar.
  { intros a Ha. unfold parent_of. destruct (decide (a = d)) as [->|Hne]; [by rewrite Ed, Hd|by rewrite Hother]. }
  assert (parent_of ft' t = None) as Hpt by (unfold parent_of; by rewrite Et).
  destruct (ok_entry ft Hok d name t Hct) as [_ Ht0].
  split.
  - rewrite Hpar by done. apply (ok_root ft Hok).
  - intros a q l. destruct (decide (a = d)) as [->|Ha]; [rewrite Ed; intros [= <- <-]; apply names_delete; by eapply ok_names|].
    destruct (decide (a = t)) as [->|Hat]; [by rewrite Et|]. rewrite Hother by done. by apply ok_names.
  - intros a m k. rewrite Hc. case_decide as Ha; [done|]. intros Hk'. destruct (ok_entry ft Hok a m k Hk') as [[x Hx] Hk0]. split; [|done].
    assert (k <> t) by (intros ->; apply Ha; by eapply ok_once). destruct (decide (k = d)) as [->|Hkd]; [rewrite Ed; eauto|]. rewrite Hother; eauto.
  - intros a m b l k. rewrite !Hc. repeat case_decide; try done. by eapply ok_once.
  - intros a m k q. rewrite Hc. case_decide; [done|]. intros Hk'. destruct (decide (k = t)) as [->|Hkt]; [by rewrite Hpt|]. rewrite Hpar by done. by eapply ok_up.
  - intros k q. destruct (decide (k = t)) as [->|Hkt]; [by rewrite Hpt|]. rewrite Hpar by done. intros Hq Hk0.
    destruct (ok_linked ft Hok k q Hq Hk0) as [m Hm]. exists m. rewrite Hc. case_decide as Ha; [|done]. destruct Ha as [-> ->]. congruence.
Qed.

Lemma tree_ok_rename old new i j : dir_lookup old es = Some i -> find_entry old es = Some j -> dir_lookup new es = None ->
  tree_ok (<[d := FDir par (delete j (es ++ [(new, i)]))]> ft).
Proof using Hok Hd.
  intros Hk Hj Hn. set (ft' := <[d := _]> _). assert (child ft d old = Some i) as Hci by (by rewrite child_self).
  assert (old <> new) as Hon by congruence.
  assert (forall a, a <> d -> ft' !! a = ft !! a) as Hother by (intros; unfold ft'; by rewrite lookup_insert_ne).
  assert (ft' !! d = Some (FDir par (delete j (es ++ [(new, i)])))) as Ed by apply lookup_insert_eq.
  assert (NoDup (names (es ++ [(new, i)]))) as Hnd by (apply names_add; [by eapply ok_names|done]).
  assert (forall a m, child ft' a m = if decide (a = d /\ m = old) then None else if decide (a = d /\ m = new) then Some i else child ft a m) as Hc.
  { intros a m. destruct (decide (a = d)) as [->|Ha].
    - rewrite child_self. unfold child. rewrite Ed, (dir_lookup_delete old), dir_lookup_add by (done || by apply find_entry_app_Some). repeat case_decide; naive_solver.
    - rewrite !decide_False by naive_solver. unfold child. by rewrite Hother. }
  assert (forall a, parent_of ft' a = parent_of ft a) as Hpar.
  { intros a. unfold parent_of. destruct (decide (a = d)) as [->|Hne]; [by rewrite Ed, Hd|by rewrite Hother]. }
  assert (forall a, is_Some (ft !! a) -> is_Some (ft' !! a)) as Hs.
  { intros a Ha. destruct (decide (a = d)) as [->|Hne]; [rewrite Ed; eauto|by rewrite Hother]. }
  (* the entry that moved *)
  assert (forall a m k, child ft' a m = Some k -> exists m', child ft a m' = Some k /\ (m' = m \/ m = new /\ m' = old)) as Hback.
  { intros a m k. rewrite Hc. case_decide; [done|]. case_decide as Ha; [|eauto]. intros [= <-]. destruct Ha as [-> ->]. eauto. }
  split.
  - rewrite Hpar. apply (ok_root ft Hok).
  - intros a q l. destruct (decide (a = d)) as [->|Ha]; [rewrite Ed; intros [= <- <-]; by apply names_delete|]. rewrite Hother by done. by apply ok_names.
  - intros a m k (m' & Hm & _)%Hback. destruct (ok_entry ft Hok a m' k Hm). auto.
  - intros a m b l k. rewrite !Hc. repeat case_decide; intros E1 E2; try done; simplify_eq.
    + naive_solver.
    + destruct (ok_once ft Hok b l d old k E2 Hci) as [-> ->]. naive_solver.
    + destruct (ok_once ft Hok a m d old k E1 Hci) as [-> ->]. naive_solver.
    + by eapply ok_once.
  - intros a m k q (m' & Hm & _)%Hback. rewrite Hpar. by eapply ok_up.
  - intros k q. rewrite Hpar. intros Hq Hk0. destruct (ok_linked ft Hok k q Hq Hk0) as [m Hm]. destruct (decide (q = d /\ m = old)) as [[-> ->]|Hne].
    + exists new. rewrite Hc, decide_False by naive_solver. rewrite decide_True by done. congruence.
    + exists m. rewrite Hc, decide_False by done. case_decide as Ha; [|done]. destruct Ha as [-> ->]. by rewrite child_self, Hn in Hm.
Qed.

End Entries.

(** ** The operations that keep the tree *)

(** [link] gives a second name to an inode, [detach] takes a name away from
    one that is still in use, and [set_parent_inode] and [clear] do as they are
    told: rename and unlink are made of them, with the checks that matter. *)
Definition keeps_tree (op : fs_op) (st : FsState) : Prop :=
  match op with
  | FsLink _ _ _ | FsDetach _ _ | FsSetParent _ _ => False
  | FsClear id => exists c, nodes st !! id = Some (FFile c)
  | _ => True
  end.

Lemma step_tree_ok efs op st a st' : fs_step efs op st = Some (a, st') -> keeps_tree op st -> tree_ok (nodes st) -> tree_ok (nodes st').
Proof.
  intros Hst Hkeep Hok. destruct op as [dir name t|dir name|dir|id off buf|id off buf|id|id|dir name t|dir old new|dir name|dir name|id parent]; cbn [fs_step keeps_tree] in *; try done.
  - destruct (nodes st !! dir) as [[par es|]|] eqn:Ed; [|done..]. destruct (reserved_name name); [by simplify_eq|].
    destruct (dir_lookup name es) eqn:Ek; [by simplify_eq|]. cbv zeta in Hst. case_decide; [|done]. simplify_eq. cbn [nodes with_entry].
    apply tree_ok_create; [done|done|apply fresh_None|done].
  - by repeat case_match; simplify_eq.
  - by repeat case_match; simplify_eq.
  - by repeat case_match; simplify_eq.
  - destruct (nodes st !! id) as [[|c]|] eqn:Ed; [done| |done]. cbv zeta in Hst. case_decide; [|done]. simplify_eq. by eapply tree_ok_file.
  - by repeat case_match; simplify_eq.
  - destruct Hkeep as [c Hc]. rewrite Hc in Hst. simplify_eq. by eapply tree_ok_file.
  - destruct (nodes st !! dir) as [[par es|]|] eqn:Ed; [|done..]. destruct (reserved_name old || reserved_name new); [by simplify_eq|].
    destruct (dir_lookup old es) as [i|] eqn:Ek; [|by simplify_eq]. destruct (find_entry old es) as [j|] eqn:Ej; [|by simplify_eq].
    destruct (dir_lookup new es) eqn:En; [by simplify_eq|]. case_decide; [|done]. simplify_eq. by apply (tree_ok_rename _ Hok dir par es Ed old).
  - destruct (nodes st !! dir) as [[par es|]|] eqn:Ed; [|done..]. destruct (reserved_name name); [by simplify_eq|].
    destruct (dir_lookup name es) as [t|] eqn:Ek; [|by simplify_eq]. destruct (find_entry name es) as [j|] eqn:Ej; [|by simplify_eq].
    destruct (nodes st !! t) as [n|] eqn:Et; [|done].
    assert ((forall p e l, n <> FDir p (e :: l)) /\ st' = mkFs (<[dir := FDir par (delete j es)]> (delete t (nodes st))) (room st + tree_len (DiskInode__data_blocks (node_size n))) \/
      nodes st' = nodes st) as [[Hne ->]| ->]; [destruct n as [p [|e l]|c]; simplify_eq; auto| |done].
    by eapply tree_ok_unlink.
Qed.

Fixpoint all_keep_tree (efs : EasyFileSystem) (ops : list fs_op) (st : FsState) : Prop :=
  match ops with
  | [] => True
  | op :: ops' => keeps_tree op st /\ match fs_step efs op st with Some (_, st') => all_keep_tree efs ops' st' | None => True end
  end.

Lemma steps_tree_ok efs ops : forall st answers st', fs_steps efs ops st = Some (answers, st') -> all_keep_tree efs ops st -> tree_ok (nodes st) -> tree_ok (nodes st').
Proof.
  induction ops as [|op ops IH]; intros st answers st' Hst Hk Hok; cbn [fs_steps all_keep_tree] in *; [by simplify_eq|].
  destruct (fs_step efs op st) as [[a st1]|] eqn:E1; [|done]. cbn [mbind option_bind fst snd] in Hst.
  destruct (fs_steps efs ops st1) as [[rest st2]|] eqn:E2; [|done]. cbn in Hst. simplify_eq. destruct Hk as [Hk1 Hk2].
  eapply IH; [done|done|by eapply step_tree_ok].
Qed.

Lemma tree_ok_empty efs total : tree_ok (nodes (fs_empty efs total)).
Proof.
  assert (forall id n, nodes (fs_empty efs total) !! id = Some n -> id = 0 /\ n = FDir 0 []) as Hn.
  { intros id n Hn. cbn [nodes fs_empty] in Hn. by apply lookup_singleton_Some in Hn as [<- <-]. }
  assert (forall a n, child (nodes (fs_empty efs total)) a n = None) as Hc.
  { intros a n. unfold child. destruct (_ !! a) as [x|] eqn:E; [|done]. by apply Hn in E as [-> ->]. }
  assert (forall a q, parent_of (nodes (fs_empty efs total)) a = Some q -> a = 0) as Hp.
  { intros a q. unfold parent_of. destruct (_ !! a) as [x|] eqn:E; [|done]. by apply Hn in E as [-> ->]. }
  split.
  - done.
  - intros id p es Hid. apply Hn in Hid as [_ [= -> ->]]. constructor.
  - intros a n j. by rewrite Hc.
  - intros a n b m j. by rewrite Hc.
  - intros a n j q. by rewrite Hc.
  - by intros j q ->%Hp.
Qed.

(** ** Paths *)

Definition node_view (n : fnode) : node := match n with FDir p es => NDir p es | FFile _ => NFile end.
Definition tree_of (ft : gmap Z fnode) : gmap Z node := node_view <$> ft.

Lemma tree_of_dir ft id p es : tree_of ft !! id = Some (NDir p es) <-> ft !! id = Some (FDir p es).
Proof. unfold tree_of. rewrite lookup_fmap. destruct (ft !! id) as [[]|]; cbn; split; intros; by simplify_eq. Qed.

Lemma represents_tree_view efs st s : represents efs st s -> tree_ok (nodes st) -> tree_view efs (tree_of (nodes st)) s.
Proof.
  intros (own & Hfs & Hl & _) Hok. pose proof (fa_areas _ _ _ _ Hfs) as Ha. pose proof Ha as [A1 A2 A3 A4 A5].
  assert (forall id, is_Some (tree_of (nodes st) !! id) <-> is_Some (nodes st !! id)) as Hdom by (intros id; unfold tree_of; by rewrite lookup_fmap, fmap_is_Some).
  assert (forall a p es n, nodes st !! a = Some (FDir p es) -> dir_lookup n es = child (nodes st) a n) as Hch by (intros a p es n E; unfold child; by rewrite E).
  split.
  - apply Hfs.
  - done.
  - lia.
  - intros id n Hid. destruct (fa_ids _ _ _ _ Hfs id) as [Hr Hcap]; [apply Hdom; eauto|]. destruct (pos_of efs id Ha ltac:(lia)) as (E1 & _ & Hb).
    unfold is_u32. pose proof (Z.div_pos id 3). lia.
  - intros id p es Hid%tree_of_dir. destruct (fa_node _ _ _ _ Hfs id _ Hid) as (di & T & _ & [Hsl Hm (Hd & _ & Hp)]). exists di, T. split; [|done].
    split; [done|done|done|apply Hfs|done].
  - intros id Hid. unfold tree_of in Hid. rewrite lookup_fmap in Hid. destruct (nodes st !! id) as [[|c]|] eqn:E; [done| |done].
    destruct (fa_node _ _ _ _ Hfs id _ E) as (di & T & _ & [(d & Hsl) _ (Ht & _)]). exists di, d. done.
  - pose proof (ok_root _ Hok) as Hr. unfold parent_of in Hr. destruct (nodes st !! 0) as [[p es|]|] eqn:E; [|done..]. injection Hr as ->. exists es. by apply tree_of_dir.
  - intros id p es Hid%tree_of_dir. assert (exists q es', nodes st !! p = Some (FDir q es')) as (q & es' & E); [|exists q, es'; by apply tree_of_dir].
    assert (parent_of (nodes st) id = Some p) as Hp by (unfold parent_of; by rewrite Hid).
    destruct (decide (id = 0)) as [->|Hne]; [rewrite (ok_root _ Hok) in Hp; injection Hp as <-; eauto|].
    destruct (ok_linked _ Hok id p Hp Hne) as [n Hn]. unfold child in Hn. destruct (nodes st !! p) as [[q es'|]|]; [eauto|done..].
  - intros id p es name j Hid%tree_of_dir Hk. rewrite (Hch id p es) in Hk by done. apply Hdom. by apply (ok_entry _ Hok id name j).
  - intros id p es name j q es' Hid%tree_of_dir Hk Hj%tree_of_dir. rewrite (Hch id p es) in Hk by done. eapply (ok_up _ Hok id name j); [done|].
    unfold parent_of. by rewrite Hj.
Qed.

(** C3: the inodes form a tree.  A file system made by [create] and changed by
    any sequence of calls the specification accepts, with [create_as], [write_at],
    [rename] and [unlink] and the emptying of files for the changes, is a tree at
    the end: every entry names an inode in use other than the root, no inode has
    two names, a directory's parent is the directory that names it.  So on the
    device that results [lookup_path] of any path from any directory runs without
    a change and leads where the specification's tree says. *)
Theorem file_system_is_tree total b s ops answers st : let efs := efs_of_super (create_areas total b) in
  areas_ok total b -> device_is s total -> st_fs s = false ->
  fs_steps efs ops (fs_empty efs total) = Some (answers, st) -> all_keep_tree efs ops (fs_empty efs total) ->
  pwp (efs' ← EasyFileSystem_create total b; _ ← fs_calls efs' ops; mret efs')
    (fun efs' s' => efs' = efs /\ tree_ok (nodes st) /\ forall id p es path, nodes st !! id = Some (FDir p es) ->
       run (Inode_lookup_path efs (inode_handle efs id) path) s' = Ok (inode_handle efs <$> tree_lookup (tree_of (nodes st)) id path, s')) s.
Proof.
  intros efs Ha Hd Hl Hst Hk. apply pwp_bind. apply (create_represents total b s); [done..|]. intros efs' s1 -> Hrep.
  apply pwp_bind. eapply pwp_mono; [by eapply fs_steps_refine|]. intros rs s2 [_ Hrep2]. apply pwp_mret. split; [done|].
  assert (tree_ok (nodes st)) as Hok by (eapply steps_tree_ok; [done|done|apply tree_ok_empty]). split; [done|]. intros id p es path Hid.
  eapply lookup_path_walks; [by apply represents_tree_view|by apply tree_of_dir].
Qed.

(** The path [d/../d/b] of the demonstration before the file is removed. *)
Lemma file_system_is_tree_witness : exists efs s',
  run (efs' ← EasyFileSystem_create 1200 1; _ ← fs_calls efs' (take 10 demo_ops); mret efs') (mkStore small_device [] false) = Ok (efs, s') /\
  run (Inode_lookup_path efs (inode_handle efs 0) [100; 47; 46; 46; 47; 100; 47; 98]) s' = Ok (Some (mkInodeRef 2 264), s').
Proof.
  destruct (pwp_run _ _ _ (file_system_is_tree 1200 1 (mkStore small_device [] false) (take 10 demo_ops) _ _ ltac:(split; lia) small_device_is eq_refl
    ltac:(vm_compute; reflexivity) ltac:(vm_compute; tauto))) as (efs & s' & Hrun & -> & _ & Hpath).
  exists (efs_of_super (create_areas 1200 1)), s'. split; [exact Hrun|].
  rewrite (Hpath 0 0 [([100], 1)] [100; 47; 46; 46; 47; 100; 47; 98] ltac:(vm_compute; reflexivity)). by vm_compute.
Defined.
