(* ===== verification/Image.v ===== *)
(** * The disk image (easy-fs-fuse/src/main.rs)

    The host program that makes the disk the kernel boots from: it creates a
    file system in a file, makes [/bin], [/home] and [/tmp], and copies the user
    programs into them.  The names [read_dir] gives and the contents of the
    host's files are arguments. *)

From S2P Require Import Prelude BlockCache Bitmap Layout Tree FileData Codec Efs EfsProps Vfs VfsProps Directory PageTable Process Files FileTree PathProps FileSystem FsRefine FsTree.

(** ** The file as a block device *)

Definition BlockFile_offset (block_id : Z) : nat := Z.to_nat (block_id * BSZ).

(** [seek] and [read]: a read at the end of the file is short, which the
    assertion refuses. *)
Definition BlockFile_read_block (file : list Z) (block_id : Z) : option block :=
  let buf := slice (BlockFile_offset block_id) BLOCK_SZ file in
  if (length buf =? BLOCK_SZ)%nat then Some buf else None.

(** [seek] and [write]: beyond the end the file grows, with zeros between. *)
Definition BlockFile_write_block (file : list Z) (block_id : Z) (buf : block) : list Z :=
  let o := BlockFile_offset block_id in
  overwrite o buf (file ++ replicate (o - length file) 0).

(** The file as an array of blocks. *)
Definition file_device (file : list Z) (id : Z) : option block := if 0 <=? id then BlockFile_read_block file id else None.

Lemma slice_length_full (f : list Z) o n : (o + n <= length f)%nat -> length (slice o n f) = n.
Proof. intros H. by apply length_slice. Qed.

Lemma file_device_in n file id : length file = (n * BLOCK_SZ)%nat -> is_Some (file_device file id) <-> 0 <= id < Z.of_nat n.
Proof.
  intros Hl. unfold file_device, BlockFile_read_block. destruct (Z.leb_spec 0 id); [|split; [by intros [? ?]|lia]].
  destruct (Z.lt_ge_cases id (Z.of_nat n)) as [Hlt|Hge].
  - rewrite length_slice; [cbn; split; [lia|eauto]|]. rewrite Hl. unfold BlockFile_offset, BLOCK_SZ. lia.
  - assert (length (slice (BlockFile_offset id) BLOCK_SZ file) = 0%nat) as ->.
    { unfold slice. rewrite length_take, length_drop, Hl. unfold BlockFile_offset, BLOCK_SZ. lia. }
    cbn. split; [by intros [? ?]|lia].
Qed.

(** Writing a block of the file is an update of the array. *)
Lemma file_device_write n file id buf j : length file = (n * BLOCK_SZ)%nat -> 0 <= id < Z.of_nat n -> length buf = BLOCK_SZ -> 0 <= j ->
  let file' := BlockFile_write_block file id buf in
  length file' = length file /\ file_device file' j = if j =? id then Some buf else file_device file j.
Proof.
  intros Hl Hid Hb Hj file'. unfold file', BlockFile_write_block. set (o := BlockFile_offset id).
  assert (o + BLOCK_SZ <= length file)%nat as Ho by (unfold o, BlockFile_offset; rewrite Hl; unfold BLOCK_SZ in *; lia).
  replace (o - length file)%nat with 0%nat by lia. cbn [replicate]. rewrite app_nil_r. split; [apply length_overwrite; lia|].
  unfold file_device, BlockFile_read_block. rewrite (proj2 (Z.leb_le 0 j)) by done. destruct (Z.eqb_spec j id) as [->|Hne].
  - fold o. pose proof (slice_overwrite_eq o buf file ltac:(lia)) as E. rewrite Hb in E. rewrite E, Hb. by rewrite Nat.eqb_refl.
  - set (o' := BlockFile_offset j). assert (o' + BLOCK_SZ <= o \/ o + BLOCK_SZ <= o')%nat as Hd by (unfold o, o', BlockFile_offset, BLOCK_SZ; lia).
    assert (slice o' BLOCK_SZ (overwrite o buf file) = slice o' BLOCK_SZ file) as ->; [|done]. apply slice_overwrite_ne; rewrite Hb; [done|]. destruct Hd; [by left|by right].
Qed.

(** ** Packing *)

Definition TOTAL_BLOCKS : Z := 32 * 2048.
Definition BIN : bytes := [98; 105; 110].
Definition HOME : bytes := [104; 111; 109; 101].
Definition TMP : bytes := [116; 109; 112].
Definition INITPROC : bytes := [105; 110; 105; 116; 112; 114; 111; 99].
Definition DOT_RS : bytes := [46; 114; 115].

(** [str::strip_suffix]. *)
Definition strip_suffix (name suffix : bytes) : option bytes :=
  let n := (length name - length suffix)%nat in
  if beq (drop n name) suffix then Some (take n name) else None.

(** The [filter_map] over the directory: an entry that cannot be read, or whose
    name is not UTF-8, is [None]. *)
Definition app_names (entries : list (option bytes)) : list bytes :=
  omap (fun dir_entry => name_with_ext ← dir_entry; strip_suffix name_with_ext DOT_RS) entries.

Section Pack.
Context (host_file : bytes -> option (list Z)) (target_path : bytes).

(** One program: opened on the host, made in the image and written. *)
Definition pack_app (efs : EasyFileSystem) (root_inode bin_dir : Inode) (app : bytes) : prog unit :=
  all_data ← punwrap (host_file (target_path ++ app));
  if beq app INITPROC then
    r ← Inode_create efs root_inode app; inode ← punwrap r;
    _ ← Inode_write_at efs inode 0 all_data; Ret tt
  else
    r ← Inode_create efs bin_dir app; inode ← punwrap r;
    _ ← Inode_write_at efs inode 0 all_data; Ret tt.

Definition easy_fs_pack (entries : list (option bytes)) : prog EasyFileSystem :=
  efs ← EasyFileSystem_create TOTAL_BLOCKS 1;
  pos ← EasyFileSystem_root_inode efs;
  let root_inode := Inode_new pos in
  r ← Inode_create_as efs root_inode BIN Directory; bin_dir ← punwrap r;
  r ← Inode_create_as efs root_inode HOME Directory; _ ← punwrap r;
  r ← Inode_create_as efs root_inode TMP Directory; _ ← punwrap r;
  pfold (fun _ app => pack_app efs root_inode bin_dir app) tt (app_names entries);;
  Ret efs.

(** ** The image *)

(** The directory a program goes to, and its path. *)
Definition app_dir (app : bytes) : Z := if beq app INITPROC then 0 else 1.
Definition app_path (app : bytes) : bytes := render (if beq app INITPROC then [app] else [BIN; app]).

(** A program the image can hold. *)
Record app_ok (app : bytes) (data : list Z) : Prop := {
  ap_proper : proper app;
  ap_name : name_ok app;
  ap_length : (length app <= NAME_LENGTH_LIMIT)%nat;
  ap_data : data <> [];
  ap_bytes : Forall is_byte data;
  ap_size : Z.of_nat (length data) <= 16540 * 512
}.

(** The blocks a program needs: those of its file and those of a directory
    entry at most. *)
Definition app_blocks (app : bytes) : Z :=
  match host_file (target_path ++ app) with Some data => tree_len (DiskInode__data_blocks (Z.of_nat (length data))) + 3 | None => 0 end.

Definition zsum_with (l : list bytes) : Z := foldr (fun app n => app_blocks app + n) 0 l.

(** The file system the program makes. *)
Definition image_efs : EasyFileSystem := efs_of_super (create_areas TOTAL_BLOCKS 1).

Lemma image_efs_eq : image_efs = mkEfs (Bitmap_new 1 1) (Bitmap_new 1058 16) 2 1074.
Proof. reflexivity. Qed.

Abbreviation at_ := (inode_handle image_efs).

Lemma call_create st s d name t p st' Q : represents image_efs st s -> fs_step image_efs (FsCreate d name t) st = Some (ANode (Some (at_ p)), st') ->
  (forall s', represents image_efs st' s' -> Q (Some (at_ p)) s') -> pwp (Inode_create_as image_efs (at_ d) name t) Q s.
Proof.
  intros Hrep Hst HQ. pose proof (fs_step_refines image_efs _ _ _ _ _ Hrep Hst) as Hp. cbn [fs_call] in Hp. apply pwp_bind in Hp.
  eapply pwp_mono; [exact Hp|]. intros i s' [[= ->] Hrep']%pwp_ret. auto.
Qed.

Lemma call_write st s id off buf n st' Q : represents image_efs st s -> fs_step image_efs (FsWrite id off buf) st = Some (ANumber n, st') ->
  (forall s', represents image_efs st' s' -> Q n s') -> pwp (Inode_write_at image_efs (at_ id) off buf) Q s.
Proof.
  intros Hrep Hst HQ. pose proof (fs_step_refines image_efs _ _ _ _ _ Hrep Hst) as Hp. cbn [fs_call] in Hp. apply pwp_bind in Hp.
  eapply pwp_mono; [exact Hp|]. intros i s' [[= ->] Hrep']%pwp_ret. auto.
Qed.

Lemma proper_not_reserved c : proper c -> reserved_name c = false.
Proof.
  intros [H1 H2 H3 _]. unfold reserved_name. destruct c as [|x c]; [done|]. cbn [is_nil orb].
  destruct (beq (x :: c) DOT) eqn:E; [by apply beq_true in E|]. destruct (beq (x :: c) DOTDOT) eqn:E'; [by apply beq_true in E'|done].
Qed.

Lemma entry_cost_bound es : Z.of_nat (length es) + 1 <= 264640 -> entry_cost es <= 3.
Proof.
  intros Hm. apply (blocks_needed_one (mkInode (32 * Z.of_nat (length es)) [] 0 0 Directory 0) (Z.of_nat (length es))); [done|lia|lia].
Qed.

Lemma fresh_dom ft p : 0 <= p -> (forall k, is_Some (ft !! k) <-> 0 <= k < p) -> fresh ft = p /\ ft !! p = None.
Proof.
  intros Hp Hd. assert (ft !! p = None) as Hn by (apply eq_None_not_Some; rewrite Hd; lia). split; [|done].
  apply fresh_first; [done|done|]. intros k Hk. apply Hd. lia.
Qed.

(** A new entry of a directory of the image. *)
Lemma image_create st d par es name t p :
  nodes st !! d = Some (FDir par es) -> dir_lookup name es = None -> reserved_name name = false -> entry_ok (name, p) ->
  0 <= p < 3168 -> (forall k, is_Some (nodes st !! k) <-> 0 <= k < p) -> Z.of_nat (length es) + 1 <= 264640 -> 3 <= room st ->
  fs_step image_efs (FsCreate d name t) st =
    Some (ANode (Some (at_ p)), with_entry d par es name p (mkFs (<[p := new_node t d]> (nodes st)) (room st))).
Proof.
  intros Hd Hk Hr He Hp Hdom Hm Hroom. destruct (fresh_dom (nodes st) p ltac:(lia) Hdom) as [Ef _]. cbn [fs_step].
  rewrite Hd, Hr, Hk, Ef. rewrite decide_True; [done|]. pose proof (entry_cost_bound es Hm). rewrite image_efs_eq.
  assert (Bitmap_maximum (Bitmap_new 1 1) = 4096) as Emax by done.
  split; [cbn [inode_bitmap]; lia|]. split; [change (p < 3168); lia|]. split; [done|]. lia.
Qed.

(** Making a file of [data]. *)
Lemma pack_one st s d par es app data p Q :
  represents image_efs st s -> tree_ok (nodes st) -> nodes st !! d = Some (FDir par es) -> dir_lookup app es = None -> app_ok app data ->
  0 <= p < 3168 -> (forall k, is_Some (nodes st !! k) <-> 0 <= k < p) -> Z.of_nat (length es) + 1 <= 264640 ->
  tree_len (DiskInode__data_blocks (Z.of_nat (length data))) + 3 <= room st ->
  (forall s' st', represents image_efs st' s' -> tree_ok (nodes st') ->
     nodes st' = <[d := FDir par (es ++ [(app, p)])]> (<[p := FFile data]> (nodes st)) ->
     room st - (tree_len (DiskInode__data_blocks (Z.of_nat (length data))) + 3) <= room st' -> Q tt s') ->
  pwp (r ← Inode_create image_efs (at_ d) app; inode ← punwrap r; _ ← Inode_write_at image_efs inode 0 data; Ret tt) Q s.
Proof.
  intros Hrep Hok Hd Hk [A1 A2 A3 A4 A5 A6] Hp Hdom Hm Hroom HQ. destruct (fresh_dom (nodes st) p ltac:(lia) Hdom) as [_ Hpn].
  assert (d <> p) as Hdp by congruence. set (bl := tree_len _) in *.
  assert (0 <= bl) as Hbl.
  { unfold bl. destruct (data_blocks_spec (Z.of_nat (length data))) as [-> _]; [lia|]. pose proof (tree_len_mono 0 ((Z.of_nat (length data) + 511) / 512)). 
    assert (0 <= (Z.of_nat (length data) + 511) / 512 <= 16540) by zdiv_lia. change (tree_len 0) with 0 in *. lia. }
  pose proof (image_create st d par es app File p Hd Hk (proper_not_reserved _ A1) ltac:(split; [done|split; [done|unfold is_u32; cbn; lia]]) Hp Hdom Hm ltac:(lia)) as Hst.
  unfold Inode_create. apply pwp_bind. eapply call_create; [exact Hrep|exact Hst|]. intros s1 Hrep1.
  set (st1 := with_entry _ _ _ _ _ _) in *. apply pwp_bind, pwp_punwrap. exists (at_ p). split; [done|].
  assert (nodes st1 !! p = Some (FFile [])) as Ep by (unfold st1; cbn; by rewrite lookup_insert_ne, lookup_insert_eq).
  pose proof (entry_cost_bound es Hm) as Hec.
  assert (needed 0 (0 + Z.of_nat (length data)) = bl) as En.
  { unfold needed. change (tree_len (DiskInode__data_blocks 0)) with 0. change (0 + Z.of_nat (length data)) with (Z.of_nat (length data)). fold bl. lia. }
  assert (fs_step image_efs (FsWrite p 0 data) st1 = Some (ANumber (Z.of_nat (length data)), mkFs (<[p := FFile data]> (nodes st1)) (room st1 - bl))) as Hst2.
  { cbn [fs_step]. rewrite Ep. change (Z.of_nat (length (@nil Z))) with 0. rewrite En. rewrite decide_True.
    - unfold overwrite. by rewrite take_nil, drop_nil, app_nil_r.
    - split_and!; [lia|lia|done|done|lia|]. unfold st1. cbn [room with_entry]. lia. }
  apply pwp_bind. eapply call_write; [exact Hrep1|exact Hst2|]. intros s2 Hrep2. apply pwp_ret. eapply HQ; [exact Hrep2| | |].
  - eapply step_tree_ok; [exact Hst2|done|]. eapply step_tree_ok; [exact Hst|done|done].
  - cbn [nodes]. unfold st1. cbn [nodes with_entry]. rewrite insert_insert_ne by done. by rewrite insert_insert_eq.
  - cbn [room]. unfold st1. cbn [room with_entry]. lia.
Qed.

(** ** What is in the image after some of the programs *)

Abbreviation data_of app := (host_file (target_path ++ app)).

Record packed (packed_apps : list bytes) (st : FsState) : Prop := {
  pk_tree : tree_ok (nodes st);
  pk_dom k : is_Some (nodes st !! k) <-> 0 <= k < 4 + Z.of_nat (length packed_apps);
  pk_dirs d : d = 0 \/ d = 1 -> exists es, nodes st !! d = Some (FDir 0 es) /\ Z.of_nat (length es) <= 3 + Z.of_nat (length packed_apps) /\
    (forall n, is_Some (dir_lookup n es) -> n ∈ packed_apps \/ d = 0 /\ n ∈ [BIN; HOME; TMP]);
  pk_bin : child (nodes st) 0 BIN = Some 1;
  pk_apps app data : app ∈ packed_apps -> data_of app = Some data ->
    exists id, child (nodes st) (app_dir app) app = Some id /\ nodes st !! id = Some (FFile data);
  pk_room : 64462 - 9 - zsum_with packed_apps <= room st
}.

Lemma zsum_app l app : zsum_with (l ++ [app]) = zsum_with l + app_blocks app.
Proof. unfold zsum_with. rewrite foldr_app. cbn. induction l as [|x l IH]; cbn; [lia|]. rewrite IH. lia. Qed.

Lemma pack_app_eq app : pack_app image_efs (at_ 0) (at_ 1) app =
  (all_data ← punwrap (data_of app); r ← Inode_create image_efs (at_ (app_dir app)) app; inode ← punwrap r;
   _ ← Inode_write_at image_efs inode 0 all_data; Ret tt).
Proof. unfold pack_app, app_dir. destruct (data_of app); [|done]. by destruct (beq app INITPROC). Qed.

(** A directory of the image with one more entry. *)
Lemma child_install ft d par es app p data : ft !! d = Some (FDir par es) -> dir_lookup app es = None -> ft !! p = None -> d <> p ->
  let ft' := <[d := FDir par (es ++ [(app, p)])]> (<[p := FFile data]> ft) in
  child ft' d app = Some p /\ ft' !! p = Some (FFile data) /\
  (forall a n j, child ft a n = Some j -> child ft' a n = Some j) /\ (forall j c, ft !! j = Some (FFile c) -> ft' !! j = Some (FFile c)).
Proof.
  intros Hd Hk Hp Hdp ft'.
  assert (ft' !! d = Some (FDir par (es ++ [(app, p)]))) as Ed by apply lookup_insert_eq.
  assert (forall a, a <> d -> a <> p -> ft' !! a = ft !! a) as Ho by (intros; unfold ft'; by rewrite !lookup_insert_ne).
  split_and!.
  - unfold child. rewrite Ed, dir_lookup_add by done. by rewrite decide_True.
  - unfold ft'. by rewrite lookup_insert_ne, lookup_insert_eq.
  - intros a n j Ha. unfold child in *. destruct (decide (a = d)) as [->|Had].
    + rewrite Ed, dir_lookup_add by done. rewrite Hd in Ha. rewrite decide_False by congruence. done.
    + destruct (decide (a = p)) as [->|Hap]; [by rewrite Hp in Ha|by rewrite Ho].
  - intros j c Hj. rewrite Ho by congruence. done.
Qed.

Lemma packed_step l app data st s :
  packed l st -> represents image_efs st s -> app ∉ l -> data_of app = Some data -> app_ok app data ->
  Z.of_nat (length l) < 3164 -> zsum_with (l ++ [app]) + 9 <= 64462 ->
  pwp (pack_app image_efs (at_ 0) (at_ 1) app) (fun _ s' => exists st', represents image_efs st' s' /\ packed (l ++ [app]) st') s.
Proof.
  intros [P1 P2 P3 P4 P5 P6] Hrep Hni Hdata Hok Hn Hroom. rewrite zsum_app in Hroom.
  assert (app_blocks app = tree_len (DiskInode__data_blocks (Z.of_nat (length data))) + 3) as Eab by (unfold app_blocks; by rewrite Hdata).
  destruct (P3 (app_dir app)) as (es & Hd & Hlen & Hnames); [unfold app_dir; destruct (beq _ _); auto|].
  assert (dir_lookup app es = None) as Hk.
  { apply eq_None_not_Some. intros Hs. destruct (Hnames app Hs) as [?|[Hd0 Hin]]; [done|]. unfold app_dir in Hd0.
    destruct (beq app INITPROC) eqn:E; [|done]. apply beq_true in E as ->. by repeat (apply elem_of_cons in Hin as [Hin|Hin]; [done|]); apply elem_of_nil in Hin. }
  set (p := 4 + Z.of_nat (length l)) in *. destruct (fresh_dom (nodes st) p ltac:(lia) P2) as [_ Hpn].
  assert (app_dir app <> p) as Hdp by (intros E; congruence).
  rewrite pack_app_eq, Hdata. apply pwp_bind, pwp_punwrap. exists data. split; [done|].
  eapply (pack_one st s (app_dir app) 0 es app data p); [done|done|done|done|done|lia|done|lia|lia|].
  intros s' st' Hrep' Hok' Hnodes Hroom'. exists st'. split; [done|].
  destruct (child_install (nodes st) (app_dir app) 0 es app p data Hd Hk Hpn Hdp) as (Hc & Hfile & Hchild & Hfiles). rewrite <- Hnodes in *.
  split.
  - done.
  - intros k. rewrite Hnodes, length_app. cbn [length]. rewrite !lookup_insert_is_Some, P2.
    assert (0 <= app_dir app < 4) by (unfold app_dir; destruct (beq _ _); lia). lia.
  - intros d Hd01. rewrite length_app. cbn [length]. destruct (decide (d = app_dir app)) as [->|Hne].
    + exists (es ++ [(app, p)]). split; [rewrite Hnodes; apply lookup_insert_eq|]. split; [rewrite length_app; cbn [length]; lia|].
      intros n. rewrite dir_lookup_add by done. rewrite elem_of_app, list_elem_of_singleton. case_decide; [by auto|]. intros Hs%Hnames. tauto.
    + destruct (P3 d Hd01) as (es' & Hd' & Hlen' & Hnames'). exists es'. split; [rewrite Hnodes, !lookup_insert_ne by (done || (intros ->; congruence)); done|].
      split; [lia|]. intros n Hs%Hnames'. rewrite elem_of_app. tauto.
  - by apply Hchild.
  - intros app' data' [Hin| ->%list_elem_of_singleton]%elem_of_app Hd'; [|exists p; split; [done|congruence]].
    destruct (P5 app' data' Hin Hd') as (id & H1 & H2). exists id. auto.
  - rewrite zsum_app. lia.
Qed.

(** The three directories. *)
Definition layout_ops : list fs_op := [FsCreate 0 BIN Directory; FsCreate 0 HOME Directory; FsCreate 0 TMP Directory].
Definition layout_state (k : nat) : FsState := default (fs_empty image_efs TOTAL_BLOCKS) (snd <$> fs_steps image_efs (take k layout_ops) (fs_empty image_efs TOTAL_BLOCKS)).

Lemma layout_step k name p : (k, name, p) ∈ [(0%nat, BIN, 1); (1%nat, HOME, 2); (2%nat, TMP, 3)] ->
  fs_step image_efs (FsCreate 0 name Directory) (layout_state k) = Some (ANode (Some (at_ p)), layout_state (S k)).
Proof. intros Hin. repeat (apply elem_of_cons in Hin as [[= -> -> ->]|Hin]; [by vm_compute|]). by apply elem_of_nil in Hin. Qed.

Lemma layout_nodes : layout_state 3 = mkFs {[0 := FDir 0 [(BIN, 1); (HOME, 2); (TMP, 3)]; 1 := FDir 0 []; 2 := FDir 0 []; 3 := FDir 0 []]} 64461.
Proof. vm_compute. reflexivity. Qed.

Lemma packed_start : packed [] (layout_state 3).
Proof.
  assert (tree_ok (nodes (layout_state 3))) as Hok.
  { refine (steps_tree_ok image_efs layout_ops (fs_empty image_efs TOTAL_BLOCKS) _ (layout_state 3) _ _ (tree_ok_empty _ _)); [vm_compute; reflexivity|].
    vm_compute. tauto. }
  rewrite layout_nodes in *. cbn [nodes] in *. split; cbn [nodes room length].
  - done.
  - intros k. rewrite !lookup_insert_is_Some, lookup_singleton_is_Some. lia.
  - intros d [-> | ->]; eexists; (split; [reflexivity|]); (split; [cbn; lia|]); intros n Hn; [|by destruct Hn].
    right. split; [done|]. rewrite dir_lookup_map in Hn. cbn in Hn. unfold entries_map in Hn. cbn in Hn.
    rewrite !lookup_insert_is_Some in Hn. rewrite !elem_of_cons. destruct Hn as [?|[_ [?|[_ [?|[_ Hn]]]]]]; auto. by destruct Hn.
  - by vm_compute.
  - intros app data Hin. by apply elem_of_nil in Hin.
  - cbn. lia.
Qed.

Lemma pack_all apps : forall l st s Q, packed l st -> represents image_efs st s -> NoDup (l ++ apps) ->
  (forall app, app ∈ apps -> exists data, data_of app = Some data /\ app_ok app data) ->
  Z.of_nat (length (l ++ apps)) <= 3164 -> zsum_with (l ++ apps) + 9 <= 64462 ->
  (forall st' s', packed (l ++ apps) st' -> represents image_efs st' s' -> Q tt s') ->
  pwp (pfold (fun _ app => pack_app image_efs (at_ 0) (at_ 1) app) tt apps) Q s.
Proof.
  induction apps as [|app apps IH]; intros l st s Q Hp Hrep Hnd Hdata Hlen Hroom HQ.
  - apply pwp_ret. rewrite app_nil_r in HQ. by eapply HQ.
  - cbn [pfold]. apply pwp_bind. destruct (Hdata app ltac:(by left)) as (data & Hd & Hok).
    assert (l ++ app :: apps = (l ++ [app]) ++ apps) as E by (by rewrite <- app_assoc). rewrite E in *.
    assert (forall l1 l2, zsum_with l1 <= zsum_with (l1 ++ l2)) as Hmono.
    { assert (forall x, 0 <= app_blocks x) as Hnn.
      { intros x. unfold app_blocks. destruct (data_of x) as [c|]; [|lia]. set (n := DiskInode__data_blocks _).
        assert (0 <= n) by (apply Z.div_pos; [unfold u32_wrap; pose proof (Z.mod_pos_bound (Z.of_nat (length c) + BSZ - 1) (2 ^ 32)); lia|lia]).
        pose proof (tree_len_mono n n). lia. }
      intros l1 l2. unfold zsum_with. induction l1 as [|x l1 IHl]; cbn [foldr Datatypes.app]; [|lia]. induction l2 as [|y l2 IH2]; cbn [foldr]; [lia|]. specialize (Hnn y). lia. }
    pose proof (Hmono (l ++ [app]) apps). rewrite !length_app in Hlen. cbn [length] in Hlen.
    eapply pwp_mono; [apply (packed_step l app data st s); [done|done| |done|done|lia|lia]|].
    + apply NoDup_app in Hnd as [Hnd _]. apply NoDup_app in Hnd as (_ & Hni & _). intros Hin. eapply Hni; [exact Hin|by left].
    + intros [] s1 (st1 & Hrep1 & Hp1). eapply (IH (l ++ [app])); [done|done|done| |rewrite !length_app; cbn [length]; lia|done|done].
      intros x Hx. apply Hdata. by right.
Qed.

(** ** Looking a program up *)

Lemma ends_with_proper pre c : proper c -> ends_with_slash (pre ++ c) = false.
Proof.
  intros [Hn _ _ Hs]. unfold ends_with_slash. destruct (exists_last Hn) as (c' & x & ->). rewrite app_assoc, last_snoc.
  apply Forall_app in Hs as [_ Hs]. rewrite Forall_singleton in Hs. apply Z.eqb_neq. exact Hs.
Qed.

Lemma trim_render c rest : proper c -> trim_start (render (c :: rest)) = join_slash (c :: rest).
Proof.
  intros [Hn _ _ Hs]. unfold render. cbn [trim_start]. change (SLASH =? SLASH) with true. destruct c as [|x c]; [done|].
  apply Forall_cons in Hs as [Hx _]. destruct rest; cbn [join_slash Datatypes.app trim_start]; by rewrite (proj2 (Z.eqb_neq x SLASH) Hx).
Qed.

Lemma BIN_proper : proper BIN.
Proof. split; [done..|]. repeat (apply Forall_cons_2; [done|]). apply Forall_nil_2. Qed.

Lemma lookup_app_path ft app id data : proper app -> tree_ok ft -> child ft 0 BIN = Some 1 -> child ft (app_dir app) app = Some id ->
  ft !! id = Some (FFile data) -> tree_lookup (tree_of ft) 0 (app_path app) = Some id.
Proof.
  intros Hp Hok Hbin Hc Hid.
  assert (forall a n j, proper n -> child ft a n = Some j -> tree_step (tree_of ft) a n = Some j) as Hstep.
  { intros a n j [N1 N2 N3 _] Hj. unfold child in Hj. unfold tree_step. destruct (ft !! a) as [[p es|]|] eqn:E; [|done..].
    rewrite (proj2 (tree_of_dir ft a p es) E). destruct (beq n DOT) eqn:E1; [by apply beq_true in E1|]. destruct (beq n DOTDOT) eqn:E2; [by apply beq_true in E2|done]. }
  unfold tree_lookup, app_path, app_dir in *. rewrite split_slash_trim. destruct (beq app INITPROC).
  - rewrite split_slash_render by (by apply Forall_singleton). cbn [tree_walk]. rewrite (Hstep 0 app id) by done. rewrite trim_render by done.
    change (join_slash [app]) with ([] ++ app). by rewrite ends_with_proper.
  - rewrite split_slash_render by (apply Forall_cons_2; [apply BIN_proper|by apply Forall_singleton]). cbn [tree_walk].
    rewrite (Hstep 0 BIN 1) by (done || apply BIN_proper). cbn [tree_walk]. rewrite (Hstep 1 app id) by done. rewrite trim_render by apply BIN_proper.
    change (join_slash [BIN; app]) with (BIN ++ [SLASH] ++ app). rewrite app_assoc. by rewrite ends_with_proper.
Qed.

(** C8: the image holds every program.  On a file of 65,536 blocks, when the
    source directory lists distinct programs whose names fit in an entry and
    whose files are not empty, not too large, at most 3,164 in number and fit on
    the disk with three blocks for each entry, [easy_fs_pack] runs to its end, and
    in the image it leaves every program is found at its path, [/initproc] or
    [/bin/] and its name, and reading it from the beginning gives the bytes of
    the host's file. *)
Theorem image_holds_every_app entries s : device_is s TOTAL_BLOCKS -> st_fs s = false -> NoDup (app_names entries) ->
  (forall app, app ∈ app_names entries -> exists data, data_of app = Some data /\ app_ok app data) ->
  Z.of_nat (length (app_names entries)) <= 3164 -> zsum_with (app_names entries) + 9 <= 64462 ->
  pwp (easy_fs_pack entries) (fun efs s' => forall app data, app ∈ app_names entries -> data_of app = Some data ->
    exists inode, run (Inode_lookup_path efs (inode_handle efs 0) (app_path app)) s' = Ok (Some inode, s') /\
      forall buf, Z.of_nat (length buf) < 2 ^ 64 ->
        run (Inode_read_at inode 0 buf) s' =
          Ok ((Z.min (Z.of_nat (length buf)) (Z.of_nat (length data)), overwrite 0 (take (length buf) data) buf), s')) s.
Proof.
  intros Hdev Hl Hnd Hdata Hlen Hroom. unfold easy_fs_pack. apply pwp_bind. apply (create_represents TOTAL_BLOCKS 1 s); [split; unfold TOTAL_BLOCKS; lia|done|done|].
  intros efs s0 E Hrep0. change (efs = image_efs) in E. subst efs. pose proof Hrep0 as (own & Hfs0 & Hl0 & _).
  assert (layout_state 0 = fs_empty image_efs TOTAL_BLOCKS) as E0 by done. rewrite <- E0 in Hrep0.
  apply pwp_bind. unfold EasyFileSystem_root_inode. apply pwp_bind.
  eapply fs_locked; [exact Hfs0|done|]. intros _. apply pwp_ret. rewrite set_fs_back by done.
  eapply fs_locked; [exact Hfs0|done|]. intros _. apply pwp_ret. rewrite set_fs_back by done. change (Inode_new (EasyFileSystem_get_disk_inode_pos image_efs 0)) with (at_ 0).
  apply pwp_bind. eapply call_create; [exact Hrep0|apply (layout_step 0 BIN 1); by left|]. intros s1 Hrep1. apply pwp_bind, pwp_punwrap. eexists. split; [done|].
  apply pwp_bind. eapply call_create; [exact Hrep1|apply (layout_step 1 HOME 2); by right; left|]. intros s2 Hrep2. apply pwp_bind, pwp_punwrap. eexists. split; [done|].
  apply pwp_bind. eapply call_create; [exact Hrep2|apply (layout_step 2 TMP 3); by right; right; left|]. intros s3 Hrep3. apply pwp_bind, pwp_punwrap. eexists. split; [done|].
  apply pwp_bind. eapply (pack_all (app_names entries) []); [apply packed_start|exact Hrep3|done|done|done|done|]. cbn [Datatypes.app].
  intros st s' [P1 P2 P3 P4 P5 P6] Hrep. apply pwp_ret. intros app data Hin Hd. destruct (P5 app data Hin Hd) as (id & Hc & Hid).
  destruct (Hdata app Hin) as (data' & Hd' & Hok). assert (data' = data) as -> by congruence.
  assert (exists es, nodes st !! 0 = Some (FDir 0 es)) as [es Hroot] by (destruct (P3 0 ltac:(by left)) as (es & ? & _); eauto).
  exists (at_ id). split.
  - rewrite (lookup_path_walks image_efs (tree_of (nodes st)) s' 0 0 es) by (by apply represents_tree_view || by apply tree_of_dir).
    rewrite (lookup_app_path (nodes st) app id data) by (apply Hok || done). done.
  - intros buf Hbuf. apply reads_pwp. destruct Hrep as (own' & Hfs' & Hl' & _). eapply fs_read; [exact Hfs'|done|exact Hid|done|lia|].
    split; [|done]. f_equal; [lia|]. f_equal. unfold slice. rewrite drop_0.
    match goal with |- context [Z.to_nat ?m] => assert (Z.to_nat m = Nat.min (length buf) (length data)) as -> by lia end.
    rewrite <- take_take. by rewrite (take_ge data).
Qed.

End Pack.

(** Two programs, a file that is not one and an entry that cannot be read. *)
Definition demo_target : bytes := [116; 47].
Definition demo_sh : bytes := [115; 104].
Definition demo_entries : list (option bytes) := [Some (INITPROC ++ DOT_RS); Some [110; 46; 116; 120; 116]; None; Some (demo_sh ++ DOT_RS)].
Definition demo_host (path : bytes) : option (list Z) :=
  if beq path (demo_target ++ INITPROC) then Some [1; 2; 3] else if beq path (demo_target ++ demo_sh) then Some [4; 5] else None.

Lemma demo_app_ok app data : (app, data) ∈ [(INITPROC, [1; 2; 3]); (demo_sh, [4; 5])] -> app_ok app data.
Proof.
  intros Hin. assert (app <> [] /\ app <> DOT /\ app <> DOTDOT /\ Forall (fun x => x <> SLASH) app /\ entry_ok (app, 0) /\ data <> [] /\
    Forall (fun b => 0 <= b < 256) data /\ Z.of_nat (length data) <= 16540 * 512) as (H1 & H2 & H3 & H4 & (H5 & H6 & _) & H7 & H8 & H9).
  2: { split; [by split|exact H5|exact H6|exact H7|exact H8|exact H9]. }
  repeat (apply elem_of_cons in Hin as [[= -> ->]|Hin]; [apply (bool_decide_unpack _); by vm_compute|]). by apply elem_of_nil in Hin.
Qed.

Lemma image_holds_every_app_witness : exists efs inode s',
  run (easy_fs_pack demo_host demo_target demo_entries) (mkStore (device_of (Z.to_nat TOTAL_BLOCKS)) [] false) = Ok (efs, s') /\
  run (Inode_lookup_path efs (inode_handle efs 0) [47; 98; 105; 110; 47; 115; 104]) s' = Ok (Some inode, s') /\
  run (Inode_read_at inode 0 [0; 0; 0]) s' = Ok ((2, [4; 5; 0]), s').
Proof.
  assert (device_is (mkStore (device_of (Z.to_nat TOTAL_BLOCKS)) [] false) TOTAL_BLOCKS) as Hdev.
  { pose proof (device_of_is (Z.to_nat TOTAL_BLOCKS)) as H. rewrite Z2Nat.id in H; [exact H|done]. }
  assert (app_names demo_entries = [INITPROC; demo_sh]) as Eapps by done.
  destruct (pwp_run _ _ _ (image_holds_every_app demo_host demo_target demo_entries _ Hdev eq_refl
    ltac:(rewrite Eapps; apply NoDup_cons; split; [by intros ?%list_elem_of_singleton|apply NoDup_singleton])
    ltac:(rewrite Eapps; intros app [-> | ->%list_elem_of_singleton]%elem_of_cons; eexists; (split; [reflexivity|]); apply demo_app_ok; [by left|by right; left])
    ltac:(rewrite Eapps; cbn; lia) ltac:(rewrite Eapps; vm_compute; congruence))) as (efs & s' & Hrun & Happs).
  destruct (Happs demo_sh [4; 5]) as (inode & Hpath & Hread); [rewrite Eapps; by right; left|reflexivity|].
  exists efs, inode, s'. split; [exact Hrun|]. split; [exact Hpath|]. rewrite (Hread [0; 0; 0]) by (cbn; lia). reflexivity.
Defined.
