(* ===== verification/WorkingDirectory.v ===== *)
(** * The working directory and moves (os/src/fs/inode.rs, os/src/syscall/fs.rs)

    The inode of a working directory and the path kept for it lead to the same
    place, and a directory is never moved below itself.  The end of the file
    runs some paths the code does not guard against. *)

From S2P Require Import Prelude BlockCache Bitmap Layout Tree FileData Efs Vfs Codec VfsProps Directory PageTable MemorySet Ids Process Files FileTree PathProps.

Section Lookup.
Context (efs : EasyFileSystem).
Abbreviation at_ := (inode_handle efs).

(** ** The working directory *)

(** The working directory of [p] is a directory of the tree, and the path of
    [p] is an absolute path without superfluous pieces that leads there. *)
Definition cwd_ok (ft : gmap Z node) (p : ProcessControlBlockInner) : Prop :=
  exists id cs, pcb_working_directory p = at_ id /\ is_dir_node ft id = true /\
    pcb_working_directory_path p = render cs /\ Forall proper cs /\ tree_walk ft 0 cs = Some id.

Lemma walk_app ft id cs cs' : tree_walk ft id (cs ++ cs') = tree_walk ft id cs ≫= fun j => tree_walk ft j cs'.
Proof. revert id. induction cs as [|c cs IH]; intros id; [done|]. cbn [app tree_walk]. by destruct (tree_step ft id c). Qed.

Lemma dir_node ft id : is_dir_node ft id = true <-> exists p es, ft !! id = Some (NDir p es).
Proof. unfold is_dir_node. split; [|by intros (p & es & ->)]. destruct (ft !! id) as [[p es|]|]; [eauto|done|done]. Qed.

Context (ft : gmap Z node) (s : Store) (Htv : tree_view efs ft s).

(** Going up from where [cs] leads is dropping the last component. *)
Lemma walk_up cs id p es : Forall proper cs -> tree_walk ft 0 cs = Some id -> ft !! id = Some (NDir p es) ->
  tree_walk ft 0 (removelast cs) = Some p.
Proof using Htv.
  intros Hcs Hw Hid. destruct cs as [|c cs _] using rev_ind.
  - injection Hw as <-. destruct (tv_root _ _ _ Htv) as [es' Hr]. rewrite Hr in Hid. by injection Hid as <- _.
  - rewrite removelast_snoc. rewrite walk_app in Hw. destruct (tree_walk ft 0 cs) as [j|]; [|done]. cbn in Hw.
    destruct (tree_step ft j c) as [k|] eqn:E; [|done]. injection Hw as ->. apply Forall_app in Hcs as [_ Hc].
    apply Forall_cons in Hc as [[_ Hd Hdd _] _]. unfold tree_step in E. destruct (ft !! j) as [[q es'|]|] eqn:Hj; [|done|done].
    destruct (beq c DOT) eqn:E1; [by apply beq_true in E1|]. destruct (beq c DOTDOT) eqn:E2; [by apply beq_true in E2|].
    by rewrite (tv_up _ _ _ Htv _ _ _ _ _ _ _ Hj E Hid).
Qed.

Lemma walk_step cs id c j : Forall proper cs -> tree_walk ft 0 cs = Some id -> c <> [] -> tree_step ft id c = Some j ->
  tree_walk ft 0 (push_component cs c) = Some j.
Proof using Htv.
  intros Hcs Hw Hc Hj. unfold push_component. destruct c as [|x c]; [done|]. cbn [is_nil orb]. pose proof Hj as Hj'.
  unfold tree_step in Hj'. destruct (ft !! id) as [[p es|]|] eqn:Hid; [|done|done].
  destruct (beq (x :: c) DOT); [by injection Hj' as <-|]. destruct (beq (x :: c) DOTDOT).
  - injection Hj' as <-. by eapply walk_up.
  - rewrite walk_app, Hw. cbn. by rewrite Hj.
Qed.

(** Following components from where [cs] leads. *)
Lemma walk_push cs id comps j : Forall proper cs -> tree_walk ft 0 cs = Some id -> Forall (fun c => c <> [] /\ no_slash c) comps ->
  tree_walk ft id comps = Some j -> tree_walk ft 0 (foldl push_component cs comps) = Some j.
Proof using Htv.
  revert cs id. induction comps as [|c comps IH]; intros cs id Hcs Hw Hcomps Hj; cbn in *; [by injection Hj as <-|].
  apply Forall_cons in Hcomps as [[Hc Hs] Hcomps]. destruct (tree_step ft id c) as [k|] eqn:Ek; [|done].
  eapply IH; [by apply push_proper|by eapply walk_step|done|done].
Qed.

(** The directory [resolve_root] gives, and the components it stands for. *)
Lemma resolve_root_dir p path : cwd_ok ft p -> exists id q es cs, resolve_root efs p path = at_ id /\ ft !! id = Some (NDir q es) /\
  Forall proper cs /\ tree_walk ft 0 cs = Some id /\
  normalize_path (chdir_path (pcb_working_directory_path p) path) = render (foldl push_component cs (split_slash [] path)).
Proof using Htv.
  intros (id & cs & Ei & (q & es & Hid)%dir_node & Ep & Hcs & Hw). pose proof (chdir_path_walks cs path Hcs) as Hn. rewrite <- Ep in Hn.
  unfold resolve_root. destruct (starts_with_slash path).
  - destruct (tv_root _ _ _ Htv) as [es0 Hr]. by exists 0, 0, es0, [].
  - by exists id, q, es, cs.
Qed.
End Lookup.

(** C6: the working directory and its path agree.  In a store whose inodes form
    the tree [ft], for a process whose path leads from the root to its working
    directory, [sys_chdir] returns without changing the store.  It answers 0
    exactly when its argument leads to a directory, from the root when it is
    absolute and from the working directory otherwise; that directory is then
    the new working directory, and the new path, again without [.], [..] or
    doubled slashes, leads from the root to it.  In every other case it answers
    -1 and the process is unchanged. *)
Theorem chdir_path_agrees efs ft s p path : tree_view efs ft s -> cwd_ok efs ft p ->
  exists r p', run (sys_chdir efs p path) s = Ok ((r, p'), s) /\ cwd_ok efs ft p' /\
    exists start, resolve_root efs p path = inode_handle efs start /\
    match tree_lookup ft start path with
    | Some j => if is_dir_node ft j then r = 0 /\ pcb_working_directory p' = inode_handle efs j else r = -1 /\ p' = p
    | None => r = -1 /\ p' = p
    end.
Proof.
  intros Htv Hok. destruct (resolve_root_dir efs ft s Htv p path Hok) as (id & q & es & cs & Er & Hid & Hcs & Hw & Hn).
  pose proof (reads_lookup efs ft s Htv id q es path Hid) as Hl.
  assert (forall o v, inode_handle efs <$> tree_lookup ft id path = o ->
    reads (match o with Some new_inode => is_dir ← Inode_is_dir new_inode;
        if negb is_dir then Ret (-1, p) else Ret (0, set_working_directory_path
          (normalize_path (chdir_path (pcb_working_directory_path p) path)) (set_working_directory new_inode p))
      | None => Ret (-1, p) end) v s -> run (sys_chdir efs p path) s = Ok (v, s)) as Hrun.
  { intros o v <- Hv. unfold sys_chdir, lookup_path_from. rewrite Er. by eapply reads_bind; [exact Hl|]. }
  destruct (tree_lookup ft id path) as [j|] eqn:Ej; cbn [fmap option_fmap option_map] in Hrun.
  2: { exists (-1), p. split; [by eapply Hrun|]. split; [done|]. exists id. by rewrite Ej. }
  assert (tree_walk ft id (split_slash [] path) = Some j) as Hwj.
  { unfold tree_lookup in Ej. rewrite split_slash_trim in Ej. destruct (tree_walk ft id _) as [k|]; [|done].
    destruct (_ && _); [done|]. by injection Ej as ->. }
  destruct (walk_node efs ft s Htv id _ j (ex_intro _ _ Hid) Hwj) as [n Hj].
  destruct (is_dir_node ft j) eqn:Edir.
  - eexists 0, _. split; [eapply Hrun; [reflexivity|]; eapply reads_bind; [by eapply reads_is_dir|]; rewrite Edir; apply reads_ret|].
    split; [|exists id; rewrite Ej, Edir; done]. eexists j, _. cbn. split; [done|]. split; [done|]. split; [exact Hn|].
    pose proof (split_slash_components path [] (Forall_nil_2 _)) as Hc.
    split; [by apply push_all_proper|]. by eapply walk_push.
  - exists (-1), p. split; [|split; [done|]; exists id; by rewrite Ej, Edir].
    eapply Hrun; [reflexivity|]. eapply reads_bind; [by eapply reads_is_dir|]. by rewrite Edir.
Qed.

(** ** Moves *)

(** [j] is [k] levels above [b]. *)
Inductive above (ft : gmap Z node) : nat -> Z -> Z -> Prop :=
  | above_here b : above ft 0 b b
  | above_up k b p es j : ft !! b = Some (NDir p es) -> above ft k p j -> above ft (S k) b j.

(** The directory a path's parent part stands for, from the working directory
    [cwd]. *)
Definition tree_parent (ft : gmap Z node) (cwd : Z) (path : bytes) : option Z :=
  if is_nil path then Some cwd
  else if beq path [SLASH] then Some 0
  else tree_lookup ft (if starts_with_slash path then 0 else cwd) path.

Section Moves.
Context (efs : EasyFileSystem) (ft : gmap Z node) (s : Store) (Htv : tree_view efs ft s).
Abbreviation at_ := (inode_handle efs).

Lemma reads_parent id p es : ft !! id = Some (NDir p es) ->
  reads (Inode_parent efs (at_ id)) (if (p =? 0) && (id =? 0) then None else Some (at_ p)) s.
Proof using Htv.
  intros Hid. unfold Inode_parent. eapply reads_bind; [by eapply reads_parent_id|].
  assert (reads (with_fs (Ret (Some (Inode_new (EasyFileSystem_get_disk_inode_pos efs p))))) (Some (at_ p)) s) as Hup
    by (by apply reads_with_fs; [apply Htv|]).
  destruct (p =? 0); [|exact Hup]. eapply reads_bind; [by eapply reads_is_root|]. cbn [andb]. by destruct (id =? 0).
Qed.

Lemma above_root k j es : ft !! 0 = Some (NDir 0 es) -> above ft k 0 j -> j = 0.
Proof using.
  intros Hr. induction k as [|k IH]; intros H; inversion H; subst; [done|]. apply IH. by simplify_eq.
Qed.

(** The loop of [rename_at] finds a directory above. *)
Lemma is_ancestor_finds fuel k b j n : above ft k b j -> ft !! j = Some n -> (k < fuel)%nat -> reads (is_ancestor efs fuel j (at_ b)) true s.
Proof using Htv.
  intros Hab Hj. revert fuel. induction Hab as [b|k b p es j Hb Hab IH]; intros fuel Hf; (destruct fuel as [|fuel]; [lia|]); cbn [is_ancestor].
  - eapply reads_bind; [by eapply reads_number|]. by rewrite Z.eqb_refl.
  - eapply reads_bind; [by eapply reads_number|]. destruct (Z.eqb_spec b j) as [->|Hne]; [done|].
    eapply reads_bind; [by eapply reads_parent|]. destruct ((p =? 0) && (b =? 0)) eqn:E; [|apply IH; [done|lia]].
    apply andb_true_iff in E as [->%Z.eqb_eq ->%Z.eqb_eq]. destruct (tv_root _ _ _ Htv) as [es' Hr].
    by rewrite (above_root _ _ _ Hr Hab) in Hne.
Qed.

Lemma reads_resolve_parent cwd q es path : ft !! cwd = Some (NDir q es) ->
  reads (resolve_parent efs (at_ cwd) path) (at_ <$> tree_parent ft cwd path) s.
Proof using Htv.
  intros Hcwd. unfold resolve_parent, tree_parent. destruct path as [|c path]; [done|]. cbn [is_nil orb].
  destruct (beq (c :: path) [SLASH]); [done|]. destruct (tv_root _ _ _ Htv) as [es0 Hr].
  destruct (starts_with_slash (c :: path)); by eapply reads_lookup.
Qed.
End Moves.

(** C37: a directory is not moved below itself.  In a store whose inodes form the
    tree [ft], let the old path name the directory [j] in [a], and let the new
    path lead to another directory [b] that is [j] or lies [k] levels below it.
    Then [sys_rename] answers -1 and changes nothing; the loop over the
    directories above [b] ends, with any fuel above [k]. *)
Theorem move_below_itself_refused efs ft s p old_path new_path fuel cwd a b j k qc esc qa esa nb :
  tree_view efs ft s -> pcb_working_directory p = inode_handle efs cwd -> ft !! cwd = Some (NDir qc esc) ->
  snd (split_path old_path) <> [] ->
  tree_parent ft cwd (fst (split_path old_path)) = Some a -> ft !! a = Some (NDir qa esa) ->
  dir_lookup (snd (split_path old_path)) esa = Some j -> is_dir_node ft j = true ->
  tree_parent ft cwd (fst (split_path new_path)) = Some b -> ft !! b = Some nb -> a <> b ->
  above ft k b j -> (k < fuel)%nat ->
  run (sys_rename efs fuel p old_path new_path) s = Ok (-1, s).
Proof.
  intros Htv Hp Hcwd Hname Ha Hna Hl Hj Hb Hnb Hab Habove Hfuel. unfold sys_rename, rename_at. rewrite Hp.
  destruct (split_path old_path) as [oldp oldn], (split_path new_path) as [newp newn]. cbn [fst snd] in *.
  destruct oldn as [|x oldn]; [done|]. cbn [is_nil negb orb andb].
  assert (is_nil (if is_nil newn && true then x :: oldn else newn) = false) as -> by (by destruct newn).
  apply dir_node in Hj as (qj & ej & Hj).
  eapply reads_bind; [by eapply reads_resolve_parent|]. rewrite Ha. cbn [fmap option_fmap option_map].
  eapply reads_bind; [by eapply reads_resolve_parent|]. rewrite Hb. cbn [fmap option_fmap option_map].
  eapply reads_bind; [by eapply reads_number|]. eapply reads_bind; [by eapply reads_number|].
  rewrite (proj2 (Z.eqb_neq _ _)) by done.
  eapply reads_bind; [by eapply reads_find|]. rewrite Hl. cbn [fmap option_fmap option_map].
  eapply reads_bind; [by eapply reads_number|]. eapply reads_bind; [by eapply reads_is_dir|].
  unfold is_dir_node. rewrite Hj. eapply reads_bind; [by eapply is_ancestor_finds|]. done.
Qed.

(** A process in [/a]. *)
Definition tree_process : ProcessControlBlockInner :=
  mkPcb false (mkMemorySet (mkPageTable 0 []) []) None [] 0 0 false [] (inode_handle tree_efs 1) [47; 97] [] 0 0 [] Ids.RecycleAllocator_new.

(** [cd b/..//../a] from [/a] leaves the path [/a]. *)
Lemma chdir_path_agrees_witness : cwd_ok tree_efs tree_nodes tree_process /\ exists p',
  run (sys_chdir tree_efs tree_process [98; 47; 46; 46; 47; 47; 46; 46; 47; 97]) tree_store = Ok ((0, p'), tree_store) /\
  pcb_working_directory_path p' = [47; 97] /\ cwd_ok tree_efs tree_nodes p'.
Proof.
  assert (cwd_ok tree_efs tree_nodes tree_process) as Hok.
  { exists 1, [[97]]. split_and!; [done|done|done| |done]. apply Forall_singleton. split; [done|done|done|]. by apply Forall_singleton. }
  split; [exact Hok|].
  destruct (chdir_path_agrees tree_efs tree_nodes tree_store tree_process [98; 47; 46; 46; 47; 47; 46; 46; 47; 97] tree_tree_view Hok)
    as (r & p' & Hrun & Hok' & _).
  exists p'. assert (run (sys_chdir tree_efs tree_process [98; 47; 46; 46; 47; 47; 46; 46; 47; 97]) tree_store =
    Ok ((0, set_working_directory_path [47; 97] (set_working_directory (inode_handle tree_efs 1) tree_process)), tree_store)) as E
    by (vm_compute; reflexivity).
  rewrite E in Hrun. injection Hrun as <- <-. split; [exact E|]. split; [reflexivity|exact Hok'].
Defined.

(** [mv /a /a/b/] from the root. *)
Lemma move_below_itself_refused_witness :
  run (sys_rename tree_efs 8 (set_working_directory (inode_handle tree_efs 0) tree_process) [47; 97] [97; 47; 98; 47]) tree_store =
  Ok (-1, tree_store).
Proof.
  apply (move_below_itself_refused tree_efs tree_nodes tree_store _ [47; 97] [97; 47; 98; 47] 8 0 0 2 1 1
    0 [([97], 1)] 0 [([97], 1)] (NDir 1 [])); [exact tree_tree_view|reflexivity|reflexivity|done|reflexivity|reflexivity|reflexivity|
    reflexivity|reflexivity|reflexivity|lia| |lia].
  eapply above_up; [reflexivity|apply above_here].
Defined.

(** ** Paths the code does not guard against *)

(** The root holds the empty file [a] and the empty directory [d]. *)
Definition mixed_inodes : list Z :=
  put_inode 2 (dir_inode 0 0 0) (put_inode 1 (DiskInode_initialize File 0) (put_inode 0 (dir_inode 2 4 0) (demo_block 0))).
Definition mixed_store : Store :=
  mkStore (<[2 := mixed_inodes]> (<[3 := 1 :: replicate 511 255]>
    (<[4 := overwrite 0 (entry_bytes ([97], 1) ++ entry_bytes ([100], 2)) (demo_block 0)]> demo_device))) [] false.

(** Flags outside the known ones make [sys_open] panic. *)
Lemma open_unknown_flag_panics efs p path s : run (sys_open_file efs p path 4) s = Err Panic.
Proof. reflexivity. Qed.

(** [open] without [CREATE] does not refuse a directory: with [TRUNC] it
    empties it. *)
Lemma open_truncates_directory : exists f s',
  run (sys_open_file tree_efs tree_process [47; 97] (Z.lor WRONLY TRUNC)) tree_store = Ok (Some f, s') /\
  run (Inode_lookup_path tree_efs (inode_handle tree_efs 0) [47; 97; 47; 98]) s' = Ok (None, s').
Proof.
  destruct (run (sys_open_file tree_efs tree_process [47; 97] (Z.lor WRONLY TRUNC)) tree_store) as [[[f|] s']|] eqn:E;
    vm_compute in E; [|discriminate|discriminate].
  injection E as <- <-. eexists _, _. split; [reflexivity|vm_compute; reflexivity].
Qed.

(** Creating a name below a regular file panics. *)
Lemma create_below_file_panics :
  run (sys_open_file tree_efs tree_process [47; 97; 47; 120] (Z.lor WRONLY CREATE)) mixed_store = Err Panic.
Proof. vm_compute. reflexivity. Qed.

(** A move below a regular file succeeds: the entry is appended to the bytes of
    the file, and neither path leads to the directory afterwards. *)
Lemma move_below_file_loses : exists s',
  run (sys_rename tree_efs 8 tree_process [47; 100] [47; 97; 47; 120]) mixed_store = Ok (0, s') /\
  run (Inode_lookup_path tree_efs (inode_handle tree_efs 0) [47; 100]) s' = Ok (None, s') /\
  run (Inode_lookup_path tree_efs (inode_handle tree_efs 0) [47; 97; 47; 120]) s' = Ok (None, s').
Proof.
  destruct (run (sys_rename tree_efs 8 tree_process [47; 100] [47; 97; 47; 120]) mixed_store) as [[r s']|] eqn:E;
    vm_compute in E; [|discriminate].
  injection E as <- <-. eexists. split; [reflexivity|]. split; vm_compute; reflexivity.
Qed.
