(* ===== verification/Net.v ===== *)
(** * The network (os/src/net, os/src/syscall/net.rs)

    The tables of listening ports and of sockets, the handling of a frame, and
    the files of the two protocols.  The package lose-net-stack parses and
    builds the frames, and the virtio driver moves them: both are parameters,
    and the device is the list of frames it will hand over and the list of
    those given to it. *)

From S2P Require Import Prelude Address FrameAllocator PageTable MemorySet Ids Scheduler Processor Pipe Process.
Open Scope Z_scope.

(** ** Packets

    The fields of the packets of lose-net-stack that the source reads or sets. *)

Record UDPPacket := mkUDPPacket {
  up_source_ip : Z; up_source_mac : Z; up_source_port : Z;
  up_dest_ip : Z; up_dest_mac : Z; up_dest_port : Z;
  up_data_len : Z; up_data : list Z
}.
Record TCPPacket := mkTCPPacket {
  tp_source_ip : Z; tp_source_mac : Z; tp_source_port : Z;
  tp_dest_ip : Z; tp_dest_mac : Z; tp_dest_port : Z;
  tp_data_len : Z; tp_seq : Z; tp_ack : Z; tp_flags : Z; tp_win : Z; tp_urg : Z; tp_data : list Z
}.

(** An ARP packet by the reply that can be built for an address. *)
Inductive Packet :=
  | ArpPacket (reply : Z -> Z -> option (list Z))
  | UdpPacket (p : UDPPacket)
  | TcpPacket (p : TCPPacket)
  | OtherPacket.

Definition set_tcp_flags (flags : Z) (p : TCPPacket) : TCPPacket :=
  mkTCPPacket (tp_source_ip p) (tp_source_mac p) (tp_source_port p) (tp_dest_ip p) (tp_dest_mac p) (tp_dest_port p)
    (tp_data_len p) (tp_seq p) (tp_ack p) flags (tp_win p) (tp_urg p) (tp_data p).

(** ** The tables *)

Record Port := mkPort { po_port : Z; po_receivable : bool; po_schedule : option Z }.
Record Socket := mkSocket { so_raddr : Z; so_lport : Z; so_rport : Z; so_buffers : list (list Z); so_seq : Z; so_ack : Z }.

(** [LISTEN_TABLE], [SOCKET_TABLE] and the device: the frames [receive] hands
    over, in order, and those given to [transmit]. *)
Record Net := mkNet {
  nt_listen : list (option Port); nt_sockets : list (option Socket); nt_rx : list (list Z); nt_tx : list (list Z)
}.

Definition set_listen (l : list (option Port)) (n : Net) : Net := mkNet l (nt_sockets n) (nt_rx n) (nt_tx n).
Definition set_sockets (l : list (option Socket)) (n : Net) : Net := mkNet (nt_listen n) l (nt_rx n) (nt_tx n).

Definition is_None_b {A} (o : option A) : bool := match o with None => true | Some _ => false end.

(** The first free entry takes [x], or the table grows. *)
Definition table_put {A} (x : A) (l : list (option A)) : list (option A) * nat :=
  match position is_None_b l with
  | Some i => (<[i := Some x]> l, i)
  | None => (l ++ [Some x], length l)
  end.

(** *** Ports (port_table.rs) *)

Definition listen (port : Z) : M Net (option nat) :=
  n ← get;
  let '(l, index) := table_put (mkPort port false None) (nt_listen n) in
  put (set_listen l n);; mret (Some index).

Definition accept (listen_index : nat) (task : Z) : M Net unit :=
  n ← get;
  massert (listen_index <? length (nt_listen n))%nat;;
  o ← unwrap (nt_listen n !! listen_index);
  p ← unwrap o;
  put (set_listen (<[listen_index := Some (mkPort (po_port p) true (Some task))]> (nt_listen n)) n).

Definition port_acceptable (listen_index : nat) : M Net bool :=
  n ← get;
  massert (listen_index <? length (nt_listen n))%nat;;
  o ← unwrap (nt_listen n !! listen_index);
  mret (match o with Some p => po_receivable p | None => false end).

Definition PortFd_drop (index : nat) : M Net unit :=
  n ← get;
  unwrap (nt_listen n !! index);;
  put (set_listen (<[index := None]> (nt_listen n)) n).

(** *** Sockets (socket.rs) *)

Definition get_s_a_by_index (index : nat) : M Net (option (Z * Z)) :=
  n ← get;
  massert (index <? length (nt_sockets n))%nat;;
  mret (match nt_sockets n !! index with Some (Some x) => Some (so_seq x, so_ack x) | _ => None end).

(** [socket_table[index].as_mut().unwrap()] behind the two assertions. *)
Definition update_socket (index : nat) (f : Socket -> Socket) : M Net Socket :=
  n ← get;
  massert (index <? length (nt_sockets n))%nat;;
  o ← unwrap (nt_sockets n !! index);
  x ← unwrap o;
  put (set_sockets (<[index := Some (f x)]> (nt_sockets n)) n);;
  mret x.

Definition set_s_a_by_index (index : nat) (seq ack : Z) : M Net unit :=
  update_socket index (fun x => mkSocket (so_raddr x) (so_lport x) (so_rport x) (so_buffers x) seq ack);; mret tt.

Definition is_socket (raddr lport rport : Z) (o : option Socket) : bool :=
  match o with
  | Some x => (so_raddr x =? raddr) && (so_lport x =? lport) && (so_rport x =? rport)
  | None => false
  end.

Definition get_socket (raddr lport rport : Z) : M Net (option nat) :=
  gets (fun n => position (is_socket raddr lport rport) (nt_sockets n)).

Definition add_socket (raddr lport rport : Z) : M Net (option nat) :=
  o ← get_socket raddr lport rport;
  match o with
  | Some _ => mret None
  | None =>
      n ← get;
      let '(l, index) := table_put (mkSocket raddr lport rport [] 0 0) (nt_sockets n) in
      put (set_sockets l n);; mret (Some index)
  end.

Definition remove_socket (index : nat) : M Net unit :=
  n ← get;
  massert (index <? length (nt_sockets n))%nat;;
  put (set_sockets (<[index := None]> (nt_sockets n)) n).

Definition with_buffers (b : list (list Z)) (x : Socket) : Socket :=
  mkSocket (so_raddr x) (so_lport x) (so_rport x) b (so_seq x) (so_ack x).

Definition push_data (index : nat) (data : list Z) : M Net unit :=
  update_socket index (fun x => with_buffers (so_buffers x ++ [data]) x);; mret tt.

Definition pop_data (index : nat) : M Net (option (list Z)) :=
  x ← update_socket index (fun x => with_buffers (tail (so_buffers x)) x);
  mret (head (so_buffers x)).

(** [UDP::new] and [TCP::new]. *)
Definition UDP_new (target sport dport : Z) : M Net SocketFile :=
  o ← add_socket target sport dport;
  index ← unwrap o;
  mret (mkSocketFile target sport dport index).
Definition TCP_new (target sport dport : Z) : M Net SocketFile :=
  o ← add_socket target sport dport;
  index ← unwrap o;
  mret (mkSocketFile target sport dport index).

(** [Drop] for the three kinds of file. *)
Definition NetFile_drop (f : NetFile) : M Net unit :=
  match f with
  | UDP f | TCP f => remove_socket (sk_socket_index f)
  | PortFd index => PortFd_drop index
  end.

Definition NetFile_readable (f : NetFile) : bool := match f with PortFd _ => false | _ => true end.
Definition NetFile_writable (f : NetFile) : bool := match f with PortFd _ => false | _ => true end.

(** *** The device *)

(** [NET_DEVICE.transmit]. *)
Definition transmit (frame : list Z) : M Net unit :=
  modify (fun n => mkNet (nt_listen n) (nt_sockets n) (nt_rx n) (nt_tx n ++ [frame])).
(** [NET_DEVICE.receive], which waits for a frame: none when no more arrives. *)
Definition receive : M Net (option (list Z)) :=
  n ← get;
  match nt_rx n with
  | [] => mret None
  | frame :: rx => put (mkNet (nt_listen n) (nt_sockets n) rx (nt_tx n));; mret (Some frame)
  end.

(** ** The stack *)

(** What lose-net-stack provides, and the addresses [NetStack::new] gives it. *)
Class NetStack := {
  analysis : list Z -> Packet;
  TCPPacket_ack : TCPPacket -> TCPPacket;
  TCPPacket_build_data : TCPPacket -> list Z;
  UDPPacket_build_data : UDPPacket -> list Z;
  TcpFlags_F : Z;
  TcpFlags_S : Z;
  TcpFlags_A : Z
}.
Definition STACK_IP : Z := Z.lor (Z.shiftl 10 24) (Z.lor (Z.shiftl 2 8) 15).
Definition STACK_MAC : Z := 0x525400123456.
Definition BROADCAST_MAC : Z := 0xffffffffffff.

Section Net.
Context {T : Type} `{Scheduler T} `{NetStack}.

Record NetWorld := mkNetWorld { nw_world : World T; nw_net : Net }.
Definition in_world {A : Type} (f : M (World T) A) : M NetWorld A := fun s =>
  match f (nw_world s) with Ok (a, w) => Ok (a, mkNetWorld w (nw_net s)) | Err e => Err e end.
Definition in_net {A : Type} (f : M Net A) : M NetWorld A := fun s =>
  match f (nw_net s) with Ok (a, n) => Ok (a, mkNetWorld (nw_world s) n) | Err e => Err e end.

(** The descriptor goes to the process of [task], and to register a0 of its
    trap context. *)
Definition accept_connection (p : TCPPacket) (task : Z) : M NetWorld unit :=
  th ← in_world (get_thread task);
  inner ← in_world (get_pcb (th_process th));
  let '(fds, fd) := alloc_fd (pcb_fd_table inner) in
  tcp_socket ← in_net (TCP_new (tp_source_ip p) (tp_dest_port p) (tp_source_port p));
  in_world (put_pcb (th_process th) (set_fds (<[fd := Some (FNet (TCP tcp_socket))]> fds) inner));;
  in_world (on_machine (write_usize (trap_cx_word (th_trap_cx_ppn th) 10) (Z.of_nat fd))).

Definition takes (port : Z) (o : option Port) : bool :=
  match o with Some t => (po_port t =? port) && po_receivable t | None => false end.

Definition check_accept (port : Z) (p : TCPPacket) : M NetWorld (option unit) :=
  n ← in_net get;
  match position (takes port) (nt_listen n) with
  | None => mret None
  | Some i =>
      o ← unwrap (nt_listen n !! i);
      listen_port ← unwrap o;
      task ← unwrap (po_schedule listen_port);
      in_net (put (set_listen (<[i := Some (mkPort (po_port listen_port) false None)]> (nt_listen n)) n));;
      accept_connection p task;;
      mret (Some tt)
  end.

Definition deliver (raddr lport rport : Z) (data : list Z) (s_a : option (Z * Z)) : M NetWorld unit :=
  o ← in_net (get_socket raddr lport rport);
  match o with
  | Some socket_index =>
      in_net (push_data socket_index data);;
      match s_a with
      | Some (seq, ack) => in_net (set_s_a_by_index socket_index seq ack)
      | None => mret tt
      end
  | None => mret tt
  end.

(** The dispatch of [net_interrupt_handler] on a parsed frame. *)
Definition handle_packet (packet : Packet) : M NetWorld unit :=
  match packet with
  | ArpPacket reply =>
      reply_data ← unwrap (reply STACK_IP STACK_MAC);
      in_net (transmit reply_data)
  | UdpPacket p => deliver (up_source_ip p) (up_dest_port p) (up_source_port p) (up_data p) None
  | TcpPacket p =>
      let lport := tp_dest_port p in
      if flags_contains (tp_flags p) TcpFlags_S then
        o ← check_accept lport p;
        match o with
        | Some _ =>
            in_net (transmit (TCPPacket_build_data (set_tcp_flags (Z.lor TcpFlags_S TcpFlags_A) (TCPPacket_ack p))))
        | None => mret tt
        end
      else
        let data := deliver (tp_source_ip p) lport (tp_source_port p) (tp_data p) (Some (tp_seq p, tp_ack p)) in
        if flags_contains (tp_flags p) TcpFlags_F then
          let reply := TCPPacket_ack p in
          in_net (transmit (TCPPacket_build_data reply));;
          let end_packet := TCPPacket_ack reply in
          in_net (transmit (TCPPacket_build_data (set_tcp_flags (Z.lor (tp_flags end_packet) TcpFlags_F) end_packet)));;
          data
        else if flags_contains (tp_flags p) TcpFlags_A && (tp_data_len p =? 0) then mret tt
        else data
  | OtherPacket => mret tt
  end.

(** [net_interrupt_handler]; false when it waits for a frame for ever. *)
Definition net_interrupt_handler : M NetWorld bool :=
  o ← in_net receive;
  match o with
  | Some frame => handle_packet (analysis frame);; mret true
  | None => mret false
  end.

(** ** The files of the protocols (udp.rs, tcp.rs) *)

(** The loop of [read] up to the data: none when it waits for ever. *)
Definition read_no_fuel : M NetWorld (option (list Z)) := fun _ => Err NoFuel.
Fixpoint read_loop (fuel : nat) (socket_index : nat) : M NetWorld (option (list Z)) :=
  in_net (pop_data socket_index) ≫= fun o =>
  match o with
  | Some data => mret (Some data)
  | None =>
      net_interrupt_handler ≫= fun more =>
      if more : bool then
        match fuel with
        | O => read_no_fuel
        | S fuel => read_loop fuel socket_index
        end
      else mret None
  end.
Definition socket_read (f : SocketFile) : M NetWorld (option (list Z)) :=
  s ← get; read_loop (length (nt_rx (nw_net s))) (sk_socket_index f).

(** The part of the segment that fits in buffers of these lengths. *)
Fixpoint split_segment (pos : nat) (data : list Z) (lens : list nat) : list (list Z) * nat :=
  match lens with
  | [] => ([], pos)
  | len :: lens' =>
      let n := Nat.min len (length data - pos) in
      let piece := slice pos n data in
      let left' := (pos + n)%nat in
      if (left' =? length data)%nat then ([piece], left')
      else let '(pieces, left') := split_segment left' data lens' in (piece :: pieces, left')
  end.

(** [UDP::write] and [TCP::write] of the bytes of the buffer. *)
Definition UDP_write (f : SocketFile) (data : list Z) : M NetWorld Z :=
  in_net (transmit (UDPPacket_build_data
    (mkUDPPacket STACK_IP STACK_MAC (sk_sport f) (sk_target f) BROADCAST_MAC (sk_dport f) (Z.of_nat (length data)) data)));;
  mret (Z.of_nat (length data)).

Definition TCP_write (f : SocketFile) (data : list Z) : M NetWorld Z :=
  o ← in_net (get_s_a_by_index (sk_socket_index f));
  let '(ack, seq) := default (0, 0) o in
  in_net (transmit (TCPPacket_build_data
    (mkTCPPacket STACK_IP STACK_MAC (sk_sport f) (sk_target f) BROADCAST_MAC (sk_dport f) (Z.of_nat (length data))
       seq ack TcpFlags_A 65535 0 data)));;
  mret (Z.of_nat (length data)).

(** ** The system calls *)

(** The new descriptor of the current process. *)
Definition install_net (new : M Net NetFile) : M NetWorld nat :=
  pid ← in_world current_process;
  inner ← in_world (get_pcb pid);
  let '(fds, fd) := alloc_fd (pcb_fd_table inner) in
  file ← in_net new;
  in_world (put_pcb pid (set_fds (<[fd := Some (FNet file)]> fds) inner));;
  mret fd.

Definition sys_connect (raddr lport rport : Z) : M NetWorld Z :=
  fd ← install_net (f ← UDP_new raddr lport rport; mret (UDP f));
  mret (Z.of_nat fd).

Definition sys_listen (port : Z) : M NetWorld Z :=
  o ← in_net (listen port);
  match o with
  | Some port_index => install_net (mret (PortFd port_index));; mret (Z.of_nat port_index)
  | None => mret (-1)
  end.

(** The loop of [sys_accept]: false when it waits for ever. *)
Definition accept_no_fuel : M NetWorld bool := fun _ => Err NoFuel.
Fixpoint accept_loop (fuel : nat) (port_index : nat) : M NetWorld bool :=
  net_interrupt_handler ≫= fun more =>
  if more : bool then
    in_net (port_acceptable port_index) ≫= fun acceptable =>
    if acceptable : bool then
      match fuel with
      | O => accept_no_fuel
      | S fuel => accept_loop fuel port_index
      end
    else mret true
  else mret false.

(** The rest of [sys_accept], again when more frames have come. *)
Definition accept_wait (port_index : nat) : M NetWorld (option Z) :=
  s ← get;
  accepted ← accept_loop (length (nt_rx (nw_net s))) port_index;
  if accepted : bool then
    task ← in_world current_thread;
    th ← in_world (get_thread task);
    a0 ← in_world (on_machine (read_usize (trap_cx_word (th_trap_cx_ppn th) 10)));
    mret (Some (as_isize a0))
  else mret None.

Definition sys_accept (port_index : nat) : M NetWorld (option Z) :=
  task ← in_world current_thread;
  in_net (accept port_index task);;
  accept_wait port_index.

End Net.
Arguments NetWorld : clear implicits.
