(* ===== verification/NetProps.v ===== *)
(** * The network: properties

    The table of sockets is a map from indices to connections, the handling of
    a frame appends its data to the connection it belongs to, and a read takes
    the oldest data that was sent to its connection. *)

From S2P Require Import Prelude Address FrameAllocator PageTable MemorySet Ids Scheduler Processor Pipe Process ProcessTree ProcessProps Net.
From stdpp Require Import gmap.
Open Scope Z_scope.

(** ** Words in physical memory *)

Lemma read_write_phys m pa b pa' : read_phys (write_phys pa b m) pa' = if decide (pa' = pa) then b else read_phys m pa'.
Proof.
  unfold read_phys, write_phys. rewrite mem_page_set. destruct (decide (pa / PAGE_SIZE = pa' / PAGE_SIZE)) as [Ep|Ep].
  - rewrite Ep. unfold page_byte. destruct (decide (pa mod PAGE_SIZE = pa' mod PAGE_SIZE)) as [Em|Em].
    + rewrite Em, lookup_insert_eq. rewrite decide_True; [done|].
      rewrite (Z.div_mod pa' PAGE_SIZE), (Z.div_mod pa PAGE_SIZE) by done. congruence.
    + rewrite lookup_insert_ne by done. rewrite decide_False; [done|congruence].
  - rewrite decide_False by congruence. done.
Qed.

Lemma write_bytes_at_spec pa bs m : wp (write_bytes_at pa bs) (fun _ m' => forall a,
  read_phys m' a = if decide (pa <= a < pa + Z.of_nat (length bs)) then default 0 (bs !! Z.to_nat (a - pa)) else read_phys m a) m.
Proof.
  revert pa m. induction bs as [|b bs IH]; intros pa m.
  - cbn. unfold wp. cbn. intros a. by rewrite decide_False by lia.
  - unfold write_bytes_at. rewrite seqZ_cons by (cbn; lia). cbn [zip zip_with mfor length fst snd]. apply wp_bind, wp_modify.
    replace (Z.pred (Z.of_nat (S (length bs)))) with (Z.of_nat (length bs)) by lia. eapply wp_mono; [apply (IH (Z.succ pa))|].
    intros ? m' Hm a. cbv beta in Hm. rewrite Hm, read_write_phys. destruct (decide (a = pa)) as [->|Hne].
    + rewrite decide_False by lia. rewrite decide_True by lia. by rewrite Z.sub_diag.
    + case_decide; case_decide; try lia; try done. replace (Z.to_nat (a - pa)) with (S (Z.to_nat (a - Z.succ pa))) by lia. done.
Qed.

Lemma write_usize_spec pa v m : is_usize v ->
  wp (write_usize pa v) (fun _ m' => read_usize pa m' = Ok (v, m')) m.
Proof.
  intros Hv. unfold write_usize. eapply wp_mono; [apply write_bytes_at_spec|]. rewrite length_le_bytes. intros _ m' Hm.
  unfold read_usize, get, mbind, M_bind. replace (map _ (seqZ 0 8)) with (le_bytes 8 v).
  - by rewrite le_val_bytes_small.
  - pose proof (length_le_bytes 8 v) as Hl. apply list_eq. intros i. rewrite list_lookup_fmap.
    destruct (decide (i < 8)%nat) as [Hi|Hi].
    + rewrite lookup_seqZ_lt by lia. cbn [fmap option_fmap option_map]. rewrite Hm, decide_True by lia.
      replace (Z.to_nat (pa + (0 + Z.of_nat i) - pa)) with i by lia.
      destruct (lookup_lt_is_Some_2 (le_bytes 8 v) i) as [x ->]; [by rewrite Hl|done].
    + rewrite lookup_seqZ_ge by lia. apply lookup_ge_None. lia.
Qed.

(** ** The table of sockets *)

(** A connection: the remote address and the two ports. *)
Definition key_of (x : Socket) : Z * Z * Z := (so_raddr x, so_lport x, so_rport x).

(** The socket at an index. *)
Definition conn (n : Net) (i : nat) : option Socket := mjoin (nt_sockets n !! i).

(** No two sockets are for the same connection. *)
Definition distinct (n : Net) : Prop :=
  forall i j x y, conn n i = Some x -> conn n j = Some y -> key_of x = key_of y -> i = j.

(** What a socket is to its reader. *)
Definition abs (x : Socket) : (Z * Z * Z) * list (list Z) := (key_of x, so_buffers x).

Lemma conn_Some n i x : conn n i = Some x <-> nt_sockets n !! i = Some (Some x).
Proof. unfold conn. destruct (nt_sockets n !! i) as [[]|]; cbn; naive_solver. Qed.

Lemma conn_insert n l i j o : (i < length (nt_sockets n))%nat -> l = <[i := o]> (nt_sockets n) ->
  conn (set_sockets l n) j = if decide (j = i) then o else conn n j.
Proof.
  intros Hi ->. unfold conn. cbn. case_decide; subst; [by rewrite list_lookup_insert_eq|by rewrite list_lookup_insert_ne].
Qed.

Lemma is_socket_key r l p o : is_socket r l p o = true <-> exists x, o = Some x /\ key_of x = (r, l, p).
Proof.
  unfold is_socket, key_of. destruct o as [x|]; [|split; [done|by intros (? & ? & _)]].
  rewrite !andb_true_iff, !Z.eqb_eq. split; [intros [[<- <-] <-]; by exists x|intros (? & [= <-] & [=]); done].
Qed.

Lemma table_put_spec {A} (x : A) l l' i : table_put x l = (l', i) ->
  mjoin (l !! i) = None /\ forall j, mjoin (l' !! j) = if decide (j = i) then Some x else mjoin (l !! j).
Proof.
  unfold table_put. destruct (position is_None_b l) as [k|] eqn:E; intros [= <- <-].
  - pose proof (position_lt _ _ _ E) as Hlt. apply position_Some in E as (o & Ho & Hn & _). rewrite Ho.
    destruct o; [done|]. split; [done|]. intros j. case_decide; subst; [by rewrite list_lookup_insert_eq|by rewrite list_lookup_insert_ne].
  - split; [by rewrite lookup_ge_None_2|]. intros j. case_decide; subst; [by rewrite list_lookup_middle|].
    destruct (decide (j < length l)%nat); [by rewrite lookup_app_l|]. rewrite !lookup_ge_None_2; [done|lia|rewrite length_app; cbn; lia].
Qed.

Lemma get_socket_spec r l p n : wp (get_socket r l p) (fun o n' => n' = n /\
  match o with
  | Some i => exists x, conn n i = Some x /\ key_of x = (r, l, p)
  | None => forall i x, conn n i = Some x -> key_of x <> (r, l, p)
  end) n.
Proof.
  unfold get_socket. apply wp_gets. split; [done|]. destruct (position _ _) as [i|] eqn:E.
  - apply position_Some in E as (o & Ho & Hs & _). apply is_socket_key in Hs as (x & -> & Hk). exists x.
    split; [by apply conn_Some|done].
  - apply position_None in E. intros i x Hx Hk. apply conn_Some in Hx.
    rewrite Forall_lookup in E. specialize (E i _ Hx). cbn beta in E.
    assert (is_socket r l p (Some x) = true) by (apply is_socket_key; eauto). congruence.
Qed.

(** The lookups of [add_socket], all of them. *)
Lemma add_socket_spec r l p n : distinct n ->
  wp (add_socket r l p) (fun o n' =>
    nt_listen n' = nt_listen n /\ nt_rx n' = nt_rx n /\ nt_tx n' = nt_tx n /\ distinct n' /\
    match o with
    | Some i => (forall j x, conn n j = Some x -> key_of x <> (r, l, p)) /\ conn n i = None /\
        forall j, conn n' j = if decide (j = i) then Some (mkSocket r l p [] 0 0) else conn n j
    | None => n' = n /\ exists i x, conn n i = Some x /\ key_of x = (r, l, p)
    end) n.
Proof.
  intros Hd. unfold add_socket. apply wp_bind. eapply wp_mono; [apply get_socket_spec|].
  intros [i|] n1 [-> Hi].
  - apply wp_ret. repeat split; try done. destruct Hi as (x & ? & ?). eauto.
  - apply wp_bind, wp_get. destruct (table_put _ _) as [l' i] eqn:E. apply table_put_spec in E as [Hn Hl].
    apply wp_bind, wp_put, wp_ret. cbn [set_sockets nt_listen nt_rx nt_tx]. repeat (split; [done|]).
    assert (forall j, conn (set_sockets l' n) j = if decide (j = i) then Some (mkSocket r l p [] 0 0) else conn n j) as Hc by (intros j; unfold conn at 1; cbn; apply Hl).
    split; [|done]. intros j k x y. rewrite !Hc. do 2 case_decide; subst; [done|..]; [intros [= <-] Hy Hk|intros Hx [= <-] Hk|by apply Hd].
    + by destruct (Hi k y).
    + by destruct (Hi j x).
Qed.

Lemma update_socket_spec i f n x : conn n i = Some x ->
  wp (update_socket i f) (fun y n' => y = x /\
    nt_listen n' = nt_listen n /\ nt_rx n' = nt_rx n /\ nt_tx n' = nt_tx n /\
    forall j, conn n' j = if decide (j = i) then Some (f x) else conn n j) n.
Proof.
  intros Hx. pose proof (proj1 (conn_Some _ _ _) Hx) as Hl. pose proof (lookup_lt_Some _ _ _ Hl) as Hlt.
  unfold update_socket. apply wp_bind, wp_get, wp_bind, wp_massert. split; [by apply Nat.ltb_lt|].
  apply wp_bind, wp_unwrap. eexists. split; [done|]. apply wp_bind, wp_unwrap. eexists. split; [done|].
  apply wp_bind, wp_put, wp_ret. repeat (split; [done|]). intros j. by apply conn_insert.
Qed.

Lemma distinct_keys n n' : distinct n -> (forall i, (key_of <$> conn n' i) = (key_of <$> conn n i)) -> distinct n'.
Proof.
  intros Hd Hk i j x y Hx Hy Hxy. pose proof (Hk i) as Hi. pose proof (Hk j) as Hj. rewrite Hx in Hi. rewrite Hy in Hj.
  destruct (conn n i) as [x0|] eqn:E1; [|done]. destruct (conn n j) as [y0|] eqn:E2; [|done].
  apply (inj Some) in Hi. apply (inj Some) in Hj. apply (Hd i j x0 y0); congruence.
Qed.

(** ** The abstract table *)

(** Connections and what is waiting on each, by index. *)
Abbreviation connections := (gmap nat ((Z * Z * Z) * list (list Z))).

Definition view (n : Net) : connections := abs <$> omap id (map_seq 0 (nt_sockets n)).

Lemma view_lookup n i : view n !! i = abs <$> conn n i.
Proof. unfold view, conn. rewrite lookup_fmap, lookup_omap, lookup_map_seq_0. by destruct (nt_sockets n !! i) as [[]|]. Qed.

Lemma connections_insert n n' i x : (forall j, conn n' j = if decide (j = i) then Some x else conn n j) -> view n' = <[i := abs x]> (view n).
Proof.
  intros Hc. apply map_eq. intros j. rewrite view_lookup, Hc. case_decide; [subst; by rewrite lookup_insert_eq|].
  by rewrite lookup_insert_ne, view_lookup.
Qed.

Inductive table_op :=
  | OpGet (raddr lport rport : Z)
  | OpAdd (raddr lport rport : Z)
  | OpPush (i : nat) (data : list Z)
  | OpPop (i : nat)
  | OpRemove (i : nat).
Inductive table_result := RIndex (o : option nat) | RData (o : option (list Z)) | RDone.

Definition table_run (op : table_op) : M Net table_result :=
  match op with
  | OpGet r l p => o ← get_socket r l p; mret (RIndex o)
  | OpAdd r l p => o ← add_socket r l p; mret (RIndex o)
  | OpPush i d => push_data i d;; mret RDone
  | OpPop i => o ← pop_data i; mret (RData o)
  | OpRemove i => remove_socket i;; mret RDone
  end.

(** What the operations are for.  A new connection gets an index that is not
    in use; an operation on an index asks that it is. *)
Inductive table_spec (m : connections) : table_op -> table_result -> connections -> Prop :=
  | spec_get_some r l p i q : m !! i = Some ((r, l, p), q) -> table_spec m (OpGet r l p) (RIndex (Some i)) m
  | spec_get_none r l p : (forall i q, m !! i <> Some ((r, l, p), q)) -> table_spec m (OpGet r l p) (RIndex None) m
  | spec_add_some r l p i : (forall i q, m !! i <> Some ((r, l, p), q)) -> m !! i = None ->
      table_spec m (OpAdd r l p) (RIndex (Some i)) (<[i := ((r, l, p), [])]> m)
  | spec_add_none r l p i q : m !! i = Some ((r, l, p), q) -> table_spec m (OpAdd r l p) (RIndex None) m
  | spec_push i d k q : m !! i = Some (k, q) -> table_spec m (OpPush i d) RDone (<[i := (k, q ++ [d])]> m)
  | spec_pop_some i k d q : m !! i = Some (k, d :: q) -> table_spec m (OpPop i) (RData (Some d)) (<[i := (k, q)]> m)
  | spec_pop_none i k : m !! i = Some (k, []) -> table_spec m (OpPop i) (RData None) m
  | spec_remove i : is_Some (m !! i) -> table_spec m (OpRemove i) RDone (delete i m).

(** An operation on an index is called with the index of a file, which is in
    use until the file is dropped. *)
Definition op_allowed (m : connections) (op : table_op) : Prop :=
  match op with
  | OpPush i _ | OpPop i | OpRemove i => is_Some (m !! i)
  | _ => True
  end.

Lemma view_Some n i k q : view n !! i = Some (k, q) <-> exists x, conn n i = Some x /\ key_of x = k /\ so_buffers x = q.
Proof.
  rewrite view_lookup. destruct (conn n i) as [x|]; cbn; [|naive_solver]. unfold abs. split; [intros [= <- <-]; eauto|naive_solver].
Qed.

Lemma view_None n i : view n !! i = None <-> conn n i = None.
Proof. rewrite view_lookup. by destruct (conn n i). Qed.

Lemma distinct_insert n n' i x y : distinct n -> conn n i = Some x -> key_of y = key_of x ->
  (forall j, conn n' j = if decide (j = i) then Some y else conn n j) -> distinct n'.
Proof.
  intros Hd Hx Hk Hc. apply (distinct_keys n); [done|]. intros j. rewrite Hc. case_decide; [subst; rewrite Hx; cbn; by rewrite Hk|done].
Qed.

(** C27: the table of sockets is a map from indices to connections.  In a table
    where no two sockets are for the same connection, every operation on an
    index in use returns, does to the map what [table_spec] says, and keeps the
    connections distinct: a lookup finds a connection exactly when there is one,
    adding one fails exactly when it is there and else gives it an unused index
    and no data, data queues up in order on its own connection, and no operation
    touches another connection. *)
Theorem socket_table_refines n op : distinct n -> op_allowed (view n) op ->
  wp (table_run op) (fun r n' => table_spec (view n) op r (view n') /\ distinct n' /\
    nt_listen n' = nt_listen n /\ nt_rx n' = nt_rx n /\ nt_tx n' = nt_tx n) n.
Proof.
  intros Hd Ha. destruct op as [r l p|r l p|i d|i|i]; cbn [table_run op_allowed] in *.
  - apply wp_bind. eapply wp_mono; [apply get_socket_spec|]. intros o n' [-> Ho]. apply wp_ret. split; [|done].
    destruct o as [i|].
    + destruct Ho as (x & Hx & Hk). apply (spec_get_some _ _ _ _ _ (so_buffers x)). apply view_Some. eauto.
    + apply spec_get_none. intros i q (x & Hx & Hk & _)%view_Some. by apply (Ho i x).
  - apply wp_bind. eapply wp_mono; [by apply add_socket_spec|]. intros o n' (E1 & E2 & E3 & Hd' & Ho). apply wp_ret. split; [|done].
    destruct o as [i|].
    + destruct Ho as (Hnone & Hi & Hc). rewrite (connections_insert _ _ _ _ Hc). apply spec_add_some; [|by apply view_None].
      intros j q (x & Hx & Hk & _)%view_Some. by apply (Hnone j x).
    + destruct Ho as (-> & i & x & Hx & Hk). apply (spec_add_none _ _ _ _ i (so_buffers x)). apply view_Some. eauto.
  - destruct Ha as [[k q] (x & Hx & Hk & Hq)%view_Some]. apply wp_bind, wp_bind. eapply wp_mono; [by apply update_socket_spec|].
    intros y n' (-> & E1 & E2 & E3 & Hc). apply wp_ret, wp_ret. split; [|split; [by eapply (distinct_insert n n' i x); [..|exact Hc]|done]].
    rewrite (connections_insert _ _ _ _ Hc). unfold abs, with_buffers, key_of. cbn. subst q k. apply spec_push, view_Some. eauto.
  - destruct Ha as [[k q] (x & Hx & Hk & Hq)%view_Some]. apply wp_bind, wp_bind. eapply wp_mono; [by apply update_socket_spec|].
    intros y n' (-> & E1 & E2 & E3 & Hc). apply wp_ret, wp_ret. split; [|split; [by eapply (distinct_insert n n' i x); [..|exact Hc]|done]].
    rewrite (connections_insert _ _ _ _ Hc). unfold abs, with_buffers, key_of. cbn. subst k. destruct (so_buffers x) as [|d q'] eqn:E; cbn [head tail].
    + rewrite insert_id; [|apply view_Some; exists x; by rewrite E]. apply (spec_pop_none _ _ (key_of x)), view_Some. eauto.
    + apply spec_pop_some, view_Some. eauto.
  - destruct Ha as [[k q] (x & Hx & Hk & Hq)%view_Some]. pose proof (proj1 (conn_Some _ _ _) Hx) as Hl.
    pose proof (lookup_lt_Some _ _ _ Hl) as Hlt. apply wp_bind. unfold remove_socket.
    apply wp_bind, wp_get, wp_bind, wp_massert. split; [by apply Nat.ltb_lt|]. apply wp_put, wp_ret.
    assert (forall j, conn (set_sockets (<[i := None]> (nt_sockets n)) n) j = if decide (j = i) then None else conn n j) as Hc by (intros j; by apply conn_insert).
    split; [|split; [|done]].
    + replace (view (set_sockets _ n)) with (delete i (view n)); [apply spec_remove; exists (k, q); apply view_Some; eauto|].
      apply map_eq. intros j. rewrite view_lookup, Hc. case_decide; [subst; by rewrite lookup_delete_eq|by rewrite lookup_delete_ne, view_lookup].
    + intros a b y z. rewrite !Hc. do 2 case_decide; [done..|]. apply Hd.
Qed.

(** ** What a frame brings *)

Section Delivery.
Context {T : Type} `{Scheduler T} `{NetStack}.

(** The data a packet brings to the connection [k]. *)
Definition payload (k : Z * Z * Z) (p : Packet) : list (list Z) :=
  match p with
  | UdpPacket p => if decide ((up_source_ip p, up_dest_port p, up_source_port p) = k) then [up_data p] else []
  | TcpPacket p =>
      if flags_contains (tp_flags p) TcpFlags_S then []
      else if negb (flags_contains (tp_flags p) TcpFlags_F) && flags_contains (tp_flags p) TcpFlags_A && (tp_data_len p =? 0) then []
      else if decide ((tp_source_ip p, tp_dest_port p, tp_source_port p) = k) then [tp_data p] else []
  | _ => []
  end.

(** No port is being accepted on: so it is but inside [sys_accept]. *)
Definition no_accept (n : Net) : Prop := forall port, position (takes port) (nt_listen n) = None.

(** An ARP packet can be replied to. *)
Definition answerable (frame : list Z) : Prop :=
  match analysis frame with ArpPacket reply => is_Some (reply STACK_IP STACK_MAC) | _ => True end.

(** [n'] is [n] with more data on every socket. *)
Definition grown (more : Z * Z * Z -> list (list Z)) (n n' : Net) : Prop :=
  nt_listen n' = nt_listen n /\ nt_rx n' = nt_rx n /\
  forall i, abs <$> conn n' i = (fun x => (key_of x, so_buffers x ++ more (key_of x))) <$> conn n i.

Lemma grown_distinct more n n' : distinct n -> grown more n n' -> distinct n'.
Proof.
  intros Hd (_ & _ & Hg). apply (distinct_keys n); [done|]. intros i. specialize (Hg i).
  destruct (conn n i) as [x|], (conn n' i) as [y|]; try done. cbn in *. apply (inj Some), (f_equal fst) in Hg. f_equal. exact Hg.
Qed.

Lemma grown_nothing n n' more : nt_listen n' = nt_listen n -> nt_rx n' = nt_rx n -> nt_sockets n' = nt_sockets n ->
  (forall i x, conn n i = Some x -> more (key_of x) = []) -> grown more n n'.
Proof.
  intros E1 E2 E3 Hm. split; [done|]. split; [done|]. intros i. unfold conn in *. rewrite E3.
  destruct (mjoin (nt_sockets n !! i)) as [x|] eqn:E; [|done]. cbn. by rewrite (Hm i x E), app_nil_r.
Qed.

Lemma wp_in_net {A} (f : M Net A) (Q : A -> NetWorld T -> Prop) w n :
  wp f (fun a n' => Q a (mkNetWorld w n')) n -> wp (in_net f) Q (mkNetWorld w n).
Proof. unfold wp, in_net. cbn. by destruct (f n) as [[a n']|]. Qed.

Lemma deliver_spec r l p data s_a (w : World T) n : distinct n ->
  wp (deliver r l p data s_a) (fun _ s' => nw_world s' = w /\
    grown (fun k => if decide ((r, l, p) = k) then [data] else []) n (nw_net s')) (mkNetWorld w n).
Proof.
  intros Hd. unfold deliver. apply wp_bind, wp_in_net. eapply wp_mono; [apply get_socket_spec|].
  intros [i|] n1 [-> Hi]; cycle 1.
  { apply wp_ret. split; [done|]. apply grown_nothing; try done. intros i x Hx. case_decide as E; [|done]. by destruct (Hi i x Hx). }
  destruct Hi as (x & Hx & Hk). unfold push_data. apply wp_bind, wp_in_net, wp_bind. eapply wp_mono; [by apply update_socket_spec|].
  intros y n1 (-> & E1 & E2 & _ & Hc). apply wp_ret.
  assert (grown (fun k => if decide ((r, l, p) = k) then [data] else []) n n1) as Hg1.
  { split; [done|]. split; [done|]. intros j. rewrite Hc. case_decide as E.
    - subst j. rewrite Hx. cbn. by rewrite decide_True by done.
    - destruct (conn n j) as [z|] eqn:Ez; [|done]. cbn. case_decide as Ek; [|by rewrite app_nil_r].
      destruct E. apply (Hd j i z x); congruence. }
  destruct s_a as [[seq ack]|]; [|by apply wp_ret].
  unfold set_s_a_by_index. apply wp_in_net, wp_bind. specialize (Hc i) as Hci. rewrite decide_True in Hci by done.
  eapply wp_mono; [by apply update_socket_spec|]. intros y n2 (-> & E3 & E4 & _ & Hc2). apply wp_ret. cbn [nw_world nw_net]. split; [done|].
  destruct Hg1 as (_ & _ & Hg1). split; [by rewrite E3|]. split; [by rewrite E4|]. intros j. rewrite <- Hg1, Hc2, Hc.
  by case_decide.
Qed.

(** The packet does not open a connection on a port that is accepted on. *)
Definition unaccepted (n : Net) (packet : Packet) : Prop :=
  match packet with
  | TcpPacket p => flags_contains (tp_flags p) TcpFlags_S = true -> position (takes (tp_dest_port p)) (nt_listen n) = None
  | _ => True
  end.

Lemma no_accept_unaccepted n packet : no_accept n -> unaccepted n packet.
Proof. intros Hna. by destruct packet; cbn. Qed.

Lemma handle_packet_spec packet (w : World T) n : distinct n -> unaccepted n packet ->
  (forall reply, packet = ArpPacket reply -> is_Some (reply STACK_IP STACK_MAC)) ->
  wp (handle_packet packet) (fun _ s' => nw_world s' = w /\ grown (fun k => payload k packet) n (nw_net s')) (mkNetWorld w n).
Proof.
  intros Hd Hna Harp. destruct packet as [reply|p|p|]; cbn [handle_packet payload].
  - destruct (Harp reply eq_refl) as [d Hr]. apply wp_bind, wp_unwrap. exists d. split; [done|].
    apply wp_in_net. unfold transmit. apply wp_modify. split; [done|]. by apply grown_nothing.
  - by apply deliver_spec.
  - cbn [unaccepted] in Hna. destruct (flags_contains (tp_flags p) TcpFlags_S).
    { apply wp_bind. unfold check_accept. apply wp_bind, wp_in_net, wp_get. rewrite Hna by done. apply wp_ret, wp_ret.
      split; [done|]. by apply grown_nothing. }
    destruct (flags_contains (tp_flags p) TcpFlags_F); cbn [negb andb].
    + unfold transmit. apply wp_bind, wp_in_net, wp_modify, wp_bind, wp_in_net, wp_modify.
      eapply wp_mono; [by apply deliver_spec|]. intros _ s' [Hw (E1 & E2 & Hg)]. split; [done|]. by split.
    + destruct (_ && _); [|by apply deliver_spec]. apply wp_ret. split; [done|]. by apply grown_nothing.
  - apply wp_ret. split; [done|]. by apply grown_nothing.
Qed.

(** What is waiting on a socket and what the frames to come will add. *)
Definition incoming (k : Z * Z * Z) (frames : list (list Z)) : list (list Z) :=
  concat (map (fun f => payload k (analysis f)) frames).
Definition pending (n : Net) (i : nat) : option ((Z * Z * Z) * list (list Z)) :=
  (fun x => (key_of x, so_buffers x ++ incoming (key_of x) (nt_rx n))) <$> conn n i.

(** Between system calls, with frames to come that do not panic the kernel. *)
Record net_ok (n : Net) : Prop := {
  no_distinct : distinct n;
  no_accepting : no_accept n;
  no_arp : Forall answerable (nt_rx n)
}.

Lemma handle_frame_spec (w : World T) n f rx : nt_rx n = f :: rx -> distinct n -> unaccepted n (analysis f) -> answerable f ->
  wp net_interrupt_handler (fun more s' => more = true /\ nw_world s' = w /\ distinct (nw_net s') /\
    nt_listen (nw_net s') = nt_listen n /\ nt_rx (nw_net s') = rx /\ forall i, pending (nw_net s') i = pending n i) (mkNetWorld w n).
Proof.
  intros Er Hd Hna Hf. unfold net_interrupt_handler, receive. apply wp_bind, wp_in_net, wp_bind, wp_get. rewrite Er.
  apply wp_bind, wp_put, wp_ret, wp_bind. eapply wp_mono; [apply handle_packet_spec; [exact Hd|exact Hna|]|].
  { intros reply Hp. unfold answerable in Hf. by rewrite Hp in Hf. }
  intros _ [w' n'] [Hw Hg]. cbn in Hw. subst w'. apply wp_ret. cbn [nw_world nw_net] in *.
  pose proof Hg as (E1 & E2 & Hc). cbn [nt_listen nt_rx] in E1, E2. split; [done|]. split; [done|].
  split; [exact (grown_distinct _ (mkNet (nt_listen n) (nt_sockets n) rx (nt_tx n)) _ Hd Hg)|]. split; [done|]. split; [done|].
  intros i. unfold pending. rewrite E2, Er. specialize (Hc i). change (conn _ i) with (conn n i) in Hc at 2.
  destruct (conn n' i) as [y|], (conn n i) as [x|]; try done. cbn in *. apply (inj Some) in Hc.
  pose proof (f_equal fst Hc : key_of y = key_of x) as Hk. pose proof (f_equal snd Hc : so_buffers y = _) as Hb. cbn in Hb.
  by rewrite Hk, Hb, <- app_assoc.
Qed.

Lemma handler_spec (w : World T) n : net_ok n ->
  wp net_interrupt_handler (fun more s' => nw_world s' = w /\ net_ok (nw_net s') /\
    (forall i, pending (nw_net s') i = pending n i) /\
    if more : bool then length (nt_rx n) = S (length (nt_rx (nw_net s'))) else nw_net s' = n /\ nt_rx n = []) (mkNetWorld w n).
Proof.
  intros [Hd Hna Harp]. destruct (nt_rx n) as [|f rx] eqn:Er.
  { unfold net_interrupt_handler, receive. apply wp_bind, wp_in_net, wp_bind, wp_get. rewrite Er.
    apply wp_ret, wp_ret. cbn. repeat split; try done. by rewrite Er. }
  apply Forall_cons in Harp as [Hf Harp].
  eapply wp_mono; [apply (handle_frame_spec w n f rx Er Hd); [by apply no_accept_unaccepted|done]|].
  intros more [w' n'] (-> & Hw & Hd' & El & Erx & Hp). cbn [nw_world nw_net] in *. split; [done|]. split; [|split; [done|by rewrite Erx]].
  split; [done|unfold no_accept; by rewrite El|by rewrite Erx].
Qed.

Lemma pop_data_spec i n x : conn n i = Some x -> net_ok n ->
  wp (pop_data i) (fun o n' => o = head (so_buffers x) /\ net_ok n' /\ nt_rx n' = nt_rx n /\
    forall j, pending n' j = if decide (j = i) then Some (key_of x, tail (so_buffers x) ++ incoming (key_of x) (nt_rx n)) else pending n j) n.
Proof.
  intros Hx [Hd Hna Harp]. unfold pop_data. apply wp_bind. eapply wp_mono; [by apply update_socket_spec|].
  intros y n' (-> & E1 & E2 & _ & Hc). apply wp_ret. split; [done|]. split; [|split; [done|]].
  - split; [|unfold no_accept; by rewrite E1|by rewrite E2]. by eapply (distinct_insert n n' i x); [..|exact Hc].
  - intros j. unfold pending. rewrite Hc, E2. by case_decide.
Qed.

(** The loop, with at least as much fuel as there are frames. *)
Lemma socket_loop_spec fuel : forall (w : World T) n i k q, net_ok n -> (length (nt_rx n) <= fuel)%nat -> pending n i = Some (k, q) ->
  wp (read_loop fuel i) (fun o s' => nw_world s' = w /\ net_ok (nw_net s') /\ o = head q /\
    forall j, pending (nw_net s') j = if decide (j = i) then Some (k, tail q) else pending n j) (mkNetWorld w n).
Proof.
  induction fuel as [|fuel IH]; intros w n i k q Hok Hlen Hp; cbn [read_loop].
  all: pose proof Hp as Hp0; unfold pending in Hp0; destruct (conn n i) as [x|] eqn:Hx; [|done]; apply (inj Some) in Hp0; pose proof (f_equal fst Hp0 : key_of x = k) as Hk; pose proof (f_equal snd Hp0 : _ = q) as Hq; clear Hp0; cbn in Hq.
  all: apply wp_bind, wp_in_net; eapply wp_mono; [by apply (pop_data_spec i n x)|].
  all: intros o n1 (-> & Hok1 & E & Hpend); destruct (so_buffers x) as [|d b] eqn:Eb; cbn [head tail app] in *;
    [|apply wp_ret; cbn [nw_world nw_net]; split; [done|]; split; [done|]; split; [by subst q|]; intros j; rewrite Hpend; case_decide; [by subst|done]].
  all: apply wp_bind; eapply wp_mono; [by apply handler_spec|]; intros more [w2 n2] (Hw & Hok2 & Hp2 & Hm); cbn [nw_world nw_net] in *; subst w2.
  - destruct more; [destruct (nt_rx n); cbn in Hlen; rewrite E in Hm; [done|lia]|]. apply wp_ret. cbn [nw_world nw_net].
    split; [done|]. split; [done|]. destruct Hm as [-> Hnil]. rewrite E in Hnil. rewrite Hnil in Hq. cbn in Hq.
    subst q. split; [done|]. intros j. rewrite Hpend, Hnil. case_decide; [by subst|done].
  - destruct more.
    + eapply wp_mono; [apply (IH w n2 i k q); [done|rewrite E in Hm; lia|]|].
      * rewrite Hp2, Hpend, decide_True by done. by subst.
      * intros o s' (E1 & E2 & E3 & E4). split; [done|]. split; [done|]. split; [done|]. intros j. rewrite E4.
        case_decide; [done|]. rewrite Hp2, Hpend. by rewrite decide_False by done.
    + apply wp_ret. cbn [nw_world nw_net]. split; [done|]. split; [done|]. destruct Hm as [-> Hnil]. rewrite E in Hnil. rewrite Hnil in Hq. cbn in Hq.
      subst q. split; [done|]. intros j. rewrite Hpend, Hnil. case_decide; [by subst|done].
Qed.

(** ** Accepting a connection *)

(** A frame that opens a connection to [port]. *)
Definition opens (port : Z) (f : list Z) : option TCPPacket :=
  match analysis f with
  | TcpPacket p => if flags_contains (tp_flags p) TcpFlags_S && (tp_dest_port p =? port) then Some p else None
  | _ => None
  end.

(** Only the port at [i], of number [port], is accepted on, for [task]. *)
Definition accepting (n : Net) (i : nat) (port task : Z) : Prop :=
  nt_listen n !! i = Some (Some (mkPort port true (Some task))) /\
  forall j o, nt_listen n !! j = Some o -> j <> i -> forall q, takes q o = false.

Lemma accepting_unaccepted n i port task f : accepting n i port task -> opens port f = None -> unaccepted n (analysis f).
Proof.
  intros [Hi Ho] Hf. unfold opens in Hf. destruct (analysis f) as [|p|p|]; try done. cbn. intros Hs. rewrite Hs in Hf. cbn [andb] in Hf.
  apply position_None, Forall_lookup. intros j o Hj. destruct (decide (j = i)) as [->|Hne]; [|by apply (Ho j o)].
  rewrite Hi in Hj. injection Hj as <-. cbn. rewrite andb_true_r, Z.eqb_sym. by destruct (tp_dest_port p =? port).
Qed.

Lemma accepting_takes n i port task : accepting n i port task -> position (takes port) (nt_listen n) = Some i.
Proof.
  intros [Hi Ho]. apply position_Some. eexists. split; [exact Hi|]. split; [cbn; by rewrite Z.eqb_refl|].
  intros j o Hj Hl. apply (Ho j o); [done|lia].
Qed.

Lemma no_accept_takes n j o : no_accept n -> nt_listen n !! j = Some o -> forall q, takes q o = false.
Proof. intros Hna Hj q. specialize (Hna q). rewrite position_None, Forall_lookup in Hna. by apply (Hna j). Qed.

Lemma accept_spec n i port r s task : no_accept n -> nt_listen n !! i = Some (Some (mkPort port r s)) ->
  wp (accept i task) (fun _ n' => accepting n' i port task /\ nt_sockets n' = nt_sockets n /\ nt_rx n' = nt_rx n) n.
Proof.
  intros Hna Hi. pose proof (lookup_lt_Some _ _ _ Hi) as Hlt. unfold accept. apply wp_bind, wp_get, wp_bind, wp_massert.
  split; [by apply Nat.ltb_lt|]. apply wp_bind, wp_unwrap. eexists. split; [exact Hi|]. apply wp_bind, wp_unwrap. eexists. split; [done|].
  apply wp_put. split; [|done]. split; [by apply list_lookup_insert_eq|]. intros j o. cbn. intros Hj Hne.
  rewrite list_lookup_insert_ne in Hj by done. by apply (no_accept_takes n j).
Qed.

Lemma wp_in_world {A} (f : M (World T) A) (Q : A -> NetWorld T -> Prop) w n :
  wp f (fun a w' => Q a (mkNetWorld w' n)) w -> wp (in_world f) Q (mkNetWorld w n).
Proof. unfold wp, in_world. cbn. by destruct (f w) as [[a w']|]. Qed.

Lemma wp_on_machine {A} (f : M Machine A) (Q : A -> World T -> Prop) w :
  wp f (fun a m => Q a (put_memory (mkKernel m (ks_kernel_space (w_memory w)) (ks_kstack_allocator (w_memory w))) w)) (ks_machine (w_memory w)) ->
  wp (on_machine f) Q w.
Proof. unfold wp, on_machine, on_memory. destruct (f _) as [[a m]|]; done. Qed.

Lemma wp_get_thread (Q : Thread -> World T -> Prop) w t th : w_threads w !! t = Some th -> Q th w -> wp (get_thread t) Q w.
Proof. intros E HQ. unfold get_thread. apply wp_bind, wp_gets, wp_unwrap. eauto. Qed.
Lemma wp_get_pcb (Q : ProcessControlBlockInner -> World T -> Prop) w pid p : w_procs w !! pid = Some p -> Q p w -> wp (get_pcb pid) Q w.
Proof. intros E HQ. unfold get_pcb. apply wp_bind, wp_gets, wp_unwrap. eauto. Qed.

Lemma wp_current_thread (Q : Z -> World T -> Prop) w t : kn_current (w_kernel w) = Some t -> Q t w -> wp current_thread Q w.
Proof.
  intros E HQ. unfold current_thread. apply wp_bind. unfold wp, on_kern, current_task, gets, unwrap. rewrite E. cbn.
  by destruct w as [[]].
Qed.

(** The world after a connection was accepted for a thread: the descriptor is
    in the table of its process and in its register a0. *)
Definition accepted (w w' : World T) (th : Thread) (f : SocketFile) (fd : nat) : Prop :=
  w_threads w' = w_threads w /\ w_kernel w' = w_kernel w /\
  (exists inner, w_procs w !! th_process th = Some inner /\ fd = snd (alloc_fd (pcb_fd_table inner)) /\
    w_procs w' = <[th_process th := set_fds (<[fd := Some (FNet (TCP f))]> (fst (alloc_fd (pcb_fd_table inner)))) inner]> (w_procs w)) /\
  read_usize (trap_cx_word (th_trap_cx_ppn th) 10) (ks_machine (w_memory w')) = Ok (Z.of_nat fd, ks_machine (w_memory w')).

(** The connection of a frame, as a socket with nothing to read yet. *)
Definition key_of_syn (p : TCPPacket) : Z * Z * Z := (tp_source_ip p, tp_dest_port p, tp_source_port p).

Lemma alloc_fd_bound fds : (snd (alloc_fd fds) <= length fds)%nat.
Proof. unfold alloc_fd. destruct (position _ _) eqn:E; [apply position_lt in E|]; cbn; lia. Qed.

Lemma accept_connection_spec p task th inner w n :
  w_threads w !! task = Some th -> w_procs w !! th_process th = Some inner -> Z.of_nat (length (pcb_fd_table inner)) < 2 ^ 63 ->
  distinct n -> (forall j x, conn n j = Some x -> key_of x <> key_of_syn p) ->
  wp (accept_connection p task) (fun _ s' => exists i fd,
    accepted w (nw_world s') th (mkSocketFile (tp_source_ip p) (tp_dest_port p) (tp_source_port p) i) fd /\
    nt_listen (nw_net s') = nt_listen n /\ nt_rx (nw_net s') = nt_rx n /\ distinct (nw_net s') /\ conn n i = None /\
    forall j, abs <$> conn (nw_net s') j = if decide (j = i) then Some (key_of_syn p, []) else abs <$> conn n j) (mkNetWorld w n).
Proof.
  intros Ht Hp Hlen Hd Hk. pose proof (alloc_fd_bound (pcb_fd_table inner)) as Hb. unfold accept_connection.
  apply wp_bind, wp_in_world. eapply wp_get_thread; [done|]. apply wp_bind, wp_in_world. eapply wp_get_pcb; [done|].
  destruct (alloc_fd (pcb_fd_table inner)) as [fds fd] eqn:Ea. cbn [snd] in Hb.
  unfold TCP_new. apply wp_bind, wp_in_net, wp_bind. eapply wp_mono; [by apply add_socket_spec|].
  intros o n1 (E1 & E2 & _ & Hd1 & Ho). destruct o as [i|]; cycle 1.
  { destruct Ho as (_ & j & x & Hx & E). by destruct (Hk j x). }
  destruct Ho as (_ & Hi & Hc). apply wp_bind, wp_unwrap. exists i. split; [done|]. apply wp_ret.
  apply wp_bind, wp_in_world. unfold put_pcb. apply wp_modify, wp_in_world, wp_on_machine.
  eapply wp_mono; [apply write_usize_spec; unfold is_usize; lia|]. intros ? m' Hr. cbv beta in Hr. exists i, fd.
  split; [|split; [done|]; split; [done|]; split; [done|]; split; [done|]].
  - split; [done|]. split; [done|]. split; [|exact Hr]. exists inner. rewrite Ea. done.
  - intros j. cbn [nw_net]. rewrite Hc. by case_decide.
Qed.

Lemma pending_new n j k : abs <$> conn n j = Some (k, []) -> pending n j = Some (k, incoming k (nt_rx n)).
Proof.
  unfold pending. destruct (conn n j) as [x|]; [|done]. intros E%(inj Some). pose proof (f_equal fst E : key_of x = k) as E1.
  pose proof (f_equal snd E : so_buffers x = []) as E2. cbn. by rewrite E1, E2.
Qed.

Lemma pending_same n n' j : abs <$> conn n' j = abs <$> conn n j -> (forall k, incoming k (nt_rx n) = incoming k (nt_rx n')) ->
  pending n' j = pending n j.
Proof.
  intros E Hinc. unfold pending. destruct (conn n' j) as [x|], (conn n j) as [y|]; try done. apply (inj Some) in E.
  pose proof (f_equal fst E : key_of x = key_of y) as E1. pose proof (f_equal snd E : so_buffers x = so_buffers y) as E2. cbn. by rewrite E1, E2, Hinc.
Qed.

(** What accepting the connection of [p] comes to, when [post] follows it. *)
Definition connected (p : TCPPacket) (th : Thread) (post : list (list Z)) (w : World T) (n : Net) (s' : NetWorld T) : Prop :=
  no_accept (nw_net s') /\ nt_rx (nw_net s') = post /\ distinct (nw_net s') /\ exists idx fd,
    accepted w (nw_world s') th (mkSocketFile (tp_source_ip p) (tp_dest_port p) (tp_source_port p) idx) fd /\ conn n idx = None /\
    forall j, pending (nw_net s') j = if decide (j = idx) then Some (key_of_syn p, incoming (key_of_syn p) post) else pending n j.

(** The frame that opens the connection. *)
Lemma accept_frame_spec (w : World T) n i port task th inner f post p :
  accepting n i port task -> distinct n -> nt_rx n = f :: post -> opens port f = Some p ->
  w_threads w !! task = Some th -> w_procs w !! th_process th = Some inner -> Z.of_nat (length (pcb_fd_table inner)) < 2 ^ 63 ->
  (forall j x, conn n j = Some x -> key_of x <> key_of_syn p) ->
  wp net_interrupt_handler (fun more s' => more = true /\ connected p th post w n s' /\
    nt_listen (nw_net s') !! i = Some (Some (mkPort port false None))) (mkNetWorld w n).
Proof.
  intros Hacc Hd Hrx Hf Ht Hp Hlen Hk. pose proof (accepting_takes _ _ _ _ Hacc) as Htk. destruct Hacc as [Hi Ho]. unfold opens in Hf.
  pose proof (lookup_lt_Some _ _ _ Hi) as Hlt. destruct (analysis f) as [|q|q|] eqn:Ean; try done.
  destruct (flags_contains (tp_flags q) TcpFlags_S) eqn:Es; [|done]. cbn [andb] in Hf.
  destruct (Z.eqb_spec (tp_dest_port q) port) as [Epo|]; [|done]. injection Hf as ->.
  unfold net_interrupt_handler, receive. apply wp_bind, wp_in_net, wp_bind, wp_get. rewrite Hrx.
  apply wp_bind, wp_put, wp_ret. rewrite Ean. cbn [handle_packet]. rewrite Es. apply wp_bind, wp_bind. unfold check_accept. cbn [nw_world nw_net].
  apply wp_bind, wp_in_net, wp_get. cbn [nt_listen]. rewrite Epo, Htk, Hi. apply wp_bind, wp_unwrap. eexists. split; [done|].
  apply wp_bind, wp_unwrap. eexists. split; [done|]. apply wp_bind, wp_unwrap. eexists. split; [done|].
  apply wp_bind, wp_in_net, wp_put, wp_bind. eapply wp_mono; [by eapply accept_connection_spec|].
  intros _ [w1 [nl ns nr nx]] (idx & fd & Hac & El & Er & Hd1 & Hn & Hc). cbn [nw_world nw_net set_listen nt_listen nt_rx] in *.
  apply wp_ret. unfold transmit. apply wp_in_net, wp_modify, wp_ret. split; [done|]. split; cycle 1.
  { cbn [nw_net nt_listen]. rewrite El. by apply list_lookup_insert_eq. }
  split; [|split; [exact Er|]; split; [exact Hd1|]; exists idx, fd; split; [exact Hac|]; split; [exact Hn|]].
  - intros q. cbn [nw_net nt_listen]. rewrite El. apply position_None, Forall_lookup. intros j o Hj. destruct (decide (j = i)) as [->|Hne].
    + rewrite list_lookup_insert_eq in Hj by done. injection Hj as <-. cbn. by rewrite andb_false_r.
    + rewrite list_lookup_insert_ne in Hj by done. by apply (Ho j o).
  - intros j. specialize (Hc j). revert Hc. case_decide as Ej; intros Hc.
    + rewrite <- Er. exact (pending_new (mkNet nl ns nr nx) j _ Hc).
    + apply pending_same; [exact Hc|]. intros k. cbn [nw_net nt_rx]. rewrite Er, Hrx. unfold incoming. cbn [map concat]. rewrite Ean. cbn [payload].
      by rewrite Es.
Qed.

Lemma wp_port_acceptable (n : Net) i o (Q : bool -> Net -> Prop) : nt_listen n !! i = Some o ->
  Q (match o with Some p => po_receivable p | None => false end) n -> wp (port_acceptable i) Q n.
Proof.
  intros Hi HQ. pose proof (lookup_lt_Some _ _ _ Hi) as Hlt. unfold port_acceptable. apply wp_bind, wp_get, wp_bind, wp_massert.
  split; [by apply Nat.ltb_lt|]. apply wp_bind, wp_unwrap. eexists. split; [exact Hi|]. by apply wp_ret.
Qed.

Lemma accept_loop_eq fuel i : accept_loop (T := T) fuel i = net_interrupt_handler ≫= fun more =>
  if more : bool then in_net (port_acceptable i) ≫= fun acceptable =>
    if acceptable : bool then match fuel with O => accept_no_fuel | S fuel => accept_loop fuel i end else mret true
  else mret false.
Proof. by destruct fuel. Qed.

Lemma accept_loop_spec pre : forall fuel (w : World T) n i port task th inner f post p,
  (length (pre ++ f :: post) <= fuel)%nat -> accepting n i port task -> distinct n -> nt_rx n = pre ++ f :: post ->
  Forall (fun g => answerable g /\ opens port g = None) pre -> opens port f = Some p ->
  w_threads w !! task = Some th -> w_procs w !! th_process th = Some inner -> Z.of_nat (length (pcb_fd_table inner)) < 2 ^ 63 ->
  (forall j x, conn n j = Some x -> key_of x <> key_of_syn p) ->
  wp (accept_loop fuel i) (fun b s' => b = true /\ connected p th post w n s') (mkNetWorld w n).
Proof.
  induction pre as [|g pre IH]; intros fuel w n i port task th inner f post p Hfuel Hacc Hd Hrx Hpre Hf Ht Hp Hlen Hk; rewrite accept_loop_eq.
  - apply wp_bind. eapply wp_mono; [by eapply accept_frame_spec|]. intros more s' (-> & Hcon & Hl).
    destruct s' as [w1 n1]. apply wp_bind, wp_in_net. eapply wp_port_acceptable; [exact Hl|]. by apply wp_ret.
  - destruct fuel as [|fuel]; [cbn in Hfuel; lia|]. apply Forall_cons in Hpre as [[Hga Hgo] Hpre].
    apply wp_bind. eapply wp_mono; [apply (handle_frame_spec w n g (pre ++ f :: post)); [done|done|by eapply accepting_unaccepted|done]|].
    intros more [w1 n1] (-> & Hw & Hd1 & El & Er & Hpe). cbn [nw_world nw_net] in *. subst w1. destruct Hacc as [Hi Ho].
    apply wp_bind, wp_in_net. eapply wp_port_acceptable; [by rewrite El|]. cbn [po_receivable].
    eapply wp_mono; [eapply (IH fuel w n1 i port task th inner f post p); try done; [cbn in Hfuel; lia|split; by rewrite El|]|].
    + intros j x Hx. specialize (Hpe j). unfold pending in Hpe. rewrite Hx in Hpe. destruct (conn n j) as [y|] eqn:Ey; [|done].
      cbn in Hpe. apply (inj Some) in Hpe. pose proof (f_equal fst Hpe : key_of x = key_of y) as ->. by apply (Hk j).
    + intros b s' (E1 & E2 & E3 & E4 & idx & fd & Hac & Hn & Hpp). split; [done|]. repeat (split; [done|]). exists idx, fd. split; [done|]. split.
      * specialize (Hpe idx). unfold pending in Hpe. rewrite Hn in Hpe. by destruct (conn n idx).
      * intros j. rewrite Hpp. by rewrite Hpe.
Qed.

End Delivery.

(** ** Reading *)

Lemma split_segment_prefix data lens : forall pos, (pos <= length data)%nat ->
  concat (fst (split_segment pos data lens)) = take (sum_list lens) (drop pos data) /\
  snd (split_segment pos data lens) = Nat.min (length data) (pos + sum_list lens).
Proof.
  induction lens as [|len lens IH]; intros pos Hp; cbn [split_segment sum_list_with id fst snd concat]; [rewrite take_0; split; [done|lia]|].
  destruct (Nat.eqb_spec (pos + Nat.min len (length data - pos)) (length data)) as [E|E].
  - cbn [fst snd concat]. rewrite app_nil_r. unfold slice. split; [|lia].
    rewrite !take_ge by (rewrite length_drop; lia). done.
  - assert (pos + len < length data)%nat as Hlt by lia. replace (Nat.min len (length data - pos)) with len by lia. clear E.
    specialize (IH (pos + len)%nat ltac:(lia)). destruct (split_segment _ _ lens) as [pieces pos'].
    cbn [fst snd concat] in *. destruct IH as [-> ->]. split; [|lia]. unfold slice. rewrite <- drop_drop.
    rewrite <- (take_drop len (take (len + sum_list lens) (drop pos data))), take_take, Nat.min_l by lia.
    f_equal. by rewrite skipn_firstn_comm, Nat.add_comm, Nat.add_sub.
Qed.

(** C28: a socket delivers what was sent to it, in order.  [pending] is what
    waits on a socket followed by the data the frames to come bring to its
    connection.  When no port is being accepted on (so it is outside
    [sys_accept]), no connection is in the table twice and the stack can reply
    to every ARP frame that comes (one it cannot reply to panics the kernel,
    [unanswerable_arp_panics]), a read on a socket returns (it waits for ever
    only when nothing is pending), its result is the first pending data,
    and nothing else changes for any socket: what is pending on the one read is
    the rest, what is pending on any other is what was, and no process notices.
    The reader gets as much of the data as its buffers hold. *)
Theorem socket_read_next {T} `{Scheduler T} `{NetStack} (w : World T) n f k q :
  net_ok n -> pending n (sk_socket_index f) = Some (k, q) ->
  wp (socket_read f) (fun o s' => nw_world s' = w /\ net_ok (nw_net s') /\ o = head q /\
    (forall j, pending (nw_net s') j = if decide (j = sk_socket_index f) then Some (k, tail q) else pending n j) /\
    forall data lens, o = Some data -> concat (fst (split_segment 0 data lens)) = take (sum_list lens) data /\
      snd (split_segment 0 data lens) = Nat.min (length data) (sum_list lens)) (mkNetWorld w n).
Proof.
  intros Hok Hp. unfold socket_read. apply wp_bind, wp_get. eapply wp_mono; [by apply (socket_loop_spec (length (nt_rx n)) w n _ k q)|].
  intros o s' (E1 & E2 & E3 & E4). split; [done|]. split; [done|]. split; [done|]. split; [done|]. intros data lens _.
  apply (split_segment_prefix data lens 0). lia.
Qed.

(** An ARP frame without a reply panics the kernel, in a read on any socket that
    has no data yet: [expect] fails on what the network has sent. *)
Lemma unanswerable_arp_panics {T} `{Scheduler T} `{NetStack} (w : World T) n frame rx x f :
  nt_rx n = frame :: rx -> ~ answerable frame -> conn n (sk_socket_index f) = Some x -> so_buffers x = [] ->
  socket_read f (mkNetWorld w n) = Err Panic.
Proof.
  intros Er Hna Hx Hb. change (read_loop (length (nt_rx n)) (sk_socket_index f) (mkNetWorld w n) = Err Panic).
  rewrite Er. cbn [length read_loop].
  destruct (wp_run _ _ _ (update_socket_spec (sk_socket_index f) (fun x => with_buffers (tail (so_buffers x)) x) n x Hx)) as (y & n' & Eu & -> & _ & Erx & _).
  unfold pop_data, in_net at 1, mbind, M_bind. cbn [nw_net nw_world]. rewrite Eu, Hb. cbn [head mret M_ret].
  unfold net_interrupt_handler, receive, in_net, get, mbind, M_bind. cbn [nw_net nw_world]. rewrite Erx, Er. cbn.
  unfold answerable in Hna. destruct (analysis frame) as [reply| | |]; try by destruct Hna.
  cbn. destruct (reply STACK_IP STACK_MAC); [by destruct Hna|done].
Qed.

(** A stack for examples: a frame names its protocol (17 or 6), for TCP its
    flags, then the address and the ports of its sender and receiver. *)
#[local] Instance demo_stack : NetStack := {
  analysis l :=
    match l with
    | 17 :: ip :: sp :: dp :: data => UdpPacket (mkUDPPacket ip 0 sp STACK_IP STACK_MAC dp (Z.of_nat (length data)) data)
    | 6 :: flags :: ip :: sp :: dp :: data => TcpPacket (mkTCPPacket ip 0 sp STACK_IP STACK_MAC dp (Z.of_nat (length data)) 0 0 flags 0 0 data)
    | _ => OtherPacket
    end;
  TCPPacket_ack p := p;
  TCPPacket_build_data p := tp_flags p :: tp_data p;
  UDPPacket_build_data p := up_data p;
  TcpFlags_F := 1; TcpFlags_S := 2; TcpFlags_A := 16
}.

(** Two sockets with one peer; a datagram for each, one for nobody, and a
    second one for the first socket. *)
Definition demo_net : Net :=
  mkNet [] [Some (mkSocket 99 5000 7 [] 0 0); Some (mkSocket 99 5001 7 [] 0 0)]
    [[17; 99; 7; 5001; 1]; [17; 98; 7; 5000; 2]; [17; 99; 7; 5000; 3; 4; 5]; [17; 99; 7; 5000; 6]] [].

Lemma socket_read_next_witness :
  wp (socket_read (mkSocketFile 99 5000 7 0)) (fun o s' => o = Some [3; 4; 5] /\
    pending (nw_net s') 0 = Some ((99, 5000, 7), [[6]]) /\ pending (nw_net s') 1 = Some ((99, 5001, 7), [[1]]) /\
    concat (fst (split_segment 0 [3; 4; 5] [1; 1]%nat)) = [3; 4]) (mkNetWorld demo_2 demo_net).
Proof.
  set (w := demo_2). clearbody w. assert (net_ok demo_net) as Hok.
  { split; [|done|repeat constructor]. intros i j x y Hx Hy. destruct i as [|[|i]], j as [|[|j]]; try done.
    all: vm_compute in Hx; vm_compute in Hy; try discriminate Hx; try discriminate Hy; injection Hx as <-; injection Hy as <-; done. }
  eapply wp_mono; [exact (socket_read_next w demo_net (mkSocketFile 99 5000 7 0) (99, 5000, 7) [[3; 4; 5]; [6]] Hok eq_refl)|].
  intros o s' (_ & _ & -> & Hp & Hs). split; [reflexivity|]. split; [exact (Hp 0%nat)|]. split; [exact (Hp 1%nat)|].
  exact (proj1 (Hs _ [1; 1]%nat eq_refl)).
Defined.

(** [sys_accept] connects the first caller.  Let the frames to come be some
    that do not open a connection to the port, one that does, and others; let
    the connection not be in the table.  Then the call returns the descriptor
    [fd] it has put in the table of the process of its thread: a TCP file on a
    new socket for exactly that connection, on which what the later frames bring
    is pending.  It has consumed the frames up to the opening one, answered
    them, kept what they brought to other sockets, and no port is accepted on
    any more. *)
Theorem accept_connects {T} `{Scheduler T} `{NetStack} (w : World T) n i port r sch task th inner pre f post p :
  net_ok n -> nt_listen n !! i = Some (Some (mkPort port r sch)) -> nt_rx n = pre ++ f :: post ->
  Forall (fun g => opens port g = None) pre -> opens port f = Some p ->
  (forall j x, conn n j = Some x -> key_of x <> key_of_syn p) ->
  kn_current (w_kernel w) = Some task -> w_threads w !! task = Some th -> w_procs w !! th_process th = Some inner ->
  Z.of_nat (length (pcb_fd_table inner)) < 2 ^ 63 ->
  wp (sys_accept i) (fun o s' => exists idx fd, o = Some (Z.of_nat fd) /\ fd = snd (alloc_fd (pcb_fd_table inner)) /\
    pcb_fd_table <$> w_procs (nw_world s') !! th_process th =
      Some (<[fd := Some (FNet (TCP (mkSocketFile (tp_source_ip p) (tp_dest_port p) (tp_source_port p) idx)))]> (fst (alloc_fd (pcb_fd_table inner)))) /\
    conn n idx = None /\ nt_rx (nw_net s') = post /\ net_ok (nw_net s') /\
    forall j, pending (nw_net s') j = if decide (j = idx) then Some (key_of_syn p, incoming (key_of_syn p) post) else pending n j) (mkNetWorld w n).
Proof.
  intros [Hd Hna Harp] Hi Hrx Hpre Hf Hk Hcur Ht Hp Hlen. rewrite Hrx in Harp. apply Forall_app in Harp as [Harp1 [_ Harp2]%Forall_cons].
  pose proof (alloc_fd_bound (pcb_fd_table inner)) as Hb. unfold sys_accept. apply wp_bind, wp_in_world. eapply wp_current_thread; [done|].
  apply wp_bind, wp_in_net. eapply wp_mono; [by eapply accept_spec|]. intros ? [l1 so1 rx1 tx1] (Hacc & Es & Er). cbn [nt_sockets nt_rx] in Es, Er. subst so1 rx1.
  unfold accept_wait. apply wp_bind, wp_get, wp_bind. cbn [nw_net nt_rx].
  eapply wp_mono; [eapply (accept_loop_spec pre _ w _ i port task th inner f post p); try done; [by rewrite Hrx|]|].
  { apply Forall_and. done. }
  intros b [w1 n1] (-> & Hna1 & Erx & Hd1 & idx & fd & (Et & Ek & (inner' & Hp' & Efd & Ep') & Hrd) & Hn & Hpe). cbn [nw_world nw_net] in *.
  rewrite Hp in Hp'. injection Hp' as <-. apply wp_bind, wp_in_world. eapply wp_current_thread; [by rewrite Ek|].
  apply wp_bind, wp_in_world. eapply wp_get_thread; [by rewrite Et|].
  apply wp_bind, wp_in_world, wp_on_machine. rewrite Efd in Hrd. eapply run_wp; [exact Hrd|]. apply wp_ret.
  exists idx, fd. rewrite <- Efd. cbn [nw_world nw_net]. rewrite <- Efd in Hb. split_and!.
  - unfold as_isize. rewrite Z.mod_small by lia. by rewrite (proj2 (Z.ltb_lt _ _)) by lia.
  - done.
  - cbn [put_memory w_procs]. rewrite Ep', lookup_insert_eq. done.
  - exact Hn.
  - exact Erx.
  - split; [done|done|by rewrite Erx].
  - exact Hpe.
Qed.

(** The first process accepts on port 80: a datagram for another socket comes
    first, then a call from port 7 of 99. *)
Definition demo_server : Net :=
  mkNet [Some (mkPort 80 false None)] [None; Some (mkSocket 99 5001 7 [] 0 0)]
    [[17; 99; 7; 5001; 1]; [6; 2; 99; 7; 80]; [6; 16; 99; 7; 80; 71; 69; 84]] [].

Definition demo_fds : list (option FileRef) := [Some FStdin; Some FStdout; Some FStdout].
Lemma demo_thread : kn_current (w_kernel demo_2) = Some 0 /\ th_process <$> w_threads demo_2 !! 0 = Some 1 /\
  pcb_fd_table <$> w_procs demo_2 !! 1 = Some demo_fds.
Proof. split_and!; vm_compute; reflexivity. Qed.

Lemma accept_connects_witness :
  wp (sys_accept 0) (fun o s' => o = Some 3 /\ exists idx,
    pending (nw_net s') idx = Some ((99, 80, 7), [[71; 69; 84]]) /\
    pcb_fd_table <$> w_procs (nw_world s') !! 1 = Some (demo_fds ++ [Some (FNet (TCP (mkSocketFile 99 80 7 idx)))]))
    (mkNetWorld demo_2 demo_server).
Proof.
  destruct demo_thread as (Hcur & Ht & Hp). destruct (w_threads demo_2 !! 0) as [th|] eqn:Eth; [|discriminate Ht].
  destruct (w_procs demo_2 !! 1) as [inner|] eqn:Ein; [|discriminate Hp]. injection Ht as Ht. injection Hp as Hp.
  assert (net_ok demo_server) as Hok.
  { split; [|intros q; cbn; by rewrite andb_false_r|repeat constructor]. intros i j x y Hx Hy. destruct i as [|[|i]], j as [|[|j]]; try done.
    all: vm_compute in Hx; vm_compute in Hy; try discriminate Hx; try discriminate Hy; injection Hx as <-; injection Hy as <-; done. }
  eapply wp_mono; [apply (accept_connects demo_2 demo_server 0 80 false None 0 th inner [[17; 99; 7; 5001; 1]] [6; 2; 99; 7; 80] [[6; 16; 99; 7; 80; 71; 69; 84]]
    (mkTCPPacket 99 0 7 STACK_IP STACK_MAC 80 0 0 0 2 0 0 []) Hok); [reflexivity|reflexivity|repeat constructor|reflexivity| |exact Hcur|exact Eth|by rewrite Ht|by rewrite Hp]|].
  - intros j x Hx. destruct j as [|[|j]]; vm_compute in Hx; try discriminate Hx. injection Hx as <-. discriminate.
  - intros o s' (idx & fd & -> & Efd & Hf & _ & _ & _ & Hpe). rewrite Hp in Efd. cbn in Efd. subst fd. rewrite Ht, Hp in Hf.
    split; [reflexivity|]. exists idx. split; [|exact Hf]. rewrite Hpe, decide_True by done. reflexivity.
Defined.

Lemma socket_table_refines_witness :
  wp (table_run (OpAdd 99 5000 7)) (fun r n' => table_spec (view demo_server) (OpAdd 99 5000 7) r (view n')) demo_server /\
  wp (table_run (OpPush 1 [8])) (fun r n' => table_spec (view demo_server) (OpPush 1 [8]) r (view n')) demo_server.
Proof.
  assert (distinct demo_server) as Hd.
  { intros i j x y Hx Hy. destruct i as [|[|i]], j as [|[|j]]; try done.
    all: vm_compute in Hx; vm_compute in Hy; try discriminate Hx; try discriminate Hy; injection Hx as <-; injection Hy as <-; done. }
  split; (eapply wp_mono; [apply (socket_table_refines demo_server _ Hd)|intros r n' [Hs _]; exact Hs]).
  - exact I.
  - exists ((99, 5001, 7), []). reflexivity.
Defined.
