(* ===== verification/ExecArgs.v ===== *)
(** * The arguments of a program

    [exec] writes the arguments of the new program on its user stack through
    the page table it has built for it (os/src/task/process.rs), and the
    program's [_start] reads them back through the same page table
    (user/src/lib.rs).  The file holds the user side, the pages of a user
    program as the two sides see them, and the theorem that what [exec] was
    given is what [main] gets. *)

From S2P Require Import Prelude Address FrameAllocator PageTable Layout MemorySet Ids Scheduler Processor Pipe Process NetProps.
From stdpp Require Import gmap.
Open Scope Z_scope.

(** ** [_start] *)

(** A load of the program: the page must be there, readable, and the
    user's; otherwise the load faults. *)
Definition user_load (pt : PageTable) (va : Z) : M Machine Z :=
  m ← get;
  pte ← unwrap (mapped m pt (va / PAGE_SIZE));
  massert (PageTableEntry_readable pte && PageTableEntry_user_accessible pte);;
  mret (read_phys m (PageTableEntry_ppn pte * PAGE_SIZE + va mod PAGE_SIZE)).

(** [core::slice::from_raw_parts(va as *const u8, len)], read. *)
Definition user_bytes (pt : PageTable) (va : Z) (len : nat) : M Machine (list Z) :=
  mfold (fun bs i => b ← user_load pt (usize_wrap (va + i)); mret (bs ++ [b])) [] (seqZ 0 (Z.of_nat len)).

(** [(va as *const usize).read_volatile()]. *)
Definition user_load_usize (pt : PageTable) (va : Z) : M Machine Z :=
  bs ← user_bytes pt va 8; mret (le_val bs).

(** [(0usize..).find(|i| ((str_start + *i) as *const u8).read_volatile() == 0)]. *)
Fixpoint find_nul (fuel : nat) (pt : PageTable) (str_start : Z) (i : nat) : M Machine nat :=
  match fuel with
  | O => fail NoFuel
  | S fuel' =>
      b ← user_load pt (usize_wrap (str_start + Z.of_nat i));
      if b =? 0 then mret i else find_nul fuel' pt str_start (S i)
  end.

(** [_start] up to the call of [main]: the strings it is called with.  (The
    heap is set up first; it is the allocator's.) *)
Definition _start (fuel : nat) (pt : PageTable) (argc argv : Z) : M Machine (list (list Z)) :=
  mfold (fun v i =>
    str_start ← user_load_usize pt (usize_wrap (argv + i * 8));
    len ← find_nul fuel pt str_start 0;
    bytes ← user_bytes pt str_start len;
    massert (utf8_valid bytes);;
    mret (v ++ [bytes])) [] (seqZ 0 argc).

(** ** The pages of a user program *)

(** The pages of [[lo, hi)] are in the program's page table, for the user to
    read; [F] is the frame of each.  The frames are the program's own: no two
    pages share one, and none is a frame of the table, or page 0 of the physical
    addresses, where there is no memory. *)
Record user_space (pt : PageTable) (lab : gmap Z (list Z)) (F : Z -> Z) (lo hi : Z) (m : Machine) : Prop := {
  us_wf : pt_wf m (pt_root_ppn pt) lab;
  us_page a : lo <= a < hi -> exists e, mapped m pt (a / PAGE_SIZE) = Some e /\
    PageTableEntry_ppn e = F (a / PAGE_SIZE) /\ PageTableEntry_readable e = true /\ PageTableEntry_user_accessible e = true;
  us_frame a : lo <= a < hi -> lab !! F (a / PAGE_SIZE) = None /\ F (a / PAGE_SIZE) <> 0;
  us_inj a b : lo <= a < hi -> lo <= b < hi -> F (a / PAGE_SIZE) = F (b / PAGE_SIZE) -> a / PAGE_SIZE = b / PAGE_SIZE
}.

Lemma wrap_low a : 0 <= a <= 2 ^ 38 -> usize_wrap a = a.
Proof. intros. unfold usize_wrap. apply Z.mod_small. lia. Qed.

(** Where a user address is in memory, and the byte the program sees there. *)
Definition user_phys (F : Z -> Z) (a : Z) : Z := F (a / PAGE_SIZE) * PAGE_SIZE + a mod PAGE_SIZE.
Definition user_byte (F : Z -> Z) (m : Machine) (a : Z) : Z := read_phys m (user_phys F a).

(** The bytes a program finds from an address on. *)
Definition holds (F : Z -> Z) (m : Machine) (a : Z) (bs : list Z) : Prop :=
  forall k b, bs !! k = Some b -> user_byte F m (a + Z.of_nat k) = b.

(** The bytes the strings and the vector of the arguments take. *)
Definition strings_len (args : list (list Z)) : Z :=
  foldr (fun arg n => Z.of_nat (length arg) + 1 + n) 0 args.
Definition args_len (args : list (list Z)) : Z := (Z.of_nat (length args) + 1) * 8 + strings_len args.

(** The vector from [slot] on points to the strings below [sp]. *)
Fixpoint laid (F : Z -> Z) (m : Machine) (slot sp : Z) (args : list (list Z)) : Prop :=
  match args with
  | [] => True
  | arg :: args' =>
      let sp' := sp - (Z.of_nat (length arg) + 1) in
      holds F m slot (le_bytes 8 sp') /\ holds F m sp' (arg ++ [0]) /\ laid F m (slot + 8) sp' args'
  end.

Section Space.
Context (pt : PageTable) (lab : gmap Z (list Z)) (F : Z -> Z) (lo hi : Z).
Context (Hlo : 0 <= lo) (Hhi : hi <= 2 ^ 38) (Hroot : 0 <= pt_root_ppn pt < 2 ^ 44).
Local Notation "'space' m" := (user_space pt lab F lo hi m) (at level 10, m at level 9).

Lemma user_phys_frame m a : space m -> lo <= a < hi ->
  user_phys F a / PAGE_SIZE = F (a / PAGE_SIZE) /\ user_phys F a mod PAGE_SIZE = a mod PAGE_SIZE /\ 0 <= F (a / PAGE_SIZE) < 2 ^ 44.
Proof.
  intros Hs Ha. destruct (us_page _ _ _ _ _ _ Hs a Ha) as (e & _ & He & _). pose proof (PageTableEntry_ppn_range e) as Hr. rewrite He in Hr.
  unfold user_phys, PAGE_SIZE in *. split_and!; [zdiv_lia|zdiv_lia|lia|lia].
Qed.

Lemma user_phys_inj m a b : space m -> lo <= a < hi -> lo <= b < hi -> user_phys F a = user_phys F b -> a = b.
Proof.
  intros Hs Ha Hb E. destruct (user_phys_frame m a Hs Ha) as (Da & Ma & _). destruct (user_phys_frame m b Hs Hb) as (Db & Mb & _).
  assert (a / PAGE_SIZE = b / PAGE_SIZE) as Ep by (apply (us_inj _ _ _ _ _ _ Hs); [done|done|congruence]).
  rewrite (Z.div_mod a PAGE_SIZE), (Z.div_mod b PAGE_SIZE) by done. congruence.
Qed.

(** The kernel finds a user address where the page table maps it. *)
Lemma wp_translated_refmut a (Q : PhysAddr -> Machine -> Prop) m : space m -> lo <= a < hi ->
  Q (user_phys F a) m -> wp (translated_refmut (PageTable_token pt) a) Q m.
Proof.
  intros Hs Ha HQ. unfold translated_refmut. apply wp_bind, wp_get, wp_bind, wp_unwrap. exists (user_phys F a). split.
  2:{ unfold PhysAddr_get_mut. apply wp_bind, wp_massert. split; [|by apply wp_ret]. destruct (us_frame _ _ _ _ _ _ Hs a Ha) as [_ Hnz].
    destruct (user_phys_frame m a Hs Ha) as (Hd & _ & _). destruct (Z.eqb_spec (user_phys F a) 0) as [E|]; [|done]. rewrite E in Hd. done. }
  destruct (us_page _ _ _ _ _ _ Hs a Ha) as (e & Hm & He & _). destruct (user_phys_frame m a Hs Ha) as (_ & _ & Hf).
  apply mapped_Some in Hm as (slot & Hf' & Hr & _). unfold PageTable_translate_va.
  rewrite (find_pte_root m _ pt) by (by apply PageTable_from_token_token).
  autorewrite with addr. rewrite (Z.mod_small a) by lia.
  replace (VirtAddr_floor a) with (a / PAGE_SIZE) by reflexivity. rewrite Hf'. cbn [fmap option_fmap option_map]. rewrite Hr, He. f_equal.
  unfold user_phys, PhysAddr_from_PhysPageNum, PhysAddr_into_usize, usize_wrap. change PAGE_SIZE_BITS with 12. rewrite Z.shiftl_mul_pow2 by lia.
  unfold PAGE_SIZE in *. pose proof (Z.mod_pos_bound a 4096). rewrite (Z.mod_small (_ * _)) by lia. rewrite Z.mod_small by lia.
  rewrite PhysAddr_from_usize_mod. change (2 ^ 12) with 4096. apply Z.mod_small. lia.
Qed.

(** A store to a user address changes the user's byte there and nothing
    else of the user's memory, and leaves the page table alone. *)
Lemma user_space_store a b m : space m -> lo <= a < hi -> space (write_phys (user_phys F a) b m).
Proof.
  intros Hs Ha. destruct (user_phys_frame m a Hs Ha) as (Dp & _ & _). destruct (us_frame _ _ _ _ _ _ Hs a Ha) as [Hfr _].
  set (m' := write_phys _ _ _).
  assert (forall q, is_Some (lab !! q) -> mem_page m' q = mem_page m q) as Hq.
  { intros q [l Hl]. unfold m', write_phys. rewrite mem_page_set, Dp, decide_False; [done|]. intros <-. congruence. }
  assert (forall q j, is_Some (lab !! q) -> read_pte m' q j = read_pte m q j) as Hp.
  { intros q j Hl. by apply read_pte_page, Hq. }
  pose proof (us_wf _ _ _ _ _ _ Hs) as Hwf.
  assert (forall vpn, mapped m' pt vpn = mapped m pt vpn) as Hmap.
  { intros vpn. rewrite !mapped_translate. unfold PageTable_translate.
    assert (PageTable_find_pte m' pt vpn = PageTable_find_pte m pt vpn) as ->.
    { destruct (indexes_ok vpn) as [Hok Hlen]. apply (find_pte_loop_agree lab m _ (pt_root_ppn pt) (VirtPageNum_indexes vpn) []);
        [done|apply Hwf|by rewrite Hlen|done|]. intros q lq j Hl _ _. apply Hp. eauto. }
    destruct (PageTable_find_pte m pt vpn) as [[q j]|] eqn:Ef; [|done]. cbn.
    destruct (find_pte_label m pt lab vpn q j Hwf Ef) as (lq & Hl & _). rewrite Hp by eauto. done. }
  split.
  - split; [apply Hwf|]. intros q path i Hl Hlen Hi. rewrite Hp by eauto. by apply Hwf.
  - intros x Hx. rewrite Hmap. by apply Hs.
  - apply Hs.
  - apply Hs.
Qed.

Lemma user_byte_store a b m x : space m -> lo <= a < hi -> lo <= x < hi ->
  user_byte F (write_phys (user_phys F a) b m) x = if decide (x = a) then b else user_byte F m x.
Proof.
  intros Hs Ha Hx. unfold user_byte. rewrite read_write_phys. destruct (decide (x = a)) as [->|Hne]; [by rewrite decide_True|].
  rewrite decide_False; [done|]. intros E. by apply Hne, (user_phys_inj m).
Qed.

(** Bytes stored at consecutive addresses. *)
Definition stored (a : Z) (bs : list Z) (m m' : Machine) : Prop :=
  space m' /\ forall x, lo <= x < hi ->
    user_byte F m' x = if decide (a <= x < a + Z.of_nat (length bs)) then default 0 (bs !! Z.to_nat (x - a)) else user_byte F m x.

Lemma stored_nil a m : space m -> stored a [] m m.
Proof. intros Hs. split; [done|]. intros x _. cbn. by rewrite decide_False by lia. Qed.

Lemma stored_cons a b bs m m' : space m -> lo <= a < hi ->
  stored (a + 1) bs (write_phys (user_phys F a) b m) m' -> stored a (b :: bs) m m'.
Proof.
  intros Hs Ha [Hs' Hb]. split; [done|]. intros x Hx. rewrite Hb, user_byte_store by done. cbn [length].
  destruct (decide (x = a)) as [->|Hne].
  - rewrite decide_False, decide_True by lia. by rewrite Z.sub_diag.
  - repeat case_decide; try lia. by replace (Z.to_nat (x - a)) with (S (Z.to_nat (x - (a + 1)))) by lia.
Qed.

Lemma stored_app a bs bs' m m1 m2 : stored a bs m m1 -> stored (a + Z.of_nat (length bs)) bs' m1 m2 -> stored a (bs ++ bs') m m2.
Proof.
  intros [_ H1] [Hs H2]. split; [done|]. intros x Hx. rewrite H2, H1, length_app by done. repeat case_decide; try lia.
  - rewrite lookup_app_r by lia. do 2 f_equal. lia.
  - rewrite lookup_app_l by lia. done.
Qed.

(** A word of the stack does not straddle two pages. *)
Lemma wp_write_bytes a bs m : space m -> lo <= a -> a + Z.of_nat (length bs) <= hi -> a mod PAGE_SIZE + Z.of_nat (length bs) <= PAGE_SIZE ->
  wp (write_bytes_at (user_phys F a) bs) (fun _ => stored a bs m) m.
Proof.
  revert a m. induction bs as [|b bs IH]; intros a m Hs Ha Hh Hp.
  - apply wp_ret. by apply stored_nil.
  - unfold write_bytes_at. cbn [length] in *. rewrite seqZ_cons by lia. cbn [zip zip_with mfor fst snd]. apply wp_bind, wp_modify.
    replace (Z.pred (Z.of_nat (S (length bs)))) with (Z.of_nat (length bs)) by lia.
    destruct bs as [|b' bs].
    { apply wp_ret. apply stored_cons; [done|lia|]. apply stored_nil. apply user_space_store; [done|lia]. }
    set (bs' := b' :: bs) in *. assert (0 < Z.of_nat (length bs')) by (cbn; lia).
    assert (user_phys F (a + 1) = Z.succ (user_phys F a)) as <-.
    { unfold user_phys, PAGE_SIZE in *. replace ((a + 1) / 4096) with (a / 4096) by zdiv_lia. zdiv_lia. }
    eapply wp_mono; [apply IH|].
    + apply user_space_store; [done|lia].
    + lia.
    + lia.
    + unfold PAGE_SIZE in *. zdiv_lia.
    + intros [] m' Hm'. apply stored_cons; [done|lia|exact Hm'].
Qed.

Lemma wp_write_usize a v m : space m -> lo <= a -> a + 8 <= hi -> a mod 8 = 0 ->
  wp (write_usize (user_phys F a) v) (fun _ => stored a (le_bytes 8 v) m) m.
Proof. intros. apply wp_write_bytes; rewrite ?length_le_bytes; [done|lia|lia|]. unfold PAGE_SIZE. zdiv_lia. Qed.

(** The loop that copies a string. *)
Lemma wp_write_string a bs m : space m -> lo <= a -> a + Z.of_nat (length bs) <= hi ->
  wp (mfor (zip (seqZ a (Z.of_nat (length bs))) bs) (fun pc =>
        pa ← translated_refmut (PageTable_token pt) (usize_wrap (fst pc)); modify (write_phys pa (snd pc))))
    (fun _ => stored a bs m) m.
Proof.
  revert a m. induction bs as [|b bs IH]; intros a m Hs Ha Hh.
  - apply wp_ret. by apply stored_nil.
  - cbn [length] in *. rewrite seqZ_cons by lia. cbn [zip zip_with mfor fst snd]. rewrite wrap_low by lia.
    apply wp_bind, wp_bind, wp_translated_refmut; [done|lia|]. apply wp_modify.
    replace (Z.pred (Z.of_nat (S (length bs)))) with (Z.of_nat (length bs)) by lia.
    eapply wp_mono; [apply (IH (a + 1))|].
    + apply user_space_store; [done|lia].
    + lia.
    + lia.
    + intros [] m' Hm'. apply stored_cons; [done|lia|exact Hm'].
Qed.

(** What is stored is held, and what is held elsewhere stays. *)
Lemma stored_holds a bs m m' : lo <= a -> a + Z.of_nat (length bs) <= hi -> stored a bs m m' -> holds F m' a bs.
Proof.
  intros Ha Hh [_ Hb] k b Hk. pose proof (lookup_lt_Some _ _ _ Hk). rewrite Hb, decide_True by lia.
  replace (Z.to_nat (a + Z.of_nat k - a)) with k by lia. by rewrite Hk.
Qed.

Lemma stored_keeps a bs a' bs' m m' : stored a bs m m' -> lo <= a' -> a' + Z.of_nat (length bs') <= hi ->
  a' + Z.of_nat (length bs') <= a \/ a + Z.of_nat (length bs) <= a' -> holds F m a' bs' -> holds F m' a' bs'.
Proof.
  intros [_ Hb] Ha Hh Hd Hm k b Hk. pose proof (lookup_lt_Some _ _ _ Hk). rewrite Hb, decide_False by lia. by apply Hm.
Qed.

Lemma holds_frame a bs m m' : (forall x, a <= x < a + Z.of_nat (length bs) -> user_byte F m' x = user_byte F m x) ->
  holds F m a bs -> holds F m' a bs.
Proof. intros Hx Hm k b Hk. pose proof (lookup_lt_Some _ _ _ Hk). rewrite Hx by lia. by apply Hm. Qed.

Lemma strings_len_nonneg args : 0 <= strings_len args.
Proof. unfold strings_len. induction args; cbn; lia. Qed.

(** Nothing but the slots from [slot] on and the strings below [sp] is
    written. *)
Definition untouched (slot sp sp' n : Z) (m m' : Machine) : Prop :=
  forall x, lo <= x < hi -> ~ (sp' <= x < sp) -> ~ (slot <= x < slot + 8 * n) -> user_byte F m' x = user_byte F m x.

Lemma wp_push_args args : forall argv i slot sp m, space m ->
  (forall j, (j < length args)%nat -> argv !! (i + j)%nat = Some (user_phys F (slot + 8 * Z.of_nat j))) ->
  slot mod 8 = 0 -> lo <= sp - strings_len args -> sp <= slot -> slot + 8 * Z.of_nat (length args) <= hi ->
  wp (push_args (PageTable_token pt) argv i args sp)
    (fun sp' m' => sp' = sp - strings_len args /\ space m' /\ laid F m' slot sp args /\
       untouched slot sp sp' (Z.of_nat (length args)) m m') m.
Proof.
  induction args as [|arg args IH]; intros argv i slot sp m Hs Hv H8 Hl Hsp Hh; cbn [push_args].
  { apply wp_ret. split_and!; [cbn; lia|done|done|]. intros x _ _ _. done. }
  cbn [strings_len foldr length] in *. fold (strings_len args) in *. pose proof (strings_len_nonneg args) as Hn.
  set (sp1 := sp - (Z.of_nat (length arg) + 1)) in *. rewrite wrap_low by lia.
  apply wp_bind, wp_unwrap. exists (user_phys F slot). split; [rewrite <- (Nat.add_0_r i), Hv by lia; do 2 f_equal; lia|].
  apply wp_bind. eapply wp_mono; [apply wp_write_usize; [done|lia|lia|done]|]. intros [] m1 H1. cbv beta in H1.
  apply wp_bind. eapply wp_mono; [apply (wp_write_string sp1 arg); [apply H1|lia|lia]|]. intros [] m2 H2. cbv beta in H2.
  rewrite wrap_low by lia. apply wp_bind, wp_translated_refmut; [apply H2|lia|]. apply wp_bind, wp_modify.
  set (m3 := write_phys _ _ m2).
  assert (stored sp1 (arg ++ [0]) m1 m3) as H3.
  { eapply stored_app; [exact H2|]. apply stored_cons; [apply H2|lia|]. apply stored_nil, user_space_store; [apply H2|lia]. }
  assert (Z.of_nat (length (arg ++ [0])) = sp - sp1) as Hlen by (rewrite length_app; cbn; lia).
  eapply wp_mono; [apply (IH argv (S i) (slot + 8) sp1 m3)|].
  - apply H3.
  - intros j Hj. replace (S i + j)%nat with (i + S j)%nat by lia. rewrite Hv by lia. do 2 f_equal. lia.
  - zdiv_lia.
  - lia.
  - lia.
  - lia.
  - intros sp' m' (-> & Hs' & Hlaid & Hun). split_and!; [lia|done| |].
    + cbn [laid]. fold sp1. split_and!; [| |done].
      * eapply holds_frame; [|eapply stored_keeps; [exact H3| | | |eapply stored_holds; [| |exact H1]]]; rewrite ?length_le_bytes; try lia.
        intros x Hx. apply Hun; lia.
      * eapply holds_frame; [|eapply stored_holds; [| |exact H3]]; try lia. intros x Hx. apply Hun; lia.
    + intros x Hx Hx1 Hx2. rewrite Hun by lia. destruct H3 as [_ H3], H1 as [_ H1]. rewrite H3, decide_False by lia.
      rewrite H1 by done. by rewrite decide_False by (rewrite length_le_bytes; lia).
Qed.

(** The vector is translated slot by slot before anything is written. *)
Lemma wp_collect_argv base n m : space m -> lo <= base -> base + n * 8 <= hi -> 0 <= n ->
  wp (mfold (fun argv arg => pa ← translated_refmut (PageTable_token pt) (usize_wrap (base + arg * 8)); mret (argv ++ [pa])) [] (seqZ 0 n))
    (fun argv m' => m' = m /\ argv = map (fun j => user_phys F (base + 8 * j)) (seqZ 0 n)) m.
Proof.
  intros Hs Hb Hh Hn. eapply wp_mono; [apply (wp_mfold _ _ (fun dn argv m' => m' = m /\ argv = map (fun j => user_phys F (base + 8 * j)) dn))|].
  - done.
  - intros dn j argv m' [rest Hp] [-> ->].
    assert (j ∈ seqZ 0 n) as Hj%elem_of_seqZ by (rewrite Hp; set_solver +).
    rewrite wrap_low by lia. apply wp_bind, wp_translated_refmut; [done|lia|]. apply wp_ret. split; [done|].
    rewrite map_app. cbn. by rewrite (Z.mul_comm j).
  - auto.
Qed.

Lemma wp_exec_args args m : space m -> hi mod 8 = 0 -> lo <= hi - args_len args ->
  wp (exec_args (PageTable_token pt) hi args)
    (fun '(argv_base, sp) m' => argv_base = hi - (Z.of_nat (length args) + 1) * 8 /\ space m' /\
       laid F m' argv_base argv_base args /\ holds F m' (hi - 8) (le_bytes 8 0) /\
       sp mod 8 = 0 /\ hi - args_len args - 8 < sp <= hi - args_len args /\
       (forall x, lo <= x < hi - args_len args -> user_byte F m' x = user_byte F m x)) m.
Proof.
  intros Hs H8 Hl. unfold exec_args, args_len in *. set (n := Z.of_nat (length args)) in *. pose proof (strings_len_nonneg args) as Hn.
  set (base := hi - (n + 1) * 8) in *. rewrite wrap_low by lia.
  assert (forall j, (j <= length args)%nat -> map (fun j => user_phys F (base + 8 * j)) (seqZ 0 (n + 1)) !! j = Some (user_phys F (base + 8 * Z.of_nat j))) as Hv.
  { intros j Hj. rewrite list_lookup_fmap, lookup_seqZ_lt by lia. done. }
  apply wp_bind. eapply wp_mono; [apply (wp_collect_argv base (n + 1)); [done|lia|lia|lia]|]. intros ? ? [-> ->].
  apply wp_bind, wp_unwrap. eexists. split; [by apply Hv|]. fold n.
  apply wp_bind. eapply wp_mono; [apply wp_write_usize; [done|lia|lia|zdiv_lia]|]. intros [] m1 H1. cbv beta in H1.
  apply wp_bind. eapply wp_mono; [apply (wp_push_args args _ 0 base)|].
  - apply H1.
  - intros j Hj. apply Hv. lia.
  - zdiv_lia.
  - lia.
  - lia.
  - lia.
  - intros sp m' (-> & Hs' & Hlaid & Hun). apply wp_ret. split_and!; [done|done|done| |zdiv_lia|zdiv_lia|zdiv_lia|].
    + replace (hi - 8) with (base + 8 * n) by lia. eapply holds_frame; [|eapply stored_holds; [| |exact H1]]; rewrite ?length_le_bytes; try lia.
      intros x Hx. apply Hun; lia.
    + intros x Hx. rewrite Hun by lia. destruct H1 as [_ H1]. rewrite H1 by lia. by rewrite decide_False by (rewrite length_le_bytes; lia).
Qed.

(** What the program reads. *)
Lemma wp_user_load a (Q : Z -> Machine -> Prop) m : space m -> lo <= a < hi -> Q (user_byte F m a) m -> wp (user_load pt a) Q m.
Proof.
  intros Hs Ha HQ. unfold user_load. destruct (us_page _ _ _ _ _ _ Hs a Ha) as (e & Hm & He & Hr & Hu).
  apply wp_bind, wp_get, wp_bind, wp_unwrap. exists e. split; [done|]. apply wp_bind, wp_massert. rewrite Hr, Hu. split; [done|].
  apply wp_ret. rewrite He. exact HQ.
Qed.

Lemma wp_user_bytes a bs m : space m -> lo <= a -> a + Z.of_nat (length bs) <= hi -> holds F m a bs ->
  wp (user_bytes pt a (length bs)) (fun l m' => l = bs /\ m' = m) m.
Proof.
  intros Hs Ha Hh Hm. unfold user_bytes.
  eapply wp_mono; [apply (wp_mfold _ _ (fun dn l m' => l = take (length dn) bs /\ m' = m))|].
  - done.
  - intros dn j l m' [rest Hp] [-> ->].
    assert (seqZ 0 (Z.of_nat (length bs)) !! length dn = Some j) as Hj.
    { rewrite Hp, <- app_assoc, lookup_app_r, Nat.sub_diag by lia. done. }
    apply lookup_seqZ in Hj as [-> Hj]. rewrite wrap_low by lia. apply wp_bind, wp_user_load; [done|lia|]. apply wp_ret. split; [|done].
    destruct (lookup_lt_is_Some_2 bs (length dn)) as [b Hb]; [lia|]. rewrite length_app. cbn [length].
    rewrite Nat.add_1_r, (take_S_r _ _ b) by done. do 2 f_equal. by apply Hm.
  - intros l m' [-> ->]. split; [|done]. rewrite length_seqZ. apply take_ge. lia.
Qed.

Lemma wp_find_nul fuel a arg m : forall i, space m -> lo <= a -> a + Z.of_nat (length arg) + 1 <= hi -> holds F m a (arg ++ [0]) ->
  Forall (fun b => b <> 0) arg -> (i <= length arg)%nat -> (length arg < fuel + i)%nat ->
  wp (find_nul fuel pt a i) (fun n m' => n = length arg /\ m' = m) m.
Proof.
  induction fuel as [|fuel IH]; intros i Hs Ha Hh Hm Hz Hi Hf; [lia|]. cbn [find_nul].
  rewrite wrap_low by lia. apply wp_bind, wp_user_load; [done|lia|].
  destruct (decide (i = length arg)) as [->|Hne].
  - rewrite (Hm (length arg) 0) by (rewrite lookup_app_r, Nat.sub_diag by lia; done). by apply wp_ret.
  - destruct (lookup_lt_is_Some_2 arg i) as [b Hb]; [lia|]. rewrite (Hm i b) by (by apply lookup_app_l_Some).
    pose proof (proj1 (Forall_lookup _ _) Hz i b Hb) as Hnz. cbv beta in Hnz. rewrite (proj2 (Z.eqb_neq b 0) Hnz). apply IH; auto; lia.
Qed.

(** The strings [_start] can be called with: the bytes of a [String] without
    NUL. *)
Definition arg_ok (arg : list Z) : Prop := Forall (fun b => b <> 0) arg /\ utf8_valid arg = true.

Lemma laid_lookup m args : forall slot sp i arg, laid F m slot sp args -> args !! i = Some arg ->
  exists a, sp - strings_len args <= a /\ a + Z.of_nat (length arg) + 1 <= sp /\
    holds F m (slot + 8 * Z.of_nat i) (le_bytes 8 a) /\ holds F m a (arg ++ [0]).
Proof.
  induction args as [|x args IH]; intros slot sp i arg Hl Hi; [done|]. cbn [laid strings_len foldr] in *. fold (strings_len args).
  destruct Hl as (Hw & Hst & Hl). pose proof (strings_len_nonneg args). destruct i as [|i].
  - injection Hi as ->. exists (sp - (Z.of_nat (length arg) + 1)). rewrite Z.mul_0_r, Z.add_0_r. split_and!; [lia|lia|done|done].
  - destruct (IH _ _ _ _ Hl Hi) as (a & Ha1 & Ha2 & Hw' & Hs'). exists a. split_and!; [lia|lia| |done].
    by replace (slot + 8 * Z.of_nat (S i)) with (slot + 8 + 8 * Z.of_nat i) by lia.
Qed.

Lemma wp_start fuel args slot sp m : space m -> laid F m slot sp args -> Forall arg_ok args ->
  lo <= sp - strings_len args -> sp <= hi -> lo <= slot -> slot + 8 * Z.of_nat (length args) <= hi ->
  Forall (fun arg => (length arg < fuel)%nat) args ->
  wp (_start fuel pt (Z.of_nat (length args)) slot) (fun v m' => v = args /\ m' = m) m.
Proof.
  intros Hs Hl Hok Hsp Hh Hlo' Hh' Hf. unfold _start.
  eapply wp_mono; [apply (wp_mfold _ _ (fun dn v m' => v = take (length dn) args /\ m' = m))|].
  - done.
  - intros dn j v m' [rest Hp] [-> ->].
    assert (seqZ 0 (Z.of_nat (length args)) !! length dn = Some j) as Hj.
    { rewrite Hp, <- app_assoc, lookup_app_r, Nat.sub_diag by lia. done. }
    apply lookup_seqZ in Hj as [-> Hj]. destruct (lookup_lt_is_Some_2 args (length dn)) as [arg Harg]; [lia|].
    destruct (laid_lookup m args slot sp (length dn) arg Hl Harg) as (a & Ha1 & Ha2 & Hw & Hst).
    rewrite wrap_low by lia. replace (slot + (0 + Z.of_nat (length dn)) * 8) with (slot + 8 * Z.of_nat (length dn)) by lia.
    apply wp_bind. unfold user_load_usize. apply wp_bind. eapply wp_mono; [apply (wp_user_bytes _ (le_bytes 8 a)); [done|lia|rewrite length_le_bytes; lia|done]|].
    intros l m' [-> ->]. apply wp_ret. rewrite le_val_bytes_small by lia.
    rewrite Forall_lookup in Hok, Hf. destruct (Hok _ _ Harg) as [Hz Hu]. specialize (Hf _ _ Harg). cbv beta in Hf.
    apply wp_bind. eapply wp_mono; [apply (wp_find_nul fuel a arg); [done|lia|lia|done|done|lia|lia]|]. intros ? ? [-> ->].
    apply wp_bind. eapply wp_mono; [apply wp_user_bytes; [done|lia|lia|]|].
    { intros k b Hk. apply Hst. by apply lookup_app_l_Some. }
    intros ? ? [-> ->]. apply wp_bind, wp_massert. split; [done|]. apply wp_ret. split; [|done].
    rewrite length_app. cbn [length]. by rewrite Nat.add_1_r, (take_S_r _ _ arg).
  - intros v m' [-> ->]. split; [|done]. rewrite length_seqZ. apply take_ge. lia.
Qed.

(** C13: the arguments [exec] is given arrive.  When the new program's stack
    has room for them (in frames of its own, none at physical address 0), [exec] writes the vector and the strings without a
    fault; [_start], called with the count and the address [exec] leaves in the
    registers, reads back exactly the given strings in order and ends; the
    word after the last slot is 0; the stack pointer is 8-byte aligned, at or
    below the lowest string and less than 8 bytes further; and no byte of the
    stack further down is written. *)
Theorem exec_arguments_arrive args fuel m : space m -> hi mod 8 = 0 -> lo <= hi - args_len args -> Forall arg_ok args ->
  Forall (fun arg => (length arg < fuel)%nat) args ->
  exists argv_base sp m', exec_args (PageTable_token pt) hi args m = Ok ((argv_base, sp), m') /\
    _start fuel pt (Z.of_nat (length args)) argv_base m' = Ok (args, m') /\
    user_load_usize pt (argv_base + 8 * Z.of_nat (length args)) m' = Ok (0, m') /\
    sp mod 8 = 0 /\ hi - args_len args - 8 < sp <= hi - args_len args /\
    (forall x, lo <= x < hi - args_len args -> user_byte F m' x = user_byte F m x).
Proof.
  intros Hs H8 Hl Hok Hf. pose proof (strings_len_nonneg args).
  destruct (wp_run _ _ _ (wp_exec_args args m Hs H8 Hl)) as ([argv_base sp] & m' & Hrun & -> & Hs' & Hlaid & Hz & Ha & Hsp & Hun).
  unfold args_len in *. eexists _, sp, m'. split_and!; [exact Hrun| | |done|lia|lia|exact Hun].
  - destruct (wp_run _ _ _ (wp_start fuel args _ _ m' Hs' Hlaid Hok ltac:(lia) ltac:(lia) ltac:(lia) ltac:(lia) Hf)) as (v & m1 & E & -> & ->). exact E.
  - replace (hi - (Z.of_nat (length args) + 1) * 8 + 8 * Z.of_nat (length args)) with (hi - 8) by lia.
    destruct (wp_run _ _ _ (wp_user_bytes (hi - 8) (le_bytes 8 0) m' Hs' ltac:(lia) ltac:(rewrite length_le_bytes; lia) Hz)) as (v & m1 & E & -> & ->).
    unfold user_load_usize, mbind, M_bind. rewrite length_le_bytes in E. rewrite E. reflexivity.
Qed.

End Space.

(** ** An example: two pages of stack *)

Definition demo_lab : gmap Z (list Z) := {[100 := []; 101 := [0]; 102 := [0; 0]]}.
Definition demo_frame (vpn : Z) : Z := if vpn =? 5 then 7 else 9.

Definition wf_check (m : Machine) (root : Z) (lab : gmap Z (list Z)) : bool :=
  bool_decide (lab !! root = Some []) &&
  forallb (fun x => (2 <=? Z.of_nat (length x.2)) ||
    forallb (fun i => negb (PageTableEntry_is_valid (read_pte m x.1 i)) ||
      bool_decide (lab !! PageTableEntry_ppn (read_pte m x.1 i) = Some (x.2 ++ [i]))) (seqZ 0 512)) (map_to_list lab).

Lemma wf_check_ok m root lab : wf_check m root lab = true -> pt_wf m root lab.
Proof.
  intros [Hr Hc]%andb_true_iff. apply bool_decide_eq_true in Hr. rewrite forallb_forall in Hc. split; [done|].
  intros p path i Hp Hl Hi Hv. specialize (Hc (p, path)). cbn [fst snd] in Hc.
  destruct (orb_prop _ _ (Hc ltac:(by apply list_elem_of_In, elem_of_map_to_list))) as [H2|H2]; [apply Z.leb_le in H2; lia|].
  rewrite forallb_forall in H2. specialize (H2 i ltac:(apply list_elem_of_In, elem_of_seqZ; lia)). rewrite Hv in H2.
  by apply bool_decide_eq_true in H2.
Qed.

Lemma args_space : exists pt m, demo_mapped = Ok (pt, m) /\ 0 <= pt_root_ppn pt < 2 ^ 44 /\
  user_space pt demo_lab demo_frame (5 * 4096) (7 * 4096) m.
Proof.
  destruct demo_mapped as [[pt m]|] eqn:E; [|by vm_compute in E].
  exists pt, m. split; [reflexivity|]. vm_compute in E. injection E as <- <-. split; [cbn; lia|].
  assert (forall a, 5 * 4096 <= a < 7 * 4096 -> a / PAGE_SIZE = 5 \/ a / PAGE_SIZE = 6) as Hd by (unfold PAGE_SIZE; intros; zdiv_lia).
  split.
  - apply wf_check_ok. vm_compute. reflexivity.
  - intros a [-> | ->]%Hd; eexists; (split; [vm_compute; reflexivity|]); vm_compute; done.
  - intros a [-> | ->]%Hd; vm_compute; done.
  - intros a b Ha Hb. destruct (Hd a Ha) as [-> | ->], (Hd b Hb) as [-> | ->]; vm_compute; congruence.
Qed.

(** [ls -l], in two strings. *)
Definition demo_args : list (list Z) := [[108; 115]; [45; 108]].

Lemma exec_arguments_arrive_witness : exists pt m argv_base sp m',
  demo_mapped = Ok (pt, m) /\ exec_args (PageTable_token pt) 28672 demo_args m = Ok ((argv_base, sp), m') /\
  _start 10 pt 2 argv_base m' = Ok (demo_args, m').
Proof.
  destruct args_space as (pt & m & E & Hr & Hs). exists pt, m.
  destruct (exec_arguments_arrive pt demo_lab demo_frame (5 * 4096) (7 * 4096) ltac:(lia) ltac:(lia) Hr demo_args 10 m Hs
    ltac:(reflexivity) ltac:(vm_compute; congruence)) as (ab & sp & m' & H1 & H2 & _).
  - repeat constructor; done.
  - repeat constructor.
  - exists ab, sp, m'. split_and!; [exact E|exact H1|exact H2].
Defined.
