(* ===== verification/Tty.v ===== *)
(** * The terminal (os/src/tty/mod.rs, os/src/syscall/tty.rs)

    The line discipline byte by byte, what a reader takes from it, and the
    interrupt that feeds it, wakes a reader and raises signals.  What the
    terminal echoes is a result of [push_byte]; the serial port is the list of
    bytes an interrupt finds.  The properties compare the discipline with a
    reference that edits a typed line as a whole. *)

From S2P Require Import Prelude Scheduler Processor Sync Process.

Definition TTY_ECHO : Z := 1.
Definition TTY_ICANON : Z := 2.
Definition TTY_ISIG : Z := 4.
Definition TTY_CTL_GET_FLAGS : Z := 1.
Definition TTY_CTL_SET_FLAGS : Z := 2.

Definition CTRL_C : Z := 0x03.
Definition CTRL_D : Z := 0x04.
Definition CTRL_Z : Z := 0x1a.
Definition TTY_LF : Z := 0x0a.
Definition TTY_CR : Z := 0x0d.
Definition TTY_BS : Z := 0x08.
Definition TTY_DEL : Z := 0x7f.

Record TtyInner := mkTty {
  tt_flags : Z;
  tt_line : list Z;
  tt_lines : list (list Z);
  tt_raw_buf : list Z;
  tt_eof : bool;
  tt_fg_pgrp : Z
}.

Definition TtyInner_new : TtyInner := mkTty (Z.lor TTY_ECHO (Z.lor TTY_ICANON TTY_ISIG)) [] [] [] false 0.

Definition with_line (line : list Z) (t : TtyInner) : TtyInner :=
  mkTty (tt_flags t) line (tt_lines t) (tt_raw_buf t) (tt_eof t) (tt_fg_pgrp t).
Definition with_lines (lines : list (list Z)) (t : TtyInner) : TtyInner :=
  mkTty (tt_flags t) (tt_line t) lines (tt_raw_buf t) (tt_eof t) (tt_fg_pgrp t).
Definition with_raw (raw : list Z) (t : TtyInner) : TtyInner :=
  mkTty (tt_flags t) (tt_line t) (tt_lines t) raw (tt_eof t) (tt_fg_pgrp t).
Definition with_eof (eof : bool) (t : TtyInner) : TtyInner :=
  mkTty (tt_flags t) (tt_line t) (tt_lines t) (tt_raw_buf t) eof (tt_fg_pgrp t).
Definition with_flags (flags : Z) (t : TtyInner) : TtyInner :=
  mkTty flags (tt_line t) (tt_lines t) (tt_raw_buf t) (tt_eof t) (tt_fg_pgrp t).
Definition with_fg_pgrp (pgrp : Z) (t : TtyInner) : TtyInner :=
  mkTty (tt_flags t) (tt_line t) (tt_lines t) (tt_raw_buf t) (tt_eof t) pgrp.

(** [self.flags & flag != 0]. *)
Definition flag_set (flag : Z) (t : TtyInner) : bool := negb (Z.land (tt_flags t) flag =? 0).

(** [self.lines.push_back(core::mem::take(&mut self.line))]. *)
Definition commit_line (t : TtyInner) : TtyInner := with_line [] (with_lines (tt_lines t ++ [tt_line t]) t).

(** One byte in canonical mode, with what is echoed. *)
Definition push_canonical (ch : Z) (t : TtyInner) : TtyInner * list Z :=
  if (ch =? TTY_CR) || (ch =? TTY_LF) then (commit_line t, if flag_set TTY_ECHO t then [TTY_LF] else [])
  else if (ch =? TTY_BS) || (ch =? TTY_DEL) then
    (with_line (removelast (tt_line t)) t,
     if negb (bool_decide (tt_line t = [])) && flag_set TTY_ECHO t then [TTY_BS; 32; TTY_BS] else [])
  else if ch =? CTRL_D then
    (if bool_decide (tt_line t = []) then with_eof true t else commit_line t, [])
  else if 0x20 <=? ch then (with_line (tt_line t ++ [ch]) t, if flag_set TTY_ECHO t then [ch] else [])
  else (t, []).

(** [push_byte]: the new state, what is echoed and the signal to raise. *)
Definition push_byte (ch : Z) (t : TtyInner) : TtyInner * list Z * option Z :=
  if flag_set TTY_ISIG t && (ch =? CTRL_C) then (with_line [] t, [94; 67; TTY_CR; TTY_LF], Some SIGINT)
  else if flag_set TTY_ISIG t && (ch =? CTRL_Z) then (with_line [] t, [94; 90; TTY_CR; TTY_LF], Some SIGTSTP)
  else if flag_set TTY_ICANON t then (push_canonical ch t, None)
  else (with_raw (tt_raw_buf t ++ [ch]) t, [], None).

Definition has_data (t : TtyInner) : bool :=
  negb (bool_decide (tt_lines t = [])) || negb (bool_decide (tt_raw_buf t = [])) || tt_eof t.

(** One round of the loop of [read] for a member of the group [pgrp] that wants
    [want] bytes: the bytes it returns, or none when it has to wait. *)
Definition read_round (pgrp : Z) (want : nat) (t : TtyInner) : option (list Z) * TtyInner :=
  if negb (tt_fg_pgrp t =? 0) && negb (pgrp =? tt_fg_pgrp t) then (Some [], t)
  else if flag_set TTY_ICANON t then
    match tt_lines t with
    | line :: lines =>
        let n := Nat.min (length line) want in
        (Some (take n line), with_lines (if (n <? length line)%nat then drop n line :: lines else lines) t)
    | [] => if tt_eof t then (Some [], with_eof false t) else (None, t)
    end
  else
    let n := Nat.min (length (tt_raw_buf t)) want in
    if (0 <? n)%nat then (Some (take n (tt_raw_buf t)), with_raw (drop n (tt_raw_buf t)) t) else (None, t).

(** ** The terminal in the kernel *)

Section Console.
Context {T : Type} `{Scheduler T}.

(** [TTY] with its condition variable, and what has been sent to the port. *)
Record Console := mkConsole { co_world : World T; co_inner : TtyInner; co_condvar : CondvarInner; co_sent : list Z }.

Definition on_world {A : Type} (f : M (World T) A) : M Console A := fun c =>
  match f (co_world c) with Ok (a, w) => Ok (a, mkConsole w (co_inner c) (co_condvar c) (co_sent c)) | Err e => Err e end.
Definition put_inner (t : TtyInner) : M Console unit := modify (fun c => mkConsole (co_world c) t (co_condvar c) (co_sent c)).
Definition put_condvar (cv : CondvarInner) : M Console unit := modify (fun c => mkConsole (co_world c) (co_inner c) cv (co_sent c)).

(** [Tty::read], up to the switch to another task when there is nothing to
    read: it starts the round again when it is woken. *)
Definition Tty_read (want : nat) : M Console (option (list Z)) :=
  if (want =? 0)%nat then mret (Some [])
  else
    t ← gets co_inner;
    pgrp ← (if tt_fg_pgrp t =? 0 then mret 0 else on_world current_pgrp);
    match read_round pgrp want t with
    | (Some bytes, t') => put_inner t';; mret (Some bytes)
    | (None, _) =>
        cv ← gets co_condvar;
        cv' ← on_world (on_kern (Condvar_wait_no_sched cv));
        put_condvar cv';;
        mret None
    end.

Definition Tty_get_flags : M Console Z := gets (fun c => tt_flags (co_inner c)).
Definition Tty_set_flags (flags : Z) : M Console unit := t ← gets co_inner; put_inner (with_flags flags t).
Definition Tty_set_fg_pgrp (pgrp : Z) : M Console unit := t ← gets co_inner; put_inner (with_fg_pgrp pgrp t).
Definition Tty_get_fg_pgrp : M Console Z := gets (fun c => tt_fg_pgrp (co_inner c)).

Definition Tty_signal_fg (signal : Z) : M Console unit :=
  pgrp ← Tty_get_fg_pgrp;
  if pgrp =? 0 then on_world (current_add_signal signal) else on_world (signal_process_group pgrp signal).

(** The session of [handle_uart_irq] over the bytes of the port: the last
    signal asked for. *)
Fixpoint push_bytes (bytes : list Z) (signal : option Z) : M Console (option Z) :=
  match bytes with
  | [] => mret signal
  | ch :: bytes' =>
      c ← get;
      let '(t, echo, sig) := push_byte ch (co_inner c) in
      put (mkConsole (co_world c) t (co_condvar c) (co_sent c ++ echo));;
      push_bytes bytes' (match sig with Some _ => sig | None => signal end)
  end.

Definition handle_uart_irq (bytes : list Z) : M Console unit :=
  signal ← push_bytes bytes None;
  ready ← gets (fun c => has_data (co_inner c));
  (if ready : bool then
     cv ← gets co_condvar;
     cv' ← on_world (on_kern (Condvar_signal cv));
     put_condvar cv'
   else mret tt);;
  match signal with Some sig => Tty_signal_fg sig | None => mret tt end.

Definition sys_tty_ctl (cmd arg : Z) : M Console Z :=
  if cmd =? TTY_CTL_GET_FLAGS then Tty_get_flags
  else if cmd =? TTY_CTL_SET_FLAGS then Tty_set_flags arg;; mret 0
  else mret (-1).

End Console.

(** ** Editing a line, as a whole *)

(** The bytes of a typed line that survive, from the last to the first: [skip]
    of them are still to be erased.  A key that raises a signal hides everything
    before it. *)
Fixpoint surviving (isig : bool) (skip : nat) (typed_rev : list Z) : list Z :=
  match typed_rev with
  | [] => []
  | c :: rest =>
      if isig && ((c =? CTRL_C) || (c =? CTRL_Z)) then []
      else if (c =? TTY_BS) || (c =? TTY_DEL) then surviving isig (S skip) rest
      else if c <? 0x20 then surviving isig skip rest
      else match skip with O => c :: surviving isig 0 rest | S skip => surviving isig skip rest end
  end.
Definition edited (isig : bool) (typed : list Z) : list Z := rev (surviving isig 0 (rev typed)).

Definition ends_line (c : Z) : bool := (c =? TTY_CR) || (c =? TTY_LF) || (c =? CTRL_D).

(** The typed bytes cut at the ends of lines, and what follows the last. *)
Fixpoint typed_lines (cur typed : list Z) : list (list Z) * list Z :=
  match typed with
  | [] => ([], cur)
  | c :: typed' =>
      if ends_line c then let r := typed_lines [] typed' in (cur :: fst r, snd r)
      else typed_lines (cur ++ [c]) typed'
  end.

(** A byte typed, or a read of a foreground process. *)
Inductive tty_event := Typed (c : Z) | ReadLine (want : nat).

Fixpoint tty_run (events : list tty_event) (t : TtyInner) : list (option (list Z)) * TtyInner :=
  match events with
  | [] => ([], t)
  | Typed c :: events' => tty_run events' (fst (fst (push_byte c t)))
  | ReadLine want :: events' =>
      let r := read_round (tt_fg_pgrp t) want t in
      let rs := tty_run events' (snd r) in
      (fst r :: fst rs, snd rs)
  end.

Fixpoint typed_bytes (events : list tty_event) : list Z :=
  match events with
  | [] => []
  | Typed c :: events' => c :: typed_bytes events'
  | ReadLine _ :: events' => typed_bytes events'
  end.

Definition answered (rs : list (option (list Z))) : list Z := concat (map (default []) rs).

(** *** The discipline edits as the reference does *)

Definition isig_of (t : TtyInner) : bool := flag_set TTY_ISIG t.

(** The state of a canonical terminal: the line being typed is [cur], edited. *)
Definition typing (t : TtyInner) (cur : list Z) : Prop :=
  flag_set TTY_ICANON t = true /\ tt_line t = edited (isig_of t) cur /\ Forall (fun c => ends_line c = false) cur.

Lemma surviving_skip isig n l : surviving isig n l = drop n (surviving isig 0 l).
Proof.
  revert n. induction l as [|c l IH]; intros n; cbn [surviving]; [by rewrite drop_nil|].
  destruct (isig && _); [by rewrite drop_nil|]. destruct (_ || _); [rewrite (IH (S n)), (IH 1%nat), drop_drop; f_equal; lia|].
  destruct (c <? 0x20); [apply IH|]. destruct n; [done|]. cbn [drop]. apply IH.
Qed.

Lemma rev_tail {A} (l : list A) : rev (drop 1 l) = removelast (rev l).
Proof. destruct l as [|x l]; [done|]. cbn [rev drop]. by rewrite removelast_last. Qed.

Lemma edited_snoc isig cur c : edited isig (cur ++ [c]) =
  if isig && ((c =? CTRL_C) || (c =? CTRL_Z)) then []
  else if (c =? TTY_BS) || (c =? TTY_DEL) then removelast (edited isig cur)
  else if c <? 0x20 then edited isig cur else edited isig cur ++ [c].
Proof.
  unfold edited. rewrite rev_app_distr. cbn [rev app surviving]. destruct (isig && _); [done|].
  destruct (_ || _); [by rewrite surviving_skip, rev_tail|]. by destruct (c <? 0x20).
Qed.

(** What a key that does not end a line does to the line. *)
Lemma push_key t c : flag_set TTY_ICANON t = true -> ends_line c = false -> fst (fst (push_byte c t)) =
  with_line (if isig_of t && ((c =? CTRL_C) || (c =? CTRL_Z)) then []
             else if (c =? TTY_BS) || (c =? TTY_DEL) then removelast (tt_line t)
             else if c <? 0x20 then tt_line t else tt_line t ++ [c]) t.
Proof.
  intros Hi [Hcr Hd]%orb_false_iff. unfold push_byte, push_canonical, isig_of. rewrite Hi, Hcr, Hd.
  destruct (flag_set TTY_ISIG t), (c =? CTRL_C), (c =? CTRL_Z); try reflexivity; cbn [andb orb fst];
    (destruct ((c =? TTY_BS) || (c =? TTY_DEL)); [done|]); rewrite Z.leb_antisym; (destruct (c <? 0x20); cbn [negb fst]; [destruct t; reflexivity|reflexivity]).
Qed.

(** What the end of a line does. *)
Lemma push_end t c : flag_set TTY_ICANON t = true -> ends_line c = true ->
  let t' := fst (fst (push_byte c t)) in
  tt_flags t' = tt_flags t /\ tt_line t' = [] /\ concat (tt_lines t') = concat (tt_lines t) ++ tt_line t.
Proof.
  intros Hi He. assert ((c =? CTRL_C) = false /\ (c =? CTRL_Z) = false) as [E1 E2].
  { unfold ends_line in He. destruct (Z.eqb_spec c TTY_CR) as [->|]; [done|]. destruct (Z.eqb_spec c TTY_LF) as [->|]; [done|].
    destruct (Z.eqb_spec c CTRL_D) as [->|]; done. }
  assert (concat (tt_lines t ++ [tt_line t]) = concat (tt_lines t) ++ tt_line t) as Ec by (rewrite concat_app; cbn; by rewrite app_nil_r).
  unfold push_byte, push_canonical. rewrite Hi, E1, E2, !andb_false_r. unfold ends_line in He.
  destruct ((c =? TTY_CR) || (c =? TTY_LF)); [done|]. cbn [orb] in He. rewrite He.
  apply Z.eqb_eq in He as ->. cbn [orb fst]. case_bool_decide as El; [|done]. cbn. rewrite El. by rewrite app_nil_r.
Qed.

Lemma push_typing t cur c : typing t cur -> ends_line c = false ->
  let t' := fst (fst (push_byte c t)) in typing t' (cur ++ [c]) /\ tt_lines t' = tt_lines t /\ tt_flags t' = tt_flags t.
Proof.
  intros (Hi & Hl & Hc) He. cbn zeta. rewrite push_key by done. split; [|done]. split; [exact Hi|].
  split; [|by apply Forall_app; auto]. change (isig_of (with_line _ t)) with (isig_of t). rewrite edited_snoc, <- Hl. done.
Qed.

(** A read takes its answer off the front of the lines. *)
Lemma read_typing t cur want : typing t cur -> let r := read_round (tt_fg_pgrp t) want t in
  typing (snd r) cur /\ tt_flags (snd r) = tt_flags t /\ default [] (fst r) ++ concat (tt_lines (snd r)) = concat (tt_lines t) /\
  (length (default [] (fst r)) <= want)%nat.
Proof.
  intros (Hi & Hl & Hc). cbn zeta. unfold read_round. rewrite Z.eqb_refl, andb_false_r, Hi.
  destruct (tt_lines t) as [|line lines] eqn:E.
  - destruct (tt_eof t); cbn; rewrite E; repeat split; done || lia.
  - set (n := Nat.min (length line) want). split; [done|]. split; [done|]. split.
    + change (take n line ++ concat (if (n <? length line)%nat then drop n line :: lines else lines) = line ++ concat lines).
      destruct (Nat.ltb_spec n (length line)); cbn [concat]; [by rewrite app_assoc, take_drop|by rewrite take_ge by lia].
    + change (length (take n line) <= want)%nat. rewrite length_take. lia.
Qed.

Lemma tty_run_typed events t cur : typing t cur ->
  let rs := fst (tty_run events t) in let t' := snd (tty_run events t) in let r := typed_lines cur (typed_bytes events) in
  answered rs ++ concat (tt_lines t') = concat (tt_lines t) ++ concat (map (edited (isig_of t)) (fst r)) /\
  tt_line t' = edited (isig_of t) (snd r).
Proof.
  revert t cur. induction events as [|[c|want] events IH]; intros t cur Ht; cbn [tty_run typed_bytes typed_lines fst snd].
  - split; [by rewrite !app_nil_r|apply Ht].
  - destruct (ends_line c) eqn:E; cbn [fst snd].
    + destruct Ht as (Hi & Hl & _). destruct (push_end t c Hi E) as (Ef & E0 & Ec). set (t1 := fst (fst (push_byte c t))) in *.
      assert (typing t1 []) as H1 by (split; [unfold flag_set; rewrite Ef; exact Hi|split; [exact E0|constructor]]).
      specialize (IH t1 [] H1). cbn zeta in IH. unfold isig_of, flag_set in *. rewrite Ef in IH. destruct IH as [-> ->].
      split; [|done]. rewrite Ec. cbn [map concat]. rewrite <- app_assoc. by rewrite Hl.
    + destruct (push_typing t cur c Ht E) as (H1 & El & Ef). specialize (IH _ _ H1). cbn zeta in IH.
      unfold isig_of, flag_set in *. rewrite Ef, El in IH. exact IH.
  - destruct (read_typing t cur want Ht) as (H1 & Ef & Ec & _). specialize (IH _ _ H1). cbn zeta in IH.
    unfold isig_of, flag_set in *. rewrite Ef in IH. destruct IH as [IH ->]. split; [|done].
    unfold answered in *. cbn [map concat]. by rewrite <- app_assoc, IH, app_assoc, Ec.
Qed.

(** C38: a canonical terminal delivers what was typed, edited line by line.  From
    a new terminal in canonical mode, whatever the other flags and in whatever
    order bytes arrive and the foreground processes read, the bytes the reads
    have answered, followed by the lines not yet read, are the finished lines as
    the reference edits them: of a line as typed, each erase key removes the
    last byte that is still there, a key that raises a signal drops what comes
    before it, and the other control bytes are not kept.  The line being typed
    is edited the same way. *)
Theorem tty_delivers_edited_lines flags events : Z.land flags TTY_ICANON <> 0 ->
  let t := with_flags flags TtyInner_new in let r := tty_run events t in
  let isig := negb (Z.land flags TTY_ISIG =? 0) in
  let typed := typed_lines [] (typed_bytes events) in
  answered (fst r) ++ concat (tt_lines (snd r)) = concat (map (edited isig) (fst typed)) /\
  tt_line (snd r) = edited isig (snd typed).
Proof.
  intros Hf. cbn zeta. apply (tty_run_typed events (with_flags flags TtyInner_new) []).
  split; [apply negb_true_iff, Z.eqb_neq; exact Hf|]. split; [done|constructor].
Qed.

(** [ab], erase, [c], return, [x], a read of one byte, interrupt, [y], end of
    input, and another read. *)
Lemma tty_delivers_edited_lines_witness :
  let events := [Typed 97; Typed 98; Typed 127; Typed 99; Typed 13; Typed 120; ReadLine 1; Typed 3; Typed 121; Typed 4; ReadLine 5; ReadLine 5] in
  let r := tty_run events (with_flags 7 TtyInner_new) in
  fst r = [Some [97]; Some [99]; Some [121]] /\
  answered (fst r) ++ concat (tt_lines (snd r)) = concat (map (edited true) (fst (typed_lines [] (typed_bytes events)))).
Proof.
  split; [reflexivity|].
  apply (tty_delivers_edited_lines 7 [Typed 97; Typed 98; Typed 127; Typed 99; Typed 13; Typed 120; ReadLine 1; Typed 3; Typed 121; Typed 4; ReadLine 5; ReadLine 5]).
  vm_compute. congruence.
Defined.

(** An interrupt key that arrives while no task runs, before a foreground group
    has been set, panics: the signal goes to the current process. *)
Lemma interrupt_key_without_task_panics {T} `{Scheduler T} (c : Console (T := T)) :
  flag_set TTY_ISIG (co_inner c) = true -> tt_fg_pgrp (co_inner c) = 0 -> has_data (co_inner c) = false ->
  kn_current (w_kernel (co_world c)) = None -> handle_uart_irq [CTRL_C] c = Err Panic.
Proof.
  intros Hi Hg Hd Hn. unfold handle_uart_irq. destruct c as [w [flags line lines raw eof fg] cv sent]. cbn [co_inner tt_fg_pgrp co_world] in *. subst fg.
  unfold mbind, M_bind. cbn [push_bytes]. unfold mbind, M_bind, get. cbn [co_inner]. unfold push_byte at 1. rewrite Hi. cbn [andb].
  change (CTRL_C =? CTRL_C) with true. cbn iota beta. unfold put, mret, M_ret, gets. cbn [co_inner with_line].
  unfold has_data in *. unfold with_line. cbn [co_inner fst snd tt_lines tt_raw_buf tt_eof] in *. rewrite Hd.
  unfold Tty_signal_fg, Tty_get_fg_pgrp, gets, mbind, M_bind. cbn [co_inner tt_fg_pgrp with_line].
  unfold on_world, current_add_signal, current_process, current_thread, on_kern, current_task, mbind, M_bind, gets. change (0 =? 0) with true. cbn iota beta. cbn [co_world]. by rewrite Hn.
Qed.
