(* ===== verification/Syscalls.v ===== *)
(** * System calls across components (os/src/syscall/process.rs, os/src/syscall/fs.rs)

    The calls that join processes, user memory, files and the terminal: the
    strings they read from user memory, the answers they copy out, the search
    for a program, and the check that a user range is writable.  [System] holds
    the parts; a call runs with the fuel given for the strings in user memory
    and for reading a file whole. *)

From S2P Require Import Prelude Address FrameAllocator PageTable MemorySet Ids Scheduler Processor Pipe Sync BlockCache Layout Efs Vfs Process Files Net Tty.

(** ** User ranges *)

Definition USER_VA_LIMIT : Z := Z.shiftl 1 38.

Fixpoint range_loop (fuel : nat) (m : Machine) (pt : PageTable) (address end_ : Z) : res bool :=
  match fuel with
  | O => Err NoFuel
  | S fuel =>
      match PageTable_translate m pt (VirtAddr_floor (VirtAddr_from_usize address)) with
      | None => Ok false
      | Some pte =>
          if negb (PageTableEntry_is_valid pte) || negb (PageTableEntry_writable pte) then Ok false
          else if end_ <=? address then Ok true
          else
            let next_page := saturating_add (Z.ldiff address 0xfff) 0x1000 in
            if (next_page =? 0) || (end_ <? next_page) then Ok true
            else range_loop fuel m pt next_page end_
      end
  end.

(** Each round but the first covers a page of the range. *)
Definition range_fuel (len : Z) : nat := Z.to_nat (len / PAGE_SIZE) + 2.

Definition user_range_writable (m : Machine) (token start len : Z) : res bool :=
  if (start =? 0) || (len =? 0) || (USER_VA_LIMIT <=? start) then Ok false
  else match checked_add start (len - 1) with
       | None => Ok false
       | Some end_ =>
           if USER_VA_LIMIT <=? end_ then Ok false
           else range_loop (range_fuel len) m (PageTable_from_token token) start end_
       end.

(** ** Copying to user memory *)

(** [slice.copy_from_slice(data)] on a slice that starts at a physical
    address. *)
Definition write_slice (sl : Slice) (data : list Z) : M Machine unit :=
  write_bytes_at (sl_ppn sl * PAGE_SIZE + sl_off sl) data.

(** The loops that copy an answer out; slicing panics past the ends. *)
Fixpoint copy_out (data : list Z) (write_len offset : Z) (buffers : list Slice) : M Machine unit :=
  match buffers with
  | [] => mret tt
  | sl :: buffers' =>
      let end_ := Z.min (offset + sl_len sl) write_len in
      massert (end_ <=? Z.of_nat (length data));;
      write_slice sl (slice (Z.to_nat offset) (Z.to_nat (end_ - offset)) data);;
      copy_out data write_len end_ buffers'
  end.

(** ** Finding a program *)

Definition COLON : Z := 58.
Fixpoint split_colon (cur s : bytes) : list bytes :=
  match s with
  | [] => [cur]
  | c :: s' => if c =? COLON then cur :: split_colon [] s' else split_colon (cur ++ [c]) s'
  end.

Section Fs.
Context (fs : EasyFileSystem).

(** The loop over the directories of [PATH]. *)
Fixpoint search_path (p : ProcessControlBlockInner) (path : bytes) (dirs : list bytes) : prog (option OSInode) :=
  match dirs with
  | [] => Ret None
  | dir :: dirs' =>
      if is_nil dir then search_path p path dirs'
      else
        let full_path := dir ++ [SLASH] ++ path in
        let root := resolve_root fs p dir in
        o ← open_file_at fs root full_path RDONLY;
        match o with Some f => Ret (Some f) | None => search_path p path dirs' end
  end.

Definition find_program (p : ProcessControlBlockInner) (path : bytes) : prog (option OSInode) :=
  if existsb (Z.eqb SLASH) path then open_file_at fs (resolve_root fs p path) path RDONLY
  else search_path p path (split_colon [] (pcb_path_variable p)).

Definition ELF_MAGIC : list Z := [0x7f; 0x45; 0x4c; 0x46].
Definition is_elf (data : list Z) : bool := bool_decide (take 4 data = ELF_MAGIC).
End Fs.

(** ** The calls *)

Section Calls.
Context {T : Type} `{Scheduler T} `{NetStack}.
Context (fs : EasyFileSystem) (sym : LinkerSymbols) (ElfFile_new : list Z -> option ElfFile) (user_sstatus trap_handler : Z) (INITPROC : Z).
(** Fuel for a string or an array in user memory, and for a file. *)
Context (str_fuel file_fuel : nat).

Record System := mkSystem { sy_console : Console (T := T); sy_store : Store; sy_files : gmap Z OSInode; sy_net : Net }.

Definition on_console {A : Type} (f : M (Console (T := T)) A) : M System A := fun s =>
  match f (sy_console s) with Ok (a, c) => Ok (a, mkSystem c (sy_store s) (sy_files s) (sy_net s)) | Err e => Err e end.
Definition on_proc {A : Type} (f : M (World T) A) : M System A := on_console (on_world f).
Definition on_fs {A : Type} (f : prog A) : M System A := fun s =>
  match run f (sy_store s) with Ok (a, st) => Ok (a, mkSystem (sy_console s) st (sy_files s) (sy_net s)) | Err e => Err e end.
Definition on_net {A : Type} (f : M (NetWorld T) A) : M System A := fun s =>
  match f (mkNetWorld (co_world (sy_console s)) (sy_net s)) with
  | Ok (a, nw) =>
      let c := sy_console s in
      Ok (a, mkSystem (mkConsole (nw_world nw) (co_inner c) (co_condvar c) (co_sent c)) (sy_store s) (sy_files s) (nw_net nw))
  | Err e => Err e
  end.
Definition add_file (n : Z) (f : OSInode) : M System unit :=
  modify (fun s => mkSystem (sy_console s) (sy_store s) (<[n := f]> (sy_files s)) (sy_net s)).

(** [current_process()] with its fields. *)
Definition this_process : M System (Z * ProcessControlBlockInner) :=
  on_proc (pid ← current_process; p ← get_pcb pid; mret (pid, p)).
Definition user_token : M System Z := r ← this_process; mret (MemorySet_token (pcb_memory_set (snd r))).
Definition user_string (ptr : Z) : M System bytes := token ← user_token; on_proc (on_machine (translated_str str_fuel token ptr)).

(** The common end of the calls that write an answer: the range is made
    private, and the first [len] bytes are copied. *)
Definition answer_bytes (buf len : Z) (data : list Z) : M System Z :=
  r ← this_process;
  let '(pid, p) := r in
  let write_len := Z.min (Z.of_nat (length data)) len in
  e ← on_proc (on_machine (MemorySet_ensure_private_range (pcb_memory_set p) (VirtAddr_from_usize buf) write_len));
  on_proc (put_pcb pid (set_memory (snd e) (pcb_task_res_allocator p) p));;
  if negb (fst e) then mret (-1)
  else
    let token := MemorySet_token (snd e) in
    buffers ← on_proc (on_machine (translated_byte_buffer token buf write_len));
    on_proc (on_machine (copy_out data write_len 0 buffers));;
    mret write_len.

Definition sys_getcwd (buf len : Z) : M System Z :=
  r ← this_process; answer_bytes buf len (pcb_working_directory_path (snd r)).
Definition sys_getpath (buf len : Z) : M System Z :=
  r ← this_process; answer_bytes buf len (pcb_path_variable (snd r)).
Definition sys_setpath (path : Z) : M System Z :=
  path ← user_string path;
  r ← this_process;
  on_proc (put_pcb (fst r) (set_path_variable path (snd r)));; mret 0.
Definition sys_getdents (path buf len : Z) : M System Z :=
  path ← user_string path;
  r ← this_process;
  o ← on_fs (sys_getdents_listing fs (snd r) path);
  match o with Some listing => answer_bytes buf len listing | None => mret (-1) end.

Definition sys_open (path flags : Z) : M System Z :=
  path ← user_string path;
  r ← this_process;
  o ← on_fs (sys_open_file fs (snd r) path flags);
  match o with
  | Some f =>
      n ← on_proc (gets w_next_object);
      on_proc (modify (fun w => put_pipes (w_pipes w) (n + 1) w));;
      add_file n f;;
      on_proc (install_file (FInode n))
  | None => mret (-1)
  end.

Definition call_mkdir (path : Z) : M System Z :=
  path ← user_string path; r ← this_process; on_fs (sys_mkdir fs (snd r) path).
Definition call_unlink (path : Z) : M System Z :=
  path ← user_string path; r ← this_process; on_fs (sys_unlink fs (snd r) path).
Definition call_rename (fuel : nat) (old_path new_path : Z) : M System Z :=
  old_path ← user_string old_path;
  new_path ← user_string new_path;
  r ← this_process;
  on_fs (sys_rename fs fuel (snd r) old_path new_path).
Definition call_chdir (path : Z) : M System Z :=
  path ← user_string path;
  r ← this_process;
  c ← on_fs (sys_chdir fs (snd r) path);
  on_proc (put_pcb (fst r) (snd c));;
  mret (fst c).

(** [sys_list_apps]: each name with its NUL, as long as it fits; the buffer is
    not made private first. *)
Fixpoint list_apps_loop (token buf len written : Z) (names : list bytes) : M Machine Z :=
  match names with
  | [] => mret written
  | name :: names' =>
      let data := name ++ [0] in
      let n := Z.of_nat (length data) in
      if len <? usize_wrap (written + n) then mret written
      else
        buffers ← translated_byte_buffer token (usize_wrap (buf + written)) n;
        copy_out data n 0 buffers;;
        list_apps_loop token buf len (usize_wrap (written + n)) names'
  end.
Definition sys_list_apps (buf len : Z) : M System Z :=
  token ← user_token;
  names ← on_fs (list_app_names fs);
  on_proc (on_machine (list_apps_loop token buf len 0 names)).

(** The argument vector of [sys_exec]: pointers up to a null one. *)
Fixpoint read_args (fuel : nat) (token args : Z) : M Machine (list bytes) :=
  match fuel with
  | O => fun _ => Err NoFuel
  | S fuel =>
      pa ← translated_ref token args;
      m ← get;
      let arg_str_ptr := le_val (map (fun i => read_phys m (pa + i)) (seqZ 0 8)) in
      if arg_str_ptr =? 0 then mret []
      else
        arg ← translated_str str_fuel token arg_str_ptr;
        rest ← read_args fuel token (usize_wrap (args + 8));
        mret (arg :: rest)
  end.

Definition sys_exec (path args : Z) : M System Z :=
  path ← user_string path;
  token ← user_token;
  args_vec ← on_proc (on_machine (read_args str_fuel token args));
  r ← this_process;
  o ← on_fs (find_program fs (snd r) path);
  match o with
  | Some app_inode =>
      data ← on_fs (OSInode_read_all file_fuel app_inode);
      if negb (is_elf (snd data)) then mret (-1)
      else
        pid ← on_proc current_process;
        on_proc (ProcessControlBlock_exec sym ElfFile_new user_sstatus trap_handler pid (snd data) args_vec);;
        mret (Z.of_nat (length args_vec))
  | None => mret (-1)
  end.

(** *** Reading and writing *)

Definition slice_bytes (m : Machine) (sl : Slice) : list Z :=
  map (fun i => read_phys m (sl_ppn sl * PAGE_SIZE + sl_off sl + i)) (seqZ 0 (sl_len sl)).
Definition buffer_bytes (buffers : list Slice) : M System (list (list Z)) :=
  on_proc (on_machine (gets (fun m => map (slice_bytes m) buffers))).

(** Storing [data] through a byte iterator over the buffer, from the byte [pos]
    on. *)
Fixpoint store_from (pos : Z) (data : list Z) (buffers : list Slice) : M Machine unit :=
  match buffers with
  | [] => mret tt
  | sl :: buffers' =>
      let skip := Z.min pos (sl_len sl) in
      let n := Z.to_nat (sl_len sl - skip) in
      write_bytes_at (sl_ppn sl * PAGE_SIZE + sl_off sl + skip) (take n data);;
      store_from (pos - skip) (drop n data) buffers'
  end.

(** A call of [File::read] or [File::write] that has begun: the file, its
    buffer, the length of the buffer and, for a pipe, the bytes moved. *)
Inductive io_call :=
  | ReadCall (file : FileRef) (buffers : list Slice) (want : Z) (got : list Z)
  | WriteCall (file : FileRef) (buffers : list Slice) (want already : Z).

Definition file_readable (f : FileRef) : M System bool :=
  match f with
  | FStdin => mret true
  | FStdout => mret false
  | FInode n => o ← gets (fun s => sy_files s !! n); x ← unwrap o; mret (os_readable x)
  | FPipe p => o ← on_proc (gets (fun w => ph_pipes (w_pipes w) !! p)); x ← unwrap o; mret (pi_readable x)
  | FNet f => mret (NetFile_readable f)
  end.
Definition file_writable (f : FileRef) : M System bool :=
  match f with
  | FStdin => mret false
  | FStdout => mret true
  | FInode n => o ← gets (fun s => sy_files s !! n); x ← unwrap o; mret (os_writable x)
  | FPipe p => o ← on_proc (gets (fun w => ph_pipes (w_pipes w) !! p)); x ← unwrap o; mret (pi_writable x)
  | FNet f => mret (NetFile_writable f)
  end.

(** [fd_table[fd]], [None] past the end. *)
Definition descriptor (p : ProcessControlBlockInner) (fd : Z) : option FileRef :=
  match pcb_fd_table p !! Z.to_nat fd with Some (Some f) => Some f | _ => None end.

(** Both calls up to the call of the file's method.  [process] lives in them to
    their end, across the waits of the method. *)
Definition sys_write (fd buf len : Z) : M System (Z + io_call) :=
  token ← user_token;
  on_proc hold_process;;
  r ← this_process;
  match descriptor (snd r) fd with
  | None => mret (inl (-1))
  | Some file =>
      ok ← file_writable file;
      if negb ok then mret (inl (-1))
      else
        buffers ← on_proc (on_machine (translated_byte_buffer token buf len));
        mret (inr (WriteCall file buffers (UserBuffer_len (mkUserBuffer buffers)) 0))
  end.

Definition sys_read (fd buf len : Z) : M System (Z + io_call) :=
  on_proc hold_process;;
  r ← this_process;
  let '(pid, p) := r in
  match descriptor p fd with
  | None => mret (inl (-1))
  | Some file =>
      ok ← file_readable file;
      if negb ok then mret (inl (-1))
      else
        e ← on_proc (on_machine (MemorySet_ensure_private_range (pcb_memory_set p) (VirtAddr_from_usize buf) len));
        on_proc (put_pcb pid (set_memory (snd e) (pcb_task_res_allocator p) p));;
        if negb (fst e) then mret (inl (-1))
        else
          buffers ← on_proc (on_machine (translated_byte_buffer (MemorySet_token (snd e)) buf len));
          mret (inr (ReadCall file buffers (UserBuffer_len (mkUserBuffer buffers)) []))
  end.

(** A pipe's iteration has ended: the call returns, gives up the processor, or
    goes on. *)
Definition after_iteration (it : iteration) (call : io_call) : M System (Z + io_call) :=
  match it with
  | Return n => mret (inl n)
  | Yield => on_proc (on_kern suspend_current_and_run_next);; mret (inr call)
  | Again => mret (inr call)
  end.

(** One step of a call: all of it for an inode and for standard output, a round
    of the loop for a pipe and the terminal, and all but a wait for the device
    (during which nothing else runs) for a socket.  [is_utf8] is [core::str::from_utf8]
    accepting the bytes. *)
Definition io_step (is_utf8 : list Z -> bool) (call : io_call) : M System (Z + io_call) :=
  match call with
  | ReadCall FStdin buffers want _ =>
      o ← on_console (Tty_read (Z.to_nat want));
      match o with
      | Some bytes => on_proc (on_machine (store_from 0 bytes buffers));; mret (inl (Z.of_nat (length bytes)))
      | None => mret (inr call)
      end
  | ReadCall FStdout _ _ _ => fail Panic
  | ReadCall (FInode n) buffers _ _ =>
      o ← gets (fun s => sy_files s !! n); f ← unwrap o;
      data ← buffer_bytes buffers;
      r ← on_fs (OSInode_read f data);
      add_file n (fst r);;
      mfor (zip buffers (snd (snd r))) (fun x => on_proc (on_machine (write_slice (fst x) (snd x))));;
      mret (inl (fst (snd r)))
  | ReadCall (FPipe p) buffers want got =>
      r ← on_proc (on_pipes (Pipe_read p want got));
      let '(got', it) := r in
      on_proc (on_machine (store_from (Z.of_nat (length got)) (drop (length got) got') buffers));;
      after_iteration it (ReadCall (FPipe p) buffers want got')
  | ReadCall (FNet (PortFd _)) _ _ _ => mret (inl 0)
  | ReadCall (FNet (UDP f | TCP f)) buffers _ _ =>
      o ← on_net (socket_read f);
      match o with
      | Some data =>
          let '(pieces, n) := split_segment 0 data (map (fun sl => Z.to_nat (sl_len sl)) buffers) in
          mfor (zip buffers pieces) (fun x => on_proc (on_machine (write_slice (fst x) (snd x))));;
          mret (inl (Z.of_nat n))
      | None => mret (inr call)
      end
  | WriteCall FStdin _ _ _ => fail Panic
  | WriteCall FStdout buffers want _ =>
      data ← buffer_bytes buffers;
      mfor data (fun bytes =>
        massert (is_utf8 bytes);;
        on_console (modify (fun c => mkConsole (co_world c) (co_inner c) (co_condvar c) (co_sent c ++ bytes))));;
      mret (inl want)
  | WriteCall (FInode n) buffers _ _ =>
      o ← gets (fun s => sy_files s !! n); f ← unwrap o;
      data ← buffer_bytes buffers;
      r ← on_fs (OSInode_write fs f data);
      add_file n (fst r);;
      mret (inl (snd r))
  | WriteCall (FPipe p) buffers want already =>
      data ← buffer_bytes buffers;
      let todo := drop (Z.to_nat already) (concat data) in
      r ← on_proc (on_pipes (Pipe_write p want todo));
      let '(todo', it) := r in
      after_iteration it (WriteCall (FPipe p) buffers want (already + Z.of_nat (length todo - length todo')))
  | WriteCall (FNet (UDP f)) buffers _ _ => data ← buffer_bytes buffers; n ← on_net (UDP_write f (concat data)); mret (inl n)
  | WriteCall (FNet (TCP f)) buffers _ _ => data ← buffer_bytes buffers; n ← on_net (TCP_write f (concat data)); mret (inl n)
  | WriteCall (FNet (PortFd _)) _ _ _ => mret (inl 0)
  end.

(** *** Files of the network that are let go of

    The file of a socket or of a port goes with the last descriptor to it, in
    whatever table; what is done then touches nothing else, so that it can
    follow the call that let go. *)
Definition net_files (w : World T) : list NetFile :=
  omap (fun o => match o with Some (FNet f) => Some f | _ => None end)
    (concat (map (fun x => pcb_fd_table (snd x)) (map_to_list (w_procs w)))).
Definition with_net_drops {A : Type} (m : M System A) : M System A :=
  before ← on_proc (gets net_files);
  a ← m;
  kept ← on_proc (gets net_files);
  mfor (filter (fun f => f ∉ kept) (remove_dups before)) (fun f => on_net (in_net (NetFile_drop f)));;
  mret a.

Definition call_close (fd : Z) : M System Z := with_net_drops (on_proc (sys_close fd)).

(** *** Scheduling statistics *)

Record SchedStats := mkStats {
  ss_pid : Z; ss_base : Z; ss_effective : Z; ss_runtime : Z; ss_total_wait : Z; ss_scheduled : Z
}.

(** The loop of [sched_stats] over the threads of a process. *)
Definition add_stats (now : Z) (acc : SchedStats * bool) (t : Z) : M System (SchedStats * bool) :=
  let '(st, found_task) := acc in
  on_proc (on_kern (with_tasks (with_inner t (with_sched (SchedInfo_refresh_effective_priority now)))));;
  si ← on_proc (sched_info_of t);
  let waiting := if in_ready_queue si then saturating_sub now (ready_since si) else 0 in
  mret (mkStats (ss_pid st) (if found_task : bool then ss_base st else base_priority si)
    (Z.max (ss_effective st) (effective_priority si))
    (saturating_add (ss_runtime st) (runtime_ticks si))
    (saturating_add (ss_total_wait st) (saturating_add (total_wait_ticks si) waiting))
    (saturating_add (ss_scheduled st) (scheduled_count si)), true).

Definition sched_stats (pid : Z) : M System SchedStats :=
  now ← on_proc (gets (fun w => tk_now (kn_tasks (w_kernel w))));
  p ← on_proc (get_pcb pid);
  r ← mfold (add_stats now) (mkStats pid 0 0 0 0 0, false) (live_tasks p);
  mret (fst r).

Definition stats_bytes (st : SchedStats) : list Z :=
  le_bytes 8 (ss_pid st) ++ le_bytes 8 (ss_base st) ++ le_bytes 8 (ss_effective st) ++ le_bytes 8 (ss_runtime st)
  ++ le_bytes 8 (ss_total_wait st) ++ le_bytes 8 (ss_scheduled st).

Definition write_sched_stats_to_user (stats_ptr : Z) (st : SchedStats) : M System bool :=
  token ← user_token;
  ok ← on_proc (on_machine (fun m => match user_range_writable m token stats_ptr 48 with Ok b => Ok (b, m) | Err e => Err e end));
  if negb ok then mret false
  else
    buffers ← on_proc (on_machine (translated_byte_buffer token stats_ptr 48));
    on_proc (on_machine (copy_out (stats_bytes st) 48 0 buffers));;
    mret true.

Definition sys_get_sched_stats (pid stats_ptr : Z) : M System Z :=
  o ← on_proc (resolve_process pid);
  match o with
  | None => mret (-1)
  | Some process =>
      st ← sched_stats process;
      ok ← write_sched_stats_to_user stats_ptr st;
      mret (if ok : bool then 0 else -2)
  end.

(** *** Memory and identity *)

Definition sys_mmap (start len prot : Z) : M System Z :=
  r ← this_process;
  let '(pid, p) := r in
  e ← on_proc (on_machine (MemorySet_mmap (pcb_memory_set p) start len prot));
  on_proc (put_pcb pid (set_memory (snd e) (pcb_task_res_allocator p) p));;
  mret (match fst e with Some address => as_isize address | None => -1 end).
Definition sys_munmap (start len : Z) : M System Z :=
  r ← this_process;
  let '(pid, p) := r in
  e ← on_proc (on_machine (MemorySet_munmap (pcb_memory_set p) start len));
  on_proc (put_pcb pid (set_memory (snd e) (pcb_task_res_allocator p) p));;
  mret (if fst e : bool then 0 else -1).

Definition sys_getpid : M System Z := r ← this_process; mret (fst r).
Definition sys_getpgrp : M System Z := r ← this_process; mret (pcb_pgid (snd r)).
Definition sys_yield : M System Z := on_proc (on_kern suspend_current_and_run_next);; mret 0.
Definition sys_exit (exit_code : Z) : M System exit_result := with_net_drops (on_proc (exit_current_and_run_next INITPROC exit_code)).

Definition sys_tcsetpgrp (pgrp : Z) : M System Z :=
  if pgrp =? 0 then mret (-1)
  else
    o ← on_proc (pid2process pgrp);
    match o with
    | None => mret (-1)
    | Some _ => on_console (Tty_set_fg_pgrp pgrp);; mret 0
    end.
Definition sys_tcgetpgrp : M System Z := on_console Tty_get_fg_pgrp.
End Calls.
