(* ===== verification/SyscallProps.v ===== *)
(** * System calls across components: properties

    The check of a user range is the check of each page it touches, and the
    search for a program takes the first directory of [PATH] that has it. *)

From S2P Require Import Prelude Address FrameAllocator PageTable MemorySet Ids BlockCache Bitmap Layout Tree FileData Codec Efs Vfs VfsProps Directory Process Files FileTree PathProps WorkingDirectory Syscalls.

(** ** User ranges *)

(** The page [vpn] has a valid, writable entry. *)
Definition page_writable (m : Machine) (pt : PageTable) (vpn : Z) : bool :=
  match PageTable_translate m pt vpn with
  | Some pte => PageTableEntry_is_valid pte && PageTableEntry_writable pte
  | None => false
  end.

(** The pages from that of [a] to that of [e]. *)
Definition pages (a e : Z) : list Z := seqZ (a / PAGE_SIZE) (e / PAGE_SIZE - a / PAGE_SIZE + 1).

Lemma ldiff_page a : Z.ldiff a 0xfff = PAGE_SIZE * (a / PAGE_SIZE).
Proof.
  change PAGE_SIZE with (2 ^ 12). change 0xfff with (Z.ones 12). rewrite Z.ldiff_ones_r by done.
  rewrite Z.shiftr_div_pow2, Z.shiftl_mul_pow2 by done. lia.
Qed.

Lemma range_loop_pages fuel m pt a e : 0 <= a <= e -> e < 2 ^ 38 -> e / PAGE_SIZE - a / PAGE_SIZE < Z.of_nat fuel ->
  range_loop fuel m pt a e = Ok (forallb (page_writable m pt) (pages a e)).
Proof.
  revert a. induction fuel as [|fuel IH]; intros a Ha He Hf; [assert (a / PAGE_SIZE <= e / PAGE_SIZE) by (apply Z.div_le_mono; [done|lia]); lia|].
  assert (VirtAddr_floor (VirtAddr_from_usize a) = a / PAGE_SIZE) as Ev.
  { unfold VirtAddr_floor. by rewrite VirtAddr_from_usize_mod, Z.mod_small by lia. }
  assert (a / PAGE_SIZE <= e / PAGE_SIZE) as Hpage by (apply Z.div_le_mono; [done|lia]).
  cbn [range_loop]. rewrite Ev. unfold pages. rewrite seqZ_cons by lia. cbn [forallb]. unfold page_writable at 1.
  destruct (PageTable_translate m pt (a / PAGE_SIZE)) as [pte|]; [|done].
  destruct (PageTableEntry_is_valid pte); [|done]. destruct (PageTableEntry_writable pte); [|done]. cbn [negb orb andb].
  assert (forall n, n <= 0 -> forallb (page_writable m pt) (seqZ (Z.succ (a / PAGE_SIZE)) n) = true) as Hnil by (intros n Hn; by rewrite seqZ_nil by lia).
  destruct (Z.leb_spec e a) as [Hle|Hlt]; [assert (e = a) as -> by lia; by rewrite Hnil by lia|].
  rewrite ldiff_page. unfold saturating_add. change 0x1000 with PAGE_SIZE.
  pose proof (Z.mul_div_le a PAGE_SIZE ltac:(done)) as H1. pose proof (Z.mul_succ_div_gt a PAGE_SIZE ltac:(done)) as H2.
  assert (PAGE_SIZE = 4096) as HP by done. unfold usize_max. rewrite Z.min_l by lia.
  set (next := PAGE_SIZE * (a / PAGE_SIZE) + PAGE_SIZE) in *. assert (next / PAGE_SIZE = Z.succ (a / PAGE_SIZE)) as En.
  { unfold next. replace (PAGE_SIZE * (a / PAGE_SIZE) + PAGE_SIZE) with (Z.succ (a / PAGE_SIZE) * PAGE_SIZE) by lia. by apply Z.div_mul. }
  rewrite (proj2 (Z.eqb_neq next 0)) by (pose proof (Z.div_pos a PAGE_SIZE); lia). cbn [orb].
  destruct (Z.ltb_spec e next) as [Hin|Hout].
  - rewrite Hnil; [done|]. assert (e / PAGE_SIZE <= a / PAGE_SIZE); [|lia].
    assert (e / PAGE_SIZE < Z.succ (a / PAGE_SIZE)) by (apply Z.div_lt_upper_bound; [done|unfold next in Hin; lia]). lia.
  - assert (0 <= a / PAGE_SIZE) by (apply Z.div_pos; lia). rewrite IH by (rewrite ?En; unfold next in *; lia). unfold pages. rewrite En.
    do 3 f_equal. lia.
Qed.

(** The check of a user range is the check of its pages.  For every start
    and length, [user_range_writable] returns, and it says yes exactly when the
    range is not empty, does not start at 0, lies below the limit of user
    addresses (whatever the wrap-around of start plus length) and every page it
    touches, the first and the last one included, has a valid and writable
    entry. *)
Theorem user_range_writable_exact m token start len : is_usize start -> is_usize len ->
  user_range_writable m token start len =
  Ok (negb (start =? 0) && negb (len =? 0) && (start + len <=? USER_VA_LIMIT) &&
      forallb (page_writable m (PageTable_from_token token)) (pages start (start + len - 1))).
Proof.
  intros Hs Hl. unfold is_usize in *. unfold user_range_writable. assert (USER_VA_LIMIT = 2 ^ 38) as -> by reflexivity.
  destruct (Z.eqb_spec start 0) as [->|Hs0]; [done|]. destruct (Z.eqb_spec len 0) as [->|Hl0]; [by rewrite andb_false_r|]. cbn [orb negb andb].
  destruct (Z.leb_spec (2 ^ 38) start) as [Hbig|Hsmall]; [by rewrite (proj2 (Z.leb_gt _ _)) by lia|].
  unfold checked_add. destruct (Z.ltb_spec (start + (len - 1)) (2 ^ 64)); [|by rewrite (proj2 (Z.leb_gt _ _)) by lia].
  destruct (Z.leb_spec (2 ^ 38) (start + (len - 1))); [by rewrite (proj2 (Z.leb_gt _ _)) by lia|].
  rewrite (proj2 (Z.leb_le _ _)) by lia. cbn [andb]. replace (start + len - 1) with (start + (len - 1)) by lia.
  apply range_loop_pages; [lia|lia|]. unfold range_fuel. assert (PAGE_SIZE = 4096) as -> by done. zdiv_lia.
Qed.

(** Page 5 is mapped writable and page 6 read-only: a range that ends with page
    5 is accepted, one byte more is not. *)
Definition mapped_pages : res (PageTable * Machine) :=
  (pt0 ← PageTable_new; pt_runs [OpMap 5 7 (Z.lor PTE_W (Z.lor PTE_R PTE_U)); OpMap 6 9 (Z.lor PTE_R PTE_U)] pt0) demo_pool.

Lemma user_range_writable_exact_witness : exists pt m, mapped_pages = Ok (pt, m) /\
  user_range_writable m (PageTable_token pt) (5 * 4096 + 96) 4000 = Ok true /\
  user_range_writable m (PageTable_token pt) (5 * 4096 + 96) 4001 = Ok false.
Proof.
  destruct mapped_pages as [[pt m]|] eqn:E; [|by vm_compute in E]. exists pt, m. split; [reflexivity|].
  rewrite !user_range_writable_exact by (unfold is_usize; lia).
  vm_compute in E. injection E as <- <-. split; vm_compute; reflexivity.
Defined.

(** ** Finding a program *)

(** What a directory of [PATH] has under the name [path]. *)
Definition program_in (ft : gmap Z node) (cwd : Z) (path dir : bytes) : option Z :=
  if is_nil dir then None else tree_lookup ft (if starts_with_slash dir then 0 else cwd) (dir ++ [SLASH] ++ path).

Definition program (ft : gmap Z node) (cwd : Z) (path_variable path : bytes) : option Z :=
  if existsb (Z.eqb SLASH) path then tree_lookup ft (if starts_with_slash path then 0 else cwd) path
  else head (omap (program_in ft cwd path) (split_colon [] path_variable)).

Section Search.
Context (efs : EasyFileSystem) (ft : gmap Z node) (s : Store) (Htv : tree_view efs ft s).

(** A program opened for reading, from its start. *)
Definition opened (j : Z) : OSInode := mkOSInode true false 0 (inode_handle efs j).

Lemma reads_open id q es path : ft !! id = Some (NDir q es) ->
  reads (open_file_at efs (inode_handle efs id) path RDONLY) (opened <$> tree_lookup ft id path) s.
Proof using Htv.
  intros Hid. unfold open_file_at. cbn [OpenFlags_read_write]. change (OpenFlags_read_write RDONLY) with (true, false).
  change (flags_contains RDONLY CREATE) with false. change (flags_contains RDONLY TRUNC) with false. change (flags_contains RDONLY APPEND) with false.
  eapply reads_bind; [by eapply reads_lookup|]. by destruct (tree_lookup ft id path).
Qed.

Lemma reads_root_open p cwd q es from path : pcb_working_directory p = inode_handle efs cwd -> ft !! cwd = Some (NDir q es) ->
  reads (open_file_at efs (resolve_root efs p from) path RDONLY)
    (opened <$> tree_lookup ft (if starts_with_slash from then 0 else cwd) path) s.
Proof using Htv.
  intros Hp Hcwd. unfold resolve_root. rewrite Hp. destruct (tv_root _ _ _ Htv) as [es0 Hr].
  destruct (starts_with_slash from); by eapply reads_open.
Qed.

Lemma reads_search p cwd q es path dirs : pcb_working_directory p = inode_handle efs cwd -> ft !! cwd = Some (NDir q es) ->
  reads (search_path efs p path dirs) (opened <$> head (omap (program_in ft cwd path) dirs)) s.
Proof using Htv.
  intros Hp Hcwd. induction dirs as [|dir dirs IH]; [done|]. cbn [search_path omap list_omap]. unfold program_in at 1.
  destruct (is_nil dir); [exact IH|]. eapply reads_bind; [by eapply reads_root_open|].
  destruct (tree_lookup ft _ _); [done|exact IH].
Qed.
End Search.

(** [sys_exec] finds the program the search path says.  In a store whose
    inodes form the tree [ft], for a process whose working directory is a
    directory of the tree, the search never panics and changes nothing.  A path
    with a slash is resolved like any other; a bare name is looked up in the
    directories of [PATH] in their order, relative ones from the working
    directory and empty ones skipped, and the first that has it wins.  The file
    is opened for reading at its start. *)
Theorem exec_searches_path efs ft s p cwd q es path :
  tree_view efs ft s -> pcb_working_directory p = inode_handle efs cwd -> ft !! cwd = Some (NDir q es) ->
  run (find_program efs p path) s =
  Ok ((fun j => mkOSInode true false 0 (inode_handle efs j)) <$> program ft cwd (pcb_path_variable p) path, s).
Proof.
  intros Htv Hp Hcwd. unfold find_program, program.
  destruct (existsb _ path); [by eapply reads_root_open|by eapply reads_search].
Qed.

(** From [/a], the name [b] with the path [/x::/a/]. *)
Lemma exec_searches_path_witness :
  run (find_program tree_efs (set_path_variable [47; 120; 58; 58; 47; 97; 47] tree_process) [98]) tree_store =
  Ok (Some (mkOSInode true false 0 (inode_handle tree_efs 2)), tree_store).
Proof.
  exact (exec_searches_path tree_efs tree_nodes tree_store (set_path_variable [47; 120; 58; 58; 47; 97; 47] tree_process) 1 0 [([98], 2)] [98]
    tree_tree_view eq_refl eq_refl).
Defined.
