(* ===== verification/Devices.v ===== *)
(** * Device drivers (os/src/drivers, os/src/boards/qemu.rs)

    The interrupt controller, the serial port, the input devices and the
    requests of the block device.  Registers are words by their address; what a
    device puts in them (the bytes that have arrived, the source of an
    interrupt, the tokens of finished requests) is an argument. *)

From S2P Require Import Prelude PageTable Scheduler Processor Sync.
From stdpp Require Import gmap.
Open Scope Z_scope.

(** ** The interrupt controller (plic.rs) *)

Module Plic.

Inductive IntrTargetPriority := Machine | Supervisor.
Definition IntrTargetPriority_as_usize (p : IntrTargetPriority) : Z := match p with Machine => 0 | Supervisor => 1 end.
Definition supported_number : Z := 2.

(** The registers, 32 bits each. *)
Abbreviation Registers := (gmap Z Z).
Definition read_volatile (a : Z) : M Registers Z := gets (fun r => default 0 (r !! a)).
Definition write_volatile (a v : Z) : M Registers unit := modify (fun r => <[a := v]> r).

Section Plic.
Variable base_addr : Z.

Definition priority_ptr (intr_source_id : Z) : M Registers Z :=
  massert ((0 <? intr_source_id) && (intr_source_id <=? 132));;
  mret (usize_wrap (base_addr + intr_source_id * 4)).
Definition hart_id_with_priority (hart_id : Z) (p : IntrTargetPriority) : Z :=
  usize_wrap (hart_id * supported_number + IntrTargetPriority_as_usize p).
Definition enable_ptr (hart_id : Z) (p : IntrTargetPriority) (intr_source_id : Z) : Z * Z :=
  let id := hart_id_with_priority hart_id p in
  (usize_wrap (base_addr + 0x2000 + 0x80 * id + 0x4 * (intr_source_id / 32)), intr_source_id mod 32).
Definition threshold_ptr (hart_id : Z) (p : IntrTargetPriority) : Z :=
  usize_wrap (base_addr + 0x200000 + 0x1000 * hart_id_with_priority hart_id p).
Definition claim_comp_ptr (hart_id : Z) (p : IntrTargetPriority) : Z :=
  usize_wrap (base_addr + 0x200004 + 0x1000 * hart_id_with_priority hart_id p).

Definition set_priority (intr_source_id priority : Z) : M Registers unit :=
  massert (priority <? 8);;
  a ← priority_ptr intr_source_id; write_volatile a priority.
Definition get_priority (intr_source_id : Z) : M Registers Z :=
  a ← priority_ptr intr_source_id; v ← read_volatile a; mret (Z.land v 7).
Definition enable (hart_id : Z) (p : IntrTargetPriority) (intr_source_id : Z) : M Registers unit :=
  let '(reg, shift) := enable_ptr hart_id p intr_source_id in
  v ← read_volatile reg;
  write_volatile reg (Z.lor v (u32_wrap (Z.shiftl 1 shift))).
Definition disable (hart_id : Z) (p : IntrTargetPriority) (intr_source_id : Z) : M Registers unit :=
  let '(reg, shift) := enable_ptr hart_id p intr_source_id in
  v ← read_volatile reg;
  write_volatile reg (Z.land v (u32_max - u32_wrap (Z.shiftl 1 shift))).
Definition set_threshold (hart_id : Z) (p : IntrTargetPriority) (threshold : Z) : M Registers unit :=
  massert (threshold <? 8);;
  write_volatile (threshold_ptr hart_id p) threshold.
Definition get_threshold (hart_id : Z) (p : IntrTargetPriority) : M Registers Z :=
  v ← read_volatile (threshold_ptr hart_id p); mret (Z.land v 7).
Definition complete (hart_id : Z) (p : IntrTargetPriority) (completion : Z) : M Registers unit :=
  write_volatile (claim_comp_ptr hart_id p) completion.

(** [device_init] of the board: keyboard, mouse, block device, serial port. *)
Definition irq_sources : list Z := [5; 6; 8; 10].
Definition device_init : M Registers unit :=
  set_threshold 0 Supervisor 0;;
  set_threshold 0 Machine 1;;
  mfor irq_sources (fun intr_src_id => enable 0 Supervisor intr_src_id;; set_priority intr_src_id 1).
End Plic.

End Plic.

(** ** Drivers that wake tasks *)

Section Drivers.
Context {T : Type} `{Scheduler T}.

(** A device with the kernel. *)
Definition on_kernel {D A : Type} (f : M (Kernel T) A) : M (Kernel T * D) A := fun s =>
  match f (fst s) with Ok (a, k) => Ok (a, (k, snd s)) | Err e => Err e end.
Definition on_device {D A : Type} (f : M D A) : M (Kernel T * D) A := fun s =>
  match f (snd s) with Ok (a, d) => Ok (a, (fst s, d)) | Err e => Err e end.

(** *** The serial port (chardev/ns16550a.rs) *)

Definition MAX_READ_BUFFER : nat := 4096.
Definition IER_RX_AVAILABLE : Z := Z.shiftl 1 0.
Definition LSR_DATA_AVAILABLE : Z := Z.shiftl 1 0.
Definition LSR_THR_EMPTY : Z := Z.shiftl 1 5.
Definition MCR_DATA_TERMINAL_READY : Z := Z.shiftl 1 0.
Definition MCR_REQUEST_TO_SEND : Z := Z.shiftl 1 1.
Definition MCR_AUX_OUTPUT2 : Z := Z.shiftl 1 3.

(** The bytes that have arrived, the registers, the bytes sent; and the buffer
    of the driver with its condition variable. *)
Record NS16550a := mkUart {
  ua_rbr : list Z; ua_ier : Z; ua_mcr : Z; ua_thr : list Z; ua_read_buffer : list Z; ua_condvar : CondvarInner
}.

(** The line status: the transmitter is always ready. *)
Definition NS16550a_lsr (u : NS16550a) : Z :=
  Z.lor LSR_THR_EMPTY (match ua_rbr u with [] => 0 | _ => LSR_DATA_AVAILABLE end).

Definition NS16550aRaw_init : M NS16550a unit :=
  let mcr := Z.lor (Z.lor MCR_DATA_TERMINAL_READY MCR_REQUEST_TO_SEND) MCR_AUX_OUTPUT2 in
  modify (fun u => mkUart (ua_rbr u) (ua_ier u) mcr (ua_thr u) (ua_read_buffer u) (ua_condvar u));;
  modify (fun u => mkUart (ua_rbr u) IER_RX_AVAILABLE (ua_mcr u) (ua_thr u) (ua_read_buffer u) (ua_condvar u)).

Definition NS16550aRaw_read : M NS16550a (option Z) :=
  u ← get;
  if flags_contains (NS16550a_lsr u) LSR_DATA_AVAILABLE then
    match ua_rbr u with
    | ch :: rbr => put (mkUart rbr (ua_ier u) (ua_mcr u) (ua_thr u) (ua_read_buffer u) (ua_condvar u));; mret (Some ch)
    | [] => mret None
    end
  else mret None.

Definition NS16550aRaw_write (ch : Z) : M NS16550a unit :=
  modify (fun u => mkUart (ua_rbr u) (ua_ier u) (ua_mcr u) (ua_thr u ++ [ch]) (ua_read_buffer u) (ua_condvar u)).

Definition set_read_buffer (b : list Z) (u : NS16550a) : NS16550a :=
  mkUart (ua_rbr u) (ua_ier u) (ua_mcr u) (ua_thr u) b (ua_condvar u).

Definition read_buffer_is_empty : M NS16550a bool := gets (fun u => bool_decide (ua_read_buffer u = [])).
Definition try_read : M NS16550a (option Z) :=
  u ← get;
  match ua_read_buffer u with
  | ch :: b => put (set_read_buffer b u);; mret (Some ch)
  | [] => mret None
  end.

(** The [while let] of [handle_irq]: how many bytes were read. *)
Definition uart_no_fuel : M NS16550a Z := fun _ => Err NoFuel.
Fixpoint uart_loop (fuel : nat) (count : Z) : M NS16550a Z :=
  NS16550aRaw_read ≫= fun o =>
  match o with
  | Some ch =>
      match fuel with
      | O => uart_no_fuel
      | S fuel =>
          modify (fun u => if (length (ua_read_buffer u) <? MAX_READ_BUFFER)%nat then set_read_buffer (ua_read_buffer u ++ [ch]) u else u);;
          uart_loop fuel (count + 1)
      end
  | None => mret count
  end.

Definition UART_handle_irq : M (Kernel T * NS16550a) unit :=
  count ← on_device (u ← get; uart_loop (length (ua_rbr u)) 0);
  if 0 <? count then
    cv ← on_device (gets ua_condvar);
    cv' ← on_kernel (Condvar_signal cv);
    on_device (modify (fun u => mkUart (ua_rbr u) (ua_ier u) (ua_mcr u) (ua_thr u) (ua_read_buffer u) cv'))
  else mret tt.

(** *** Keyboard and mouse (input/mod.rs) *)

Record VirtIOInputWrapper := mkInput { vi_events : list Z; vi_condvar : CondvarInner }.
Record PendingEvent := mkEvent { ev_type : Z; ev_code : Z; ev_value : Z }.

Definition encode_event (e : PendingEvent) : Z :=
  Z.lor (Z.lor (Z.shiftl (ev_type e) 48) (Z.shiftl (ev_code e) 32)) (ev_value e).

Definition Input_is_empty : M VirtIOInputWrapper bool := gets (fun d => bool_decide (vi_events d = [])).

(** [read_event] up to the switch when there is none: it starts again when it
    is woken. *)
Definition Input_read_event : M (Kernel T * VirtIOInputWrapper) (option Z) :=
  d ← on_device get;
  match vi_events d with
  | event :: rest => on_device (put (mkInput rest (vi_condvar d)));; mret (Some event)
  | [] =>
      cv ← on_kernel (Condvar_wait_no_sched (vi_condvar d));
      on_device (put (mkInput (vi_events d) cv));;
      mret None
  end.

(** The loop over the events the device has. *)
Definition Input_handle_irq (pending : list PendingEvent) : M (Kernel T * VirtIOInputWrapper) unit :=
  count ← on_device (mfold (fun count e =>
    modify (fun d => mkInput (vi_events d ++ [encode_event e]) (vi_condvar d));; mret (count + 1)) 0 pending);
  if 0 <? count then
    cv ← on_device (gets vi_condvar);
    cv' ← on_kernel (Condvar_signal cv);
    on_device (modify (fun d => mkInput (vi_events d) cv'))
  else mret tt.

(** *** Requests of the block device (block/virtio_blk.rs) *)

(** [VirtIOBlock::new]: a condition variable for each token of the queue. *)
Definition VirtIOBlock_new (channels : nat) : gmap Z CondvarInner :=
  list_to_map (map (fun i => (Z.of_nat i, Condvar_new)) (seq 0 channels)).

(** A request that was given [token], up to the switch to another task. *)
Definition VirtIOBlock_wait (token : Z) : M (Kernel T * gmap Z CondvarInner) unit :=
  m ← on_device get;
  cv ← unwrap (m !! token);
  cv' ← on_kernel (Condvar_wait_no_sched cv);
  on_device (put (<[token := cv']> m)).

(** The loop of [handle_irq] over the tokens of the finished requests. *)
Definition VirtIOBlock_handle_irq (used : list Z) : M (Kernel T * gmap Z CondvarInner) unit :=
  mfor used (fun token =>
    m ← on_device get;
    cv ← unwrap (m !! token);
    cv' ← on_kernel (Condvar_signal cv);
    on_device (put (<[token := cv']> m))).

End Drivers.

(** ** The registers of the interrupt controller *)

Section PlicProps.
Import Plic.
Variable base_addr : Z.

(** The registers of the source: a priority for each source, 32 enable bits of
    a target, its threshold and its claim register. *)
Inductive register :=
  | RPriority (intr_source_id : Z)
  | REnable (id group : Z)
  | RThreshold (id : Z)
  | RClaim (id : Z).

#[export] Instance register_eq_dec : EqDecision register.
Proof. solve_decision. Defined.

Definition address (r : register) : Z :=
  match r with
  | RPriority i => base_addr + i * 4
  | REnable id g => base_addr + 0x2000 + 0x80 * id + 0x4 * g
  | RThreshold id => base_addr + 0x200000 + 0x1000 * id
  | RClaim id => base_addr + 0x200004 + 0x1000 * id
  end.

(** 1024 sources and 15872 targets, the most the layout has room for. *)
Definition valid (r : register) : Prop :=
  match r with
  | RPriority i => 0 < i < 1024
  | REnable id g => 0 <= id < 15872 /\ 0 <= g < 32
  | RThreshold id | RClaim id => 0 <= id < 15872
  end.

Lemma address_inj r r' : valid r -> valid r' -> address r = address r' -> r = r'.
Proof. destruct r, r'; cbn; intros; try (f_equal; lia); lia. Qed.

Definition target (hart_id : Z) (p : IntrTargetPriority) : Z := hart_id * 2 + IntrTargetPriority_as_usize p.
Definition hart_ok (hart_id : Z) : Prop := 0 <= hart_id < 7936.
Definition source_ok (i : Z) : Prop := 0 < i <= 132.
Definition base_ok : Prop := 0 <= base_addr < 2 ^ 63.

Lemma target_range h p : hart_ok h -> 0 <= target h p < 15872.
Proof. unfold hart_ok, target. destruct p; cbn; lia. Qed.

Lemma target_inj h p h' p' : target h p = target h' p' -> h = h' /\ p = p'.
Proof. unfold target. destruct p, p'; cbn; intros; split; try done; lia. Qed.

Context (Hbase : base_ok).

Lemma hart_id_target h p : hart_ok h -> hart_id_with_priority h p = target h p.
Proof using. intros Hh. pose proof (target_range h p Hh). unfold hart_id_with_priority, usize_wrap, supported_number, target in *. rewrite Z.mod_small; lia. Qed.

Lemma address_small r : valid r -> usize_wrap (address r) = address r.
Proof using Hbase. unfold base_ok in Hbase. intros Hv. unfold usize_wrap. rewrite Z.mod_small; [done|]. destruct r; cbn in *; lia. Qed.

Lemma enable_ptr_eq h p i : hart_ok h -> source_ok i -> enable_ptr base_addr h p i = (address (REnable (target h p) (i / 32)), i mod 32).
Proof using Hbase.
  intros Hh Hi. unfold enable_ptr. rewrite hart_id_target by done. rewrite <- (address_small (REnable _ _)); [done|].
  split; [by apply target_range|]. unfold source_ok in Hi. zdiv_lia.
Qed.
Lemma threshold_ptr_eq h p : hart_ok h -> threshold_ptr base_addr h p = address (RThreshold (target h p)).
Proof using Hbase. intros Hh. unfold threshold_ptr. rewrite hart_id_target by done. rewrite <- (address_small (RThreshold _)); [done|]. by apply target_range. Qed.
Lemma claim_ptr_eq h p : hart_ok h -> claim_comp_ptr base_addr h p = address (RClaim (target h p)).
Proof using Hbase. intros Hh. unfold claim_comp_ptr. rewrite hart_id_target by done. rewrite <- (address_small (RClaim _)); [done|]. by apply target_range. Qed.

(** The controller as its users see it. *)
Record PlicView := mkView { pv_enabled : Z -> IntrTargetPriority -> Z -> bool; pv_priority : Z -> Z; pv_threshold : Z -> IntrTargetPriority -> Z }.
Definition word (r : Registers) (reg : register) : Z := default 0 (r !! address reg).
Definition plic_view (r : Registers) : PlicView := mkView
  (fun h p i => Z.testbit (word r (REnable (target h p) (i / 32))) (i mod 32))
  (fun i => word r (RPriority i))
  (fun h p => word r (RThreshold (target h p))).

Definition view_eq (v v' : PlicView) : Prop :=
  (forall h p i, hart_ok h -> source_ok i -> pv_enabled v h p i = pv_enabled v' h p i) /\
  (forall i, source_ok i -> pv_priority v i = pv_priority v' i) /\
  (forall h p, hart_ok h -> pv_threshold v h p = pv_threshold v' h p).

#[export] Instance IntrTargetPriority_eq_dec : EqDecision IntrTargetPriority.
Proof. solve_decision. Defined.

Lemma word_insert r reg reg' v : valid reg -> valid reg' -> word (<[address reg := v]> r) reg' = if decide (reg' = reg) then v else word r reg'.
Proof using.
  intros H1 H2. unfold word. case_decide as E; [subst; by rewrite lookup_insert_eq|]. rewrite lookup_insert_ne; [done|].
  intros Ea. apply E. symmetry. by apply address_inj.
Qed.

Lemma source_group i : source_ok i -> 0 <= i / 32 < 32 /\ 0 <= i mod 32 < 32.
Proof using. unfold source_ok. intros. zdiv_lia. Qed.

Lemma source_eq i i' : i / 32 = i' / 32 -> i mod 32 = i' mod 32 -> i = i'.
Proof using. intros. zdiv_lia. Qed.

Lemma set_enable_bit v s k : 0 <= s < 32 -> 0 <= k < 32 -> Z.testbit (Z.lor v (u32_wrap (Z.shiftl 1 s))) k = Z.testbit v k || (k =? s).
Proof using.
  intros Hs Hk. rewrite Z.lor_spec. f_equal. unfold u32_wrap. rewrite Z.shiftl_1_l, Z.mod_pow2_bits_low by lia.
  rewrite Z.pow2_bits_eqb by lia. apply Z.eqb_sym.
Qed.

Lemma clear_enable_bit v s k : 0 <= s < 32 -> 0 <= k < 32 -> Z.testbit (Z.land v (u32_max - u32_wrap (Z.shiftl 1 s))) k = Z.testbit v k && negb (k =? s).
Proof using.
  intros Hs Hk. rewrite Z.land_spec. f_equal.
  assert (Forall (fun s => Forall (fun k => Z.testbit (u32_max - u32_wrap (Z.shiftl 1 s)) k = negb (k =? s)) (seqZ 0 32)) (seqZ 0 32)) as Ht.
  { apply (bool_decide_eq_true_1 _). vm_compute. reflexivity. }
  rewrite Forall_forall in Ht. specialize (Ht s ltac:(apply elem_of_seqZ; lia)). rewrite Forall_forall in Ht. apply Ht, elem_of_seqZ. lia.
Qed.

Lemma enabled_insert r h p i h' p' i' v : hart_ok h -> source_ok i -> hart_ok h' -> source_ok i' ->
  word (<[address (REnable (target h p) (i / 32)) := v]> r) (REnable (target h' p') (i' / 32)) =
  if decide (h' = h /\ p' = p /\ i' / 32 = i / 32) then v else word r (REnable (target h' p') (i' / 32)).
Proof using.
  intros Hh Hi Hh' Hi'. pose proof (source_group i Hi). pose proof (source_group i' Hi'). pose proof (target_range h p Hh). pose proof (target_range h' p' Hh').
  rewrite word_insert by (cbn; lia). destruct (decide (REnable _ _ = _)) as [E|E]; destruct (decide (_ /\ _)) as [E'|E']; try done.
  - injection E as Et Eg. apply target_inj in Et as [-> ->]. by destruct E'.
  - exfalso. apply E. by destruct E' as (-> & -> & ->).
Qed.

(** Turning one source of one target on or off. *)
Definition with_enabled (on : bool) (h : Z) (p : IntrTargetPriority) (i : Z) (v : PlicView) : PlicView :=
  mkView (fun h' p' i' => if decide (h' = h /\ p' = p /\ i' = i) then on else pv_enabled v h' p' i') (pv_priority v) (pv_threshold v).
Definition with_priority (i x : Z) (v : PlicView) : PlicView :=
  mkView (pv_enabled v) (fun i' => if decide (i' = i) then x else pv_priority v i') (pv_threshold v).
Definition with_threshold (h : Z) (p : IntrTargetPriority) (x : Z) (v : PlicView) : PlicView :=
  mkView (pv_enabled v) (pv_priority v) (fun h' p' => if decide (h' = h /\ p' = p) then x else pv_threshold v h' p').

(** A write of an enable register that decides one bit. *)
Lemma enable_write on h p i w r : hart_ok h -> source_ok i ->
  (forall k, 0 <= k < 32 -> Z.testbit w k = if k =? i mod 32 then on else Z.testbit (word r (REnable (target h p) (i / 32))) k) ->
  view_eq (plic_view (<[address (REnable (target h p) (i / 32)) := w]> r)) (with_enabled on h p i (plic_view r)).
Proof using.
  intros Hh Hi Hw. pose proof (source_group i Hi). pose proof (target_range h p Hh).
  split; [|split]; cbn [pv_enabled pv_priority pv_threshold plic_view with_enabled].
  - intros h' p' i' Hh' Hi'. pose proof (source_group i' Hi'). rewrite enabled_insert by done.
    destruct (decide (h' = h /\ p' = p /\ i' / 32 = i / 32)) as [(-> & -> & Eg)|Hne].
    + rewrite Hw by lia. destruct (Z.eqb_spec (i' mod 32) (i mod 32)) as [Em|Em].
      * rewrite decide_True; [done|]. split_and!; try done. by apply source_eq.
      * rewrite decide_False by (intros (_ & _ & ->); done). by rewrite Eg.
    + rewrite decide_False; [done|]. intros (-> & -> & ->). by destruct Hne.
  - intros i' Hi'. rewrite word_insert by (unfold source_ok in *; cbn; lia). by rewrite decide_False by done.
  - intros h' p' Hh'. pose proof (target_range h' p' Hh'). rewrite word_insert by (cbn; lia). by rewrite decide_False by done.
Qed.

End PlicProps.

(** The registers of the interrupt controller do not overlap.  For every
    base address, hart and source the driver accepts, [enable] and [disable]
    decide exactly the bit of their source and target, [set_priority] and
    [set_threshold] exactly the word of theirs: nothing else that can be enabled
    or set changes, in particular not the other sources in the same register.
    A priority or a threshold above 7 is a panic. *)
Theorem plic_ops_exact base (Hbase : base_ok base) h p i x r (Hh : hart_ok h) (Hi : source_ok i) :
  wp (Plic.enable base h p i) (fun _ r' => view_eq (plic_view base r') (with_enabled true h p i (plic_view base r))) r /\
  wp (Plic.disable base h p i) (fun _ r' => view_eq (plic_view base r') (with_enabled false h p i (plic_view base r))) r /\
  (if x <? 8 then
     wp (Plic.set_priority base i x) (fun _ r' => view_eq (plic_view base r') (with_priority i x (plic_view base r))) r /\
     wp (Plic.set_threshold base h p x) (fun _ r' => view_eq (plic_view base r') (with_threshold h p x (plic_view base r))) r
   else Plic.set_priority base i x r = Err Panic /\ Plic.set_threshold base h p x r = Err Panic).
Proof.
  pose proof (source_group i Hi) as [Hg Hs]. pose proof (target_range h p Hh) as Ht. split; [|split].
  - unfold Plic.enable. rewrite enable_ptr_eq by done. apply wp_bind, wp_gets, wp_modify. apply enable_write; [done|done|].
    intros k Hk. rewrite set_enable_bit by done. destruct (k =? i mod 32); [by rewrite orb_true_r|by rewrite orb_false_r].
  - unfold Plic.disable. rewrite enable_ptr_eq by done. apply wp_bind, wp_gets, wp_modify. apply enable_write; [done|done|].
    intros k Hk. rewrite clear_enable_bit by done. destruct (k =? i mod 32); [by rewrite andb_false_r|by rewrite andb_true_r].
  - unfold Plic.set_priority, Plic.set_threshold, Plic.priority_ptr. destruct (x <? 8) eqn:Ex; [|done].
    assert ((0 <? i) && (i <=? 132) = true) as Hr by (unfold source_ok in Hi; apply andb_true_iff; split; [apply Z.ltb_lt|apply Z.leb_le]; lia).
    assert (valid (RPriority i)) as Hv by (unfold source_ok in Hi; cbn; lia).
    split.
    + apply wp_bind, wp_massert. split; [done|]. rewrite Hr. apply wp_bind, wp_bind, wp_massert. split; [done|]. apply wp_ret, wp_modify.
      change (base + i * 4) with (address base (RPriority i)). rewrite address_small by done. split; [|split]; cbn [pv_enabled pv_priority pv_threshold plic_view with_priority].
      * intros h' p' i' Hh' Hi'. pose proof (source_group i' Hi'). pose proof (target_range h' p' Hh'). rewrite word_insert by (done || cbn; lia). by rewrite decide_False by done.
      * intros i' Hi'. rewrite word_insert by (done || unfold source_ok in *; cbn; lia). destruct (decide (RPriority i' = _)) as [E|E]; case_decide; try done; [by injection E|by subst].
      * intros h' p' Hh'. pose proof (target_range h' p' Hh'). rewrite word_insert by (done || cbn; lia). by rewrite decide_False by done.
    + apply wp_bind, wp_massert. split; [done|]. rewrite threshold_ptr_eq by done. apply wp_modify. split; [|split]; cbn [pv_enabled pv_priority pv_threshold plic_view with_threshold].
      * intros h' p' i' Hh' Hi'. pose proof (source_group i' Hi'). pose proof (target_range h' p' Hh'). rewrite word_insert by (done || cbn; lia). by rewrite decide_False by done.
      * intros i' Hi'. rewrite word_insert by (done || unfold source_ok in *; cbn; lia). by rewrite decide_False by done.
      * intros h' p' Hh'. pose proof (target_range h' p' Hh'). rewrite word_insert by (done || cbn; lia).
        destruct (decide (RThreshold _ = _)) as [E|E]; destruct (decide (_ /\ _)) as [E'|E']; try done.
        -- injection E as Et. apply target_inj in Et. by destruct E'.
        -- exfalso. apply E. by destruct E' as [-> ->].
Qed.

(** The keyboard of hart 0, next to the mouse in the same register. *)
Lemma plic_ops_exact_witness :
  wp (Plic.enable 0xc000000 0 Plic.Supervisor 5) (fun _ r' =>
    pv_enabled (plic_view 0xc000000 r') 0 Plic.Supervisor 5 = true /\
    pv_enabled (plic_view 0xc000000 r') 0 Plic.Supervisor 6 = true /\
    pv_enabled (plic_view 0xc000000 r') 0 Plic.Machine 5 = false) {[0xc002080 := 64]} /\
  Plic.set_priority 0xc000000 5 8 ∅ = Err Panic.
Proof.
  assert (base_ok 0xc000000) as Hb by (unfold base_ok; lia). assert (hart_ok 0) as Hh by (unfold hart_ok; lia).
  assert (source_ok 5) as H5 by (unfold source_ok; lia). assert (source_ok 6) as H6 by (unfold source_ok; lia). split.
  - destruct (plic_ops_exact 0xc000000 Hb 0 Plic.Supervisor 5 1 {[0xc002080 := 64]} Hh H5) as [H _].
    eapply wp_mono; [exact H|]. intros _ r' (He & _). rewrite !He by assumption. vm_compute. repeat split; reflexivity.
  - destruct (plic_ops_exact 0xc000000 Hb 0 Plic.Supervisor 5 8 ∅ Hh H5) as (_ & _ & [H _]). exact H.
Defined.

(** ** The serial port *)

(** An interrupt empties the port into the buffer, up to its size. *)
Lemma uart_loop_spec fuel : forall u count, length (ua_rbr u) = fuel ->
  wp (uart_loop fuel count) (fun n u' => n = count + Z.of_nat fuel /\ ua_rbr u' = [] /\ ua_condvar u' = ua_condvar u /\ ua_thr u' = ua_thr u /\
    ua_read_buffer u' = ua_read_buffer u ++ take (MAX_READ_BUFFER - length (ua_read_buffer u)) (ua_rbr u)) u.
Proof.
  induction fuel as [|fuel IH]; intros u count Hl; destruct u as [rbr ier mcr thr buf cv]; cbn [ua_rbr ua_read_buffer ua_condvar ua_thr] in *.
  - destruct rbr; [|done]. cbn [uart_loop]. apply wp_bind. unfold NS16550aRaw_read. apply wp_bind, wp_get. cbn.
    apply wp_ret, wp_ret. cbn. rewrite take_nil, app_nil_r. split_and!; try done. lia.
  - destruct rbr as [|ch rbr]; [done|]. injection Hl as Hl. cbn [uart_loop]. apply wp_bind. unfold NS16550aRaw_read. apply wp_bind, wp_get.
    change (flags_contains (NS16550a_lsr _) LSR_DATA_AVAILABLE) with true. cbn [ua_rbr]. apply wp_bind, wp_put, wp_ret, wp_bind, wp_modify.
    cbn [ua_read_buffer set_read_buffer ua_rbr ua_ier ua_mcr ua_thr ua_condvar]. destruct (Nat.ltb_spec (length buf) MAX_READ_BUFFER) as [Hlt|Hge].
    + eapply wp_mono; [by apply IH|]. intros n u' (-> & E1 & E2 & E3 & E4). cbn [ua_rbr ua_read_buffer ua_condvar ua_thr] in *. split_and!; try done; [lia|].
      rewrite E4. cbn [ua_read_buffer ua_rbr set_read_buffer]. rewrite length_app, <- app_assoc. f_equal.
      replace (MAX_READ_BUFFER - length buf)%nat with (S (MAX_READ_BUFFER - (length buf + 1))) by lia. done.
    + eapply wp_mono; [by apply IH|]. intros n u' (-> & E1 & E2 & E3 & E4). cbn [ua_rbr ua_read_buffer ua_condvar ua_thr] in *. split_and!; try done; [lia|].
      rewrite E4. replace (MAX_READ_BUFFER - length buf)%nat with 0%nat by lia. by rewrite !take_0.
Qed.
