(* ===== verification/UserSyscall.v ===== *)
(** * The system calls of the user library (user/src/syscall.rs)

    The library has its own table of numbers, and a wrapper for each call that
    loads the registers for [ecall]. *)

From S2P Require Import Prelude.
Open Scope Z_scope.

(** The registers of an [ecall]. *)
Record Ecall := mkEcall { ec_x17 : Z; ec_x10 : Z; ec_x11 : Z; ec_x12 : Z }.

Module User.

(** The numbers of the calls, written down again. *)
Definition SYSCALL_DUP : Z := 24.
Definition SYSCALL_CONNECT : Z := 29.
Definition SYSCALL_LISTEN : Z := 30.
Definition SYSCALL_ACCEPT : Z := 31.
Definition SYSCALL_OPEN : Z := 56.
Definition SYSCALL_CLOSE : Z := 57.
Definition SYSCALL_PIPE : Z := 59.
Definition SYSCALL_READ : Z := 63.
Definition SYSCALL_WRITE : Z := 64.
Definition SYSCALL_EXIT : Z := 93.
Definition SYSCALL_SLEEP : Z := 101.
Definition SYSCALL_YIELD : Z := 124.
Definition SYSCALL_KILL : Z := 129.
Definition SYSCALL_GET_TIME : Z := 169.
Definition SYSCALL_GETPID : Z := 172.
Definition SYSCALL_MUNMAP : Z := 215.
Definition SYSCALL_FORK : Z := 220.
Definition SYSCALL_EXEC : Z := 221.
Definition SYSCALL_MMAP : Z := 222.
Definition SYSCALL_WAITPID : Z := 260.
Definition SYSCALL_MKDIR : Z := 34.
Definition SYSCALL_UNLINK : Z := 35.
Definition SYSCALL_CHDIR : Z := 49.
Definition SYSCALL_GETDENTS : Z := 61.
Definition SYSCALL_GETCWD : Z := 79.
Definition SYSCALL_LSEEK : Z := 62.
Definition SYSCALL_GETPATH : Z := 80.
Definition SYSCALL_SETPATH : Z := 81.
Definition SYSCALL_RENAME : Z := 82.
Definition SYSCALL_SET_PRIORITY : Z := 1040.
Definition SYSCALL_GET_PRIORITY : Z := 1041.
Definition SYSCALL_GET_SCHED_STATS : Z := 1042.
Definition SYSCALL_THREAD_CREATE : Z := 1000.
Definition SYSCALL_GETTID : Z := 1001.
Definition SYSCALL_WAITTID : Z := 1002.
Definition SYSCALL_MUTEX_CREATE : Z := 1010.
Definition SYSCALL_MUTEX_LOCK : Z := 1011.
Definition SYSCALL_MUTEX_UNLOCK : Z := 1012.
Definition SYSCALL_SEMAPHORE_CREATE : Z := 1020.
Definition SYSCALL_SEMAPHORE_UP : Z := 1021.
Definition SYSCALL_SEMAPHORE_DOWN : Z := 1022.
Definition SYSCALL_CONDVAR_CREATE : Z := 1030.
Definition SYSCALL_CONDVAR_SIGNAL : Z := 1031.
Definition SYSCALL_CONDVAR_WAIT : Z := 1032.
Definition SYSCALL_SETPGID : Z := 1100.
Definition SYSCALL_GETPGRP : Z := 1101.
Definition SYSCALL_TCSETPGRP : Z := 1102.
Definition SYSCALL_TCGETPGRP : Z := 1103.
Definition SYSCALL_TTY_CTL : Z := 1104.
Definition SYSCALL_SIGACTION : Z := 1105.
Definition SYSCALL_LIST_APPS : Z := 1106.
Definition SYSCALL_FRAMEBUFFER : Z := 2000.
Definition SYSCALL_FRAMEBUFFER_FLUSH : Z := 2001.
Definition SYSCALL_EVENT_GET : Z := 3000.
Definition SYSCALL_KEY_PRESSED : Z := 3001.


Definition syscall (id a0 a1 a2 : Z) : Ecall := mkEcall id a0 a1 a2.

(** A path in a buffer of 256 bytes: the rest of the buffer is NUL. *)
Definition null_terminated_path (path : list Z) : list Z :=
  let len := if (255 <? length path)%nat then 255%nat else length path in
  overwrite 0 (take len path) (replicate 256 0).

(** A path is passed as the address of its buffer, a slice as its address and
    its length. *)
Definition sys_dup (fd : Z) : Ecall := syscall SYSCALL_DUP fd 0 0.
Definition sys_connect (dest sport dport : Z) : Ecall := syscall SYSCALL_CONNECT dest sport dport.
Definition sys_listen (sport : Z) : Ecall := syscall SYSCALL_LISTEN sport 0 0.
Definition sys_accept (socket_fd : Z) : Ecall := syscall SYSCALL_ACCEPT socket_fd 0 0.
Definition sys_open (path_buf flags : Z) : Ecall := syscall SYSCALL_OPEN path_buf flags 0.
Definition sys_close (fd : Z) : Ecall := syscall SYSCALL_CLOSE fd 0 0.
Definition sys_pipe (pipe : Z) : Ecall := syscall SYSCALL_PIPE pipe 0 0.
Definition sys_read (fd buffer len : Z) : Ecall := syscall SYSCALL_READ fd buffer len.
Definition sys_write (fd buffer len : Z) : Ecall := syscall SYSCALL_WRITE fd buffer len.
Definition sys_exit (exit_code : Z) : Ecall := syscall SYSCALL_EXIT (usize_wrap exit_code) 0 0.
Definition sys_sleep (sleep_ms : Z) : Ecall := syscall SYSCALL_SLEEP sleep_ms 0 0.
Definition sys_yield : Ecall := syscall SYSCALL_YIELD 0 0 0.
Definition sys_kill (pid signal : Z) : Ecall := syscall SYSCALL_KILL pid (usize_wrap signal) 0.
Definition sys_get_time : Ecall := syscall SYSCALL_GET_TIME 0 0 0.
Definition sys_getpid : Ecall := syscall SYSCALL_GETPID 0 0 0.
Definition sys_munmap (start len : Z) : Ecall := syscall SYSCALL_MUNMAP start len 0.
Definition sys_fork : Ecall := syscall SYSCALL_FORK 0 0 0.
Definition sys_exec (path_buf args : Z) : Ecall := syscall SYSCALL_EXEC path_buf args 0.
Definition sys_mmap (start len prot : Z) : Ecall := syscall SYSCALL_MMAP start len prot.
Definition sys_waitpid (pid exit_code : Z) : Ecall := syscall SYSCALL_WAITPID (usize_wrap pid) exit_code 0.
Definition sys_waitpid_opts (pid exit_code options : Z) : Ecall := syscall SYSCALL_WAITPID (usize_wrap pid) exit_code options.
Definition sys_mkdir (path_buf : Z) : Ecall := syscall SYSCALL_MKDIR path_buf 0 0.
Definition sys_unlink (path_buf : Z) : Ecall := syscall SYSCALL_UNLINK path_buf 0 0.
Definition sys_chdir (path_buf : Z) : Ecall := syscall SYSCALL_CHDIR path_buf 0 0.
Definition sys_getdents (path_buf buf len : Z) : Ecall := syscall SYSCALL_GETDENTS path_buf buf len.
Definition sys_getcwd (buf len : Z) : Ecall := syscall SYSCALL_GETCWD buf len 0.
Definition sys_lseek (fd offset whence : Z) : Ecall := syscall SYSCALL_LSEEK fd (usize_wrap offset) whence.
Definition sys_getpath (buf len : Z) : Ecall := syscall SYSCALL_GETPATH buf len 0.
Definition sys_setpath (path_buf : Z) : Ecall := syscall SYSCALL_SETPATH path_buf 0 0.
Definition sys_rename (old_buf new_buf : Z) : Ecall := syscall SYSCALL_RENAME old_buf new_buf 0.
Definition sys_set_priority (pid priority : Z) : Ecall := syscall SYSCALL_SET_PRIORITY pid priority 0.
Definition sys_get_priority (pid : Z) : Ecall := syscall SYSCALL_GET_PRIORITY pid 0 0.
Definition sys_get_sched_stats (pid stats_ptr : Z) : Ecall := syscall SYSCALL_GET_SCHED_STATS pid stats_ptr 0.
Definition sys_thread_create (entry arg : Z) : Ecall := syscall SYSCALL_THREAD_CREATE entry arg 0.
Definition sys_gettid : Ecall := syscall SYSCALL_GETTID 0 0 0.
Definition sys_waittid (tid : Z) : Ecall := syscall SYSCALL_WAITTID tid 0 0.
Definition sys_mutex_create (blocking : bool) : Ecall := syscall SYSCALL_MUTEX_CREATE (if blocking then 1 else 0) 0 0.
Definition sys_mutex_lock (id : Z) : Ecall := syscall SYSCALL_MUTEX_LOCK id 0 0.
Definition sys_mutex_unlock (id : Z) : Ecall := syscall SYSCALL_MUTEX_UNLOCK id 0 0.
Definition sys_semaphore_create (res_count : Z) : Ecall := syscall SYSCALL_SEMAPHORE_CREATE res_count 0 0.
Definition sys_semaphore_up (sem_id : Z) : Ecall := syscall SYSCALL_SEMAPHORE_UP sem_id 0 0.
Definition sys_semaphore_down (sem_id : Z) : Ecall := syscall SYSCALL_SEMAPHORE_DOWN sem_id 0 0.
Definition sys_condvar_create : Ecall := syscall SYSCALL_CONDVAR_CREATE 0 0 0.
Definition sys_condvar_signal (condvar_id : Z) : Ecall := syscall SYSCALL_CONDVAR_SIGNAL condvar_id 0 0.
Definition sys_condvar_wait (condvar_id mutex_id : Z) : Ecall := syscall SYSCALL_CONDVAR_WAIT condvar_id mutex_id 0.
Definition sys_setpgid (pid pgid : Z) : Ecall := syscall SYSCALL_SETPGID pid pgid 0.
Definition sys_getpgrp : Ecall := syscall SYSCALL_GETPGRP 0 0 0.
Definition sys_tcsetpgrp (fd pgrp : Z) : Ecall := syscall SYSCALL_TCSETPGRP fd pgrp 0.
Definition sys_tcgetpgrp (fd : Z) : Ecall := syscall SYSCALL_TCGETPGRP fd 0 0.
Definition sys_tty_ctl (fd cmd arg : Z) : Ecall := syscall SYSCALL_TTY_CTL fd cmd arg.
Definition sys_sigaction (signal act : Z) : Ecall := syscall SYSCALL_SIGACTION signal act 0.
Definition sys_list_apps (buf len : Z) : Ecall := syscall SYSCALL_LIST_APPS buf len 0.
Definition sys_framebuffer : Ecall := syscall SYSCALL_FRAMEBUFFER 0 0 0.
Definition sys_framebuffer_flush : Ecall := syscall SYSCALL_FRAMEBUFFER_FLUSH 0 0 0.
Definition sys_event_get : Ecall := syscall SYSCALL_EVENT_GET 0 0 0.
Definition sys_key_pressed : Ecall := syscall SYSCALL_KEY_PRESSED 0 0 0.

End User.
