(* ===== verification/Abi.v ===== *)
(** * The system-call interface (os/src/syscall/mod.rs, user/src/syscall.rs)

    The numbers of the calls, how the kernel takes a call apart, and how the
    user library puts one together: both sides write the numbers and the types
    of the arguments down on their own, and the theorem is that they agree. *)

From S2P Require Import Prelude UserSyscall.
Open Scope Z_scope.

(** ** Numbers *)

Definition SYSCALL_DUP : Z := 24.
Definition SYSCALL_CONNECT : Z := 29.
Definition SYSCALL_LISTEN : Z := 30.
Definition SYSCALL_ACCEPT : Z := 31.
Definition SYSCALL_OPEN : Z := 56.
Definition SYSCALL_CLOSE : Z := 57.
Definition SYSCALL_PIPE : Z := 59.
Definition SYSCALL_READ : Z := 63.
Definition SYSCALL_WRITE : Z := 64.
Definition SYSCALL_EXIT : Z := 93.
Definition SYSCALL_SLEEP : Z := 101.
Definition SYSCALL_YIELD : Z := 124.
Definition SYSCALL_KILL : Z := 129.
Definition SYSCALL_GET_TIME : Z := 169.
Definition SYSCALL_GETPID : Z := 172.
Definition SYSCALL_MUNMAP : Z := 215.
Definition SYSCALL_FORK : Z := 220.
Definition SYSCALL_EXEC : Z := 221.
Definition SYSCALL_MMAP : Z := 222.
Definition SYSCALL_WAITPID : Z := 260.
Definition SYSCALL_MKDIR : Z := 34.
Definition SYSCALL_UNLINK : Z := 35.
Definition SYSCALL_CHDIR : Z := 49.
Definition SYSCALL_GETDENTS : Z := 61.
Definition SYSCALL_GETCWD : Z := 79.
Definition SYSCALL_LSEEK : Z := 62.
Definition SYSCALL_GETPATH : Z := 80.
Definition SYSCALL_SETPATH : Z := 81.
Definition SYSCALL_RENAME : Z := 82.
Definition SYSCALL_SET_PRIORITY : Z := 1040.
Definition SYSCALL_GET_PRIORITY : Z := 1041.
Definition SYSCALL_GET_SCHED_STATS : Z := 1042.
Definition SYSCALL_THREAD_CREATE : Z := 1000.
Definition SYSCALL_GETTID : Z := 1001.
Definition SYSCALL_WAITTID : Z := 1002.
Definition SYSCALL_MUTEX_CREATE : Z := 1010.
Definition SYSCALL_MUTEX_LOCK : Z := 1011.
Definition SYSCALL_MUTEX_UNLOCK : Z := 1012.
Definition SYSCALL_SEMAPHORE_CREATE : Z := 1020.
Definition SYSCALL_SEMAPHORE_UP : Z := 1021.
Definition SYSCALL_SEMAPHORE_DOWN : Z := 1022.
Definition SYSCALL_CONDVAR_CREATE : Z := 1030.
Definition SYSCALL_CONDVAR_SIGNAL : Z := 1031.
Definition SYSCALL_CONDVAR_WAIT : Z := 1032.
Definition SYSCALL_SETPGID : Z := 1100.
Definition SYSCALL_GETPGRP : Z := 1101.
Definition SYSCALL_TCSETPGRP : Z := 1102.
Definition SYSCALL_TCGETPGRP : Z := 1103.
Definition SYSCALL_TTY_CTL : Z := 1104.
Definition SYSCALL_SIGACTION : Z := 1105.
Definition SYSCALL_LIST_APPS : Z := 1106.
Definition SYSCALL_FRAMEBUFFER : Z := 2000.
Definition SYSCALL_FRAMEBUFFER_FLUSH : Z := 2001.
Definition SYSCALL_EVENT_GET : Z := 3000.
Definition SYSCALL_KEY_PRESSED : Z := 3001.

(** ** Casts of a register *)

Definition as_u32 (x : Z) : Z := x mod 2 ^ 32.
Definition as_u16 (x : Z) : Z := x mod 2 ^ 16.
Definition as_i32 (x : Z) : Z := let y := x mod 2 ^ 32 in if y <? 2 ^ 31 then y else y - 2 ^ 32.

(** ** The kernel

    A call with its arguments as the handler receives them. *)
Inductive SysCall :=
  | SysDup (fd : Z)
  | SysConnect (raddr lport rport : Z)
  | SysListen (port : Z)
  | SysAccept (port_index : Z)
  | SysOpen (path flags : Z)
  | SysClose (fd : Z)
  | SysPipe (pipe : Z)
  | SysRead (fd buf len : Z)
  | SysWrite (fd buf len : Z)
  | SysExit (exit_code : Z)
  | SysSleep (ms : Z)
  | SysYield
  | SysKill (pid signal : Z)
  | SysGetTime
  | SysGetpid
  | SysMunmap (start len : Z)
  | SysFork
  | SysExec (path args : Z)
  | SysMmap (start len prot : Z)
  | SysWaitpid (pid exit_code_ptr options : Z)
  | SysMkdir (path : Z)
  | SysUnlink (path : Z)
  | SysChdir (path : Z)
  | SysGetdents (path buf len : Z)
  | SysGetcwd (buf len : Z)
  | SysLseek (fd offset whence : Z)
  | SysGetpath (buf len : Z)
  | SysSetpath (path : Z)
  | SysRename (old_path new_path : Z)
  | SysSetPriority (pid priority : Z)
  | SysGetPriority (pid : Z)
  | SysGetSchedStats (pid stats_ptr : Z)
  | SysThreadCreate (entry arg : Z)
  | SysGettid
  | SysWaittid (tid : Z)
  | SysMutexCreate (blocking : bool)
  | SysMutexLock (mutex_id : Z)
  | SysMutexUnlock (mutex_id : Z)
  | SysSemaphoreCreate (res_count : Z)
  | SysSemaphoreUp (sem_id : Z)
  | SysSemaphoreDown (sem_id : Z)
  | SysCondvarCreate
  | SysCondvarSignal (condvar_id : Z)
  | SysCondvarWait (condvar_id mutex_id : Z)
  | SysSetpgid (pid pgid : Z)
  | SysGetpgrp
  | SysTcsetpgrp (fd pgrp : Z)
  | SysTcgetpgrp (fd : Z)
  | SysTtyCtl (fd cmd arg : Z)
  | SysSigaction (signal act : Z)
  | SysListApps (buf len : Z)
  | SysFramebuffer
  | SysFramebufferFlush
  | SysEventGet
  | SysKeyPressed.

(** The [match] of [syscall]; an unknown number is a panic. *)
Definition decode (id a0 a1 a2 : Z) : option SysCall :=
  if id =? SYSCALL_DUP then Some (SysDup a0)
  else if id =? SYSCALL_CONNECT then Some (SysConnect (as_u32 a0) (as_u16 a1) (as_u16 a2))
  else if id =? SYSCALL_LISTEN then Some (SysListen (as_u16 a0))
  else if id =? SYSCALL_ACCEPT then Some (SysAccept a0)
  else if id =? SYSCALL_OPEN then Some (SysOpen a0 (as_u32 a1))
  else if id =? SYSCALL_CLOSE then Some (SysClose a0)
  else if id =? SYSCALL_PIPE then Some (SysPipe a0)
  else if id =? SYSCALL_READ then Some (SysRead a0 a1 a2)
  else if id =? SYSCALL_WRITE then Some (SysWrite a0 a1 a2)
  else if id =? SYSCALL_MKDIR then Some (SysMkdir a0)
  else if id =? SYSCALL_UNLINK then Some (SysUnlink a0)
  else if id =? SYSCALL_CHDIR then Some (SysChdir a0)
  else if id =? SYSCALL_GETCWD then Some (SysGetcwd a0 a1)
  else if id =? SYSCALL_GETDENTS then Some (SysGetdents a0 a1 a2)
  else if id =? SYSCALL_LSEEK then Some (SysLseek a0 (as_isize a1) (as_u32 a2))
  else if id =? SYSCALL_GETPATH then Some (SysGetpath a0 a1)
  else if id =? SYSCALL_SETPATH then Some (SysSetpath a0)
  else if id =? SYSCALL_RENAME then Some (SysRename a0 a1)
  else if id =? SYSCALL_EXIT then Some (SysExit (as_i32 a0))
  else if id =? SYSCALL_SLEEP then Some (SysSleep a0)
  else if id =? SYSCALL_YIELD then Some SysYield
  else if id =? SYSCALL_KILL then Some (SysKill (as_isize a0) (as_u32 a1))
  else if id =? SYSCALL_SETPGID then Some (SysSetpgid a0 a1)
  else if id =? SYSCALL_GETPGRP then Some SysGetpgrp
  else if id =? SYSCALL_TCSETPGRP then Some (SysTcsetpgrp a0 a1)
  else if id =? SYSCALL_TCGETPGRP then Some (SysTcgetpgrp a0)
  else if id =? SYSCALL_TTY_CTL then Some (SysTtyCtl a0 a1 a2)
  else if id =? SYSCALL_SIGACTION then Some (SysSigaction (as_u32 a0) a1)
  else if id =? SYSCALL_LIST_APPS then Some (SysListApps a0 a1)
  else if id =? SYSCALL_GET_TIME then Some SysGetTime
  else if id =? SYSCALL_GETPID then Some SysGetpid
  else if id =? SYSCALL_MUNMAP then Some (SysMunmap a0 a1)
  else if id =? SYSCALL_FORK then Some SysFork
  else if id =? SYSCALL_EXEC then Some (SysExec a0 a1)
  else if id =? SYSCALL_MMAP then Some (SysMmap a0 a1 a2)
  else if id =? SYSCALL_WAITPID then Some (SysWaitpid (as_isize a0) a1 a2)
  else if id =? SYSCALL_SET_PRIORITY then Some (SysSetPriority a0 a1)
  else if id =? SYSCALL_GET_PRIORITY then Some (SysGetPriority a0)
  else if id =? SYSCALL_GET_SCHED_STATS then Some (SysGetSchedStats a0 a1)
  else if id =? SYSCALL_THREAD_CREATE then Some (SysThreadCreate a0 a1)
  else if id =? SYSCALL_GETTID then Some SysGettid
  else if id =? SYSCALL_WAITTID then Some (SysWaittid a0)
  else if id =? SYSCALL_MUTEX_CREATE then Some (SysMutexCreate (a0 =? 1))
  else if id =? SYSCALL_MUTEX_LOCK then Some (SysMutexLock a0)
  else if id =? SYSCALL_MUTEX_UNLOCK then Some (SysMutexUnlock a0)
  else if id =? SYSCALL_SEMAPHORE_CREATE then Some (SysSemaphoreCreate a0)
  else if id =? SYSCALL_SEMAPHORE_UP then Some (SysSemaphoreUp a0)
  else if id =? SYSCALL_SEMAPHORE_DOWN then Some (SysSemaphoreDown a0)
  else if id =? SYSCALL_CONDVAR_CREATE then Some SysCondvarCreate
  else if id =? SYSCALL_CONDVAR_SIGNAL then Some (SysCondvarSignal a0)
  else if id =? SYSCALL_CONDVAR_WAIT then Some (SysCondvarWait a0 a1)
  else if id =? SYSCALL_FRAMEBUFFER then Some SysFramebuffer
  else if id =? SYSCALL_FRAMEBUFFER_FLUSH then Some SysFramebufferFlush
  else if id =? SYSCALL_EVENT_GET then Some SysEventGet
  else if id =? SYSCALL_KEY_PRESSED then Some SysKeyPressed
  else None.

(** ** The user library *)

(** What the kernel makes of the registers. *)
Definition received (e : Ecall) : option SysCall := decode (ec_x17 e) (ec_x10 e) (ec_x11 e) (ec_x12 e).

(** The call of the library that is meant for a call of the kernel. *)
Definition request (c : SysCall) : Ecall :=
  match c with
  | SysDup fd => User.sys_dup fd
  | SysConnect raddr lport rport => User.sys_connect raddr lport rport
  | SysListen port => User.sys_listen port
  | SysAccept port_index => User.sys_accept port_index
  | SysOpen path flags => User.sys_open path flags
  | SysClose fd => User.sys_close fd
  | SysPipe pipe => User.sys_pipe pipe
  | SysRead fd buf len => User.sys_read fd buf len
  | SysWrite fd buf len => User.sys_write fd buf len
  | SysExit exit_code => User.sys_exit exit_code
  | SysSleep ms => User.sys_sleep ms
  | SysYield => User.sys_yield
  | SysKill pid signal => User.sys_kill (usize_wrap pid) signal
  | SysGetTime => User.sys_get_time
  | SysGetpid => User.sys_getpid
  | SysMunmap start len => User.sys_munmap start len
  | SysFork => User.sys_fork
  | SysExec path args => User.sys_exec path args
  | SysMmap start len prot => User.sys_mmap start len prot
  | SysWaitpid pid exit_code_ptr options => User.sys_waitpid_opts pid exit_code_ptr options
  | SysMkdir path => User.sys_mkdir path
  | SysUnlink path => User.sys_unlink path
  | SysChdir path => User.sys_chdir path
  | SysGetdents path buf len => User.sys_getdents path buf len
  | SysGetcwd buf len => User.sys_getcwd buf len
  | SysLseek fd offset whence => User.sys_lseek fd offset whence
  | SysGetpath buf len => User.sys_getpath buf len
  | SysSetpath path => User.sys_setpath path
  | SysRename old_path new_path => User.sys_rename old_path new_path
  | SysSetPriority pid priority => User.sys_set_priority pid priority
  | SysGetPriority pid => User.sys_get_priority pid
  | SysGetSchedStats pid stats_ptr => User.sys_get_sched_stats pid stats_ptr
  | SysThreadCreate entry arg => User.sys_thread_create entry arg
  | SysGettid => User.sys_gettid
  | SysWaittid tid => User.sys_waittid tid
  | SysMutexCreate blocking => User.sys_mutex_create blocking
  | SysMutexLock mutex_id => User.sys_mutex_lock mutex_id
  | SysMutexUnlock mutex_id => User.sys_mutex_unlock mutex_id
  | SysSemaphoreCreate res_count => User.sys_semaphore_create res_count
  | SysSemaphoreUp sem_id => User.sys_semaphore_up sem_id
  | SysSemaphoreDown sem_id => User.sys_semaphore_down sem_id
  | SysCondvarCreate => User.sys_condvar_create
  | SysCondvarSignal condvar_id => User.sys_condvar_signal condvar_id
  | SysCondvarWait condvar_id mutex_id => User.sys_condvar_wait condvar_id mutex_id
  | SysSetpgid pid pgid => User.sys_setpgid pid pgid
  | SysGetpgrp => User.sys_getpgrp
  | SysTcsetpgrp fd pgrp => User.sys_tcsetpgrp fd pgrp
  | SysTcgetpgrp fd => User.sys_tcgetpgrp fd
  | SysTtyCtl fd cmd arg => User.sys_tty_ctl fd cmd arg
  | SysSigaction signal act => User.sys_sigaction signal act
  | SysListApps buf len => User.sys_list_apps buf len
  | SysFramebuffer => User.sys_framebuffer
  | SysFramebufferFlush => User.sys_framebuffer_flush
  | SysEventGet => User.sys_event_get
  | SysKeyPressed => User.sys_key_pressed
  end.

Definition is_u16 (x : Z) : Prop := 0 <= x < 2 ^ 16.
Definition is_i32 (x : Z) : Prop := - 2 ^ 31 <= x < 2 ^ 31.
Definition is_signal (x : Z) : Prop := 0 <= x < 2 ^ 31.
Definition is_isize (x : Z) : Prop := - 2 ^ 63 <= x < 2 ^ 63.

(** The arguments have the types of the library's functions; a signal is not
    negative. *)
Definition well_typed (c : SysCall) : Prop :=
  match c with
  | SysDup fd => is_usize fd
  | SysConnect raddr lport rport => is_u32 raddr /\ is_u16 lport /\ is_u16 rport
  | SysListen port => is_u16 port
  | SysAccept port_index => is_usize port_index
  | SysOpen path flags => is_usize path /\ is_u32 flags
  | SysClose fd => is_usize fd
  | SysPipe pipe => is_usize pipe
  | SysRead fd buf len => is_usize fd /\ is_usize buf /\ is_usize len
  | SysWrite fd buf len => is_usize fd /\ is_usize buf /\ is_usize len
  | SysExit exit_code => is_i32 exit_code
  | SysSleep ms => is_usize ms
  | SysYield => True
  | SysKill pid signal => is_isize pid /\ is_signal signal
  | SysGetTime => True
  | SysGetpid => True
  | SysMunmap start len => is_usize start /\ is_usize len
  | SysFork => True
  | SysExec path args => is_usize path /\ is_usize args
  | SysMmap start len prot => is_usize start /\ is_usize len /\ is_usize prot
  | SysWaitpid pid exit_code_ptr options => is_isize pid /\ is_usize exit_code_ptr /\ is_usize options
  | SysMkdir path => is_usize path
  | SysUnlink path => is_usize path
  | SysChdir path => is_usize path
  | SysGetdents path buf len => is_usize path /\ is_usize buf /\ is_usize len
  | SysGetcwd buf len => is_usize buf /\ is_usize len
  | SysLseek fd offset whence => is_usize fd /\ is_isize offset /\ is_u32 whence
  | SysGetpath buf len => is_usize buf /\ is_usize len
  | SysSetpath path => is_usize path
  | SysRename old_path new_path => is_usize old_path /\ is_usize new_path
  | SysSetPriority pid priority => is_usize pid /\ is_usize priority
  | SysGetPriority pid => is_usize pid
  | SysGetSchedStats pid stats_ptr => is_usize pid /\ is_usize stats_ptr
  | SysThreadCreate entry arg => is_usize entry /\ is_usize arg
  | SysGettid => True
  | SysWaittid tid => is_usize tid
  | SysMutexCreate blocking => True
  | SysMutexLock mutex_id => is_usize mutex_id
  | SysMutexUnlock mutex_id => is_usize mutex_id
  | SysSemaphoreCreate res_count => is_usize res_count
  | SysSemaphoreUp sem_id => is_usize sem_id
  | SysSemaphoreDown sem_id => is_usize sem_id
  | SysCondvarCreate => True
  | SysCondvarSignal condvar_id => is_usize condvar_id
  | SysCondvarWait condvar_id mutex_id => is_usize condvar_id /\ is_usize mutex_id
  | SysSetpgid pid pgid => is_usize pid /\ is_usize pgid
  | SysGetpgrp => True
  | SysTcsetpgrp fd pgrp => is_usize fd /\ is_usize pgrp
  | SysTcgetpgrp fd => is_usize fd
  | SysTtyCtl fd cmd arg => is_usize fd /\ is_usize cmd /\ is_usize arg
  | SysSigaction signal act => is_u32 signal /\ is_usize act
  | SysListApps buf len => is_usize buf /\ is_usize len
  | SysFramebuffer => True
  | SysFramebufferFlush => True
  | SysEventGet => True
  | SysKeyPressed => True
  end.

Lemma as_u32_id x : is_u32 x -> as_u32 x = x.
Proof. apply Z.mod_small. Qed.
Lemma as_u16_id x : is_u16 x -> as_u16 x = x.
Proof. apply Z.mod_small. Qed.

Lemma isize_roundtrip x : is_isize x -> as_isize (usize_wrap x) = x.
Proof.
  unfold is_isize, as_isize, usize_wrap. intros Hx. rewrite Z.mod_mod by done. case_zb; zdiv_lia.
Qed.

Lemma i32_roundtrip x : is_i32 x -> as_i32 (usize_wrap x) = x.
Proof. unfold is_i32, as_i32, usize_wrap. intros Hx. case_zb; zdiv_lia. Qed.

Lemma u32_roundtrip x : is_signal x -> as_u32 (usize_wrap x) = x.
Proof. unfold is_signal. intros Hx. unfold usize_wrap. rewrite Z.mod_small by lia. apply as_u32_id. unfold is_u32. lia. Qed.

Create Rewrite HintDb abi.
#[export] Hint Rewrite as_u32_id as_u16_id isize_roundtrip i32_roundtrip u32_roundtrip using assumption : abi.

Lemma request_decodes c : well_typed c -> received (request c) = Some c.
Proof.
  destruct c; cbn [well_typed request]; intros;
    repeat match goal with H : _ /\ _ |- _ => destruct H end; try destruct blocking; unfold received; cbn -[as_u32 as_u16 as_i32 as_isize usize_wrap];
    autorewrite with abi; reflexivity.
Qed.

(** C39: the kernel receives the call the library makes.  For every system call
    whose arguments have the types of the library's wrapper, the registers the
    wrapper loads decode to exactly that call: the two tables of numbers agree,
    no two calls are confused, the arguments arrive in their order, and the
    casts on both sides (negative exit codes, process groups and offsets
    included) cancel. *)
Theorem abi_roundtrip c : well_typed c -> received (request c) = Some c.
Proof. exact (request_decodes c). Qed.

Lemma abi_roundtrip_witness :
  received (User.sys_kill (usize_wrap (-3)) (Z.shiftl 1 20)) = Some (SysKill (-3) (Z.shiftl 1 20)) /\
  received (User.sys_exit (-11)) = Some (SysExit (-11)).
Proof.
  split.
  - apply (abi_roundtrip (SysKill (-3) (Z.shiftl 1 20))). split; [unfold is_isize; lia|unfold is_signal; change (Z.shiftl 1 20) with 1048576; lia].
  - apply (abi_roundtrip (SysExit (-11))). unfold well_typed, is_i32. lia.
Defined.

(** ** Paths *)

(** The bytes before the first NUL. *)
Fixpoint c_string (l : list Z) : list Z :=
  match l with [] => [] | b :: l' => if b =? 0 then [] else b :: c_string l' end.

Lemma c_string_app path rest : Forall (fun b => b <> 0) path -> c_string (path ++ 0 :: rest) = path.
Proof. induction 1 as [|b l Hb Hl IH]; [done|]. cbn. rewrite (proj2 (Z.eqb_neq b 0)) by done. by rewrite IH. Qed.

(** A path without NUL arrives whole up to 255 bytes: a longer one is cut
    without an error. *)
Lemma path_arrives path : Forall (fun b => b <> 0) path -> c_string (User.null_terminated_path path) = take 255 path.
Proof.
  intros Hp. unfold User.null_terminated_path, overwrite. cbn [take app].
  replace (take (if (255 <? length path)%nat then 255%nat else length path) path) with (take 255 path).
  - assert (length (take 255 path) <= 255)%nat as Hl by (rewrite length_take; lia).
    rewrite drop_replicate. replace (256 - (0 + length (take 255 path)))%nat with (S (255 - length (take 255 path))) by lia.
    cbn [replicate]. apply c_string_app. by apply Forall_take.
  - destruct (Nat.ltb_spec 255 (length path)); [done|]. rewrite !take_ge by lia. done.
Qed.
