(* ===== verification/Trap.v ===== *)
(** * Traps and the dispatch of system calls (os/src/trap, os/src/syscall/mod.rs)

    [Os] joins the components: the processes, files and network of [System],
    the timers, the synchronisation objects of each process, and the devices.
    A trap runs to the point where its thread returns to user mode, gives up the
    processor or ends; a thread that gave it up keeps a [Kont], the rest of its
    trap, for when it runs again.  [hart_step] is the machine: one step of the
    thread on the hart, a trap, an interrupt, or the idle loop. *)

From S2P Require Import Prelude Address FrameAllocator PageTable MemorySet Ids Scheduler Processor Pipe Sync Process BlockCache Layout Efs Vfs Files Net Tty Timer Syscalls Devices Abi.
From stdpp Require Import gmap.
Open Scope Z_scope.

(** ** The state *)

Record ProcSync := mkProcSync {
  pr_mutexes : list (option Mutex); pr_semaphores : list (option SemaphoreInner); pr_condvars : list (option CondvarInner)
}.
Definition no_sync : ProcSync := mkProcSync [] [] [].

(** What a thread still has to do in the kernel. *)
Inductive Kont :=
  | KIo (call : io_call)
  | KEvent (keyboard : bool)
  | KAccept (port_index : nat)
  | KLock (mutex_id : Z)
  | KDone (result : Z)
  | KSignals
  | KAfterStop
  | KReturn.

(** How a piece of kernel code ends for its thread. *)
Inductive next :=
  | Continue (k : Kont)
  | Leave (k : Kont)
  | ToUser
  | Over (r : exit_result).

Inductive Trap :=
  | UserEnvCall
  | StorePageFault (stval : Z)
  | StoreFault
  | InstructionFault
  | InstructionPageFault
  | LoadFault
  | LoadPageFault
  | IllegalInstruction
  | SupervisorTimer
  | SupervisorExternal
  | Unsupported.

(** What the devices have for an interrupt: the source the controller names,
    the events of an input device, the finished requests, the bytes of the
    port. *)
Record Irq := mkIrq { iq_source : Z; iq_events : list PendingEvent; iq_used : list Z; iq_bytes : list Z }.

Section Trap.
Context {T H : Type} `{Scheduler T} `{BinaryHeap H} `{NetStack}.
Context (fs : EasyFileSystem) (sym : LinkerSymbols) (ElfFile_new : list Z -> option ElfFile) (user_sstatus trap_handler_va : Z) (INITPROC : Z).
Context (str_fuel file_fuel rename_fuel : nat) (is_utf8 : list Z -> bool).
(** The frame buffer of the graphics device, and the clock. *)
Context (fb_address fb_len clock_freq : Z).

Record Os := mkOs {
  os_system : System (T := T);
  os_timers : H;
  os_sync : gmap Z ProcSync;
  os_keyboard : VirtIOInputWrapper;
  os_mouse : VirtIOInputWrapper;
  os_uart : NS16550a;
  os_blk : gmap Z CondvarInner;
  os_plic : gmap Z Z
}.

Definition put_system (s : System) (o : Os) : Os :=
  mkOs s (os_timers o) (os_sync o) (os_keyboard o) (os_mouse o) (os_uart o) (os_blk o) (os_plic o).
Definition put_timers (h : H) (o : Os) : Os :=
  mkOs (os_system o) h (os_sync o) (os_keyboard o) (os_mouse o) (os_uart o) (os_blk o) (os_plic o).
Definition put_sync (m : gmap Z ProcSync) (o : Os) : Os :=
  mkOs (os_system o) (os_timers o) m (os_keyboard o) (os_mouse o) (os_uart o) (os_blk o) (os_plic o).
Definition put_keyboard (d : VirtIOInputWrapper) (o : Os) : Os :=
  mkOs (os_system o) (os_timers o) (os_sync o) d (os_mouse o) (os_uart o) (os_blk o) (os_plic o).
Definition put_mouse (d : VirtIOInputWrapper) (o : Os) : Os :=
  mkOs (os_system o) (os_timers o) (os_sync o) (os_keyboard o) d (os_uart o) (os_blk o) (os_plic o).
Definition put_uart (u : NS16550a) (o : Os) : Os :=
  mkOs (os_system o) (os_timers o) (os_sync o) (os_keyboard o) (os_mouse o) u (os_blk o) (os_plic o).
Definition put_blk (m : gmap Z CondvarInner) (o : Os) : Os :=
  mkOs (os_system o) (os_timers o) (os_sync o) (os_keyboard o) (os_mouse o) (os_uart o) m (os_plic o).
Definition put_plic (r : gmap Z Z) (o : Os) : Os :=
  mkOs (os_system o) (os_timers o) (os_sync o) (os_keyboard o) (os_mouse o) (os_uart o) (os_blk o) r.

Definition os_world (o : Os) : World T := co_world (sy_console (os_system o)).
Definition os_kernel (o : Os) : Kernel T := w_kernel (os_world o).
Definition put_world (w : World T) (o : Os) : Os :=
  let s := os_system o in
  let c := sy_console s in
  put_system (mkSystem (mkConsole w (co_inner c) (co_condvar c) (co_sent c)) (sy_store s) (sy_files s) (sy_net s)) o.
Definition set_kernel (k : Kernel T) (o : Os) : Os := put_world (put_kernel k (os_world o)) o.

(** Programs over one part. *)
Definition on_sys {A : Type} (f : M (System (T := T)) A) : M Os A := fun o =>
  match f (os_system o) with Ok (a, s) => Ok (a, put_system s o) | Err e => Err e end.
Definition on_world_ {A : Type} (f : M (World T) A) : M Os A := on_sys (on_proc f).
Definition on_timed {A : Type} (f : M (Timed T H) A) : M Os A := fun o =>
  match f (mkTimed (os_kernel o) (os_timers o)) with
  | Ok (a, t) => Ok (a, put_timers (td_timers t) (set_kernel (td_kernel t) o))
  | Err e => Err e
  end.
(** The objects of a process. *)
Definition on_sync_of {A : Type} (pid : Z) (f : M (SyncState T) A) : M Os A := fun o =>
  let p := default no_sync (os_sync o !! pid) in
  match f (mkSync (os_kernel o) (pr_mutexes p) (pr_semaphores p) (pr_condvars p)) with
  | Ok (a, s) =>
      Ok (a, put_sync (<[pid := mkProcSync (ss_mutexes s) (ss_semaphores s) (ss_condvars s)]> (os_sync o)) (set_kernel (ss_kernel s) o))
  | Err e => Err e
  end.
Definition on_sync {A : Type} (f : M (SyncState T) A) : M Os A := pid ← on_world_ current_process; on_sync_of pid f.
(** A device with the kernel. *)
Definition on_driver {D A : Type} (dev : Os -> D) (put_dev : D -> Os -> Os) (f : M (Kernel T * D) A) : M Os A := fun o =>
  match f (os_kernel o, dev o) with Ok (a, (k, d)) => Ok (a, put_dev d (set_kernel k o)) | Err e => Err e end.
Definition on_keyboard {A : Type} (f : M (Kernel T * VirtIOInputWrapper) A) : M Os A := on_driver os_keyboard put_keyboard f.
Definition on_mouse {A : Type} (f : M (Kernel T * VirtIOInputWrapper) A) : M Os A := on_driver os_mouse put_mouse f.
Definition on_uart {A : Type} (f : M (Kernel T * NS16550a) A) : M Os A := on_driver os_uart put_uart f.
Definition on_blk {A : Type} (f : M (Kernel T * gmap Z CondvarInner) A) : M Os A := on_driver os_blk put_blk f.
Definition on_plic {A : Type} (f : M (gmap Z Z) A) : M Os A := fun o =>
  match f (os_plic o) with Ok (a, r) => Ok (a, put_plic r o) | Err e => Err e end.
Definition on_kern_ {A : Type} (f : M (Kernel T) A) : M Os A := on_world_ (on_kern f).

(** *** The trap context of the current thread *)

Definition current_trap_cx_ppn : M Os Z :=
  on_world_ (t ← current_thread; th ← get_thread t; mret (th_trap_cx_ppn th)).
Definition read_cx (k : Z) : M Os Z := ppn ← current_trap_cx_ppn; on_world_ (on_machine (read_usize (trap_cx_word ppn k))).
Definition write_cx (k v : Z) : M Os unit := ppn ← current_trap_cx_ppn; on_world_ (on_machine (write_usize (trap_cx_word ppn k) v)).
Definition SSTATUS_WORD : Z := 32.
Definition SEPC_WORD : Z := 33.

(** [__alltraps]: the registers of the user but x0 and x4, with sstatus and
    sepc. *)
Definition saved_registers : list Z := [1; 2; 3] ++ seqZ 5 27.
Definition alltraps (regs : Z -> Z) (sstatus sepc : Z) : M Os unit :=
  mfor saved_registers (fun n => write_cx n (regs n));;
  write_cx SSTATUS_WORD sstatus;;
  write_cx SEPC_WORD sepc.

(** *** Graphics and input (syscall/gui.rs, syscall/input.rs) *)

Definition FB_VADDR : Z := 0x10000000.
Definition sys_framebuffer : M Os Z :=
  let fb_start_pa := PhysAddr_from_usize fb_address in
  massert (PhysAddr_aligned fb_start_pa);;
  let fb_start_ppn := PhysAddr_floor fb_start_pa in
  let fb_start_vpn := VirtAddr_floor (VirtAddr_from_usize FB_VADDR) in
  let pn_offset := as_isize (fb_start_ppn - fb_start_vpn) in
  r ← on_sys this_process;
  let '(pid, p) := r in
  area ← unwrap (MapArea_new (VirtAddr_from_usize FB_VADDR) (VirtAddr_from_usize (usize_wrap (FB_VADDR + fb_len))) (Linear pn_offset)
    (perm_or (perm_or MapPermission_R MapPermission_W) MapPermission_U));
  ms ← on_world_ (on_machine (MemorySet_push (pcb_memory_set p) area None));
  on_world_ (put_pcb pid (set_memory ms (pcb_task_res_allocator p) p));;
  mret FB_VADDR.

(** [read_event] of the keyboard or the mouse. *)
Definition read_event (keyboard : bool) : M Os (option Z) :=
  if keyboard then on_keyboard Input_read_event else on_mouse Input_read_event.
Definition event_next (keyboard : bool) (o : option Z) : next :=
  match o with Some event => Continue (KDone (as_isize event)) | None => Leave (KEvent keyboard) end.
Definition sys_event_get : M Os next :=
  kb_empty ← gets (fun o => bool_decide (vi_events (os_keyboard o) = []));
  mouse_empty ← gets (fun o => bool_decide (vi_events (os_mouse o) = []));
  if negb kb_empty then o ← read_event true; mret (event_next true o)
  else if negb mouse_empty then o ← read_event false; mret (event_next false o)
  else mret (Continue (KDone 0)).
Definition sys_key_pressed : M Os Z :=
  e ← gets (fun o => bool_decide (ua_read_buffer (os_uart o) = [])); mret (if e : bool then 0 else 1).

(** *** The dispatch of system calls *)

Definition value (m : M Os Z) : M Os next := z ← m; mret (Continue (KDone z)).
(** A call that has given up the processor and then returns [z]. *)
Definition value_after_switch (m : M Os Z) : M Os next := z ← m; mret (Leave (KDone z)).
(** A step of [read] or [write]: the thread may still be on the hart. *)
Definition io_next (r : Z + io_call) : M Os next :=
  match r with
  | inl z => mret (Continue (KDone z))
  | inr call =>
      c ← gets (fun o => kn_current (os_kernel o));
      mret (match c with Some _ => Continue (KIo call) | None => Leave (KIo call) end)
  end.
Definition lock_next (mutex_id : Z) : M Os next :=
  r ← on_sync (sys_mutex_lock mutex_id);
  mret (match snd r with Go => Continue (KDone (fst r)) | Spin => Leave (KLock mutex_id) | Sleep => Leave (KDone (fst r)) end).
Definition accept_next (port_index : nat) (o : option Z) : next :=
  match o with Some fd => Continue (KDone fd) | None => Continue (KAccept port_index) end.

Definition get_time_ms_ (time : Z) : Z := get_time_ms time clock_freq.

Definition fork_call : M Os Z :=
  new_pid ← on_world_ (sys_fork sym);
  modify (fun o => put_sync (<[new_pid := no_sync]> (os_sync o)) o);;
  mret new_pid.

Definition syscall (time : Z) (c : SysCall) : M Os next :=
  match c with
  | SysDup fd => value (on_world_ (sys_dup fd))
  | SysConnect raddr lport rport => value (on_sys (on_net (sys_connect raddr lport rport)))
  | SysListen port => value (on_sys (on_net (sys_listen port)))
  | SysAccept port_index => o ← on_sys (on_net (sys_accept (Z.to_nat port_index))); mret (accept_next (Z.to_nat port_index) o)
  | SysOpen path flags => value (on_sys (sys_open fs str_fuel path flags))
  | SysClose fd => value (on_sys (call_close fd))
  | SysPipe pipe => value (on_world_ (sys_pipe pipe))
  | SysRead fd buf len => r ← on_sys (sys_read fd buf len); io_next r
  | SysWrite fd buf len => r ← on_sys (sys_write fd buf len); io_next r
  | SysMkdir path => value (on_sys (call_mkdir fs str_fuel path))
  | SysUnlink path => value (on_sys (call_unlink fs str_fuel path))
  | SysChdir path => value (on_sys (call_chdir fs str_fuel path))
  | SysGetcwd buf len => value (on_sys (sys_getcwd buf len))
  | SysGetdents path buf len => value (on_sys (sys_getdents fs str_fuel path buf len))
  | SysLseek _ _ _ => value (mret (-1))
  | SysGetpath buf len => value (on_sys (sys_getpath buf len))
  | SysSetpath path => value (on_sys (sys_setpath str_fuel path))
  | SysRename old_path new_path => value (on_sys (call_rename fs str_fuel rename_fuel old_path new_path))
  | SysExit exit_code => r ← on_sys (sys_exit INITPROC exit_code); mret (Over r)
  | SysSleep ms => value_after_switch (on_timed (sys_sleep (get_time_ms_ time) ms))
  | SysYield => value_after_switch (on_sys sys_yield)
  | SysKill pid signal => value (on_world_ (sys_kill pid signal))
  | SysSetpgid pid pgid => value (on_world_ (sys_setpgid pid pgid))
  | SysGetpgrp => value (on_sys sys_getpgrp)
  | SysTcsetpgrp _ pgrp => value (on_sys (sys_tcsetpgrp pgrp))
  | SysTcgetpgrp _ => value (on_sys sys_tcgetpgrp)
  | SysTtyCtl _ cmd arg => value (on_sys (on_console (sys_tty_ctl cmd arg)))
  | SysSigaction signal act => value (on_world_ (sys_sigaction signal act))
  | SysListApps buf len => value (on_sys (sys_list_apps fs buf len))
  | SysGetTime => value (mret (as_isize (get_time_ms_ time)))
  | SysGetpid => value (on_sys sys_getpid)
  | SysMunmap start len => value (on_sys (sys_munmap start len))
  | SysFork => value fork_call
  | SysExec path args => value (on_sys (sys_exec fs sym ElfFile_new user_sstatus trap_handler_va str_fuel file_fuel path args))
  | SysMmap start len prot => value (on_sys (sys_mmap start len prot))
  | SysWaitpid pid exit_code_ptr options => value (on_world_ (sys_waitpid INITPROC pid exit_code_ptr options))
  | SysSetPriority pid priority => value (on_world_ (sys_set_priority pid priority))
  | SysGetPriority pid => value (on_world_ (sys_get_priority pid))
  | SysGetSchedStats pid stats_ptr => value (on_sys (sys_get_sched_stats pid stats_ptr))
  | SysThreadCreate entry arg => value (on_world_ (sys_thread_create user_sstatus trap_handler_va entry arg))
  | SysGettid => value (on_world_ sys_gettid)
  | SysWaittid tid => value (on_world_ (sys_waittid tid))
  | SysMutexCreate blocking => value (on_sync (sys_mutex_create blocking))
  | SysMutexLock mutex_id => lock_next mutex_id
  | SysMutexUnlock mutex_id => value (on_sync (sys_mutex_unlock mutex_id))
  | SysSemaphoreCreate res_count => value (on_sync (sys_semaphore_create res_count))
  | SysSemaphoreUp sem_id => value (on_sync (sys_semaphore_up sem_id))
  | SysSemaphoreDown sem_id =>
      on_world_ hold_process;;
      r ← on_sync (sys_semaphore_down sem_id);
      mret (match snd r with Go => Continue (KDone (fst r)) | _ => Leave (KDone (fst r)) end)
  | SysCondvarCreate => value (on_sync sys_condvar_create)
  | SysCondvarSignal condvar_id => value (on_sync (sys_condvar_signal condvar_id))
  | SysCondvarWait condvar_id mutex_id => on_world_ hold_process;; on_sync (sys_condvar_wait condvar_id mutex_id);; mret (Leave (KLock mutex_id))
  | SysFramebuffer => value sys_framebuffer
  | SysFramebufferFlush => value (mret 0)
  | SysEventGet => sys_event_get
  | SysKeyPressed => value sys_key_pressed
  end.

(** *** The interrupt handlers *)

Definition VIRT_PLIC : Z := 0xC000000.

(** [tty::handle_uart_irq] drains the buffer of the port. *)
Definition drain_uart : M Os unit :=
  bytes ← gets (fun o => ua_read_buffer (os_uart o));
  modify (fun o => put_uart (set_read_buffer [] (os_uart o)) o);;
  on_sys (on_console (handle_uart_irq bytes)).

Definition irq_handler (irq : Irq) : M Os unit :=
  let src := iq_source irq in
  (if src =? 5 then on_keyboard (Input_handle_irq (iq_events irq))
   else if src =? 6 then on_mouse (Input_handle_irq (iq_events irq))
   else if src =? 8 then on_blk (VirtIOBlock_handle_irq (iq_used irq))
   else if src =? 10 then
     modify (fun o => let u := os_uart o in
       put_uart (mkUart (ua_rbr u ++ iq_bytes irq) (ua_ier u) (ua_mcr u) (ua_thr u) (ua_read_buffer u) (ua_condvar u)) o);;
     on_uart UART_handle_irq;;
     drain_uart
   else panic);;
  on_plic (Plic.complete VIRT_PLIC 0 Plic.Supervisor src).

(** The time of the scheduler moves on with the clock. *)
Definition at_time {A : Type} (time : Z) (m : M Os A) : M Os A :=
  on_kern_ (with_tasks (modify (fun s => mkTasks (get_time_ticks time clock_freq) (tk_table s))));; m.

(** *** The trap handler *)

Definition trap_handler (trap : Trap) (time : Z) (irq : Irq) : M Os next :=
  match trap with
  | UserEnvCall =>
      sepc ← read_cx SEPC_WORD;
      write_cx SEPC_WORD (usize_wrap (sepc + 4));;
      x17 ← read_cx 17;
      x10 ← read_cx 10;
      x11 ← read_cx 11;
      x12 ← read_cx 12;
      c ← unwrap (Abi.decode x17 x10 x11 x12);
      syscall time c
  | StorePageFault stval =>
      r ← on_sys this_process;
      let '(pid, p) := r in
      e ← on_world_ (on_machine (MemorySet_handle_cow_fault (pcb_memory_set p) (VirtAddr_from_usize stval)));
      on_world_ (put_pcb pid (set_memory (snd e) (pcb_task_res_allocator p) p));;
      (if negb (fst e) then on_world_ (current_add_signal SIGSEGV) else mret tt);;
      mret (Continue KSignals)
  | StoreFault | InstructionFault | InstructionPageFault | LoadFault | LoadPageFault =>
      on_world_ (current_add_signal SIGSEGV);; mret (Continue KSignals)
  | IllegalInstruction => on_world_ (current_add_signal SIGILL);; mret (Continue KSignals)
  | SupervisorTimer =>
      on_timed (check_timer (get_time_ms_ time));;
      preempt ← on_kern_ on_current_task_timer_tick;
      if preempt : bool then on_kern_ suspend_current_and_run_next;; mret (Leave KSignals) else mret (Continue KSignals)
  | SupervisorExternal => irq_handler irq;; mret (Continue KSignals)
  | Unsupported => panic
  end.

Definition trap_from_kernel (trap : Trap) (time : Z) (irq : Irq) : M Os unit :=
  match trap with
  | SupervisorExternal => irq_handler irq
  | SupervisorTimer => on_timed (check_timer (get_time_ms_ time));; on_kern_ on_current_task_timer_tick;; mret tt
  | _ => panic
  end.

(** [trap_return] needs the user resources of the thread and its process. *)
Definition trap_return : M Os unit :=
  on_world_ (t ← current_thread; th ← get_thread t; unwrap (th_res th);; current_process;; mret tt).

(** *** The rest of a trap *)

Definition run_kont (k : Kont) : M Os next :=
  match k with
  | KIo call => r ← on_sys (io_step fs is_utf8 call); io_next r
  | KEvent keyboard => o ← read_event keyboard; mret (event_next keyboard o)
  | KAccept port_index => o ← on_sys (on_net (accept_wait port_index)); mret (accept_next port_index o)
  | KLock mutex_id => lock_next mutex_id
  | KDone result =>
      on_world_ release_process;;
      write_cx 10 (usize_wrap result);;
      preempt ← on_kern_ should_preempt_current_task;
      if preempt : bool then on_kern_ suspend_current_and_run_next;; mret (Leave KSignals) else mret (Continue KSignals)
  | KSignals =>
      stop ← on_world_ check_stop_signal_of_current;
      if stop : bool then on_world_ stop_current_and_run_next;; mret (Leave KAfterStop) else mret (Continue KAfterStop)
  | KAfterStop =>
      on_world_ clear_cont_signal_of_current;;
      o ← on_world_ check_signals_of_current;
      match o with
      | Some errno => r ← on_sys (sys_exit INITPROC errno); mret (Over r)
      | None => mret (Continue KReturn)
      end
  | KReturn => trap_return;; mret ToUser
  end.

(** ** The hart *)

Inductive Mode :=
  | User
  | Kernel_ (k : Kont)
  | Idle
  | Halted (failure : bool).

Record Hart := mkHart { ha_os : Os; ha_mode : Mode; ha_konts : gmap Z Kont }.

Definition on_os {A : Type} (f : M Os A) : M Hart A := fun h =>
  match f (ha_os h) with Ok (a, o) => Ok (a, mkHart o (ha_mode h) (ha_konts h)) | Err e => Err e end.
Definition set_mode (m : Mode) : M Hart unit := modify (fun h => mkHart (ha_os h) m (ha_konts h)).

(** The thread [t] is done with a piece of its trap. *)
Definition after_piece (t : Z) (n : next) : M Hart unit :=
  match n with
  | Continue k => set_mode (Kernel_ k)
  | Leave k => modify (fun h => mkHart (ha_os h) Idle (<[t := k]> (ha_konts h)))
  | ToUser => set_mode User
  | Over Exited => set_mode Idle
  | Over (Shutdown failure) => set_mode (Halted failure)
  end.

(** What happens next: a trap of the user program, with its registers, or an
    interrupt; a step of the thread in the kernel; a round of the idle loop. *)
Inductive stimulus :=
  | TrapUser (trap : Trap) (time : Z) (irq : Irq) (regs : Z -> Z) (sstatus sepc : Z)
  | TrapKernel (trap : Trap) (time : Z) (irq : Irq)
  | Step.

Definition current_task_id : M Hart Z := c ← gets (fun h => kn_current (os_kernel (ha_os h))); unwrap c.

Definition hart_step (st : stimulus) : M Hart unit :=
  mode ← gets ha_mode;
  match st, mode with
  | TrapUser trap time irq regs sstatus sepc, User =>
      t ← current_task_id;
      n ← on_os (alltraps regs sstatus sepc;; at_time time (trap_handler trap time irq));
      after_piece t n
  | TrapKernel trap time irq, Kernel_ _ => on_os (at_time time (trap_from_kernel trap time irq))
  | TrapKernel trap time irq, Idle => on_os (at_time time (trap_from_kernel trap time irq))
  | Step, Kernel_ k =>
      t ← current_task_id;
      n ← on_os (run_kont k);
      after_piece t n
  | Step, Idle =>
      o ← on_os (on_kern_ run_tasks);
      match o with
      | Some t => ks ← gets ha_konts; set_mode (Kernel_ (default KReturn (ks !! t)))
      | None => mret tt
      end
  | _, _ => mret tt
  end.

End Trap.
