(* ===== verification/TrapProps.v ===== *)
(** * Traps: properties

    How the end of a trap treats the signals of its process, and how a system
    call gets from the registers of the user to its handler. *)

From S2P Require Import Prelude Address FrameAllocator PageTable MemorySet Ids Scheduler Processor Pipe Sync Process ProcessTree ProcessProps BlockCache Layout Efs Vfs Files FileTree Net NetProps Tty Timer Syscalls Devices UserSyscall Abi Trap.
From stdpp Require Import gmap.
Open Scope Z_scope.

(** ** Signals as bits *)



Section Props.
Context {T H : Type} `{Scheduler T} `{BinaryHeap H} `{NetStack}.
Context (fs : EasyFileSystem) (sym : LinkerSymbols) (ElfFile_new : list Z -> option ElfFile) (user_sstatus trap_handler_va : Z) (INITPROC : Z).
Context (str_fuel file_fuel rename_fuel : nat) (is_utf8 : list Z -> bool).
Context (fb_address fb_len clock_freq : Z).
Abbreviation Os := (Os (T := T) (H := H)).
Implicit Types o : Os.

(** ** The lenses *)

Lemma run_mbind {S A B} (m : M S A) (k : A -> M S B) s a s1 : m s = Ok (a, s1) -> (m ≫= k) s = k a s1.
Proof. intros E. unfold mbind, M_bind. by rewrite E. Qed.

Lemma on_world_eq {A} (f : M (World T) A) o :
  on_world_ f o = match f (os_world o) with Ok (a, w) => Ok (a, put_world w o) | Err e => Err e end.
Proof. unfold on_world_, on_sys, on_proc, on_console, on_world, os_world, put_world. by destruct (f _) as [[a w]|]. Qed.

Lemma on_world_Ok {A} (f : M (World T) A) o a w : f (os_world o) = Ok (a, w) -> on_world_ f o = Ok (a, put_world w o).
Proof. intros E. by rewrite on_world_eq, E. Qed.


Lemma put_world_id o : put_world (os_world o) o = o.
Proof. by destruct o as [[[]]]. Qed.

(** ** The current thread *)

(** Thread [t] of process [pid] is on the hart. *)
Record running (w : World T) (t : Z) (th : Thread) (p : ProcessControlBlockInner) : Prop := {
  rn_current : kn_current (w_kernel w) = Some t;
  rn_thread : w_threads w !! t = Some th;
  rn_process : w_procs w !! th_process th = Some p
}.




Lemma run_current (w : World T) t : kn_current (w_kernel w) = Some t -> current_thread w = Ok (t, w).
Proof. intros E. unfold current_thread, current_task, on_kern, gets, mbind, M_bind. rewrite E. cbn. by destruct w as [[]]. Qed.

Section Running.
Context (w : World T) (t : Z) (th : Thread) (p : ProcessControlBlockInner) (Hr : running w t th p).








End Running.

(** ** The end of a trap *)






(** ** The trap context *)

Definition os_machine o : Machine := ks_machine (w_memory (os_world o)).
Definition put_machine (m : Machine) o : Os :=
  let w := os_world o in
  let k := w_memory w in
  put_world (put_memory (mkKernel m (ks_kernel_space k) (ks_kstack_allocator k)) w) o.

(** The word at [k] from a page on. *)
Definition cx_word (m : Machine) (ppn k : Z) : Z := le_val (map (fun i => read_phys m (trap_cx_word ppn k + i)) (seqZ 0 8)).

(** A write of a word changes no other. *)
Lemma write_word ppn k v m : is_usize v ->
  wp (write_usize (trap_cx_word ppn k) v) (fun _ m' => forall k', cx_word m' ppn k' = if decide (k' = k) then v else cx_word m ppn k') m.
Proof using.
  intros Hv. destruct (wp_run _ _ _ (write_usize_spec (trap_cx_word ppn k) v m Hv)) as ([] & m' & E & Hr).
  eapply run_wp; [exact E|]. intros k'. case_decide as Hk.
  - subst k'. unfold read_usize, get, mbind, M_bind in Hr. by injection Hr.
  - pose proof (wp_Ok _ _ _ _ _ (write_bytes_at_spec (trap_cx_word ppn k) (le_bytes 8 v) m) E) as Hm. cbv beta in Hm.
    unfold cx_word. f_equal. apply map_ext_in. intros i Hi. apply list_elem_of_In, elem_of_seqZ in Hi. rewrite Hm, length_le_bytes.
    rewrite decide_False; [done|]. unfold trap_cx_word. lia.
Qed.

Section Context_.
Context (t : Z) (th : Thread).
Let ppn := th_trap_cx_ppn th.

(** The thread on the hart, whatever the memory. *)
Definition on_hart o : Prop := kn_current (os_kernel o) = Some t /\ w_threads (os_world o) !! t = Some th.

Lemma on_hart_machine m o : on_hart o -> on_hart (put_machine m o).
Proof using. done. Qed.
Lemma put_machine_machine m m' o : put_machine m (put_machine m' o) = put_machine m o.
Proof using. done. Qed.
Lemma put_machine_id o : put_machine (os_machine o) o = o.
Proof using. destruct o as [[[w ? ? ?] ? ? ?] ? ? ? ? ? ? ?]. destruct w as [? ? ? ? ? ? k ? ?]. by destruct k. Qed.

Lemma run_cx_ppn o : on_hart o -> current_trap_cx_ppn o = Ok (ppn, o).
Proof using.
  intros [Hc Ht]. unfold current_trap_cx_ppn. transitivity (Ok (ppn, put_world (os_world o) o)); [|by rewrite put_world_id].
  apply on_world_Ok. rewrite (run_mbind _ _ _ _ _ (run_current _ _ Hc)). unfold get_thread, gets, mbind, M_bind. by rewrite Ht.
Qed.

Lemma run_on_machine {A} (f : M Machine A) o a m : f (os_machine o) = Ok (a, m) -> on_world_ (on_machine f) o = Ok (a, put_machine m o).
Proof using. intros E. rewrite on_world_eq. unfold on_machine, on_memory. fold (os_machine o). by rewrite E. Qed.

Lemma run_read_cx o k : on_hart o -> read_cx k o = Ok (cx_word (os_machine o) ppn k, o).
Proof using.
  intros Ho. unfold read_cx. rewrite (run_mbind _ _ _ _ _ (run_cx_ppn o Ho)).
  rewrite (run_on_machine (read_usize (trap_cx_word ppn k)) o (cx_word (os_machine o) ppn k) (os_machine o) eq_refl). by rewrite put_machine_id.
Qed.

Lemma run_write_cx o k v : on_hart o -> is_usize v ->
  exists m, write_cx k v o = Ok (tt, put_machine m o) /\
    forall k', cx_word m ppn k' = if decide (k' = k) then v else cx_word (os_machine o) ppn k'.
Proof using.
  intros Ho Hv. destruct (wp_run _ _ _ (write_word ppn k v (os_machine o) Hv)) as ([] & m & E & Hm). exists m. split; [|exact Hm].
  unfold write_cx. rewrite (run_mbind _ _ _ _ _ (run_cx_ppn o Ho)). by apply run_on_machine.
Qed.

Lemma run_write_all (f : Z -> Z) ks o : on_hart o -> (forall k, is_usize (f k)) ->
  exists m, mfor ks (fun k => write_cx k (f k)) o = Ok (tt, put_machine m o) /\
    forall k, cx_word m ppn k = if decide (k ∈ ks) then f k else cx_word (os_machine o) ppn k.
Proof using.
  intros Ho Hf. revert o Ho. induction ks as [|k ks IH]; intros o Ho.
  - exists (os_machine o). rewrite put_machine_id. split; [done|]. intros k. rewrite decide_False; [done|apply not_elem_of_nil].
  - destruct (run_write_cx o k (f k) Ho (Hf k)) as (m1 & E1 & Hm1).
    destruct (IH (put_machine m1 o) (on_hart_machine _ _ Ho)) as (m2 & E2 & Hm2). exists m2. split.
    + cbn [mfor]. rewrite (run_mbind _ _ _ _ _ E1), E2. by rewrite put_machine_machine.
    + intros k'. rewrite Hm2. change (os_machine (put_machine m1 o)) with m1. rewrite Hm1.
      destruct (decide (k' ∈ ks)) as [Hin|Hin]; [by rewrite decide_True by (by right)|]. destruct (decide (k' = k)) as [->|Hne].
      * by rewrite decide_True by left.
      * by rewrite decide_False by (by intros [?|?]%elem_of_cons).
Qed.

(** What [__alltraps] and the step over the [ecall] make of a word. *)
Definition saved_word (regs : Z -> Z) (sstatus sepc : Z) (old : Z -> Z) (k : Z) : Z :=
  if decide (k ∈ saved_registers) then regs k
  else if decide (k = SSTATUS_WORD) then sstatus
  else if decide (k = SEPC_WORD) then usize_wrap (sepc + 4)
  else old k.

Lemma run_alltraps regs sstatus sepc o : on_hart o -> (forall k, is_usize (regs k)) -> is_usize sstatus -> is_usize sepc ->
  exists m, alltraps regs sstatus sepc o = Ok (tt, put_machine m o) /\
    forall k, cx_word m ppn k = if decide (k = SEPC_WORD) then sepc else saved_word regs sstatus sepc (cx_word (os_machine o) ppn) k.
Proof using.
  intros Ho Hr Hs Hp. unfold alltraps. destruct (run_write_all regs saved_registers o Ho Hr) as (m1 & E1 & Hm1).
  destruct (run_write_cx (put_machine m1 o) SSTATUS_WORD sstatus (on_hart_machine _ _ Ho) Hs) as (m2 & E2 & Hm2).
  destruct (run_write_cx (put_machine m2 o) SEPC_WORD sepc (on_hart_machine _ _ Ho) Hp) as (m3 & E3 & Hm3). exists m3. split.
  - rewrite (run_mbind _ _ _ _ _ E1), (run_mbind _ _ _ _ _ E2). exact E3.
  - intros k. rewrite Hm3. case_decide; [done|]. change (os_machine (put_machine m2 o)) with m2. rewrite Hm2.
    change (os_machine (put_machine m1 o)) with m1. rewrite Hm1. unfold saved_word.
    destruct (decide (k = SSTATUS_WORD)) as [->|]; [rewrite decide_False; [done|by apply (bool_decide_eq_false_1 _); vm_compute]|].
    destruct (decide (k ∈ saved_registers)); [done|]. by rewrite decide_False by done.
Qed.

(** The clock of the scheduler at a trap. *)
Definition put_clock (time : Z) o : Os :=
  let k := os_kernel o in
  set_kernel (mkKern (kn_sched k) (mkTasks (get_time_ticks time clock_freq) (tk_table (kn_tasks k))) (kn_current k)) o.

Lemma run_at_time {A} time (f : M Os A) o : at_time clock_freq time f o = f (put_clock time o).
Proof using. unfold at_time. by erewrite run_mbind. Qed.

Lemma run_on_os {A B} (f : M Os A) (k : A -> M (Hart (T := T) (H := H)) B) h :
  (a ← on_os f; k a) h = match f (ha_os h) with Ok (a, o) => k a (mkHart o (ha_mode h) (ha_konts h)) | Err e => Err e end.
Proof using. unfold on_os, mbind, M_bind. by destruct (f _) as [[a o]|]. Qed.

End Context_.

End Props.


(** C11: a system call of the library reaches its handler.  When the thread on
    the hart executes [ecall] with the registers the library loads for the
    call [c], whose arguments have their types, one step of the machine saves
    the user registers but x0 and x4, sstatus, and the address after the
    instruction in its trap context; changes no other word of memory; and then
    runs the kernel's handler of exactly [c].  What the handler returns decides
    whether the thread goes on, gives up the hart or ends. *)
Theorem ecall_reaches_handler {T H} `{Scheduler T} `{BinaryHeap H} `{NetStack} fs sym elf user_sstatus trap_handler_va INITPROC
    str_fuel file_fuel rename_fuel is_utf8 fb_address fb_len clock_freq (h : Hart (T := T) (H := H)) t th c time irq regs sstatus sepc :
  ha_mode h = User -> on_hart t th (ha_os h) -> well_typed c ->
  request c = mkEcall (regs 17) (regs 10) (regs 11) (regs 12) ->
  (forall k, is_usize (regs k)) -> is_usize sstatus -> is_usize sepc ->
  exists m,
    hart_step fs sym elf user_sstatus trap_handler_va INITPROC str_fuel file_fuel rename_fuel is_utf8 fb_address fb_len clock_freq
      (TrapUser UserEnvCall time irq regs sstatus sepc) h =
    (n ← on_os (syscall fs sym elf user_sstatus trap_handler_va INITPROC str_fuel file_fuel rename_fuel fb_address fb_len clock_freq time c);
     after_piece t n) (mkHart (put_clock clock_freq time (put_machine m (ha_os h))) User (ha_konts h)) /\
    forall k, cx_word m (th_trap_cx_ppn th) k =
      saved_word regs sstatus sepc (cx_word (os_machine (ha_os h)) (th_trap_cx_ppn th)) k.
Proof.
  intros Hm Ho Hc Hreq Hr Hs Hp. destruct (run_alltraps t th regs sstatus sepc _ Ho Hr Hs Hp) as (m1 & E1 & Hm1).
  set (o1 := put_clock clock_freq time (put_machine m1 (ha_os h))). assert (on_hart t th o1) as Ho1 by exact Ho.
  assert (is_usize (usize_wrap (sepc + 4))) as Hp4 by (unfold is_usize, usize_wrap; apply Z.mod_pos_bound; lia).
  destruct (run_write_cx t th o1 SEPC_WORD _ Ho1 Hp4) as (m2 & E2 & Hm2).
  assert (forall k, cx_word m2 (th_trap_cx_ppn th) k = saved_word regs sstatus sepc (cx_word (os_machine (ha_os h)) (th_trap_cx_ppn th)) k) as Hw.
  { intros k. rewrite Hm2. change (os_machine o1) with m1. rewrite Hm1. case_decide as Hk; [|done]. by subst k. }
  exists m2. split; [|exact Hw]. set (o2 := put_machine m2 o1) in E2. assert (on_hart t th o2) as Ho2 by exact Ho.
  assert (forall k, bool_decide (k ∈ saved_registers) = true -> read_cx k o2 = Ok (regs k, o2)) as Hread.
  { intros k Hk%bool_decide_eq_true. rewrite (run_read_cx t th o2 k Ho2). change (os_machine o2) with m2. rewrite Hw. unfold saved_word. by rewrite decide_True. }
  unfold hart_step. rewrite (run_mbind _ _ h (ha_mode h) h eq_refl), Hm.
  assert (current_task_id h = Ok (t, h)) as Et.
  { unfold current_task_id, gets, mbind, M_bind. destruct Ho as [Hcur _]. by rewrite Hcur. }
  rewrite (run_mbind _ _ _ _ _ Et). change (put_clock clock_freq time (put_machine m2 (ha_os h))) with o2.
  rewrite !run_on_os. cbn [ha_os ha_mode ha_konts]. rewrite (run_mbind _ _ _ _ _ E1), run_at_time. fold o1.
  cbn [trap_handler]. rewrite (run_mbind _ _ _ _ _ (run_read_cx t th o1 SEPC_WORD Ho1)). change (os_machine o1) with m1.
  rewrite Hm1, decide_True by done. rewrite (run_mbind _ _ _ _ _ E2). fold o2.
  rewrite (run_mbind _ _ _ _ _ (Hread 17 eq_refl)), (run_mbind _ _ _ _ _ (Hread 10 eq_refl)), (run_mbind _ _ _ _ _ (Hread 11 eq_refl)), (run_mbind _ _ _ _ _ (Hread 12 eq_refl)).
  pose proof (request_decodes c Hc) as Ed. unfold received in Ed. rewrite Hreq in Ed. cbn [ec_x17 ec_x10 ec_x11 ec_x12] in Ed. rewrite Ed.
  rewrite (run_mbind _ _ o2 c o2 eq_refl), Hm. reflexivity.
Qed.

(** ** Examples *)

(** The first process of [demo_2] is on the hart; no device has anything. *)
#[local] Existing Instance demo_stack.
Abbreviation DemoOs := (Os (T := PriorityScheduler) (H := list TimerCondVar)).
Definition demo_os (w : World PriorityScheduler) : DemoOs :=
  mkOs (mkSystem (mkConsole w TtyInner_new (mkCondvar []) []) tree_store ∅ (mkNet [] [] [] [])) [] ∅
    (mkInput [] (mkCondvar [])) (mkInput [] (mkCondvar [])) (mkUart [] 0 0 [] [] (mkCondvar [])) ∅ ∅.


Lemma demo_running : exists th p ti, running demo_2 0 th p /\ tk_table (kn_tasks (w_kernel demo_2)) !! 0 = Some ti /\ th_res th <> None /\ th_process th = 1.
Proof.
  assert (exists th, w_threads demo_2 !! 0 = Some th /\ th_res th <> None /\ th_process th = 1) as (th & Hth & Hres & Hpid)
    by (eexists; split; [vm_compute; reflexivity|done]).
  assert (exists ti, tk_table (kn_tasks (w_kernel demo_2)) !! 0 = Some ti) as [ti Hti] by (eexists; vm_compute; reflexivity).
  assert (exists p, w_procs demo_2 !! 1 = Some p) as [p Hp] by (eexists; vm_compute; reflexivity).
  exists th, p, ti. split; [|split; [exact Hti|split; [exact Hres|exact Hpid]]]. split; [vm_compute; reflexivity|exact Hth|]. rewrite Hpid. exact Hp.
Qed.


(** The library's kill(-3, SIGTSTP), from user code at 0x1000. *)
Definition kill_registers (k : Z) : Z :=
  if k =? 17 then SYSCALL_KILL else if k =? 10 then usize_wrap (-3) else if k =? 11 then Z.shiftl 1 20 else if k =? 12 then 0 else 100 + (k mod 32).

Lemma kill_registers_usize k : is_usize (kill_registers k).
Proof.
  unfold kill_registers, is_usize. pose proof (Z.mod_pos_bound k 32 eq_refl). change (Z.shiftl 1 20) with 1048576.
  change (usize_wrap (-3)) with (2 ^ 64 - 3). change SYSCALL_KILL with 129. repeat case_match; lia.
Qed.

Lemma ecall_reaches_handler_witness : exists th m, w_threads demo_2 !! 0 = Some th /\
  hart_step tree_efs demo_symbols demo_elf 0 0 0 0%nat 0%nat 0%nat (fun _ => true) 0 0 1
    (TrapUser UserEnvCall 5 (mkIrq 0 [] [] []) kill_registers 0 0x1000) (mkHart (demo_os demo_2) User ∅) =
  (n ← on_os (syscall tree_efs demo_symbols demo_elf 0 0 0 0%nat 0%nat 0%nat 0 0 1 5 (SysKill (-3) (Z.shiftl 1 20)));
   after_piece 0 n) (mkHart (put_clock 1 5 (put_machine m (demo_os demo_2))) User ∅) /\
  cx_word m (th_trap_cx_ppn th) 17 = 129 /\ cx_word m (th_trap_cx_ppn th) 33 = 0x1004.
Proof.
  destruct demo_running as (th & p & ti & [Hcur Hth _] & _). set (w := demo_2) in *. clearbody w.
  destruct (ecall_reaches_handler tree_efs demo_symbols demo_elf 0 0 0 0%nat 0%nat 0%nat (fun _ => true) 0 0 1
    (mkHart (demo_os w) User ∅) 0 th (SysKill (-3) (Z.shiftl 1 20)) 5 (mkIrq 0 [] [] []) kill_registers 0 0x1000 eq_refl (conj Hcur Hth))
    as (m & E & Hw).
  - split; [unfold is_isize; lia|unfold is_signal; change (Z.shiftl 1 20) with 1048576; lia].
  - reflexivity.
  - exact kill_registers_usize.
  - unfold is_usize. lia.
  - unfold is_usize. lia.
  - exists th, m. split; [exact Hth|]. split; [exact E|]. split; (etransitivity; [apply Hw|reflexivity]).
Defined.
