(* ===== verification/Descriptors.v ===== *)
(** * Tables of descriptors (the fd_table of os/src/task/process.rs)

    A table is a list with holes; what a process can tell of it is which file
    each descriptor names.  The descriptor calls of the kernel are operations on
    that view: the lowest free descriptor is taken, one descriptor is let go,
    one is copied. *)

From S2P Require Import Prelude PageTable Scheduler Processor Pipe Process.
From stdpp Require Import gmap.
Open Scope Z_scope.

Abbreviation FdTable := (list (option FileRef)).

(** The file of a descriptor, [None] past the end. *)
Definition fd_at (t : FdTable) (n : nat) : option FileRef := mjoin (t !! n).

(** [open], [dup] and [pipe] take the descriptor [alloc_fd] finds. *)
Definition fd_install (f : FileRef) (t : FdTable) : FdTable * nat :=
  let '(t', n) := alloc_fd t in (<[n := Some f]> t', n).
Definition fd_close (n : nat) (t : FdTable) : FdTable := <[n := None]> t.
Definition fd_dup (n : nat) (t : FdTable) : option (FdTable * nat) :=
  match fd_at t n with Some f => Some (fd_install f t) | None => None end.

Lemma fd_at_insert t n o m : (n < length t)%nat -> fd_at (<[n := o]> t) m = if decide (m = n) then o else fd_at t m.
Proof.
  intros Hn. unfold fd_at. case_decide as E; [subst; by rewrite list_lookup_insert_eq|]. by rewrite list_lookup_insert_ne.
Qed.

Lemma fd_at_length t n : (length t <= n)%nat -> fd_at t n = None.
Proof. intros. unfold fd_at. by rewrite lookup_ge_None_2. Qed.

Lemma fd_at_close t n m : fd_at (fd_close n t) m = if decide (m = n) then None else fd_at t m.
Proof.
  unfold fd_close. destruct (decide (n < length t)%nat) as [Hn|Hn]; [by apply fd_at_insert|].
  rewrite list_insert_ge by lia. case_decide; [subst; apply fd_at_length; lia|done].
Qed.

Lemma fd_install_spec f t t' n : fd_install f t = (t', n) ->
  fd_at t n = None /\ (forall m, (m < n)%nat -> fd_at t m <> None) /\ forall m, fd_at t' m = if decide (m = n) then Some f else fd_at t m.
Proof.
  unfold fd_install, alloc_fd. destruct (position free_fd t) as [i|] eqn:E.
  - apply position_Some in E as (o & Ho & Hf & Hlt). intros Ht. injection Ht as <- <-. assert (i < length t)%nat as Hi by (by eapply lookup_lt_Some).
    split; [|split].
    + unfold fd_at. rewrite Ho. by destruct o.
    + intros m Hm. destruct (lookup_lt_is_Some_2 t m ltac:(lia)) as [o' Ho']. specialize (Hlt m o' Hm Ho'). unfold fd_at. rewrite Ho'. by destruct o'.
    + intros m. by apply fd_at_insert.
  - pose proof (proj1 (position_None _ _) E) as Hall. intros Ht. injection Ht as <- <-. split; [|split].
    + apply fd_at_length. lia.
    + intros m Hm. destruct (lookup_lt_is_Some_2 t m Hm) as [o' Ho']. rewrite Forall_lookup in Hall. specialize (Hall m o' Ho'). unfold fd_at. rewrite Ho'. by destruct o'.
    + intros m. rewrite fd_at_insert by (rewrite length_app; cbn; lia). case_decide; [done|]. unfold fd_at.
      destruct (decide (m < length t)%nat); [by rewrite lookup_app_l|]. rewrite (lookup_ge_None_2 (t ++ [None])) by (rewrite length_app; cbn; lia).
      by rewrite lookup_ge_None_2 by lia.
Qed.

(** ** The calls of the kernel *)

Section Kernel.
Context {T : Type} `{Scheduler T}.
Implicit Types w : World T.

(** The process on the hart and its control block. *)
Definition runs w (pid : Z) (p : ProcessControlBlockInner) : Prop :=
  current_process w = Ok (pid, w) /\ w_procs w !! pid = Some p.

(** Its table has become [t]; every other process is as it was. *)
Definition table_becomes w w' (pid : Z) (p : ProcessControlBlockInner) (t : FdTable) : Prop :=
  w_procs w' = <[pid := set_fds t p]> (w_procs w).

Lemma runs_bind {A} w pid p (k : Z -> ProcessControlBlockInner -> M (World T) A) : runs w pid p ->
  (pid ← current_process; p ← get_pcb pid; k pid p) w = k pid p w.
Proof. intros [E1 E2]. unfold mbind, M_bind. rewrite E1. unfold get_pcb, gets, mbind, M_bind. by rewrite E2. Qed.

Lemma clone_file_procs f w w' : clone_file f w = Ok (tt, w') -> w_procs w' = w_procs w.
Proof. destruct f; [by intros [= <-]..| |by intros [= <-]]. unfold clone_file, drop_file, on_pipes. destruct (clone_end p (w_pipes w)) as [[[] h]|]; [by intros [= <-]|done]. Qed.
Lemma drop_file_procs f w w' : drop_file f w = Ok (tt, w') -> w_procs w' = w_procs w.
Proof. destruct f; [by intros [= <-]..| |by intros [= <-]]. unfold clone_file, drop_file, on_pipes. destruct (drop_end p (w_pipes w)) as [[[] h]|]; [by intros [= <-]|done]. Qed.

Lemma kernel_install w pid p f : runs w pid p ->
  exists w', install_file f w = Ok (Z.of_nat (snd (fd_install f (pcb_fd_table p))), w') /\
    table_becomes w w' pid p (fst (fd_install f (pcb_fd_table p))).
Proof.
  intros Hr. unfold install_file. rewrite (runs_bind _ _ _ _ Hr). unfold fd_install. destruct (alloc_fd _) as [t n]. cbn [fst snd]. eexists. split; [reflexivity|done].
Qed.

Lemma kernel_dup w pid p fd r w' : runs w pid p -> sys_dup fd w = Ok (r, w') ->
  match fd_dup (Z.to_nat fd) (pcb_fd_table p) with
  | Some (t, n) => r = Z.of_nat n /\ table_becomes w w' pid p t
  | None => r = -1 /\ w' = w
  end.
Proof.
  intros Hr. unfold sys_dup. rewrite (runs_bind _ _ _ _ Hr). unfold fd_dup, fd_at, fd_install.
  destruct (pcb_fd_table p !! Z.to_nat fd) as [[f|]|]; cbn [mjoin option_join]; [|by intros [= <- <-]..].
  destruct (alloc_fd _) as [t n]. unfold mbind, M_bind. destruct (clone_file f w) as [[[] w1]|] eqn:E; [|done]. cbn. intros [= <- <-]. split; [done|].
  unfold table_becomes. cbn. by rewrite (clone_file_procs _ _ _ E).
Qed.

Lemma kernel_close w pid p fd r w' : runs w pid p -> sys_close fd w = Ok (r, w') ->
  match fd_at (pcb_fd_table p) (Z.to_nat fd) with
  | Some _ => r = 0 /\ table_becomes w w' pid p (fd_close (Z.to_nat fd) (pcb_fd_table p))
  | None => r = -1 /\ w' = w
  end.
Proof.
  intros Hr. unfold sys_close. rewrite (runs_bind _ _ _ _ Hr). unfold fd_at.
  destruct (pcb_fd_table p !! Z.to_nat fd) as [[f|]|]; cbn [mjoin option_join]; [|by intros [= <- <-]..].
  unfold mbind at 1, M_bind at 1. cbn [put_pcb modify]. unfold mbind, M_bind. destruct (drop_file f _) as [[[] w1]|] eqn:E; [|done]. cbn. intros [= <- <-]. split; [done|].
  unfold table_becomes. by rewrite (drop_file_procs _ _ _ E).
Qed.

End Kernel.
