(* ===== verification/ShellJobs.v ===== *)
(** * Jobs and pipelines of the user shell (user/src/bin/user_shell.rs)

    The shell is a client of the system calls: [UserCalls] is what it uses of
    them, on a state [E] of the world outside the shell.  [call_fork child] runs
    [child] in the new process and goes on in the parent.  A string is the list
    of its characters. *)

From Stdlib Require Import String Ascii.
From stdpp Require Import pretty.
From S2P Require Import Prelude Shell LineEditor.
Open Scope Z_scope.

(** How a process of the shell leaves its code: [exit], or a new program. *)
Inductive proc_end :=
  | EndExit (code : Z)
  | EndExec (path : list Z) (args : list (list Z)).

Class UserCalls (E : Type) := {
  call_pipe : M E (Z * Z);
  call_fork : M E proc_end -> M E Z;
  call_setpgid : Z -> Z -> M E Z;
  call_open : list Z -> Z -> M E Z;
  call_close : Z -> M E Z;
  call_dup : Z -> M E Z;
  (** [true]: the process runs the program now. *)
  call_exec : list Z -> list (list Z) -> M E bool;
  call_write : Z -> list Z -> M E Z;
  call_tcsetpgrp : Z -> Z -> M E Z;
  call_tty_ctl : Z -> Z -> Z -> M E Z;
  (** The result, and the code that was written. *)
  call_waitpid : Z -> Z -> M E (Z * option Z);
  call_kill : Z -> Z -> M E Z;
  call_sleep : Z -> M E unit;
  call_chdir : list Z -> M E Z;
  (** The characters of the path, when the call succeeds and they are UTF-8. *)
  call_getcwd : M E (option (list Z));
  call_getpgrp : M E Z;
  call_sigaction : Z -> Z -> M E Z
}.

(** ** Text *)

(** [{}] of a number. *)
Definition show (n : Z) : list Z := chars (pretty n).
(** [{:>4}]. *)
Definition show4 (n : Z) : list Z := replicate (4 - length (show n)) 32 ++ show n.
Definition NEWLINE : list Z := [10].

Definition nul (s : list Z) : list Z := s ++ [0].

(** [str::parse::<usize>]. *)
Fixpoint parse_digits (acc : Z) (s : list Z) : option Z :=
  match s with
  | [] => Some acc
  | c :: s' =>
      if (48 <=? c) && (c <=? 57) then
        let acc' := acc * 10 + (c - 48) in
        if acc' <? 2 ^ 64 then parse_digits acc' s' else None
      else None
  end.
Definition parse_usize (s : list Z) : option Z :=
  match s with
  | [] => None
  | c :: s' => if c =? 43 then (if is_empty s' then None else parse_digits 0 s') else parse_digits 0 s
  end.

Definition strip_minus (s : list Z) : option (list Z) :=
  match s with c :: s' => if c =? 45 then Some s' else None | [] => None end.
Definition is_ascii_digit (c : Z) : bool := (48 <=? c) && (c <=? 57).
Definition to_ascii_uppercase (s : list Z) : list Z := map (fun c => if (97 <=? c) && (c <=? 122) then c - 32 else c) s.

(** [str::trim]. *)
Fixpoint trim_start (s : list Z) : list Z :=
  match s with c :: s' => if is_whitespace c then trim_start s' else s | [] => [] end.
Definition trim (s : list Z) : list Z := rev (trim_start (rev (trim_start s))).

(** ** The shell *)

Definition SIGINT_BITS : Z := Z.shiftl 1 2.
Definition SIGTSTP_BITS : Z := Z.shiftl 1 20.
Definition SIGCONT_BITS : Z := Z.shiftl 1 21.
Definition WUNTRACED : Z := 1.
(** The flags of [open] in the user library. *)
Definition FLAG_RDONLY : Z := 0.
Definition FLAG_WRONLY : Z := Z.shiftl 1 0.
Definition FLAG_CREATE : Z := Z.shiftl 1 9.
Definition FLAG_APPEND : Z := Z.shiftl 1 14.

Inductive JobStatus := JobRunning | JobStopped | JobDone (code : Z).
Inductive WaitResult := Reaped (code : Z) | WaitStopped.

Record Job := mkJob { jb_jid : Z; jb_pgid : Z; jb_pids : list Z; jb_cmdline : list Z; jb_status : JobStatus }.
Record Shell := mkShell {
  sh_history : list (list Z); sh_jobs : list Job; sh_next_jid : Z; sh_pgrp : Z; sh_history_cleared : bool
}.
Definition Shell_new (shell_pgrp : Z) : Shell := mkShell [] [] 1 shell_pgrp false.

Definition set_jobs (l : list Job) (sh : Shell) : Shell :=
  mkShell (sh_history sh) l (sh_next_jid sh) (sh_pgrp sh) (sh_history_cleared sh).
Definition set_status (st : JobStatus) (j : Job) : Job := mkJob (jb_jid j) (jb_pgid j) (jb_pids j) (jb_cmdline j) st.
Definition set_pids (pids : list Z) (j : Job) : Job := mkJob (jb_jid j) (jb_pgid j) pids (jb_cmdline j) (jb_status j).

Definition is_done (j : Job) : bool := match jb_status j with JobDone _ => true | _ => false end.

Section Env.
Context {E : Type} `{UserCalls E}.

Definition print (s : list Z) : M E unit := call_write 1 s;; mret tt.
Definition println (s : list Z) : M E unit := print (s ++ NEWLINE).

(** *** Waiting *)

Definition no_fuel : M E WaitResult := fun _ => Err NoFuel.
(** [*exit_code] is the code of the caller until the call writes one. *)
Fixpoint wait_foreground (fuel : nat) (pid exit_code : Z) : M E WaitResult :=
  match fuel with
  | O => no_fuel
  | S fuel =>
      r ← call_waitpid pid WUNTRACED;
      let exit_code := default exit_code (snd r) in
      if fst r =? -2 then call_sleep 2;; wait_foreground fuel pid exit_code
      else if fst r =? -3 then mret WaitStopped
      else mret (Reaped exit_code)
  end.

(** The loop over the processes of a job: those that are gone, and the last
    code. *)
Definition reap_pids (pids : list Z) : M E (list Z * Z) :=
  mfold (fun acc pid =>
    r ← call_waitpid pid 0;
    if (fst r =? as_isize pid) || (fst r =? -1) then mret (fst acc ++ [pid], default 0 (snd r)) else mret acc) ([], 0) pids.

(** One round of the loop over the jobs. *)
Definition reap_job (j : Job) : M E Job :=
  r ← reap_pids (jb_pids j);
  let '(finished, last_code) := r in
  let pids := List.filter (fun p => negb (bool_decide (p ∈ finished))) (jb_pids j) in
  mret (if is_empty pids then set_status (JobDone last_code) (set_pids pids j) else set_pids pids j).

Fixpoint reap_loop (jobs : list Job) : M E (list Job) :=
  match jobs with
  | [] => mret []
  | j :: jobs' => j' ← reap_job j; rest ← reap_loop jobs'; mret (j' :: rest)
  end.

(** The lines for the jobs that are done; a job that was done before is not in
    the table. *)
Definition report_done (j : Job) : M E unit :=
  match jb_status j with
  | JobDone code => println (chars "[" ++ show (jb_jid j) ++ chars "]+ Done (" ++ show code ++ chars ") " ++ jb_cmdline j)
  | _ => mret tt
  end.

(** *** A stage in its process *)

(** One of the three redirections: [Some] when the process has ended. *)
Definition redirect_to (file : option (list Z)) (flags target : Z) : M E (option proc_end) :=
  match file with
  | None => mret None
  | Some path =>
      let path := nul path in
      fd ← call_open path flags;
      if fd =? -1 then println (chars "shell: cannot open " ++ path);; mret (Some (EndExit 1))
      else
        let fd := usize_wrap fd in
        call_close target;;
        d ← call_dup fd;
        massert (d =? target);;
        call_close fd;;
        mret None
  end.

(** [match r { Some(end) => end, None => m }]. *)
Definition or_end (m : M E (option proc_end)) (k : M E proc_end) : M E proc_end :=
  r ← m; match r with Some e => mret e | None => k end.

Definition output_flags (append : bool) : Z :=
  let flags := Z.lor FLAG_CREATE FLAG_WRONLY in if append then Z.lor flags FLAG_APPEND else flags.

Definition builtin_echo (args : list (list Z)) (output : option (list Z)) (append : bool) : M E unit :=
  let s := concat (imap (fun i arg => (if (0 <? i)%nat then [32] else []) ++ arg) args) in
  match output with
  | Some path =>
      let path := nul path in
      fd ← call_open path (output_flags append);
      if fd =? -1 then println (chars "shell: cannot open " ++ path)
      else
        let fd := usize_wrap fd in
        call_write fd s;; call_write fd NEWLINE;; call_close fd;; mret tt
  | None => println s
  end.

Definition builtin_pwd : M E unit :=
  o ← call_getcwd; match o with Some cwd => println cwd | None => println (chars "/") end.

Definition print_history (history : list (list Z)) : M E unit :=
  mfor (imap (fun i line => (Z.of_nat i, line)) history) (fun x => println (show4 (fst x + 1) ++ chars "  " ++ snd x)).

Definition builtin_help : M E unit :=
  println (chars "builtins: cd pwd echo history jobs fg bg kill help clear exit");;
  println (chars "syntax: cmd [args] [< file] [> file] [>> file] [2> file] [| cmd] [&] [;] [&&] [||]").

Definition builtin_clear : M E unit := print (27 :: chars "[2J" ++ 27 :: chars "[H").

Definition is_pipeline_builtin (prog : list Z) : bool :=
  bool_decide (prog ∈ map chars ["echo"; "pwd"; "history"; "help"; "clear"]%string).

(** The child's copy of the shell has the history. *)
Definition run_pipeline_builtin (history : list (list Z)) (stage : Stage) : M E unit :=
  let prog := st_prog stage in
  if decide (prog = chars "echo") then builtin_echo (st_args stage) (st_output stage) (st_append stage)
  else if decide (prog = chars "pwd") then builtin_pwd
  else if decide (prog = chars "history") then print_history history
  else if decide (prog = chars "help") then builtin_help
  else if decide (prog = chars "clear") then builtin_clear
  else mret tt.

(** The ends of the pipes on the standard input and output. *)
Definition take_pipe (o : option (Z * Z)) (end_of : Z * Z -> Z) (target : Z) : M E unit :=
  p ← unwrap o;
  call_close target;;
  d ← call_dup (end_of p);
  massert (d =? target).

Definition close_pipes (pipes : list (Z * Z)) : M E unit :=
  mfor pipes (fun pipe_fd => call_close (fst pipe_fd);; call_close (snd pipe_fd);; mret tt).

(** The child's branch of [run_pipeline] for stage [i] of [n]. *)
Definition run_stage (history : list (list Z)) (n : nat) (pipes : list (Z * Z)) (pgid : Z) (i : nat) (stage : Stage) : M E proc_end :=
  (if decide (i = 0)%nat then call_setpgid 0 0 else call_setpgid 0 pgid);;
  or_end (redirect_to (st_input stage) FLAG_RDONLY 0)
  (or_end (redirect_to (st_output stage) (output_flags (st_append stage)) 1)
  (or_end (redirect_to (st_stderr stage) (Z.lor FLAG_CREATE FLAG_WRONLY) 2)
  ((if decide (0 < i)%nat then take_pipe (pipes !! (i - 1)%nat) fst 0 else mret tt);;
   (if decide (i + 1 < n)%nat then take_pipe (pipes !! i) snd 1 else mret tt);;
   close_pipes pipes;;
   if is_pipeline_builtin (st_prog stage) then run_pipeline_builtin history stage;; mret (EndExit 0)
   else
     let path := nul (st_prog stage) in
     let args := path :: map nul (st_args stage) in
     ok ← call_exec path args;
     if ok : bool then mret (EndExec path args)
     else call_write 2 (chars "shell: command not found: " ++ st_prog stage ++ NEWLINE);; mret (EndExit 127)))).

(** *** The pipeline in the shell *)

Fixpoint make_pipes (n : nat) : M E (list (Z * Z)) :=
  match n with O => mret [] | S n => p ← call_pipe; rest ← make_pipes n; mret (p :: rest) end.

(** The loop over the stages from [i] on: the children and their group. *)
Fixpoint fork_stages (history : list (list Z)) (n : nat) (pipes : list (Z * Z)) (i : nat) (stages : list Stage) (children : list Z) (pgid : Z) :
    M E (list Z * Z) :=
  match stages with
  | [] => mret (children, pgid)
  | stage :: rest =>
      pid ← call_fork (run_stage history n pipes pgid i stage);
      let pid := usize_wrap pid in
      let pgid := if decide (i = 0)%nat then pid else pgid in
      call_setpgid pid pgid;;
      fork_stages history n pipes (i + 1) rest (children ++ [pid]) pgid
  end.

(** The loop over the processes of a foreground job: the last code, and whether
    one has stopped. *)
Definition wait_all (fuel : nat) (pids : list Z) : M E (Z * bool) :=
  mfold (fun acc pid =>
    r ← wait_foreground fuel pid (fst acc);
    mret (match r with Reaped code => (code, snd acc) | WaitStopped => (fst acc, true) end)) (0, false) pids.

End Env.

(** ** The shell with its surroundings *)

Section Run.
Context {E : Type} `{UserCalls E}.
Context (wait_fuel : nat).

Record ShellWorld := mkShellWorld { sw_shell : Shell; sw_env : E }.
Definition env {A : Type} (f : M E A) : M ShellWorld A := fun s =>
  match f (sw_env s) with Ok (a, e) => Ok (a, mkShellWorld (sw_shell s) e) | Err x => Err x end.
Definition upd (f : Shell -> Shell) : M ShellWorld unit := modify (fun s => mkShellWorld (f (sw_shell s)) (sw_env s)).
Definition the_shell : M ShellWorld Shell := gets sw_shell.

Definition add_history (line : list Z) : M ShellWorld unit :=
  sh ← the_shell;
  if is_empty line then mret tt
  else if decide (last (sh_history sh) = Some line) then mret tt
  else
    let history := sh_history sh ++ [line] in
    let history := if decide (MAX_HISTORY < length history)%nat then drop 1 history else history in
    upd (fun sh => mkShell history (sh_jobs sh) (sh_next_jid sh) (sh_pgrp sh) (sh_history_cleared sh)).

Definition reap_jobs : M ShellWorld unit :=
  sh ← the_shell;
  jobs ← env (reap_loop (sh_jobs sh));
  env (mfor jobs report_done);;
  upd (set_jobs (List.filter (fun j => negb (is_done j)) jobs)).

(** [self.next_jid += 1] and the new entry of the table. *)
Definition push_job (pgid : Z) (pids : list Z) (cmdline : list Z) (status : JobStatus) : M ShellWorld unit :=
  upd (fun sh => mkShell (sh_history sh) (sh_jobs sh ++ [mkJob (sh_next_jid sh) pgid pids cmdline status])
    (usize_wrap (sh_next_jid sh + 1)) (sh_pgrp sh) (sh_history_cleared sh)).
Definition register_job (pgid : Z) (pids : list Z) (cmdline : list Z) (background : bool) : M ShellWorld unit :=
  sh ← the_shell;
  (if background then env (println (chars "[" ++ show (sh_next_jid sh) ++ chars "] " ++ show pgid)) else mret tt);;
  push_job pgid pids cmdline JobRunning.
Definition register_stopped_job (pgid : Z) (pids : list Z) (cmdline : list Z) : M ShellWorld unit :=
  sh ← the_shell;
  env (println (chars "[" ++ show (sh_next_jid sh) ++ chars "]+ Stopped " ++ cmdline));;
  push_job pgid pids cmdline JobStopped.

Definition run_pipeline (cmd : Command) : M ShellWorld Z :=
  let stages := cm_stages cmd in
  let n := length stages in
  pipes ← env (make_pipes (n - 1));
  sh ← the_shell;
  r ← env (fork_stages (sh_history sh) n pipes 0 stages [] 0);
  let children := fst r in
  let pgid := snd r in
  env (close_pipes pipes);;
  let cmdline := command_string cmd in
  if cm_background cmd then register_job pgid children cmdline true;; mret 0
  else
    env (call_tcsetpgrp 0 pgid);;
    r ← env (wait_all wait_fuel children);
    env (call_tcsetpgrp 0 (sh_pgrp sh));;
    if snd r : bool then register_stopped_job pgid children cmdline;; mret 1
    else
      (if negb (fst r =? 0) then env (println (chars "[shell] process exited with code " ++ show (fst r))) else mret tt);;
      mret (fst r).

(** *** Built-in commands *)

Definition builtin_cd (args : list (list Z)) : M ShellWorld unit :=
  let path := match args with [] => chars "/" | path :: _ => path end in
  r ← env (call_chdir path);
  if negb (r =? 0) then env (println (chars "cd: " ++ path ++ chars ": No such file or directory")) else mret tt.

Definition builtin_history (args : list (list Z)) : M ShellWorld unit :=
  if decide (head args = Some (chars "-c")) then
    upd (fun sh => mkShell [] (sh_jobs sh) (sh_next_jid sh) (sh_pgrp sh) true)
  else sh ← the_shell; env (print_history (sh_history sh)).

Definition status_string (st : JobStatus) : list Z :=
  match st with
  | JobRunning => chars "Running"
  | JobStopped => chars "Stopped"
  | JobDone code => chars "Done(" ++ show code ++ chars ")"
  end.
Definition builtin_jobs : M ShellWorld unit :=
  reap_jobs;;
  sh ← the_shell;
  env (mfor (sh_jobs sh) (fun j => println (chars "[" ++ show (jb_jid j) ++ chars "] " ++ status_string (jb_status j)
    ++ chars " pgid=" ++ show (jb_pgid j) ++ chars " " ++ jb_cmdline j))).

(** The job an argument of [fg] or [bg] names: without one, the last. *)
Definition find_job (args : list (list Z)) (jobs : list Job) : option nat :=
  match args with
  | s :: _ => match parse_usize s with Some jid => position (fun j => jb_jid j =? jid) jobs | None => None end
  | [] => match length jobs with O => None | S i => Some i end
  end.
(** [(-(pgid as isize)) as usize]. *)
Definition encode_group (pgid : Z) : Z := usize_wrap (- as_isize pgid).
Definition update_job (idx : nat) (f : Job -> Job) : M ShellWorld unit := upd (fun sh => set_jobs (alter f idx (sh_jobs sh)) sh).

Definition builtin_fg (args : list (list Z)) : M ShellWorld unit :=
  sh ← the_shell;
  match find_job args (sh_jobs sh) with
  | None => env (println (chars "fg: job not found"))
  | Some idx =>
      j ← unwrap (sh_jobs sh !! idx);
      let jid := show (jb_jid j) in
      failed ← (match jb_status j with
        | JobStopped =>
            r ← env (call_kill (encode_group (jb_pgid j)) SIGCONT_BITS);
            if negb (r =? 0) then mret true else update_job idx (set_status JobRunning);; mret false
        | _ => mret false
        end);
      if failed : bool then env (println (chars "fg: failed to continue job " ++ jid))
      else
        env (call_tcsetpgrp 0 (jb_pgid j));;
        r ← env (wait_all wait_fuel (jb_pids j));
        env (call_tcsetpgrp 0 (sh_pgrp sh));;
        if snd r : bool then
          env (println (chars "[" ++ jid ++ chars "]+ Stopped " ++ jb_cmdline j));;
          update_job idx (set_status JobStopped)
        else
          env (println (chars "[" ++ jid ++ chars "]+ Done " ++ jb_cmdline j));;
          upd (fun sh => set_jobs (delete idx (sh_jobs sh)) sh)
  end.

Definition builtin_bg (args : list (list Z)) : M ShellWorld unit :=
  sh ← the_shell;
  match find_job args (sh_jobs sh) with
  | None => env (println (chars "bg: job not found"))
  | Some idx =>
      j ← unwrap (sh_jobs sh !! idx);
      let jid := show (jb_jid j) in
      match jb_status j with
      | JobRunning => env (println (chars "bg: job " ++ jid ++ chars " already running"))
      | JobStopped =>
          r ← env (call_kill (encode_group (jb_pgid j)) SIGCONT_BITS);
          if negb (r =? 0) then env (println (chars "bg: failed to continue job " ++ jid))
          else
            update_job idx (set_status JobRunning);;
            env (println (chars "[" ++ jid ++ chars "] " ++ jb_cmdline j))
      | JobDone _ => env (println (chars "bg: job " ++ jid ++ chars " already done"))
      end
  end.

Definition signal_named (name : list Z) : option Z :=
  let name := to_ascii_uppercase name in
  if decide (name = chars "INT") then Some SIGINT_BITS
  else if decide (name = chars "TSTP") then Some SIGTSTP_BITS
  else if decide (name = chars "CONT") then Some SIGCONT_BITS
  else if decide (name = chars "ABRT") then Some (Z.shiftl 1 6)
  else if decide (name = chars "ILL") then Some (Z.shiftl 1 4)
  else if decide (name = chars "FPE") then Some (Z.shiftl 1 8)
  else if decide (name = chars "SEGV") then Some (Z.shiftl 1 11)
  else None.

(** The signal and the position of the target, [inr] for an unknown name. *)
Definition kill_signal (first : list Z) : (Z * nat) + list Z :=
  match strip_minus first with
  | None => inl (SIGINT_BITS, 0%nat)
  | Some name =>
      if negb (is_empty name) && forallb is_ascii_digit name then inl (SIGINT_BITS, 0%nat)
      else match signal_named name with Some signal => inl (signal, 1%nat) | None => inr name end
  end.
Definition kill_usage : list Z := chars "kill: usage: kill [-SIG] <pid | -pgid>".

Definition builtin_kill (args : list (list Z)) : M ShellWorld unit :=
  match args with
  | [] => env (println kill_usage)
  | first :: _ =>
      match kill_signal first with
      | inr name => env (println (chars "kill: unknown signal " ++ name))
      | inl (signal, target) =>
          match args !! target with
          | None => env (println kill_usage)
          | Some arg =>
              match strip_minus arg ≫= parse_usize with
              | Some pid =>
                  ret ← env (call_kill (encode_group pid) signal);
                  if negb (ret =? 0) then env (println (chars "kill: no such process group " ++ show pid)) else mret tt
              | None =>
                  match parse_usize arg with
                  | Some pid =>
                      ret ← env (call_kill pid signal);
                      if negb (ret =? 0) then env (println (chars "kill: no such process " ++ show pid)) else mret tt
                  | None => env (println (chars "kill: invalid argument " ++ arg))
                  end
              end
          end
      end
  end.

(** The commands of a single stage that the shell runs itself. *)
Definition run_builtin (stage : Stage) : option (M ShellWorld unit) :=
  let prog := st_prog stage in
  let args := st_args stage in
  if decide (prog = chars "echo") then Some (env (builtin_echo args (st_output stage) (st_append stage)))
  else if decide (prog = chars "cd") then Some (builtin_cd args)
  else if decide (prog = chars "pwd") then Some (env builtin_pwd)
  else if decide (prog = chars "history") then Some (builtin_history args)
  else if decide (prog = chars "jobs") then Some builtin_jobs
  else if decide (prog = chars "fg") then Some (builtin_fg args)
  else if decide (prog = chars "bg") then Some (builtin_bg args)
  else if decide (prog = chars "kill") then Some (builtin_kill args)
  else if decide (prog = chars "help") then Some (env builtin_help)
  else if decide (prog = chars "clear") then Some (env builtin_clear)
  else None.

(** The status, or the end of the shell. *)
Definition execute (cmd : Command) : M ShellWorld (Z + proc_end) :=
  let pipeline := (z ← run_pipeline cmd; mret (inl z)) in
  match cm_stages cmd with
  | [stage] =>
      if decide (st_prog stage = chars "exit") then mret (inr (EndExit 0))
      else match run_builtin stage with
      | Some m => m;; mret (inl 0)
      | None => pipeline
      end
  | _ => pipeline
  end.

(** [match cmd.connector] of the main loop over the commands of a line. *)
Fixpoint run_commands (commands : list Command) (prev_status : Z) : M ShellWorld (Z + proc_end) :=
  match commands with
  | [] => mret (inl prev_status)
  | cmd :: rest =>
      status ← (match cm_connector cmd with
                | CNone => execute cmd
                | CAnd => if prev_status =? 0 then execute cmd else mret (inl prev_status)
                | COr => if negb (prev_status =? 0) then execute cmd else mret (inl prev_status)
                end);
      match status with inl status => run_commands rest status | inr e => mret (inr e) end
  end.

(** ** The main loop *)

Definition TTY_CTL_SET_FLAGS : Z := 2.
Definition TTY_ISIG : Z := 4.
Definition SIG_IGN : Z := 1.

(** [String::from_utf8_lossy] and [str::as_bytes]. *)
Context (from_utf8_lossy as_bytes : list Z -> list Z).

(** The shell, its editor, and the bytes that are still to be typed. *)
Record Session := mkSession { se_world : ShellWorld; se_editor : LineEditor; se_input : list Z }.
Definition on_shell {A : Type} (f : M ShellWorld A) : M Session A := fun s =>
  match f (se_world s) with Ok (a, w) => Ok (a, mkSession w (se_editor s) (se_input s)) | Err x => Err x end.
Definition on_editor {A : Type} (f : M LineEditor A) : M Session A := fun s =>
  match f (se_editor s) with Ok (a, e) => Ok (a, mkSession (se_world s) e (se_input s)) | Err x => Err x end.
Definition readline : M Session (option (list Z)) :=
  input ← gets se_input;
  r ← on_editor (editor_readline from_utf8_lossy input);
  modify (fun s => mkSession (se_world s) (se_editor s) (snd r));;
  mret (fst r).

Definition error_string (e : shell_error) : list Z :=
  match e with
  | Unbalanced => chars "unbalanced quotes or trailing escape"
  | EmptyCommand => chars "empty command in pipeline"
  | MissingFile => chars "missing file for redirection"
  end.

(** One round: [Some] when the shell is over. *)
Definition main_round : M Session (option proc_end) :=
  on_shell (env (call_tty_ctl 0 TTY_CTL_SET_FLAGS TTY_ISIG));;
  on_shell reap_jobs;;
  line ← readline;
  match line with
  | None => on_shell (env (println (chars "exit")));; mret (Some (EndExit 0))
  | Some line =>
      let line := trim (from_utf8_lossy line) in
      if is_empty line then mret None
      else
        on_shell (add_history line);;
        on_editor (editor_add_history (as_bytes line));;
        over ← (match parse_command line with
          | inl commands => r ← on_shell (run_commands commands 0); mret (match r with inl _ => None | inr e => Some e end)
          | inr e => on_shell (env (println (chars "shell: " ++ error_string e)));; mret None
          end);
        match over with
        | Some e => mret (Some e)
        | None =>
            sh ← on_shell the_shell;
            (if sh_history_cleared sh then
               on_editor editor_clear_history;;
               on_shell (upd (fun sh => mkShell (sh_history sh) (sh_jobs sh) (sh_next_jid sh) (sh_pgrp sh) false))
             else mret tt);;
            mret None
        end
  end.

Definition session_no_fuel : M Session proc_end := fun _ => Err NoFuel.
Fixpoint main_loop (fuel : nat) : M Session proc_end :=
  match fuel with
  | O => session_no_fuel
  | S fuel => o ← main_round; match o with Some e => mret e | None => main_loop fuel end
  end.

(** [main] up to the loop: the shell and its editor. *)
Definition main_start (app_names : list (list Z)) : M E (Shell * LineEditor) :=
  println (chars "Rust user shell (tty-shell)");;
  call_setpgid 0 0;;
  shell_pgrp ← call_getpgrp;
  let shell_pgrp := usize_wrap shell_pgrp in
  call_sigaction SIGINT_BITS SIG_IGN;;
  call_sigaction SIGTSTP_BITS SIG_IGN;;
  call_tty_ctl 0 TTY_CTL_SET_FLAGS TTY_ISIG;;
  call_tcsetpgrp 0 shell_pgrp;;
  mret (Shell_new shell_pgrp, LineEditor_new app_names).

End Run.
Arguments ShellWorld : clear implicits.
Arguments Session : clear implicits.
