(* ===== verification/ShellPipeline.v ===== *)
(** * The descriptors of a pipeline

    [UserCallsLaws] is what the shell relies on: the effect of each call on the
    descriptors, the children and the terminal ([Descriptors] proves the ones of
    the descriptor calls for the kernel).  The lemmas follow a table of
    descriptors through the redirections and pipes of a stage, and through the
    forks of a pipeline. *)

From Stdlib Require Import String.
From S2P Require Import Prelude Process Shell ShellJobs Descriptors.
From stdpp Require Import gmap.
Open Scope Z_scope.

(** ** What the shell relies on *)

(** The table of the process, the pipes made so far, its children, the group it
    has last put in the foreground, and how each process that was forked left
    the shell's code, with its table.  [v_fg] records this shell's own calls of
    [tcsetpgrp] only: the kernel lets any process put any live group in the
    foreground, so between two calls the terminal may be somebody else's. *)
Record View := mkView {
  v_fds : FdTable; v_pipes : list (FileRef * FileRef); v_children : gset Z; v_fg : Z;
  v_forked : list (Z * option (proc_end * FdTable))
}.
Definition with_fds (t : FdTable) (v : View) : View := mkView t (v_pipes v) (v_children v) (v_fg v) (v_forked v).
Definition with_children (c : gset Z) (v : View) : View := mkView (v_fds v) (v_pipes v) c (v_fg v) (v_forked v).
Definition with_fg (g : Z) (v : View) : View := mkView (v_fds v) (v_pipes v) (v_children v) g (v_forked v).
Definition add_pipes (l : list (FileRef * FileRef)) (v : View) : View :=
  mkView (v_fds v) (v_pipes v ++ l) (v_children v) (v_fg v) (v_forked v).
Definition add_forked (l : list (Z * option (proc_end * FdTable))) (v : View) : View :=
  mkView (v_fds v) (v_pipes v) (list_to_set (map fst l) ∪ v_children v) (v_fg v) (v_forked v ++ l).

Definition is_pid (pid : Z) : Prop := 0 < pid < 2 ^ 63.

Class UserCallsLaws (E : Type) `{UserCalls E} := {
  view : E -> View;
  (** How often a wait in the foreground may still find the child running. *)
  polls : E -> Z -> nat;
  max_polls : nat;
  (** The group of the shell, and the open files of a path. *)
  self_group : Z;
  opened : FileRef -> list Z -> Z -> Prop;
  law_polls e pid : (polls e pid <= max_polls)%nat;
  law_pipe e : wp call_pipe (fun r e' => exists fr fw t1 t2 n1 n2, fd_install fr (v_fds (view e)) = (t1, n1) /\
    fd_install fw t1 = (t2, n2) /\ r = (Z.of_nat n1, Z.of_nat n2) /\ view e' = add_pipes [(fr, fw)] (with_fds t2 (view e))) e;
  (** The child starts with the table of its parent; if its code panics the
      kernel ends it. *)
  law_fork child e : wp (call_fork child) (fun pid e' => is_pid pid /\ exists c,
    v_fds (view c) = v_fds (view e) /\
    view e' = add_forked [(pid, match child c with Ok (r, c') => Some (r, v_fds (view c')) | Err _ => None end)] (view e)) e;
  law_open path flags e : wp (call_open path flags) (fun r e' => (r = -1 /\ view e' = view e) \/
    exists f t n, opened f path flags /\ fd_install f (v_fds (view e)) = (t, n) /\ r = Z.of_nat n /\ r < 2 ^ 63 /\ view e' = with_fds t (view e)) e;
  law_close n e : wp (call_close (Z.of_nat n)) (fun _ e' => view e' = with_fds (fd_close n (v_fds (view e))) (view e)) e;
  law_dup n e : wp (call_dup (Z.of_nat n)) (fun r e' => match fd_dup n (v_fds (view e)) with
    | Some (t, m) => r = Z.of_nat m /\ view e' = with_fds t (view e)
    | None => r = -1 /\ view e' = view e
    end) e;
  (** A group can be put in the foreground while its leader lives, as the
      shell does; what other processes put there is not in the view. *)
  law_tcsetpgrp fd g e : wp (call_tcsetpgrp fd g) (fun _ e' => view e' = with_fg g (view e) \/ (g <> self_group /\ view e' = view e)) e;
  law_waitpid pid options e : is_pid pid -> wp (call_waitpid pid options) (fun r e' =>
    (fst r = pid /\ view e' = with_children (v_children (view e) ∖ {[pid]}) (view e)) \/
    (view e' = view e /\ ((fst r = -1 /\ pid ∉ v_children (view e)) \/ (fst r = -3 /\ options = WUNTRACED) \/
      (fst r = -2 /\ (options = WUNTRACED -> (polls e' pid < polls e pid)%nat))))) e;
  law_sleep ms e : wp (call_sleep ms) (fun _ e' => view e' = view e /\ forall pid, (polls e' pid <= polls e pid)%nat) e;
  law_setpgid pid pgid e : wp (call_setpgid pid pgid) (fun _ e' => view e' = view e) e;
  law_write fd s e : wp (call_write fd s) (fun _ e' => view e' = view e) e;
  law_exec path args e : wp (call_exec path args) (fun _ e' => view e' = view e) e;
  law_kill pid signal e : wp (call_kill pid signal) (fun _ e' => view e' = view e) e;
  law_chdir path e : wp (call_chdir path) (fun _ e' => view e' = view e) e;
  law_getcwd e : wp call_getcwd (fun _ e' => view e' = view e) e
}.

(** The state after a step. *)
Ltac intros_st e H := intros ? e H; cbv beta in H.

Section Props.
Context {E : Type} `{UserCallsLaws E}.
Implicit Types e : E.

(** ** Calls that leave the view alone *)

Definition keeps {A} (m : M E A) : Prop := forall e, wp m (fun _ e' => view e' = view e) e.

Lemma keeps_ret {A} (a : A) : keeps (mret a).
Proof using. done. Qed.
Lemma keeps_bind {A B} (m : M E A) (k : A -> M E B) : keeps m -> (forall a, keeps (k a)) -> keeps (m ≫= k).
Proof using. intros Hm Hk e. apply wp_bind. eapply wp_mono; [apply Hm|]. intros a e1 E1. eapply wp_mono; [apply Hk|]. intros b e2 E2. cbv beta in *. congruence. Qed.
Lemma keeps_mfor {A} (l : list A) (f : A -> M E unit) : (forall x, keeps (f x)) -> keeps (mfor l f).
Proof using. intros Hf. induction l as [|x l IH]; [apply keeps_ret|]. cbn [mfor]. by apply keeps_bind. Qed.
Lemma keeps_write fd s : keeps (call_write fd s).
Proof using. intros e. apply law_write. Qed.
Lemma keeps_println s : keeps (println s).
Proof using. apply keeps_bind; [apply keeps_write|intros; apply keeps_ret]. Qed.
Lemma keeps_getcwd : keeps call_getcwd.
Proof using. intros e. apply law_getcwd. Qed.
Lemma keeps_setpgid pid pgid : keeps (call_setpgid pid pgid).
Proof using. intros e. apply law_setpgid. Qed.
Lemma keeps_kill pid signal : keeps (call_kill pid signal).
Proof using. intros e. apply law_kill. Qed.
Lemma keeps_chdir path : keeps (call_chdir path).
Proof using. intros e. apply law_chdir. Qed.

Lemma keeps_pwd : keeps builtin_pwd.
Proof using. apply keeps_bind; [apply keeps_getcwd|]. intros [cwd|]; apply keeps_println. Qed.
Lemma keeps_history l : keeps (print_history l).
Proof using. apply keeps_mfor. intros. apply keeps_println. Qed.
Lemma keeps_help : keeps builtin_help.
Proof using. apply keeps_bind; [apply keeps_println|intros; apply keeps_println]. Qed.
Lemma keeps_clear : keeps builtin_clear.
Proof using. apply keeps_bind; [apply keeps_write|intros; apply keeps_ret]. Qed.

(** ** Descriptors *)

(** The files of the descriptors are [g], the rest of the view is that of [v]. *)
Record st e (g : nat -> option FileRef) (v : View) : Prop := {
  st_fds : forall k, fd_at (v_fds (view e)) k = g k;
  st_rest : with_fds [] (view e) = with_fds [] v
}.
Definition fupd (g : nat -> option FileRef) (n : nat) (o : option FileRef) (k : nat) : option FileRef := if decide (k = n) then o else g k.

Lemma st_ext e g g' v : st e g v -> (forall k, g k = g' k) -> st e g' v.
Proof using. intros [H1 H2] Hg. split; [|done]. intros k. by rewrite H1. Qed.
Lemma st_self e : st e (fd_at (v_fds (view e))) (view e).
Proof using. done. Qed.
Lemma st_keep {A} (m : M E A) e g v : keeps m -> st e g v -> wp m (fun _ e' => st e' g v) e.
Proof using. intros Hm [H1 H2]. eapply wp_mono; [apply Hm|]. intros a e' Ev. cbv beta in Ev. split; rewrite Ev; done. Qed.

(** [n] is the descriptor the kernel would give. *)
Definition lowest (g : nat -> option FileRef) (n : nat) : Prop := g n = None /\ forall m, (m < n)%nat -> g m <> None.
Lemma lowest_unique g n m : lowest g n -> lowest g m -> n = m.
Proof using. intros [H1 H2] [H3 H4]. destruct (Nat.lt_trichotomy n m) as [Hlt|[?|Hlt]]; [by destruct (H4 n Hlt)|done|by destruct (H2 m Hlt)]. Qed.

Lemma st_install e e' g v f t n : st e g v -> fd_install f (v_fds (view e)) = (t, n) -> view e' = with_fds t (view e) ->
  lowest g n /\ st e' (fupd g n (Some f)) v.
Proof using.
  intros [H1 H2] Hi Ev. destruct (fd_install_spec _ _ _ _ Hi) as (Hn & Hlt & Ht). split.
  - split; [by rewrite <- H1|]. intros m Hm. rewrite <- H1. by apply Hlt.
  - split; rewrite Ev; [|done]. intros k. cbn. rewrite Ht. unfold fupd. by rewrite H1.
Qed.

Lemma wp_open path flags e g v : st e g v -> wp (call_open path flags) (fun r e' => (r = -1 /\ st e' g v) \/
  exists f n, opened f path flags /\ lowest g n /\ r = Z.of_nat n /\ r < 2 ^ 63 /\ st e' (fupd g n (Some f)) v) e.
Proof using.
  intros Hst. eapply wp_mono; [apply law_open|]. intros r e' [[-> Ev]|(f & t & n & Hf & Hi & -> & Hlt & Ev)].
  - left. split; [done|]. destruct Hst. split; by rewrite Ev.
  - right. destruct (st_install e e' g v f t n Hst Hi Ev). by exists f, n.
Qed.

Lemma wp_close n e g v : st e g v -> wp (call_close (Z.of_nat n)) (fun _ e' => st e' (fupd g n None) v) e.
Proof using.
  intros [H1 H2]. eapply wp_mono; [apply law_close|]. intros ? e' Ev. cbv beta in Ev. split; rewrite Ev; [|done].
  intros k. cbn. rewrite fd_at_close. unfold fupd. by rewrite H1.
Qed.

Lemma wp_dup n f m e g v : st e g v -> g n = Some f -> lowest g m ->
  wp (call_dup (Z.of_nat n)) (fun r e' => r = Z.of_nat m /\ st e' (fupd g m (Some f)) v) e.
Proof using.
  intros Hst Hn Hm. eapply wp_mono; [apply law_dup|]. intros r e'. unfold fd_dup. rewrite (st_fds _ _ _ Hst), Hn.
  destruct (fd_install f (v_fds (view e))) as [t m'] eqn:Hi. intros [-> Ev]. destruct (st_install e e' g v f t m' Hst Hi Ev) as [Hm' Hst'].
  by rewrite (lowest_unique g m m' Hm Hm').
Qed.

(** The standard descriptors are in use. *)
Definition std_open (g : nat -> option FileRef) : Prop := forall k, (k < 3)%nat -> g k <> None.

Lemma std_fupd g n f : std_open g -> std_open (fupd g n (Some f)).
Proof using. intros Hg k Hk. unfold fupd. case_decide; [done|by apply Hg]. Qed.
Lemma lowest_std g n : std_open g -> lowest g n -> (3 <= n)%nat.
Proof using. intros Hg [Hn _]. destruct (decide (n < 3)%nat) as [Hlt|]; [by destruct (Hg n Hlt)|lia]. Qed.
Lemma lowest_closed g n : std_open g -> (n < 3)%nat -> lowest (fupd g n None) n.
Proof using. intros Hg Hn. split; [unfold fupd; by rewrite decide_True|]. intros m Hm. unfold fupd. rewrite decide_False by lia. apply Hg. lia. Qed.

(** [close(target); assert_eq!(dup(fd), target)]. *)
Lemma wp_move {B} n target f (Q : B -> E -> Prop) (k : M E B) e g v : st e g v -> std_open g -> (target < 3)%nat -> n <> target -> g n = Some f ->
  (forall e', st e' (fupd g target (Some f)) v -> wp k Q e') ->
  wp (call_close (Z.of_nat target);; d ← call_dup (Z.of_nat n); massert (d =? Z.of_nat target);; k) Q e.
Proof using.
  intros Hst Hstd Ht Hne Hn Hk. apply wp_bind. eapply wp_mono; [by apply wp_close|]. intros_st e1 Hst1.
  apply wp_bind. eapply wp_mono; [apply (wp_dup n f target e1 _ v Hst1); [unfold fupd; by rewrite decide_False|by apply lowest_closed]|].
  intros d e2 [-> Hst2]. apply wp_bind, wp_massert. split; [apply Z.eqb_refl|]. apply Hk. eapply st_ext; [exact Hst2|].
  intros j. unfold fupd. by case_decide.
Qed.

(** *** Redirections *)

(** What a redirection of descriptor [target] may make of it. *)
Definition redirected (file : option (list Z)) (flags : Z) (old o : option FileRef) : Prop :=
  match file with None => o = old | Some path => exists f, o = Some f /\ opened f (nul path) flags end.

Lemma wp_redirect file flags target e g v : st e g v -> std_open g -> (target < 3)%nat ->
  wp (redirect_to file flags (Z.of_nat target)) (fun r e' => (r = Some (EndExit 1) /\ file <> None) \/
    (r = None /\ exists o, redirected file flags (g target) o /\ o <> None /\ st e' (fupd g target o) v)) e.
Proof using.
  intros Hst Hstd Ht. destruct file as [path|]; cbn [redirect_to].
  - apply wp_bind. eapply wp_mono; [by apply wp_open|]. intros r e1 [[-> Hst1]|(f & n & Hf & Hlow & -> & Hlt & Hst1)].
    + cbn [Z.eqb Pos.eqb]. apply wp_bind. eapply wp_mono; [apply keeps_println|]. intros ? e2 _. apply wp_ret. by left.
    + rewrite (proj2 (Z.eqb_neq _ _)) by lia. assert (usize_wrap (Z.of_nat n) = Z.of_nat n) as -> by (apply Z.mod_small; lia).
      pose proof (lowest_std g n Hstd Hlow) as Hn3. eapply (wp_move n target f); [exact Hst1|by apply std_fupd|done|lia|unfold fupd; by rewrite decide_True|].
      intros e2 Hst2. apply wp_bind. eapply wp_mono; [by apply wp_close|]. intros_st e3 Hst3. apply wp_ret. right. split; [done|].
      exists (Some f). split; [by exists f|]. split; [done|]. eapply st_ext; [exact Hst3|]. intros k. unfold fupd.
      destruct (decide (k = n)) as [->|]; [|done]. rewrite decide_False by lia. symmetry. apply Hlow.
  - apply wp_ret. right. split; [done|]. exists (g target). split; [done|]. split; [by apply Hstd|]. eapply st_ext; [exact Hst|].
    intros k. unfold fupd. by case_decide; subst.
Qed.

Lemma wp_echo args output append e g v : st e g v -> wp (builtin_echo args output append) (fun _ e' => st e' g v) e.
Proof using.
  intros Hst. unfold builtin_echo. destruct output as [path|]; [|apply st_keep; [apply keeps_println|done]].
  apply wp_bind. eapply wp_mono; [by apply wp_open|]. intros r e1 [[-> Hst1]|(f & n & Hf & Hlow & -> & Hlt & Hst1)].
  - cbn [Z.eqb Pos.eqb]. apply st_keep; [apply keeps_println|done].
  - rewrite (proj2 (Z.eqb_neq _ _)) by lia. assert (usize_wrap (Z.of_nat n) = Z.of_nat n) as -> by (apply Z.mod_small; lia).
    apply wp_bind. eapply wp_mono; [apply st_keep; [apply keeps_write|exact Hst1]|]. intros_st e2 Hst2.
    apply wp_bind. eapply wp_mono; [apply st_keep; [apply keeps_write|exact Hst2]|]. intros_st e3 Hst3.
    apply wp_bind. eapply wp_mono; [by apply wp_close|]. intros_st e4 Hst4. apply wp_ret. eapply st_ext; [exact Hst4|]. intros k. unfold fupd.
    destruct (decide (k = n)) as [->|]; [symmetry; apply Hlow|done].
Qed.

(** *** The pipes of a pipeline *)

Definition zpair (p : nat * nat) : Z * Z := (Z.of_nat (fst p), Z.of_nat (snd p)).
Definition pipe_fds (ps : list (nat * nat)) : list nat := concat (map (fun p => [fst p; snd p]) ps).

(** [g'] is [g] with the pipes [refs] on the descriptors [ps]. *)
Record pipe_table (g : nat -> option FileRef) (ps : list (nat * nat)) (refs : list (FileRef * FileRef)) (g' : nat -> option FileRef) : Prop := {
  pt_length : length ps = length refs;
  pt_ends : forall j p q, ps !! j = Some p -> refs !! j = Some q -> g' (fst p) = Some (fst q) /\ g' (snd p) = Some (snd q);
  pt_new : forall k, k ∈ pipe_fds ps -> g k = None;
  pt_other : forall k, ~ (k ∈ pipe_fds ps) -> g' k = g k
}.

Lemma elem_of_pipe_fds ps k : k ∈ pipe_fds ps <-> exists j p, ps !! j = Some p /\ (k = fst p \/ k = snd p).
Proof using.
  unfold pipe_fds. induction ps as [|p ps IH]; [cbn; split; [by intros ?%elem_of_nil|by intros (j & p & Hp & _)]|].
  cbn [map concat app]. rewrite !elem_of_cons, IH. split.
  - intros [->|[->|(j & q & Hq & Hk)]]; [exists 0%nat, p; auto..|by exists (S j), q].
  - intros ([|j] & q & Hq & Hk); [cbn in Hq; injection Hq as <-; tauto|right; right; by exists j, q].
Qed.

Lemma pt_std g ps refs g' : pipe_table g ps refs g' -> std_open g -> std_open g'.
Proof using. intros Hp Hg k Hk. rewrite (pt_other _ _ _ _ Hp); [by apply Hg|]. intros Hin. by apply (Hg k Hk), (pt_new _ _ _ _ Hp). Qed.
Lemma pt_ge g ps refs g' k : pipe_table g ps refs g' -> std_open g -> k ∈ pipe_fds ps -> (3 <= k)%nat.
Proof using. intros Hp Hg Hk. destruct (decide (k < 3)%nat) as [Hlt|]; [|lia]. by destruct (Hg k Hlt (pt_new _ _ _ _ Hp k Hk)). Qed.

Lemma wp_make_pipes n e g v : st e g v -> wp (make_pipes n) (fun pipes e' => exists ps refs g', pipes = map zpair ps /\ length ps = n /\
  pipe_table g ps refs g' /\ st e' g' (add_pipes refs v)) e.
Proof using.
  revert e g v. induction n as [|n IH]; intros e g v Hst; cbn [make_pipes].
  - apply wp_ret. exists [], [], g. split; [done|]. split; [done|]. split; [split; [done|done|by intros k ?%elem_of_nil|done]|].
    unfold add_pipes. destruct v as [? vp ? ? ?]. cbn. by rewrite app_nil_r.
  - apply wp_bind. eapply wp_mono; [apply law_pipe|]. intros r e1 (fr & fw & t1 & t2 & n1 & n2 & H1 & H2 & -> & Ev).
    destruct (fd_install_spec _ _ _ _ H1) as (Hn1 & _ & Ht1). destruct (fd_install_spec _ _ _ _ H2) as (Hn2 & _ & Ht2).
    pose proof (st_fds _ _ _ Hst) as Hg. rewrite Hg in Hn1. rewrite Ht1 in Hn2. case_decide as Hne; [done|]. rewrite Hg in Hn2.
    set (g1 := fupd (fupd g n1 (Some fr)) n2 (Some fw)).
    assert (st e1 g1 (add_pipes [(fr, fw)] v)) as Hst1.
    { split; rewrite Ev.
      - intros k. cbn. rewrite Ht2, Ht1, Hg. unfold g1, fupd. done.
      - pose proof (st_rest _ _ _ Hst) as Er. unfold with_fds, add_pipes in *. cbn. injection Er as -> -> -> ->. done. }
    apply wp_bind. eapply wp_mono; [by apply IH|]. intros pipes e2 (ps & refs & g' & -> & Hl & Hp & Hst2). apply wp_ret.
    exists ((n1, n2) :: ps), ((fr, fw) :: refs), g'. split; [done|]. split; [cbn; by rewrite Hl|].
    assert (g1 n1 = Some fr /\ g1 n2 = Some fw) as [E1 E2].
    { unfold g1, fupd. split; [rewrite decide_False by congruence|]; by rewrite decide_True. }
    assert (forall k, g1 k <> None -> g' k = g1 k) as Hold.
    { intros k Hk. apply (pt_other _ _ _ _ Hp). intros Hin. by apply Hk, (pt_new _ _ _ _ Hp). }
    split.
    + split.
      * cbn. by rewrite (pt_length _ _ _ _ Hp).
      * intros [|j] p q Hpj Hqj; [|by apply (pt_ends _ _ _ _ Hp j)]. cbn in Hpj, Hqj. injection Hpj as <-. injection Hqj as <-. cbn [fst snd].
        split; [by rewrite Hold by congruence|by rewrite Hold by congruence].
      * intros k Hk. change (k ∈ n1 :: n2 :: pipe_fds ps) in Hk. rewrite !elem_of_cons in Hk. destruct Hk as [->|[->|Hk]]; [done|done|].
        pose proof (pt_new _ _ _ _ Hp k Hk) as Hk1. unfold g1, fupd in Hk1. repeat case_decide; congruence.
      * intros k Hk. change (~ k ∈ n1 :: n2 :: pipe_fds ps) in Hk. rewrite !elem_of_cons in Hk. rewrite (pt_other _ _ _ _ Hp) by tauto.
        unfold g1, fupd. rewrite !decide_False by tauto. done.
    + destruct Hst2 as [Hf Hr]. split; [done|]. rewrite Hr. unfold add_pipes, with_fds. cbn. by rewrite <- app_assoc.
Qed.

Lemma wp_close_pipes ps e g v : st e g v ->
  wp (close_pipes (map zpair ps)) (fun _ e' => st e' (fun k => if decide (k ∈ pipe_fds ps) then None else g k) v) e.
Proof using.
  revert e g. induction ps as [|[r w] ps IH]; intros e g Hst; unfold close_pipes; cbn [map mfor zpair fst snd].
  - apply wp_ret. eapply st_ext; [exact Hst|]. intros k. by rewrite decide_False by apply not_elem_of_nil.
  - apply wp_bind, wp_bind. eapply wp_mono; [by apply wp_close|]. intros_st e1 Hst1.
    apply wp_bind. eapply wp_mono; [by apply wp_close|]. intros_st e2 Hst2. apply wp_ret.
    eapply wp_mono; [by apply IH|]. intros_st e3 Hst3. eapply st_ext; [exact Hst3|]. intros k. unfold fupd.
    change (pipe_fds ((r, w) :: ps)) with (r :: w :: pipe_fds ps).
    destruct (decide (k ∈ pipe_fds ps)) as [Hin|Hin]; [by rewrite decide_True by (by right; right)|].
    destruct (decide (k = w)) as [->|]; [by rewrite decide_True by (right; left)|]. destruct (decide (k = r)) as [->|]; [by rewrite decide_True by left|].
    rewrite decide_False; [done|]. rewrite !elem_of_cons. tauto.
Qed.

(** *** A stage *)

(** What descriptor [k] of stage [i] of [n] is: the pipes, which win over the
    files of the redirections, and what the shell has there. *)
Definition stage_fd (g : nat -> option FileRef) (refs : list (FileRef * FileRef)) (n i : nat) (o0 o1 o2 : option FileRef) (k : nat) : option FileRef :=
  match k with
  | 0%nat => if decide (0 < i)%nat then fst <$> refs !! (i - 1)%nat else o0
  | 1%nat => if decide (i + 1 < n)%nat then snd <$> refs !! i else o1
  | 2%nat => o2
  | _ => g k
  end.

(** How a stage ends: it could not open a file, or it runs with these
    descriptors. *)
Definition stage_end (g : nat -> option FileRef) (refs : list (FileRef * FileRef)) (n i : nat) (s : Stage) (r : proc_end) (t : FdTable) : Prop :=
  (r = EndExit 1 /\ (st_input s <> None \/ st_output s <> None \/ st_stderr s <> None)) \/
  exists o0 o1 o2, redirected (st_input s) FLAG_RDONLY (g 0%nat) o0 /\ redirected (st_output s) (output_flags (st_append s)) (g 1%nat) o1 /\
    redirected (st_stderr s) (Z.lor FLAG_CREATE FLAG_WRONLY) (g 2%nat) o2 /\
    (if is_pipeline_builtin (st_prog s) then r = EndExit 0
     else r = EndExit 127 \/ r = EndExec (nul (st_prog s)) (nul (st_prog s) :: map nul (st_args s))) /\
    forall k, fd_at t k = stage_fd g refs n i o0 o1 o2 k.

Lemma wp_or_end m k e (Q : proc_end -> E -> Prop) :
  wp m (fun r e' => match r with Some x => Q x e' | None => wp k Q e' end) e -> wp (or_end m k) Q e.
Proof using. intros Hm. apply wp_bind. eapply wp_mono; [exact Hm|]. intros [x|] e' Hx; [by apply wp_ret|done]. Qed.

Lemma wp_take_pipe ps j p (end_of : Z * Z -> Z) m f target e h v :
  st e h v -> std_open h -> (target < 3)%nat -> ps !! j = Some p -> end_of (zpair p) = Z.of_nat m -> m <> target -> h m = Some f ->
  wp (take_pipe (map zpair ps !! j) end_of (Z.of_nat target)) (fun _ e' => st e' (fupd h target (Some f)) v) e.
Proof using.
  intros Hst Hstd Ht Hp Hm Hne Hh. unfold take_pipe. rewrite list_lookup_fmap, Hp. cbn [fmap option_fmap option_map].
  apply wp_bind, wp_unwrap. eexists. split; [done|]. rewrite Hm. apply wp_bind. eapply wp_mono; [by apply wp_close|]. intros_st e1 Hst1.
  apply wp_bind. eapply wp_mono; [apply (wp_dup m f target e1 _ v Hst1); [unfold fupd; by rewrite decide_False|by apply lowest_closed]|].
  intros d e2 [-> Hst2]. apply wp_massert. split; [apply Z.eqb_refl|]. eapply st_ext; [exact Hst2|]. intros k. unfold fupd. by case_decide.
Qed.

Lemma std_fupd_some h n o : std_open h -> o <> None -> std_open (fupd h n o).
Proof using. intros Hh Ho k Hk. unfold fupd. case_decide; [done|by apply Hh]. Qed.

Lemma pt_low g ps refs g' k : pipe_table g ps refs g' -> std_open g -> (k < 3)%nat -> g' k = g k.
Proof using. intros Hp Hg Hk. apply (pt_other _ _ _ _ Hp). intros Hin. pose proof (pt_ge _ _ _ _ _ Hp Hg Hin). lia. Qed.

Lemma pt_at g ps refs g' j : pipe_table g ps refs g' -> std_open g -> (j < length ps)%nat ->
  exists p q, ps !! j = Some p /\ refs !! j = Some q /\ (3 <= fst p)%nat /\ (3 <= snd p)%nat /\ g' (fst p) = Some (fst q) /\ g' (snd p) = Some (snd q).
Proof using.
  intros Hp Hg Hj. destruct (lookup_lt_is_Some_2 ps j Hj) as [p Ep]. destruct (lookup_lt_is_Some_2 refs j) as [q Eq]; [by rewrite <- (pt_length _ _ _ _ Hp)|].
  exists p, q. destruct (pt_ends _ _ _ _ Hp j p q Ep Eq) as [E1 E2].
  split_and!; try done; (apply (pt_ge g ps refs g'); [done|done|apply elem_of_pipe_fds; by exists j, p; auto]).
Qed.

(** The end of a stage, once its descriptors are in place. *)
Lemma wp_stage_program history s e h v :
  st e h v -> wp (if is_pipeline_builtin (st_prog s) then run_pipeline_builtin history s;; mret (EndExit 0)
     else ok ← call_exec (nul (st_prog s)) (nul (st_prog s) :: map nul (st_args s));
       if ok : bool then mret (EndExec (nul (st_prog s)) (nul (st_prog s) :: map nul (st_args s)))
       else call_write 2 (chars "shell: command not found: " ++ st_prog s ++ NEWLINE);; mret (EndExit 127))
  (fun r e' => (if is_pipeline_builtin (st_prog s) then r = EndExit 0
     else r = EndExit 127 \/ r = EndExec (nul (st_prog s)) (nul (st_prog s) :: map nul (st_args s))) /\ st e' h v) e.
Proof using.
  intros Hst. destruct (is_pipeline_builtin (st_prog s)).
  - apply wp_bind. eapply (wp_mono _ (fun _ e' => st e' h v)); [|intros_st e1 Hst1; by apply wp_ret]. unfold run_pipeline_builtin.
    repeat case_decide; [by apply wp_echo|apply st_keep; [|done]..];
      [apply keeps_pwd|apply keeps_history|apply keeps_help|apply keeps_clear|apply keeps_ret].
  - apply wp_bind. eapply wp_mono; [apply st_keep; [intros ?; apply law_exec|exact Hst]|]. intros_st e1 Hst1. destruct a; [apply wp_ret; split; [by right|done]|].
    apply wp_bind. eapply wp_mono; [apply st_keep; [apply keeps_write|exact Hst1]|]. intros_st e2 Hst2. apply wp_ret. split; [by left|done].
Qed.

Lemma wp_run_stage history n ps refs pgid i s e g g' v :
  st e g' v -> pipe_table g ps refs g' -> std_open g -> (i < n)%nat -> length ps = (n - 1)%nat ->
  wp (run_stage history n (map zpair ps) pgid i s) (fun r e' => stage_end g refs n i s r (v_fds (view e'))) e.
Proof using.
  intros Hst Hp Hg Hi Hl. pose proof (pt_std _ _ _ _ Hp Hg) as Hg'. unfold run_stage. apply wp_bind.
  eapply (wp_mono _ (fun _ e' => st e' g' v)); [case_decide; apply st_keep; (apply keeps_setpgid || done)|]. intros_st e0 Hst0.
  apply wp_or_end. eapply wp_mono; [apply (wp_redirect _ _ 0 e0 g' v Hst0 Hg'); lia|].
  intros r e1 [[-> Hf]|(-> & o0 & Ho0 & Hn0 & Hst1)]; [left; split; [done|by left]|]. rewrite (pt_low _ _ _ _ 0 Hp Hg) in Ho0 by lia.
  set (h1 := fupd g' 0 o0) in *. assert (std_open h1) as Hh1 by (by apply std_fupd_some).
  apply wp_or_end. eapply wp_mono; [apply (wp_redirect _ _ 1 e1 h1 v Hst1 Hh1); lia|].
  intros r e2 [[-> Hf]|(-> & o1 & Ho1 & Hn1 & Hst2)]; [left; split; [done|by right; left]|]. change (h1 1%nat) with (g' 1%nat) in Ho1. rewrite (pt_low _ _ _ _ 1 Hp Hg) in Ho1 by lia.
  set (h2 := fupd h1 1 o1) in *. assert (std_open h2) as Hh2 by (by apply std_fupd_some).
  apply wp_or_end. eapply wp_mono; [apply (wp_redirect _ _ 2 e2 h2 v Hst2 Hh2); lia|].
  intros r e3 [[-> Hf]|(-> & o2 & Ho2 & Hn2 & Hst3)]; [left; split; [done|by right; right]|]. change (h2 2%nat) with (g' 2%nat) in Ho2. rewrite (pt_low _ _ _ _ 2 Hp Hg) in Ho2 by lia.
  set (h3 := fupd h2 2 o2) in *. assert (std_open h3) as Hh3 by (by apply std_fupd_some).
  assert (forall k, (3 <= k)%nat -> h3 k = g' k) as Hhigh by (intros k Hk; unfold h3, h2, h1, fupd; rewrite !decide_False by lia; done).
  assert (forall j, (j < n - 1)%nat -> exists p q, ps !! j = Some p /\ refs !! j = Some q /\ (3 <= fst p)%nat /\ (3 <= snd p)%nat /\
    g' (fst p) = Some (fst q) /\ g' (snd p) = Some (snd q)) as Hpipe by (intros j Hj; apply (pt_at g); [done|done|lia]).
  (* the pipe on the input *)
  set (h4 := if decide (0 < i)%nat then fupd h3 0 (fst <$> refs !! (i - 1)%nat) else h3).
  apply wp_bind. eapply (wp_mono _ (fun _ e' => st e' h4 v)).
  { unfold h4. case_decide as H0i; [|by apply wp_ret]. destruct (Hpipe (i - 1)%nat ltac:(lia)) as (p & q & Ep & Eq & H1 & _ & E1 & _). rewrite Eq.
    apply (wp_take_pipe ps (i - 1) p fst (fst p) (fst q) 0 e3 h3 v Hst3 Hh3); [lia|done|done|lia|]. by rewrite Hhigh. }
  intros_st e4 Hst4. assert (std_open h4) as Hh4.
  { unfold h4. case_decide; [|done]. destruct (Hpipe (i - 1)%nat ltac:(lia)) as (p & q & Ep & Eq & _). rewrite Eq. by apply std_fupd. }
  assert (forall k, (3 <= k)%nat -> h4 k = g' k) as Hhigh4 by (intros k Hk; unfold h4; case_decide; [unfold fupd; rewrite decide_False by lia|]; by apply Hhigh).
  (* the pipe on the output *)
  set (h5 := if decide (i + 1 < n)%nat then fupd h4 1 (snd <$> refs !! i) else h4).
  apply wp_bind. eapply (wp_mono _ (fun _ e' => st e' h5 v)).
  { unfold h5. case_decide as H0i; [|by apply wp_ret]. destruct (Hpipe i ltac:(lia)) as (p & q & Ep & Eq & _ & H2 & _ & E2). rewrite Eq.
    apply (wp_take_pipe ps i p snd (snd p) (snd q) 1 e4 h4 v Hst4 Hh4); [lia|done|done|lia|]. by rewrite Hhigh4. }
  intros_st e5 Hst5. apply wp_bind. eapply wp_mono; [by apply wp_close_pipes|]. intros_st e6 Hst6. cbv zeta.
  eapply wp_mono; [by apply wp_stage_program|]. intros r e7 [Hr Hst7]. right. exists o0, o1, o2. split_and!; try done.
  intros k. rewrite (st_fds _ _ _ Hst7). destruct (decide (k ∈ pipe_fds ps)) as [Hin|Hin].
  - pose proof (pt_ge _ _ _ _ _ Hp Hg Hin). destruct k as [|[|[|k]]]; try lia. cbn. symmetry. by apply (pt_new _ _ _ _ Hp).
  - destruct k as [|[|[|k]]]; cbn [stage_fd]; [unfold h5, h4, h3, h2, h1; repeat case_decide; done..|].
    transitivity (g' (S (S (S k)))); [|by apply (pt_other _ _ _ _ Hp)].
    unfold h5. case_decide; [unfold fupd at 1; rewrite decide_False by lia|]; apply Hhigh4; lia.
Qed.

(** *** The loop over the stages *)

(** What the fork of stage [i] leaves. *)
Definition forked_stage (g : nat -> option FileRef) (refs : list (FileRef * FileRef)) (n i : nat) (s : Stage)
    (x : Z * option (proc_end * FdTable)) : Prop :=
  is_pid (fst x) /\ exists r t, snd x = Some (r, t) /\ stage_end g refs n i s r t.

Lemma wp_fork_stages history n ps refs g g' stages : forall i children pgid e v,
  st e g' v -> pipe_table g ps refs g' -> std_open g -> length ps = (n - 1)%nat -> (i + length stages = n)%nat ->
  wp (fork_stages history n (map zpair ps) i stages children pgid) (fun r e' => exists l, fst r = children ++ map fst l /\
    Forall2 (fun k_s x => forked_stage g refs n (fst k_s) (snd k_s) x) (zip (seq i (length stages)) stages) l /\
    st e' g' (add_forked l v)) e.
Proof using.
  induction stages as [|s stages IH]; intros i children pgid e v Hst Hp Hg Hl Hn; cbn [fork_stages length] in *.
  - apply wp_ret. exists []. split; [cbn; by rewrite app_nil_r|]. split; [constructor|].
    unfold add_forked. destruct v as [? ? c ? ?]. cbn. by rewrite app_nil_r, (left_id_L ∅ (∪)).
  - apply wp_bind. eapply wp_mono; [apply law_fork|]. intros pid e1 (Hpid & c & Ec & Ev).
    assert (st c g' (view c)) as Hstc by (split; [|done]; intros k; rewrite Ec; apply (st_fds _ _ _ Hst)).
    pose proof (wp_run_stage history n ps refs pgid i s c g g' _ Hstc Hp Hg ltac:(lia) Hl) as Hs. apply wp_run in Hs as (r & c' & Er & Hend). rewrite Er in Ev.
    assert (st e1 g' (add_forked [(pid, Some (r, v_fds (view c')))] v)) as Hst1.
    { split; rewrite Ev; [intros k; apply (st_fds _ _ _ Hst)|]. pose proof (st_rest _ _ _ Hst) as E1. unfold with_fds, add_forked in *. cbn.
      injection E1 as -> -> -> ->. done. }
    assert (usize_wrap pid = pid) as -> by (apply Z.mod_small; unfold is_pid in Hpid; lia).
    apply wp_bind. eapply wp_mono; [apply st_keep; [apply keeps_setpgid|exact Hst1]|]. intros_st e2 Hst2.
    eapply wp_mono; [eapply (IH (i + 1)%nat); [exact Hst2|done|done|done|lia]|]. intros [cs pg] e3 (l & Ecs & Hfa & Hst3). cbn [fst] in Ecs.
    exists ((pid, Some (r, v_fds (view c'))) :: l). split; [cbn; by rewrite Ecs, <- app_assoc|]. split.
    + cbn [seq zip zip_with]. constructor; [split; [done|]; by exists r, (v_fds (view c'))|]. by rewrite Nat.add_1_r in Hfa.
    + destruct Hst3 as [Hf Hr]. split; [done|]. rewrite Hr. unfold with_fds, add_forked. cbn. rewrite <- app_assoc. f_equal. set_solver.
Qed.

End Props.
