(* ===== verification/ShellJobsProps.v ===== *)
(** * Jobs of the user shell: properties

    Waiting and reaping, the table of jobs, and the commands of a line, against
    the laws of [ShellPipeline]: every stage of a pipeline gets the descriptors
    it should, and no command loses a child, a descriptor or the terminal.  The
    last part is an environment that satisfies the laws. *)

From Stdlib Require Import String.
From S2P Require Import Prelude Process Shell ShellJobs Descriptors ShellPipeline.
From stdpp Require Import gmap.
Open Scope Z_scope.

Section Waiting.
Context {E : Type} `{UserCallsLaws E}.
Implicit Types e : E.

(** ** Waiting *)

(** Children may have been reaped, nothing else has changed. *)
Definition fewer (v v' : View) : Prop := exists c, c ⊆ v_children v /\ v' = with_children c v.

Lemma fewer_refl v : fewer v v.
Proof using. exists (v_children v). by destruct v. Qed.
Lemma fewer_trans v1 v2 v3 : fewer v1 v2 -> fewer v2 v3 -> fewer v1 v3.
Proof using. intros (c & Hc & ->) (c' & Hc' & ->). exists c'. split; [|done]. cbn in Hc'. by etransitivity. Qed.
Lemma fewer_children v v' p : fewer v v' -> p ∈ v_children v' -> p ∈ v_children v.
Proof using. intros (c & Hc & ->) Hp. by apply Hc. Qed.

Lemma wp_wait_foreground pid : is_pid pid -> forall fuel code e, (polls e pid < fuel)%nat ->
  wp (wait_foreground fuel pid code) (fun r e' => fewer (view e) (view e') /\ (r = WaitStopped \/ ~ (pid ∈ v_children (view e')))) e.
Proof using.
  intros Hpid. induction fuel as [|fuel IH]; intros code e Hfuel; [lia|]. cbn [wait_foreground]. apply wp_bind.
  eapply wp_mono; [by apply law_waitpid|]. intros [ret o] e1. cbn [fst snd]. intros [[-> Ev]|(Ev & [[-> Hin]|[[-> _]|[-> Hp]]])].
  - unfold is_pid in Hpid. rewrite !(proj2 (Z.eqb_neq _ _)) by lia. apply wp_ret. rewrite Ev. split; [|right; cbn; set_solver].
    exists (v_children (view e) ∖ {[pid]}). split; [set_solver|done].
  - cbn [Z.eqb Pos.eqb]. apply wp_ret. rewrite Ev. split; [apply fewer_refl|by right].
  - cbn [Z.eqb Pos.eqb]. apply wp_ret. rewrite Ev. split; [apply fewer_refl|by left].
  - cbn [Z.eqb Pos.eqb]. apply wp_bind. eapply wp_mono; [apply law_sleep|]. intros ? e2 [Ev2 Hp2]. specialize (Hp eq_refl). specialize (Hp2 pid).
    rewrite <- Ev, <- Ev2. apply IH. lia.
Qed.

Lemma wp_wait_all fuel pids e : Forall is_pid pids -> (max_polls < fuel)%nat ->
  wp (wait_all fuel pids) (fun r e' => fewer (view e) (view e') /\ (snd r = false -> forall pid, pid ∈ pids -> ~ (pid ∈ v_children (view e')))) e.
Proof using.
  intros Hpids Hfuel. unfold wait_all.
  apply (wp_mfold _ pids (fun done r e' => fewer (view e) (view e') /\ (snd r = false -> forall pid, pid ∈ done -> ~ (pid ∈ v_children (view e'))))).
  - split; [apply fewer_refl|]. by intros _ pid ?%elem_of_nil.
  - intros done pid [code stopped] e1 Hpre [Hf Hd]. apply wp_bind. eapply wp_mono; [apply wp_wait_foreground|].
    + rewrite Forall_forall in Hpids. apply Hpids. destruct Hpre as [rest ->]. set_solver.
    + pose proof (law_polls e1 pid). lia.
    + intros r e2 [Hf2 Hr]. apply wp_ret. split; [by eapply fewer_trans|]. cbn [snd] in Hd.
      destruct r as [code'|]; cbn [snd]; [|done]. intros Hs p [Hp|Hp]%elem_of_app.
      * intros Hin. apply (Hd Hs p Hp). by eapply fewer_children.
      * apply list_elem_of_singleton in Hp as ->. by destruct Hr.
Qed.

Lemma wp_reap_pids pids e : Forall is_pid pids ->
  wp (reap_pids pids) (fun r e' => fewer (view e) (view e') /\ forall pid, pid ∈ fst r -> ~ (pid ∈ v_children (view e'))) e.
Proof using.
  intros Hpids. unfold reap_pids.
  apply (wp_mfold _ pids (fun _ r e' => fewer (view e) (view e') /\ forall pid, pid ∈ fst r -> ~ (pid ∈ v_children (view e')))).
  - split; [apply fewer_refl|]. by intros pid ?%elem_of_nil.
  - intros done pid [fin code] e1 Hpre [Hf Hd]. cbn [fst snd] in *. assert (is_pid pid) as Hpid.
    { rewrite Forall_forall in Hpids. apply Hpids. destruct Hpre as [rest ->]. set_solver. }
    assert (as_isize pid = pid) as -> by (unfold as_isize; unfold is_pid in Hpid; case_zb; zdiv_lia).
    apply wp_bind. eapply wp_mono; [by apply law_waitpid|]. intros [ret o] e2. cbn [fst snd].
    assert (forall e2, view e2 = view e1 -> fewer (view e) (view e2) /\ forall p, p ∈ fin -> ~ (p ∈ v_children (view e2))) as Hsame by (by intros ? ->).
    unfold is_pid in Hpid. intros [[-> Ev]|(Ev & [[-> Hin]|[[-> _]|[-> _]]])].
    + rewrite Z.eqb_refl. apply wp_ret. cbn [fst]. split.
      * eapply fewer_trans; [exact Hf|]. rewrite Ev. exists (v_children (view e1) ∖ {[pid]}). split; [set_solver|done].
      * rewrite Ev. cbn. intros p [Hp|Hp]%elem_of_app; [specialize (Hd p Hp)|apply list_elem_of_singleton in Hp as ->]; set_solver.
    + rewrite orb_true_r. apply wp_ret. cbn [fst]. destruct (Hsame e2 Ev) as [H1 H2]. split; [done|]. rewrite Ev in *.
      intros p [Hp|Hp]%elem_of_app; [by apply H2|by apply list_elem_of_singleton in Hp as ->].
    + rewrite (proj2 (Z.eqb_neq _ _)) by lia. apply wp_ret. by apply Hsame.
    + rewrite (proj2 (Z.eqb_neq _ _)) by lia. apply wp_ret. by apply Hsame.
Qed.

(** A job after a round of [reap_jobs], with [c] the children that are left. *)
Definition reaped (c : gset Z) (j j' : Job) : Prop :=
  jb_jid j' = jb_jid j /\ (forall p, p ∈ jb_pids j' -> p ∈ jb_pids j) /\ (forall p, p ∈ c -> p ∈ jb_pids j -> p ∈ jb_pids j') /\
  (is_done j' = true -> jb_pids j' = []).

Lemma wp_reap_job j e : Forall is_pid (jb_pids j) -> is_done j = false ->
  wp (reap_job j) (fun j' e' => fewer (view e) (view e') /\ reaped (v_children (view e')) j j') e.
Proof using.
  intros Hpids Hd. unfold reap_job. apply wp_bind. eapply wp_mono; [by apply wp_reap_pids|]. intros [fin code] e1 [Hf Hfin]. apply wp_ret. split; [done|].
  cbn [fst] in Hfin. set (pids := List.filter _ _).
  assert (forall p, p ∈ pids <-> p ∈ jb_pids j /\ ~ (p ∈ fin)) as Hpids'.
  { intros p. unfold pids. rewrite list_elem_of_In, filter_In, <- list_elem_of_In, negb_true_iff, bool_decide_eq_false. done. }
  assert (reaped (v_children (view e1)) j (set_pids pids j)) as (H1 & H2 & H3 & _).
  { split; [done|]. cbn [jb_pids set_pids]. split; [intros p Hp; by apply Hpids'|]. split; [intros p Hc Hp; apply Hpids'; split; [done|]; intros Hin; by apply (Hfin p)|].
    intros Ed. unfold is_done in *. cbn in Ed. by rewrite Hd in Ed. }
  destruct pids as [|p pids]; cbn [is_empty]; (split; [exact H1|]); (split; [exact H2|]); (split; [exact H3|]); [done|].
  intros Ed. unfold is_done in *. cbn in Ed. by rewrite Hd in Ed.
Qed.

Lemma reaped_mono c c' j j' : c' ⊆ c -> reaped c j j' -> reaped c' j j'.
Proof using. intros Hc (H1 & H2 & H3 & H4). split; [done|]. split; [done|]. split; [|done]. intros p Hp. apply H3. by apply Hc. Qed.

Lemma wp_reap_loop jobs : forall e, Forall (fun j => Forall is_pid (jb_pids j) /\ is_done j = false) jobs ->
  wp (reap_loop jobs) (fun jobs' e' => fewer (view e) (view e') /\ Forall2 (reaped (v_children (view e'))) jobs jobs') e.
Proof using.
  induction jobs as [|j jobs IH]; intros e Hj; cbn [reap_loop].
  - apply wp_ret. split; [apply fewer_refl|constructor].
  - apply Forall_cons in Hj as [[Hp Hd] Hj]. apply wp_bind. eapply wp_mono; [by apply wp_reap_job|]. intros j' e1 [Hf1 Hr1].
    apply wp_bind. eapply wp_mono; [by apply IH|]. intros jobs' e2 [Hf2 Hr2]. apply wp_ret. split; [by eapply fewer_trans|]. constructor; [|done].
    eapply reaped_mono; [|exact Hr1]. intros p. by apply fewer_children.
Qed.

End Waiting.

(** ** Sublists *)

Lemma sublist_Forall {A} (P : A -> Prop) (l k : list A) : l `sublist_of` k -> Forall P k -> Forall P l.
Proof. induction 1; [done|rewrite !Forall_cons; tauto|rewrite Forall_cons; tauto]. Qed.
Lemma sublist_NoDup_ {A} (l k : list A) : l `sublist_of` k -> NoDup k -> NoDup l.
Proof.
  induction 1 as [|x l k Hs IH|x l k Hs IH]; [done|rewrite !NoDup_cons|rewrite NoDup_cons; tauto]. intros [Hx Hk]. split; [|by apply IH].
  intros Hin. assert (Forall (fun y => y <> x) l) as Hf by (eapply sublist_Forall; [exact Hs|]; apply Forall_forall; by intros y Hy ->).
  rewrite Forall_forall in Hf. by apply (Hf x Hin).
Qed.

Lemma sublist_map {A B} (f : A -> B) (l k : list A) : l `sublist_of` k -> map f l `sublist_of` map f k.
Proof. induction 1; cbn; by constructor. Qed.

Lemma find_job_lt args jobs idx : find_job args jobs = Some idx -> (idx < length jobs)%nat.
Proof.
  unfold find_job. destruct args as [|a args]; [destruct (length jobs); [done|]; intros [= <-]; lia|].
  destruct (parse_usize a); [|done]. by intros (x & Hx%lookup_lt_Some & _)%position_Some.
Qed.

(** ** The shell *)

Section Shell.
Context {E : Type} `{UserCallsLaws E}.
Implicit Types s : ShellWorld E.

Definition sw_view s : View := view (sw_env s).
Definition jobs_of s : list Job := sh_jobs (sw_shell s).

Lemma wp_env {A} (m : M E A) (Q : A -> ShellWorld E -> Prop) s :
  wp m (fun a e => Q a (mkShellWorld (sw_shell s) e)) (sw_env s) -> wp (env m) Q s.
Proof using. unfold wp, env. by destruct (m _) as [[a e]|]. Qed.
Lemma wp_upd f (Q : unit -> ShellWorld E -> Prop) s : Q tt (mkShellWorld (f (sw_shell s)) (sw_env s)) -> wp (upd f) Q s.
Proof using. done. Qed.

(** The shell at its prompt: the standard descriptors are open, every child is
    in a job, no job is over, the numbers of the jobs are different, and the
    group the shell has last put in the foreground is its own. *)
Record shell_ok s : Prop := {
  so_std : std_open (fd_at (v_fds (sw_view s)));
  so_children : forall p, p ∈ v_children (sw_view s) -> exists j, j ∈ jobs_of s /\ p ∈ jb_pids j;
  so_jobs : Forall (fun j => Forall is_pid (jb_pids j) /\ is_done j = false) (jobs_of s);
  so_jids : NoDup (map jb_jid (jobs_of s)) /\ Forall (fun jid => jid < sh_next_jid (sw_shell s)) (map jb_jid (jobs_of s));
  so_next : 0 <= sh_next_jid (sw_shell s);
  so_fg : v_fg (sw_view s) = self_group;
  so_pgrp : sh_pgrp (sw_shell s) = self_group
}.

(** What a command leaves alone. *)
Definition same_fds s s' : Prop := forall k, fd_at (v_fds (sw_view s')) k = fd_at (v_fds (sw_view s)) k.

Lemma same_fds_trans s1 s2 s3 : same_fds s1 s2 -> same_fds s2 s3 -> same_fds s1 s3.
Proof using. intros H1 H2 k. by rewrite H2. Qed.

(** From prompt to prompt, with at most [n] new jobs. *)
Definition prompt_to (n : Z) s s' : Prop :=
  shell_ok s' /\ same_fds s s' /\ sh_next_jid (sw_shell s) <= sh_next_jid (sw_shell s') <= sh_next_jid (sw_shell s) + n.

Lemma prompt_refl s n : shell_ok s -> 0 <= n -> prompt_to n s s.
Proof using. intros Hs Hn. split; [done|]. split; [by intros k|lia]. Qed.
Lemma prompt_weaken n m s s' : n <= m -> prompt_to n s s' -> prompt_to m s s'.
Proof using. intros Hnm (H1 & H2 & H3). split; [done|]. split; [done|lia]. Qed.
Lemma prompt_trans n m s1 s2 s3 : prompt_to n s1 s2 -> prompt_to m s2 s3 -> prompt_to (n + m) s1 s3.
Proof using. intros (_ & H1 & H2) (H3 & H4 & H5). split; [done|]. split; [by eapply same_fds_trans|lia]. Qed.

Lemma prompt_then n s1 s2 s3 : prompt_to 0 s1 s2 -> prompt_to n s2 s3 -> prompt_to n s1 s3.
Proof using. intros H1 H2. change n with (0 + n). by eapply prompt_trans. Qed.

(** Changes of the environment that cannot hurt: the same table, fewer
    children, the same foreground. *)
Lemma prompt_env s e : shell_ok s -> (forall k, fd_at (v_fds (view e)) k = fd_at (v_fds (sw_view s)) k) ->
  v_children (view e) ⊆ v_children (sw_view s) -> v_fg (view e) = self_group -> prompt_to 0 s (mkShellWorld (sw_shell s) e).
Proof using.
  intros [H1 H2 H3 H4 Hn H5 H6] Hf Hc Hg. split; [|split; [exact Hf|cbn; lia]]. split; try done.
  - intros k Hk. unfold sw_view. cbn. rewrite Hf. by apply H1.
  - intros p Hp. apply H2. by apply Hc.
Qed.

Lemma quiet_env {A} (m : M E A) s : keeps m -> shell_ok s -> wp (env m) (fun _ s' => prompt_to 0 s s') s.
Proof using.
  intros Hm Hs. apply wp_env. eapply wp_mono; [apply Hm|]. intros ? e Ev. cbv beta in Ev. apply prompt_env; [done|..]; rewrite Ev; try done. apply (so_fg _ Hs).
Qed.

(** A new table that still has a place for every child. *)
Lemma prompt_table s jobs : shell_ok s -> map jb_jid jobs `sublist_of` map jb_jid (jobs_of s) ->
  Forall (fun j => Forall is_pid (jb_pids j) /\ is_done j = false) jobs ->
  (forall p, p ∈ v_children (sw_view s) -> exists j, j ∈ jobs /\ p ∈ jb_pids j) ->
  prompt_to 0 s (mkShellWorld (set_jobs jobs (sw_shell s)) (sw_env s)).
Proof using.
  intros [H1 H2 H3 [H4 H4'] Hn H5 H6] Hsub Hj Hc. split; [|split; [by intros k|cbn; lia]]. split; try done.
  unfold jobs_of. cbn. split; [by eapply sublist_NoDup_|]. by eapply sublist_Forall.
Qed.

Lemma jobs_pids s j : shell_ok s -> j ∈ jobs_of s -> Forall is_pid (jb_pids j) /\ is_done j = false.
Proof using. intros Hs Hj. pose proof (so_jobs _ Hs) as H1. rewrite Forall_forall in H1. by apply H1. Qed.

(** The status of one job changes. *)
Lemma prompt_update s idx st : shell_ok s -> (forall code, st <> JobDone code) ->
  wp (update_job idx (set_status st)) (fun _ s' => prompt_to 0 s s' /\ jobs_of s' = alter (set_status st) idx (jobs_of s)) s.
Proof using.
  intros Hs Hst. apply wp_upd. split; [|done]. apply prompt_table; [done|..].
  - replace (map jb_jid (alter _ _ _)) with (map jb_jid (jobs_of s)); [done|]. apply list_eq. intros i. rewrite !list_lookup_fmap.
    unfold jobs_of. rewrite list_lookup_alter. case_decide; [subst|done]. by destruct (_ !! _).
  - apply Forall_alter; [apply (so_jobs _ Hs)|]. intros j _ [Hp _]. split; [done|]. unfold is_done. cbn. destruct st as [| |code]; [done|done|by destruct (Hst code)].
  - intros p Hp. destruct (so_children _ Hs p Hp) as (j & Hin & Hpj). apply list_elem_of_lookup in Hin as [i Hi].
    destruct (decide (i = idx)) as [->|Hne].
    + exists (set_status st j). split; [|done]. apply list_elem_of_lookup. exists idx. rewrite list_lookup_alter_eq. unfold jobs_of in Hi. by rewrite Hi.
    + exists j. split; [|done]. apply list_elem_of_lookup. exists i. by rewrite list_lookup_alter_ne.
Qed.

Lemma wp_reap_table jobs e : Forall (fun j => Forall is_pid (jb_pids j) /\ is_done j = false) jobs ->
  wp (reap_loop jobs) (fun jobs' e' => fewer (view e) (view e') /\
    let left := List.filter (fun j => negb (is_done j)) jobs' in
    map jb_jid left `sublist_of` map jb_jid jobs /\ Forall (fun j => Forall is_pid (jb_pids j) /\ is_done j = false) left /\
    forall p j, p ∈ v_children (view e') -> j ∈ jobs -> p ∈ jb_pids j -> exists j', j' ∈ left /\ p ∈ jb_pids j') e.
Proof using.
  intros Hj. eapply wp_mono; [by apply wp_reap_loop|]. intros jobs' e1 [Hf Hr]. split; [done|]. cbv zeta. clear Hf.
  revert Hj. induction Hr as [|j j' jobs jobs' (H1 & H2 & H3 & H4) Hr IH]; intros Hj; [split; [done|]; split; [constructor|]; by intros p j _ ?%elem_of_nil|].
  apply Forall_cons in Hj as [[Hp Hd] Hj]. destruct (IH Hj) as (IH1 & IH2 & IH3). cbn [List.filter map]. destruct (is_done j') eqn:Ed; cbn [negb].
  - split; [by apply sublist_cons|]. split; [done|]. intros p j0 Hc [->|Hin]%elem_of_cons Hpj; [|by eapply IH3].
    specialize (H3 p Hc Hpj). rewrite H4 in H3 by done. by apply elem_of_nil in H3.
  - cbn [map]. rewrite H1. split; [by apply sublist_skip|]. split.
    + constructor; [|done]. split; [|done]. apply Forall_forall. intros p Hp'. rewrite Forall_forall in Hp. by apply Hp, H2.
    + intros p j0 Hc [->|Hin]%elem_of_cons Hpj; [exists j'; split; [by left|by apply H3]|]. destruct (IH3 p j0 Hc Hin Hpj) as (j1 & Hj1 & Hp1).
      exists j1. split; [by right|done].
Qed.

Lemma prompt_reap s : shell_ok s -> wp reap_jobs (fun _ s' => prompt_to 0 s s') s.
Proof using.
  intros Hs. pose proof (so_jobs _ Hs) as Hj. unfold reap_jobs. apply wp_bind. unfold the_shell. apply wp_gets, wp_bind, wp_env.
  eapply wp_mono; [apply wp_reap_table; exact Hj|]. intros jobs e1 ((c & Hc & Ev) & Hsub & Hl & Hk). apply wp_bind, wp_env. cbn [sw_env sw_shell].
  eapply wp_mono; [apply keeps_mfor; intros j; unfold report_done; destruct (jb_status j); first [apply keeps_println|apply keeps_ret]|].
  intros ? e2 Ev2. cbv beta in Ev2. apply wp_upd. cbn [sw_env sw_shell].
  assert (prompt_to 0 s (mkShellWorld (sw_shell s) e2)) as Hp1.
  { apply prompt_env; [done|..]; rewrite Ev2, Ev; try done. apply (so_fg _ Hs). }
  eapply prompt_then; [exact Hp1|]. destruct Hp1 as [Hs1 _].
  apply (prompt_table (mkShellWorld (sw_shell s) e2)); [done|done|done|]. intros p Hp. unfold sw_view in Hp. cbn in Hp.
  destruct (so_children _ Hs1 p Hp) as (j & Hin & Hpj). rewrite Ev2 in Hp. by eapply Hk.
Qed.


(** A job leaves the table when its processes are gone. *)
Lemma prompt_delete s idx j : shell_ok s -> jobs_of s !! idx = Some j -> (forall p, p ∈ jb_pids j -> ~ (p ∈ v_children (sw_view s))) ->
  prompt_to 0 s (mkShellWorld (set_jobs (delete idx (jobs_of s)) (sw_shell s)) (sw_env s)).
Proof using.
  intros Hs Hj Hgone. assert (delete idx (jobs_of s) `sublist_of` jobs_of s) as Hsub by apply sublist_delete. apply prompt_table; [done|..].
  - by apply sublist_map.
  - eapply sublist_Forall; [exact Hsub|apply (so_jobs _ Hs)].
  - intros p Hp. destruct (so_children _ Hs p Hp) as (j' & Hin & Hpj). apply list_elem_of_lookup in Hin as [i Hi].
    destruct (decide (i = idx)) as [->|Hne]; [rewrite Hj in Hi; injection Hi as <-; by destruct (Hgone p Hpj)|].
    exists j'. split; [|done]. apply list_elem_of_lookup. destruct (decide (i < idx)%nat).
    + exists i. by rewrite list_lookup_delete_lt.
    + exists (i - 1)%nat. rewrite list_lookup_delete_ge by lia. by replace (S (i - 1)) with i by lia.
Qed.

(** A new job takes in the new children. *)
Lemma prompt_push s e pgid pids cmdline st : shell_ok s -> (forall k, fd_at (v_fds (view e)) k = fd_at (v_fds (sw_view s)) k) ->
  v_fg (view e) = self_group -> (forall p, p ∈ v_children (view e) -> p ∈ v_children (sw_view s) \/ p ∈ pids) -> Forall is_pid pids ->
  (forall code, st <> JobDone code) -> sh_next_jid (sw_shell s) + 1 < 2 ^ 64 ->
  wp (push_job pgid pids cmdline st) (fun _ s' => prompt_to 1 s s' /\ sw_env s' = e) (mkShellWorld (sw_shell s) e).
Proof using.
  intros [H1 H2 H3 [H4 H4'] Hn H5 H6] Hf Hg Hc Hp Hst Hnext. apply wp_upd. cbn [sw_shell sw_env].
  replace (usize_wrap (sh_next_jid (sw_shell s) + 1)) with (sh_next_jid (sw_shell s) + 1) by (unfold usize_wrap; rewrite Z.mod_small; lia).
  set (j := mkJob _ _ _ _ _). split; [|done]. split; [|split; [exact Hf|cbn; lia]]. split; unfold jobs_of, sw_view in *; cbn [sw_env sw_shell sh_jobs sh_next_jid sh_pgrp]; try done.
  - intros k Hk. rewrite Hf. by apply H1.
  - intros p Hin. destruct (Hc p Hin) as [Hold|Hnew].
    + destruct (H2 p Hold) as (j' & Hj' & Hpj). exists j'. split; [apply elem_of_app; by left|done].
    + exists j. split; [apply elem_of_app; right; by left|done].
  - apply Forall_app. split; [done|]. constructor; [|done]. split; [done|]. unfold is_done. cbn. destruct st as [| |code]; [done|done|by destruct (Hst code)].
  - rewrite map_app. cbn. split.
    + apply NoDup_app. split; [done|]. split; [|apply NoDup_singleton]. intros jid Hin ->%list_elem_of_singleton.
      rewrite Forall_forall in H4'. specialize (H4' _ Hin). lia.
    + apply Forall_app. split; [|constructor; [lia|constructor]]. eapply Forall_impl; [exact H4'|]. cbn. intros. lia.
  - lia.
Qed.

(** What is printed does not matter. *)
Lemma wp_env_keeps {A B} (m : M E A) (k : A -> M (ShellWorld E) B) (Q : B -> ShellWorld E -> Prop) s : keeps m ->
  (forall a e, view e = sw_view s -> wp (k a) Q (mkShellWorld (sw_shell s) e)) -> wp (a ← env m; k a) Q s.
Proof using. intros Hm Hk. apply wp_bind, wp_env. eapply wp_mono; [apply Hm|]. intros a e Ev. by apply Hk. Qed.

(** *** Built-in commands *)

Lemma quiet_call (m : M E Z) (P : Z -> bool) (f : M E unit) s : keeps m -> keeps f -> shell_ok s ->
  wp (r ← env m; if P r then env f else mret tt) (fun _ s' => prompt_to 0 s s') s.
Proof using.
  intros Hm Hf Hs. apply wp_bind. eapply wp_mono; [by apply quiet_env|]. intros r s1 Hp1. destruct (P r); [|by apply wp_ret].
  eapply wp_mono; [apply quiet_env; [done|apply Hp1]|]. intros ? s2 Hp2. exact (prompt_then _ _ _ _ Hp1 Hp2).
Qed.

Lemma quiet_cd args s : shell_ok s -> wp (builtin_cd args) (fun _ s' => prompt_to 0 s s') s.
Proof using. intros Hs. unfold builtin_cd. apply (quiet_call _ (fun r => negb (r =? 0))); [apply keeps_chdir|apply keeps_println|done]. Qed.

Lemma quiet_kill args s : shell_ok s -> wp (builtin_kill args) (fun _ s' => prompt_to 0 s s') s.
Proof using.
  intros Hs. unfold builtin_kill.
  assert (forall m : M E unit, keeps m -> wp (env m) (fun _ s' => prompt_to 0 s s') s) as Hq by (intros; by apply quiet_env).
  destruct args as [|first args]; [apply Hq, keeps_println|]. destruct (kill_signal first) as [[signal target]|name]; [|apply Hq, keeps_println].
  destruct (_ !! target) as [arg|]; [|apply Hq, keeps_println]. destruct (strip_minus arg ≫= parse_usize) as [pid|].
  - apply (quiet_call _ (fun r => negb (r =? 0))); [apply keeps_kill|apply keeps_println|done].
  - destruct (parse_usize arg) as [pid|]; [|apply Hq, keeps_println].
    apply (quiet_call _ (fun r => negb (r =? 0))); [apply keeps_kill|apply keeps_println|done].
Qed.

Lemma quiet_history args s : shell_ok s -> wp (builtin_history args) (fun _ s' => prompt_to 0 s s') s.
Proof using.
  intros Hs. unfold builtin_history. case_decide.
  - apply wp_upd. destruct Hs. split; [|split; [by intros k|cbn; lia]]. by split.
  - apply wp_bind. unfold the_shell. apply wp_gets. apply quiet_env; [apply keeps_history|done].
Qed.

Lemma quiet_jobs s : shell_ok s -> wp builtin_jobs (fun _ s' => prompt_to 0 s s') s.
Proof using.
  intros Hs. unfold builtin_jobs. apply wp_bind. eapply wp_mono; [by apply prompt_reap|]. intros ? s1 Hp1. cbv beta in Hp1.
  apply wp_bind. unfold the_shell. apply wp_gets. eapply wp_mono; [apply quiet_env; [|apply Hp1]|].
  - apply keeps_mfor. intros. apply keeps_println.
  - intros ? s2 Hp2. exact (prompt_then _ _ _ _ Hp1 Hp2).
Qed.

Lemma wp_update_job idx f (Q : unit -> ShellWorld E -> Prop) s :
  Q tt (mkShellWorld (set_jobs (alter f idx (jobs_of s)) (sw_shell s)) (sw_env s)) -> wp (update_job idx f) Q s.
Proof using. done. Qed.

Lemma quiet_bg args s : shell_ok s -> wp (builtin_bg args) (fun _ s' => prompt_to 0 s s') s.
Proof using.
  intros Hs. unfold builtin_bg. apply wp_bind. unfold the_shell. apply wp_gets.
  assert (forall s1 (m : M E unit), prompt_to 0 s s1 -> keeps m -> wp (env m) (fun _ s' => prompt_to 0 s s') s1) as Hq.
  { intros s1 m Hp1 Hm. eapply wp_mono; [apply quiet_env; [done|apply Hp1]|]. intros ? s2 Hp2. exact (prompt_then _ _ _ _ Hp1 Hp2). }
  pose proof (prompt_refl s 0 Hs ltac:(lia)) as Hp0. fold (jobs_of s). destruct (find_job args (jobs_of s)) as [idx|] eqn:Ej; [|apply Hq; [done|apply keeps_println]].
  apply find_job_lt in Ej. destruct (lookup_lt_is_Some_2 _ _ Ej) as [j Hj]. apply wp_bind, wp_unwrap. exists j. split; [exact Hj|].
  destruct (jb_status j); [apply Hq; [done|apply keeps_println]| |apply Hq; [done|apply keeps_println]].
  apply wp_bind. eapply wp_mono; [apply quiet_env; [apply keeps_kill|done]|]. intros r s1 Hp1.
  destruct (negb (r =? 0)); [apply Hq; [done|apply keeps_println]|]. apply wp_bind. eapply wp_mono; [by apply prompt_update; [apply Hp1|]|]. intros ? s2 [Hp2 _].
  apply Hq; [|apply keeps_println]. exact (prompt_then _ _ _ _ Hp1 Hp2).
Qed.

(** *** Pipelines *)

(** Every stage of the pipeline has run with the descriptors it should have, and
    the shell has its own back. *)
Definition plumbed (cmd : Command) s s' : Prop :=
  exists refs l, length refs = (length (cm_stages cmd) - 1)%nat /\
    v_pipes (sw_view s') = v_pipes (sw_view s) ++ refs /\ v_forked (sw_view s') = v_forked (sw_view s) ++ l /\
    Forall2 (fun k_s x => forked_stage (fd_at (v_fds (sw_view s))) refs (length (cm_stages cmd)) (fst k_s) (snd k_s) x)
      (zip (seq 0 (length (cm_stages cmd))) (cm_stages cmd)) l /\ same_fds s s'.

Lemma forked_pids g refs n ks l : Forall2 (fun k_s x => forked_stage g refs n (fst k_s) (snd k_s) x) ks l -> Forall is_pid (map fst l).
Proof using. induction 1 as [|? ? ? ? [Hp _]]; cbn; constructor; done. Qed.

(** The processes are there, the shell has its descriptors back. *)
Record spawned (cmd : Command) s (pids : list Z) (e : E) : Prop := {
  sp_pids : Forall is_pid pids;
  sp_fds : forall k, fd_at (v_fds (view e)) k = fd_at (v_fds (sw_view s)) k;
  sp_children : forall p, p ∈ v_children (view e) -> p ∈ v_children (sw_view s) \/ p ∈ pids;
  sp_fg : v_fg (view e) = v_fg (sw_view s);
  sp_plumbed : forall s', v_fds (sw_view s') = v_fds (view e) -> v_pipes (sw_view s') = v_pipes (view e) ->
    v_forked (sw_view s') = v_forked (view e) -> plumbed cmd s s'
}.

Lemma wp_spawn {B} cmd (k : Shell -> list Z * Z -> M (ShellWorld E) B) (Q : B -> ShellWorld E -> Prop) s : std_open (fd_at (v_fds (sw_view s))) ->
  (forall r e, spawned cmd s (fst r) e -> wp (k (sw_shell s) r) Q (mkShellWorld (sw_shell s) e)) ->
  wp (pipes ← env (make_pipes (length (cm_stages cmd) - 1)); sh ← the_shell;
      r ← env (fork_stages (sh_history sh) (length (cm_stages cmd)) pipes 0 (cm_stages cmd) [] 0); env (close_pipes pipes);; k sh r) Q s.
Proof using.
  intros Hstd Hk. set (stages := cm_stages cmd). set (n := length stages).
  apply wp_bind, wp_env. eapply wp_mono; [apply wp_make_pipes, st_self|]. intros pipes e1 (ps & refs & g' & -> & Hl & Hpt & Hst1). fold (sw_view s) in Hpt, Hst1.
  apply wp_bind. unfold the_shell. apply wp_gets. cbn [sw_shell sw_env]. apply wp_bind, wp_env.
  eapply wp_mono; [apply (wp_fork_stages _ n ps refs _ _ stages 0 [] 0 e1 _ Hst1 Hpt Hstd Hl); done|]. intros r e2 (l & Ecs & Hl2 & Hst2). cbn [app] in Ecs.
  apply wp_bind, wp_env. eapply wp_mono; [by apply wp_close_pipes|]. intros ? e3 Hst3. cbv beta in Hst3. cbn [sw_shell sw_env] in *. apply Hk.
  pose proof (st_rest _ _ _ Hst3) as Er. unfold with_fds, add_forked, add_pipes in Er. cbn in Er. injection Er as Ep3 Ec3 Eg3 Ef3.
  assert (forall k, fd_at (v_fds (view e3)) k = fd_at (v_fds (sw_view s)) k) as Hf3.
  { intros i. rewrite (st_fds _ _ _ Hst3). case_decide as Hin; [symmetry; by apply (pt_new _ _ _ _ Hpt)|by apply (pt_other _ _ _ _ Hpt)]. }
  split; [rewrite Ecs; by eapply forked_pids|exact Hf3|rewrite Ec3, Ecs; set_solver|exact Eg3|].
  intros s' E1 E2 E3. exists refs, l. rewrite E2, Ep3, E3, Ef3. split; [by rewrite <- (pt_length _ _ _ _ Hpt)|]. do 2 (split; [done|]). split; [done|]. intros i. by rewrite E1.
Qed.

Context (wait_fuel : nat) (Hfuel : (max_polls < wait_fuel)%nat).

(** A group in the foreground, until its processes have ended or stopped. *)
Lemma wp_foreground {B} pgid pids g (k : Z * bool -> M (ShellWorld E) B) (Q : B -> ShellWorld E -> Prop) sh e :
  Forall is_pid pids -> v_fg (view e) = self_group -> g = self_group ->
  (forall r e' c, c ⊆ v_children (view e) -> view e' = with_children c (view e) ->
    (snd r = false -> forall p, p ∈ pids -> ~ (p ∈ c)) -> wp (k r) Q (mkShellWorld sh e')) ->
  wp (env (call_tcsetpgrp 0 pgid);; r ← env (wait_all wait_fuel pids); env (call_tcsetpgrp 0 g);; k r) Q (mkShellWorld sh e).
Proof using Hfuel.
  intros Hp Hg -> Hk. apply wp_bind, wp_env. eapply wp_mono; [apply law_tcsetpgrp|]. intros ? e1 Ev1. cbn [sw_shell sw_env] in *.
  apply wp_bind, wp_env. eapply wp_mono; [by apply wp_wait_all|]. intros r e2 [(c & Hc & Ev2) Hgone]. cbn [sw_shell sw_env] in *.
  apply wp_bind, wp_env. eapply wp_mono; [apply law_tcsetpgrp|]. intros ? e3 [Ev3|[Hne _]]; [|done]. cbn [sw_shell sw_env] in *.
  rewrite Ev2 in Ev3, Hgone. cbn in Hgone.
  apply (Hk r e3 c); [destruct Ev1 as [Ev1|[_ Ev1]]; rewrite Ev1 in Hc; exact Hc| |exact Hgone].
  rewrite Ev3. unfold with_fg, with_children. cbn. destruct Ev1 as [-> |[_ ->]]; cbn; by rewrite Hg.
Qed.

Lemma wp_run_pipeline cmd s : shell_ok s -> sh_next_jid (sw_shell s) + 1 < 2 ^ 64 ->
  wp (run_pipeline wait_fuel cmd) (fun _ s' => prompt_to 1 s s' /\ plumbed cmd s s') s.
Proof using Hfuel.
  intros Hs Hnext. apply wp_spawn; [apply (so_std _ Hs)|]. intros [children pgid] e3 [Hpids Hf3 Hc3 Eg3 Hpl]. cbn [fst snd] in *. cbv zeta.
  pose proof (so_fg _ Hs) as Hg. pose proof (so_pgrp _ Hs) as Hsh. rewrite Hg in Eg3. destruct (cm_background cmd).
  - unfold register_job. apply wp_bind, wp_bind. unfold the_shell. apply wp_gets. apply wp_env_keeps; [apply keeps_println|]. intros ? e4 Ev4.
    change (sw_view _) with (view e3) in Ev4. cbn [sw_shell]. eapply wp_mono; [apply (prompt_push s e4); rewrite ?Ev4; done|].
    intros ? s' [Hp E4]. apply wp_ret. split; [done|]. apply Hpl; unfold sw_view; by rewrite E4, Ev4.
  - apply wp_foreground; [done|done|done|]. intros r e4 c Hc Ev4 Hgone. destruct (snd r) eqn:Estop.
    + unfold register_stopped_job. apply wp_bind, wp_bind. unfold the_shell. apply wp_gets. apply wp_env_keeps; [apply keeps_println|]. intros ? e5 Ev5.
      change (sw_view _) with (view e4) in Ev5. cbn [sw_shell]. rewrite Ev4 in Ev5.
      eapply wp_mono; [apply (prompt_push s e5); rewrite ?Ev5; try done; intros p Hp; apply Hc3, Hc, Hp|].
      intros ? s' [Hp E5]. apply wp_ret. split; [done|]. apply Hpl; unfold sw_view; by rewrite E5, Ev5.
    + assert (forall e, view e = view e4 -> prompt_to 1 s (mkShellWorld (sw_shell s) e) /\ plumbed cmd s (mkShellWorld (sw_shell s) e)) as Hend.
      { intros e Ee. rewrite Ev4 in Ee. split; [|apply Hpl; unfold sw_view; cbn; by rewrite Ee]. apply (prompt_weaken 0); [lia|].
        apply prompt_env; [done|..]; rewrite Ee; cbn; try done. intros p Hp. destruct (Hc3 p (Hc p Hp)) as [|Hin]; [done|by destruct (Hgone eq_refl p Hin)]. }
      destruct (negb (fst r =? 0)); [|apply wp_bind, wp_ret, wp_ret; by apply Hend].
      apply wp_env_keeps; [apply keeps_println|]. intros ? e5 Ev5. apply wp_ret. by apply Hend.
Qed.

Lemma quiet_fg args s : shell_ok s -> wp (builtin_fg wait_fuel args) (fun _ s' => prompt_to 0 s s') s.
Proof using Hfuel.
  intros Hs. unfold builtin_fg. apply wp_bind. unfold the_shell. apply wp_gets. fold (jobs_of s).
  destruct (find_job args (jobs_of s)) as [idx|] eqn:Ej; [|apply quiet_env; [apply keeps_println|done]].
  apply find_job_lt in Ej. destruct (lookup_lt_is_Some_2 _ _ Ej) as [j Hj]. apply wp_bind, wp_unwrap. exists j. split; [exact Hj|].
  destruct (jobs_pids s j Hs ltac:(by eapply list_elem_of_lookup_2)) as [Hpids _]. apply wp_bind.
  eapply (wp_mono _ (fun failed s1 => prompt_to 0 s s1 /\ exists j1, jobs_of s1 !! idx = Some j1 /\ jb_pids j1 = jb_pids j)).
  { destruct (jb_status j); [apply wp_ret; split; [by apply prompt_refl|by exists j]| |apply wp_ret; split; [by apply prompt_refl|by exists j]].
    apply wp_env_keeps; [apply keeps_kill|]. intros r e Ev. assert (prompt_to 0 s (mkShellWorld (sw_shell s) e)) as Hp1.
    { apply prompt_env; [done|..]; rewrite Ev; [done|done|apply (so_fg _ Hs)]. }
    destruct (negb (r =? 0)); [apply wp_ret; split; [done|by exists j]|]. apply wp_bind. eapply wp_mono; [by apply prompt_update; [apply Hp1|]|].
    intros ? s2 [Hp2 Ejobs]. apply wp_ret. split; [exact (prompt_then _ _ _ _ Hp1 Hp2)|]. rewrite Ejobs, list_lookup_alter_eq. change (jobs_of _) with (jobs_of s). rewrite Hj.
    by eexists. }
  intros failed [sh1 e1] (Hp1 & j1 & Hj1 & Epids). destruct failed.
  { eapply wp_mono; [apply quiet_env; [apply keeps_println|apply Hp1]|]. intros ? s2 Hp2. exact (prompt_then _ _ _ _ Hp1 Hp2). }
  destruct Hp1 as [Hs1 Hrest]. apply wp_foreground; [done|apply (so_fg _ Hs1)|apply (so_pgrp _ Hs)|]. intros r e2 c Hc Ev2 Hgone.
  assert (forall e, view e = view e2 -> prompt_to 0 s (mkShellWorld sh1 e)) as Hp2.
  { intros e Ee. rewrite Ev2 in Ee. apply (prompt_then _ _ (mkShellWorld sh1 e1)); [by split|]. apply (prompt_env (mkShellWorld sh1 e1)); [done|..]; rewrite Ee; [done|done|apply (so_fg _ Hs1)]. }
  destruct (snd r); (apply wp_env_keeps; [apply keeps_println|]); intros ? e3 Ev3; specialize (Hp2 e3 Ev3); cbn [sw_shell].
  - eapply wp_mono; [by apply prompt_update; [apply Hp2|]|]. intros ? s3 [Hp3 _]. exact (prompt_then _ _ _ _ Hp2 Hp3).
  - apply wp_upd. eapply prompt_then; [exact Hp2|]. apply (prompt_delete (mkShellWorld sh1 e3) idx j1); [apply Hp2|exact Hj1|].
    intros p Hp. rewrite Epids in Hp. change (sw_view (mkShellWorld sh1 e3)) with (view e3). rewrite Ev3. change (sw_view _) with (view e2). rewrite Ev2. by apply Hgone.
Qed.

Lemma quiet_builtin stage m s : shell_ok s -> run_builtin wait_fuel stage = Some m -> wp m (fun _ s' => prompt_to 0 s s') s.
Proof using Hfuel.
  intros Hs. unfold run_builtin. repeat case_decide; try done; intros [= <-].
  - apply wp_env. eapply wp_mono; [apply wp_echo, st_self|]. intros ? e [Hf Hr]. unfold with_fds in Hr. cbn in Hr. injection Hr as _ Hc Hg _.
    apply prompt_env; [done|exact Hf|by rewrite Hc|by rewrite Hg; apply (so_fg _ Hs)].
  - by apply quiet_cd.
  - by apply quiet_env; [apply keeps_pwd|].
  - by apply quiet_history.
  - by apply quiet_jobs.
  - by apply quiet_fg.
  - by apply quiet_bg.
  - by apply quiet_kill.
  - by apply quiet_env; [apply keeps_help|].
  - by apply quiet_env; [apply keeps_clear|].
Qed.

Lemma prompt_execute cmd s : shell_ok s -> sh_next_jid (sw_shell s) + 1 < 2 ^ 64 -> wp (execute wait_fuel cmd) (fun _ s' => prompt_to 1 s s') s.
Proof using Hfuel.
  intros Hs Hn.
  assert (wp (z ← run_pipeline wait_fuel cmd; mret (inl z : Z + proc_end)) (fun _ s' => prompt_to 1 s s') s) as Hpipe.
  { apply wp_bind. eapply wp_mono; [by apply wp_run_pipeline|]. intros z s1 [Hp _]. by apply wp_ret. }
  unfold execute. destruct (cm_stages cmd) as [|stage [|]]; [exact Hpipe| |exact Hpipe]. case_decide; [apply wp_ret; by apply prompt_refl|].
  destruct (run_builtin wait_fuel stage) as [m|] eqn:Em; [|exact Hpipe]. apply wp_bind. eapply wp_mono; [by eapply quiet_builtin|].
  intros ? s1 Hp1. apply wp_ret. by apply (prompt_weaken 0); [lia|].
Qed.

Lemma prompt_commands cmds : forall status s, shell_ok s -> sh_next_jid (sw_shell s) + Z.of_nat (length cmds) < 2 ^ 64 ->
  wp (run_commands wait_fuel cmds status) (fun _ s' => prompt_to (Z.of_nat (length cmds)) s s') s.
Proof using Hfuel.
  induction cmds as [|cmd cmds IH]; intros status s Hs Hn; cbn [run_commands]; [apply wp_ret; by apply prompt_refl|].
  cbn [length] in *. apply wp_bind. eapply (wp_mono _ (fun _ s1 => prompt_to 1 s s1)).
  { pose proof (so_next _ Hs). destruct (cm_connector cmd); [apply prompt_execute; [done|lia]|destruct (status =? 0)|destruct (negb _)];
      first [apply prompt_execute; [done|lia]|apply wp_ret; by apply prompt_refl]. }
  intros [st|en] s1 Hp1; [|apply wp_ret; by apply (prompt_weaken 1); [lia|]].
  destruct Hp1 as (Hs1 & Hf1 & Hn1). eapply wp_mono; [apply IH; [done|lia]|]. intros ? s2 Hp2. replace (Z.of_nat (S (length cmds))) with (1 + Z.of_nat (length cmds)) by lia.
  apply (prompt_trans _ _ _ s1); [by split|exact Hp2].
Qed.

End Shell.

(** C32: every stage of a pipeline is plugged in where it should be.  From the
    prompt, whatever descriptors the shell has: [run_pipeline] makes a pipe
    between each two stages and forks one process per stage, and no [assert_eq!]
    on [dup] fails.  Each process either ends with code 1 because a file of its
    redirections cannot be opened, or comes to its program with exactly these
    descriptors: the pipe from the stage before on 0 and the one to the next on
    1, else the files of the redirections, else what the shell has there; the
    file for the errors on 2; above 2 what the shell has, and no end of any
    pipe.  The shell itself ends with the descriptors it had. *)
Theorem pipeline_plumbing {E} `{UserCallsLaws E} wait_fuel cmd (s : ShellWorld E) :
  (max_polls < wait_fuel)%nat -> shell_ok s -> sh_next_jid (sw_shell s) + 1 < 2 ^ 64 ->
  wp (run_pipeline wait_fuel cmd) (fun _ s' => plumbed cmd s s') s.
Proof. intros Hf Hs Hn. eapply wp_mono; [by apply wp_run_pipeline|]. by intros ? s' [_ ?]. Qed.

(** C33: a line of commands loses nothing.  If at the prompt every child of the
    shell is in a job, no job of the table is over, the numbers of the jobs are
    different and the shell has last put its own group in the foreground, then
    so it is after any line (pipelines in the foreground and in the background,
    jobs that stop, fg, bg, kill, jobs and the other built-in commands, in any
    combination): every child has been reaped or is still in a job that fg can
    reach, the shell has taken the terminal back with its last [tcsetpgrp], no
    descriptor is left open, and at most one job has been added per command.
    (The terminal is then the shell's unless another process takes it: the
    kernel does not ask who calls [tcsetpgrp], and [user_shell &] calls it.)
    Assumed are a bound on the polls a child in the foreground is given before
    it ends or stops, and fewer than 2^64 job numbers. *)
Theorem line_loses_nothing {E} `{UserCallsLaws E} wait_fuel cmds status (s : ShellWorld E) :
  (max_polls < wait_fuel)%nat -> shell_ok s -> sh_next_jid (sw_shell s) + Z.of_nat (length cmds) < 2 ^ 64 ->
  wp (run_commands wait_fuel cmds status) (fun _ s' => prompt_to (Z.of_nat (length cmds)) s s') s.
Proof. intros Hf Hs Hn. by apply prompt_commands. Qed.

(** ** An environment *)

(** Children end when they are waited for, after one poll, except those in
    [dm_stopped], which stop; [dm_busy] is set by every call of [fork]. *)
Record Demo := mkDemo { dm_view : View; dm_stopped : gset Z; dm_busy : bool }.
Definition dm_set (v : View) (e : Demo) : Demo := mkDemo v (dm_stopped e) (dm_busy e).
Definition dm_fork (child : M Demo proc_end) : M Demo Z := fun e =>
  let pid := 1 + Z.of_nat (length (v_forked (dm_view e))) mod 1000 in
  let r := match child (dm_set (with_children ∅ (dm_view e)) e) with Ok (r, c) => Some (r, v_fds (dm_view c)) | Err _ => None end in
  Ok (pid, mkDemo (add_forked [(pid, r)] (dm_view e)) (dm_stopped e) true).
Definition dm_pipe : M Demo (Z * Z) := fun e =>
  let n := Z.of_nat (length (v_pipes (dm_view e))) in
  let '(t1, n1) := fd_install (FPipe (2 * n)) (v_fds (dm_view e)) in
  let '(t2, n2) := fd_install (FPipe (2 * n + 1)) t1 in
  Ok ((Z.of_nat n1, Z.of_nat n2), dm_set (add_pipes [(FPipe (2 * n), FPipe (2 * n + 1))] (with_fds t2 (dm_view e))) e).
(** The file of a path has the length of the path for its number; there is no
    file with an empty name. *)
Definition dm_open (path : list Z) (_ : Z) : M Demo Z := fun e =>
  let '(t, n) := fd_install (FInode (Z.of_nat (length path))) (v_fds (dm_view e)) in
  if (length path <=? 1)%nat || negb (Z.of_nat n <? 2 ^ 63) then Ok (-1, e) else Ok (Z.of_nat n, dm_set (with_fds t (dm_view e)) e).
Definition dm_dup (fd : Z) : M Demo Z := fun e =>
  match fd_dup (Z.to_nat fd) (v_fds (dm_view e)) with
  | Some (t, m) => Ok (Z.of_nat m, dm_set (with_fds t (dm_view e)) e)
  | None => Ok (-1, e)
  end.
Definition dm_waitpid (pid options : Z) : M Demo (Z * option Z) := fun e =>
  if decide (pid ∈ v_children (dm_view e)) then
    if decide (options = WUNTRACED /\ pid ∈ dm_stopped e) then Ok ((-3, None), e)
    else if dm_busy e then Ok ((-2, None), mkDemo (dm_view e) (dm_stopped e) false)
    else Ok ((pid, Some 0), dm_set (with_children (v_children (dm_view e) ∖ {[pid]}) (dm_view e)) e)
  else Ok ((-1, None), e).

#[local] Instance demo_calls : UserCalls Demo := {
  call_pipe := dm_pipe;
  call_fork := dm_fork;
  call_setpgid _ _ := mret 0;
  call_open := dm_open;
  call_close fd := fun e => Ok (0, dm_set (with_fds (fd_close (Z.to_nat fd) (v_fds (dm_view e))) (dm_view e)) e);
  call_dup := dm_dup;
  call_exec path _ := mret (1 <? length path)%nat;
  call_write _ _ := mret 0;
  call_tcsetpgrp _ g := fun e => Ok (0, dm_set (with_fg g (dm_view e)) e);
  call_tty_ctl _ _ _ := mret 0;
  call_waitpid := dm_waitpid;
  call_kill _ _ := mret 0;
  call_sleep _ := mret tt;
  call_chdir _ := mret 0;
  call_getcwd := mret None;
  call_getpgrp := mret 2;
  call_sigaction _ _ := mret 0
}.

#[local, refine] Instance demo_laws : UserCallsLaws Demo := {
  view := dm_view;
  polls e _ := if dm_busy e then 1%nat else 0%nat;
  max_polls := 1;
  self_group := 2;
  opened f path _ := f = FInode (Z.of_nat (length path))
}.
Proof.
  all: unfold wp; cbn.
  - intros e _. destruct (dm_busy e); lia.
  - intros e. unfold dm_pipe. destruct (fd_install _ (v_fds _)) as [t1 n1] eqn:E1. destruct (fd_install _ t1) as [t2 n2] eqn:E2. cbn.
    by exists (FPipe (2 * Z.of_nat (length (v_pipes (dm_view e))))), (FPipe (2 * Z.of_nat (length (v_pipes (dm_view e))) + 1)), t1, t2, n1, n2.
  - intros child e. split; [unfold is_pid; pose proof (Z.mod_pos_bound (Z.of_nat (length (v_forked (dm_view e)))) 1000); lia|].
    by exists (dm_set (with_children ∅ (dm_view e)) e).
  - intros path flags e. unfold dm_open. destruct (fd_install _ _) as [t n] eqn:Ei. destruct (_ || _) eqn:Eb; [by left|right].
    apply orb_false_iff in Eb as [_ Eb]. apply negb_false_iff, Z.ltb_lt in Eb. by eexists _, t, n.
  - intros n e. by rewrite Nat2Z.id.
  - intros n e. unfold dm_dup. rewrite Nat2Z.id. by destruct (fd_dup n _) as [[t m]|].
  - intros fd g e. by left.
  - intros pid options e _. unfold dm_waitpid. case_decide; [|right; split; [done|by left]]. case_decide as Hs; [right; split; [done|right; left; by destruct Hs]|].
    destruct (dm_busy e); cbn; [right; split; [done|right; right; split; [done|lia]]|by left].
  - intros ms e. by split; [|lia].
  - done.
  - done.
  - done.
  - done.
  - done.
  - done.
Defined.

(** The shell has the terminal on 0, 1 and 2 and another file on 4; the first
    child it forks will stop. *)
Definition demo_shell : ShellWorld Demo :=
  mkShellWorld (Shell_new 2) (mkDemo (mkView [Some FStdin; Some FStdout; Some FStdout; None; Some (FInode 9)] [] ∅ 2 []) {[1]} false).

Lemma demo_shell_ok : shell_ok demo_shell.
Proof.
  split; try done.
  - intros [|[|[|k]]] Hk; [done|done|done|lia].
  - by split; [constructor|].
Qed.

Definition demo_line (l : string) : list Command := match parse_command (chars l) with inl cmds => cmds | inr _ => [] end.
Definition demo_pipeline : Command := default (mkCommand [] false CNone) (head (demo_line "cat <in | sort | wc >>out")).

(** The middle stage reads the first pipe and writes the second; the last one
    reads the second and writes the file. *)
Lemma pipeline_plumbing_witness :
  wp (run_pipeline 3 demo_pipeline) (fun _ s' => plumbed demo_pipeline demo_shell s') demo_shell /\
  match run_pipeline 3 demo_pipeline demo_shell with
  | Ok (_, s') => map (fun x => snd <$> snd x) (v_forked (sw_view s')) =
      [Some [Some (FInode 3); Some (FPipe 1); Some FStdout; None; Some (FInode 9); None; None; None; None];
       Some [Some (FPipe 0); Some (FPipe 3); Some FStdout; None; Some (FInode 9); None; None; None];
       Some [Some (FPipe 2); Some (FInode 4); Some FStdout; None; Some (FInode 9); None; None; None; None]]
  | Err _ => False
  end.
Proof.
  split; [|vm_compute; reflexivity]. apply pipeline_plumbing; [cbn; lia|exact demo_shell_ok|reflexivity].
Defined.

(** The first pipeline stops, the second runs in the background, [fg 2] brings
    it back: the stopped one is left. *)
Lemma line_loses_nothing_witness :
  wp (run_commands 3 (demo_line "cat | sort ; wc & fg 2 || pwd") 0) (fun _ s' => prompt_to 4 demo_shell s') demo_shell /\
  match run_commands 3 (demo_line "cat | sort ; wc & fg 2 || pwd") 0 demo_shell with
  | Ok (_, s') => map (fun j => (jb_jid j, jb_pids j)) (jobs_of s') = [(1, [1; 2])] /\ v_children (sw_view s') = {[1]}
  | Err _ => False
  end.
Proof.
  split; [|vm_compute; split; reflexivity].
  apply (line_loses_nothing 3 (demo_line "cat | sort ; wc & fg 2 || pwd") 0 demo_shell); [cbn; lia|exact demo_shell_ok|vm_compute; reflexivity].
Defined.
