(* ===== verification/Threads.v ===== *)
(** * The threads of a user program

    A program of several threads is a step function: what the thread with a
    given number does next, from its own state, to the memory the threads share.
    One processor runs them, so the steps interleave in any order and every
    access to memory takes effect at once.  A thread that is asleep, or has
    ended, has no step.  The last part is the test of mutual exclusion that
    peterson.rs and eisenberg.rs share. *)

From S2P Require Import Prelude.
From stdpp Require Import relations.

Section Interleaving.
Context {Mem Loc : Type} (step : nat -> Loc -> Mem -> option (Loc * Mem)).

Record Config := mkConfig { shared : Mem; locals : list Loc }.

(** One step of thread [i]. *)
Definition run_thread (i : nat) (c : Config) : option Config :=
  l ← locals c !! i;
  r ← step i l (shared c);
  Some (mkConfig (snd r) (<[i := fst r]> (locals c))).

Definition thread_step (c c' : Config) : Prop := exists i, run_thread i c = Some c'.

(** A schedule: the threads in the order they are run. *)
Fixpoint run_schedule (sch : list nat) (c : Config) : option Config :=
  match sch with
  | [] => Some c
  | i :: sch' => c' ← run_thread i c; run_schedule sch' c'
  end.

Lemma run_schedule_reachable sch c c' : run_schedule sch c = Some c' -> rtc thread_step c c'.
Proof.
  revert c. induction sch as [|i sch IH]; intros c E; cbn in E; [by injection E as ->|].
  destruct (run_thread i c) as [c1|] eqn:E1; [|done]. eapply rtc_l; [exists i; exact E1|by apply IH].
Qed.

Lemma run_schedule_nsteps sch c c' : run_schedule sch c = Some c' -> nsteps thread_step (length sch) c c'.
Proof.
  revert c. induction sch as [|i sch IH]; intros c E; cbn in E; [injection E as ->; constructor|].
  destruct (run_thread i c) as [c1|] eqn:E1; [|done]. econstructor; [exists i; exact E1|by apply IH].
Qed.

Lemma run_schedule_app sch1 sch2 c : run_schedule (sch1 ++ sch2) c = run_schedule sch1 c ≫= run_schedule sch2.
Proof. revert c. induction sch1 as [|i sch1 IH]; intros c; cbn; [done|]. destruct (run_thread i c); cbn; [apply IH|done]. Qed.

Lemma run_thread_Some i c c' : run_thread i c = Some c' <->
  exists l l' m, locals c !! i = Some l /\ step i l (shared c) = Some (l', m) /\ c' = mkConfig m (<[i := l']> (locals c)).
Proof.
  unfold run_thread. destruct (locals c !! i) as [l|]; cbn.
  - destruct (step i l (shared c)) as [[l' m]|] eqn:E; cbn.
    + split; [intros [= <-]; eauto 10|]. intros (? & ? & ? & [= <-] & [= <- <-]%(eq_trans (eq_sym E)) & ->). done.
    + split; [done|]. intros (? & ? & ? & [= <-] & E' & _). congruence.
  - split; [done|]. by intros (? & ? & ? & ? & _).
Qed.

(** What every step keeps holds of every state that is reached. *)
Lemma reachable_invariant (I : Config -> Prop) c0 c :
  I c0 ->
  (forall c i l l' m, I c -> locals c !! i = Some l -> step i l (shared c) = Some (l', m) -> I (mkConfig m (<[i := l']> (locals c)))) ->
  rtc thread_step c0 c -> I c.
Proof.
  intros H0 Hstep Hr. induction Hr as [|c0 c1 c (i & (l & l' & m & Hl & Hs & ->)%run_thread_Some) _ IH]; [done|].
  apply IH. by eapply Hstep.
Qed.

End Interleaving.
Arguments mkConfig {Mem Loc}.
Arguments shared {Mem Loc}.
Arguments locals {Mem Loc}.

(** Looking up a thread after another, or the same one, has moved. *)
Lemma insert_lookup_cases {A} (l : list A) i x y j z : l !! i = Some y -> <[i := x]> l !! j = Some z ->
  j = i /\ z = x \/ j <> i /\ l !! j = Some z.
Proof.
  intros Hi. destruct (decide (j = i)) as [->|Hne].
  - rewrite list_lookup_insert_eq by (by eapply lookup_lt_Some). intros [= ->]. by left.
  - rewrite list_lookup_insert_ne by done. by right.
Qed.

(** Every thread is such, or one is not. *)
Lemma all_or_one {A} (P : A -> Prop) `{forall x, Decision (P x)} (l : list A) :
  (forall i x, l !! i = Some x -> P x) \/ exists i x, l !! i = Some x /\ ~ P x.
Proof.
  destruct (decide (Forall P l)) as [Hall|Hsome]; [left|right].
  - intros i x Hx. rewrite Forall_lookup in Hall. by eapply Hall.
  - apply not_Forall_Exists in Hsome; [|done]. apply Exists_exists in Hsome as (x & [i Hi]%list_elem_of_lookup & Hx). eauto.
Qed.

(** A sum over the threads. *)
Definition zsum (l : list Z) : Z := foldr Z.add 0%Z l.

Lemma zsum_insert l i x y : l !! i = Some x -> zsum (<[i := y]> l) = (zsum l - x + y)%Z.
Proof.
  revert i. induction l as [|z l IH]; intros i; [done|]. destruct i as [|i].
  - intros [= ->]. cbn. lia.
  - intros Hi. change (z + zsum (<[i:=y]> l) = z + zsum l - x + y)%Z. rewrite (IH i Hi). lia.
Qed.

Lemma zsum_both l1 l2 : zsum (l1 ++ l2) = (zsum l1 + zsum l2)%Z.
Proof. induction l1 as [|x l1 IH]; [done|]. cbn [Datatypes.app zsum foldr]. fold (zsum (l1 ++ l2)) (zsum l1). lia. Qed.

Lemma zsum_replicate k x : zsum (replicate k x) = (Z.of_nat k * x)%Z.
Proof. induction k as [|k IH]; [done|]. cbn [replicate zsum foldr]. fold (zsum (replicate k x)). rewrite IH. lia. Qed.

Lemma zsum_zero l : (forall i x, l !! i = Some x -> x = 0%Z) -> zsum l = 0%Z.
Proof.
  induction l as [|y l IH]; intros H; [done|]. cbn [zsum foldr]. fold (zsum l). rewrite (H 0%nat y eq_refl), IH; [done|].
  intros i x. apply (H (S i)).
Qed.

(** A sum of what each thread contributes. *)
Definition zsum_with {A} (f : nat -> A -> Z) (l : list A) : Z := zsum (imap f l).

Lemma zsum_with_insert {A} (f : nat -> A -> Z) l i x y : l !! i = Some x -> zsum_with f (<[i := y]> l) = (zsum_with f l - f i x + f i y)%Z.
Proof.
  intros Hi. unfold zsum_with. rewrite <- (zsum_insert (imap f l) i) by (by rewrite list_lookup_imap, Hi). f_equal.
  apply list_eq. intros j. rewrite list_lookup_imap. destruct (decide (j = i)) as [->|Hne].
  - rewrite !list_lookup_insert_eq; [done| |by eapply lookup_lt_Some]. rewrite length_imap. by eapply lookup_lt_Some.
  - by rewrite !list_lookup_insert_ne, list_lookup_imap by done.
Qed.

Lemma zsum_with_bounds {A} (f : nat -> A -> Z) l : (forall i x, 0 <= f i x <= 1)%Z -> (0 <= zsum_with f l <= Z.of_nat (length l))%Z.
Proof.
  unfold zsum_with. revert f. induction l as [|x l IH]; intros f Hf; [done|]. cbn [imap zsum foldr length]. fold (zsum (imap (f ∘ S) l)).
  pose proof (Hf 0%nat x). specialize (IH (f ∘ S) (fun i => Hf (S i))). lia.
Qed.

Lemma zsum_with_zero {A} (f : nat -> A -> Z) l : (forall i x, l !! i = Some x -> f i x = 0%Z) -> zsum_with f l = 0%Z.
Proof.
  intros Hf. apply zsum_zero. intros i x Hi. rewrite list_lookup_imap in Hi. destruct (l !! i) as [y|] eqn:E; [|done]. injection Hi as <-. by apply Hf.
Qed.

Lemma zsum_nonneg l : (forall i x, l !! i = Some x -> 0 <= x)%Z -> (0 <= zsum l)%Z.
Proof.
  induction l as [|x l IH]; intros H; [done|]. cbn [zsum foldr]. fold (zsum l). pose proof (H 0%nat x eq_refl). specialize (IH (fun i => H (S i))). lia.
Qed.

Lemma zsum_with_nonneg {A} (f : nat -> A -> Z) l : (forall i x, 0 <= f i x)%Z -> (0 <= zsum_with f l)%Z.
Proof.
  intros Hf. apply zsum_nonneg. intros i x Hi. rewrite list_lookup_imap in Hi. destruct (l !! i); [|done]. injection Hi as <-. apply Hf.
Qed.

Lemma zsum_with_member {A} (f : nat -> A -> Z) l i x : (forall j y, 0 <= f j y)%Z -> l !! i = Some x -> (f i x <= zsum_with f l)%Z.
Proof.
  unfold zsum_with. revert f i. induction l as [|y l IH]; intros f i Hf Hi; [done|]. cbn [imap zsum foldr]. fold (zsum (imap (f ∘ S) l)).
  destruct i as [|i]; [injection Hi as ->|].
  - pose proof (zsum_with_nonneg (f ∘ S) l (fun j => Hf (S j))). unfold zsum_with in *. lia.
  - pose proof (Hf 0%nat y). specialize (IH (f ∘ S) i (fun i => Hf (S i)) Hi). cbn in *. lia.
Qed.

Lemma zsum_with_const {A} (f : nat -> A -> Z) l x : (forall i y, l !! i = Some y -> f i y = x) -> zsum_with f l = (Z.of_nat (length l) * x)%Z.
Proof.
  unfold zsum_with. revert f. induction l as [|y l IH]; intros f Hf; [done|]. cbn [imap zsum foldr length].
  fold (zsum (imap (f ∘ S) l)). rewrite (Hf 0%nat y eq_refl), IH; [lia|]. intros i z Hz. by apply (Hf (S i)).
Qed.

(** As many ones as threads: every thread contributes one. *)
Lemma zsum_with_all {A} (f : nat -> A -> Z) l i x : (forall j y, 0 <= f j y <= 1)%Z -> zsum_with f l = Z.of_nat (length l) -> l !! i = Some x -> f i x = 1%Z.
Proof.
  unfold zsum_with. revert f i. induction l as [|y l IH]; intros f i Hf Hs Hi; [done|]. cbn [imap zsum foldr length] in Hs. fold (zsum (imap (f ∘ S) l)) in Hs.
  pose proof (Hf 0%nat y). pose proof (zsum_with_bounds (f ∘ S) l (fun j => Hf (S j))) as Hb. unfold zsum_with in Hb. destruct i as [|i]; [injection Hi as ->; lia|].
  apply (IH (f ∘ S) i (fun j => Hf (S j))); [lia|done].
Qed.

(** Two ones make two. *)
Lemma zsum_with_two {A} (f : nat -> A -> Z) l i j x y : (forall k z, 0 <= f k z)%Z -> i <> j -> l !! i = Some x -> l !! j = Some y ->
  (f i x + f j y <= zsum_with f l)%Z.
Proof.
  intros Hf Hij Hi Hj. unfold zsum_with. pose proof (zsum_insert (imap f l) i (f i x) 0) as Hz. rewrite list_lookup_imap, Hi in Hz. specialize (Hz eq_refl).
  assert (f j y <= zsum (<[i := 0]> (imap f l)))%Z; [|lia]. pose proof (zsum_insert (<[i := 0%Z]> (imap f l)) j (f j y) 0) as Hz2.
  rewrite list_lookup_insert_ne, list_lookup_imap, Hj in Hz2 by done. specialize (Hz2 eq_refl).
  enough (0 <= zsum (<[j := 0]> (<[i := 0]> (imap f l))))%Z by lia. apply zsum_nonneg. intros k z Hk.
  destruct (decide (k = j)) as [->|Hkj]; [apply list_lookup_insert_Some in Hk as [(_ & <- & _)|[? _]]; done|]. rewrite list_lookup_insert_ne in Hk by done.
  destruct (decide (k = i)) as [->|Hki]; [apply list_lookup_insert_Some in Hk as [(_ & <- & _)|[? _]]; done|]. rewrite list_lookup_insert_ne, list_lookup_imap in Hk by done.
  destruct (l !! k) as [w|]; [|done]. injection Hk as <-. apply Hf.
Qed.

Open Scope Z_scope.

(** ** The test of the critical section (user/src/bin/peterson.rs, eisenberg.rs)

    [GUARD] counts the threads inside; the assertions are the program's own.
    The section is [enter], three times [claim] and [sleep(2)], and [exit]. *)

Inductive TestPc :=
  | critical_test_enter
  | critical_test_claim (n : nat)   (* [n] of the three claims are done *)
  | critical_test_sleep (n : nat)
  | critical_test_exit
  | test_done
  | test_panicked.

Definition TestPc_start : TestPc := critical_test_enter.

(** [GUARD] is a [usize]: [fetch_add] and [fetch_sub] answer the old value. *)
Definition test_step (pc : TestPc) (guard : Z) : TestPc * Z :=
  match pc with
  | critical_test_enter => (if guard =? 0 then critical_test_claim 0 else test_panicked, usize_wrap (guard + 1))
  | critical_test_claim n => (if guard =? 1 then critical_test_sleep n else test_panicked, guard)
  | critical_test_sleep n => (if (S n <? 3)%nat then critical_test_claim (S n) else critical_test_exit, guard)
  | critical_test_exit => (if guard =? 1 then test_done else test_panicked, usize_wrap (guard - 1))
  | test_done => (test_done, guard)
  | test_panicked => (test_panicked, guard)
  end.

(** Between [enter] and [exit]. *)
Definition test_inside (pc : TestPc) : bool :=
  match pc with critical_test_claim _ | critical_test_sleep _ | critical_test_exit => true | _ => false end.

(** The states of the threads in the test agree with [GUARD], and no assertion
    has failed. *)
Record test_ok (ts : list TestPc) (guard : Z) : Prop := {
  ok_inside i t : ts !! i = Some t -> test_inside t = true -> guard = 1;
  ok_outside : (forall i t, ts !! i = Some t -> test_inside t = false) -> guard = 0;
  ok_passed i t : ts !! i = Some t -> t <> test_panicked
}.

(** A thread alone in the section passes the test. *)
Lemma test_ok_step ts guard i t t' guard' : test_ok ts guard -> ts !! i = Some t ->
  (forall j u, j <> i -> ts !! j = Some u -> test_inside u = false) ->
  test_step t guard = (t', guard') -> test_ok (<[i := t']> ts) guard'.
Proof.
  intros [H1 H2 H3] Ht Hout Hs.
  assert (guard = if test_inside t then 1 else 0) as ->.
  { destruct (test_inside t) eqn:E; [by eapply H1|]. apply H2. intros j u Hu. destruct (decide (j = i)) as [->|]; [congruence|by eapply Hout]. }
  assert (guard' = (if test_inside t' then 1 else 0) /\ t' <> test_panicked) as [-> Hp].
  { specialize (H3 i t Ht). destruct t as [|n|n| | |]; cbn [test_inside test_step] in Hs; simplify_eq; try done. by destruct (S n <? 3)%nat. }
  split.
  - intros j u Hu Hin. destruct (insert_lookup_cases _ _ _ _ _ _ Ht Hu) as [[-> ->]|[Hne Hj]]; [by rewrite Hin|].
    by rewrite (Hout j u Hne Hj) in Hin.
  - intros Hall. rewrite (Hall i t'); [done|]. apply list_lookup_insert_eq. by eapply lookup_lt_Some.
  - intros j u Hu. destruct (insert_lookup_cases _ _ _ _ _ _ Ht Hu) as [[-> ->]|[Hne Hj]]; [done|by eapply H3].
Qed.

(** A step outside the section. *)
Lemma test_ok_other ts guard i t t' : test_ok ts guard -> ts !! i = Some t -> test_inside t = false -> test_inside t' = false ->
  t' <> test_panicked -> test_ok (<[i := t']> ts) guard.
Proof.
  intros [H1 H2 H3] Ht Hi Hi' Hp. split.
  - intros j u Hu Hin. destruct (insert_lookup_cases _ _ _ _ _ _ Ht Hu) as [[-> ->]|[Hne Hj]]; [congruence|by eapply H1].
  - intros Hall. apply H2. intros j u Hu. destruct (decide (j = i)) as [->|]; [congruence|]. apply (Hall j). by rewrite list_lookup_insert_ne.
  - intros j u Hu. destruct (insert_lookup_cases _ _ _ _ _ _ Ht Hu) as [[-> ->]|[Hne Hj]]; [done|by eapply H3].
Qed.

Lemma test_ok_start n : test_ok (replicate n test_done) 0.
Proof. split; [|done|]; intros i t [-> _]%lookup_replicate; done. Qed.
