(* ===== verification/Eisenberg.v ===== *)
(** * The algorithm of Eisenberg and McGuire (user/src/bin/eisenberg.rs)

    Ten threads that exclude each other with loads and stores only.  Each
    volatile load or store, each atomic operation of the test of the critical
    section and each call that lets other threads run is a step; printing is left
    out. *)

From S2P Require Import Prelude Threads.
From stdpp Require Import relations.
Open Scope Z_scope.

Definition N : nat := 2.
Definition THREAD_NUM : nat := 10.

Inductive FlagState := Out | Want | In.

#[export] Instance FlagState_eq_dec : EqDecision FlagState.
Proof. solve_decision. Defined.

Record Shared := mkShared { TURN : nat; FLAG : list FlagState; GUARD : Z }.

Definition shared_new : Shared := mkShared 0 (replicate THREAD_NUM Out) 0.

Definition flag (m : Shared) (i : nat) : FlagState := default Out (FLAG m !! i).
Definition set_flag (i : nat) (f : FlagState) (m : Shared) : Shared := mkShared (TURN m) (<[i := f]> (FLAG m)) (GUARD m).
Definition set_turn (t : nat) (m : Shared) : Shared := mkShared t (FLAG m) (GUARD m).

(** Where a thread is in [eisenberg_enter_critical], the section and
    [eisenberg_exit_critical]. *)
Inductive Pc :=
  | announce                             (* [vstore!(FLAG[id], Want)] *)
  | read_turn                            (* [let turn = vload!(TURN)] *)
  | scan (i ring_id : nat)               (* [for i in turn..ring_id] *)
  | retry                                (* [sleep(1)] *)
  | claim                                (* [vstore!(FLAG[id], In)] *)
  | check (i : nat) (conflict : bool)    (* [for i in 0..THREAD_NUM] *)
  | take_turn                            (* [vstore!(TURN, id)] *)
  | critical (t : TestPc)
  | find_next (i : nat)                  (* [for i in (id + 1)..ring_id] *)
  | give_turn (next : nat)               (* [vstore!(TURN, next)] *)
  | leave                                (* [vstore!(FLAG[id], Out)] *)
  | finished.

(** A thread: the iterations of [thread_fn] still to begin, and where it is in
    the current one. *)
Record Local := mkLocal { rounds : nat; pc : Pc }.

Definition thread_fn : Local := mkLocal (N - 1) announce.

(** One step of [thread_fn(id)]. *)
Definition step (id : nat) (l : Local) (m : Shared) : option (Local * Shared) :=
  let goto p := mkLocal (rounds l) p in
  match pc l with
  | announce => Some (goto read_turn, set_flag id Want m)
  | read_turn =>
      let turn := TURN m in
      Some (goto (scan turn (if (id <? turn)%nat then id + THREAD_NUM else id)%nat), m)
  | scan i ring_id =>
      if (i <? ring_id)%nat then
        if decide (flag m (i mod THREAD_NUM) = Out) then Some (goto (scan (S i) ring_id), m) else Some (goto retry, m)
      else Some (goto claim, m)
  | retry => Some (goto read_turn, m)
  | claim => Some (goto (check 0 false), set_flag id In m)
  | check i conflict =>
      if (i <? THREAD_NUM)%nat then
        if negb (i =? id)%nat && bool_decide (flag m i = In) then Some (goto (check (S i) true), m)
        else Some (goto (check (S i) conflict), m)
      else Some (goto (if conflict then announce else take_turn), m)
  | take_turn => Some (goto (critical TestPc_start), set_turn id m)
  | critical test_done => Some (goto (find_next (S id)), m)
  | critical test_panicked => None
  | critical t =>
      let '(t', guard) := test_step t (GUARD m) in
      Some (goto (critical t'), mkShared (TURN m) (FLAG m) guard)
  | find_next i =>
      if (i <? id + THREAD_NUM)%nat then
        let idx := (i mod THREAD_NUM)%nat in
        if decide (flag m idx = Want) then Some (goto (give_turn idx), m) else Some (goto (find_next (S i)), m)
      else Some (goto (give_turn id), m)
  | give_turn next => Some (goto leave, set_turn next m)
  | leave =>
      Some (match rounds l with O => mkLocal 0 finished | S r => mkLocal r announce end, set_flag id Out m)
  | finished => None
  end.

Definition start : Config := mkConfig shared_new (replicate THREAD_NUM thread_fn).

(** Past the check for a conflict and before the flag is lowered. *)
Definition holds_lock (p : Pc) : bool :=
  match p with take_turn | critical _ | find_next _ | give_turn _ | leave => true | _ => false end.

(** The thread has seen that [j] does not claim the section. *)
Definition passed (p : Pc) (j : nat) : bool :=
  match p with check k false => (j <? k)%nat | _ => holds_lock p end.

(** The thread's flag is up. *)
Definition claims (p : Pc) : bool := match p with check _ _ => true | _ => holds_lock p end.

(** Where the thread is in the test. *)
Definition test_view (l : Local) : TestPc := match pc l with critical t => t | _ => test_done end.
Definition inside (l : Local) : bool := test_inside (test_view l).

Record Inv (c : Config) : Prop := {
  inv_flags : length (FLAG (shared c)) = THREAD_NUM;
  inv_locals : length (locals c) = THREAD_NUM;
  inv_claims i l : locals c !! i = Some l -> claims (pc l) = true -> flag (shared c) i = In;
  inv_passed i j l l' : i <> j -> locals c !! i = Some l -> locals c !! j = Some l' ->
    passed (pc l) j = true -> passed (pc l') i = true -> False;
  inv_test : test_ok (test_view <$> locals c) (GUARD (shared c));
  inv_check i l k b : locals c !! i = Some l -> pc l = check k b -> (k <= THREAD_NUM)%nat
}.

Lemma flag_set_ne id f m j : j <> id -> flag (set_flag id f m) j = flag m j.
Proof. intros Hj. unfold flag, set_flag. cbn. by rewrite list_lookup_insert_ne. Qed.

Lemma flag_set_eq id f m : (id < length (FLAG m))%nat -> flag (set_flag id f m) id = f.
Proof. intros Hj. unfold flag, set_flag. cbn. by rewrite list_lookup_insert_eq. Qed.

Lemma claims_holds p j : passed p j = true -> claims p = true.
Proof. by destruct p as [| | | | |k []| | | | | |]. Qed.

Lemma holds_passed p j : holds_lock p = true -> passed p j = true.
Proof. by destruct p. Qed.

Lemma inside_holds l : inside l = true -> holds_lock (pc l) = true.
Proof. unfold inside, test_view. by destruct (pc l). Qed.

(** What a step does to the flags, and what it learns from them. *)
Lemma step_flags id l m l' m' : step id l m = Some (l', m') -> (id < length (FLAG m))%nat ->
  length (FLAG m') = length (FLAG m) /\ (forall j, j <> id -> flag m' j = flag m j) /\
  ((claims (pc l) = true -> flag m id = In) -> claims (pc l') = true -> flag m' id = In).
Proof.
  intros Hs Hid. destruct l as [r p].
  destruct p as [| |i ring| | |i b| |t|i|next| |]; cbn [step pc rounds] in Hs; repeat case_match; simplify_eq; cbn [pc claims holds_lock];
    (split; [cbn; rewrite ?length_insert; done|]); (split; [intros j Hj; first [done|by apply flag_set_ne]|]);
    intros Hf; first [exact Hf|intros _; by apply flag_set_eq|intros _; by apply Hf|done].
Qed.

Lemma step_passed id l m l' m' j : step id l m = Some (l', m') -> j <> id -> (j < THREAD_NUM)%nat ->
  passed (pc l') j = true -> passed (pc l) j = true \/ flag m j <> In.
Proof.
  intros Hs Hj Hn. destruct l as [r p].
  destruct p as [| |i ring| | |i b| |t|i|next| |]; cbn [step pc rounds] in Hs; repeat case_match; simplify_eq; cbn [pc passed holds_lock]; try done; try (by left).
  - destruct b; [done|]. intros Hji%Nat.ltb_lt. destruct (decide (j = i)) as [->|Hne]; [right|left; apply Nat.ltb_lt; lia].
    match goal with E : _ && _ = false |- _ => rewrite (proj2 (Nat.eqb_neq i id) Hj) in E; cbn in E; by apply bool_decide_eq_false in E end.
  - intros _. left. apply Nat.ltb_lt. match goal with E : (i <? THREAD_NUM)%nat = false |- _ => apply Nat.ltb_ge in E end. lia.
Qed.

(** Two threads are never both past the check. *)
Lemma exclusive c i j l l' : Inv c -> i <> j -> locals c !! i = Some l -> locals c !! j = Some l' ->
  holds_lock (pc l) = true -> holds_lock (pc l') = true -> False.
Proof. intros Hi Hne Hl Hl' H1 H2. eapply (inv_passed c Hi i j); [done|exact Hl|exact Hl'|by apply holds_passed|by apply holds_passed]. Qed.

(** A step of the test, with the lock, or one that has nothing to do with it. *)
Lemma step_test id l m l' m' : step id l m = Some (l', m') ->
  holds_lock (pc l) = true /\ test_step (test_view l) (GUARD m) = (test_view l', GUARD m') \/
  GUARD m' = GUARD m /\ inside l = false /\ inside l' = false /\ test_view l' <> test_panicked.
Proof.
  intros Hs. destruct l as [r p]. unfold inside, test_view.
  destruct p as [| |i ring| | |i b| |t|i|next| |]; cbn [step pc rounds] in Hs; repeat case_match; simplify_eq; cbn [pc test_inside] in *; simplify_eq;
    first [by right | by left | left; split; [done|]; cbn in *; congruence].
Qed.

Lemma step_check id l m l' m' k b : step id l m = Some (l', m') -> (forall k b, pc l = check k b -> (k <= THREAD_NUM)%nat) ->
  pc l' = check k b -> (k <= THREAD_NUM)%nat.
Proof.
  intros Hs Hk. destruct l as [r p].
  destruct p as [| |i ring| | |i c| |t|i|next| |]; cbn [step pc rounds] in Hs; repeat case_match; simplify_eq; cbn [pc]; intros E; simplify_eq; try lia;
    match goal with E : (_ <? THREAD_NUM)%nat = true |- _ => apply Nat.ltb_lt in E; lia end.
Qed.

Lemma Inv_step c i l l' m : Inv c -> locals c !! i = Some l -> step i l (shared c) = Some (l', m) ->
  Inv (mkConfig m (<[i := l']> (locals c))).
Proof.
  intros Hi Hl Hs. pose proof (lookup_lt_Some _ _ _ Hl) as Hlt. rewrite (inv_locals c Hi) in Hlt.
  destruct (step_flags _ _ _ _ _ Hs) as (Hlen & Hother & Hown); [by rewrite (inv_flags c Hi)|].
  pose proof (fun j k => inv_passed c Hi i j l k) as Hpass.
  split; cbn [shared locals].
  - by rewrite Hlen, (inv_flags c Hi).
  - rewrite length_insert. apply (inv_locals c Hi).
  - intros j lj Hlj Hc. destruct (insert_lookup_cases _ _ _ _ _ _ Hl Hlj) as [[-> ->]|[Hne Hj]].
    + apply Hown; [|done]. by apply (inv_claims c Hi).
    + rewrite Hother by done. by eapply (inv_claims c Hi).
  - assert (forall j lj, j <> i -> locals c !! j = Some lj -> passed (pc l') j = true -> passed (pc lj) i = true -> False) as Hnew.
    { intros j lj Hne Hj Hp1 Hp2. pose proof (lookup_lt_Some _ _ _ Hj) as Hjlt. rewrite (inv_locals c Hi) in Hjlt.
      destruct (step_passed _ _ _ _ _ j Hs Hne Hjlt Hp1) as [Hp|Hf]; [by eapply (Hpass j lj)|]. apply Hf.
      eapply (inv_claims c Hi); [exact Hj|by eapply claims_holds]. }
    intros j k lj lk Hne Hlj Hlk. destruct (insert_lookup_cases _ _ _ _ _ _ Hl Hlj) as [[-> ->]|[Hnj Hj]],
      (insert_lookup_cases _ _ _ _ _ _ Hl Hlk) as [[-> ->]|[Hnk Hk]]; intros Hp1 Hp2.
    + done.
    + by eapply (Hnew k lk).
    + by eapply (Hnew j lj).
    + by eapply (inv_passed c Hi j k).
  - rewrite list_fmap_insert. assert ((test_view <$> locals c) !! i = Some (test_view l)) as Hv by (by rewrite list_lookup_fmap, Hl).
    destruct (step_test _ _ _ _ _ Hs) as [[Hh Ht]|(-> & H1 & H2 & H3)]; [|by eapply test_ok_other; [apply (inv_test c Hi)|..]].
    eapply test_ok_step; [apply (inv_test c Hi)|exact Hv| |exact Ht]. intros j u Hj. rewrite list_lookup_fmap.
    destruct (locals c !! j) as [lj|] eqn:Elj; [|done]. intros [= <-]. destruct (test_inside (test_view lj)) eqn:E; [|done].
    by destruct (exclusive c i j l lj Hi (not_eq_sym Hj) Hl Elj Hh (inside_holds lj E)).
  - intros j lj k b Hlj. destruct (insert_lookup_cases _ _ _ _ _ _ Hl Hlj) as [[-> ->]|[Hne Hj]]; [|by eapply (inv_check c Hi)].
    eapply step_check; [exact Hs|]. intros. by eapply (inv_check c Hi).
Qed.

Lemma Inv_start : Inv start.
Proof.
  assert (forall i l, locals start !! i = Some l -> l = thread_fn) as Hl by (intros i l [-> _]%lookup_replicate; done).
  split; try done.
  - intros i l ->%Hl. done.
  - intros i j l l' _ ->%Hl _. done.
  - exact (test_ok_start THREAD_NUM).
  - intros i l k b ->%Hl. done.
Qed.

(** C15: the algorithm of eisenberg.rs is safe.  However the ten threads
    interleave, at most one is between the end of [eisenberg_enter_critical] and
    the end of [eisenberg_exit_critical]; [GUARD] is 1 when a thread is inside
    the tested section and 0 otherwise; so none of the assertions that would end a
    thread with "thread conflict" ever fails; and every thread that has not
    finished has a next step. *)
Theorem eisenberg_excludes c : rtc (thread_step step) start c ->
  (forall i j l l', locals c !! i = Some l -> locals c !! j = Some l' ->
     holds_lock (pc l) = true -> holds_lock (pc l') = true -> i = j) /\
  (forall i l, locals c !! i = Some l -> inside l = true -> GUARD (shared c) = 1) /\
  ((forall i l, locals c !! i = Some l -> inside l = false) -> GUARD (shared c) = 0) /\
  (forall i l, locals c !! i = Some l -> pc l <> finished -> is_Some (run_thread step i c)).
Proof.
  intros Hr. assert (Inv c) as Hi.
  { eapply reachable_invariant; [exact Inv_start| |exact Hr]. intros. by eapply Inv_step. }
  pose proof (inv_test c Hi) as [H1 H2 H3].
  assert (forall i l, locals c !! i = Some l -> (test_view <$> locals c) !! i = Some (test_view l)) as Hv
    by (intros i l Hl; by rewrite list_lookup_fmap, Hl).
  split_and!.
  - intros i j l l' Hl Hl' E1 E2. destruct (decide (i = j)) as [|Hne]; [done|]. by destruct (exclusive c i j l l' Hi Hne Hl Hl' E1 E2).
  - intros i l Hl. by apply (H1 i), Hv.
  - intros Hall. apply H2. intros i t Ht. rewrite list_lookup_fmap in Ht. destruct (locals c !! i) as [l|] eqn:El; [|done]. injection Ht as <-. by eapply Hall.
  - intros i l Hl Hf. unfold run_thread. rewrite Hl. cbn. pose proof (H3 i _ (Hv i l Hl)) as Hp. destruct l as [r p].
    destruct p as [| | | | | | |t| | | |]; cbn [step pc] in *; repeat case_match; cbn; try done; eauto.
Qed.

Lemma eisenberg_excludes_witness : exists c, run_schedule step (concat (replicate 18 [0; 3]%nat)) start = Some c /\
  GUARD (shared c) = 1.
Proof.
  eexists. split; [vm_compute; reflexivity|].
  match goal with |- GUARD (shared ?c) = 1 =>
    destruct (eisenberg_excludes c) as (_ & H & _); [apply (run_schedule_reachable _ (concat (replicate 18 [0; 3]%nat))); vm_compute; reflexivity|];
    apply (H 0%nat _ ltac:(reflexivity)); reflexivity
  end.
Defined.
