(* ===== verification/Peterson.v ===== *)
(** * Peterson's algorithm (user/src/bin/peterson.rs, adder_peterson_spin.rs,
    adder_peterson_yield.rs)

    Two threads that exclude each other with loads and stores only.  Each load or
    store, each atomic operation of the section and each call that lets the other
    thread run is a step; printing is left out.  The lock is proved for any
    section, given by its steps; peterson.rs protects the test of mutual exclusion
    (its [main] starts thread 0 only, the other is commented out), the adders a
    counter. *)

From S2P Require Import Prelude Threads.
From stdpp Require Import relations.
Open Scope Z_scope.

(** The section the lock protects: its states, how a thread begins it anew,
    its next step on the shared data, and when it is over. *)
Class CriticalSection (C D : Type) := {
  cs_begin : C -> C;
  cs_step : C -> D -> option (C * D);
  cs_over : C -> bool
}.

Section Lock.
Context {C D : Type} `{CriticalSection C D}.

Record Shared := mkShared { TURN : nat; FLAG : list bool; data : D }.

Definition flag (m : Shared) (i : nat) : bool := default false (FLAG m !! i).
Definition put_flag (i : nat) (b : bool) (m : Shared) : Shared := mkShared (TURN m) (<[i := b]> (FLAG m)) (data m).
Definition put_turn (t : nat) (m : Shared) : Shared := mkShared t (FLAG m) (data m).

Inductive Pc :=
  | next_round      (* [for _ in 0..n] *)
  | set_flag        (* [vstore!(FLAG[id], true)] *)
  | set_turn        (* [vstore!(TURN, peer_id)] *)
  | read_flag       (* [while vload!(FLAG[peer_id])] *)
  | read_turn       (* [&& vload!(TURN) == peer_id] *)
  | wait            (* the body of the loop: nothing, [yield_] or [sleep] *)
  | held
  | clear_flag      (* [vstore!(FLAG[id], false)] *)
  | finished.

#[export] Instance Pc_eq_dec : EqDecision Pc.
Proof using Type. solve_decision. Defined.

Record Local := mkLocal { rounds : nat; pc : Pc; section : C }.

(** [id ^ 1] in peterson.rs, [1 - id] in the adders; [id] is 0 or 1. *)
Definition peer (id : nat) : nat := 1 - id.

Definition goto (p : Pc) (l : Local) : Local := mkLocal (rounds l) p (section l).
Definition enter (l : Local) : Local := mkLocal (rounds l) held (cs_begin (section l)).

Definition step (id : nat) (l : Local) (m : Shared) : option (Local * Shared) :=
  match pc l with
  | next_round =>
      match rounds l with
      | O => Some (goto finished l, m)
      | S r => Some (mkLocal r set_flag (section l), m)
      end
  | set_flag => Some (goto set_turn l, put_flag id true m)
  | set_turn => Some (goto read_flag l, put_turn (peer id) m)
  | read_flag => if flag m (peer id) then Some (goto read_turn l, m) else Some (enter l, m)
  | read_turn => if (TURN m =? peer id)%nat then Some (goto wait l, m) else Some (enter l, m)
  | wait => Some (goto read_flag l, m)
  | held =>
      if cs_over (section l) then Some (goto clear_flag l, m)
      else
        r ← cs_step (section l) (data m);
        Some (mkLocal (rounds l) held (fst r), mkShared (TURN m) (FLAG m) (snd r))
  | clear_flag => Some (goto next_round l, put_flag id false m)
  | finished => None
  end.

(** Two threads of [n] rounds each. *)
Definition start (n : nat) (s : C) (d : D) : Config :=
  mkConfig (mkShared 0 [false; false] d) (replicate 2 (mkLocal n next_round s)).

Definition holds_lock (p : Pc) : bool := match p with held | clear_flag => true | _ => false end.
Definition waiting (p : Pc) : bool := match p with read_flag | read_turn | wait => true | _ => false end.
Definition flagged (p : Pc) : bool := match p with next_round | set_flag | finished => false | _ => true end.

Record Inv (c : Config (Mem := Shared) (Loc := Local)) : Prop := {
  inv_flags : length (FLAG (shared c)) = 2%nat;
  inv_locals : length (locals c) = 2%nat;
  inv_turn : (TURN (shared c) < 2)%nat;
  inv_flag i l : locals c !! i = Some l -> flag (shared c) i = flagged (pc l);
  (* a thread waits for the other only while it has given it the turn *)
  inv_peer i j li lj : i <> j -> locals c !! i = Some li -> locals c !! j = Some lj ->
    holds_lock (pc li) = true -> holds_lock (pc lj) = false /\ (waiting (pc lj) = true -> TURN (shared c) = i)
}.

Lemma flag_put_ne i b m j : j <> i -> flag (put_flag i b m) j = flag m j.
Proof. intros Hj. unfold flag, put_flag. cbn. by rewrite list_lookup_insert_ne. Qed.

Lemma flag_put_eq i b m : (i < length (FLAG m))%nat -> flag (put_flag i b m) i = b.
Proof. intros Hj. unfold flag, put_flag. cbn. by rewrite list_lookup_insert_eq. Qed.

Lemma peer_other i j : (i < 2)%nat -> (j < 2)%nat -> i <> j -> peer i = j.
Proof. unfold peer. lia. Qed.

Ltac step_cases Hs l :=
  destruct l as [r p s]; destruct p; cbn [step pc rounds section] in Hs; unfold enter, goto in Hs; cbn [rounds pc section] in Hs;
  repeat case_match; simplify_option_eq; cbn [pc fst snd] in *.

Lemma step_flag id l m l' m' : step id l m = Some (l', m') -> (id < length (FLAG m))%nat -> flag m id = flagged (pc l) ->
  length (FLAG m') = length (FLAG m) /\ (forall j, j <> id -> flag m' j = flag m j) /\ flag m' id = flagged (pc l').
Proof.
  intros Hs Hid Hf. step_cases Hs l; (split; [cbn; rewrite ?length_insert; done|]);
    (split; [intros j Hj; first [done|by apply flag_put_ne]|]); cbn [flagged] in *; first [exact Hf|by apply flag_put_eq].
Qed.

(** What a step does to [TURN], and when it takes the lock or keeps it. *)
Lemma step_turn id l m l' m' : step id l m = Some (l', m') ->
  TURN m' = (if decide (pc l = set_turn) then peer id else TURN m) /\
  (holds_lock (pc l') = true -> holds_lock (pc l) = true \/ waiting (pc l) = true /\ (flag m (peer id) = false \/ TURN m <> peer id)) /\
  (waiting (pc l') = true -> waiting (pc l) = true \/ pc l = set_turn).
Proof.
  intros Hs. step_cases Hs l; (split; [by rewrite ?decide_False, ?decide_True by done|]); split; cbn [holds_lock waiting]; intros; try done; auto.
  right. split; [done|]. right. by apply Nat.eqb_neq.
Qed.

Lemma lock_step c i l l' m : Inv c -> locals c !! i = Some l -> step i l (shared c) = Some (l', m) ->
  Inv (mkConfig m (<[i := l']> (locals c))).
Proof.
  intros Hi Hl Hs. pose proof (lookup_lt_Some _ _ _ Hl) as Hlt. rewrite (inv_locals c Hi) in Hlt.
  destruct (step_flag _ _ _ _ _ Hs) as (Hlen & Hother & Hown); [by rewrite (inv_flags c Hi)|by apply (inv_flag c Hi)|].
  destruct (step_turn _ _ _ _ _ Hs) as (Ht & Hh & Hw).
  assert (forall j lj, locals c !! j = Some lj -> (j < 2)%nat) as Hj2.
  { intros j lj Hj. apply lookup_lt_Some in Hj. by rewrite (inv_locals c Hi) in Hj. }
  split; cbn [shared locals].
  - by rewrite Hlen, (inv_flags c Hi).
  - rewrite length_insert. apply (inv_locals c Hi).
  - rewrite Ht. pose proof (inv_turn c Hi). case_decide; [unfold peer; lia|done].
  - intros j lj Hlj. destruct (insert_lookup_cases _ _ _ _ _ _ Hl Hlj) as [[-> ->]|[Hne Hj]]; [done|].
    rewrite Hother by done. by apply (inv_flag c Hi).
  - intros j k lj lk Hne Hlj Hlk Hhj. destruct (insert_lookup_cases _ _ _ _ _ _ Hl Hlj) as [[-> ->]|[Hnj Hj]],
      (insert_lookup_cases _ _ _ _ _ _ Hl Hlk) as [[-> ->]|[Hnk Hk]]; [done| | |].
    + destruct (Hh Hhj) as [Hold|[Hwait Hgo]].
      * destruct (inv_peer c Hi i k l lk Hne Hl Hk Hold) as [H1 H2]. split; [done|]. rewrite Ht, decide_False by (intros E; by rewrite E in Hold). done.
      * rewrite (peer_other i k) in Hgo by (eauto || done). rewrite Ht, decide_False by (intros E; by rewrite E in Hwait).
        destruct (holds_lock (pc lk)) eqn:Ek.
        { destruct Hgo as [Hg|Hg]; [rewrite (inv_flag c Hi k lk Hk) in Hg; by destruct (pc lk)|].
          by destruct (inv_peer c Hi k i lk l (not_eq_sym Hne) Hk Hl Ek) as [_ H2]; destruct (Hg (H2 Hwait)). }
        split; [done|]. intros Hwk. destruct Hgo as [Hg|Hg]; [rewrite (inv_flag c Hi k lk Hk) in Hg; by destruct (pc lk)|].
        pose proof (inv_turn c Hi). pose proof (Hj2 _ _ Hk). lia.
    + destruct (inv_peer c Hi j i lj l Hne Hj Hl Hhj) as [H1 H2].
      assert (holds_lock (pc l') = false) as Hn.
      { destruct (holds_lock (pc l')) eqn:E; [|done]. destruct (Hh eq_refl) as [|[Hwait Hgo]]; [congruence|].
        rewrite (peer_other i j) in Hgo by (eauto || done). destruct Hgo as [Hg|Hg]; [|by destruct (Hg (H2 Hwait))].
        rewrite (inv_flag c Hi j lj Hj) in Hg. by destruct (pc lj). }
      split; [done|]. intros Hw'. rewrite Ht. destruct (decide (pc l = set_turn)) as [E|E]; [apply peer_other; eauto|].
      destruct (Hw Hw') as [?|?]; [by apply H2|done].
    + destruct (inv_peer c Hi j k lj lk Hne Hj Hk Hhj) as [H1 H2]. pose proof (Hj2 _ _ Hj). pose proof (Hj2 _ _ Hk). lia.
Qed.

Lemma lock_start n s d : Inv (start n s d).
Proof.
  assert (forall i l, locals (start n s d) !! i = Some l -> l = mkLocal n next_round s) as Hl by (intros i l [-> _]%lookup_replicate; done).
  split; try done; [cbn; lia| |].
  - intros i l Hi. rewrite (Hl i l Hi). apply lookup_lt_Some in Hi. cbn in Hi. by destruct i as [|[|i]]; [..|lia].
  - intros i j li lj _ Hi%Hl _. by rewrite Hi.
Qed.

Lemma lock_reachable n s d c : rtc (thread_step step) (start n s d) c -> Inv c.
Proof. intros Hr. eapply reachable_invariant; [apply lock_start| |exact Hr]. intros. by eapply lock_step. Qed.

(** *** How long a thread waits *)

(** Thread [k] takes the lock in this step. *)
Definition takes (k : nat) (c c' : Config (Mem := Shared) (Loc := Local)) : bool :=
  match locals c !! k, locals c' !! k with
  | Some l, Some l' => negb (holds_lock (pc l)) && holds_lock (pc l')
  | _, _ => false
  end.

(** From [c] to [c'] thread [i] is in its waiting loop all the time, and the
    lock is taken [n] times. *)
Inductive waits (i : nat) : Config (Mem := Shared) (Loc := Local) -> Config (Mem := Shared) (Loc := Local) -> nat -> Prop :=
  | waits_here c l : locals c !! i = Some l -> waiting (pc l) = true -> waits i c c 0
  | waits_more c c1 c2 n k l : waits i c c1 n -> run_thread step k c1 = Some c2 ->
      locals c2 !! i = Some l -> waiting (pc l) = true ->
      waits i c c2 (n + (if takes k c1 c2 then 1 else 0)).

(** After the other thread has had the lock once it finds the turn given away. *)
Lemma waits_bound i c c' n : Inv c -> waits i c c' n -> Inv c' /\ (n <= 1)%nat /\ (exists l, locals c' !! i = Some l /\ waiting (pc l) = true) /\
  (n = 1%nat -> forall j lj, j <> i -> locals c' !! j = Some lj -> waiting (pc lj) = true -> TURN (shared c') = i).
Proof.
  intros Hc Hw. induction Hw as [c l Hl Hwait|c c1 c2 n k l Hw IH Hrun Hl2 Hwait]; [split_and!; eauto; lia|].
  destruct (IH Hc) as (Hi & Hn & (l1 & Hl1 & Hw1) & Hturn). clear IH.
  apply run_thread_Some in Hrun as (lk & lk' & m & Hk & Hs & ->). pose proof (lock_step c1 k lk lk' m Hi Hk Hs) as Hi2.
  split; [exact Hi2|]. cbn [locals shared] in *. unfold takes. cbn [locals]. rewrite Hk, list_lookup_insert_eq by (by eapply lookup_lt_Some).
  pose proof (step_turn _ _ _ _ _ Hs) as (Ht & Hh & Hww).
  assert (forall j lj, locals c1 !! j = Some lj -> (j < 2)%nat) as Hj2.
  { intros j lj Hj. apply lookup_lt_Some in Hj. by rewrite (inv_locals c1 Hi) in Hj. }
  destruct (decide (k = i)) as [->|Hki].
  - rewrite list_lookup_insert_eq in Hl2 by (by eapply lookup_lt_Some). injection Hl2 as ->. rewrite Hk in Hl1. injection Hl1 as ->.
    assert (holds_lock (pc l) = false) as -> by (by destruct (pc l)). rewrite andb_false_r, Nat.add_0_r.
    split_and!; [done|eauto using list_lookup_insert_eq, lookup_lt_Some|]. intros -> j lj Hj Hlj Hwj. rewrite list_lookup_insert_ne in Hlj by done.
    rewrite Ht, decide_False by (intros E; by rewrite E in Hw1). by eapply Hturn.
  - rewrite list_lookup_insert_ne in Hl2 by done. rewrite Hl1 in Hl2. injection Hl2 as ->.
    assert (peer k = i) as Hp by (apply peer_other; eauto).
    assert (forall j lj, j <> i -> <[k := lk']> (locals c1) !! j = Some lj -> j = k /\ lj = lk') as Honly.
    { intros j lj Hj Hlj. destruct (insert_lookup_cases _ _ _ _ _ _ Hk Hlj) as [?|[Hne Hlj']]; [done|].
      pose proof (Hj2 _ _ Hlj'). pose proof (Hj2 _ _ Hk). pose proof (Hj2 _ _ Hl1). lia. }
    assert (<[k := lk']> (locals c1) !! i = Some l) as Hl2 by (by rewrite list_lookup_insert_ne).
    destruct (negb (holds_lock (pc lk)) && holds_lock (pc lk')) eqn:Etake.
    + apply andb_prop in Etake as [E1%negb_true_iff E2]. destruct (Hh E2) as [|[Hwk Hgo]]; [congruence|]. rewrite Hp in Hgo.
      destruct Hgo as [Hg|Hg]; [rewrite (inv_flag c1 Hi i l Hl1) in Hg; by destruct (pc l)|].
      assert (n = 0)%nat as -> by (destruct n as [|[|n]]; [done| |lia]; by destruct (Hg (Hturn eq_refl k lk Hki Hk Hwk))).
      split_and!; [lia|eauto|]. intros _ j lj Hj Hlj Hwj. destruct (Honly j lj Hj Hlj) as [-> ->]. by destruct (pc lk').
    + rewrite Nat.add_0_r. split_and!; [done|eauto|]. intros -> j lj Hj Hlj Hwj. destruct (Honly j lj Hj Hlj) as [-> ->].
      rewrite Ht. case_decide as E; [done|]. destruct (Hww Hwj) as [?|?]; [by eapply Hturn|done].
Qed.

End Lock.

(** ** The test of peterson.rs and the counter of the adders *)

#[export] Instance peterson_section : CriticalSection TestPc Z := {|
  cs_begin := fun _ => TestPc_start;
  cs_step := fun t guard => match t with test_panicked => None | _ => Some (test_step t guard) end;
  cs_over := fun t => match t with test_done => true | _ => false end
|}.

(** [critical_section]: [A] is read, [t] goes through 500 rounds of work, and
    the sum is written. *)
Inductive AdderPc := read_a | work | write_a | added.

Record Adder := mkAdder { at_ : AdderPc; cur : Z; t : Z }.

Definition mix (t : Z) : Z := usize_wrap (t * t) mod 10007.
Definition busy_work (t : Z) : Z := Nat.iter 500 mix t.
#[local] Opaque busy_work.

#[export] Instance adder_section : CriticalSection Adder Z := {|
  cs_begin := fun s => mkAdder read_a (cur s) (t s);
  cs_step := fun s A =>
    match at_ s with
    | read_a => Some (mkAdder work A (t s), A)
    | work => Some (mkAdder write_a (cur s) (busy_work (t s)), A)
    | write_a => Some (mkAdder added (cur s) (t s), usize_wrap (cur s + 1))
    | added => None
    end;
  cs_over := fun s => match at_ s with added => true | _ => false end
|}.


(** Where a thread of peterson.rs is in the test. *)
Definition peterson_view (l : Local (C := TestPc)) : TestPc := match pc l with held => section l | _ => test_done end.

Lemma peterson_step_test id l m l' m' : step id l m = Some (l', m') ->
  holds_lock (pc l) = true /\ test_step (peterson_view l) (data m) = (peterson_view l', data m') \/
  data m' = data m /\ test_inside (peterson_view l) = false /\ test_inside (peterson_view l') = false /\ peterson_view l' <> test_panicked.
Proof.
  intros Hs. unfold peterson_view. destruct l as [r p s].
  destruct p; [destruct r| | |cbn in Hs; destruct (flag _ _)|cbn in Hs; destruct (_ =? _)%nat| |destruct s| |];
    cbn -[test_step] in Hs; simplify_eq; cbn -[test_step]; first [by right | by left | left; split; [done|by destruct (test_step _ _)]].
Qed.

Definition peterson_inv (c : Config (Mem := Shared (D := Z)) (Loc := Local (C := TestPc))) : Prop :=
  Inv c /\ test_ok (peterson_view <$> locals c) (data (shared c)).

Lemma peterson_inv_step c i l l' m : peterson_inv c -> locals c !! i = Some l -> step i l (shared c) = Some (l', m) ->
  peterson_inv (mkConfig m (<[i := l']> (locals c))).
Proof.
  intros [Hi Hok] Hl Hs. split; [by eapply lock_step|]. cbn [locals shared]. rewrite list_fmap_insert.
  assert ((peterson_view <$> locals c) !! i = Some (peterson_view l)) as Hv by (by rewrite list_lookup_fmap, Hl).
  destruct (peterson_step_test _ _ _ _ _ Hs) as [[Hh Ht]|(-> & H1 & H2 & H3)]; [|by eapply test_ok_other].
  eapply test_ok_step; [exact Hok|exact Hv| |exact Ht]. intros j u Hj. rewrite list_lookup_fmap.
  destruct (locals c !! j) as [lj|] eqn:Elj; [|done]. intros [= <-]. destruct (inv_peer c Hi i j l lj) as [Hn _]; auto.
  unfold peterson_view. by destruct (pc lj).
Qed.

(** What a thread of an adder has added: its finished rounds. *)
Definition pending (l : Local (C := Adder)) : Z :=
  match pc l with
  | set_flag | set_turn | read_flag | read_turn | wait => 1
  | held => match at_ (section l) with added => 0 | _ => 1 end
  | next_round | clear_flag | finished => 0
  end.
Definition completed (n : nat) (l : Local (C := Adder)) : Z := Z.of_nat n - Z.of_nat (rounds l) - pending l.

(** A thread that has read [A] and not yet written it. *)
Definition has_read (l : Local (C := Adder)) : bool :=
  match pc l, at_ (section l) with held, (work | write_a) => true | _, _ => false end.

Record adder_inv (n : nat) (c : Config (Mem := Shared (D := Z)) (Loc := Local (C := Adder))) : Prop := {
  ai_lock : Inv c;
  ai_sum : data (shared c) = usize_wrap (zsum (completed n <$> locals c));
  ai_read i l : locals c !! i = Some l -> has_read l = true -> cur (section l) = data (shared c);
  ai_end i l : locals c !! i = Some l -> pc l = finished -> rounds l = O
}.

Lemma adder_step id l m l' m' n : step id l m = Some (l', m') ->
  (pc l' = finished -> rounds l' = O) /\
  (data m' = data m /\ completed n l' = completed n l /\ (has_read l' = true -> has_read l = true /\ cur (section l') = cur (section l) \/ cur (section l') = data m') \/
   holds_lock (pc l) = true /\ has_read l = true /\ has_read l' = false /\ data m' = usize_wrap (cur (section l) + 1) /\ completed n l' = completed n l + 1).
Proof.
  intros Hs. unfold completed, pending, has_read. destruct l as [r p [a u v]].
  destruct p; [destruct r| | |cbn in Hs; destruct (flag _ _)|cbn in Hs; destruct (_ =? _)%nat| |destruct a| |];
    cbn in Hs; [injection Hs as <- <-..|discriminate]; cbn [pc section fst snd data holds_lock rounds cur at_ enter goto put_flag put_turn cs_begin adder_section];
    (split; [done|]); first [left; split_and!; [done|lia|done] | left; split_and!; [done|lia|auto] | right; split_and!; [done..|lia]].
Qed.

Lemma usize_wrap_add a b : usize_wrap (usize_wrap a + b) = usize_wrap (a + b).
Proof. unfold usize_wrap. by rewrite Zplus_mod_idemp_l. Qed.

Lemma adder_inv_step n c i l l' m : adder_inv n c -> locals c !! i = Some l -> step i l (shared c) = Some (l', m) ->
  adder_inv n (mkConfig m (<[i := l']> (locals c))).
Proof.
  intros Hi Hl Hs. destruct (adder_step _ _ _ _ _ n Hs) as [Hend Hd].
  assert ((completed n <$> locals c) !! i = Some (completed n l)) as Hv by (by rewrite list_lookup_fmap, Hl).
  split; cbn [locals shared]; [by eapply lock_step; [apply (ai_lock n c Hi)|..]| | |].
  - rewrite list_fmap_insert, (zsum_insert _ _ _ _ Hv). destruct Hd as [(-> & -> & _)|(_ & Hr & _ & -> & ->)].
    + rewrite (ai_sum n c Hi). f_equal. lia.
    + rewrite (ai_read n c Hi i l Hl Hr), (ai_sum n c Hi), usize_wrap_add. f_equal. lia.
  - intros j lj Hlj Hr. destruct (insert_lookup_cases _ _ _ _ _ _ Hl Hlj) as [[-> ->]|[Hne Hj]].
    + destruct Hd as [(Ed & _ & Hk)|(_ & _ & Hn & _)]; [|congruence]. destruct (Hk Hr) as [[Hr' ->]|?]; [|done]. rewrite Ed. by eapply (ai_read n c Hi).
    + destruct Hd as [(-> & _)|(Hh & _)]; [by eapply (ai_read n c Hi)|]. destruct (inv_peer c (ai_lock n c Hi) i j l lj) as [Hn _]; auto.
      unfold has_read in Hr. by destruct (pc lj).
  - intros j lj Hlj. destruct (insert_lookup_cases _ _ _ _ _ _ Hl Hlj) as [[-> ->]|[Hne Hj]]; [done|by eapply (ai_end n c Hi)].
Qed.

Lemma two_locals (c : Config (Mem := Shared (D := Z)) (Loc := Local (C := Adder))) : length (locals c) = 2%nat ->
  exists l0 l1, locals c = [l0; l1].
Proof. destruct (locals c) as [|l0 [|l1 [|]]]; try done. eauto. Qed.

(** Peterson's lock, as peterson.rs has it.  However its two threads
    interleave, they are never both between the end of [peterson_enter_critical]
    and the end of [peterson_exit_critical]; [GUARD] is 1 exactly while one is
    inside the tested section, so no assertion fails and an unfinished thread
    always has a next step; while one thread waits the other takes the lock at
    most once more; and the two never wait for each other: of two waiting threads
    one has the turn, and a thread whose peer is outside finds its flag down. *)
Theorem peterson_excludes n c : rtc (thread_step step) (start n test_done 0) c ->
  (forall i j l l', locals c !! i = Some l -> locals c !! j = Some l' -> holds_lock (pc l) = true -> holds_lock (pc l') = true -> i = j) /\
  ((exists i l, locals c !! i = Some l /\ test_inside (peterson_view l) = true) -> data (shared c) = 1) /\
  ((forall i l, locals c !! i = Some l -> test_inside (peterson_view l) = false) -> data (shared c) = 0) /\
  (forall i l, locals c !! i = Some l -> pc l <> finished -> is_Some (run_thread step i c)) /\
  (forall i c' k, waits i c c' k -> (k <= 1)%nat) /\
  (forall i j l l', i <> j -> locals c !! i = Some l -> locals c !! j = Some l' -> waiting (pc l) = true ->
     TURN (shared c) = i \/ waiting (pc l') = true /\ TURN (shared c) = j \/ holds_lock (pc l') = true \/
     pc l' = set_turn \/ flag (shared c) j = false).
Proof.
  intros Hr. assert (peterson_inv c) as [Hi Hok].
  { eapply (reachable_invariant step peterson_inv); [|intros; by eapply peterson_inv_step|exact Hr]. split; [apply lock_start|exact (test_ok_start 2)]. }
  assert (forall i l, locals c !! i = Some l -> (peterson_view <$> locals c) !! i = Some (peterson_view l)) as Hv
    by (intros i l Hl; by rewrite list_lookup_fmap, Hl).
  split_and!.
  - intros i j l l' Hl Hl' E1 E2. destruct (decide (i = j)) as [|Hne]; [done|]. destruct (inv_peer c Hi i j l l' Hne Hl Hl' E1). congruence.
  - intros (i & l & Hl & Hin). by apply (ok_inside _ _ Hok i (peterson_view l)); [apply Hv|].
  - intros Hall. apply (ok_outside _ _ Hok). intros i u Hu. rewrite list_lookup_fmap in Hu. destruct (locals c !! i) as [l|] eqn:El; [|done].
    injection Hu as <-. by eapply Hall.
  - intros i l Hl Hf. unfold run_thread. rewrite Hl. cbn. pose proof (ok_passed _ _ Hok i _ (Hv i l Hl)) as Hp. unfold peterson_view in Hp.
    destruct l as [r p s]. destruct p; cbn in *; repeat case_match; cbn; try done; eauto.
  - intros i c' k Hw. by destruct (waits_bound i c c' k Hi Hw) as (_ & ? & _).
  - intros i j l l' Hne Hl Hl' Hw. rewrite (inv_flag c Hi j l' Hl'). pose proof (inv_turn c Hi).
    assert (i < 2 /\ j < 2)%nat by (apply lookup_lt_Some in Hl, Hl'; rewrite (inv_locals c Hi) in Hl, Hl'; done).
    destruct (decide (TURN (shared c) = i)) as [|Ht]; [by left|right]. assert (TURN (shared c) = j) by lia. destruct (pc l'); auto 6.
Qed.

(** Both threads at work, the first inside. *)
Lemma peterson_excludes_witness : exists c, run_schedule step (concat (replicate 6 [0; 1]%nat)) (start 1000 test_done 0) = Some c /\
  (forall i c' k, waits i c c' k -> (k <= 1)%nat) /\ data (shared c) = 1.
Proof.
  eexists. split; [vm_compute; reflexivity|].
  match goal with |- context [shared ?c] =>
    destruct (peterson_excludes 1000 c) as (_ & H & _ & _ & Hw & _); [apply (run_schedule_reachable _ (concat (replicate 6 [0; 1]%nat))); vm_compute; reflexivity|]
  end.
  split; [exact Hw|]. apply H. exists 0%nat. eexists. split; reflexivity.
Defined.

(** The adders under Peterson's lock count exactly.  However the two
    threads of adder_peterson_spin.rs (or adder_peterson_yield.rs) interleave,
    the read, the work and the write of [critical_section] of one are never
    interrupted by a write of the other: the value a thread has read is the value
    of [A] until it writes, so at every moment [A] is the number of sections
    completed (modulo the width of [usize]), and when both threads have ended it
    is [PER_THREAD * 2], which is what [main] asserts. *)
Theorem adder_counts_exactly n u c : rtc (thread_step step) (start n (mkAdder added 0 u) 0) c ->
  data (shared c) = usize_wrap (zsum (completed n <$> locals c)) /\
  (forall i l, locals c !! i = Some l -> has_read l = true -> cur (section l) = data (shared c)) /\
  ((forall i l, locals c !! i = Some l -> pc l = finished) -> data (shared c) = usize_wrap (Z.of_nat n * 2)).
Proof.
  intros Hr. assert (adder_inv n c) as Hi.
  { eapply (reachable_invariant step (adder_inv n)); [|intros; by eapply adder_inv_step|exact Hr].
    assert (forall i l, locals (start n (mkAdder added 0 u) 0) !! i = Some l -> l = mkLocal n next_round (mkAdder added 0 u)) as Hl
      by (intros i l [-> _]%lookup_replicate; done).
    split; [apply lock_start| | |].
    - cbn [start locals shared data fmap list_fmap replicate zsum foldr]. unfold completed, pending. cbn [pc rounds]. replace (_ + _) with 0 by lia. done.
    - by intros i l ->%Hl.
    - by intros i l ->%Hl. }
  split_and!; [apply (ai_sum n c Hi)|apply (ai_read n c Hi)|]. intros Hall. rewrite (ai_sum n c Hi).
  destruct (two_locals c (inv_locals c (ai_lock n c Hi))) as (l0 & l1 & E). rewrite E in *.
  pose proof (Hall 0%nat l0 eq_refl) as F0. pose proof (Hall 1%nat l1 eq_refl) as F1.
  assert (rounds l0 = O /\ rounds l1 = O) as [R0 R1].
  { split; [apply (ai_end n c Hi 0%nat)|apply (ai_end n c Hi 1%nat)]; rewrite ?E; done. }
  cbn. unfold completed, pending. rewrite F0, F1, R0, R1. f_equal. lia.
Qed.

(** Two rounds each, with a thread preempted between its read and its write. *)
Lemma adder_counts_exactly_witness : exists c,
  run_schedule step (replicate 6 0 ++ replicate 5 1 ++ replicate 6 0 ++ replicate 9 1 ++ replicate 7 0 ++ replicate 9 1)%nat (start 2 (mkAdder added 0 2) 0) = Some c /\
  data (shared c) = usize_wrap (2 * 2).
Proof.
  eexists. split; [vm_compute; reflexivity|].
  match goal with |- context [shared ?c] =>
    destruct (adder_counts_exactly 2 2 c) as (_ & _ & H);
      [apply (run_schedule_reachable _ (replicate 6 0 ++ replicate 5 1 ++ replicate 6 0 ++ replicate 9 1 ++ replicate 7 0 ++ replicate 9 1)%nat); vm_compute; reflexivity|]
  end.
  apply H. intros [|[|i]] l E; [injection E as <-; reflexivity..|done].
Defined.
