(* ===== verification/Coroutine.v ===== *)
(** * Coroutines with stacks of their own (user/src/bin/stackful_coroutine.rs)

    A round-robin runtime in user space.  [switch], which is assembly, leaves the
    CPU where the chosen context was left; a context is what its task has still to
    do: the lines it prints up to each call of [yield_task], and at the end, by the
    return address [spawn] puts there, [guard]. *)

From S2P Require Import Prelude.
Open Scope nat_scope.

Definition MAX_TASKS : nat := 5.

Inductive State := Available | Running | Ready.

#[export] Instance State_eq_dec : EqDecision State.
Proof. solve_decision. Defined.

(** What the program prints. *)
Inductive line :=
  | Spawning (id : nat)
  | Starting (id : nat)
  | Counter (id i : nat)
  | TaskFinished (id : nat)
  | AllFinished.

(** The lines between two calls of [yield_task]. *)
Abbreviation segment := (list line) (only parsing).

(** A task: its id is its index, as [Runtime::new] numbers them, and its stack is
    part of [ctx], what it has still to do. *)
Record Task := mkTask { state : State; ctx : list segment }.

Record Runtime := mkRuntime { tasks : list Task; current : nat; output : list line }.

Definition Task_new : Task := mkTask Available [].
Definition Runtime_new : Runtime := mkRuntime (mkTask Running [] :: replicate (MAX_TASKS - 1) Task_new) 0 [].

Definition is_ready (ts : list Task) (pos : nat) : bool := match ts !! pos with Some t => bool_decide (state t = Ready) | None => false end.
Definition set_state (pos : nat) (s : State) (ts : list Task) : list Task := alter (fun t => mkTask s (ctx t)) pos ts.
Definition set_ctx (pos : nat) (c : list segment) (ts : list Task) : list Task := alter (fun t => mkTask (state t) c) pos ts.

(** The loop of [t_yield]: the next task that is ready, from [pos] on, around
    the table. *)
Fixpoint next_ready (fuel : nat) (ts : list Task) (current pos : nat) : option nat :=
  match fuel with
  | O => None
  | S fuel =>
      if is_ready ts pos then Some pos
      else
        let pos := if (S pos =? length ts) then 0 else S pos in
        if (pos =? current) then None else next_ready fuel ts current pos
  end.

(** [t_yield]: [false] when nothing is ready; otherwise the CPU is at the
    context of the new current task. *)
Definition t_yield (rt : Runtime) : Runtime * bool :=
  match next_ready (length (tasks rt)) (tasks rt) (current rt) (current rt) with
  | None => (rt, false)
  | Some pos =>
      let ts := match tasks rt !! current rt with
                | Some t => if decide (state t = Available) then tasks rt else set_state (current rt) Ready (tasks rt)
                | None => tasks rt
                end in
      (mkRuntime (set_state pos Running ts) pos (output rt), true)
  end.

Definition t_return (rt : Runtime) : Runtime * bool :=
  if (current rt =? 0) then (rt, true)
  else t_yield (mkRuntime (set_state (current rt) Available (tasks rt)) (current rt) (output rt)).

Definition print_lines (l : segment) (rt : Runtime) : Runtime := mkRuntime (tasks rt) (current rt) (output rt ++ l).

(** [spawn]: a panic when no task is available. *)
Definition spawn (f : list segment) (rt : Runtime) : option Runtime :=
  id ← position (fun t => bool_decide (state t = Available)) (tasks rt);
  Some (print_lines [Spawning id] (mkRuntime (<[id := mkTask Ready f]> (tasks rt)) (current rt) (output rt))).

(** The CPU until the next switch. *)
Inductive outcome := Go (rt : Runtime) | Finished (rt : Runtime) | Crashed.

Definition step (rt : Runtime) : outcome :=
  match current rt with
  | O =>
      (* [run]: [while self.t_yield() {}] *)
      let '(rt', b) := t_yield rt in
      if b then Go rt' else Finished (print_lines [AllFinished] rt')
  | pos =>
      match ctx <$> tasks rt !! pos with
      | Some [seg] =>
          (* the closure returns to [guard] *)
          let '(rt', b) := t_return (print_lines seg (mkRuntime (set_ctx pos [] (tasks rt)) pos (output rt))) in
          if b then Go rt' else Crashed
      | Some (seg :: rest) => Go (fst (t_yield (print_lines seg (mkRuntime (set_ctx pos rest (tasks rt)) pos (output rt)))))
      | _ => Crashed
      end
  end.

Fixpoint run (fuel : nat) (rt : Runtime) : option Runtime :=
  match fuel with
  | O => None
  | S fuel => match step rt with Go rt' => run fuel rt' | Finished rt' => Some rt' | Crashed => None end
  end.

(** The closures of [main]: a first line, [n] rounds of a line and a yield, and a
    last line. *)
Definition counter_task (id n : nat) : list segment :=
  match n with
  | O => [[Starting id; TaskFinished id]]
  | S m => [Starting id; Counter id 0] :: ((fun i => [Counter id i]) <$> seq 1 m) ++ [[TaskFinished id]]
  end.

Definition spawn_all (fs : list (list segment)) (rt : Runtime) : option Runtime := foldl (fun r f => r ≫= spawn f) (Some rt) fs.

(** The program, from the creation of the runtime to the end of [run]. *)
Definition main (fuel : nat) : option Runtime :=
  rt ← spawn_all [counter_task 1 4; counter_task 2 8; counter_task 3 12; counter_task 4 16] Runtime_new;
  run fuel rt.

(** ** The table between two switches *)

(** A task whose context is [b], between two turns: a task with nothing left to
    do is available again. *)
Definition parked (b : list segment) : Task := mkTask (match b with [] => Available | _ => Ready end) b.

(** The base task runs and the others have [bs] left. *)
Definition at_base (bs : list (list segment)) (out : list line) : Runtime := mkRuntime (mkTask Running [] :: (parked <$> bs)) 0 out.

(** The task after the tasks [before] runs and has [b] left. *)
Definition at_task (before : list (list segment)) (b : list segment) (rest : list (list segment)) (out : list line) : Runtime :=
  mkRuntime ((mkTask Ready [] :: (parked <$> before)) ++ mkTask Running b :: (parked <$> rest)) (S (length before)) out.

(** The next turn: the first task of [rest] with something to do, or else the
    base task. *)
Fixpoint next_turn (before rest : list (list segment)) (out : list line) : Runtime :=
  match rest with
  | [] => at_base before out
  | b :: rest' => match b with [] => next_turn (before ++ [[]]) rest' out | _ => at_task before b rest' out end
  end.

Lemma next_turn_spec rest : forall before out,
  (Forall (fun b => b = []) rest /\ next_turn before rest out = at_base (before ++ rest) out) \/
  exists skips b rest', rest = skips ++ b :: rest' /\ b <> [] /\ Forall (fun b => b = []) skips /\
    next_turn before rest out = at_task (before ++ skips) b rest' out.
Proof.
  induction rest as [|b rest IH]; intros before out; cbn [next_turn].
  - left. split; [constructor|by rewrite app_nil_r].
  - destruct b as [|seg b].
    + destruct (IH (before ++ [[]]) out) as [[H1 H2]|(skips & c & rest' & -> & Hc & Hs & H2)].
      * left. split; [by constructor|]. rewrite H2. by rewrite <- app_assoc.
      * right. exists ([] :: skips), c, rest'. split_and!; [done|done|by constructor|]. rewrite H2. by rewrite <- app_assoc.
    + right. exists [], (seg :: b), rest. split_and!; [done|done|constructor|by rewrite app_nil_r].
Qed.

Lemma alter_middle {A} (f : A -> A) l1 x l2 n : n = length l1 -> alter f n (l1 ++ x :: l2) = l1 ++ f x :: l2.
Proof. intros ->. induction l1 as [|y l1 IH]; [done|]. cbn. by rewrite IH. Qed.

(** *** The loop of [t_yield] *)

Lemma next_ready_none fuel ts cur pos : (forall r, is_ready ts r = false) -> next_ready fuel ts cur pos = None.
Proof.
  intros H. revert pos. induction fuel as [|fuel IH]; intros pos; cbn [next_ready]; [done|]. rewrite H. cbv zeta.
  destruct (_ =? cur)%nat; [done|apply IH].
Qed.

Lemma next_ready_first ts cur q : is_ready ts q = true -> q < length ts -> forall k pos fuel, pos + k = q -> k < fuel ->
  (forall r, pos <= r < q -> is_ready ts r = false) -> (cur <= pos \/ q < cur) -> next_ready fuel ts cur pos = Some q.
Proof.
  intros Hq Hlen. induction k as [|k IH]; intros pos fuel Hk Hf Hno Hcur; (destruct fuel as [|fuel]; [lia|]); cbn [next_ready].
  - assert (pos = q) as -> by lia. by rewrite Hq.
  - rewrite Hno by lia. cbv zeta. rewrite (proj2 (Nat.eqb_neq (S pos) (length ts))) by lia. rewrite (proj2 (Nat.eqb_neq (S pos) cur)) by lia.
    apply IH; [lia|lia|intros; apply Hno; lia|lia].
Qed.

Lemma next_ready_wrap ts cur : is_ready ts 0 = true -> 0 < cur -> forall k pos fuel, S pos + k = length ts -> S k < fuel ->
  (forall r, pos <= r < length ts -> is_ready ts r = false) -> cur <= pos -> next_ready fuel ts cur pos = Some 0.
Proof.
  intros Hq Hc. induction k as [|k IH]; intros pos fuel Hk Hf Hno Hcur; (destruct fuel as [|fuel]; [lia|]); cbn [next_ready]; rewrite Hno by lia; cbv zeta.
  - rewrite (proj2 (Nat.eqb_eq (S pos) (length ts))) by lia. rewrite (proj2 (Nat.eqb_neq 0 cur)) by lia. destruct fuel; [lia|]. cbn [next_ready]. by rewrite Hq.
  - rewrite (proj2 (Nat.eqb_neq (S pos) (length ts))) by lia. rewrite (proj2 (Nat.eqb_neq (S pos) cur)) by lia.
    apply IH; [lia|lia|intros; apply Hno; lia|lia].
Qed.

Lemma ready_parked pre l post r : Forall (fun b : list segment => b = []) l -> length pre <= r < length pre + length l ->
  is_ready (pre ++ (parked <$> l) ++ post) r = false.
Proof.
  intros Hl Hr. unfold is_ready. rewrite lookup_app_r by lia. rewrite lookup_app_l by (rewrite length_fmap; lia). rewrite list_lookup_fmap.
  destruct (l !! (r - length pre)) as [b|] eqn:E; [|done]. cbn. rewrite Forall_forall in Hl. by rewrite (Hl b) by (by eapply list_elem_of_lookup_2).
Qed.

Lemma ready_at pre t post r : r = length pre -> is_ready (pre ++ t :: post) r = bool_decide (state t = Ready).
Proof. intros ->. unfold is_ready. by rewrite lookup_app_r, Nat.sub_diag by lia. Qed.

(** A task that has run gives its turn away: [t] is its entry when [t_yield] is
    called. *)
Lemma t_yield_task before t b rest out : state t <> Ready -> parked b = (if decide (state t = Available) then t else mkTask Ready (ctx t)) ->
  t_yield (mkRuntime ((mkTask Ready [] :: (parked <$> before)) ++ t :: (parked <$> rest)) (S (length before)) out) =
    (next_turn (before ++ [b]) rest out, true).
Proof.
  intros Ht Hb. set (pre := mkTask Ready [] :: (parked <$> before)). assert (length pre = S (length before)) as Hpre by (cbn; by rewrite length_fmap).
  unfold t_yield. cbn [tasks current output]. set (ts := pre ++ t :: (parked <$> rest)).
  assert (length ts = S (S (length before)) + length rest) as Hlen by (unfold ts; rewrite length_app, Hpre; cbn; rewrite length_fmap; lia).
  assert (is_ready ts (S (length before)) = false) as Hself.
  { unfold ts. rewrite ready_at by done. by apply bool_decide_eq_false. }
  assert (ts !! S (length before) = Some t) as Ets by (unfold ts; by rewrite <- Hpre, list_lookup_middle).
  rewrite Ets. assert ((if decide (state t = Available) then ts else set_state (S (length before)) Ready ts) = pre ++ parked b :: (parked <$> rest)) as ->.
  { rewrite Hb. case_decide; [done|]. unfold set_state, ts. by rewrite alter_middle. }
  destruct (next_turn_spec rest (before ++ [b]) out) as [[Hall ->]|(skips & c & rest' & -> & Hc & Hs & ->)].
  - rewrite (next_ready_wrap ts (S (length before)) ltac:(done) ltac:(lia) (length rest) (S (length before)) (length ts) ltac:(lia) ltac:(lia)); [|intros r Hr|lia].
    + f_equal. unfold at_base. f_equal. rewrite !fmap_app, <- app_assoc. done.
    + destruct (decide (r = S (length before))) as [->|Hne]; [done|]. unfold ts. rewrite cons_middle, app_assoc. rewrite <- (app_nil_r (parked <$> rest)).
      apply ready_parked; [done|]. rewrite length_app, Hpre. cbn. lia.
  - rewrite length_app in Hlen. cbn [length] in Hlen. assert (is_ready ts (S (S (length before)) + length skips) = true) as Hq.
    { unfold ts. rewrite fmap_app, fmap_cons, cons_middle, !app_assoc. rewrite ready_at; [apply bool_decide_eq_true; by destruct c|].
      rewrite !length_app, Hpre, length_fmap. cbn. lia. }
    rewrite (next_ready_first ts _ _ Hq ltac:(lia) (S (length skips)) (S (length before))); [|lia|lia|intros r Hr|by left].
    + f_equal. unfold at_task. f_equal; [|rewrite !length_app; cbn; lia]. unfold set_state. rewrite fmap_app, fmap_cons, cons_middle, !app_assoc.
      rewrite alter_middle by (rewrite !length_app, Hpre, length_fmap; cbn; lia). rewrite !fmap_app. unfold pre. cbn [fmap list_fmap ctx parked]. rewrite <- !app_assoc. cbn [Datatypes.app]. by rewrite <- !app_assoc.
    + destruct (decide (r = S (length before))) as [->|Hne]; [done|]. unfold ts. rewrite fmap_app, cons_middle, !app_assoc, <- (app_assoc _ (parked <$> skips)).
      apply ready_parked; [done|]. rewrite length_app, Hpre. cbn. lia.
Qed.

(** *** One turn *)

Lemma parked_never_ready bs : Forall (fun b => b = []) bs -> forall r, is_ready (mkTask Running [] :: (parked <$> bs)) r = false.
Proof.
  intros Hb r. destruct r as [|r]; [done|]. change (is_ready (parked <$> bs) r = false). unfold is_ready. rewrite list_lookup_fmap.
  destruct (bs !! r) as [b|] eqn:E; [|done]. cbn. rewrite Forall_forall in Hb. by rewrite (Hb b) by (by eapply list_elem_of_lookup_2).
Qed.

(** The base task: it is done when nothing is left to do. *)
Lemma step_base bs out : step (at_base bs out) =
  if decide (Forall (fun b => b = []) bs) then Finished (print_lines [AllFinished] (at_base bs out)) else Go (next_turn [] bs out).
Proof.
  unfold step. cbn [current at_base]. case_decide as Hd.
  - unfold t_yield. cbn [tasks current at_base]. by rewrite next_ready_none by (by apply parked_never_ready).
  - destruct (next_turn_spec bs [] out) as [[Hall _]|(skips & b & rest & -> & Hb & Hs & ->)]; [done|]. unfold t_yield. cbn [tasks current at_base output].
    set (ts := mkTask Running [] :: (parked <$> skips ++ b :: rest)).
    assert (is_ready ts (S (length skips)) = true) as Hq.
    { unfold ts. rewrite fmap_app. cbn [fmap list_fmap]. change (mkTask Running [] :: (parked <$> skips) ++ parked b :: (parked <$> rest)) with ((mkTask Running [] :: (parked <$> skips)) ++ parked b :: (parked <$> rest)).
      rewrite ready_at by (cbn; by rewrite length_fmap). apply bool_decide_eq_true. by destruct b. }
    assert (length ts = S (length skips + S (length rest))) as Hlen by (unfold ts; cbn; rewrite length_fmap, length_app; cbn; lia).
    rewrite (next_ready_first ts 0 _ Hq ltac:(lia) (S (length skips)) 0); [|lia|lia|intros r Hr|by left].
    + cbn [lookup list_lookup state ts]. rewrite decide_False by done. f_equal. unfold at_task. f_equal. unfold set_state, ts. cbn [alter list_alter state ctx Datatypes.app].
      rewrite fmap_app. cbn [fmap list_fmap]. f_equal. rewrite (alter_middle _ (parked <$> skips)) by (by rewrite length_fmap). done.
    + destruct r as [|r]; [done|]. unfold ts. rewrite fmap_app. change (mkTask Running [] :: (parked <$> skips) ++ (parked <$> b :: rest)) with ([mkTask Running []] ++ (parked <$> skips) ++ (parked <$> b :: rest)).
      apply ready_parked; [done|]. cbn. lia.
Qed.

(** Any other task: its next lines are printed. *)
Lemma step_task before seg b rest out :
  step (at_task before (seg :: b) rest out) = Go (next_turn (before ++ [b]) rest (out ++ seg)).
Proof.
  unfold step. cbn [current at_task tasks output]. set (pre := mkTask Ready [] :: (parked <$> before)).
  assert (length pre = S (length before)) as Hpre by (cbn; by rewrite length_fmap).
  assert ((pre ++ mkTask Running (seg :: b) :: (parked <$> rest)) !! S (length before) = Some (mkTask Running (seg :: b))) as -> by (by rewrite <- Hpre, list_lookup_middle).
  cbn [fmap option_fmap option_map ctx]. unfold set_ctx. rewrite !alter_middle by done. cbn [state].
  destruct b as [|seg' b].
  - unfold t_return, print_lines. cbn [current tasks output]. unfold set_state. rewrite alter_middle by done. cbn [Nat.eqb ctx].
    by rewrite (t_yield_task before (mkTask Available []) [] rest).
  - unfold print_lines. cbn [tasks current output]. by rewrite (t_yield_task before (mkTask Running (seg' :: b)) (seg' :: b) rest).
Qed.

(** *** Whole rounds *)

(** What a round prints: the next lines of every task that has some. *)
Definition head_lines (b : list segment) : list line := default [] (head b).
Definition round (bs : list (list segment)) : list line := concat (head_lines <$> bs).

Fixpoint rounds (n : nat) (bs : list (list segment)) : list line :=
  match n with
  | O => []
  | S n => round bs ++ rounds n (tail <$> bs)
  end.

(** The turns that are left in a round. *)
Definition turns (bs : list (list segment)) : nat := length (filter (fun b => b <> []) bs).

Lemma next_turn_round rest : forall before out fuel,
  run (turns rest + fuel) (next_turn before rest out) = run fuel (at_base (before ++ (tail <$> rest)) (out ++ round rest)).
Proof.
  induction rest as [|b rest IH]; intros before out fuel; cbn [next_turn].
  - unfold round. cbn. by rewrite !app_nil_r.
  - unfold turns, round in *. rewrite filter_cons. destruct b as [|seg b].
    + rewrite decide_False by (intros H; by apply H). rewrite IH. cbn [fmap list_fmap head_lines head default concat tail]. by rewrite <- app_assoc.
    + rewrite decide_True by done. cbn [length Nat.add run]. rewrite step_task, IH. cbn [fmap list_fmap concat]. rewrite <- !app_assoc. done.
Qed.

Lemma turns_zero bs : Forall (fun b : list segment => b = []) bs <-> turns bs = 0.
Proof.
  unfold turns. induction bs as [|b bs IH]; [split; [done|constructor]|]. rewrite filter_cons, Forall_cons. destruct b as [|seg b].
  - rewrite decide_False by (intros H; by apply H). tauto.
  - rewrite decide_True by done. cbn. split; [by intros [? _]|done].
Qed.

(** The lines all the tasks have left. *)
Definition longest (bs : list (list segment)) : nat := foldr (fun b n => Nat.max (length b) n) 0 bs.
Definition total (bs : list (list segment)) : nat := foldr (fun b n => length b + n) 0 bs.

Lemma longest_tail bs : longest (tail <$> bs) = Nat.pred (longest bs).
Proof. induction bs as [|b bs IH]; [done|]. cbn [fmap list_fmap longest foldr] in *. fold (longest (tail <$> bs)) (longest bs). rewrite IH. destruct b; cbn; lia. Qed.

Lemma longest_zero bs : Forall (fun b : list segment => b = []) bs <-> longest bs = 0.
Proof.
  induction bs as [|b bs IH]; [split; [done|constructor]|]. rewrite Forall_cons, IH. cbn [longest foldr]. fold (longest bs). destruct b; cbn [length]; split; [intros [_ H]; lia|intros H; split; [done|lia]|by intros [? _]|intros H; lia].
Qed.

Lemma total_tail bs : total (tail <$> bs) + turns bs = total bs.
Proof.
  unfold turns. induction bs as [|b bs IH]; [done|]. cbn [fmap list_fmap total foldr]. fold (total (tail <$> bs)) (total bs). rewrite filter_cons.
  destruct b as [|seg b]; [rewrite decide_False by (intros H; by apply H)|rewrite decide_True by done]; cbn in *; lia.
Qed.

(** From the base task, [total + longest + 1] steps are enough. *)
Lemma run_rounds n : forall bs out fuel, longest bs = n -> total bs + n < fuel ->
  run fuel (at_base bs out) = Some (mkRuntime (mkTask Running [] :: replicate (length bs) Task_new) 0 (out ++ rounds n bs ++ [AllFinished])).
Proof.
  induction n as [|n IH]; intros bs out fuel Hn Hf; (destruct fuel as [|fuel]; [lia|]); cbn [run]; rewrite step_base.
  - rewrite decide_True by (by apply longest_zero). unfold print_lines, at_base. cbn [tasks current output rounds Datatypes.app]. do 2 f_equal. f_equal.
    apply longest_zero in Hn. clear Hf. induction Hn as [|b bs -> _ IHb]; [done|]. cbn. by rewrite IHb.
  - rewrite decide_False by (intros H%longest_zero; lia). pose proof (total_tail bs). assert (turns bs <> 0) as Ht by (intros H0%turns_zero%longest_zero; lia).
    replace fuel with (turns bs + (fuel - turns bs)) by lia. rewrite next_turn_round. cbn [Datatypes.app]. rewrite IH; [|rewrite longest_tail; lia|lia].
    cbn [rounds]. rewrite length_fmap, <- !app_assoc. done.
Qed.

(** *** Spawning *)

Lemma spawn_parked bs out f : f <> [] -> Forall (fun b => b <> []) bs ->
  spawn f (mkRuntime (mkTask Running [] :: (parked <$> bs) ++ replicate (MAX_TASKS - 1 - length bs) Task_new) 0 out) =
    if decide (length bs < MAX_TASKS - 1) then
      Some (mkRuntime (mkTask Running [] :: (parked <$> bs ++ [f]) ++ replicate (MAX_TASKS - 1 - length (bs ++ [f])) Task_new) 0 (out ++ [Spawning (S (length bs))]))
    else None.
Proof.
  intros Hf Hb. unfold spawn. cbn [tasks current output].
  set (p := fun t : Task => bool_decide (state t = Available)).
  assert (forall post, position p (mkTask Running [] :: (parked <$> bs) ++ post) = (fun i => S (length bs + i)) <$> position p post) as Hpos.
  { intros post. cbn [position]. unfold p at 1. cbn [state bool_decide decide]. rewrite bool_decide_eq_false_2 by done.
    assert (position p ((parked <$> bs) ++ post) = (fun i => length bs + i) <$> position p post) as ->; [|by destruct (position p post)].
    induction Hb as [|b bs Hb1 _ IH]; cbn [fmap list_fmap Datatypes.app length]; [by destruct (position p post)|]. cbn [position]. unfold p at 1. rewrite bool_decide_eq_false_2 by (by destruct b).
    rewrite IH. by destruct (position p post). }
  rewrite Hpos. case_decide as Hlt.
  - destruct (MAX_TASKS - 1 - length bs) as [|k] eqn:Ek; [lia|]. cbn [replicate]. cbn [position]. unfold p at 1. rewrite bool_decide_eq_true_2 by done. cbn [fmap option_fmap option_map mbind option_bind].
    rewrite Nat.add_0_r. unfold print_lines. cbn [tasks current output]. do 2 f_equal. rewrite list_insert_alter, length_app. cbn [length].
    replace (MAX_TASKS - 1 - (length bs + 1)) with k by lia. rewrite fmap_app, <- app_assoc.
    change (mkTask Running [] :: (parked <$> bs) ++ Task_new :: replicate k Task_new) with ((mkTask Running [] :: (parked <$> bs)) ++ Task_new :: replicate k Task_new).
    rewrite alter_middle by (cbn; by rewrite length_fmap). by destruct f.
  - replace (MAX_TASKS - 1 - length bs) with 0 by lia. done.
Qed.

Lemma spawn_all_parked fs : forall bs out, Forall (fun b => b <> []) fs -> Forall (fun b => b <> []) bs -> length bs + length fs <= MAX_TASKS - 1 ->
  spawn_all fs (mkRuntime (mkTask Running [] :: (parked <$> bs) ++ replicate (MAX_TASKS - 1 - length bs) Task_new) 0 out) =
    Some (mkRuntime (mkTask Running [] :: (parked <$> bs ++ fs) ++ replicate (MAX_TASKS - 1 - length (bs ++ fs)) Task_new) 0
      (out ++ (Spawning <$> seq (S (length bs)) (length fs)))).
Proof.
  unfold spawn_all. induction fs as [|f fs IH]; intros bs out Hfs Hbs Hlen; cbn [foldl].
  - by rewrite !app_nil_r.
  - apply Forall_cons in Hfs as [Hf Hfs]. cbn [length] in Hlen. cbn [mbind option_bind]. rewrite spawn_parked by done. rewrite decide_True by lia.
    rewrite IH; [|done|by apply Forall_app; split; [|constructor]|rewrite length_app; cbn [length]; lia].
    rewrite <- !app_assoc. cbn [Datatypes.app length seq fmap list_fmap]. replace (length (bs ++ [f])) with (S (length bs)) by (rewrite length_app; cbn; lia). done.
Qed.

(** *** Free slots take no part *)

Lemma longest_free fs k : longest (fs ++ replicate k []) = longest fs.
Proof. unfold longest. rewrite foldr_app. f_equal. induction k as [|k IH]; [done|]. cbn. by rewrite IH. Qed.

Lemma total_free fs k : total (fs ++ replicate k []) = total fs.
Proof. unfold total. rewrite foldr_app. f_equal. induction k as [|k IH]; [done|]. cbn. by rewrite IH. Qed.

Lemma rounds_free n : forall fs k, rounds n (fs ++ replicate k []) = rounds n fs.
Proof.
  induction n as [|n IH]; intros fs k; [done|]. cbn [rounds]. rewrite fmap_app, fmap_replicate, IH. f_equal. unfold round. rewrite fmap_app, concat_app.
  rewrite fmap_replicate. assert (concat (replicate k (head_lines [])) = []) as -> by (by induction k). apply app_nil_r.
Qed.

(** The coroutine runtime runs every task to its end, in rounds.  With at
    most four closures, each of which prints and yields any number of times,
    [spawn] gives each a slot and [run] returns; what is printed is, round after
    round, the next lines of every task that is not finished, in the order of the
    slots, and then the line of [run]; all the slots are available again.  A fifth
    closure is refused with a panic. *)
Theorem coroutines_run_in_rounds fs fuel : Forall (fun f => f <> []) fs -> length fs <= MAX_TASKS - 1 -> total fs + longest fs < fuel ->
  (rt ← spawn_all fs Runtime_new; run fuel rt) =
    Some (mkRuntime (tasks Runtime_new) 0 ((Spawning <$> seq 1 (length fs)) ++ rounds (longest fs) fs ++ [AllFinished])) /\
  (forall f, length fs = MAX_TASKS - 1 -> f <> [] -> (rt ← spawn_all fs Runtime_new; spawn f rt) = None).
Proof.
  intros Hf Hlen Hfuel. pose proof (spawn_all_parked fs [] [] Hf (Forall_nil_2 _) Hlen) as Hs. cbn [length fmap list_fmap Datatypes.app Nat.sub] in Hs.
  change (mkRuntime (mkTask Running [] :: replicate (MAX_TASKS - 1 - 0) Task_new) 0 []) with Runtime_new in Hs. split.
  - rewrite Hs. cbn [mbind option_bind]. set (bs := fs ++ replicate (MAX_TASKS - 1 - length fs) []).
    assert ((parked <$> fs) ++ replicate (MAX_TASKS - 1 - length fs) Task_new = parked <$> bs) as -> by (unfold bs; by rewrite fmap_app, fmap_replicate).
    assert (longest bs = longest fs) as Hl by apply longest_free.
    assert (total bs = total fs) as Ht by apply total_free.
    fold (at_base bs (Spawning <$> seq 1 (length fs))). rewrite (run_rounds (longest fs)) by lia.
    replace (length bs) with (MAX_TASKS - 1) by (unfold bs; rewrite length_app, length_replicate; lia).
    unfold bs. by rewrite rounds_free.
  - intros f Hfull Hne. rewrite Hs. cbn [mbind option_bind]. rewrite (spawn_parked fs); [|done|done]. rewrite decide_False; [done|lia].
Qed.

(** The program: four tasks of 4, 8, 12 and 16 rounds. *)
Lemma coroutines_run_in_rounds_witness : exists rt, main 100 = Some rt /\
  output rt = (Spawning <$> [1; 2; 3; 4]) ++ rounds 17 [counter_task 1 4; counter_task 2 8; counter_task 3 12; counter_task 4 16] ++ [AllFinished].
Proof.
  destruct (coroutines_run_in_rounds [counter_task 1 4; counter_task 2 8; counter_task 3 12; counter_task 4 16] 100) as [E _];
    [by repeat constructor|by vm_compute|vm_compute; lia|].
  eexists. split; [exact E|reflexivity].
Defined.
