(* ===== verification/Executor.v ===== *)
(** * Coroutines without stacks (user/src/bin/stackless_coroutine.rs)

    An executor of futures.  An [async] block is what it prints between its
    awaits of the task's [Waiter], and the queue of the executor is a list. *)

From S2P Require Import Prelude Coroutine.
Open Scope nat_scope.

Inductive State := Halted | Running.

(** [Waiter::poll]: the new state of the task, and whether the future is ready. *)
Definition Waiter_poll (s : State) : State * bool :=
  match s with
  | Halted => (Running, true)
  | Running => (Halted, false)
  end.

(** An [async] block: the state of its task, whether it is in an await, and the
    lines it prints up to each of the awaits it has still to begin. *)
Record Future (line : Type) := mkFuture { task : State; awaiting : bool; rest : list (list line) }.
Arguments mkFuture {line}. Arguments task {line}. Arguments awaiting {line}. Arguments rest {line}.

Section Executor.
Context {line : Type}.

(** On, up to the next await that is not ready: [None] when the block has ended. *)
Fixpoint resume (s : State) (segs : list (list line)) (out : list line) : option (Future line) * list line :=
  match segs with
  | [] => (None, out)
  | [seg] => (None, out ++ seg)
  | seg :: segs =>
      let '(s', ready) := Waiter_poll s in
      if ready : bool then resume s' segs (out ++ seg) else (Some (mkFuture s' true segs), out ++ seg)
  end.

(** [Future::poll] of the block. *)
Definition poll (f : Future line) (out : list line) : option (Future line) * list line :=
  if awaiting f then
    let '(s', ready) := Waiter_poll (task f) in
    if ready : bool then resume s' (rest f) out else (Some (mkFuture s' true (rest f)), out)
  else resume (task f) (rest f) out.

Definition Executor_push (segs : list (list line)) (tasks : list (Future line)) : list (Future line) := tasks ++ [mkFuture Running false segs].

Fixpoint Executor_run (fuel : nat) (tasks : list (Future line)) (out : list line) : option (list line) :=
  match tasks with
  | [] => Some out
  | f :: tasks =>
      match fuel with
      | O => None
      | S fuel =>
          match poll f out with
          | (Some f', out') => Executor_run fuel (tasks ++ [f']) out'
          | (None, out') => Executor_run fuel tasks out'
          end
      end
  end.

(** Blocks not begun, and blocks in an await. *)
Definition fresh (segs : list (list line)) : Future line := mkFuture Running false segs.
Definition halted (segs : list (list line)) : Future line := mkFuture Halted true segs.

Lemma poll_block f seg segs out : f = fresh (seg :: segs) \/ f = halted (seg :: segs) ->
  poll f out = (match segs with [] => None | _ => Some (halted segs) end, out ++ seg).
Proof. intros [-> | ->]; by destruct segs. Qed.

(** What a round prints, and what is left. *)
Definition heads (bs : list (list (list line))) : list line := concat ((fun b => default [] (head b)) <$> bs).
Definition left_after (bs : list (list (list line))) : list (list (list line)) := filter (fun b => b <> []) (tail <$> bs).
Definition total_segments (bs : list (list (list line))) : nat := sum_list (length <$> bs).

Lemma run_round (mk : list (list line) -> Future line) bs : (forall b, mk b = fresh b \/ mk b = halted b) -> Forall (fun b => b <> []) bs -> forall later fuel out,
  Executor_run (length bs + fuel) ((mk <$> bs) ++ later) out = Executor_run fuel (later ++ (halted <$> left_after bs)) (out ++ heads bs).
Proof.
  intros Hmk Hbs. induction Hbs as [|b bs Hb _ IH]; intros later fuel out; [unfold left_after, heads; cbn; by rewrite !app_nil_r|].
  destruct b as [|seg segs]; [done|]. cbn [fmap list_fmap Datatypes.app length Nat.add Executor_run].
  rewrite (poll_block _ seg segs) by apply Hmk. unfold left_after, heads. cbn [fmap list_fmap tail head default concat]. rewrite filter_cons.
  destruct segs as [|s2 segs].
  - rewrite decide_False by (intros H; by apply H). rewrite IH. by rewrite <- app_assoc.
  - rewrite decide_True by done. rewrite <- app_assoc. rewrite IH, <- !app_assoc. done.
Qed.

Fixpoint all_rounds (n : nat) (bs : list (list (list line))) : list line :=
  match n with
  | O => []
  | S n => heads bs ++ all_rounds n (tail <$> bs)
  end.

Lemma heads_filter bs : heads (filter (fun b => b <> []) bs) = heads bs.
Proof.
  unfold heads. induction bs as [|b bs IH]; [done|]. rewrite filter_cons. destruct b as [|seg b].
  - rewrite decide_False by (intros H; by apply H). by rewrite IH.
  - rewrite decide_True by done. cbn [fmap list_fmap concat]. by rewrite IH.
Qed.

Lemma tails_filter (bs : list (list (list line))) : filter (fun b => b <> []) (tail <$> filter (fun b => b <> []) bs) = filter (fun b => b <> []) (tail <$> bs).
Proof.
  induction bs as [|b bs IH]; [done|]. rewrite (filter_cons _ b). destruct b as [|seg b].
  - rewrite decide_False by (intros H; by apply H). cbn [fmap list_fmap tail]. rewrite filter_cons. by rewrite decide_False by (intros H; by apply H).
  - rewrite decide_True by done. cbn [fmap list_fmap tail]. rewrite !filter_cons. by rewrite IH.
Qed.

(** A block that has ended prints nothing. *)
Lemma rounds_filter n : forall bs : list (list (list line)), all_rounds n (filter (fun b => b <> []) bs) = all_rounds n bs.
Proof.
  induction n as [|n IH]; intros bs; [done|]. cbn [all_rounds]. rewrite heads_filter. f_equal.
  rewrite <- (IH (tail <$> filter _ bs)), tails_filter. apply IH.
Qed.

Lemma total_left bs : Forall (fun b => b <> []) bs -> total_segments (left_after bs) + length bs = total_segments bs.
Proof.
  unfold total_segments, left_after. intros Hb. induction Hb as [|b bs Hb _ IH]; [done|]. destruct b as [|seg b]; [done|].
  cbn [fmap list_fmap tail]. rewrite filter_cons. destruct b as [|seg2 b].
  - rewrite decide_False by (intros H; by apply H). cbn in *. lia.
  - rewrite decide_True by done. cbn in *. lia.
Qed.

Lemma left_nonempty bs : Forall (fun b => b <> []) (left_after bs).
Proof. unfold left_after. apply Forall_forall. intros b Hb. by apply list_elem_of_filter in Hb as [? _]. Qed.

(** [n] is at least the number of rounds. *)
Lemma run_blocks n : forall (mk : list (list line) -> Future line) bs fuel out, (forall b, mk b = fresh b \/ mk b = halted b) -> Forall (fun b => b <> []) bs ->
  Forall (fun b => length b <= n) bs -> total_segments bs <= fuel -> Executor_run fuel (mk <$> bs) out = Some (out ++ all_rounds n bs).
Proof.
  induction n as [|n IH]; intros mk bs fuel out Hmk Hne Hlen Hf.
  - destruct bs as [|b bs]; [destruct fuel; cbn; by rewrite app_nil_r|]. exfalso. apply Forall_cons in Hlen as [Hb _]. apply Forall_cons in Hne as [Hb' _]. destruct b; cbn in *; [done|lia].
  - pose proof (total_left bs Hne) as Ht. replace fuel with (length bs + (fuel - length bs)) by lia.
    pose proof (run_round mk bs Hmk Hne [] (fuel - length bs) out) as Hr. rewrite app_nil_r in Hr. rewrite Hr. cbn [Datatypes.app]. rewrite (IH halted); [|by right|apply left_nonempty| |lia].
    + unfold left_after. rewrite rounds_filter. cbn [all_rounds]. by rewrite app_assoc.
    + unfold left_after. apply Forall_forall. intros b Hb. apply list_elem_of_filter in Hb as [_ (b' & -> & Hb')%list_elem_of_fmap].
      rewrite Forall_forall in Hlen. specialize (Hlen b' Hb'). destruct b'; cbn in *; lia.
Qed.

Lemma push_all_onto bs : forall q, foldl (fun q b => Executor_push b q) q bs = q ++ (fresh <$> bs).
Proof.
  induction bs as [|b bs IH]; intros q; cbn [foldl]; [by rewrite app_nil_r|]. rewrite IH. unfold Executor_push. by rewrite <- app_assoc.
Qed.

Lemma push_all bs : foldl (fun q b => Executor_push b q) [] bs = fresh <$> bs.
Proof. apply (push_all_onto bs []). Qed.

End Executor.

Lemma longest_bound (fs : list (list segment)) : Forall (fun b => length b <= longest fs) fs.
Proof.
  induction fs as [|f fs IH]; [constructor|]. cbn [longest foldr]. fold (longest fs). constructor; [lia|]. eapply Forall_impl; [exact IH|]. cbn. lia.
Qed.

Lemma all_rounds_rounds n : forall fs : list (list segment), all_rounds n fs = rounds n fs.
Proof. induction n as [|n IH]; intros fs; [done|]. cbn [all_rounds rounds]. by rewrite IH. Qed.

Lemma total_total (fs : list (list segment)) : total_segments fs = total fs.
Proof. unfold total_segments, total. induction fs as [|f fs IH]; [done|]. cbn. by rewrite <- IH. Qed.

(** C19: the two coroutine runtimes run every task to its end, in rounds, and
    print the same.  With at most four closures, each of which prints and yields
    any number of times, [spawn] of stackful_coroutine.rs gives each a slot and
    [run] returns: between the lines of [spawn] and the last line of [run] it has
    printed, round after round, the next lines of every task that is not
    finished, in the order of the slots, and all the slots are available again; a
    fifth closure is refused with a panic.  The executor of
    stackless_coroutine.rs, given [async] blocks that do the same, prints exactly
    these rounds, for any number of blocks. *)
Theorem runtimes_run_in_rounds fs fuel fuel' : Forall (fun f => f <> []) fs -> total fs + longest fs < fuel -> total fs <= fuel' ->
  (length fs <= MAX_TASKS - 1 ->
   (rt ← spawn_all fs Runtime_new; run fuel rt) =
     Some (mkRuntime (tasks Runtime_new) 0 ((Spawning <$> seq 1 (length fs)) ++ rounds (longest fs) fs ++ [AllFinished])) /\
   (forall f, length fs = MAX_TASKS - 1 -> f <> [] -> (rt ← spawn_all fs Runtime_new; spawn f rt) = None)) /\
  Executor_run fuel' (foldl (fun q b => Executor_push b q) [] fs) [] = Some (rounds (longest fs) fs).
Proof.
  intros Hf Hfuel Hfuel'. split; [intros Hlen; by apply coroutines_run_in_rounds|].
  rewrite push_all, (run_blocks (longest fs) fresh); [by rewrite all_rounds_rounds|by left|done|apply longest_bound|by rewrite total_total].
Qed.

(** The tasks of stackful_coroutine.rs, and the same as blocks. *)
Lemma runtimes_run_in_rounds_witness : exists rt, main 100 = Some rt /\
  let fs := [counter_task 1 4; counter_task 2 8; counter_task 3 12; counter_task 4 16] in
  output rt = (Spawning <$> [1; 2; 3; 4]) ++ default [] (Executor_run 44 (foldl (fun q b => Executor_push b q) [] fs) []) ++ [AllFinished].
Proof.
  destruct (runtimes_run_in_rounds [counter_task 1 4; counter_task 2 8; counter_task 3 12; counter_task 4 16] 100 44) as [E1 E2];
    [by repeat constructor|vm_compute; lia|vm_compute; lia|]. destruct E1 as [E1 _]; [vm_compute; lia|].
  eexists. split; [exact E1|]. cbv zeta. rewrite E2. reflexivity.
Defined.
