(* ===== verification/UserSync.v ===== *)
(** * Blocking objects as the threads of a program see them

    A blocking call of os/src/sync is one step of its thread: it puts the thread
    in the object's queue or lets it go on, and a thread in a queue has no step
    until another takes it out.  So, of the kernel, a program sees only the
    object; the first part says that its calls are those of [Sync].  The second
    part says who holds a mutex and what the count of a semaphore is worth, for
    threads with numbers from 0. *)

From S2P Require Import Prelude Scheduler Processor Sync Threads.
Open Scope Z_scope.

(** ** The calls on one object *)

Definition mutex_lock (tid : Z) (i : MutexBlockingInner) : MutexBlockingInner :=
  if mb_locked i then mkMutex true (mb_wait_queue i ++ [tid]) else mkMutex true (mb_wait_queue i).

(** [None]: the assertion of [unlock] fails. *)
Definition mutex_unlock (i : MutexBlockingInner) : option MutexBlockingInner :=
  if mb_locked i then
    Some match mb_wait_queue i with _ :: q => mkMutex (mb_locked i) q | [] => mkMutex false [] end
  else None.

Definition semaphore_down (tid : Z) (i : SemaphoreInner) : SemaphoreInner :=
  let count := isize_wrap (se_count i - 1) in
  mkSem count (if count <? 0 then se_wait_queue i ++ [tid] else se_wait_queue i).

Definition semaphore_up (i : SemaphoreInner) : SemaphoreInner :=
  let count := isize_wrap (se_count i + 1) in
  mkSem count (if count <=? 0 then tail (se_wait_queue i) else se_wait_queue i).

Definition condvar_signal (i : CondvarInner) : CondvarInner := mkCondvar (tail (cv_wait_queue i)).

(** The queue of [wait_with_mutex]; the mutex is unlocked before and locked
    again after. *)
Definition condvar_wait (tid : Z) (i : CondvarInner) : CondvarInner := mkCondvar (cv_wait_queue i ++ [tid]).

Definition in_queue (tid : nat) (q : list Z) : bool := bool_decide (Z.of_nat tid ∈ q).

(** *** They are the kernel's *)

Section Kernel.
Context {T : Type} `{Scheduler T}.

Ltac run_kernel := repeat match goal with
  | H : (_ ≫= _) _ = Ok _ |- _ => apply bind_Ok in H as (? & ? & ? & ?)
  | H : unwrap _ _ = Ok _ |- _ => unfold unwrap in H; case_match; [|discriminate]
  | H : mret _ _ = Ok _ |- _ => injection H as ? ?; subst
  | H : massert _ _ = Ok _ |- _ => unfold massert in H; case_match; [|discriminate]
  | H : panic _ = Ok _ |- _ => discriminate
  | H : current_task _ = Ok _ |- _ => injection H as ? ?; subst
  end.

(** A call that returns to the kernel made exactly this change, and its thread
    sleeps exactly when it is in the queue now. *)
Lemma mutex_lock_kernel i (k : Kernel T) i' o k' tid : kn_current k = Some tid -> MutexBlocking_lock i k = Ok ((i', o), k') ->
  i' = mutex_lock tid i /\ o = (if mb_locked i then Sleep else Go).
Proof.
  unfold MutexBlocking_lock, mutex_lock. intros Ht E. destruct (mb_locked i); run_kernel; [|done]. split; [|done]. congruence.
Qed.

Lemma mutex_unlock_kernel i (k : Kernel T) i' k' : MutexBlocking_unlock i k = Ok (i', k') -> mutex_unlock i = Some i'.
Proof.
  unfold MutexBlocking_unlock, mutex_unlock. intros E. run_kernel. destruct (mb_locked i), (mb_wait_queue i); run_kernel; done.
Qed.

Lemma semaphore_down_kernel i (k : Kernel T) i' o k' tid : kn_current k = Some tid -> Semaphore_down i k = Ok ((i', o), k') ->
  i' = semaphore_down tid i /\ o = (if isize_wrap (se_count i - 1) <? 0 then Sleep else Go).
Proof.
  unfold Semaphore_down, semaphore_down. intros Ht E. destruct (_ <? 0); run_kernel; [|done]. split; [|done]. congruence.
Qed.

Lemma semaphore_up_kernel i (k : Kernel T) i' k' : Semaphore_up i k = Ok (i', k') -> i' = semaphore_up i.
Proof.
  unfold Semaphore_up, semaphore_up. intros E. destruct (_ <=? 0); [|by run_kernel]. destruct (se_wait_queue i); run_kernel; done.
Qed.

Lemma condvar_signal_kernel i (k : Kernel T) i' k' : Condvar_signal i k = Ok (i', k') -> i' = condvar_signal i.
Proof. unfold Condvar_signal, condvar_signal. intros E. destruct (cv_wait_queue i) eqn:Eq; run_kernel; rewrite ?Eq; done. Qed.

Lemma condvar_wait_kernel i mutex (k : Kernel T) i' mutex' k' tid : kn_current k = Some tid -> Condvar_wait_with_mutex i mutex k = Ok ((i', mutex'), k') ->
  exists k1, Mutex_unlock mutex k = Ok (mutex', k1) /\ (kn_current k1 = Some tid -> i' = condvar_wait tid i).
Proof.
  unfold Condvar_wait_with_mutex, condvar_wait. intros Ht E. apply bind_Ok in E as (mu & k1 & Eu & E). run_kernel.
  eexists. split; [exact Eu|]. intros. congruence.
Qed.

End Kernel.

(** ** Who holds a mutex *)

(** [claim tid]: thread [tid] holds the mutex or waits for it. *)
Definition mutex_ok (claim : nat -> Prop) (i : MutexBlockingInner) : Prop :=
  if mb_locked i then
    exists o q, mb_wait_queue i = Z.of_nat <$> q /\ NoDup (o :: q) /\ forall tid, claim tid <-> tid ∈ o :: q
  else mb_wait_queue i = [] /\ forall tid, ~ claim tid.

Lemma in_queue_nat tid (q : list nat) : in_queue tid (Z.of_nat <$> q) = true <-> tid ∈ q.
Proof. unfold in_queue. rewrite bool_decide_eq_true. rewrite list_elem_of_fmap. split; [intros (x & ->%Nat2Z.inj & ?); done|eauto]. Qed.

Lemma in_queue_nat_false tid (q : list nat) : in_queue tid (Z.of_nat <$> q) = false <-> tid ∉ q.
Proof. rewrite <- in_queue_nat. by rewrite not_true_iff_false. Qed.

Lemma in_queue_nil tid : in_queue tid [] = false.
Proof. apply bool_decide_eq_false, not_elem_of_nil. Qed.

Lemma mutex_ok_ext (claim claim' : nat -> Prop) i : (forall tid, claim tid <-> claim' tid) -> mutex_ok claim i -> mutex_ok claim' i.
Proof.
  unfold mutex_ok. intros Hc. destruct (mb_locked i).
  - intros (o & q & Hq & Hn & Ho). exists o, q. split_and!; [done..|]. intros tid. by rewrite <- Hc.
  - intros [Hq Hn]. split; [done|]. intros tid. by rewrite <- Hc.
Qed.

Lemma mutex_ok_new : mutex_ok (fun _ => False) (mkMutex false []).
Proof. split; [done|]. intros tid []. Qed.

(** Who waits has a claim. *)
Lemma mutex_ok_waits claim i tid : mutex_ok claim i -> in_queue tid (mb_wait_queue i) = true -> claim tid.
Proof.
  unfold mutex_ok. destruct (mb_locked i).
  - intros (o & q & -> & _ & Ho) Hq%in_queue_nat. apply Ho. by right.
  - intros [-> _] Hq. by rewrite (in_queue_nil tid) in Hq.
Qed.

(** Two with a claim: one of them waits. *)
Lemma mutex_ok_one claim i t1 t2 : mutex_ok claim i -> claim t1 -> claim t2 ->
  in_queue t1 (mb_wait_queue i) = false -> in_queue t2 (mb_wait_queue i) = false -> t1 = t2.
Proof.
  unfold mutex_ok. destruct (mb_locked i); [|by intros [_ H] H1%H].
  intros (o & q & -> & _ & Ho) H1%Ho H2%Ho N1%in_queue_nat_false N2%in_queue_nat_false.
  apply elem_of_cons in H1 as [->|?]; [|done]. apply elem_of_cons in H2 as [->|?]; done.
Qed.

(** Who waits, waits for another that has it. *)
Lemma mutex_ok_holder claim i tid : mutex_ok claim i -> in_queue tid (mb_wait_queue i) = true ->
  exists o, claim o /\ in_queue o (mb_wait_queue i) = false.
Proof.
  unfold mutex_ok. destruct (mb_locked i).
  - intros (o & q & -> & [Hn _]%NoDup_cons & Ho) _. exists o. split; [apply Ho; by left|by apply in_queue_nat_false].
  - intros [-> _] Hq. by rewrite (in_queue_nil tid) in Hq.
Qed.

Lemma mutex_lock_ok claim i tid : mutex_ok claim i -> ~ claim tid ->
  mutex_ok (fun t => t = tid \/ claim t) (mutex_lock (Z.of_nat tid) i) /\
  forall t, in_queue t (mb_wait_queue (mutex_lock (Z.of_nat tid) i)) = true -> t = tid \/ in_queue t (mb_wait_queue i) = true.
Proof.
  unfold mutex_ok, mutex_lock. destruct (mb_locked i); cbn [mb_locked mb_wait_queue].
  - intros (o & q & -> & Hn & Ho) Hc. replace ((Z.of_nat <$> q) ++ [Z.of_nat tid]) with (Z.of_nat <$> (q ++ [tid])) by (by rewrite fmap_app). split.
    + exists o, (q ++ [tid]). split_and!; [done| |].
      * change (o :: q ++ [tid]) with ((o :: q) ++ [tid]). apply NoDup_app. split_and!; [done| |by apply NoDup_singleton].
        intros x Hx ->%list_elem_of_singleton. by apply Hc, Ho.
      * intros t. rewrite Ho. change (o :: q ++ [tid]) with ((o :: q) ++ [tid]). rewrite elem_of_app, list_elem_of_singleton. tauto.
    + intros t Ht%in_queue_nat. rewrite in_queue_nat. apply elem_of_app in Ht as [?| ->%list_elem_of_singleton]; auto.
  - intros [-> Hc] _. split; [|auto]. exists tid, []. split_and!; [done|by apply NoDup_singleton|]. intros t. rewrite list_elem_of_singleton. specialize (Hc t). tauto.
Qed.

Lemma mutex_unlock_ok claim i tid : mutex_ok claim i -> claim tid -> in_queue tid (mb_wait_queue i) = false ->
  exists i', mutex_unlock i = Some i' /\ mutex_ok (fun t => t <> tid /\ claim t) i' /\
    forall t, in_queue t (mb_wait_queue i') = true -> in_queue t (mb_wait_queue i) = true.
Proof.
  unfold mutex_ok, mutex_unlock. destruct (mb_locked i) eqn:El; [|by intros [_ H] H1%H].
  intros (o & q & -> & Hn & Ho) Hc%Ho Hq%in_queue_nat_false. apply elem_of_cons in Hc as [->|?]; [|done].
  eexists. split; [done|]. destruct q as [|o' q]; cbn [fmap list_fmap mb_locked mb_wait_queue].
  - split; [|done]. split; [done|]. intros t [Ht Hc]. apply Ho, list_elem_of_singleton in Hc. done.
  - apply NoDup_cons in Hn as [Ho' Hn]. split.
    + exists o', q. split_and!; [done..|]. intros t. rewrite Ho, (elem_of_cons _ t o). split; [by intros (? & [?|?])|]. intros Ht. split; [|by right]. intros ->. done.
    + intros t Ht. change (Z.of_nat o' :: (Z.of_nat <$> q)) with (Z.of_nat <$> (o' :: q)). apply in_queue_nat. right. by apply in_queue_nat.
Qed.

(** ** What the count of a semaphore is worth

    A count below zero is the number of threads in the queue. *)
Definition semaphore_ok (i : SemaphoreInner) : Prop :=
  exists q, se_wait_queue i = Z.of_nat <$> q /\ NoDup q /\ Z.of_nat (length q) = Z.max 0 (- se_count i).

Lemma semaphore_ok_new n : 0 <= n < 2 ^ 62 -> semaphore_ok (Semaphore_new n) /\ se_count (Semaphore_new n) = n.
Proof.
  intros Hn. unfold Semaphore_new, semaphore_ok. cbn [se_wait_queue se_count]. change (as_isize n) with (isize_wrap n).
  rewrite isize_wrap_small by lia. split; [|done]. exists []. split_and!; [done|constructor|cbn; lia].
Qed.

Lemma semaphore_down_ok i tid : semaphore_ok i -> in_queue tid (se_wait_queue i) = false -> - 2 ^ 62 < se_count i < 2 ^ 62 ->
  semaphore_ok (semaphore_down (Z.of_nat tid) i) /\ se_count (semaphore_down (Z.of_nat tid) i) = se_count i - 1 /\
  forall t, in_queue t (se_wait_queue (semaphore_down (Z.of_nat tid) i)) = true -> t = tid \/ in_queue t (se_wait_queue i) = true.
Proof.
  intros (q & Hq & Hn & Hlen) Hno Hc. unfold semaphore_down, semaphore_ok. rewrite isize_wrap_small by lia. cbn [se_count se_wait_queue]. rewrite Hq in *.
  destruct (se_count i - 1 <? 0) eqn:E; [apply Z.ltb_lt in E|apply Z.ltb_ge in E].
  - replace ((Z.of_nat <$> q) ++ [Z.of_nat tid]) with (Z.of_nat <$> (q ++ [tid])) by (by rewrite fmap_app). split_and!; [|done|].
    + exists (q ++ [tid]). split_and!; [done| |rewrite length_app; cbn; lia]. apply NoDup_app. apply in_queue_nat_false in Hno.
      split_and!; [done|by intros x Hx ->%list_elem_of_singleton|by apply NoDup_singleton].
    + intros t Ht%in_queue_nat. rewrite in_queue_nat. apply elem_of_app in Ht as [?| ->%list_elem_of_singleton]; auto.
  - split_and!; [|done|by auto]. exists q. split_and!; [done..|lia].
Qed.

Lemma semaphore_up_ok i : semaphore_ok i -> - 2 ^ 62 < se_count i < 2 ^ 62 ->
  semaphore_ok (semaphore_up i) /\ se_count (semaphore_up i) = se_count i + 1 /\
  forall t, in_queue t (se_wait_queue (semaphore_up i)) = true -> in_queue t (se_wait_queue i) = true.
Proof.
  intros (q & Hq & Hn & Hlen) Hc. unfold semaphore_up, semaphore_ok. rewrite isize_wrap_small by lia. cbn [se_count se_wait_queue]. rewrite Hq in *.
  destruct (se_count i + 1 <=? 0) eqn:E; [apply Z.leb_le in E|apply Z.leb_gt in E].
  - destruct q as [|t0 q]; cbn [length] in Hlen; [lia|]. cbn [fmap list_fmap tail]. apply NoDup_cons in Hn as [_ Hn]. split_and!; [|done|].
    + exists q. split_and!; [done..|lia].
    + intros t Ht%in_queue_nat. change (Z.of_nat t0 :: (Z.of_nat <$> q)) with (Z.of_nat <$> t0 :: q). apply in_queue_nat. by right.
  - split_and!; [|done|by auto]. exists q. split_and!; [done..|lia].
Qed.

(** Counting: [cl] has a 1 for every thread that claims something. *)
Lemma members_le_zsum (q : list nat) : forall cl, NoDup q -> (forall t x, cl !! t = Some x -> 0 <= x) -> (forall t, t ∈ q -> cl !! t = Some 1) ->
  Z.of_nat (length q) <= zsum cl.
Proof.
  induction q as [|t q IH]; intros cl Hn Hpos Hcl.
  - by apply zsum_nonneg.
  - apply NoDup_cons in Hn as [Ht Hn]. pose proof (Hcl t ltac:(by left)) as E. pose proof (zsum_insert cl t 1 0 E) as Hz. cbn [length].
    enough (Z.of_nat (length q) <= zsum (<[t := 0]> cl)) by lia. apply IH; [done| |].
    + intros u x Hu. destruct (insert_lookup_cases _ _ _ _ _ _ E Hu) as [[_ ->]|[_ ?]]; [done|by eapply Hpos].
    + intros u Hu. rewrite list_lookup_insert_ne by (by intros ->). apply Hcl. by right.
Qed.

Lemma zsum_pos cl : (forall t x, cl !! t = Some x -> x <= 0) -> zsum cl <= 0.
Proof.
  induction cl as [|x cl IH]; intros H; [done|]. cbn [zsum foldr]. fold (zsum cl). pose proof (H 0%nat x eq_refl).
  specialize (IH (fun t => H (S t))). lia.
Qed.

Lemma zsum_more (q : list nat) : forall cl, NoDup q -> (forall t x, cl !! t = Some x -> x <= 1) -> (forall t, t ∈ q -> cl !! t = Some 1) ->
  Z.of_nat (length q) < zsum cl -> exists t, cl !! t = Some 1 /\ t ∉ q.
Proof.
  induction q as [|t q IH]; intros cl Hn Hle Hcl Hlt.
  - destruct (all_or_one (fun x => x <= 0) cl) as [Hall|(t & x & Hx & Hp)]; [apply zsum_pos in Hall; cbn in Hlt; lia|].
    exists t. split; [|apply not_elem_of_nil]. rewrite Hx. f_equal. specialize (Hle t x Hx). lia.
  - apply NoDup_cons in Hn as [Ht Hn]. pose proof (Hcl t ltac:(by left)) as E. pose proof (zsum_insert cl t 1 0 E) as Hz. cbn [length] in Hlt.
    destruct (IH (<[t := 0]> cl) Hn) as (u & Hu & Hnq); [| |lia|].
    + intros u x Hu. destruct (insert_lookup_cases _ _ _ _ _ _ E Hu) as [[_ ->]|[_ ?]]; [lia|by eapply Hle].
    + intros u Hu. rewrite list_lookup_insert_ne by (by intros ->). apply Hcl. by right.
    + exists u. destruct (insert_lookup_cases _ _ _ _ _ _ E Hu) as [[_ ?]|[Hne Hu']]; [done|]. split; [done|]. by intros [->|?]%elem_of_cons.
Qed.

(** The threads in the queue, and some [others], all claim. *)
Lemma semaphore_claims i cl others : semaphore_ok i -> (forall t x, cl !! t = Some x -> 0 <= x) ->
  (forall t, in_queue t (se_wait_queue i) = true -> cl !! t = Some 1) ->
  NoDup others -> (forall t, t ∈ others -> cl !! t = Some 1 /\ in_queue t (se_wait_queue i) = false) ->
  Z.of_nat (length others) + Z.max 0 (- se_count i) <= zsum cl.
Proof.
  intros (q & Hq & Hn & Hlen) Hpos Hcl Ho Hoc. rewrite <- Hlen. rewrite Hq in *.
  pose proof (members_le_zsum (others ++ q) cl) as H. rewrite length_app in H. enough (Z.of_nat (length others + length q) <= zsum cl) by lia. apply H; [|done|].
  - apply NoDup_app. split_and!; [done| |done]. intros t Ht. destruct (Hoc t Ht) as [_ E]. by apply in_queue_nat_false.
  - intros t [Ht|Ht]%elem_of_app; [by apply Hoc|]. by apply Hcl, in_queue_nat.
Qed.

(** More claims than sleepers: one of them is awake. *)
Lemma semaphore_awake i cl : semaphore_ok i -> (forall t x, cl !! t = Some x -> x <= 1) ->
  (forall t, in_queue t (se_wait_queue i) = true -> cl !! t = Some 1) ->
  Z.max 0 (- se_count i) < zsum cl -> exists t, cl !! t = Some 1 /\ in_queue t (se_wait_queue i) = false.
Proof.
  intros (q & Hq & Hn & Hlen) Hle Hcl Hlt. rewrite <- Hlen in Hlt. rewrite Hq in *.
  destruct (zsum_more q cl Hn Hle) as (t & Ht & Hnq); [|done|].
  - intros t Ht. by apply Hcl, in_queue_nat.
  - exists t. split; [done|by apply in_queue_nat_false].
Qed.
