(* ===== verification/Philosophers.v ===== *)
(** * The dining philosophers (user/src/bin/phil_din_mutex.rs)

    A thread per philosopher and a blocking mutex per fork; each takes its two
    forks in the order of their numbers.  A call of the library is a step; the
    times it records for the picture are left out, and [sleep] is a step after
    which the philosopher goes on.  The main thread is the last one: it makes a
    mutex and starts a philosopher in turn, while those that are there already
    run; its waits for them at the end are left out.  A call for a mutex that does
    not exist panics the kernel. *)

From S2P Require Import Prelude Scheduler Processor Sync Threads UserSync.
From stdpp Require Import relations sets.
Open Scope Z_scope.

Definition PHILOSOPHERS : nat := 5.
Definition ROUND : nat := 4.

Inductive Pc :=
  | next_round     (* [for round in 0..ROUND] *)
  | thinking       (* [sleep(ARR[id][2 * round])] *)
  | lock_min
  | lock_max
  | eating         (* [sleep(ARR[id][2 * round + 1])] *)
  | unlock_max
  | unlock_min
  | create_mutex   (* [for i in 0..N] of [main] *)
  | create_thread
  | finished
  | panicked.      (* an assertion or an index of the kernel fails *)

#[export] Instance Pc_eq_dec : EqDecision Pc.
Proof. solve_decision. Defined.

Record Local := mkLocal { rounds : nat; pc : Pc }.

(** The mutexes, one per fork; how many philosophers have been started; and
    whether the kernel has panicked, after which nothing runs. *)
Record Table := mkTable { forks : list MutexBlockingInner; started : nat; crashed : bool }.
Definition set_forks (f : list MutexBlockingInner) (m : Table) : Table := mkTable f (started m) (crashed m).
Definition crash (m : Table) : Table := mkTable (forks m) (started m) true.

Definition goto (p : Pc) (l : Local) : Local := mkLocal (rounds l) p.

Section Table.
Context (N : nat).

Definition left_fork (id : nat) : nat := id.
Definition right_fork (id : nat) : nat := if (id =? N - 1)%nat then 0 else S id.
Definition min_fork (id : nat) : nat := if (left_fork id <? right_fork id)%nat then left_fork id else right_fork id.
Definition max_fork (id : nat) : nat := left_fork id + right_fork id - min_fork id.

(** The thread is in the queue of a mutex. *)
Definition asleep (id : nat) (m : list MutexBlockingInner) : bool := existsb (fun f => in_queue id (mb_wait_queue f)) m.

Definition call_lock (id fork : nat) (p : Pc) (l : Local) (m : Table) : Local * Table :=
  match forks m !! fork with
  | Some f => (goto p l, set_forks (<[fork := mutex_lock (Z.of_nat id) f]> (forks m)) m)
  | None => (goto panicked l, crash m)
  end.

Definition call_unlock (fork : nat) (p : Pc) (l : Local) (m : Table) : Local * Table :=
  match forks m !! fork ≫= mutex_unlock with
  | Some f => (goto p l, set_forks (<[fork := f]> (forks m)) m)
  | None => (goto panicked l, crash m)
  end.

(** [philosopher_dining_problem]. *)
Definition philosopher_step (id : nat) (l : Local) (m : Table) : option (Local * Table) :=
  match pc l with
  | next_round => Some (match rounds l with O => goto finished l | S r => mkLocal r thinking end, m)
  | thinking => Some (goto lock_min l, m)
  | lock_min => Some (call_lock id (min_fork id) lock_max l m)
  | lock_max => Some (call_lock id (max_fork id) eating l m)
  | eating => Some (goto unlock_max l, m)
  | unlock_max => Some (call_unlock (max_fork id) unlock_min l m)
  | unlock_min => Some (call_unlock (min_fork id) next_round l m)
  | _ => None
  end.

(** The loop of [main]: [mutex_blocking_create] gives the first free number,
    which its assertion compares with [i], the philosophers started so far. *)
Definition main_step (l : Local) (m : Table) : option (Local * Table) :=
  match pc l with
  | create_mutex =>
      match rounds l with
      | O => Some (goto finished l, m)
      | S r =>
          if (length (forks m) =? started m)%nat then Some (mkLocal r create_thread, set_forks (forks m ++ [mkMutex false []]) m)
          else Some (goto panicked l, crash m)
      end
  | create_thread => Some (goto create_mutex l, mkTable (forks m) (S (started m)) (crashed m))
  | _ => None
  end.

(** Thread [N] is [main]; a philosopher that has not been started has no step. *)
Definition step (id : nat) (l : Local) (m : Table) : option (Local * Table) :=
  if crashed m || asleep id (forks m) then None
  else if (id =? N)%nat then main_step l m
  else if (id <? started m)%nat then philosopher_step id l m else None.

Definition start (n : nat) : Config := mkConfig (mkTable [] 0 false) (replicate N (mkLocal n next_round) ++ [mkLocal N create_mutex]).

(** *** Who has which fork *)

Definition claims (id : nat) (p : Pc) : list nat :=
  match p with
  | lock_max | unlock_min => [min_fork id]
  | eating | unlock_max => [min_fork id; max_fork id]
  | _ => []
  end.

(** The fork whose call has not returned, if the thread sleeps. *)
Definition waits_for (id : nat) (p : Pc) : option nat :=
  match p with lock_max => Some (min_fork id) | eating => Some (max_fork id) | _ => None end.

Abbreviation config := (Config (Mem := Table) (Loc := Local)) (only parsing).

Definition claim (c : config) (fork id : nat) : Prop :=
  exists l, locals c !! id = Some l /\ fork ∈ claims id (pc l).

(** A philosopher's local state. *)
Definition philosopher (l : Local) : Prop :=
  match pc l with create_mutex | create_thread | panicked => False | finished => rounds l = O | _ => True end.

(** Where [main] is in its loop. *)
Definition main_at (l : Local) (m : Table) : Prop :=
  match pc l with
  | create_mutex => length (forks m) = started m /\ (started m + rounds l = N)%nat
  | create_thread => length (forks m) = S (started m) /\ (S (started m) + rounds l = N)%nat
  | finished => length (forks m) = N /\ started m = N /\ rounds l = O
  | _ => False
  end.

(** As long as the kernel has not panicked; [n] rounds for each. *)
Record Inv (n : nat) (c : config) : Prop := {
  inv_runs : crashed (shared c) = false;
  inv_locals : length (locals c) = S N;
  inv_main : exists l, locals c !! N = Some l /\ main_at l (shared c);
  inv_philosopher id l : (id < N)%nat -> locals c !! id = Some l -> philosopher l;
  inv_new id : (started (shared c) <= id < N)%nat -> locals c !! id = Some (mkLocal n next_round);
  inv_made k id : claim c k id -> (k < length (forks (shared c)))%nat;
  inv_mutex k f : forks (shared c) !! k = Some f -> mutex_ok (claim c k) f;
  inv_waits k f id : forks (shared c) !! k = Some f -> in_queue id (mb_wait_queue f) = true ->
    exists l, locals c !! id = Some l /\ waits_for id (pc l) = Some k
}.

Lemma main_bounds l m : main_at l m -> (started m <= length (forks m) <= N)%nat /\ (started m <= N)%nat.
Proof. unfold main_at. destruct (pc l); try done; lia. Qed.

Lemma inv_counts n c : Inv n c -> (started (shared c) <= length (forks (shared c)) <= N)%nat.
Proof. intros Hi. destruct (inv_main n c Hi) as (l & _ & Hm). by apply main_bounds in Hm as [? _]. Qed.

Lemma table_asleep_false id m : asleep id m = false <-> forall k f, m !! k = Some f -> in_queue id (mb_wait_queue f) = false.
Proof.
  unfold asleep. induction m as [|f m IH]; cbn; [done|]. rewrite orb_false_iff, IH. split.
  - intros [H1 H2] [|k] g E; cbn in E; [by injection E as <-|by eapply H2].
  - intros H. split; [by apply (H 0%nat)|]. intros k g Hg. by apply (H (S k)).
Qed.

Lemma table_asleep_true id m : asleep id m = true <-> exists k f, m !! k = Some f /\ in_queue id (mb_wait_queue f) = true.
Proof.
  split.
  - unfold asleep. intros (f & Hin & Hq)%existsb_exists. apply list_elem_of_In, list_elem_of_lookup_1 in Hin as [k Hk]. eauto.
  - intros (k & f & Hk & Hq). destruct (asleep id m) eqn:E; [done|]. rewrite table_asleep_false in E. by rewrite (E k f Hk) in Hq.
Qed.

(** The claims after thread [id] has moved to [l']. *)
Lemma claim_move c id l l' m k t : locals c !! id = Some l ->
  claim (mkConfig m (<[id := l']> (locals c))) k t <-> (t = id /\ k ∈ claims id (pc l') \/ t <> id /\ claim c k t).
Proof.
  intros Hl. unfold claim. cbn [locals]. destruct (decide (t = id)) as [->|Hne].
  - rewrite list_lookup_insert_eq by (by eapply lookup_lt_Some). split; [intros (? & [= <-] & ?); by left|]. intros [[_ ?]|[? _]]; [eauto|done].
  - rewrite list_lookup_insert_ne by done. split; [by right|]. by intros [[? _]|[_ ?]].
Qed.

(** The claims of the others do not change. *)
Lemma claim_here c id l k t : locals c !! id = Some l ->
  claim c k t <-> (t = id /\ k ∈ claims id (pc l) \/ t <> id /\ claim c k t).
Proof.
  intros Hl. destruct (decide (t = id)) as [->|]; [|tauto]. split; [intros (? & E & ?); left; simplify_eq; done|]. intros [[_ ?]|[? _]]; [by exists l|done].
Qed.

(** A step of philosopher [id]: what it must do to the forks. *)
Lemma table_inv_move n c id l l' F : Inv n c -> (id < started (shared c))%nat -> locals c !! id = Some l -> asleep id (forks (shared c)) = false -> philosopher l' ->
  length F = length (forks (shared c)) -> (forall k, k ∈ claims id (pc l') -> (k < length F)%nat) ->
  (forall k f, F !! k = Some f -> mutex_ok (fun t => t = id /\ k ∈ claims id (pc l') \/ t <> id /\ claim c k t) f) ->
  (forall k f t, F !! k = Some f -> in_queue t (mb_wait_queue f) = true ->
     t = id /\ waits_for id (pc l') = Some k \/ exists f', forks (shared c) !! k = Some f' /\ in_queue t (mb_wait_queue f') = true) ->
  Inv n (mkConfig (set_forks F (shared c)) (<[id := l']> (locals c))).
Proof.
  intros Hi Hid Hl Has Hp Hlen Hcl Hok Hq. rewrite table_asleep_false in Has. pose proof (inv_counts n c Hi) as Hc.
  split; cbn [shared locals set_forks forks started crashed].
  - apply (inv_runs n c Hi).
  - by rewrite length_insert, (inv_locals n c Hi).
  - destruct (inv_main n c Hi) as (lm & Hlm & Hm). exists lm. rewrite list_lookup_insert_ne by lia. split; [done|].
    unfold main_at in *. cbn [set_forks forks started]. by rewrite Hlen.
  - intros t lt Ht Hlt. destruct (insert_lookup_cases _ _ _ _ _ _ Hl Hlt) as [[-> ->]|[_ ?]]; [done|by eapply inv_philosopher].
  - intros t Ht. rewrite list_lookup_insert_ne by lia. by apply (inv_new n c Hi).
  - intros k t [[-> Hin]|[_ Hin]]%(claim_move c id l); [by apply Hcl| |done]. rewrite Hlen. by eapply inv_made.
  - intros k f Hk. eapply mutex_ok_ext; [|by apply Hok]. intros t. symmetry. by eapply claim_move.
  - intros k f t Hk Ht. destruct (Hq k f t Hk Ht) as [[-> Hw]|(f' & Hf' & Ht')].
    + exists l'. by rewrite list_lookup_insert_eq by (by eapply lookup_lt_Some).
    + destruct (decide (t = id)) as [->|Hne]; [by rewrite (Has k f' Hf') in Ht'|]. rewrite list_lookup_insert_ne by done. by eapply inv_waits.
Qed.

Lemma set_forks_same m : set_forks (forks m) m = m.
Proof. by destruct m. Qed.

Lemma step_keeps n c id l l' : Inv n c -> (id < started (shared c))%nat -> locals c !! id = Some l -> asleep id (forks (shared c)) = false -> philosopher l' ->
  claims id (pc l') = claims id (pc l) -> Inv n (mkConfig (shared c) (<[id := l']> (locals c))).
Proof.
  intros Hi Hid Hl Has Hp Hc. rewrite <- (set_forks_same (shared c)). apply (table_inv_move n c id l); try done; [| |by eauto].
  - intros k. rewrite Hc. intros Hk. apply (inv_made n c Hi k id). by exists l.
  - intros k f Hk. eapply mutex_ok_ext; [|by eapply (inv_mutex n c Hi)]. intros t. rewrite Hc. by apply claim_here.
Qed.

Lemma step_locks n c id l p k : Inv n c -> (id < started (shared c))%nat -> locals c !! id = Some l -> asleep id (forks (shared c)) = false ->
  (k < length (forks (shared c)))%nat ->
  k ∉ claims id (pc l) -> (forall x, x ∈ claims id p <-> x = k \/ x ∈ claims id (pc l)) -> waits_for id p = Some k ->
  exists m, call_lock id k p l (shared c) = (goto p l, m) /\ Inv n (mkConfig m (<[id := goto p l]> (locals c))).
Proof.
  intros Hi Hid Hl Has Hk Hno Hcl Hw. destruct (lookup_lt_is_Some_2 (forks (shared c)) k Hk) as [f Hf].
  unfold call_lock. rewrite Hf. eexists. split; [done|]. pose proof (inv_mutex n c Hi k f Hf) as Hok.
  destruct (mutex_lock_ok (claim c k) f id Hok) as [Hok' Hq']; [intros (? & ? & ?); by simplify_eq|].
  apply (table_inv_move n c id l); [done..| |by rewrite length_insert| | |]; cbn [goto pc].
  - unfold philosopher. cbn [goto pc]. by destruct p.
  - intros x. rewrite Hcl, length_insert. intros [->|Hx]; [done|]. apply (inv_made n c Hi x id). by exists l.
  - intros k' f' Hf'. destruct (insert_lookup_cases _ _ _ _ _ _ Hf Hf') as [[-> ->]|[Hne Hf2]].
    + eapply mutex_ok_ext; [|exact Hok']. intros t. cbn beta. rewrite (claim_here c id l k t Hl), Hcl. destruct (decide (t = id)); intuition congruence.
    + eapply mutex_ok_ext; [|by eapply (inv_mutex n c Hi)]. intros t. rewrite (claim_here c id l k' t Hl), Hcl. intuition congruence.
  - intros k' f' t Hf' Ht. destruct (insert_lookup_cases _ _ _ _ _ _ Hf Hf') as [[-> ->]|[Hne Hf2]]; [|eauto].
    destruct (Hq' t Ht) as [->|?]; [by left|eauto].
Qed.

Lemma step_unlocks n c id l p k : Inv n c -> (id < started (shared c))%nat -> locals c !! id = Some l -> asleep id (forks (shared c)) = false ->
  k ∈ claims id (pc l) -> (forall x, x ∈ claims id p <-> x <> k /\ x ∈ claims id (pc l)) -> philosopher (goto p l) ->
  exists m, call_unlock k p l (shared c) = (goto p l, m) /\ Inv n (mkConfig m (<[id := goto p l]> (locals c))).
Proof.
  intros Hi Hid Hl Has Hin Hcl Hp. assert (k < length (forks (shared c)))%nat as Hk by (apply (inv_made n c Hi k id); by exists l).
  destruct (lookup_lt_is_Some_2 (forks (shared c)) k Hk) as [f Hf].
  pose proof (inv_mutex n c Hi k f Hf) as Hok. pose proof Has as Has'. rewrite table_asleep_false in Has'.
  destruct (mutex_unlock_ok (claim c k) f id Hok) as (f1 & Hu & Hok' & Hq'); [by exists l|by eapply Has'|].
  unfold call_unlock. rewrite Hf. cbn [mbind option_bind]. rewrite Hu. eexists. split; [done|].
  apply (table_inv_move n c id l); [done..|by rewrite length_insert| | |]; cbn [goto pc].
  - intros x. rewrite Hcl, length_insert. intros [_ Hx]. apply (inv_made n c Hi x id). by exists l.
  - intros k' f' Hf'. destruct (insert_lookup_cases _ _ _ _ _ _ Hf Hf') as [[-> ->]|[Hne Hf2]].
    + eapply mutex_ok_ext; [|exact Hok']. intros t. cbn beta. rewrite (claim_here c id l k t Hl), Hcl. intuition congruence.
    + eapply mutex_ok_ext; [|by eapply (inv_mutex n c Hi)]. intros t. rewrite (claim_here c id l k' t Hl), Hcl. intuition congruence.
  - intros k' f' t Hf' Ht. destruct (insert_lookup_cases _ _ _ _ _ _ Hf Hf') as [[-> ->]|[Hne Hf2]]; eauto.
Qed.

(** A step of [main]: a fork more that nobody has, or a philosopher more. *)
Lemma main_moves n c l l' m : Inv n c -> locals c !! N = Some l -> claims N (pc l) = [] -> claims N (pc l') = [] -> crashed m = false -> main_at l' m ->
  (started (shared c) <= started m)%nat -> (forks m = forks (shared c) \/ forks m = forks (shared c) ++ [mkMutex false []]) ->
  Inv n (mkConfig m (<[N := l']> (locals c))).
Proof.
  intros Hi Hl Hno Hno' Hr Hm Hst Hf.
  assert (forall k t, claim (mkConfig m (<[N := l']> (locals c))) k t <-> claim c k t) as Hcl.
  { intros k t. rewrite (claim_move c N l) by done. rewrite (claim_here c N l k t Hl), Hno, Hno'. tauto. }
  assert (length (forks (shared c)) <= length (forks m))%nat as Hlen by (destruct Hf as [-> | ->]; rewrite ?length_app; lia).
  assert (forall k f, forks m !! k = Some f -> forks (shared c) !! k = Some f \/ f = mkMutex false [] /\ k = length (forks (shared c))) as Hnew.
  { intros k f Hk. destruct Hf as [E|E]; rewrite E in Hk; [by left|]. apply lookup_app_Some in Hk as [?|[Hge Hk]]; [by left|].
    apply list_lookup_singleton_Some in Hk as [? <-]. right. split; [done|lia]. }
  split; cbn [shared locals].
  - done.
  - by rewrite length_insert, (inv_locals n c Hi).
  - exists l'. rewrite list_lookup_insert_eq by (by eapply lookup_lt_Some). done.
  - intros t lt Ht. rewrite list_lookup_insert_ne by lia. by apply (inv_philosopher n c Hi).
  - intros t Ht. rewrite list_lookup_insert_ne by lia. apply (inv_new n c Hi). lia.
  - intros k t Hk%Hcl. apply (inv_made n c Hi) in Hk. lia.
  - intros k f Hk. eapply mutex_ok_ext; [intros t; symmetry; apply Hcl|]. destruct (Hnew k f Hk) as [?|[-> ->]]; [by apply (inv_mutex n c Hi)|].
    eapply mutex_ok_ext; [|apply mutex_ok_new]. intros t. split; [done|]. intros Hc%(inv_made n c Hi). lia.
  - intros k f t Hk Ht. destruct (Hnew k f Hk) as [Hk'|[-> _]]; [|by rewrite in_queue_nil in Ht].
    destruct (inv_waits n c Hi k f t Hk' Ht) as (lt & Hlt & Hw). destruct (decide (t = N)) as [->|]; [|exists lt; by rewrite list_lookup_insert_ne].
    rewrite Hl in Hlt. injection Hlt as <-. by destruct (pc l); cbn in Hno, Hw.
Qed.

(** *** The order of the forks *)

Context (HN : (2 <= N)%nat).

Lemma forks_of id : (id < N)%nat -> (min_fork id < max_fork id < N)%nat /\ (min_fork id <= id)%nat /\ (max_fork id <= S id \/ max_fork id <= id)%nat /\
  (S id = N -> max_fork id = id) /\ (forall x, x = left_fork id \/ x = right_fork id <-> x = min_fork id \/ x = max_fork id).
Proof.
  unfold max_fork, min_fork, left_fork, right_fork. intros Hid. destruct (id =? N - 1)%nat eqn:E; [apply Nat.eqb_eq in E|apply Nat.eqb_neq in E].
  - rewrite (proj2 (Nat.ltb_ge _ _)) by lia. split_and!; try lia; intros x; lia.
  - rewrite (proj2 (Nat.ltb_lt _ _)) by lia. split_and!; try lia; intros x; lia.
Qed.

Definition rank (p : Pc) : Z :=
  match p with
  | next_round => 1 | thinking => 7 | lock_min => 6 | lock_max => 5 | eating => 4 | unlock_max => 3 | unlock_min => 2
  | _ => 0
  end.

(** The steps a thread has left. *)
Definition work (l : Local) : Z :=
  match pc l with
  | create_mutex => 2 * Z.of_nat (rounds l) + 1
  | create_thread => 2 * Z.of_nat (rounds l) + 2
  | p => 7 * Z.of_nat (rounds l) + rank p
  end.

(** Philosopher [id] has asked for a fork that [main] has still to make. *)
Definition too_early (n : nat) (c : config) (id : nat) : Prop :=
  exists c0 l, Inv n c0 /\ (S id < N)%nat /\ length (forks (shared c0)) = S id /\ locals c0 !! id = Some l /\ asleep id (forks (shared c0)) = false /\
    pc l = lock_max /\ c = mkConfig (crash (shared c0)) (<[id := goto panicked l]> (locals c0)).

Lemma table_inv_step n c id l l' m : Inv n c -> locals c !! id = Some l -> step id l (shared c) = Some (l', m) ->
  let c' := mkConfig m (<[id := l']> (locals c)) in Inv n c' /\ work l' = work l - 1 \/ too_early n c' id /\ work l' <= work l - 1.
Proof.
  intros Hi Hl Hs. unfold step in Hs. rewrite (inv_runs n c Hi) in Hs. destruct (asleep id (forks (shared c))) eqn:Has; [done|]. cbn [orb] in Hs. cbv zeta.
  pose proof (inv_counts n c Hi) as Hcount. destruct (id =? N)%nat eqn:EN; [apply Nat.eqb_eq in EN; subst id|apply Nat.eqb_neq in EN].
  - left. destruct (inv_main n c Hi) as (lm & Hlm & Hm). rewrite Hl in Hlm. injection Hlm as <-. unfold main_step in Hs. unfold main_at in Hm.
    destruct l as [r p]. destruct p; cbn [pc rounds] in *; try done.
    + destruct r as [|r]; [injection Hs as <- <-|destruct Hm as [Hm1 Hm2]; rewrite Hm1, Nat.eqb_refl in Hs; injection Hs as <- <-].
      * split; [|done]. apply (main_moves n c (mkLocal 0 create_mutex)); try done; [apply (inv_runs n c Hi)| |by left]. unfold main_at. cbn. lia.
      * split; [|unfold work; cbn; lia]. apply (main_moves n c (mkLocal (S r) create_mutex)); try done; [apply (inv_runs n c Hi)| |by right].
        unfold main_at. cbn. rewrite length_app. cbn. lia.
    + injection Hs as <- <-. split; [|unfold work; cbn; lia]. apply (main_moves n c (mkLocal r create_thread)); try done; [apply (inv_runs n c Hi)|cbn; lia|by left].
  - destruct (id <? started (shared c))%nat eqn:Est; [apply Nat.ltb_lt in Est|done]. assert (id < N)%nat as Hid by lia.
    destruct (forks_of id Hid) as (Hmm & Hmin & Hmax & Hlast & _). pose proof (inv_philosopher n c Hi id l Hid Hl) as Hph.
    unfold philosopher_step in Hs. destruct l as [r p]. destruct p; cbn [pc] in *; simplify_eq; try done.
    + left. split; [apply (step_keeps n c id (mkLocal r next_round)); [done..| |by destruct r]; by destruct r|]. destruct r; unfold work; cbn; lia.
    + left. split; [by apply (step_keeps n c id (mkLocal r thinking))|]. unfold work. cbn. lia.
    + left. destruct (step_locks n c id (mkLocal r lock_min) lock_max (min_fork id) Hi Est Hl Has) as (m' & E & Hi'); [lia|set_solver|set_solver|done|].
      rewrite E in Hs. injection Hs as <- <-. split; [done|]. unfold work. cbn. lia.
    + destruct (decide (max_fork id < length (forks (shared c)))%nat) as [Hlt|Hge].
      * left. destruct (step_locks n c id (mkLocal r lock_max) eating (max_fork id) Hi Est Hl Has Hlt) as (m' & E & Hi');
          [cbn; intros ?%list_elem_of_singleton; lia|set_solver|done|]. rewrite E in Hs. injection Hs as <- <-. split; [done|]. unfold work. cbn. lia.
      * right. unfold call_lock in Hs. rewrite (lookup_ge_None_2 (forks (shared c))) in Hs by lia. injection Hs as <- <-. split; [|unfold work; cbn; lia].
        exists c, (mkLocal r lock_max). split_and!; try done; lia.
    + left. split; [by apply (step_keeps n c id (mkLocal r eating))|]. unfold work. cbn. lia.
    + left. destruct (step_unlocks n c id (mkLocal r unlock_max) unlock_min (max_fork id) Hi Est Hl Has) as (m' & E & Hi'); [set_solver| |done|].
      { cbn. intros x. set_unfold. lia. }
      rewrite E in Hs. injection Hs as <- <-. split; [done|]. unfold work. cbn. lia.
    + left. destruct (step_unlocks n c id (mkLocal r unlock_min) next_round (min_fork id) Hi Est Hl Has) as (m' & E & Hi'); [set_solver| |done|].
      { cbn. intros x. set_unfold. lia. }
      rewrite E in Hs. injection Hs as <- <-. split; [done|]. unfold work. cbn. lia.
Qed.

(** A thread that waits, waits for one that waits for a later fork, or is
    awake. *)
Lemma progress n c : Inv n c -> forall d k f id, (N - k <= d)%nat -> forks (shared c) !! k = Some f -> in_queue id (mb_wait_queue f) = true ->
  exists o l, locals c !! o = Some l /\ claims o (pc l) <> [] /\ asleep o (forks (shared c)) = false.
Proof.
  intros Hi d. induction d as [|d IH]; intros k f id Hd Hf Hq; pose proof (lookup_lt_Some _ _ _ Hf) as Hk; pose proof (inv_counts n c Hi) as Hcount; [lia|].
  destruct (mutex_ok_holder _ f id (inv_mutex n c Hi k f Hf) Hq) as (o & (l & Hl & Hc) & Ho).
  assert (o < N)%nat as HoN.
  { apply lookup_lt_Some in Hl as Hlt. rewrite (inv_locals n c Hi) in Hlt. destruct (decide (o = N)) as [->|]; [|lia].
    destruct (inv_main n c Hi) as (lm & Hlm & Hm). rewrite Hl in Hlm. injection Hlm as <-. unfold main_at in Hm. destruct (pc l); try done; cbn in Hc; set_solver. }
  destruct (forks_of o HoN) as (Hmm & _).
  destruct (asleep o (forks (shared c))) eqn:Has; [|exists o, l; split_and!; [done|intros E; rewrite E in Hc; set_solver|done]].
  apply table_asleep_true in Has as (k' & f' & Hf' & Hq'). destruct (inv_waits n c Hi k' f' o Hf' Hq') as (l2 & Hl2 & Hw).
  rewrite Hl in Hl2. injection Hl2 as <-. assert (k' <> k) as Hne by (intros ->; rewrite Hf in Hf'; injection Hf' as <-; congruence).
  apply (IH k' f' o); [|done..]. destruct (pc l); cbn in Hw; simplify_eq; cbn in Hc; set_unfold; lia.
Qed.

(** [main] goes on until it has finished. *)
Lemma main_goes_on n c l : Inv n c -> locals c !! N = Some l -> pc l <> finished -> exists c', thread_step step c c'.
Proof.
  intros Hi Hl Hf. destruct (inv_main n c Hi) as (lm & Hlm & Hm). rewrite Hl in Hlm. injection Hlm as <-.
  assert (asleep N (forks (shared c)) = false) as Has.
  { apply table_asleep_false. intros k f Hk. destruct (in_queue N (mb_wait_queue f)) eqn:Hq; [|done]. destruct (inv_waits n c Hi k f N Hk Hq) as (l2 & Hl2 & Hw).
    rewrite Hl in Hl2. injection Hl2 as <-. unfold main_at in Hm. by destruct (pc l). }
  assert (is_Some (step N l (shared c))) as [[l' m] Hs].
  { unfold step, main_step. rewrite (inv_runs n c Hi), Has, Nat.eqb_refl. cbn [orb]. unfold main_at in Hm. destruct (pc l); try done. destruct (rounds l); [done|]. by case_match. }
  eexists _, N. apply run_thread_Some. eauto 10.
Qed.

Lemma table_step_defined n c id l : Inv n c -> locals c !! id = Some l -> (id < started (shared c))%nat -> pc l <> finished -> asleep id (forks (shared c)) = false ->
  exists c', thread_step step c c'.
Proof.
  intros Hi Hl Hid Hf Has. pose proof (inv_counts n c Hi). assert (is_Some (step id l (shared c))) as [[l' m] Hs].
  { unfold step, philosopher_step. rewrite (inv_runs n c Hi), Has, (proj2 (Nat.eqb_neq id N)), (proj2 (Nat.ltb_lt _ _) Hid) by lia. cbn [orb].
    pose proof (inv_philosopher n c Hi id l ltac:(lia) Hl) as Hp. unfold philosopher in Hp. destruct (pc l); done. }
  eexists _, id. apply run_thread_Some. eauto 10.
Qed.

Lemma table_live n c : Inv n c -> (forall id l, locals c !! id = Some l -> pc l = finished) \/ exists c', thread_step step c c'.
Proof.
  intros Hi. destruct (inv_main n c Hi) as (lm & Hlm & Hm). destruct (decide (pc lm = finished)) as [Ef|Hne]; [|right; by eapply main_goes_on].
  unfold main_at in Hm. rewrite Ef in Hm. destruct Hm as (Hforks & Hst & _).
  destruct (all_or_one (fun l => pc l = finished) (locals c)) as [Hall|(id & l & Hl & Hf)]; [by left|right].
  assert (forall o lo, locals c !! o = Some lo -> pc lo <> finished -> (o < started (shared c))%nat) as Hphil.
  { intros o lo Hlo Hfo. apply lookup_lt_Some in Hlo as Hlt. rewrite (inv_locals n c Hi) in Hlt. rewrite Hst. destruct (decide (o = N)) as [->|]; [|lia]. congruence. }
  destruct (asleep id (forks (shared c))) eqn:Has; [|eapply table_step_defined; eauto].
  apply table_asleep_true in Has as (x & f & Hx & Hq). destruct (progress n c Hi _ x f id (le_n _) Hx Hq) as (o & lo & Hlo & Hfo & Hao).
  assert (pc lo <> finished) as Hno by (intros E; by rewrite E in Hfo). eapply table_step_defined; eauto.
Qed.

Lemma table_inv_start n : Inv n (start n).
Proof.
  assert (forall id l, locals (start n) !! id = Some l -> claims id (pc l) = []) as Hnone.
  { intros id l Hl. cbn [start locals] in Hl. apply lookup_app_Some in Hl as [[-> _]%lookup_replicate|[_ [_ <-]%list_lookup_singleton_Some]]; done. }
  split; cbn [start shared locals forks started crashed]; try done.
  - rewrite length_app, length_replicate. cbn. lia.
  - exists (mkLocal N create_mutex). split; [|done]. rewrite lookup_app_r, length_replicate, Nat.sub_diag by (by rewrite length_replicate). done.
  - intros id l Hid Hl. rewrite lookup_app_l in Hl by (by rewrite length_replicate). by apply lookup_replicate in Hl as [-> _].
  - intros id Hid. rewrite lookup_app_l by (rewrite length_replicate; lia). apply lookup_replicate. split; [done|lia].
  - intros k id (l & Hl & Hc). rewrite (Hnone id l Hl) in Hc. set_solver.
Qed.

Lemma zsum_work_move (c : config) id l l' : locals c !! id = Some l -> zsum (work <$> <[id := l']> (locals c)) = zsum (work <$> locals c) - work l + work l'.
Proof. intros Hl. rewrite list_fmap_insert. apply zsum_insert. by rewrite list_lookup_fmap, Hl. Qed.

Lemma crashed_stuck (c : config) : crashed (shared c) = true -> forall c', ~ thread_step step c c'.
Proof. intros Hc c' (id & (l & l' & m & _ & Hs & _)%run_thread_Some). unfold step in Hs. by rewrite Hc in Hs. Qed.

Lemma table_inv_run n k c0 c : Inv n c0 -> nsteps (thread_step step) k c0 c ->
  Inv n c /\ zsum (work <$> locals c) + Z.of_nat k = zsum (work <$> locals c0) \/
  (exists id, too_early n c id) /\ zsum (work <$> locals c) + Z.of_nat k <= zsum (work <$> locals c0).
Proof.
  intros Hi Hr. revert Hi. induction Hr as [c|k c0 c1 c (id & (l & l' & m & Hl & Hs & ->)%run_thread_Some) Hr IH]; intros Hi; [left; split; [done|lia]|].
  pose proof (zsum_work_move c0 id l l' Hl) as Hz. destruct (table_inv_step n c0 id l l' m Hi Hl Hs) as [[Hi1 Hw]|[He Hw]]; cbv zeta in *.
  - destruct (IH Hi1) as [[Hi2 Hz2]|[He Hz2]]; cbn [locals] in Hz2; [left|right]; (split; [done|lia]).
  - right. inversion Hr as [|k1 c1 c2 c3 Hs2 _]; subst.
    + split; [eauto|]. cbn [locals]. lia.
    + exfalso. destruct He as (? & ? & _ & _ & _ & _ & _ & _ & Ec). rewrite Ec in Hs2. revert Hs2. by apply crashed_stuck.
Qed.

End Table.

(** The philosopher has its two forks. *)
Definition eats (N : nat) (c : Config (Mem := Table) (Loc := Local)) (id : nat) : Prop :=
  exists l, locals c !! id = Some l /\ (pc l = eating \/ pc l = unlock_max) /\ asleep id (forks (shared c)) = false.

Lemma forks_apart N n c id id' x : (2 <= N)%nat -> Inv N n c -> eats N c id -> eats N c id' -> id <> id' ->
  (x = left_fork id \/ x = right_fork N id) -> x <> left_fork id' /\ x <> right_fork N id'.
Proof.
  intros HN Hi (l & Hl & Hpc & Has) (l' & Hl' & Hpc' & Has') Hne Hx.
  assert (forall t lt, locals c !! t = Some lt -> (pc lt = eating \/ pc lt = unlock_max) -> (t < N)%nat) as Hphil.
  { intros t lt Ht Hp. apply lookup_lt_Some in Ht as Hlt. rewrite (inv_locals N n c Hi) in Hlt. destruct (decide (t = N)) as [->|]; [|lia].
    destruct (inv_main N n c Hi) as (lm & Hlm & Hm). rewrite Ht in Hlm. injection Hlm as <-. unfold main_at in Hm. by destruct Hp as [E|E]; rewrite E in Hm. }
  pose proof (Hphil id l Hl Hpc) as B. pose proof (Hphil id' l' Hl' Hpc') as B'.
  destruct (forks_of N HN id B) as (Hm & _ & _ & _ & Hxs), (forks_of N HN id' B') as (Hm' & _ & _ & _ & Hxs'). apply Hxs in Hx.
  assert (~ (x = left_fork id' \/ x = right_fork N id')) as Hno; [|tauto]. rewrite Hxs'. intros Hx'. apply Hne.
  assert (claim N c x id) as C1 by (exists l; split; [done|]; destruct Hpc as [-> | ->]; cbn; set_solver).
  assert (claim N c x id') as C2 by (exists l'; split; [done|]; destruct Hpc' as [-> | ->]; cbn; set_solver).
  destruct (lookup_lt_is_Some_2 (forks (shared c)) x (inv_made N n c Hi x id C1)) as [f Hf]. rewrite table_asleep_false in Has, Has'.
  apply (mutex_ok_one _ f id id' (inv_mutex N n c Hi x f Hf)); [done..|by eapply Has|by eapply Has'].
Qed.

(** C16: the philosophers of phil_din_mutex.rs all eat all their meals, if none
    asks for a fork before [main] has made it.  [main] makes a mutex and starts a
    philosopher in turn, so the philosophers run while it does, in any
    interleaving.  Two that eat at the same time have no fork in common.  The only
    call that can panic is that of the philosopher started last for the fork on
    its right, at a moment when [main] has not come to make it: so once all the
    forks are there no call panics.  As long as none has, no state is a deadlock:
    if one thread has not finished, one has a next step; and the run ends after
    exactly [N * (7 * rounds + 1) + 2 * N + 1] steps, with every philosopher
    finished.  This holds for any number of philosophers from 2 on and any number
    of rounds; [asking_too_early_panics] is a run in which the panic comes. *)
Theorem philosophers_all_eat N n k c : (2 <= N)%nat -> nsteps (thread_step (step N)) k (start N n) c ->
  let total := Z.of_nat N * (7 * Z.of_nat n + 1) + 2 * Z.of_nat N + 1 in
  (forall id id' x, eats N c id -> eats N c id' -> id <> id' -> (x = left_fork id \/ x = right_fork N id) ->
     x <> left_fork id' /\ x <> right_fork N id') /\
  (forall id l, locals c !! id = Some l -> pc l = panicked ->
     length (forks (shared c)) = S id /\ right_fork N id = S id /\ (S id < N)%nat) /\
  (crashed (shared c) = true <-> exists id l, locals c !! id = Some l /\ pc l = panicked) /\
  Z.of_nat k <= total /\
  (crashed (shared c) = false ->
     ((forall id l, locals c !! id = Some l -> pc l = finished) \/ exists c', thread_step (step N) c c') /\
     (Z.of_nat k = total <-> forall c', ~ thread_step (step N) c c')).
Proof.
  intros HN Hr total. pose proof (table_inv_run N HN n k _ c (table_inv_start N HN n) Hr) as Hrun.
  assert (zsum (work <$> locals (start N n)) = total) as Htotal.
  { cbn [start locals]. rewrite fmap_app, zsum_both, fmap_replicate, zsum_replicate. subst total. cbn. lia. }
  rewrite Htotal in Hrun.
  assert (forall l, 0 <= work l) as Hw by (intros [r p]; unfold work; destruct p; cbn; lia).
  assert (forall ls : list Local, 0 <= zsum (work <$> ls)) as Hz0.
  { intros ls. apply zsum_nonneg. intros i x Hx. rewrite list_lookup_fmap in Hx. destruct (ls !! i) as [l|]; [|done]. injection Hx as <-. apply Hw. }
  pose proof (Hz0 (locals c)) as Hzc.
  destruct Hrun as [[Hi Hz]|[(early & c0 & l & Hi & Hlt & Hlen & Hl & Has & Hpc & ->) Hz]].
  - assert (forall id l, locals c !! id = Some l -> pc l <> panicked) as Hp.
    { intros id l Hl E. apply lookup_lt_Some in Hl as Hb. rewrite (inv_locals N n c Hi) in Hb. destruct (decide (id = N)) as [->|].
      - destruct (inv_main N n c Hi) as (lm & Hlm & Hm). rewrite Hl in Hlm. injection Hlm as <-. unfold main_at in Hm. by rewrite E in Hm.
      - pose proof (inv_philosopher N n c Hi id l ltac:(lia) Hl) as Hph. unfold philosopher in Hph. by rewrite E in Hph. }
    split_and!.
    + intros id id' x. by apply (forks_apart N n c).
    + intros id l Hl E. by destruct (Hp id l Hl).
    + rewrite (inv_runs N n c Hi). split; [done|]. intros (id & l & Hl & E). by destruct (Hp id l Hl).
    + lia.
    + intros _. pose proof (table_live N HN n c Hi) as Hlive. split; [exact Hlive|]. split.
      * intros Hk c' (id & (l & l' & m & Hl & Hs & _)%run_thread_Some). pose proof (zsum_work_move c id l l' Hl) as Hins. specialize (Hz0 (<[id := l']> (locals c))).
        destruct (table_inv_step N HN n c id l l' m Hi Hl Hs) as [[_ ?]|[_ ?]]; lia.
      * intros Hstuck. destruct Hlive as [Hall|[c' Hc']]; [|by destruct (Hstuck c')].
        enough (zsum (work <$> locals c) = 0) by lia. apply zsum_zero. intros id x Hx. rewrite list_lookup_fmap in Hx.
        destruct (locals c !! id) as [l|] eqn:Hl; [|done]. injection Hx as <-. unfold work. rewrite (Hall id l Hl). cbn.
        enough (rounds l = O) by lia. apply lookup_lt_Some in Hl as Hb. rewrite (inv_locals N n c Hi) in Hb. destruct (decide (id = N)) as [->|].
        -- destruct (inv_main N n c Hi) as (lm & Hlm & Hm). rewrite Hl in Hlm. injection Hlm as <-. unfold main_at in Hm. rewrite (Hall N l Hl) in Hm. tauto.
        -- pose proof (inv_philosopher N n c Hi id l ltac:(lia) Hl) as Hph. unfold philosopher in Hph. by rewrite (Hall id l Hl) in Hph.
  - assert (right_fork N early = S early) as Hright by (unfold right_fork; rewrite (proj2 (Nat.eqb_neq _ _)) by lia; done).
    assert (forall id lt, locals (mkConfig (crash (shared c0)) (<[early := goto panicked l]> (locals c0))) !! id = Some lt -> pc lt <> panicked -> id <> early /\ locals c0 !! id = Some lt) as Hother.
    { intros id lt Hlt2 Hp. cbn [locals] in Hlt2. destruct (insert_lookup_cases _ _ _ _ _ _ Hl Hlt2) as [[-> ->]|?]; done. }
    split_and!; [| | |lia|done].
    + intros id id' x (l1 & H1 & P1 & A1) (l2 & H2 & P2 & A2). apply (forks_apart N n c0 id id' x HN Hi).
      * exists l1. destruct (Hother id l1 H1) as [_ ?]; [by destruct P1 as [-> | ->]|done].
      * exists l2. destruct (Hother id' l2 H2) as [_ ?]; [by destruct P2 as [-> | ->]|done].
    + intros id lt Hlt2 E. cbn [shared crash forks]. cbn [locals] in Hlt2. destruct (insert_lookup_cases _ _ _ _ _ _ Hl Hlt2) as [[-> ->]|[Hne Hlt3]]; [done|].
      exfalso. apply lookup_lt_Some in Hlt3 as Hb. rewrite (inv_locals N n c0 Hi) in Hb. destruct (decide (id = N)) as [->|].
      * destruct (inv_main N n c0 Hi) as (lm & Hlm & Hm). rewrite Hlt3 in Hlm. injection Hlm as <-. unfold main_at in Hm. by rewrite E in Hm.
      * pose proof (inv_philosopher N n c0 Hi id lt ltac:(lia) Hlt3) as Hph. unfold philosopher in Hph. by rewrite E in Hph.
    + split; [|done]. intros _. exists early, (goto panicked l). cbn [locals]. by rewrite list_lookup_insert_eq by (by eapply lookup_lt_Some).
Qed.

(** Philosopher 0 comes to its second fork while [main] has made only one. *)
Lemma asking_too_early_panics : exists c, nsteps (thread_step (step PHILOSOPHERS)) 6 (start PHILOSOPHERS ROUND) c /\ crashed (shared c) = true.
Proof. eexists. split; [apply (run_schedule_nsteps _ [5; 5; 0; 0; 0; 0]%nat); vm_compute; reflexivity|done]. Qed.

(** [main], then the five philosophers and their four rounds, one philosopher
    after the other. *)
Definition in_turn : list nat := replicate 11 5%nat ++ concat ((fun i => replicate 29 i) <$> [0; 1; 2; 3; 4]%nat).

Lemma philosophers_all_eat_witness : exists c, nsteps (thread_step (step PHILOSOPHERS)) 156 (start PHILOSOPHERS ROUND) c /\
  forall c', ~ thread_step (step PHILOSOPHERS) c c'.
Proof.
  eexists. split; [apply (run_schedule_nsteps _ in_turn); vm_compute; reflexivity|].
  match goal with |- forall c', ~ thread_step _ ?c c' =>
    destruct (philosophers_all_eat PHILOSOPHERS ROUND 156 c) as (_ & _ & _ & _ & H);
      [unfold PHILOSOPHERS; lia|apply (run_schedule_nsteps _ in_turn); vm_compute; reflexivity|]
  end.
  apply H; reflexivity.
Defined.
