(* ===== verification/ProducerConsumer.v ===== *)
(** * Producers and a consumer (user/src/bin/mpsc_sem.rs)

    Producers put their numbers into a ring buffer and one consumer prints them;
    three semaphores keep them apart.  A semaphore call is a step, and so is each
    statement between [SEM_MUTEX] down and up, where a thread is alone.  The last
    thread is the consumer; its final line and the exits are left out. *)

From S2P Require Import Prelude Scheduler Processor Sync Threads UserSync.
From stdpp Require Import relations sets.
Open Scope Z_scope.

Definition BUFFER_SIZE : nat := 8.
Definition PRODUCER_COUNT : nat := 4.
Definition NUMBER_PER_PRODUCER : nat := 100.

(** What the threads share; the semaphores are [SEM_MUTEX], [SEM_EMPTY] and
    [SEM_AVAIL]; [printed] is the output. *)
Record Shared := mkShared {
  sem_mutex : SemaphoreInner; sem_empty : SemaphoreInner; sem_avail : SemaphoreInner;
  BUFFER : list Z; FRONT : Z; TAIL : Z; printed : list Z }.

Inductive Pc :=
  | next_round     (* [for _ in 0..] *)
  | down_first     (* [SEM_EMPTY] of a producer, [SEM_AVAIL] of the consumer *)
  | down_mutex
  | access         (* [BUFFER[TAIL] = id], or the print of [BUFFER[FRONT]] *)
  | advance        (* of [TAIL], or of [FRONT] *)
  | up_mutex
  | up_second      (* [SEM_AVAIL] of a producer, [SEM_EMPTY] of the consumer *)
  | finished
  | panicked.      (* an index out of range *)

#[export] Instance Pc_eq_dec : EqDecision Pc.
Proof. solve_decision. Defined.

Record Local := mkLocal { rounds : nat; pc : Pc }.

Definition goto (p : Pc) (l : Local) : Local := mkLocal (rounds l) p.

Definition set_mutex (s : SemaphoreInner) (m : Shared) : Shared := mkShared s (sem_empty m) (sem_avail m) (BUFFER m) (FRONT m) (TAIL m) (printed m).
Definition set_empty (s : SemaphoreInner) (m : Shared) : Shared := mkShared (sem_mutex m) s (sem_avail m) (BUFFER m) (FRONT m) (TAIL m) (printed m).
Definition set_avail (s : SemaphoreInner) (m : Shared) : Shared := mkShared (sem_mutex m) (sem_empty m) s (BUFFER m) (FRONT m) (TAIL m) (printed m).

Definition asleep (id : nat) (m : Shared) : bool :=
  in_queue id (se_wait_queue (sem_mutex m)) || in_queue id (se_wait_queue (sem_empty m)) || in_queue id (se_wait_queue (sem_avail m)).

Section Ring.
Context (P B : nat).

(** The threads before [P] are producers. *)
Definition producer (id : nat) : bool := (id <? P)%nat.

(** [(i + 1) % BUFFER_SIZE]. *)
Definition next_index (i : Z) : Z := usize_wrap (i + 1) mod Z.of_nat B.

Definition producer_step (id : nat) (l : Local) (m : Shared) : option (Local * Shared) :=
  match pc l with
  | next_round => Some (match rounds l with O => goto finished l | S r => mkLocal r down_first end, m)
  | down_first => Some (goto down_mutex l, set_empty (semaphore_down (Z.of_nat id) (sem_empty m)) m)
  | down_mutex => Some (goto access l, set_mutex (semaphore_down (Z.of_nat id) (sem_mutex m)) m)
  | access =>
      if TAIL m <? Z.of_nat (length (BUFFER m)) then
        Some (goto advance l, mkShared (sem_mutex m) (sem_empty m) (sem_avail m) (<[Z.to_nat (TAIL m) := Z.of_nat id]> (BUFFER m)) (FRONT m) (TAIL m) (printed m))
      else Some (goto panicked l, m)
  | advance => Some (goto up_mutex l, mkShared (sem_mutex m) (sem_empty m) (sem_avail m) (BUFFER m) (FRONT m) (next_index (TAIL m)) (printed m))
  | up_mutex => Some (goto up_second l, set_mutex (semaphore_up (sem_mutex m)) m)
  | up_second => Some (goto next_round l, set_avail (semaphore_up (sem_avail m)) m)
  | finished => None
  | panicked => None
  end.

Definition consumer_step (id : nat) (l : Local) (m : Shared) : option (Local * Shared) :=
  match pc l with
  | next_round => Some (match rounds l with O => goto finished l | S r => mkLocal r down_first end, m)
  | down_first => Some (goto down_mutex l, set_avail (semaphore_down (Z.of_nat id) (sem_avail m)) m)
  | down_mutex => Some (goto access l, set_mutex (semaphore_down (Z.of_nat id) (sem_mutex m)) m)
  | access =>
      match BUFFER m !! Z.to_nat (FRONT m) with
      | Some x => Some (goto advance l, mkShared (sem_mutex m) (sem_empty m) (sem_avail m) (BUFFER m) (FRONT m) (TAIL m) (printed m ++ [x]))
      | None => Some (goto panicked l, m)
      end
  | advance => Some (goto up_mutex l, mkShared (sem_mutex m) (sem_empty m) (sem_avail m) (BUFFER m) (next_index (FRONT m)) (TAIL m) (printed m))
  | up_mutex => Some (goto up_second l, set_mutex (semaphore_up (sem_mutex m)) m)
  | up_second => Some (goto next_round l, set_empty (semaphore_up (sem_empty m)) m)
  | finished => None
  | panicked => None
  end.

Definition step (id : nat) (l : Local) (m : Shared) : option (Local * Shared) :=
  if asleep id m then None else if producer id then producer_step id l m else consumer_step id l m.

Definition start (n : nat) : Config :=
  mkConfig (mkShared (Semaphore_new 1) (Semaphore_new (Z.of_nat B)) (Semaphore_new 0) (replicate B 0) 0 0 [])
    (replicate P (mkLocal n next_round) ++ [mkLocal (P * n) next_round]).

(** The numbers that a schedule stores, in order. *)
Definition stored_by (id : nat) (c : Config (Mem := Shared) (Loc := Local)) : list Z :=
  match locals c !! id with
  | Some l => if producer id && bool_decide (pc l = access) then [Z.of_nat id] else []
  | None => []
  end.

Fixpoint stored (sch : list nat) (c : Config) : list Z :=
  match sch with
  | [] => []
  | id :: sch' => match run_thread step id c with Some c' => stored_by id c ++ stored sch' c' | None => [] end
  end.

(** *** Who is where

    What a thread contributes to the accounts below. *)
Definition ones (b : bool) : Z := if b then 1 else 0.
Definition early (p : Pc) : bool := match p with down_mutex | access => true | _ => false end.
Definition late (p : Pc) : bool := match p with advance | up_mutex | up_second => true | _ => false end.
Definition claims_mutex (p : Pc) : bool := match p with access | advance | up_mutex => true | _ => false end.

(** Items a thread has still to move. *)
Definition left_over (l : Local) : Z := Z.of_nat (rounds l) + ones (match pc l with down_first | down_mutex | access => true | _ => false end).

Definition f_mutex (id : nat) (l : Local) : Z := ones (claims_mutex (pc l)).
Definition f_early (r : bool) (id : nat) (l : Local) : Z := ones (eqb (producer id) r && early (pc l)).
Definition f_late (r : bool) (id : nat) (l : Local) : Z := ones (eqb (producer id) r && late (pc l)).
Definition f_advance (r : bool) (id : nat) (l : Local) : Z := ones (eqb (producer id) r && match pc l with advance => true | _ => false end).
Definition f_left (r : bool) (id : nat) (l : Local) : Z := if eqb (producer id) r then left_over l else 0.

Abbreviation config := (Config (Mem := Shared) (Loc := Local)) (only parsing).

Definition waits_at (c : config) (s : SemaphoreInner) (p : Pc) (role : nat -> Prop) : Prop :=
  semaphore_ok s /\ forall t, in_queue t (se_wait_queue s) = true -> role t /\ exists l, locals c !! t = Some l /\ pc l = p.

Definition size (l : list Z) : Z := Z.of_nat (length l).

(** [n] items of each producer; [hist] has been stored so far. *)
Record Inv (n : nat) (c : config) (hist : list Z) : Prop := {
  i_locals : length (locals c) = S P;
  i_mutex : waits_at c (sem_mutex (shared c)) access (fun _ => True);
  i_empty : waits_at c (sem_empty (shared c)) down_mutex (fun t => producer t = true);
  i_avail : waits_at c (sem_avail (shared c)) down_mutex (fun t => producer t = false);
  i_cm : se_count (sem_mutex (shared c)) + zsum_with f_mutex (locals c) = 1;
  i_ce : se_count (sem_empty (shared c)) + zsum_with (f_early true) (locals c) + zsum_with (f_late false) (locals c)
    + size hist - size (printed (shared c)) = Z.of_nat B;
  i_ca : se_count (sem_avail (shared c)) + zsum_with (f_late true) (locals c) + zsum_with (f_early false) (locals c)
    + size (printed (shared c)) = size hist;
  i_stores : size hist + zsum_with (f_left true) (locals c) = Z.of_nat P * Z.of_nat n;
  i_prints : size (printed (shared c)) + zsum_with (f_left false) (locals c) = Z.of_nat P * Z.of_nat n;
  i_size : size (printed (shared c)) <= size hist <= size (printed (shared c)) + Z.of_nat B;
  i_buffer : length (BUFFER (shared c)) = B;
  i_tail : TAIL (shared c) = (size hist - zsum_with (f_advance true) (locals c)) mod Z.of_nat B;
  i_front : FRONT (shared c) = (size (printed (shared c)) - zsum_with (f_advance false) (locals c)) mod Z.of_nat B;
  i_slots k : (length (printed (shared c)) <= k < length hist)%nat -> BUFFER (shared c) !! (k mod B)%nat = hist !! k;
  i_prefix : printed (shared c) = take (length (printed (shared c))) hist;
  i_share id l : producer id = true -> locals c !! id = Some l -> size (filter (fun x => x = Z.of_nat id) hist) + left_over l = Z.of_nat n;
  i_passed id l : locals c !! id = Some l -> pc l <> panicked /\ (pc l = finished -> rounds l = O)
}.

(** ** Moving one thread *)

(** What a step of [id] may do to a semaphore and its sleepers. *)
Definition sem_move (id : nat) (l' : Local) (p : Pc) (role : Prop) (s s' : SemaphoreInner) : Prop :=
  semaphore_ok s' /\ forall t, in_queue t (se_wait_queue s') = true -> in_queue t (se_wait_queue s) = true \/ t = id /\ role /\ pc l' = p.

Lemma waits_move c s s' p role id l l' m : waits_at c s p role -> locals c !! id = Some l -> in_queue id (se_wait_queue s) = false ->
  sem_move id l' p (role id) s s' -> waits_at (mkConfig m (<[id := l']> (locals c))) s' p role.
Proof.
  intros [Hok Hw] Hl Hno [Hok' Hm]. split; [done|]. intros t Ht. cbn [locals]. destruct (Hm t Ht) as [Ht'|(-> & Hr & Hp)].
  - destruct (Hw t Ht') as (Hr & lt & Hlt & Hp). split; [done|]. exists lt. rewrite list_lookup_insert_ne by congruence. done.
  - split; [done|]. exists l'. by rewrite list_lookup_insert_eq by (by eapply lookup_lt_Some).
Qed.

Lemma sem_stays id l' p (role : Prop) s : semaphore_ok s -> sem_move id l' p role s s.
Proof. split; [done|]. by left. Qed.

Lemma sem_down id l' p (role : Prop) s : semaphore_ok s -> in_queue id (se_wait_queue s) = false -> - 2 ^ 62 < se_count s < 2 ^ 62 -> role -> pc l' = p ->
  sem_move id l' p role s (semaphore_down (Z.of_nat id) s) /\ se_count (semaphore_down (Z.of_nat id) s) = se_count s - 1.
Proof.
  intros Hok Hno Hc Hr Hp. destruct (semaphore_down_ok s id Hok Hno Hc) as (H1 & H2 & H3). split; [|done]. split; [done|].
  intros t Ht. destruct (H3 t Ht) as [->|?]; auto.
Qed.

Lemma sem_up id l' p (role : Prop) s : semaphore_ok s -> - 2 ^ 62 < se_count s < 2 ^ 62 ->
  sem_move id l' p role s (semaphore_up s) /\ se_count (semaphore_up s) = se_count s + 1.
Proof. intros Hok Hc. destruct (semaphore_up_ok s Hok Hc) as (H1 & H2 & H3). split; [|done]. split; [done|]. auto. Qed.

Lemma ring_asleep_false id m : asleep id m = false <->
  in_queue id (se_wait_queue (sem_mutex m)) = false /\ in_queue id (se_wait_queue (sem_empty m)) = false /\ in_queue id (se_wait_queue (sem_avail m)) = false.
Proof. unfold asleep. rewrite !orb_false_iff. tauto. Qed.

Lemma ring_inv_move n c hist hist' id l l' m : Inv n c hist -> locals c !! id = Some l -> asleep id (shared c) = false ->
  sem_move id l' access True (sem_mutex (shared c)) (sem_mutex m) ->
  sem_move id l' down_mutex (producer id = true) (sem_empty (shared c)) (sem_empty m) ->
  sem_move id l' down_mutex (producer id = false) (sem_avail (shared c)) (sem_avail m) ->
  se_count (sem_mutex m) + f_mutex id l' = se_count (sem_mutex (shared c)) + f_mutex id l ->
  se_count (sem_empty m) + f_early true id l' + f_late false id l' + size hist' - size (printed m) =
    se_count (sem_empty (shared c)) + f_early true id l + f_late false id l + size hist - size (printed (shared c)) ->
  se_count (sem_avail m) + f_late true id l' + f_early false id l' + size (printed m) - size hist' =
    se_count (sem_avail (shared c)) + f_late true id l + f_early false id l + size (printed (shared c)) - size hist ->
  size hist' + f_left true id l' = size hist + f_left true id l ->
  size (printed m) + f_left false id l' = size (printed (shared c)) + f_left false id l ->
  size (printed m) <= size hist' <= size (printed m) + Z.of_nat B ->
  length (BUFFER m) = B ->
  TAIL m = (size hist' - (zsum_with (f_advance true) (locals c) - f_advance true id l + f_advance true id l')) mod Z.of_nat B ->
  FRONT m = (size (printed m) - (zsum_with (f_advance false) (locals c) - f_advance false id l + f_advance false id l')) mod Z.of_nat B ->
  (forall k, (length (printed m) <= k < length hist')%nat -> BUFFER m !! (k mod B)%nat = hist' !! k) ->
  printed m = take (length (printed m)) hist' ->
  (forall t lt, producer t = true -> <[id := l']> (locals c) !! t = Some lt -> size (filter (fun x => x = Z.of_nat t) hist') + left_over lt = Z.of_nat n) ->
  (pc l' <> panicked /\ (pc l' = finished -> rounds l' = O)) ->
  Inv n (mkConfig m (<[id := l']> (locals c))) hist'.
Proof.
  intros Hi Hl (Hm & He & Ha)%ring_asleep_false H1 H2 H3 H4 H5 H6 H7 H8 H9 H10 H11 H12 H13 H14 H15 H16.
  destruct Hi. split; cbn [shared locals]; rewrite ?(zsum_with_insert _ _ _ _ _ Hl); try done; try lia.
  - by rewrite length_insert.
  - by eapply waits_move.
  - by eapply waits_move.
  - by eapply waits_move.
  - intros t lt Ht. destruct (insert_lookup_cases _ _ _ _ _ _ Hl Ht) as [[_ ->]|[_ ?]]; [done|]. by eapply i_passed0.
Qed.

(** A step that leaves the buffer alone. *)
Lemma inv_quiet n c hist id l l' m : Inv n c hist -> locals c !! id = Some l -> asleep id (shared c) = false ->
  BUFFER m = BUFFER (shared c) -> TAIL m = TAIL (shared c) -> FRONT m = FRONT (shared c) -> printed m = printed (shared c) ->
  pc l <> advance -> pc l' <> advance -> left_over l' = left_over l ->
  sem_move id l' access True (sem_mutex (shared c)) (sem_mutex m) ->
  sem_move id l' down_mutex (producer id = true) (sem_empty (shared c)) (sem_empty m) ->
  sem_move id l' down_mutex (producer id = false) (sem_avail (shared c)) (sem_avail m) ->
  se_count (sem_mutex m) + f_mutex id l' = se_count (sem_mutex (shared c)) + f_mutex id l ->
  se_count (sem_empty m) + f_early true id l' + f_late false id l' = se_count (sem_empty (shared c)) + f_early true id l + f_late false id l ->
  se_count (sem_avail m) + f_late true id l' + f_early false id l' = se_count (sem_avail (shared c)) + f_late true id l + f_early false id l ->
  (pc l' <> panicked /\ (pc l' = finished -> rounds l' = O)) ->
  Inv n (mkConfig m (<[id := l']> (locals c))) hist.
Proof.
  intros Hi Hl Has Hb Ht Hf Hp Hpc Hpc' Hleft H1 H2 H3 H4 H5 H6 H7. pose proof Hi as [].
  assert (forall r, f_advance r id l = 0 /\ f_advance r id l' = 0) as Hadv.
  { intros r. unfold f_advance. destruct (eqb (producer id) r); [|done]. by destruct (pc l), (pc l'). }
  assert (forall r, f_left r id l' = f_left r id l) as Hfl by (intros r; unfold f_left; by rewrite Hleft).
  apply (ring_inv_move n c hist hist id l); try done; rewrite ?Hb, ?Ht, ?Hf, ?Hp; try done; try lia.
  - by rewrite Hfl.
  - by rewrite Hfl.
  - destruct (Hadv true) as [-> ->]. by rewrite Z.sub_0_r, Z.add_0_r.
  - destruct (Hadv false) as [-> ->]. by rewrite Z.sub_0_r, Z.add_0_r.
  - intros t lt Hpt Hlt. destruct (insert_lookup_cases _ _ _ _ _ _ Hl Hlt) as [[-> ->]|[_ Hlt']]; [rewrite Hleft|]; by eapply i_share0.
Qed.

(** ** Who can be inside *)

Context (HB : (0 < B)%nat) (Hsmall : Z.of_nat B + Z.of_nat P + 1 < 2 ^ 62).

Lemma ones_bounds b : 0 <= ones b <= 1.
Proof. by destruct b. Qed.

(** The sleepers of a semaphore and other threads that claim. *)
Lemma claims_bound (c : config) s p role f others : waits_at c s p role -> (forall t l, 0 <= f t l <= 1) -> (forall t l, role t -> pc l = p -> f t l = 1) ->
  NoDup others -> (forall t, t ∈ others -> exists l, locals c !! t = Some l /\ f t l = 1 /\ in_queue t (se_wait_queue s) = false) ->
  Z.of_nat (length others) + Z.max 0 (- se_count s) <= zsum_with f (locals c).
Proof.
  intros [Hok Hw] Hf Hcl Hn Ho. apply semaphore_claims; [done| | |done|].
  - intros t x Hx. rewrite list_lookup_imap in Hx. destruct (locals c !! t) as [l|]; [|done]. injection Hx as <-. apply Hf.
  - intros t Ht. destruct (Hw t Ht) as (Hr & l & Hl & Hp). rewrite list_lookup_imap, Hl. cbn. by rewrite Hcl.
  - intros t Ht. destruct (Ho t Ht) as (l & Hl & E & Hq). split; [|done]. rewrite list_lookup_imap, Hl. cbn. by rewrite E.
Qed.

Lemma claims_awake (c : config) s p role f : waits_at c s p role -> (forall t l, 0 <= f t l <= 1) -> (forall t l, role t -> pc l = p -> f t l = 1) ->
  Z.max 0 (- se_count s) < zsum_with f (locals c) -> exists t l, locals c !! t = Some l /\ f t l = 1 /\ in_queue t (se_wait_queue s) = false.
Proof.
  intros [Hok Hw] Hf Hcl Hlt. destruct (semaphore_awake s (imap f (locals c)) Hok) as (t & Ht & Hq); [| |exact Hlt|].
  - intros t x Hx. rewrite list_lookup_imap in Hx. destruct (locals c !! t) as [l|]; [|done]. injection Hx as <-. apply Hf.
  - intros t Ht. destruct (Hw t Ht) as (Hr & l & Hl & Hp). rewrite list_lookup_imap, Hl. cbn. by rewrite Hcl.
  - rewrite list_lookup_imap in Ht. destruct (locals c !! t) as [l|] eqn:E; [|done]. injection Ht as Ht. eauto.
Qed.

Lemma f_mutex_bounds t l : 0 <= f_mutex t l <= 1. Proof. apply ones_bounds. Qed.
Lemma f_early_bounds r t l : 0 <= f_early r t l <= 1. Proof. apply ones_bounds. Qed.
Lemma f_late_bounds r t l : 0 <= f_late r t l <= 1. Proof. apply ones_bounds. Qed.
#[local] Hint Resolve f_mutex_bounds f_early_bounds f_late_bounds : core.

Lemma f_mutex_waits t l : True -> pc l = access -> f_mutex t l = 1.
Proof. unfold f_mutex. by intros _ ->. Qed.
Lemma f_early_waits r t l : producer t = r -> pc l = down_mutex -> f_early r t l = 1.
Proof. unfold f_early. intros -> ->. by rewrite eqb_reflx. Qed.

Lemma counts_small n c hist : Inv n c hist ->
  - 2 ^ 62 < se_count (sem_mutex (shared c)) < 2 ^ 62 /\ - 2 ^ 62 < se_count (sem_empty (shared c)) < 2 ^ 62 /\ - 2 ^ 62 < se_count (sem_avail (shared c)) < 2 ^ 62.
Proof.
  intros []. set (locs := locals c) in *.
  pose proof (claims_bound c _ _ _ f_mutex [] i_mutex0 f_mutex_bounds f_mutex_waits (NoDup_nil_2) ltac:(set_solver)).
  pose proof (claims_bound c _ _ _ (f_early true) [] i_empty0 (f_early_bounds true) (f_early_waits true) (NoDup_nil_2) ltac:(set_solver)).
  pose proof (claims_bound c _ _ _ (f_early false) [] i_avail0 (f_early_bounds false) (f_early_waits false) (NoDup_nil_2) ltac:(set_solver)).
  pose proof (zsum_with_bounds f_mutex locs f_mutex_bounds). pose proof (zsum_with_bounds (f_early true) locs (f_early_bounds true)).
  pose proof (zsum_with_bounds (f_early false) locs (f_early_bounds false)). pose proof (zsum_with_bounds (f_late true) locs (f_late_bounds true)).
  pose proof (zsum_with_bounds (f_late false) locs (f_late_bounds false)). fold locs in H, H0, H1. rewrite i_locals0 in *. cbn [length] in *. lia.
Qed.

(** Two threads inside are one. *)
Lemma inside_one n c hist i j l l' : Inv n c hist -> locals c !! i = Some l -> locals c !! j = Some l' ->
  claims_mutex (pc l) = true -> claims_mutex (pc l') = true ->
  in_queue i (se_wait_queue (sem_mutex (shared c))) = false -> in_queue j (se_wait_queue (sem_mutex (shared c))) = false -> i = j.
Proof.
  intros [] Hl Hl' Hc Hc' Hi Hj. destruct (decide (i = j)) as [|Hne]; [done|]. exfalso.
  assert (NoDup [i; j]) as Hn by (repeat constructor; set_solver).
  enough (Z.of_nat (length [i; j]) + Z.max 0 (- se_count (sem_mutex (shared c))) <= zsum_with f_mutex (locals c)) by (cbn [length] in *; lia).
  apply (claims_bound c _ _ _ f_mutex [i; j] i_mutex0 f_mutex_bounds f_mutex_waits Hn).
  intros t Ht. rewrite !elem_of_cons in Ht. destruct Ht as [->|[->|Ht]]; [exists l|exists l'|set_solver]; unfold f_mutex; by rewrite ?Hc, ?Hc'.
Qed.

(** A thread inside is the only one that can be between the buffer and the
    index. *)
Lemma alone n c hist id l r : Inv n c hist -> locals c !! id = Some l -> claims_mutex (pc l) = true ->
  in_queue id (se_wait_queue (sem_mutex (shared c))) = false -> zsum_with (f_advance r) (locals c) - f_advance r id l = 0.
Proof.
  intros Hi Hl Hc Hq. pose proof (zsum_with_insert (f_advance r) (locals c) id l (goto finished l) Hl) as Hz.
  assert (f_advance r id (goto finished l) = 0) as H0 by (unfold f_advance; cbn; by rewrite andb_false_r).
  enough (zsum_with (f_advance r) (<[id := goto finished l]> (locals c)) = 0) by lia. apply zsum_with_zero. intros t lt Ht.
  destruct (insert_lookup_cases _ _ _ _ _ _ Hl Ht) as [[-> ->]|[Hne Hlt]]; [done|]. unfold f_advance. destruct (pc lt) eqn:E; rewrite ?andb_false_r; try done.
  destruct Hne. symmetry. eapply (inside_one n c hist id t l lt); try done; [by rewrite E|].
  destruct (in_queue t (se_wait_queue (sem_mutex (shared c)))) eqn:Eq; [|done]. destruct (i_mutex n c hist Hi) as [_ Hw].
  destruct (Hw t Eq) as (_ & lt' & Hlt' & Hp). congruence.
Qed.

Lemma ring_room n c hist id l : Inv n c hist -> locals c !! id = Some l -> pc l = access -> asleep id (shared c) = false -> producer id = true ->
  size hist < size (printed (shared c)) + Z.of_nat B.
Proof.
  intros [] Hl Hp (_ & Hq & _)%ring_asleep_false Hr.
  pose proof (claims_bound c _ _ _ (f_early true) [id] i_empty0 (f_early_bounds true) (f_early_waits true)) as H. cbn [length] in H.
  pose proof (zsum_with_bounds (f_late false) (locals c) (f_late_bounds false)).
  assert (Z.of_nat 1 + Z.max 0 (- se_count (sem_empty (shared c))) <= zsum_with (f_early true) (locals c)); [|lia]. apply H; [repeat constructor; set_solver|].
  intros t ->%list_elem_of_singleton. exists l. unfold f_early. by rewrite Hr, Hp.
Qed.

Lemma item n c hist id l : Inv n c hist -> locals c !! id = Some l -> pc l = access -> asleep id (shared c) = false -> producer id = false ->
  size (printed (shared c)) < size hist.
Proof.
  intros [] Hl Hp (_ & _ & Hq)%ring_asleep_false Hr.
  pose proof (claims_bound c _ _ _ (f_early false) [id] i_avail0 (f_early_bounds false) (f_early_waits false)) as H. cbn [length] in H.
  pose proof (zsum_with_bounds (f_late true) (locals c) (f_late_bounds true)).
  assert (Z.of_nat 1 + Z.max 0 (- se_count (sem_avail (shared c))) <= zsum_with (f_early false) (locals c)); [|lia]. apply H; [repeat constructor; set_solver|].
  intros t ->%list_elem_of_singleton. exists l. unfold f_early. by rewrite Hr, Hp.
Qed.

(** ** The steps *)

Lemma size_app l1 l2 : size (l1 ++ l2) = size l1 + size l2.
Proof. unfold size. rewrite length_app. lia. Qed.

Lemma next_index_mod k : next_index ((k - 1) mod Z.of_nat B) = k mod Z.of_nat B.
Proof.
  unfold next_index. pose proof (Z.mod_pos_bound (k - 1) (Z.of_nat B) ltac:(lia)). unfold usize_wrap. rewrite (Z.mod_small (_ + 1)) by lia.
  rewrite Zplus_mod_idemp_l. f_equal. lia.
Qed.

Definition rank (p : Pc) : Z :=
  match p with
  | next_round => 1 | down_first => 7 | down_mutex => 6 | access => 5 | advance => 4 | up_mutex => 3 | up_second => 2
  | finished | panicked => 0
  end.
Definition work (l : Local) : Z := 7 * Z.of_nat (rounds l) + rank (pc l).

Lemma f_mutex_eq id l : f_mutex id l = ones (claims_mutex (pc l)). Proof. done. Qed.
Lemma f_early_eq r id l : f_early r id l = ones (eqb (producer id) r && early (pc l)). Proof. done. Qed.
Lemma f_late_eq r id l : f_late r id l = ones (eqb (producer id) r && late (pc l)). Proof. done. Qed.
Lemma f_advance_eq r id l : f_advance r id l = ones (eqb (producer id) r && match pc l with advance => true | _ => false end). Proof. done. Qed.
Lemma f_left_eq r id l : f_left r id l = if eqb (producer id) r then left_over l else 0. Proof. done. Qed.

(** The contributions of a thread whose role and place are known. *)
Ltac contributions Hr Hp :=
  rewrite ?f_mutex_eq, ?f_early_eq, ?f_late_eq, ?f_advance_eq, ?f_left_eq; unfold left_over; cbn [goto pc rounds]; rewrite ?Hr, ?Hp;
  cbn [eqb andb ones early late claims_mutex].

Lemma size_filter_app t hist id : size (filter (fun x => x = Z.of_nat t) (hist ++ [Z.of_nat id])) =
  size (filter (fun x => x = Z.of_nat t) hist) + ones (bool_decide (t = id)).
Proof.
  rewrite filter_app, size_app, filter_cons, filter_nil. f_equal. case_decide as E; case_bool_decide as E'; try done; [|by subst].
  apply Nat2Z.inj in E. by subst.
Qed.

Lemma store_slots (buf hist : list Z) (w r : nat) x : (r <= length hist < r + B)%nat -> w = (length hist mod B)%nat -> length buf = B ->
  (forall k, (r <= k < length hist)%nat -> buf !! (k mod B)%nat = hist !! k) ->
  forall k, (r <= k < length (hist ++ [x]))%nat -> <[w := x]> buf !! (k mod B)%nat = (hist ++ [x]) !! k.
Proof.
  intros Hr -> Hlen Hs k Hk. rewrite length_app in Hk. cbn [length] in Hk. destruct (decide (k = length hist)) as [->|Hne].
  - rewrite list_lookup_insert_eq by (rewrite Hlen; apply Nat.mod_upper_bound; lia). by rewrite list_lookup_middle.
  - rewrite list_lookup_insert_ne, lookup_app_l by (lia || (intros E; apply (f_equal Z.of_nat) in E; rewrite !Nat2Z.inj_mod in E;
      apply (f_equal (fun z => (z - Z.of_nat k mod Z.of_nat B) mod Z.of_nat B)) in E; rewrite Z.sub_diag, <- Zminus_mod, Z.mod_0_l, Z.mod_small in E; lia)).
    apply Hs. lia.
Qed.

Lemma store_step n c hist id l : Inv n c hist -> locals c !! id = Some l -> pc l = access -> asleep id (shared c) = false -> producer id = true ->
  exists m, producer_step id l (shared c) = Some (goto advance l, m) /\ Inv n (mkConfig m (<[id := goto advance l]> (locals c))) (hist ++ [Z.of_nat id]).
Proof.
  intros Hi Hl Hp Has Hr. pose proof (ring_room n c hist id l Hi Hl Hp Has Hr) as Hroom. pose proof Has as (Hqm & _)%ring_asleep_false.
  pose proof (alone n c hist id l true Hi Hl ltac:(by rewrite Hp) Hqm) as Ht. pose proof (alone n c hist id l false Hi Hl ltac:(by rewrite Hp) Hqm) as Hf.
  pose proof Hi as []. assert (TAIL (shared c) = size hist mod Z.of_nat B) as Htail.
  { rewrite i_tail0. f_equal. revert Ht. contributions Hr Hp. lia. }
  pose proof (Z.mod_pos_bound (size hist) (Z.of_nat B) ltac:(lia)) as Hmod.
  unfold producer_step. rewrite Hp, (proj2 (Z.ltb_lt _ _)) by lia. eexists. split; [done|].
  assert (size [Z.of_nat id] = 1) as E1 by done.
  apply (ring_inv_move n c hist (hist ++ [Z.of_nat id]) id l); try done; cbn [sem_mutex sem_empty sem_avail BUFFER TAIL FRONT printed]; rewrite ?size_app, ?E1;
    try (apply sem_stays; by apply i_mutex0 || apply i_empty0 || apply i_avail0); try (contributions Hr Hp; lia).
  - by rewrite length_insert.
  - rewrite Ht, Htail. contributions Hr Hp. f_equal. lia.
  - rewrite Hf. rewrite i_front0. contributions Hr Hp. f_equal. revert Hf. contributions Hr Hp. lia.
  - apply store_slots; [unfold size in *; lia| |done|done]. rewrite Htail. unfold size. rewrite <- Nat2Z.inj_mod. by rewrite Nat2Z.id.
  - rewrite take_app_le by (unfold size in *; lia). done.
  - intros t lt Hrt Hlt. rewrite size_filter_app. destruct (insert_lookup_cases _ _ _ _ _ _ Hl Hlt) as [[-> ->]|[Hne Hlt']].
    + specialize (i_share0 id l Hr Hl). rewrite bool_decide_eq_true_2 by done. revert i_share0. unfold left_over. cbn. rewrite Hp. cbn. lia.
    + specialize (i_share0 t lt Hrt Hlt'). rewrite bool_decide_eq_false_2 by done. cbn. lia.
Qed.

Lemma ring_print_step n c hist id l : Inv n c hist -> locals c !! id = Some l -> pc l = access -> asleep id (shared c) = false -> producer id = false ->
  exists m, consumer_step id l (shared c) = Some (goto advance l, m) /\ Inv n (mkConfig m (<[id := goto advance l]> (locals c))) hist.
Proof.
  intros Hi Hl Hp Has Hr. pose proof (item n c hist id l Hi Hl Hp Has Hr) as Hitem. pose proof Has as (Hqm & _)%ring_asleep_false.
  pose proof (alone n c hist id l true Hi Hl ltac:(by rewrite Hp) Hqm) as Ht. pose proof (alone n c hist id l false Hi Hl ltac:(by rewrite Hp) Hqm) as Hf.
  pose proof Hi as []. assert (FRONT (shared c) = size (printed (shared c)) mod Z.of_nat B) as Hfront.
  { rewrite i_front0. f_equal. revert Hf. contributions Hr Hp. lia. }
  destruct (lookup_lt_is_Some_2 hist (length (printed (shared c)))) as [x Hx]; [unfold size in *; lia|].
  assert (BUFFER (shared c) !! Z.to_nat (FRONT (shared c)) = Some x) as Hb.
  { rewrite Hfront. unfold size. rewrite <- Nat2Z.inj_mod, Nat2Z.id, i_slots0, Hx by (unfold size in *; lia). done. }
  unfold consumer_step. rewrite Hp, Hb. eexists. split; [done|].
  assert (size [x] = 1) as E1 by done.
  apply (ring_inv_move n c hist hist id l); try done; cbn [sem_mutex sem_empty sem_avail BUFFER TAIL FRONT printed]; rewrite ?size_app, ?E1;
    try (apply sem_stays; by apply i_mutex0 || apply i_empty0 || apply i_avail0); try (contributions Hr Hp; lia).
  - rewrite Ht. rewrite i_tail0. contributions Hr Hp. f_equal. revert Ht. contributions Hr Hp. lia.
  - rewrite Hf, Hfront. contributions Hr Hp. f_equal. lia.
  - intros k Hk. rewrite length_app in Hk. apply i_slots0. lia.
  - rewrite length_app. cbn [length]. rewrite Nat.add_1_r, (take_S_r _ _ x) by done. by rewrite <- i_prefix0.
  - intros t lt Hrt Hlt. destruct (insert_lookup_cases _ _ _ _ _ _ Hl Hlt) as [[-> ->]|[Hne Hlt']]; [congruence|by apply i_share0].
Qed.

Lemma advance_step n c hist id l : Inv n c hist -> locals c !! id = Some l -> pc l = advance -> asleep id (shared c) = false ->
  exists m, (if producer id then producer_step id l (shared c) else consumer_step id l (shared c)) = Some (goto up_mutex l, m) /\
    Inv n (mkConfig m (<[id := goto up_mutex l]> (locals c))) hist.
Proof.
  intros Hi Hl Hp Has. pose proof Has as (Hqm & _)%ring_asleep_false.
  pose proof (alone n c hist id l true Hi Hl ltac:(by rewrite Hp) Hqm) as Ht. pose proof (alone n c hist id l false Hi Hl ltac:(by rewrite Hp) Hqm) as Hf.
  pose proof Hi as [].
  assert (forall t lt, producer t = true -> <[id := goto up_mutex l]> (locals c) !! t = Some lt -> size (filter (fun x => x = Z.of_nat t) hist) + left_over lt = Z.of_nat n) as Hshare.
  { intros t lt Hrt Hlt. destruct (insert_lookup_cases _ _ _ _ _ _ Hl Hlt) as [[-> ->]|[Hne Hlt']]; [|by apply i_share0].
    specialize (i_share0 id l Hrt Hl). revert i_share0. unfold left_over. cbn. rewrite Hp. done. }
  destruct (producer id) eqn:Hr; unfold producer_step, consumer_step; rewrite Hp; eexists; (split; [done|]);
    apply (ring_inv_move n c hist hist id l); try done; cbn [sem_mutex sem_empty sem_avail BUFFER TAIL FRONT printed];
    try (apply sem_stays; by apply i_mutex0 || apply i_empty0 || apply i_avail0); try (contributions Hr Hp; lia).
  - rewrite Ht, i_tail0. replace (zsum_with (f_advance true) (locals c)) with 1 by (revert Ht; contributions Hr Hp; lia).
    rewrite next_index_mod. contributions Hr Hp. f_equal. lia.
  - rewrite Hf, i_front0. contributions Hr Hp. f_equal. revert Hf. contributions Hr Hp. lia.
  - rewrite Ht, i_tail0. contributions Hr Hp. f_equal. revert Ht. contributions Hr Hp. lia.
  - rewrite Hf, i_front0. replace (zsum_with (f_advance false) (locals c)) with 1 by (revert Hf; contributions Hr Hp; lia).
    rewrite next_index_mod. contributions Hr Hp. f_equal. lia.
Qed.

Lemma quiet_step n c hist id l l' m : Inv n c hist -> locals c !! id = Some l -> asleep id (shared c) = false -> pc l <> access -> pc l <> advance ->
  (if producer id then producer_step id l (shared c) else consumer_step id l (shared c)) = Some (l', m) ->
  Inv n (mkConfig m (<[id := l']> (locals c))) hist /\ work l' = work l - 1.
Proof.
  intros Hi Hl Has Hna Hnd Hs. pose proof Has as (Hqm & Hqe & Hqa)%ring_asleep_false. destruct (counts_small n c hist Hi) as (Hcm & Hce & Hca). pose proof Hi as [].
  pose proof (sem_down id (goto access l) access True _ (proj1 i_mutex0) Hqm Hcm I eq_refl) as [Dm Cm].
  pose proof (sem_up id (goto up_second l) access True _ (proj1 i_mutex0) Hcm) as [Um Cm'].
  pose proof (sem_up id (goto next_round l) down_mutex (producer id = true) _ (proj1 i_empty0) Hce) as [Ue Ce'].
  pose proof (sem_up id (goto next_round l) down_mutex (producer id = false) _ (proj1 i_avail0) Hca) as [Ua Ca'].
  destruct (producer id) eqn:Hr.
  - pose proof (sem_down id (goto down_mutex l) down_mutex (producer id = true) _ (proj1 i_empty0) Hqe Hce Hr eq_refl) as [De Ce].
    unfold producer_step in Hs. destruct l as [r p]. destruct p; cbn [pc goto rounds] in *; try done; [destruct r|..]; injection Hs as <- <-;
      (split; [|unfold work; cbn; lia]);
      (eapply inv_quiet; [exact Hi|exact Hl|exact Has|..]; try done; cbn [sem_mutex sem_empty sem_avail set_mutex set_empty set_avail]; rewrite ?Hr;
        try (apply sem_stays; by apply i_mutex0 || apply i_empty0 || apply i_avail0); try assumption;
        try (contributions Hr Hr; lia); unfold left_over; cbn; lia).
  - pose proof (sem_down id (goto down_mutex l) down_mutex (producer id = false) _ (proj1 i_avail0) Hqa Hca Hr eq_refl) as [Da Ca].
    unfold consumer_step in Hs. destruct l as [r p]. destruct p; cbn [pc goto rounds] in *; try done; [destruct r|..]; injection Hs as <- <-;
      (split; [|unfold work; cbn; lia]);
      (eapply inv_quiet; [exact Hi|exact Hl|exact Has|..]; try done; cbn [sem_mutex sem_empty sem_avail set_mutex set_empty set_avail]; rewrite ?Hr;
        try (apply sem_stays; by apply i_mutex0 || apply i_empty0 || apply i_avail0); try assumption;
        try (contributions Hr Hr; lia); unfold left_over; cbn; lia).
Qed.

Lemma ring_inv_step n c hist id l l' m : Inv n c hist -> locals c !! id = Some l -> step id l (shared c) = Some (l', m) ->
  Inv n (mkConfig m (<[id := l']> (locals c))) (hist ++ stored_by id c) /\ work l' = work l - 1.
Proof.
  intros Hi Hl Hs. unfold step in Hs. destruct (asleep id (shared c)) eqn:Has; [done|]. unfold stored_by. rewrite Hl.
  destruct (decide (pc l = access)) as [Hp|Hna].
  - rewrite bool_decide_eq_true_2 by done. destruct (producer id) eqn:Hr.
    + destruct (store_step n c hist id l Hi Hl Hp Has Hr) as (m' & E & Hi'). rewrite E in Hs. injection Hs as <- <-.
      split; [exact Hi'|]. unfold work. rewrite Hp. cbn. lia.
    + destruct (ring_print_step n c hist id l Hi Hl Hp Has Hr) as (m' & E & Hi'). rewrite E in Hs. injection Hs as <- <-.
      split; [by rewrite app_nil_r|]. unfold work. rewrite Hp. cbn. lia.
  - rewrite bool_decide_eq_false_2, andb_false_r, app_nil_r by done. destruct (decide (pc l = advance)) as [Hp|Hnd]; [|by eapply quiet_step].
    destruct (advance_step n c hist id l Hi Hl Hp Has) as (m' & E & Hi'). rewrite E in Hs. injection Hs as <- <-.
    split; [done|]. unfold work. rewrite Hp. cbn. lia.
Qed.

(** ** A whole run *)

Lemma zsum_with_app {A} (f : nat -> A -> Z) l1 l2 : zsum_with f (l1 ++ l2) = zsum_with f l1 + zsum_with (fun i => f (length l1 + i)%nat) l2.
Proof.
  unfold zsum_with. revert f. induction l1 as [|x l1 IH]; intros f; [done|]. cbn [app Datatypes.app imap zsum foldr length].
  fold (zsum (imap (f ∘ S) (l1 ++ l2))) (zsum (imap (f ∘ S) l1)). rewrite IH. cbn. lia.
Qed.

Lemma start_locals n t l : locals (start n) !! t = Some l -> pc l = next_round /\
  ((t < P)%nat /\ rounds l = n \/ t = P /\ rounds l = (P * n)%nat).
Proof.
  cbn [start locals]. intros [Hl|[Hge Hl]]%lookup_app_Some.
  - apply lookup_replicate in Hl as [-> ?]. auto.
  - rewrite length_replicate in Hge, Hl. apply list_lookup_singleton_Some in Hl as [? <-]. split; [done|]. right. split; [lia|done].
Qed.

Lemma left_start n r : zsum_with (f_left r) (locals (start n)) = Z.of_nat P * Z.of_nat n.
Proof.
  cbn [start locals]. rewrite zsum_with_app, length_replicate. rewrite (zsum_with_const _ (replicate P _) (if r then Z.of_nat n else 0)).
  - rewrite length_replicate. unfold zsum_with. cbn [imap zsum foldr compose]. rewrite f_left_eq, Nat.add_0_r. unfold producer.
    rewrite (proj2 (Nat.ltb_ge P P)) by lia. destruct r; cbn; unfold left_over; cbn; lia.
  - intros i y [-> Hlt]%lookup_replicate. rewrite f_left_eq. unfold producer. rewrite (proj2 (Nat.ltb_lt i P)) by lia. destruct r; cbn; [|done]. unfold left_over. cbn. lia.
Qed.

Lemma ring_inv_start n : Inv n (start n) [].
Proof.
  destruct (semaphore_ok_new 1 ltac:(lia)) as [Ok1 C1]. destruct (semaphore_ok_new (Z.of_nat B) ltac:(lia)) as [Ok2 C2]. destruct (semaphore_ok_new 0 ltac:(lia)) as [Ok3 C3].
  assert (forall f : nat -> Local -> Z, (forall t l, pc l = next_round -> f t l = 0) -> zsum_with f (locals (start n)) = 0) as Hz.
  { intros f Hf. apply zsum_with_zero. intros t l Hl. apply Hf. by destruct (start_locals n t l Hl). }
  assert (forall r t l, pc l = next_round -> f_early r t l = 0 /\ f_late r t l = 0 /\ f_advance r t l = 0 /\ f_mutex t l = 0) as H0.
  { intros r t l Hp. contributions Hp Hp. by rewrite !andb_false_r. }
  assert (forall k, in_queue k [] = false) as Hq by (intros; apply in_queue_nil).
  split; try rewrite left_start; try (rewrite ?(Hz f_mutex) by (intros; by apply (H0 true)));
    try rewrite (Hz (f_early true)) by (intros; by apply H0); try rewrite (Hz (f_early false)) by (intros; by apply H0);
    try rewrite (Hz (f_late true)) by (intros; by apply H0); try rewrite (Hz (f_late false)) by (intros; by apply H0);
    try rewrite (Hz (f_advance true)) by (intros; by apply H0); try rewrite (Hz (f_advance false)) by (intros; by apply H0);
    cbn [start shared sem_mutex sem_empty sem_avail BUFFER TAIL FRONT printed]; rewrite ?C1, ?C2, ?C3; try done; try (unfold size; cbn [length]; lia).
  - cbn. rewrite length_app, length_replicate. cbn. lia.
  - apply length_replicate.
  - intros id l Hr Hl. destruct (start_locals n id l Hl) as [Hp [[_ E]|[-> _]]]; [|unfold producer in Hr; apply Nat.ltb_lt in Hr; lia].
    unfold left_over, size. rewrite Hp, E. cbn. lia.
  - intros id l Hl. destruct (start_locals n id l Hl) as [Hp _]. by rewrite Hp.
Qed.

Lemma ring_inv_run n sch : forall c0 hist c, Inv n c0 hist -> run_schedule step sch c0 = Some c ->
  Inv n c (hist ++ stored sch c0) /\ zsum (work <$> locals c) + Z.of_nat (length sch) = zsum (work <$> locals c0).
Proof.
  induction sch as [|id sch IH]; intros c0 hist c Hi Hr; cbn [run_schedule stored] in *; [injection Hr as <-; rewrite app_nil_r; cbn; split; [done|lia]|].
  destruct (run_thread step id c0) as [c1|] eqn:E; [|done]. cbn in Hr. apply run_thread_Some in E as (l & l' & m & Hl & Hs & ->).
  destruct (ring_inv_step n c0 hist id l l' m Hi Hl Hs) as [Hi1 Hw]. destruct (IH _ _ _ Hi1 Hr) as [Hi2 Hz]. rewrite app_assoc. split; [done|].
  cbn [locals length] in *. rewrite list_fmap_insert in Hz. rewrite (zsum_insert _ _ (work l)) in Hz by (by rewrite list_lookup_fmap, Hl). lia.
Qed.

Lemma ring_step_defined n c hist id l : Inv n c hist -> locals c !! id = Some l -> pc l <> finished -> asleep id (shared c) = false ->
  exists c', thread_step step c c'.
Proof.
  intros Hi Hl Hf Has. assert (is_Some (step id l (shared c))) as [[l' m] Hs].
  { unfold step, producer_step, consumer_step. rewrite Has. destruct (i_passed n c hist Hi id l Hl) as [Hp _].
    destruct (producer id), (pc l); try done; case_match; done. }
  eexists _, id. apply run_thread_Some. eauto 10.
Qed.

Lemma left_over_nonneg r t l : 0 <= f_left r t l.
Proof. unfold f_left, left_over. destruct (eqb _ _); [|done]. unfold ones. destruct (pc l); lia. Qed.

(** If nobody has a step, everybody has finished. *)
Lemma ring_stuck_finished n c hist : Inv n c hist -> (forall id l, locals c !! id = Some l -> pc l = finished \/ asleep id (shared c) = true) ->
  forall id l, locals c !! id = Some l -> pc l = finished.
Proof.
  intros Hi Hs. pose proof Hi as [].
  assert (forall t l, locals c !! t = Some l -> asleep t (shared c) = true ->
    in_queue t (se_wait_queue (sem_mutex (shared c))) = true /\ pc l = access \/
    in_queue t (se_wait_queue (sem_empty (shared c))) = true /\ pc l = down_mutex /\ producer t = true \/
    in_queue t (se_wait_queue (sem_avail (shared c))) = true /\ pc l = down_mutex /\ producer t = false) as Hwhere.
  { intros t l Hl Has. unfold asleep in Has. apply orb_prop in Has as [[Hq|Hq]%orb_prop|Hq];
      [destruct (proj2 i_mutex0 t Hq) as (_ & l' & Hl' & ?)|destruct (proj2 i_empty0 t Hq) as (? & l' & Hl' & ?)|destruct (proj2 i_avail0 t Hq) as (? & l' & Hl' & ?)];
      rewrite Hl in Hl'; injection Hl' as <-; auto. }
  assert (zsum_with f_mutex (locals c) = 0) as Hm.
  { destruct (decide (Z.max 0 (- se_count (sem_mutex (shared c))) < zsum_with f_mutex (locals c))) as [Hlt|]; [|pose proof (zsum_with_bounds f_mutex (locals c) f_mutex_bounds); lia].
    destruct (claims_awake c _ _ _ f_mutex i_mutex0 f_mutex_bounds f_mutex_waits Hlt) as (t & l & Hl & Hf & Hq). rewrite f_mutex_eq in Hf.
    destruct (Hs t l Hl) as [E|E]; [by rewrite E in Hf|]. destruct (Hwhere t l Hl E) as [[? _]|[(_ & E' & _)|(_ & E' & _)]]; [congruence|by rewrite E' in Hf..]. }
  assert (forall t l, locals c !! t = Some l -> pc l = finished \/ pc l = down_mutex) as Hpc.
  { intros t l Hl. destruct (Hs t l Hl) as [|E]; [by left|]. destruct (Hwhere t l Hl E) as [[_ E']|[(_ & E' & _)|(_ & E' & _)]]; [|by right..].
    pose proof (zsum_with_member f_mutex _ _ _ (fun j y => proj1 (f_mutex_bounds j y)) Hl) as Hmem. rewrite f_mutex_eq, E', Hm in Hmem. done. }
  assert (forall r, zsum_with (f_late r) (locals c) = 0) as Hlate.
  { intros r. apply zsum_with_zero. intros t l Hl. rewrite f_late_eq. destruct (Hpc t l Hl) as [-> | ->]; by rewrite andb_false_r. }
  assert (zsum_with (f_early true) (locals c) <= Z.max 0 (- se_count (sem_empty (shared c)))) as HE.
  { apply Z.nlt_ge. intros Hlt. destruct (claims_awake c _ _ _ (f_early true) i_empty0 (f_early_bounds true) (f_early_waits true) Hlt) as (t & l & Hl & Hf & Hq).
    rewrite f_early_eq in Hf. destruct (producer t) eqn:Hr; [|done]. destruct (Hs t l Hl) as [E|E]; [by rewrite E in Hf|].
    destruct (Hwhere t l Hl E) as [[_ E']|[(? & _)|(_ & _ & ?)]]; [|congruence..]. destruct (Hpc t l Hl); congruence. }
  assert (zsum_with (f_early false) (locals c) <= Z.max 0 (- se_count (sem_avail (shared c)))) as HC.
  { apply Z.nlt_ge. intros Hlt. destruct (claims_awake c _ _ _ (f_early false) i_avail0 (f_early_bounds false) (f_early_waits false) Hlt) as (t & l & Hl & Hf & Hq).
    rewrite f_early_eq in Hf. destruct (producer t) eqn:Hr; [done|]. destruct (Hs t l Hl) as [E|E]; [by rewrite E in Hf|].
    destruct (Hwhere t l Hl E) as [[_ E']|[(_ & _ & ?)|(? & _)]]; [|congruence..]. destruct (Hpc t l Hl); congruence. }
  rewrite !Hlate in *.
  (* without sleepers of a role, that role is done *)
  assert (forall r, zsum_with (f_early r) (locals c) <= 0 -> forall t l, locals c !! t = Some l -> producer t = r -> pc l = finished) as Hdone.
  { intros r H0 t l Hl Hr. destruct (Hpc t l Hl) as [|E]; [done|].
    pose proof (zsum_with_member (f_early r) _ _ _ (fun j y => proj1 (f_early_bounds r j y)) Hl) as Hmem. rewrite f_early_eq, E, Hr, eqb_reflx in Hmem. cbn in Hmem. lia. }
  assert (forall r, (forall t l, locals c !! t = Some l -> producer t = r -> pc l = finished) -> zsum_with (f_left r) (locals c) = 0) as Hnothing.
  { intros r Hall. apply zsum_with_zero. intros t l Hl. rewrite f_left_eq. destruct (eqb (producer t) r) eqn:E; [|done]. apply eqb_prop in E.
    pose proof (Hall t l Hl E) as Hf. destruct (i_passed0 t l Hl) as [_ H0]. unfold left_over. by rewrite Hf, (H0 Hf). }
  assert (forall r, zsum_with (f_left r) (locals c) = 0 -> zsum_with (f_early r) (locals c) <= 0) as Hnobody.
  { intros r H0. rewrite (zsum_with_zero (f_early r)); [done|]. intros t l Hl. rewrite f_early_eq. destruct (eqb (producer t) r) eqn:E; [|done].
    destruct (Hpc t l Hl) as [->|E']; [done|]. pose proof (zsum_with_member (f_left r) _ _ _ (left_over_nonneg r) Hl) as Hmem.
    rewrite f_left_eq, E in Hmem. unfold left_over in Hmem. rewrite E' in Hmem. cbn in Hmem. lia. }
  assert (zsum_with (f_early false) (locals c) <= 0 /\ zsum_with (f_early true) (locals c) <= 0) as [Hc0 Hp0].
  { destruct (decide (zsum_with (f_early false) (locals c) <= 0)) as [Hc0|Hc0].
    - split; [done|]. specialize (Hnothing false (Hdone false Hc0)). apply Hnobody.
      pose proof (zsum_with_nonneg (f_left true) (locals c) (left_over_nonneg true)). lia.
    - assert (zsum_with (f_early true) (locals c) <= 0) as Hp0 by lia. specialize (Hnothing true (Hdone true Hp0)).
      exfalso. apply Hc0, Hnobody. lia. }
  intros id l Hl. destruct (producer id) eqn:Hr; [by apply (Hdone true Hp0 id)|by apply (Hdone false Hc0 id)].
Qed.

Lemma ring_live n c hist : Inv n c hist -> (forall id l, locals c !! id = Some l -> pc l = finished) \/ exists c', thread_step step c c'.
Proof.
  intros Hi. destruct (all_or_one (fun x => pc (snd x) = finished \/ asleep (fst x) (shared c) = true) (imap pair (locals c))) as [Hall|(id & [id' l] & Hl & Hno)].
  - left. apply (ring_stuck_finished n c hist Hi). intros id l Hl. apply (Hall id (id, l)). by rewrite list_lookup_imap, Hl.
  - right. rewrite list_lookup_imap in Hl. destruct (locals c !! id) as [l'|] eqn:E; [|done]. injection Hl as <- <-. cbn [fst snd] in Hno.
    apply (ring_step_defined n c hist id l' Hi E); [tauto|]. destruct (asleep id (shared c)); tauto.
Qed.

Lemma finished_all n c hist : Inv n c hist -> (forall id l, locals c !! id = Some l -> pc l = finished) ->
  printed (shared c) = hist /\ size hist = Z.of_nat P * Z.of_nat n /\
  (forall id, (id < P)%nat -> size (filter (fun x => x = Z.of_nat id) hist) = Z.of_nat n).
Proof.
  intros [] Hall. assert (forall t l, locals c !! t = Some l -> left_over l = 0) as Hleft.
  { intros t l Hl. destruct (i_passed0 t l Hl) as [_ H0]. unfold left_over. by rewrite (Hall t l Hl), (H0 (Hall t l Hl)). }
  assert (forall r, zsum_with (f_left r) (locals c) = 0) as Hz.
  { intros r. apply zsum_with_zero. intros t l Hl. rewrite f_left_eq, (Hleft t l Hl). by destruct (eqb _ _). }
  rewrite Hz in *. split_and!; [|lia|].
  - rewrite i_prefix0, take_ge; [done|]. unfold size in *. lia.
  - intros id Hid. destruct (lookup_lt_is_Some_2 (locals c) id) as [l Hl]; [lia|]. specialize (i_share0 id l). rewrite (Hleft id l Hl) in i_share0.
    rewrite Z.add_0_r in i_share0. apply i_share0; [by apply Nat.ltb_lt|done].
Qed.

Lemma work_start n : zsum (work <$> locals (start n)) = 14 * (Z.of_nat P * Z.of_nat n) + Z.of_nat P + 1.
Proof.
  cbn [start locals]. rewrite fmap_app, fmap_replicate. cbn [fmap list_fmap].
  rewrite zsum_both, zsum_replicate. unfold work. cbn. lia.
Qed.

End Ring.

Lemma zsum_work_nonneg (ls : list Local) : 0 <= zsum (work <$> ls) /\ (zsum (work <$> ls) = 0 -> forall id l, ls !! id = Some l -> pc l = finished \/ pc l = panicked).
Proof.
  assert (forall l, 0 <= work l /\ (work l = 0 -> pc l = finished \/ pc l = panicked)) as Hw by (intros [r p]; unfold work; destruct p; cbn; split; intros; auto; lia).
  induction ls as [|l ls [IH1 IH2]]; [split; [done|]; by intros _ id l|]. cbn [fmap list_fmap zsum foldr]. fold (zsum (work <$> ls)).
  destruct (Hw l) as [H1 H2]. split; [lia|]. intros H0 [|id] l' Hl; [injection Hl as <-; apply H2; lia|]. apply (IH2 ltac:(lia) id l' Hl).
Qed.

Lemma zsum_work_finished (ls : list Local) : (forall id l, ls !! id = Some l -> pc l = finished /\ rounds l = O) -> zsum (work <$> ls) = 0.
Proof.
  intros Hall. apply zsum_zero. intros id x Hx. rewrite list_lookup_fmap in Hx. destruct (ls !! id) as [l|] eqn:Hl; [|done]. injection Hx as <-.
  destruct (Hall id l Hl) as [E1 E2]. unfold work. by rewrite E1, E2.
Qed.

(** A thread that has finished has no step. *)
Lemma finished_stuck P B (c : Config (Mem := Shared) (Loc := Local)) : (forall id l, locals c !! id = Some l -> pc l = finished) -> forall c', ~ thread_step (step P B) c c'.
Proof.
  intros Hall c' (id & (l & l' & m & Hl & Hs & _)%run_thread_Some). unfold step, producer_step, consumer_step in Hs. rewrite (Hall id l Hl) in Hs.
  destruct (asleep id (shared c)); [done|]. by destruct (producer P id).
Qed.

(** A thread between its [SEM_MUTEX] down and up. *)
Definition inside (c : Config (Mem := Shared) (Loc := Local)) (id : nat) : Prop :=
  exists l, locals c !! id = Some l /\ claims_mutex (pc l) = true /\ asleep id (shared c) = false.

(** C17: the producers and the consumer of mpsc_sem.rs lose nothing, however
    their threads interleave.  At any moment the consumer has printed the oldest
    of the numbers stored, in the order they were stored and each once, and no
    more than [BUFFER_SIZE] wait in the buffer; at most one thread is between
    [SEM_MUTEX] down and up; no index is out of range; no state is a deadlock: as
    long as one thread has not finished, one has a next step.  A run ends after
    exactly [14 * producers * count + producers + 1] steps, no sooner and no
    later, and when all threads have finished everything stored has been printed,
    every producer's number exactly [NUMBER_PER_PRODUCER] times and nothing else.
    This holds for any number of producers, any size of the buffer and any count
    per producer, as long as the semaphores can count them. *)
Theorem producers_lose_nothing P B n sch c : (0 < B)%nat -> Z.of_nat B + Z.of_nat P + 1 < 2 ^ 62 ->
  run_schedule (step P B) sch (start P B n) = Some c ->
  printed (shared c) `prefix_of` stored P B sch (start P B n) /\
  (length (stored P B sch (start P B n)) <= length (printed (shared c)) + B)%nat /\
  (forall id id', inside c id -> inside c id' -> id = id') /\
  (forall id l, locals c !! id = Some l -> pc l <> panicked) /\
  ((forall id l, locals c !! id = Some l -> pc l = finished) \/ exists c', thread_step (step P B) c c') /\
  Z.of_nat (length sch) <= 14 * (Z.of_nat P * Z.of_nat n) + Z.of_nat P + 1 /\
  (Z.of_nat (length sch) = 14 * (Z.of_nat P * Z.of_nat n) + Z.of_nat P + 1 <-> forall c', ~ thread_step (step P B) c c') /\
  ((forall id l, locals c !! id = Some l -> pc l = finished) <-> forall c', ~ thread_step (step P B) c c') /\
  ((forall id l, locals c !! id = Some l -> pc l = finished) ->
     printed (shared c) = stored P B sch (start P B n) /\ length (printed (shared c)) = (P * n)%nat /\
     forall id, (id < P)%nat -> length (filter (fun x => x = Z.of_nat id) (printed (shared c))) = n).
Proof.
  intros HB Hs Hr. destruct (ring_inv_run P B HB Hs n sch _ [] c (ring_inv_start P B HB Hs n) Hr) as [Hi Hz]. cbn [Datatypes.app] in Hi. rewrite work_start in Hz by done.
  destruct (zsum_work_nonneg (locals c)) as [Hw1 Hw2]. pose proof (ring_live P B HB n c _ Hi) as Hlive.
  assert ((forall id l, locals c !! id = Some l -> pc l = finished) <-> forall c', ~ thread_step (step P B) c c') as Hend.
  { split; [by apply finished_stuck|]. intros Hstuck. destruct Hlive as [?|[c' Hc']]; [done|by destruct (Hstuck c')]. }
  assert (Z.of_nat (length sch) = 14 * (Z.of_nat P * Z.of_nat n) + Z.of_nat P + 1 <-> forall id l, locals c !! id = Some l -> pc l = finished) as Hcount.
  { split; intros Hyp.
    - intros id l Hl. destruct (Hw2 ltac:(lia) id l Hl) as [?|Hp]; [done|]. by destruct (i_passed _ _ _ _ _ Hi id l Hl).
    - rewrite (zsum_work_finished (locals c)) in Hz; [lia|]. intros id l Hl. destruct (i_passed _ _ _ _ _ Hi id l Hl) as [_ H0]. split; [by eapply Hyp|apply H0; by eapply Hyp]. }
  split_and!; [| | | |exact Hlive|lia|by rewrite Hcount|exact Hend|].
  - rewrite (i_prefix _ _ _ _ _ Hi). apply prefix_take.
  - pose proof (i_size _ _ _ _ _ Hi). unfold size in *. lia.
  - intros id id' (l & Hl & Hc & (Hq & _)%ring_asleep_false) (l' & Hl' & Hc' & (Hq' & _)%ring_asleep_false). by eapply inside_one.
  - intros id l Hl. by destruct (i_passed _ _ _ _ _ Hi id l Hl).
  - intros Hall. destruct (finished_all P B HB n c _ Hi Hall) as (Ep & E & Hn). split; [done|]. rewrite Ep. split; [unfold size in E; lia|].
    intros id Hid. specialize (Hn id Hid). unfold size in Hn. lia.
Qed.

(** Two producers of two numbers and room for one; all three threads sleep on
    the way. *)
Definition sample : list nat :=
  [0; 1; 2; 0; 1; 2; 0; 0; 0; 0; 0; 2; 0; 2; 0; 2; 2; 2; 1; 2; 1; 2; 1; 1; 1; 2; 1; 2; 1; 2;
   2; 2; 0; 2; 0; 2; 0; 0; 0; 2; 0; 2; 2; 2; 2; 1; 2; 1; 2; 1; 1; 1; 2; 1; 2; 2; 2; 2; 2]%nat.

Lemma producers_lose_nothing_witness : exists c, run_schedule (step 2 1) sample (start 2 1 2) = Some c /\
  (forall c', ~ thread_step (step 2 1) c c') /\
  forall id, (id < 2)%nat -> length (filter (fun x => x = Z.of_nat id) (printed (shared c))) = 2%nat.
Proof.
  eexists. split; [vm_compute; reflexivity|].
  match goal with |- context [shared ?c] =>
    destruct (producers_lose_nothing 2 1 2 sample c) as (_ & _ & _ & _ & _ & _ & Hcount & Hend & Hall); [lia|lia|vm_compute; reflexivity|]
  end.
  assert (Hstuck := proj1 Hcount eq_refl). split; [exact Hstuck|]. apply (Hall (proj2 Hend Hstuck)).
Defined.
