(* ===== verification/Barrier.v ===== *)
(** * A barrier from a mutex and a condition variable
    (user/src/bin/barrier_condvar.rs)

    Threads print in phases and meet at a barrier between two of them.  The
    mutexes of this program are spinning ones: the step of a thread that finds one
    locked changes nothing.  A call is a step, a print is a step, and so is each
    statement under the mutex; the barriers exist when the threads start. *)

From S2P Require Import Prelude Scheduler Processor Sync Threads UserSync.
From stdpp Require Import relations sets sorting.
Open Scope Z_scope.

Definition THREAD_NUM : nat := 3.
Definition PRINTS : nat := 300.

Record Barrier := mkBarrier { locked : bool; condvar : CondvarInner; count : Z }.

Definition Barrier_new : Barrier := mkBarrier false Condvar_new 0.

Inductive Pc :=
  | printing (left : nat)   (* [for _ in 0..300], [left] to go *)
  | lock                    (* [mutex_lock] *)
  | increment               (* [*count = *count + 1] *)
  | compare                 (* [if *count == THREAD_NUM] *)
  | wait                    (* [condvar_wait], up to its sleep *)
  | relock                  (* the end of [condvar_wait] *)
  | signal                  (* [condvar_signal], in either branch *)
  | unlock                  (* [mutex_unlock] *)
  | finished
  | panicked.

#[export] Instance Pc_eq_dec : EqDecision Pc.
Proof. solve_decision. Defined.

(** A thread has passed [phase] barriers. *)
Record Local := mkLocal { phase : nat; pc : Pc }.

Definition goto (p : Pc) (l : Local) : Local := mkLocal (phase l) p.

(** The barriers, in the order they are met, and the phases of the letters
    printed. *)
Record Shared := mkShared { barriers : list Barrier; output : list nat }.

Definition put_barrier (k : nat) (b : Barrier) (m : Shared) : Shared := mkShared (<[k := b]> (barriers m)) (output m).

Section Threads.
Context (N n : nat).

(** A statement of [Barrier::block]. *)
Definition block_step (id : nat) (p : Pc) (b : Barrier) : Pc * Barrier :=
  match p with
  | lock => if locked b then (lock, b) else (increment, mkBarrier true (condvar b) (count b))
  | increment => (compare, mkBarrier (locked b) (condvar b) (usize_wrap (count b + 1)))
  | compare => (if count b =? Z.of_nat N then signal else wait, b)
  | wait => (relock, mkBarrier false (condvar_wait (Z.of_nat id) (condvar b)) (count b))
  | relock => if locked b then (relock, b) else (signal, mkBarrier true (condvar b) (count b))
  | signal => (unlock, mkBarrier (locked b) (condvar_signal (condvar b)) (count b))
  | _ => (p, b)
  end.

Definition asleep (id : nat) (m : Shared) : bool := existsb (fun b => in_queue id (cv_wait_queue (condvar b))) (barriers m).

(** [thread_fn]. *)
Definition step (id : nat) (l : Local) (m : Shared) : option (Local * Shared) :=
  if asleep id m then None
  else
    match pc l with
    | printing (S r) => Some (goto (printing r) l, mkShared (barriers m) (output m ++ [phase l]))
    | printing O => Some (goto (if (phase l <? length (barriers m))%nat then lock else finished) l, m)
    | unlock =>
        match barriers m !! phase l with
        | Some b => Some (mkLocal (S (phase l)) (printing n), put_barrier (phase l) (mkBarrier false (condvar b) (count b)) m)
        | None => Some (goto panicked l, m)
        end
    | finished => None
    | panicked => None
    | p =>
        match barriers m !! phase l with
        | Some b => let '(p', b') := block_step id p b in Some (goto p' l, put_barrier (phase l) b' m)
        | None => Some (goto panicked l, m)
        end
    end.

(** [N] threads and [K] barriers. *)
Definition start (K : nat) : Config :=
  mkConfig (mkShared (replicate K Barrier_new) []) (replicate N (mkLocal 0 (printing n))).

Abbreviation config := (Config (Mem := Shared) (Loc := Local)) (only parsing).

(** ** Who is where *)

Definition ones (b : bool) : Z := if b then 1 else 0.

Definition holds (p : Pc) : bool := match p with increment | compare | wait | signal | unlock => true | _ => false end.
Definition behind (p : Pc) : bool := match p with compare | wait | relock | signal | unlock => true | _ => false end.

(** The thread has the mutex of barrier [k]; it has been counted there. *)
Definition has_lock (k : nat) (l : Local) : bool := (phase l =? k)%nat && holds (pc l).
Definition arrived (k : nat) (l : Local) : bool := (k <? phase l)%nat || (phase l =? k)%nat && behind (pc l).

Definition f_lock (k : nat) (_ : nat) (l : Local) : Z := ones (has_lock k l).
Definition f_arrived (k : nat) (_ : nat) (l : Local) : Z := ones (arrived k l).

(** The letters of phase [k] a thread has still to print. *)
Definition f_print (k : nat) (_ : nat) (l : Local) : Z :=
  if (phase l <? k)%nat then Z.of_nat n
  else match pc l with printing r => if (phase l =? k)%nat then Z.of_nat r else 0 | _ => 0 end.

(** The thread will signal barrier [k], unless it sleeps. *)
Definition will_signal (k : nat) (l : Local) : bool :=
  (phase l =? k)%nat && match pc l with compare | relock | signal => true | _ => false end.

(** The thread has seen the barrier open. *)
Definition through (k : nat) (l : Local) : bool :=
  (k <? phase l)%nat || (phase l =? k)%nat && match pc l with relock | signal | unlock => true | _ => false end.

Definition queue (b : Barrier) : list Z := cv_wait_queue (condvar b).

Record barrier_ok (c : config) (k : nat) (b : Barrier) : Prop := {
  b_queue : exists q, queue b = Z.of_nat <$> q /\ NoDup q;
  b_sleepers t : in_queue t (queue b) = true -> exists l, locals c !! t = Some l /\ phase l = k /\ pc l = relock;
  b_locked : ones (locked b) = zsum_with (f_lock k) (locals c);
  b_count : count b = zsum_with (f_arrived k) (locals c);
  b_waiting t l : locals c !! t = Some l -> phase l = k -> pc l = wait -> count b < Z.of_nat N;
  b_open t l : locals c !! t = Some l -> through k l = true -> in_queue t (queue b) = false -> count b = Z.of_nat N;
  b_signal : count b = Z.of_nat N -> queue b <> [] -> exists t l, locals c !! t = Some l /\ will_signal k l = true /\ in_queue t (queue b) = false
}.

Record Inv (K : nat) (c : config) : Prop := {
  i_threads : length (locals c) = N;
  i_barriers : length (barriers (shared c)) = K;
  i_barrier k b : barriers (shared c) !! k = Some b -> barrier_ok c k b;
  i_phase t l : locals c !! t = Some l -> (phase l <= K)%nat /\ (behind (pc l) || holds (pc l) || bool_decide (pc l = lock) = true -> (phase l < K)%nat) /\
    pc l <> panicked /\ (pc l = finished -> phase l = K);
  i_sorted : StronglySorted le (output (shared c));
  i_letters x : x ∈ output (shared c) -> exists t l, locals c !! t = Some l /\ (x <= phase l)%nat;
  i_printed k : (k <= K)%nat -> Z.of_nat (length (filter (fun x => x = k) (output (shared c)))) + zsum_with (f_print k) (locals c) = Z.of_nat N * Z.of_nat n
}.

Lemma barrier_asleep_false id m : asleep id m = false <-> forall k b, barriers m !! k = Some b -> in_queue id (queue b) = false.
Proof.
  unfold asleep. induction (barriers m) as [|b bs IH]; cbn; [done|]. rewrite orb_false_iff, IH. split.
  - intros [H1 H2] [|k] b' E; cbn in E; [by injection E as <-|by eapply H2].
  - intros H. split; [by apply (H 0%nat)|]. intros k b' Hg. by apply (H (S k)).
Qed.

Lemma barrier_asleep_true id m : asleep id m = true <-> exists k b, barriers m !! k = Some b /\ in_queue id (queue b) = true.
Proof.
  split.
  - unfold asleep. intros (b & Hin & Hq)%existsb_exists. apply list_elem_of_In, list_elem_of_lookup_1 in Hin as [k Hk]. eauto.
  - intros (k & b & Hk & Hq). destruct (asleep id m) eqn:E; [done|]. rewrite barrier_asleep_false in E. by rewrite (E k b Hk) in Hq.
Qed.

Lemma f_lock_bounds k t l : 0 <= f_lock k t l <= 1. Proof. unfold f_lock, ones. by destruct (has_lock k l). Qed.
Lemma f_arrived_bounds k t l : 0 <= f_arrived k t l <= 1. Proof. unfold f_arrived, ones. by destruct (arrived k l). Qed.
Lemma f_print_nonneg k t l : 0 <= f_print k t l. Proof. unfold f_print. repeat case_match; lia. Qed.

(** The queue and the count stay. *)
Lemma barrier_still c k b b' id l l' m : barrier_ok c k b -> locals c !! id = Some l -> in_queue id (queue b) = false ->
  queue b' = queue b -> count b' = count b -> ones (locked b') + ones (has_lock k l) = ones (locked b) + ones (has_lock k l') ->
  arrived k l' = arrived k l -> (phase l' = k -> pc l' = wait -> count b < Z.of_nat N) -> (through k l' = true -> count b = Z.of_nat N) ->
  (will_signal k l = true -> count b = Z.of_nat N -> will_signal k l' = true \/ queue b = [] \/ exists t lt, t <> id /\ locals c !! t = Some lt /\ will_signal k lt = true /\ in_queue t (queue b) = false) ->
  barrier_ok (mkConfig m (<[id := l']> (locals c))) k b'.
Proof.
  intros [] Hl Hq Eq Ec Hlock Harr Hwait Hopen Hsig. pose proof (lookup_lt_Some _ _ _ Hl) as Hlt. split; cbn [locals]; rewrite ?Eq, ?Ec.
  - done.
  - intros t Ht. destruct (b_sleepers0 t Ht) as (lt & Hlt' & Hp). exists lt. by rewrite list_lookup_insert_ne by congruence.
  - rewrite (zsum_with_insert _ _ _ _ _ Hl). unfold f_lock at 2 3. lia.
  - rewrite (zsum_with_insert _ _ _ _ _ Hl). unfold f_arrived at 2 3. rewrite Harr. lia.
  - intros t lt Ht Hph Hp. destruct (insert_lookup_cases _ _ _ _ _ _ Hl Ht) as [[_ ->]|[_ ?]]; [by apply Hwait|by eapply b_waiting0].
  - intros t lt Ht Hth Hqt. destruct (insert_lookup_cases _ _ _ _ _ _ Hl Ht) as [[_ ->]|[_ ?]]; [by apply Hopen|by eapply b_open0].
  - intros Hc Hne. destruct (b_signal0 Hc Hne) as (t & lt & Hlt' & Hw & Hqt). destruct (decide (t = id)) as [->|Hnt].
    + rewrite Hl in Hlt'. injection Hlt' as <-. destruct (Hsig Hw Hc) as [Hw'|[?|(u & lu & Hu & Hlu & Hwu & Hqu)]]; [|done|].
      * exists id, l'. by rewrite list_lookup_insert_eq.
      * exists u, lu. by rewrite list_lookup_insert_ne.
    + exists t, lt. by rewrite list_lookup_insert_ne.
Qed.

(** The thread is not at this barrier, before or after. *)
Lemma barrier_elsewhere c k b id l l' m : barrier_ok c k b -> locals c !! id = Some l -> in_queue id (queue b) = false ->
  has_lock k l' = has_lock k l -> arrived k l' = arrived k l -> (phase l' = k -> pc l' <> wait) -> through k l' = through k l -> will_signal k l = false ->
  barrier_ok (mkConfig m (<[id := l']> (locals c))) k b.
Proof.
  intros Hb Hl Hq Hh Ha Hw Ht Hs. eapply barrier_still; try done; [by rewrite Hh|intros; by destruct Hw|rewrite Ht; intros; by eapply (b_open c k b Hb)|].
  by rewrite Hs.
Qed.

Lemma one_holder c k b t t' l l' : barrier_ok c k b -> locals c !! t = Some l -> locals c !! t' = Some l' -> has_lock k l = true -> has_lock k l' = true -> t = t'.
Proof.
  intros [] Hl Hl' Hh Hh'. destruct (decide (t = t')) as [|Hne]; [done|].
  pose proof (zsum_with_two (f_lock k) (locals c) t t' l l' (fun j y => proj1 (f_lock_bounds k j y)) Hne Hl Hl') as H2. unfold f_lock at 1 2 in H2. rewrite Hh, Hh' in H2.
  unfold ones in *. destruct (locked b); lia.
Qed.

Lemma holder_locked c k b t l : barrier_ok c k b -> locals c !! t = Some l -> has_lock k l = true -> locked b = true.
Proof.
  intros [] Hl Hh. pose proof (zsum_with_member (f_lock k) _ _ _ (fun j y => proj1 (f_lock_bounds k j y)) Hl) as H1. unfold f_lock at 1 in H1. rewrite Hh in H1.
  unfold ones in *. destruct (locked b); [done|lia].
Qed.

Lemma all_arrived c k b t l : barrier_ok c k b -> length (locals c) = N -> count b = Z.of_nat N -> locals c !! t = Some l -> arrived k l = true.
Proof.
  intros [] HN Hc Hl. pose proof (zsum_with_all (f_arrived k) (locals c) t l (f_arrived_bounds k)) as H. unfold f_arrived at 2 in H. unfold ones in H.
  destruct (arrived k l); [done|]. rewrite <- b_count0, HN in H. by specialize (H Hc Hl).
Qed.

Context (HN : Z.of_nat N < 2 ^ 62).

Lemma count_bounds c k b : barrier_ok c k b -> length (locals c) = N -> 0 <= count b <= Z.of_nat N.
Proof. intros [] Hlen. rewrite b_count0, <- Hlen. apply zsum_with_bounds, f_arrived_bounds. Qed.

(** ** The statements of [block] that change the count or the queue *)

Lemma increment_ok c k b id l m : barrier_ok c k b -> length (locals c) = N -> locals c !! id = Some l -> in_queue id (queue b) = false -> phase l = k -> pc l = increment ->
  barrier_ok (mkConfig m (<[id := goto compare l]> (locals c))) k (mkBarrier (locked b) (condvar b) (usize_wrap (count b + 1))).
Proof.
  intros Hb Hlen Hl Hq Hk Hp. pose proof (count_bounds c k b Hb Hlen) as Hc. pose proof Hb as []. pose proof (lookup_lt_Some _ _ _ Hl) as Hlt.
  assert (arrived k l = false /\ arrived k (goto compare l) = true /\ has_lock k l = true /\ has_lock k (goto compare l) = true) as (A1 & A2 & L1 & L2).
  { unfold arrived, has_lock. cbn [goto phase pc]. rewrite Hk, Hp, Nat.ltb_irrefl, Nat.eqb_refl. done. }
  assert (count b <> Z.of_nat N) as Hne by (intros E; by rewrite (all_arrived c k b id l Hb Hlen E Hl) in A1).
  unfold usize_wrap. rewrite Z.mod_small by lia. split; cbn [locals count locked]; change (queue (mkBarrier _ (condvar b) _)) with (queue b).
  - done.
  - intros t Ht. destruct (b_sleepers0 t Ht) as (lt & Hlt' & Hph). exists lt. by rewrite list_lookup_insert_ne by congruence.
  - rewrite (zsum_with_insert _ _ _ _ _ Hl). unfold f_lock at 2 3. rewrite L1, L2. lia.
  - rewrite (zsum_with_insert _ _ _ _ _ Hl). unfold f_arrived at 2 3. rewrite A1, A2. cbn. lia.
  - intros t lt Ht Hph Hpw. destruct (insert_lookup_cases _ _ _ _ _ _ Hl Ht) as [[_ ->]|[Hnt Ht']]; [done|].
    destruct Hnt. eapply (one_holder c k b t id lt l); try done. unfold has_lock. by rewrite Hph, Hpw, Nat.eqb_refl.
  - intros t lt Ht Hth Hqt. destruct (insert_lookup_cases _ _ _ _ _ _ Hl Ht) as [[-> ->]|[_ Ht']].
    + unfold through in Hth. cbn [goto phase pc] in Hth. by rewrite Hk, Nat.ltb_irrefl, Nat.eqb_refl in Hth.
    + destruct Hne. by eapply b_open0.
  - intros _ _. exists id, (goto compare l). rewrite list_lookup_insert_eq by done. split_and!; [done| |done]. unfold will_signal. cbn. by rewrite Hk, Nat.eqb_refl.
Qed.

Lemma wait_ok c k b id l m : barrier_ok c k b -> locals c !! id = Some l -> in_queue id (queue b) = false -> phase l = k -> pc l = wait ->
  barrier_ok (mkConfig m (<[id := goto relock l]> (locals c))) k (mkBarrier false (condvar_wait (Z.of_nat id) (condvar b)) (count b)).
Proof.
  intros Hb Hl Hq Hk Hp. pose proof Hb as []. pose proof (lookup_lt_Some _ _ _ Hl) as Hlt. pose proof (b_waiting0 id l Hl Hk Hp) as Hc. destruct b_queue0 as (q & Eq & Hn).
  assert (arrived k l = true /\ arrived k (goto relock l) = true /\ has_lock k l = true /\ has_lock k (goto relock l) = false) as (A1 & A2 & L1 & L2).
  { unfold arrived, has_lock. cbn [goto phase pc]. rewrite Hk, Hp, Nat.ltb_irrefl, Nat.eqb_refl. done. }
  pose proof (holder_locked c k b id l Hb Hl L1) as Hlocked. rewrite Eq in Hq.
  assert (queue (mkBarrier false (condvar_wait (Z.of_nat id) (condvar b)) (count b)) = Z.of_nat <$> (q ++ [id])) as Eq'.
  { unfold queue, condvar_wait. cbn [condvar cv_wait_queue]. change (cv_wait_queue (condvar b)) with (queue b). by rewrite Eq, fmap_app. }
  split; cbn [locals count locked]; rewrite ?Eq'.
  - exists (q ++ [id]). split; [done|]. apply NoDup_app. apply in_queue_nat_false in Hq. split_and!; [done|by intros x Hx ->%list_elem_of_singleton|by apply NoDup_singleton].
  - intros t Ht%in_queue_nat. apply elem_of_app in Ht as [Ht| ->%list_elem_of_singleton].
    + destruct (b_sleepers0 t) as (lt & Hlt' & Hph); [rewrite Eq; by apply in_queue_nat|]. exists lt. rewrite list_lookup_insert_ne; [done|].
      intros <-. by apply in_queue_nat_false in Hq.
    + exists (goto relock l). by rewrite list_lookup_insert_eq.
  - rewrite (zsum_with_insert _ _ _ _ _ Hl). unfold f_lock at 2 3. rewrite L1, L2, <- b_locked0, Hlocked. done.
  - rewrite (zsum_with_insert _ _ _ _ _ Hl). unfold f_arrived at 2 3. rewrite A1, A2. lia.
  - intros t lt Ht Hph Hpw. destruct (insert_lookup_cases _ _ _ _ _ _ Hl Ht) as [[_ ->]|[_ ?]]; [done|by eapply b_waiting0].
  - intros t lt Ht Hth Hqt. apply in_queue_nat_false in Hqt. destruct (insert_lookup_cases _ _ _ _ _ _ Hl Ht) as [[-> ->]|[_ ?]]; [set_solver|].
    eapply b_open0; [done..|]. rewrite Eq. apply in_queue_nat_false. set_solver.
  - lia.
Qed.

Lemma signal_ok c k b id l m : barrier_ok c k b -> locals c !! id = Some l -> in_queue id (queue b) = false -> phase l = k -> pc l = signal ->
  barrier_ok (mkConfig m (<[id := goto unlock l]> (locals c))) k (mkBarrier (locked b) (condvar_signal (condvar b)) (count b)).
Proof.
  intros Hb Hl Hq Hk Hp. pose proof Hb as []. pose proof (lookup_lt_Some _ _ _ Hl) as Hlt. destruct b_queue0 as (q & Eq & Hn).
  assert (arrived k l = true /\ arrived k (goto unlock l) = true /\ has_lock k l = true /\ has_lock k (goto unlock l) = true /\ through k l = true) as (A1 & A2 & L1 & L2 & T1).
  { unfold arrived, has_lock, through. cbn [goto phase pc]. rewrite Hk, Hp, Nat.ltb_irrefl, Nat.eqb_refl. done. }
  pose proof (b_open0 id l Hl T1 Hq) as Hc. rewrite Eq in Hq.
  assert (queue (mkBarrier (locked b) (condvar_signal (condvar b)) (count b)) = Z.of_nat <$> tail q) as Eq'.
  { unfold queue, condvar_signal. cbn [condvar cv_wait_queue]. change (cv_wait_queue (condvar b)) with (queue b). rewrite Eq. by destruct q. }
  assert (forall t, t ∈ tail q -> t ∈ q) as Htail by (destruct q; [done|]; intros; by right).
  split; cbn [locals count locked]; rewrite ?Eq'.
  - exists (tail q). split; [done|]. destruct q; [done|]. by apply NoDup_cons in Hn as [_ Hn].
  - intros t Ht%in_queue_nat. destruct (b_sleepers0 t) as (lt & Hlt' & Hph); [rewrite Eq; apply in_queue_nat; by apply Htail|]. exists lt. rewrite list_lookup_insert_ne; [done|].
    intros <-. apply in_queue_nat_false in Hq. by apply Hq, Htail.
  - rewrite (zsum_with_insert _ _ _ _ _ Hl). unfold f_lock at 2 3. rewrite L1, L2, <- b_locked0. lia.
  - rewrite (zsum_with_insert _ _ _ _ _ Hl). unfold f_arrived at 2 3. rewrite A1, A2. lia.
  - intros t lt Ht Hph Hpw. destruct (insert_lookup_cases _ _ _ _ _ _ Hl Ht) as [[_ ->]|[_ ?]]; [done|by eapply b_waiting0].
  - done.
  - intros _ Hne. destruct q as [|t0 q]; [done|]. apply NoDup_cons in Hn as [Ht0 Hn]. destruct (b_sleepers0 t0) as (lt & Hlt' & Hph & Hpt); [rewrite Eq; apply in_queue_nat; by left|].
    exists t0, lt. rewrite list_lookup_insert_ne by (intros <-; congruence). split_and!; [done|unfold will_signal; by rewrite Hph, Hpt, Nat.eqb_refl|].
    apply in_queue_nat_false. done.
Qed.

(** ** The steps *)

Definition phase_ok (K : nat) (l : Local) : Prop :=
  (phase l <= K)%nat /\ (behind (pc l) || holds (pc l) || bool_decide (pc l = lock) = true -> (phase l < K)%nat) /\ pc l <> panicked /\ (pc l = finished -> phase l = K).

Definition printed_of (k : nat) (m : Shared) : Z := Z.of_nat (length (filter (fun x => x = k) (output m))).

Lemma barrier_inv_move K c id l l' m : Inv K c -> locals c !! id = Some l -> length (barriers m) = K ->
  (forall k b, barriers m !! k = Some b -> barrier_ok (mkConfig m (<[id := l']> (locals c))) k b) -> phase_ok K l' ->
  StronglySorted le (output m) -> (forall x, x ∈ output m -> exists t lt, locals c !! t = Some lt /\ (x <= phase lt)%nat) -> (phase l <= phase l')%nat ->
  (forall k, (k <= K)%nat -> printed_of k m + f_print k id l' = printed_of k (shared c) + f_print k id l) ->
  Inv K (mkConfig m (<[id := l']> (locals c))).
Proof.
  intros [] Hl Hlen Hb Hph Hso Hle Hmono Hpr. split; cbn [shared locals]; try done.
  - by rewrite length_insert.
  - intros t lt Ht. destruct (insert_lookup_cases _ _ _ _ _ _ Hl Ht) as [[_ ->]|[_ ?]]; [exact Hph|by eapply i_phase0].
  - intros x Hx. destruct (Hle x Hx) as (t & lt & Hlt & Hxt). destruct (decide (t = id)) as [->|Hne].
    + exists id, l'. rewrite list_lookup_insert_eq by (by eapply lookup_lt_Some). rewrite Hl in Hlt. injection Hlt as <-. split; [done|lia].
    + exists t, lt. by rewrite list_lookup_insert_ne.
  - intros k Hk. rewrite (zsum_with_insert _ _ _ _ _ Hl). specialize (Hpr k Hk). specialize (i_printed0 k Hk). unfold printed_of in Hpr. lia.
Qed.

(** A statement of [block] at its barrier. *)
Lemma inv_block K c id l p b b' : Inv K c -> locals c !! id = Some l -> asleep id (shared c) = false -> barriers (shared c) !! phase l = Some b ->
  (forall r, pc l <> printing r) -> (forall r, p <> printing r) -> p <> panicked -> p <> finished ->
  barrier_ok (mkConfig (put_barrier (phase l) b' (shared c)) (<[id := goto p l]> (locals c))) (phase l) b' ->
  Inv K (mkConfig (put_barrier (phase l) b' (shared c)) (<[id := goto p l]> (locals c))).
Proof.
  intros Hi Hl Has Hb Hnp Hnp' Hp Hf Hok. pose proof Hi as []. rewrite barrier_asleep_false in Has. pose proof (lookup_lt_Some _ _ _ Hb) as Hk. rewrite i_barriers0 in Hk.
  apply (barrier_inv_move K c id l); try done; cbn [put_barrier barriers output].
  - by rewrite length_insert.
  - intros k b2 Hb2. destruct (insert_lookup_cases _ _ _ _ _ _ Hb Hb2) as [[-> ->]|[Hne Hb3]]; [exact Hok|].
    apply (barrier_elsewhere c k b2 id l); try done; [by apply i_barrier0|by eapply Has|..];
      unfold has_lock, arrived, through, will_signal; cbn [goto phase pc]; rewrite (proj2 (Nat.eqb_neq (phase l) k)) by done; done.
  - unfold phase_ok. cbn [goto phase pc]. split_and!; try done; lia. 
  - intros k Hk'. unfold printed_of, f_print. cbn [goto phase pc output]. destruct (phase l <? k)%nat; [done|].
    destruct (pc l) eqn:E1; try (by destruct (Hnp _ eq_refl)); destruct p; try done; by destruct (Hnp' _ eq_refl).
Qed.

Definition rank (p : Pc) : Z :=
  match p with
  | printing r => Z.of_nat r + 10 | lock => 9 | increment => 8 | compare => 7 | wait => 6 | relock => 5 | signal => 4 | unlock => 3
  | finished | panicked => 0
  end.
Definition work (K : nat) (l : Local) : Z := (Z.of_nat K - Z.of_nat (phase l)) * (Z.of_nat n + 12) + rank (pc l).

Lemma same_flags k l p : phase l = k -> has_lock k l = holds (pc l) /\ has_lock k (goto p l) = holds p /\ arrived k l = behind (pc l) /\ arrived k (goto p l) = behind p.
Proof. intros <-. unfold has_lock, arrived. cbn [goto phase pc]. by rewrite Nat.ltb_irrefl, Nat.eqb_refl. Qed.

(** The statements that only take or leave the mutex. *)
Lemma still_block K c id l p b : Inv K c -> locals c !! id = Some l -> asleep id (shared c) = false -> barriers (shared c) !! phase l = Some b ->
  (pc l, p) ∈ [(lock, increment); (relock, signal)] -> locked b = false ->
  Inv K (mkConfig (put_barrier (phase l) (mkBarrier true (condvar b) (count b)) (shared c)) (<[id := goto p l]> (locals c))).
Proof.
  intros Hi Hl Has Hb Hpp Hlock. pose proof (i_barrier K c Hi _ _ Hb) as Hok. pose proof Has as Hq. rewrite barrier_asleep_false in Hq. specialize (Hq _ _ Hb).
  destruct (same_flags (phase l) l p eq_refl) as (F1 & F2 & F3 & F4).
  assert (pc l = lock /\ p = increment \/ pc l = relock /\ p = signal) as Hpp' by set_solver. clear Hpp.
  apply (inv_block K c id l p b); try done; [destruct Hpp' as [[E ->]|[E ->]]; by rewrite ?E..|].
  eapply barrier_still; try done; rewrite ?F1, ?F2, ?F3, ?F4; cbn [locked].
  - rewrite Hlock. by destruct Hpp' as [[E ->]|[E ->]]; rewrite ?E.
  - by destruct Hpp' as [[E ->]|[E ->]]; rewrite ?E.
  - cbn. by destruct Hpp' as [[E ->]|[E ->]]; rewrite ?E.
  - intros Hth. destruct Hpp' as [[Ep ->]|[Ep ->]]; [unfold through in Hth; cbn [goto phase pc] in Hth; by rewrite Nat.ltb_irrefl, Nat.eqb_refl in Hth|].
    eapply (b_open c _ b Hok id l); [done| |done]. unfold through. by rewrite Ep, Nat.eqb_refl, orb_true_r.
  - intros Hw _. left. destruct Hpp' as [[Ep ->]|[Ep ->]]; [unfold will_signal in Hw; by rewrite Ep, andb_false_r in Hw|].
    unfold will_signal. cbn. by rewrite Nat.eqb_refl.
Qed.

Lemma compare_block K c id l b : Inv K c -> locals c !! id = Some l -> asleep id (shared c) = false -> barriers (shared c) !! phase l = Some b -> pc l = compare ->
  Inv K (mkConfig (put_barrier (phase l) b (shared c)) (<[id := goto (if count b =? Z.of_nat N then signal else wait) l]> (locals c))).
Proof.
  intros Hi Hl Has Hb Hp. pose proof (i_barrier K c Hi _ _ Hb) as Hok. pose proof Has as Hq. rewrite barrier_asleep_false in Hq. specialize (Hq _ _ Hb).
  set (p := if count b =? Z.of_nat N then signal else wait). destruct (same_flags (phase l) l p eq_refl) as (F1 & F2 & F3 & F4). rewrite Hp in F1, F3.
  pose proof (count_bounds c _ b Hok (i_threads K c Hi)) as Hc.
  assert (count b = Z.of_nat N /\ p = signal \/ count b < Z.of_nat N /\ p = wait) as Hpp.
  { unfold p. destruct (_ =? _) eqn:E; [apply Z.eqb_eq in E; by left|apply Z.eqb_neq in E; right; split; [lia|done]]. }
  apply (inv_block K c id l p b); try done; [by rewrite Hp|destruct Hpp as [[_ ->]|[_ ->]]; done..|].
  eapply barrier_still; try done; rewrite ?F1, ?F2, ?F3, ?F4.
  - by destruct Hpp as [[_ ->]|[_ ->]].
  - by destruct Hpp as [[_ ->]|[_ ->]].
  - intros _ Hw. destruct Hpp as [[_ E]|[? _]]; [by rewrite E in Hw|done].
  - intros Hth. destruct Hpp as [[? _]|[_ E]]; [done|]. unfold through in Hth. rewrite E in Hth. cbn [goto phase pc] in Hth. by rewrite Nat.ltb_irrefl, Nat.eqb_refl in Hth.
  - intros _ E. destruct Hpp as [[_ ->]|[? _]]; [|lia]. left. unfold will_signal. cbn. by rewrite Nat.eqb_refl.
Qed.

Lemma unlock_block K c id l b : Inv K c -> locals c !! id = Some l -> asleep id (shared c) = false -> barriers (shared c) !! phase l = Some b -> pc l = unlock ->
  Inv K (mkConfig (put_barrier (phase l) (mkBarrier false (condvar b) (count b)) (shared c)) (<[id := mkLocal (S (phase l)) (printing n)]> (locals c))).
Proof.
  intros Hi Hl Has Hb Hp. pose proof Hi as []. rewrite barrier_asleep_false in Has. pose proof (lookup_lt_Some _ _ _ Hb) as Hk. rewrite i_barriers0 in Hk.
  apply (barrier_inv_move K c id l); try done; cbn [put_barrier barriers output phase pc].
  - by rewrite length_insert.
  - intros k b2 Hb2. destruct (insert_lookup_cases _ _ _ _ _ _ Hb Hb2) as [[-> ->]|[Hne Hb3]].
    + pose proof (i_barrier0 _ _ Hb) as Hok. specialize (Has _ _ Hb). destruct (same_flags (phase l) l unlock eq_refl) as (F1 & _ & F3 & _). rewrite Hp in F1, F3.
      assert (through (phase l) l = true) as Hth by (unfold through; by rewrite Hp, Nat.eqb_refl, orb_true_r).
      pose proof (b_open c _ b Hok id l Hl Hth Has) as Hc. pose proof (holder_locked c _ b id l Hok Hl F1) as Hlk.
      eapply barrier_still; try done; rewrite ?F1, ?F3; cbn [locked].
      * rewrite Hlk. unfold has_lock. cbn [phase pc]. by rewrite (proj2 (Nat.eqb_neq (S (phase l)) (phase l))) by lia.
      * unfold arrived. cbn [phase]. by rewrite (proj2 (Nat.ltb_lt _ _)) by lia.
      * intros Hw. unfold will_signal in Hw. by rewrite Hp, andb_false_r in Hw.
    + specialize (i_barrier0 k b2 Hb3). specialize (Has k b2 Hb3).
      assert ((phase l =? k)%nat = false) as E1 by (by apply Nat.eqb_neq).
      assert ((k <? S (phase l))%nat = (k <? phase l)%nat) as E2.
      { destruct (k <? phase l)%nat eqn:E; [apply Nat.ltb_lt in E; apply Nat.ltb_lt; lia|apply Nat.ltb_ge in E; apply Nat.ltb_ge; lia]. }
      apply (barrier_elsewhere c k b2 id l); try done; unfold has_lock, arrived, through, will_signal; cbn [phase pc holds behind]; rewrite ?E1, ?E2, ?andb_false_r; done.
  - lia.
  - intros k Hk'. unfold printed_of, f_print. cbn [phase pc output]. rewrite Hp. destruct (phase l <? k)%nat eqn:E1, (S (phase l) <? k)%nat eqn:E2, (S (phase l) =? k)%nat eqn:E3; try done; exfalso;
      rewrite ?Nat.ltb_lt, ?Nat.ltb_ge, ?Nat.eqb_eq, ?Nat.eqb_neq in *; lia.
Qed.

(** A letter is never behind one that has been printed. *)
Lemma letters_before K c id l x : Inv K c -> locals c !! id = Some l -> behind (pc l) = false -> x ∈ output (shared c) -> (x <= phase l)%nat.
Proof.
  intros Hi Hl Hbe Hx. pose proof Hi as []. destruct (i_letters0 x Hx) as (t & lt & Hlt & Hxt). destruct (decide (x <= phase l)%nat) as [|Hgt]; [done|]. exfalso.
  destruct (i_phase0 t lt Hlt) as [HtK _]. destruct (lookup_lt_is_Some_2 (barriers (shared c)) (phase l)) as [b Hb]; [rewrite i_barriers0; lia|].
  specialize (i_barrier0 _ b Hb). assert (count b = Z.of_nat N) as Hc.
  { apply (b_open c _ b i_barrier0 t lt Hlt); [unfold through; by rewrite (proj2 (Nat.ltb_lt _ _)) by lia|].
    destruct (in_queue t (queue b)) eqn:E; [|done]. destruct (b_sleepers c _ b i_barrier0 t E) as (lt' & Hlt' & Hph & _). rewrite Hlt in Hlt'. injection Hlt' as <-. lia. }
  pose proof (all_arrived c _ b id l i_barrier0 i_threads0 Hc Hl) as Ha. unfold arrived in Ha. by rewrite Hbe, andb_false_r, Nat.ltb_irrefl in Ha.
Qed.

Lemma barrier_print_step K c id l r : Inv K c -> locals c !! id = Some l -> asleep id (shared c) = false -> pc l = printing (S r) ->
  Inv K (mkConfig (mkShared (barriers (shared c)) (output (shared c) ++ [phase l])) (<[id := goto (printing r) l]> (locals c))).
Proof.
  intros Hi Hl Has Hp. pose proof Hi as []. rewrite barrier_asleep_false in Has. destruct (i_phase0 id l Hl) as (HK & _).
  apply (barrier_inv_move K c id l); try done; cbn [barriers output].
  - intros k b Hb. apply (barrier_elsewhere c k b id l); try done; [by apply i_barrier0|by eapply Has|..];
      unfold has_lock, arrived, through, will_signal; cbn [goto phase pc]; by rewrite Hp, ?andb_false_r.
  - apply StronglySorted_app_2; [|done|by repeat constructor]. intros x y Hx ->%list_elem_of_singleton.
    apply (letters_before K c id l); [done..|by rewrite Hp|done].
  - intros x [Hx| ->%list_elem_of_singleton]%elem_of_app; [by apply i_letters0|by exists id, l].
  - intros k Hk. unfold printed_of, f_print. cbn [goto phase pc output]. rewrite Hp, filter_app, filter_cons, filter_nil, length_app.
    destruct (phase l <? k)%nat eqn:E1, (phase l =? k)%nat eqn:E2; rewrite ?Nat.ltb_lt, ?Nat.ltb_ge, ?Nat.eqb_eq, ?Nat.eqb_neq in *;
      (case_decide; [|]); cbn [length]; lia.
Qed.

Lemma printed_step K c id l : Inv K c -> locals c !! id = Some l -> asleep id (shared c) = false -> pc l = printing 0 ->
  Inv K (mkConfig (shared c) (<[id := goto (if (phase l <? length (barriers (shared c)))%nat then lock else finished) l]> (locals c))).
Proof.
  intros Hi Hl Has Hp. pose proof Hi as []. rewrite barrier_asleep_false in Has. destruct (i_phase0 id l Hl) as (HK & _). rewrite i_barriers0.
  set (p := if (phase l <? K)%nat then lock else finished).
  assert (holds p = false /\ behind p = false /\ p <> wait) as (F1 & F2 & F3) by (unfold p; by destruct (_ <? _)%nat).
  apply (barrier_inv_move K c id l); try done.
  - intros k b Hb. apply (barrier_elsewhere c k b id l); try done; [by apply i_barrier0|by eapply Has|..];
      unfold has_lock, arrived, through, will_signal; cbn [goto phase pc]; rewrite Hp, ?F1, ?F2, ?andb_false_r; try done.
    unfold p. by destruct (_ <? _)%nat; rewrite !andb_false_r.
  - unfold phase_ok. cbn [goto phase pc]. rewrite F1, F2. unfold p. destruct (phase l <? K)%nat eqn:E; [apply Nat.ltb_lt in E|apply Nat.ltb_ge in E]; split_and!; try done; lia.
  - intros k Hk. unfold f_print. cbn [goto phase pc]. rewrite Hp. destruct (phase l <? k)%nat; [done|]. unfold p. destruct (phase l <? K)%nat, (phase l =? k)%nat; lia.
Qed.

(** Every step keeps the invariant, and either it is a turn of a spinning lock
    and changes nothing, or its thread has less left to do. *)
Lemma barrier_inv_step K c id l l' m : Inv K c -> locals c !! id = Some l -> step id l (shared c) = Some (l', m) ->
  Inv K (mkConfig m (<[id := l']> (locals c))) /\ ((l', m) = (l, shared c) \/ work K l' < work K l).
Proof.
  intros Hi Hl Hs. unfold step in Hs. destruct (asleep id (shared c)) eqn:Has; [done|]. pose proof (i_phase K c Hi id l Hl) as (HK & Hlt & Hnp & Hf).
  assert (forall p, p = pc l -> behind p || holds p || bool_decide (p = lock) = true -> exists b, barriers (shared c) !! phase l = Some b) as Hbar.
  { intros p -> H. apply lookup_lt_is_Some_2. rewrite (i_barriers K c Hi). by apply Hlt. }
  assert (forall b, barriers (shared c) !! phase l = Some b -> put_barrier (phase l) b (shared c) = shared c) as Hsame.
  { intros b Hb. unfold put_barrier. rewrite list_insert_id by done. by destruct (shared c). }
  destruct (pc l) as [r| | | | | | | | |] eqn:Hp; try done.
  - destruct r as [|r]; injection Hs as <- <-.
    + split; [by apply printed_step|]. right. unfold work. rewrite Hp. cbn [goto phase pc]. destruct (_ <? _)%nat; cbn [rank]; lia.
    + split; [by apply barrier_print_step|]. right. unfold work. rewrite Hp. cbn [goto phase pc rank]. lia.
  - destruct (Hbar lock eq_refl eq_refl) as [b Hb]. rewrite Hb in Hs. cbn [block_step] in Hs. destruct (locked b) eqn:Hlk; injection Hs as <- <-.
    + rewrite Hsame by done. assert (goto lock l = l) as -> by (rewrite <- Hp; by destruct l). rewrite list_insert_id by done. split; [by destruct c|by left].
    + split; [|right; unfold work; rewrite Hp; cbn [goto phase pc rank]; lia]. apply still_block; [done..|rewrite Hp; set_solver|done].
  - destruct (Hbar increment eq_refl eq_refl) as [b Hb]. rewrite Hb in Hs. cbn [block_step] in Hs. injection Hs as <- <-.
    split; [|right; unfold work; rewrite Hp; cbn [goto phase pc rank]; lia]. pose proof Has as Hq. rewrite barrier_asleep_false in Hq.
    apply (inv_block K c id l _ b); try done; [by rewrite Hp|]. apply increment_ok; [by apply (i_barrier K c Hi)|apply (i_threads K c Hi)|done|by eapply Hq|done..].
  - destruct (Hbar compare eq_refl eq_refl) as [b Hb]. rewrite Hb in Hs. cbn [block_step] in Hs. injection Hs as <- <-.
    split; [by apply compare_block|]. right. unfold work. rewrite Hp. cbn [goto phase pc]. destruct (_ =? _); cbn [rank]; lia.
  - destruct (Hbar wait eq_refl eq_refl) as [b Hb]. rewrite Hb in Hs. cbn [block_step] in Hs. injection Hs as <- <-.
    split; [|right; unfold work; rewrite Hp; cbn [goto phase pc rank]; lia]. pose proof Has as Hq. rewrite barrier_asleep_false in Hq.
    apply (inv_block K c id l _ b); try done; [by rewrite Hp|]. apply wait_ok; [by apply (i_barrier K c Hi)|done|by eapply Hq|done..].
  - destruct (Hbar relock eq_refl eq_refl) as [b Hb]. rewrite Hb in Hs. cbn [block_step] in Hs. destruct (locked b) eqn:Hlk; injection Hs as <- <-.
    + rewrite Hsame by done. assert (goto relock l = l) as -> by (rewrite <- Hp; by destruct l). rewrite list_insert_id by done. split; [by destruct c|by left].
    + split; [|right; unfold work; rewrite Hp; cbn [goto phase pc rank]; lia]. apply still_block; [done..|rewrite Hp; set_solver|done].
  - destruct (Hbar signal eq_refl eq_refl) as [b Hb]. rewrite Hb in Hs. cbn [block_step] in Hs. injection Hs as <- <-.
    split; [|right; unfold work; rewrite Hp; cbn [goto phase pc rank]; lia]. pose proof Has as Hq. rewrite barrier_asleep_false in Hq.
    apply (inv_block K c id l _ b); try done; [by rewrite Hp|]. apply signal_ok; [by apply (i_barrier K c Hi)|done|by eapply Hq|done..].
  - destruct (Hbar unlock eq_refl eq_refl) as [b Hb]. rewrite Hb in Hs. injection Hs as <- <-.
    split; [by apply unlock_block|]. right. unfold work. rewrite Hp. cbn [phase pc rank]. lia.
Qed.

(** ** A thread that can go on *)

Definition spinning (l : Local) (m : Shared) : bool :=
  match pc l with
  | lock | relock => match barriers m !! phase l with Some b => locked b | None => false end
  | _ => false
  end.

Lemma step_moves K c id l : Inv K c -> locals c !! id = Some l -> pc l <> finished -> asleep id (shared c) = false -> spinning l (shared c) = false ->
  exists l' m, step id l (shared c) = Some (l', m) /\ work K l' < work K l.
Proof.
  intros Hi Hl Hf Has Hsp. destruct (step id l (shared c)) as [[l' m]|] eqn:Hs.
  - destruct (barrier_inv_step K c id l l' m Hi Hl Hs) as [_ [[= -> ->]|Hw]]; [|eauto]. exfalso. unfold step in Hs. rewrite Has in Hs. unfold spinning in Hsp.
    destruct l as [k p]. destruct p as [[|r]| | | | | | | | |]; cbn [phase pc goto block_step] in *; repeat case_match; simplify_eq; try done; try lia.
    apply (f_equal pc) in H. injection H. lia.
  - exfalso. unfold step in Hs. rewrite Has in Hs. destruct (i_phase K c Hi id l Hl) as (_ & _ & Hp & _). destruct (pc l); repeat case_match; try done.
Qed.

Lemma barrier_stuck_finished K c : Inv K c -> (forall id l, locals c !! id = Some l -> pc l = finished \/ asleep id (shared c) = true \/ spinning l (shared c) = true) ->
  forall id l, locals c !! id = Some l -> pc l = finished.
Proof.
  intros Hi Hs. pose proof Hi as [].
  assert (forall t l, locals c !! t = Some l -> asleep t (shared c) = true ->
    pc l = relock /\ exists b, barriers (shared c) !! phase l = Some b /\ in_queue t (queue b) = true) as Hwhere.
  { intros t l Hl (k & b & Hb & Hq)%barrier_asleep_true. destruct (b_sleepers c k b (i_barrier0 k b Hb) t Hq) as (l' & Hl' & <- & Hp). rewrite Hl in Hl'. injection Hl' as <-. eauto. }
  assert (forall k b, barriers (shared c) !! k = Some b -> locked b = false) as Hfree.
  { intros k b Hb. specialize (i_barrier0 k b Hb). pose proof (b_locked c k b i_barrier0) as Hlk. destruct (locked b); [|done]. exfalso. cbn in Hlk.
    rewrite (zsum_with_zero (f_lock k)) in Hlk; [done|]. intros t l Hl. unfold f_lock. destruct (has_lock k l) eqn:Hh; [|done]. exfalso.
    unfold has_lock in Hh. apply andb_prop in Hh as [_ Hh]. destruct (Hs t l Hl) as [E|[E|E]]; [by rewrite E in Hh| |].
    - destruct (Hwhere t l Hl E) as [E' _]. by rewrite E' in Hh.
    - unfold spinning in E. by destruct (pc l). }
  assert (forall t l, locals c !! t = Some l -> pc l = finished \/ asleep t (shared c) = true) as Hs'.
  { intros t l Hl. destruct (Hs t l Hl) as [|[|E]]; [by left|by right|]. exfalso. unfold spinning in E.
    destruct (pc l); try done; destruct (barriers (shared c) !! phase l) as [b|] eqn:Hb; try done; by rewrite (Hfree _ b Hb) in E. }
  assert (forall k t l, locals c !! t = Some l -> phase l = k -> pc l <> finished -> False) as Hmin; [|intros t l Hl; destruct (decide (pc l = finished)); [done|by destruct (Hmin (phase l) t l Hl)]].
  intros k. induction (lt_wf k) as [k _ IH]. intros t l Hl Hk Hf. destruct (Hs' t l Hl) as [|Has]; [done|].
  destruct (Hwhere t l Hl Has) as (_ & b & Hb & Hq). rewrite Hk in Hb. specialize (i_barrier0 k b Hb).
  pose proof (lookup_lt_Some _ _ _ Hb) as HkK. rewrite i_barriers0 in HkK.
  assert (count b = Z.of_nat N) as Hc.
  { rewrite (b_count c k b i_barrier0), <- i_threads0, <- (Z.mul_1_r (Z.of_nat (length _))). apply zsum_with_const. intros u lu Hu. unfold f_arrived.
    enough (arrived k lu = true) as -> by done. unfold arrived. destruct (decide (pc lu = finished)) as [Hfu|Hfu].
    - destruct (i_phase0 u lu Hu) as (_ & _ & _ & HK). rewrite (HK Hfu). by rewrite (proj2 (Nat.ltb_lt _ _)) by lia.
    - destruct (Hs' u lu Hu) as [|Hau]; [done|]. destruct (Hwhere u lu Hu Hau) as [Hpu _].
      destruct (decide (phase lu < k)%nat) as [Hlt|]; [by destruct (IH (phase lu) Hlt u lu Hu eq_refl Hfu)|].
      destruct (decide (phase lu = k)) as [->|]; [by rewrite Hpu, Nat.eqb_refl, orb_true_r|]. by rewrite (proj2 (Nat.ltb_lt _ _)) by lia. }
  destruct (b_signal c k b i_barrier0 Hc) as (u & lu & Hu & Hw & Hqu); [intros E; unfold in_queue in Hq; rewrite E in Hq; by apply bool_decide_eq_true, not_elem_of_nil in Hq|].
  unfold will_signal in Hw. apply andb_prop in Hw as [Hph%Nat.eqb_eq Hw]. destruct (Hs' u lu Hu) as [E|Hau]; [by rewrite E in Hw|].
  destruct (Hwhere u lu Hu Hau) as (_ & b2 & Hb2 & Hq2). rewrite Hph, Hb in Hb2. injection Hb2 as <-. congruence.
Qed.

Lemma barrier_live K c : Inv K c -> (forall id l, locals c !! id = Some l -> pc l = finished) \/
  exists id l l' m, locals c !! id = Some l /\ step id l (shared c) = Some (l', m) /\ work K l' < work K l.
Proof.
  intros Hi. destruct (all_or_one (fun x => pc (snd x) = finished \/ asleep (fst x) (shared c) = true \/ spinning (snd x) (shared c) = true) (imap pair (locals c))) as [Hall|(id & [id' l] & Hl & Hno)].
  - left. apply (barrier_stuck_finished K c Hi). intros id l Hl. apply (Hall id (id, l)). by rewrite list_lookup_imap, Hl.
  - right. rewrite list_lookup_imap in Hl. destruct (locals c !! id) as [l'|] eqn:E; [|done]. injection Hl as <- <-. cbn [fst snd] in Hno.
    destruct (step_moves K c id l' Hi E) as (l2 & m & Hs & Hw); [tauto|destruct (asleep id (shared c)); tauto|destruct (spinning l' (shared c)); tauto|]. eauto 10.
Qed.

(** ** A whole run *)

Lemma barrier_inv_start K : Inv K (start K).
Proof.
  assert (forall t l, locals (start K) !! t = Some l -> l = mkLocal 0 (printing n)) as Hl by (intros t l [-> _]%lookup_replicate; done).
  assert (length (locals (start K)) = N) as Hlen by apply length_replicate.
  split; try done; [apply length_replicate|..].
  - intros k b [-> _]%lookup_replicate.
    assert (forall f : nat -> Local -> Z, (forall t, f t (mkLocal 0 (printing n)) = 0) -> zsum_with f (locals (start K)) = 0) as Hz.
    { intros f Hf. apply zsum_with_zero. intros t l ->%Hl. apply Hf. }
    split; try done.
    + exists []. split; [done|constructor].
    + rewrite Hz; [done|]. intros t. unfold f_lock, has_lock. cbn [phase pc holds]. by rewrite andb_false_r.
    + rewrite Hz; [done|]. intros t. unfold f_arrived, arrived. cbn [phase pc behind]. by rewrite andb_false_r.
    + by intros t l ->%Hl.
    + intros t l ->%Hl. unfold through. cbn [phase pc]. by rewrite andb_false_r.
  - intros t l ->%Hl. cbn. split_and!; try done; lia.
  - constructor.
  - intros x Hx. cbn in Hx. set_solver.
  - intros k _. cbn [start shared output]. rewrite filter_nil. rewrite (zsum_with_const _ _ (Z.of_nat n)), Hlen; [done|].
    intros t l ->%Hl. unfold f_print. cbn [phase pc]. destruct k; done.
Qed.

Definition left_to_do (K : nat) (c : config) : Z := zsum (work K <$> locals c).

Lemma barrier_inv_run K sch : forall c0 c, Inv K c0 -> run_schedule step sch c0 = Some c -> Inv K c /\ left_to_do K c <= left_to_do K c0.
Proof.
  induction sch as [|id sch IH]; intros c0 c Hi Hr; cbn [run_schedule] in *; [injection Hr as <-; split; [done|lia]|].
  destruct (run_thread step id c0) as [c1|] eqn:E; [|done]. cbn in Hr. apply run_thread_Some in E as (l & l' & m & Hl & Hs & ->).
  destruct (barrier_inv_step K c0 id l l' m Hi Hl Hs) as [Hi1 Hw]. destruct (IH _ _ Hi1 Hr) as [Hi2 Hz]. split; [done|].
  unfold left_to_do in *. cbn [locals] in Hz. rewrite list_fmap_insert, (zsum_insert _ _ (work K l)) in Hz by (by rewrite list_lookup_fmap, Hl).
  destruct Hw as [[= -> ->]|Hw]; lia.
Qed.

Lemma left_to_do_step K c id l l' m : locals c !! id = Some l -> left_to_do K (mkConfig m (<[id := l']> (locals c))) = left_to_do K c - work K l + work K l'.
Proof. intros Hl. unfold left_to_do. cbn [locals]. rewrite list_fmap_insert, (zsum_insert _ _ (work K l)); [done|]. by rewrite list_lookup_fmap, Hl. Qed.

Lemma left_to_do_nonneg K c : Inv K c -> 0 <= left_to_do K c.
Proof.
  intros Hi. apply zsum_nonneg. intros t x Hx. rewrite list_lookup_fmap in Hx. destruct (locals c !! t) as [l|] eqn:Hl; [|done]. injection Hx as <-.
  destruct (i_phase K c Hi t l Hl) as [HK _]. unfold work. assert (0 <= rank (pc l)) by (destruct (pc l); cbn [rank]; lia). nia.
Qed.

Lemma all_printed K c k : Inv K c -> (forall id l, locals c !! id = Some l -> pc l = finished) -> (k <= K)%nat ->
  length (filter (fun x => x = k) (output (shared c))) = (N * n)%nat.
Proof.
  intros [] Hall Hk. specialize (i_printed0 k Hk). rewrite (zsum_with_zero (f_print k)) in i_printed0; [lia|]. intros t l Hl.
  destruct (i_phase0 t l Hl) as (_ & _ & _ & HK). unfold f_print. rewrite (Hall t l Hl), (HK (Hall t l Hl)). by rewrite (proj2 (Nat.ltb_ge _ _)) by lia.
Qed.

End Threads.

(** C18: the barriers of barrier_condvar.rs keep the phases apart and let
    everybody through, however the threads interleave.  The letters are printed
    in the order of the phases; a thread that is past a barrier has been joined
    there by all the others; no index is out of range.  Every step is a turn of a
    spinning lock, which changes nothing, or leaves less to do; and as long as
    one thread has not finished, some thread has a step of the second kind, so no
    wake-up is lost and a fair run ends.  When all have finished, each letter has
    been printed [N * n] times.  This holds for any number of threads, of
    barriers in a row, and of prints. *)
Theorem barrier_separates_phases N n K sch c : Z.of_nat N < 2 ^ 62 -> run_schedule (step N n) sch (start N n K) = Some c ->
  StronglySorted le (output (shared c)) /\
  (forall k t u l l', (k < K)%nat -> locals c !! t = Some l -> locals c !! u = Some l' -> (k < phase l)%nat -> arrived k l' = true) /\
  (forall t l, locals c !! t = Some l -> pc l <> panicked) /\
  (forall id c', run_thread (step N n) id c = Some c' -> c' = c \/ 0 <= left_to_do n K c' < left_to_do n K c) /\
  ((forall id l, locals c !! id = Some l -> pc l = finished) \/ exists id c', run_thread (step N n) id c = Some c' /\ left_to_do n K c' < left_to_do n K c) /\
  ((forall id l, locals c !! id = Some l -> pc l = finished) -> forall k, (k <= K)%nat -> length (filter (fun x => x = k) (output (shared c))) = (N * n)%nat).
Proof.
  intros HN Hr. destruct (barrier_inv_run N n HN K sch _ c (barrier_inv_start N n HN K) Hr) as [Hi _]. split_and!.
  - apply (i_sorted N n K c Hi).
  - intros k t u l l' Hk Hl Hl' Hp. destruct (lookup_lt_is_Some_2 (barriers (shared c)) k) as [b Hb]; [by rewrite (i_barriers N n K c Hi)|].
    pose proof (i_barrier N n K c Hi k b Hb) as Hok. eapply (all_arrived N c k b u l' Hok); [apply (i_threads N n K c Hi)| |done].
    apply (b_open N c k b Hok t l Hl); [unfold through; by rewrite (proj2 (Nat.ltb_lt _ _)) by lia|].
    destruct (in_queue t (queue b)) eqn:E; [|done]. destruct (b_sleepers N c k b Hok t E) as (lt & Hlt & Hph & _). rewrite Hl in Hlt. injection Hlt as <-. lia.
  - intros t l Hl. by destruct (i_phase N n K c Hi t l Hl) as (_ & _ & ? & _).
  - intros id c' (l & l' & m & Hl & Hs & ->)%run_thread_Some. destruct (barrier_inv_step N n HN K c id l l' m Hi Hl Hs) as [Hi' [[= -> ->]|Hw]].
    + left. rewrite list_insert_id by done. by destruct c.
    + right. split; [by eapply left_to_do_nonneg|]. rewrite (left_to_do_step n K c id l) by done. lia.
  - destruct (barrier_live N n HN K c Hi) as [?|(id & l & l' & m & Hl & Hs & Hw)]; [by left|right]. eexists id, _. split; [apply run_thread_Some; eauto 10|].
    rewrite (left_to_do_step n K c id l) by done. lia.
  - intros Hall k Hk. by eapply all_printed.
Qed.

(** Three threads, two barriers, a letter per phase, the threads in turn. *)
Definition in_turn : list nat :=
  [0; 1; 2; 0; 1; 2; 0; 1; 2; 0; 1; 2; 0; 1; 2; 0; 1; 2; 1; 2; 1; 2; 1; 2; 2; 2; 2; 0; 2; 0; 2; 0; 1; 2; 0; 1;
   2; 0; 1; 2; 0; 1; 2; 0; 1; 2; 0; 1; 0; 1; 0; 1; 0; 1; 1; 1; 1; 2; 1; 2; 1; 2; 0; 1; 2; 0; 2; 0; 2; 0; 0; 0]%nat.

Lemma barrier_separates_phases_witness : exists c, run_schedule (step THREAD_NUM 1) in_turn (start THREAD_NUM 1 2) = Some c /\
  forall k, (k <= 2)%nat -> length (filter (fun x => x = k) (output (shared c))) = 3%nat.
Proof.
  eexists. split; [vm_compute; reflexivity|].
  match goal with |- context [shared ?c] =>
    destruct (barrier_separates_phases THREAD_NUM 1 2 in_turn c) as (_ & _ & _ & _ & _ & H); [unfold THREAD_NUM; lia|vm_compute; reflexivity|]
  end.
  apply H. intros [|[|[|id]]] l E; [injection E as <-; reflexivity..|done].
Defined.
