(* ===== verification/Display.v ===== *)
(** * The display and the input events of a program (user/src/io.rs)

    The frame buffer is a list of bytes, four to a pixel; a drawing is the list of
    pixels that embedded-graphics, which is a parameter, asks for.  An input event
    comes from the kernel as one word (os/src/drivers/input/mod.rs). *)

From S2P Require Import Prelude.
From stdpp Require Import sets.
Open Scope Z_scope.

Definition VIRTGPU_XRES : Z := 1280.
Definition VIRTGPU_YRES : Z := 800.
Definition VIRTGPU_LEN : Z := VIRTGPU_XRES * VIRTGPU_YRES * 4.

(** Types of embedded-graphics. *)
Record Rgb888 := mkRgb { red : Z; green : Z; blue : Z }.
Record Point := mkPoint { x : Z; y : Z }.
Record Pixel := mkPixel { at_ : Point; color : Rgb888 }.

#[export] Instance Rgb888_eq_dec : EqDecision Rgb888.
Proof. solve_decision. Defined.
#[export] Instance Point_eq_dec : EqDecision Point.
Proof. solve_decision. Defined.

Definition i32_wrap (v : Z) : Z := (v + 2 ^ 31) mod 2 ^ 32 - 2 ^ 31.

(** [(y * VIRTGPU_XRES as i32 + x) as usize * 4]. *)
Definition pixel_index (p : Point) : Z := usize_wrap (usize_wrap (i32_wrap (i32_wrap (y p * VIRTGPU_XRES) + x p)) * 4).

(** One pixel of [draw_iter]; after the test the three stores are in range. *)
Definition put_pixel (fb : list Z) (px : Pixel) : list Z :=
  let idx := pixel_index (at_ px) in
  if Z.of_nat (length fb) <=? usize_wrap (idx + 2) then fb
  else
    <[Z.to_nat (idx + 2) := red (color px)]> (<[Z.to_nat (idx + 1) := green (color px)]> (<[Z.to_nat idx := blue (color px)]> fb)).

Definition draw_iter (fb : list Z) (pixels : list Pixel) : list Z := foldl put_pixel fb pixels.

(** What embedded-graphics asks for when it fills a rectangle: each of its
    points, in the one colour. *)
Class EmbeddedGraphics := fill_rectangle : Point -> Z -> Z -> Rgb888 -> list Pixel.

Definition in_rectangle (p tl : Point) (w h : Z) : Prop := x tl <= x p < x tl + w /\ y tl <= y p < y tl + h.

Class EmbeddedGraphicsLaws `{EmbeddedGraphics} :=
  fill_rectangle_points tl w h c p : p ∈ fill_rectangle tl w h c <-> color p = c /\ in_rectangle (at_ p) tl w h.

(** [DrawTarget::clear] fills the whole of [size()]. *)
Definition clear `{EmbeddedGraphics} (fb : list Z) (c : Rgb888) : list Z := draw_iter fb (fill_rectangle (mkPoint 0 0) VIRTGPU_XRES VIRTGPU_YRES c).

(** ** The screen *)

Definition on_screen (p : Point) : Prop := 0 <= x p < VIRTGPU_XRES /\ 0 <= y p < VIRTGPU_YRES.

Definition screen_size (fb : list Z) : Prop := Z.of_nat (length fb) = VIRTGPU_LEN.

(** The colour a point of the screen shows. *)
Definition shows (fb : list Z) (p : Point) (c : Rgb888) : Prop :=
  fb !! Z.to_nat (4 * (y p * VIRTGPU_XRES + x p)) = Some (blue c) /\ fb !! Z.to_nat (4 * (y p * VIRTGPU_XRES + x p) + 1) = Some (green c) /\
  fb !! Z.to_nat (4 * (y p * VIRTGPU_XRES + x p) + 2) = Some (red c).

Lemma pixel_index_screen p : on_screen p -> pixel_index p = 4 * (y p * VIRTGPU_XRES + x p).
Proof.
  unfold on_screen, pixel_index, i32_wrap, usize_wrap, VIRTGPU_XRES, VIRTGPU_YRES. intros [Hx Hy].
  rewrite (Z.mod_small (y p * 1280 + 2 ^ 31)) by lia. rewrite (Z.mod_small (_ + 2 ^ 31)) by lia. replace (y p * 1280 + 2 ^ 31 - 2 ^ 31 + x p + 2 ^ 31 - 2 ^ 31) with (y p * 1280 + x p) by lia.
  rewrite (Z.mod_small (_ + _)) by lia. rewrite Z.mod_small by lia. lia.
Qed.

Lemma index_bound p : on_screen p -> 0 <= 4 * (y p * VIRTGPU_XRES + x p) < VIRTGPU_LEN - 2.
Proof. unfold on_screen, VIRTGPU_LEN, VIRTGPU_XRES, VIRTGPU_YRES. lia. Qed.

Lemma index_apart p q : on_screen p -> on_screen q -> p <> q ->
  4 * (y p * VIRTGPU_XRES + x p) + 4 <= 4 * (y q * VIRTGPU_XRES + x q) \/ 4 * (y q * VIRTGPU_XRES + x q) + 4 <= 4 * (y p * VIRTGPU_XRES + x p).
Proof.
  destruct p as [px py], q as [qx qy]. unfold on_screen, VIRTGPU_XRES, VIRTGPU_YRES. cbn [x y]. intros Hp Hq Hne.
  assert (px <> qx \/ py <> qy) as [?|?] by (destruct (decide (px = qx)) as [->|]; [right; intros ->; done|by left]); lia.
Qed.

Lemma put_pixel_screen fb px : screen_size fb -> on_screen (at_ px) ->
  screen_size (put_pixel fb px) /\ shows (put_pixel fb px) (at_ px) (color px) /\
  forall q c, on_screen q -> q <> at_ px -> shows (put_pixel fb px) q c <-> shows fb q c.
Proof.
  intros Hs Hp. unfold put_pixel. rewrite pixel_index_screen by done. pose proof (index_bound _ Hp) as Hb. set (i := 4 * (y (at_ px) * VIRTGPU_XRES + x (at_ px))) in *.
  unfold screen_size in *. assert (VIRTGPU_LEN = 4096000) as HL by done. unfold usize_wrap. rewrite Z.mod_small by lia. rewrite (proj2 (Z.leb_gt _ _)) by lia.
  split; [by rewrite !length_insert|]. split.
  - unfold shows. fold i. split_and!.
    + rewrite !list_lookup_insert_ne by lia. apply list_lookup_insert_eq. lia.
    + rewrite list_lookup_insert_ne by lia. apply list_lookup_insert_eq. rewrite length_insert. lia.
    + apply list_lookup_insert_eq. rewrite !length_insert. lia.
  - intros q c Hq Hne. pose proof (index_apart _ _ Hq Hp Hne) as Ha. fold i in Ha. pose proof (index_bound _ Hq) as Hbq. unfold shows.
    set (j := 4 * (y q * VIRTGPU_XRES + x q)) in *. by rewrite !(list_lookup_insert_ne _ (Z.to_nat (i + 2))), !(list_lookup_insert_ne _ (Z.to_nat (i + 1))), !(list_lookup_insert_ne _ (Z.to_nat i)) by lia.
Qed.

(** The colour of the last pixel at a point. *)
Fixpoint painted (q : Point) (l : list Pixel) : option Rgb888 :=
  match l with
  | [] => None
  | px :: l => match painted q l with Some c => Some c | None => if decide (at_ px = q) then Some (color px) else None end
  end.

Lemma draw_iter_screen l : forall fb, screen_size fb -> Forall (fun px => on_screen (at_ px)) l ->
  screen_size (draw_iter fb l) /\ forall q c, on_screen q ->
    shows (draw_iter fb l) q c <-> match painted q l with Some c' => c = c' | None => shows fb q c end.
Proof.
  unfold draw_iter. induction l as [|px l IH]; intros fb Hs Hl; [done|]. apply Forall_cons in Hl as [Hp Hl]. cbn [foldl painted].
  destruct (put_pixel_screen fb px Hs Hp) as (Hs1 & Hshow & Hother). destruct (IH _ Hs1 Hl) as [Hs2 Hall]. split; [done|]. intros q c Hq. rewrite Hall by done.
  destruct (painted q l); [done|]. case_decide as E; [subst q|by apply Hother].
  split; [|by intros ->]. intros (H1 & H2 & H3). destruct Hshow as (G1 & G2 & G3). rewrite G1 in H1. rewrite G2 in H2. rewrite G3 in H3. destruct c, (color px). cbn in *. congruence.
Qed.

Lemma painted_app q l1 l2 : painted q (l1 ++ l2) = match painted q l2 with Some c => Some c | None => painted q l1 end.
Proof. induction l1 as [|px l1 IH]; [by cbn; destruct (painted q l2)|]. cbn. rewrite IH. by destruct (painted q l2). Qed.

(** A drawing in one colour that has the points [P]. *)
Lemma painted_one q l c (P : Point -> Prop) : (forall px, px ∈ l -> color px = c /\ P (at_ px)) -> (P q -> mkPixel q c ∈ l) ->
  (P q -> painted q l = Some c) /\ (~ P q -> painted q l = None).
Proof.
  intros Hl Hq.
  assert (painted q l = Some c \/ painted q l = None /\ mkPixel q c ∉ l) as [H|[H Hno]].
  { clear Hq. induction l as [|px l IH]; [right; set_solver|]. cbn [painted]. destruct IH as [->|[-> Hno]]; [intros; apply Hl; by right|by left|].
    destruct (Hl px ltac:(by left)) as [Hc _]. case_decide as E; [left; by rewrite Hc|right]. split; [done|]. intros [<-|?]%elem_of_cons; done. }
  - split; [done|]. intros Hn. exfalso. apply Hn. clear Hq. induction l as [|px l IH]; [done|]. cbn [painted] in H.
    destruct (painted q l) eqn:E; [apply IH; [intros; apply Hl; by right|done]|]. case_decide as Ed; [|done]. subst q. by apply (Hl px); left.
  - split; [|done]. intros HP. by destruct Hno; auto.
Qed.

(** ** Input events *)

Record InputEvent := mkEvent { event_type : Z; code : Z; value : Z }.

(** The word the driver makes of an event ([handle_irq]). *)
Definition pack (e : InputEvent) : Z := Z.lor (Z.lor (Z.shiftl (event_type e) 48) (Z.shiftl (code e) 32)) (value e).

(** [From<u64> for InputEvent]. *)
Definition InputEvent_from (v : Z) : InputEvent :=
  let value := u32_wrap v in
  let v := Z.shiftr v 32 in
  let code := v mod 2 ^ 16 in
  let v := Z.shiftr v 16 in
  mkEvent (v mod 2 ^ 16) code value.

(** [event_get], from the answer of the call. *)
Definition event_get (raw_value : Z) : option InputEvent := if raw_value =? 0 then None else Some (InputEvent_from (usize_wrap raw_value)).

Lemma pack_add e : 0 <= code e < 2 ^ 16 -> 0 <= value e < 2 ^ 32 -> pack e = (event_type e * 2 ^ 16 + code e) * 2 ^ 32 + value e.
Proof.
  intros Hc Hv. unfold pack. change 48 with (16 + 32). rewrite <- (Z.shiftl_shiftl (event_type e) 16 32) by lia. rewrite <- Z.shiftl_lor. rewrite !lor_shiftl_add by lia. done.
Qed.

(** What a program gets of an event is the event; one that is all zeros looks
    like none. *)
Lemma event_get_pack e : 0 <= event_type e < 2 ^ 16 -> 0 <= code e < 2 ^ 16 -> 0 <= value e < 2 ^ 32 ->
  event_get (as_isize (pack e)) = (if decide (pack e = 0) then None else Some e).
Proof.
  intros Ht Hc Hv. rewrite pack_add by lia. set (v := (event_type e * 2 ^ 16 + code e) * 2 ^ 32 + value e).
  assert (0 <= v < 2 ^ 64) as Hb by (unfold v; lia). unfold event_get.
  assert (usize_wrap (as_isize v) = v) as ->.
  { unfold usize_wrap, as_isize. rewrite (Z.mod_small v) by lia. destruct (v <? 2 ^ 63); [by rewrite Z.mod_small by lia|].
    rewrite <- (Z_mod_plus_full _ 1), Z.mod_small by lia. lia. }
  assert ((as_isize v =? 0) = (v =? 0)) as ->.
  { unfold as_isize. rewrite Z.mod_small by lia. destruct (v <? 2 ^ 63) eqn:E; [done|apply Z.ltb_ge in E].
    rewrite (proj2 (Z.eqb_neq v 0)) by lia. apply Z.eqb_neq. lia. }
  case_decide as E; [by rewrite (proj2 (Z.eqb_eq v 0))|]. rewrite (proj2 (Z.eqb_neq v 0)) by done. f_equal.
  unfold InputEvent_from, u32_wrap. rewrite !Z.shiftr_div_pow2 by lia.
  assert (v mod 2 ^ 32 = value e) as -> by (unfold v; by rewrite Z.add_comm, Z_mod_plus_full, Z.mod_small by lia).
  assert (v / 2 ^ 32 = event_type e * 2 ^ 16 + code e) as -> by (unfold v; rewrite Z.div_add_l, (Z.div_small (value e)) by lia; lia).
  rewrite Z.div_add_l, (Z.div_small (code e)), (Z.add_comm _ (code e)), Z_mod_plus_full, Z.add_0_r, !Z.mod_small by lia. by destruct e.
Qed.
