(* ===== verification/Snake.v ===== *)
(** * The snake game (user/src/bin/gui_snake.rs)

    The parts of the snake, the food, a frame of the game and its picture.
    [oorandom] and embedded-graphics are parameters; the key that is pressed
    before each frame is an argument.  [None] is a panic, or a search for a place
    for the food that has not ended within the fuel. *)

From S2P Require Import Prelude Display.
From stdpp Require Import sets.
Open Scope Z_scope.

Inductive Direction := Left | Right | Up | Down | NoDirection.

Record Snake := mkSnake { parts : list Pixel; len : nat; direction : Direction; size_x : Z; size_y : Z }.

(** [oorandom::Rand32]. *)
Class Rand32 (R : Type) := { Rand32_new : Z -> R; rand_u32 : R -> Z * R }.

Record Food (R : Type) := mkFood { food_size_x : Z; food_size_y : Z; place : Pixel; rng : R }.
Arguments mkFood {R}. Arguments food_size_x {R}. Arguments food_size_y {R}. Arguments place {R}. Arguments rng {R}.

Record SnakeGame (R : Type) := mkGame {
  snake : Snake; food : Food R; food_age : Z; food_lifetime : Z; game_size_x : Z; game_size_y : Z; scale_x : Z; scale_y : Z }.
Arguments mkGame {R}. Arguments snake {R}. Arguments food {R}. Arguments food_age {R}. Arguments food_lifetime {R}.
Arguments game_size_x {R}. Arguments game_size_y {R}. Arguments scale_x {R}. Arguments scale_y {R}.

Section Game.
Context {R : Type} `{Rand32 R} `{EmbeddedGraphics} (MAX_SIZE : nat).

Definition Snake_new (c : Rgb888) (size_x size_y : Z) : Snake := mkSnake (replicate MAX_SIZE (mkPixel (mkPoint 0 0) c)) 1 NoDirection size_x size_y.

Definition Snake_set_direction (d : Direction) (s : Snake) : Snake := mkSnake (parts s) (len s) d (size_x s) (size_y s).

(** [SnakeIntoIterator::next]: the part is read before the index is compared. *)
Definition iter_next (s : Snake) (index : nat) : option (option Pixel * nat) :=
  cur ← parts s !! index;
  Some (if (index <? len s)%nat then (Some cur, S index) else (None, index)).

(** A loop over the parts that ends at the first for which [f] holds. *)
Fixpoint any_part (fuel : nat) (f : Pixel -> bool) (s : Snake) (index : nat) : option bool :=
  match fuel with
  | O => None
  | S fuel =>
      r ← iter_next s index;
      match r with
      | (Some cur, index) => if f cur then Some true else any_part fuel f s index
      | (None, _) => Some false
      end
  end.

(** A loop over all the parts. *)
Fixpoint all_parts (fuel : nat) (s : Snake) (index : nat) : option (list Pixel) :=
  match fuel with
  | O => None
  | S fuel =>
      r ← iter_next s index;
      match r with
      | (Some cur, index) => l ← all_parts fuel s index; Some (cur :: l)
      | (None, _) => Some []
      end
  end.

Definition Snake_contains (this : Point) (s : Snake) : option bool := any_part (S (len s)) (fun part => bool_decide (at_ part = this)) s 0.

Definition Snake_grow (s : Snake) : Snake :=
  if (len s <? MAX_SIZE - 1)%nat then mkSnake (parts s) (S (len s)) (direction s) (size_x s) (size_y s) else s.

(** [while i > 0 { parts[i] = parts[i - 1]; i -= 1; }]. *)
Fixpoint shift_parts (i : nat) (l : list Pixel) : option (list Pixel) :=
  match i with
  | O => Some l
  | S j =>
      p ← l !! j;
      if (i <? length l)%nat then shift_parts j (<[i := p]> l) else None
  end.

Definition move (d : Direction) (sx sy : Z) (p : Point) : Point :=
  match d with
  | Left => mkPoint (if x p =? 0 then i32_wrap (sx - 1) else i32_wrap (x p - 1)) (y p)
  | Right => mkPoint (if x p =? i32_wrap (sx - 1) then 0 else i32_wrap (x p + 1)) (y p)
  | Up => mkPoint (x p) (if y p =? 0 then i32_wrap (sy - 1) else i32_wrap (y p - 1))
  | Down => mkPoint (x p) (if y p =? i32_wrap (sy - 1) then 0 else i32_wrap (y p + 1))
  | NoDirection => p
  end.

Definition Snake_make_step (s : Snake) : option Snake :=
  l ← shift_parts (len s) (parts s);
  h ← l !! 0%nat;
  Some (mkSnake (<[0%nat := mkPixel (move (direction s) (size_x s) (size_y s) (at_ h)) (color h)]> l) (len s) (direction s) (size_x s) (size_y s)).

Definition Food_new (c : Rgb888) (size_x size_y : Z) : Food R := mkFood size_x size_y (mkPixel (mkPoint 0 0) c) (Rand32_new 4).

(** The place a random number stands for: [(n >> 24) as u16 % size_x as u16]
    and [(n >> 16) as u16 % size_y as u16]. *)
Definition random_place (sx sy n : Z) : option Point :=
  if (sx mod 2 ^ 16 =? 0) || (sy mod 2 ^ 16 =? 0) then None
  else Some (mkPoint (Z.shiftr n 24 mod 2 ^ 16 mod (sx mod 2 ^ 16)) (Z.shiftr n 16 mod 2 ^ 16 mod (sy mod 2 ^ 16))).

(** The loop of [Food::replace]. *)
Fixpoint find_place (fuel : nat) (s : Snake) (sx sy : Z) (rng : R) : option (Point * R) :=
  match fuel with
  | O => None
  | S fuel =>
      let '(n, rng) := rand_u32 rng in
      p ← random_place sx sy n;
      blocked ← any_part (S (len s)) (fun b => bool_decide (p = at_ b)) s 0;
      if blocked : bool then find_place fuel s sx sy rng else Some (p, rng)
  end.

Definition Food_replace (fuel : nat) (s : Snake) (f : Food R) : option (Food R) :=
  r ← find_place fuel s (food_size_x f) (food_size_y f) (rng f);
  Some (mkFood (food_size_x f) (food_size_y f) (mkPixel (fst r) (color (place f))) (snd r)).

Definition SnakeGame_new (fuel : nat) (size_x size_y scale_x scale_y : Z) (snake_color food_color : Rgb888) (food_lifetime : Z) : option (SnakeGame R) :=
  if (scale_x =? 0) || (scale_y =? 0) then None
  else
    let s := Snake_new snake_color (size_x / scale_x) (size_y / scale_y) in
    f ← Food_replace fuel s (Food_new food_color (size_x / scale_x) (size_y / scale_y));
    Some (mkGame s f 0 food_lifetime size_x size_y scale_x scale_y).

Definition SnakeGame_set_direction (d : Direction) (g : SnakeGame R) : SnakeGame R :=
  mkGame (Snake_set_direction d (snake g)) (food g) (food_age g) (food_lifetime g) (game_size_x g) (game_size_y g) (scale_x g) (scale_y g).

(** [ScaledDisplay::draw_iter] of one pixel. *)
Definition scaled_draw (sx sy : Z) (fb : list Z) (px : Pixel) : list Z :=
  draw_iter fb (fill_rectangle (mkPoint (i32_wrap (x (at_ px) * i32_wrap sx)) (i32_wrap (y (at_ px) * i32_wrap sy))) sx sy (color px)).

Definition SnakeGame_draw (fuel : nat) (g : SnakeGame R) (fb : list Z) : option (SnakeGame R * list Z) :=
  s ← Snake_make_step (snake g);
  hit ← Snake_contains (at_ (place (food g))) s;
  let s := if hit : bool then Snake_grow s else s in
  let age := u32_wrap (food_age g + 1) in
  fa ← (if (food_lifetime g <=? age) || hit then f ← Food_replace fuel s (food g); Some (f, 0) else Some (food g, age));
  l ← all_parts (S (len s)) s 0;
  let fb := foldl (scaled_draw (scale_x g) (scale_y g)) fb l in
  let fb := scaled_draw (scale_x g) (scale_y g) fb (place (fst fa)) in
  Some (mkGame s (fst fa) (snd fa) (food_lifetime g) (game_size_x g) (game_size_y g) (scale_x g) (scale_y g), fb).

(** The keys of [main]: [w], [s], [a], [d]; a line feed or a carriage return
    ends the game. *)
Definition ends_game (c : Z) : bool := (c =? 10) || (c =? 13).
Definition turn (c : Z) (g : SnakeGame R) : SnakeGame R :=
  if c =? 119 then SnakeGame_set_direction Up g
  else if c =? 115 then SnakeGame_set_direction Down g
  else if c =? 97 then SnakeGame_set_direction Left g
  else if c =? 100 then SnakeGame_set_direction Right g
  else g.

Definition BLACK : Rgb888 := mkRgb 0 0 0.
Definition RED : Rgb888 := mkRgb 255 0 0.
Definition YELLOW : Rgb888 := mkRgb 255 255 0.

(** The loop of [main], with the key found before each frame. *)
Fixpoint main_loop (fuel : nat) (keys : list (option Z)) (g : SnakeGame R) (fb : list Z) : option (SnakeGame R * list Z) :=
  match keys with
  | [] => Some (g, fb)
  | k :: keys =>
      if match k with Some c => ends_game c | None => false end then Some (g, fb)
      else
        r ← SnakeGame_draw fuel (match k with Some c => turn c g | None => g end) (clear fb BLACK);
        main_loop fuel keys (fst r) (snd r)
  end.

End Game.

(** [main], whose snake has at most 20 parts. *)
Definition main {R} `{Rand32 R} `{EmbeddedGraphics} (fuel : nat) (keys : list (option Z)) (fb : list Z) : option (SnakeGame R * list Z) :=
  g ← SnakeGame_new 20 fuel 1280 800 20 20 RED YELLOW 200;
  main_loop 20 fuel keys g (clear fb BLACK).

(** ** Loops over the parts *)

Definition body (s : Snake) : list Point := at_ <$> take (len s) (parts s).

Lemma any_part_all f s : forall k index fuel, (index + k = len s)%nat -> (k < fuel)%nat -> (len s < length (parts s))%nat ->
  any_part fuel f s index = Some (existsb f (drop index (take (len s) (parts s)))).
Proof.
  induction k as [|k IH]; intros index fuel Hk Hf Hlen; (destruct fuel as [|fuel]; [lia|]); cbn [any_part]; unfold iter_next;
    (destruct (lookup_lt_is_Some_2 (parts s) index) as [p Hp]; [lia|]); rewrite Hp; cbn [mbind option_bind].
  - rewrite (proj2 (Nat.ltb_ge _ _)) by lia. by rewrite drop_ge by (rewrite length_take; lia).
  - rewrite (proj2 (Nat.ltb_lt _ _)) by lia. rewrite (drop_S (take (len s) (parts s)) p index) by (by rewrite lookup_take_lt by lia). cbn [existsb].
    destruct (f p); [done|]. by apply IH; lia.
Qed.

Lemma all_parts_all s : forall k index fuel, (index + k = len s)%nat -> (k < fuel)%nat -> (len s < length (parts s))%nat ->
  all_parts fuel s index = Some (drop index (take (len s) (parts s))).
Proof.
  induction k as [|k IH]; intros index fuel Hk Hf Hlen; (destruct fuel as [|fuel]; [lia|]); cbn [all_parts]; unfold iter_next;
    (destruct (lookup_lt_is_Some_2 (parts s) index) as [p Hp]; [lia|]); rewrite Hp; cbn [mbind option_bind].
  - rewrite (proj2 (Nat.ltb_ge _ _)) by lia. by rewrite drop_ge by (rewrite length_take; lia).
  - rewrite (proj2 (Nat.ltb_lt _ _)) by lia. rewrite IH by lia. by rewrite (drop_S (take (len s) (parts s)) p index) by (by rewrite lookup_take_lt by lia).
Qed.

Lemma contains_body s this : (len s < length (parts s))%nat -> Snake_contains this s = Some (bool_decide (this ∈ body s)).
Proof.
  intros Hlen. unfold Snake_contains. rewrite (any_part_all _ s (len s)) by lia. f_equal. rewrite drop_0. unfold body.
  apply eq_bool_prop_intro. rewrite Is_true_true, existsb_exists. rewrite bool_decide_spec, list_elem_of_fmap. split.
  - intros (p & Hp & E%bool_decide_eq_true). exists p. split; [done|by apply list_elem_of_In].
  - intros (p & -> & Hp). exists p. split; [by apply list_elem_of_In|by apply bool_decide_eq_true].
Qed.

Lemma shift_parts_spec h : forall i l, (i < length l)%nat -> l !! 0%nat = Some h -> shift_parts i l = Some (h :: take i l ++ drop (S i) l).
Proof.
  induction i as [|j IH]; intros l Hi H0; cbn [shift_parts].
  - destruct l; cbn in *; [done|]. by injection H0 as ->.
  - destruct (lookup_lt_is_Some_2 l j) as [p Hp]; [lia|]. rewrite Hp. cbn [mbind option_bind]. rewrite (proj2 (Nat.ltb_lt _ _)) by lia.
    rewrite IH; [|rewrite length_insert; lia|by rewrite list_lookup_insert_ne by lia]. do 2 f_equal.
    rewrite take_insert_ge by lia. rewrite (drop_S _ p) by (apply list_lookup_insert_eq; lia). rewrite drop_insert_lt by lia.
    by rewrite (take_S_r _ _ p) by done; rewrite <- app_assoc.
Qed.

(** ** The game *)

Section Rules.
Context {R : Type} `{HR : Rand32 R} `{HG : EmbeddedGraphics} `{HE : !EmbeddedGraphicsLaws} (MAX_SIZE : nat) (W H sx sy : Z) (snake_color food_color : Rgb888) (fuel : nat).

(** The grid is on the screen, and there is room for a head and a tail. *)
Record fits : Prop := {
  f_grid : 1 <= W < 2 ^ 16 /\ 1 <= H < 2 ^ 16; f_scale : 1 <= sx /\ 1 <= sy; f_screen : W * sx <= VIRTGPU_XRES /\ H * sy <= VIRTGPU_YRES; f_max : (2 <= MAX_SIZE)%nat
}.

Definition in_grid (p : Point) : Prop := 0 <= x p < W /\ 0 <= y p < H.

(** The numbers a generator gives, and that a free place is among the next
    [fuel] of them. *)
Fixpoint rand_nth (k : nat) (r : R) : Z := match k with O => fst (rand_u32 r) | S k => rand_nth k (snd (rand_u32 r)) end.

Definition finds_free : Prop := forall (r : R) (blocked : list Point), (length blocked < MAX_SIZE)%nat ->
  exists k p, (k < fuel)%nat /\ random_place W H (rand_nth k r) = Some p /\ p ∉ blocked.

Context (Hfit : fits) (Hfree : finds_free).

Record snake_ok (s : Snake) : Prop := {
  s_length : length (parts s) = MAX_SIZE; s_len : (1 <= len s < MAX_SIZE)%nat; s_size : size_x s = W /\ size_y s = H;
  s_grid : Forall (fun px => in_grid (at_ px) /\ color px = snake_color) (parts s);
  (* neighbours on the torus: a part is where the next one was a step ago *)
  s_chain i p q : (S i < len s)%nat -> parts s !! i = Some p -> parts s !! S i = Some q -> exists d, at_ p = move d W H (at_ q)
}.

Record game_ok (g : SnakeGame R) : Prop := {
  g_snake : snake_ok (snake g);
  g_food : in_grid (at_ (place (food g))) /\ color (place (food g)) = food_color /\ at_ (place (food g)) ∉ body (snake g);
  g_sizes : food_size_x (food g) = W /\ food_size_y (food g) = H /\ scale_x g = sx /\ scale_y g = sy
}.

Lemma i32_wrap_small v : - 2 ^ 31 <= v < 2 ^ 31 -> i32_wrap v = v.
Proof. intros Hv. unfold i32_wrap. rewrite Z.mod_small by lia. lia. Qed.

Lemma move_in_grid d p : in_grid p -> in_grid (move d W H p).
Proof.
  intros [Hx Hy]. destruct Hfit as [[HW HH] _ _ _]. unfold in_grid, move. rewrite !i32_wrap_small by lia.
  destruct d; cbn [x y]; repeat case_match; rewrite ?Z.eqb_eq, ?Z.eqb_neq in *; lia.
Qed.

Lemma make_step_ok s : snake_ok s -> exists h tl s', body s = h :: tl /\ Snake_make_step s = Some s' /\ snake_ok s' /\ len s' = len s /\ direction s' = direction s /\
  at_ <$> take (S (len s)) (parts s') = move (direction s) W H h :: body s /\
  (forall i p q, (i < len s)%nat -> parts s' !! i = Some p -> parts s' !! S i = Some q -> exists d, at_ p = move d W H (at_ q)).
Proof.
  intros []. destruct (parts s) as [|p0 ps] eqn:Ep; [cbn in *; lia|]. unfold Snake_make_step. rewrite Ep.
  rewrite (shift_parts_spec p0) by (rewrite ?s_length0; done || lia). cbn [mbind option_bind lookup list_lookup]. cbn [insert list_insert].
  destruct s_size0 as [-> ->]. set (h' := mkPixel (move (direction s) W H (at_ p0)) (color p0)). rewrite <- Ep in *.
  assert (parts s !! 0%nat = Some p0) as H0 by (by rewrite Ep).
  assert (forall i p q, (i < len s)%nat -> (h' :: take (len s) (parts s) ++ drop (S (len s)) (parts s)) !! i = Some p ->
    (h' :: take (len s) (parts s) ++ drop (S (len s)) (parts s)) !! S i = Some q -> exists d, at_ p = move d W H (at_ q)) as Hchain.
  { intros i p q Hi Hp Hq. change ((take (len s) (parts s) ++ drop (S (len s)) (parts s)) !! i = Some q) in Hq.
    rewrite lookup_app_l in Hq by (rewrite length_take; lia). rewrite lookup_take_lt in Hq by lia. destruct i as [|i].
    - cbn in Hp. injection Hp as <-. rewrite H0 in Hq. injection Hq as <-. by exists (direction s).
    - change ((take (len s) (parts s) ++ drop (S (len s)) (parts s)) !! i = Some p) in Hp.
      rewrite lookup_app_l, lookup_take_lt in Hp by (rewrite ?length_take; lia). eapply (s_chain0 i); [lia|done|done]. }
  eexists (at_ p0), (at_ <$> take (len s - 1) ps), _. split_and!; [|done| |done|done| |exact Hchain].
  - unfold body. rewrite Ep. destruct (len s) as [|k]; [lia|]. cbn. by rewrite Nat.sub_0_r.
  - split; cbn [parts len size_x size_y]; try done.
    + cbn [length]. rewrite length_app, length_take, length_drop. lia.
    + constructor; [|apply Forall_app; split; [by apply Forall_take|by apply Forall_drop]].
      rewrite Forall_lookup in s_grid0. destruct (s_grid0 0%nat p0 H0) as [Hg Hc]. split; [by apply move_in_grid|done].
    + intros i p q Hi. apply Hchain. lia.
  - cbn [parts take]. cbn [fmap list_fmap at_ h']. f_equal. unfold body. f_equal. rewrite take_app_length'; [done|]. rewrite length_take. lia.
Qed.

Lemma any_blocked s p : snake_ok s -> any_part (S (len s)) (fun b => bool_decide (p = at_ b)) s 0 = Some (bool_decide (p ∈ body s)).
Proof.
  intros []. rewrite <- contains_body by lia. unfold Snake_contains. rewrite !(any_part_all _ s (len s)) by lia. f_equal. rewrite drop_0.
  induction (take (len s) (parts s)) as [|b l IH]; [done|]. cbn [existsb]. rewrite IH. f_equal. apply bool_decide_ext. split; congruence.
Qed.

Lemma random_place_grid n : exists p, random_place W H n = Some p /\ in_grid p.
Proof.
  destruct Hfit as [[HW HH] _ _ _]. unfold random_place. rewrite !(Z.mod_small W), !(Z.mod_small H) by lia.
  rewrite (proj2 (Z.eqb_neq W 0)), (proj2 (Z.eqb_neq H 0)) by lia. eexists. split; [done|]. split; cbn [x y]; apply Z.mod_pos_bound; lia.
Qed.

Lemma find_place_ok s : snake_ok s -> forall n r k p, (k < n)%nat -> random_place W H (rand_nth k r) = Some p -> p ∉ body s ->
  exists p' r', find_place n s W H r = Some (p', r') /\ in_grid p' /\ p' ∉ body s.
Proof.
  intros Hs. induction n as [|n IH]; intros r k p Hk Hp Hno; [lia|]. cbn [find_place]. destruct (rand_u32 r) as [v r'] eqn:Er.
  destruct (random_place_grid v) as (p0 & Hp0 & Hg). rewrite Hp0. cbn [mbind option_bind]. rewrite any_blocked by done. cbn [mbind option_bind].
  case_bool_decide as Hin; [|by exists p0, r']. destruct k as [|k].
  - cbn in Hp. rewrite Er in Hp. cbn in Hp. rewrite Hp0 in Hp. by injection Hp as ->.
  - apply (IH r' k p); [lia| |done]. cbn in Hp. by rewrite Er in Hp.
Qed.

Lemma body_length s : snake_ok s -> length (body s) = len s.
Proof. intros []. unfold body. rewrite length_fmap, length_take. lia. Qed.

Lemma replace_ok s f : snake_ok s -> food_size_x f = W -> food_size_y f = H -> color (place f) = food_color ->
  exists f', Food_replace fuel s f = Some f' /\ in_grid (at_ (place f')) /\ (at_ (place f') ∉ body s) /\ color (place f') = food_color /\ food_size_x f' = W /\ food_size_y f' = H.
Proof.
  intros Hs Hx Hy Hc. destruct (Hfree (rng f) (body s)) as (k & p & Hk & Hp & Hno); [rewrite body_length by done; by destruct Hs as [_ [_ ?] _ _ _]|].
  destruct (find_place_ok s Hs fuel (rng f) k p Hk Hp Hno) as (p' & r' & E & Hg & Hn). unfold Food_replace. rewrite Hx, Hy, E. cbn.
  eexists. split; [done|]. cbn. done.
Qed.

(** *** The picture *)

(** The square of the grid a point of the screen is in. *)
Definition cell (q : Point) : Point := mkPoint (x q / sx) (y q / sy).

Lemma scaled_draw_shows fb px : screen_size fb -> in_grid (at_ px) ->
  screen_size (scaled_draw sx sy fb px) /\ forall q c, on_screen q ->
    shows (scaled_draw sx sy fb px) q c <-> if decide (cell q = at_ px) then c = color px else shows fb q c.
Proof.
  intros Hs [Hx Hy]. destruct Hfit as [[HW HH] [Hsx Hsy] [Hscx Hscy] _]. unfold VIRTGPU_XRES, VIRTGPU_YRES in *.
  unfold scaled_draw. rewrite !(i32_wrap_small sx), !(i32_wrap_small sy) by nia. rewrite !i32_wrap_small by nia.
  set (rect := fill_rectangle _ _ _ _).
  assert (forall q, in_rectangle q (mkPoint (x (at_ px) * sx) (y (at_ px) * sy)) sx sy <-> cell q = at_ px) as Hcell.
  { intros q. unfold in_rectangle, cell. cbn [x y]. destruct (at_ px) as [a b]. cbn [x y] in *. split.
    - intros [Hqx Hqy]. f_equal; symmetry; [apply (Z.div_unique _ _ _ (x q - a * sx))|apply (Z.div_unique _ _ _ (y q - b * sy))]; lia.
    - intros [= <- <-]. pose proof (Z.div_mod (x q) sx ltac:(lia)). pose proof (Z.mod_pos_bound (x q) sx ltac:(lia)).
      pose proof (Z.div_mod (y q) sy ltac:(lia)). pose proof (Z.mod_pos_bound (y q) sy ltac:(lia)). lia. }
  assert (Forall (fun p => on_screen (at_ p)) rect) as Hon.
  { apply Forall_forall. intros p Hp. apply fill_rectangle_points in Hp as [_ [Hpx Hpy]]. cbn [x y] in *. unfold on_screen, VIRTGPU_XRES, VIRTGPU_YRES. nia. }
  destruct (draw_iter_screen rect fb Hs Hon) as [Hs' Hall]. split; [done|]. intros q c Hq. rewrite Hall by done.
  destruct (painted_one q rect (color px) (fun q => cell q = at_ px)) as [H1 H2].
  - intros p Hp. apply fill_rectangle_points in Hp as [Hc Hr]. split; [done|]. by apply Hcell.
  - intros Hc. apply fill_rectangle_points. split; [done|]. by apply Hcell.
  - case_decide as E; [by rewrite H1|by rewrite H2].
Qed.

Lemma draw_parts_shows l : forall fb, screen_size fb -> Forall (fun px => in_grid (at_ px) /\ color px = snake_color) l ->
  screen_size (foldl (scaled_draw sx sy) fb l) /\ forall q c, on_screen q ->
    shows (foldl (scaled_draw sx sy) fb l) q c <-> if decide (cell q ∈ at_ <$> l) then c = snake_color else shows fb q c.
Proof.
  induction l as [|px l IH]; intros fb Hs Hl; cbn [foldl].
  - split; [done|]. intros q c Hq. by rewrite decide_False by apply not_elem_of_nil.
  - apply Forall_cons in Hl as [[Hg Hc] Hl]. destruct (scaled_draw_shows fb px Hs Hg) as [Hs1 H1]. destruct (IH _ Hs1 Hl) as [Hs2 H2]. split; [done|].
    intros q c Hq. rewrite H2 by done. destruct (decide (cell q ∈ at_ <$> l)) as [Hin|Hno].
    + by rewrite decide_True by (by right).
    + rewrite H1 by done. cbn [fmap list_fmap]. destruct (decide (cell q = at_ px)) as [E|E].
      * rewrite decide_True by (rewrite E; by left). by rewrite Hc.
      * by rewrite decide_False by (by intros [?|?]%elem_of_cons).
Qed.

(** The colour of a square: the food, the snake, or the background. *)
Definition cell_color (g : SnakeGame R) (p : Point) : Rgb888 :=
  if decide (p = at_ (place (food g))) then food_color else if decide (p ∈ body (snake g)) then snake_color else BLACK.

Definition picture (g : SnakeGame R) (fb : list Z) : Prop := screen_size fb /\ forall q c, on_screen q -> shows fb q c <-> c = cell_color g (cell q).

Lemma clear_shows fb c0 : screen_size fb -> screen_size (clear fb c0) /\ forall q c, on_screen q -> shows (clear fb c0) q c <-> c = c0.
Proof.
  intros Hs. unfold clear. set (rect := fill_rectangle _ _ _ _).
  assert (Forall (fun p => on_screen (at_ p)) rect) as Hon.
  { apply Forall_forall. intros p Hp. apply fill_rectangle_points in Hp as [_ [Hpx Hpy]]. cbn [x y] in *. unfold on_screen. lia. }
  destruct (draw_iter_screen rect fb Hs Hon) as [Hs' Hall]. split; [done|]. intros q c Hq. rewrite Hall by done.
  destruct (painted_one q rect c0 on_screen) as [H1 _]; [| |by rewrite H1].
  - intros p Hp. split; [by apply fill_rectangle_points in Hp as [? _]|]. rewrite Forall_forall in Hon. by apply Hon.
  - intros [Hx Hy]. apply fill_rectangle_points. split; [done|]. unfold in_rectangle. cbn [x y at_]. lia.
Qed.

(** *** A frame *)

(** Where the snake is after a frame in direction [d]. *)
Definition advance (d : Direction) (fd : Point) (b : list Point) : list Point :=
  match b with
  | [] => []
  | h :: _ =>
      let h' := move d W H h in
      if bool_decide (h' = fd) && bool_decide (length b < MAX_SIZE - 1)%nat then h' :: b else h' :: take (length b - 1) b
  end.

Lemma draw_ok g fb : game_ok g -> screen_size fb -> (forall q c, on_screen q -> shows fb q c <-> c = BLACK) ->
  exists g' fb', SnakeGame_draw MAX_SIZE fuel g fb = Some (g', fb') /\ game_ok g' /\ picture g' fb' /\
    body (snake g') = advance (direction (snake g)) (at_ (place (food g))) (body (snake g)).
Proof.
  intros [Hs (Hfg & Hfc & Hfno) (Hfx & Hfy & Hsx & Hsy)] Hscreen Hblack. destruct (make_step_ok _ Hs) as (h & tl & s' & Hb & Hstep & Hs' & Hlen & Hdir & Hparts & Hchain).
  unfold SnakeGame_draw. rewrite Hstep. cbn [mbind option_bind]. pose proof Hs' as [Hl' Hn' _ _ _]. rewrite contains_body by lia. cbn [mbind option_bind].
  pose proof (body_length _ Hs) as Hblen. set (h' := move (direction (snake g)) W H h) in *.
  assert (body s' = h' :: take (len (snake g) - 1) (body (snake g))) as Hb'.
  { unfold body at 1. rewrite Hlen. replace (at_ <$> take (len (snake g)) (parts s')) with (take (len (snake g)) (at_ <$> take (S (len (snake g))) (parts s'))).
    - rewrite Hparts. destruct (len (snake g)) as [|k]; [lia|]. cbn [take]. by rewrite Nat.sub_succ, Nat.sub_0_r.
    - rewrite <- fmap_take, take_take. do 2 f_equal. lia. }
  assert (bool_decide (at_ (place (food g)) ∈ body s') = bool_decide (h' = at_ (place (food g)))) as ->.
  { apply bool_decide_ext. rewrite Hb'. split; [|intros <-; by left]. intros [->|Hin]%elem_of_cons; [done|]. destruct Hfno. rewrite <- (take_drop (len (snake g) - 1) (body (snake g))). apply elem_of_app. by left. }
  set (hit := bool_decide (h' = at_ (place (food g)))). set (s2 := if hit then Snake_grow MAX_SIZE s' else s').
  assert (snake_ok s2) as Hs2.
  { unfold s2, Snake_grow. destruct hit; [|done]. destruct (len s' <? MAX_SIZE - 1)%nat eqn:E; [|done]. apply Nat.ltb_lt in E. destruct Hs' as [H1 H2 H3 H4 H5].
    split; cbn [parts len size_x size_y]; try done; [lia|]. intros i p q Hi. apply Hchain. lia. }
  assert (body s2 = advance (direction (snake g)) (at_ (place (food g))) (body (snake g))) as Hb2.
  { unfold advance. rewrite Hb at 1. cbv zeta. change (move (direction (snake g)) W H h) with h'. fold hit. rewrite Hblen. unfold s2. destruct hit; cbn [andb]; [|exact Hb'].
    unfold Snake_grow. rewrite Hlen. destruct (len (snake g) <? MAX_SIZE - 1)%nat eqn:E; [apply Nat.ltb_lt in E|apply Nat.ltb_ge in E].
    - rewrite bool_decide_eq_true_2 by done. unfold body at 1. cbn [parts len]. exact Hparts.
    - rewrite bool_decide_eq_false_2 by lia. exact Hb'. }
  assert (exists f' age, (if (food_lifetime g <=? u32_wrap (food_age g + 1)) || hit then f ← Food_replace fuel s2 (food g); Some (f, 0) else Some (food g, u32_wrap (food_age g + 1))) = Some (f', age) /\
    in_grid (at_ (place f')) /\ (at_ (place f') ∉ body s2) /\ color (place f') = food_color /\ food_size_x f' = W /\ food_size_y f' = H) as (f' & age & Hf & Hf1 & Hf2 & Hf3 & Hf4 & Hf5).
  { destruct ((food_lifetime g <=? u32_wrap (food_age g + 1)) || hit) eqn:E.
    - destruct (replace_ok s2 (food g) Hs2 Hfx Hfy Hfc) as (f' & Hr & Hrest). exists f', 0. rewrite Hr. done.
    - apply orb_false_iff in E as [_ Eh]. exists (food g), (u32_wrap (food_age g + 1)). split_and!; try done. unfold s2. rewrite Eh. rewrite Hb'.
      intros [Hin|Hin]%elem_of_cons; [unfold hit in Eh; by apply bool_decide_eq_false in Eh|]. apply Hfno. clear -Hin. rewrite <- (take_drop (len (snake g) - 1) (body (snake g))). apply elem_of_app. by left. }
  rewrite Hf. cbn [mbind option_bind fst snd]. rewrite (all_parts_all s2 (len s2)) by (destruct Hs2; lia). cbn [mbind option_bind]. rewrite drop_0, Hsx, Hsy.
  eexists _, _. split; [done|]. pose proof Hs2 as [_ _ _ Hgrid _].
  destruct (draw_parts_shows (take (len s2) (parts s2)) fb Hscreen ltac:(by apply Forall_take)) as [Hd1 Hd2].
  destruct (scaled_draw_shows _ (place f') Hd1 Hf1) as [Hd3 Hd4]. split_and!.
  - split; cbn [snake food scale_x scale_y]; done.
  - split; [done|]. intros q c Hq. rewrite Hd4 by done. unfold cell_color. cbn [snake food]. destruct (decide (cell q = at_ (place f'))); [by rewrite Hf3|].
    rewrite Hd2 by done. change (at_ <$> take (len s2) (parts s2)) with (body s2). destruct (decide (cell q ∈ body s2)); [done|by apply Hblack].
  - exact Hb2.
Qed.

(** The key found before a frame. *)
Definition steered (k : option Z) (g : SnakeGame R) : SnakeGame R := match k with Some c => turn c g | None => g end.

Lemma set_direction_ok d g : game_ok g -> game_ok (SnakeGame_set_direction d g).
Proof. intros [[H1 H2 H3 H4 H5] Hf Hs]. split; [by split|exact Hf|exact Hs]. Qed.

Lemma steered_ok k g : game_ok g -> game_ok (steered k g) /\ body (snake (steered k g)) = body (snake g) /\ food (steered k g) = food g.
Proof.
  intros Hg. unfold steered, turn. destruct k as [c|]; [|done]. repeat case_match; (split; [by try apply set_direction_ok|done]).
Qed.

Definition goes_on (k : option Z) : Prop := match k with Some c => ends_game c = false | None => True end.

Lemma frames_ok keys : forall g fb, game_ok g -> screen_size fb -> Forall goes_on keys ->
  exists g' fb', main_loop MAX_SIZE fuel keys g fb = Some (g', fb') /\ game_ok g' /\ screen_size fb' /\ (keys <> [] -> picture g' fb') /\
    (forall k, keys = [k] -> body (snake g') = advance (direction (snake (steered k g))) (at_ (place (food g))) (body (snake g))).
Proof.
  induction keys as [|k keys IH]; intros g fb Hg Hs Hk; cbn [main_loop]; [by exists g, fb|].
  apply Forall_cons in Hk as [Hk Hkeys]. assert (match k with Some c => ends_game c | None => false end = false) as -> by (by destruct k).
  change (match k with Some c => turn c g | None => g end) with (steered k g). destruct (steered_ok k g Hg) as (Hg1 & Hb1 & Hf1).
  destruct (clear_shows fb BLACK Hs) as [Hc1 Hc2]. destruct (draw_ok _ _ Hg1 Hc1 Hc2) as (g2 & fb2 & Hd & Hg2 & Hp2 & Hb2). rewrite Hd. cbn [mbind option_bind fst snd].
  destruct (IH g2 fb2 Hg2 (proj1 Hp2) Hkeys) as (g3 & fb3 & E & Hg3 & Hs3 & Hp3 & _). exists g3, fb3. split_and!; [done..| |].
  - intros _. destruct keys as [|k' keys]; [|by apply Hp3]. cbn in E. by injection E as <- <-.
  - intros k' [= <- ->]. cbn in E. injection E as <- <-. by rewrite Hb2, Hb1, Hf1.
Qed.

Lemma new_ok life : exists g, SnakeGame_new MAX_SIZE fuel (W * sx) (H * sy) sx sy snake_color food_color life = Some g /\ game_ok g.
Proof.
  destruct Hfit as [[HW HH] [Hsx Hsy] _ HM]. unfold SnakeGame_new. rewrite (proj2 (Z.eqb_neq sx 0)), (proj2 (Z.eqb_neq sy 0)) by lia. cbn [orb].
  rewrite !Z.div_mul by lia. set (s := Snake_new MAX_SIZE snake_color W H).
  assert (snake_ok s) as Hs.
  { split; cbn [s Snake_new parts len size_x size_y]; [apply length_replicate|lia|done| |lia].
    apply Forall_replicate. split; [|done]. unfold in_grid. cbn. lia. }
  destruct (replace_ok s (Food_new food_color W H) Hs eq_refl eq_refl eq_refl) as (f' & Hr & Hf1 & Hf2 & Hf3 & Hf4 & Hf5).
  rewrite Hr. cbn [mbind option_bind]. eexists. split; [done|]. split; cbn [snake food scale_x scale_y]; done.
Qed.

End Rules.

(** *** The test of the file

    [snake_basic] makes a snake on a grid of 8 by 8, turns it to the right and
    steps.  It expects the old cell as the second part: but a step does not make
    the snake longer, so [nth(1)] is [None] and its [unwrap] panics. *)
Lemma snake_basic_fails : exists s, Snake_make_step (Snake_set_direction Right (Snake_new 20 RED 8 8)) = Some s /\
  body s = [mkPoint 1 0] /\ iter_next s 1 = Some (None, 1%nat) /\ Snake_contains (mkPoint 0 0) s = Some false.
Proof. eexists. split; [reflexivity|]. by split_and!. Qed.

(** C20: the snake game plays by its rules and shows them.  Whatever keys are
    pressed, every frame is computed without a panic: the snake moves one cell
    around the torus in its direction, and grows by a cell exactly when it
    reaches the food and is not at its full length; all its parts and the food
    stay on the grid, neighbouring parts stay a move apart, and the food is never
    on the snake.  After each frame every point of the screen has the colour of
    its cell: the food's, the snake's, or black.  The generator of random numbers
    must offer, within [fuel] numbers, a cell that the snake does not cover.  That
    the snake grows only at the food is what the game does and not what the test
    [snake_basic] of the same file expects ([snake_basic_fails]). *)
Theorem snake_frames_exact {R} `{Rand32 R} `{EmbeddedGraphicsLaws} MAX_SIZE gw gh sx sy snake_color food_color fuel life :
  fits MAX_SIZE gw gh sx sy -> finds_free (R := R) MAX_SIZE gw gh fuel ->
  (exists g, SnakeGame_new MAX_SIZE fuel (gw * sx) (gh * sy) sx sy snake_color food_color life = Some g /\
     game_ok MAX_SIZE gw gh sx sy snake_color food_color g) /\
  forall (g : SnakeGame R) fb keys, game_ok MAX_SIZE gw gh sx sy snake_color food_color g -> screen_size fb -> Forall goes_on keys ->
    exists g' fb', main_loop MAX_SIZE fuel keys g fb = Some (g', fb') /\ game_ok MAX_SIZE gw gh sx sy snake_color food_color g' /\ screen_size fb' /\
      (keys <> [] -> picture sx sy snake_color food_color g' fb') /\
      (forall k, keys = [k] -> body (snake g') = advance MAX_SIZE gw gh (direction (snake (steered k g))) (at_ (place (food g))) (body (snake g))).
Proof.
  intros Hfit Hfree. split; [by eapply new_ok|]. intros g fb keys Hg Hs Hk. by eapply frames_ok.
Qed.

(** *** An instance: a generator that counts, and rectangles point by point *)

#[local] Instance counting : Rand32 Z := {| Rand32_new := fun seed => seed; rand_u32 := fun n => (Z.shiftl (n mod 64) 24, n + 1) |}.

#[local] Instance by_points : EmbeddedGraphics := fun tl w h c => a ← seqZ (x tl) w; b ← seqZ (y tl) h; [mkPixel (mkPoint a b) c].

#[local] Instance by_points_laws : EmbeddedGraphicsLaws.
Proof.
  intros tl w h c p. unfold fill_rectangle, by_points, in_rectangle. rewrite list_elem_of_bind. setoid_rewrite list_elem_of_bind.
  setoid_rewrite list_elem_of_singleton. setoid_rewrite elem_of_seqZ. split.
  - intros (a & (b & -> & Hb) & Ha). done.
  - intros [<- [Hx Hy]]. exists (x (at_ p)). split; [|lia]. exists (y (at_ p)). split; [|lia]. destruct p as [[a b] c]. done.
Qed.

Lemma counting_place k n : random_place 64 40 (rand_nth k n) = Some (mkPoint ((n + Z.of_nat k) mod 64) (Z.shiftr (Z.shiftl ((n + Z.of_nat k) mod 64) 24) 16 mod 2 ^ 16 mod 40)).
Proof.
  assert (rand_nth k n = Z.shiftl ((n + Z.of_nat k) mod 64) 24) as ->.
  { revert n. induction k as [|k IH]; intros n; cbn [rand_nth rand_u32 counting fst snd]; [by rewrite Z.add_0_r|]. rewrite IH. do 2 f_equal. lia. }
  pose proof (Z.mod_pos_bound (n + Z.of_nat k) 64 ltac:(lia)). unfold random_place. change (64 mod 2 ^ 16) with 64. change (40 mod 2 ^ 16) with 40. cbn [orb Z.eqb].
  do 2 f_equal. rewrite Z.shiftr_shiftl_l by lia. cbn [Z.sub]. rewrite Z.shiftl_0_r, (Z.mod_small _ (2 ^ 16)) by lia. by rewrite Z.mod_small by lia.
Qed.

Lemma counting_finds_free : finds_free (R := Z) 20 64 40 20.
Proof.
  intros n blocked Hlen. set (place := fun k => mkPoint ((n + Z.of_nat k) mod 64) (Z.shiftr (Z.shiftl ((n + Z.of_nat k) mod 64) 24) 16 mod 2 ^ 16 mod 40)).
  destruct (decide (Forall (fun p => p ∈ blocked) (place <$> seq 0 20))) as [Hall|Hsome].
  - exfalso. assert (NoDup (place <$> seq 0 20)) as Hn.
    { apply NoDup_fmap_2_strong; [|apply NoDup_seq]. intros i j Hi%elem_of_seq Hj%elem_of_seq E. apply (f_equal x) in E. cbn in E.
      pose proof (Z.div_mod (n + Z.of_nat i) 64 ltac:(lia)). pose proof (Z.div_mod (n + Z.of_nat j) 64 ltac:(lia)). lia. }
    rewrite Forall_forall in Hall. pose proof (submseteq_length _ _ (NoDup_submseteq _ _ Hn Hall)) as Hle. rewrite length_fmap, length_seq in Hle. lia.
  - apply not_Forall_Exists in Hsome; [|apply _]. apply Exists_exists in Hsome as (p & (k & -> & Hk%elem_of_seq)%list_elem_of_fmap & Hno).
    exists k, (place k). split_and!; [lia|apply counting_place|done].
Qed.

(** The program's grid, and four frames with two turns. *)
Lemma snake_frames_exact_witness : exists g fb, main 20 [None; Some 100; None; Some 115] (replicate (Z.to_nat VIRTGPU_LEN) 0) = Some (g, fb) /\
  picture 20 20 RED YELLOW g fb.
Proof.
  assert (fits 20 64 40 20 20) as Hfit by (split; unfold VIRTGPU_XRES, VIRTGPU_YRES; lia).
  destruct (snake_frames_exact 20 64 40 20 20 RED YELLOW 20 200 Hfit counting_finds_free) as [(g0 & E0 & Hg0) Hframes].
  assert (screen_size (replicate (Z.to_nat VIRTGPU_LEN) 0)) as Hs by (unfold screen_size; rewrite length_replicate; apply Z2Nat.id; unfold VIRTGPU_LEN, VIRTGPU_XRES, VIRTGPU_YRES; lia).
  destruct (Hframes g0 (clear (replicate (Z.to_nat VIRTGPU_LEN) 0) BLACK) [None; Some 100; None; Some 115] Hg0) as (g & fb & E & _ & _ & Hp & _).
  - by apply clear_shows.
  - by repeat constructor.
  - exists g, fb. split; [|by apply Hp]. unfold main. change 1280 with (64 * 20). change 800 with (40 * 20). rewrite E0. exact E.
Defined.
