(* ===== verification/Http.v ===== *)
(** * The web server (user/src/bin/tcp_simplehttp.rs)

    A server of one page, over the calls [accept], [read] and [write]: what each
    connection brings is an argument, and what the program prints and writes is
    its sequence of events. *)

From Stdlib Require Import String Ascii.
From stdpp Require Import pretty.
From S2P Require Import Prelude Shell.
Open Scope Z_scope.

(** What the program does that can be seen from outside. *)
Inductive event :=
  | Says (line : list Z)
  | Writes (fd : Z) (bytes : list Z).

Definition ZERO_ROW : list Z := replicate 3 32.
Definition CRLF : list Z := [13; 10].

(** ** [hexdump] *)

Definition hex_digit (d : Z) : Z := if d <? 10 then 48 + d else 87 + d.

(** [{:02x} ], and [{:02} ] of the empty string past the end of the data. *)
Definition hex_cell (b : option Z) : list Z :=
  match b with Some b => [hex_digit (b / 16); hex_digit (b mod 16); 32] | None => ZERO_ROW end.
Definition char_cell (b : option Z) : list Z :=
  match b with Some c => if (32 <=? c) && (c <=? 126) then [c] else [46] | None => ZERO_ROW end.

Definition dump_row (data : list Z) (offset : nat) : list Z :=
  concat ((fun i => hex_cell (data !! (offset + i)%nat)) <$> seq 0 16) ++ replicate 6 32 ++ concat ((fun i => char_cell (data !! (offset + i)%nat)) <$> seq 0 16).

(** [{:-^1$}]. *)
Definition centered (text : list Z) (width : nat) : list Z :=
  let pad := (width - length text)%nat in replicate (pad / 2)%nat 45 ++ text ++ replicate (pad - pad / 2)%nat 45.
Definition PRELAND_WIDTH : nat := 70.

(** [(0..data.len()).step_by(16)]. *)
Definition offsets (data : list Z) : list nat := Nat.mul 16 <$> seq 0 ((length data + 15) / 16)%nat.

Definition hexdump (data : list Z) : list event :=
  Says (centered (chars " hexdump ") PRELAND_WIDTH) :: ((fun offset => Says (dump_row data offset)) <$> offsets data) ++ [Says (centered (chars " hexdump end ") PRELAND_WIDTH)].

(** ** The answer to a client *)

(** A text with a double quote at every [~]. *)
Definition text (s : string) : list Z := (fun c => if c =? 126 then 34 else c) <$> chars s.

Definition closed_page : list Z := text "<!DOCTYPE html>
        <html>
        <head>
        <title></title>
        <meta charset=~utf-8~>
        <meta name=~viewport~ content=~width=device-width, initial-scale=1~>
        <link href=~https://cdn.staticfile.org/twitter-bootstrap/5.1.1/css/bootstrap.min.css~ rel=~stylesheet~>
        <script src=~https://cdn.staticfile.org/twitter-bootstrap/5.1.1/js/bootstrap.bundle.min.js~></script>
        </head>
        <body>
        
        <div class=~container-fluid p-5 bg-danger text-white text-center~>
        <h1>server closed</h1>
        </div>
        </body>
        </html>".

Definition main_page : list Z := text "<!DOCTYPE html>
        <html>
        <head>
        <title></title>
        <meta charset=~utf-8~>
        <meta name=~viewport~ content=~width=device-width, initial-scale=1~>
        <link href=~https://cdn.staticfile.org/twitter-bootstrap/5.1.1/css/bootstrap.min.css~ rel=~stylesheet~>
        <script src=~https://cdn.staticfile.org/twitter-bootstrap/5.1.1/js/bootstrap.bundle.min.js~></script>
        </head>
        <body>
        
        <div class=~container-fluid p-5 bg-primary text-white text-center~>
        <h1>rCore-tutorial-V3</h1>
        <p>rCore-tutorial-V3 是一个 基于 RISC-V 架构的 类 Unix 内核.</p> 
        </div>
        
        <div class=~container mt-5~>
        <div class=~row~>
            <div class=~col-sm-4~>
            <h3>Rust</h3>
            <p>Rust</p>
            <p>Rust是一门系统编程语言，专注于安全，尤其是并发安全，支持函数式和命令式以及泛型等编程范式的多范式语言</p>
            </div>
            <div class=~col-sm-4~>
            <h3>仓库地址</h3>        
            <p>repo url</p>
            <p>https://github.com/rcore-os/rCore-Tutorial-v3</p>
            </div>
            <div class=~col-sm-4~>
            <h3>QQ 群号</h3>        
            <p>Official QQ group number</p>
            <p>735045051</p>
            </div>
        </div>
        </div>
        
        <div class=~container p-5 text-black text-center d-grid col-sm-4~>
        <p>点击下列按钮即可关闭服务器。</p>
        <button type=~button~ class=~btn btn-warning btn-block p-3~ onclick=~close_server()~>关闭 server</button>
        </div>
        <script>
        function close_server() {
            location.href = ~/close~;
        }
        </script>
        </body>
        </html>".

(** [format!]; [{}] of a [usize] is its decimal digits. *)
Definition response (content : list Z) : list Z :=
  chars "HTTP/1.1 200 OK" ++ CRLF ++ chars "Content-Type: text/html" ++ CRLF ++ chars "Content-Length: " ++ chars (pretty (length content)) ++ CRLF ++
  chars "Connecion: Close" ++ CRLF ++ CRLF ++ content.

(** [String::from_utf8_lossy] of the standard library, on the bytes of the string:
    each character of the valid UTF-8 is kept, and each longest beginning of a
    character that is not completed, or byte that begins none, is replaced. *)
Definition REPLACEMENT : list Z := [239; 191; 189].

Definition between (lo hi c : Z) : bool := (lo <=? c) && (c <=? hi).
Definition byte_at (l : list Z) (i : nat) : Z := default 0 (l !! i).

(** The second byte of a character of three bytes, and of one of four. *)
Definition second_of_three (b c : Z) : bool :=
  if b =? 224 then between 160 191 c else if b =? 237 then between 128 159 c else between 128 191 c.
Definition second_of_four (b c : Z) : bool :=
  if b =? 240 then between 144 191 c else if b =? 244 then between 128 143 c else between 128 191 c.

(** How many bytes the first piece of [l] has, and whether it is a character. *)
Definition first_piece (b : Z) (l : list Z) : nat * bool :=
  if between 0 127 b then (1%nat, true)
  else if between 194 223 b then (if between 128 191 (byte_at l 1) then (2%nat, true) else (1%nat, false))
  else if between 224 239 b then
    (if second_of_three b (byte_at l 1) then (if between 128 191 (byte_at l 2) then (3%nat, true) else (2%nat, false)) else (1%nat, false))
  else if between 240 244 b then
    (if second_of_four b (byte_at l 1) then
       (if between 128 191 (byte_at l 2) then (if between 128 191 (byte_at l 3) then (4%nat, true) else (3%nat, false)) else (2%nat, false))
     else (1%nat, false))
  else (1%nat, false).

Fixpoint lossy_loop (fuel : nat) (l : list Z) : list Z :=
  match fuel, l with
  | S fuel, b :: _ => let '(n, ok) := first_piece b l in (if ok : bool then take n l else REPLACEMENT) ++ lossy_loop fuel (drop n l)
  | _, _ => []
  end.
Definition from_utf8_lossy (s : list Z) : list Z := lossy_loop (length s) s.

(** The loop: the first space from 4 on, or else 0. *)
Definition url_end (req : list Z) : nat :=
  match position (fun c => c =? 32) (drop 4 req) with Some i => (4 + i)%nat | None => 0%nat end.

(** A panic when the slice ends before it begins. *)
Definition get_url_from_tcp_request (req : list Z) : option (list Z) :=
  let index := url_end req in
  if (index <? 4)%nat then None else Some (from_utf8_lossy (take (index - 4) (drop 4 req))).

(** The client's [read] has returned [len] and left [buf]. *)
Definition handle_tcp_client (client_fd : Z) (len : Z) (buf : list Z) : list event * option bool :=
  let received := [Says (chars "receive " ++ chars (pretty len) ++ chars " bytes")] in
  if (usize_wrap len >? Z.of_nat (length buf)) then (received, None)
  else
    let dumped := received ++ hexdump (take (Z.to_nat len) buf) in
    if (len <? 4) || negb (bool_decide (take 4 buf = [71; 69; 84; 32])) then (dumped ++ [Says (chars "it's not a valid http request")], Some false)
    else
      match get_url_from_tcp_request buf with
      | None => (dumped, None)
      | Some url =>
          if bool_decide (url = chars "/close") then (dumped ++ [Writes client_fd (response closed_page)], Some true)
          else (dumped ++ [Writes client_fd (response main_page)], Some false)
      end.

(** What [accept] returns, and then [read] of the client. *)
Record connection := mkConnection { accepted : Z; read_len : Z; read_buf : list Z }.

Inductive ending := Waiting | Exited (code : Z) | Panicked.

Fixpoint serve (clients : list connection) : list event * ending :=
  match clients with
  | [] => ([], Waiting)
  | c :: clients =>
      let connected := [Says (chars "client connected: " ++ chars (pretty (accepted c)))] in
      if accepted c <? 1 then (connected ++ [Says (chars "Failed to accept a client on port 80")], Exited (-1))
      else
        let '(events, r) := handle_tcp_client (accepted c) (read_len c) (read_buf c) in
        match r with
        | None => (connected ++ events, Panicked)
        | Some true => (connected ++ events ++ [Says (chars "finish tcp test")], Exited 0)
        | Some false => let '(later, e) := serve clients in (connected ++ events ++ later, e)
        end
  end.

(** [tcp_fd] is the result of [listen]. *)
Definition main (tcp_fd : Z) (clients : list connection) : list event * ending :=
  let hello := Says (chars "This is a very simple http server") in
  if tcp_fd <? 0 then ([hello; Says (chars "Failed to listen on port 80")], Exited (-1))
  else let '(events, e) := serve clients in (hello :: events, e).

(** ** The text of numbers *)

Definition read_digit (acc : option Z) (c : Z) : option Z := a ← acc; if (48 <=? c) && (c <=? 57) then Some (10 * a + (c - 48)) else None.
Definition read_decimal (s : list Z) : option Z := foldl read_digit (Some 0) s.

Lemma pretty_char_code d : (d < 10)%N -> Z.of_nat (nat_of_ascii (pretty_N_char d)) = 48 + Z.of_N d.
Proof. intros Hd. assert (d = 0 \/ d = 1 \/ d = 2 \/ d = 3 \/ d = 4 \/ d = 5 \/ d = 6 \/ d = 7 \/ d = 8 \/ d = 9)%N as H by lia. by repeat (destruct H as [->|H]; [done|]); subst. Qed.

Lemma read_go x : forall s, foldl read_digit (Some 0) (chars (pretty_N_go x s)) = foldl read_digit (Some (Z.of_N x)) (chars s).
Proof.
  induction (N.lt_wf_0 x) as [x _ IH]; intros s. destruct (decide (0 < x)%N) as [Hx|Hx].
  - rewrite pretty_N_go_step by done. rewrite IH by (by apply N.div_lt). cbn [chars foldl]. f_equal. unfold read_digit at 1. cbn [mbind option_bind].
    pose proof (N.mod_lt x 10 ltac:(done)) as Hm. rewrite pretty_char_code by done. set (d := (x mod 10)%N) in *.
    rewrite (proj2 (Z.leb_le 48 (48 + Z.of_N d))), (proj2 (Z.leb_le (48 + Z.of_N d) 57)) by lia. cbn. f_equal.
    pose proof (N.div_mod x 10 ltac:(done)). lia.
  - replace x with 0%N by lia. done.
Qed.

Lemma read_pretty (n : nat) : read_decimal (chars (pretty n)) = Some (Z.of_nat n).
Proof.
  unfold read_decimal, pretty, pretty_nat, pretty, pretty_N. case_decide as E; [by replace n with 0%nat by lia|]. rewrite read_go. cbn. f_equal. lia.
Qed.

Lemma read_digits_only s : forall a, is_Some (foldl read_digit a s) -> Forall (fun c => 48 <= c <= 57) s.
Proof.
  assert (forall s, foldl read_digit None s = None) as Hnone by (intros s'; by induction s').
  induction s as [|c s IH]; intros a Ha; [constructor|]. cbn [foldl] in Ha. constructor; [|by eapply IH].
  destruct a as [a|]; [|cbn in Ha; rewrite Hnone in Ha; by destruct Ha]. unfold read_digit in Ha at 2. cbn in Ha.
  destruct (_ && _) eqn:E; [apply andb_prop in E as [?%Z.leb_le ?%Z.leb_le]; lia|]. rewrite Hnone in Ha. by destruct Ha.
Qed.

Lemma pretty_digits (n : nat) : Forall (fun c => 48 <= c <= 57) (chars (pretty n)).
Proof. apply (read_digits_only _ (Some 0)). fold (read_decimal (chars (pretty n))). by rewrite read_pretty. Qed.

(** ** What a client reads *)

Fixpoint strip (sep l : list Z) : option (list Z) :=
  match sep, l with
  | [], _ => Some l
  | s :: sep, c :: l => if s =? c then strip sep l else None
  | _ :: _, [] => None
  end.

(** Before and after the first [sep]. *)
Fixpoint split_on (sep l : list Z) : option (list Z * list Z) :=
  match strip sep l with
  | Some after => Some ([], after)
  | None => match l with [] => None | c :: l => '(before, after) ← split_on sep l; Some (c :: before, after) end
  end.

(** The status line, and the body, whose length is what the header says. *)
Definition parse_response (l : list Z) : option (list Z * list Z) :=
  '(headers, body) ← split_on (CRLF ++ CRLF) l;
  '(status, _) ← split_on CRLF headers;
  '(_, field) ← split_on (chars "Content-Length: ") headers;
  '(digits, _) ← split_on CRLF field;
  n ← read_decimal digits;
  if n =? Z.of_nat (length body) then Some (status, body) else None.

(** The separator [sep] does not begin at any place of [a], whatever follows. *)
Fixpoint mismatch (sep a : list Z) : bool :=
  match sep, a with s :: sep, c :: a => if s =? c then mismatch sep a else true | _, _ => false end.
Fixpoint clean (sep a : list Z) : bool := match a with [] => true | _ :: a' => mismatch sep a && clean sep a' end.

Lemma mismatch_strip a l : forall sep, mismatch sep a = true -> strip sep (a ++ l) = None.
Proof. induction a as [|c a IH]; intros [|s sep]; cbn; try done. destruct (s =? c); [apply IH|done]. Qed.

Lemma split_on_clean sep a l : clean sep a = true -> split_on sep (a ++ l) = '(before, after) ← split_on sep l; Some (a ++ before, after).
Proof.
  induction a as [|c a IH]; [intros _; cbn [Datatypes.app]; by destruct (split_on sep l) as [[? ?]|]|]. intros [Hm Hc]%andb_prop. cbn [Datatypes.app split_on].
  pose proof (mismatch_strip (c :: a) l sep Hm) as E. cbn [Datatypes.app] in E. rewrite E, IH by done. by destruct (split_on sep l) as [[? ?]|].
Qed.

Lemma clean_head s sep a : Forall (fun c => c <> s) a -> clean (s :: sep) a = true.
Proof. induction 1 as [|c a Hc _ IH]; [done|]. cbn [clean mismatch]. by rewrite (proj2 (Z.eqb_neq s c)), IH by done. Qed.

Lemma split_on_here sep l : split_on sep (sep ++ l) = Some ([], l).
Proof.
  assert (forall sep l, strip sep (sep ++ l) = Some l) as E by (intros sep'; induction sep' as [|s sep' IH]; intros l'; cbn; [done|by rewrite Z.eqb_refl]).
  specialize (E sep l). revert E. destruct (sep ++ l); cbn [split_on]. all: by intros ->.
Qed.

Lemma parses_response content : parse_response (response content) = Some (chars "HTTP/1.1 200 OK", content).
Proof.
  pose proof (pretty_digits (length content)) as Hd. pose proof (read_pretty (length content)) as Hr. unfold parse_response, response.
  set (digits := chars (pretty (length content))) in *.
  assert (forall sep, clean (13 :: sep) digits = true) as Hc by (intros sep; apply clean_head; eapply Forall_impl; [exact Hd|]; cbn; lia).
  set (status := chars "HTTP/1.1 200 OK"). set (kind := chars "Content-Type: text/html"). set (field := chars "Content-Length: "). set (close := chars "Connecion: Close").
  replace (status ++ _) with ((status ++ CRLF ++ kind ++ CRLF ++ field) ++ digits ++ (CRLF ++ close) ++ (CRLF ++ CRLF) ++ content) by (by rewrite <- !app_assoc).
  rewrite split_on_clean by done. rewrite split_on_clean by apply Hc. rewrite split_on_clean by done. rewrite split_on_here. cbn [mbind option_bind]. rewrite app_nil_r, <- !app_assoc.
  rewrite (split_on_clean CRLF status) by done. rewrite split_on_here. cbn [mbind option_bind]. rewrite app_nil_r.
  replace (status ++ _) with ((status ++ CRLF ++ kind ++ CRLF) ++ field ++ digits ++ CRLF ++ close) by (by rewrite <- !app_assoc).
  rewrite split_on_clean by done. rewrite split_on_here. cbn [mbind option_bind].
  rewrite split_on_clean by apply Hc. rewrite split_on_here. cbn [mbind option_bind]. rewrite app_nil_r, Hr. cbn [mbind option_bind]. by rewrite Z.eqb_refl.
Qed.

(** ** What the dump shows *)

Definition digit_value (c : Z) : Z := if c <? 58 then c - 48 else c - 87.

(** The bytes of a row: pairs of digits, each with a space, up to a pair that is
    blank. *)
Fixpoint undump_cells (n : nat) (row : list Z) : list Z :=
  match n, row with
  | S n, a :: b :: _ :: row => if a =? 32 then [] else (16 * digit_value a + digit_value b) :: undump_cells n row
  | _, _ => []
  end.

Lemma hex_value d : 0 <= d < 16 -> digit_value (hex_digit d) = d /\ hex_digit d <> 32.
Proof. intros Hd. unfold digit_value, hex_digit. repeat case_match; lia. Qed.

Lemma undump_row (data tail : list Z) k : Forall is_byte data -> forall j,
  undump_cells k (concat ((fun i => hex_cell (data !! (j + i)%nat)) <$> seq 0 k) ++ tail) = take k (drop j data).
Proof.
  intros Hb. induction k as [|k IH]; intros j; [done|]. cbn [seq fmap list_fmap concat]. rewrite <- seq_shift, <- list_fmap_compose.
  rewrite (list_fmap_ext _ (fun i => hex_cell (data !! (S j + i)%nat))) by (intros ? i _; cbn; by rewrite Nat.add_succ_r).
  rewrite Nat.add_0_r. rewrite <- app_assoc. destruct (data !! j) as [b|] eqn:E.
  - rewrite (drop_S _ _ _ E). cbn [hex_cell Datatypes.app undump_cells take]. eapply Forall_lookup_1 in Hb as Hb'; [|exact E]. unfold is_byte in Hb'.
    destruct (hex_value (b / 16)) as [E1 Hn]; [split; [apply Z.div_pos; lia|apply Z.div_lt_upper_bound; lia]|]. destruct (hex_value (b mod 16)) as [E2 _]; [by apply Z.mod_pos_bound|]. rewrite (proj2 (Z.eqb_neq _ _)) by done. rewrite E1, E2, IH.
    f_equal. pose proof (Z.div_mod b 16 ltac:(done)). lia.
  - apply lookup_ge_None in E. by rewrite drop_ge by done.
Qed.

(** The bytes a dump shows, row after row. *)
Definition undump (e : event) : list Z := match e with Says row => undump_cells 16 row | Writes _ _ => [] end.
Definition dumped_bytes (events : list event) : list Z := concat (undump <$> removelast (tail events)).

Lemma rows_join (data : list Z) n : concat ((fun o => take 16 (drop o data)) <$> (Nat.mul 16 <$> seq 0 n)) = take (16 * n) data.
Proof.
  induction n as [|n IH]; [done|]. rewrite seq_S, !fmap_app, concat_app, IH. cbn [fmap list_fmap concat Nat.add]. rewrite app_nil_r.
  by replace (16 * S n)%nat with (16 * n + 16)%nat by lia; rewrite <- take_take_drop.
Qed.

Lemma hexdump_shows data : Forall is_byte data -> dumped_bytes (hexdump data) = data.
Proof.
  intros Hb. unfold dumped_bytes, hexdump. cbn [tail]. rewrite removelast_last, <- list_fmap_compose.
  transitivity (concat ((fun o => take 16 (drop o data)) <$> offsets data)).
  - f_equal. apply list_fmap_ext. intros ? o _. cbn [compose undump]. unfold dump_row. by rewrite undump_row.
  - unfold offsets. rewrite rows_join. apply take_ge. pose proof (Nat.div_mod_eq (length data + 15) 16). pose proof (Nat.mod_upper_bound (length data + 15) 16 ltac:(done)). lia.
Qed.

(** ** Requests *)

(** What a client sends: a GET of [url], or anything else. *)
Inductive request := Get (url rest : list Z) | Other (data : list Z).

Definition GET : list Z := [71; 69; 84; 32].
Definition request_bytes (r : request) : list Z := match r with Get url rest => GET ++ url ++ 32 :: rest | Other data => data end.

(** It fits in the buffer; a target has no space in it. *)
Definition request_ok (r : request) : Prop :=
  Forall is_byte (request_bytes r) /\ (length (request_bytes r) <= 1024)%nat /\
  match r with Get url _ => 32 ∉ url | Other data => take 4 data <> GET end.

Definition closing (r : request) : Prop := match r with Get url _ => url = chars "/close" | Other _ => False end.
#[export] Instance closing_dec r : Decision (closing r).
Proof. destruct r; apply _. Defined.

#[export] Instance request_ok_dec r : Decision (request_ok r).
Proof. unfold request_ok. destruct r; apply _. Defined.

(** [read] into the buffer of 1024 zeros. *)
Definition received (fd : Z) (data : list Z) : connection := mkConnection fd (Z.of_nat (length data)) (data ++ replicate (1024 - length data) 0).

(** What the client is to be sent. *)
Definition answer (r : request) : option (list Z) :=
  match r with Get _ _ => Some (if decide (closing r) then closed_page else main_page) | Other _ => None end.

Definition writes (events : list event) : list (Z * list Z) := omap (fun e => match e with Writes fd b => Some (fd, b) | Says _ => None end) events.
Definition answers (fd : Z) (r : request) : list (Z * list Z) := match answer r with Some page => [(fd, response page)] | None => [] end.

Lemma writes_app a b : writes (a ++ b) = writes a ++ writes b.
Proof. apply omap_app. Qed.

Lemma hexdump_writes data : writes (hexdump data) = [].
Proof. unfold hexdump. induction (offsets data) as [|o os IH]; [done|exact IH]. Qed.

Lemma position_skip (a l : list Z) : 32 ∉ a -> position (fun c => c =? 32) (a ++ 32 :: l) = Some (length a).
Proof.
  induction a as [|c a IH]; intros Ha; [done|]. apply not_elem_of_cons in Ha as [Hc Ha]. cbn. rewrite (proj2 (Z.eqb_neq c 32)) by done. by rewrite IH.
Qed.

(** ASCII is kept. *)
Lemma lossy_ascii s : Forall (fun c => 0 <= c < 128) s -> from_utf8_lossy s = s.
Proof.
  unfold from_utf8_lossy. induction 1 as [|c s Hc _ IH]; [done|]. cbn [length lossy_loop]. assert (between 0 127 c = true) as E by (apply andb_true_intro; split; apply Z.leb_le; lia).
  unfold first_piece. rewrite E. cbn. by rewrite take_0, drop_0, IH.
Qed.

Lemma first_piece_pos b l : (1 <= (first_piece b l).1)%nat.
Proof. unfold first_piece. repeat case_match; cbn; lia. Qed.

(** What is not kept leaves a replacement character. *)
Lemma lossy_marks s : from_utf8_lossy s = s \/ exists l r, from_utf8_lossy s = l ++ REPLACEMENT ++ r.
Proof.
  unfold from_utf8_lossy. cut (forall fuel s, (length s <= fuel)%nat -> lossy_loop fuel s = s \/ exists l r, lossy_loop fuel s = l ++ REPLACEMENT ++ r); [by auto|]. clear s. intros fuel.
  induction fuel as [|fuel IH]; intros [|b s] Hf; try (by left); [cbn in Hf; lia|]. cbn [lossy_loop]. pose proof (first_piece_pos b (b :: s)) as Hn.
  destruct (first_piece b (b :: s)) as [n ok]. cbn [fst] in Hn. destruct ok; [|right; by exists [], (lossy_loop fuel (drop n (b :: s)))].
  destruct (IH (drop n (b :: s))) as [E|(l & r & E)]; [rewrite length_drop; cbn in *; lia| |]; rewrite E.
  - left. apply take_drop.
  - right. exists (take n (b :: s) ++ l), r. by rewrite <- app_assoc.
Qed.

Lemma lossy_close url : from_utf8_lossy url = chars "/close" <-> url = chars "/close".
Proof.
  split; [|intros ->; apply lossy_ascii; by repeat constructor]. intros E. destruct (lossy_marks url) as [E2|(l & r & E2)]; [by rewrite <- E2|].
  exfalso. assert (239 ∈ chars "/close") as H by (rewrite <- E, E2; apply elem_of_app; right; by left).
  apply (bool_decide_eq_true_2 (239 ∈ chars "/close")) in H. done.
Qed.

Lemma url_of (url rest : list Z) : 32 ∉ url -> get_url_from_tcp_request (GET ++ url ++ 32 :: rest) = Some (from_utf8_lossy url).
Proof.
  intros Hu. unfold get_url_from_tcp_request, url_end. change (drop 4 (GET ++ url ++ 32 :: rest)) with (url ++ 32 :: rest). rewrite position_skip by done.
  rewrite (proj2 (Nat.ltb_ge _ _)) by lia. replace (4 + length url - 4)%nat with (length url) by lia. by rewrite take_app_length.
Qed.

(** The connection of one request. *)
Lemma handle_request fd r : request_ok r -> exists said,
  handle_tcp_client fd (Z.of_nat (length (request_bytes r))) (read_buf (received fd (request_bytes r))) =
    (said, Some (bool_decide (closing r))) /\
  writes said = answers fd r.
Proof.
  intros (Hb & Hlen & Hr). unfold handle_tcp_client. cbn [received read_buf]. set (data := request_bytes r) in *.
  unfold usize_wrap. rewrite Z.mod_small by lia. rewrite length_app, length_replicate, Z.gtb_ltb, (proj2 (Z.ltb_ge _ _)) by lia.
  rewrite Nat2Z.id, take_app_length. destruct r as [url rest|other]; cbn [request_bytes] in data.
  - assert (4 <= Z.of_nat (length data)) as H4 by (subst data; rewrite length_app; cbn; lia). rewrite (proj2 (Z.ltb_ge _ _)) by lia.
    assert (take 4 (data ++ replicate (1024 - length data) 0) = GET) as -> by done. rewrite bool_decide_true by done. cbn [orb negb].
    assert (data ++ replicate (1024 - length data) 0 = GET ++ url ++ 32 :: (rest ++ replicate (1024 - length data) 0)) as -> by (subst data; by rewrite <- !app_assoc).
    rewrite url_of by done. cbn [closing]. unfold answers, answer. cbn [closing].
    destruct (decide (url = chars "/close")) as [->|Hne].
    + rewrite bool_decide_true by (by apply lossy_close). rewrite (bool_decide_true (chars "/close" = _)) by done. eexists. split; [done|].
      by rewrite writes_app, writes_app, hexdump_writes.
    + rewrite bool_decide_false by (by rewrite lossy_close). rewrite (bool_decide_false (url = _)) by done. eexists. split; [done|].
      by rewrite writes_app, writes_app, hexdump_writes.
  - assert ((Z.of_nat (length data) <? 4) || negb (bool_decide (take 4 (data ++ replicate (1024 - length data) 0) = [71; 69; 84; 32])) = true) as ->.
    { destruct (Z.of_nat (length data) <? 4) eqn:E; [done|]. apply Z.ltb_ge in E. cbn [orb]. rewrite take_app_le by lia. by rewrite bool_decide_false. }
    rewrite (bool_decide_false False) by tauto. eexists. split; [done|]. by rewrite writes_app, writes_app, hexdump_writes.
Qed.

(** What [serve] does with the clients of [l] before [later]. *)
Definition goes_on (c : Z * request) : Prop := 1 <= c.1 /\ request_ok c.2 /\ ~ closing c.2.
#[export] Instance goes_on_dec c : Decision (goes_on c).
Proof. unfold goes_on. apply _. Defined.
Definition connect_all (l : list (Z * request)) : list connection := (fun c => received c.1 (request_bytes c.2)) <$> l.
Definition answers_all (l : list (Z * request)) : list (Z * list Z) := concat ((fun c => answers c.1 c.2) <$> l).

Lemma serve_clients l : Forall goes_on l -> exists said, writes said = answers_all l /\
  forall later, serve (connect_all l ++ later) = ((said ++ (serve later).1), (serve later).2).
Proof.
  induction 1 as [|[fd r] l (Hfd & Hok & Hc) _ (said & Hw & IH)]; [exists []; split; [done|]; intros later; apply surjective_pairing|]. cbn [fst snd] in *.
  destruct (handle_request fd r Hok) as (said1 & E1 & Hw1). exists (Says (chars "client connected: " ++ chars (pretty fd)) :: said1 ++ said). split.
  - change (writes (_ :: ?e)) with (writes e). by rewrite writes_app, Hw, Hw1.
  - intros later. cbn [connect_all fmap list_fmap Datatypes.app serve fst snd]. cbn [received accepted read_len]. rewrite (proj2 (Z.ltb_ge fd 1)) by lia.
    rewrite E1, (bool_decide_false (closing r)) by done. rewrite IH. cbn [fst snd Datatypes.app]. by rewrite <- app_assoc.
Qed.

Lemma panic_without_space fd url : Forall is_byte url -> 32 ∉ url -> (length (GET ++ url) <= 1024)%nat -> exists said,
  handle_tcp_client fd (Z.of_nat (length (GET ++ url))) (read_buf (received fd (GET ++ url))) = (said, None) /\ writes said = [].
Proof.
  intros Hb Hu Hlen. unfold handle_tcp_client. cbn [received read_buf]. set (data := GET ++ url) in *. unfold usize_wrap.
  rewrite Z.mod_small by lia. rewrite length_app, length_replicate, Z.gtb_ltb, (proj2 (Z.ltb_ge _ _)) by lia.
  rewrite Nat2Z.id, take_app_length. assert (4 <= Z.of_nat (length data)) as H4 by (subst data; rewrite length_app; cbn; lia). rewrite (proj2 (Z.ltb_ge (Z.of_nat _) 4)) by lia.
  assert (take 4 (data ++ replicate (1024 - length data) 0) = GET) as -> by done. rewrite bool_decide_true by done. cbn [orb negb].
  unfold get_url_from_tcp_request, url_end. change (drop 4 (data ++ ?t)) with (url ++ t).
  assert (position (fun c => c =? 32) (url ++ replicate (1024 - length data) 0) = None) as ->.
  { apply position_None. apply Forall_app. split; [|by apply Forall_replicate]. apply Forall_forall. intros c Hc. apply Z.eqb_neq. by intros ->. }
  eexists. split; [done|]. cbn. apply hexdump_writes.
Qed.

(** C21: the web server answers every client, and stops when it is told to.
    Whatever clients have come, as long as each sent at most 1024 bytes that are a
    GET of some target other than "/close", or not a GET at all, the server has
    written to each GET's socket the response with the page, has written nothing to
    the others, and waits for the next client.  Then a GET of "/close" gets the
    other page and the server exits with 0; an [accept] that fails makes it exit
    with -1; and it panics when [read] fails, and when a GET has no space after its
    target within the buffer.  A client that splits a response at the first empty
    line finds the page, of just the length the header gives, and the dump on the
    console shows the bytes that came. *)
Theorem http_server_answers tcp_fd l :
  0 <= tcp_fd -> Forall goes_on l ->
  let run := fun next => main tcp_fd (connect_all l ++ next) in
  (forall page, parse_response (response page) = Some (chars "HTTP/1.1 200 OK", page)) /\ (forall data, Forall is_byte data -> dumped_bytes (hexdump data) = data) /\
  exists said, writes said = answers_all l /\ run [] = (said, Waiting) /\
    (forall fd r later, 1 <= fd -> request_ok r -> closing r ->
       exists last, writes last = [(fd, response closed_page)] /\ run (received fd (request_bytes r) :: later) = (said ++ last, Exited 0)) /\
    (forall c later, accepted c < 1 -> exists last, writes last = [] /\ run (c :: later) = (said ++ last, Exited (-1))) /\
    (forall fd len buf later, 1 <= fd -> - 2 ^ 63 <= len < 0 -> length buf = 1024%nat ->
       exists last, writes last = [] /\ run (mkConnection fd len buf :: later) = (said ++ last, Panicked)) /\
    (forall fd url later, 1 <= fd -> Forall is_byte url -> 32 ∉ url -> (length (GET ++ url) <= 1024)%nat ->
       exists last, writes last = [] /\ run (received fd (GET ++ url) :: later) = (said ++ last, Panicked)).
Proof.
  intros Hfd Hl. cbv zeta. split; [apply parses_response|]. split; [apply hexdump_shows|].
  destruct (serve_clients l Hl) as (said & Hw & E). exists (Says (chars "This is a very simple http server") :: said). unfold main.
  rewrite (proj2 (Z.ltb_ge tcp_fd 0)) by lia. split; [exact Hw|]. split; [rewrite E; cbn; by rewrite app_nil_r|]. split_and!.
  - intros fd r later Hf Hr Hc. destruct (handle_request fd r Hr) as (s1 & E1 & Hw1). rewrite E. cbn [serve received accepted read_len read_buf].
    rewrite (proj2 (Z.ltb_ge fd 1)) by lia. cbn [received accepted read_len read_buf] in E1. rewrite E1, (bool_decide_true (closing r)) by done.
    eexists. split; cycle 1; [done|]. cbn [fst]. change (writes ([_] ++ ?e)) with (writes e). rewrite writes_app, Hw1. unfold answers, answer. destruct r; [|done]. by rewrite decide_True.
  - intros c later Hc. rewrite E. cbn [serve]. rewrite (proj2 (Z.ltb_lt _ _)) by done. eexists. split; cycle 1; done.
  - intros fd len buf later Hf Hlen Hbuf. rewrite E. cbn [serve accepted read_len read_buf]. rewrite (proj2 (Z.ltb_ge fd 1)) by lia.
    unfold handle_tcp_client. assert ((usize_wrap len >? Z.of_nat (length buf)) = true) as ->; [|eexists; split; cycle 1; done].
    rewrite Hbuf. unfold usize_wrap. rewrite <- (Z.mod_add len 1), Z.mod_small by lia. apply Z.gtb_lt. lia.
  - intros fd url later Hf Hb Hu Hlen. destruct (panic_without_space fd url Hb Hu Hlen) as (s1 & E1 & Hw1). rewrite E. cbn [serve received accepted read_len read_buf].
    rewrite (proj2 (Z.ltb_ge fd 1)) by lia. cbn [received accepted read_len read_buf] in E1. rewrite E1. eexists. split; cycle 1; [done|exact Hw1].
Qed.

(** A browser that asks for the page, a client that is not one, and a close. *)
Lemma http_server_answers_witness :
  let clients := connect_all [(5, Get (chars "/") (chars "HTTP/1.1" ++ CRLF ++ CRLF)); (6, Other (chars "hi"))] in
  exists events, main 3 (clients ++ [received 7 (GET ++ chars "/close HTTP/1.1")]) = (events, Exited 0) /\
    writes events = [(5, response main_page); (7, response closed_page)].
Proof.
  destruct (http_server_answers 3 [(5, Get (chars "/") (chars "HTTP/1.1" ++ CRLF ++ CRLF)); (6, Other (chars "hi"))]) as (_ & _ & said & Hw & _ & Hclose & _); [lia| |].
  { apply (bool_decide_unpack _). vm_compute. exact I. }
  destruct (Hclose 7 (Get (chars "/close") (chars "HTTP/1.1")) []) as (last & Hw2 & E); [lia|apply (bool_decide_unpack _); vm_compute; exact I|done|].
  exists (said ++ last). split; [exact E|]. by rewrite writes_app, Hw, Hw2.
Defined.
